(* ===== verification/_CoqProject ===== *)
-Q . S2P
Prelude.v
Xdr.v
Protocol.v
Handle.v
Events.v
Conn.v
LibProto.v
LibProtoSpec.v
LibProtoSafe.v
DaemonProto.v
DaemonSpec.v
Utils.v
Config.v
EndToEnd.v
Lifecycle.v
Drives.v
Command.v
Guestfsd.v
LibFile.v
Transfers.v
Create.v
Fuse.v
Helpers.v
FishParse.v
Fish.v
Procs.v
Parted.v
DevParts.v
Filesys.v
Md.v
Lvm.v
Mount.v
Content.v
Files.v
GuestCmd.v
Xfs.v
Regex.v
Btrfs.v
Xattr.v
Dirs.v
Args.v
Stubs.v
Calls.v
Inspect.v
InspectUnix.v
InspectCd.v
InspectWin.v
InspectSafe.v
InspectOs.v
InspectSpec.v
Backend.v
Appliance.v
Direct.v
DirectSafe.v
DirectLaunch.v
DirectSpec.v
ApplianceSpec.v
