(* ===== verification/Prelude.v ===== *)
(** * libguestfs 1.28.1: a verification of the library, the daemon and the shell

    libguestfs runs a small virtual machine (the appliance) that holds a
    daemon, guestfsd.  A program links the library, creates a handle,
    configures it and adds drives, launches the appliance, and then calls
    procedures of the daemon over a byte stream; guestfish is a shell for these
    calls.  This library models the C code of those parts and proves what it
    promises.  All paths below are under src/libguestfs-1.28.1/.

    ** Files

    The library:
    - [Prelude]: outcomes and the state monad of the C code, triples
      ([hoare], which allow blocking; [total]), machine integers, big-endian
      words, record updates, lists and the tactics and hints the other files
      share.
    - [Xdr], [Protocol]: XDR streams, and the messages of generator/xdr.ml.  A
      marshalling routine is an instance of [XdrCodec]; [XdrLaws] is the round
      trip the protocol relies on, proved for the protocol's own structures.
    - [Handle]: struct guestfs_h and what it owns (src/guestfs-internal.h), and
      src/errors.c.  Callbacks and stderr are the ordered list [g_out].
    - [Events]: src/events.c, with the messages and traces of src/errors.c.
    - [Conn]: the interface of a connection ([ConnOps], struct
      connection_ops), its contract ([ConnLaws]) and the socket
      implementation of src/conn-socket.c, which discharges it.
    - [LibProto]: src/proto.c and the reply checks of src/actions-support.c,
      over any [ConnOps].  [LibProtoSpec] says what each operation does on a
      healthy connection, [LibProtoSafe] what holds on every connection.
    - [Utils]: src/utils.c.
    - [Config]: the settings of src/handle.c, backend choice of src/launch.c,
      src/tmpdirs.c, the environment, and the API wrapper of generator/c.ml.
    - [Lifecycle]: create, launch, shutdown and close (src/handle.c,
      src/launch.c).
    - [Drives]: src/drives.c.
    - [Command]: src/command.c and src/stringsbuf.c, the runner of
      subprocesses.
    - [LibFile]: src/file.c, the calls built out of other calls, over any guest
      ([GuestCalls]) that behaves as documented ([GuestLaws]).
    - [Create]: src/create.c, disk images.
    - [Fuse]: src/fuse.c, mount_local with its three caches, over any hash
      table ([HashLaws]) and any calls ([FuseCalls], [FuseLaws]).
    - [Helpers]: src/private-data.c, src/guid.c, src/canonical-name.c.
    - [Regex]: regular expressions as PCRE matches them, and src/match.c.
    - [Inspect], [InspectUnix], [InspectCd], [InspectWin], [InspectOs]:
      inspection: src/inspect.c, src/inspect-fs.c, src/inspect-fs-unix.c,
      src/inspect-fs-cd.c, src/inspect-fs-windows.c, src/listfs.c and the
      lookup of src/osinfo.c.  [InspectSafe] has the logic of its steps (only
      queries, error handlers restored, stops only after a bad answer) and
      applies it to every check of a file system; [InspectSpec] has the
      theorems.
    - [Backend]: the state of the direct backend, what it shares with the
      system (descriptors, children, programs it runs), src/lpj.c and the
      appliance's kernel command line of src/launch.c.
    - [Appliance]: src/appliance.c.  [Direct]: src/launch-direct.c, the qemu
      command line, launch and shutdown.  [DirectSafe] has the logic of its
      steps ([calmly]: they leave the handle, descriptors and children alone)
      and applies it to everything up to the fork; [DirectLaunch] follows the
      descriptors and children to the end; [DirectSpec] says what qemu reads
      out of its command line, [ApplianceSpec] which appliance is used.

    The protocol of the daemon, and the two sides joined:
    - [DaemonProto]: daemon/proto.c, daemon/upload.c and xread and xwrite of
      daemon/guestfsd.c.  [DaemonSpec]: what they guarantee.
    - [EndToEnd]: the client stubs of generator/c.ml and a daemon that serves
      one procedure, joined.
    - [Args]: the marshalling of arguments and results of every kind
      ([XdrProc] is the law of a routine).
    - [Stubs]: the daemon's stubs and the dispatcher (generator/daemon.ml) for
      procedures without files, and the contract [procedure_ok] they rely on:
      a procedure has replied with one error exactly when it returns its error
      value.
    - [Calls]: tables of the procedures below that keep the contract, with
      their numbers and styles from generator/actions.ml, and calls from the
      library to a procedure and back.

    The procedures of the daemon:
    - [Guestfsd]: the shared functions of daemon/guestfsd.c (commands, string
      lists, device names, mountables, shell quoting).
    - [Procs]: the state of a procedure, running programs, error replies,
      sscanf, and the logic ([emits], [one_reply]) that counts replies; with
      daemon/blockdev.c and the helpers of daemon/mount.c and daemon/zero.c.
    - [Parted], [DevParts]: daemon/parted.c, daemon/devsparts.c.
    - [Filesys]: daemon/ext2.c, daemon/mkfs.c, daemon/labels.c,
      daemon/uuids.c, daemon/blkid.c.
    - [Md]: daemon/md.c.  [Lvm]: daemon/lvm.c.  [Mount]: daemon/mount.c.
    - [Content]: the loops over the content of files and devices:
      daemon/zero.c, daemon/copy.c, daemon/dd.c, daemon/fill.c,
      daemon/truncate.c, daemon/fallocate.c.
    - [Files]: daemon/file.c, daemon/dir.c, daemon/cpmv.c, daemon/link.c,
      daemon/is.c, daemon/headtail.c, daemon/wc.c.
    - [GuestCmd]: daemon/command.c, programs of the guest.
    - [Xattr]: daemon/xattr.c, and copy_attributes of daemon/file.c.
    - [Dirs]: daemon/stat.c, daemon/readdir.c, daemon/statvfs.c,
      daemon/realpath.c, daemon/mknod.c, daemon/utimens.c, daemon/umask.c,
      daemon/mktemp.c, daemon/glob.c, daemon/du.c, daemon/df.c, and ll and llz
      of daemon/ls.c.
    - [Xfs]: daemon/xfs.c.  [Btrfs]: daemon/btrfs.c, daemon/available.c,
      daemon/modprobe.c.
    - [Transfers]: the procedures that send or receive a file through a
      program: daemon/tar.c, daemon/compress.c, daemon/base64.c,
      daemon/cpio.c, daemon/find.c, and ls0 of daemon/ls.c.

    The shell:
    - [FishParse], [Fish]: command lines, quoting, prompts, globbing, URIs and
      the commands on the command line of guestfish (fish/fish.c, fish/glob.c,
      fish/tilde.c, fish/uri.c, fish/copy.c).

    A definition has the name of the C function or structure it translates; a
    helper stands for a part of one (a loop, a guard, a label).

    ** How C is modelled

    A function is a state transformer [M S A] of the part of the state it uses:
    the handle ([hm]), the handle with its connection and the local file
    ([lib C]), the daemon ([dm]), a procedure of the daemon ([proc]).  Its
    outcome is a value, or a stop: exit, a failed assertion, blocking for
    ever, exhausted fuel, or an access outside an object ([Undefined]).
    Integers are Z with their wrap-around written out (u32, s32, u64, s64).
    Bytes are [Byte.byte], C strings are [string].  What a system call answers
    is a script in the state (results of read, write, poll, select, accept,
    the clock), so that every interleaving of short reads and writes, EINTR,
    console output and cancellations is one value the theorems quantify over.

    A procedure of the daemon keeps a log of what it does to the outside
    ([action]); what a program prints, what the file system holds and what a
    system call answers are functions of the log ([denv], [disk],
    [file_world], [xattr_world], [dir_world], [shell_world], [btrfs_world]),
    so the theorems hold for every behaviour of the outside; for the
    procedures of [Transfers] they are functions of the arguments
    ([transfer_world]).  The content of a file is computed from the writes in the
    log.  Where a theorem needs a program or the kernel to behave as
    documented, that is a hypothesis ([prints], [Starts], [WipefsWorks],
    [UmountWorks], [MkdirTree], [disk_ok], [XattrFs], [Restorable]) with a concrete instance in its
    witness.

    Code that is not C of this repository is a parameter of the definitions
    that use it: the file system, the backend's functions ([backend_ops]),
    disk creation, hash tables of gnulib ([HashOps]), libxml2's parser of
    URIs, sscanf of floating point numbers, the generated daemon calls of
    shutdown and hotplugging.  For the direct backend they are realpath,
    access, lstat, stat and open of files, getenv, the ids of the process and
    libxml2's writer of URIs; socket, bind, fork and waitpid answer from
    scripts, each program that is run has a kernel of its own, and a new
    descriptor or pid is one that is not in use.  For inspection the calls of the API are a
    parameter too: their answers are functions of all the calls made before
    ([guest_api]), so the theorems hold for every guest; iconv
    ([iconv_world]), the entries of the libosinfo database and the number of
    buckets of gnulib's tables are others.

    ** Fuel

    Loops of src/proto.c are fuelled by [fuel_of], a bound on the bytes and
    events still in the connection and file scripts; each turn uses at least
    one.  The loops of src/conn-socket.c use the length of the scripts plus the
    bytes left ([read_fuel], [write_fuel]), those of src/command.c and of
    commandrvf a measure of the pipes ([loop_measure], [crv_measure]), those of
    the daemon's protocol the length of the input, and those of [Content] the
    number of bytes to transfer.  The retries of utf16_to_utf8 are at most 64,
    since the size of the buffer is doubled until it overflows.  Parsers, and
    the search of a path ([find_path_elements]), use the length of their text.
    [stub_safe], [socket_read_correct], [socket_write_correct],
    [cmd_resources_released], [parse_command_line_total],
    [daemon_answers_once] and [inspect_os_safe] prove that the fuel is never exhausted; the other
    theorems about fuelled functions state that a result is returned.

    ** What the theorems show

    - The two sides agree: a call of any procedure that keeps the contract
      returns its result or its error ([procedure_call]), every request gets
      exactly one answer ([daemon_answers_once]), part_list works from the
      caller to parted and back; arguments have the bytes of RFC 4506
      ([args_marshalling]); uploads and downloads transfer exactly the file.
    - The library's protocol: the state machine of the handle, that every stub
      returns or blocks without failing an assertion or using a lost
      connection, and for each operation the bytes read and written, on
      success, on failure, and under cancellation from either side.
    - The daemon's protocol: transfers stay synchronised whatever fails in the
      guest, error replies are bounded, progress messages are rate limited,
      the signal handler sends the same bytes as XDR.
    - The procedures: output of parted, blkid, lvm and /proc/mdstat is read
      back exactly; devices are wiped only just before mkfs; copying, zeroing
      and writing are exact whatever the sizes of partial transfers;
      umount_all unmounts everything, children first; mkdir_p ends and makes
      the path; a program of the guest leaves the mounts and resolv.conf as
      they were ([command_restores]); extended attributes and attributes of
      files reach the library and its caches whole, whatever the number of
      files ([lxattrlist_end_to_end], [lstatlist_end_to_end]);
      case_sensitive_path finds the names that are there ([leads]); the output
      of xfs_info and btrfs subvolume list is read back.
    - Transfers through programs: tar, compression, base64, cpio, ls0 and
      find0 keep the protocol in step whatever fails (but for a compression
      type that tar_in does not know), and a transfer is marked
      complete only when the program succeeded and all its output was sent.
    - Drives: every drive is always valid and every read-only one has an
      overlay; hotplug touches one slot; rollback restores.
    - The handle: configuration calls keep the handle well-formed, environment
      variables mean what they should, backend settings are a store, create,
      launch, shutdown and close.
    - Subprocesses: descriptors and children are released on every path, and
      output is delivered in the form asked for.
    - Files through the library: what is written is read back, large or small,
      lines and names are split and sorted, no descriptor or temporary file is
      left behind.  Images have the size asked for or do not exist, and names
      with commas reach qemu-img unharmed.
    - FUSE: an attribute served from the cache is at most the timeout old, the
      mount sees its own changes at once (but for what is below a renamed
      directory, [rename_leaves_children_cached]), a read-only mount changes
      nothing, and a session that ends leaves no mount, channel or cache.
    - Inspection: inspect_os makes only queries and read-only mounts, leaves
      nothing mounted and the error handlers in place, returns the sorted
      roots that the getters know, and stops only on answers that
      [bad_answer] lists ([inspect_os_safe]); list_filesystems is the
      reference definition [filesystems]; device names of /etc/fstab are
      translated to the device with the same index or name
      ([fstab_device_resolved]).
    - The direct backend: whatever fails during a launch, the process has
      afterwards the descriptors and children it should have, but for two
      leaks that are named ([launch_direct_resources]); qemu reads of every
      drive exactly the options that were meant ([drives_args_read]); the
      appliance is the first one of the search path, and a cached one is
      used only from a directory nobody else can write to
      ([appliance_chosen]).
    - guestfish: command lines are parsed totally and read back what was
      quoted; glob runs the product of its expansions.
    - [send_file_lost_terminator] and [upload_offset_negative_desync] prove two
      defects of the protocol; lemmas next to the definitions show the other
      places where the code does not do what it says (for example
      [accept_timeout_overrun], [port_wraps_around], [hotplug_not_first],
      [part_get_name_replies_twice], [list_partitions_double_free],
      [part_to_partnum_no_reply], [zero_device_short_read],
      [copy_sparse_loses_end], [lvm_two_tags_fail], [readlinklist_bad_free],
      [read_file_closes_twice], [blkdiscard_success_reported],
      [tar_in_unknown_compression_desync], [find0_long_path_replies_twice],
      [getxattrs_uninitialised], [getxattrs_overread],
      [lxattrlist_unreadable_value],
      [readdir_error_ignored], [subvolume_path_cut],
      [set_seeding_failure_ignored], [md_lookup_wrong_array],
      [btrfs_two_options], [fstab_double_free], [product_name_overrun],
      [appliance_dev_shared]).

    ** What is not modelled

    Memory allocation and its failure, DTrace probes, text written on the
    daemon's console, the interval timer of pulse mode, the progress messages
    sent inside procedures, threads (the handle is used by one thread;
    guestfs_user_cancel from another is part of the script), the backends
    other than the direct one (src/launch-libvirt.c, src/launch-uml.c,
    src/launch-unix.c), the listing of applications and icons of a guest
    (src/inspect-apps.c, src/inspect-icon.c), the reading of the libosinfo XML
    files, the daemon procedures of files not listed above, the interactive
    part of guestfish, the tools, the bindings.  Inspection reads the keys of
    MountedDevices twice, first to size an array; that the second reading
    finds no more keys is taken for granted, the array is a list.

    ** What is left

    Of the library: src/info.c (JSON of qemu-img), src/journal.c (a loop over
    calls), src/inspect-apps.c and src/filearch.c, which run programs of the
    host on files of the guest, and the libvirt and UML backends.
    Of the daemon: the glue to Augeas, hivex, inotify and the journal, and the
    procedures that pass on the output of one program.  Of guestfish: the
    interactive loop, remote control and editing.  None of them is needed by
    the parts above. *)

From stdpp Require Export base list strings gmap pretty.
From Stdlib Require Export Strings.Byte ZArith Lia.

#[export] Set Default Goal Selector "!".

(** * Outcomes and the state monad

    The C code terminates in more ways than by returning: the daemon calls
    [exit (EXIT_FAILURE)], an [assert] aborts, a blocking system call may wait
    for ever.  A computation is a state transformer whose result is either a
    value or one of these stops. *)

Inductive stop : Type :=
  | Blocked          (* a blocking call for which no more input will arrive *)
  | Exited           (* exit (EXIT_FAILURE) *)
  | AssertFailed     (* assert () or abort () *)
  | OutOfFuel        (* a fuelled loop ran out: proved unreachable where it matters *)
  | Undefined.       (* an access outside an object, on which C puts no bound *)

#[export] Instance stop_eq_dec : EqDecision stop.
Proof. solve_decision. Defined.

Inductive outcome (A : Type) : Type :=
  | Ret (a : A)
  | Stop (why : stop).
Arguments Ret {A} a.
Arguments Stop {A} why.

Definition M (S A : Type) : Type := S -> outcome A * S.

Definition ret {S A} (a : A) : M S A := fun s => (Ret a, s).

Definition bind {S A B} (m : M S A) (f : A -> M S B) : M S B :=
  fun s => match m s with
           | (Ret a, s') => f a s'
           | (Stop w, s') => (Stop w, s')
           end.

Definition halt {S A} (w : stop) : M S A := fun s => (Stop w, s).
Definition get {S} : M S S := fun s => (Ret s, s).
Definition gets {S A} (f : S -> A) : M S A := fun s => (Ret (f s), s).
Definition modify {S} (f : S -> S) : M S unit := fun s => (Ret tt, f s).

(** Run a computation on a component of the state. *)
Definition zoom {S T A} (g : S -> T) (p : T -> S -> S) (m : M T A) : M S A :=
  fun s => let '(r, t) := m (g s) in (r, p t s).

Declare Scope c_scope.
Delimit Scope c_scope with c.

Notation "x <- m ;; k" := (bind m (fun x => k))
  (at level 100, m at next level, right associativity) : c_scope.
Notation "'let*' p := m 'in' k" := (bind m (fun x => match x with p => k end))
  (at level 10, p pattern, m at level 200, k at level 200) : c_scope.
Notation "m ;;; k" := (bind m (fun _ => k))
  (at level 100, right associativity) : c_scope.
Open Scope c_scope.

Lemma bind_Ret {S A B} (m : M S A) (f : A -> M S B) s a s' :
  m s = (Ret a, s') -> bind m f s = f a s'.
Proof. unfold bind. by intros ->. Qed.

Lemma bind_Stop {S A B} (m : M S A) (f : A -> M S B) s w s' :
  m s = (Stop w, s') -> bind m f s = (Stop w, s').
Proof. unfold bind. by intros ->. Qed.

Lemma bind_modify {S B} (f : S -> S) (k : unit -> M S B) s : bind (modify f) k s = k tt (f s).
Proof. done. Qed.
Lemma bind_gets {S A B} (f : S -> A) (k : A -> M S B) s : bind (gets f) k s = k (f s) s.
Proof. done. Qed.

Lemma bind_inv {S A B} (m : M S A) (f : A -> M S B) s b s' :
  bind m f s = (Ret b, s') -> exists a s1, m s = (Ret a, s1) /\ f a s1 = (Ret b, s').
Proof. unfold bind. destruct (m s) as [[a|w] s1]; naive_solver. Qed.

(** Triples: a computation either returns with [Q] or blocks for ever.  It does
    not exit, fail an assertion, use a NULL pointer or run out of fuel. *)
Definition hoare {S A} (P : S -> Prop) (m : M S A) (Q : A -> S -> Prop) : Prop :=
  forall s, P s -> match m s with
                   | (Ret a, s') => Q a s'
                   | (Stop w, _) => w = Blocked
                   end.

Section hoare.
Context {S A B : Type}.
Implicit Types (P : S -> Prop) (m : M S A) (Q : A -> S -> Prop) (R : B -> S -> Prop).

Lemma hoare_ret P (a : A) Q : (forall s, P s -> Q a s) -> hoare P (ret a) Q.
Proof. intros H s Hs. by apply H. Qed.
Lemma hoare_bind P m Q (f : A -> M S B) R :
  hoare P m Q -> (forall a, hoare (Q a) (f a) R) -> hoare P (bind m f) R.
Proof.
  intros Hm Hf s Hs. specialize (Hm s Hs). unfold bind.
  destruct (m s) as [[a|w] s']; [|done]. by apply Hf.
Qed.
Lemma hoare_conseq P P' m Q Q' :
  hoare P' m Q' -> (forall s, P s -> P' s) -> (forall a s, Q' a s -> Q a s) -> hoare P m Q.
Proof.
  intros Hm HP HQ s Hs. specialize (Hm s (HP s Hs)). destruct (m s) as [[a|w] s']; auto.
Qed.
Lemma hoare_pre P P' m Q : hoare P' m Q -> (forall s, P s -> P' s) -> hoare P m Q.
Proof. intros. eapply hoare_conseq; eauto. Qed.
Lemma hoare_post P m Q Q' : hoare P m Q' -> (forall a s, Q' a s -> Q a s) -> hoare P m Q.
Proof. intros. eapply hoare_conseq; eauto. Qed.
Lemma hoare_modify P f (Q : unit -> S -> Prop) :
  (forall s, P s -> Q tt (f s)) -> hoare P (modify f) Q.
Proof. intros H s Hs. by apply H. Qed.
Lemma hoare_if P m m' Q (b : bool) :
  (b = true -> hoare P m Q) -> (b = false -> hoare P m' Q) -> hoare P (if b then m else m') Q.
Proof. destruct b; auto. Qed.
(** A computation that first looks at the state. *)
Lemma hoare_state P (k : S -> M S A) Q :
  (forall s0, P s0 -> hoare (fun s => s = s0) (k s0) Q) -> hoare P (fun s => k s s) Q.
Proof. intros H s Hs. exact (H s Hs s eq_refl). Qed.
End hoare.

Lemma hoare_returns {S A} (m : M S A) s P Q :
  hoare P m Q -> P s ->
  ((exists a s', m s = (Ret a, s')) \/ fst (m s) = Stop Blocked) /\ (forall a s', m s = (Ret a, s') -> Q a s').
Proof.
  intros H Hs. specialize (H s Hs). destruct (m s) as [[a|w] s']; cbn; split; naive_solver.
Qed.

(** Total-correctness triples: the computation returns. *)
Definition total {S A} (P : S -> Prop) (m : M S A) (Q : A -> S -> Prop) : Prop :=
  forall s, P s -> exists a s', m s = (Ret a, s') /\ Q a s'.

Section total.
Context {S A B : Type}.
Implicit Types (P : S -> Prop) (m : M S A) (Q : A -> S -> Prop) (R : B -> S -> Prop).

Lemma total_ret P (a : A) Q : (forall s, P s -> Q a s) -> total P (ret a) Q.
Proof. intros H s Hs. exists a, s. auto. Qed.
Lemma total_bind P m Q (f : A -> M S B) R :
  total P m Q -> (forall a, total (Q a) (f a) R) -> total P (bind m f) R.
Proof.
  intros Hm Hf s Hs. destruct (Hm s Hs) as (a & s1 & E & Ha). rewrite (bind_Ret _ _ _ _ _ E).
  by apply Hf.
Qed.
Lemma total_conseq P P' m Q Q' :
  total P' m Q' -> (forall s, P s -> P' s) -> (forall a s, Q' a s -> Q a s) -> total P m Q.
Proof. intros Hm HP HQ s Hs. destruct (Hm s (HP s Hs)) as (a & s1 & E & Ha). eauto. Qed.
Lemma total_pure_r (phi : Prop) P m Q :
  (phi -> total P m Q) -> total (fun s => P s /\ phi) m Q.
Proof. intros Hm s [Hs Hphi]. by apply Hm. Qed.
Lemma total_post P m Q Q' :
  total P m Q -> (forall a s, Q a s -> Q' a s) -> total P m Q'.
Proof. intros Hm HQ. by eapply total_conseq. Qed.
Lemma total_modify P f (Q : unit -> S -> Prop) :
  (forall s, P s -> Q tt (f s)) -> total P (modify f) Q.
Proof. intros H s Hs. exists tt, (f s). auto. Qed.
(** A computation that first looks at the state. *)
Lemma total_state P (k : S -> M S A) Q :
  (forall s0, P s0 -> total (fun s => s = s0) (k s0) Q) -> total P (fun s => k s s) Q.
Proof. intros H s Hs. exact (H s Hs s eq_refl). Qed.
End total.

(** * Bytes and machine-width integers *)

#[export] Instance byte_eq_dec : EqDecision byte := Byte.byte_eq_dec.

Definition byte_of_Z (z : Z) : byte :=
  match Byte.of_N (Z.to_N (z mod 256)) with Some b => b | None => x00 end.

Definition Z_of_byte (b : byte) : Z := Z.of_N (Byte.to_N b).

Lemma Z_of_byte_bound b : (0 <= Z_of_byte b < 256)%Z.
Proof. unfold Z_of_byte. pose proof (Byte.to_N_bounded b). lia. Qed.

Lemma Z_of_byte_of_Z z : Z_of_byte (byte_of_Z z) = (z mod 256)%Z.
Proof.
  unfold byte_of_Z, Z_of_byte.
  pose proof (Z.mod_pos_bound z 256 ltac:(lia)).
  destruct (Byte.of_N (Z.to_N (z mod 256))) as [b|] eqn:E.
  - apply Byte.to_of_N in E. rewrite E. lia.
  - apply Byte.of_N_None_iff in E. lia.
Qed.

Lemma byte_of_Z_of_byte b : byte_of_Z (Z_of_byte b) = b.
Proof.
  unfold byte_of_Z. pose proof (Z_of_byte_bound b).
  rewrite Z.mod_small by lia. unfold Z_of_byte. rewrite N2Z.id.
  by rewrite Byte.of_to_N.
Qed.

(** Wrap-around of unsigned and two's complement integers. *)
Definition u32 (z : Z) : Z := (z mod 2 ^ 32)%Z.
Definition u64 (z : Z) : Z := (z mod 2 ^ 64)%Z.
Definition s32 (z : Z) : Z :=
  (let w := z mod 2 ^ 32 in if w <? 2 ^ 31 then w else w - 2 ^ 32)%Z.

Lemma u32_id z : (0 <= z < 2 ^ 32)%Z -> u32 z = z.
Proof. apply Z.mod_small. Qed.
Lemma u64_id z : (0 <= z < 2 ^ 64)%Z -> u64 z = z.
Proof. apply Z.mod_small. Qed.
Lemma s32_id z : (- 2 ^ 31 <= z < 2 ^ 31)%Z -> s32 z = z.
Proof.
  intros H. unfold s32. destruct (Z_lt_dec z 0).
  - replace (z mod 2 ^ 32)%Z with (z + 2 ^ 32)%Z.
    + destruct (Z.ltb_spec (z + 2 ^ 32) (2 ^ 31)); lia.
    + apply Z.mod_unique with (-1)%Z; lia.
  - rewrite Z.mod_small by lia. destruct (Z.ltb_spec z (2 ^ 31)); lia.
Qed.
Lemma u32_bound z : (0 <= u32 z < 2 ^ 32)%Z.
Proof. apply Z.mod_pos_bound. lia. Qed.
Lemma u64_bound z : (0 <= u64 z < 2 ^ 64)%Z.
Proof. apply Z.mod_pos_bound. lia. Qed.
Lemma s32_bound z : (- 2 ^ 31 <= s32 z < 2 ^ 31)%Z.
Proof.
  unfold s32. pose proof (Z.mod_pos_bound z (2 ^ 32) ltac:(lia)).
  destruct (Z.ltb_spec (z mod 2 ^ 32) (2 ^ 31)); lia.
Qed.
Lemma s32_u32 z : s32 (u32 z) = s32 z.
Proof. unfold s32, u32. by rewrite Z.mod_mod by lia. Qed.
Lemma u32_s32 z : u32 (s32 z) = u32 z.
Proof.
  unfold s32, u32. destruct (Z.ltb_spec (z mod 2 ^ 32) (2 ^ 31)).
  - by rewrite Z.mod_mod by lia.
  - rewrite <- (Z.mul_1_l (2 ^ 32)) at 2.
    rewrite <- Z.add_opp_r, <- Z.mul_opp_l, Z.mod_add by lia.
    by rewrite Z.mod_mod by lia.
Qed.

(** Big-endian encodings of [n] bytes (XDR, RFC 4506). *)
Fixpoint be_bytes (n : nat) (z : Z) : list byte :=
  match n with
  | O => []
  | S m => byte_of_Z (Z.shiftr z (8 * Z.of_nat m)) :: be_bytes m z
  end.

Fixpoint be_Z (bs : list byte) : Z :=
  match bs with
  | [] => 0
  | b :: bs' => Z_of_byte b * 2 ^ (8 * Z.of_nat (length bs')) + be_Z bs'
  end%Z.

Lemma length_be_bytes n z : length (be_bytes n z) = n.
Proof. induction n; simpl; auto. Qed.

Lemma be_Z_bound bs : (0 <= be_Z bs < 2 ^ (8 * Z.of_nat (length bs)))%Z.
Proof.
  induction bs as [|b bs IH]; cbn [be_Z length]; [done|].
  pose proof (Z_of_byte_bound b).
  replace (8 * Z.of_nat (S (length bs)))%Z with (8 + 8 * Z.of_nat (length bs))%Z by lia.
  rewrite Z.pow_add_r by lia.
  set (w := (2 ^ (8 * Z.of_nat (length bs)))%Z) in *.
  change (2 ^ 8)%Z with 256%Z. nia.
Qed.

Lemma be_Z_be_bytes n z : be_Z (be_bytes n z) = (z mod 2 ^ (8 * Z.of_nat n))%Z.
Proof.
  induction n as [|n IH].
  - simpl. by rewrite Z.mod_1_r.
  - cbn [be_bytes be_Z]. rewrite length_be_bytes, IH, Z_of_byte_of_Z.
    rewrite Z.shiftr_div_pow2 by lia.
    replace (8 * Z.of_nat (S n))%Z with (8 * Z.of_nat n + 8)%Z by lia.
    rewrite Z.pow_add_r by lia. change (2 ^ 8)%Z with 256%Z.
    rewrite Z.rem_mul_r by lia. lia.
Qed.

Lemma be_bytes_mod n k z : n <= k ->
  be_bytes n (z mod 2 ^ (8 * Z.of_nat k)) = be_bytes n z.
Proof.
  induction n as [|n IH]; intros Hn; [done|].
  cbn [be_bytes]. f_equal; [|apply IH; lia].
  assert (forall a b, (a mod 256 = b mod 256)%Z -> byte_of_Z a = byte_of_Z b) as Heq.
  { intros a b E. unfold byte_of_Z. by rewrite E. }
  apply Heq. rewrite !Z.shiftr_div_pow2 by lia.
  replace (8 * Z.of_nat k)%Z with (8 * Z.of_nat n + 8 * Z.of_nat (k - n))%Z by lia.
  rewrite Z.pow_add_r, Z.rem_mul_r by lia.
  rewrite (Z.mul_comm (2 ^ _)), Z.div_add by lia.
  rewrite (Z.div_small (z mod _)) by (apply Z.mod_pos_bound; lia).
  rewrite Z.add_0_l.
  replace (8 * Z.of_nat (k - n))%Z with (8 + 8 * Z.of_nat (k - n - 1))%Z by lia.
  rewrite Z.pow_add_r, Z.rem_mul_r by lia. change (2 ^ 8)%Z with 256%Z.
  rewrite (Z.mul_comm 256), Z.mod_add, Z.mod_mod by lia. done.
Qed.

Lemma be_bytes_be_Z bs : be_bytes (length bs) (be_Z bs) = bs.
Proof.
  induction bs as [|b bs IH]; [done|].
  pose proof (be_Z_bound bs). pose proof (Z_of_byte_bound b).
  cbn [length be_bytes be_Z]. f_equal.
  - rewrite Z.shiftr_div_pow2 by lia. rewrite Z.div_add_l by lia.
    rewrite Z.div_small by lia. rewrite Z.add_0_r. apply byte_of_Z_of_byte.
  - rewrite <- (be_bytes_mod (length bs) (length bs)) by lia.
    rewrite Z.add_comm, Z.mod_add, Z.mod_small by lia. done.
Qed.

Arguments be_bytes : simpl never.
Arguments be_Z : simpl never.

(** * C strings *)

Definition bytes_of_string (s : string) : list byte := String.list_byte_of_string s.
Definition string_of_bytes (bs : list byte) : string := String.string_of_list_byte bs.

Lemma string_of_bytes_of_string s : string_of_bytes (bytes_of_string s) = s.
Proof. apply String.string_of_list_byte_of_string. Qed.
Lemma bytes_of_string_of_bytes bs : bytes_of_string (string_of_bytes bs) = bs.
Proof. apply String.list_byte_of_string_of_list_byte. Qed.
Lemma length_bytes_of_string s : length (bytes_of_string s) = String.length s.
Proof. induction s as [|c s IH]; [done|]. cbn. by f_equal. Qed.

Definition STREQ (a b : string) : bool := bool_decide (a = b).
Definition STRNEQ (a b : string) : bool := negb (STREQ a b).
Definition STRPREFIX (a b : string) : bool := String.prefix b a.

Definition newline : string := string_of_bytes [x0a].

(** C truth values of a returned [int]. *)
Definition is_true (z : Z) : bool := negb (z =? 0)%Z.
Definition bool_int (b : bool) : Z := if b then 1%Z else 0%Z.

(** * Lists *)

Section lists.
Context {A : Type}.

Lemma take_app_exact (l k : list A) n : length l = n -> take n (l ++ k) = l.
Proof. intros <-. apply take_app_length. Qed.
Lemma drop_app_exact (l k : list A) n : length l = n -> drop n (l ++ k) = k.
Proof. intros <-. apply drop_app_length. Qed.
Lemma insert_length_app (l : list A) x y : <[length l := y]> (l ++ [x]) = l ++ [y].
Proof. by rewrite insert_app_r_alt, Nat.sub_diag by lia. Qed.
End lists.

(** * Record update

    [r <| f := v |>] is the C assignment [r->f = v]; [Field f] carries the
    update function of a field, and [r <| f; h := v |>] is [r->f.h = v]. *)

Class Field {R T : Type} (proj : R -> T) := upd : (T -> T) -> R -> R.
Arguments upd {R T} proj {_} f r.

Notation "r <| f := v |>" := (upd f (fun _ => v) r)
  (at level 1, f at level 200, left associativity) : c_scope.
Notation "r <| f ::= h |>" := (upd f h r)
  (at level 1, f at level 200, left associativity) : c_scope.
Notation "r <| f ; h := v |>" := (upd f (upd h (fun _ => v)) r)
  (at level 1, f at level 200, h at level 200, left associativity) : c_scope.
Notation "r <| f ; h ::= k |>" := (upd f (upd h k) r)
  (at level 1, f at level 200, h at level 200, left associativity) : c_scope.

(** * Automation

    [csimp] exposes the next step of a monadic run; the hint database
    [guestfs] carries the invariant-preservation lemmas. *)

Create HintDb guestfs.

Ltac mstep H := rewrite (bind_Ret _ _ _ _ _ H); cbn beta iota.
Ltac mrun := unfold ret, get, gets, modify, halt in *; cbn -[Z.add Z.sub Z.mul Z.pow be_bytes be_Z].
Ltac case_if :=
  match goal with
  | |- context [if ?b then _ else _] => destruct b eqn:?
  end.
