(* ===== verification/Xdr.v ===== *)
(** XDR streams and codecs (RFC 4506), as the C library's [xdrmem_create],
    [xdr_u_int], [xdr_uint64_t], [xdr_enum], [xdr_bytes] and [xdr_string]
    behave.  The class [XdrCodec] is the interface between the protocol code
    (src/proto.c, daemon/proto.c) and the marshalling routines: an [xdrproc_t]
    is an instance.  [XdrLaws] states what the protocol relies on. *)

From S2P Require Import Prelude.

(** * Memory streams *)

(** An [XDR_ENCODE] memory stream: the bytes already written ([xdr_getpos] is
    their number) and the room left ([x_handy]).  Sizes are [Z]: the message
    buffer has four megabytes. *)
Record xenc := mk_xenc { x_out : list byte; x_left : Z }.

Definition xdrmem_create_encode (size : Z) : xenc := mk_xenc [] size.

Definition zlength {A} (l : list A) : Z := Z.of_nat (length l).
Definition xdr_getpos (x : xenc) : Z := zlength (x_out x).

(** Append bytes, or fail when the buffer has no room for all of them. *)
Definition xput (bs : list byte) (x : xenc) : option xenc :=
  if (zlength bs <=? x_left x)%Z
  then Some (mk_xenc (x_out x ++ bs) (x_left x - zlength bs)) else None.

(** Take bytes from an [XDR_DECODE] stream, which is the list of the bytes
    not yet consumed. *)
Definition xget (n : nat) (bs : list byte) : option (list byte * list byte) :=
  if n <=? length bs then Some (take n bs, drop n bs) else None.

(** * Primitive routines *)

Definition xdr_u_int_put (z : Z) : xenc -> option xenc := xput (be_bytes 4 z).
Definition xdr_u_int_get (bs : list byte) : option (Z * list byte) :=
  '(b, r) ← xget 4 bs; Some (be_Z b, r).

Definition xdr_int_get (bs : list byte) : option (Z * list byte) :=
  '(b, r) ← xget 4 bs; Some (s32 (be_Z b), r).

Definition xdr_uint64_put (z : Z) : xenc -> option xenc := xput (be_bytes 8 z).
Definition xdr_uint64_get (bs : list byte) : option (Z * list byte) :=
  '(b, r) ← xget 8 bs; Some (be_Z b, r).

(** Padding of variable-length data to a multiple of four bytes. *)
Definition rndup (n : nat) : nat := (4 - n mod 4) mod 4.

Definition opaque_wire (bs : list byte) : list byte :=
  be_bytes 4 (zlength bs) ++ bs ++ replicate (rndup (length bs)) x00.

(** [xdr_bytes] and [xdr_string] with a maximum size. *)
Definition xdr_bytes_put (max : Z) (bs : list byte) (x : xenc) : option xenc :=
  x1 ← xdr_u_int_put (zlength bs) x;
  if (max <? zlength bs)%Z then None
  else x2 ← xput bs x1; xput (replicate (rndup (length bs)) x00) x2.

Definition xdr_bytes_get (max : Z) (s : list byte) : option (list byte * list byte) :=
  '(n, s1) ← xdr_u_int_get s;
  if (max <? n)%Z then None
  else '(bs, s2) ← xget (Z.to_nat n) s1;
       '(_, s3) ← xget (rndup (Z.to_nat n)) s2;
       Some (bs, s3).

(** * The codec interface *)

Class XdrCodec (A : Type) := {
  xdr_put : A -> xenc -> option xenc;
  xdr_get : list byte -> option (A * list byte)
}.

(** What the protocol code relies on: a value that fits its bounds is encoded
    as [xdr_wire], fails exactly when the buffer is too small, and is decoded
    back, leaving the rest of the stream. *)
Class XdrLaws (A : Type) `{XdrCodec A} := {
  xdr_wire : A -> list byte;
  xdr_fits : A -> bool;
  xdr_typed : A -> Prop;
  xdr_put_wire a x :
    xdr_put a x = if xdr_fits a then xput (xdr_wire a) x else None;
  xdr_get_wire a rest :
    xdr_fits a = true -> xdr_typed a -> xdr_get (xdr_wire a ++ rest) = Some (a, rest)
}.

(** * Stream lemmas *)

Lemma zlength_app {A} (a b : list A) : zlength (a ++ b) = (zlength a + zlength b)%Z.
Proof. unfold zlength. rewrite length_app. lia. Qed.

Lemma zlength_nonneg {A} (a : list A) : (0 <= zlength a)%Z.
Proof. unfold zlength. lia. Qed.

Lemma zlength_be_bytes n z : zlength (be_bytes n z) = Z.of_nat n.
Proof. unfold zlength. by rewrite length_be_bytes. Qed.

Lemma xput_app a b x : xput (a ++ b) x = xput a x ≫= xput b.
Proof.
  unfold xput. rewrite zlength_app.
  pose proof (zlength_nonneg b).
  destruct (Z.leb_spec (zlength a) (x_left x)); simpl.
  - destruct (Z.leb_spec (zlength b) (x_left x - zlength a)),
      (Z.leb_spec (zlength a + zlength b) (x_left x)); try lia; [|done].
    rewrite app_assoc. do 2 f_equal. lia.
  - destruct (Z.leb_spec (zlength a + zlength b) (x_left x)); [lia|done].
Qed.

Lemma xput_Some bs x :
  (zlength bs <= x_left x)%Z ->
  xput bs x = Some (mk_xenc (x_out x ++ bs) (x_left x - zlength bs)).
Proof. intros H. unfold xput. destruct (Z.leb_spec (zlength bs) (x_left x)); [done|lia]. Qed.

Lemma xput_None bs x : (x_left x < zlength bs)%Z -> xput bs x = None.
Proof. intros H. unfold xput. destruct (Z.leb_spec (zlength bs) (x_left x)); [lia|done]. Qed.

Lemma xput_inv bs x x' :
  xput bs x = Some x' -> x_out x' = x_out x ++ bs /\ (zlength bs <= x_left x)%Z.
Proof.
  unfold xput. destruct (Z.leb_spec (zlength bs) (x_left x)); intros; simplify_eq. done.
Qed.

Lemma xget_app n b r : length b = n -> xget n (b ++ r) = Some (b, r).
Proof.
  intros H. unfold xget. rewrite length_app.
  destruct (Nat.leb_spec n (length b + length r)); [|lia].
  by rewrite take_app_exact, drop_app_exact by done.
Qed.

Lemma xdr_u_int_get_put z r :
  (0 <= z < 2 ^ 32)%Z -> xdr_u_int_get (be_bytes 4 z ++ r) = Some (z, r).
Proof.
  intros H. unfold xdr_u_int_get. rewrite xget_app by apply length_be_bytes. simpl.
  rewrite be_Z_be_bytes. change (8 * Z.of_nat 4)%Z with 32%Z. by rewrite Z.mod_small.
Qed.

Lemma xdr_int_get_put z r :
  (- 2 ^ 31 <= z < 2 ^ 31)%Z -> xdr_int_get (be_bytes 4 z ++ r) = Some (z, r).
Proof.
  intros H. unfold xdr_int_get. rewrite xget_app by apply length_be_bytes. simpl.
  rewrite be_Z_be_bytes. change (8 * Z.of_nat 4)%Z with 32%Z.
  fold (u32 z). by rewrite s32_u32, s32_id.
Qed.

Lemma xdr_uint64_get_put z r :
  (0 <= z < 2 ^ 64)%Z -> xdr_uint64_get (be_bytes 8 z ++ r) = Some (z, r).
Proof.
  intros H. unfold xdr_uint64_get. rewrite xget_app by apply length_be_bytes. simpl.
  rewrite be_Z_be_bytes. change (8 * Z.of_nat 8)%Z with 64%Z. by rewrite Z.mod_small.
Qed.

Lemma length_opaque_wire bs :
  length (opaque_wire bs) = 4 + length bs + rndup (length bs).
Proof.
  unfold opaque_wire. rewrite !length_app, length_be_bytes, length_replicate. lia.
Qed.

Lemma rndup_bound n : rndup n < 4.
Proof. unfold rndup. apply Nat.mod_upper_bound. lia. Qed.

Lemma xdr_bytes_put_wire max bs x :
  xdr_bytes_put max bs x =
  if (zlength bs <=? max)%Z then xput (opaque_wire bs) x else None.
Proof.
  unfold xdr_bytes_put, opaque_wire, xdr_u_int_put. rewrite xput_app.
  fold (zlength bs).
  destruct (xput (be_bytes 4 _) x) as [x1|]; simpl; [|by case_if].
  destruct (Z.ltb_spec max (zlength bs)), (Z.leb_spec (zlength bs) max); try lia; [done|].
  by rewrite xput_app.
Qed.

Lemma xdr_bytes_get_wire max bs r :
  (zlength bs <= max)%Z -> (max < 2 ^ 32)%Z ->
  xdr_bytes_get max (opaque_wire bs ++ r) = Some (bs, r).
Proof.
  intros H Hm. unfold xdr_bytes_get, opaque_wire, zlength in *. rewrite <- !app_assoc.
  rewrite xdr_u_int_get_put by lia. simpl.
  destruct (Z.ltb_spec max (Z.of_nat (length bs))); [lia|].
  rewrite Nat2Z.id, xget_app by done. simpl.
  rewrite xget_app by apply length_replicate. done.
Qed.

Create Rewrite HintDb xdr.
#[export] Hint Rewrite xdr_bytes_put_wire : xdr.
#[export] Hint Rewrite xdr_u_int_get_put xdr_int_get_put xdr_uint64_get_put
  xdr_bytes_get_wire using (first [done | lia]) : xdr.
