(* ===== verification/Protocol.v ===== *)
(** The remote procedure call protocol of generator/xdr.ml: its constants, the
    message header, error body, file chunk and progress message, each with its
    XDR codec, and the facts about sizes that the framing depends on. *)

From S2P Require Import Prelude Xdr.
Local Open Scope Z_scope.

Definition GUESTFS_MESSAGE_MAX : Z := 4 * 1024 * 1024.
Definition GUESTFS_PROGRAM : Z := 0x2000F5F5.
Definition GUESTFS_PROTOCOL_VERSION : Z := 4.
Definition GUESTFS_LAUNCH_FLAG : Z := 0xf5f55ff5.
Definition GUESTFS_CANCEL_FLAG : Z := 0xffffeeee.
Definition GUESTFS_PROGRESS_FLAG : Z := 0xffff5555.
Definition GUESTFS_DIRECTION_CALL : Z := 0.
Definition GUESTFS_DIRECTION_REPLY : Z := 1.
Definition GUESTFS_STATUS_OK : Z := 0.
Definition GUESTFS_STATUS_ERROR : Z := 1.
Definition GUESTFS_ERROR_LEN : Z := 64 * 1024.
Definition GUESTFS_MAX_CHUNK_SIZE : Z := 8192.
Definition PROGRESS_MESSAGE_SIZE : Z := 24.

Record guestfs_message_error := mk_message_error {
  errno_string : list byte;
  error_message : list byte
}.

Record guestfs_message_header := mk_message_header {
  hdr_prog : Z;
  hdr_vers : Z;
  hdr_proc : Z;
  hdr_direction : Z;
  hdr_serial : Z;
  hdr_progress_hint : Z;
  hdr_optargs_bitmask : Z;
  hdr_status : Z
}.

Record guestfs_chunk := mk_chunk {
  chunk_cancel : Z;
  chunk_data : list byte
}.

Record guestfs_progress := mk_progress {
  progress_proc : Z;
  progress_serial : Z;
  progress_position : Z;
  progress_total : Z
}.

(** * Codecs *)

Definition xdr_guestfs_message_error_put (e : guestfs_message_error) (x : xenc) : option xenc :=
  x1 ← xdr_bytes_put 32 (errno_string e) x;
  xdr_bytes_put GUESTFS_ERROR_LEN (error_message e) x1.

Definition xdr_guestfs_message_error_get (s : list byte) :
    option (guestfs_message_error * list byte) :=
  '(a, s1) ← xdr_bytes_get 32 s;
  '(b, s2) ← xdr_bytes_get GUESTFS_ERROR_LEN s1;
  Some (mk_message_error a b, s2).

Definition xdr_guestfs_message_header_put (h : guestfs_message_header) (x : xenc) : option xenc :=
  x ← xdr_u_int_put (hdr_prog h) x;
  x ← xdr_u_int_put (hdr_vers h) x;
  x ← xdr_u_int_put (hdr_proc h) x;
  x ← xdr_u_int_put (hdr_direction h) x;
  x ← xdr_u_int_put (hdr_serial h) x;
  x ← xdr_uint64_put (hdr_progress_hint h) x;
  x ← xdr_uint64_put (hdr_optargs_bitmask h) x;
  xdr_u_int_put (hdr_status h) x.

Definition xdr_guestfs_message_header_get (s : list byte) :
    option (guestfs_message_header * list byte) :=
  '(prog, s) ← xdr_u_int_get s;
  '(vers, s) ← xdr_u_int_get s;
  '(proc, s) ← xdr_int_get s;
  '(direction, s) ← xdr_int_get s;
  '(serial, s) ← xdr_u_int_get s;
  '(hint, s) ← xdr_uint64_get s;
  '(bitmask, s) ← xdr_uint64_get s;
  '(status, s) ← xdr_int_get s;
  Some (mk_message_header prog vers proc direction serial hint bitmask status, s).

Definition xdr_guestfs_chunk_put (c : guestfs_chunk) (x : xenc) : option xenc :=
  x ← xdr_u_int_put (chunk_cancel c) x;
  xdr_bytes_put GUESTFS_MAX_CHUNK_SIZE (chunk_data c) x.

Definition xdr_guestfs_chunk_get (s : list byte) : option (guestfs_chunk * list byte) :=
  '(cancel, s) ← xdr_int_get s;
  '(data, s) ← xdr_bytes_get GUESTFS_MAX_CHUNK_SIZE s;
  Some (mk_chunk cancel data, s).

Definition xdr_guestfs_progress_put (p : guestfs_progress) (x : xenc) : option xenc :=
  x ← xdr_u_int_put (progress_proc p) x;
  x ← xdr_u_int_put (progress_serial p) x;
  x ← xdr_uint64_put (progress_position p) x;
  xdr_uint64_put (progress_total p) x.

Definition xdr_guestfs_progress_get (s : list byte) : option (guestfs_progress * list byte) :=
  '(proc, s) ← xdr_int_get s;
  '(serial, s) ← xdr_u_int_get s;
  '(position, s) ← xdr_uint64_get s;
  '(total, s) ← xdr_uint64_get s;
  Some (mk_progress proc serial position total, s).

#[export] Instance message_error_codec : XdrCodec guestfs_message_error :=
  {| xdr_put := xdr_guestfs_message_error_put; xdr_get := xdr_guestfs_message_error_get |}.
#[export] Instance message_header_codec : XdrCodec guestfs_message_header :=
  {| xdr_put := xdr_guestfs_message_header_put; xdr_get := xdr_guestfs_message_header_get |}.
#[export] Instance chunk_codec : XdrCodec guestfs_chunk :=
  {| xdr_put := xdr_guestfs_chunk_put; xdr_get := xdr_guestfs_chunk_get |}.
#[export] Instance progress_codec : XdrCodec guestfs_progress :=
  {| xdr_put := xdr_guestfs_progress_put; xdr_get := xdr_guestfs_progress_get |}.

(** * Wire formats *)

Definition error_wire (e : guestfs_message_error) : list byte :=
  opaque_wire (errno_string e) ++ opaque_wire (error_message e).
Definition error_fits (e : guestfs_message_error) : bool :=
  (zlength (errno_string e) <=? 32) && (zlength (error_message e) <=? GUESTFS_ERROR_LEN).

Definition header_wire (h : guestfs_message_header) : list byte :=
  be_bytes 4 (hdr_prog h) ++ be_bytes 4 (hdr_vers h) ++ be_bytes 4 (hdr_proc h) ++
  be_bytes 4 (hdr_direction h) ++ be_bytes 4 (hdr_serial h) ++
  be_bytes 8 (hdr_progress_hint h) ++ be_bytes 8 (hdr_optargs_bitmask h) ++
  be_bytes 4 (hdr_status h).

Definition is_u32 (z : Z) : Prop := 0 <= z < 2 ^ 32.
Definition is_u64 (z : Z) : Prop := 0 <= z < 2 ^ 64.
Definition is_s32 (z : Z) : Prop := - 2 ^ 31 <= z < 2 ^ 31.

Definition header_typed (h : guestfs_message_header) : Prop :=
  is_u32 (hdr_prog h) /\ is_u32 (hdr_vers h) /\ is_s32 (hdr_proc h) /\
  is_s32 (hdr_direction h) /\ is_u32 (hdr_serial h) /\
  is_u64 (hdr_progress_hint h) /\ is_u64 (hdr_optargs_bitmask h) /\ is_s32 (hdr_status h).

Definition chunk_wire (c : guestfs_chunk) : list byte :=
  be_bytes 4 (chunk_cancel c) ++ opaque_wire (chunk_data c).
Definition chunk_fits (c : guestfs_chunk) : bool :=
  zlength (chunk_data c) <=? GUESTFS_MAX_CHUNK_SIZE.

Definition progress_wire (p : guestfs_progress) : list byte :=
  be_bytes 4 (progress_proc p) ++ be_bytes 4 (progress_serial p) ++
  be_bytes 8 (progress_position p) ++ be_bytes 8 (progress_total p).
Definition progress_typed (p : guestfs_progress) : Prop :=
  is_s32 (progress_proc p) /\ is_u32 (progress_serial p) /\
  is_u64 (progress_position p) /\ is_u64 (progress_total p).

Ltac xput_chain :=
  unfold xdr_u_int_put, xdr_uint64_put;
  repeat (rewrite xput_app;
          match goal with
          | |- context [xput ?b ?x ≫= xput _] =>
              destruct (xput b x); cbn -[xput]; [|reflexivity]
          end).

#[export] Instance message_error_laws : XdrLaws guestfs_message_error.
Proof.
  refine {| xdr_wire := error_wire; xdr_fits := error_fits; xdr_typed := fun _ => True |}.
  - intros [a b] x. cbn -[opaque_wire xput]. unfold xdr_guestfs_message_error_put, error_fits,
      error_wire. cbn [errno_string error_message].
    rewrite xdr_bytes_put_wire, xput_app.
    destruct (zlength a <=? 32); cbn [andb]; [|done].
    destruct (xput (opaque_wire a) x); cbn; [|by case_if].
    by rewrite xdr_bytes_put_wire.
  - intros [a b] rest [H1 H2]%andb_prop _. cbn in H1, H2. apply Z.leb_le in H1, H2.
    cbn. unfold xdr_guestfs_message_error_get, error_wire. cbn. rewrite <- app_assoc.
    rewrite xdr_bytes_get_wire by (lia || done). cbn.
    by rewrite xdr_bytes_get_wire by (lia || done).
Defined.

#[export] Instance message_header_laws : XdrLaws guestfs_message_header.
Proof.
  refine {| xdr_wire := header_wire; xdr_fits := fun _ => true; xdr_typed := header_typed |}.
  - intros h x. cbn -[xput]. unfold xdr_guestfs_message_header_put, header_wire. by xput_chain.
  - intros h rest _ (?&?&?&?&?&?&?&?). destruct h. unfold is_u32, is_s32, is_u64 in *.
    cbn in *. unfold xdr_guestfs_message_header_get, header_wire. cbn. rewrite <- !app_assoc.
    repeat (autorewrite with xdr; cbn [mbind option_bind]). done.
Defined.

#[export] Instance chunk_laws : XdrLaws guestfs_chunk.
Proof.
  refine {| xdr_wire := chunk_wire; xdr_fits := chunk_fits;
            xdr_typed := fun c => is_s32 (chunk_cancel c) |}.
  - intros [a d] x. cbn -[xput]. unfold xdr_guestfs_chunk_put, chunk_wire, chunk_fits. cbn -[xput].
    unfold xdr_u_int_put. rewrite xput_app.
    destruct (xput (be_bytes 4 a) x); cbn -[xput]; [|by case_if].
    by rewrite xdr_bytes_put_wire.
  - intros [a d] rest H1 H2. unfold is_s32 in *. cbn in H1, H2. apply Z.leb_le in H1.
    cbn. unfold xdr_guestfs_chunk_get, chunk_wire. cbn. rewrite <- app_assoc.
    rewrite xdr_int_get_put by lia. cbn. by rewrite xdr_bytes_get_wire by (lia || done).
Defined.

#[export] Instance progress_laws : XdrLaws guestfs_progress.
Proof.
  refine {| xdr_wire := progress_wire; xdr_fits := fun _ => true; xdr_typed := progress_typed |}.
  - intros p x. cbn -[xput]. unfold xdr_guestfs_progress_put, progress_wire. by xput_chain.
  - intros p rest _ (?&?&?&?). destruct p. unfold is_u32, is_s32, is_u64 in *.
    cbn in *. unfold xdr_guestfs_progress_get, progress_wire. cbn. rewrite <- !app_assoc.
    repeat (autorewrite with xdr; cbn [mbind option_bind]). done.
Defined.

(** * Sizes *)

Lemma zlength_header_wire h : zlength (header_wire h) = 40.
Proof. unfold header_wire. rewrite !zlength_app, !zlength_be_bytes. done. Qed.

Lemma zlength_progress_wire p : zlength (progress_wire p) = PROGRESS_MESSAGE_SIZE.
Proof. unfold progress_wire. rewrite !zlength_app, !zlength_be_bytes. done. Qed.

Lemma zlength_opaque_wire bs :
  4 + zlength bs <= zlength (opaque_wire bs) <= 7 + zlength bs.
Proof.
  unfold zlength. rewrite length_opaque_wire. pose proof (rndup_bound (length bs)). lia.
Qed.

Lemma zlength_chunk_wire c :
  chunk_fits c = true -> 8 <= zlength (chunk_wire c) <= GUESTFS_MAX_CHUNK_SIZE + 11.
Proof.
  intros H%Z.leb_le. unfold chunk_wire. rewrite zlength_app, zlength_be_bytes.
  pose proof (zlength_opaque_wire (chunk_data c)). pose proof (zlength_nonneg (chunk_data c)). lia.
Qed.

Lemma zlength_error_wire e :
  error_fits e = true -> zlength (error_wire e) <= GUESTFS_ERROR_LEN + 32 + 14.
Proof.
  intros [H1%Z.leb_le H2%Z.leb_le]%andb_prop. unfold error_wire. rewrite zlength_app.
  pose proof (zlength_opaque_wire (errno_string e)).
  pose proof (zlength_opaque_wire (error_message e)). lia.
Qed.

(** A length word followed by its message. *)
Definition frame (m : list byte) : list byte := be_bytes 4 (zlength m) ++ m.
Definition flag_word (f : Z) : list byte := be_bytes 4 f.
Definition progress_frame (p : guestfs_progress) : list byte :=
  flag_word GUESTFS_PROGRESS_FLAG ++ progress_wire p.

(** The laws of the four codecs, by the names of their wire formats. *)
Lemma header_get h rest : header_typed h -> xdr_get (header_wire h ++ rest) = Some (h, rest).
Proof. exact (xdr_get_wire h rest eq_refl). Qed.
Lemma error_get e rest : error_fits e = true -> xdr_get (error_wire e ++ rest) = Some (e, rest).
Proof. intros E. exact (xdr_get_wire e rest E I). Qed.
Lemma chunk_get c rest : chunk_fits c = true -> is_s32 (chunk_cancel c) ->
  xdr_get (chunk_wire c ++ rest) = Some (c, rest).
Proof. exact (xdr_get_wire c rest). Qed.
Lemma progress_get p rest : progress_typed p -> xdr_get (progress_wire p ++ rest) = Some (p, rest).
Proof. exact (xdr_get_wire p rest eq_refl). Qed.

(** Encoding into a fresh buffer. *)
Lemma chunk_put c : chunk_fits c = true ->
  exists x, xdr_put c (xdrmem_create_encode (GUESTFS_MAX_CHUNK_SIZE + 48)) = Some x /\
            x_out x = chunk_wire c.
Proof.
  intros E. pose proof (zlength_chunk_wire c E).
  rewrite (xdr_put_wire c). cbn [xdr_fits chunk_laws xdr_wire]. rewrite E.
  rewrite xput_Some; [by eexists|]. cbn [x_left xdrmem_create_encode]. lia.
Qed.
