(* ===== verification/Handle.v ===== *)
(** The libguestfs handle (struct guestfs_h and the structures it owns, from
    src/guestfs-internal.h) and the error handling of src/errors.c.

    The handle is one record whose parts belong to the components that keep
    them.  Callbacks and messages on stderr are effects the caller observes:
    they are appended to [g_out], in order.  What the library asks of its
    environment (strerror_r, the clock, build-time constants, the backend's
    functions) is a part of the handle as well, so that every operation is an
    executable function of the handle. *)

From S2P Require Import Prelude Xdr.
Local Open Scope Z_scope.

(** * Data *)

Inductive state := CONFIG | LAUNCHING | READY | NO_HANDLE.
#[export] Instance state_eq_dec : EqDecision state.
Proof. solve_decision. Defined.

(** The enum's values (src/guestfs-internal.h: enum state). *)
Definition state_int (s : state) : Z :=
  match s with CONFIG => 0 | LAUNCHING => 1 | READY => 2 | NO_HANDLE => 0xebadebad end.

Record timeval := mk_timeval { tv_sec : Z; tv_usec : Z }.

(** An event callback is a function of the caller (an address) or one of the
    static wrappers that emulate the old-style API. *)
Inductive event_callback :=
  | CbUser (f : Z)
  | CbLogMessageWrapper
  | CbSubprocessQuitWrapper
  | CbLaunchDoneWrapper
  | CbCloseWrapper
  | CbProgressWrapper.
#[export] Instance event_callback_eq_dec : EqDecision event_callback.
Proof. solve_decision. Defined.

Record event := mk_event {
  event_bitmask : Z;
  event_cb : event_callback;
  event_opaque : Z;
  event_opaque2 : option Z
}.
#[export] Instance upd_event_bitmask : Field event_bitmask := fun f r =>
  mk_event (f (event_bitmask r)) (event_cb r) (event_opaque r) (event_opaque2 r).

Inductive error_handler_cb := ErrDefault | ErrUser (f : Z).

(** What the caller of the library can observe. *)
Inductive output :=
  | OutEvent (f opaque event : Z) (event_handle : nat) (buf : list byte) (array : list Z)
  | OutOldLogMessage (f opaque : Z) (buf : list byte)
  | OutOldVoid (f opaque : Z)
  | OutOldProgress (f opaque proc serial position total : Z)
  | OutError (f data : Z) (msg : string)
  | OutStderr (bs : list byte).

(** ** Drives *)

Inductive drive_protocol :=
  | drive_protocol_file | drive_protocol_ftp | drive_protocol_ftps
  | drive_protocol_gluster | drive_protocol_http | drive_protocol_https
  | drive_protocol_iscsi | drive_protocol_nbd | drive_protocol_rbd
  | drive_protocol_sheepdog | drive_protocol_ssh | drive_protocol_tftp.
#[export] Instance drive_protocol_eq_dec : EqDecision drive_protocol.
Proof. solve_decision. Defined.

Inductive drive_transport :=
  | drive_transport_none | drive_transport_tcp | drive_transport_unix.
#[export] Instance drive_transport_eq_dec : EqDecision drive_transport.
Proof. solve_decision. Defined.

(** The union of [hostname] and [socket] is one string, told apart by the
    transport. *)
Record drive_server := mk_server {
  srv_transport : drive_transport;
  srv_host : string;
  srv_port : Z
}.

Inductive discard := discard_disable | discard_enable | discard_besteffort.
#[export] Instance discard_eq_dec : EqDecision discard.
Proof. solve_decision. Defined.

Record drive_source := mk_source {
  src_protocol : drive_protocol;
  src_format : option string;
  src_path : string;            (* union of path and exportname *)
  src_servers : list drive_server;
  src_username : option string;
  src_secret : option string
}.

Record drive := mk_drive {
  drv_src : drive_source;
  drv_overlay : option string;
  drv_readonly : bool;
  drv_iface : option string;
  drv_name : option string;
  drv_disk_label : option string;
  drv_cachemode : option string;
  drv_discard : discard;
  drv_copyonread : bool
}.
#[export] Instance upd_drv_overlay : Field drv_overlay := fun f r =>
  mk_drive (drv_src r) (f (drv_overlay r)) (drv_readonly r) (drv_iface r) (drv_name r)
    (drv_disk_label r) (drv_cachemode r) (drv_discard r) (drv_copyonread r).

(** ** The backend

    The functions of struct backend_ops that the modelled code calls, by their
    results; [None] is a NULL function pointer. *)
Record backend_ops := mk_backend_ops {
  bo_data_size : Z;
  bo_create_cow_overlay : option (drive -> option string);
  bo_shutdown : Z -> Z;                          (* of check_for_errors *)
  bo_get_pid : option Z;
  bo_max_disks : option Z;
  bo_hot_add_drive : option (drive -> nat -> Z);
  bo_hot_remove_drive : option (drive -> nat -> Z)
}.

(** ** Configuration of the handle *)

Record config := mk_config {
  verbose : bool;
  trace : bool;
  autosync : bool;
  direct_mode : bool;
  recovery_proc : bool;
  enable_network : bool;
  selinux : bool;
  pgroup : bool;
  close_on_exit : bool;
  smp : Z;
  memsize : Z;
  path : string;
  hv : string;
  append : option string;
  hv_params : list (string * option string);  (* the linked list, newest first *)
  program : string;
  backend : string;
  backend_arg : option string;
  backend_settings : option (list string)  (* NULL or a NULL-terminated vector *)
}.

#[export] Instance upd_verbose : Field verbose := fun f r =>
  mk_config (f (verbose r)) (trace r) (autosync r) (direct_mode r) (recovery_proc r)
    (enable_network r) (selinux r) (pgroup r) (close_on_exit r) (smp r) (memsize r) (path r)
    (hv r) (append r) (hv_params r) (program r) (backend r) (backend_arg r) (backend_settings r).
#[export] Instance upd_trace : Field trace := fun f r =>
  mk_config (verbose r) (f (trace r)) (autosync r) (direct_mode r) (recovery_proc r)
    (enable_network r) (selinux r) (pgroup r) (close_on_exit r) (smp r) (memsize r) (path r)
    (hv r) (append r) (hv_params r) (program r) (backend r) (backend_arg r) (backend_settings r).
#[export] Instance upd_autosync : Field autosync := fun f r =>
  mk_config (verbose r) (trace r) (f (autosync r)) (direct_mode r) (recovery_proc r)
    (enable_network r) (selinux r) (pgroup r) (close_on_exit r) (smp r) (memsize r) (path r)
    (hv r) (append r) (hv_params r) (program r) (backend r) (backend_arg r) (backend_settings r).
#[export] Instance upd_direct_mode : Field direct_mode := fun f r =>
  mk_config (verbose r) (trace r) (autosync r) (f (direct_mode r)) (recovery_proc r)
    (enable_network r) (selinux r) (pgroup r) (close_on_exit r) (smp r) (memsize r) (path r)
    (hv r) (append r) (hv_params r) (program r) (backend r) (backend_arg r) (backend_settings r).
#[export] Instance upd_recovery_proc : Field recovery_proc := fun f r =>
  mk_config (verbose r) (trace r) (autosync r) (direct_mode r) (f (recovery_proc r))
    (enable_network r) (selinux r) (pgroup r) (close_on_exit r) (smp r) (memsize r) (path r)
    (hv r) (append r) (hv_params r) (program r) (backend r) (backend_arg r) (backend_settings r).
#[export] Instance upd_enable_network : Field enable_network := fun f r =>
  mk_config (verbose r) (trace r) (autosync r) (direct_mode r) (recovery_proc r)
    (f (enable_network r)) (selinux r) (pgroup r) (close_on_exit r) (smp r) (memsize r) (path r)
    (hv r) (append r) (hv_params r) (program r) (backend r) (backend_arg r) (backend_settings r).
#[export] Instance upd_selinux : Field selinux := fun f r =>
  mk_config (verbose r) (trace r) (autosync r) (direct_mode r) (recovery_proc r)
    (enable_network r) (f (selinux r)) (pgroup r) (close_on_exit r) (smp r) (memsize r) (path r)
    (hv r) (append r) (hv_params r) (program r) (backend r) (backend_arg r) (backend_settings r).
#[export] Instance upd_pgroup : Field pgroup := fun f r =>
  mk_config (verbose r) (trace r) (autosync r) (direct_mode r) (recovery_proc r)
    (enable_network r) (selinux r) (f (pgroup r)) (close_on_exit r) (smp r) (memsize r) (path r)
    (hv r) (append r) (hv_params r) (program r) (backend r) (backend_arg r) (backend_settings r).
#[export] Instance upd_close_on_exit : Field close_on_exit := fun f r =>
  mk_config (verbose r) (trace r) (autosync r) (direct_mode r) (recovery_proc r)
    (enable_network r) (selinux r) (pgroup r) (f (close_on_exit r)) (smp r) (memsize r) (path r)
    (hv r) (append r) (hv_params r) (program r) (backend r) (backend_arg r) (backend_settings r).
#[export] Instance upd_smp : Field smp := fun f r =>
  mk_config (verbose r) (trace r) (autosync r) (direct_mode r) (recovery_proc r)
    (enable_network r) (selinux r) (pgroup r) (close_on_exit r) (f (smp r)) (memsize r) (path r)
    (hv r) (append r) (hv_params r) (program r) (backend r) (backend_arg r) (backend_settings r).
#[export] Instance upd_memsize : Field memsize := fun f r =>
  mk_config (verbose r) (trace r) (autosync r) (direct_mode r) (recovery_proc r)
    (enable_network r) (selinux r) (pgroup r) (close_on_exit r) (smp r) (f (memsize r)) (path r)
    (hv r) (append r) (hv_params r) (program r) (backend r) (backend_arg r) (backend_settings r).
#[export] Instance upd_path : Field path := fun f r =>
  mk_config (verbose r) (trace r) (autosync r) (direct_mode r) (recovery_proc r)
    (enable_network r) (selinux r) (pgroup r) (close_on_exit r) (smp r) (memsize r) (f (path r))
    (hv r) (append r) (hv_params r) (program r) (backend r) (backend_arg r) (backend_settings r).
#[export] Instance upd_hv : Field hv := fun f r =>
  mk_config (verbose r) (trace r) (autosync r) (direct_mode r) (recovery_proc r)
    (enable_network r) (selinux r) (pgroup r) (close_on_exit r) (smp r) (memsize r) (path r)
    (f (hv r)) (append r) (hv_params r) (program r) (backend r) (backend_arg r)
    (backend_settings r).
#[export] Instance upd_append : Field append := fun f r =>
  mk_config (verbose r) (trace r) (autosync r) (direct_mode r) (recovery_proc r)
    (enable_network r) (selinux r) (pgroup r) (close_on_exit r) (smp r) (memsize r) (path r)
    (hv r) (f (append r)) (hv_params r) (program r) (backend r) (backend_arg r)
    (backend_settings r).
#[export] Instance upd_hv_params : Field hv_params := fun f r =>
  mk_config (verbose r) (trace r) (autosync r) (direct_mode r) (recovery_proc r)
    (enable_network r) (selinux r) (pgroup r) (close_on_exit r) (smp r) (memsize r) (path r)
    (hv r) (append r) (f (hv_params r)) (program r) (backend r) (backend_arg r)
    (backend_settings r).
#[export] Instance upd_program : Field program := fun f r =>
  mk_config (verbose r) (trace r) (autosync r) (direct_mode r) (recovery_proc r)
    (enable_network r) (selinux r) (pgroup r) (close_on_exit r) (smp r) (memsize r) (path r)
    (hv r) (append r) (hv_params r) (f (program r)) (backend r) (backend_arg r)
    (backend_settings r).
#[export] Instance upd_backend : Field backend := fun f r =>
  mk_config (verbose r) (trace r) (autosync r) (direct_mode r) (recovery_proc r)
    (enable_network r) (selinux r) (pgroup r) (close_on_exit r) (smp r) (memsize r) (path r)
    (hv r) (append r) (hv_params r) (program r) (f (backend r)) (backend_arg r)
    (backend_settings r).
#[export] Instance upd_backend_arg : Field backend_arg := fun f r =>
  mk_config (verbose r) (trace r) (autosync r) (direct_mode r) (recovery_proc r)
    (enable_network r) (selinux r) (pgroup r) (close_on_exit r) (smp r) (memsize r) (path r)
    (hv r) (append r) (hv_params r) (program r) (backend r) (f (backend_arg r))
    (backend_settings r).
#[export] Instance upd_backend_settings : Field backend_settings := fun f r =>
  mk_config (verbose r) (trace r) (autosync r) (direct_mode r) (recovery_proc r)
    (enable_network r) (selinux r) (pgroup r) (close_on_exit r) (smp r) (memsize r) (path r)
    (hv r) (append r) (hv_params r) (program r) (backend r) (backend_arg r)
    (f (backend_settings r)).

(** ** Errors *)

Record errors := mk_errors {
  last_error : option string;
  last_errnum : Z;
  error_cb : option error_handler_cb;
  error_cb_data : Z;
  error_cb_stack : list (option error_handler_cb * Z)
}.

#[export] Instance upd_last_error : Field last_error := fun f r =>
  mk_errors (f (last_error r)) (last_errnum r) (error_cb r) (error_cb_data r) (error_cb_stack r).
#[export] Instance upd_last_errnum : Field last_errnum := fun f r =>
  mk_errors (last_error r) (f (last_errnum r)) (error_cb r) (error_cb_data r) (error_cb_stack r).
#[export] Instance upd_error_cb : Field error_cb := fun f r =>
  mk_errors (last_error r) (last_errnum r) (f (error_cb r)) (error_cb_data r) (error_cb_stack r).
#[export] Instance upd_error_cb_data : Field error_cb_data := fun f r =>
  mk_errors (last_error r) (last_errnum r) (error_cb r) (f (error_cb_data r)) (error_cb_stack r).
#[export] Instance upd_error_cb_stack : Field error_cb_stack := fun f r =>
  mk_errors (last_error r) (last_errnum r) (error_cb r) (error_cb_data r) (f (error_cb_stack r)).

(** ** Temporary and cache directories *)

Record directories := mk_directories {
  tmpdir : option string;
  env_tmpdir : option string;
  int_tmpdir : option string;
  int_cachedir : option string
}.

#[export] Instance upd_tmpdir : Field tmpdir := fun f r =>
  mk_directories (f (tmpdir r)) (env_tmpdir r) (int_tmpdir r) (int_cachedir r).
#[export] Instance upd_env_tmpdir : Field env_tmpdir := fun f r =>
  mk_directories (tmpdir r) (f (env_tmpdir r)) (int_tmpdir r) (int_cachedir r).
#[export] Instance upd_int_tmpdir : Field int_tmpdir := fun f r =>
  mk_directories (tmpdir r) (env_tmpdir r) (f (int_tmpdir r)) (int_cachedir r).
#[export] Instance upd_int_cachedir : Field int_cachedir := fun f r =>
  mk_directories (tmpdir r) (env_tmpdir r) (int_tmpdir r) (f (int_cachedir r)).

(** ** The environment of the handle *)

Record environment := mk_environment {
  env_strerror : Z -> string;  (* strerror_r (3) *)
  env_clock : list timeval;  (* successive results of gettimeofday (2) *)
  env_default_path : string;  (* GUESTFS_DEFAULT_PATH *)
  env_qemu : option string;  (* QEMU, unless configured --without-qemu *)
  env_backends : list (string * backend_ops)  (* the registered backends, newest first *)
}.

#[export] Instance upd_env_strerror : Field env_strerror := fun f r =>
  mk_environment (f (env_strerror r)) (env_clock r) (env_default_path r) (env_qemu r)
    (env_backends r).
#[export] Instance upd_env_clock : Field env_clock := fun f r =>
  mk_environment (env_strerror r) (f (env_clock r)) (env_default_path r) (env_qemu r)
    (env_backends r).
#[export] Instance upd_env_default_path : Field env_default_path := fun f r =>
  mk_environment (env_strerror r) (env_clock r) (f (env_default_path r)) (env_qemu r)
    (env_backends r).
#[export] Instance upd_env_qemu : Field env_qemu := fun f r =>
  mk_environment (env_strerror r) (env_clock r) (env_default_path r) (f (env_qemu r))
    (env_backends r).
#[export] Instance upd_env_backends : Field env_backends := fun f r =>
  mk_environment (env_strerror r) (env_clock r) (env_default_path r) (env_qemu r)
    (f (env_backends r)).

(** ** The handle *)

Record guestfs_h := mk_handle {
  g_state : state;
  g_cfg : config;
  g_errs : errors;
  g_events : list event;  (* events[0 .. nr_events-1] *)
  g_drives : list (option drive);  (* drives[0 .. nr_drives-1], None is a NULL slot *)
  g_dirs : directories;
  g_user_cancel : bool;
  g_launch_t : timeval;
  g_unique : Z;
  g_msg_next_serial : Z;
  g_backend_ops : backend_ops;
  g_env : environment;
  g_out : list output
}.

#[export] Instance upd_g_state : Field g_state := fun f r =>
  mk_handle (f (g_state r)) (g_cfg r) (g_errs r) (g_events r) (g_drives r) (g_dirs r)
    (g_user_cancel r) (g_launch_t r) (g_unique r) (g_msg_next_serial r) (g_backend_ops r)
    (g_env r) (g_out r).
#[export] Instance upd_g_cfg : Field g_cfg := fun f r =>
  mk_handle (g_state r) (f (g_cfg r)) (g_errs r) (g_events r) (g_drives r) (g_dirs r)
    (g_user_cancel r) (g_launch_t r) (g_unique r) (g_msg_next_serial r) (g_backend_ops r)
    (g_env r) (g_out r).
#[export] Instance upd_g_errs : Field g_errs := fun f r =>
  mk_handle (g_state r) (g_cfg r) (f (g_errs r)) (g_events r) (g_drives r) (g_dirs r)
    (g_user_cancel r) (g_launch_t r) (g_unique r) (g_msg_next_serial r) (g_backend_ops r)
    (g_env r) (g_out r).
#[export] Instance upd_g_events : Field g_events := fun f r =>
  mk_handle (g_state r) (g_cfg r) (g_errs r) (f (g_events r)) (g_drives r) (g_dirs r)
    (g_user_cancel r) (g_launch_t r) (g_unique r) (g_msg_next_serial r) (g_backend_ops r)
    (g_env r) (g_out r).
#[export] Instance upd_g_drives : Field g_drives := fun f r =>
  mk_handle (g_state r) (g_cfg r) (g_errs r) (g_events r) (f (g_drives r)) (g_dirs r)
    (g_user_cancel r) (g_launch_t r) (g_unique r) (g_msg_next_serial r) (g_backend_ops r)
    (g_env r) (g_out r).
#[export] Instance upd_g_dirs : Field g_dirs := fun f r =>
  mk_handle (g_state r) (g_cfg r) (g_errs r) (g_events r) (g_drives r) (f (g_dirs r))
    (g_user_cancel r) (g_launch_t r) (g_unique r) (g_msg_next_serial r) (g_backend_ops r)
    (g_env r) (g_out r).
#[export] Instance upd_g_user_cancel : Field g_user_cancel := fun f r =>
  mk_handle (g_state r) (g_cfg r) (g_errs r) (g_events r) (g_drives r) (g_dirs r)
    (f (g_user_cancel r)) (g_launch_t r) (g_unique r) (g_msg_next_serial r) (g_backend_ops r)
    (g_env r) (g_out r).
#[export] Instance upd_g_launch_t : Field g_launch_t := fun f r =>
  mk_handle (g_state r) (g_cfg r) (g_errs r) (g_events r) (g_drives r) (g_dirs r)
    (g_user_cancel r) (f (g_launch_t r)) (g_unique r) (g_msg_next_serial r) (g_backend_ops r)
    (g_env r) (g_out r).
#[export] Instance upd_g_unique : Field g_unique := fun f r =>
  mk_handle (g_state r) (g_cfg r) (g_errs r) (g_events r) (g_drives r) (g_dirs r)
    (g_user_cancel r) (g_launch_t r) (f (g_unique r)) (g_msg_next_serial r) (g_backend_ops r)
    (g_env r) (g_out r).
#[export] Instance upd_g_msg_next_serial : Field g_msg_next_serial := fun f r =>
  mk_handle (g_state r) (g_cfg r) (g_errs r) (g_events r) (g_drives r) (g_dirs r)
    (g_user_cancel r) (g_launch_t r) (g_unique r) (f (g_msg_next_serial r)) (g_backend_ops r)
    (g_env r) (g_out r).
#[export] Instance upd_g_backend_ops : Field g_backend_ops := fun f r =>
  mk_handle (g_state r) (g_cfg r) (g_errs r) (g_events r) (g_drives r) (g_dirs r)
    (g_user_cancel r) (g_launch_t r) (g_unique r) (g_msg_next_serial r) (f (g_backend_ops r))
    (g_env r) (g_out r).
#[export] Instance upd_g_env : Field g_env := fun f r =>
  mk_handle (g_state r) (g_cfg r) (g_errs r) (g_events r) (g_drives r) (g_dirs r)
    (g_user_cancel r) (g_launch_t r) (g_unique r) (g_msg_next_serial r) (g_backend_ops r)
    (f (g_env r)) (g_out r).
#[export] Instance upd_g_out : Field g_out := fun f r =>
  mk_handle (g_state r) (g_cfg r) (g_errs r) (g_events r) (g_drives r) (g_dirs r)
    (g_user_cancel r) (g_launch_t r) (g_unique r) (g_msg_next_serial r) (g_backend_ops r)
    (g_env r) (f (g_out r)).

Definition add_out (os : list output) (g : guestfs_h) : guestfs_h :=
  g <| g_out ::= fun l => l ++ os |>.
Definition emit (o : output) (g : guestfs_h) : guestfs_h := add_out [o] g.

Lemma add_out_nil g : add_out [] g = g.
Proof. destruct g. unfold add_out, upd, upd_g_out. cbn. by rewrite app_nil_r. Qed.
Lemma add_out_app a b g : add_out b (add_out a g) = add_out (a ++ b) g.
Proof. destruct g. unfold add_out, upd, upd_g_out. cbn. by rewrite app_assoc. Qed.

(** gettimeofday: the next reading of the clock; the last one persists. *)
Definition gettimeofday (g : guestfs_h) : timeval * guestfs_h :=
  match env_clock (g_env g) with
  | [] => (mk_timeval 0 0, g)
  | [t] => (t, g)
  | t :: ts => (t, g <| g_env; env_clock := ts |>)
  end.

(** * src/errors.c *)

Module Errors.

Definition guestfs_last_error (g : guestfs_h) : option string := last_error (g_errs g).
Definition guestfs_last_errno (g : guestfs_h) : Z := last_errnum (g_errs g).

Definition set_last_error (g : guestfs_h) (errnum : Z) (msg : string) : guestfs_h :=
  g <| g_errs; last_error := Some msg |> <| g_errs; last_errnum := errnum |>.

Definition default_error_cb (g : guestfs_h) (msg : string) : guestfs_h :=
  emit (OutStderr (bytes_of_string ("libguestfs: error: " +:+ msg +:+ newline))) g.

Definition call_error_cb (g : guestfs_h) (msg : string) : guestfs_h :=
  match error_cb (g_errs g) with
  | None => g
  | Some ErrDefault => default_error_cb g msg
  | Some (ErrUser f) => emit (OutError f (error_cb_data (g_errs g)) msg) g
  end.

Definition guestfs___error_errno (g : guestfs_h) (errnum : Z) (msg : string) : guestfs_h :=
  call_error_cb (set_last_error g errnum msg) msg.

Definition error (g : guestfs_h) (msg : string) : guestfs_h := guestfs___error_errno g 0 msg.

Definition guestfs___perrorf (g : guestfs_h) (errnum : Z) (msg : string) : guestfs_h :=
  let msg := msg +:+ ": " +:+ env_strerror (g_env g) errnum in
  call_error_cb (set_last_error g errnum msg) msg.

Definition guestfs_set_error_handler (g : guestfs_h) (cb : option error_handler_cb) (data : Z) :
    guestfs_h :=
  g <| g_errs; error_cb := cb |> <| g_errs; error_cb_data := data |>.

Definition guestfs_get_error_handler (g : guestfs_h) : option error_handler_cb * Z :=
  (error_cb (g_errs g), error_cb_data (g_errs g)).

Definition guestfs_push_error_handler (g : guestfs_h) (cb : option error_handler_cb) (data : Z) :
    guestfs_h :=
  let g := g <| g_errs; error_cb_stack ::=
                 cons (error_cb (g_errs g), error_cb_data (g_errs g)) |> in
  guestfs_set_error_handler g cb data.

Definition guestfs___init_error_handler (g : guestfs_h) : guestfs_h :=
  g <| g_errs; error_cb := Some ErrDefault |> <| g_errs; error_cb_data := 0 |>.

Definition guestfs_pop_error_handler (g : guestfs_h) : guestfs_h :=
  match error_cb_stack (g_errs g) with
  | (cb, data) :: next_stack =>
      let g := guestfs_set_error_handler g cb data in
      g <| g_errs; error_cb_stack := next_stack |>
  | [] => guestfs___init_error_handler g
  end.

(** Standard messages for common failures; the text depends on [verbose]. *)
Definition unexpected_close_text (verbose : bool) : string :=
  if verbose
  then "appliance closed the connection unexpectedly, see earlier error messages"
  else "appliance closed the connection unexpectedly.
This usually means the libguestfs appliance crashed.
See http://libguestfs.org/guestfs-faq.1.html#debugging-libguestfs
for information about how to debug libguestfs and report bugs.".

Definition guestfs___unexpected_close_error (g : guestfs_h) : guestfs_h :=
  error g (unexpected_close_text (verbose (g_cfg g))).

Definition guestfs___launch_failed_error (g : guestfs_h) : guestfs_h :=
  error g (if verbose (g_cfg g)
  then "guestfs_launch failed, see earlier error messages"
  else "guestfs_launch failed.
This usually means the libguestfs appliance failed to start or crashed.
See http://libguestfs.org/guestfs-faq.1.html#debugging-libguestfs
or run 'libguestfs-test-tool' and post the *complete* output into a
bug report or message to the libguestfs mailing list.").

Definition guestfs___launch_timeout (g : guestfs_h) : guestfs_h :=
  error g (if verbose (g_cfg g)
  then "appliance launch timed out, see earlier error messages"
  else "appliance launch timed out.
This usually means the kernel or appliance hung during launch.
See http://libguestfs.org/guestfs-faq.1.html#debugging-libguestfs
for information about how to debug libguestfs and report bugs.").

End Errors.
Export Errors.

(** A handle to evaluate the model on. *)
Module Examples.

Definition no_backend : backend_ops :=
  mk_backend_ops 0 None (fun _ => 0) None None None None.

Definition ex_cfg : config :=
  mk_config false false true false true false false false true 1 500 "/usr/lib/guestfs"
    "qemu-kvm" None [] "" "direct" None None.

Definition ex_env : environment :=
  mk_environment (fun _ => "error") [] "/usr/lib/guestfs" (Some "qemu-kvm")
    [("direct", no_backend)].

Definition ex_handle : guestfs_h :=
  mk_handle READY ex_cfg (mk_errors None 0 None 0 []) [] [] (mk_directories None None None None)
    false (mk_timeval 0 0) 0 0x00123400 no_backend ex_env [].

End Examples.
