(* ===== verification/Events.v ===== *)
(** src/events.c: registration, deletion and dispatch of event callbacks, the
    default printing of messages on stderr, and the emulation of the old-style
    callback API. *)

From S2P Require Import Prelude Xdr Handle.
Local Open Scope Z_scope.

Definition GUESTFS_EVENT_CLOSE : Z := Z.shiftl 1 0.
Definition GUESTFS_EVENT_SUBPROCESS_QUIT : Z := Z.shiftl 1 1.
Definition GUESTFS_EVENT_LAUNCH_DONE : Z := Z.shiftl 1 2.
Definition GUESTFS_EVENT_PROGRESS : Z := Z.shiftl 1 3.
Definition GUESTFS_EVENT_APPLIANCE : Z := Z.shiftl 1 4.
Definition GUESTFS_EVENT_LIBRARY : Z := Z.shiftl 1 5.
Definition GUESTFS_EVENT_TRACE : Z := Z.shiftl 1 6.
Definition GUESTFS_EVENT_WARNING : Z := Z.shiftl 1 9.

(** * Registration *)

Definition guestfs_set_event_callback (g : guestfs_h) (cb : event_callback)
    (bitmask flags opaque : Z) : Z * guestfs_h :=
  if negb (flags =? 0)
  then (-1, error g "flags parameter should be passed as 0 to this function")
  else if (1000 <=? length (g_events g))%nat
  then (-1, error g "too many event callbacks registered")
  else (zlength (g_events g),
        g <| g_events ::= fun es => es ++ [mk_event bitmask cb opaque None] |>).

(** [nr_events--] leaves the entry in the array beyond the end. *)
Definition guestfs_delete_event_callback (g : guestfs_h) (event_handle : Z) : guestfs_h :=
  if (event_handle <? 0) || (zlength (g_events g) <=? event_handle) then g
  else
    let i := Z.to_nat event_handle in
    let es := alter (fun e => e <| event_bitmask := 0 |>) i (g_events g) in
    let es := if (i =? length es - 1)%nat then take (length es - 1) es else es in
    g <| g_events := es |>.

(** * Dispatch *)

Definition event_matches (ev : Z) (e : event) : bool :=
  negb (Z.land (event_bitmask e) ev =? 0).

(** One call of [g->events[i].cb]: a callback of the caller, or a wrapper that
    calls the old-style callback kept in [opaque2].  A wrapper with a NULL
    [opaque2] would call a NULL pointer; [events_ok] below excludes it. *)
Definition call_cb (ev : Z) (buf : list byte) (array : list Z) (i : nat) (e : event) :
    list output :=
  match event_cb e, event_opaque2 e with
  | CbUser f, _ => [OutEvent f (event_opaque e) ev i buf array]
  | CbLogMessageWrapper, Some f => [OutOldLogMessage f (event_opaque e) buf]
  | CbProgressWrapper, Some f =>
      match array with
      | a0 :: a1 :: a2 :: a3 :: _ =>
          [OutOldProgress f (event_opaque e) (s32 a0) (s32 a1) a2 a3]
      | _ => []
      end
  | (CbSubprocessQuitWrapper | CbLaunchDoneWrapper | CbCloseWrapper), Some f =>
      [OutOldVoid f (event_opaque e)]
  | _, None => []
  end.

(** The loop over the registered events, from index [i]; it also counts. *)
Fixpoint call_callbacks_from (ev : Z) (buf : list byte) (array : list Z)
    (i : nat) (es : list event) (g : guestfs_h) (count : nat) : guestfs_h * nat :=
  match es with
  | [] => (g, count)
  | e :: es' =>
      if event_matches ev e
      then call_callbacks_from ev buf array (S i) es'
             (add_out (call_cb ev buf array i e) g) (S count)
      else call_callbacks_from ev buf array (S i) es' g count
  end.

Definition guestfs___call_callbacks_void (g : guestfs_h) (ev : Z) : guestfs_h :=
  fst (call_callbacks_from ev [] [] 0 (g_events g) g 0).

Definition guestfs___call_callbacks_array (g : guestfs_h) (ev : Z) (array : list Z) : guestfs_h :=
  fst (call_callbacks_from ev [] array 0 (g_events g) g 0).

(** ** Printing messages *)

Definition c_isprint (b : byte) : bool :=
  let z := Z_of_byte b in (0x20 <=? z) && (z <=? 0x7e).

Definition NO_ESCAPING (from_appliance : bool) (c : byte) : bool :=
  c_isprint c || (from_appliance && (Byte.eqb c x0a || Byte.eqb c x0d)).

Definition hex_digit (z : Z) : byte :=
  if z <? 10 then byte_of_Z (0x30 + z) else byte_of_Z (0x61 + (z - 10)).

(** "%x" of an unsigned char. *)
Definition hex_byte (b : byte) : list byte :=
  let z := Z_of_byte b in
  if z <? 16 then [hex_digit z] else [hex_digit (z / 16); hex_digit (z mod 16)].

Definition backslash : byte := x5c.

Definition escape_char (b : byte) : list byte :=
  match b with
  | x00 => backslash :: bytes_of_string "0"
  | x07 => backslash :: bytes_of_string "a"
  | x08 => backslash :: bytes_of_string "b"
  | x0c => backslash :: bytes_of_string "f"
  | x0a => backslash :: bytes_of_string "n"
  | x0d => backslash :: bytes_of_string "r"
  | x09 => backslash :: bytes_of_string "t"
  | x0b => backslash :: bytes_of_string "v"
  | _ => backslash :: bytes_of_string "x" ++ hex_byte b
  end.

(** The longest run of characters that need no escape, and what follows. *)
Fixpoint run_of (p : byte -> bool) (buf : list byte) : list byte * list byte :=
  match buf with
  | c :: buf' => if p c then let '(r, t) := run_of p buf' in (c :: r, t) else ([], buf)
  | [] => ([], [])
  end.

(** The [for] loop over the buffer: the list of the writes it performs.  Each
    turn consumes at least one character, so the length of the buffer is
    enough fuel. *)
Fixpoint print_escaped (fuel : nat) (from_appliance : bool) (buf : list byte) : list (list byte) :=
  match fuel, buf with
  | S fuel', c :: buf' =>
      if NO_ESCAPING from_appliance c
      then let '(run, tail) := run_of (NO_ESCAPING from_appliance) buf in
           run :: print_escaped fuel' from_appliance tail
      else escape_char c :: print_escaped fuel' from_appliance buf'
  | _, _ => []
  end.

Definition emit_all (ws : list (list byte)) (g : guestfs_h) : guestfs_h :=
  fold_left (fun g w => emit (OutStderr w) g) ws g.

Definition guestfs___call_callbacks_message (g : guestfs_h) (ev : Z) (buf : list byte) :
    guestfs_h :=
  let '(g, count) := call_callbacks_from ev buf [] 0 (g_events g) g 0 in
  if (0 <? count)%nat then g
  else if ((ev =? GUESTFS_EVENT_APPLIANCE) || (ev =? GUESTFS_EVENT_LIBRARY) ||
           (ev =? GUESTFS_EVENT_WARNING) || (ev =? GUESTFS_EVENT_TRACE)) &&
          (verbose (g_cfg g) || (ev =? GUESTFS_EVENT_WARNING) || (ev =? GUESTFS_EVENT_TRACE))
  then
    let from_appliance := ev =? GUESTFS_EVENT_APPLIANCE in
    let puts (b : bool) (s : string) (g : guestfs_h) :=
      if b then emit (OutStderr (bytes_of_string s)) g else g in
    let g := puts (negb (ev =? GUESTFS_EVENT_APPLIANCE)) "libguestfs: " g in
    let g := puts (ev =? GUESTFS_EVENT_WARNING) "warning: " g in
    let g := puts (ev =? GUESTFS_EVENT_TRACE) "trace: " g in
    let g := emit_all (print_escaped (length buf) from_appliance buf) g in
    puts (negb from_appliance) newline g
  else g.

(** src/errors.c: warnings, debug and trace messages are message events. *)
Definition guestfs___warning (g : guestfs_h) (msg : string) : guestfs_h :=
  guestfs___call_callbacks_message g GUESTFS_EVENT_WARNING (bytes_of_string msg).
Definition guestfs___debug (g : guestfs_h) (msg : string) : guestfs_h :=
  if negb (verbose (g_cfg g)) then g
  else guestfs___call_callbacks_message g GUESTFS_EVENT_LIBRARY (bytes_of_string msg).
Definition guestfs___trace (g : guestfs_h) (msg : string) : guestfs_h :=
  guestfs___call_callbacks_message g GUESTFS_EVENT_TRACE (bytes_of_string msg).

(** * The old-style API *)

Fixpoint find_cb (cb : event_callback) (i : nat) (es : list event) : option nat :=
  match es with
  | [] => None
  | e :: es' => if decide (event_cb e = cb) then Some i else find_cb cb (S i) es'
  end.

Definition replace_old_style_event_callback (g : guestfs_h) (cb : event_callback)
    (bitmask opaque : Z) (opaque2 : option Z) : guestfs_h :=
  match find_cb cb 0 (g_events g), opaque2 with
  | Some i, None => guestfs_delete_event_callback g (Z.of_nat i)
  | Some i, Some _ => g <| g_events ::= <[i := mk_event bitmask cb opaque opaque2]> |>
  | None, None => g
  | None, Some _ => g <| g_events ::= fun es => es ++ [mk_event bitmask cb opaque opaque2] |>
  end.

Definition guestfs_set_log_message_callback (g : guestfs_h) (cb : option Z) (opaque : Z) :=
  replace_old_style_event_callback g CbLogMessageWrapper GUESTFS_EVENT_APPLIANCE opaque cb.
Definition guestfs_set_subprocess_quit_callback (g : guestfs_h) (cb : option Z) (opaque : Z) :=
  replace_old_style_event_callback g CbSubprocessQuitWrapper GUESTFS_EVENT_SUBPROCESS_QUIT
    opaque cb.
Definition guestfs_set_launch_done_callback (g : guestfs_h) (cb : option Z) (opaque : Z) :=
  replace_old_style_event_callback g CbLaunchDoneWrapper GUESTFS_EVENT_LAUNCH_DONE opaque cb.
Definition guestfs_set_close_callback (g : guestfs_h) (cb : option Z) (opaque : Z) :=
  replace_old_style_event_callback g CbCloseWrapper GUESTFS_EVENT_CLOSE opaque cb.
Definition guestfs_set_progress_callback (g : guestfs_h) (cb : option Z) (opaque : Z) :=
  replace_old_style_event_callback g CbProgressWrapper GUESTFS_EVENT_PROGRESS opaque cb.

(** src/proto.c: the progress callback. *)
Definition guestfs___progress_message_callback (g : guestfs_h) (proc serial position total : Z) :
    guestfs_h :=
  guestfs___call_callbacks_array g GUESTFS_EVENT_PROGRESS
    [u32 proc; serial; position; total].

(** * Dispatch calls exactly the matching callbacks *)

(** The reference: for every registered event whose bitmask matches, in order
    of registration, one call with its handle. *)
Definition dispatched (ev : Z) (buf : list byte) (array : list Z) (es : list event) :
    list output :=
  concat (imap (fun i e => if event_matches ev e then call_cb ev buf array i e else []) es).

Lemma call_callbacks_from_spec ev buf array es : forall i g count,
  call_callbacks_from ev buf array i es g count =
  (add_out (concat (imap (fun k e =>
        if event_matches ev e then call_cb ev buf array (i + k)%nat e else []) es)) g,
   (count + length (filter (fun e => event_matches ev e = true) es))%nat).
Proof.
  induction es as [|e es IH]; intros i g count; cbn [call_callbacks_from imap concat].
  - cbn. by rewrite add_out_nil, Nat.add_0_r.
  - rewrite filter_cons, Nat.add_0_r.
    assert (imap ((fun k e0 => if event_matches ev e0 then call_cb ev buf array (i + k)%nat e0
              else []) ∘ S) es =
            imap (fun k e0 => if event_matches ev e0 then call_cb ev buf array (S i + k)%nat e0
              else []) es) as ->.
    { apply imap_ext. intros k x Hx. unfold compose. by rewrite Nat.add_succ_r. }
    destruct (event_matches ev e) eqn:E; rewrite IH; cbn [concat].
    + rewrite decide_True by done. rewrite add_out_app. cbn [length]. f_equal. lia.
    + by rewrite decide_False by done.
Qed.

Lemma call_callbacks_from_dispatched ev buf array g :
  fst (call_callbacks_from ev buf array 0 (g_events g) g 0) =
  add_out (dispatched ev buf array (g_events g)) g.
Proof. by rewrite call_callbacks_from_spec. Qed.

Lemma event_matches_0 ev e : event_matches ev (e <| event_bitmask := 0 |>) = false.
Proof. done. Qed.

Definition output_handle (o : output) : option nat :=
  match o with OutEvent _ _ _ i _ _ => Some i | _ => None end.

(** The dispatch of a list in which entry [i] was cleared, or removed at the
    end, is the dispatch without the calls of entry [i]. *)
Definition dispatched_except (h : nat) ev buf array (es : list event) : list output :=
  concat (imap (fun i e => if event_matches ev e && negb (i =? h)%nat
                           then call_cb ev buf array i e else []) es).

Lemma dispatched_clear ev buf array es h :
  dispatched ev buf array (alter (fun e => e <| event_bitmask := 0 |>) h es) =
  dispatched_except h ev buf array es.
Proof.
  unfold dispatched, dispatched_except. f_equal.
  apply list_eq. intros i. rewrite !list_lookup_imap.
  destruct (decide (i = h)) as [->|Hi].
  - rewrite list_lookup_alter_eq. destruct (es !! h); cbn; [|done].
    by rewrite Nat.eqb_refl, andb_false_r.
  - rewrite list_lookup_alter_ne by done. destruct (es !! i); cbn; [|done].
    destruct (Nat.eqb_spec i h); [done|]. by rewrite andb_true_r.
Qed.

Lemma dispatched_snoc ev buf array es e :
  dispatched ev buf array (es ++ [e]) =
  dispatched ev buf array es ++
  (if event_matches ev e then call_cb ev buf array (length es) e else []).
Proof.
  unfold dispatched. rewrite imap_app, concat_app. cbn. by rewrite app_nil_r, Nat.add_0_r.
Qed.

Lemma dispatched_delete g h ev buf array :
  (h < length (g_events g))%nat ->
  dispatched ev buf array (g_events (guestfs_delete_event_callback g (Z.of_nat h))) =
  dispatched_except h ev buf array (g_events g).
Proof.
  intros Hh. unfold guestfs_delete_event_callback, zlength.
  destruct (Z.ltb_spec (Z.of_nat h) 0); [lia|].
  destruct (Z.leb_spec (Z.of_nat (length (g_events g))) (Z.of_nat h)); [lia|].
  cbn [orb]. rewrite Nat2Z.id. rewrite <- dispatched_clear.
  set (es := alter _ h (g_events g)).
  assert (length es = length (g_events g)) as Hl by apply length_alter.
  destruct (Nat.eqb_spec h (length es - 1)) as [E|E]; [|done].
  cbn. destruct es as [|e es' _] eqn:Ees using rev_ind; [done|].
  rewrite length_app in *. cbn in *.
  replace (length es' + 1 - 1)%nat with (length es') in * by lia.
  rewrite take_app_exact by done. rewrite dispatched_snoc.
  assert (es !! h = Some e) as Hlook.
  { rewrite Ees, E, lookup_app_r, Nat.sub_diag by lia. done. }
  unfold es in Hlook. rewrite list_lookup_alter_eq in Hlook.
  destruct (g_events g !! h) as [e0|]; cbn in Hlook; [|done]. simplify_eq.
  by rewrite event_matches_0, app_nil_r.
Qed.

(** * The printing loop is the per-character escape *)

Lemma run_of_spec p buf r t :
  run_of p buf = (r, t) ->
  buf = r ++ t /\ Forall (fun c => p c = true) r /\
  match t with c :: _ => p c = false | [] => True end.
Proof.
  revert r t. induction buf as [|c buf IH]; cbn; intros r t H; simplify_eq; [done|].
  destruct (p c) eqn:E.
  - destruct (run_of p buf) as [r' t'] eqn:E'. simplify_eq.
    destruct (IH _ _ eq_refl) as (-> & ? & ?). repeat split; auto.
  - simplify_eq. done.
Qed.

Definition escape1 (from_appliance : bool) (c : byte) : list byte :=
  if NO_ESCAPING from_appliance c then [c] else escape_char c.

Lemma flat_map_run fa r :
  Forall (fun c => NO_ESCAPING fa c = true) r -> flat_map (escape1 fa) r = r.
Proof.
  induction 1 as [|c r Hc _ IH]; [done|]. cbn. rewrite IH. unfold escape1. by rewrite Hc.
Qed.

Lemma print_escaped_spec fa : forall fuel buf, (length buf <= fuel)%nat ->
  concat (print_escaped fuel fa buf) = flat_map (escape1 fa) buf.
Proof.
  induction fuel as [|fuel IH]; intros [|c buf] H; cbn in H; try done; [lia|].
  cbn [print_escaped]. destruct (NO_ESCAPING fa c) eqn:E.
  - destruct (run_of (NO_ESCAPING fa) (c :: buf)) as [r t] eqn:Er.
    pose proof (run_of_spec _ _ _ _ Er) as (Heq & Hr & _).
    cbn [concat]. rewrite IH.
    + rewrite Heq, flat_map_app, (flat_map_run fa r) by done. done.
    + cbn in Er. rewrite E in Er. destruct (run_of _ buf) as [r' t'] eqn:Er'. simplify_eq.
      apply run_of_spec in Er' as (-> & _ & _). rewrite length_app in H. lia.
  - cbn [concat]. rewrite IH by lia. cbn. unfold escape1 at 2. by rewrite E.
Qed.

Lemma escape_char_printable b : Forall (fun c => c_isprint c = true) (escape_char b).
Proof.
  assert (forallb c_isprint (escape_char b) = true) as H by (destruct b; reflexivity).
  rewrite forallb_forall in H. apply List.Forall_forall. exact H.
Qed.

Lemma escape1_printable fa c : Forall (fun d => NO_ESCAPING fa d = true) (escape1 fa c).
Proof.
  unfold escape1. destruct (NO_ESCAPING fa c) eqn:E; [by constructor|].
  eapply Forall_impl; [apply escape_char_printable|]. intros d Hd. cbn in *.
  unfold NO_ESCAPING. by rewrite Hd.
Qed.

(** * The invariant of the event table *)

Definition is_wrapper (cb : event_callback) : bool :=
  match cb with CbUser _ => false | _ => true end.

Definition wrappers : list event_callback :=
  [CbLogMessageWrapper; CbSubprocessQuitWrapper; CbLaunchDoneWrapper; CbCloseWrapper;
   CbProgressWrapper].

Definition old_style_entries (es : list event) : list event_callback :=
  filter (fun cb => is_wrapper cb = true) (event_cb <$> es).

(** Every old-style entry has the callback it must call, there is at most one
    per wrapper, and only old-style entries go beyond the limit of 1000. *)
Record events_ok (es : list event) : Prop := {
  ok_opaque2 : Forall (fun e => is_wrapper (event_cb e) = true -> is_Some (event_opaque2 e)) es;
  ok_unique : NoDup (old_style_entries es);
  ok_length : (length es <= 1000 + length (old_style_entries es))%nat
}.

(** The operations a program can perform on the table.  The wrappers are
    static functions: a program registers only its own callbacks. *)
Inductive event_step : guestfs_h -> guestfs_h -> Prop :=
  | step_set g f bitmask flags opaque :
      event_step g (snd (guestfs_set_event_callback g (CbUser f) bitmask flags opaque))
  | step_delete g h : event_step g (guestfs_delete_event_callback g h)
  | step_log_message g cb opaque : event_step g (guestfs_set_log_message_callback g cb opaque)
  | step_subprocess_quit g cb opaque :
      event_step g (guestfs_set_subprocess_quit_callback g cb opaque)
  | step_launch_done g cb opaque : event_step g (guestfs_set_launch_done_callback g cb opaque)
  | step_close g cb opaque : event_step g (guestfs_set_close_callback g cb opaque)
  | step_progress g cb opaque : event_step g (guestfs_set_progress_callback g cb opaque).

Lemma old_style_entries_app a b :
  old_style_entries (a ++ b) = old_style_entries a ++ old_style_entries b.
Proof. unfold old_style_entries. by rewrite fmap_app, filter_app. Qed.

Lemma old_style_length es : NoDup (old_style_entries es) -> (length (old_style_entries es) <= 5)%nat.
Proof.
  intros Hnd. apply (NoDup_incl_length (l' := wrappers)); [by apply NoDup_ListNoDup|].
  intros cb H%list_elem_of_In. unfold old_style_entries in H.
  apply list_elem_of_filter in H as [H _]. apply list_elem_of_In.
  destruct cb; [done|..]; unfold wrappers; set_solver.
Qed.

Lemma event_cb_alter (h : nat) (es : list event) :
  event_cb <$> alter (fun e => e <| event_bitmask := 0 |>) h es = event_cb <$> es.
Proof.
  revert h. induction es as [|e es IH]; intros [|h]; cbn; try done. f_equal. apply IH.
Qed.

Lemma events_ok_clear (h : nat) (es : list event) :
  events_ok es -> events_ok (alter (fun e => e <| event_bitmask := 0 |>) h es).
Proof.
  intros [H1 H2 H3]. unfold old_style_entries in *. split.
  - apply Forall_alter; [done|]. intros e _. by destruct e.
  - unfold old_style_entries. by rewrite event_cb_alter.
  - unfold old_style_entries. by rewrite length_alter, event_cb_alter.
Qed.

Lemma events_ok_drop_last es : events_ok es -> events_ok (take (length es - 1) es).
Proof.
  destruct es as [|e es _] using rev_ind; [done|]. intros [H1 H2 H3].
  rewrite length_app in *. cbn in *. rewrite Nat.add_sub.
  rewrite take_app_exact by done. rewrite old_style_entries_app in *.
  rewrite length_app in H3. apply NoDup_app in H2 as (H2 & _ & _). split; [|done|].
  - by apply Forall_app in H1 as [? _].
  - unfold old_style_entries in H3 at 2. cbn in H3.
    destruct (decide (is_wrapper (event_cb e) = true)); cbn in H3; lia.
Qed.

Lemma events_ok_delete g h :
  events_ok (g_events g) -> events_ok (g_events (guestfs_delete_event_callback g h)).
Proof.
  intros H. unfold guestfs_delete_event_callback. case_if; [done|]. cbn.
  case_if; auto using events_ok_clear, events_ok_drop_last.
Qed.

Lemma find_cb_spec cb es : forall i,
  match find_cb cb i es with
  | Some j => (i <= j)%nat /\ exists e, es !! (j - i)%nat = Some e /\ event_cb e = cb
  | None => Forall (fun e => event_cb e <> cb) es
  end.
Proof.
  induction es as [|e es IH]; intros i; cbn; [constructor|].
  destruct (decide (event_cb e = cb)).
  - split; [lia|]. rewrite Nat.sub_diag. eauto.
  - specialize (IH (S i)). destruct (find_cb cb (S i) es) as [j|].
    + destruct IH as (? & e' & ? & ?). split; [lia|]. exists e'.
      replace (j - i)%nat with (S (j - S i)) by lia. done.
    + by constructor.
Qed.

Lemma event_cb_insert (i : nat) cb e0 (es : list event) :
  es !! i = Some e0 -> event_cb e0 = event_cb cb -> event_cb <$> <[i := cb]> es = event_cb <$> es.
Proof.
  intros H1 H2. rewrite list_fmap_insert. apply list_insert_id.
  by rewrite list_lookup_fmap, H1, <- H2.
Qed.

Lemma events_ok_replace g cb bitmask opaque opaque2 :
  is_wrapper cb = true -> events_ok (g_events g) ->
  events_ok (g_events (replace_old_style_event_callback g cb bitmask opaque opaque2)).
Proof.
  intros Hw H. unfold replace_old_style_event_callback.
  pose proof (find_cb_spec cb (g_events g) 0) as Hf.
  destruct (find_cb cb 0 (g_events g)) as [i|], opaque2 as [f|];
    [|by apply events_ok_delete| |done]; cbn.
  - destruct Hf as (_ & e & He & Hcb). rewrite Nat.sub_0_r in He. destruct H as [H1 H2 H3].
    unfold old_style_entries in *. split; unfold old_style_entries;
      rewrite ?length_insert, ?(event_cb_insert i _ e) by done; [|done..].
    apply Forall_insert; [done|]. by eexists.
  - destruct H as [H1 H2 H3].
    assert (old_style_entries (g_events g ++ [mk_event bitmask cb opaque (Some f)]) =
            old_style_entries (g_events g) ++ [cb]) as E.
    { rewrite old_style_entries_app. f_equal. unfold old_style_entries. cbn.
      by rewrite decide_True by done. }
    split; rewrite ?E.
    + apply Forall_app. split; [done|]. repeat constructor. by eexists.
    + apply NoDup_app. split; [done|]. split; [|apply NoDup_singleton].
      intros x Hx ->%list_elem_of_singleton. unfold old_style_entries in Hx.
      apply list_elem_of_filter in Hx as [_ (e & -> & Hx)%list_elem_of_fmap].
      rewrite Forall_forall in Hf. by apply Hf in Hx.
    + rewrite !length_app. cbn. lia.
Qed.

Lemma events_ok_set g f bitmask flags opaque :
  events_ok (g_events g) ->
  events_ok (g_events (snd (guestfs_set_event_callback g (CbUser f) bitmask flags opaque))).
Proof.
  intros [H1 H2 H3]. unfold guestfs_set_event_callback.
  assert (forall m, events_ok (g_events (error g m))) as He.
  { intros m. unfold error, guestfs___error_errno, call_error_cb. cbn.
    destruct (error_cb (g_errs g)) as [[]|]; by split. }
  case_if; [apply He|]. destruct (Nat.leb_spec 1000 (length (g_events g))); [apply He|].
  cbn. assert (old_style_entries (g_events g ++ [mk_event bitmask (CbUser f) opaque None]) =
          old_style_entries (g_events g)) as E.
  { rewrite old_style_entries_app. unfold old_style_entries at 2. cbn. by rewrite app_nil_r. }
  split; rewrite ?E; [|done|].
  - apply Forall_app. split; [done|]. by repeat constructor.
  - rewrite length_app. cbn. lia.
Qed.

#[export] Hint Resolve events_ok_set events_ok_delete events_ok_replace : guestfs.

Lemma event_step_ok g g' : event_step g g' -> events_ok (g_events g) -> events_ok (g_events g').
Proof.
  destruct 1; intros; unfold guestfs_set_log_message_callback,
    guestfs_set_subprocess_quit_callback, guestfs_set_launch_done_callback,
    guestfs_set_close_callback, guestfs_set_progress_callback; auto with guestfs.
Qed.

Lemma events_ok_nil : events_ok [].
Proof. split; [constructor|constructor|cbn; lia]. Qed.

(** * Properties *)

(** What [guestfs___call_callbacks_message] prints when nobody listens. *)
Definition default_print (verbose : bool) (ev : Z) (buf : list byte) : list byte :=
  if ev =? GUESTFS_EVENT_APPLIANCE
  then if verbose then flat_map (escape1 true) buf else []
  else if ev =? GUESTFS_EVENT_LIBRARY
  then if verbose then bytes_of_string "libguestfs: " ++ flat_map (escape1 false) buf ++ [x0a] else []
  else if ev =? GUESTFS_EVENT_WARNING
  then bytes_of_string "libguestfs: warning: " ++ flat_map (escape1 false) buf ++ [x0a]
  else if ev =? GUESTFS_EVENT_TRACE
  then bytes_of_string "libguestfs: trace: " ++ flat_map (escape1 false) buf ++ [x0a]
  else [].

Definition stderr_of (os : list output) : list byte :=
  flat_map (fun o => match o with OutStderr bs => bs | _ => [] end) os.

Lemma emit_all_add_out ws g : emit_all ws g = add_out (OutStderr <$> ws) g.
Proof.
  revert g. induction ws as [|w ws IH]; intros g; cbn.
  - by rewrite add_out_nil.
  - rewrite IH. unfold emit. by rewrite add_out_app.
Qed.

Lemma stderr_of_writes ws : stderr_of (OutStderr <$> ws) = concat ws.
Proof. induction ws as [|w ws IH]; [done|]. unfold stderr_of in *. cbn. by rewrite IH. Qed.

Lemma stderr_of_app a b : stderr_of (a ++ b) = stderr_of a ++ stderr_of b.
Proof. apply flat_map_app. Qed.

(** Comparisons of two event constants. *)
Ltac eqb_closed :=
  match goal with
  | |- context [?a =? ?b] =>
      let r := eval vm_compute in (a =? b) in
      match r with true => idtac | false => idtac end; change (a =? b) with r
  end.

Lemma message_unheard g ev buf :
  filter (fun e => event_matches ev e = true) (g_events g) = [] ->
  exists os, guestfs___call_callbacks_message g ev buf = add_out os g /\
             stderr_of os = default_print (verbose (g_cfg g)) ev buf.
Proof.
  intros Hf. unfold guestfs___call_callbacks_message. rewrite call_callbacks_from_spec, Hf.
  cbn [length Nat.add Nat.ltb Nat.leb].
  assert (forall n, concat (imap (fun k e =>
      if event_matches ev e then call_cb ev buf [] (n + k)%nat e else []) (g_events g)) = []) as E.
  { assert (Forall (fun e => event_matches ev e = false) (g_events g)) as HF.
    { apply Forall_forall. intros e He. destruct (event_matches ev e) eqn:E; [|done].
      assert (e ∈ filter (fun e => event_matches ev e = true) (g_events g)) as Hin
        by (apply list_elem_of_filter; done). rewrite Hf in Hin. by apply not_elem_of_nil in Hin. }
    clear Hf. induction HF as [|e es He _ IH]; intros n; [done|]. cbn. rewrite He. cbn.
    etransitivity; [|apply (IH (S n))]. f_equal. apply imap_ext. intros k x _. unfold compose.
    by rewrite Nat.add_succ_r. }
  specialize (E 0%nat). cbn [Nat.add] in E. rewrite E, add_out_nil. unfold default_print. clear E Hf.
  pose proof (print_escaped_spec true (length buf) buf (le_n _)) as P1.
  pose proof (print_escaped_spec false (length buf) buf (le_n _)) as P2.
  destruct (Z.eqb_spec ev GUESTFS_EVENT_APPLIANCE) as [->|]; [|
  destruct (Z.eqb_spec ev GUESTFS_EVENT_LIBRARY) as [->|]; [|
  destruct (Z.eqb_spec ev GUESTFS_EVENT_WARNING) as [->|]; [|
  destruct (Z.eqb_spec ev GUESTFS_EVENT_TRACE) as [->|]]]];
  destruct (verbose (g_cfg g)); repeat eqb_closed;
    cbn -[bytes_of_string print_escaped newline]; rewrite ?emit_all_add_out; unfold emit; rewrite ?add_out_app;
    try (exists []; split; [symmetry; apply add_out_nil|reflexivity]);
    eexists; (split; [reflexivity|]); rewrite ?stderr_of_app, stderr_of_writes, ?P1, ?P2;
    cbn -[flat_map]; rewrite <- ?app_assoc; reflexivity.
Qed.

(** A message event is delivered once, in order, to every registered callback whose bitmask
    matches; with none, the message is printed on stderr with unprintable characters escaped
    according to the kind of event and the verbosity, and what is printed is always printable.
    *)
Theorem message_delivery g ev buf :
  (Exists (fun e => event_matches ev e = true) (g_events g) ->
     guestfs___call_callbacks_message g ev buf = add_out (dispatched ev buf [] (g_events g)) g) /\
  (~ Exists (fun e => event_matches ev e = true) (g_events g) ->
     exists os, guestfs___call_callbacks_message g ev buf = add_out os g /\
       stderr_of os = default_print (verbose (g_cfg g)) ev buf /\
       Forall (fun c => NO_ESCAPING true c = true) (stderr_of os)).
Proof.
  split; intros H.
  - unfold guestfs___call_callbacks_message. rewrite call_callbacks_from_spec.
    destruct (filter (fun e => event_matches ev e = true) (g_events g)) as [|e l] eqn:E; [|done].
    exfalso. apply Exists_exists in H as (e & He & Hm).
    assert (e ∈ filter (fun e => event_matches ev e = true) (g_events g)) as Hin
      by (apply list_elem_of_filter; done). rewrite E in Hin. by apply not_elem_of_nil in Hin.
  - destruct (message_unheard g ev buf) as (os & E1 & E2).
    { destruct (filter _ _) as [|e l] eqn:E; [done|]. exfalso. apply H.
      assert (e ∈ e :: l) as Hin by left. rewrite <- E in Hin.
      apply list_elem_of_filter in Hin as [Hm Hin]. apply Exists_exists. eauto. }
    exists os. split_and!; [done|done|]. rewrite E2.
    assert (forall fa, Forall (fun c => NO_ESCAPING true c = true) (flat_map (escape1 fa) buf)) as HF.
    { clear E1 E2. intros fa. induction buf as [|c buf IH]; [constructor|]. cbn. apply Forall_app. split; [|done].
      eapply Forall_impl; [apply escape1_printable|]. cbn. intros d. unfold NO_ESCAPING.
      destruct (c_isprint d); [done|]. by destruct fa. }
    unfold default_print. repeat case_if; rewrite ?Forall_app; split_and?; auto; repeat constructor.
Qed.

Lemma message_delivery_witness :
  guestfs___call_callbacks_message
    (Examples.ex_handle <| g_events := [mk_event GUESTFS_EVENT_TRACE (CbUser 7) 8 None] |>)
    GUESTFS_EVENT_TRACE [x41] =
  Examples.ex_handle <| g_events := [mk_event GUESTFS_EVENT_TRACE (CbUser 7) 8 None] |>
    <| g_out := [OutEvent 7 8 GUESTFS_EVENT_TRACE 0 [x41] []] |>.
Proof. apply message_delivery. left. reflexivity. Defined.

(** Whatever sequence of registrations, deletions and old-style registrations is made on a
    fresh handle, the event table holds at most one entry per old-style callback with its own
    event and function, and at most 1005 entries in all. *)
Theorem event_table_invariant g g' :
  rtc event_step g g' -> g_events g = [] ->
  events_ok (g_events g') /\ (length (g_events g') <= 1005)%nat.
Proof.
  intros Hs He. assert (events_ok (g_events g')) as H.
  { assert (events_ok (g_events g)) as H0 by (rewrite He; apply events_ok_nil). clear He.
    induction Hs as [|x y z Hxy _ IH]; [done|]. eauto using event_step_ok. }
  split; [done|]. destruct H as [_ H2 H3]. pose proof (old_style_length _ H2). lia.
Qed.

Lemma event_table_invariant_witness :
  events_ok (g_events (guestfs_set_close_callback Examples.ex_handle (Some 5) 6)).
Proof.
  apply (event_table_invariant Examples.ex_handle); [|reflexivity].
  apply rtc_once. constructor.
Defined.

(** Registering a callback returns the next handle, adds exactly its own deliveries, and
    deleting it restores the table; deleting any callback silences that one only. *)
Theorem callback_lifecycle g f bitmask opaque :
  (length (g_events g) < 1000)%nat ->
  exists h g1, guestfs_set_event_callback g (CbUser f) bitmask 0 opaque = (h, g1) /\
    h = zlength (g_events g) /\
    guestfs_delete_event_callback g1 h = g /\
    (forall ev array, guestfs___call_callbacks_array g1 ev array =
       add_out (dispatched ev [] array (g_events g) ++
                (if Z.land bitmask ev =? 0 then []
                 else [OutEvent f opaque ev (Z.to_nat h) [] array])) g1) /\
    (forall h' ev, (h' < length (g_events g1))%nat ->
       let g2 := guestfs_delete_event_callback g1 (Z.of_nat h') in
       guestfs___call_callbacks_void g2 ev =
       add_out (dispatched_except h' ev [] [] (g_events g1)) g2).
Proof.
  intros Hl. unfold guestfs_set_event_callback. cbn [negb Z.eqb].
  destruct (Nat.leb_spec 1000 (length (g_events g))); [lia|].
  eexists _, _. split; [reflexivity|]. split_and!; [done| | |].
  - unfold guestfs_delete_event_callback, zlength. cbn. rewrite length_app. cbn.
    destruct (Z.ltb_spec (Z.of_nat (length (g_events g))) 0); [lia|].
    destruct (Z.leb_spec (Z.of_nat (length (g_events g) + 1)) (Z.of_nat (length (g_events g)))); [lia|].
    cbn. rewrite Nat2Z.id, length_alter, length_app. cbn. rewrite Nat.add_sub, Nat.eqb_refl.
    rewrite take_alter, decide_False by lia. rewrite take_app_length. by destruct g.
  - intros ev array. unfold guestfs___call_callbacks_array.
    rewrite call_callbacks_from_dispatched. cbn [g_events upd upd_g_events]. rewrite dispatched_snoc. unfold event_matches. cbn.
    unfold zlength. rewrite Nat2Z.id. by destruct (Z.land bitmask ev =? 0).
  - intros h' ev Hh'. cbv zeta. unfold guestfs___call_callbacks_void.
    rewrite call_callbacks_from_dispatched, dispatched_delete by done. done.
Qed.

Lemma callback_lifecycle_witness :
  snd (guestfs_set_event_callback Examples.ex_handle (CbUser 3) 1 0 4) <> Examples.ex_handle /\
  exists h g1, guestfs_set_event_callback Examples.ex_handle (CbUser 3) 1 0 4 = (h, g1) /\
    guestfs_delete_event_callback g1 h = Examples.ex_handle.
Proof.
  split; [discriminate|].
  destruct (callback_lifecycle Examples.ex_handle 3 1 4) as (h & g1 & H1 & _ & H2 & _); [cbn; lia|].
  eauto.
Defined.
