(* ===== verification/Conn.v ===== *)
(** The connection to the appliance: the interface the protocol code uses
    (struct connection_ops of src/guestfs-internal.h), what it promises, and
    its implementation on sockets, src/conn-socket.c.

    The kernel is an explicit script of results of poll, read and write:
    every interleaving of short reads and writes, EINTR, EAGAIN and console
    messages is a script.  An exhausted script is a cooperative kernel (the
    socket accepts what is written, and is readable while data is left), except
    that waiting for data that never comes blocks. *)

From S2P Require Import Prelude Xdr Protocol Handle Events.
Local Open Scope Z_scope.

(** * Launch progress (src/launch.c, src/proto.c) *)

(** Milliseconds from [x] to [y]; C division truncates. *)
Definition guestfs___timeval_diff (x y : timeval) : Z :=
  (tv_sec y - tv_sec x) * 1000 + Z.quot (tv_usec y - tv_usec x) 1000.

Definition guestfs___launch_send_progress (g : guestfs_h) (perdozen : Z) : guestfs_h :=
  let '(tv, g) := gettimeofday g in
  if 5000 <=? guestfs___timeval_diff (g_launch_t g) tv
  then guestfs___progress_message_callback g 0 0 perdozen 12
  else g.

Fixpoint is_prefix (p l : list byte) : bool :=
  match p, l with
  | [], _ => true
  | a :: p', b :: l' => Byte.eqb a b && is_prefix p' l'
  | _ :: _, [] => false
  end.

(** memmem (l, p) != NULL *)
Fixpoint memmem (l p : list byte) : bool :=
  is_prefix p l || match l with [] => false | _ :: l' => memmem l' p end.

Definition guestfs___log_message_callback (g : guestfs_h) (buf : list byte) : guestfs_h :=
  let g := guestfs___call_callbacks_message g GUESTFS_EVENT_APPLIANCE buf in
  if decide (g_state g = LAUNCHING) then
    let g := if memmem buf (bytes_of_string "Linux version")
             then guestfs___launch_send_progress g 6 else g in
    if memmem buf (bytes_of_string "Starting /init script")
    then guestfs___launch_send_progress g 9 else g
  else g.

(** * The interface *)

Class ConnOps (C : Type) := {
  (** The return value, and the bytes stored in the buffer when it is [n]. *)
  read_data : nat -> M (guestfs_h * C) (Z * list byte);
  write_data : list byte -> M (guestfs_h * C) Z;
  can_read_data : M (guestfs_h * C) Z;
  (** A bound on the bytes that can still be read: the fuel of the loops of
      the protocol code, which all read from the connection. *)
  conn_budget : C -> nat
}.

(** Log messages and errors that a connection may deliver leave the rest of
    the handle alone. *)
Record quiet (g g' : guestfs_h) : Prop := {
  quiet_state : g_state g' = g_state g;
  quiet_cfg : g_cfg g' = g_cfg g;
  quiet_events : g_events g' = g_events g;
  quiet_drives : g_drives g' = g_drives g;
  quiet_user_cancel : g_user_cancel g' = g_user_cancel g;
  quiet_serial : g_msg_next_serial g' = g_msg_next_serial g;
  quiet_ops : g_backend_ops g' = g_backend_ops g
}.

#[export] Instance quiet_preorder : PreOrder quiet.
Proof.
  split; [intros g; by split|].
  intros g1 g2 g3 [] []. split; congruence.
Qed.

(** What a connection promises: it is a reliable byte stream in each
    direction.  [conn_inbox] is the data the daemon has sent and will send
    before the connection fails or ends, [conn_outbox] what was handed over to
    the daemon.  On a healthy connection the operations complete; on any
    connection a whole buffer that was read is the next data, and what was
    written is a prefix of the buffer. *)
Class ConnLaws (C : Type) `{ConnOps C} := {
  conn_inbox : C -> list byte;
  conn_outbox : C -> list byte;
  conn_healthy : C -> Prop;
  read_data_ok g c n :
    conn_healthy c -> (0 < n <= length (conn_inbox c))%nat ->
    exists g' c', read_data n (g, c) = (Ret (Z.of_nat n, take n (conn_inbox c)), (g', c')) /\
      conn_inbox c' = drop n (conn_inbox c) /\ conn_outbox c' = conn_outbox c /\
      conn_healthy c' /\ quiet g g';
  write_data_ok g c bs :
    conn_healthy c -> bs <> [] ->
    exists g' c', write_data bs (g, c) = (Ret (zlength bs), (g', c')) /\
      conn_outbox c' = conn_outbox c ++ bs /\ conn_inbox c' = conn_inbox c /\
      conn_healthy c' /\ quiet g g';
  can_read_data_ok g c :
    conn_healthy c ->
    exists r c', can_read_data (g, c) = (Ret r, (g, c')) /\
      (r = 0 \/ r = 1 /\ conn_inbox c <> []) /\
      conn_inbox c' = conn_inbox c /\ conn_outbox c' = conn_outbox c /\ conn_healthy c';
  read_data_sound g c n r bs g' c' :
    read_data n (g, c) = (Ret (r, bs), (g', c')) ->
    (r = Z.of_nat n /\ length bs = n /\ conn_inbox c = bs ++ conn_inbox c' \/ r = 0 \/ r = -1) /\
    conn_outbox c' = conn_outbox c /\ quiet g g';
  write_data_sound g c bs r g' c' :
    write_data bs (g, c) = (Ret r, (g', c')) ->
    (r = zlength bs /\ conn_outbox c' = conn_outbox c ++ bs \/
     (r = 0 \/ r = -1) /\ exists k, conn_outbox c' = conn_outbox c ++ take k bs) /\
    quiet g g';
  read_data_budget g c n bs g' c' :
    read_data n (g, c) = (Ret (Z.of_nat n, bs), (g', c')) -> (0 < n)%nat ->
    (conn_budget c' + n <= conn_budget c)%nat;
  can_read_data_sound g c r g' c' :
    can_read_data (g, c) = (Ret r, (g', c')) ->
    (conn_budget c' <= conn_budget c)%nat /\ conn_inbox c' = conn_inbox c /\
    conn_outbox c' = conn_outbox c /\ quiet g g';
  conn_budget_inbox c : (length (conn_inbox c) <= conn_budget c)%nat;
  (** A connection's own loops end: an operation returns or blocks. *)
  read_data_ends g c n w : fst (read_data n (g, c)) = Stop w -> w = Blocked;
  write_data_ends g c bs w : fst (write_data bs (g, c)) = Stop w -> w = Blocked;
  can_read_data_ends g c w : fst (can_read_data (g, c)) = Stop w -> w = Blocked
}.

(** * src/conn-socket.c *)

Definition EINTR : Z := 4.
Definition EAGAIN : Z := 11.
Definition EPIPE : Z := 32.
Definition ECONNRESET : Z := 104.
Definition BUFSIZ : nat := 8 * 1024.
Definition APPLIANCE_TIMEOUT : Z := 20 * 60.

(** The result of a read: data ([RdData []] is end of file) or an errno. *)
Inductive read_ev := RdData (bs : list byte) | RdErr (errnum : Z).
(** The result of a write: how many bytes the kernel accepts, or an errno. *)
Inductive write_ev := WrOk (n : nat) | WrErr (errnum : Z).
(** The result of a poll of the daemon socket and the console. *)
Inductive poll_ev := PollErr (errnum : Z) | PollReady (daemon console : bool).
(** The result of the accept4 in [accept_connection]. *)
Inductive accept_ev := AcceptOk (fd : Z) | AcceptErr (errnum : Z).

Record kernel := mk_kernel {
  k_poll_in : list poll_ev;     (* polls of read_data *)
  k_daemon : list read_ev;      (* reads of the daemon socket *)
  k_console : list read_ev;     (* reads of the console *)
  k_poll_out : list poll_ev;    (* polls of write_data *)
  k_write : list write_ev;      (* writes to the daemon socket *)
  k_poll_can : list poll_ev;    (* polls of can_read_data *)
  k_sent : list byte            (* what the daemon socket has accepted *)
}.
#[export] Instance upd_k_poll_in : Field k_poll_in := fun f r =>
  mk_kernel (f (k_poll_in r)) (k_daemon r) (k_console r) (k_poll_out r) (k_write r)
    (k_poll_can r) (k_sent r).
#[export] Instance upd_k_daemon : Field k_daemon := fun f r =>
  mk_kernel (k_poll_in r) (f (k_daemon r)) (k_console r) (k_poll_out r) (k_write r)
    (k_poll_can r) (k_sent r).
#[export] Instance upd_k_console : Field k_console := fun f r =>
  mk_kernel (k_poll_in r) (k_daemon r) (f (k_console r)) (k_poll_out r) (k_write r)
    (k_poll_can r) (k_sent r).
#[export] Instance upd_k_poll_out : Field k_poll_out := fun f r =>
  mk_kernel (k_poll_in r) (k_daemon r) (k_console r) (f (k_poll_out r)) (k_write r)
    (k_poll_can r) (k_sent r).
#[export] Instance upd_k_write : Field k_write := fun f r =>
  mk_kernel (k_poll_in r) (k_daemon r) (k_console r) (k_poll_out r) (f (k_write r))
    (k_poll_can r) (k_sent r).
#[export] Instance upd_k_poll_can : Field k_poll_can := fun f r =>
  mk_kernel (k_poll_in r) (k_daemon r) (k_console r) (k_poll_out r) (k_write r)
    (f (k_poll_can r)) (k_sent r).
#[export] Instance upd_k_sent : Field k_sent := fun f r =>
  mk_kernel (k_poll_in r) (k_daemon r) (k_console r) (k_poll_out r) (k_write r)
    (k_poll_can r) (f (k_sent r)).

Record connection_socket := mk_conn {
  console_sock : Z;
  daemon_sock : Z;
  daemon_accept_sock : Z;
  conn_kernel : kernel
}.
#[export] Instance upd_conn_kernel : Field conn_kernel := fun f r =>
  mk_conn (console_sock r) (daemon_sock r) (daemon_accept_sock r) (f (conn_kernel r)).

Definition retry (errnum : Z) : bool := (errnum =? EINTR) || (errnum =? EAGAIN).

(** read (2) on a non-blocking socket for at most [n] bytes; end of file persists. *)
Definition sys_read (n : nat) (q : list read_ev) : read_ev * list read_ev :=
  match q with
  | [] => (RdErr EAGAIN, [])
  | RdData [] :: _ => (RdData [], q)
  | RdData bs :: q' =>
      if (length bs <=? n)%nat then (RdData bs, q')
      else (RdData (take n bs), RdData (drop n bs) :: q')
  | RdErr e :: q' => (RdErr e, q')
  end.

(** write (2): how many of [len] bytes are accepted. *)
Definition sys_write (len : nat) (q : list write_ev) : write_ev * list write_ev :=
  match q with
  | [] => (WrOk len, [])
  | WrOk n :: q' => (WrOk (Nat.min n len), q')
  | WrErr e :: q' => (WrErr e, q')
  end.

Definition sock := M (guestfs_h * connection_socket).

(** 1: handled, 0: connection closed, -1: error. *)
Definition handle_log_message : sock Z := fun '(g, c) =>
  let '(r, q) := sys_read BUFSIZ (k_console (conn_kernel c)) in
  let c := c <| conn_kernel; k_console := q |> in
  match r with
  | RdData [] => (Ret 0, (g, c))
  | RdErr e =>
      if retry e then (Ret 1, (g, c))
      else (Ret (-1), (guestfs___perrorf g e
                         "error reading console messages from the appliance", c))
  | RdData buf => (Ret 1, (guestfs___log_message_callback g buf, c))
  end.

(** How many reads a script can serve: each one shortens it. *)
Fixpoint script_size (q : list read_ev) : nat :=
  match q with
  | [] => 0
  | RdData bs :: q' => S (length bs + script_size q')
  | RdErr _ :: q' => S (script_size q')
  end.

(** [while (handle_log_message (g, conn) == 1) ;] after the daemon socket was
    closed.  An open console with nothing to read keeps the loop spinning. *)
Fixpoint drain_console (fuel : nat) : sock unit := fun '(g, c) =>
  match fuel, k_console (conn_kernel c) with
  | _, [] => (Stop Blocked, (g, c))
  | O, _ => (Stop OutOfFuel, (g, c))
  | S fuel', _ =>
      (r <- handle_log_message ;;
       if r =? 1 then drain_console fuel' else ret tt) (g, c)
  end.

(** The label [closed] of [read_data]. *)
Definition read_closed : sock Z := fun '(g, c) =>
  if verbose (g_cfg g) && (0 <=? console_sock c)
  then (drain_console (script_size (k_console (conn_kernel c))) ;;; ret 0) (g, c)
  else (Ret 0, (g, c)).

(** poll (2) in [read_data]. *)
Definition poll_in (k : kernel) : option (poll_ev * kernel) :=
  match k_poll_in k with
  | p :: ps => Some (p, k <| k_poll_in := ps |>)
  | [] => match k_daemon k with [] => None | _ => Some (PollReady true false, k) end
  end.

(** How one turn of the loops ends: [continue], some data moved, or return. *)
Inductive turn (A : Type) := Again | Moved (a : A) | Return (r : Z).
Arguments Again {A}.
Arguments Moved {A} a.
Arguments Return {A} r.

(** The body of the [while (len > 0)] loop of [read_data]. *)
Definition read_turn (len : nat) : sock (turn (list byte)) := fun '(g, c) =>
  match poll_in (conn_kernel c) with
  | None => (Stop Blocked, (g, c))
  | Some (PollErr e, k) =>
      let c := c <| conn_kernel := k |> in
      if retry e then (Ret Again, (g, c))
      else (Ret (Return (-1)), (guestfs___perrorf g e "read_data: poll", c))
  | Some (PollReady pd pc, k) =>
      (r <- (if (0 <=? console_sock c) && pc then handle_log_message else ret 1) ;;
       if r <=? 0 then ret (Return r)
       else if pd then fun '(g, c) =>
         let '(e, q) := sys_read len (k_daemon (conn_kernel c)) in
         let c := c <| conn_kernel; k_daemon := q |> in
         match e with
         | RdErr e =>
             if retry e then (Ret Again, (g, c))
             else if e =? ECONNRESET then (r <- read_closed ;; ret (Return r)) (g, c)
             else (Ret (Return (-1)), (guestfs___perrorf g e "read_data: read", c))
         | RdData [] => (r <- read_closed ;; ret (Return r)) (g, c)
         | RdData bs => (Ret (Moved bs), (g, c))
         end
       else ret Again) (g, c <| conn_kernel := k |>)
  end.

(** The loop; [buf] is what has been read. *)
Fixpoint read_loop (fuel : nat) (len : nat) (buf : list byte) : sock (Z * list byte) :=
  if (len =? 0)%nat then ret (zlength buf, buf) else
  match fuel with
  | O => halt OutOfFuel
  | S fuel' =>
      t <- read_turn len ;;
      match t with
      | Again => read_loop fuel' len buf
      | Moved bs => read_loop fuel' (len - length bs)%nat (buf ++ bs)
      | Return r => ret (r, [])
      end
  end.

Definition read_fuel (k : kernel) : nat :=
  S (length (k_poll_in k) + script_size (k_daemon k)).

Definition socket_read_data (len : nat) : sock (Z * list byte) := fun '(g, c) =>
  if daemon_sock c =? -1
  then (Ret (-1, []), (error g "read_data: socket not connected", c))
  else read_loop (read_fuel (conn_kernel c)) len [] (g, c).

(** [can_read_data]: a poll with timeout 0.  POLLIN means that an event is
    there to be read. *)
Fixpoint can_read_loop (ps : list poll_ev) (g : guestfs_h) (c : connection_socket) :
    outcome Z * (guestfs_h * connection_socket) :=
  let any := match k_daemon (conn_kernel c) with [] => false | _ => true end in
  match ps with
  | [] => (Ret (bool_int any), (g, c <| conn_kernel; k_poll_can := [] |>))
  | PollErr e :: ps' =>
      if retry e then can_read_loop ps' g c
      else (Ret (-1), (guestfs___perrorf g e "can_read_data: poll",
                       c <| conn_kernel; k_poll_can := ps' |>))
  | PollReady d _ :: ps' =>
      (Ret (bool_int (d && any)), (g, c <| conn_kernel; k_poll_can := ps' |>))
  end.

Definition socket_can_read_data : sock Z := fun '(g, c) =>
  if daemon_sock c =? -1
  then (Ret (-1), (error g "can_read_data: socket not connected", c))
  else can_read_loop (k_poll_can (conn_kernel c)) g c.

(** poll (2) in [write_data]. *)
Definition poll_out (k : kernel) : poll_ev * kernel :=
  match k_poll_out k with
  | p :: ps => (p, k <| k_poll_out := ps |>)
  | [] => (PollReady true false, k)
  end.

(** The body of the [while (len > 0)] loop of [write_data]. *)
Definition write_turn (buf : list byte) : sock (turn nat) := fun '(g, c) =>
  match poll_out (conn_kernel c) with
  | (PollErr e, k) =>
      let c := c <| conn_kernel := k |> in
      if retry e then (Ret Again, (g, c))
      else (Ret (Return (-1)), (guestfs___perrorf g e "write_data: poll", c))
  | (PollReady pd pc, k) =>
      (r <- (if (0 <=? console_sock c) && pc then handle_log_message else ret 1) ;;
       if r <=? 0 then ret (Return r)
       else if pd then fun '(g, c) =>
         let '(e, q) := sys_write (length buf) (k_write (conn_kernel c)) in
         let c := c <| conn_kernel; k_write := q |> in
         match e with
         | WrErr e =>
             if retry e then (Ret Again, (g, c))
             else if e =? EPIPE then (Ret (Return 0), (g, c))
             else (Ret (Return (-1)), (guestfs___perrorf g e "write_data: write", c))
         | WrOk n => (Ret (Moved n), (g, c <| conn_kernel; k_sent ::= fun s => s ++ take n buf |>))
         end
       else ret Again) (g, c <| conn_kernel := k |>)
  end.

(** The loop. *)
Fixpoint write_loop (fuel : nat) (buf : list byte) (original_len : Z) : sock Z :=
  match buf, fuel with
  | [], _ => ret original_len
  | _, O => halt OutOfFuel
  | _, S fuel' =>
      t <- write_turn buf ;;
      match t with
      | Again => write_loop fuel' buf original_len
      | Moved n => write_loop fuel' (drop n buf) original_len
      | Return r => ret r
      end
  end.

Definition write_fuel (k : kernel) : nat := S (length (k_poll_out k) + length (k_write k)).

Definition socket_write_data (buf : list byte) : sock Z := fun '(g, c) =>
  if daemon_sock c =? -1
  then (Ret (-1), (error g "write_data: socket not connected", c))
  else write_loop (write_fuel (conn_kernel c)) buf (zlength buf) (g, c).

(** The data in a script. *)
Fixpoint script_bytes (q : list read_ev) : nat :=
  match q with
  | [] => 0
  | RdData bs :: q' => length bs + script_bytes q'
  | RdErr _ :: q' => script_bytes q'
  end.

Definition socket_budget (c : connection_socket) : nat := script_bytes (k_daemon (conn_kernel c)).

#[export] Instance socket_ops : ConnOps connection_socket := {|
  read_data := socket_read_data;
  write_data := socket_write_data;
  can_read_data := socket_can_read_data;
  conn_budget := socket_budget
|}.

(** ** Accepting the connection *)

(** One turn of the loop of [accept_connection]: the clock, what poll returns
    (an error, timeout, or which descriptors are readable) and, when the
    listening socket is readable, the result of accept4. *)
Inductive accept_poll :=
  | ApErr (errnum : Z)
  | ApTimeout
  | ApReady (console : bool) (accept : option accept_ev).

(** poll (2) with a negative timeout never times out. *)
Fixpoint accept_loop (start_t : Z) (script : list (Z * accept_poll)) : sock (Z + Z) :=
  fun '(g, c) =>
  match script with
  | [] => (Stop Blocked, (g, c))
  | (now_t, p) :: script' =>
      let timeout_ms := 1000 * (APPLIANCE_TIMEOUT - (now_t - start_t)) in
      match p with
      | ApErr e =>
          if retry e then accept_loop start_t script' (g, c)
          else (Ret (inl (-1)), (guestfs___perrorf g e "accept_connection: poll", c))
      | ApTimeout =>
          if timeout_ms <? 0 then (Stop Blocked, (g, c))
          else (Ret (inl (-1)), (guestfs___launch_timeout g, c))
      | ApReady pc acc =>
          (r <- (if (0 <=? console_sock c) && pc then handle_log_message else ret 1) ;;
           if r <=? 0 then ret (inl r)
           else match acc with
                | None => accept_loop start_t script'
                | Some (AcceptOk fd) => ret (inr fd)
                | Some (AcceptErr e) => fun '(g, c) =>
                    if retry e then accept_loop start_t script' (g, c)
                    else (Ret (inl (-1)),
                          (guestfs___perrorf g e "accept_connection: accept", c))
                end) (g, c)
      end
  end.

(** 1: accepted, 0: appliance closed the connection, -1: error.  [fcntl_errno]
    is the result of making the new socket non-blocking. *)
Definition accept_connection (start_t : Z) (script : list (Z * accept_poll))
    (fcntl_errno : option Z) : sock Z := fun '(g, c) =>
  if daemon_accept_sock c =? -1
  then (Ret (-1), (error g "accept_connection called twice", c))
  else
    (r <- accept_loop start_t script ;;
     match r with
     | inl r => ret r
     | inr fd => fun '(g, c) =>
         let c := mk_conn (console_sock c) fd (-1) (conn_kernel c) in
         match fcntl_errno with
         | Some e => (Ret (-1), (guestfs___perrorf g e "accept_connection: fcntl", c))
         | None => (Ret 1, (g, c))
         end
     end) (g, c).

(** The descriptors that [free_conn_socket] closes. *)
Definition free_conn_socket (c : connection_socket) : list Z :=
  filter (fun fd => 0 <= fd) [console_sock c; daemon_sock c; daemon_accept_sock c].

(** Creation: [fcntl] holds the results of the F_SETFL calls. *)
Definition new_conn (g : guestfs_h) (name : string) (console : Z) (fcntl : option Z * option Z)
    (c : connection_socket) : option connection_socket * guestfs_h :=
  match fcntl with
  | (Some e, _) => (None, guestfs___perrorf g e (name +:+ ": fcntl"))
  | (None, Some e) =>
      if 0 <=? console then (None, guestfs___perrorf g e (name +:+ ": fcntl")) else (Some c, g)
  | (None, None) => (Some c, g)
  end.

Definition guestfs___new_conn_socket_listening (g : guestfs_h) (accept_sock console : Z)
    (fcntl : option Z * option Z) (k : kernel) : option connection_socket * guestfs_h :=
  new_conn g "new_conn_socket_listening" console fcntl (mk_conn console (-1) accept_sock k).

Definition guestfs___new_conn_socket_connected (g : guestfs_h) (daemon console : Z)
    (fcntl : option Z * option Z) (k : kernel) : option connection_socket * guestfs_h :=
  new_conn g "new_conn_socket_connected" console fcntl (mk_conn console daemon (-1) k).

(** * Messages leave the handle's state alone *)

Lemma quiet_add_out os g : quiet g (add_out os g).
Proof. by split. Qed.

Lemma quiet_call_error_cb g m : quiet g (call_error_cb g m).
Proof.
  unfold call_error_cb, default_error_cb, emit.
  destruct (error_cb (g_errs g)) as [[]|]; [apply quiet_add_out..|reflexivity].
Qed.

Lemma quiet_error_errno g e m : quiet g (guestfs___error_errno g e m).
Proof. unfold guestfs___error_errno. etransitivity; [|apply quiet_call_error_cb]. by split. Qed.

Lemma quiet_error g m : quiet g (error g m).
Proof. apply quiet_error_errno. Qed.

Lemma quiet_perrorf g e m : quiet g (guestfs___perrorf g e m).
Proof. unfold guestfs___perrorf. etransitivity; [|apply quiet_call_error_cb]. by split. Qed.

Lemma quiet_emit_all ws g : quiet g (emit_all ws g).
Proof.
  unfold emit_all. revert g. induction ws as [|w ws IH]; intros g; [reflexivity|].
  cbn. etransitivity; [|apply IH]. apply quiet_add_out.
Qed.

Lemma quiet_call_callbacks_message g ev buf :
  quiet g (guestfs___call_callbacks_message g ev buf).
Proof.
  unfold guestfs___call_callbacks_message. rewrite call_callbacks_from_spec.
  set (g1 := add_out _ g). assert (quiet g g1) as H1 by apply quiet_add_out.
  destruct (0 <? _)%nat; [done|]. destruct (_ && _); [|done].
  assert (forall b s h, quiet h (if b : bool then emit (OutStderr s) h else h)) as Hp.
  { intros [] s h; [apply quiet_add_out|reflexivity]. }
  etransitivity; [|apply Hp]. etransitivity; [|apply quiet_emit_all].
  etransitivity; [|apply Hp]. etransitivity; [|apply Hp]. by etransitivity; [|apply Hp].
Qed.

Lemma quiet_progress_message_callback g a b c d :
  quiet g (guestfs___progress_message_callback g a b c d).
Proof.
  unfold guestfs___progress_message_callback, guestfs___call_callbacks_array.
  rewrite call_callbacks_from_dispatched. apply quiet_add_out.
Qed.

Lemma quiet_launch_send_progress g n : quiet g (guestfs___launch_send_progress g n).
Proof.
  unfold guestfs___launch_send_progress, gettimeofday.
  assert (forall h t, quiet h (if 5000 <=? guestfs___timeval_diff (g_launch_t h) t
            then guestfs___progress_message_callback h 0 0 n 12 else h)) as Hp.
  { intros h t. case_if; [apply quiet_progress_message_callback|reflexivity]. }
  destruct (env_clock (g_env g)) as [|t [|t' ts]]; [apply Hp|apply Hp|].
  etransitivity; [|apply Hp]. by split.
Qed.

Lemma quiet_log_message_callback g buf : quiet g (guestfs___log_message_callback g buf).
Proof.
  unfold guestfs___log_message_callback.
  set (g1 := guestfs___call_callbacks_message g _ buf).
  assert (quiet g g1) as H1 by apply quiet_call_callbacks_message.
  assert (forall (b : bool) n h, quiet h (if b then guestfs___launch_send_progress h n else h)) as Hp.
  { intros [] n h; [apply quiet_launch_send_progress|reflexivity]. }
  destruct (decide _); [|done]. etransitivity; [|apply Hp]. by etransitivity; [|apply Hp].
Qed.

#[export] Hint Resolve quiet_add_out quiet_error quiet_error_errno quiet_perrorf
  quiet_call_callbacks_message quiet_progress_message_callback quiet_log_message_callback : guestfs.
#[export] Hint Extern 1 (quiet ?g ?g) => reflexivity : guestfs.

(** * The socket connection is a reliable byte stream *)

Fixpoint script_data (q : list read_ev) : list byte :=
  match q with
  | [] | RdData [] :: _ => []
  | RdData bs :: q' => bs ++ script_data q'
  | RdErr e :: q' => if retry e then script_data q' else []
  end.

Definition good_read (e : read_ev) : Prop :=
  match e with RdData bs => bs <> [] | RdErr e => retry e = true end.
Definition good_write (e : write_ev) : Prop :=
  match e with WrOk n => (0 < n)%nat | WrErr e => retry e = true end.
Definition good_poll (p : poll_ev) : Prop :=
  match p with PollErr e => retry e = true | PollReady _ _ => True end.

Definition ends_in_data (q : list read_ev) : Prop :=
  match last q with Some (RdErr _) => False | _ => True end.

(** No error other than EINTR and EAGAIN, and no end of file, is in the
    script of any of the descriptors; the daemon's script ends with data. *)
Record kernel_healthy (k : kernel) : Prop := {
  kh_poll_in : Forall good_poll (k_poll_in k);
  kh_daemon : Forall good_read (k_daemon k);
  kh_tail : ends_in_data (k_daemon k);
  kh_console : Forall good_read (k_console k);
  kh_poll_out : Forall good_poll (k_poll_out k);
  kh_write : Forall good_write (k_write k);
  kh_poll_can : Forall good_poll (k_poll_can k)
}.

Definition socket_healthy (c : connection_socket) : Prop :=
  daemon_sock c <> -1 /\ kernel_healthy (conn_kernel c).

Lemma script_data_cons bs q : bs <> [] -> script_data (RdData bs :: q) = bs ++ script_data q.
Proof. by destruct bs. Qed.

Lemma sys_read_spec n q e q' : (0 < n)%nat -> sys_read n q = (e, q') ->
  match e with
  | RdData bs => script_data q = bs ++ script_data q' /\ (length bs <= n)%nat /\
                 (bs <> [] -> (script_size q' < script_size q)%nat)
  | RdErr e => retry e = true -> script_data q' = script_data q /\
                 (q <> [] -> (script_size q' < script_size q)%nat)
  end.
Proof.
  intros Hn. destruct q as [|[[|b bs]|e0] q0]; cbn [sys_read]; intros H; simplify_eq; cbn.
  - done.
  - split_and!; [done|lia|done].
  - destruct (Nat.leb_spec (length (b :: bs)) n) as [Hl|Hl]; simplify_eq.
    + split_and!; [done|done|]. cbn. lia.
    + destruct n as [|n]; [lia|]. cbn in Hl.
      assert (drop n bs <> []) as Hd.
      { intros E. apply (f_equal length) in E. rewrite length_drop in E. cbn in E. lia. }
      cbn [drop take]. split_and!.
      * rewrite script_data_cons by done. cbn. by rewrite app_assoc, take_drop.
      * cbn. rewrite length_take. lia.
      * cbn. rewrite length_drop. lia.
  - intros ->. split; [done|lia].
Qed.

Lemma sys_read_bytes n q e q' : sys_read n q = (e, q') ->
  (script_bytes q' + match e with RdData bs => length bs | RdErr _ => 0 end)%nat = script_bytes q.
Proof.
  destruct q as [|[[|b bs]|e0] q0]; cbn [sys_read]; intros H; simplify_eq;
    cbn [script_bytes length]; try lia.
  destruct (Nat.leb_spec (length (b :: bs)) n) as [Hl|Hl]; simplify_eq;
    cbn [script_bytes]; rewrite ?length_take, ?length_drop; cbn [length] in *; lia.
Qed.

Lemma sys_read_fatal n q e q' :
  (0 < n)%nat -> sys_read n q = (e, q') -> ~ good_read e -> script_data q = [].
Proof.
  intros Hn. destruct q as [|[[|b bs]|e0] q0]; cbn [sys_read]; intros H Hg; simplify_eq; [done|done|..].
  - destruct (Nat.leb_spec (length (b :: bs)) n); simplify_eq; destruct Hg; [done|].
    by destruct n; [lia|].
  - cbn in *. by destruct (retry e0).
Qed.

Lemma sys_read_good n q e q' :
  Forall good_read q -> (0 < n)%nat -> sys_read n q = (e, q') ->
  good_read e /\ Forall good_read q'.
Proof.
  intros Hq Hn. destruct q as [|[[|b bs]|e0] q0]; cbn [sys_read]; intros H.
  - simplify_eq. split; [done|constructor].
  - inversion Hq; done.
  - inversion Hq; subst. destruct (Nat.leb_spec (length (b :: bs)) n) as [Hl|Hl]; simplify_eq;
      [by split|]. destruct n; [lia|]. split; [done|]. constructor; [|done].
    intros E. apply (f_equal length) in E. rewrite length_drop in E. cbn in *. lia.
  - inversion Hq; by simplify_eq.
Qed.

(** What an operation on the kernel may change while the daemon's stream
    stays where it is. *)
Record same_stream (k k' : kernel) : Prop := {
  ss_daemon : k_daemon k' = k_daemon k;
  ss_sent : k_sent k' = k_sent k;
  ss_poll_in : k_poll_in k' = k_poll_in k;
  ss_poll_out : k_poll_out k' = k_poll_out k;
  ss_write : k_write k' = k_write k;
  ss_healthy : kernel_healthy k -> kernel_healthy k'
}.

(** [handle_log_message] touches only the console script and sends messages up. *)
Lemma handle_log_message_spec g c :
  exists r g' k', handle_log_message (g, c) = (Ret r, (g', c <| conn_kernel := k' |>)) /\
    (r = 1 \/ r = 0 \/ r = -1) /\ quiet g g' /\ same_stream (conn_kernel c) k' /\
    (kernel_healthy (conn_kernel c) -> r = 1).
Proof.
  unfold handle_log_message.
  destruct (sys_read BUFSIZ (k_console (conn_kernel c))) as [e q] eqn:E.
  assert (kernel_healthy (conn_kernel c) -> good_read e /\ Forall good_read q) as Hg.
  { intros H. eapply sys_read_good; [apply (kh_console _ H)| |exact E]. unfold BUFSIZ. lia. }
  assert (same_stream (conn_kernel c) ((conn_kernel c) <| k_console := q |>)) as Hs.
  { split; try done. intros H. destruct (Hg H), H. by split. }
  destruct e as [[|b bs]|e]; [| |destruct (retry e) eqn:Er].
  - exists 0, g, ((conn_kernel c) <| k_console := q |>). split_and!; [done|auto|reflexivity|done|]. intros H. by destruct (Hg H).
  - eexists 1, _, ((conn_kernel c) <| k_console := q |>).
    split_and!; [done|auto|auto with guestfs|done|done].
  - exists 1, g, ((conn_kernel c) <| k_console := q |>).
    by split_and!; [done|auto|reflexivity|..].
  - eexists (-1), _, ((conn_kernel c) <| k_console := q |>).
    split_and!; [done|auto|auto with guestfs|done|].
    intros H. destruct (Hg H) as [Hf _]. cbn in Hf. congruence.
Qed.

(** The optional log message of one turn of the loops. *)
Lemma log_turn_spec (b : bool) g c :
  exists r g' k', (if b then handle_log_message else ret 1) (g, c) =
      (Ret r, (g', c <| conn_kernel := k' |>)) /\
    (r = 1 \/ r = 0 \/ r = -1) /\ quiet g g' /\ same_stream (conn_kernel c) k' /\
    (kernel_healthy (conn_kernel c) -> r = 1).
Proof.
  destruct b; [apply handle_log_message_spec|].
  exists 1, g, (conn_kernel c). split_and!; [|auto|reflexivity|by split|done].
  by destruct c.
Qed.

Ltac log_turn b g c :=
  let r := fresh "r" in let g1 := fresh "g1" in let k := fresh "k1" in
  let E := fresh "Elog" in let Hr := fresh "Hr" in let Hq := fresh "Hq" in
  let Hs := fresh "Hss" in let Hgood := fresh "Hgood" in
  destruct (log_turn_spec b g c) as (r & g1 & k & E & Hr & Hq & Hs & Hgood);
  rewrite (bind_Ret _ _ _ _ _ E); clear E; cbn beta.

Lemma ends_in_data_tail e q : ends_in_data (e :: q) -> ends_in_data q.
Proof. unfold ends_in_data. destruct q; [done|]. by rewrite last_cons_cons. Qed.

Lemma sys_read_tail n q e q' :
  (0 < n)%nat -> ends_in_data q -> sys_read n q = (e, q') -> ends_in_data q'.
Proof.
  intros Hn Hq. destruct q as [|[[|b bs]|e0] q0]; cbn [sys_read]; intros H; simplify_eq;
    eauto using ends_in_data_tail.
  destruct (Nat.leb_spec (length (b :: bs)) n); simplify_eq; [by eapply ends_in_data_tail|].
  unfold ends_in_data in *. destruct q0; [done|]. by rewrite last_cons_cons in *.
Qed.

Lemma ends_in_data_nonempty q :
  Forall good_read q -> ends_in_data q -> q <> [] -> script_data q <> [].
Proof.
  induction 1 as [|[bs|e] q Hg _ IH]; intros Ht Hne; [done|..]; cbn in Hg.
  - rewrite script_data_cons by done. by destruct bs.
  - cbn. rewrite Hg. destruct q; [done|]. apply IH; [by eapply ends_in_data_tail|done].
Qed.

Definition socket_inbox (c : connection_socket) : list byte :=
  script_data (k_daemon (conn_kernel c)).
Definition socket_outbox (c : connection_socket) : list byte := k_sent (conn_kernel c).

(** A read by a healthy kernel. *)
Lemma sys_read_healthy n k e q :
  kernel_healthy k -> (0 < n)%nat -> sys_read n (k_daemon k) = (e, q) ->
  good_read e /\ kernel_healthy (k <| k_daemon := q |>).
Proof.
  intros H Hn E. destruct (sys_read_good n _ _ _ (kh_daemon _ H) Hn E).
  pose proof (sys_read_tail _ _ _ _ Hn (kh_tail _ H) E). destruct H. split; [done|by split].
Qed.

(** poll_in shortens the script, or finds a readable daemon socket. *)
Lemma poll_in_spec k p k' : poll_in k = Some (p, k') ->
  k_daemon k' = k_daemon k /\ k_sent k' = k_sent k /\
  ((length (k_poll_in k') < length (k_poll_in k))%nat \/
   k' = k /\ k_daemon k <> [] /\ p = PollReady true false) /\
  (kernel_healthy k -> good_poll p /\ kernel_healthy k').
Proof.
  unfold poll_in. destruct (k_poll_in k) as [|p0 ps] eqn:E.
  - destruct (k_daemon k) eqn:Ed; intros; simplify_eq. split_and!; try done. by right.
  - intros; simplify_eq. split_and!; try done; [left; cbn; lia|].
    intros []. rewrite E in *. inversion kh_poll_in0. by repeat split.
Qed.

(** ** Reading *)

Lemma drain_console_spec : forall fuel g c,
  (script_size (k_console (conn_kernel c)) <= fuel)%nat ->
  match drain_console fuel (g, c) with
  | (Ret _, (g', c')) => socket_outbox c' = socket_outbox c /\ quiet g g'
  | (Stop w, _) => w = Blocked
  end.
Proof.
  induction fuel as [|fuel IH]; intros g c Hf; cbn [drain_console];
    destruct (k_console (conn_kernel c)) as [|e q] eqn:Ek; [done|destruct e; cbn in Hf; lia|done|].
  unfold bind, handle_log_message. rewrite Ek.
  destruct (sys_read BUFSIZ (e :: q)) as [e' q'] eqn:E.
  pose proof (sys_read_spec BUFSIZ _ _ _ ltac:(unfold BUFSIZ; lia) E) as Hs.
  set (c1 := c <| conn_kernel; k_console := q' |>).
  assert (forall g1, quiet g g1 -> (script_size q' < script_size (e :: q))%nat ->
    match drain_console fuel (g1, c1) with
    | (Ret _, (g', c')) => socket_outbox c' = socket_outbox c /\ quiet g g'
    | (Stop w, _) => w = Blocked end) as Hrec.
  { intros g1 Hq Hlt. specialize (IH g1 c1 ltac:(change (k_console (conn_kernel c1)) with q'; lia)).
    destruct (drain_console fuel (g1, c1)) as [[u|w] [g2 c2]]; [|done].
    destruct IH as [H1 H2]. split; [done|by etransitivity]. }
  destruct e' as [[|b bs]|e']; [by split|..].
  - apply Hrec; [auto with guestfs|]. by apply Hs.
  - destruct (retry e') eqn:Er; [|by split; auto with guestfs].
    apply Hrec; [reflexivity|]. by apply Hs.
Qed.

Lemma read_closed_spec g c :
  match read_closed (g, c) with
  | (Ret r, (g', c')) => r = 0 /\ socket_outbox c' = socket_outbox c /\ quiet g g'
  | (Stop w, _) => w = Blocked
  end.
Proof.
  unfold read_closed. destruct (_ && _); [|split_and!; auto with guestfs].
  pose proof (drain_console_spec _ g c (le_n _)) as H. unfold bind.
  destruct (drain_console _ (g, c)) as [[u|w] [g' c']]; [|done].
  destruct H. cbn. split_and!; auto.
Qed.

Definition read_measure (c : connection_socket) : nat :=
  length (k_poll_in (conn_kernel c)) + script_size (k_daemon (conn_kernel c)).

(** What one turn of the reading loop does, on any connection. *)
Record read_turn_ok (len : nat) (g g' : guestfs_h) (c c' : connection_socket)
    (t : turn (list byte)) : Prop := {
  rt_quiet : quiet g g';
  rt_outbox : socket_outbox c' = socket_outbox c;
  rt_moved : match t with
             | Again => socket_inbox c' = socket_inbox c
             | Moved bs => socket_inbox c = bs ++ socket_inbox c' /\
                           (length bs <= len)%nat
             | Return r => r = 0 \/ r = -1
             end;
  rt_budget : match t with
              | Again => (socket_budget c' <= socket_budget c)%nat
              | Moved bs => (socket_budget c' + length bs <= socket_budget c)%nat
              | Return r => True
              end;
  rt_measure : match t with Return _ => True | _ => (read_measure c' < read_measure c)%nat end;
  rt_healthy : socket_healthy c ->
               socket_healthy c' /\ match t with Return _ => False | _ => True end
}.

(** The read at the end of a turn, from the kernel [k1] left by the poll and
    the log message. *)
Lemma read_turn_read len g g1 c k1 :
  (0 < len)%nat -> quiet g g1 ->
  k_daemon k1 = k_daemon (conn_kernel c) -> k_sent k1 = k_sent (conn_kernel c) ->
  (length (k_poll_in k1) < length (k_poll_in (conn_kernel c)) \/
   length (k_poll_in k1) = length (k_poll_in (conn_kernel c)) /\
   k_daemon (conn_kernel c) <> [])%nat ->
  (kernel_healthy (conn_kernel c) -> kernel_healthy k1) ->
  match (let '(e, q) := sys_read len (k_daemon k1) in
         let c := c <| conn_kernel := k1 |> <| conn_kernel; k_daemon := q |> in
         match e with
         | RdErr e =>
             if retry e then (Ret Again, (g1, c))
             else if e =? ECONNRESET then (r <- read_closed ;; ret (Return r)) (g1, c)
             else (Ret (Return (-1)), (guestfs___perrorf g1 e "read_data: read", c))
         | RdData [] => (r <- read_closed ;; ret (Return r)) (g1, c)
         | RdData bs => (Ret (Moved bs), (g1, c))
         end) with
  | (Ret t, (g', c')) => read_turn_ok len g g' c c' t
  | (Stop w, _) => w = Blocked /\ socket_inbox c = []
  end.
Proof.
  intros Hl Hq E1 E2 Hdec Hh. destruct (sys_read len (k_daemon k1)) as [e q] eqn:Es.
  pose proof (sys_read_spec _ _ _ _ Hl Es) as Hs. rewrite E1 in Hs.
  assert (socket_healthy c -> good_read e /\
    socket_healthy (c <| conn_kernel := k1 |> <| conn_kernel; k_daemon := q |>)) as Hg.
  { intros [H1 H2]. destruct (sys_read_healthy _ _ _ _ (Hh H2) Hl Es). by split; [|split]. }
  set (c1 := c <| conn_kernel := k1 |> <| conn_kernel; k_daemon := q |>) in *.
  assert (socket_outbox c1 = socket_outbox c) as Eo by done.
  assert (k_daemon (conn_kernel c) <> [] -> (script_size q < script_size (k_daemon (conn_kernel c)))%nat ->
          (read_measure c1 < read_measure c)%nat) as Hm.
  { intros _ Hlt. unfold read_measure. cbn. destruct Hdec as [?|[? _]]; lia. }
  assert (forall P : Prop, ~ good_read e -> (socket_healthy c -> P)) as Hbad.
  { intros P Hn H. destruct Hn. by apply Hg. }
  assert (match (r <- read_closed ;; ret (Return r)) (g1, c1) with
          | (Ret t, (g', c')) => ~ good_read e -> read_turn_ok len g g' c c' t
          | (Stop w, _) => w = Blocked end) as Hc.
  { pose proof (read_closed_spec g1 c1) as H. unfold bind.
    destruct (read_closed (g1, c1)) as [[r|w] [g' c']]; [|done].
    destruct H as (-> & ? & ?). intros Hn. cbn. split; [|congruence|auto|done|done|by apply Hbad].
    by transitivity g1. }
  pose proof (sys_read_bytes _ _ _ _ Es) as Hby. rewrite E1 in Hby.
  change (script_bytes q) with (socket_budget c1) in Hby. fold (socket_budget c) in Hby.
  assert (~ good_read e -> socket_inbox c = []) as Hf.
  { unfold socket_inbox. rewrite <- E1. by eapply sys_read_fatal. }
  destruct e as [[|b bs]|e].
  - destruct (bind read_closed _ (g1, c1)) as [[t|w] [g' c']]; [by apply Hc; cbn; auto|].
    split; [done|]. by apply Hf; cbn; auto.
  - destruct Hs as (Hs1 & Hs2 & Hs3). split; [done|done|done|lia|apply Hm; [|by apply Hs3]|].
    + intros E. rewrite <- E1 in E. by rewrite E in Es.
    + intros H. split; [by apply Hg|done].
  - destruct (retry e) eqn:Er; [|destruct (e =? ECONNRESET)].
    + destruct (Hs eq_refl) as [Hs1 Hs2]. split; [done|done|done|lia| |].
      * destruct Hdec as [Hdec|[Hd1 Hd2]]; [|by apply Hm, Hs2].
        unfold read_measure. cbn. rewrite E1 in Es.
        destruct (k_daemon (conn_kernel c)); [|specialize (Hs2 ltac:(done)); lia].
        cbn in Es. simplify_eq. cbn. lia.
      * intros H. split; [by apply Hg|done].
    + destruct (bind read_closed _ (g1, c1)) as [[t|w] [g' c']]; [apply Hc; cbn; congruence|].
      split; [done|]. apply Hf. cbn. congruence.
    + split; auto; [by transitivity g1; auto with guestfs|].
      intros H. destruct (Hg H) as [Hb _]. cbn in Hb. congruence.
Qed.

Lemma read_turn_spec len g c : (0 < len)%nat ->
  match read_turn len (g, c) with
  | (Ret t, (g', c')) => read_turn_ok len g g' c c' t
  | (Stop w, _) => w = Blocked /\ socket_inbox c = []
  end.
Proof.
  intros Hl. unfold read_turn.
  destruct (poll_in (conn_kernel c)) as [[p k]|] eqn:Ep.
  2: { split; [done|]. unfold poll_in in Ep. unfold socket_inbox.
       destruct (k_poll_in _), (k_daemon _); done. }
  apply poll_in_spec in Ep as (E1 & E2 & Hdec & Hhp).
  destruct p as [e|pd pc].
  - destruct Hdec as [Hdec|(_ & _ & ?)]; [|done].
    destruct (retry e) eqn:Er; split; auto with guestfs;
      unfold socket_inbox, read_measure, socket_budget; cbn; rewrite ?E1; auto; [lia|..]; intros [? [Hg ?]%Hhp]; cbn in Hg; [done|congruence].
  - log_turn ((0 <=? console_sock c) && pc) g (c <| conn_kernel := k |>).
    destruct Hss as [E3 E4 E5 _ _ Hh1]. cbn in E3, E4, E5, Hh1, Hgood.
    rewrite E1 in E3. rewrite E2 in E4.
    destruct (r <=? 0) eqn:Er; [|destruct pd].
    + apply Z.leb_le in Er. split; [done|done|lia|done|done|].
      intros [? [_ ->%Hgood]%Hhp]. lia.
    + apply (read_turn_read len g g1 (c <| conn_kernel := conn_kernel c |>) k1 Hl Hq E3 E4).
      * rewrite E5. cbn. destruct Hdec as [?|(-> & ? & ?)]; [by left|by right].
      * intros H. apply Hh1, Hhp, H.
    + destruct Hdec as [Hdec|(_ & _ & ?)]; [|done].
      split; [done|done|..]; unfold socket_inbox, read_measure, socket_budget; cbn;
        rewrite ?E3, ?E5; auto; [lia|].
      intros [? [_ ?]%Hhp]. split; [by split; auto|done].
Qed.

(** Termination of the loop with the fuel [read_data] gives it, and what it
    returns: [len] more bytes of the stream, or the end (0), or an error (-1). *)
Lemma read_loop_sound : forall fuel len buf g c, (read_measure c < fuel)%nat ->
  match read_loop fuel len buf (g, c) with
  | (Ret (r, out), (g', c')) =>
      ((exists x, r = zlength out /\ out = buf ++ x /\ length x = len /\
          socket_inbox c = x ++ socket_inbox c' /\
          (socket_budget c' + len <= socket_budget c)%nat) \/ r = 0 \/ r = -1) /\
      socket_outbox c' = socket_outbox c /\ quiet g g'
  | (Stop w, _) => w = Blocked
  end.
Proof.
  induction fuel as [|fuel IH]; intros len buf g c Hf; [lia|]. cbn [read_loop].
  destruct (Nat.eqb_spec len 0) as [->|Hl].
  { cbn. split_and!; auto with guestfs. left. exists []. rewrite app_nil_r, Nat.add_0_r. auto. }
  pose proof (read_turn_spec len g c ltac:(lia)) as Ht. unfold bind.
  destruct (read_turn len (g, c)) as [[t|w] [g1 c1]]; [|by destruct Ht].
  destruct Ht as [Hq Ho Hmv Hbu Hm _]. destruct t as [|bs|r]; [..|by cbn; split_and!; auto].
  - specialize (IH len buf g1 c1 ltac:(lia)).
    destruct (read_loop fuel len buf (g1, c1)) as [[[r out]|w] [g2 c2]]; [|done].
    rewrite <- Hmv, <- Ho. destruct IH as (IH & ? & ?). split_and!; [|done|by transitivity g1].
    destruct IH as [(x & ? & ? & ? & ? & ?)|?]; [|by right]. left. exists x. split_and!; [done..|lia].
  - specialize (IH (len - length bs)%nat (buf ++ bs) g1 c1 ltac:(lia)).
    destruct (read_loop fuel _ _ (g1, c1)) as [[[r out]|w] [g2 c2]]; [|done].
    destruct IH as (IH & ? & ?), Hmv as [Hmv Hlb].
    split_and!; [|congruence|by transitivity g1].
    destruct IH as [(x & -> & -> & Hx & Hi & ?)|IH]; [|by right].
    left. exists (bs ++ x). rewrite Hmv, Hi, length_app, !app_assoc.
    split_and!; [done..|lia|done|lia].
Qed.

(** On a healthy connection that holds enough data the loop reads it. *)
Lemma read_loop_healthy : forall fuel len buf g c, (read_measure c < fuel)%nat ->
  socket_healthy c -> (len <= length (socket_inbox c))%nat ->
  exists g' c', read_loop fuel len buf (g, c) =
      (Ret (zlength buf + Z.of_nat len, buf ++ take len (socket_inbox c)), (g', c')) /\
    socket_inbox c' = drop len (socket_inbox c) /\ socket_outbox c' = socket_outbox c /\
    socket_healthy c' /\ quiet g g'.
Proof.
  induction fuel as [|fuel IH]; intros len buf g c Hf Hh Hlen; [lia|]. cbn [read_loop].
  destruct (Nat.eqb_spec len 0) as [->|Hl].
  { exists g, c. rewrite take_0, app_nil_r, drop_0, Z.add_0_r. split_and!; auto with guestfs. }
  pose proof (read_turn_spec len g c ltac:(lia)) as Ht. unfold bind.
  destruct (read_turn len (g, c)) as [[t|w] [g1 c1]].
  2: { destruct Ht as [_ E]. rewrite E in Hlen. cbn in Hlen. lia. }
  destruct Ht as [Hq Ho Hmv _ Hm Hh']. destruct (Hh' Hh) as [Hh1 Ht]. destruct t as [|bs|r]; [..|done].
  - destruct (IH len buf g1 c1) as (g2 & c2 & -> & H1 & H2 & H3 & H4); [lia|done|by rewrite Hmv|].
    exists g2, c2. rewrite H1, H2, Hmv. split_and!; [done..|by transitivity g1].
  - destruct Hmv as [Hmv Hlb].
    destruct (IH (len - length bs)%nat (buf ++ bs) g1 c1) as (g2 & c2 & -> & H1 & H2 & H3 & H4);
      [lia|done|rewrite Hmv, length_app in Hlen; lia|].
    exists g2, c2. rewrite H1, H2, Hmv, zlength_app. unfold zlength.
    split_and!; [|by rewrite drop_app_ge by lia|done|done|by transitivity g1].
    rewrite take_app_ge by lia. rewrite app_assoc. do 3 f_equal. lia.
Qed.

(** ** Writing *)

Definition write_measure (c : connection_socket) : nat :=
  length (k_poll_out (conn_kernel c)) + length (k_write (conn_kernel c)).

Record write_turn_ok (buf : list byte) (g g' : guestfs_h) (c c' : connection_socket)
    (t : turn nat) : Prop := {
  wt_quiet : quiet g g';
  wt_inbox : socket_inbox c' = socket_inbox c;
  wt_moved : match t with
             | Again => socket_outbox c' = socket_outbox c
             | Moved n => socket_outbox c' = socket_outbox c ++ take n buf
             | Return r => socket_outbox c' = socket_outbox c /\ (r = 0 \/ r = -1)
             end;
  wt_measure : match t with
               | Return _ => True
               | Moved n => (write_measure c' < write_measure c)%nat \/ n = length buf
               | Again => (write_measure c' < write_measure c)%nat
               end;
  wt_healthy : socket_healthy c ->
               socket_healthy c' /\ match t with Return _ => False | _ => True end
}.

Lemma poll_out_spec k p k' : poll_out k = (p, k') ->
  k_daemon k' = k_daemon k /\ k_sent k' = k_sent k /\ k_write k' = k_write k /\
  ((length (k_poll_out k') < length (k_poll_out k))%nat \/ k' = k /\ p = PollReady true false) /\
  (kernel_healthy k -> good_poll p /\ kernel_healthy k').
Proof.
  unfold poll_out. destruct (k_poll_out k) as [|p0 ps] eqn:E; intros; simplify_eq.
  - by split_and!; auto.
  - split_and!; try done; [left; cbn; lia|].
    intros []. rewrite E in *. inversion kh_poll_out0. by repeat split.
Qed.

Lemma sys_write_spec len q e q' : sys_write len q = (e, q') ->
  ((length q' < length q)%nat \/ q = [] /\ q' = [] /\ e = WrOk len) /\
  (Forall good_write q -> (0 < len)%nat -> good_write e /\ Forall good_write q').
Proof.
  destruct q as [|[n|er] q0]; cbn; intros; simplify_eq; (split; [by auto with lia|]);
    intros H Hl; inversion H; subst; split; try done. cbn in *. lia.
Qed.

(** The write at the end of a turn, from the kernel [k1] left by the poll and
    the log message. *)
Lemma write_turn_write buf g g1 c k1 e q c1 :
  buf <> [] -> quiet g g1 ->
  k_daemon k1 = k_daemon (conn_kernel c) -> k_sent k1 = k_sent (conn_kernel c) ->
  k_write k1 = k_write (conn_kernel c) ->
  (length (k_poll_out k1) <= length (k_poll_out (conn_kernel c)))%nat ->
  (kernel_healthy (conn_kernel c) -> kernel_healthy k1) ->
  sys_write (length buf) (k_write k1) = (e, q) ->
  c1 = c <| conn_kernel := k1 |> <| conn_kernel; k_write := q |> ->
  exists t g' c',
    match e with
    | WrErr e =>
        if retry e then (Ret Again, (g1, c1))
        else if e =? EPIPE then (Ret (Return 0), (g1, c1))
        else (Ret (Return (-1)), (guestfs___perrorf g1 e "write_data: write", c1))
    | WrOk n => (Ret (Moved n), (g1, c1 <| conn_kernel; k_sent ::= fun s => s ++ take n buf |>))
    end = (Ret t, (g', c')) /\ write_turn_ok buf g g' c c' t.
Proof.
  intros Hb Hq E1 E2 E3 Hp Hh Ew ->. apply sys_write_spec in Ew as [Hw Hgw]. rewrite E3 in *.
  assert (0 < length buf)%nat as Hl by (destruct buf; [done|cbn; lia]).
  set (c1 := c <| conn_kernel := k1 |> <| conn_kernel; k_write := q |>).
  assert (socket_inbox c1 = socket_inbox c) as Ei by (unfold socket_inbox; cbn; by rewrite E1).
  assert (socket_outbox c1 = socket_outbox c) as Eo by done.
  assert (e = WrOk (length buf) \/ (write_measure c1 < write_measure c)%nat) as Hm.
  { unfold write_measure. cbn. destruct Hw as [?|(_ & _ & ?)]; [right; lia|by left]. }
  assert (socket_healthy c -> good_write e /\ forall f, socket_healthy (c1 <| conn_kernel; k_sent ::= f |>)) as Hg.
  { intros [H1 H2]. destruct (Hgw (kh_write _ H2) Hl) as [? ?]. split; [done|].
    destruct (Hh H2). intros f. split; [done|by split]. }
  assert (c1 <| conn_kernel; k_sent ::= id |> = c1) as Eid by done.
  destruct e as [n|e]; [|destruct (retry e) eqn:Er; [|destruct (e =? EPIPE)]]; do 3 eexists;
    (split; [done|]); split; auto with guestfs.
  - cbn. unfold socket_outbox. cbn. by rewrite E2.
  - destruct Hm as [Hm|Hm]; [right; by simplify_eq|by left].
  - intros [_ H]%Hg. split; [apply H|done].
  - by destruct Hm.
  - intros [_ H]%Hg. split; [rewrite <- Eid; apply H|done].
  - intros H. destruct (Hg H) as [Hf _]. cbn in Hf. congruence.
  - by transitivity g1; auto with guestfs.
  - intros H. destruct (Hg H) as [Hf _]. cbn in Hf. congruence.
Qed.

Lemma write_turn_spec buf g c : buf <> [] ->
  exists t g' c', write_turn buf (g, c) = (Ret t, (g', c')) /\ write_turn_ok buf g g' c c' t.
Proof.
  intros Hb. unfold write_turn. destruct (poll_out (conn_kernel c)) as [p k] eqn:Ep.
  apply poll_out_spec in Ep as (E1 & E2 & E3 & Hdec & Hhp).
  destruct p as [e|pd pc].
  - destruct Hdec as [Hdec|(_ & ?)]; [|done].
    destruct (retry e) eqn:Er; do 3 eexists; (split; [done|]);
      split; auto with guestfs; unfold socket_inbox, socket_outbox, write_measure;
      cbn; rewrite ?E1, ?E3; auto; [lia|..]; intros [? [Hg ?]%Hhp]; cbn in Hg; [done|congruence].
  - log_turn ((0 <=? console_sock c) && pc) g (c <| conn_kernel := k |>).
    destruct Hss as [E4 E5 _ E6 E7 Hh1]. cbn in E4, E5, E6, E7, Hh1, Hgood.
    rewrite E1 in E4. rewrite E2 in E5. rewrite E3 in E7.
    destruct (r <=? 0) eqn:Er; [|destruct pd].
    + apply Z.leb_le in Er. do 3 eexists. split; [done|].
      split; unfold socket_inbox, socket_outbox; cbn; rewrite ?E4, ?E5; auto; [split; [done|lia]|].
      intros [? [_ ->%Hgood]%Hhp]. lia.
    + cbn. destruct (sys_write (length buf) (k_write k1)) as [e q] eqn:Ew.
      eapply write_turn_write; [done|done| | | | | |exact Ew|done]; try done.
      * rewrite E6. destruct Hdec as [|[-> _]]; lia.
      * intros H. apply Hh1, Hhp, H.
    + destruct Hdec as [Hdec|(_ & ?)]; [|done]. do 3 eexists. split; [done|].
      split; unfold socket_inbox, socket_outbox, write_measure; cbn; rewrite ?E4, ?E5, ?E6, ?E7; auto; [lia|].
      intros [? [_ ?]%Hhp]. split; [by split; auto|done].
Qed.

(** Termination of the writing loop, and what it has written when it returns. *)
Lemma write_loop_sound : forall fuel buf n g c, (write_measure c < fuel)%nat ->
  exists r g' c', write_loop fuel buf n (g, c) = (Ret r, (g', c')) /\
    (r = n /\ socket_outbox c' = socket_outbox c ++ buf \/
     (r = 0 \/ r = -1) /\ exists k, socket_outbox c' = socket_outbox c ++ take k buf) /\
    socket_inbox c' = socket_inbox c /\ quiet g g' /\
    (socket_healthy c -> socket_healthy c' /\ r = n /\ socket_outbox c' = socket_outbox c ++ buf).
Proof.
  induction fuel as [|fuel IH]; intros buf n g c Hf; [lia|].
  destruct (decide (buf = [])) as [->|Hb].
  { exists n, g, c. cbn. rewrite app_nil_r. split_and!; auto with guestfs. }
  assert (write_loop (S fuel) buf n = (t <- write_turn buf ;;
      match t with
      | Again => write_loop fuel buf n
      | Moved k => write_loop fuel (drop k buf) n
      | Return r => ret r
      end)) as -> by (by destruct buf).
  destruct (write_turn_spec buf g c Hb) as (t & g1 & c1 & Et & [Hq Hi Hmv Hm Hh]).
  rewrite (bind_Ret _ _ _ _ _ Et). clear Et. destruct t as [|k|r].
  - destruct (IH buf n g1 c1) as (r & g2 & c2 & E & H1 & H2 & H3 & H4); [lia|].
    exists r, g2, c2. rewrite <- Hmv, <- Hi. split_and!; [done..|by transitivity g1|].
    intros [H _]%Hh. by apply H4.
  - destruct Hm as [Hm| ->].
    + destruct (IH (drop k buf) n g1 c1) as (r & g2 & c2 & E & H1 & H2 & H3 & H4); [lia|].
      rewrite Hmv in *. rewrite <- app_assoc, take_drop in *.
      exists r, g2, c2. split_and!; [done| |congruence|by transitivity g1|].
      * destruct H1 as [?|[? [j Hj]]]; [by left|]. right. split; [done|].
        exists (k + j)%nat. by rewrite Hj, <- app_assoc, take_take_drop.
      * intros [H _]%Hh. by apply H4.
    + exists n, g1, c1. rewrite drop_all, firstn_all in *. destruct fuel; cbn;
        (split_and!; [done|by left|done|done|]; intros [H _]%Hh; by split_and!).
  - destruct Hmv as [Hmv Hr]. exists r, g1, c1. split_and!; [done| |done|done|by intros [_ []]%Hh].
    right. split; [done|]. exists 0%nat. by rewrite take_0, app_nil_r.
Qed.

(** ** The interface is implemented *)

Lemma can_read_loop_sound : forall ps g c,
  exists r g' c', can_read_loop ps g c = (Ret r, (g', c')) /\ quiet g g' /\
    socket_inbox c' = socket_inbox c /\ socket_outbox c' = socket_outbox c /\
    socket_budget c' = socket_budget c /\
    (kernel_healthy (conn_kernel c) -> Forall good_poll ps ->
     g' = g /\ daemon_sock c' = daemon_sock c /\ kernel_healthy (conn_kernel c') /\
     (r = 0 \/ r = 1 /\ socket_inbox c <> [])).
Proof.
  induction ps as [|[e|d cs] ps IH]; intros g c; cbn [can_read_loop].
  - do 3 eexists. split_and!; [done|reflexivity|done|done|done|]. intros Hk _.
    split_and!; [done|done|by destruct Hk; split|]. unfold socket_inbox.
    destruct (k_daemon (conn_kernel c)) eqn:E; [by left|right]. split; [done|].
    rewrite <- E. apply ends_in_data_nonempty; [apply Hk|apply Hk|by rewrite E].
  - destruct (retry e) eqn:Er.
    + destruct (IH g c) as (r & g' & c' & ? & ? & ? & ? & ? & H). exists r, g', c'.
      split_and!; [done..|]. intros Hk Hp. inversion Hp. by apply H.
    + do 3 eexists. split_and!; [done|auto with guestfs|done|done|done|].
      intros _ Hp. inversion Hp; subst. cbn in *. congruence.
  - do 3 eexists. split_and!; [done|reflexivity|done|done|done|]. intros Hk Hp. inversion Hp; subst.
    split_and!; [done|done|by destruct Hk; split|]. unfold socket_inbox.
    destruct (k_daemon (conn_kernel c)) eqn:E; [rewrite andb_false_r; by left|].
    rewrite andb_true_r. destruct d; [right|by left]. split; [done|].
    rewrite <- E. apply ends_in_data_nonempty; [apply Hk|apply Hk|by rewrite E].
Qed.

Lemma script_data_bytes q : (length (script_data q) <= script_bytes q)%nat.
Proof.
  induction q as [|[[|b bs]|e] q IH]; cbn; [lia|lia| |case_if; cbn; lia].
  rewrite length_app. lia.
Qed.

#[export] Instance socket_laws : ConnLaws connection_socket.
Proof.
  refine {| conn_inbox := socket_inbox; conn_outbox := socket_outbox;
            conn_healthy := socket_healthy |};
    cbn [read_data write_data can_read_data conn_budget socket_ops].
  - intros g c n Hh Hn. unfold socket_read_data. destruct (Z.eqb_spec (daemon_sock c) (-1)) as [E|_];
      [by destruct Hh|].
    destruct (read_loop_healthy (read_fuel (conn_kernel c)) n [] g c) as (g' & c' & -> & H);
      [unfold read_fuel, read_measure; lia|done|lia|]. by exists g', c'.
  - intros g c bs Hh Hb. unfold socket_write_data.
    destruct (Z.eqb_spec (daemon_sock c) (-1)) as [E|_]; [by destruct Hh|].
    destruct (write_loop_sound (write_fuel (conn_kernel c)) bs (zlength bs) g c)
      as (r & g' & c' & -> & _ & H2 & H3 & H4); [unfold write_fuel, write_measure; lia|].
    destruct (H4 Hh) as (? & -> & ?). by exists g', c'.
  - intros g c [Hs Hk]. unfold socket_can_read_data.
    destruct (Z.eqb_spec (daemon_sock c) (-1)) as [E|_]; [done|].
    destruct (can_read_loop_sound (k_poll_can (conn_kernel c)) g c)
      as (r & g' & c' & -> & _ & H2 & H3 & _ & H4).
    destruct (H4 Hk (kh_poll_can _ Hk)) as (-> & E & Hk' & Hr).
    exists r, c'. split_and!; [done..|]. split; [congruence|done].
  - intros g c n r bs g' c'. unfold socket_read_data. case_if.
    { intros; simplify_eq. split_and!; auto with guestfs. }
    pose proof (read_loop_sound (read_fuel (conn_kernel c)) n [] g c
      ltac:(unfold read_fuel, read_measure; lia)) as H.
    destruct (read_loop _ n [] (g, c)) as [[[r0 out]|w] [g0 c0]]; intros; simplify_eq.
    destruct H as (H & ? & ?). split_and!; [|done..].
    destruct H as [(x & -> & -> & <- & ? & _)|?]; [by left|by right].
  - intros g c bs r g' c'. unfold socket_write_data. case_if.
    { intros; simplify_eq. split; [|auto with guestfs]. right. split; [by right|].
      exists 0%nat. by rewrite take_0, app_nil_r. }
    destruct (write_loop_sound (write_fuel (conn_kernel c)) bs (zlength bs) g c)
      as (r0 & g0 & c0 & -> & H1 & H2 & H3 & _); [unfold write_fuel, write_measure; lia|].
    intros; simplify_eq. by split.
  - intros g c n bs g' c'. unfold socket_read_data. case_if; [intros; simplify_eq; lia|].
    pose proof (read_loop_sound (read_fuel (conn_kernel c)) n [] g c
      ltac:(unfold read_fuel, read_measure; lia)) as H.
    destruct (read_loop _ n [] (g, c)) as [[[r0 out]|w] [g0 c0]]; intros; simplify_eq.
    destruct H as ([(x & _ & _ & _ & _ & ?)|?] & _); [done|lia].
  - intros g c r g' c'. unfold socket_can_read_data. case_if.
    { intros; simplify_eq. split_and!; auto with guestfs. }
    destruct (can_read_loop_sound (k_poll_can (conn_kernel c)) g c)
      as (r0 & g0 & c0 & -> & H1 & H2 & H3 & H4 & _). intros; simplify_eq. split_and!; [lia|done..].
  - intros c. apply script_data_bytes.
  - intros g c n w'. unfold socket_read_data. case_if; [done|].
    pose proof (read_loop_sound (read_fuel (conn_kernel c)) n [] g c
      ltac:(unfold read_fuel, read_measure; lia)) as H.
    destruct (read_loop _ n [] (g, c)) as [[[r0 out]|w] [g0 c0]]; [done|]. by intros [= <-].
  - intros g c bs w'. unfold socket_write_data. case_if; [done|].
    by destruct (write_loop_sound (write_fuel (conn_kernel c)) bs (zlength bs) g c)
      as (r0 & g0 & c0 & -> & _); [unfold write_fuel, write_measure; lia|].
  - intros g c w'. unfold socket_can_read_data. case_if; [done|].
    by destruct (can_read_loop_sound (k_poll_can (conn_kernel c)) g c) as (r0 & g0 & c0 & -> & _).
Defined.

(** A connected socket on which the daemon sends [bs], to evaluate the model on. *)
Definition ex_socket (bs : list byte) : connection_socket :=
  mk_conn (-1) 3 (-1)
    (mk_kernel [] (match bs with [] => [] | _ => [RdData bs] end) [] [] [WrErr EINTR; WrOk 3] [] []).

Lemma ex_socket_healthy bs : socket_healthy (ex_socket bs).
Proof.
  split; [done|]. destruct bs; split; cbn; repeat constructor; unfold ends_in_data; try done; cbn; lia.
Qed.

(** ** More data arrives *)

(** What the daemon sends next, as the protocol code sees it. *)
Class ConnFeed (C : Type) `{ConnLaws C} := {
  conn_feed : list byte -> C -> C;
  conn_feed_inbox bs c : conn_healthy c -> conn_inbox (conn_feed bs c) = conn_inbox c ++ bs;
  conn_feed_outbox bs c : conn_outbox (conn_feed bs c) = conn_outbox c;
  conn_feed_healthy bs c : conn_healthy c -> conn_healthy (conn_feed bs c)
}.

Lemma script_data_snoc q bs :
  Forall good_read q -> script_data (q ++ [RdData bs]) = script_data q ++ bs.
Proof.
  induction 1 as [|e q He _ IH]; cbn; [by destruct bs; cbn; rewrite ?app_nil_r|].
  destruct e as [[|b x]|e]; cbn in *; [done| |by rewrite He].
  by rewrite IH, app_assoc.
Qed.

#[export] Instance socket_feed : ConnFeed connection_socket.
Proof.
  refine {| conn_feed := fun bs c => match bs with
              | [] => c
              | _ => c <| conn_kernel; k_daemon ::= fun q => q ++ [RdData bs] |> end |}.
  - intros [|b bs] c [_ Hk]; cbn; [by rewrite app_nil_r|].
    unfold socket_inbox. cbn. by rewrite script_data_snoc by apply Hk.
  - by intros [|b bs] c.
  - intros [|b bs] c [Hs []]; [by repeat split|]. split; [done|].
    split; cbn; try done; [by apply Forall_app; repeat constructor|].
    unfold ends_in_data. by rewrite last_snoc.
Defined.

(** * Properties *)

(** What the loop of [accept_connection] returns, and what it leaves alone. *)
Lemma accept_loop_spec start_t : forall script g c,
  fst (accept_loop start_t script (g, c)) <> Stop OutOfFuel /\
  forall r g' c', accept_loop start_t script (g, c) = (Ret r, (g', c')) ->
    quiet g g' /\ daemon_sock c' = daemon_sock c /\ daemon_accept_sock c' = daemon_accept_sock c /\
    match r with
    | inl r => r = 0 \/ r = -1
    | inr fd => exists now pc, (now, ApReady pc (Some (AcceptOk fd))) ∈ script
    end.
Proof.
  induction script as [|[now p] script IH]; intros g c; cbn [accept_loop]; [done|].
  assert (forall g1 c1, quiet g g1 -> daemon_sock c1 = daemon_sock c ->
    daemon_accept_sock c1 = daemon_accept_sock c ->
    fst (accept_loop start_t script (g1, c1)) <> Stop OutOfFuel /\
    forall r g' c', accept_loop start_t script (g1, c1) = (Ret r, (g', c')) ->
      quiet g g' /\ daemon_sock c' = daemon_sock c /\ daemon_accept_sock c' = daemon_accept_sock c /\
      match r with
      | inl r => r = 0 \/ r = -1
      | inr fd => exists now0 pc, (now0, ApReady pc (Some (AcceptOk fd))) ∈ (now, p) :: script
      end) as IH'.
  { intros g1 c1 Hq H1 H2. destruct (IH g1 c1) as [Hf Hr]. split; [done|]. intros r g' c' E.
    destruct (Hr _ _ _ E) as (Hq' & H1' & H2' & H3). split_and!; try congruence.
    - by transitivity g1.
    - destruct r as [|fd]; [done|]. destruct H3 as (n & pc & H3). exists n, pc. by right. }
  destruct p as [e| |pc acc].
  - destruct (retry e); [by apply IH'|]. split; [done|]. intros r g' c' [= <- <- <-].
    split_and!; auto. apply quiet_perrorf.
  - case_if; split; try done. intros r g' c' [= <- <- <-].
    split_and!; auto. apply quiet_error.
  - log_turn ((0 <=? console_sock c) && pc) g c. rename Hr into Hr1, r into r1.
    destruct (Z.leb_spec r1 0).
    { split; [done|]. intros r g' c' [= <- <- <-]. split_and!; auto. lia. }
    destruct acc as [[fd|e]|]; [|destruct (retry e)|]; try (by apply IH').
    + split; [done|]. intros r g' c' [= <- <- <-]. split_and!; auto. exists now, pc. by left.
    + split; [done|]. intros r g' c' [= <- <- <-]. split_and!; auto.
      transitivity g1; [done|apply quiet_perrorf].
Qed.

(** Reading n bytes from the daemon socket under partial reads, interruptions and console
    output: it returns, or blocks when nothing more arrives; it returns n with exactly the next
    n bytes of the stream, 0 or -1; it never touches what is sent; and with enough input and no
    failure it returns n. *)
Theorem socket_read_correct (c : connection_socket) g n :
  (forall w, fst (socket_read_data n (g, c)) = Stop w -> w = Blocked) /\
  (forall r bs g' c', socket_read_data n (g, c) = (Ret (r, bs), (g', c')) ->
     (r = Z.of_nat n /\ length bs = n /\ socket_inbox c = bs ++ socket_inbox c' \/ r = 0 \/ r = -1) /\
     socket_outbox c' = socket_outbox c /\ quiet g g') /\
  (socket_healthy c -> (0 < n <= length (socket_inbox c))%nat ->
   exists g' c', socket_read_data n (g, c) = (Ret (Z.of_nat n, take n (socket_inbox c)), (g', c')) /\
     socket_inbox c' = drop n (socket_inbox c)).
Proof.
  split_and!.
  - exact (read_data_ends g c n).
  - exact (read_data_sound g c n).
  - intros Hc Hn. destruct (read_data_ok (ConnLaws:=socket_laws) g c n Hc Hn) as (g' & c' & H1 & H2 & _). eauto.
Qed.

Lemma socket_read_correct_witness :
  exists g' c', socket_read_data 2 (Examples.ex_handle, ex_socket [x01; x02; x03]) =
    (Ret (2, [x01; x02]), (g', c')) /\ socket_inbox c' = [x03].
Proof.
  destruct (socket_read_correct (ex_socket [x01; x02; x03]) Examples.ex_handle 2) as (_ & _ & H).
  apply H; [apply ex_socket_healthy|cbn; lia].
Defined.

(** Writing to the daemon socket under short writes, interruptions and console output: it
    always returns; it returns the length with exactly the buffer sent, or 0 or -1 with a prefix
    sent; and without a failure it sends the whole buffer and reads nothing of the stream. *)
Theorem socket_write_correct (c : connection_socket) g buf :
  (exists r s', socket_write_data buf (g, c) = (Ret r, s')) /\
  (forall r g' c', socket_write_data buf (g, c) = (Ret r, (g', c')) ->
     (r = zlength buf /\ socket_outbox c' = socket_outbox c ++ buf \/
      (r = 0 \/ r = -1) /\ exists k, socket_outbox c' = socket_outbox c ++ take k buf) /\
     quiet g g') /\
  (socket_healthy c -> buf <> [] ->
   exists g' c', socket_write_data buf (g, c) = (Ret (zlength buf), (g', c')) /\
     socket_outbox c' = socket_outbox c ++ buf /\ socket_inbox c' = socket_inbox c).
Proof.
  split_and!.
  - unfold socket_write_data. case_if; [by eexists _, _|].
    destruct (write_loop_sound (write_fuel (conn_kernel c)) buf (zlength buf) g c)
      as (r0 & g0 & c0 & -> & _); [unfold write_fuel, write_measure; lia|]. by eexists _, _.
  - exact (write_data_sound g c buf).
  - intros Hc Hn. destruct (write_data_ok (ConnLaws:=socket_laws) g c buf Hc Hn) as (g' & c' & H1 & H2 & H3 & _). eauto.
Qed.

Lemma socket_write_correct_witness :
  exists g' c', socket_write_data [x01; x02; x03; x04; x05] (Examples.ex_handle, ex_socket []) =
    (Ret 5, (g', c')) /\ socket_outbox c' = [x01; x02; x03; x04; x05].
Proof.
  destruct (socket_write_correct (ex_socket []) Examples.ex_handle [x01; x02; x03; x04; x05]) as (_ & _ & H).
  destruct H as (g' & c' & H1 & H2 & _); [apply ex_socket_healthy|done|]. eauto.
Defined.

(** accept_connection returns 1, 0 or -1; it returns 1 only with a descriptor that accept
    gave and after making it non-blocking, after which a second accept fails; otherwise the
    sockets are unchanged. *)
Theorem accept_connection_correct start_t script fcntl_errno g c r g' c' :
  accept_connection start_t script fcntl_errno (g, c) = (Ret r, (g', c')) ->
  quiet g g' /\ (r = 1 \/ r = 0 \/ r = -1) /\
  (r = 1 ->
     (exists now pc, (now, ApReady pc (Some (AcceptOk (daemon_sock c')))) ∈ script) /\
     fcntl_errno = None /\
     forall start_t2 script2 e2, fst (accept_connection start_t2 script2 e2 (g', c')) = Ret (-1)) /\
  (r <> 1 -> fcntl_errno = None ->
     daemon_sock c' = daemon_sock c /\ daemon_accept_sock c' = daemon_accept_sock c).
Proof.
  unfold accept_connection. case_if.
  { intros [= <- <- <-]. split_and!; try done; [apply quiet_error|auto]. }
  intros H. apply bind_inv in H as (r0 & [g0 c0] & H0 & H1).
  destruct (accept_loop_spec start_t script g c) as [_ Hs].
  destruct (Hs _ _ _ H0) as (Hq & Hd & Ha & Hr). destruct r0 as [r0|fd].
  - injection H1 as <- <- <-. split_and!; auto. intros ->. lia.
  - destruct fcntl_errno as [e|]; injection H1 as <- <- <-.
    + split_and!; auto; try done. transitivity g0; [done|apply quiet_perrorf].
    + split_and!; auto; done.
Qed.

Definition ex_listening : connection_socket := mk_conn (-1) (-1) 9 (mk_kernel [] [] [] [] [] [] []).

Lemma accept_connection_correct_witness :
  quiet Examples.ex_handle Examples.ex_handle /\
  exists now pc, (now, ApReady pc (Some (AcceptOk 12))) ∈ [(0, ApErr EINTR); (5, ApReady false (Some (AcceptOk 12)))].
Proof.
  destruct (accept_connection_correct 0 [(0, ApErr EINTR); (5, ApReady false (Some (AcceptOk 12)))] None
    Examples.ex_handle ex_listening 1 Examples.ex_handle (mk_conn (-1) 12 (-1) (mk_kernel [] [] [] [] [] [] [])))
    as (H1 & _ & H2 & _); [reflexivity|].
  split; [exact H1|]. destruct (H2 eq_refl) as [H3 _]. exact H3.
Defined.

(** Once the deadline has passed between two polls the timeout handed to poll
    is negative, and the call waits for ever instead of reporting that the
    launch timed out. *)
Lemma accept_timeout_overrun start_t now_t pc g c :
  daemon_accept_sock c <> -1 -> console_sock c < 0 -> start_t + APPLIANCE_TIMEOUT < now_t ->
  fst (accept_connection start_t [(start_t, ApReady pc None); (now_t, ApTimeout)] None (g, c)) =
  Stop Blocked.
Proof.
  intros H1 H2 H3. unfold accept_connection. destruct (Z.eqb_spec (daemon_accept_sock c) (-1)); [done|].
  cbn [accept_loop]. unfold bind at 1 2.
  replace (0 <=? console_sock c) with false by (symmetry; apply Z.leb_gt; done).
  cbn -[APPLIANCE_TIMEOUT Z.mul].
  destruct (Z.ltb_spec (1000 * (APPLIANCE_TIMEOUT - (now_t - start_t))) 0); [done|lia].
Qed.
