(* ===== verification/LibProto.v ===== *)
(** src/proto.c: the library side of the protocol, over any connection that
    implements [ConnOps].  A call is [guestfs___send], then
    [guestfs___send_file] for each FileIn parameter, then [guestfs___recv],
    then [guestfs___recv_file] for each FileOut parameter; src/actions-support.c
    checks the reply.

    The local files of a transfer are scripts of system call results in
    [file_io].  guestfs_user_cancel may be called at any time by another thread
    or from a callback: [io_cancel] says, for each time the code looks at
    [g->user_cancel], whether it was called since the last time. *)

From S2P Require Import Prelude Xdr Protocol Handle Events Conn.
Local Open Scope Z_scope.

Record file_io := mk_file_io {
  io_open : option Z;           (* errno of open (2), if it fails *)
  io_read : list read_ev;       (* results of read (2); then end of file *)
  io_write : list write_ev;     (* results of write (2); then everything is written *)
  io_close : option Z;          (* errno of close (2), if it fails *)
  io_cancel : list bool;
  io_data : list byte           (* what the local file holds; of a pipe or terminal, what was written to it *)
}.
#[export] Instance upd_io_read : Field io_read := fun f r =>
  mk_file_io (io_open r) (f (io_read r)) (io_write r) (io_close r) (io_cancel r) (io_data r).
#[export] Instance upd_io_write : Field io_write := fun f r =>
  mk_file_io (io_open r) (io_read r) (f (io_write r)) (io_close r) (io_cancel r) (io_data r).
#[export] Instance upd_io_cancel : Field io_cancel := fun f r =>
  mk_file_io (io_open r) (io_read r) (io_write r) (io_close r) (f (io_cancel r)) (io_data r).
#[export] Instance upd_io_data : Field io_data := fun f r =>
  mk_file_io (io_open r) (io_read r) (io_write r) (io_close r) (io_cancel r) (f (io_data r)).

(** The handle with its connection ([g->conn]) and the local files. *)
Record lib (C : Type) := mk_lib { l_g : guestfs_h; l_conn : option C; l_io : file_io }.
Arguments mk_lib {C}.
Arguments l_g {C}.
Arguments l_conn {C}.
Arguments l_io {C}.
#[export] Instance upd_l_g {C} : Field (@l_g C) := fun f r =>
  mk_lib (f (l_g r)) (l_conn r) (l_io r).
#[export] Instance upd_l_conn {C} : Field (@l_conn C) := fun f r =>
  mk_lib (l_g r) (f (l_conn r)) (l_io r).
#[export] Instance upd_l_io {C} : Field (@l_io C) := fun f r =>
  mk_lib (l_g r) (l_conn r) (f (l_io r)).

(** "%x" of an unsigned integer. *)
Fixpoint hex_digits (fuel : nat) (z : Z) (acc : list byte) : list byte :=
  match fuel with
  | O => acc
  | S fuel' =>
      let acc := hex_digit (z mod 16) :: acc in
      if z <? 16 then acc else hex_digits fuel' (z / 16) acc
  end.
Definition hex32 (z : Z) : string := string_of_bytes (hex_digits 8 z []).

Definition decode_u32 (buf : list byte) : Z :=
  match xdr_u_int_get buf with Some (z, _) => z | None => 0 end.

Section proto.
Context {C : Type} `{ConnOps C}.

(** ** Access to the parts of the state *)

(** A call through [g->conn->ops]; a NULL connection is dereferenced. *)
Definition on_conn {A} (m : M (guestfs_h * C) A) : M (lib C) A := fun l =>
  match l_conn l with
  | None => (Stop AssertFailed, l)
  | Some c => let '(r, (g', c')) := m (l_g l, c) in
              (r, l <| l_g := g' |> <| l_conn := Some c' |>)
  end.

Definition on_g (f : guestfs_h -> guestfs_h) : M (lib C) unit := modify (upd l_g f).

(** [g->user_cancel] as the code reads it. *)
Definition read_user_cancel : M (lib C) bool := fun l =>
  let '(b, bs) := match io_cancel (l_io l) with [] => (false, []) | b :: bs => (b, bs) end in
  let c := g_user_cancel (l_g l) || b in
  (Ret c, l <| l_g; g_user_cancel := c |> <| l_io; io_cancel := bs |>).

(** The number of turns the loops that read from the connection are given. *)
Definition fuel_of (l : lib C) : nat :=
  match l_conn l with Some c => S (conn_budget c) | None => 1%nat end.

(** ** The end of the appliance *)

Definition guestfs___free_drives (g : guestfs_h) : guestfs_h := g <| g_drives := [] |>.

Definition child_cleanup : M (lib C) unit := fun l =>
  let l := l <| l_g ::= fun g => guestfs___debug g "child_cleanup: child process died" |> in
  (* g->backend_ops->shutdown (g, g->backend_data, 0): the result is ignored *)
  let l := l <| l_conn := None |> in
  let l := l <| l_g; g_launch_t := mk_timeval 0 0 |> in
  let l := l <| l_g ::= guestfs___free_drives |> in
  let l := l <| l_g; g_state := CONFIG |> in
  (Ret tt, l <| l_g ::= fun g => guestfs___call_callbacks_void g GUESTFS_EVENT_SUBPROCESS_QUIT |>).

Definition unexpected_close : M (lib C) unit :=
  on_g guestfs___unexpected_close_error ;;; child_cleanup.

Definition progress_callback (m : guestfs_progress) (g : guestfs_h) : guestfs_h :=
  guestfs___progress_message_callback g
    (progress_proc m) (progress_serial m) (progress_position m) (progress_total m).

(** xdr_guestfs_progress on a buffer of PROGRESS_MESSAGE_SIZE bytes. *)
Definition handle_progress (buf : list byte) : M (lib C) unit :=
  match xdr_get (A := guestfs_progress) buf with
  | Some (m, _) => on_g (progress_callback m)
  | None => halt AssertFailed
  end.

(** ** check_daemon_socket *)

(** -1: error, -2: cancellation, 0: end of input, 1: anything else. *)
Fixpoint check_daemon_loop (fuel : nat) : M (lib C) Z :=
  match fuel with
  | O => halt OutOfFuel
  | S fuel' =>
      can <- on_conn can_read_data ;;
      if can =? 0 then ret 1 else
      let* (n, buf) := on_conn (read_data 4) in
      if n <=? 0 then ret n else
      let flag := decode_u32 buf in
      if flag =? GUESTFS_PROGRESS_FLAG then
        let* (n, buf) := on_conn (read_data (Z.to_nat PROGRESS_MESSAGE_SIZE)) in
        if n <=? 0 then ret n else
        handle_progress buf ;;;
        check_daemon_loop fuel'
      else if negb (flag =? GUESTFS_CANCEL_FLAG) then
        on_g (fun g => error g ("check_daemon_socket: read 0x" +:+ hex32 flag +:+
          " from daemon, expected 0x" +:+ hex32 GUESTFS_CANCEL_FLAG +:+
          ".  Lost protocol synchronization (bad!)" +:+ newline)) ;;;
        ret (-1)
      else ret (-2)
  end.

Definition check_daemon_socket : M (lib C) Z := fun l =>
  match l_conn l with
  | None => (Stop AssertFailed, l)
  | Some c => check_daemon_loop (S (conn_budget c)) l
  end.

(** ** Sending a request *)

(** The write at the end of [guestfs___send] and [send_file_chunk]: [ok] or -1. *)
Definition write_message (msg_out : list byte) (ok : Z) : M (lib C) Z :=
  r <- on_conn (write_data msg_out) ;;
  if r =? -1 then ret (-1)
  else if r =? 0 then unexpected_close ;;; ret (-1)
  else ret ok.

(** [xdrp] is the marshalling routine applied to the arguments, if any. *)
Definition guestfs___send (proc_nr progress_hint optargs_bitmask : Z)
    (xdrp : option (xenc -> option xenc)) : M (lib C) Z := fun l =>
  let serial := g_msg_next_serial (l_g l) in
  let l := l <| l_g; g_msg_next_serial := s32 (serial + 1) |> in
  match l_conn l with
  | None => (on_g guestfs___unexpected_close_error ;;; ret (-1)) l
  | Some _ =>
      let hdr := mk_message_header GUESTFS_PROGRAM GUESTFS_PROTOCOL_VERSION proc_nr
                   GUESTFS_DIRECTION_CALL (u32 serial) progress_hint optargs_bitmask
                   GUESTFS_STATUS_OK in
      match xdr_put hdr (xdrmem_create_encode GUESTFS_MESSAGE_MAX) with
      | None => (on_g (fun g => error g "xdr_guestfs_message_header failed") ;;; ret (-1)) l
      | Some x =>
          match (match xdrp with Some put => put x | None => Some x end) with
          | None => (on_g (fun g => error g "dispatch failed to marshal args") ;;; ret (-1)) l
          | Some x =>
              let len := xdr_getpos x in
              let msg_out := be_bytes 4 len ++ x_out x in
              (r <- check_daemon_socket ;;
               (* r == -2 (cancellation) is ignored *)
               if r =? -1 then ret (-1)
               else if r =? 0 then unexpected_close ;;; ret (-1)
               else write_message msg_out serial) l
          end
      end
  end.

(** ** Sending a file *)

Definition send_file_chunk (cancel : Z) (buf : list byte) : M (lib C) Z :=
  match xdr_put (mk_chunk cancel buf) (xdrmem_create_encode (GUESTFS_MAX_CHUNK_SIZE + 48)) with
  | None => on_g (fun g => error g "xdr_guestfs_chunk failed") ;;; ret (-1)
  | Some x =>
      let len := xdr_getpos x in
      let msg_out := be_bytes 4 len ++ x_out x in
      r <- check_daemon_socket ;;
      if r =? -2 then
        on_g (fun g => guestfs___debug g "got daemon cancellation") ;;; ret (-2)
      else if r =? -1 then ret (-1)
      else if r =? 0 then unexpected_close ;;; ret (-1)
      else write_message msg_out 0
  end.

Definition send_file_data (buf : list byte) : M (lib C) Z := send_file_chunk 0 buf.
Definition send_file_cancellation : M (lib C) Z := send_file_chunk 1 [].
Definition send_file_complete : M (lib C) Z := send_file_chunk 0 [].

(** read (2) of the local file. *)
Definition file_read (n : nat) (q : list read_ev) : read_ev * list read_ev :=
  match q with [] => (RdData [], []) | _ => sys_read n q end.

(** The loop of [guestfs___send_file]: the values of [r] and [errno] when it is
    left, or the error with which the function returns.  EINTR and EAGAIN go
    back to the test of the loop with [r] at -1. *)
Fixpoint send_file_loop (fuel : nat) (r errno : Z) : M (lib C) (Z * Z + Z) :=
  match fuel with
  | O => halt OutOfFuel
  | S fuel' =>
      cancel <- read_user_cancel ;;
      if cancel : bool then ret (inl (r, errno)) else
      fun l =>
      let '(e, q) := file_read (Z.to_nat GUESTFS_MAX_CHUNK_SIZE) (io_read (l_io l)) in
      let l := l <| l_io; io_read := q |> in
      match e with
      | RdErr errnum =>
          if retry errnum then send_file_loop fuel' (-1) errnum l else (Ret (inl (-1, errnum)), l)
      | RdData [] => (Ret (inl (0, errno)), l)
      | RdData buf =>
          (err <- send_file_data buf ;;
           if err <? 0 then
             (if err =? -2 then (send_file_cancellation ;;; ret tt) else ret tt) ;;;
             ret (inr err)
           else send_file_loop fuel' (zlength buf) errno) l
      end
  end.

Definition perrorf (errnum : Z) (msg : string) : M (lib C) unit :=
  on_g (fun g => guestfs___perrorf g errnum msg).

(** 0: OK, -1: error, -2: the daemon cancelled (the caller reads its error). *)
Definition guestfs___send_file (filename : string) : M (lib C) Z := fun l =>
  let l := l <| l_g; g_user_cancel := false |> in
  match io_open (l_io l) with
  | Some e => (perrorf e ("open: " +:+ filename) ;;; send_file_cancellation ;;; ret (-1)) l
  | None =>
      (res <- send_file_loop (S (script_size (io_read (l_io l)))) 0 0 ;;
       match res with
       | inr err => ret err
       | inl (r, errnum) =>
           if r =? -1 then
             perrorf errnum ("read: " +:+ filename) ;;; send_file_cancellation ;;; ret (-1)
           else
           cancel <- read_user_cancel ;;
           if cancel : bool then
             on_g (fun g => (error g "operation cancelled by user") <| g_errs; last_errnum := EINTR |>) ;;;
             send_file_cancellation ;;; ret (-1)
           else fun l =>
           match io_close (l_io l) with
           | Some e => (perrorf e ("close: " +:+ filename) ;;; send_file_cancellation ;;; ret (-1)) l
           | None =>
               (err <- send_file_complete ;;
                if err <? 0 then
                  (if err =? -2 then (send_file_cancellation ;;; ret tt) else ret tt) ;;; ret err
                else ret 0) l
           end
       end) l
  end.

(** ** Receiving a message *)

(** The branch of [recv_from_daemon] for GUESTFS_LAUNCH_FLAG. *)
Definition recv_launch_flag (g : guestfs_h) : guestfs_h :=
  let g := if decide (g_state g = LAUNCHING)
           then guestfs___call_callbacks_void (g <| g_state := READY |>) GUESTFS_EVENT_LAUNCH_DONE
           else error g ("received magic signature from guestfsd, but in state "
                         +:+ pretty (state_int (g_state g))) in
  guestfs___debug g "recv_from_daemon: received GUESTFS_LAUNCH_FLAG".

(** The return value, [*size_rtn] and [*buf_rtn]. *)
Definition recv_connected : M (lib C) (Z * Z * option (list byte)) :=
  let* (n, lenbuf) := on_conn (read_data 4) in
  if n =? -1 then ret (-1, 0, None)
  else if n =? 0 then unexpected_close ;;; ret (-1, 0, None)
  else
  let size := decode_u32 lenbuf in
  if size =? GUESTFS_LAUNCH_FLAG then
    on_g recv_launch_flag ;;;
    ret (0, size, None)
  else if size =? GUESTFS_CANCEL_FLAG then
    on_g (fun g => guestfs___debug g "recv_from_daemon: received GUESTFS_CANCEL_FLAG") ;;;
    ret (0, size, None)
  else if negb (size =? GUESTFS_PROGRESS_FLAG) && (GUESTFS_MESSAGE_MAX <? size) then
    on_g (fun g => error g ("message length (" +:+ pretty size +:+
      ") > maximum possible size (" +:+ pretty GUESTFS_MESSAGE_MAX +:+ ")")) ;;;
    ret (-1, size, None)
  else
  let message_size :=
    if negb (size =? GUESTFS_PROGRESS_FLAG) then size else PROGRESS_MESSAGE_SIZE in
  let* (n, buf) := on_conn (read_data (Z.to_nat message_size)) in
  if n =? -1 then ret (-1, size, None)
  else if n =? 0 then unexpected_close ;;; ret (-1, size, None)
  else ret (0, size, Some buf).

Definition recv_from_daemon : M (lib C) (Z * Z * option (list byte)) := fun l =>
  match l_conn l with
  | None => (on_g guestfs___unexpected_close_error ;;; ret (-1, 0, None)) l
  | Some _ => recv_connected l
  end.

Fixpoint recv_loop (fuel : nat) : M (lib C) (Z * Z * option (list byte)) :=
  match fuel with
  | O => halt OutOfFuel
  | S fuel' =>
      let* (r, size, buf) := recv_from_daemon in
      if r =? -1 then ret (-1, size, buf)
      else if size =? GUESTFS_PROGRESS_FLAG then
        handle_progress (default [] buf) ;;; recv_loop fuel'
      else if (size =? GUESTFS_LAUNCH_FLAG) || (size =? GUESTFS_CANCEL_FLAG) then ret (0, size, buf)
      else match buf with
           | None => halt AssertFailed
           | Some _ => ret (0, size, buf)
           end
  end.

Definition guestfs___recv_from_daemon : M (lib C) (Z * Z * option (list byte)) := fun l =>
  recv_loop (fuel_of l) l.

(** What [guestfs___recv] stores through its pointers. *)
Record reply (A : Type) := mk_reply {
  reply_hdr : guestfs_message_header;
  reply_err : guestfs_message_error;
  reply_ret : option A
}.
Arguments mk_reply {A}.
Arguments reply_hdr {A}.
Arguments reply_err {A}.
Arguments reply_ret {A}.

Definition zero_header : guestfs_message_header := mk_message_header 0 0 0 0 0 0 0 0.
Definition zero_error : guestfs_message_error := mk_message_error [] [].

(** The loop that discards cancellation messages, shared by [guestfs___recv]
    and [guestfs___recv_discard]: the message, or -1. *)
Fixpoint recv_uncancelled (fuel : nat) (fn : string) : M (lib C) (Z * list byte) :=
  match fuel with
  | O => halt OutOfFuel
  | S fuel' =>
      let* (r, size, buf) := guestfs___recv_from_daemon in
      if r =? -1 then ret (-1, [])
      else if size =? GUESTFS_CANCEL_FLAG then recv_uncancelled fuel' fn
      else if size =? GUESTFS_LAUNCH_FLAG then
        on_g (fun g => error g (fn +:+
          ": received unexpected launch flag from daemon when expecting reply")) ;;;
        ret (-1, [])
      else ret (0, default [] buf)
  end.

Definition guestfs___recv {A} (fn : string) (xdrp : option (list byte -> option (A * list byte))) :
    M (lib C) (Z * reply A) := fun l =>
  (let* (r, buf) := recv_uncancelled (fuel_of l) fn in
   if r =? -1 then ret (-1, mk_reply zero_header zero_error None) else
   match xdr_get (A := guestfs_message_header) buf with
   | None =>
       on_g (fun g => error g (fn +:+ ": failed to parse reply header")) ;;;
       ret (-1, mk_reply zero_header zero_error None)
   | Some (hdr, s) =>
       if hdr_status hdr =? GUESTFS_STATUS_ERROR then
         match xdr_get (A := guestfs_message_error) s with
         | None =>
             on_g (fun g => error g (fn +:+ ": failed to parse reply error")) ;;;
             ret (-1, mk_reply hdr zero_error None)
         | Some (err, _) => ret (0, mk_reply hdr err None)
         end
       else
         match xdrp with
         | None => ret (0, mk_reply hdr zero_error None)
         | Some get =>
             match get s with
             | None =>
                 on_g (fun g => error g (fn +:+ ": failed to parse reply")) ;;;
                 ret (-1, mk_reply hdr zero_error None)
             | Some (v, _) => ret (0, mk_reply hdr zero_error (Some v))
             end
         end
   end) l.

Definition guestfs___recv_discard (fn : string) : M (lib C) Z := fun l =>
  (let* (r, _) := recv_uncancelled (fuel_of l) fn in ret r) l.

(** ** Receiving a file *)

(** The loop of [xwrite] on the local file: the errno of a failed write. *)
Fixpoint xwrite_loop (fuel : nat) (buf : list byte) : M (lib C) (option Z) := fun l =>
  match buf, fuel with
  | [], _ => (Ret None, l)
  | _, O => (Stop OutOfFuel, l)
  | _, S fuel' =>
      let '(e, q) := sys_write (length buf) (io_write (l_io l)) in
      let l := l <| l_io; io_write := q |> in
      match e with
      | WrErr e => (Ret (Some e), l)
      | WrOk n => xwrite_loop fuel' (drop n buf) (l <| l_io; io_data ::= fun d => d ++ take n buf |>)
      end
  end.

Definition xwrite (buf : list byte) : M (lib C) (option Z) := fun l =>
  xwrite_loop (S (length (io_write (l_io l)))) buf l.

(** -1: error, 0: end of file, > 0: the data. *)
Definition receive_file_data : M (lib C) (Z * list byte) :=
  let* (r, len, buf) := guestfs___recv_from_daemon in
  if r =? -1 then ret (-1, [])
  else if (len =? GUESTFS_LAUNCH_FLAG) || (len =? GUESTFS_CANCEL_FLAG) then
    on_g (fun g => error g
      "receive_file_data: unexpected flag received when reading file chunks") ;;; ret (-1, [])
  else
  match xdr_get (A := guestfs_chunk) (default [] buf) with
  | None => on_g (fun g => error g "failed to parse file chunk") ;;; ret (-1, [])
  | Some (chunk, _) =>
      if negb (chunk_cancel chunk =? 0) then
        cancel <- read_user_cancel ;;
        on_g (fun g => if cancel : bool
                       then (error g "operation cancelled by user") <| g_errs; last_errnum := EINTR |>
                       else error g "file receive cancelled by daemon") ;;;
        ret (-1, [])
      else match chunk_data chunk with
           | [] => ret (0, [])
           | data => ret (zlength data, data)
           end
  end.

(** [while (receive_file_data (g, NULL) > 0) ;] *)
Fixpoint discard_loop (fuel : nat) : M (lib C) unit :=
  match fuel with
  | O => halt OutOfFuel
  | S fuel' =>
      let* (r, _) := receive_file_data in
      if 0 <? r then discard_loop fuel' else ret tt
  end.

(** The label [cancel] of [guestfs___recv_file]. *)
Definition recv_file_cancel : M (lib C) Z :=
  on_g (fun g => guestfs___debug g "guestfs___recv_file: waiting for daemon to acknowledge cancellation") ;;;
  r <- on_conn (write_data (be_bytes 4 GUESTFS_CANCEL_FLAG)) ;;
  if r =? -1 then
    on_g (fun g => guestfs___perrorf g (guestfs_last_errno g) "write to daemon socket") ;;; ret (-1)
  else fun l => (discard_loop (fuel_of l) ;;; ret (-1)) l.

(** The loop that receives chunks: the last [r], or the jump to [cancel]. *)
Fixpoint recv_file_loop (fuel : nat) (filename : string) : M (lib C) (option Z) :=
  match fuel with
  | O => halt OutOfFuel
  | S fuel' =>
      let* (r, data) := receive_file_data in
      if 0 <? r then
        w <- xwrite data ;;
        match w with
        | Some e => perrorf e (filename +:+ ": write") ;;; ret None
        | None =>
            cancel <- read_user_cancel ;;
            if cancel : bool then ret None else recv_file_loop fuel' filename
        end
      else ret (Some r)
  end.

Definition guestfs___recv_file (filename : string) : M (lib C) Z := fun l =>
  let l := l <| l_g; g_user_cancel := false |> in
  match io_open (l_io l) with
  | Some e => (perrorf e ("open: " +:+ filename) ;;; recv_file_cancel) l
  | None =>
      let l := l <| l_io; io_data := [] |> in   (* O_TRUNC *)
      (res <- recv_file_loop (fuel_of l) filename ;;
       match res with
       | None => recv_file_cancel
       | Some r =>
           if r =? -1 then ret (-1)
           else fun l =>
           match io_close (l_io l) with
           | Some e => (perrorf e ("close: " +:+ filename) ;;; ret (-1)) l
           | None => (Ret 0, l)
           end
       end) l
  end.

Definition guestfs_user_cancel : M (lib C) Z :=
  on_g (fun g => g <| g_user_cancel := true |>) ;;; ret 0.

(** ** src/actions-support.c *)

Definition guestfs___check_reply_header (hdr : guestfs_message_header) (proc_nr serial : Z) :
    M (lib C) Z :=
  let bad msg a b := on_g (fun g => error g (msg +:+ " (" +:+ pretty (s32 a) +:+ "/" +:+ pretty (s32 b) +:+ ")")) ;;;
                     ret (-1) in
  if negb (hdr_prog hdr =? GUESTFS_PROGRAM) then bad "wrong program" (hdr_prog hdr) GUESTFS_PROGRAM
  else if negb (hdr_vers hdr =? GUESTFS_PROTOCOL_VERSION) then
    bad "wrong protocol version" (hdr_vers hdr) GUESTFS_PROTOCOL_VERSION
  else if negb (hdr_direction hdr =? GUESTFS_DIRECTION_REPLY) then
    bad "unexpected message direction" (hdr_direction hdr) GUESTFS_DIRECTION_REPLY
  else if negb (u32 (hdr_proc hdr) =? u32 proc_nr) then
    bad "unexpected procedure number" (hdr_proc hdr) proc_nr
  else if negb (hdr_serial hdr =? u32 serial) then
    bad "unexpected serial" (hdr_serial hdr) serial
  else ret 0.

Definition guestfs___check_appliance_up (caller : string) : M (lib C) Z := fun l =>
  if decide (g_state (l_g l) = CONFIG \/ g_state (l_g l) = LAUNCHING)
  then (on_g (fun g => error g (caller +:+ ": call launch before using this function" +:+ newline +:+
          "(in guestfish, don't forget to use the 'run' command)")) ;;; ret (-1)) l
  else (Ret 0, l).

End proto.
Arguments mk_reply {A}.
Arguments reply_hdr {A}.
Arguments reply_err {A}.
Arguments reply_ret {A}.
