(* ===== verification/LibProtoSpec.v ===== *)
(** What src/proto.c guarantees over any connection that obeys [ConnLaws]:
    which bytes are consumed from and handed to the daemon by each operation,
    that a file transfer is always terminated and leaves the stream
    synchronized, and that every loop ends. *)

From S2P Require Import Prelude Xdr Protocol Handle Events Conn LibProto.
Local Open Scope Z_scope.

(** [quiet] but for the cancellation flag, which another thread may set. *)
Definition calm (g g' : guestfs_h) : Prop :=
  quiet (g <| g_user_cancel := false |>) (g' <| g_user_cancel := false |>).

#[export] Instance calm_preorder : PreOrder calm.
Proof. unfold calm. split; [intros g; reflexivity|]. intros a b c ??. by etransitivity. Qed.

Lemma quiet_calm g g' : quiet g g' -> calm g g'.
Proof. intros []. by split. Qed.
#[export] Hint Resolve quiet_calm : guestfs.

(** Bytes of progress messages. *)
Definition progress_frames (ps : list guestfs_progress) : list byte :=
  concat (progress_frame <$> ps).

Lemma progress_frames_cons p ps :
  progress_frames (p :: ps) = flag_word GUESTFS_PROGRESS_FLAG ++ progress_wire p ++ progress_frames ps.
Proof. unfold progress_frames, progress_frame. cbn. by rewrite <- app_assoc. Qed.

Lemma progress_frames_app a b : progress_frames (a ++ b) = progress_frames a ++ progress_frames b.
Proof. unfold progress_frames. by rewrite fmap_app, concat_app. Qed.

Lemma length_flag_word f : length (flag_word f) = 4%nat.
Proof. apply length_be_bytes. Qed.

Lemma length_progress_wire p : length (progress_wire p) = Z.to_nat PROGRESS_MESSAGE_SIZE.
Proof. pose proof (zlength_progress_wire p). unfold zlength in *. lia. Qed.

Lemma decode_u32_be z : is_u32 z -> decode_u32 (be_bytes 4 z) = z.
Proof.
  intros H. unfold decode_u32. rewrite <- (app_nil_r (be_bytes 4 z)).
  by rewrite xdr_u_int_get_put.
Qed.

Lemma quiet_debug g m : quiet g (guestfs___debug g m).
Proof. unfold guestfs___debug. case_if; [done|]. apply quiet_call_callbacks_message. Qed.
#[export] Hint Resolve quiet_debug : guestfs.

Section spec.
Context {C : Type} `{ConnLaws C}.
Implicit Types l : lib C.

Definition lib_inbox l : list byte := match l_conn l with Some c => conn_inbox c | None => [] end.
Definition lib_outbox l : list byte := match l_conn l with Some c => conn_outbox c | None => [] end.
Definition lib_healthy l : Prop := match l_conn l with Some c => conn_healthy c | None => False end.

(** From [l] to [l'] exactly [din] was consumed and [dout] was handed over, on
    a connection that is still healthy. *)
Record exch (din dout : list byte) l l' : Prop := {
  ex_in : lib_inbox l = din ++ lib_inbox l';
  ex_out : lib_outbox l' = lib_outbox l ++ dout;
  ex_healthy : lib_healthy l';
  ex_calm : calm (l_g l) (l_g l')
}.

(** The same, with the local files and the cancellation flag untouched. *)
Record exch_io (din dout : list byte) l l' : Prop := {
  exi_exch : exch din dout l l';
  exi_io : l_io l' = l_io l;
  exi_cancel : g_user_cancel (l_g l') = g_user_cancel (l_g l)
}.

Lemma exch_refl l : lib_healthy l -> exch [] [] l l.
Proof. intros Hh. split; [done|by rewrite app_nil_r|done|reflexivity]. Qed.

Lemma exch_trans a b c d l1 l2 l3 :
  exch a b l1 l2 -> exch c d l2 l3 -> exch (a ++ c) (b ++ d) l1 l3.
Proof.
  intros [I1 O1 H1 C1] [I2 O2 H2 C2].
  split; [by rewrite I1, I2, app_assoc|by rewrite O2, O1, app_assoc|done|by etransitivity].
Qed.

Lemma exch_io_refl l : lib_healthy l -> exch_io [] [] l l.
Proof. intros Hh. split; [by apply exch_refl|done..]. Qed.

Lemma exch_io_trans a b c d l1 l2 l3 :
  exch_io a b l1 l2 -> exch_io c d l2 l3 -> exch_io (a ++ c) (b ++ d) l1 l3.
Proof. intros [] []. split; [by eapply exch_trans|congruence..]. Qed.

(** Steps on the handle alone. *)
Lemma exch_io_g l f : lib_healthy l -> quiet (l_g l) (f (l_g l)) ->
  exch_io [] [] l (upd l_g f l).
Proof.
  intros Hh Hq. split; [|done|by destruct Hq].
  split; [done|by unfold lib_outbox; rewrite app_nil_r|done|by apply quiet_calm].
Qed.

Lemma on_read_data l n a b : lib_healthy l -> lib_inbox l = a ++ b -> length a = n -> (0 < n)%nat ->
  exists l', on_conn (read_data n) l = (Ret (Z.of_nat n, a), l') /\ exch_io a [] l l'.
Proof.
  unfold lib_healthy, lib_inbox, on_conn. destruct l as [g [c|] io]; cbn; [|done].
  intros Hh Hi Hl Hn.
  destruct (read_data_ok g c n Hh) as (g' & c' & -> & Ei & Eo & Hh' & Hq).
  { rewrite Hi, length_app. lia. }
  rewrite Hi, take_app_exact in * by done. eexists. split; [done|].
  split; [|done|by destruct Hq]. unfold lib_inbox, lib_outbox. split; cbn; auto with guestfs.
  - by rewrite Ei, Hi, drop_app_exact.
  - by rewrite Eo, app_nil_r.
Qed.

Lemma on_write_data l bs : lib_healthy l -> bs <> [] ->
  exists l', on_conn (write_data bs) l = (Ret (zlength bs), l') /\ exch_io [] bs l l'.
Proof.
  unfold lib_healthy, on_conn. destruct l as [g [c|] io]; cbn; [|done].
  intros Hh Hb.
  destruct (write_data_ok g c bs Hh Hb) as (g' & c' & -> & Eo & Ei & Hh' & Hq).
  eexists. split; [done|]. split; [|done|by destruct Hq].
  unfold lib_inbox, lib_outbox. split; cbn; auto with guestfs.
Qed.

Lemma on_can_read_data l : lib_healthy l ->
  exists r l', on_conn can_read_data l = (Ret r, l') /\ exch_io [] [] l l' /\
    (r = 0 \/ r = 1 /\ lib_inbox l <> []).
Proof.
  unfold lib_healthy, on_conn. destruct l as [g [c|] io]; cbn; [|done].
  intros Hh.
  destruct (can_read_data_ok g c Hh) as (r & c' & -> & Hr & Ei & Eo & Hh').
  do 2 eexists. split_and!; [done| |done]. split; [|done..].
  unfold lib_inbox, lib_outbox. split; cbn; [done|by rewrite app_nil_r|done|reflexivity].
Qed.

(** ** Progress messages *)

Lemma handle_progress_spec p l : progress_typed p -> lib_healthy l ->
  handle_progress (progress_wire p) l = (Ret tt, upd l_g (progress_callback p) l) /\
  exch_io [] [] l (upd l_g (progress_callback p) l).
Proof.
  intros Ht Hh. unfold handle_progress. rewrite <- (app_nil_r (progress_wire p)).
  rewrite progress_get by done. split; [done|].
  apply exch_io_g; [done|]. apply quiet_progress_message_callback.
Qed.

(** ** check_daemon_socket *)

(** One message at the head of the stream. *)
Lemma on_read_flag l f rest : lib_healthy l -> lib_inbox l = flag_word f ++ rest ->
  exists l', on_conn (read_data 4) l = (Ret (4, flag_word f), l') /\
    exch_io (flag_word f) [] l l' /\ lib_inbox l' = rest.
Proof.
  intros Hh Hi. destruct (on_read_data l 4 _ _ Hh Hi) as (l' & E & Hx);
    [apply length_flag_word|lia|].
  exists l'. split_and!; [done..|]. pose proof (ex_in _ _ _ _ (exi_exch _ _ _ _ Hx)) as Ei.
  rewrite Hi in Ei. by apply app_inv_head in Ei.
Qed.

Lemma exch_io_inbox a b l l' rest :
  exch_io a b l l' -> lib_inbox l = a ++ rest -> lib_inbox l' = rest.
Proof. intros [[Hi _ _ _] _ _] E. rewrite E in Hi. by apply app_inv_head in Hi. Qed.

Lemma exch_io_healthy a b l l' : exch_io a b l l' -> lib_healthy l'.
Proof. by intros [[]]. Qed.

Lemma read_progress l p rest : progress_typed p -> lib_healthy l ->
  lib_inbox l = progress_wire p ++ rest ->
  exists l', on_conn (read_data (Z.to_nat PROGRESS_MESSAGE_SIZE)) l =
      (Ret (PROGRESS_MESSAGE_SIZE, progress_wire p), l') /\
    exch_io (progress_wire p) [] l l' /\ lib_inbox l' = rest.
Proof.
  intros Hp Hh Hi. destruct (on_read_data l _ _ _ Hh Hi (length_progress_wire p)) as (l' & E & Hx).
  { unfold PROGRESS_MESSAGE_SIZE. lia. }
  exists l'. split_and!; [done..|]. by eapply exch_io_inbox.
Qed.

(** What the daemon may send while the library writes: progress messages, then
    at most one cancellation. *)
Definition cancel_words (cancel : bool) : list byte :=
  if cancel then flag_word GUESTFS_CANCEL_FLAG else [].

Lemma check_daemon_loop_spec : forall fuel ps cancel l,
  lib_healthy l -> Forall progress_typed ps ->
  lib_inbox l = progress_frames ps ++ cancel_words cancel -> (length ps < fuel)%nat ->
  exists r l', check_daemon_loop fuel l = (Ret r, l') /\
    ((r = 1 /\ exists ps1 ps2, ps = ps1 ++ ps2 /\ exch_io (progress_frames ps1) [] l l') \/
     (r = -2 /\ cancel = true /\
      exch_io (progress_frames ps ++ flag_word GUESTFS_CANCEL_FLAG) [] l l')).
Proof.
  induction fuel as [|fuel IH]; intros ps cancel l Hh Hps Hi Hf; [lia|]. cbn [check_daemon_loop].
  destruct (on_can_read_data l Hh) as (r & l1 & E1 & X1 & Hr). mstep E1.
  pose proof (exch_io_healthy _ _ _ _ X1) as Hh1.
  pose proof (exch_io_inbox _ _ _ _ _ X1 eq_refl) as Hi1. rewrite Hi in Hi1.
  destruct Hr as [->|[-> Hne]].
  { exists 1, l1. split; [done|]. left. split; [done|]. by exists [], ps. }
  destruct ps as [|p ps]; cbn [Z.eqb].
  - destruct cancel; [|by rewrite Hi in Hne].
    rewrite <- (app_nil_r (progress_frames [] ++ _)) in Hi1.
    destruct (on_read_flag l1 _ _ Hh1 Hi1) as (l2 & E2 & X2 & _). mstep E2.
    exists (-2), l2. split; [done|]. right. split_and!; [done..|]. exact (exch_io_trans _ _ _ _ _ _ _ X1 X2).
  - inversion Hps; subst. rewrite progress_frames_cons in Hi1. rewrite <- !app_assoc in Hi1.
    destruct (on_read_flag l1 _ _ Hh1 Hi1) as (l2 & E2 & X2 & Hi2). mstep E2.
    pose proof (exch_io_healthy _ _ _ _ X2) as Hh2.
    unfold flag_word. rewrite decode_u32_be by done. cbn [Z.leb Z.eqb Z.compare]. rewrite Z.eqb_refl.
    destruct (read_progress l2 _ _ ltac:(done) Hh2 Hi2) as (l3 & E3 & X3 & Hi3). mstep E3.
    pose proof (exch_io_healthy _ _ _ _ X3) as Hh3.
    destruct (handle_progress_spec p l3) as [E4 X4]; [done..|]. cbn [Z.leb Z.compare PROGRESS_MESSAGE_SIZE].
    mstep E4. pose proof (exch_io_healthy _ _ _ _ X4) as Hh4.
    destruct (IH ps cancel _ Hh4) as (r & l5 & -> & Hr); [done|by rewrite <- Hi3|cbn in Hf; lia|].
    exists r, l5. split; [done|].
    assert (exch_io (flag_word GUESTFS_PROGRESS_FLAG ++ progress_wire p) [] l
      (upd l_g (progress_callback p) l3)) as X.
    { eapply exch_io_trans in X4; [|exact X3]. eapply exch_io_trans in X4; [|exact X2].
      eapply exch_io_trans in X4; [|exact X1]. by rewrite app_nil_r in X4. }
    destruct Hr as [(-> & ps1 & ps2 & -> & X5)|(-> & -> & X5)]; [left|right]; split_and!; auto.
    + exists (p :: ps1), ps2. split; [done|]. rewrite progress_frames_cons, app_assoc.
      exact (exch_io_trans _ _ _ _ _ _ _ X X5).
    + rewrite progress_frames_cons, <- app_assoc, app_assoc, <- app_assoc.
      exact (exch_io_trans _ _ _ _ _ _ _ X X5).
Qed.

Lemma length_progress_frames ps : (length ps <= length (progress_frames ps))%nat.
Proof.
  induction ps as [|p ps IH]; [done|]. rewrite progress_frames_cons, !length_app, length_flag_word.
  cbn. lia.
Qed.

Lemma lib_budget_inbox l c : l_conn l = Some c -> (length (lib_inbox l) <= conn_budget c)%nat.
Proof. intros E. unfold lib_inbox. rewrite E. apply conn_budget_inbox. Qed.

Lemma check_daemon_socket_spec ps cancel l :
  lib_healthy l -> Forall progress_typed ps ->
  lib_inbox l = progress_frames ps ++ cancel_words cancel ->
  exists r l', check_daemon_socket l = (Ret r, l') /\
    ((r = 1 /\ exists ps1 ps2, ps = ps1 ++ ps2 /\ exch_io (progress_frames ps1) [] l l') \/
     (r = -2 /\ cancel = true /\
      exch_io (progress_frames ps ++ flag_word GUESTFS_CANCEL_FLAG) [] l l')).
Proof.
  intros Hh Hps Hi. unfold check_daemon_socket.
  destruct (l_conn l) as [c|] eqn:Ec; [|unfold lib_healthy in Hh; by rewrite Ec in Hh].
  apply check_daemon_loop_spec; [done..|].
  pose proof (lib_budget_inbox l c Ec) as Hb. rewrite Hi, length_app in Hb.
  pose proof (length_progress_frames ps). lia.
Qed.

(** ** Sending *)

Lemma write_message_spec bs ok l : lib_healthy l -> bs <> [] ->
  exists l', write_message bs ok l = (Ret ok, l') /\ exch_io [] bs l l'.
Proof.
  intros Hh Hb. unfold write_message.
  destruct (on_write_data l bs Hh Hb) as (l' & E & X). mstep E.
  assert (0 < zlength bs) by (destruct bs; [done|unfold zlength; cbn; lia]).
  destruct (Z.eqb_spec (zlength bs) (-1)); [lia|]. destruct (Z.eqb_spec (zlength bs) 0); [lia|].
  by exists l'.
Qed.

Definition chunk_frame (c : guestfs_chunk) : list byte := frame (chunk_wire c).

Lemma frame_not_nil m : frame m <> [].
Proof. unfold frame. intros E%(f_equal length). rewrite length_app, length_be_bytes in E. cbn in E. lia. Qed.

(** A chunk is written whole, unless a cancellation was received first. *)
Lemma send_file_chunk_spec ps cancel ch l :
  lib_healthy l -> Forall progress_typed ps -> chunk_fits ch = true ->
  lib_inbox l = progress_frames ps ++ cancel_words cancel ->
  exists r l', send_file_chunk (chunk_cancel ch) (chunk_data ch) l = (Ret r, l') /\
    ((r = 0 /\ exists ps1 ps2, ps = ps1 ++ ps2 /\
        exch_io (progress_frames ps1) (chunk_frame ch) l l' /\
        lib_inbox l' = progress_frames ps2 ++ cancel_words cancel) \/
     (r = -2 /\ cancel = true /\ lib_inbox l' = [] /\
      exch_io (progress_frames ps ++ flag_word GUESTFS_CANCEL_FLAG) [] l l')).
Proof.
  intros Hh Hps Hfit Hi. unfold send_file_chunk. destruct ch as [cn data]. cbn [chunk_cancel chunk_data].
  destruct (chunk_put _ Hfit) as (x & -> & Ex). rewrite Ex.
  unfold xdr_getpos. rewrite Ex. fold (frame (chunk_wire (mk_chunk cn data))).
  destruct (check_daemon_socket_spec ps cancel l Hh Hps Hi) as (r & l1 & E1 & Hr). mstep E1.
  destruct Hr as [(-> & ps1 & ps2 & -> & X1)|(-> & -> & X1)]; cbn [Z.eqb Pos.eqb].
  - pose proof (exch_io_healthy _ _ _ _ X1) as Hh1.
    destruct (write_message_spec (frame (chunk_wire (mk_chunk cn data))) 0 l1 Hh1)
      as (l2 & -> & X2); [apply frame_not_nil|].
    exists 0, l2. split; [done|]. left. split; [done|]. exists ps1, ps2. split; [done|].
    pose proof (exch_io_trans _ _ _ _ _ _ _ X1 X2) as X. rewrite app_nil_r in X.
    split; [exact X|]. eapply exch_io_inbox; [exact X|].
    by rewrite Hi, progress_frames_app, app_assoc.
  - pose proof (exch_io_healthy _ _ _ _ X1) as Hh1.
    mstep (eq_refl : on_g (fun g => guestfs___debug g "got daemon cancellation") l1 = _).
    assert (exch_io [] [] l1 (upd l_g (fun g => guestfs___debug g "got daemon cancellation") l1)) as X2
      by (apply exch_io_g; auto with guestfs).
    do 2 eexists. split; [done|]. right.
    pose proof (exch_io_trans _ _ _ _ _ _ _ X1 X2) as X. rewrite app_nil_r in X.
    split_and!; [done..| |exact X].
    eapply exch_io_inbox; [exact X|]. by rewrite Hi, app_nil_r.
Qed.

(** *** Sending a file *)

(** The blocks of a file as [guestfs___send_file] cuts it. *)
Definition block_ok (d : list byte) : Prop := d <> [] /\ zlength d <= GUESTFS_MAX_CHUNK_SIZE.
Definition data_frames (ds : list (list byte)) : list byte :=
  concat ((fun d => chunk_frame (mk_chunk 0 d)) <$> ds).
Definition complete_frame : list byte := chunk_frame (mk_chunk 0 []).
Definition cancel_frame : list byte := chunk_frame (mk_chunk 1 []).

(** No local failure: the reads succeed and nobody cancels. *)
Record upload_good l : Prop := {
  ug_read : Forall good_read (io_read (l_io l));
  ug_cancel : Forall (eq false) (io_cancel (l_io l));
  ug_flag : g_user_cancel (l_g l) = false
}.

Lemma read_user_cancel_spec l : lib_healthy l ->
  exists b l', read_user_cancel l = (Ret b, l') /\ exch [] [] l l' /\
    g_user_cancel (l_g l') = b /\ (g_user_cancel (l_g l) = true -> b = true) /\
    io_read (l_io l') = io_read (l_io l) /\ io_close (l_io l') = io_close (l_io l) /\
    io_write (l_io l') = io_write (l_io l) /\ io_data (l_io l') = io_data (l_io l) /\
    (upload_good l -> b = false /\ upload_good l').
Proof.
  intros Hh. unfold read_user_cancel.
  destruct (io_cancel (l_io l)) as [|b bs] eqn:E; do 2 eexists; (split; [reflexivity|]); split_and!;
    try done; try (by intros ->); try (split; [done|by unfold lib_outbox; rewrite app_nil_r|done|by split]).
  - intros [H1 H2 H3]. rewrite H3. done.
  - intros [H1 H2 H3]. rewrite E in H2. inversion H2; subst. rewrite H3. done.
Qed.

Lemma file_read_spec n q e q' : (0 < n)%nat -> file_read n q = (e, q') ->
  match e with
  | RdData bs => script_data q = bs ++ script_data q' /\ (length bs <= n)%nat /\
                 (bs <> [] -> (script_size q' < script_size q)%nat) /\
                 (bs = [] -> script_data q = [])
  | RdErr e => retry e = true -> script_data q' = script_data q /\
                 (script_size q' < script_size q)%nat
  end /\ (Forall good_read q -> Forall good_read q' /\ (e = RdData [] \/ good_read e)).
Proof.
  intros Hn. destruct q as [|e0 q0].
  { cbn. intros [= <- <-]. split_and!; [done|cbn; lia|done|done|by split; [|left]]. }
  cbn [file_read]. intros E. pose proof (sys_read_spec n _ _ _ Hn E) as Hs. split.
  - destruct e as [bs|e].
    + destruct Hs as (? & ? & ?). split_and!; auto. intros ->.
      eapply sys_read_fatal; [exact Hn|exact E|]. cbn. tauto.
    + intros Hr. destruct (Hs Hr). auto.
  - intros Hg. destruct (sys_read_good n _ _ _ Hg Hn E). auto.
Qed.

Lemma send_file_cancellation_idle l : lib_healthy l -> lib_inbox l = [] ->
  exists l', send_file_cancellation l = (Ret 0, l') /\ exch_io [] cancel_frame l l' /\ lib_inbox l' = [].
Proof.
  intros Hh Hi.
  destruct (send_file_chunk_spec [] false (mk_chunk 1 []) l) as (r & l' & E & Hr); [done..|].
  destruct Hr as [(-> & ps1 & ps2 & Hn & X & Hi')|(_ & ? & _)]; [|done].
  symmetry in Hn. apply app_eq_nil in Hn as [-> ->]. by exists l'.
Qed.

Lemma exch_upd_io l f : lib_healthy l -> exch [] [] l (upd l_io f l).
Proof. intros Hh. split; [done|by unfold lib_outbox; rewrite app_nil_r|done|reflexivity]. Qed.

Lemma exch_inbox a b l l' rest : exch a b l l' -> lib_inbox l = a ++ rest -> lib_inbox l' = rest.
Proof. intros [Hi _ _ _] E. rewrite E in Hi. by apply app_inv_head in Hi. Qed.

Lemma data_frames_cons d ds : data_frames (d :: ds) = chunk_frame (mk_chunk 0 d) ++ data_frames ds.
Proof. done. Qed.

(** How the loop is left: the blocks [ds] have been sent; [ps1] is what was
    received meanwhile. *)
Definition send_loop_result (ps : list guestfs_progress) (cancel : bool) (ds : list (list byte))
    l l' (res : Z * Z + Z) : Prop :=
  match res with
  | inl (r, _) => exists ps1 ps2, ps = ps1 ++ ps2 /\
      exch (progress_frames ps1) (data_frames ds) l l' /\
      lib_inbox l' = progress_frames ps2 ++ cancel_words cancel /\
      (r <> -1 -> g_user_cancel (l_g l') = false -> concat ds = script_data (io_read (l_io l))) /\
      (upload_good l -> r = 0 /\ upload_good l')
  | inr err => err = -2 /\ cancel = true /\ lib_inbox l' = [] /\
      exch (progress_frames ps ++ flag_word GUESTFS_CANCEL_FLAG) (data_frames ds ++ cancel_frame) l l'
  end.

(** Prepend a block that was sent from [l] to [l1]. *)
Lemma send_loop_result_step ps1 ps2 cancel d ds l l1 l' res :
  exch (progress_frames ps1) (chunk_frame (mk_chunk 0 d)) l l1 ->
  script_data (io_read (l_io l)) = d ++ script_data (io_read (l_io l1)) ->
  (upload_good l -> upload_good l1) ->
  send_loop_result ps2 cancel ds l1 l' res ->
  send_loop_result (ps1 ++ ps2) cancel (d :: ds) l l' res.
Proof.
  intros X Hd Hg. destruct res as [[r e]|err]; cbn [send_loop_result].
  - intros (a & b & -> & X1 & Hi & Hr & Hgood). exists (ps1 ++ a), b.
    rewrite progress_frames_app, data_frames_cons, <- app_assoc. split_and!; auto.
    + exact (exch_trans _ _ _ _ _ _ _ X X1).
    + intros H1 H2. cbn. by rewrite Hd, Hr.
  - intros (-> & -> & Hi & X1). split_and!; [done..|].
    rewrite progress_frames_app, data_frames_cons, <- !app_assoc.
    exact (exch_trans _ _ _ _ _ _ _ X X1).
Qed.

(** Steps that send nothing. *)
Lemma send_loop_result_silent ps cancel ds l l1 l' res :
  exch [] [] l l1 -> script_data (io_read (l_io l1)) = script_data (io_read (l_io l)) ->
  (upload_good l -> upload_good l1) ->
  send_loop_result ps cancel ds l1 l' res -> send_loop_result ps cancel ds l l' res.
Proof.
  intros X Hd Hg. destruct res as [[r e]|err]; cbn [send_loop_result].
  - intros (a & b & -> & X1 & Hi & Hr & Hgood). exists a, b. split_and!; auto.
    + exact (exch_trans _ _ _ _ _ _ _ X X1).
    + intros H1 H2. by rewrite <- Hd, Hr.
  - intros (-> & -> & Hi & X1). split_and!; [done..|]. exact (exch_trans _ _ _ _ _ _ _ X X1).
Qed.

(** The loop stops here, with no block sent. *)
Lemma send_loop_result_nil ps cancel l r e :
  lib_healthy l -> lib_inbox l = progress_frames ps ++ cancel_words cancel ->
  (r <> -1 -> g_user_cancel (l_g l) = false -> script_data (io_read (l_io l)) = []) ->
  (upload_good l -> r = 0) -> send_loop_result ps cancel [] l l (inl (r, e)).
Proof.
  intros Hh Hi Hr Hg. exists [], ps. split_and!; auto.
  - by apply exch_refl.
  - intros. by rewrite Hr.
Qed.

(** A block was read: it is sent and the loop goes on, or the daemon cancelled. *)
Lemma send_block_spec fuel e0 ps cancel buf l :
  lib_healthy l -> Forall progress_typed ps -> lib_inbox l = progress_frames ps ++ cancel_words cancel ->
  block_ok buf ->
  (forall ps2 l3, lib_healthy l3 -> Forall progress_typed ps2 ->
     lib_inbox l3 = progress_frames ps2 ++ cancel_words cancel -> io_read (l_io l3) = io_read (l_io l) ->
     exists res l' ds, send_file_loop fuel (zlength buf) e0 l3 = (Ret res, l') /\
       io_close (l_io l') = io_close (l_io l3) /\ Forall block_ok ds /\ send_loop_result ps2 cancel ds l3 l' res) ->
  exists res l' ds,
    (err <- send_file_data buf ;;
     if err <? 0 then
       (if err =? -2 then (send_file_cancellation ;;; ret tt) else ret tt) ;;; ret (inr err)
     else send_file_loop fuel (zlength buf) e0) l = (Ret res, l') /\
    io_close (l_io l') = io_close (l_io l) /\ Forall block_ok ds /\
    (forall l0, exch [] [] l0 l -> script_data (io_read (l_io l0)) = buf ++ script_data (io_read (l_io l)) ->
       (upload_good l0 -> upload_good l) -> send_loop_result ps cancel ds l0 l' res).
Proof.
  intros Hh Hps Hi Hbl IH.
  destruct (send_file_chunk_spec ps cancel (mk_chunk 0 buf) l) as (r & l3 & E3 & Hr);
    [done..|by apply Z.leb_le, Hbl|done|]. cbn [chunk_cancel chunk_data] in E3.
  change (send_file_data buf) with (send_file_chunk 0 buf). mstep E3.
  destruct Hr as [(-> & ps1 & ps2 & -> & X3 & Hi3)|(-> & -> & Hi3 & X3)]; cbn [Z.ltb Z.compare Z.eqb Pos.eqb].
  - assert (io_read (l_io l3) = io_read (l_io l)) as Hq3 by by rewrite (exi_io _ _ _ _ X3).
    apply Forall_app in Hps as [_ Hps2].
    destruct (IH ps2 l3) as (res & l' & ds & E4 & Hc & Hds & Hres); [eapply exch_io_healthy, X3|done..|].
    exists res, l', (buf :: ds). split_and!; [exact E4|by rewrite Hc, (exi_io _ _ _ _ X3)|by constructor|].
    intros l0 X2 Hd Hg. eapply send_loop_result_step; [..|exact Hres].
    + exact (exch_trans _ _ _ _ _ _ _ X2 (exi_exch _ _ _ _ X3)).
    + by rewrite Hq3.
    + intros [H1 H2 H3]%Hg. destruct X3 as [_ Hio Hcf]. split; rewrite ?Hio, ?Hcf; done.
  - destruct (send_file_cancellation_idle l3) as (l4 & E4 & X4 & Hi4); [eapply exch_io_healthy, X3|done|].
    exists (inr (-2)), l4, []. unfold bind at 1 2. rewrite E4.
    split_and!; [done|by rewrite (exi_io _ _ _ _ X4), (exi_io _ _ _ _ X3)|constructor|].
    intros l0 X2 _ _. split_and!; [done..|].
    pose proof (exch_trans _ _ _ _ _ _ _ (exi_exch _ _ _ _ X3) (exi_exch _ _ _ _ X4)) as X.
    rewrite app_nil_r in X. exact (exch_trans _ _ _ _ _ _ _ X2 X).
Qed.

Lemma send_file_loop_spec : forall fuel r0 e0 ps cancel l,
  lib_healthy l -> Forall progress_typed ps ->
  lib_inbox l = progress_frames ps ++ cancel_words cancel ->
  (script_size (io_read (l_io l)) < fuel)%nat ->
  exists res l' ds, send_file_loop fuel r0 e0 l = (Ret res, l') /\
    io_close (l_io l') = io_close (l_io l) /\ Forall block_ok ds /\
    send_loop_result ps cancel ds l l' res.
Proof.
  induction fuel as [|fuel IH]; intros r0 e0 ps cancel l Hh Hps Hi Hf; [lia|]. cbn [send_file_loop].
  destruct (read_user_cancel_spec l Hh) as (b & l1 & E1 & X1 & Hb & _ & Hr1 & Hc1 & _ & _ & Hg1).
  mstep E1. pose proof (ex_healthy _ _ _ _ X1) as Hh1.
  pose proof (exch_inbox _ _ _ _ _ X1 Hi) as Hi1.
  assert (forall ds l' res, send_loop_result ps cancel ds l1 l' res ->
            send_loop_result ps cancel ds l l' res) as Hsil.
  { intros ds l' res. apply send_loop_result_silent; [done|by rewrite Hr1|]. intros. by apply Hg1. }
  destruct b.
  { exists (inl (r0, e0)), l1, []. split_and!; [done..|constructor|]. apply Hsil.
    apply send_loop_result_nil; [done..|congruence|]. intros [_ _ E]. congruence. }
  destruct (file_read (Z.to_nat GUESTFS_MAX_CHUNK_SIZE) (io_read (l_io l1))) as [ev q] eqn:Er.
  apply file_read_spec in Er as [Hev Hq]; [|unfold GUESTFS_MAX_CHUNK_SIZE; lia].
  set (l2 := l1 <| l_io; io_read := q |>).
  assert (exch [] [] l1 l2) as X2 by by apply exch_upd_io.
  assert (upload_good l1 -> upload_good l2) as Hg2.
  { intros [H1 H2 H3]. split; [by apply Hq|done..]. }
  destruct ev as [[|b0 bs]|errnum].
  - exists (inl (0, e0)), l2, []. split_and!; [done..|constructor|]. apply Hsil.
    apply (send_loop_result_silent _ _ _ l1 l2); auto.
    { destruct Hev as (E & _ & _ & Hz). cbn. specialize (Hz eq_refl). rewrite Hz in E. by rewrite Hz. }
    apply send_loop_result_nil; [done..| |done]. intros _ _. cbn.
    destruct Hev as (E & _ & _ & Hz). rewrite (Hz eq_refl) in E. by destruct (script_data q).
  - set (buf := b0 :: bs) in *. destruct Hev as (Hd & Hl & Hs & _).
    assert (block_ok buf) as Hbl.
    { split; [done|]. unfold zlength, GUESTFS_MAX_CHUNK_SIZE in *. lia. }
    destruct (send_block_spec fuel e0 ps cancel buf l2) as (res & l' & ds & E4 & Hc & Hds & Hres); [done..| |].
    { intros ps2 l3 Hh3 Hps2 Hi3 Hq3. apply IH; [done..|]. rewrite Hq3. cbn.
      rewrite Hr1 in Hs. specialize (Hs ltac:(done)). lia. }
    exists res, l', ds. split_and!; [exact E4|by rewrite Hc|done|]. apply Hsil, Hres; [done| |done].
    exact Hd.
  - destruct (retry errnum) eqn:Ert.
    + destruct (Hev eq_refl) as [Hd Hs].
      destruct (IH (-1) errnum ps cancel l2) as (res & l' & ds & E4 & Hc & Hds & Hres);
        [done..|cbn; rewrite Hr1 in Hs; lia|].
      exists res, l', ds. split_and!; [done|by rewrite Hc|done|].
      apply Hsil. by apply (send_loop_result_silent _ _ _ l1 l2).
    + exists (inl (-1, errnum)), l2, []. split_and!; [done..|constructor|]. apply Hsil.
      exists [], ps. split_and!; [done|exact X2|done|done|].
      intros [Hg _ _]. destruct (Hq Hg) as [_ [?|Hbad]]; [done|]. cbn in Hbad. congruence.
Qed.

(** The failure exits: report, then terminate the stream with a cancellation;
    when a cancellation of the daemon is found instead, nothing is sent. *)
Lemma send_file_fail f ps cancel l :
  lib_healthy l -> Forall progress_typed ps -> lib_inbox l = progress_frames ps ++ cancel_words cancel ->
  (forall g, quiet g (f g)) ->
  exists l', (on_g f ;;; send_file_cancellation ;;; ret (-1)) l = (Ret (-1), l') /\
    ((exists ps1 ps2, ps = ps1 ++ ps2 /\ exch (progress_frames ps1) cancel_frame l l') \/
     cancel = true /\ lib_inbox l' = [] /\ exch (progress_frames ps ++ flag_word GUESTFS_CANCEL_FLAG) [] l l').
Proof.
  intros Hh Hps Hi Hf.
  assert (exch_io [] [] l (upd l_g f l)) as X1 by by apply exch_io_g.
  destruct (send_file_chunk_spec ps cancel (mk_chunk 1 []) (upd l_g f l)) as (r & l' & E & Hr); [done..|].
  exists l'. mstep (eq_refl : on_g f l = _). unfold send_file_cancellation. mstep E.
  destruct Hr as [(-> & ps1 & ps2 & -> & X & _)|(-> & -> & Hi' & X)]; (split; [done|]); [left; exists ps1, ps2|right].
  - split; [done|]. exact (exch_trans _ _ _ _ _ _ _ (exi_exch _ _ _ _ X1) (exi_exch _ _ _ _ X)).
  - split_and!; [done..|]. exact (exch_trans _ _ _ _ _ _ _ (exi_exch _ _ _ _ X1) (exi_exch _ _ _ _ X)).
Qed.

Record local_upload_good (io : file_io) : Prop := {
  lug_open : io_open io = None;
  lug_read : Forall good_read (io_read io);
  lug_close : io_close io = None;
  lug_cancel : Forall (eq false) (io_cancel io)
}.

(** The four ways [guestfs___send_file] ends on a healthy connection. *)
Inductive send_file_end (ps : list guestfs_progress) (cancel : bool) (ds : list (list byte)) l l' :
    Z -> Prop :=
  | send_completed ps1 ps2 :
      ps = ps1 ++ ps2 -> concat ds = script_data (io_read (l_io l)) ->
      exch (progress_frames ps1) (data_frames ds ++ complete_frame) l l' ->
      send_file_end ps cancel ds l l' 0
  | send_failed ps1 ps2 :
      ps = ps1 ++ ps2 -> ~ local_upload_good (l_io l) ->
      exch (progress_frames ps1) (data_frames ds ++ cancel_frame) l l' ->
      send_file_end ps cancel ds l l' (-1)
  | send_cancelled :
      cancel = true -> lib_inbox l' = [] ->
      exch (progress_frames ps ++ flag_word GUESTFS_CANCEL_FLAG) (data_frames ds ++ cancel_frame) l l' ->
      send_file_end ps cancel ds l l' (-2)
  | send_lost :
      cancel = true -> ~ local_upload_good (l_io l) -> lib_inbox l' = [] ->
      exch (progress_frames ps ++ flag_word GUESTFS_CANCEL_FLAG) (data_frames ds) l l' ->
      send_file_end ps cancel ds l l' (-1).

(** The last part, after the file was read to its end: send the completion. *)
Lemma send_file_finish ps cancel l :
  lib_healthy l -> Forall progress_typed ps ->
  lib_inbox l = progress_frames ps ++ cancel_words cancel ->
  exists r l', (err <- send_file_complete ;;
      if err <? 0 then
        (if err =? -2 then (send_file_cancellation ;;; ret tt) else ret tt) ;;; ret err
      else ret 0) l = (Ret r, l') /\
    (r = 0 /\ (exists ps1 ps2, ps = ps1 ++ ps2 /\ exch (progress_frames ps1) complete_frame l l') \/
     r = -2 /\ cancel = true /\ lib_inbox l' = [] /\
     exch (progress_frames ps ++ flag_word GUESTFS_CANCEL_FLAG) cancel_frame l l').
Proof.
  intros Hh Hps Hi.
  destruct (send_file_chunk_spec ps cancel (mk_chunk 0 []) l) as (r & l1 & E & Hr); [done..|].
  unfold send_file_complete. cbn [chunk_cancel chunk_data] in E. mstep E.
  destruct Hr as [(-> & ps1 & ps2 & -> & X & _)|(-> & -> & Hi1 & X)]; cbn [Z.ltb Z.compare Z.eqb Pos.eqb].
  - exists 0, l1. split; [done|]. left. split; [done|]. exists ps1, ps2. by destruct X.
  - destruct (send_file_cancellation_idle l1) as (l2 & E2 & X2 & Hi2); [eapply exch_io_healthy, X|done|].
    exists (-2), l2. unfold bind. rewrite E2. split; [done|]. right. split_and!; [done..|].
    pose proof (exch_io_trans _ _ _ _ _ _ _ X X2) as [X3 _ _]. by rewrite app_nil_r in X3.
Qed.

Lemma quiet_user_cancelled g :
  quiet g ((error g "operation cancelled by user") <| g_errs; last_errnum := EINTR |>).
Proof. pose proof (quiet_error g "operation cancelled by user") as []. by split. Qed.

(** A failure exit, from the state [l1] that the loop (or nothing) left. *)
Lemma send_file_fail_from f l l0 l1 ds ps1 ps2 cancel :
  exch [] [] l l0 -> exch (progress_frames ps1) (data_frames ds) l0 l1 ->
  lib_inbox l1 = progress_frames ps2 ++ cancel_words cancel -> Forall progress_typed (ps1 ++ ps2) ->
  ~ local_upload_good (l_io l) -> (forall g, quiet g (f g)) -> Forall block_ok ds ->
  exists r l' ds, (on_g f ;;; send_file_cancellation ;;; ret (-1)) l1 = (Ret r, l') /\
    Forall block_ok ds /\ send_file_end (ps1 ++ ps2) cancel ds l l' r.
Proof.
  intros X0 X1 Hi1 Hps Hbad Hf Hds. apply Forall_app in Hps as [_ Hps2].
  destruct (send_file_fail f ps2 cancel l1) as (l' & E & Hr); [by destruct X1|done..|].
  exists (-1), l', ds. split_and!; [done..|].
  destruct Hr as [(a & b & -> & X2)|(-> & Hi' & X2)];
    pose proof (exch_trans _ _ _ _ _ _ _ X0 (exch_trans _ _ _ _ _ _ _ X1 X2)) as X; cbn [app] in X.
  - eapply (send_failed _ _ _ _ _ (ps1 ++ a) b); [by rewrite app_assoc|done|]. by rewrite progress_frames_app.
  - rewrite app_nil_r in X. apply send_lost; [done..|]. by rewrite progress_frames_app, <- app_assoc.
Qed.

Lemma send_file_spec fn ps cancel l :
  lib_healthy l -> Forall progress_typed ps ->
  lib_inbox l = progress_frames ps ++ cancel_words cancel ->
  exists r l' ds, guestfs___send_file fn l = (Ret r, l') /\ Forall block_ok ds /\
    send_file_end ps cancel ds l l' r.
Proof.
  intros Hh Hps Hi. unfold guestfs___send_file.
  set (l0 := l <| l_g; g_user_cancel := false |>).
  assert (exch [] [] l l0) as X0.
  { split; [done|by unfold lib_outbox; rewrite app_nil_r|done|by split]. }
  assert (forall f l1 ds ps1 ps2, ~ local_upload_good (l_io l) -> (forall g, quiet g (f g)) ->
    ps = ps1 ++ ps2 -> exch (progress_frames ps1) (data_frames ds) l0 l1 ->
    lib_inbox l1 = progress_frames ps2 ++ cancel_words cancel -> Forall block_ok ds ->
    exists r l' ds, (on_g f ;;; send_file_cancellation ;;; ret (-1)) l1 = (Ret r, l') /\
      Forall block_ok ds /\ send_file_end ps cancel ds l l' r) as Hfail.
  { intros f l1 ds ps1 ps2 ? ? -> ? ? ?. by eapply send_file_fail_from. }
  destruct (io_open (l_io l0)) as [e|] eqn:Eo.
  { apply (Hfail _ l0 [] [] ps); auto with guestfs.
    - intros [H1 _ _ _]. cbn in Eo. congruence.
    - by apply exch_refl. }
  destruct (send_file_loop_spec (S (script_size (io_read (l_io l0)))) 0 0 ps cancel l0)
    as (res & l1 & ds & E1 & Hcl & Hds & Hres); [done..|lia|]. mstep E1.
  destruct res as [[r errnum]|err]; cbn [send_loop_result] in Hres.
  2: { destruct Hres as (-> & -> & Hi1 & X1). exists (-2), l1, ds. split_and!; [done..|].
       apply send_cancelled; [done..|]. exact (exch_trans _ _ _ _ _ _ _ X0 X1). }
  destruct Hres as (ps1 & ps2 & Eps & X1 & Hi1 & Hdata & Hgood).
  assert (local_upload_good (l_io l) -> r = 0 /\ upload_good l1) as Hg.
  { intros [H1 H2 H3 H4]. by apply Hgood. }
  destruct (Z.eqb_spec r (-1)) as [->|Hr].
  { apply (Hfail _ l1 ds ps1 ps2); auto with guestfs. intros [? _]%Hg. lia. }
  destruct (read_user_cancel_spec l1) as (b & l2 & E2 & X2 & Hb & Hb1 & Hr2 & Hc2 & _ & _ & Hg2);
    [by destruct X1|]. mstep E2.
  pose proof (exch_trans _ _ _ _ _ _ _ X1 X2) as X12. rewrite !app_nil_r in X12.
  pose proof (exch_inbox _ _ _ _ _ X2 Hi1) as Hi2.
  destruct b.
  { apply (Hfail _ l2 ds ps1 ps2); auto using quiet_user_cancelled.
    intros [_ [? _]%Hg2]%Hg. done. }
  destruct (io_close (l_io l2)) as [e|] eqn:Ec.
  { apply (Hfail _ l2 ds ps1 ps2); auto with guestfs. intros [_ _ Hcl' _].
    rewrite Hcl in Hc2. change (Some e = io_close (l_io l)) in Hc2. congruence. }
  rewrite Eps in Hps. apply Forall_app in Hps as [_ Hps2].
  destruct (send_file_finish ps2 cancel l2) as (r3 & l3 & -> & Hend); [by destruct X12|done..|].
  exists r3, l3, ds. split_and!; [done..|].
  destruct Hend as [(-> & a & b & -> & X3)|(-> & -> & Hi3 & X3)].
  - eapply (send_completed _ _ _ _ _ (ps1 ++ a) b); [by rewrite Eps, app_assoc|..].
    + apply Hdata; [done|]. destruct (g_user_cancel (l_g l1)); [|done]. by discriminate (Hb1 eq_refl).
    + rewrite progress_frames_app. exact (exch_trans _ _ _ _ _ _ _ X0 (exch_trans _ _ _ _ _ _ _ X12 X3)).
  - apply send_cancelled; [done..|]. rewrite Eps, progress_frames_app, <- app_assoc.
    exact (exch_trans _ _ _ _ _ _ _ X0 (exch_trans _ _ _ _ _ _ _ X12 X3)).
Qed.

(** ** Receiving a message *)

Lemma flag_is_u32 (m : list byte) : 0 < zlength m <= GUESTFS_MESSAGE_MAX -> is_u32 (zlength m).
Proof. unfold GUESTFS_MESSAGE_MAX, is_u32. lia. Qed.

Lemma lib_healthy_conn l : lib_healthy l -> exists c, l_conn l = Some c.
Proof. unfold lib_healthy. destruct (l_conn l); [eauto|done]. Qed.

(** A message that is not a flag. *)
Definition message_ok (m : list byte) : Prop := 0 < zlength m <= GUESTFS_MESSAGE_MAX.

Lemma recv_from_daemon_message l m rest :
  lib_healthy l -> message_ok m -> lib_inbox l = frame m ++ rest ->
  exists l', recv_from_daemon l = (Ret (0, zlength m, Some m), l') /\
    exch_io (frame m) [] l l' /\ lib_inbox l' = rest.
Proof.
  intros Hh Hm Hi. destruct (lib_healthy_conn l Hh) as [c Ec].
  unfold recv_from_daemon. rewrite Ec. unfold recv_connected. unfold frame in Hi. rewrite <- app_assoc in Hi.
  destruct (on_read_flag l _ _ Hh Hi) as (l1 & E1 & X1 & Hi1). mstep E1.
  pose proof (exch_io_healthy _ _ _ _ X1) as Hh1.
  unfold flag_word. rewrite decode_u32_be by by apply flag_is_u32. cbn [Z.eqb Pos.eqb].
  unfold message_ok in *. set (n := zlength m) in *.
  destruct (on_read_data l1 (Z.to_nat n) _ _ Hh1 Hi1) as (l2 & E2 & X2);
    [unfold n, zlength; lia|lia|].
  unfold GUESTFS_LAUNCH_FLAG, GUESTFS_CANCEL_FLAG, GUESTFS_PROGRESS_FLAG, GUESTFS_MESSAGE_MAX in *.
  destruct (Z.eqb_spec n 0xf5f55ff5); [lia|]. destruct (Z.eqb_spec n 0xffffeeee); [lia|].
  destruct (Z.eqb_spec n 0xffff5555); [lia|]. destruct (Z.ltb_spec (4 * 1024 * 1024) n); [lia|].
  cbn [negb andb]. mstep E2. rewrite Z2Nat.id by lia.
  destruct (Z.eqb_spec n (-1)); [lia|]. destruct (Z.eqb_spec n 0); [lia|].
  pose proof (exch_io_trans _ _ _ _ _ _ _ X1 X2) as X.
  exists l2. split_and!; [done|exact X|]. by eapply exch_io_inbox.
Qed.

Lemma recv_from_daemon_progress l p rest :
  lib_healthy l -> progress_typed p -> lib_inbox l = progress_frame p ++ rest ->
  exists l', recv_from_daemon l = (Ret (0, GUESTFS_PROGRESS_FLAG, Some (progress_wire p)), l') /\
    exch_io (progress_frame p) [] l l' /\ lib_inbox l' = rest.
Proof.
  intros Hh Hp Hi. destruct (lib_healthy_conn l Hh) as [c Ec].
  unfold recv_from_daemon. rewrite Ec. unfold recv_connected. unfold progress_frame in Hi. rewrite <- app_assoc in Hi.
  destruct (on_read_flag l _ _ Hh Hi) as (l1 & E1 & X1 & Hi1). mstep E1.
  pose proof (exch_io_healthy _ _ _ _ X1) as Hh1.
  unfold flag_word. rewrite decode_u32_be by done.
  destruct (read_progress l1 p rest Hp Hh1 Hi1) as (l2 & E2 & X2 & Hi2).
  change (GUESTFS_PROGRESS_FLAG =? GUESTFS_LAUNCH_FLAG) with false.
  change (GUESTFS_PROGRESS_FLAG =? GUESTFS_CANCEL_FLAG) with false.
  rewrite Z.eqb_refl. cbn [Z.eqb Pos.eqb negb andb]. mstep E2.
  exists l2. split_and!; [done| |done]. exact (exch_io_trans _ _ _ _ _ _ _ X1 X2).
Qed.

Lemma recv_from_daemon_cancel l rest :
  lib_healthy l -> lib_inbox l = flag_word GUESTFS_CANCEL_FLAG ++ rest ->
  exists l', recv_from_daemon l = (Ret (0, GUESTFS_CANCEL_FLAG, None), l') /\
    exch_io (flag_word GUESTFS_CANCEL_FLAG) [] l l' /\ lib_inbox l' = rest.
Proof.
  intros Hh Hi. destruct (lib_healthy_conn l Hh) as [c Ec].
  unfold recv_from_daemon. rewrite Ec. unfold recv_connected.
  destruct (on_read_flag l _ _ Hh Hi) as (l1 & E1 & X1 & Hi1). mstep E1.
  unfold flag_word at 1 2 3 4. rewrite decode_u32_be by done. cbn [Z.eqb Pos.eqb].
  change (GUESTFS_CANCEL_FLAG =? GUESTFS_LAUNCH_FLAG) with false. rewrite Z.eqb_refl.
  eexists. split_and!; [reflexivity| |done].
  rewrite <- (app_nil_r (flag_word _)). eapply (exch_io_trans _ [] [] []); [exact X1|].
  apply exch_io_g; [eapply exch_io_healthy, X1|auto with guestfs].
Qed.

(** Progress messages in front of a message are handled transparently. *)
Lemma recv_loop_skip : forall fuel ps rest l,
  lib_healthy l -> Forall progress_typed ps -> lib_inbox l = progress_frames ps ++ rest ->
  (length ps < fuel)%nat ->
  exists fuel' l', recv_loop fuel l = recv_loop (S fuel') l' /\
    exch_io (progress_frames ps) [] l l' /\ lib_inbox l' = rest.
Proof.
  induction fuel as [|fuel IH]; intros ps rest l Hh Hps Hi Hf; [lia|].
  destruct ps as [|p ps].
  { exists fuel, l. split_and!; [done|by apply exch_io_refl|done]. }
  inversion Hps; subst. rewrite progress_frames_cons, <- !app_assoc in Hi. rewrite app_assoc in Hi.
  destruct (recv_from_daemon_progress l p _ Hh ltac:(done) Hi) as (l1 & E1 & X1 & Hi1).
  cbn [recv_loop]. mstep E1.
  destruct (handle_progress_spec p l1) as [E2 X2]; [done|eapply exch_io_healthy, X1|].
  rewrite Z.eqb_refl. cbn [Z.eqb from_option]. unfold id. mstep E2.
  destruct (IH ps rest (upd l_g (progress_callback p) l1)) as (fuel' & l' & -> & X & Hi');
    [eapply exch_io_healthy, X2|done|by rewrite <- Hi1|cbn in Hf; lia|].
  exists fuel', l'. split_and!; [done| |done].
  pose proof (exch_io_trans _ _ _ _ _ _ _ X1 (exch_io_trans _ _ _ _ _ _ _ X2 X)) as X3.
  rewrite progress_frames_cons, app_assoc. exact X3.
Qed.

Lemma recv_skip ps rest l :
  lib_healthy l -> Forall progress_typed ps -> lib_inbox l = progress_frames ps ++ rest ->
  exists fuel' l', guestfs___recv_from_daemon l = recv_loop (S fuel') l' /\
    exch_io (progress_frames ps) [] l l' /\ lib_inbox l' = rest /\ lib_healthy l'.
Proof.
  intros Hh Hps Hi. unfold guestfs___recv_from_daemon, fuel_of.
  destruct (lib_healthy_conn l Hh) as [c Ec]. rewrite Ec.
  pose proof (lib_budget_inbox l c Ec) as Hb. rewrite Hi, length_app in Hb.
  pose proof (length_progress_frames ps).
  destruct (recv_loop_skip (S (conn_budget c)) ps rest l) as (f & l' & ? & X & ?); [done..|lia|].
  exists f, l'. split_and!; [done..|]. by eapply exch_io_healthy.
Qed.

Lemma recv_message ps m rest l :
  lib_healthy l -> Forall progress_typed ps -> message_ok m ->
  lib_inbox l = progress_frames ps ++ frame m ++ rest ->
  exists l', guestfs___recv_from_daemon l = (Ret (0, zlength m, Some m), l') /\
    exch_io (progress_frames ps ++ frame m) [] l l' /\ lib_inbox l' = rest.
Proof.
  intros Hh Hps Hm Hi. destruct (recv_skip _ _ _ Hh Hps Hi) as (f & l1 & -> & X1 & Hi1 & Hh1).
  destruct (recv_from_daemon_message l1 m rest Hh1 Hm Hi1) as (l2 & E2 & X2 & Hi2).
  cbn [recv_loop]. mstep E2. exists l2. split_and!; [|exact (exch_io_trans _ _ _ _ _ _ _ X1 X2)|done].
  unfold message_ok, GUESTFS_MESSAGE_MAX, GUESTFS_PROGRESS_FLAG in *. cbn [Z.eqb].
  destruct (Z.eqb_spec (zlength m) 0xffff5555); [lia|]. by case_if.
Qed.

Lemma recv_cancel_flag ps rest l :
  lib_healthy l -> Forall progress_typed ps ->
  lib_inbox l = progress_frames ps ++ flag_word GUESTFS_CANCEL_FLAG ++ rest ->
  exists l', guestfs___recv_from_daemon l = (Ret (0, GUESTFS_CANCEL_FLAG, None), l') /\
    exch_io (progress_frames ps ++ flag_word GUESTFS_CANCEL_FLAG) [] l l' /\ lib_inbox l' = rest.
Proof.
  intros Hh Hps Hi. destruct (recv_skip _ _ _ Hh Hps Hi) as (f & l1 & -> & X1 & Hi1 & Hh1).
  destruct (recv_from_daemon_cancel l1 rest Hh1 Hi1) as (l2 & E2 & X2 & Hi2).
  cbn [recv_loop]. mstep E2. exists l2. split_and!; [done| |done].
  exact (exch_io_trans _ _ _ _ _ _ _ X1 X2).
Qed.

(** ** Receiving a reply *)

(** What may precede a reply: progress messages and stray cancellations. *)
Definition stray (segs : list (list guestfs_progress)) : list byte :=
  concat ((fun ps => progress_frames ps ++ flag_word GUESTFS_CANCEL_FLAG) <$> segs).

Lemma length_stray segs : (length segs <= length (stray segs))%nat.
Proof.
  induction segs as [|s segs IH]; [done|]. unfold stray in *. cbn.
  rewrite !length_app, length_flag_word. lia.
Qed.

Lemma recv_uncancelled_spec fn : forall fuel segs ps m rest l,
  lib_healthy l -> Forall (Forall progress_typed) segs -> Forall progress_typed ps -> message_ok m ->
  lib_inbox l = stray segs ++ progress_frames ps ++ frame m ++ rest -> (length segs < fuel)%nat ->
  exists l', recv_uncancelled fuel fn l = (Ret (0, m), l') /\
    exch_io (stray segs ++ progress_frames ps ++ frame m) [] l l'.
Proof.
  induction fuel as [|fuel IH]; intros segs ps m rest l Hh Hsegs Hps Hm Hi Hf; [lia|].
  cbn [recv_uncancelled]. destruct segs as [|s segs].
  - destruct (recv_message ps m rest l) as (l' & E & X & _); [done..|]. mstep E.
    exists l'. split; [|done]. unfold message_ok, GUESTFS_MESSAGE_MAX in Hm. cbn [Z.eqb Pos.eqb].
    unfold GUESTFS_CANCEL_FLAG, GUESTFS_LAUNCH_FLAG.
    destruct (Z.eqb_spec (zlength m) 0xffffeeee); [lia|].
    destruct (Z.eqb_spec (zlength m) 0xf5f55ff5); [lia|]. done.
  - inversion Hsegs; subst.
    assert (stray (s :: segs) = progress_frames s ++ flag_word GUESTFS_CANCEL_FLAG ++ stray segs) as Es
      by (unfold stray; cbn; by rewrite <- app_assoc).
    rewrite Es in Hi. rewrite <- !app_assoc in Hi.
    destruct (recv_cancel_flag s _ l Hh ltac:(done) Hi) as (l1 & E1 & X1 & Hi1). mstep E1.
    rewrite Z.eqb_refl. cbn [Z.eqb].
    destruct (IH segs ps m rest l1) as (l' & E & X);
      [eapply exch_io_healthy, X1|done..|cbn in Hf; lia|].
    exists l'. split; [exact E|].
    pose proof (exch_io_trans _ _ _ _ _ _ _ X1 X) as X2. rewrite Es, <- !app_assoc.
    by rewrite <- !app_assoc in X2.
Qed.

(** The reply that the body after the header [h] stands for. *)
Definition decode_reply {A} (xdrp : option (list byte -> option (A * list byte)))
    (h : guestfs_message_header) (body : list byte) : option (reply A) :=
  if hdr_status h =? GUESTFS_STATUS_ERROR then
    '(e, _) ← xdr_get (A := guestfs_message_error) body; Some (mk_reply h e None)
  else match xdrp with
       | None => Some (mk_reply h zero_error None)
       | Some get => '(v, _) ← get body; Some (mk_reply h zero_error (Some v))
       end.

Lemma fuel_of_inbox l : (length (lib_inbox l) < fuel_of l)%nat.
Proof.
  unfold fuel_of, lib_inbox. destruct (l_conn l) as [c|]; [|cbn; lia].
  pose proof (conn_budget_inbox c). lia.
Qed.

Lemma recv_spec {A} fn (xdrp : option (list byte -> option (A * list byte))) segs ps h body rest l rep :
  lib_healthy l -> Forall (Forall progress_typed) segs -> Forall progress_typed ps ->
  header_typed h -> message_ok (header_wire h ++ body) -> decode_reply xdrp h body = Some rep ->
  lib_inbox l = stray segs ++ progress_frames ps ++ frame (header_wire h ++ body) ++ rest ->
  exists l', guestfs___recv fn xdrp l = (Ret (0, rep), l') /\
    exch_io (stray segs ++ progress_frames ps ++ frame (header_wire h ++ body)) [] l l'.
Proof.
  intros Hh Hsegs Hps Hty Hm Hdec Hi. unfold guestfs___recv.
  destruct (recv_uncancelled_spec fn (fuel_of l) segs ps (header_wire h ++ body) rest l)
    as (l' & E & X); [done..| |].
  { pose proof (fuel_of_inbox l) as Hf. rewrite Hi, length_app in Hf.
    pose proof (length_stray segs). lia. }
  mstep E. cbn [Z.eqb]. rewrite header_get by done. exists l'. split; [|done].
  unfold decode_reply in Hdec. destruct (hdr_status h =? GUESTFS_STATUS_ERROR).
  - destruct (xdr_get body) as [[e ?]|]; cbn in Hdec; simplify_eq. done.
  - destruct xdrp as [get|]; [|by simplify_eq].
    destruct (get body) as [[v ?]|]; cbn in Hdec; simplify_eq. done.
Qed.

(** ** Receiving a file *)

(** The chunks of a download: data blocks and a terminator, with progress
    messages in between. *)
Definition down_item (it : list guestfs_progress * list byte) : list byte :=
  progress_frames (fst it) ++ chunk_frame (mk_chunk 0 (snd it)).
Definition down_wire (items : list (list guestfs_progress * list byte)) (ps : list guestfs_progress)
    (term : guestfs_chunk) : list byte :=
  concat (down_item <$> items) ++ progress_frames ps ++ chunk_frame term.

Definition item_ok (it : list guestfs_progress * list byte) : Prop :=
  Forall progress_typed (fst it) /\ block_ok (snd it).
(** The end of a file or a cancellation. *)
Definition terminator_ok (term : guestfs_chunk) : Prop :=
  chunk_fits term = true /\ is_s32 (chunk_cancel term) /\
  (chunk_cancel term = 0 -> chunk_data term = []).

Lemma chunk_message_ok c : chunk_fits c = true -> message_ok (chunk_wire c).
Proof.
  intros E. pose proof (zlength_chunk_wire c E).
  unfold message_ok, GUESTFS_MAX_CHUNK_SIZE, GUESTFS_MESSAGE_MAX in *. lia.
Qed.

Lemma block_fits d : block_ok d -> chunk_fits (mk_chunk 0 d) = true.
Proof. intros [_ Hd]. by apply Z.leb_le. Qed.

Lemma receive_chunk ps ch rest l :
  lib_healthy l -> Forall progress_typed ps -> chunk_fits ch = true -> is_s32 (chunk_cancel ch) ->
  lib_inbox l = progress_frames ps ++ chunk_frame ch ++ rest ->
  exists r out l', receive_file_data l = (Ret (r, out), l') /\
    exch (progress_frames ps ++ chunk_frame ch) [] l l' /\
    io_write (l_io l') = io_write (l_io l) /\ io_data (l_io l') = io_data (l_io l) /\
    io_close (l_io l') = io_close (l_io l) /\
    (if chunk_cancel ch =? 0
     then r = zlength (chunk_data ch) /\ out = chunk_data ch /\
          l_io l' = l_io l /\ g_user_cancel (l_g l') = g_user_cancel (l_g l)
     else r = -1).
Proof.
  intros Hh Hps Hfit Hty Hi. unfold receive_file_data.
  destruct (recv_message ps (chunk_wire ch) rest l) as (l1 & E & X & _);
    [done..|by apply chunk_message_ok|done|].
  mstep E. pose proof (chunk_message_ok ch Hfit) as Hm. unfold message_ok, GUESTFS_MESSAGE_MAX in Hm.
  cbn [Z.eqb Pos.eqb]. unfold GUESTFS_CANCEL_FLAG, GUESTFS_LAUNCH_FLAG.
  destruct (Z.eqb_spec (zlength (chunk_wire ch)) 0xffffeeee); [lia|].
  destruct (Z.eqb_spec (zlength (chunk_wire ch)) 0xf5f55ff5); [lia|].
  cbn [orb from_option]. unfold id. rewrite <- (app_nil_r (chunk_wire ch)), chunk_get by done.
  destruct (chunk_cancel ch =? 0); cbn [negb].
  - exists (zlength (chunk_data ch)), (chunk_data ch), l1. destruct X as [X Hio Hc]. rewrite Hio.
    split_and!; [by destruct (chunk_data ch)|done..].
  - destruct X as [X Hio Hc].
    destruct (read_user_cancel_spec l1) as (b & l2 & E2 & X2 & _ & _ & _ & H1 & H2 & H3 & _);
      [by destruct X|]. mstep E2. do 3 eexists. split; [reflexivity|].
    rewrite <- Hio. split_and!; [|done..].
    rewrite <- (app_nil_r (_ ++ chunk_frame ch)).
    refine (exch_trans _ [] _ [] _ _ _ X (exch_trans [] [] [] [] _ _ _ X2 _)).
    apply exch_io_g; [by destruct X2|]. destruct b; auto using quiet_user_cancelled with guestfs.
Qed.

Lemma down_wire_cons it items ps term :
  down_wire (it :: items) ps term = down_item it ++ down_wire items ps term.
Proof. unfold down_wire. cbn. by rewrite <- app_assoc. Qed.

Lemma length_down_wire items ps term : (length items < length (down_wire items ps term))%nat.
Proof.
  assert (forall m, 4 <= length (frame m))%nat as Hfr.
  { intros m. unfold frame. rewrite length_app, length_be_bytes. lia. }
  induction items as [|it items IH].
  - unfold down_wire. rewrite !length_app. pose proof (Hfr (chunk_wire term)). unfold chunk_frame. cbn. lia.
  - rewrite down_wire_cons, length_app. unfold down_item at 1. rewrite length_app.
    pose proof (Hfr (chunk_wire (mk_chunk 0 (snd it)))). unfold chunk_frame. cbn. lia.
Qed.

(** The terminator. *)
Lemma receive_terminator ps term rest l :
  lib_healthy l -> Forall progress_typed ps -> terminator_ok term ->
  lib_inbox l = progress_frames ps ++ chunk_frame term ++ rest ->
  exists r out l', receive_file_data l = (Ret (r, out), l') /\
    exch (progress_frames ps ++ chunk_frame term) [] l l' /\
    io_data (l_io l') = io_data (l_io l) /\ io_close (l_io l') = io_close (l_io l) /\
    r = if chunk_cancel term =? 0 then 0 else -1.
Proof.
  intros Hh Hps (Hfit & Hs & Hz) Hi.
  destruct (receive_chunk ps term rest l) as (r & out & l' & E & X & _ & Hd & Hc & Hr); [done..|].
  exists r, out, l'. split_and!; [done..|]. destruct (Z.eqb_spec (chunk_cancel term) 0) as [Ez|]; [|done].
  destruct Hr as (-> & _). by rewrite (Hz Ez).
Qed.

(** The discarding loop reads up to and including the terminator. *)
Lemma discard_loop_spec : forall fuel items ps term rest l,
  lib_healthy l -> Forall item_ok items -> Forall progress_typed ps -> terminator_ok term ->
  lib_inbox l = down_wire items ps term ++ rest -> (length items < fuel)%nat ->
  exists l', discard_loop fuel l = (Ret tt, l') /\ exch (down_wire items ps term) [] l l' /\
    io_data (l_io l') = io_data (l_io l).
Proof.
  induction fuel as [|fuel IH]; intros items ps term rest l Hh Hit Hps Ht Hi Hf; [lia|].
  cbn [discard_loop]. destruct items as [|[qs d] items].
  - unfold down_wire in *. cbn in Hi. rewrite <- app_assoc in Hi.
    destruct (receive_terminator ps term rest l) as (r & out & l' & E & X & Hd & _ & ->); [done..|].
    mstep E. exists l'. split_and!; [by destruct (chunk_cancel term =? 0)|done..].
  - inversion Hit as [|? ? [Hqs Hb] Hit']; subst. cbn in Hqs, Hb.
    rewrite down_wire_cons in Hi. unfold down_item in Hi. rewrite <- !app_assoc in Hi.
    destruct (receive_chunk qs (mk_chunk 0 d) _ l Hh Hqs (block_fits d Hb) ltac:(done) Hi)
      as (r & out & l1 & E & X & _ & Hd & _ & -> & _ & _ & _).
    mstep E. cbn [chunk_data].
    assert (0 < zlength d) by (destruct Hb; destruct d; [done|unfold zlength; cbn; lia]).
    destruct (Z.ltb_spec 0 (zlength d)); [|lia].
    destruct (IH items ps term rest l1) as (l' & E' & X' & Hd'); [by destruct X|done..| |cbn in Hf; lia|].
    { eapply exch_inbox; [exact X|]. by rewrite Hi, <- !app_assoc. }
    exists l'. split_and!; [done| |congruence]. rewrite down_wire_cons.
    exact (exch_trans _ _ _ _ _ _ _ X X').
Qed.

(** *** The local file *)

Definition plain_write (e : write_ev) : Prop := match e with WrOk _ => True | WrErr _ => False end.

Record download_good l : Prop := {
  dg_write : Forall plain_write (io_write (l_io l));
  dg_cancel : Forall (eq false) (io_cancel (l_io l));
  dg_flag : g_user_cancel (l_g l) = false
}.

(** The local file was written; nothing else changed. *)
Record wrote (bs : list byte) l l' : Prop := {
  wr_g : l_g l' = l_g l;
  wr_conn : l_conn l' = l_conn l;
  wr_data : io_data (l_io l') = io_data (l_io l) ++ bs;
  wr_close : io_close (l_io l') = io_close (l_io l);
  wr_cancel : io_cancel (l_io l') = io_cancel (l_io l);
  wr_good : Forall plain_write (io_write (l_io l)) -> Forall plain_write (io_write (l_io l'))
}.

Lemma xwrite_loop_spec : forall fuel buf l, (length (io_write (l_io l)) < fuel)%nat ->
  exists e l' k, xwrite_loop fuel buf l = (Ret e, l') /\ wrote (take k buf) l l' /\
    (e = None -> take k buf = buf) /\ (Forall plain_write (io_write (l_io l)) -> e = None).
Proof.
  induction fuel as [|fuel IH]; intros buf l Hf; [lia|]. destruct buf as [|b bs].
  { exists None, l, 0%nat. split_and!; [done| |done|done]. split; try done. by rewrite app_nil_r. }
  cbn [xwrite_loop]. set (buf := b :: bs).
  destruct (sys_write (length buf) (io_write (l_io l))) as [ev q] eqn:E.
  destruct ev as [n|e].
  - set (l1 := (l <| l_io; io_write := q |>) <| l_io; io_data ::= fun d => d ++ take n buf |>).
    destruct (io_write (l_io l)) as [|[m|] q0] eqn:Ew; cbn in E; [| |done].
    + injection E as <- <-. exists None, l1, (length buf). split_and!; [|split; try done|by rewrite firstn_all|done].
      * change (S (length bs)) with (length buf). rewrite drop_all. by destruct fuel.
    + injection E as <- <-.
      destruct (IH (drop (Nat.min m (S (length bs))) buf) l1) as (e & l' & k & E & [] & H2 & H3).
      { cbn in *. lia. }
      exists e, l', (Nat.min m (S (length bs)) + k)%nat. split_and!; [done|..].
      * split; [done|done| |done|done|].
        { rewrite wr_data0. cbn [l1 l_io io_data]. cbn. rewrite <- app_assoc. f_equal.
          by rewrite take_take_drop. }
        rewrite Ew. intros Hg. inversion Hg; subst. by apply wr_good0.
      * intros He. rewrite <- take_take_drop, H2 by done. apply take_drop.
      * intros Hg. inversion Hg; subst. by apply H3.
  - set (l1 := l <| l_io; io_write := q |>). exists (Some e), l1, 0%nat.
    destruct (io_write (l_io l)) as [|[m|] q0] eqn:Ew; cbn in E; [done|done|]. injection E as <- <-.
    split_and!; [done| |done|intros Hg; by inversion Hg].
    split; cbn; try done; [by rewrite app_nil_r|]. rewrite Ew. intros Hg. by inversion Hg.
Qed.

Lemma wrote_exch bs l l' : lib_healthy l -> wrote bs l l' -> exch [] [] l l'.
Proof.
  intros Hh [Eg Ec _ _ _ _]. split.
  - unfold lib_inbox. by rewrite Ec.
  - unfold lib_outbox. by rewrite Ec, app_nil_r.
  - unfold lib_healthy. by rewrite Ec.
  - by rewrite Eg.
Qed.

(** ** The receiving loop *)

Definition recv_loop_result (items : list (list guestfs_progress * list byte)) ps term rest l l'
    (res : option Z) : Prop :=
  match res with
  | None => ~ download_good l /\ exists its1 its2, items = its1 ++ its2 /\
      exch (concat (down_item <$> its1)) [] l l' /\ lib_inbox l' = down_wire its2 ps term ++ rest
  | Some r => r = (if chunk_cancel term =? 0 then 0 else -1) /\
      exch (down_wire items ps term) [] l l' /\
      io_data (l_io l') = io_data (l_io l) ++ concat (snd <$> items)
  end.

Lemma recv_loop_result_step it items ps term rest l l1 l' res :
  exch (down_item it) [] l l1 -> io_data (l_io l1) = io_data (l_io l) ++ snd it ->
  (download_good l -> download_good l1) ->
  recv_loop_result items ps term rest l1 l' res -> recv_loop_result (it :: items) ps term rest l l' res.
Proof.
  intros X Hd Hg. destruct res as [r|]; cbn [recv_loop_result].
  - intros (-> & X1 & Hd1). split_and!; [done| |by rewrite Hd1, Hd, <- app_assoc].
    rewrite down_wire_cons. exact (exch_trans _ _ _ _ _ _ _ X X1).
  - intros (Hn & a & b & -> & X1 & Hi). split; [tauto|]. exists (it :: a), b. split_and!; [done| |done].
    exact (exch_trans _ _ _ _ _ _ _ X X1).
Qed.

(** A local file and a user that cause no failure still do not after a chunk
    was written and the cancellation was looked at. *)
Lemma download_good_step d l l1 l2 b l3 :
  l_io l1 = l_io l -> g_user_cancel (l_g l1) = g_user_cancel (l_g l) -> wrote d l1 l2 ->
  read_user_cancel l2 = (Ret b, l3) -> download_good l -> b = false /\ download_good l3.
Proof.
  intros Hio Hcf [Wg _ _ _ Wc Wp] E3 [Hg1 Hg2 Hg3]. unfold read_user_cancel in E3.
  rewrite Wc, Hio, Wg, Hcf, Hg3 in E3. destruct (io_cancel (l_io l)) as [|b1 bs1] eqn:Eb;
    injection E3 as <- <-; [|inversion Hg2; subst]; (split; [done|]); split; cbn; try done;
    apply Wp; by rewrite Hio.
Qed.

Lemma recv_file_loop_spec fn : forall fuel items ps term rest l,
  lib_healthy l -> Forall item_ok items -> Forall progress_typed ps -> terminator_ok term ->
  lib_inbox l = down_wire items ps term ++ rest -> (length items < fuel)%nat ->
  exists res l', recv_file_loop fuel fn l = (Ret res, l') /\
    io_close (l_io l') = io_close (l_io l) /\ recv_loop_result items ps term rest l l' res.
Proof.
  induction fuel as [|fuel IH]; intros items ps term rest l Hh Hit Hps Ht Hi Hf; [lia|].
  cbn [recv_file_loop]. destruct items as [|[qs d] items].
  - unfold down_wire in *. cbn in Hi. rewrite <- app_assoc in Hi.
    destruct (receive_terminator ps term rest l) as (r & out & l' & E & X & Hd & Hc & ->); [done..|].
    mstep E. exists (Some (if chunk_cancel term =? 0 then 0 else -1)), l'.
    split_and!; [by destruct (chunk_cancel term =? 0)|done|]. cbn [recv_loop_result].
    split_and!; [done..|]. cbn. by rewrite app_nil_r.
  - inversion Hit as [|? ? [Hqs Hb] Hit']; subst. cbn in Hqs, Hb.
    rewrite down_wire_cons in Hi. unfold down_item in Hi. rewrite <- !app_assoc in Hi.
    destruct (receive_chunk qs (mk_chunk 0 d) _ l Hh Hqs (block_fits d Hb) ltac:(done) Hi)
      as (r & out & l1 & E & X & _ & _ & _ & -> & -> & Hio & Hcf).
    mstep E. cbn [chunk_data].
    assert (0 < zlength d) by (destruct Hb; destruct d; [done|unfold zlength; cbn; lia]).
    destruct (Z.ltb_spec 0 (zlength d)); [|lia].
    assert (lib_inbox l1 = down_wire items ps term ++ rest) as Hi1.
    { eapply exch_inbox; [exact X|]. by rewrite Hi, <- !app_assoc. }
    destruct (xwrite_loop_spec (S (length (io_write (l_io l1)))) d l1) as (w & l2 & k & E2 & W & Hk & Hgw);
      [lia|]. change (xwrite_loop _ d l1) with (xwrite d l1) in E2. mstep E2.
    pose proof (wrote_exch _ _ _ (ex_healthy _ _ _ _ X) W) as X2.
    pose proof (exch_trans _ _ _ _ _ _ _ X X2) as X12. cbn [app] in X12. rewrite app_nil_r in X12.
    pose proof (exch_inbox _ _ _ _ _ X2 Hi1) as Hi2.
    destruct w as [e|].
    { exists None, (upd l_g (fun g => guestfs___perrorf g e (fn +:+ ": write")) l2).
      split_and!; [done|cbn; by rewrite (wr_close _ _ _ W), Hio|]. split.
      - intros [Hg _ _]. rewrite Hio in Hgw. by specialize (Hgw Hg).
      - exists [(qs, d)], items. split_and!; [done| |done].
        change (concat (down_item <$> [(qs, d)])) with (down_item (qs, d) ++ []).
        refine (exch_trans _ [] [] [] _ _ _ X12 _). apply exch_io_g; [by destruct X2|auto with guestfs]. }
    destruct (read_user_cancel_spec l2) as (b & l3 & E3 & X3 & Hb3 & _ & _ & Hc3 & Hw3 & Hd3 & _);
      [by destruct X2|].
    pose proof (download_good_step _ _ _ _ _ _ Hio Hcf W E3) as Hg3.
    mstep E3. pose proof (exch_trans _ _ _ _ _ _ _ X12 X3) as X13. cbn [app] in X13. rewrite app_nil_r in X13.
    destruct b.
    { exists None, l3. split_and!; [done|by rewrite Hc3, (wr_close _ _ _ W), Hio|]. split.
      - intros [? _]%Hg3. done.
      - exists [(qs, d)], items. split_and!; [done|cbn; by rewrite app_nil_r|].
        by rewrite (exch_inbox _ _ _ _ _ X3 Hi2). }
    destruct (IH items ps term rest l3) as (res & l' & E4 & Hc4 & Hres);
      [by destruct X3|done..|by rewrite (exch_inbox _ _ _ _ _ X3 Hi2)|cbn in Hf; lia|].
    exists res, l'. split_and!; [done|by rewrite Hc4, Hc3, (wr_close _ _ _ W), Hio|].
    eapply recv_loop_result_step; [exact X13| |by intros [_ ?]%Hg3|done].
    by rewrite Hd3, (wr_data _ _ _ W), Hio, Hk.
Qed.

(** The [cancel] label: ask the daemon to stop, then read up to the terminator. *)
Lemma recv_file_cancel_spec items ps term rest l :
  lib_healthy l -> Forall item_ok items -> Forall progress_typed ps -> terminator_ok term ->
  lib_inbox l = down_wire items ps term ++ rest ->
  exists l', recv_file_cancel l = (Ret (-1), l') /\
    exch (down_wire items ps term) (flag_word GUESTFS_CANCEL_FLAG) l l'.
Proof.
  intros Hh Hit Hps Ht Hi. unfold recv_file_cancel.
  set (f := fun g => guestfs___debug g _). set (l1 := upd l_g f l).
  assert (exch_io [] [] l l1) as X1 by (apply exch_io_g; unfold f; auto with guestfs).
  mstep (eq_refl : on_g f l = (Ret tt, l1)).
  destruct (on_write_data l1 (flag_word GUESTFS_CANCEL_FLAG)) as (l2 & E2 & X2); [done..|].
  change (be_bytes 4 GUESTFS_CANCEL_FLAG) with (flag_word GUESTFS_CANCEL_FLAG). mstep E2.
  change (zlength (flag_word GUESTFS_CANCEL_FLAG)) with 4. cbn [Z.eqb].
  pose proof (exch_io_trans _ _ _ _ _ _ _ X1 X2) as X12.
  assert (lib_inbox l2 = down_wire items ps term ++ rest) as Hi2 by by eapply exch_io_inbox.
  destruct (discard_loop_spec (fuel_of l2) items ps term rest l2) as (l3 & E3 & X3 & _);
    [eapply exch_io_healthy, X12|done..| |].
  { pose proof (fuel_of_inbox l2) as Hf. rewrite Hi2, length_app in Hf.
    pose proof (length_down_wire items ps term). lia. }
  mstep E3. exists l3. split; [done|].
  pose proof (exch_trans _ _ _ _ _ _ _ (exi_exch _ _ _ _ X12) X3) as X. by rewrite app_nil_r in X.
Qed.

Record local_download_good (io : file_io) : Prop := {
  ldg_open : io_open io = None;
  ldg_write : Forall plain_write (io_write io);
  ldg_close : io_close io = None;
  ldg_cancel : Forall (eq false) (io_cancel io)
}.

Lemma recv_file_spec fn items ps term rest l :
  lib_healthy l -> Forall item_ok items -> Forall progress_typed ps -> terminator_ok term ->
  lib_inbox l = down_wire items ps term ++ rest ->
  exists r l' dout, guestfs___recv_file fn l = (Ret r, l') /\
    exch (down_wire items ps term) dout l l' /\
    (r = 0 /\ dout = [] /\ chunk_cancel term = 0 /\
       io_data (l_io l') = concat (snd <$> items) \/
     r = -1 /\ (dout = [] \/ dout = flag_word GUESTFS_CANCEL_FLAG) /\
       ~ (local_download_good (l_io l) /\ chunk_cancel term = 0)).
Proof.
  intros Hh Hit Hps Ht Hi. unfold guestfs___recv_file.
  set (l0 := l <| l_g; g_user_cancel := false |>).
  assert (exch [] [] l l0) as X0.
  { split; [done|by unfold lib_outbox; rewrite app_nil_r|done|by split]. }
  destruct (io_open (l_io l0)) as [e|] eqn:Eo.
  { set (l1 := upd l_g (fun g => guestfs___perrorf g e ("open: " +:+ fn)) l0).
    assert (exch [] [] l0 l1) as X1 by (apply exch_io_g; auto with guestfs).
    destruct (recv_file_cancel_spec items ps term rest l1) as (l2 & E2 & X2); [done..|].
    exists (-1), l2, (flag_word GUESTFS_CANCEL_FLAG).
    mstep (eq_refl : perrorf e ("open: " +:+ fn) l0 = (Ret tt, l1)). split_and!; [done|..].
    - exact (exch_trans _ _ _ _ _ _ _ X0 (exch_trans _ _ _ _ _ _ _ X1 X2)).
    - right. split_and!; [done|by right|]. intros [[Ho _ _ _] _]. cbn in Eo. congruence. }
  unfold l0. clear X0 Eo l0. set (l0 := (l <| l_g; g_user_cancel := false |>) <| l_io; io_data := [] |>).
  assert (exch [] [] l l0) as X0.
  { split; [done|by unfold lib_outbox; rewrite app_nil_r|done|by split]. }
  destruct (recv_file_loop_spec fn (fuel_of l0) items ps term rest l0) as (res & l1 & E1 & Hc & Hres);
    [done..| |].
  { pose proof (fuel_of_inbox l0) as Hf. change (lib_inbox l0) with (lib_inbox l) in Hf.
    rewrite Hi, length_app in Hf. pose proof (length_down_wire items ps term). lia. }
  mstep E1. destruct res as [r|]; cbn [recv_loop_result] in Hres.
  - destruct Hres as (-> & X1 & Hd). pose proof (exch_trans _ _ _ _ _ _ _ X0 X1) as X.
    destruct (Z.eqb_spec (chunk_cancel term) 0) as [Ez|Ez]; cbn [Z.eqb Pos.eqb].
    + destruct (io_close (l_io l1)) as [e|] eqn:Ec; [|exists 0, l1, []; auto 8].
      do 3 eexists. split; [reflexivity|]. split.
      { rewrite <- (app_nil_r (down_wire _ _ _)). refine (exch_trans _ [] [] [] _ _ _ X _).
        apply exch_io_g; [by destruct X1|auto with guestfs]. }
      right. split_and!; [done|by left|]. intros [[_ _ Hcl _] _].
      change (Some e = io_close (l_io l)) in Hc. congruence.
    + exists (-1), l1, []. split_and!; [done|exact X|]. right. split_and!; [done|by left|tauto].
  - destruct Hres as (Hn & its1 & its2 & -> & X1 & Hi1). apply Forall_app in Hit as [_ Hit2].
    destruct (recv_file_cancel_spec its2 ps term rest l1) as (l2 & E2 & X2); [by destruct X1|done..|].
    exists (-1), l2, (flag_word GUESTFS_CANCEL_FLAG). split_and!; [exact E2|..].
    + unfold down_wire. rewrite fmap_app, concat_app, <- app_assoc.
      exact (exch_trans _ _ _ _ _ _ _ X0 (exch_trans _ _ _ _ _ _ _ X1 X2)).
    + right. split_and!; [done|by right|]. intros [[H1 H2 H3 H4] _]. by apply Hn.
Qed.

(** ** guestfs___send *)

Definition call_header (proc_nr serial progress_hint optargs_bitmask : Z) : guestfs_message_header :=
  mk_message_header GUESTFS_PROGRAM GUESTFS_PROTOCOL_VERSION proc_nr GUESTFS_DIRECTION_CALL
    (u32 serial) progress_hint optargs_bitmask GUESTFS_STATUS_OK.

Lemma header_put h : xdr_put h (xdrmem_create_encode GUESTFS_MESSAGE_MAX) =
  Some (mk_xenc (header_wire h) (GUESTFS_MESSAGE_MAX - 40)).
Proof.
  rewrite (xdr_put_wire h). cbn [xdr_fits message_header_laws xdr_wire].
  rewrite xput_Some; rewrite zlength_header_wire; done.
Qed.

Lemma send_spec proc hint mask args l (put : xenc -> option xenc) ps cancel :
  lib_healthy l -> Forall progress_typed ps ->
  lib_inbox l = progress_frames ps ++ cancel_words cancel ->
  put (mk_xenc (header_wire (call_header proc (g_msg_next_serial (l_g l)) hint mask)) (GUESTFS_MESSAGE_MAX - 40)) =
    args ->
  exists r l', guestfs___send proc hint mask (Some put) l = (Ret r, l') /\
    g_msg_next_serial (l_g l') = s32 (g_msg_next_serial (l_g l) + 1) /\
    match args with
    | Some x => r = g_msg_next_serial (l_g l) /\ lib_healthy l' /\
        lib_outbox l' = lib_outbox l ++ frame (x_out x) /\
        exists din, lib_inbox l = din ++ lib_inbox l'
    | None => r = -1 /\ lib_outbox l' = lib_outbox l /\ lib_inbox l' = lib_inbox l
    end.
Proof.
  intros Hh Hps Hi Hput. unfold guestfs___send.
  set (serial := g_msg_next_serial (l_g l)) in *.
  set (l0 := l <| l_g; g_msg_next_serial := s32 (serial + 1) |>).
  destruct (lib_healthy_conn l Hh) as [c Ec]. change (l_conn l0) with (l_conn l). rewrite Ec.
  fold (call_header proc serial hint mask).
  rewrite header_put, Hput. destruct args as [x|].
  2: { do 2 eexists. split; [reflexivity|]. split_and!; [|done..].
       destruct (quiet_error (l_g l0) "dispatch failed to marshal args") as [_ _ _ _ _ E _]. exact E. }
  unfold xdr_getpos. fold (frame (x_out x)).
  destruct (check_daemon_socket_spec ps cancel l0 Hh Hps Hi) as (r & l1 & E1 & Hr). mstep E1.
  assert (exists din, exch_io din [] l0 l1) as [din X1]
    by (destruct Hr as [(_ & ? & ? & _ & X)|(_ & _ & X)]; eauto).
  destruct (write_message_spec (frame (x_out x)) serial l1) as (l2 & E2 & X2);
    [eapply exch_io_healthy, X1|apply frame_not_nil|].
  pose proof (exch_io_trans _ _ _ _ _ _ _ X1 X2) as [[Xi Xo Xh []] _ _].
  exists serial, l2. split_and!; [|done..|by exists (din ++ [])].
  destruct Hr as [(-> & _)|(-> & _)]; exact E2.
Qed.

End spec.

(** * Main theorems *)

(** Local files and connection for the examples. *)
Definition ex_io (rd : list read_ev) : file_io := mk_file_io None rd [] None [] [].
Definition ex_lib (bs : list byte) (rd : list read_ev) : lib connection_socket :=
  mk_lib Examples.ex_handle (Some (ex_socket bs)) (ex_io rd).
Definition ex_progress : guestfs_progress := mk_progress 282 0x123400 1 2.
Lemma ex_progress_typed : Forall progress_typed [ex_progress].
Proof. repeat constructor; cbn; lia. Qed.

(** guestfs___send on a connection with pending progress messages and at most one stray
    cancellation: the serial number advances by one with 32-bit wrap-around; if the arguments
    encode within the message limit exactly one frame with the call header and the arguments is
    written and its serial returned, otherwise -1 is returned with nothing written and nothing
    read. *)
Theorem send_request {C} `{ConnLaws C} {A} `{XdrLaws A} proc hint mask (a : A) ps cancel (l : lib C) :
  lib_healthy l -> Forall progress_typed ps ->
  lib_inbox l = progress_frames ps ++ cancel_words cancel ->
  exists r l', guestfs___send proc hint mask (Some (xdr_put a)) l = (Ret r, l') /\
    g_msg_next_serial (l_g l') = s32 (g_msg_next_serial (l_g l) + 1) /\
    if xdr_fits a && (40 + zlength (xdr_wire a) <=? GUESTFS_MESSAGE_MAX)
    then r = g_msg_next_serial (l_g l) /\ lib_healthy l' /\
         lib_outbox l' = lib_outbox l ++
           frame (header_wire (call_header proc (g_msg_next_serial (l_g l)) hint mask) ++ xdr_wire a)
    else r = -1 /\ lib_outbox l' = lib_outbox l /\ lib_inbox l' = lib_inbox l.
Proof.
  intros Hh Hps Hi. edestruct send_spec as (r & l' & E & Hs & Hr); [exact Hh|exact Hps|exact Hi|reflexivity|].
  exists r, l'. split_and!; [exact E|exact Hs|]. rewrite xdr_put_wire in Hr.
  destruct (xdr_fits a); cbn [andb]; [|exact Hr]. unfold xput in Hr. cbn [x_left] in Hr.
  destruct (Z.leb_spec (zlength (xdr_wire a)) (GUESTFS_MESSAGE_MAX - 40)),
    (Z.leb_spec (40 + zlength (xdr_wire a)) GUESTFS_MESSAGE_MAX); try lia; [|exact Hr].
  by destruct Hr as (? & ? & ? & _).
Qed.

Lemma send_request_witness :
  exists r l', guestfs___send 5 0 0 (Some (xdr_put ex_progress))
      (ex_lib (progress_frames [ex_progress] ++ cancel_words true) []) = (Ret r, l') /\
    r = 0x00123400 /\ lib_outbox l' =
      frame (header_wire (call_header 5 0x00123400 0 0) ++ progress_wire ex_progress).
Proof.
  destruct (send_request 5 0 0 ex_progress [ex_progress] true
    (ex_lib (progress_frames [ex_progress] ++ cancel_words true) [])) as (r & l' & E & _ & Hr & _ & Ho).
  - apply ex_socket_healthy.
  - apply ex_progress_typed.
  - reflexivity.
  - exists r, l'. split_and!; [exact E|exact Hr|exact Ho].
Defined.

(** guestfs___send_file always leaves the daemon a well-formed transfer when the daemon
    does not cancel: non-empty chunks of at most the chunk size followed by a completion chunk
    exactly when it returns 0, in which case the chunks make up the whole file, or by a
    cancellation chunk when it returns -1, which only happens when opening, reading or closing
    fails or the user cancels. *)
Theorem send_file_stream {C} `{ConnLaws C} fn ps (l : lib C) :
  lib_healthy l -> Forall progress_typed ps -> lib_inbox l = progress_frames ps ->
  exists r l' ds ps1 ps2, guestfs___send_file fn l = (Ret r, l') /\
    Forall block_ok ds /\ ps = ps1 ++ ps2 /\
    exch (progress_frames ps1)
      (data_frames ds ++ if r =? 0 then complete_frame else cancel_frame) l l' /\
    (r = 0 /\ concat ds = script_data (io_read (l_io l)) \/
     r = -1 /\ ~ local_upload_good (l_io l)).
Proof.
  intros Hh Hps Hi. destruct (send_file_spec fn ps false l) as (r & l' & ds & E & Hds & Hend);
    [done|done|by rewrite app_nil_r|].
  destruct Hend as [ps1 ps2 -> Hc X|ps1 ps2 -> Hb X|?|?]; [..|done|done];
    do 2 eexists; exists ds, ps1, ps2; split_and!; eauto.
Qed.

Lemma send_file_stream_witness :
  exists r l' ds ps1 ps2,
    guestfs___send_file "f" (ex_lib (progress_frames [ex_progress]) [RdErr EINTR; RdData [x61; x62]])
      = (Ret r, l') /\ Forall block_ok ds /\ [ex_progress] = ps1 ++ ps2 /\
    exch (progress_frames ps1) (data_frames ds ++ if r =? 0 then complete_frame else cancel_frame)
      (ex_lib (progress_frames [ex_progress]) [RdErr EINTR; RdData [x61; x62]]) l' /\
    (r = 0 /\ concat ds = [x61; x62] \/
     r = -1 /\ ~ local_upload_good (ex_io [RdErr EINTR; RdData [x61; x62]])).
Proof.
  apply (send_file_stream "f" [ex_progress]
    (ex_lib (progress_frames [ex_progress]) [RdErr EINTR; RdData [x61; x62]])).
  - apply ex_socket_healthy.
  - apply ex_progress_typed.
  - reflexivity.
Defined.

(** When the daemon cancels an upload, guestfs___send_file either notices, returns -2 after
    a cancellation chunk and consumes the cancellation flag, or had already sent the whole file
    and its completion chunk. *)
Theorem send_file_daemon_cancel {C} `{ConnLaws C} fn ps (l : lib C) :
  lib_healthy l -> Forall progress_typed ps -> local_upload_good (l_io l) ->
  lib_inbox l = progress_frames ps ++ flag_word GUESTFS_CANCEL_FLAG ->
  exists r l' ds, guestfs___send_file fn l = (Ret r, l') /\ Forall block_ok ds /\
    ((r = -2 /\ lib_inbox l' = [] /\ lib_healthy l' /\
      lib_outbox l' = lib_outbox l ++ data_frames ds ++ cancel_frame) \/
     (r = 0 /\ lib_healthy l' /\ concat ds = script_data (io_read (l_io l)) /\
      lib_outbox l' = lib_outbox l ++ data_frames ds ++ complete_frame)).
Proof.
  intros Hh Hps Hg Hi. destruct (send_file_spec fn ps true l) as (r & l' & ds & E & Hds & Hend);
    [done..|]. exists r, l', ds. split_and!; [done..|].
  destruct Hend as [ps1 ps2 -> Hc []|ps1 ps2 -> Hb _|_ Hi' []|_ Hb _ _]; [|done| |done]; auto.
Qed.

Lemma send_file_daemon_cancel_witness :
  let l := ex_lib (flag_word GUESTFS_CANCEL_FLAG) [RdData [x61; x62]] in
  exists r l' ds, guestfs___send_file "f" l = (Ret r, l') /\ Forall block_ok ds /\
    ((r = -2 /\ lib_inbox l' = [] /\ lib_healthy l' /\
      lib_outbox l' = lib_outbox l ++ data_frames ds ++ cancel_frame) \/
     (r = 0 /\ lib_healthy l' /\ concat ds = [x61; x62] /\
      lib_outbox l' = lib_outbox l ++ data_frames ds ++ complete_frame)).
Proof.
  intros l. apply (send_file_daemon_cancel "f" [] l).
  - apply ex_socket_healthy.
  - constructor.
  - split; [reflexivity|repeat constructor; discriminate|reflexivity|constructor].
  - reflexivity.
Defined.



(** guestfs___recv skips stray cancellation flags and progress messages before a reply and
    returns the decoded header, error and result, leaving exactly the bytes after the reply
    unread and writing nothing. *)
Theorem recv_reply {C} `{ConnLaws C} {A} fn (xdrp : option (list byte -> option (A * list byte)))
    segs ps h body rest (l : lib C) rep :
  lib_healthy l -> Forall (Forall progress_typed) segs -> Forall progress_typed ps ->
  header_typed h -> message_ok (header_wire h ++ body) -> decode_reply xdrp h body = Some rep ->
  lib_inbox l = stray segs ++ progress_frames ps ++ frame (header_wire h ++ body) ++ rest ->
  exists l', guestfs___recv fn xdrp l = (Ret (0, rep), l') /\
    lib_inbox l' = rest /\ lib_outbox l' = lib_outbox l /\ lib_healthy l' /\ quiet (l_g l) (l_g l').
Proof.
  intros ? ? ? ? ? ? Hi. destruct (recv_spec fn xdrp segs ps h body rest l rep) as (l' & E & X); [done..|].
  exists l'. split_and!; [done|..].
  - eapply exch_io_inbox; [exact X|]. by rewrite Hi, <- !app_assoc.
  - destruct X as [[_ Ho _ _] _ _]. by rewrite Ho, app_nil_r.
  - by eapply exch_io_healthy.
  - destruct X as [[_ _ _ []] _ Hc]. by split.
Qed.

Definition ex_error_header : guestfs_message_header :=
  mk_message_header GUESTFS_PROGRAM GUESTFS_PROTOCOL_VERSION 5 GUESTFS_DIRECTION_REPLY 0x123400 0 0
    GUESTFS_STATUS_ERROR.
Definition ex_error : guestfs_message_error :=
  mk_message_error (bytes_of_string "ENOENT") (bytes_of_string "no such file").

Lemma recv_reply_witness :
  let l := ex_lib (stray [[ex_progress]] ++ progress_frames [] ++
             frame (header_wire ex_error_header ++ error_wire ex_error) ++ [x00]) [] in
  exists l', guestfs___recv (A := unit) "touch" None l = (Ret (0, mk_reply ex_error_header ex_error None), l') /\
    lib_inbox l' = [x00] /\ lib_outbox l' = lib_outbox l /\ lib_healthy l' /\ quiet (l_g l) (l_g l').
Proof.
  intros l. apply (recv_reply "touch" None [[ex_progress]] [] ex_error_header (error_wire ex_error)).
  - apply ex_socket_healthy.
  - constructor; [apply ex_progress_typed|constructor].
  - constructor.
  - repeat split; discriminate.
  - split; vm_compute; [reflexivity|discriminate].
  - vm_compute. reflexivity.
  - reflexivity.
Defined.

(** C34: guestfs___recv_file consumes exactly one transfer and no byte more, whatever its chunks
    and progress messages and whichever local operation fails: when it returns 0 nothing was
    sent back and the local file holds exactly the concatenation of the chunks, whatever it held
    before; when it returns -1 at most one cancellation was sent, and a local operation failed,
    the user cancelled or the daemon did. *)
Theorem recv_file_sync {C} `{ConnLaws C} fn items ps term rest (l : lib C) :
  lib_healthy l -> Forall item_ok items -> Forall progress_typed ps -> terminator_ok term ->
  lib_inbox l = down_wire items ps term ++ rest ->
  exists r l' dout, guestfs___recv_file fn l = (Ret r, l') /\
    lib_inbox l' = rest /\ lib_outbox l' = lib_outbox l ++ dout /\ lib_healthy l' /\
    (r = 0 /\ dout = [] /\ chunk_cancel term = 0 /\
       io_data (l_io l') = concat (snd <$> items) \/
     r = -1 /\ (dout = [] \/ dout = flag_word GUESTFS_CANCEL_FLAG) /\
       ~ (local_download_good (l_io l) /\ chunk_cancel term = 0)).
Proof.
  intros ? ? ? ? Hi.
  destruct (recv_file_spec fn items ps term rest l) as (r & l' & dout & E & X & Hr); [done..|].
  exists r, l', dout. split_and!; [done|by eapply exch_inbox|by destruct X..|done].
Qed.

Lemma recv_file_sync_witness :
  let items := [([ex_progress], [x61; x62]); ([], [x63])] in
  let l := (ex_lib (down_wire items [] (mk_chunk 0 []) ++ [x00]) []) <| l_io; io_data := [x7a] |> in
  exists r l' dout, guestfs___recv_file "f" l = (Ret r, l') /\
    lib_inbox l' = [x00] /\ lib_outbox l' = lib_outbox l ++ dout /\ lib_healthy l' /\
    (r = 0 /\ dout = [] /\ chunk_cancel (mk_chunk 0 []) = 0 /\
       io_data (l_io l') = [x61; x62; x63] \/
     r = -1 /\ (dout = [] \/ dout = flag_word GUESTFS_CANCEL_FLAG) /\
       ~ (local_download_good (l_io l) /\ chunk_cancel (mk_chunk 0 []) = 0)).
Proof.
  intros items l. apply (recv_file_sync "f" items [] (mk_chunk 0 []) [x00] l).
  - apply ex_socket_healthy.
  - repeat constructor; try discriminate; cbn; lia.
  - constructor.
  - repeat split; discriminate.
  - reflexivity.
Defined.
