(* ===== verification/LibProtoSafe.v ===== *)
(** What src/proto.c guarantees on every connection, healthy or not, whatever
    the daemon sends: every operation returns or blocks (its loops never run out
    of the fuel they are given, no assertion fails, a lost connection is not
    used), and the handle only moves along the transitions of [lib_step], so
    that a handle without a connection is always back in the CONFIG state. *)

From S2P Require Import Prelude Xdr Protocol Handle Events Conn LibProto LibProtoSpec.
Local Open Scope Z_scope.

Section safe.
Context {C : Type} `{ConnLaws C}.
Implicit Types l : lib C.

(** ** The transitions *)

Inductive lib_step : lib C -> lib C -> Prop :=
  | step_same l l' :
      g_state (l_g l') = g_state (l_g l) -> g_drives (l_g l') = g_drives (l_g l) ->
      (l_conn l' = None <-> l_conn l = None) -> lib_step l l'
  | step_launched l l' :
      g_state (l_g l) = LAUNCHING -> g_state (l_g l') = READY ->
      g_drives (l_g l') = g_drives (l_g l) -> (l_conn l' = None <-> l_conn l = None) -> lib_step l l'
  | step_closed l l' :
      g_state (l_g l') = CONFIG -> g_drives (l_g l') = [] -> l_conn l' = None -> lib_step l l'.

Definition evolves : lib C -> lib C -> Prop := rtc lib_step.

Lemma evolves_once l0 l l' : evolves l0 l -> lib_step l l' -> evolves l0 l'.
Proof. intros. by eapply rtc_r. Qed.

Definition lib_budget l : nat := match l_conn l with Some c => conn_budget c | None => 0%nat end.

(** The states reached from [l0]; with the local files as in [io]; with a
    connection. *)
Definition from (l0 : lib C) (io : file_io) l : Prop := evolves l0 l /\ l_io l = io.
Definition online l : Prop := l_conn l <> None.
Definition live (l0 : lib C) (io : file_io) l : Prop := from l0 io l /\ online l.
Definition within (b : nat) l : Prop := (lib_budget l <= b)%nat.

(** Predicates that events and error messages leave alone. *)
Class GClosed (P : lib C -> Prop) :=
  g_closed l f : P l -> quiet (l_g l) (f (l_g l)) -> P (upd l_g f l).

#[local] Instance evolves_g l0 : GClosed (evolves l0).
Proof. intros l f He []. eapply evolves_once; [done|]. by apply step_same. Qed.
#[local] Instance from_g l0 io : GClosed (from l0 io).
Proof. intros l f [He Hio] Hq. split; [by apply (evolves_g l0)|done]. Qed.
#[local] Instance online_g : GClosed online.
Proof. by intros l f ? ?. Qed.
#[local] Instance within_g b : GClosed (within b).
Proof. by intros l f ? ?. Qed.
#[local] Instance and_g P Q : GClosed P -> GClosed Q -> GClosed (fun l => P l /\ Q l).
Proof. intros HP HQ l f [? ?] Hq. split; [by apply HP|by apply HQ]. Qed.
#[local] Instance live_g l0 io : GClosed (live l0 io).
Proof. apply and_g; apply _. Qed.

Lemma evolves_io l0 l f : evolves l0 l -> evolves l0 (upd l_io f l).
Proof. intros He. eapply evolves_once; [done|]. by apply step_same. Qed.

Lemma hoare_on_g P f : GClosed P -> (forall g, quiet g (f g)) -> hoare P (on_g f) (fun _ => P).
Proof. intros HP Hf. apply hoare_modify. intros l Hl. by apply HP. Qed.

Lemma hoare_report {A} P f (a : A) : GClosed P -> (forall g, quiet g (f g)) ->
  hoare P (on_g f ;;; ret a) (fun _ => P).
Proof. intros HP Hf. eapply hoare_bind; [by apply hoare_on_g|]. intros ?. by apply hoare_ret. Qed.

Lemma hoare_read l0 io b n :
  hoare (fun l => live l0 io l /\ within b l) (on_conn (read_data n))
    (fun '(r, bs) l => live l0 io l /\
       (r = 0 \/ r = -1 \/ r = Z.of_nat n /\ length bs = n /\ (0 < n)%nat /\ (lib_budget l + n <= b)%nat)).
Proof.
  intros l [[[He Hio] Hon] Hb]. unfold on_conn, within, lib_budget in *.
  destruct l as [g [c|] io']; cbn in *; [|by destruct Hon].
  pose proof (read_data_ends g c n) as Hend.
  destruct (read_data n (g, c)) as [[[r bs]|w] [g' c']] eqn:E; cbn in Hend; [|by apply Hend].
  pose proof (read_data_sound _ _ _ _ _ _ _ E) as (Hr & _ & []).
  split; [split; [split; [|done]; eapply evolves_once; [done|]; by apply step_same|done]|].
  destruct Hr as [(-> & ? & _)|[?|?]]; auto. destruct (Nat.eq_0_gt_0_cases n) as [->|Hn]; [by left|].
  right; right. split_and!; [done..|].
  pose proof (read_data_budget _ _ _ _ _ _ E Hn). cbn in *. lia.
Qed.

Lemma hoare_write l0 io bs : hoare (live l0 io) (on_conn (write_data bs)) (fun _ => live l0 io).
Proof.
  intros l [[He Hio] Hon]. unfold on_conn. destruct l as [g [c|] io']; cbn in *; [|by destruct Hon].
  pose proof (write_data_ends g c bs) as Hend.
  destruct (write_data bs (g, c)) as [[r|w] [g' c']] eqn:E; cbn in Hend; [|by apply Hend].
  pose proof (write_data_sound _ _ _ _ _ _ E) as (_ & []).
  split; [split; [|done]|done]. eapply evolves_once; [done|]. by apply step_same.
Qed.

Lemma hoare_can_read l0 io b :
  hoare (fun l => live l0 io l /\ within b l) (on_conn can_read_data) (fun _ l => live l0 io l /\ within b l).
Proof.
  intros l [[[He Hio] Hon] Hb]. unfold on_conn, within, lib_budget in *.
  destruct l as [g [c|] io']; cbn in *; [|by destruct Hon].
  pose proof (can_read_data_ends g c) as Hend.
  destruct (can_read_data (g, c)) as [[r|w] [g' c']] eqn:E; cbn in Hend; [|by apply Hend].
  pose proof (can_read_data_sound _ _ _ _ _ E) as (Hb' & _ & _ & []).
  split; [split; [split; [|done]|done]|cbn; lia]. eapply evolves_once; [done|]. by apply step_same.
Qed.

(** ** The end of the connection *)

Lemma g_state_call_callbacks g ev : 
  g_state (guestfs___call_callbacks_void g ev) = g_state g /\
  g_drives (guestfs___call_callbacks_void g ev) = g_drives g.
Proof.
  unfold guestfs___call_callbacks_void. rewrite call_callbacks_from_dispatched. done.
Qed.

Lemma hoare_unexpected_close l0 io :
  hoare (from l0 io) unexpected_close
    (fun _ l => from l0 io l /\ l_conn l = None /\ g_state (l_g l) = CONFIG /\ g_drives (l_g l) = []).
Proof.
  intros l [He Hio]. cbn.
  destruct (g_state_call_callbacks
    (guestfs___free_drives ((guestfs___debug (guestfs___unexpected_close_error (l_g l))
       "child_cleanup: child process died") <| g_launch_t := mk_timeval 0 0 |>)
       <| g_state := CONFIG |>) GUESTFS_EVENT_SUBPROCESS_QUIT) as [Es Ed].
  split_and!; [|done..]. split; [|done].
  eapply evolves_once; [done|]. by apply step_closed.
Qed.

Lemma hoare_closed {A} l0 io (a : A) (Q : A -> lib C -> Prop) :
  (forall l, from l0 io l -> Q a l) -> hoare (live l0 io) (unexpected_close ;;; ret a) Q.
Proof.
  intros HQ. eapply hoare_bind; [eapply hoare_pre; [apply hoare_unexpected_close|by intros l []]|].
  intros ?. apply hoare_ret. intros l [Hl _]. by apply HQ.
Qed.

(** ** check_daemon_socket and sending *)

Lemma progress_get_any bs : length bs = Z.to_nat PROGRESS_MESSAGE_SIZE ->
  exists p, xdr_get (A := guestfs_progress) bs = Some (p, []).
Proof.
  intros Hl. change (Z.to_nat PROGRESS_MESSAGE_SIZE) with 24%nat in Hl. cbn.
  unfold xdr_guestfs_progress_get, xdr_int_get, xdr_u_int_get, xdr_uint64_get, xget.
  do 24 (destruct bs as [|? bs]; [done|]). destruct bs; [|done]. cbn. by eexists.
Qed.

Lemma hoare_handle_progress P bs : GClosed P -> length bs = Z.to_nat PROGRESS_MESSAGE_SIZE ->
  hoare P (handle_progress bs) (fun _ => P).
Proof.
  intros HP Hl. unfold handle_progress. destruct (progress_get_any bs Hl) as [p ->].
  apply hoare_on_g; [done|]. intros. apply quiet_progress_message_callback.
Qed.

Lemma hoare_check_daemon_loop l0 io : forall fuel b, (b < fuel)%nat ->
  hoare (fun l => live l0 io l /\ within b l) (check_daemon_loop fuel) (fun _ => live l0 io).
Proof.
  induction fuel as [|fuel IH]; intros b Hf; [lia|]. cbn [check_daemon_loop].
  eapply hoare_bind; [apply hoare_can_read|]. intros can.
  apply hoare_if; intros _; [apply hoare_ret; by intros l []|].
  eapply hoare_bind; [apply (hoare_read l0 io b 4)|]. intros [n buf]. cbn beta iota.
  apply hoare_if; intros Hn; [apply hoare_ret; by intros l []|]. apply Z.leb_gt in Hn.
  eapply (hoare_pre _ (fun l => live l0 io l /\ within (b - 4) l /\ (4 <= b)%nat)).
  2: { intros l [? Hr]. unfold within. split; [done|lia]. }
  apply hoare_if; intros _.
  - eapply hoare_bind.
    { eapply hoare_pre; [apply (hoare_read l0 io (b - 4))|tauto]. }
    intros [n2 buf2]. cbn beta iota. apply hoare_if; intros Hn2; [apply hoare_ret; by intros l []|].
    apply Z.leb_gt in Hn2. intros l [Hl Hr]. destruct Hr as [?|[?|(-> & Hlen & _ & Hb)]]; [lia|lia|].
    refine (hoare_bind _ _ _ _ _ (hoare_handle_progress (fun l => live l0 io l /\ within (b - 28) l) buf2 _ Hlen) _ l _).
    + intros ?. apply IH. lia.
    + split; [done|]. unfold PROGRESS_MESSAGE_SIZE, within in *. lia.
  - apply hoare_if; intros _; [|apply hoare_ret; by intros l []].
    eapply hoare_pre; [by apply (hoare_report (live l0 io)); auto with guestfs; apply _|by intros l []].
Qed.

Lemma hoare_check_daemon_socket l0 io : hoare (live l0 io) check_daemon_socket (fun _ => live l0 io).
Proof.
  intros l Hl. unfold check_daemon_socket. destruct (l_conn l) as [c|] eqn:Ec; [|by destruct Hl as [_ []]].
  apply (hoare_check_daemon_loop l0 io (S (conn_budget c)) (conn_budget c)); [lia|].
  split; [done|]. unfold within, lib_budget. by rewrite Ec.
Qed.

(** The connection is lost only with the result -1. *)
Definition sent (l0 : lib C) (io : file_io) (r : Z) l : Prop := from l0 io l /\ (r <> -1 -> online l).

Lemma sent_live l0 io r l : live l0 io l -> sent l0 io r l.
Proof. by intros []. Qed.
Lemma sent_lost l0 io l : from l0 io l -> sent l0 io (-1) l.
Proof. by split. Qed.

Lemma hoare_write_message l0 io bs ok : hoare (live l0 io) (write_message bs ok) (sent l0 io).
Proof.
  eapply hoare_bind; [apply hoare_write|]. intros r.
  apply hoare_if; intros _; [apply hoare_ret, sent_live|].
  apply hoare_if; intros _; [apply hoare_closed, sent_lost|apply hoare_ret, sent_live].
Qed.

Lemma quiet_unexpected_close_error g : quiet g (guestfs___unexpected_close_error g).
Proof. apply quiet_error. Qed.

Lemma hoare_report_lost l0 io f : (forall g, quiet g (f g)) ->
  hoare (from l0 io) (on_g f ;;; ret (-1)) (sent l0 io).
Proof.
  intros Hf. eapply hoare_bind; [apply (hoare_on_g (from l0 io)); [apply _|done]|].
  intros ?. apply hoare_ret, sent_lost.
Qed.

Lemma hoare_send l0 io proc hint mask xdrp :
  hoare (from l0 io) (guestfs___send proc hint mask xdrp) (sent l0 io).
Proof.
  intros l [He Hio]. unfold guestfs___send.
  set (l1 := l <| l_g; g_msg_next_serial := _ |>).
  assert (from l0 io l1) as Hl1.
  { split; [|done]. eapply evolves_once; [done|]. by apply step_same. }
  destruct (l_conn l1) eqn:Ec; [|by apply hoare_report_lost; [apply quiet_unexpected_close_error|]].
  destruct (xdr_put _ _) as [x|]; [|by apply hoare_report_lost; [auto with guestfs|]].
  destruct (match xdrp with Some put => put x | None => Some x end) as [x'|];
    [|by apply hoare_report_lost; [auto with guestfs|]].
  assert (live l0 io l1) as Hl2 by (split; [done|unfold online; congruence]). clear Ec Hl1.
  revert l1 Hl2. generalize (g_msg_next_serial (l_g l)) as serial. intros serial.
  eapply hoare_bind; [apply hoare_check_daemon_socket|]. intros r.
  apply hoare_if; intros _; [apply hoare_ret, sent_live|].
  apply hoare_if; intros _; [apply hoare_closed, sent_lost|]. apply hoare_write_message.
Qed.

Lemma hoare_send_file_chunk l0 io cancel buf :
  hoare (live l0 io) (send_file_chunk cancel buf) (sent l0 io).
Proof.
  unfold send_file_chunk. destruct (xdr_put _ _).
  2: { eapply hoare_post; [apply (hoare_report (live l0 io)); [apply _|auto with guestfs]|].
       intros a s. apply sent_live. }
  eapply hoare_bind; [apply hoare_check_daemon_socket|]. intros r.
  apply hoare_if; intros _.
  { eapply hoare_post; [apply (hoare_report (live l0 io)); [apply _|auto with guestfs]|].
    intros a s. apply sent_live. }
  apply hoare_if; intros _; [apply hoare_ret, sent_live|].
  apply hoare_if; intros _; [apply hoare_closed, sent_lost|]. apply hoare_write_message.
Qed.

(** The states reached from [l0] that have a connection. *)
Definition up (l0 : lib C) l : Prop := evolves l0 l /\ online l.
#[local] Instance up_g l0 : GClosed (up l0).
Proof. apply and_g; apply _. Qed.

(** Forget the local files. *)
Lemma hoare_any {A} l0 (m : M (lib C) A) (Q : A -> lib C -> Prop) :
  (forall io, hoare (live l0 io) m Q) -> hoare (up l0) m Q.
Proof. intros Hm l [He Hon]. by apply (Hm (l_io l) l). Qed.
Lemma hoare_any' {A} l0 (m : M (lib C) A) (f : A -> Z) :
  (forall io, hoare (from l0 io) m (fun a => sent l0 io (f a))) ->
  hoare (evolves l0) m (fun a l => evolves l0 l /\ (f a <> -1 -> online l)).
Proof.
  intros Hm l Hl. specialize (Hm (l_io l) l (conj Hl eq_refl)).
  destruct (m l) as [[a|w] l']; [|done]. by destruct Hm as [[] ?].
Qed.

(** Looking at the user's cancellation. *)
Lemma hoare_user_cancel l0 q b :
  hoare (fun l => up l0 l /\ within b l /\ io_read (l_io l) = q) read_user_cancel
    (fun _ l => up l0 l /\ within b l /\ io_read (l_io l) = q).
Proof.
  intros l [[He Hon] [Hb Hq]]. unfold read_user_cancel. destruct (io_cancel (l_io l));
  (split; [split; [eapply evolves_io, evolves_once; [exact He|]; by apply step_same|done]|done]).
Qed.
Lemma hoare_user_cancel_up l0 : hoare (up l0) read_user_cancel (fun _ => up l0).
Proof.
  intros l Hl. pose proof (hoare_user_cancel l0 (io_read (l_io l)) (lib_budget l) l (conj Hl (conj (le_n _) eq_refl))) as Hr.
  destruct (read_user_cancel l) as [[c|w] l']; [|done]. apply Hr.
Qed.

Lemma hoare_cancellation {A} l0 (a : A) :
  hoare (up l0) (send_file_cancellation ;;; ret a) (fun _ => evolves l0).
Proof.
  eapply hoare_bind; [apply hoare_any; intros io; eapply hoare_post; [apply hoare_send_file_chunk|]|].
  - intros r l [[He _] _]. exact He.
  - intros ?. by apply hoare_ret.
Qed.

(** What follows a chunk that could not be sent. *)
Lemma hoare_chunk_failed l0 io err :
  hoare (sent l0 io err) (if err =? -2 then (send_file_cancellation ;;; ret tt) else ret tt)
    (fun _ => evolves l0).
Proof.
  destruct (Z.eqb_spec err (-2)) as [->|]; [|apply hoare_ret; by intros l [[] _]].
  eapply hoare_pre; [apply hoare_cancellation|]. intros l [[He _] Hon]. split; [done|by apply Hon].
Qed.

Lemma hoare_send_file_loop l0 : forall fuel q r e, (script_size q < fuel)%nat ->
  hoare (fun l => up l0 l /\ io_read (l_io l) = q) (send_file_loop fuel r e)
    (fun x l => match x with inl _ => up l0 l | inr _ => evolves l0 l end).
Proof.
  induction fuel as [|fuel IH]; intros q r e Hf; [lia|]. cbn [send_file_loop].
  apply (hoare_bind _ _ (fun _ l => up l0 l /\ io_read (l_io l) = q)).
  { intros l [Hl Hq]. pose proof (hoare_user_cancel l0 q (lib_budget l) l (conj Hl (conj (le_n _) Hq))) as Hr.
    destruct (read_user_cancel l) as [[c|w] l']; [|done]. by destruct Hr as (? & _ & ?). }
  intros c. apply hoare_if; intros _; [apply hoare_ret; by intros l []|]. intros l [[He Hon] Hq]. cbv beta. rewrite Hq.
  destruct (file_read (Z.to_nat GUESTFS_MAX_CHUNK_SIZE) q) as [ev q'] eqn:Er.
  apply file_read_spec in Er as [Hev _]; [|unfold GUESTFS_MAX_CHUNK_SIZE; lia].
  set (l1 := l <| l_io; io_read := q' |>).
  assert (up l0 l1) as He1 by (split; [by apply evolves_io|done]).
  destruct ev as [[|b0 bs]|errnum]; [done|..].
  - destruct Hev as (_ & _ & Hs & _). specialize (Hs ltac:(done)).
    refine (hoare_bind _ _ _ _ _ (hoare_send_file_chunk l0 (l_io l1) 0 (b0 :: bs)) _ l1 _);
      [|by destruct He1].
    intros err. apply hoare_if; intros Herr.
    + eapply hoare_bind; [apply hoare_chunk_failed|]. intros ?. by apply hoare_ret.
    + eapply hoare_pre; [apply (IH q'); lia|]. intros l2 [[? Hio] Hon2].
      split; [split; [done|apply Hon2; lia]|by rewrite Hio].
  - destruct (retry errnum) eqn:Ert; [|done]. destruct (Hev eq_refl). apply (IH q'); [lia|done].
Qed.

Lemma hoare_fail_cancel l0 f : (forall g, quiet g (f g)) ->
  hoare (up l0) (on_g f ;;; send_file_cancellation ;;; ret (-1)) (fun _ => evolves l0).
Proof.
  intros Hf. eapply hoare_bind; [apply (hoare_on_g (up l0)); [apply _|done]|].
  intros ?. apply hoare_cancellation.
Qed.

Lemma hoare_send_file l0 fn : hoare (up l0) (guestfs___send_file fn) (fun _ => evolves l0).
Proof.
  intros l [He Hon]. unfold guestfs___send_file. set (l1 := l <| l_g; g_user_cancel := false |>).
  assert (up l0 l1) as He1 by (split; [eapply evolves_once; [done|]; by apply step_same|done]).
  destruct (io_open (l_io l1)); [by apply hoare_fail_cancel; [auto with guestfs|]|].
  refine (hoare_bind _ _ _ _ _ (hoare_send_file_loop l0 _ (io_read (l_io l1)) 0 0 _) _ l1 _); [lia| |done].
  intros [[r e]|err]; [|by apply hoare_ret].
  apply hoare_if; intros _; [apply hoare_fail_cancel; auto with guestfs|].
  eapply hoare_bind; [apply hoare_user_cancel_up|]. intros c.
  apply hoare_if; intros _; [apply hoare_fail_cancel; apply quiet_user_cancelled|].
  intros l2 He2. cbv beta. destruct (io_close (l_io l2)); [by apply hoare_fail_cancel; [auto with guestfs|]|].
  revert l2 He2. apply hoare_any. intros io. eapply hoare_bind; [apply hoare_send_file_chunk|].
  intros err. apply hoare_if; intros _; [|apply hoare_ret; by intros l2 [[] _]].
  eapply hoare_bind; [apply hoare_chunk_failed|]. intros ?. by apply hoare_ret.
Qed.

(** ** Receiving *)

Definition received (l0 : lib C) (io : file_io) (b : nat) (x : Z * Z * option (list byte)) l : Prop :=
  from l0 io l /\ (fst (fst x) = -1 \/ fst (fst x) = 0 /\ online l /\ (lib_budget l + 4 <= b)%nat) /\
  (snd (fst x) = GUESTFS_PROGRESS_FLAG -> fst (fst x) = 0 -> exists buf, snd x = Some buf /\ length buf = 24%nat) /\
  (snd x = None -> fst (fst x) = 0 -> 
     snd (fst x) = GUESTFS_LAUNCH_FLAG \/ snd (fst x) = GUESTFS_CANCEL_FLAG).

Lemma received_fail l0 io b size l : from l0 io l -> received l0 io b (-1, size, None) l.
Proof. intros Hl. split_and!; cbn; auto; done. Qed.

Lemma hoare_closed_recv l0 io b size :
  hoare (live l0 io) (unexpected_close ;;; ret (-1, size, None)) (received l0 io b).
Proof. apply hoare_closed. intros l. apply received_fail. Qed.

Lemma recv_launch_flag_spec g :
  g_drives (recv_launch_flag g) = g_drives g /\
  g_state (recv_launch_flag g) = if decide (g_state g = LAUNCHING) then READY else g_state g.
Proof.
  unfold recv_launch_flag. set (g1 := if decide _ then _ else _).
  destruct (quiet_debug g1 "recv_from_daemon: received GUESTFS_LAUNCH_FLAG") as [-> _ _ -> _ _ _].
  unfold g1. destruct (decide (g_state g = LAUNCHING)) as [Es|Es].
  - by destruct (g_state_call_callbacks (g <| g_state := READY |>) GUESTFS_EVENT_LAUNCH_DONE) as [-> ->].
  - by destruct (quiet_error g ("received magic signature from guestfsd, but in state "
                                +:+ pretty (state_int (g_state g)))) as [-> _ _ -> _ _ _].
Qed.

Lemma evolves_launch_flag l0 l : evolves l0 l -> evolves l0 (upd l_g recv_launch_flag l).
Proof.
  intros He. eapply evolves_once; [exact He|]. destruct (recv_launch_flag_spec (l_g l)) as [Ed Es].
  destruct (decide (g_state (l_g l) = LAUNCHING)); [by apply step_launched|by apply step_same].
Qed.

(** A flag word was read: what follows needs no more input. *)
Lemma hoare_recv_flag l0 io b size f :
  size = GUESTFS_LAUNCH_FLAG \/ size = GUESTFS_CANCEL_FLAG ->
  (forall l, evolves l0 l -> evolves l0 (upd l_g f l)) ->
  hoare (fun l => live l0 io l /\ (lib_budget l + 4 <= b)%nat) (on_g f ;;; ret (0, size, None)) (received l0 io b).
Proof.
  intros Hs Hf. eapply (hoare_bind _ _ (fun _ l => live l0 io l /\ (lib_budget l + 4 <= b)%nat)).
  - apply hoare_modify. intros l [[[He Hio] Hon] Hb]. split; [|done]. split; [|done]. split; [|done]. by apply Hf.
  - intros ?. apply hoare_ret. intros l [[? ?] ?]. split_and!; cbn; auto. intros ->. by destruct Hs.
Qed.

Lemma hoare_recv_connected l0 io b :
  hoare (fun l => live l0 io l /\ within b l) recv_connected (received l0 io b).
Proof.
  unfold recv_connected.
  eapply hoare_bind; [apply (hoare_read l0 io b 4)|]. intros [n buf]. cbn beta iota.
  destruct (Z.eqb_spec n (-1)) as [->|Hn1]; [apply hoare_ret; intros l [[? _] _]; by apply received_fail|].
  destruct (Z.eqb_spec n 0) as [->|Hn0]; [eapply hoare_pre; [apply hoare_closed_recv|by intros l []]|].
  eapply (hoare_pre _ (fun l => live l0 io l /\ (lib_budget l + 4 <= b)%nat)).
  2: { intros l [? Hr]. split; [done|lia]. }
  generalize (decode_u32 buf) as size. intros size.
  destruct (Z.eqb_spec size GUESTFS_LAUNCH_FLAG) as [->|HnL].
  { apply hoare_recv_flag; [by left|]. intros l. apply evolves_launch_flag. }
  destruct (Z.eqb_spec size GUESTFS_CANCEL_FLAG) as [->|HnC].
  { apply hoare_recv_flag; [by right|]. intros l Hl. apply (evolves_g l0); auto with guestfs. }
  apply hoare_if; intros Hbig.
  { eapply hoare_bind; [eapply hoare_pre; [apply (hoare_on_g (from l0 io)); [apply _|auto with guestfs]|by intros l [[] _]]|].
    intros ?. apply hoare_ret. intros l ?. by apply received_fail. }
  set (ms := if negb (size =? GUESTFS_PROGRESS_FLAG) then size else PROGRESS_MESSAGE_SIZE).
  eapply hoare_bind; [eapply hoare_pre; [apply (hoare_read l0 io (b - 4) (Z.to_nat ms))|]|].
  { intros l [? ?]. unfold within. split; [done|lia]. }
  intros [n2 buf2]. cbn beta iota.
  destruct (Z.eqb_spec n2 (-1)) as [->|Hm1]; [apply hoare_ret; intros l [[? _] _]; by apply received_fail|].
  destruct (Z.eqb_spec n2 0) as [->|Hm0]; [eapply hoare_pre; [apply hoare_closed_recv|by intros l []]|].
  apply hoare_ret. intros l [[? ?] [?|[?|(-> & Hlen & ? & ?)]]]; [lia|lia|].
  split_and!; cbn; [done|right; split_and!; [done..|lia]| |done].
  intros -> _. exists buf2. split; [done|]. unfold ms in Hlen. rewrite Z.eqb_refl in Hlen. exact Hlen.
Qed.

Lemma hoare_recv_from_daemon l0 io b :
  hoare (fun l => from l0 io l /\ within b l) recv_from_daemon (received l0 io b).
Proof.
  intros l [Hl Hb]. unfold recv_from_daemon. destruct (l_conn l) eqn:Ec.
  - apply hoare_recv_connected. split; [split; [done|unfold online; congruence]|done].
  - clear Hb Ec. revert l Hl.
    apply (hoare_bind _ _ _ _ _ (hoare_on_g (from l0 io) _ _ quiet_unexpected_close_error)).
    intros ?. apply hoare_ret. intros s ?. by apply received_fail.
Qed.

Lemma received_mono l0 io b b' x l : received l0 io b x l -> (b <= b')%nat -> received l0 io b' x l.
Proof.
  intros (H1 & H2 & H3 & H4) Hb. split_and!; auto. destruct H2 as [?|(? & ? & ?)]; [by left|right].
  split_and!; [done..|lia].
Qed.

Lemma hoare_recv_loop l0 io : forall fuel b, (b < fuel)%nat ->
  hoare (fun l => from l0 io l /\ within b l) (recv_loop fuel) (received l0 io b).
Proof.
  induction fuel as [|fuel IH]; intros b Hf; [lia|]. cbn [recv_loop].
  eapply hoare_bind; [apply hoare_recv_from_daemon|]. intros [[r size] buf]. cbn beta iota.
  destruct (Z.eqb_spec r (-1)) as [->|Hr].
  { apply hoare_ret. intros l [Hl _]. split_and!; cbn; auto; done. }
  intros l Hrec. assert (r = 0) as -> by by destruct Hrec as (_ & [?|[? _]] & _).
  destruct (Z.eqb_spec size GUESTFS_PROGRESS_FLAG) as [->|Hs].
  - destruct Hrec as (Hl & [?|(_ & _ & Hb)] & Hbuf & _); cbn in *; [done|].
    destruct (Hbuf eq_refl eq_refl) as (bf & -> & Hlen). cbn [from_option]. unfold id.
    refine (hoare_bind _ _ _ _ _ (hoare_handle_progress (fun l => from l0 io l /\ within (b - 4) l) bf _ Hlen) _ l _).
    + intros ?. eapply hoare_post; [apply (IH (b - 4)%nat); lia|].
      intros x s Hx. eapply received_mono; [done|lia].
    + unfold within. split; [done|lia].
  - destruct (_ || _) eqn:Eo; [done|]. destruct buf; [done|]. destruct Hrec as (_ & _ & _ & Hn).
    apply orb_false_elim in Eo as [?%Z.eqb_neq ?%Z.eqb_neq]. by destruct (Hn eq_refl eq_refl).
Qed.

Lemma budget_fuel l : (lib_budget l < fuel_of l)%nat.
Proof. unfold lib_budget, fuel_of. destruct (l_conn l); lia. Qed.

Lemma hoare_recv_daemon l0 io b :
  hoare (fun l => from l0 io l /\ within b l) guestfs___recv_from_daemon (received l0 io b).
Proof.
  intros l [Hl Hb]. unfold guestfs___recv_from_daemon.
  refine (hoare_post _ _ _ _ (hoare_recv_loop l0 io (fuel_of l) (lib_budget l) (budget_fuel l)) _ l (conj Hl (le_n _))).
  intros x s Hx. by eapply received_mono.
Qed.

Lemma hoare_recv_uncancelled l0 io fn : forall fuel b, (b < fuel)%nat ->
  hoare (fun l => from l0 io l /\ within b l) (recv_uncancelled fuel fn) (fun x => sent l0 io (fst x)).
Proof.
  induction fuel as [|fuel IH]; intros b Hf; [lia|]. cbn [recv_uncancelled].
  eapply hoare_bind; [apply hoare_recv_daemon|]. intros [[r size] buf]. cbn beta iota.
  destruct (Z.eqb_spec r (-1)) as [->|Hr]; [apply hoare_ret; intros l [? _]; by apply sent_lost|].
  apply hoare_if; intros _.
  - intros l (Hl & [?|(-> & _ & Hb)] & _); cbn in *; [done|].
    apply (IH (b - 4)%nat); [lia|]. unfold within. split; [done|lia].
  - apply hoare_if; intros _.
    + eapply hoare_bind; [eapply hoare_pre; [apply (hoare_on_g (from l0 io)); [apply _|auto with guestfs]|by intros l [? _]]|].
      intros ?. apply hoare_ret. intros l ?. by apply sent_lost.
    + apply hoare_ret. intros l (? & [?|(_ & ? & _)] & _); [done|]. by apply sent_live.
Qed.

Lemma hoare_recv {A} l0 io fn (xdrp : option (list byte -> option (A * list byte))) :
  hoare (from l0 io) (guestfs___recv fn xdrp) (fun x => sent l0 io (fst x)).
Proof.
  intros l Hl. unfold guestfs___recv.
  refine (hoare_bind _ _ _ _ _ (hoare_recv_uncancelled l0 io fn _ _ (budget_fuel l)) _ l (conj Hl (le_n _))).
  intros [r buf]. cbn beta iota.
  destruct (Z.eqb_spec r (-1)) as [->|Hr]; [apply hoare_ret; intros s []; by apply sent_lost|].
  eapply (hoare_pre _ (live l0 io)); [|by intros s [? Hon]; split; [done|apply Hon]].
  assert (forall (rep : reply A) f, (forall g, quiet g (f g)) ->
    hoare (live l0 io) (on_g f ;;; ret (-1, rep)) (fun x => sent l0 io (fst x))) as Hrep.
  { intros rep f Hf. eapply hoare_post; [apply (hoare_report (live l0 io)); [apply _|done]|].
    intros a s. apply sent_live. }
  destruct (xdr_get buf) as [[hdr s]|]; [|apply Hrep; auto with guestfs].
  apply hoare_if; intros _.
  - destruct (xdr_get s) as [[e ?]|]; [apply hoare_ret; intros; by apply sent_live|apply Hrep; auto with guestfs].
  - destruct xdrp as [get|]; [|apply hoare_ret; intros; by apply sent_live].
    destruct (get s) as [[v ?]|]; [apply hoare_ret; intros; by apply sent_live|apply Hrep; auto with guestfs].
Qed.

Lemma hoare_recv_discard l0 io fn : hoare (from l0 io) (guestfs___recv_discard fn) (sent l0 io).
Proof.
  intros l Hl. unfold guestfs___recv_discard.
  refine (hoare_bind _ _ _ _ _ (hoare_recv_uncancelled l0 io fn _ _ (budget_fuel l)) _ l (conj Hl (le_n _))).
  intros [r buf]. by apply hoare_ret.
Qed.

(** ** Receiving a file *)

Definition chunk_read (l0 : lib C) (b : nat) (x : Z * list byte) l : Prop :=
  evolves l0 l /\ (fst x <= 0 \/ online l /\ (lib_budget l + 4 <= b)%nat).

Lemma hoare_receive_file_data l0 b :
  hoare (fun l => evolves l0 l /\ within b l) receive_file_data (chunk_read l0 b).
Proof.
  intros l [He Hb]. unfold receive_file_data.
  refine (hoare_bind _ _ _ _ _ (hoare_recv_daemon l0 (l_io l) b) _ l (conj (conj He eq_refl) Hb)).
  intros [[r size] buf]. cbn beta iota.
  assert (forall f (x : list byte), (forall g, quiet g (f g)) ->
    hoare (evolves l0) (on_g f ;;; ret (-1, x)) (chunk_read l0 b)) as Hrep.
  { intros f x Hf. eapply hoare_bind; [apply (hoare_on_g (evolves l0)); [apply _|done]|].
    intros ?. apply hoare_ret. intros s Hs. split; [done|cbn; lia]. }
  destruct (Z.eqb_spec r (-1)) as [->|Hr].
  { apply hoare_ret. intros s [[? _] _]. split; [done|cbn; lia]. }
  apply hoare_if; intros _; [eapply hoare_pre; [apply Hrep; auto with guestfs|by intros s [[? _] _]]|].
  destruct (xdr_get _) as [[ch rest]|];
    [|eapply hoare_pre; [apply Hrep; auto with guestfs|by intros s [[? _] _]]].
  apply hoare_if; intros _.
  - eapply hoare_bind; [eapply hoare_pre; [apply hoare_user_cancel_up|]|].
    + intros s ([? _] & [?|(_ & ? & _)] & _); [done|by split].
    + intros c. eapply hoare_pre; [apply Hrep|by intros s []].
      intros g. destruct c; auto using quiet_user_cancelled with guestfs.
  - destruct (chunk_data ch); apply hoare_ret; intros s ([? _] & [?|(_ & ? & ?)] & _); cbn in *; split; cbn; auto; lia.
Qed.

Lemma hoare_discard_loop l0 : forall fuel b, (b < fuel)%nat ->
  hoare (fun l => evolves l0 l /\ within b l) (discard_loop fuel) (fun _ => evolves l0).
Proof.
  induction fuel as [|fuel IH]; intros b Hf; [lia|]. cbn [discard_loop].
  eapply hoare_bind; [apply hoare_receive_file_data|]. intros [r out]. cbn beta iota.
  destruct (Z.ltb_spec 0 r); [|apply hoare_ret; by intros l []].
  intros l [He [?|[_ Hb]]]; cbn in *; [lia|]. apply (IH (b - 4)%nat); [lia|]. unfold within. split; [done|lia].
Qed.

Lemma hoare_recv_file_cancel l0 : hoare (up l0) recv_file_cancel (fun _ => evolves l0).
Proof.
  apply hoare_any. intros io.
  eapply hoare_bind; [apply (hoare_on_g (live l0 io)); [apply _|auto with guestfs]|]. intros ?.
  eapply hoare_bind; [apply hoare_write|]. intros r.
  eapply (hoare_pre _ (evolves l0)); [|by intros l [[] _]].
  apply hoare_if; intros _; [apply hoare_report; [apply _|auto with guestfs]|].
  intros l He.
  refine (hoare_bind _ _ _ _ _ (hoare_discard_loop l0 _ _ (budget_fuel l)) _ l (conj He (le_n _))).
  intros ?. by apply hoare_ret.
Qed.

Lemma xwrite_up l0 d b :
  hoare (fun l => up l0 l /\ within b l) (xwrite d) (fun _ l => up l0 l /\ within b l).
Proof.
  intros l [[He Hon] Hb]. unfold xwrite.
  destruct (xwrite_loop_spec (S (length (io_write (l_io l)))) d l) as (e & l' & k & -> & [Hg Hc _ _ _ _] & _);
    [lia|]. split; [split|].
  - eapply evolves_once; [done|]. apply step_same; by rewrite ?Hg, ?Hc.
  - unfold online. by rewrite Hc.
  - unfold within, lib_budget. by rewrite Hc.
Qed.

Lemma hoare_perrorf P e m : GClosed P -> hoare P (perrorf e m) (fun _ => P).
Proof. intros HP. apply hoare_on_g; [done|auto with guestfs]. Qed.

Lemma hoare_recv_file_loop l0 fn : forall fuel b, (b < fuel)%nat ->
  hoare (fun l => evolves l0 l /\ within b l) (recv_file_loop fuel fn)
    (fun x l => match x with Some _ => evolves l0 l | None => up l0 l end).
Proof.
  induction fuel as [|fuel IH]; intros b Hf; [lia|]. cbn [recv_file_loop].
  eapply hoare_bind; [apply hoare_receive_file_data|]. intros [r out]. cbn beta iota.
  destruct (Z.ltb_spec 0 r); [|apply hoare_ret; by intros l []].
  intros l [He [?|[Hon Hb]]]; cbn in *; [lia|].
  refine (hoare_bind _ _ _ _ _ (xwrite_up l0 out (b - 4)) _ l (conj (conj He Hon) _)); [|unfold within; lia].
  intros [e|].
  - eapply hoare_bind; [eapply hoare_pre; [apply (hoare_perrorf (up l0)); apply _|by intros s []]|].
    intros ?. by apply hoare_ret.
  - apply (hoare_bind _ _ (fun _ l => up l0 l /\ within (b - 4) l)).
    + intros s [Hs Hbs]. pose proof (hoare_user_cancel l0 _ _ s (conj Hs (conj Hbs eq_refl))) as Hu.
      destruct (read_user_cancel s) as [[c|w] s']; [|done]. by destruct Hu as (? & ? & _).
    + intros c. apply hoare_if; intros _; [apply hoare_ret; by intros s []|].
      eapply hoare_pre; [apply (IH (b - 4)%nat); lia|]. by intros s [[] ?].
Qed.

Lemma hoare_recv_file l0 fn : hoare (up l0) (guestfs___recv_file fn) (fun _ => evolves l0).
Proof.
  intros l [He Hon]. unfold guestfs___recv_file. set (l1 := l <| l_g; g_user_cancel := false |>).
  assert (up l0 l1) as He1 by (split; [eapply evolves_once; [done|]; by apply step_same|done]).
  destruct (io_open (l_io l1)).
  { refine (hoare_bind _ _ _ _ _ (hoare_perrorf (up l0) _ _ _) _ l1 He1). intros ?. apply hoare_recv_file_cancel. }
  set (l2 := l1 <| l_io; io_data := [] |>).
  assert (evolves l0 l2) as He2 by (eapply evolves_once; [apply He1|]; by apply step_same).
  refine (hoare_bind _ _ _ _ _ (hoare_recv_file_loop l0 fn _ _ (budget_fuel l2)) _ l2 (conj He2 (le_n _))).
  intros [r|]; [|apply hoare_recv_file_cancel]. apply hoare_if; intros _; [by apply hoare_ret|].
  intros s Hs. cbv beta. destruct (io_close (l_io s)); [|done].
  revert s Hs. eapply hoare_bind; [apply (hoare_perrorf (evolves l0)); apply _|]. intros ?. by apply hoare_ret.
Qed.

(** ** Every call *)

(** The entry points of src/proto.c that the stubs call, as one type. *)
Inductive proto_call :=
  | CallSend (proc_nr progress_hint optargs_bitmask : Z) (xdrp : option (xenc -> option xenc))
  | CallSendFile (filename : string)
  | CallRecv (fn : string) (xdrp : option (list byte -> option (unit * list byte)))
  | CallRecvDiscard (fn : string)
  | CallRecvFile (filename : string)
  | CallUserCancel.

Definition run_call (k : proto_call) : M (lib C) Z :=
  match k with
  | CallSend proc hint mask xdrp => guestfs___send proc hint mask xdrp
  | CallSendFile fn => guestfs___send_file fn
  | CallRecv fn xdrp => r <- guestfs___recv fn xdrp ;; ret (fst r)
  | CallRecvDiscard fn => guestfs___recv_discard fn
  | CallRecvFile fn => guestfs___recv_file fn
  | CallUserCancel => guestfs_user_cancel
  end.

(** The functions that use [g->conn] without looking at it first. *)
Definition needs_conn (k : proto_call) : bool :=
  match k with CallSendFile _ | CallRecvFile _ => true | _ => false end.

Lemma hoare_run_call l0 k :
  hoare (fun l => evolves l0 l /\ (needs_conn k = true -> online l)) (run_call k) (fun _ => evolves l0).
Proof.
  assert (forall (m : M (lib C) Z), (forall io, hoare (from l0 io) m (sent l0 io)) ->
    hoare (fun l => evolves l0 l /\ (false = true -> online l)) m (fun _ => evolves l0)) as Hm.
  { intros m Hm. eapply hoare_conseq; [apply (hoare_any' l0 m id); exact Hm|by intros l []|by intros a l []]. }
  destruct k; cbn [run_call needs_conn].
  - apply Hm. intros. apply hoare_send.
  - eapply hoare_pre; [apply hoare_send_file|]. intros l [? Ho]. split; [done|by apply Ho].
  - apply Hm. intros. eapply hoare_bind; [apply hoare_recv|]. intros ?. by apply hoare_ret.
  - apply Hm. intros. apply hoare_recv_discard.
  - eapply hoare_pre; [apply hoare_recv_file|]. intros l [? Ho]. split; [done|by apply Ho].
  - intros l [He _]. eapply evolves_once; [done|]. by apply step_same.
Qed.

(** A handle without a connection is in the CONFIG state. *)
Definition conn_inv l : Prop := l_conn l = None -> g_state (l_g l) = CONFIG.

Lemma conn_inv_evolves l l' : evolves l l' -> conn_inv l -> conn_inv l'.
Proof.
  induction 1 as [|l1 l2 l3 Hs _ IH]; [done|]. intros Hi. apply IH. unfold conn_inv in *.
  destruct Hs as [? ? Es _ Hc|? ? E1 _ _ Hc|]; [intros Hn; rewrite Es; tauto| |done].
  intros Hn. apply Hc, Hi in Hn. congruence.
Qed.

(** A READY handle that is LAUNCHING or earlier never appears by itself. *)
Lemma ready_evolves l l' : evolves l l' -> g_state (l_g l') = READY ->
  g_state (l_g l) = READY \/ g_state (l_g l) = LAUNCHING.
Proof.
  induction 1 as [|l1 l2 l3 Hs _ IH]; [by left|]. intros Hr. specialize (IH Hr).
  destruct Hs as [? ? Es|? ? E1|? ? E1]; [rewrite <- Es; tauto|by right|].
  rewrite E1 in IH. by destruct IH.
Qed.

End safe.

(** * Main theorems *)

(** A sequence of calls that all return; a file transfer is started with a
    connection, as the stubs do. *)
Inductive runs {C} `{ConnOps C} : list proto_call -> lib C -> lib C -> Prop :=
  | runs_nil l : runs [] l l
  | runs_cons k ks l r l1 l2 : (needs_conn k = true -> online l) ->
      run_call k l = (Ret r, l1) -> runs ks l1 l2 -> runs (k :: ks) l l2.

Lemma runs_evolves {C} `{ConnLaws C} ks (l l' : lib C) : runs ks l l' -> evolves l l'.
Proof.
  induction 1 as [|k ks l r l1 l2 Hn E _ IH]; [constructor|]. etransitivity; [|exact IH].
  eapply (hoare_returns _ _ _ _ (hoare_run_call l k)); [split; [constructor|done]|done].
Qed.

(** C8: Over any sequence of protocol operations that return, on any lawful connection and
    whatever arrives, the handle is in the CONFIG state whenever it has no connection, and it is
    READY afterwards only if it was READY before or was LAUNCHING. *)
Theorem proto_state_machine {C} `{ConnLaws C} ks (l l' : lib C) :
  runs ks l l' -> conn_inv l ->
  conn_inv l' /\ (g_state (l_g l') = READY -> g_state (l_g l) = READY \/ g_state (l_g l) = LAUNCHING).
Proof.
  intros Hr%runs_evolves Hi. split; [by eapply conn_inv_evolves|]. by apply ready_evolves.
Qed.

(** The connection is closed while a reply is awaited. *)
Definition ex_closed : lib connection_socket :=
  mk_lib Examples.ex_handle
    (Some (mk_conn (-1) 3 (-1) (mk_kernel [] [RdErr EAGAIN; RdData [x00]; RdData []] [] [] [] [] [])))
    (ex_io []).

Lemma proto_state_machine_witness :
  exists l', runs [CallRecv "f" None] ex_closed l' /\ conn_inv l' /\
    (g_state (l_g l') = READY -> READY = READY \/ READY = LAUNCHING) /\ g_state (l_g l') = CONFIG.
Proof.
  eexists. assert (forall l', runs [CallRecv "f" None] ex_closed l' ->
    conn_inv l' /\ (g_state (l_g l') = READY -> READY = READY \/ READY = LAUNCHING)) as Hs.
  { intros l' Hr. apply (proto_state_machine [CallRecv "f" None] ex_closed l' Hr). discriminate. }
  assert (runs [CallRecv "f" None] ex_closed (snd (run_call (CallRecv "f" None) ex_closed))) as Hr.
  { eapply (runs_cons _ _ _ (-1)); [discriminate|vm_compute; reflexivity|constructor]. }
  split; [exact Hr|]. split; [exact (proj1 (Hs _ Hr))|]. split; [exact (proj2 (Hs _ Hr))|].
  vm_compute. reflexivity.
Defined.
