(* ===== verification/DaemonProto.v ===== *)
(** daemon/proto.c: the daemon's side of the protocol, with xread and xwrite of
    daemon/guestfsd.c and the file transfers of daemon/upload.c.

    The static variables of proto.c are the fields of [daemon].  The socket is
    a script of results of read, write and select; it is a blocking socket, so
    reading past the end of the script blocks.  The file that a transfer reads
    or writes inside the guest is a script of system call results too.  What
    the daemon prints on its standard error (the console) is not modelled, and
    malloc is taken to succeed. *)

From S2P Require Import Prelude Xdr Protocol Handle Conn.
Local Open Scope Z_scope.

(** * State *)

Inductive select_ev := SelErr | SelReady (readable : bool).

(** The file of a transfer, by the results of the system calls on it. *)
Record guest_file := mk_guest_file {
  gf_open : option Z;  (* errno of open (2), if it fails *)
  gf_lseek : option Z;  (* errno of lseek (2), if it fails *)
  gf_fstat : option Z;  (* errno of fstat (2), if it fails *)
  gf_isdir : bool;  (* S_ISDIR (st_mode) *)
  gf_fstat_size : option Z;  (* errno of the fstat that gets the size, if it fails *)
  gf_size : Z;  (* st_size *)
  gf_devsize : string + Z;  (* blockdev --getsize64: its error, or the size *)
  gf_read : list read_ev;  (* results of read (2); then end of file *)
  gf_write : list write_ev;  (* results of write (2); then everything is written *)
  gf_close : option Z;  (* errno of close (2), if it fails *)
  gf_offset : Z;  (* the position of the descriptor: of the next write, or of the first read *)
  gf_data : list byte;  (* what the file holds; of a pipe, what has been written to it *)
  gf_written : Z;  (* struct write_cb_data: bytes written so far *)
  gf_regular : bool  (* S_ISREG (st_mode): O_TRUNC empties it *)
}.

#[export] Instance upd_gf_open : Field gf_open := fun f r =>
  mk_guest_file (f (gf_open r)) (gf_lseek r) (gf_fstat r) (gf_isdir r) (gf_fstat_size r)
    (gf_size r) (gf_devsize r) (gf_read r) (gf_write r) (gf_close r) (gf_offset r) (gf_data r)
    (gf_written r) (gf_regular r).
#[export] Instance upd_gf_lseek : Field gf_lseek := fun f r =>
  mk_guest_file (gf_open r) (f (gf_lseek r)) (gf_fstat r) (gf_isdir r) (gf_fstat_size r)
    (gf_size r) (gf_devsize r) (gf_read r) (gf_write r) (gf_close r) (gf_offset r) (gf_data r)
    (gf_written r) (gf_regular r).
#[export] Instance upd_gf_fstat : Field gf_fstat := fun f r =>
  mk_guest_file (gf_open r) (gf_lseek r) (f (gf_fstat r)) (gf_isdir r) (gf_fstat_size r)
    (gf_size r) (gf_devsize r) (gf_read r) (gf_write r) (gf_close r) (gf_offset r) (gf_data r)
    (gf_written r) (gf_regular r).
#[export] Instance upd_gf_isdir : Field gf_isdir := fun f r =>
  mk_guest_file (gf_open r) (gf_lseek r) (gf_fstat r) (f (gf_isdir r)) (gf_fstat_size r)
    (gf_size r) (gf_devsize r) (gf_read r) (gf_write r) (gf_close r) (gf_offset r) (gf_data r)
    (gf_written r) (gf_regular r).
#[export] Instance upd_gf_fstat_size : Field gf_fstat_size := fun f r =>
  mk_guest_file (gf_open r) (gf_lseek r) (gf_fstat r) (gf_isdir r) (f (gf_fstat_size r))
    (gf_size r) (gf_devsize r) (gf_read r) (gf_write r) (gf_close r) (gf_offset r) (gf_data r)
    (gf_written r) (gf_regular r).
#[export] Instance upd_gf_size : Field gf_size := fun f r =>
  mk_guest_file (gf_open r) (gf_lseek r) (gf_fstat r) (gf_isdir r) (gf_fstat_size r)
    (f (gf_size r)) (gf_devsize r) (gf_read r) (gf_write r) (gf_close r) (gf_offset r)
    (gf_data r) (gf_written r) (gf_regular r).
#[export] Instance upd_gf_devsize : Field gf_devsize := fun f r =>
  mk_guest_file (gf_open r) (gf_lseek r) (gf_fstat r) (gf_isdir r) (gf_fstat_size r) (gf_size r)
    (f (gf_devsize r)) (gf_read r) (gf_write r) (gf_close r) (gf_offset r) (gf_data r)
    (gf_written r) (gf_regular r).
#[export] Instance upd_gf_read : Field gf_read := fun f r =>
  mk_guest_file (gf_open r) (gf_lseek r) (gf_fstat r) (gf_isdir r) (gf_fstat_size r) (gf_size r)
    (gf_devsize r) (f (gf_read r)) (gf_write r) (gf_close r) (gf_offset r) (gf_data r)
    (gf_written r) (gf_regular r).
#[export] Instance upd_gf_write : Field gf_write := fun f r =>
  mk_guest_file (gf_open r) (gf_lseek r) (gf_fstat r) (gf_isdir r) (gf_fstat_size r) (gf_size r)
    (gf_devsize r) (gf_read r) (f (gf_write r)) (gf_close r) (gf_offset r) (gf_data r)
    (gf_written r) (gf_regular r).
#[export] Instance upd_gf_close : Field gf_close := fun f r =>
  mk_guest_file (gf_open r) (gf_lseek r) (gf_fstat r) (gf_isdir r) (gf_fstat_size r) (gf_size r)
    (gf_devsize r) (gf_read r) (gf_write r) (f (gf_close r)) (gf_offset r) (gf_data r)
    (gf_written r) (gf_regular r).
#[export] Instance upd_gf_offset : Field gf_offset := fun f r =>
  mk_guest_file (gf_open r) (gf_lseek r) (gf_fstat r) (gf_isdir r) (gf_fstat_size r) (gf_size r)
    (gf_devsize r) (gf_read r) (gf_write r) (gf_close r) (f (gf_offset r)) (gf_data r)
    (gf_written r) (gf_regular r).
#[export] Instance upd_gf_data : Field gf_data := fun f r =>
  mk_guest_file (gf_open r) (gf_lseek r) (gf_fstat r) (gf_isdir r) (gf_fstat_size r) (gf_size r)
    (gf_devsize r) (gf_read r) (gf_write r) (gf_close r) (gf_offset r) (f (gf_data r))
    (gf_written r) (gf_regular r).
#[export] Instance upd_gf_written : Field gf_written := fun f r =>
  mk_guest_file (gf_open r) (gf_lseek r) (gf_fstat r) (gf_isdir r) (gf_fstat_size r) (gf_size r)
    (gf_devsize r) (gf_read r) (gf_write r) (gf_close r) (gf_offset r) (gf_data r)
    (f (gf_written r)) (gf_regular r).

(** Functions of the C library and of generated code. *)
Record daemon_env := mk_daemon_env {
  de_strerror : Z -> list byte;            (* strerror (3) *)
  de_errno_to_string : Z -> list byte      (* guestfs___errno_to_string *)
}.

Record daemon := mk_daemon {
  d_proc_nr : Z;  (* int *)
  d_serial : Z;  (* int *)
  d_progress_hint : Z;  (* uint64_t *)
  d_optargs_bitmask : Z;  (* uint64_t *)
  d_start_t : timeval;
  d_last_progress_t : timeval;
  d_count_progress : Z;  (* size_t *)
  d_errno : Z;  (* errno *)
  d_in : list read_ev;  (* reads of the socket *)
  d_out : list write_ev;  (* writes to the socket *)
  d_sent : list byte;  (* what the socket has accepted *)
  d_select : list select_ev;  (* results of select (2); then nothing is readable *)
  d_clock : list timeval;  (* successive results of gettimeofday (2) *)
  d_file : guest_file;
  d_env : daemon_env
}.

#[export] Instance upd_d_proc_nr : Field d_proc_nr := fun f r =>
  mk_daemon (f (d_proc_nr r)) (d_serial r) (d_progress_hint r) (d_optargs_bitmask r)
    (d_start_t r) (d_last_progress_t r) (d_count_progress r) (d_errno r) (d_in r) (d_out r)
    (d_sent r) (d_select r) (d_clock r) (d_file r) (d_env r).
#[export] Instance upd_d_serial : Field d_serial := fun f r =>
  mk_daemon (d_proc_nr r) (f (d_serial r)) (d_progress_hint r) (d_optargs_bitmask r)
    (d_start_t r) (d_last_progress_t r) (d_count_progress r) (d_errno r) (d_in r) (d_out r)
    (d_sent r) (d_select r) (d_clock r) (d_file r) (d_env r).
#[export] Instance upd_d_progress_hint : Field d_progress_hint := fun f r =>
  mk_daemon (d_proc_nr r) (d_serial r) (f (d_progress_hint r)) (d_optargs_bitmask r)
    (d_start_t r) (d_last_progress_t r) (d_count_progress r) (d_errno r) (d_in r) (d_out r)
    (d_sent r) (d_select r) (d_clock r) (d_file r) (d_env r).
#[export] Instance upd_d_optargs_bitmask : Field d_optargs_bitmask := fun f r =>
  mk_daemon (d_proc_nr r) (d_serial r) (d_progress_hint r) (f (d_optargs_bitmask r))
    (d_start_t r) (d_last_progress_t r) (d_count_progress r) (d_errno r) (d_in r) (d_out r)
    (d_sent r) (d_select r) (d_clock r) (d_file r) (d_env r).
#[export] Instance upd_d_start_t : Field d_start_t := fun f r =>
  mk_daemon (d_proc_nr r) (d_serial r) (d_progress_hint r) (d_optargs_bitmask r)
    (f (d_start_t r)) (d_last_progress_t r) (d_count_progress r) (d_errno r) (d_in r) (d_out r)
    (d_sent r) (d_select r) (d_clock r) (d_file r) (d_env r).
#[export] Instance upd_d_last_progress_t : Field d_last_progress_t := fun f r =>
  mk_daemon (d_proc_nr r) (d_serial r) (d_progress_hint r) (d_optargs_bitmask r) (d_start_t r)
    (f (d_last_progress_t r)) (d_count_progress r) (d_errno r) (d_in r) (d_out r) (d_sent r)
    (d_select r) (d_clock r) (d_file r) (d_env r).
#[export] Instance upd_d_count_progress : Field d_count_progress := fun f r =>
  mk_daemon (d_proc_nr r) (d_serial r) (d_progress_hint r) (d_optargs_bitmask r) (d_start_t r)
    (d_last_progress_t r) (f (d_count_progress r)) (d_errno r) (d_in r) (d_out r) (d_sent r)
    (d_select r) (d_clock r) (d_file r) (d_env r).
#[export] Instance upd_d_errno : Field d_errno := fun f r =>
  mk_daemon (d_proc_nr r) (d_serial r) (d_progress_hint r) (d_optargs_bitmask r) (d_start_t r)
    (d_last_progress_t r) (d_count_progress r) (f (d_errno r)) (d_in r) (d_out r) (d_sent r)
    (d_select r) (d_clock r) (d_file r) (d_env r).
#[export] Instance upd_d_in : Field d_in := fun f r =>
  mk_daemon (d_proc_nr r) (d_serial r) (d_progress_hint r) (d_optargs_bitmask r) (d_start_t r)
    (d_last_progress_t r) (d_count_progress r) (d_errno r) (f (d_in r)) (d_out r) (d_sent r)
    (d_select r) (d_clock r) (d_file r) (d_env r).
#[export] Instance upd_d_out : Field d_out := fun f r =>
  mk_daemon (d_proc_nr r) (d_serial r) (d_progress_hint r) (d_optargs_bitmask r) (d_start_t r)
    (d_last_progress_t r) (d_count_progress r) (d_errno r) (d_in r) (f (d_out r)) (d_sent r)
    (d_select r) (d_clock r) (d_file r) (d_env r).
#[export] Instance upd_d_sent : Field d_sent := fun f r =>
  mk_daemon (d_proc_nr r) (d_serial r) (d_progress_hint r) (d_optargs_bitmask r) (d_start_t r)
    (d_last_progress_t r) (d_count_progress r) (d_errno r) (d_in r) (d_out r) (f (d_sent r))
    (d_select r) (d_clock r) (d_file r) (d_env r).
#[export] Instance upd_d_select : Field d_select := fun f r =>
  mk_daemon (d_proc_nr r) (d_serial r) (d_progress_hint r) (d_optargs_bitmask r) (d_start_t r)
    (d_last_progress_t r) (d_count_progress r) (d_errno r) (d_in r) (d_out r) (d_sent r)
    (f (d_select r)) (d_clock r) (d_file r) (d_env r).
#[export] Instance upd_d_clock : Field d_clock := fun f r =>
  mk_daemon (d_proc_nr r) (d_serial r) (d_progress_hint r) (d_optargs_bitmask r) (d_start_t r)
    (d_last_progress_t r) (d_count_progress r) (d_errno r) (d_in r) (d_out r) (d_sent r)
    (d_select r) (f (d_clock r)) (d_file r) (d_env r).
#[export] Instance upd_d_file : Field d_file := fun f r =>
  mk_daemon (d_proc_nr r) (d_serial r) (d_progress_hint r) (d_optargs_bitmask r) (d_start_t r)
    (d_last_progress_t r) (d_count_progress r) (d_errno r) (d_in r) (d_out r) (d_sent r)
    (d_select r) (d_clock r) (f (d_file r)) (d_env r).
#[export] Instance upd_d_env : Field d_env := fun f r =>
  mk_daemon (d_proc_nr r) (d_serial r) (d_progress_hint r) (d_optargs_bitmask r) (d_start_t r)
    (d_last_progress_t r) (d_count_progress r) (d_errno r) (d_in r) (d_out r) (d_sent r)
    (d_select r) (d_clock r) (d_file r) (f (d_env r)).

Definition dm := M daemon.

(** * xread and xwrite (daemon/guestfsd.c)

    Each system call takes one entry of the script, so the loops are structural
    recursions on it. *)

Inductive xread_result := XrData (bs : list byte) | XrFail | XrBlock.

Fixpoint xread_run (q : list read_ev) (len : nat) : xread_result * list read_ev :=
  if (len =? 0)%nat then (XrData [], q) else
  match q with
  | [] => (XrBlock, [])
  | RdErr _ :: q' => (XrFail, q')
  | RdData [] :: _ => (XrFail, q)
  | RdData bs :: q' =>
      if (len <? length bs)%nat then (XrData (take len bs), RdData (drop len bs) :: q')
      else match xread_run q' (len - length bs) with
           | (XrData x, q'') => (XrData (bs ++ x), q'')
           | other => other
           end
  end.

(** The errno of a failed write, if any, and what was written. *)
Fixpoint xwrite_run (q : list write_ev) (buf : list byte) : option Z * list byte * list write_ev :=
  match buf, q with
  | [], _ => (None, [], q)
  | _, [] => (None, buf, [])
  | _, WrErr e :: q' => (Some e, [], q')
  | _, WrOk n :: q' =>
      let n := Nat.min n (length buf) in
      let '(r, w, q'') := xwrite_run q' (drop n buf) in (r, take n buf ++ w, q'')
  end.

(** xread (sock, buf, len): 0 and the data, or -1. *)
Definition xread_sock (len : nat) : dm (Z * list byte) := fun d =>
  let '(r, q) := xread_run (d_in d) len in
  let d := d <| d_in := q |> in
  match r with
  | XrData bs => (Ret (0, bs), d)
  | XrFail => (Ret (-1, []), d)
  | XrBlock => (Stop Blocked, d)
  end.

(** xwrite (sock, buf, len) *)
Definition xwrite_sock (buf : list byte) : dm Z := fun d =>
  let '(r, w, q) := xwrite_run (d_out d) buf in
  (Ret (match r with None => 0 | Some _ => -1 end),
   d <| d_out := q |> <| d_sent ::= fun s => s ++ w |>).

(** write (2) at a position: what is there is overwritten, and a hole between
    the end of the file and the position is filled with zeros. *)
Definition write_at (pos : Z) (w data : list byte) : list byte :=
  match w with
  | [] => data
  | _ =>
      let n := Z.to_nat pos in
      take n data ++ replicate (n - length data) x00 ++ w ++ drop (n + length w) data
  end.

(** xwrite (fd, buf, len) on the file of the transfer. *)
Definition file_wrote (w : list byte) (f : guest_file) : guest_file :=
  f <| gf_data ::= write_at (gf_offset f) w |> <| gf_offset ::= fun pos => pos + zlength w |>.
Definition xwrite_file (buf : list byte) : dm Z := fun d =>
  let '(r, w, q) := xwrite_run (gf_write (d_file d)) buf in
  let d := d <| d_file; gf_write := q |> <| d_file ::= file_wrote w |> in
  match r with
  | None => (Ret 0, d)
  | Some e => (Ret (-1), d <| d_errno := e |>)
  end.

Definition daemon_gettimeofday : dm timeval := fun d =>
  match d_clock d with
  | [] => (Ret (mk_timeval 0 0), d)
  | [t] => (Ret t, d)
  | t :: ts => (Ret t, d <| d_clock := ts |>)
  end.

(** xwrite that exits when it fails. *)
Definition send_or_exit (bs : list byte) : dm unit :=
  r <- xwrite_sock bs ;; if r =? -1 then halt Exited else ret tt.

(** * Replies *)

Definition reply_header (d : daemon) (status : Z) : guestfs_message_header :=
  mk_message_header GUESTFS_PROGRAM GUESTFS_PROTOCOL_VERSION (d_proc_nr d)
    GUESTFS_DIRECTION_REPLY (u32 (d_serial d)) 0 0 status.

(** msg[GUESTFS_ERROR_LEN] = 0 when the message is longer. *)
Definition truncate_error (msg : list byte) : list byte :=
  if GUESTFS_ERROR_LEN <? zlength msg then take (Z.to_nat GUESTFS_ERROR_LEN) msg else msg.

Definition send_error (errnum : Z) (msg : list byte) : dm unit := fun d =>
  let msg := truncate_error msg in
  match xdr_put (reply_header d GUESTFS_STATUS_ERROR)
          (xdrmem_create_encode (GUESTFS_ERROR_LEN + 200)) with
  | None => (Stop Exited, d)
  | Some x =>
      let err := mk_message_error
        (if 0 <? errnum then de_errno_to_string (d_env d) errnum else []) msg in
      match xdr_put err x with
      | None => (Stop Exited, d)
      | Some x =>
          let len := xdr_getpos x in
          (send_or_exit (be_bytes 4 len) ;;; send_or_exit (x_out x)) d
      end
  end.

Definition reply_with_error_errno (err : Z) (msg : list byte) : dm unit := send_error err msg.
Definition reply_with_error (msg : string) : dm unit := reply_with_error_errno 0 (bytes_of_string msg).
Definition reply_with_perror_errno (err : Z) (msg : string) : dm unit := fun d =>
  send_error err (bytes_of_string (msg +:+ ": ") ++ de_strerror (d_env d) err) d.
Definition reply_with_perror (msg : string) : dm unit := fun d =>
  reply_with_perror_errno (d_errno d) msg d.

Definition reply_too_large : string :=
  "guestfsd: failed to encode reply body" +:+ newline +:+
  "(maybe the reply exceeds the maximum message size in the protocol?)".

Definition reply (xdrp : option (xenc -> option xenc)) : dm unit := fun d =>
  match xdr_put (reply_header d GUESTFS_STATUS_OK) (xdrmem_create_encode GUESTFS_MESSAGE_MAX) with
  | None => (Stop Exited, d)
  | Some x =>
      match (match xdrp with Some put => put x | None => Some x end) with
      | None => reply_with_error reply_too_large d
      | Some x =>
          let len := xdr_getpos x in
          (send_or_exit (be_bytes 4 len) ;;; send_or_exit (x_out x)) d
      end
  end.

(** * Receiving a file *)

(** What [receive_file] does with a chunk: [None] goes round the loop again. *)
Definition handle_chunk (cb : option (list byte -> dm Z)) (chunk : guestfs_chunk) : dm (option Z) :=
  if negb (chunk_cancel chunk =? 0) && negb (chunk_cancel chunk =? 1) then ret (Some (-1))
  else if negb (chunk_cancel chunk =? 0) then ret (Some (-2))
  else match chunk_data chunk with
       | [] => ret (Some 0)
       | data =>
           r <- (match cb with Some f => f data | None => ret 0 end) ;;
           if r =? -1 then ret (Some (-1)) else ret None
       end.

(** The body of the loop of [receive_file]. *)
Definition receive_chunk_turn (cb : option (list byte -> dm Z)) : dm (option Z) :=
  let* (r, lenbuf) := xread_sock 4 in
  if r =? -1 then halt Exited else
  let len := match xdr_u_int_get lenbuf with Some (z, _) => z | None => 0 end in
  if len =? GUESTFS_CANCEL_FLAG then ret None
  else if GUESTFS_MESSAGE_MAX <? len then halt Exited
  else
  let* (r, buf) := xread_sock (Z.to_nat len) in
  if r =? -1 then halt Exited else
  match xdr_get (A := guestfs_chunk) buf with
  | None => ret (Some (-1))
  | Some (chunk, _) => handle_chunk cb chunk
  end.

Fixpoint receive_loop (fuel : nat) (cb : option (list byte -> dm Z)) : dm Z :=
  match fuel with
  | O => halt OutOfFuel
  | S fuel' =>
      t <- receive_chunk_turn cb ;;
      match t with
      | Some r => ret r
      | None => receive_loop fuel' cb
      end
  end.

(** Each turn reads a length word, so the data in the script bounds the turns. *)
Definition receive_file (cb : option (list byte -> dm Z)) : dm Z := fun d =>
  receive_loop (S (script_bytes (d_in d))) cb d.

Definition cancel_receive : dm Z :=
  r <- xwrite_sock (be_bytes 4 GUESTFS_CANCEL_FLAG) ;;
  if r =? -1 then ret (-1) else receive_file None.

(** * Sending a file *)

Definition send_chunk (chunk : guestfs_chunk) : dm Z :=
  match xdr_put chunk (xdrmem_create_encode (GUESTFS_MAX_CHUNK_SIZE + 48)) with
  | None => ret (-1)
  | Some x =>
      let len := xdr_getpos x in
      r <- xwrite_sock (be_bytes 4 len) ;;
      if r =? 0 then
        r <- xwrite_sock (x_out x) ;;
        if r =? 0 then ret 0 else halt Exited
      else halt Exited
  end.

Definition check_for_library_cancellation : dm Z := fun d =>
  match d_select d with
  | [] | SelErr :: _ | SelReady false :: _ => (Ret 0, d <| d_select ::= tail |>)
  | SelReady true :: q =>
      (let* (r, buf) := xread_sock 4 in
       if r =? -1 then ret 0 else
       let flag := match xdr_u_int_get buf with Some (z, _) => z | None => 0 end in
       if negb (flag =? GUESTFS_CANCEL_FLAG) then ret 0 else ret 1) (d <| d_select := q |>)
  end.

Definition send_file_write (buf : list byte) : dm Z :=
  if GUESTFS_MAX_CHUNK_SIZE <? zlength buf then ret (-1) else
  cancel <- check_for_library_cancellation ;;
  let chunk := if is_true cancel then mk_chunk 1 [] else mk_chunk 0 buf in
  r <- send_chunk chunk ;;
  if r =? -1 then ret (-1)
  else if is_true cancel then ret (-2) else ret 0.

Definition send_file_end (cancel : Z) : dm Z := send_chunk (mk_chunk cancel []).

(** * Progress messages *)

Definition NOTIFICATION_INITIAL_DELAY : Z := 2000000.
Definition NOTIFICATION_PERIOD : Z := 333333.

Definition timeval_us (t : timeval) : Z := tv_sec t * 1000000 + tv_usec t.

Definition progress_message (d : daemon) (position total : Z) : guestfs_progress :=
  mk_progress (d_proc_nr d) (u32 (d_serial d)) position total.

Definition notify_progress_no_ratelimit (position total : Z) (now_t : timeval) : dm unit := fun d =>
  let d := d <| d_count_progress ::= Z.succ |> <| d_last_progress_t := now_t |> in
  (send_or_exit (be_bytes 4 GUESTFS_PROGRESS_FLAG) ;;;
   fun d => match xdr_put (progress_message d position total) (xdrmem_create_encode 128) with
            | None => (Ret tt, d)
            | Some x => send_or_exit (x_out x) d
            end) d.

Definition notify_progress (position total : Z) : dm unit :=
  now_t <- daemon_gettimeofday ;;
  fun d =>
  if (0 <? d_count_progress d) && (position =? total)
  then notify_progress_no_ratelimit position total now_t d
  else
  let elapsed_us := timeval_us now_t - timeval_us (d_last_progress_t d) in
  if ((d_count_progress d =? 0) && (elapsed_us <? NOTIFICATION_INITIAL_DELAY)) ||
     ((0 <? d_count_progress d) && (elapsed_us <? NOTIFICATION_PERIOD))
  then (Ret tt, d)
  else notify_progress_no_ratelimit position total now_t d.

(** The byte of [v] under the mask [m], shifted down. *)
Definition masked (v m shift : Z) : byte := byte_of_Z (Z.shiftr (Z.land (u32 v) m) shift).
Definition masked_word (v : Z) : list byte :=
  [masked v 0xff000000 24; masked v 0x00ff0000 16; masked v 0x0000ff00 8; masked v 0x000000ff 0].

(** The SIGALRM handler of pulse mode: no XDR routine is called. *)
Definition async_safe_send_pulse : dm unit := fun d =>
  let msg := masked_word GUESTFS_PROGRESS_FLAG ++ masked_word (d_proc_nr d) ++
             masked_word (d_serial d) ++ replicate 8 x00 ++ replicate 7 x00 ++ [x01] in
  send_or_exit msg d.

(** * The main loop *)

(** One turn, with the dispatcher of the stubs (generated code). *)
Definition main_loop_turn (dispatch_incoming_message : list byte -> dm unit) : dm unit :=
  let* (r, lenbuf) := xread_sock 4 in
  if r =? -1 then halt Exited else
  let len := match xdr_u_int_get lenbuf with Some (z, _) => z | None => 0 end in
  if len =? GUESTFS_CANCEL_FLAG then ret tt
  else if GUESTFS_MESSAGE_MAX <? len then halt Exited
  else
  let* (r, buf) := xread_sock (Z.to_nat len) in
  if r =? -1 then halt Exited else
  now_t <- daemon_gettimeofday ;;
  modify (fun d => d <| d_start_t := now_t |> <| d_last_progress_t := now_t |>
                     <| d_count_progress := 0 |>) ;;;
  match xdr_get (A := guestfs_message_header) buf with
  | None => halt Exited
  | Some (hdr, s) =>
      if negb (hdr_prog hdr =? GUESTFS_PROGRAM) then
        reply_with_error ("wrong program (" +:+ pretty (s32 (hdr_prog hdr)) +:+ ")")
      else if negb (hdr_vers hdr =? GUESTFS_PROTOCOL_VERSION) then
        reply_with_error ("wrong protocol version (" +:+ pretty (s32 (hdr_vers hdr)) +:+ ")")
      else if negb (hdr_direction hdr =? GUESTFS_DIRECTION_CALL) then
        reply_with_error ("unexpected message direction (" +:+ pretty (hdr_direction hdr) +:+ ")")
      else if negb (hdr_status hdr =? GUESTFS_STATUS_OK) then
        reply_with_error ("unexpected message status (" +:+ pretty (hdr_status hdr) +:+ ")")
      else
        modify (fun d => d <| d_proc_nr := hdr_proc hdr |> <| d_serial := s32 (hdr_serial hdr) |>
                           <| d_progress_hint := hdr_progress_hint hdr |>
                           <| d_optargs_bitmask := hdr_optargs_bitmask hdr |>
                           <| d_errno := 0 |>) ;;;
        dispatch_incoming_message s
  end.

(** * daemon/upload.c *)

Definition write_cb (buf : list byte) : dm Z :=
  r <- xwrite_file buf ;;
  if r =? -1 then ret (-1) else
  modify (fun d => d <| d_file; gf_written ::= fun w => u64 (w + zlength buf) |>) ;;;
  fun d =>
  ((if 0 <? d_progress_hint d
    then notify_progress (gf_written (d_file d)) (d_progress_hint d) else ret tt) ;;;
   ret 0) d.

Definition is_dev (filename : string) : bool := STRPREFIX filename "/dev/".

Definition O_WRONLY : Z := 0x1.
Definition O_CREAT : Z := 0x40.
Definition O_NOCTTY : Z := 0x100.
Definition O_TRUNC : Z := 0x200.
Definition O_CLOEXEC : Z := 0x80000.

(** What open (2) does to the file: with O_TRUNC a regular file is emptied. *)
Definition opened (flags : Z) (f : guest_file) : guest_file :=
  let f := f <| gf_offset := 0 |> in
  if is_true (Z.land flags O_TRUNC) && gf_regular f then f <| gf_data := [] |> else f.

Definition upload (filename : string) (flags offset : Z) : dm Z := fun d =>
  match gf_open (d_file d) with
  | Some err =>
      (cancel_receive ;;; reply_with_perror_errno err filename ;;; ret (-1)) d
  | None =>
      let d := d <| d_file ::= opened flags |> in
      match (if is_true offset then gf_lseek (d_file d) else None) with
      | Some err =>
          (cancel_receive ;;; reply_with_perror_errno err ("lseek: " +:+ filename) ;;; ret (-1)) d
      | None =>
          let d := (if is_true offset then d <| d_file; gf_offset := offset |> else d) <| d_file; gf_written := 0 |> in
          (r <- receive_file (Some write_cb) ;;
           if r =? -1 then
             cancel_receive ;;; reply_with_error ("write error: " +:+ filename) ;;; ret (-1)
           else if r =? -2 then
             reply_with_error "file upload cancelled" ;;; ret (-1)
           else fun d =>
           match gf_close (d_file d) with
           | Some e => (reply_with_perror_errno e ("close: " +:+ filename) ;;; ret (-1)) d
           | None => (Ret 0, d)
           end) d
      end
  end.

Definition do_upload (filename : string) : dm Z :=
  upload filename (Z.lor O_WRONLY (Z.lor O_CREAT (Z.lor O_TRUNC (Z.lor O_NOCTTY O_CLOEXEC)))) 0.

Definition do_upload_offset (filename : string) (offset : Z) : dm Z :=
  if offset <? 0 then
    reply_with_perror (filename +:+ ": offset in file is negative") ;;; ret (-1)
  else upload filename (Z.lor O_WRONLY (Z.lor O_CREAT (Z.lor O_NOCTTY O_CLOEXEC))) offset.

Definition check_not_directory (filename : string) : dm Z := fun d =>
  match gf_fstat (d_file d) with
  | Some e => (reply_with_perror_errno e ("fstat: " +:+ filename) ;;; ret (-1)) d
  | None =>
      if gf_isdir (d_file d)
      then (reply_with_error (filename +:+ ": is a directory") ;;; ret (-1)) d
      else (Ret 0, d)
  end.

(** read (2) of the file of a transfer. *)
Definition guest_read (n : nat) : dm read_ev := fun d =>
  let '(e, q) := match gf_read (d_file d) with [] => (RdData [], []) | q => sys_read n q end in
  (Ret e, d <| d_file; gf_read := q |>).

(** The loop of [do_download]: [Some r] is the last result of read, [None] a
    failed [send_file_write]. *)
Fixpoint download_loop (fuel : nat) (sent total : Z) : dm (option Z) :=
  match fuel with
  | O => halt OutOfFuel
  | S fuel' =>
      e <- guest_read (Z.to_nat GUESTFS_MAX_CHUNK_SIZE) ;;
      match e with
      | RdErr _ => ret (Some (-1))
      | RdData [] => ret (Some 0)
      | RdData buf =>
          r <- send_file_write buf ;;
          if r <? 0 then ret None
          else
            let sent := u64 (sent + zlength buf) in
            notify_progress sent total ;;;
            download_loop fuel' sent total
      end
  end.

(** The end of a transfer to the library, when everything was read. *)
Definition download_end : dm Z := fun d =>
  match gf_close (d_file d) with
  | Some _ => (send_file_end 1 ;;; ret (-1)) d
  | None => (r <- send_file_end 0 ;; if is_true r then ret (-1) else ret 0) d
  end.

Definition download_fuel (d : daemon) : nat := S (script_size (gf_read (d_file d))).

Definition do_download (filename : string) : dm Z := fun d =>
  match gf_open (d_file d) with
  | Some e => (reply_with_perror_errno e filename ;;; ret (-1)) d
  | None =>
      (r <- check_not_directory filename ;;
       if r =? -1 then ret (-1) else
       fun d =>
       match (if is_dev filename
              then match gf_devsize (d_file d) with
                   | inl msg => inl (reply_with_error msg)
                   | inr size => inr size
                   end
              else match gf_fstat_size (d_file d) with
                   | Some e => inl (reply_with_perror_errno e filename)
                   | None => inr (gf_size (d_file d))
                   end) with
       | inl failed => (failed ;;; ret (-1)) d
       | inr total =>
           (reply None ;;;
            r <- download_loop (download_fuel d) 0 (u64 total) ;;
            match r with
            | None => ret (-1)
            | Some r => if r =? -1 then send_file_end 1 ;;; ret (-1) else download_end
            end) d
       end) d
  end.

(** The loop of [do_download_offset]: [inl r] returns [r] from the function. *)
Fixpoint download_offset_loop (fuel : nat) (usize sent total : Z) : dm (Z + unit) :=
  if usize =? 0 then ret (inr tt) else
  match fuel with
  | O => halt OutOfFuel
  | S fuel' =>
      e <- guest_read (Z.to_nat (if GUESTFS_MAX_CHUNK_SIZE <? usize then GUESTFS_MAX_CHUNK_SIZE
                                 else usize)) ;;
      match e with
      | RdErr _ => send_file_end 1 ;;; ret (inl (-1))
      | RdData [] => ret (inr tt)
      | RdData buf =>
          r <- send_file_write buf ;;
          if r <? 0 then ret (inl (-1))
          else
            let sent := u64 (sent + zlength buf) in
            notify_progress sent total ;;;
            download_offset_loop fuel' (usize - zlength buf) sent total
      end
  end.

Definition do_download_offset (filename : string) (offset size : Z) : dm Z := fun d =>
  if offset <? 0 then
    (reply_with_perror (filename +:+ ": offset in file is negative") ;;; ret (-1)) d
  else if size <? 0 then
    (reply_with_perror (filename +:+ ": size is negative") ;;; ret (-1)) d
  else
  match gf_open (d_file d) with
  | Some e => (reply_with_perror_errno e filename ;;; ret (-1)) d
  | None =>
      (r <- check_not_directory filename ;;
       if r =? -1 then ret (-1) else
       fun d =>
       match (if is_true offset then gf_lseek (d_file d) else None) with
       | Some e => (reply_with_perror_errno e ("lseek: " +:+ filename) ;;; ret (-1)) d
       | None =>
           let d := d <| d_file; gf_offset := offset |> in
           (reply None ;;;
            r <- download_offset_loop (download_fuel d) size 0 size ;;
            match r with
            | inl r => ret r
            | inr _ => download_end
            end) d
       end) d
  end.
