(* ===== verification/DaemonSpec.v ===== *)
(** What daemon/proto.c and daemon/upload.c guarantee on a working socket: the
    bytes of each reply, that a transfer in either direction keeps the two
    ends synchronized whatever fails in the guest, and when progress messages
    are sent. *)

From S2P Require Import Prelude Xdr Protocol Handle Events Conn LibProto LibProtoSpec DaemonProto.
Local Open Scope Z_scope.

(** * A working daemon *)

Definition data_read (e : read_ev) : Prop := match e with RdData bs => bs <> [] | RdErr _ => False end.

(** What the library has sent and the daemon has not read. *)
Fixpoint read_stream (q : list read_ev) : list byte :=
  match q with
  | RdData bs :: q' => bs ++ read_stream q'
  | RdErr _ :: q' => read_stream q'
  | [] => []
  end.
Definition d_inbox (d : daemon) : list byte := read_stream (d_in d).

(** The socket works, and the variables have values of their C types. *)
Record d_healthy (d : daemon) : Prop := {
  dh_in : Forall data_read (d_in d);
  dh_out : Forall plain_write (d_out d);
  dh_errno : forall e, zlength (de_errno_to_string (d_env d) e) <= 32;
  dh_proc : is_s32 (d_proc_nr d);
  dh_serial : is_s32 (d_serial d);
  dh_hint : is_u64 (d_progress_hint d)
}.

(** From [d] to [d'] the daemon consumed [din] and sent [dout]. *)
Record dex (din dout : list byte) (d d' : daemon) : Prop := {
  dx_in : d_inbox d = din ++ d_inbox d';
  dx_out : d_sent d' = d_sent d ++ dout;
  dx_healthy : d_healthy d';
  dx_env : d_env d' = d_env d;
  dx_proc : d_proc_nr d' = d_proc_nr d;
  dx_serial : d_serial d' = d_serial d
}.

Lemma dex_refl d : d_healthy d -> dex [] [] d d.
Proof. intros Hd. split; try done. by rewrite app_nil_r. Qed.

Lemma dex_trans a b x y d1 d2 d3 : dex a b d1 d2 -> dex x y d2 d3 -> dex (a ++ x) (b ++ y) d1 d3.
Proof.
  intros [I1 O1 _ E1 P1 S1] [I2 O2 H2 E2 P2 S2].
  split; try congruence; [by rewrite I1, I2, app_assoc|by rewrite O2, O1, app_assoc].
Qed.

Lemma dex_inbox a b d d' rest : dex a b d d' -> d_inbox d = a ++ rest -> d_inbox d' = rest.
Proof. intros [Hi _ _ _ _ _] E. rewrite E in Hi. by apply app_inv_head in Hi. Qed.

(** Steps that do not touch the socket or the identity of the request. *)
Lemma dex_upd d d' :
  d_healthy d -> d_in d' = d_in d -> d_out d' = d_out d -> d_sent d' = d_sent d ->
  d_env d' = d_env d -> d_proc_nr d' = d_proc_nr d -> d_serial d' = d_serial d ->
  d_progress_hint d' = d_progress_hint d -> dex [] [] d d'.
Proof.
  intros [] Ei Eo Es Ee Ep Ese Eh. split; try done.
  - unfold d_inbox. by rewrite Ei.
  - by rewrite Es, app_nil_r.
  - by split; rewrite ?Ei, ?Eo, ?Ee, ?Ep, ?Ese, ?Eh.
Qed.

(** ** xread and xwrite *)

Lemma xread_run_spec : forall q len, Forall data_read q -> (len <= length (read_stream q))%nat ->
  exists q', xread_run q len = (XrData (take len (read_stream q)), q') /\
    read_stream q' = drop len (read_stream q) /\ Forall data_read q'.
Proof.
  induction q as [|e q IH]; intros len Hq Hl; cbn [xread_run].
  - cbn in Hl. destruct (Nat.eqb_spec len 0) as [->|]; [|lia]. by exists [].
  - destruct (Nat.eqb_spec len 0) as [->|Hn]; [by exists (e :: q); rewrite take_0, drop_0|].
    inversion Hq as [|? ? He Hq']; subst. destruct e as [[|b bs]|]; [done| |done].
    cbn [read_stream] in *. set (x := b :: bs) in *. rewrite length_app in Hl.
    destruct (Nat.ltb_spec len (length x)) as [Hlt|Hge].
    + exists (RdData (drop len x) :: q). cbn [read_stream].
      rewrite take_app_le, drop_app_le by lia. split_and!; [done|done|]. constructor; [|done]. cbn.
      intros E%(f_equal length). rewrite length_drop in E. cbn in *. lia.
    + destruct (IH (len - length x)%nat Hq') as (q' & -> & Hs & Hg); [lia|].
      exists q'. rewrite take_app_ge, drop_app_ge by lia. by rewrite Hs.
Qed.

Lemma xwrite_run_spec : forall q buf, exists r k q',
  xwrite_run q buf = (r, take k buf, q') /\ (r = None -> take k buf = buf) /\
  (Forall plain_write q -> r = None /\ Forall plain_write q').
Proof.
  induction q as [|e q IH]; intros [|b buf].
  - exists None, 0%nat, []. by split_and!.
  - exists None, (length (b :: buf)), []. rewrite firstn_all. by split_and!.
  - exists None, 0%nat, (e :: q). by split_and!.
  - cbn [xwrite_run]. set (x := b :: buf). destruct e as [n|e].
    + destruct (IH (drop (Nat.min n (length x)) x)) as (r & k & q' & E & H1 & H2).
      exists r, (Nat.min n (length x) + k)%nat, q'. rewrite E. rewrite take_take_drop.
      split_and!; [done| |].
      * intros Hr. rewrite <- take_take_drop, H1 by done. apply take_drop.
      * intros Hg. inversion Hg; subst. by apply H2.
    + exists (Some e), 0%nat, q. split_and!; [done..|]. intros Hg. by inversion Hg.
Qed.

Lemma xread_sock_spec d a rest : d_healthy d -> d_inbox d = a ++ rest ->
  exists d', xread_sock (length a) d = (Ret (0, a), d') /\ dex a [] d d' /\ d_inbox d' = rest /\
    d_file d' = d_file d /\ d_select d' = d_select d.
Proof.
  intros Hd Hi. unfold xread_sock.
  destruct (xread_run_spec (d_in d) (length a)) as (q' & -> & Hs & Hg);
    [apply Hd|fold (d_inbox d); rewrite Hi, length_app; lia|].
  fold (d_inbox d) in *. rewrite Hi in *. rewrite take_app_length, drop_app_length in *.
  eexists. split_and!; [done| |by unfold d_inbox|done..].
  destruct Hd. split; cbn; auto; [by rewrite Hi; unfold d_inbox; cbn; rewrite Hs|by rewrite app_nil_r|by split].
Qed.

Lemma xwrite_sock_spec d bs : d_healthy d ->
  exists d', xwrite_sock bs d = (Ret 0, d') /\ dex [] bs d d' /\ d_inbox d' = d_inbox d /\
    d_file d' = d_file d /\ d_select d' = d_select d /\
    d_count_progress d' = d_count_progress d /\ d_last_progress_t d' = d_last_progress_t d.
Proof.
  intros Hd. unfold xwrite_sock.
  destruct (xwrite_run_spec (d_out d) bs) as (r & k & q' & -> & H1 & H2).
  destruct (H2 (dh_out _ Hd)) as [-> Hg]. rewrite H1 by done. eexists. split_and!; [done| |done..].
  destruct Hd. split; try done.
Qed.

Lemma send_or_exit_spec d bs : d_healthy d ->
  exists d', send_or_exit bs d = (Ret tt, d') /\ dex [] bs d d' /\ d_inbox d' = d_inbox d /\
    d_file d' = d_file d /\ d_select d' = d_select d /\
    d_count_progress d' = d_count_progress d /\ d_last_progress_t d' = d_last_progress_t d.
Proof.
  intros Hd. destruct (xwrite_sock_spec d bs Hd) as (d' & E & H).
  exists d'. unfold send_or_exit. mstep E. by split.
Qed.

(** The two writes of a message. *)
Lemma send_frame_spec d m : d_healthy d ->
  exists d', (send_or_exit (be_bytes 4 (zlength m)) ;;; send_or_exit m) d = (Ret tt, d') /\
    dex [] (frame m) d d' /\ d_file d' = d_file d /\ d_select d' = d_select d.
Proof.
  intros Hd. destruct (send_or_exit_spec d (be_bytes 4 (zlength m)) Hd) as (d1 & E1 & X1 & _ & F1 & S1 & _).
  destruct (send_or_exit_spec d1 m) as (d2 & E2 & X2 & _ & F2 & S2 & _); [by destruct X1|].
  exists d2. mstep E1. split_and!; [done|exact (dex_trans _ _ _ _ _ _ _ X1 X2)|congruence..].
Qed.

(** * Replies *)

Definition error_body (d : daemon) (errnum : Z) (msg : list byte) : guestfs_message_error :=
  mk_message_error (if 0 <? errnum then de_errno_to_string (d_env d) errnum else []) (truncate_error msg).

Definition error_reply (d : daemon) (e : guestfs_message_error) : list byte :=
  frame (header_wire (reply_header d GUESTFS_STATUS_ERROR) ++ error_wire e).

Definition ok_reply (d : daemon) (body : list byte) : list byte :=
  frame (header_wire (reply_header d GUESTFS_STATUS_OK) ++ body).

Lemma truncate_error_bound msg : zlength (truncate_error msg) <= GUESTFS_ERROR_LEN.
Proof.
  unfold truncate_error. destruct (Z.ltb_spec GUESTFS_ERROR_LEN (zlength msg)); [|lia].
  unfold zlength. rewrite length_take. unfold GUESTFS_ERROR_LEN. lia.
Qed.

Lemma error_body_fits d errnum msg : d_healthy d -> error_fits (error_body d errnum msg) = true.
Proof.
  intros Hd. unfold error_fits, error_body. cbn. pose proof (truncate_error_bound msg).
  apply andb_true_intro. split; apply Z.leb_le; [|done].
  destruct (0 <? errnum); [apply Hd|done].
Qed.

Lemma header_put_room h n : 40 <= n ->
  xdr_put h (xdrmem_create_encode n) = Some (mk_xenc (header_wire h) (n - 40)).
Proof.
  intros Hn. rewrite (xdr_put_wire h). cbn [xdr_fits message_header_laws xdr_wire].
  rewrite xput_Some; rewrite zlength_header_wire; done.
Qed.

Lemma send_error_spec d errnum msg : d_healthy d ->
  exists d', send_error errnum msg d = (Ret tt, d') /\
    dex [] (error_reply d (error_body d errnum msg)) d d' /\
    d_file d' = d_file d /\ d_select d' = d_select d.
Proof.
  intros Hd. unfold send_error. rewrite header_put_room by (unfold GUESTFS_ERROR_LEN; lia).
  fold (error_body d errnum msg). pose proof (error_body_fits d errnum msg Hd) as Hf.
  rewrite (xdr_put_wire (error_body d errnum msg)). cbn [xdr_fits xdr_wire message_error_laws]. rewrite Hf.
  pose proof (zlength_error_wire _ Hf).
  rewrite xput_Some by (cbn [x_left]; unfold GUESTFS_ERROR_LEN in *; lia).
  unfold xdr_getpos. cbn [x_out]. exact (send_frame_spec d _ Hd).
Qed.

(** A reply whose body cannot be encoded becomes an error reply. *)
Lemma reply_spec d {A} `{XdrLaws A} (v : A) : d_healthy d ->
  exists d', DaemonProto.reply (Some (xdr_put v)) d = (Ret tt, d') /\
    dex [] (if xdr_fits v && (40 + zlength (xdr_wire v) <=? GUESTFS_MESSAGE_MAX)
            then ok_reply d (xdr_wire v)
            else error_reply d (error_body d 0 (bytes_of_string reply_too_large))) d d' /\
    d_file d' = d_file d /\ d_select d' = d_select d.
Proof.
  intros Hd. unfold DaemonProto.reply. rewrite header_put_room by (unfold GUESTFS_MESSAGE_MAX; lia).
  rewrite xdr_put_wire. unfold xput. cbn [x_left].
  destruct (xdr_fits v); cbn [andb]; [|exact (send_error_spec d 0 _ Hd)].
  destruct (Z.leb_spec (zlength (xdr_wire v)) (GUESTFS_MESSAGE_MAX - 40)),
    (Z.leb_spec (40 + zlength (xdr_wire v)) GUESTFS_MESSAGE_MAX); try lia; [|exact (send_error_spec d 0 _ Hd)].
  unfold xdr_getpos. cbn [x_out]. exact (send_frame_spec d _ Hd).
Qed.

Lemma reply_none_spec d : d_healthy d ->
  exists d', DaemonProto.reply None d = (Ret tt, d') /\ dex [] (ok_reply d []) d d' /\
    d_file d' = d_file d /\ d_select d' = d_select d.
Proof.
  intros Hd. unfold DaemonProto.reply. rewrite header_put_room by (unfold GUESTFS_MESSAGE_MAX; lia).
  unfold xdr_getpos, ok_reply. cbn [x_out]. rewrite app_nil_r. exact (send_frame_spec d _ Hd).
Qed.

(** Every error a call reports is one error reply. *)
Lemma reply_error_spec d m (errmsg : dm unit) :
  errmsg = reply_with_error m \/ (exists e, errmsg = reply_with_perror_errno e m) -> d_healthy d ->
  exists e d', errmsg d = (Ret tt, d') /\ error_fits e = true /\ dex [] (error_reply d e) d d' /\
    d_file d' = d_file d /\ d_select d' = d_select d.
Proof.
  intros Hm Hd.
  assert (exists n bs, errmsg d = send_error n bs d) as (n & bs & ->).
  { destruct Hm as [->|[e ->]]; do 2 eexists; reflexivity. }
  destruct (send_error_spec d n bs Hd) as (d' & E & X & F & S).
  exists (error_body d n bs), d'. split_and!; [done| |done..]. by apply error_body_fits.
Qed.

(** * Progress messages *)

Lemma progress_put p : xdr_put p (xdrmem_create_encode 128) = Some (mk_xenc (progress_wire p) (128 - 24)).
Proof.
  rewrite (xdr_put_wire p). cbn [xdr_fits progress_laws xdr_wire].
  rewrite xput_Some; rewrite zlength_progress_wire; done.
Qed.

Lemma no_ratelimit_spec d position total now : d_healthy d ->
  exists d', notify_progress_no_ratelimit position total now d = (Ret tt, d') /\
    dex [] (progress_frame (progress_message d position total)) d d' /\
    d_file d' = d_file d /\ d_select d' = d_select d /\
    d_count_progress d' = d_count_progress d + 1 /\ d_last_progress_t d' = now.
Proof.
  intros Hd. unfold notify_progress_no_ratelimit.
  set (d0 := d <| d_count_progress ::= Z.succ |> <| d_last_progress_t := now |>).
  assert (dex [] [] d d0) as X0 by by apply dex_upd.
  destruct (send_or_exit_spec d0 (be_bytes 4 GUESTFS_PROGRESS_FLAG)) as (d1 & E1 & X1 & _ & F1 & S1 & C1 & L1);
    [by destruct X0|].
  mstep E1. rewrite progress_put. cbn [x_out].
  destruct (send_or_exit_spec d1 (progress_wire (progress_message d1 position total)))
    as (d2 & E2 & X2 & _ & F2 & S2 & C2 & L2); [by destruct X1|].
  exists d2. split_and!; [done| |by rewrite F2, F1|by rewrite S2, S1|rewrite C2, C1; cbn; lia|by rewrite L2, L1].
  pose proof (dex_trans _ _ _ _ _ _ _ X0 (dex_trans _ _ _ _ _ _ _ X1 X2)) as X. cbn [app] in X.
  replace (progress_message d1 position total) with (progress_message d position total) in X; [exact X|].
  unfold progress_message. destruct X1 as [_ _ _ _ P1 Q1]. by rewrite P1, Q1.
Qed.

Lemma progress_message_typed d position total :
  d_healthy d -> is_u64 position -> is_u64 total -> progress_typed (progress_message d position total).
Proof. intros [] ? ?. split_and!; cbn; try done; apply u32_bound. Qed.

(** At most one message, which is the one asked for. *)
Lemma notify_progress_spec d position total : d_healthy d -> is_u64 position -> is_u64 total ->
  exists d' ps, notify_progress position total d = (Ret tt, d') /\
    dex [] (progress_frames ps) d d' /\ Forall progress_typed ps /\ d_inbox d' = d_inbox d /\
    d_file d' = d_file d /\ d_select d' = d_select d.
Proof.
  intros Hd Hp Ht. unfold notify_progress.
  assert (exists now d0, daemon_gettimeofday d = (Ret now, d0) /\ dex [] [] d d0 /\
    d_file d0 = d_file d /\ d_select d0 = d_select d) as (now & d0 & E0 & X0 & F0 & S0).
  { unfold daemon_gettimeofday. destruct (d_clock d) as [|t [|t2 ts]]; do 2 eexists;
      (split_and!; [reflexivity|by apply dex_upd|done..]). }
  mstep E0. pose proof (dx_healthy _ _ _ _ X0) as Hd0.
  destruct (no_ratelimit_spec d0 position total now Hd0) as (d1 & E1 & X1 & F1 & S1 & _).
  assert (exists d' ps, notify_progress_no_ratelimit position total now d0 = (Ret tt, d') /\
    dex [] (progress_frames ps) d d' /\ Forall progress_typed ps /\ d_inbox d' = d_inbox d /\
    d_file d' = d_file d /\ d_select d' = d_select d) as Hsend.
  { exists d1, [progress_message d0 position total]. unfold progress_frames. cbn. rewrite app_nil_r.
    pose proof (dex_trans _ _ _ _ _ _ _ X0 X1) as X.
    split_and!; [done|exact X| |by destruct X|congruence..].
    constructor; [|done]. by apply progress_message_typed. }
  destruct (_ && _); [exact Hsend|]. destruct (_ || _); [|exact Hsend].
  exists d0, []. split_and!; try done. by destruct X0.
Qed.

(** ** The rate limit *)

(** What is known of the messages sent so far for the current call, when no
    call reached 100%. *)
Definition rate_ok (d : daemon) : Prop :=
  (d_count_progress d = 0 /\ d_last_progress_t d = d_start_t d) \/
  (0 < d_count_progress d /\
   NOTIFICATION_INITIAL_DELAY + (d_count_progress d - 1) * NOTIFICATION_PERIOD <=
     timeval_us (d_last_progress_t d) - timeval_us (d_start_t d)).

(** A sequence of notifications. *)
Fixpoint notify_all (reqs : list (Z * Z)) : dm unit :=
  match reqs with
  | [] => ret tt
  | (position, total) :: reqs' => notify_progress position total ;;; notify_all reqs'
  end.

Lemma xwrite_sock_frame d bs r d' : xwrite_sock bs d = (r, d') ->
  d_count_progress d' = d_count_progress d /\ d_last_progress_t d' = d_last_progress_t d /\
  d_start_t d' = d_start_t d.
Proof. unfold xwrite_sock. destruct (xwrite_run _ _) as [[? ?] ?]. by intros [= _ <-]. Qed.

Lemma send_or_exit_frame d bs r d' : send_or_exit bs d = (r, d') ->
  d_count_progress d' = d_count_progress d /\ d_last_progress_t d' = d_last_progress_t d /\
  d_start_t d' = d_start_t d.
Proof.
  unfold send_or_exit, bind. destruct (xwrite_sock bs d) as [[z|w] d1] eqn:E;
    apply xwrite_sock_frame in E; [destruct (z =? -1)|]; by intros [= _ <-].
Qed.

Lemma no_ratelimit_frame d position total now r d' :
  notify_progress_no_ratelimit position total now d = (r, d') ->
  d_count_progress d' = d_count_progress d + 1 /\ d_last_progress_t d' = now /\
  d_start_t d' = d_start_t d.
Proof.
  unfold notify_progress_no_ratelimit, bind.
  set (d0 := (d <| d_count_progress ::= Z.succ |>) <| d_last_progress_t := now |>).
  destruct (send_or_exit _ d0) as [[z|w] d1] eqn:E1; apply send_or_exit_frame in E1 as (C1 & L1 & S1).
  - rewrite progress_put. intros (C2 & L2 & S2)%send_or_exit_frame. rewrite C2, C1, L2, L1, S2, S1. cbn. split_and!; [lia|done..].
  - intros [= _ <-]. rewrite C1, L1, S1. cbn. split_and!; [lia|done..].
Qed.

Lemma gettimeofday_frame d r d' : daemon_gettimeofday d = (r, d') ->
  exists now, r = Ret now /\ d_count_progress d' = d_count_progress d /\
  d_last_progress_t d' = d_last_progress_t d /\ d_start_t d' = d_start_t d.
Proof. unfold daemon_gettimeofday. destruct (d_clock d) as [|t [|]]; intros [= <- <-]; eauto. Qed.

(** Nothing is sent, or the message respects the limit. *)
Lemma notify_progress_rate d position total r d' :
  position <> total -> notify_progress position total d = (r, d') -> rate_ok d -> rate_ok d'.
Proof.
  intros Hne. unfold notify_progress, bind. destruct (daemon_gettimeofday d) as [r0 d0] eqn:E0.
  apply gettimeofday_frame in E0 as (now & -> & C0 & L0 & S0).
  destruct (Z.eqb_spec position total); [done|]. rewrite andb_false_r, C0, L0. unfold rate_ok.
  destruct (_ || _) eqn:Eb.
  - intros [= _ <-]. by rewrite C0, L0, S0.
  - intros (C1 & L1 & S1)%no_ratelimit_frame. rewrite C1, L1, S1, C0, S0.
    apply orb_false_iff in Eb as [E1 E2]. unfold NOTIFICATION_INITIAL_DELAY, NOTIFICATION_PERIOD in *.
    intros [[Hc Hl]|[Hc Hl]].
    + rewrite Hc in *. cbn in E1. apply Z.ltb_ge in E1. rewrite Hl in E1. right. lia.
    + destruct (Z.ltb_spec 0 (d_count_progress d)); [|lia]. cbn in E2. apply Z.ltb_ge in E2. right. lia.
Qed.

Lemma notify_all_rate : forall reqs d r d', Forall (fun '(p, t) => p <> t) reqs ->
  notify_all reqs d = (r, d') -> rate_ok d -> rate_ok d'.
Proof.
  induction reqs as [|[p t] reqs IH]; intros d r d' Hne; cbn [notify_all]; [by intros [= _ <-]|].
  inversion Hne as [|? ? Hp Hrest]; subst. unfold bind.
  destruct (notify_progress p t d) as [r1 d1] eqn:E1. intros E Hd.
  pose proof (notify_progress_rate _ _ _ _ _ Hp E1 Hd) as H1.
  destruct r1; [by eapply IH|]. by injection E as _ <-.
Qed.

(** ** Pulse mode *)

Lemma byte_of_Z_bits a b :
  (forall i, 0 <= i < 8 -> Z.testbit a i = Z.testbit b i) -> byte_of_Z a = byte_of_Z b.
Proof.
  intros Hbits. unfold byte_of_Z. replace (a mod 256) with (b mod 256); [done|].
  change 256 with (2 ^ 8). apply Z.bits_inj'. intros i Hi.
  destruct (Z_lt_dec i 8).
  - rewrite !Z.mod_pow2_bits_low by lia. symmetry. apply Hbits. lia.
  - by rewrite !Z.mod_pow2_bits_high by lia.
Qed.

Lemma masked_spec v s : 0 <= s <= 24 -> masked v (Z.shiftl 255 s) s = byte_of_Z (Z.shiftr v s).
Proof.
  intros Hs. apply byte_of_Z_bits. intros i Hi.
  rewrite !Z.shiftr_spec, Z.land_spec, Z.shiftl_spec by lia.
  replace (i + s - s) with i by lia. unfold u32. rewrite Z.mod_pow2_bits_low by lia.
  assert (Z.testbit 255 i = true) as ->; [|by rewrite andb_true_r].
  change 255 with (Z.ones 8). apply Z.ones_spec_low. lia.
Qed.

Lemma masked_word_spec v : masked_word v = be_bytes 4 v.
Proof.
  unfold masked_word.
  change 0xff000000 with (Z.shiftl 255 24). change 0x00ff0000 with (Z.shiftl 255 16).
  change 0x0000ff00 with (Z.shiftl 255 8). change 0x000000ff with (Z.shiftl 255 0).
  rewrite !masked_spec by lia. reflexivity.
Qed.

Lemma pulse_bytes d :
  masked_word GUESTFS_PROGRESS_FLAG ++ masked_word (d_proc_nr d) ++ masked_word (d_serial d) ++
    replicate 8 x00 ++ replicate 7 x00 ++ [x01] = progress_frame (progress_message d 0 1).
Proof.
  rewrite !masked_word_spec. unfold progress_frame, flag_word, progress_wire, progress_message.
  cbn [progress_proc progress_serial progress_position progress_total].
  unfold u32. change (2 ^ 32) with (2 ^ (8 * Z.of_nat 4)). rewrite be_bytes_mod by lia. reflexivity.
Qed.

(** * Receiving a file *)

(** An upload as it arrives: data blocks and a terminator; before each of them
    there may be stray cancellation words. *)
Definition cancels (n : nat) : list byte := concat (replicate n (flag_word GUESTFS_CANCEL_FLAG)).
Definition up_item (it : nat * list byte) : list byte :=
  cancels (fst it) ++ chunk_frame (mk_chunk 0 (snd it)).
Definition up_wire (items : list (nat * list byte)) (n : nat) (cancel : bool) : list byte :=
  concat (up_item <$> items) ++ cancels n ++ (if cancel then cancel_frame else complete_frame).

Lemma up_wire_cons it items n c : up_wire (it :: items) n c = up_item it ++ up_wire items n c.
Proof. unfold up_wire. cbn. by rewrite <- app_assoc. Qed.

(** The same socket and request; the file and the selects are not touched. *)
Definition file_same (d d' : daemon) : Prop := d_file d' = d_file d /\ d_select d' = d_select d.

Lemma decode_word z : is_u32 z ->
  match xdr_u_int_get (be_bytes 4 z) with Some (z, _) => z | None => 0 end = z.
Proof. apply decode_u32_be. Qed.

Lemma turn_cancel cb d rest : d_healthy d -> d_inbox d = flag_word GUESTFS_CANCEL_FLAG ++ rest ->
  exists d', receive_chunk_turn cb d = (Ret None, d') /\
    dex (flag_word GUESTFS_CANCEL_FLAG) [] d d' /\ d_inbox d' = rest /\ file_same d d'.
Proof.
  intros Hd Hi. destruct (xread_sock_spec d _ _ Hd Hi) as (d1 & E1 & X1 & Hi1 & F1 & S1).
  rewrite length_flag_word in E1. unfold receive_chunk_turn. mstep E1.
  unfold flag_word at 1 2 3. rewrite decode_word by done. cbn [Z.eqb Pos.eqb]. rewrite Z.eqb_refl.
  by exists d1.
Qed.

Lemma turn_chunk cb ch d rest : d_healthy d -> chunk_fits ch = true -> is_s32 (chunk_cancel ch) ->
  d_inbox d = chunk_frame ch ++ rest ->
  exists d1, receive_chunk_turn cb d = handle_chunk cb ch d1 /\
    dex (chunk_frame ch) [] d d1 /\ d_inbox d1 = rest /\ file_same d d1.
Proof.
  intros Hd Hf Hs Hi. unfold chunk_frame, frame in *. rewrite <- app_assoc in Hi.
  destruct (xread_sock_spec d _ _ Hd Hi) as (d1 & E1 & X1 & Hi1 & F1 & S1).
  rewrite length_be_bytes in E1. unfold receive_chunk_turn. mstep E1.
  pose proof (chunk_message_ok ch Hf) as Hm. unfold message_ok, GUESTFS_MESSAGE_MAX in Hm.
  rewrite decode_word by (unfold is_u32; lia). unfold GUESTFS_CANCEL_FLAG, GUESTFS_MESSAGE_MAX.
  destruct (Z.eqb_spec (zlength (chunk_wire ch)) 0xffffeeee); [lia|].
  destruct (Z.ltb_spec (4 * 1024 * 1024) (zlength (chunk_wire ch))); [lia|]. cbn [Z.eqb Pos.eqb].
  destruct (xread_sock_spec d1 _ _ (dx_healthy _ _ _ _ X1) Hi1) as (d2 & E2 & X2 & Hi2 & F2 & S2).
  unfold zlength. rewrite Nat2Z.id. mstep E2. cbn [Z.eqb Pos.eqb].
  rewrite <- (app_nil_r (chunk_wire ch)), chunk_get, app_nil_r by done.
  exists d2. split_and!; [done| |done|split; congruence].
  exact (dex_trans _ _ _ _ _ _ _ X1 X2).
Qed.

Lemma length_cancels_pos n : (n <= length (cancels n))%nat.
Proof. induction n; [done|]. unfold cancels in *. cbn. rewrite length_app, length_flag_word. lia. Qed.

(** Cancellation words are ignored. *)
Lemma receive_loop_skip cb : forall n fuel d rest, d_healthy d -> d_inbox d = cancels n ++ rest ->
  (length (d_inbox d) < fuel)%nat ->
  exists fuel' d', receive_loop fuel cb d = receive_loop fuel' cb d' /\ dex (cancels n) [] d d' /\
    d_inbox d' = rest /\ (length rest < fuel')%nat /\ file_same d d'.
Proof.
  induction n as [|n IH]; intros fuel d rest Hd Hi Hf.
  { exists fuel, d. rewrite Hi in Hf. split_and!; [done|by apply dex_refl|done..]. }
  change (cancels (S n)) with (flag_word GUESTFS_CANCEL_FLAG ++ cancels n) in *.
  rewrite <- app_assoc in Hi. destruct fuel as [|fuel]; [lia|]. cbn [receive_loop].
  destruct (turn_cancel cb d _ Hd Hi) as (d1 & E1 & X1 & Hi1 & F1). mstep E1.
  destruct (IH fuel d1 rest) as (fuel' & d' & -> & X & Hi' & Hf' & F);
    [by destruct X1|done|rewrite Hi1; rewrite Hi, length_app, length_flag_word in Hf; lia|].
  exists fuel', d'. split_and!; [done|exact (dex_trans _ _ _ _ _ _ _ X1 X)|done..|].
  destruct F1, F. split; congruence.
Qed.

(** One round: cancellation words, then a chunk. *)
Lemma receive_round cb n ch fuel d rest : d_healthy d -> chunk_fits ch = true -> is_s32 (chunk_cancel ch) ->
  d_inbox d = cancels n ++ chunk_frame ch ++ rest -> (length (d_inbox d) < fuel)%nat ->
  exists fuel' d', receive_loop fuel cb d =
      bind (handle_chunk cb ch) (fun t => match t with Some r => ret r | None => receive_loop fuel' cb end) d' /\
    dex (cancels n ++ chunk_frame ch) [] d d' /\ d_inbox d' = rest /\ (length rest < fuel')%nat /\
    file_same d d'.
Proof.
  intros Hd Hfit Hs Hi Hf.
  destruct (receive_loop_skip cb n fuel d _ Hd Hi Hf) as (f1 & d1 & -> & X1 & Hi1 & Hf1 & F1).
  destruct f1 as [|f1]; [lia|].
  destruct (turn_chunk cb ch d1 rest (dx_healthy _ _ _ _ X1) Hfit Hs Hi1) as (d2 & E2 & X2 & Hi2 & F2).
  exists f1, d2. cbn [receive_loop]. unfold bind at 1 2. rewrite E2.
  split_and!; [done|exact (dex_trans _ _ _ _ _ _ _ X1 X2)|done| |destruct F1, F2; split; congruence].
  rewrite length_app in Hf1. unfold chunk_frame, frame in Hf1. rewrite length_app, length_be_bytes in Hf1. lia.
Qed.

Definition up_item_ok (it : nat * list byte) : Prop := block_ok (snd it).
Definition term_result (cancel : bool) : Z := if cancel then -2 else 0.

(** The terminator ends the loop. *)
Lemma receive_terminated cb n cancel fuel d rest : d_healthy d ->
  d_inbox d = up_wire [] n cancel ++ rest -> (length (d_inbox d) < fuel)%nat ->
  exists d', receive_loop fuel cb d = (Ret (term_result cancel), d') /\
    dex (up_wire [] n cancel) [] d d' /\ d_inbox d' = rest /\ file_same d d'.
Proof.
  intros Hd Hi Hf. unfold up_wire in *. cbn [fmap list_fmap concat app] in *.
  set (ch := mk_chunk (if cancel then 1 else 0) []).
  assert ((if cancel then cancel_frame else complete_frame) = chunk_frame ch) as Ech by by destruct cancel.
  rewrite Ech, <- app_assoc in *.
  destruct (receive_round cb n ch fuel d rest) as (f1 & d1 & -> & X1 & Hi1 & _ & F1);
    [done|done|by destruct cancel|done|done|].
  exists d1. split_and!; [by destruct cancel|done..].
Qed.

(** Discarding: everything up to and including the terminator is consumed. *)
Lemma discard_spec : forall items n cancel fuel d rest, d_healthy d -> Forall up_item_ok items ->
  d_inbox d = up_wire items n cancel ++ rest -> (length (d_inbox d) < fuel)%nat ->
  exists d', receive_loop fuel None d = (Ret (term_result cancel), d') /\
    dex (up_wire items n cancel) [] d d' /\ d_inbox d' = rest /\ file_same d d'.
Proof.
  induction items as [|[k blk] items IH]; intros n cancel fuel d rest Hd Hit Hi Hf;
    [by apply receive_terminated|].
  inversion Hit as [|? ? Hb Hit']; subst. rewrite up_wire_cons in Hi. unfold up_item in Hi.
  rewrite <- !app_assoc in Hi. cbn [fst snd] in Hi. cbn in Hb.
  destruct (receive_round None k (mk_chunk 0 blk) fuel d _ Hd (block_fits _ Hb) ltac:(done) Hi Hf)
    as (f1 & d1 & -> & X1 & Hi1 & Hf1 & F1).
  assert (handle_chunk None (mk_chunk 0 blk) d1 = (Ret None, d1)) as E
    by (destruct Hb as [Hn _]; by destruct blk). mstep E.
  destruct (IH n cancel f1 d1 rest) as (d' & -> & X & Hi' & F); [by destruct X1|done..|by rewrite Hi1|].
  exists d'. split_and!; [done| |done|destruct F, F1; split; congruence].
  rewrite up_wire_cons. exact (dex_trans _ _ _ _ _ _ _ X1 X).
Qed.

Lemma script_bytes_stream q : script_bytes q = length (read_stream q).
Proof. induction q as [|[bs|e] q IH]; cbn; [done| |done]. rewrite length_app. lia. Qed.

Lemma cancel_receive_spec items n cancel d rest : d_healthy d -> Forall up_item_ok items ->
  d_inbox d = up_wire items n cancel ++ rest ->
  exists r d', cancel_receive d = (Ret r, d') /\
    dex (up_wire items n cancel) (flag_word GUESTFS_CANCEL_FLAG) d d' /\ d_inbox d' = rest /\ file_same d d'.
Proof.
  intros Hd Hit Hi. unfold cancel_receive.
  destruct (xwrite_sock_spec d (be_bytes 4 GUESTFS_CANCEL_FLAG) Hd) as (d1 & E1 & X1 & Hi1 & F1 & S1 & _).
  mstep E1. cbn [Z.eqb]. unfold receive_file.
  destruct (discard_spec items n cancel (S (script_bytes (d_in d1))) d1 rest) as (d2 & E2 & X2 & Hi2 & F2);
    [by destruct X1|done|by rewrite Hi1|rewrite script_bytes_stream; unfold d_inbox; lia|].
  exists (term_result cancel), d2. split_and!; [done| |done|destruct F2; split; congruence].
  pose proof (dex_trans _ _ _ _ _ _ _ X1 X2) as X. by rewrite app_nil_r in X.
Qed.

(** ** Writing the data *)

Lemma write_at_nonempty pos w data : w <> [] ->
  write_at pos w data = take (Z.to_nat pos) data ++ replicate (Z.to_nat pos - length data) x00 ++ w ++ drop (Z.to_nat pos + length w) data.
Proof. by destruct w. Qed.
(** Writing twice is writing once. *)
Lemma write_at_app pos a b data : 0 <= pos ->
  write_at pos (a ++ b) data = write_at (pos + zlength a) b (write_at pos a data).
Proof.
  intros Hp. destruct (decide (a = [])) as [->|Ha]; [by rewrite Z.add_0_r|]. destruct (decide (b = [])) as [->|Hb].
  { by rewrite app_nil_r. }
  rewrite (write_at_nonempty _ (a ++ b)), (write_at_nonempty _ a), (write_at_nonempty _ b) by (by destruct a).
  rewrite (Z2Nat.inj_add pos (zlength a)) by (done || apply zlength_nonneg).
  unfold zlength. rewrite Nat2Z.id. set (n := Z.to_nat pos).
  set (pre := take n data ++ replicate (n - length data) x00).
  assert (length pre = n) as Hn by (unfold pre; rewrite length_app, length_take, length_replicate; lia).
  assert (forall x, take n data ++ replicate (n - length data) x00 ++ x = pre ++ x) as E by (intros x; unfold pre; by rewrite app_assoc).
  rewrite !E. assert (length (pre ++ a ++ drop (n + length a) data) - (n + length a) = length (drop (n + length a) data))%nat as El
    by (rewrite !length_app; lia).
  rewrite (app_assoc pre a (drop _ data)), take_app_length', drop_app_ge by (rewrite length_app; lia).
  replace (n + length a - length ((pre ++ a) ++ drop (n + length a) data))%nat with 0%nat by (rewrite !length_app; lia).
  rewrite length_app, drop_drop. cbn [replicate app]. rewrite <- !app_assoc. do 4 f_equal. rewrite !length_app. lia.
Qed.
Lemma write_at_end data w : write_at (zlength data) w data = data ++ w.
Proof.
  destruct (decide (w = [])) as [->|Hw]; [by rewrite app_nil_r|]. rewrite write_at_nonempty by done.
  unfold zlength. rewrite Nat2Z.id, take_ge, Nat.sub_diag, drop_ge by lia. cbn. by rewrite app_nil_r.
Qed.
Lemma write_at_start w : write_at 0 w [] = w.
Proof. apply (write_at_end [] w). Qed.

(** The data written to a file at its position. *)
Record wrote (w : list byte) (f f' : guest_file) : Prop := {
  wrote_data : gf_data f' = write_at (gf_offset f) w (gf_data f);
  wrote_offset : gf_offset f' = gf_offset f + zlength w
}.
Lemma wrote_nothing f : wrote [] f f.
Proof. split; [done|]. unfold zlength. cbn. lia. Qed.
Lemma wrote_trans a b f1 f2 f3 : 0 <= gf_offset f1 -> wrote a f1 f2 -> wrote b f2 f3 -> wrote (a ++ b) f1 f3.
Proof.
  intros Hp [D1 O1] [D2 O2]. split.
  - by rewrite D2, O1, D1, write_at_app.
  - rewrite O2, O1, zlength_app. lia.
Qed.

(** The file's results that come after the transfer stay; a file whose writes
    succeed keeps succeeding. *)
Record file_kept (f f' : guest_file) : Prop := {
  fk_close : gf_close f' = gf_close f;
  fk_write : Forall plain_write (gf_write f) -> Forall plain_write (gf_write f')
}.

Lemma file_kept_trans f1 f2 f3 : file_kept f1 f2 -> file_kept f2 f3 -> file_kept f1 f3.
Proof. intros [] []. split; [congruence|auto]. Qed.

(** A callback of [receive_file] that writes the data to the file. *)
Definition writes_file (cb : list byte -> dm Z) : Prop := forall d blk, d_healthy d ->
  exists r d' ps, cb blk d = (Ret r, d') /\ dex [] (progress_frames ps) d d' /\
    Forall progress_typed ps /\ d_inbox d' = d_inbox d /\ file_kept (d_file d) (d_file d') /\
    (r = 0 /\ wrote blk (d_file d) (d_file d') \/
     r = -1 /\ ~ Forall plain_write (gf_write (d_file d))).

Lemma write_cb_spec : writes_file write_cb.
Proof.
  intros d blk Hd. unfold write_cb, xwrite_file.
  destruct (xwrite_run_spec (gf_write (d_file d)) blk) as (r & k & q' & E & Hk & Hg).
  unfold bind at 1. rewrite E.
  set (d1 := d <| d_file; gf_write := q' |> <| d_file ::= file_wrote (take k blk) |>).
  destruct r as [e|].
  - exists (-1), (d1 <| d_errno := e |>), []. split_and!; try done; [by apply dex_upd| |].
    + split; [done|]. intros Hp. by destruct (Hg Hp).
    + right. split; [done|]. intros Hp. by destruct (Hg Hp).
  - cbn [Z.eqb Pos.eqb].
    set (d2 := d1 <| d_file; gf_written ::= fun w => u64 (w + zlength blk) |>).
    mstep (eq_refl : modify (fun d => d <| d_file; gf_written ::= fun w => u64 (w + zlength blk) |>) d1
                     = (Ret tt, d2)).
    assert (dex [] [] d d2) as X2 by by apply dex_upd.
    assert (wrote blk (d_file d) (d_file d2)) as D2 by (split; cbn; by rewrite (Hk eq_refl)).
    assert (file_kept (d_file d) (d_file d2)) as K2.
    { split; [done|]. intros Hp. by destruct (Hg Hp). }
    destruct (0 <? d_progress_hint d2) eqn:Eh.
    + destruct (notify_progress_spec d2 (gf_written (d_file d2)) (d_progress_hint d2))
        as (d3 & ps & E3 & X3 & T3 & I3 & F3 & _); [by destruct X2|apply u64_bound|apply (dx_healthy _ _ _ _ X2)|].
      mstep E3. exists 0, d3, ps. rewrite F3.
      split_and!; [done|exact (dex_trans _ _ _ _ _ _ _ X2 X3)|done|by rewrite I3|done|by left].
    + exists 0, d2, []. split_and!; try done. by left.
Qed.

(** How the receiving loop ends when the data is written to the file: at the
    terminator, or at a failed write with the rest still to come. *)
Definition write_loop_end (items : list (nat * list byte)) n cancel rest ps (d d' : daemon) (r : Z) : Prop :=
  (r = term_result cancel /\ dex (up_wire items n cancel) (progress_frames ps) d d' /\
   d_inbox d' = rest /\ wrote (concat (snd <$> items)) (d_file d) (d_file d')) \/
  (r = -1 /\ ~ Forall plain_write (gf_write (d_file d)) /\ exists its1 its2, items = its1 ++ its2 /\
   dex (concat (up_item <$> its1)) (progress_frames ps) d d' /\
   d_inbox d' = up_wire its2 n cancel ++ rest).

Lemma receive_write_spec cb : writes_file cb -> forall items n cancel fuel d rest, d_healthy d -> 0 <= gf_offset (d_file d) -> Forall up_item_ok items ->
  d_inbox d = up_wire items n cancel ++ rest -> (length (d_inbox d) < fuel)%nat ->
  exists r d' ps, receive_loop fuel (Some cb) d = (Ret r, d') /\ Forall progress_typed ps /\
    file_kept (d_file d) (d_file d') /\ write_loop_end items n cancel rest ps d d' r.
Proof.
  intros Hcb. induction items as [|[k blk] items IH]; intros n cancel fuel d rest Hd Hpos Hit Hi Hf.
  { destruct (receive_terminated (Some cb) n cancel fuel d rest Hd Hi Hf)
      as (d' & E & X & Hi' & [F _]).
    exists (term_result cancel), d', []. rewrite F. split_and!; [done|done|by split|].
    left. rewrite F. split_and!; [done..|apply wrote_nothing]. }
  inversion Hit as [|? ? Hb Hit']; subst. rewrite up_wire_cons in Hi. unfold up_item in Hi.
  rewrite <- !app_assoc in Hi. cbn [fst snd] in Hi. cbn in Hb.
  destruct (receive_round (Some cb) k (mk_chunk 0 blk) fuel d _ Hd (block_fits _ Hb) ltac:(done) Hi Hf)
    as (f1 & d1 & -> & X1 & Hi1 & Hf1 & [F1 _]).
  destruct (Hcb d1 blk) as (r & d2 & ps & E2 & X2 & T2 & I2 & K2 & Hr); [by destruct X1|].
  pose proof (dex_trans _ _ _ _ _ _ _ X1 X2) as X12. rewrite app_nil_r in X12. cbn [app] in X12.
  change (cancels k ++ _) with (up_item (k, blk)) in X12.
  rewrite F1 in *.
  assert (handle_chunk (Some cb) (mk_chunk 0 blk) d1 =
          (Ret (if r =? -1 then Some (-1) else None), d2)) as E.
  { destruct Hb as [Hn _]. unfold handle_chunk. destruct blk as [|b bs]; [done|]. cbn [chunk_cancel chunk_data].
    cbn [Z.eqb negb andb]. mstep E2. by destruct (r =? -1). }
  mstep E. destruct Hr as [[-> Hd2]|[-> Hbad]]; cbn [Z.eqb Pos.eqb].
  - destruct (IH n cancel f1 d2 rest) as (r & d' & ps' & -> & T & K & Hend);
      [by destruct X2|by destruct Hd2 as [_ ->]; pose proof (zlength_nonneg blk); lia|done|congruence|by rewrite I2, Hi1|].
    exists r, d', (ps ++ ps'). split_and!; [done|by apply Forall_app|by eapply file_kept_trans|].
    unfold write_loop_end. rewrite up_wire_cons, progress_frames_app.
    destruct Hend as [(-> & X & Hi' & Hd')|(-> & Hn & its1 & its2 & -> & X & Hi')].
    + left. split_and!; [done|exact (dex_trans _ _ _ _ _ _ _ X12 X)|done|].
      by eapply wrote_trans.
    + right. split_and!; [done|destruct K2; tauto|]. exists ((k, blk) :: its1), its2.
      split_and!; [done|exact (dex_trans _ _ _ _ _ _ _ X12 X)|done].
  - exists (-1), d2, ps. split_and!; [done..|]. right. split_and!; [done..|].
    exists [(k, blk)], items. split_and!; [done| |congruence].
    change (concat (up_item <$> [(k, blk)])) with (up_item (k, blk) ++ []). by rewrite app_nil_r.
Qed.

(** ** upload *)

(** What an upload leaves on the wire: progress messages, then nothing more if
    it succeeded, otherwise an error reply, after a cancellation if the failure
    was in the guest. *)
Definition failed_upload (d : daemon) ps (cancelled : bool) e : list byte :=
  progress_frames ps ++ cancel_words cancelled ++ error_reply d e.

Record guest_upload_good (offset : Z) (f : guest_file) : Prop := {
  gug_open : gf_open f = None;
  gug_lseek : offset <> 0 -> gf_lseek f = None;
  gug_write : Forall plain_write (gf_write f);
  gug_close : gf_close f = None
}.

Lemma reply_header_same d d' st : d_proc_nr d' = d_proc_nr d -> d_serial d' = d_serial d ->
  reply_header d' st = reply_header d st.
Proof. unfold reply_header. by intros -> ->. Qed.

Lemma error_reply_same d d' e : d_proc_nr d' = d_proc_nr d -> d_serial d' = d_serial d ->
  error_reply d' e = error_reply d e.
Proof. intros ? ?. unfold error_reply. by rewrite (reply_header_same d d'). Qed.

(** An error reply after what has been exchanged so far. *)
Lemma then_error d0 d m (errmsg : dm unit) din dout (r : Z) :
  errmsg = reply_with_error m \/ (exists e, errmsg = reply_with_perror_errno e m) ->
  dex din dout d0 d ->
  exists e d', (errmsg ;;; ret r) d = (Ret r, d') /\ error_fits e = true /\
    dex din (dout ++ error_reply d0 e) d0 d' /\ d_inbox d' = d_inbox d.
Proof.
  intros Hm X. destruct (reply_error_spec d m errmsg Hm (dx_healthy _ _ _ _ X)) as (e & d' & E & Hf & X' & _).
  exists e, d'. mstep E. split_and!; [done..| |by destruct X'].
  rewrite <- (error_reply_same d0 d) by apply X.
  pose proof (dex_trans _ _ _ _ _ _ _ X X') as X2. by rewrite app_nil_r in X2.
Qed.

(** cancel_receive, then the error reply. *)
Lemma cancel_then_error d0 d m (errmsg : dm unit) items n cancel rest din ps :
  errmsg = reply_with_error m \/ (exists e, errmsg = reply_with_perror_errno e m) ->
  dex din (progress_frames ps) d0 d -> Forall up_item_ok items ->
  d_inbox d = up_wire items n cancel ++ rest ->
  exists e d', (cancel_receive ;;; errmsg ;;; ret (-1)) d = (Ret (-1), d') /\ error_fits e = true /\
    dex (din ++ up_wire items n cancel) (failed_upload d0 ps true e) d0 d' /\ d_inbox d' = rest.
Proof.
  intros Hm X Hit Hi.
  destruct (cancel_receive_spec items n cancel d rest (dx_healthy _ _ _ _ X) Hit Hi)
    as (r & d1 & E1 & X1 & Hi1 & _).
  pose proof (dex_trans _ _ _ _ _ _ _ X X1) as X01.
  destruct (then_error d0 d1 m errmsg _ _ (-1) Hm X01) as (e & d' & E & Hf & X' & Hi').
  exists e, d'. mstep E1. split_and!; [done..| |congruence].
  unfold failed_upload, cancel_words. by rewrite app_assoc.
Qed.

(** The file after an upload. *)
Definition upload_content (flags offset : Z) (f : guest_file) (bs : list byte) : list byte :=
  write_at offset bs (if is_true (Z.land flags O_TRUNC) && gf_regular f then [] else gf_data f).
Lemma opened_content flags offset f f' bs : 
  wrote bs ((if is_true offset then (opened flags f) <| gf_offset := offset |> else opened flags f) <| gf_written := 0 |>) f' ->
  gf_data f' = upload_content flags offset f bs.
Proof.
  intros [-> _]. unfold upload_content, opened, is_true. cbn [gf_regular upd upd_gf_offset].
  destruct (Z.eqb_spec offset 0) as [->|]; cbn [negb]; by destruct (_ && _).
Qed.

Lemma upload_spec fn flags offset items n cancel rest d :
  d_healthy d -> 0 <= offset -> Forall up_item_ok items -> d_inbox d = up_wire items n cancel ++ rest ->
  exists r d' ps, upload fn flags offset d = (Ret r, d') /\ Forall progress_typed ps /\ d_inbox d' = rest /\
    (r = 0 /\ cancel = false /\ dex (up_wire items n cancel) (progress_frames ps) d d' /\
       gf_data (d_file d') = upload_content flags offset (d_file d) (concat (snd <$> items)) \/
     r = -1 /\ ~ (guest_upload_good offset (d_file d) /\ cancel = false) /\
       exists cancelled e, error_fits e = true /\
         dex (up_wire items n cancel) (failed_upload d ps cancelled e) d d').
Proof.
  intros Hd Hpos Hit Hi. unfold upload. pose proof (dex_refl d Hd) as X0.
  destruct (gf_open (d_file d)) as [err|] eqn:Eo.
  { destruct (cancel_then_error d d fn (reply_with_perror_errno err fn) items n cancel rest [] [])
      as (e & d' & E & Hf & X & Hi'); [eauto|done..|].
    exists (-1), d', []. split_and!; [done..|]. right. split_and!; [done|intros [[] _]; congruence|eauto]. }
  set (d_ := d <| d_file ::= opened flags |>). assert (dex [] [] d d_) as X_ by by apply dex_upd.
  assert (gf_lseek (d_file d_) = gf_lseek (d_file d) /\ gf_close (d_file d_) = gf_close (d_file d) /\ gf_write (d_file d_) = gf_write (d_file d))
    as (El_ & Ec_ & Ew_) by (cbn; unfold opened; by destruct (_ && _)).
  rewrite El_. destruct (if is_true offset then gf_lseek (d_file d) else None) as [err|] eqn:El.
  { destruct (cancel_then_error d d_ ("lseek: " +:+ fn) (reply_with_perror_errno err ("lseek: " +:+ fn))
      items n cancel rest [] []) as (e & d' & E & Hf & X & Hi'); [eauto|done..|].
    exists (-1), d', []. split_and!; [done..|]. right. split_and!; [done| |eauto].
    intros [[_ Hl _ _] _]. unfold is_true in El. destruct (Z.eqb_spec offset 0); cbn in El; [done|].
    rewrite Hl in El; done. }
  set (d0 := (if is_true offset then d_ <| d_file; gf_offset := offset |> else d_) <| d_file; gf_written := 0 |>).
  assert (dex [] [] d d0 /\ d_inbox d0 = d_inbox d) as [X00 I00] by (unfold d0; destruct (is_true offset); (split; [by apply dex_upd|done])).
  assert (gf_close (d_file d0) = gf_close (d_file d) /\ gf_write (d_file d0) = gf_write (d_file d)) as (Ec0 & Ew0)
    by (unfold d0; by destruct (is_true offset)).
  destruct (receive_write_spec write_cb write_cb_spec items n cancel (S (script_bytes (d_in d0))) d0 rest)
    as (r & d1 & ps & E1 & T1 & K1 & Hend);
    [by destruct X00| |done|by rewrite I00|rewrite script_bytes_stream; unfold d_inbox; lia|].
  { unfold d0, d_, is_true, opened. cbn. destruct (Z.eqb_spec offset 0); cbn; [by destruct (_ && _)|done]. }
  change (receive_file (Some write_cb) d0 = (Ret r, d1)) in E1. mstep E1. destruct Hend as [(-> & X1 & Hi1 & Hdata)|(-> & Hbad & its1 & its2 & -> & X1 & Hi1)].
  - pose proof (dex_trans _ _ _ _ _ _ _ X00 X1) as X. cbn [app] in X. destruct cancel; cbn [term_result Z.eqb Pos.eqb].
    + destruct (then_error d d1 "file upload cancelled" (reply_with_error "file upload cancelled") _ _ (-1)
        (or_introl eq_refl) X) as (e & d' & E & Hf & X' & Hi').
      exists (-1), d', ps. split_and!; [done..|congruence|]. right. split_and!; [done|by intros []|].
      exists false, e. by split.
    + destruct (gf_close (d_file d1)) as [err|] eqn:Ec.
      * destruct (then_error d d1 ("close: " +:+ fn) (reply_with_perror_errno err ("close: " +:+ fn)) _ _ (-1)
          ltac:(eauto) X) as (e & d' & E & Hf & X' & Hi').
        exists (-1), d', ps. split_and!; [done..|congruence|]. right. split_and!; [done| |].
        -- intros [[_ _ _ Hc] _]. pose proof (fk_close _ _ K1) as Hk.
           congruence.
        -- exists false, e. by split.
      * exists 0, d1, ps. split_and!; [done..|]. left. split_and!; [done..|].
        apply opened_content. unfold d0, d_ in Hdata. by destruct (is_true offset).
  - pose proof (dex_trans _ _ _ _ _ _ _ X00 X1) as X. cbn [app] in X. cbn [Z.eqb Pos.eqb].
    apply Forall_app in Hit as [_ Hit2].
    destruct (cancel_then_error d d1 ("write error: " +:+ fn) (reply_with_error ("write error: " +:+ fn))
      its2 n cancel rest _ ps (or_introl eq_refl) X Hit2 Hi1) as (e & d' & E & Hf & X' & Hi').
    exists (-1), d', ps. split_and!; [done..|]. right. split_and!; [done|intros [[_ _ ? _] _]; rewrite Ew0 in Hbad; done|].
    exists true, e. split; [done|]. unfold up_wire in *. rewrite fmap_app, concat_app, <- app_assoc. exact X'.
Qed.

(** * Sending a file *)

Lemma send_chunk_spec ch d : d_healthy d -> chunk_fits ch = true ->
  exists d', send_chunk ch d = (Ret 0, d') /\ dex [] (chunk_frame ch) d d' /\ d_inbox d' = d_inbox d /\
    file_same d d'.
Proof.
  intros Hd Hf. unfold send_chunk. destruct (chunk_put ch Hf) as (x & -> & Ex).
  unfold xdr_getpos. rewrite Ex.
  destruct (xwrite_sock_spec d (be_bytes 4 (zlength (chunk_wire ch))) Hd) as (d1 & E1 & X1 & I1 & F1 & S1 & _).
  mstep E1. cbn [Z.eqb].
  destruct (xwrite_sock_spec d1 (chunk_wire ch)) as (d2 & E2 & X2 & I2 & F2 & S2 & _); [by destruct X1|].
  mstep E2. exists d2. split_and!; [done| |congruence|split; congruence].
  exact (dex_trans _ _ _ _ _ _ _ X1 X2).
Qed.

(** The library sends nothing during a download, or one cancellation; select
    reports data only when there is some. *)
Record cancel_state (cancel : bool) (rest : list byte) (d : daemon) : Prop := {
  cs_inbox : d_inbox d = cancel_words cancel ++ rest;
  cs_select : cancel = false -> Forall (fun e => e <> SelReady true) (d_select d)
}.

Lemma check_cancellation_spec cancel rest d : d_healthy d -> cancel_state cancel rest d ->
  exists r d', check_for_library_cancellation d = (Ret r, d') /\ d_file d' = d_file d /\
    ((r = 0 /\ dex [] [] d d' /\ cancel_state cancel rest d') \/
     (r = 1 /\ cancel = true /\ dex (flag_word GUESTFS_CANCEL_FLAG) [] d d' /\ d_inbox d' = rest)).
Proof.
  intros Hd [Hi Hs]. unfold check_for_library_cancellation.
  assert (dex [] [] d (d <| d_select ::= tail |>)) as X by by apply dex_upd.
  assert (cancel_state cancel rest (d <| d_select ::= tail |>)) as Hcs.
  { split; [done|]. intros Hc. cbn. specialize (Hs Hc). destruct (d_select d); [done|by inversion Hs]. }
  destruct (d_select d) as [|[|[]] q] eqn:Es;
    [by eexists _, _; split_and!; [reflexivity|done|left]..| |by eexists _, _; split_and!; [reflexivity|done|left]].
  destruct cancel; [|specialize (Hs eq_refl); by inversion Hs].
  set (d0 := d <| d_select := q |>). assert (dex [] [] d d0) as X0 by by apply dex_upd.
  destruct (xread_sock_spec d0 (flag_word GUESTFS_CANCEL_FLAG) rest) as (d1 & E1 & X1 & Hi1 & F1 & _);
    [by destruct X0|done|]. rewrite length_flag_word in E1. mstep E1. cbn [Z.eqb Pos.eqb].
  unfold flag_word at 1. rewrite decode_word by done. rewrite Z.eqb_refl. cbn [negb].
  exists 1, d1. split_and!; [done|done|]. right. split_and!; [done..| |done].
  exact (dex_trans _ _ _ _ _ _ _ X0 X1).
Qed.

Lemma send_file_write_spec buf cancel rest d :
  d_healthy d -> cancel_state cancel rest d -> zlength buf <= GUESTFS_MAX_CHUNK_SIZE ->
  exists r d', send_file_write buf d = (Ret r, d') /\ d_file d' = d_file d /\
    ((r = 0 /\ dex [] (chunk_frame (mk_chunk 0 buf)) d d' /\ cancel_state cancel rest d') \/
     (r = -2 /\ cancel = true /\ dex (flag_word GUESTFS_CANCEL_FLAG) cancel_frame d d' /\ d_inbox d' = rest)).
Proof.
  intros Hd Hcs Hl. unfold send_file_write.
  destruct (Z.ltb_spec GUESTFS_MAX_CHUNK_SIZE (zlength buf)); [lia|].
  destruct (check_cancellation_spec cancel rest d Hd Hcs) as (r & d1 & E1 & F1 & Hr). mstep E1.
  destruct Hr as [(-> & X1 & Hcs1)|(-> & -> & X1 & Hi1)]; cbn [is_true Z.eqb negb].
  - destruct (send_chunk_spec (mk_chunk 0 buf) d1) as (d2 & E2 & X2 & I2 & [F2 S2]);
      [by destruct X1|by apply Z.leb_le|]. mstep E2. cbn [Z.eqb Pos.eqb].
    exists 0, d2. split_and!; [done|congruence|]. left.
    split_and!; [done|exact (dex_trans _ _ _ _ _ _ _ X1 X2)|].
    destruct Hcs1. split; rewrite ?I2, ?S2; done.
  - destruct (send_chunk_spec (mk_chunk 1 []) d1) as (d2 & E2 & X2 & I2 & [F2 S2]);
      [by destruct X1|done|]. mstep E2. cbn [Z.eqb Pos.eqb].
    exists (-2), d2. split_and!; [done|congruence|]. right. split_and!; [done..| |congruence].
    pose proof (dex_trans _ _ _ _ _ _ _ X1 X2) as X. by rewrite app_nil_r in X.
Qed.

(** ** do_download *)

(** The content of the guest's file: up to end of file or the first error. *)
Fixpoint file_content (q : list read_ev) : list byte :=
  match q with
  | [] | RdData [] :: _ | RdErr _ :: _ => []
  | RdData bs :: q' => bs ++ file_content q'
  end.
Definition no_read_error (q : list read_ev) : Prop :=
  Forall (fun e => match e with RdErr _ => False | RdData _ => True end) q.

Lemma guest_read_spec n d : (0 < n)%nat -> d_healthy d ->
  exists e q', guest_read n d = (Ret e, d <| d_file; gf_read := q' |>) /\
    dex [] [] d (d <| d_file; gf_read := q' |>) /\
    (no_read_error (gf_read (d_file d)) -> no_read_error q') /\
    match e with
    | RdData bs => (length bs <= n)%nat /\ file_content (gf_read (d_file d)) = bs ++ file_content q' /\
        (bs = [] -> file_content (gf_read (d_file d)) = []) /\
        (bs <> [] -> (script_size q' < script_size (gf_read (d_file d)))%nat)
    | RdErr _ => ~ no_read_error (gf_read (d_file d))
    end.
Proof.
  intros Hn Hd. unfold guest_read.
  destruct (gf_read (d_file d)) as [|[[|b bs]|e] q] eqn:E.
  - eexists _, _. split_and!; [reflexivity|by apply dex_upd|done|]. cbn. split_and!; [lia|done..].
  - eexists _, _. split_and!; [reflexivity|by apply dex_upd|done|]. cbn. split_and!; [lia|done..].
  - cbn [sys_read]. set (x := b :: bs). destruct (Nat.leb_spec (length x) n) as [Hl|Hl].
    + eexists _, _. split_and!; [reflexivity|by apply dex_upd|intros Hq; by inversion Hq|].
      split_and!; [done|done|done|cbn; lia].
    + destruct n as [|n]; [lia|]. assert (drop (S n) x <> []) as Hdr.
      { intros Hx%(f_equal length). rewrite length_drop in Hx. cbn in *. lia. }
      eexists _, _. split_and!; [reflexivity|by apply dex_upd|intros Hq; inversion Hq; by constructor|].
      split_and!; [rewrite length_take; lia| |done|].
      * cbn [file_content]. destruct (drop (S n) x) eqn:Ed; [done|]. rewrite <- Ed, app_assoc, take_drop. done.
      * intros _. cbn [script_size]. rewrite length_drop. lia.
  - eexists _, _. split_and!; [reflexivity|by apply dex_upd|intros Hq; by inversion Hq|].
    intros Hq. by inversion Hq.
Qed.

(** How the sending loop ends.  [ps0] are the progress messages sent since the
    last chunk when the loop was entered. *)
Definition download_loop_end cancel rest (ps0 : list guestfs_progress) items ps (d d' : daemon)
    (res : option Z) : Prop :=
  exists dout, progress_frames ps0 ++ dout =
      concat (down_item <$> items) ++ progress_frames ps ++ (match res with Some _ => [] | None => cancel_frame end) /\
  match res with
  | Some r => dex [] dout d d' /\ cancel_state cancel rest d' /\
      (r = 0 /\ concat (snd <$> items) = file_content (gf_read (d_file d)) \/
       r = -1 /\ ~ no_read_error (gf_read (d_file d)))
  | None => cancel = true /\ dex (flag_word GUESTFS_CANCEL_FLAG) dout d d' /\ d_inbox d' = rest
  end.

(** A block was sent, with the progress messages [ps] after it. *)
Lemma download_loop_step cancel rest ps0 ps blk items ps' d d1 d' res :
  dex [] (chunk_frame (mk_chunk 0 blk) ++ progress_frames ps) d d1 ->
  file_content (gf_read (d_file d)) = blk ++ file_content (gf_read (d_file d1)) ->
  (no_read_error (gf_read (d_file d)) -> no_read_error (gf_read (d_file d1))) ->
  download_loop_end cancel rest ps items ps' d1 d' res ->
  download_loop_end cancel rest ps0 ((ps0, blk) :: items) ps' d d' res.
Proof.
  intros X Hc Hn (dout & Eo & Hend).
  exists ((chunk_frame (mk_chunk 0 blk) ++ progress_frames ps) ++ dout). split.
  { change (concat (down_item <$> (ps0, blk) :: items))
      with ((progress_frames ps0 ++ chunk_frame (mk_chunk 0 blk)) ++ concat (down_item <$> items)).
    by rewrite <- !app_assoc, Eo. }
  destruct res as [r|].
  - destruct Hend as (X' & Hcs & Hr). split_and!; [exact (dex_trans _ _ _ _ _ _ _ X X')|done|].
    destruct Hr as [[-> Hd]|[-> Hd]]; [left|right]; (split; [done|]); [|tauto]. cbn. by rewrite Hd, Hc.
  - destruct Hend as (-> & X' & Hi). split_and!; [done|exact (dex_trans _ _ _ _ _ _ _ X X')|done].
Qed.

Lemma download_loop_spec : forall fuel sent total cancel rest ps0 d,
  d_healthy d -> cancel_state cancel rest d -> Forall progress_typed ps0 -> is_u64 total ->
  (script_size (gf_read (d_file d)) < fuel)%nat ->
  exists res d' items ps, download_loop fuel sent total d = (Ret res, d') /\
    Forall item_ok items /\ Forall progress_typed ps /\ gf_close (d_file d') = gf_close (d_file d) /\
    download_loop_end cancel rest ps0 items ps d d' res.
Proof.
  induction fuel as [|fuel IH]; intros sent total cancel rest ps0 d Hd Hcs Hps Ht Hf; [lia|].
  cbn [download_loop].
  destruct (guest_read_spec (Z.to_nat GUESTFS_MAX_CHUNK_SIZE) d) as (e & q & E1 & X1 & Hn & He);
    [unfold GUESTFS_MAX_CHUNK_SIZE; lia|done|]. mstep E1. set (d1 := d <| d_file; gf_read := q |>) in *.
  assert (cancel_state cancel rest d1) as Hcs1 by by destruct Hcs.
  destruct e as [[|b bs]|e].
  - exists (Some 0), d1, [], ps0. split_and!; [done..|]. exists []. split; [by rewrite !app_nil_r|].
    split_and!; [done..|]. left. split; [done|]. destruct He as (_ & _ & Hz & _). by rewrite Hz.
  - set (blk := b :: bs) in *. destruct He as (Hl & Hc & _ & Hs). specialize (Hs ltac:(done)).
    assert (zlength blk <= GUESTFS_MAX_CHUNK_SIZE) as Hz by (unfold zlength, GUESTFS_MAX_CHUNK_SIZE in *; lia).
    destruct (send_file_write_spec blk cancel rest d1 (dx_healthy _ _ _ _ X1) Hcs1 Hz)
      as (r & d2 & E2 & F2 & Hr). mstep E2.
    destruct Hr as [(-> & X2 & Hcs2)|(-> & -> & X2 & Hi2)]; cbn [Z.ltb Z.compare].
    + destruct (notify_progress_spec d2 (u64 (sent + zlength blk)) total)
        as (d3 & ps1 & E3 & X3 & T3 & I3 & F3 & S3); [by destruct X2|apply u64_bound|done|]. mstep E3.
      destruct (IH (u64 (sent + zlength blk)) total cancel rest ps1 d3) as (res & d' & items & ps & -> & Hit & Hp & Hcl & Hend);
        [by destruct X3|split; [rewrite I3|rewrite S3]; apply Hcs2|done|done|rewrite F3, F2; cbn; lia|].
      exists res, d', ((ps0, blk) :: items), ps. split_and!; [done|by constructor|done|by rewrite Hcl, F3, F2|].
      eapply download_loop_step; [|by rewrite F3, F2|by rewrite F3, F2|exact Hend].
      exact (dex_trans _ _ _ _ _ _ _ X1 (dex_trans _ _ _ _ _ _ _ X2 X3)).
    + exists None, d2, [], ps0. split_and!; [done..|by rewrite F2|]. exists cancel_frame. split; [done|].
      split_and!; [done|exact (dex_trans _ _ _ _ _ _ _ X1 X2)|done].
  - exists (Some (-1)), d1, [], ps0. split_and!; [done..|]. exists []. split; [by rewrite !app_nil_r|].
    split_and!; [done..|]. by right.
Qed.

Record guest_download_good (filename : string) (f : guest_file) : Prop := {
  gdg_open : gf_open f = None;
  gdg_fstat : gf_fstat f = None /\ gf_isdir f = false;
  gdg_size : if is_dev filename then exists n, gf_devsize f = inr n else gf_fstat_size f = None;
  gdg_read : no_read_error (gf_read f);
  gdg_close : gf_close f = None
}.

(** The end of the transfer. *)
Lemma download_end_spec d0 d din dout : dex din dout d0 d ->
  exists r d', download_end d = (Ret r, d') /\ d_inbox d' = d_inbox d /\
    (r = 0 /\ dex din (dout ++ complete_frame) d0 d' \/
     r = -1 /\ gf_close (d_file d) <> None /\ dex din (dout ++ cancel_frame) d0 d').
Proof.
  intros X. pose proof (dx_healthy _ _ _ _ X) as Hd. unfold download_end, send_file_end.
  destruct (gf_close (d_file d)) as [e|].
  - destruct (send_chunk_spec (mk_chunk 1 []) d Hd eq_refl) as (d1 & E1 & X1 & I1 & _). mstep E1.
    exists (-1), d1. split_and!; [done..|]. right. split_and!; [done..|].
    pose proof (dex_trans _ _ _ _ _ _ _ X X1) as X2. by rewrite app_nil_r in X2.
  - destruct (send_chunk_spec (mk_chunk 0 []) d Hd eq_refl) as (d1 & E1 & X1 & I1 & _). mstep E1.
    exists 0, d1. split_and!; [done..|]. left. split; [done|].
    pose proof (dex_trans _ _ _ _ _ _ _ X X1) as X2. by rewrite app_nil_r in X2.
Qed.

(** A transfer to the library: the reply, the chunks and the terminator. *)
Definition download_wire (d : daemon) items ps (term : guestfs_chunk) : list byte :=
  ok_reply d [] ++ down_wire items ps term.

(** The ways a download ends: refused before the transfer; complete; cut off by
    a failure in the guest; cancelled by the library. *)
Inductive download_end_state (fn : string) cancel rest (d d' : daemon) : Z -> Prop :=
  | down_refused e : error_fits e = true -> ~ guest_download_good fn (d_file d) ->
      dex [] (error_reply d e) d d' -> download_end_state fn cancel rest d d' (-1)
  | down_complete items ps : Forall item_ok items -> Forall progress_typed ps ->
      concat (snd <$> items) = file_content (gf_read (d_file d)) ->
      dex [] (download_wire d items ps (mk_chunk 0 [])) d d' ->
      download_end_state fn cancel rest d d' 0
  | down_failed items ps : Forall item_ok items -> Forall progress_typed ps ->
      ~ guest_download_good fn (d_file d) ->
      dex [] (download_wire d items ps (mk_chunk 1 [])) d d' ->
      download_end_state fn cancel rest d d' (-1)
  | down_cancelled items ps : Forall item_ok items -> Forall progress_typed ps ->
      cancel = true -> d_inbox d' = rest ->
      dex (flag_word GUESTFS_CANCEL_FLAG) (download_wire d items ps (mk_chunk 1 [])) d d' ->
      download_end_state fn cancel rest d d' (-1).

(** The part of [do_download] after the reply was sent. *)
Lemma download_body_spec fn cancel rest d total :
  d_healthy d -> cancel_state cancel rest d ->
  exists r d', (DaemonProto.reply None ;;;
      r <- download_loop (download_fuel d) 0 (u64 total) ;;
      match r with
      | None => ret (-1)
      | Some r => if r =? -1 then send_file_end 1 ;;; ret (-1) else download_end
      end) d = (Ret r, d') /\ download_end_state fn cancel rest d d' r.
Proof.
  intros Hd Hcs. destruct (reply_none_spec d Hd) as (d1 & E1 & X1 & F1 & S1). mstep E1.
  assert (cancel_state cancel rest d1) as Hcs1.
  { destruct Hcs as [Hi Hs]. split; [|by rewrite S1]. pose proof (dx_in _ _ _ _ X1) as E. cbn in E. congruence. }
  destruct (download_loop_spec (download_fuel d) 0 (u64 total) cancel rest [] d1)
    as (res & d2 & items & ps & E2 & Hit & Hps & Hcl & dout & Eo & Hend);
    [by destruct X1|done|done|apply u64_bound|unfold download_fuel; rewrite F1; lia|]. mstep E2.
  cbn [app progress_frames fmap list_fmap concat] in Eo.
  assert (forall term, ok_reply d [] ++ (concat (down_item <$> items) ++ progress_frames ps) ++ chunk_frame term
    = download_wire d items ps term) as Ew by (intros; unfold download_wire, down_wire; by rewrite <- !app_assoc).
  destruct res as [r|].
  - rewrite app_nil_r in Eo. subst dout. destruct Hend as (X2 & Hcs2 & Hr). rewrite F1 in *.
    pose proof (dex_trans _ _ _ _ _ _ _ X1 X2) as X. cbn [app] in X.
    destruct Hr as [[-> Hdata]|[-> Hbad]]; cbn [Z.eqb Pos.eqb].
    + destruct (download_end_spec d d2 _ _ X) as (r & d3 & E3 & I3 & Hr). exists r, d3. split; [done|].
      destruct Hr as [[-> X3]|(-> & Hc & X3)]; rewrite <- app_assoc in X3.
      * apply (down_complete _ _ _ _ _ items ps); [done..|]. by rewrite <- Ew.
      * apply (down_failed _ _ _ _ _ items ps); [done..| |by rewrite <- Ew]. rewrite Hcl in Hc. by intros [].
    + destruct (send_chunk_spec (mk_chunk 1 []) d2 (dx_healthy _ _ _ _ X) eq_refl) as (d3 & E3 & X3 & _).
      unfold send_file_end. mstep E3. exists (-1), d3. split; [done|].
      apply (down_failed _ _ _ _ _ items ps); [done..|by intros []|].
      pose proof (dex_trans _ _ _ _ _ _ _ X X3) as X4. rewrite <- app_assoc in X4. cbn [app] in X4.
      by rewrite <- Ew.
  - destruct Hend as (-> & X2 & Hi2). exists (-1), d2. split; [done|].
    apply (down_cancelled _ _ _ _ _ items ps); [done..|]. rewrite <- Ew, <- app_assoc. change (chunk_frame (mk_chunk 1 [])) with cancel_frame.
    rewrite <- Eo. exact (dex_trans _ _ _ _ _ _ _ X1 X2).
Qed.

Lemma do_download_spec fn cancel rest d :
  d_healthy d -> cancel_state cancel rest d ->
  exists r d', do_download fn d = (Ret r, d') /\ download_end_state fn cancel rest d d' r.
Proof.
  intros Hd Hcs. unfold do_download. pose proof (dex_refl d Hd) as X0.
  assert (forall m errmsg, errmsg = reply_with_error m \/ (exists e, errmsg = reply_with_perror_errno e m) ->
    ~ guest_download_good fn (d_file d) ->
    exists r d', (errmsg ;;; ret (-1)) d = (Ret r, d') /\ download_end_state fn cancel rest d d' r) as Herr.
  { intros m errmsg Hm Hbad. destruct (then_error d d m errmsg [] [] (-1) Hm X0) as (e & d' & E & Hf & X & _).
    exists (-1), d'. split; [done|]. by apply (down_refused _ _ _ _ _ e). }
  destruct (gf_open (d_file d)) eqn:Eo; [eapply Herr; [right; eexists; reflexivity|intros []; congruence]|].
  unfold check_not_directory. destruct (gf_fstat (d_file d)) eqn:Ef.
  { destruct (Herr ("fstat: " +:+ fn) (reply_with_perror_errno z ("fstat: " +:+ fn))) as (r & d' & E & Hend);
      [right; eexists; reflexivity|intros [? [? ?]]; congruence|].
    assert (r = -1) as -> by (unfold bind, ret in E; destruct (reply_with_perror_errno _ _ _) as [[]]; by simplify_eq).
    unfold bind at 1. rewrite Ef, E. by exists (-1), d'. }
  destruct (gf_isdir (d_file d)) eqn:Ed.
  { destruct (Herr (fn +:+ ": is a directory") (reply_with_error (fn +:+ ": is a directory"))) as (r & d' & E & Hend);
      [left; reflexivity|intros [? [? ?]]; congruence|].
    assert (r = -1) as -> by (unfold bind, ret in E; destruct (reply_with_error _ _) as [[]]; by simplify_eq).
    unfold bind at 1. rewrite Ef, Ed, E. by exists (-1), d'. }
  unfold bind at 1. rewrite Ef, Ed. cbn [Z.eqb Pos.eqb].
  destruct (is_dev fn) eqn:Edev.
  - destruct (gf_devsize (d_file d)) as [msg|size] eqn:Es; [|by apply download_body_spec].
    eapply Herr; [left; reflexivity|]. intros [_ _ Hs _ _]. rewrite Edev, Es in Hs. by destruct Hs.
  - destruct (gf_fstat_size (d_file d)) eqn:Es; [|by apply download_body_spec].
    eapply Herr; [right; eexists; reflexivity|]. intros [_ _ Hs _ _]. rewrite Edev in Hs. congruence.
Qed.

(** * The main loop *)

(** More bytes arrive from the library. *)
Definition d_feed (bs : list byte) (d : daemon) : daemon :=
  match bs with [] => d | _ => d <| d_in ::= fun q => q ++ [RdData bs] |> end.

Lemma read_stream_snoc q bs : read_stream (q ++ [RdData bs]) = read_stream q ++ bs.
Proof. induction q as [|[x|e] q IH]; cbn; [by rewrite app_nil_r|by rewrite IH, app_assoc|done]. Qed.

Lemma d_feed_inbox bs d : d_inbox (d_feed bs d) = d_inbox d ++ bs.
Proof. destruct bs; cbn; [by rewrite app_nil_r|]. unfold d_inbox. cbn. apply read_stream_snoc. Qed.
Lemma d_feed_healthy bs d : d_healthy d -> d_healthy (d_feed bs d).
Proof. intros []. destruct bs; split; cbn; try done. apply Forall_app. by repeat constructor. Qed.
Lemma d_feed_sent bs d : d_sent (d_feed bs d) = d_sent d.
Proof. by destruct bs. Qed.
Lemma d_feed_file bs d : d_file (d_feed bs d) = d_file d.
Proof. by destruct bs. Qed.
Lemma d_feed_env bs d : d_env (d_feed bs d) = d_env d.
Proof. by destruct bs. Qed.

(** A well-formed request sets the variables and goes to the dispatcher. *)
Definition call_ok (h : guestfs_message_header) : Prop :=
  header_typed h /\ hdr_prog h = GUESTFS_PROGRAM /\ hdr_vers h = GUESTFS_PROTOCOL_VERSION /\
  hdr_direction h = GUESTFS_DIRECTION_CALL /\ hdr_status h = GUESTFS_STATUS_OK.

Lemma main_loop_request dispatch h args rest d :
  d_healthy d -> call_ok h -> message_ok (header_wire h ++ args) ->
  d_inbox d = frame (header_wire h ++ args) ++ rest ->
  exists d', main_loop_turn dispatch d = dispatch args d' /\ d_healthy d' /\ d_inbox d' = rest /\
    d_sent d' = d_sent d /\ d_file d' = d_file d /\ d_env d' = d_env d /\
    d_proc_nr d' = hdr_proc h /\ d_serial d' = s32 (hdr_serial h) /\
    d_progress_hint d' = hdr_progress_hint h /\ d_optargs_bitmask d' = hdr_optargs_bitmask h /\
    d_count_progress d' = 0 /\ d_last_progress_t d' = d_start_t d'.
Proof.
  intros Hd (Hty & Hp & Hv & Hdir & Hst) Hm Hi. unfold main_loop_turn.
  unfold frame in Hi. rewrite <- app_assoc in Hi.
  destruct (xread_sock_spec d _ _ Hd Hi) as (d1 & E1 & X1 & Hi1 & F1 & S1).
  rewrite length_be_bytes in E1. mstep E1. unfold message_ok, GUESTFS_MESSAGE_MAX in Hm.
  rewrite decode_word by (unfold is_u32; lia). unfold GUESTFS_CANCEL_FLAG, GUESTFS_MESSAGE_MAX.
  set (m := header_wire h ++ args) in *.
  destruct (Z.eqb_spec (zlength m) 0xffffeeee); [lia|].
  destruct (Z.ltb_spec (4 * 1024 * 1024) (zlength m)); [lia|]. cbn [Z.eqb Pos.eqb].
  destruct (xread_sock_spec d1 _ _ (dx_healthy _ _ _ _ X1) Hi1) as (d2 & E2 & X2 & Hi2 & F2 & S2).
  unfold zlength. rewrite Nat2Z.id. mstep E2. cbn [Z.eqb Pos.eqb].
  assert (exists now d3, daemon_gettimeofday d2 = (Ret now, d3) /\ dex [] [] d2 d3 /\ d_file d3 = d_file d2)
    as (now & d3 & E3 & X3 & F3).
  { unfold daemon_gettimeofday. destruct (d_clock d2) as [|t [|t2 ts]]; do 2 eexists;
      (split_and!; [reflexivity|by apply dex_upd; destruct X2|done]). }
  mstep E3. mstep (eq_refl : modify (fun d => d <| d_start_t := now |> <| d_last_progress_t := now |>
    <| d_count_progress := 0 |>) d3 = _). unfold m. rewrite header_get by done.
  rewrite Hp, Hv, Hdir, Hst. rewrite !Z.eqb_refl. cbn [negb].
  eexists. split; [reflexivity|].
  pose proof (dex_trans _ _ _ _ _ _ _ X1 (dex_trans _ _ _ _ _ _ _ X2 X3)) as X. cbn [app] in X.
  pose proof (dx_healthy _ _ _ _ X) as [].
  split_and!; try reflexivity.
  - split; cbn; try done; [apply Hty|apply s32_bound|apply Hty].
  - pose proof (dx_in _ _ _ _ X3) as E. cbn in E. unfold d_inbox in *. cbn. congruence.
  - pose proof (dx_out _ _ _ _ X) as E. by rewrite app_nil_r in E.
  - cbn. congruence.
  - by destruct X.
Qed.

(** A cancellation between two requests is ignored. *)
Lemma main_loop_stray dispatch rest d : d_healthy d -> d_inbox d = flag_word GUESTFS_CANCEL_FLAG ++ rest ->
  exists d', main_loop_turn dispatch d = (Ret tt, d') /\ dex (flag_word GUESTFS_CANCEL_FLAG) [] d d' /\
    d_inbox d' = rest.
Proof.
  intros Hd Hi. unfold main_loop_turn. destruct (xread_sock_spec d _ _ Hd Hi) as (d1 & E1 & X1 & Hi1 & _).
  rewrite length_flag_word in E1. mstep E1. unfold flag_word at 1. rewrite decode_word by done.
  rewrite Z.eqb_refl. cbn [Z.eqb Pos.eqb]. by exists d1.
Qed.

(** A chunk where a request should be: the daemon exits. *)
Lemma main_loop_chunk_exits dispatch rest d : d_healthy d -> d_inbox d = complete_frame ++ rest ->
  fst (main_loop_turn dispatch d) = Stop Exited.
Proof.
  intros Hd Hi. unfold complete_frame, chunk_frame, frame in Hi. rewrite <- app_assoc in Hi.
  destruct (xread_sock_spec d _ _ Hd Hi) as (d2 & E2 & X2 & Hi2 & _).
  rewrite length_be_bytes in E2. unfold main_loop_turn. mstep E2.
  destruct (xread_sock_spec d2 _ _ (dx_healthy _ _ _ _ X2) Hi2) as (d3 & E3 & _).
  change (length (chunk_wire (mk_chunk 0 []))) with 8%nat in E3.
  rewrite decode_word by done. change (zlength (chunk_wire (mk_chunk 0 []))) with 8.
  change (0 =? -1) with false. change (8 =? GUESTFS_CANCEL_FLAG) with false. change (GUESTFS_MESSAGE_MAX <? 8) with false. cbn iota.
  change (Z.to_nat 8) with 8%nat. mstep E3. cbn [Z.eqb Pos.eqb].
  unfold bind, modify. destruct (daemon_gettimeofday d3) as [[t|w] d4] eqn:Et; [reflexivity|].
  apply gettimeofday_frame in Et as (? & ? & _). done.
Qed.

(** * Main theorems *)

(** A daemon to evaluate the model on. *)
Definition ex_file (rd : list read_ev) (wr : list write_ev) : guest_file :=
  mk_guest_file None None None false None 5 (inr 5) rd wr None 0 [x7a] 0 true.
Definition ex_denv : daemon_env :=
  mk_daemon_env (fun _ => bytes_of_string "error") (fun _ => bytes_of_string "EINVAL").
Definition ex_daemon (bs : list byte) (f : guest_file) : daemon :=
  d_feed bs (mk_daemon 5 0x123400 10 0 (mk_timeval 0 0) (mk_timeval 0 0) 0 0 [] [WrOk 3] [] []
               [mk_timeval 2 0; mk_timeval 2 5; mk_timeval 9 0] f ex_denv).
Lemma ex_daemon_healthy bs f : d_healthy (ex_daemon bs f).
Proof.
  apply d_feed_healthy. split; cbn; try (repeat constructor; fail); try done; intros; lia.
Qed.

(** C38: An error reply of the daemon is always a well-formed message within the protocol's
    limits, however long the error message: the text sent is its first GUESTFS_ERROR_LEN bytes.
    *)
Theorem send_error_bounded d errnum msg : d_healthy d ->
  exists d' e, send_error errnum msg d = (Ret tt, d') /\
    d_sent d' = d_sent d ++ frame (header_wire (reply_header d GUESTFS_STATUS_ERROR) ++ error_wire e) /\
    error_message e = take (Z.to_nat GUESTFS_ERROR_LEN) msg /\ error_fits e = true /\
    message_ok (header_wire (reply_header d GUESTFS_STATUS_ERROR) ++ error_wire e).
Proof.
  intros Hd. destruct (send_error_spec d errnum msg Hd) as (d' & E & X & _).
  pose proof (error_body_fits d errnum msg Hd) as Hf. pose proof (zlength_error_wire _ Hf).
  exists d', (error_body d errnum msg). split_and!; [done|apply X| |done|].
  - cbn. unfold truncate_error. destruct (Z.ltb_spec GUESTFS_ERROR_LEN (zlength msg)); [done|].
    rewrite take_ge; [done|]. unfold zlength, GUESTFS_ERROR_LEN in *. lia.
  - unfold message_ok. rewrite zlength_app, zlength_header_wire.
    pose proof (zlength_nonneg (error_wire (error_body d errnum msg))).
    unfold GUESTFS_ERROR_LEN, GUESTFS_MESSAGE_MAX in *. lia.
Qed.

Lemma send_error_bounded_witness :
  exists d' e, send_error 22 (replicate (Z.to_nat 70000) x61) (ex_daemon [] (ex_file [] [])) = (Ret tt, d') /\
    d_sent d' = d_sent (ex_daemon [] (ex_file [] [])) ++
      frame (header_wire (reply_header (ex_daemon [] (ex_file [] [])) GUESTFS_STATUS_ERROR) ++ error_wire e) /\
    error_message e = take (Z.to_nat GUESTFS_ERROR_LEN) (replicate (Z.to_nat 70000) x61) /\ error_fits e = true /\
    message_ok (header_wire (reply_header (ex_daemon [] (ex_file [] [])) GUESTFS_STATUS_ERROR) ++ error_wire e).
Proof. apply (send_error_bounded (ex_daemon [] (ex_file [] [])) 22 (replicate (Z.to_nat 70000) x61)). apply ex_daemon_healthy. Defined.

(** C35: The daemon's upload consumes exactly one incoming file, up to its last chunk, together
    with the cancellation flags mixed into it, whatever fails and wherever, for any flags and
    offset: on success, which is only possible if the library did not cancel, nothing but
    progress messages was sent, and the chunks were written at the offset, into an empty file
    when a regular file was opened with O_TRUNC and otherwise into what the file held; on
    failure there was a cause on the guest side or a cancellation, and the last thing that was
    sent is one error reply, after at most one cancellation. *)
Theorem upload_sync fn flags offset items n cancel rest d :
  d_healthy d -> 0 <= offset -> Forall up_item_ok items -> d_inbox d = up_wire items n cancel ++ rest ->
  exists r d' ps, upload fn flags offset d = (Ret r, d') /\ Forall progress_typed ps /\
    d_inbox d' = rest /\ d_healthy d' /\
    (r = 0 /\ cancel = false /\ d_sent d' = d_sent d ++ progress_frames ps /\
       gf_data (d_file d') = upload_content flags offset (d_file d) (concat (snd <$> items)) \/
     r = -1 /\ ~ (guest_upload_good offset (d_file d) /\ cancel = false) /\
       exists cancelled e, error_fits e = true /\
         d_sent d' = d_sent d ++ progress_frames ps ++ cancel_words cancelled ++ error_reply d e).
Proof.
  intros Hd Hpos Hit Hi. destruct (upload_spec fn flags offset items n cancel rest d Hd Hpos Hit Hi)
    as (r & d' & ps & E & T & Hi' & Hr).
  exists r, d', ps. split_and!; [done..| |].
  - destruct Hr as [(_ & _ & X & _)|(_ & _ & c & e & _ & X)]; by destruct X.
  - destruct Hr as [(-> & -> & X & Hdata)|(-> & Hb & c & e & Hf & X)]; [left|right].
    + split_and!; [done..|by destruct X|done].
    + split_and!; [done..|]. exists c, e. split; [done|by destruct X].
Qed.

(** At offset 2 of a file of one byte. *)
Lemma upload_sync_witness :
  let d := ex_daemon (up_wire [(0%nat, [x61; x62]); (1%nat, [x63])] 0 false ++ [x00]) (ex_file [] [WrOk 1]) in
  exists r d' ps, upload "/f" O_WRONLY 2 d = (Ret r, d') /\ Forall progress_typed ps /\
    d_inbox d' = [x00] /\ d_healthy d' /\
    (r = 0 /\ false = false /\ d_sent d' = d_sent d ++ progress_frames ps /\
       gf_data (d_file d') = [x7a; x00; x61; x62; x63] \/
     r = -1 /\ ~ (guest_upload_good 2 (d_file d) /\ false = false) /\
       exists cancelled e, error_fits e = true /\
         d_sent d' = d_sent d ++ progress_frames ps ++ cancel_words cancelled ++ error_reply d e).
Proof.
  intros d. apply (upload_sync "/f" O_WRONLY 2 [(0%nat, [x61; x62]); (1%nat, [x63])] 0 false [x00] d).
  - apply ex_daemon_healthy.
  - discriminate.
  - repeat constructor; try discriminate; cbn; lia.
  - unfold d, ex_daemon. rewrite d_feed_inbox. reflexivity.
Defined.

(** The daemon's do_download, with or without a cancellation from the library: it always
    returns, reads at most the cancellation flag, and either sends an error reply alone, or a
    reply and the blocks of the file up to a terminator that says whether the transfer is
    complete. *)
Theorem download_sync fn cancel rest d :
  d_healthy d -> cancel_state cancel rest d ->
  exists r d', do_download fn d = (Ret r, d') /\ download_end_state fn cancel rest d d' r.
Proof. apply do_download_spec. Qed.

Lemma download_sync_witness :
  let d := ex_daemon (flag_word GUESTFS_CANCEL_FLAG) (ex_file [RdData [x61; x62]] []) in
  exists r d', do_download "/f" d = (Ret r, d') /\ download_end_state "/f" true [] d d' r.
Proof.
  intros d. apply (download_sync "/f" true [] d).
  - apply ex_daemon_healthy.
  - split; [reflexivity|discriminate].
Defined.

(** A negative offset is refused without reading the file: the chunks of the
    transfer are then taken for the next request, and the daemon exits. *)
(** do_upload_offset with a negative offset replies without consuming the incoming file:
    the chunks are then taken for a request and the daemon exits. *)
Theorem upload_offset_negative_desync dispatch fn offset rest d :
  d_healthy d -> offset < 0 -> d_inbox d = complete_frame ++ rest ->
  exists e d1, do_upload_offset fn offset d = (Ret (-1), d1) /\
    d_sent d1 = d_sent d ++ error_reply d e /\ d_inbox d1 = complete_frame ++ rest /\
    fst (main_loop_turn dispatch d1) = Stop Exited.
Proof.
  intros Hd Ho Hi. unfold do_upload_offset. destruct (Z.ltb_spec offset 0); [|lia].
  set (m := fn +:+ ": offset in file is negative").
  destruct (then_error d d m (reply_with_perror_errno (d_errno d) m) [] [] (-1)
    (or_intror (ex_intro _ (d_errno d) eq_refl)) (dex_refl d Hd)) as (e & d1 & E & _ & X & Hi1).
  exists e, d1. split_and!; [exact E|apply X|congruence|].
  eapply main_loop_chunk_exits; [by destruct X|by rewrite Hi1].
Qed.

Lemma upload_offset_negative_desync_witness :
  exists e d1, do_upload_offset "/f" (-1) (ex_daemon (complete_frame ++ [x00]) (ex_file [] [])) = (Ret (-1), d1) /\
    d_sent d1 = d_sent (ex_daemon (complete_frame ++ [x00]) (ex_file [] [])) ++
      error_reply (ex_daemon (complete_frame ++ [x00]) (ex_file [] [])) e /\
    d_inbox d1 = complete_frame ++ [x00] /\ fst (main_loop_turn (fun _ => ret tt) d1) = Stop Exited.
Proof.
  apply (upload_offset_negative_desync (fun _ => ret tt) "/f" (-1) [x00]
    (ex_daemon (complete_frame ++ [x00]) (ex_file [] []))).
  - apply ex_daemon_healthy.
  - reflexivity.
  - unfold ex_daemon. rewrite d_feed_inbox. reflexivity.
Defined.

(** Over any sequence of progress notifications short of completion within one call, n
    messages are sent only after the initial delay and n-1 notification periods have passed. *)
Theorem progress_rate_limit reqs d r d' :
  Forall (fun '(position, total) => position <> total) reqs ->
  d_count_progress d = 0 -> d_last_progress_t d = d_start_t d ->
  notify_all reqs d = (r, d') -> 0 < d_count_progress d' ->
  NOTIFICATION_INITIAL_DELAY + (d_count_progress d' - 1) * NOTIFICATION_PERIOD <=
    timeval_us (d_last_progress_t d') - timeval_us (d_start_t d').
Proof.
  intros Hne Hc Hl E Hpos.
  destruct (notify_all_rate reqs d r d' Hne E) as [[? _]|[_ H]]; [by left|lia|done].
Qed.

Lemma progress_rate_limit_witness :
  let d := ex_daemon [] (ex_file [] []) in
  let d' := snd (notify_all [(1, 10); (2, 10); (3, 10)] d) in
  d_count_progress d' = 2 /\
  NOTIFICATION_INITIAL_DELAY + (d_count_progress d' - 1) * NOTIFICATION_PERIOD <=
    timeval_us (d_last_progress_t d') - timeval_us (d_start_t d').
Proof.
  intros d d'. split; [vm_compute; reflexivity|].
  apply (progress_rate_limit [(1, 10); (2, 10); (3, 10)] d (Ret tt) d').
  - repeat constructor; discriminate.
  - reflexivity.
  - reflexivity.
  - vm_compute. reflexivity.
  - vm_compute. reflexivity.
Defined.

(** The signal handler's hand-encoded pulse message is byte for byte the XDR-encoded
    progress message 0 of 1. *)
Theorem pulse_same_bytes d now : d_healthy d ->
  exists d1 d2, async_safe_send_pulse d = (Ret tt, d1) /\
    notify_progress_no_ratelimit 0 1 now d = (Ret tt, d2) /\
    d_sent d1 = d_sent d2 /\ d_sent d1 = d_sent d ++ progress_frame (progress_message d 0 1) /\
    progress_typed (progress_message d 0 1).
Proof.
  intros Hd. unfold async_safe_send_pulse. rewrite pulse_bytes.
  destruct (send_or_exit_spec d (progress_frame (progress_message d 0 1)) Hd) as (d1 & E1 & X1 & _).
  destruct (no_ratelimit_spec d 0 1 now Hd) as (d2 & E2 & X2 & _).
  exists d1, d2. split_and!; [done..| | |by apply progress_message_typed].
  - by rewrite (dx_out _ _ _ _ X1), (dx_out _ _ _ _ X2).
  - apply X1.
Qed.

Lemma pulse_same_bytes_witness :
  let d := ex_daemon [] (ex_file [] []) in
  exists d1 d2, async_safe_send_pulse d = (Ret tt, d1) /\
    notify_progress_no_ratelimit 0 1 (mk_timeval 1 0) d = (Ret tt, d2) /\
    d_sent d1 = d_sent d2 /\ d_sent d1 = d_sent d ++ progress_frame (progress_message d 0 1) /\
    progress_typed (progress_message d 0 1).
Proof. intros d. apply (pulse_same_bytes d (mk_timeval 1 0)). apply ex_daemon_healthy. Defined.
