(* ===== verification/Utils.v ===== *)
(** src/utils.c: string lists, splitting and joining, exit statuses, random
    strings and drive names; and the functions of the C library that the
    configuration code uses on strings. *)

From S2P Require Import Prelude Xdr Handle.
From Stdlib Require Import Ascii.

(** * Characters and numbers (ctype, sscanf) *)

Definition code (c : ascii) : Z := Z.of_N (N_of_ascii c).
Definition in_range (c : ascii) (lo hi : Z) : bool := ((lo <=? code c) && (code c <=? hi))%Z.
Definition c_isdigit (c : ascii) : bool := in_range c 48 57.
Definition c_isalpha (c : ascii) : bool := in_range c 65 90 || in_range c 97 122.
Definition c_isalnum (c : ascii) : bool := c_isalpha c || c_isdigit c.
Definition c_isspace (c : ascii) : bool := in_range c 9 13 || in_range c 32 32.

Fixpoint str_forallb (p : ascii -> bool) (s : string) : bool :=
  match s with EmptyString => true | String c s' => p c && str_forallb p s' end.

Definition tab : ascii := "009".
Definition c_isblank (c : ascii) : bool := Ascii.eqb c " " || Ascii.eqb c tab.
Definition c_islower (c : ascii) : bool := in_range c 97 122.
Definition chr (z : Z) : ascii := ascii_of_N (Z.to_N (z mod 256)).
Definition c_tolower (c : ascii) : ascii := if in_range c 65 90 then chr (code c + 32) else c.
Fixpoint str_map (f : ascii -> ascii) (s : string) : string :=
  match s with EmptyString => "" | String c s' => String (f c) (str_map f s') end.
Definition STRCASEEQ (a b : string) : bool := STREQ (str_map c_tolower a) (str_map c_tolower b).

(** strcspn: the run before a character of the class, and the rest. *)
Fixpoint span_not (p : ascii -> bool) (s : string) : string * string :=
  match s with
  | EmptyString => ("", "")
  | String c s' => if p c then ("", s) else let '(a, b) := span_not p s' in (String c a, b)
  end.
Fixpoint skip_blanks (s : string) : string :=
  match s with
  | String c s' => if c_isblank c then skip_blanks s' else s
  | EmptyString => ""
  end.

(** The digits at the start of a string: their value and how many there are. *)
Fixpoint read_digits (s : string) (acc : Z) (n : nat) : Z * nat :=
  match s with
  | String c s' => if c_isdigit c then read_digits s' (acc * 10 + (code c - 48))%Z (S n) else (acc, n)
  | EmptyString => (acc, n)
  end.

Fixpoint skip_spaces (s : string) : string :=
  match s with
  | String c s' => if c_isspace c then skip_spaces s' else s
  | EmptyString => EmptyString
  end.

(** strtol (3) clamps to the range of long. *)
Definition clamp_long (z : Z) : Z := Z.max (- 2 ^ 63) (Z.min (2 ^ 63 - 1) z).

(** sscanf (s, "%d", &i): the value stored, as glibc converts it. *)
Definition sscanf_d (s : string) : option Z :=
  let s := skip_spaces s in
  let '(neg, s) := match s with
                   | String "-" s' => (true, s')
                   | String "+" s' => (false, s')
                   | _ => (false, s)
                   end in
  let '(v, n) := read_digits s 0 0 in
  if (n =? 0)%nat then None else Some (s32 (clamp_long (if neg : bool then - v else v))).

(** * String lists *)

Definition guestfs___count_strings (argv : list string) : nat := length argv.
Definition guestfs___copy_string_list (argv : list string) : list string := argv.

(** The second loop of [guestfs___join_strings]; [i] is the index. *)
Fixpoint join_from (i : nat) (sep : string) (argv : list string) : string :=
  match argv with
  | [] => ""
  | s :: argv' => (if (0 <? i)%nat then sep else "") +:+ s +:+ join_from (S i) sep argv'
  end.
Definition guestfs___join_strings (sep : string) (argv : list string) : string := join_from 0 sep argv.
Definition guestfs___concat_strings (argv : list string) : string := guestfs___join_strings "" argv.

(** strcspn with one reject character: the run before it, and the rest. *)
Fixpoint strcspn (sep : ascii) (s : string) : string * string :=
  match s with
  | EmptyString => ("", "")
  | String c s' => if Ascii.eqb c sep then ("", s)
                   else let '(a, b) := strcspn sep s' in (String c a, b)
  end.

(** The last loop of [guestfs___split_string], from [&str[i]]. *)
Fixpoint split_loop (fuel : nat) (sep : ascii) (s : string) : list string :=
  let '(piece, rest) := strcspn sep s in
  match rest, fuel with
  | String _ rest', S fuel' => piece :: split_loop fuel' sep rest'
  | _, _ => [piece]
  end.

Definition guestfs___split_string (sep : ascii) (str : string) : list string :=
  match str with
  | EmptyString => []
  | _ => split_loop (String.length str) sep str
  end.

(** * Exit statuses *)

Definition WTERMSIG (status : Z) : Z := Z.land status 0x7f.
Definition WIFEXITED (status : Z) : bool := (WTERMSIG status =? 0)%Z.
Definition WEXITSTATUS (status : Z) : Z := Z.shiftr (Z.land status 0xff00) 8.
Definition WIFSTOPPED (status : Z) : bool := (Z.land status 0xff =? 0x7f)%Z.
Definition WIFSIGNALED (status : Z) : bool :=
  negb (WIFEXITED status) && negb (WIFSTOPPED status).

(** The buffer holds [buflen] bytes with the final zero; snprintf truncates. *)
Definition guestfs___exit_status_to_string (strsignal : Z -> string) (status : Z) (cmd_name : string)
    (buflen : nat) : string :=
  let full :=
    if WIFEXITED status then
      if (WEXITSTATUS status =? 0)%Z then cmd_name +:+ " exited successfully"
      else cmd_name +:+ " exited with error status " +:+ pretty (WEXITSTATUS status)
    else if WIFSIGNALED status then
      cmd_name +:+ " killed by signal " +:+ pretty (WTERMSIG status) +:+ " (" +:+
      strsignal (WTERMSIG status) +:+ ")"
    else if WIFSTOPPED status then
      cmd_name +:+ " stopped by signal " +:+ pretty (WEXITSTATUS status) +:+ " (" +:+
      strsignal (WEXITSTATUS status) +:+ ")"
    else cmd_name +:+ " exited for an unknown reason (status " +:+ pretty status +:+ ")" in
  String.substring 0 (buflen - 1) full.

(** * Random strings *)

Definition random_chars : string := "0123456789abcdefghijklmnopqrstuvwxyz".

(** [urandom] are the results of the one-byte reads of /dev/urandom. *)
Fixpoint random_loop (len : nat) (urandom : list (option byte)) : option string :=
  match len, urandom with
  | O, _ => Some ""
  | S len', Some c :: urandom' =>
      ch ← String.get (Z.to_nat (Z_of_byte c mod 36)) random_chars;
      s ← random_loop len' urandom';
      Some (String ch s)
  | S _, _ => None
  end.

(** [None] is -1: open, a read, or close failed. *)
Definition guestfs___random_string (open_ok close_ok : bool) (urandom : list (option byte)) (len : nat) :
    option string :=
  if open_ok then s ← random_loop len urandom; if close_ok then Some s else None else None.

(** * Drive names *)

Definition letter (n : nat) : ascii := ascii_of_nat (97 + n).

(** [index / 26 - 1 < index], so the index itself is enough fuel. *)
Fixpoint drive_name_fuel (fuel index : nat) : list ascii :=
  match fuel with
  | O => [letter (index mod 26)]
  | S fuel' =>
      (if (26 <=? index)%nat then drive_name_fuel fuel' (index / 26 - 1) else []) ++
      [letter (index mod 26)]
  end.
Definition guestfs___drive_name (index : nat) : list ascii := drive_name_fuel index index.

(** The number a name stands for: bijective base 26. *)
Definition drive_index (name : list ascii) : nat :=
  fold_left (fun acc c => acc * 26 + (nat_of_ascii c - 96)) name 0 - 1.

(** * Lemmas *)

#[local] Arguments String.append : simpl nomatch.

Lemma str_app_assoc (a b c : string) : (a +:+ b) +:+ c = a +:+ b +:+ c.
Proof. induction a as [|x a IH]; [done|].
  change (String x ((a +:+ b) +:+ c) = String x (a +:+ b +:+ c)). by rewrite IH.
Qed.
Lemma str_app_nil_r (a : string) : a +:+ "" = a.
Proof. induction a as [|x a IH]; [done|]. change (String x (a +:+ "") = String x a). by rewrite IH. Qed.

Lemma str_app_cons (c : ascii) (a b : string) : String c a +:+ b = String c (a +:+ b).
Proof. done. Qed.
Lemma str_forallb_app p a b : str_forallb p (a +:+ b) = str_forallb p a && str_forallb p b.
Proof. induction a as [|c a IH]; [done|]. rewrite str_app_cons. cbn. by rewrite IH, andb_assoc. Qed.
Lemma str_get_last s c : String.get (String.length s) (s +:+ String c "") = Some c.
Proof. by induction s. Qed.
Lemma str_substring_all s t : String.substring 0 (String.length s) (s +:+ t) = s.
Proof. induction s as [|c s IH]; [by destruct t|]. rewrite str_app_cons. cbn. by rewrite IH. Qed.

Lemma strcspn_spec sep s a b : strcspn sep s = (a, b) ->
  s = a +:+ b /\ str_forallb (fun c => negb (Ascii.eqb c sep)) a = true /\
  (b = "" \/ exists b', b = String sep b').
Proof.
  revert a b. induction s as [|c s IH]; intros a b; cbn [strcspn].
  - intros [= <- <-]. split_and!; auto.
  - destruct (Ascii.eqb_spec c sep) as [->|Hc].
    + intros [= <- <-]. split_and!; eauto.
    + destruct (strcspn sep s) as [a' b'] eqn:E. intros [= <- <-].
      destruct (IH _ _ eq_refl) as (-> & Hf & Hb). split_and!; [done| |done].
      cbn. rewrite Hf. destruct (Ascii.eqb_spec c sep); done.
Qed.

Lemma join_from_pos sep argv : forall i j, join_from (S i) sep argv = join_from (S j) sep argv.
Proof. induction argv as [|s argv IH]; intros i j; cbn [join_from]; [done|]. by rewrite (IH (S i) (S j)). Qed.

Lemma join_from_S i sep argv : argv <> [] -> join_from (S i) sep argv = sep +:+ join_from 0 sep argv.
Proof.
  destruct argv as [|s argv]; [done|]. intros _. cbn [join_from Nat.ltb Nat.leb].
  by rewrite (join_from_pos sep argv (S i) 0).
Qed.

Lemma split_loop_not_nil fuel sep s : split_loop fuel sep s <> [].
Proof. destruct fuel; cbn; destruct (strcspn sep s) as [a [|? b]]; done. Qed.

Lemma str_length_app (a b : string) : String.length (a +:+ b) = String.length a + String.length b.
Proof. induction a as [|c a IH]; [done|]. change (S (String.length (a +:+ b)) = S (String.length a + String.length b)). by rewrite IH. Qed.

Lemma join_split_loop sep : forall fuel s, String.length s <= fuel ->
  join_from 0 (String sep "") (split_loop fuel sep s) = s.
Proof.
  induction fuel as [|fuel IH]; intros s Hs.
  - destruct s; [done|cbn in Hs; lia].
  - cbn [split_loop]. destruct (strcspn sep s) as [a b] eqn:E. apply strcspn_spec in E as (-> & _ & Hb).
    destruct Hb as [->|[b' ->]]; cbn [join_from Nat.ltb Nat.leb]; [by rewrite !str_app_nil_r|].
    rewrite join_from_S by apply split_loop_not_nil. rewrite IH; [done|].
    rewrite str_length_app in Hs. cbn in Hs. lia.
Qed.

Definition no_sep (sep : ascii) (s : string) : Prop := str_forallb (fun c => negb (Ascii.eqb c sep)) s = true.

Lemma no_sep_app sep a b : no_sep sep (a +:+ b) <-> no_sep sep a /\ no_sep sep b.
Proof. unfold no_sep. by rewrite str_forallb_app, andb_true_iff. Qed.

Lemma strcspn_no_sep sep a b : no_sep sep a ->
  strcspn sep (a +:+ String sep b) = (a, String sep b) /\ strcspn sep a = (a, "").
Proof.
  unfold no_sep. induction a as [|c a IH]; cbn; intros Ha.
  - by rewrite Ascii.eqb_refl.
  - apply andb_prop in Ha as [Hc Ha]. apply negb_true_iff in Hc. rewrite Hc.
    destruct (IH Ha) as [-> ->]. done.
Qed.

Lemma split_join_loop sep : forall argv fuel, argv <> [] -> Forall (no_sep sep) argv ->
  String.length (join_from 0 (String sep "") argv) <= fuel ->
  split_loop fuel sep (join_from 0 (String sep "") argv) = argv.
Proof.
  induction argv as [|s argv IH]; intros fuel Hne Ha Hf; [done|].
  inversion Ha as [|? ? Hs Ha']; subst. cbn [join_from Nat.ltb Nat.leb] in *. cbn in *.
  destruct argv as [|t argv].
  - cbn. rewrite str_app_nil_r. destruct (strcspn_no_sep sep s "" Hs) as [_ E].
    destruct fuel; cbn; by rewrite E.
  - rewrite join_from_S in * by done. cbn [String.app] in *.
    destruct (strcspn_no_sep sep s (join_from 0 (String sep "") (t :: argv)) Hs) as [E _].
    rewrite str_length_app in Hf. cbn [String.length] in Hf.
    destruct fuel as [|fuel]; [lia|]. cbn [split_loop].
    rewrite E. f_equal. apply IH; [done|done|lia].
Qed.

Lemma drive_name_fuel_more : forall fuel fuel' n, n <= fuel -> n <= fuel' ->
  drive_name_fuel fuel n = drive_name_fuel fuel' n.
Proof.
  induction fuel as [|fuel IH]; intros [|fuel'] n H1 H2; cbn [drive_name_fuel]; try done.
  - destruct (Nat.leb_spec 26 n); [lia|done].
  - destruct (Nat.leb_spec 26 n); [lia|done].
  - destruct (Nat.leb_spec 26 n); [|done]. f_equal.
    assert (n / 26 <= n) by (apply Nat.Div0.div_le_upper_bound; lia).
    assert (n / 26 - 1 < n) by lia. apply IH; lia.
Qed.

Lemma nat_of_letter n : n < 26 -> nat_of_ascii (letter n) - 96 = S n.
Proof. intros H. unfold letter. rewrite nat_ascii_embedding; lia. Qed.

Lemma drive_index_fuel : forall fuel n, n <= fuel ->
  fold_left (fun acc c => acc * 26 + (nat_of_ascii c - 96)) (drive_name_fuel fuel n) 0 = S n.
Proof.
  assert (forall n, n mod 26 < 26) as Hm by (intros; apply Nat.mod_upper_bound; lia).
  induction fuel as [|fuel IH]; intros n Hn; cbn [drive_name_fuel].
  - cbn [fold_left]. rewrite nat_of_letter by apply Hm. assert (n = 0) as -> by lia. done.
  - rewrite fold_left_app. cbn [fold_left]. rewrite nat_of_letter by apply Hm.
    pose proof (Nat.div_mod_eq n 26).
    destruct (Nat.leb_spec 26 n); cbn [fold_left].
    + assert (1 <= n / 26) by (apply Nat.div_le_lower_bound; lia). rewrite IH by lia. lia.
    + rewrite (Nat.mod_small n 26) by lia. lia.
Qed.

Lemma drive_index_name n : drive_index (guestfs___drive_name n) = n.
Proof. unfold drive_index, guestfs___drive_name. rewrite drive_index_fuel by lia. lia. Qed.

Lemma random_loop_spec : forall len urandom s, random_loop len urandom = Some s ->
  String.length s = len /\ str_forallb (fun c => in_range c 48 57 || in_range c 97 122) s = true.
Proof.
  induction len as [|len IH]; intros urandom s; cbn [random_loop]; [by intros [= <-]|].
  destruct urandom as [|[c|] urandom]; [done| |done]. intros H.
  destruct (String.get _ random_chars) as [ch|] eqn:Eg; cbn in H; [|done].
  destruct (random_loop len urandom) as [s'|] eqn:E; cbn in H; [|done]. injection H as <-.
  destruct (IH _ _ E) as [<- Hs]. split; [done|]. cbn [str_forallb]. rewrite Hs, andb_true_r.
  pose proof (Z.mod_pos_bound (Z_of_byte c) 36 ltac:(lia)) as Hb.
  set (k := Z.to_nat (Z_of_byte c mod 36)%Z) in *. assert (k < 36) as Hk by lia. clearbody k.
  do 36 (destruct k as [|k]; [injection Eg as <-; reflexivity|]). lia.
Qed.

Definition is_lower (c : ascii) : Prop := in_range c 97 122 = true.

Lemma letter_lower n : n < 26 -> is_lower (letter n).
Proof. intros H. do 26 (destruct n as [|n]; [reflexivity|]). lia. Qed.

Lemma lower_letter c : is_lower c -> exists n, n < 26 /\ c = letter n.
Proof.
  unfold is_lower, in_range, code, letter. intros H. apply andb_prop in H as [H1 H2].
  exists (nat_of_ascii c - 97). pose proof (N_nat_Z (N_of_ascii c)) as E.
  unfold nat_of_ascii in *. split; [lia|].
  replace (97 + (N.to_nat (N_of_ascii c) - 97)) with (nat_of_ascii c) by (unfold nat_of_ascii; lia).
  by rewrite ascii_nat_embedding.
Qed.

Lemma drive_name_lower : forall fuel n, Forall is_lower (drive_name_fuel fuel n).
Proof.
  assert (forall n, n mod 26 < 26) as Hm by (intros; apply Nat.mod_upper_bound; lia).
  induction fuel as [|fuel IH]; intros n; cbn [drive_name_fuel].
  - constructor; [apply letter_lower, Hm|done].
  - apply Forall_app. split.
    + destruct (26 <=? n)%nat; [apply IH|done].
    + constructor; [apply letter_lower, Hm|done].
Qed.

Lemma drive_name_S n : guestfs___drive_name n =
  (if (26 <=? n)%nat then guestfs___drive_name (n / 26 - 1) else []) ++ [letter (n mod 26)].
Proof.
  unfold guestfs___drive_name. destruct n as [|n]; [done|]. cbn [drive_name_fuel].
  destruct (Nat.leb_spec 26 (S n)); [|done]. f_equal.
  assert (S n / 26 < S n) by (apply Nat.div_lt; lia). apply drive_name_fuel_more; lia.
Qed.

Lemma drive_fold_pos l acc : Forall is_lower l -> l <> [] \/ 1 <= acc ->
  1 <= fold_left (fun acc c => acc * 26 + (nat_of_ascii c - 96)) l acc.
Proof.
  revert acc. induction l as [|c l IH]; intros acc Hl Ha; cbn [fold_left].
  - by destruct Ha.
  - inversion Hl as [|? ? Hc Hl']; subst. apply IH; [done|]. right.
    apply lower_letter in Hc as (n & Hn & ->). rewrite nat_of_letter by done. lia.
Qed.

Lemma drive_name_index l : Forall is_lower l -> l <> [] -> guestfs___drive_name (drive_index l) = l.
Proof.
  induction l as [|c l IH] using rev_ind; [done|]. intros Hl _.
  apply Forall_app in Hl as [Hl Hc]. inversion Hc as [|? ? Hc' _]; subst.
  apply lower_letter in Hc' as (k & Hk & ->).
  assert (drive_index (l ++ [letter k]) = (if decide (l = []) then 0 else S (drive_index l)) * 26 + k) as E.
  { unfold drive_index. rewrite fold_left_app. cbn [fold_left]. rewrite nat_of_letter by done.
    case_decide as Hd; [subst; cbn [fold_left]; lia|].
    pose proof (drive_fold_pos l 0 Hl (or_introl Hd)). lia. }
  rewrite E. case_decide as Hd.
  - subst l. rewrite drive_name_S. replace (0 * 26 + k) with k by lia.
    destruct (Nat.leb_spec 26 k); [lia|]. by rewrite Nat.mod_small by lia.
  - rewrite drive_name_S. destruct (Nat.leb_spec 26 (S (drive_index l) * 26 + k)); [|lia].
    rewrite Nat.div_add_l, (Nat.div_small k 26), Nat.add_0_r by lia. cbn [Nat.sub]. rewrite Nat.sub_0_r.
    rewrite IH by done. do 2 f_equal. rewrite Nat.add_comm, Nat.Div0.mod_add. by rewrite Nat.mod_small by lia.
Qed.

(** ** Character classes *)

Definition no_class (p : ascii -> bool) (s : string) : Prop := str_forallb (fun c => negb (p c)) s = true.

Lemma span_not_spec p s a b : span_not p s = (a, b) ->
  s = a +:+ b /\ no_class p a /\ (b = "" \/ exists c b', b = String c b' /\ p c = true).
Proof.
  revert a b. induction s as [|c s IH]; intros a b; cbn [span_not].
  - intros [= <- <-]. split_and!; [done|done|by left].
  - destruct (p c) eqn:Ep; [intros [= <- <-]; split_and!; [done|done|right; by exists c, s]|].
    destruct (span_not p s) as [a' b'] eqn:E. intros [= <- <-]. destruct (IH _ _ eq_refl) as (-> & Hf & Hb).
    split_and!; [done| |done]. unfold no_class in *. cbn. by rewrite Ep, Hf.
Qed.
Lemma span_not_app p a b : no_class p a -> (b = "" \/ exists c b', b = String c b' /\ p c = true) ->
  span_not p (a +:+ b) = (a, b).
Proof.
  unfold no_class. intros Ha Hb. induction a as [|c a IH]; cbn in Ha.
  - destruct Hb as [->|(c & b' & -> & Hc)]; [done|]. cbn. by rewrite Hc.
  - apply andb_prop in Ha as [Hc%negb_true_iff Ha]. rewrite str_app_cons. cbn. by rewrite Hc, IH.
Qed.
Lemma skip_blanks_head s : skip_blanks s = "" \/ exists c s', skip_blanks s = String c s' /\ c_isblank c = false.
Proof.
  induction s as [|c s IH]; [by left|]. cbn. destruct (c_isblank c) eqn:E; [done|]. right. by exists c, s.
Qed.
Lemma skip_blanks_length s : String.length (skip_blanks s) <= String.length s.
Proof. induction s as [|c s IH]; [done|]. cbn. destruct (c_isblank c); cbn; lia. Qed.
Lemma skip_blanks_id c s : c_isblank c = false -> skip_blanks (String c s) = String c s.
Proof. intros H. cbn. by rewrite H. Qed.

(** ** Decimal numbers *)

Lemma read_digits_all s acc n : str_forallb c_isdigit s = true -> snd (read_digits s acc n) = (n + String.length s)%nat.
Proof.
  revert acc n. induction s as [|c s IH]; intros acc n; cbn; [lia|]. intros [Hc Hs]%andb_prop. rewrite Hc.
  rewrite IH by done. lia.
Qed.

(** The number that a string of digits denotes. *)
Definition digits_value (s : string) : Z := fst (read_digits s 0 0).

Lemma sscanf_digits s : str_forallb c_isdigit s = true -> s <> "" ->
  sscanf_d s = Some (s32 (clamp_long (digits_value s))).
Proof.
  intros Hs Hne. destruct s as [|c s]; [done|]. unfold sscanf_d, digits_value.
  assert (skip_spaces (String c s) = String c s) as ->.
  { cbn in Hs |- *. apply andb_prop in Hs as [Hc _].
    unfold c_isspace, c_isdigit, in_range in *.
    destruct ((9 <=? code c) && (code c <=? 13))%Z eqn:E1; [lia|].
    destruct ((32 <=? code c) && (code c <=? 32))%Z eqn:E2; [lia|done]. }
  pose proof (read_digits_all (String c s) 0 0 Hs) as Hn.
  assert (c <> "-"%char /\ c <> "+"%char) as [H1 H2].
  { cbn in Hs. apply andb_prop in Hs as [Hc _]. split; intros ->; done. }
  destruct (read_digits (String c s) 0 0) as [v n] eqn:E. cbn in Hn.
  assert ((match String c s with String "-" s' => (true, s') | String "+" s' => (false, s')
           | _ => (false, String c s) end) = (false, String c s)) as ->.
  { destruct c as [[] [] [] [] [] [] [] []]; try done; congruence. }
  rewrite E. cbn. destruct (Nat.eqb_spec n 0); [lia|done].
Qed.

Lemma pretty_N_char_digit x : (x < 10)%N ->
  c_isdigit (pretty_N_char x) = true /\ (code (pretty_N_char x) - 48 = Z.of_N x)%Z.
Proof.
  intros H. assert (x = 0 \/ x = 1 \/ x = 2 \/ x = 3 \/ x = 4 \/ x = 5 \/ x = 6 \/ x = 7 \/ x = 8 \/ x = 9)%N as Hx by lia.
  repeat (destruct Hx as [->|Hx]; [done|]). by subst.
Qed.
Lemma pretty_N_go_digits x : forall s, str_forallb c_isdigit s = true -> str_forallb c_isdigit (pretty_N_go x s) = true.
Proof.
  induction (N.lt_wf_0 x) as [x _ IH]; intros s Hs. destruct (decide (x = 0)%N) as [->|]; [done|].
  rewrite pretty_N_go_step by lia. apply IH; [apply N.div_lt; lia|]. cbn.
  by rewrite (proj1 (pretty_N_char_digit (x mod 10) ltac:(apply N.mod_lt; lia))).
Qed.
Lemma read_digits_pretty x : forall s acc n, exists k,
  read_digits (pretty_N_go x s) acc n = read_digits s (acc * 10 ^ Z.of_nat k + Z.of_N x)%Z (n + k).
Proof.
  induction (N.lt_wf_0 x) as [x _ IH]; intros s acc n. destruct (decide (x = 0)%N) as [->|].
  { exists 0. rewrite pretty_N_go_0, Nat.add_0_r. f_equal. lia. }
  rewrite pretty_N_go_step by lia.
  destruct (IH (x / 10)%N ltac:(apply N.div_lt; lia) (String (pretty_N_char (x mod 10)) s) acc n) as [k ->].
  exists (S k). destruct (pretty_N_char_digit (x mod 10) ltac:(apply N.mod_lt; lia)) as [Hd Hc].
  cbn [read_digits]. rewrite Hd, Hc. f_equal; [|lia].
  pose proof (N.div_mod x 10 ltac:(lia)) as E. rewrite Nat2Z.inj_succ, Z.pow_succ_r by lia.
  apply (f_equal Z.of_N) in E. rewrite N2Z.inj_add, N2Z.inj_mul in E. lia.
Qed.
Lemma pretty_N_spec (x : N) :
  str_forallb c_isdigit (pretty x) = true /\ pretty x <> "" /\ digits_value (pretty x) = Z.of_N x.
Proof.
  unfold pretty, pretty_N. case_decide as H; [by subst|].
  assert (str_forallb c_isdigit (pretty_N_go x "") = true) as Hd by (by apply pretty_N_go_digits).
  unfold digits_value. destruct (read_digits_pretty x "" 0 0) as [k E].
  split_and!; [done| |by rewrite E].
  intros E0. rewrite E0 in E. cbn in E. injection E as E _. lia.
Qed.

Lemma pretty_no_sep sep (x : N) : c_isdigit sep = false -> no_sep sep (pretty x).
Proof.
  intros Hs. destruct (pretty_N_spec x) as (Hd & _). unfold no_sep. revert Hd. generalize (pretty x : string).
  induction s as [|c s IH]; [done|]. cbn. intros [Hc H]%andb_prop. rewrite (IH H), andb_true_r.
  apply negb_true_iff, Ascii.eqb_neq. intros ->. congruence.
Qed.

Lemma split_join sep argv : Forall (no_sep sep) argv -> argv <> [""] ->
  guestfs___split_string sep (guestfs___join_strings (String sep "") argv) = argv.
Proof.
  unfold guestfs___join_strings, guestfs___split_string. intros Ha He. destruct argv as [|s argv]; [done|].
  destruct (join_from 0 (String sep "") (s :: argv)) as [|c r] eqn:E; [exfalso|rewrite <- E; by apply split_join_loop].
  apply (f_equal String.length) in E. cbn [join_from Nat.ltb Nat.leb] in E.
  rewrite !str_length_app in E. cbn [String.length] in E.
  destruct s as [|? s]; [|cbn [String.length] in E; lia]. destruct argv as [|t argv]; [done|].
  rewrite join_from_S, str_length_app in E by done. cbn [String.length] in E. lia.
Qed.

(** * Properties *)

(** Joining the split of any string gives the string back, and splitting a joined list
    gives the list back when no element contains the separator and the list is not the single
    empty string. *)
Theorem split_join_roundtrip (sep : ascii) :
  (forall str, guestfs___join_strings (String sep "") (guestfs___split_string sep str) = str) /\
  (forall argv, Forall (no_sep sep) argv -> argv <> [""] ->
     guestfs___split_string sep (guestfs___join_strings (String sep "") argv) = argv).
Proof.
  unfold guestfs___join_strings, guestfs___split_string. split.
  - intros [|c s]; [done|]. by apply join_split_loop.
  - apply split_join.
Qed.

Lemma split_join_roundtrip_witness :
  guestfs___split_string ":" (guestfs___join_strings (String ":" "") ["a"; ""; "b"]) = ["a"; ""; "b"].
Proof. apply (split_join_roundtrip ":"); [repeat constructor|done]. Defined.

(** guestfs___drive_name is a bijection between the natural numbers and the non-empty
    lower-case names a, b, .., z, aa, ab, and so on. *)
Theorem drive_name_bijection :
  (forall index, drive_index (guestfs___drive_name index) = index /\
                 guestfs___drive_name index <> [] /\ Forall is_lower (guestfs___drive_name index)) /\
  (forall name, Forall is_lower name -> name <> [] -> guestfs___drive_name (drive_index name) = name).
Proof.
  split; [|apply drive_name_index]. intros n. split_and!; [apply drive_index_name| |apply drive_name_lower].
  rewrite drive_name_S. by destruct (if (26 <=? n)%nat then _ else _).
Qed.

Lemma drive_name_bijection_witness :
  guestfs___drive_name (drive_index (String.list_ascii_of_string "aab")) = String.list_ascii_of_string "aab".
Proof. apply drive_name_bijection; [repeat constructor|done]. Defined.
