(* ===== verification/Config.v ===== *)
(** The configuration of the handle: the settings of src/handle.c, the choice
    of the backend (src/launch.c), the temporary directories (src/tmpdirs.c),
    the environment variables, and the wrapper that generator/c.ml puts around
    every function of the API that does not call the daemon.

    What the C library answers about the file system (realpath, stat, mkdtemp)
    are parameters. *)

From S2P Require Import Prelude Xdr Handle Events Utils.
From Stdlib Require Import Ascii.
Local Open Scope Z_scope.

Definition hm := M guestfs_h.

(** * The generated wrapper (generator/c.ml: generate_non_daemon_wrapper) *)

Definition GUESTFS_EVENT_ENTER : Z := Z.shiftl 1 7.

Definition message (ev : Z) (s : string) : hm unit :=
  modify (fun g => guestfs___call_callbacks_message g ev (bytes_of_string s)).
Definition report (msg : string) : hm unit := modify (fun g => error g msg).

(** How a return value is traced; [None] is the error code. *)
Class Traced (A : Type) := { errcode : string; show_ret : A -> option string }.
Definition quote : string := String (ascii_of_nat 34) "".
Definition quoted (s : string) : string := quote +:+ s +:+ quote.
#[export] Instance traced_int : Traced Z :=
  {| errcode := "-1"; show_ret r := if r =? -1 then None else Some (pretty r) |}.
#[export] Instance traced_string : Traced (option string) :=
  {| errcode := "NULL"; show_ret := fmap quoted |}.

(** How arguments are traced. *)
Definition arg_string (s : string) : string := " " +:+ quoted s.
Definition arg_opt (s : option string) : string :=
  match s with Some s => arg_string s | None => " null" end.
Definition arg_bool (v : Z) : string := if is_true v then " true" else " false".
Definition arg_int (v : Z) : string := " " +:+ pretty v.
Definition arg_list (l : list string) : string := arg_string (guestfs___join_strings " " l).

Definition trace_call (trace_flag : bool) (line : string) : hm unit :=
  if trace_flag then message GUESTFS_EVENT_TRACE line else ret tt.

(** guestfs_<name>, from guestfs__<name>. *)
Definition api {A} `{Traced A} (name args : string) (f : hm A) : hm A := fun g =>
  let trace_flag := trace (g_cfg g) in
  (message GUESTFS_EVENT_ENTER name ;;;
   trace_call trace_flag (name +:+ args) ;;;
   r <- f ;;
   trace_call trace_flag (name +:+ " = " +:+ match show_ret r with
                                             | Some s => s
                                             | None => errcode +:+ " (error)"
                                             end) ;;;
   ret r) g.

(** With [config_only = true]. *)
Definition api_config (name args : string) (f : hm Z) : hm Z := fun g =>
  if decide (g_state g = CONFIG) then api name args f g
  else (report (name +:+ ": this function can only be called in the config state") ;;; ret (-1)) g.

(** * Simple settings (src/handle.c) *)

Definition DEFAULT_MEMSIZE : Z := 500.
Definition MIN_MEMSIZE : Z := 128.

Definition set_cfg (f : config -> config) : hm Z := modify (upd g_cfg f) ;;; ret 0.

Definition guestfs__set_verbose (v : Z) : hm Z := set_cfg (fun c => c <| verbose := is_true v |>).
Definition guestfs__set_autosync (a : Z) : hm Z := set_cfg (fun c => c <| autosync := is_true a |>).
Definition guestfs__set_selinux (v : Z) : hm Z := set_cfg (fun c => c <| selinux := is_true v |>).
Definition guestfs__set_trace (t : Z) : hm Z := set_cfg (fun c => c <| trace := is_true t |>).
Definition guestfs__set_direct (d : Z) : hm Z := set_cfg (fun c => c <| direct_mode := is_true d |>).
Definition guestfs__set_recovery_proc (f : Z) : hm Z :=
  set_cfg (fun c => c <| recovery_proc := is_true f |>).
Definition guestfs__set_network (v : Z) : hm Z := set_cfg (fun c => c <| enable_network := is_true v |>).
Definition guestfs__set_pgroup (v : Z) : hm Z := set_cfg (fun c => c <| pgroup := is_true v |>).
Definition guestfs__set_program (p : string) : hm Z := set_cfg (fun c => c <| program := p |>).
Definition guestfs__set_hv (h : string) : hm Z := set_cfg (fun c => c <| hv := h |>).
Definition guestfs__set_append (a : option string) : hm Z := set_cfg (fun c => c <| append := a |>).

Definition guestfs__set_path (p : option string) : hm Z := fun g =>
  set_cfg (fun c => c <| path := match p with
                                 | None => env_default_path (g_env g)
                                 | Some p => p
                                 end |>) g.

Definition guestfs__set_qemu (qemu : option string) : hm Z := fun g =>
  match qemu, env_qemu (g_env g) with
  | Some q, _ => set_cfg (fun c => c <| hv := q |>) g
  | None, Some q => set_cfg (fun c => c <| hv := q |>) g
  | None, None =>
      (report "configured --without-qemu so calling guestfs_set_qemu with qemu == NULL is an error" ;;;
       ret (-1)) g
  end.

Definition guestfs__set_memsize (m : Z) : hm Z :=
  if m <? MIN_MEMSIZE
  then report ("too small value for memsize (must be at least " +:+ pretty MIN_MEMSIZE +:+ ")") ;;; ret (-1)
  else set_cfg (fun c => c <| memsize := m |>).

Definition guestfs__set_smp (v : Z) : hm Z :=
  if 255 <? v then report ("unsupported number of smp vcpus: " +:+ pretty v) ;;; ret (-1)
  else if 1 <=? v then set_cfg (fun c => c <| smp := v |>)
  else report ("invalid smp parameter: " +:+ pretty v) ;;; ret (-1).

Definition guestfs__get_verbose (g : guestfs_h) : Z := bool_int (verbose (g_cfg g)).
Definition guestfs__get_autosync (g : guestfs_h) : Z := bool_int (autosync (g_cfg g)).
Definition guestfs__get_selinux (g : guestfs_h) : Z := bool_int (selinux (g_cfg g)).
Definition guestfs__get_trace (g : guestfs_h) : Z := bool_int (trace (g_cfg g)).
Definition guestfs__get_direct (g : guestfs_h) : Z := bool_int (direct_mode (g_cfg g)).
Definition guestfs__get_recovery_proc (g : guestfs_h) : Z := bool_int (recovery_proc (g_cfg g)).
Definition guestfs__get_network (g : guestfs_h) : Z := bool_int (enable_network (g_cfg g)).
Definition guestfs__get_pgroup (g : guestfs_h) : Z := bool_int (pgroup (g_cfg g)).
Definition guestfs__get_path (g : guestfs_h) : string := path (g_cfg g).
Definition guestfs__get_qemu (g : guestfs_h) : string := hv (g_cfg g).
Definition guestfs__get_hv (g : guestfs_h) : string := hv (g_cfg g).
Definition guestfs__get_append (g : guestfs_h) : option string := append (g_cfg g).
Definition guestfs__get_memsize (g : guestfs_h) : Z := memsize (g_cfg g).
Definition guestfs__get_program (g : guestfs_h) : string := program (g_cfg g).
Definition guestfs__get_smp (g : guestfs_h) : Z := smp (g_cfg g).

(** Extra parameters of the hypervisor (src/launch.c). *)
Definition forbidden_params : list string :=
  ["-kernel"; "-initrd"; "-nographic"; "-display"; "-serial"; "-full-screen"; "-std-vga"; "-vnc"].

Definition guestfs__config (hv_param : string) (hv_value : option string) : hm Z :=
  if existsb (STREQ hv_param) forbidden_params
  then report ("parameter '" +:+ hv_param +:+ "' isn't allowed") ;;; ret (-1)
  else set_cfg (fun c => c <| hv_params ::= cons (hv_param, hv_value) |>).

(** * The backend *)

(** [STRPREFIX (s, p)], and [&s[strlen (p)]] when it holds. *)
Fixpoint after_prefix (p s : string) : option string :=
  match p, s with
  | EmptyString, _ => Some s
  | String a p', String b s' => if Ascii.eqb a b then after_prefix p' s' else None
  | String _ _, EmptyString => None
  end.

(** The search of [guestfs___set_backend]: the argument and the operations. *)
Fixpoint find_backend (method : string) (backends : list (string * backend_ops)) :
    option (option string * backend_ops) :=
  match backends with
  | [] => None
  | (name, ops) :: rest =>
      if STREQ method name then Some (None, ops)
      else match after_prefix name method with
           | Some (String ":" arg) => Some (Some arg, ops)
           | _ => find_backend method rest
           end
  end.

(** (launch.c) For backwards compatibility "appliance" is "direct". *)
Definition backend_alias (method : string) : string :=
  if STREQ method "appliance" then "direct" else method.

Definition guestfs___set_backend (method : string) : hm Z := fun g =>
  if decide (g_state g = CONFIG) then
    let method := backend_alias method in
    match find_backend method (env_backends (g_env g)) with
    | None => (Ret (-1), g)
    | Some (arg, ops) =>
        (Ret 0, g <| g_cfg; backend := method |> <| g_cfg; backend_arg := arg |>
                  <| g_backend_ops := ops |>)
    end
  else (Stop AssertFailed, g).

Definition guestfs__set_backend (method : string) : hm Z :=
  r <- guestfs___set_backend method ;;
  if r =? -1 then report ("invalid backend: " +:+ method) ;;; ret (-1) else ret 0.

Definition guestfs_set_backend (method : string) : hm Z :=
  api_config "set_backend" (arg_string method) (guestfs__set_backend method).

Definition guestfs__set_attach_method (method : string) : hm Z := guestfs_set_backend method.

Definition guestfs__get_backend (g : guestfs_h) : string := backend (g_cfg g).
Definition guestfs_get_backend : hm (option string) :=
  api "get_backend" "" (gets (fun g => Some (guestfs__get_backend g))).

Definition guestfs__get_attach_method : hm (option string) := fun g =>
  if STREQ (backend (g_cfg g)) "direct" then (Ret (Some "appliance"), g) else guestfs_get_backend g.

(** ** Backend settings *)

Definition ESRCH : Z := 3.

(** [STRPREFIX (s, name) && s[namelen] == '=']: what follows. *)
Definition name_equals (name s : string) : option string :=
  match after_prefix name s with Some (String "=" v) => Some v | _ => None end.

(** The value that the setting [s] gives to [name]. *)
Definition setting_value (name s : string) : option string :=
  if STREQ s name then Some "1" else name_equals name s.

Fixpoint find_setting (name : string) (settings : list string) : option string :=
  match settings with
  | [] => None
  | s :: rest => match setting_value name s with Some v => Some v | None => find_setting name rest end
  end.

Definition guestfs__set_backend_settings (settings : list string) : hm Z :=
  set_cfg (fun c => c <| backend_settings := Some (guestfs___copy_string_list settings) |>).
Definition guestfs_set_backend_settings (settings : list string) : hm Z :=
  api_config "set_backend_settings" (arg_list settings) (guestfs__set_backend_settings settings).

Definition guestfs__get_backend_settings (g : guestfs_h) : list string :=
  match backend_settings (g_cfg g) with
  | None => guestfs___copy_string_list []
  | Some l => guestfs___copy_string_list l
  end.

Definition guestfs__get_backend_setting (name : string) : hm (option string) := fun g =>
  match (l ← backend_settings (g_cfg g); find_setting name l) with
  | Some v => (Ret (Some v), g)
  | None => (Ret None, guestfs___error_errno g ESRCH "setting not found")
  end.
Definition guestfs_get_backend_setting (name : string) : hm (option string) :=
  api "get_backend_setting" (arg_string name) (guestfs__get_backend_setting name).

(** The loop of [guestfs__clear_backend_setting]: a match is removed by moving
    the following strings down one place, and the index stays where it is
    ([i--] and [++i], also through the wrap-around at 0). *)
Fixpoint clear_loop (fuel : nat) (name : string) (i : nat) (settings : list string) (count : nat) :
    list string * nat :=
  match fuel, settings !! i with
  | S fuel', Some s =>
      match setting_value name s with
      | Some _ => clear_loop fuel' name i (delete i settings) (S count)
      | None => clear_loop fuel' name (S i) settings count
      end
  | _, _ => (settings, count)
  end.

Definition guestfs__clear_backend_setting (name : string) : hm Z := fun g =>
  match backend_settings (g_cfg g) with
  | None => (Ret 0, g)
  | Some settings =>
      let '(settings, count) := clear_loop (length settings) name 0 settings 0 in
      (Ret (Z.of_nat count), g <| g_cfg; backend_settings := Some settings |>)
  end.
Definition guestfs_clear_backend_setting (name : string) : hm Z :=
  api_config "clear_backend_setting" (arg_string name) (guestfs__clear_backend_setting name).

Definition guestfs__set_backend_setting (name value : string) : hm Z := fun g =>
  let new_setting := name +:+ "=" +:+ value in
  let append (g : guestfs_h) :=
    g <| g_cfg; backend_settings ::= fun l => Some (default [] l ++ [new_setting]) |> in
  match backend_settings (g_cfg g) with
  | None => (Ret 0, append g)
  | Some _ => (guestfs_clear_backend_setting name ;;; modify append ;;; ret 0) g
  end.

Definition guestfs___get_backend_setting_bool (name : string) : hm Z :=
  modify (fun g => guestfs_push_error_handler g None 0) ;;;
  value <- guestfs_get_backend_setting name ;;
  modify guestfs_pop_error_handler ;;;
  errnum <- gets guestfs_last_errno ;;
  match value with
  | None => if errnum =? ESRCH then ret 0 else ret (-1)
  | Some v => if STREQ v "1" then ret 1 else ret 0
  end.

(** * Temporary directories (src/tmpdirs.c) *)

Section tmpdirs.
(** realpath (3), stat (2) and mkdtemp (3): an errno, or the result. *)
Context (realpath : string -> Z + string) (stat_isdir : string -> Z + bool)
        (mkdtemp : string -> Z + string).

(** [set] stores through [tmpdir_ret]. *)
Definition set_abs_path (set : option string -> directories -> directories)
    (tmpdir : option string) : hm Z :=
  modify (upd g_dirs (set None)) ;;;
  match tmpdir with
  | None => ret 0
  | Some tmpdir =>
      let failed (e : Z) :=
        modify (fun g => guestfs___perrorf g e ("failed to set temporary directory: " +:+ tmpdir)) ;;;
        ret (-1) in
      match realpath tmpdir with
      | inl e => failed e
      | inr r =>
          match stat_isdir r with
          | inl e => failed e
          | inr false =>
              report ("temporary directory '" +:+ tmpdir +:+ "' is not a directory") ;;; ret (-1)
          | inr true => modify (upd g_dirs (set (Some r))) ;;; ret 0
          end
      end
  end.

Definition guestfs___set_env_tmpdir : option string -> hm Z :=
  set_abs_path (fun v d => d <| env_tmpdir := v |>).
Definition guestfs__set_tmpdir : option string -> hm Z :=
  set_abs_path (fun v d => d <| int_tmpdir := v |>).
Definition guestfs__set_cachedir : option string -> hm Z :=
  set_abs_path (fun v d => d <| int_cachedir := v |>).

Definition guestfs__get_tmpdir (g : guestfs_h) : string :=
  match int_tmpdir (g_dirs g), env_tmpdir (g_dirs g) with
  | Some d, _ => d
  | None, Some d => d
  | None, None => "/tmp"
  end.
Definition guestfs__get_cachedir (g : guestfs_h) : string :=
  match int_cachedir (g_dirs g), env_tmpdir (g_dirs g) with
  | Some d, _ => d
  | None, Some d => d
  | None, None => "/var/tmp"
  end.

Definition guestfs_get_tmpdir : hm (option string) :=
  api "get_tmpdir" "" (gets (fun g => Some (guestfs__get_tmpdir g))).

Definition guestfs___lazy_make_tmpdir : hm Z := fun g =>
  match tmpdir (g_dirs g) with
  | Some _ => (Ret 0, g)
  | None =>
      (d <- guestfs_get_tmpdir ;;
       let template := default "" d +:+ "/libguestfsXXXXXX" in
       match mkdtemp template with
       | inl e =>
           modify (fun g => guestfs___perrorf g e (template +:+ ": cannot create temporary directory")) ;;;
           modify (fun g => g <| g_dirs; tmpdir := None |>) ;;; ret (-1)
       | inr made => modify (fun g => g <| g_dirs; tmpdir := Some made |>) ;;; ret 0
       end) g
  end.

(** * The environment variables (src/handle.c) *)

Definition getenv_from_strings (strings : list string) (name : string) : option string :=
  (fix go (l : list string) : option string :=
     match l with
     | [] => None
     | s :: l' => match name_equals name s with Some v => Some v | None => go l' end
     end) strings.

(** The sequence of statements that may return early: -1 is propagated. *)
Definition or_return (m : hm Z) (k : hm Z) : hm Z := r <- m ;; if r =? -1 then ret (-1) else k.

Definition non_empty (str : option string) : option string :=
  s ← str; if STRNEQ s "" then Some s else None.

(** [if (str && STRNEQ (str, "")) f (str);] with the return value ignored. *)
Definition when_set (str : option string) (f : string -> hm Z) (k : hm Z) : hm Z :=
  match non_empty str with Some s => f s ;;; k | None => k end.
(** The same with [if (f (str) == -1) return -1;]. *)
Definition when_set_check (str : option string) (f : string -> hm Z) (k : hm Z) : hm Z :=
  match non_empty str with Some s => or_return (f s) k | None => k end.

Definition is_one (str : option string) : bool :=
  match str with Some s => STREQ s "1" | None => false end.

Definition guestfs_set_hv (s : string) : hm Z := api_config "set_hv" (arg_string s) (guestfs__set_hv s).
Definition guestfs_set_memsize (m : Z) : hm Z :=
  api_config "set_memsize" (arg_int m) (guestfs__set_memsize m).

Definition set_memsize_env (str : string) : hm Z :=
  match sscanf_d str with
  | None => report "non-numeric value for LIBGUESTFS_MEMSIZE" ;;; ret (-1)
  | Some m => guestfs_set_memsize m
  end.

Definition parse_environment (do_getenv : string -> option string) : hm Z :=
  (if is_one (do_getenv "LIBGUESTFS_TRACE")
   then api "set_trace" (arg_bool 1) (guestfs__set_trace 1) else ret 0) ;;;
  (if is_one (do_getenv "LIBGUESTFS_DEBUG")
   then api "set_verbose" (arg_bool 1) (guestfs__set_verbose 1) else ret 0) ;;;
  when_set_check (do_getenv "LIBGUESTFS_TMPDIR")
    (fun s => api_config "set_tmpdir" (arg_string s) (guestfs__set_tmpdir (Some s))) (
  when_set_check (do_getenv "LIBGUESTFS_CACHEDIR")
    (fun s => api_config "set_cachedir" (arg_string s) (guestfs__set_cachedir (Some s))) (
  or_return (guestfs___set_env_tmpdir (do_getenv "TMPDIR")) (
  when_set (do_getenv "LIBGUESTFS_PATH")
    (fun s => api_config "set_path" (arg_string s) (guestfs__set_path (Some s))) (
  when_set (match non_empty (do_getenv "LIBGUESTFS_HV") with
            | Some s => Some s
            | None => do_getenv "LIBGUESTFS_QEMU"
            end) guestfs_set_hv (
  (match do_getenv "LIBGUESTFS_APPEND" with
   | Some s => api_config "set_append" (arg_string s) (guestfs__set_append (Some s))
   | None => ret 0
   end) ;;;
  when_set_check (do_getenv "LIBGUESTFS_MEMSIZE") set_memsize_env (
  when_set_check (match non_empty (do_getenv "LIBGUESTFS_BACKEND") with
                  | Some s => Some s
                  | None => do_getenv "LIBGUESTFS_ATTACH_METHOD"
                  end) guestfs_set_backend (
  match do_getenv "LIBGUESTFS_BACKEND_SETTINGS" with
  | Some s => or_return (guestfs_set_backend_settings (guestfs___split_string ":" s)) (ret 0)
  | None => ret 0
  end))))))).

Definition guestfs__parse_environment (getenv : string -> option string) : hm Z := parse_environment getenv.
Definition guestfs__parse_environment_list (strings : list string) : hm Z :=
  parse_environment (getenv_from_strings strings).

End tmpdirs.

(** * Lemmas *)

(** Messages and errors leave everything but [g_out] and [g_errs] alone:
    [core] is the rest of the handle. *)
Definition core (g : guestfs_h) : guestfs_h :=
  g <| g_errs := mk_errors None 0 None 0 [] |> <| g_out := [] |>.

Lemma core_add_out os g : core (add_out os g) = core g.
Proof. by destruct g. Qed.

Lemma core_error_errno g e m : core (guestfs___error_errno g e m) = core g.
Proof.
  unfold guestfs___error_errno, call_error_cb. destruct (error_cb _) as [[]|]; by destruct g.
Qed.
Lemma core_perrorf g e m : core (guestfs___perrorf g e m) = core g.
Proof. unfold guestfs___perrorf, call_error_cb. destruct (error_cb _) as [[]|]; by destruct g. Qed.

Lemma message_add_out g ev buf : exists os, guestfs___call_callbacks_message g ev buf = add_out os g.
Proof.
  unfold guestfs___call_callbacks_message. rewrite call_callbacks_from_spec.
  destruct (0 <? _)%nat; [eauto|].
  destruct (_ && _); [|eauto]. rewrite emit_all_add_out. unfold emit.
  repeat case_if; rewrite ?add_out_app; eauto.
Qed.

Lemma message_spec ev s g : exists os, message ev s g = (Ret tt, add_out os g).
Proof.
  unfold message, modify. destruct (message_add_out g ev (bytes_of_string s)) as [os ->]. eauto.
Qed.
Lemma trace_call_spec b s g : exists os, trace_call b s g = (Ret tt, add_out os g).
Proof. destruct b; [apply message_spec|]. exists []. by rewrite add_out_nil. Qed.

(** The wrapper runs the function, and only adds messages around it. *)
Lemma api_spec {A} `{Traced A} name args (f : hm A) g :
  exists os1 os2, api name args f g =
    match f (add_out os1 g) with
    | (Ret r, g1) => (Ret r, add_out (os2 r g1) g1)
    | (Stop w, g1) => (Stop w, g1)
    end.
Proof.
  unfold api. destruct (message_spec GUESTFS_EVENT_ENTER name g) as [o1 E1].
  destruct (trace_call_spec (trace (g_cfg g)) (name +:+ args) (add_out o1 g)) as [o2 E2].
  exists (o1 ++ o2). rewrite <- add_out_app.
  destruct (f (add_out o2 (add_out o1 g))) as [[r|w] g1] eqn:E3.
  - set (line := name +:+ " = " +:+ match show_ret r with Some s => s | None => errcode +:+ " (error)" end).
    destruct (trace_call_spec (trace (g_cfg g)) line g1) as [o3 E4].
    exists (fun _ _ => o3). mstep E1. mstep E2. mstep E3. fold line. by mstep E4.
  - exists (fun _ _ => []). mstep E1. mstep E2. by rewrite (bind_Stop _ _ _ _ _ E3).
Qed.

(** Predicates on the core of the handle. *)
Class CoreClosed (P : guestfs_h -> Prop) := core_closed g g' : core g = core g' -> P g -> P g'.

Lemma total_api {A} `{Traced A} name args (f : hm A) P Q :
  CoreClosed P -> (forall r, CoreClosed (Q r)) -> total P f Q -> total P (api name args f) Q.
Proof.
  intros HP HQ Hf g Hg. destruct (api_spec name args f g) as (o1 & o2 & E).
  destruct (Hf (add_out o1 g)) as (r & g1 & E1 & H1).
  { eapply HP; [|exact Hg]. by rewrite core_add_out. }
  rewrite E1 in E. exists r, (add_out (o2 r g1) g1). split; [done|].
  eapply HQ; [|exact H1]. by rewrite core_add_out.
Qed.

Lemma total_report msg P : CoreClosed P -> total P (report msg) (fun _ => P).
Proof. intros HP. apply total_modify. intros g. apply HP. unfold error. by rewrite core_error_errno. Qed.

Lemma total_fail msg P (Q : Z -> guestfs_h -> Prop) :
  CoreClosed P -> (forall g, P g -> Q (-1) g) -> total P (report msg ;;; ret (-1)) Q.
Proof.
  intros HP HQ. eapply total_bind; [by apply total_report|]. intros []. by apply total_ret.
Qed.

Lemma total_api_config name args (f : hm Z) P Q :
  CoreClosed P -> (forall r, CoreClosed (Q r)) ->
  total (fun g => P g /\ g_state g = CONFIG) f Q -> (forall g, P g -> Q (-1) g) ->
  total P (api_config name args f) Q.
Proof.
  intros HP HQ Hf Herr g Hg. unfold api_config. case_decide as Hs.
  - apply (total_api name args f (fun g => P g /\ g_state g = CONFIG) Q); try done.
    intros g1 g2 E [H1 H2]. split; [by eapply HP|].
    apply (f_equal g_state) in E. cbn in E. congruence.
  - by apply (total_fail _ P).
Qed.

Lemma total_set_cfg f P (Q : Z -> guestfs_h -> Prop) :
  (forall g, P g -> Q 0 (upd g_cfg f g)) -> total P (set_cfg f) Q.
Proof.
  intros H g Hg. exists 0, (upd g_cfg f g). auto.
Qed.

(** ** The invariant of the configuration *)

Record config_ok (g : guestfs_h) : Prop := {
  ok_memsize : MIN_MEMSIZE <= memsize (g_cfg g);
  ok_smp : 1 <= smp (g_cfg g) <= 255;
  ok_params : Forall (fun p => fst p ∉ forbidden_params) (hv_params (g_cfg g));
  ok_alias : backend (g_cfg g) <> "appliance";
  ok_backend : find_backend (backend (g_cfg g)) (env_backends (g_env g)) =
               Some (backend_arg (g_cfg g), g_backend_ops g)
}.

#[export] Instance config_ok_core : CoreClosed config_ok.
Proof.
  intros g g' E [H1 H2 H3 H4 H5].
  assert (g_cfg g = g_cfg g' /\ g_env g = g_env g' /\ g_backend_ops g = g_backend_ops g') as (E1 & E2 & E3).
  { split_and!; [apply (f_equal g_cfg) in E|apply (f_equal g_env) in E|apply (f_equal g_backend_ops) in E]; exact E. }
  split; congruence.
Qed.

(** ... in a given state of the handle. *)
Definition ok_in (st : state) (g : guestfs_h) : Prop := config_ok g /\ g_state g = st.
#[export] Instance ok_in_core st : CoreClosed (ok_in st).
Proof.
  intros g g' E [H1 H2]. split; [by eapply config_ok_core|].
  apply (f_equal g_state) in E. cbn in E. congruence.
Qed.

(** An operation that returns, keeps the invariant and the state. *)
Definition keeps {A} (m : hm A) : Prop := forall st, total (ok_in st) m (fun _ => ok_in st).

Lemma keeps_ret {A} (a : A) : keeps (ret a).
Proof. intros st. by apply total_ret. Qed.
Lemma keeps_bind {A B} (m : hm A) (f : A -> hm B) : keeps m -> (forall a, keeps (f a)) -> keeps (bind m f).
Proof. intros Hm Hf st. eapply total_bind; [apply Hm|]. intros a. apply Hf. Qed.
Lemma keeps_api {A} `{Traced A} name args (f : hm A) : keeps f -> keeps (api name args f).
Proof. intros Hf st. apply total_api; [apply _|intros; apply _|apply Hf]. Qed.
Lemma keeps_api_config name args (f : hm Z) :
  total (ok_in CONFIG) f (fun _ => ok_in CONFIG) -> keeps (api_config name args f).
Proof.
  intros Hf st. apply total_api_config; [apply _|intros; apply _| |done].
  intros g [[H1 H2] H3]. destruct (Hf g) as (r & g' & E & H); [by split|].
  exists r, g'. split; [done|]. congruence.
Qed.
Lemma keeps_config {A} (m : hm A) : keeps m -> total (ok_in CONFIG) m (fun _ => ok_in CONFIG).
Proof. intros H. apply H. Qed.
Lemma keeps_modify f : (forall st g, ok_in st g -> ok_in st (f g)) -> keeps (modify f).
Proof. intros H st. apply total_modify. apply H. Qed.
Lemma keeps_core f : (forall g, core (f g) = core g) -> keeps (modify f).
Proof. intros H. apply keeps_modify. intros st g Hg. eapply ok_in_core; [symmetry; apply H|exact Hg]. Qed.
Lemma keeps_report msg : keeps (report msg).
Proof. apply keeps_core. intros g. apply core_error_errno. Qed.
Lemma keeps_if {A} (b : bool) (m m' : hm A) : (b = true -> keeps m) -> (b = false -> keeps m') -> keeps (if b then m else m').
Proof. destruct b; auto. Qed.
Lemma keeps_set_cfg f : (forall st g, ok_in st g -> ok_in st (upd g_cfg f g)) -> keeps (set_cfg f).
Proof. intros H st. apply total_set_cfg. apply H. Qed.
Lemma keeps_state {A} (k : guestfs_h -> hm A) : (forall g, keeps (k g)) -> keeps (fun g => k g g).
Proof. intros H st g Hg. by apply (H g st). Qed.

Create HintDb keeps.
#[export] Hint Resolve keeps_ret keeps_api keeps_report keeps_config keeps_api_config keeps_bind : keeps.

Ltac keeps_field := apply keeps_set_cfg; intros st g [[] ?]; by split; [split|].

Lemma keeps_set_verbose v : keeps (guestfs__set_verbose v). Proof. keeps_field. Qed.
Lemma keeps_set_autosync v : keeps (guestfs__set_autosync v). Proof. keeps_field. Qed.
Lemma keeps_set_selinux v : keeps (guestfs__set_selinux v). Proof. keeps_field. Qed.
Lemma keeps_set_trace v : keeps (guestfs__set_trace v). Proof. keeps_field. Qed.
Lemma keeps_set_direct v : keeps (guestfs__set_direct v). Proof. keeps_field. Qed.
Lemma keeps_set_recovery_proc v : keeps (guestfs__set_recovery_proc v). Proof. keeps_field. Qed.
Lemma keeps_set_network v : keeps (guestfs__set_network v). Proof. keeps_field. Qed.
Lemma keeps_set_pgroup v : keeps (guestfs__set_pgroup v). Proof. keeps_field. Qed.
Lemma keeps_set_program v : keeps (guestfs__set_program v). Proof. keeps_field. Qed.
Lemma keeps_set_hv v : keeps (guestfs__set_hv v). Proof. keeps_field. Qed.
Lemma keeps_set_append v : keeps (guestfs__set_append v). Proof. keeps_field. Qed.
Lemma keeps_set_path v : keeps (guestfs__set_path v).
Proof. apply (keeps_state (fun g => set_cfg _)). intros g0. keeps_field. Qed.
Lemma keeps_set_qemu v : keeps (guestfs__set_qemu v).
Proof.
  assert (forall q, keeps (set_cfg (fun c => c <| hv := q |>))) as Hk by (intros; keeps_field).
  intros st g Hg. unfold guestfs__set_qemu.
  destruct v as [q|], (env_qemu (g_env g)) as [q'|]; try (by apply Hk).
  eapply keeps_bind; [apply keeps_report|intros; apply keeps_ret|exact Hg].
Qed.
Lemma keeps_set_memsize v : keeps (guestfs__set_memsize v).
Proof.
  apply keeps_if; [eauto with keeps|]. intros Hv%Z.ltb_ge.
  apply keeps_set_cfg. intros st g [[] ?]. by split; [split|].
Qed.
Lemma keeps_set_smp v : keeps (guestfs__set_smp v).
Proof.
  apply keeps_if; [eauto with keeps|]. intros H1%Z.ltb_ge.
  apply keeps_if; [|eauto with keeps]. intros H2%Z.leb_le.
  apply keeps_set_cfg. intros st g [[] ?]. by split; [split|].
Qed.
Lemma keeps_guestfs_config p v : keeps (guestfs__config p v).
Proof.
  apply keeps_if; [eauto with keeps|]. intros Hf. apply keeps_set_cfg. intros st g [[? ? Hp ? ?] ?].
  split; [split|]; try done. cbn. constructor; [|done]. cbn. intros Hin.
  assert (existsb (STREQ p) forbidden_params = true) as Ht; [|congruence].
  apply existsb_exists. exists p. split; [by apply list_elem_of_In|]. by apply bool_decide_eq_true.
Qed.

Lemma backend_alias_not s : backend_alias s <> "appliance".
Proof. unfold backend_alias, STREQ. case_bool_decide; [done|]. intros E. congruence. Qed.

Lemma set_backend_total method :
  total (ok_in CONFIG) (guestfs___set_backend method) (fun _ => ok_in CONFIG).
Proof.
  intros g Hg. unfold guestfs___set_backend. rewrite decide_True by apply Hg.
  destruct (find_backend _ _) as [[arg ops]|] eqn:E; [|eauto].
  eexists _, _. split; [done|]. destruct Hg as [[] ?]. split; [split|]; try done. cbn.
  apply backend_alias_not.
Qed.

Lemma keeps_set_backend method : keeps (guestfs_set_backend method).
Proof.
  apply keeps_api_config. eapply total_bind; [apply set_backend_total|]. intros r.
  apply keeps_config. apply keeps_if; eauto with keeps.
Qed.

Lemma keeps_get_backend_setting name : keeps (guestfs__get_backend_setting name).
Proof.
  intros st g Hg. unfold guestfs__get_backend_setting. destruct (_ ≫= _); [eauto|].
  eexists _, _. split; [done|]. eapply ok_in_core; [|exact Hg]. by rewrite core_error_errno.
Qed.

Lemma keeps_set_backend_settings l : keeps (guestfs__set_backend_settings l).
Proof. keeps_field. Qed.

Lemma keeps_clear_backend_setting name : keeps (guestfs__clear_backend_setting name).
Proof.
  intros st g Hg. unfold guestfs__clear_backend_setting.
  destruct (backend_settings (g_cfg g)) as [l|]; [|eauto].
  destruct (clear_loop _ _ _ _ _) as [l' n]. eexists _, _. split; [done|].
  destruct Hg as [[] ?]. by split; [split|].
Qed.

Lemma keeps_set_backend_setting name value : keeps (guestfs__set_backend_setting name value).
Proof.
  assert (keeps (modify (fun g => g <| g_cfg; backend_settings ::=
    fun l => Some (default [] l ++ [name +:+ "=" +:+ value]) |>))) as Hk.
  { apply keeps_modify. intros st g [[] ?]. by split; [split|]. }
  intros st g Hg. unfold guestfs__set_backend_setting.
  destruct (backend_settings (g_cfg g)) as [l|].
  - revert g Hg. change (total (ok_in st) (guestfs_clear_backend_setting name ;;;
      modify (fun g => g <| g_cfg; backend_settings ::=
        fun l => Some (default [] l ++ [name +:+ "=" +:+ value]) |>) ;;; ret 0) (fun _ => ok_in st)).
    apply keeps_bind; [|eauto with keeps]. apply keeps_api_config, keeps_config, keeps_clear_backend_setting.
  - eexists _, _. split; [done|]. destruct (Hk st g Hg) as (? & ? & [= <- <-] & H). exact H.
Qed.

#[export] Hint Resolve keeps_set_verbose keeps_set_autosync keeps_set_selinux keeps_set_trace
  keeps_set_direct keeps_set_recovery_proc keeps_set_network keeps_set_pgroup keeps_set_program
  keeps_set_hv keeps_set_append keeps_set_path keeps_set_qemu keeps_set_memsize keeps_set_smp
  keeps_guestfs_config keeps_set_backend keeps_get_backend_setting keeps_set_backend_settings
  keeps_clear_backend_setting keeps_set_backend_setting : keeps.

Lemma keeps_get_backend_setting_bool name : keeps (guestfs___get_backend_setting_bool name).
Proof.
  unfold guestfs___get_backend_setting_bool.
  apply keeps_bind; [apply keeps_core; intros g; by destruct g|intros _].
  apply keeps_bind; [apply keeps_api, keeps_get_backend_setting|intros v].
  apply keeps_bind; [apply keeps_core; intros g|intros _].
  { unfold guestfs_pop_error_handler. destruct (error_cb_stack _) as [|[]]; by destruct g. }
  apply keeps_bind; [intros st g Hg; by eexists _, _|intros e].
  destruct v; apply keeps_if; eauto with keeps.
Qed.

Section tmpdirs_lemmas.
Context (realpath : string -> Z + string) (stat_isdir : string -> Z + bool)
        (mkdtemp : string -> Z + string).

Lemma keeps_dirs f : keeps (modify (upd g_dirs f)).
Proof. apply keeps_modify. intros st g [[] ?]. by split; [split|]. Qed.

Lemma keeps_set_abs_path set d : keeps (set_abs_path realpath stat_isdir set d).
Proof.
  apply keeps_bind; [apply keeps_dirs|intros _]. destruct d as [d|]; [|apply keeps_ret].
  assert (forall e, keeps (modify (fun g => guestfs___perrorf g e
    ("failed to set temporary directory: " +:+ d)) ;;; ret (-1))) as Hf.
  { intros e. apply keeps_bind; [|intros; apply keeps_ret]. apply keeps_core. intros g. apply core_perrorf. }
  cbv zeta. destruct (realpath d) as [e|r]; [apply Hf|].
  destruct (stat_isdir r) as [e|[]]; [apply Hf| |eauto with keeps].
  apply keeps_bind; [apply keeps_dirs|intros; apply keeps_ret].
Qed.

Lemma keeps_or_return m k : keeps m -> keeps k -> keeps (or_return m k).
Proof. intros Hm Hk. apply keeps_bind; [done|]. intros r. apply keeps_if; eauto with keeps. Qed.
Lemma keeps_when_set str f k : (forall s, keeps (f s)) -> keeps k -> keeps (when_set str f k).
Proof. intros Hm Hk. unfold when_set. destruct (non_empty str); eauto with keeps. Qed.
Lemma keeps_when_set_check str f k : (forall s, keeps (f s)) -> keeps k -> keeps (when_set_check str f k).
Proof. intros Hm Hk. unfold when_set_check. destruct (non_empty str); [apply keeps_or_return|]; auto. Qed.

Lemma keeps_parse_environment getenv : keeps (parse_environment realpath stat_isdir getenv).
Proof.
  unfold parse_environment.
  apply keeps_bind; [apply keeps_if; eauto with keeps|intros _].
  apply keeps_bind; [apply keeps_if; eauto with keeps|intros _].
  apply keeps_when_set_check; [intros; apply keeps_api_config, keeps_config, keeps_set_abs_path|].
  apply keeps_when_set_check; [intros; apply keeps_api_config, keeps_config, keeps_set_abs_path|].
  apply keeps_or_return; [apply keeps_set_abs_path|].
  apply keeps_when_set; [intros; apply keeps_api_config, keeps_config, keeps_set_path|].
  apply keeps_when_set; [intros; apply keeps_api_config, keeps_config, keeps_set_hv|].
  apply keeps_bind; [destruct (getenv "LIBGUESTFS_APPEND"); eauto with keeps|intros _].
  apply keeps_when_set_check.
  { intros s. unfold set_memsize_env. destruct (sscanf_d s); [apply keeps_api_config|]; eauto with keeps. }
  apply keeps_when_set_check; [apply keeps_set_backend|].
  destruct (getenv "LIBGUESTFS_BACKEND_SETTINGS"); [|apply keeps_ret].
  apply keeps_or_return; [|apply keeps_ret].
  apply keeps_api_config, keeps_config, keeps_set_backend_settings.
Qed.
End tmpdirs_lemmas.

(** ** Backend settings *)

Definition matches (name s : string) : Prop := is_Some (setting_value name s).
#[export] Instance matches_dec name s : Decision (matches name s).
Proof. unfold matches. apply _. Defined.

Lemma clear_loop_spec name : forall fuel pre l count, (length l <= fuel)%nat ->
  clear_loop fuel name (length pre) (pre ++ l) count =
  (pre ++ filter (fun s => ~ matches name s) l, (count + length (filter (matches name) l))%nat).
Proof.
  induction fuel as [|fuel IH]; intros pre l count Hl.
  - destruct l; [|cbn in Hl; lia]. cbn. by rewrite Nat.add_0_r.
  - cbn [clear_loop]. rewrite lookup_app_r, Nat.sub_diag by lia.
    destruct l as [|s l]; cbn [lookup list_lookup]; [cbn; by rewrite Nat.add_0_r|]. cbn in Hl.
    rewrite !filter_cons. destruct (setting_value name s) as [v|] eqn:Ev.
    + assert (matches name s) as Hm by by eexists.
      rewrite decide_False by (intros H; by apply H). rewrite decide_True by done.
      replace (delete (length pre) (pre ++ s :: l)) with (pre ++ l).
      * rewrite IH by lia. cbn. f_equal. lia.
      * symmetry. apply delete_middle.
    + assert (~ matches name s) as Hm by (intros []; congruence).
      rewrite decide_True by done. rewrite decide_False by done.
      replace (pre ++ s :: l) with ((pre ++ [s]) ++ l) by by rewrite <- app_assoc.
      replace (S (length pre)) with (length (pre ++ [s])) by (rewrite length_app; cbn; lia).
      rewrite IH by lia. by rewrite <- app_assoc.
Qed.

Lemma after_prefix_app p s : after_prefix p (p +:+ s) = Some s.
Proof.
  induction p as [|c p IH]; [done|]. change (String c p +:+ s) with (String c (p +:+ s)).
  cbn. by rewrite Ascii.eqb_refl.
Qed.
Lemma after_prefix_inv p s r : after_prefix p s = Some r -> s = p +:+ r.
Proof.
  revert s. induction p as [|c p IH]; intros s; cbn; [by intros [= ->]|].
  destruct s as [|d s]; [done|]. destruct (Ascii.eqb_spec c d); [subst|done].
  intros ->%IH. done.
Qed.

Lemma split_at_equals a b x y : no_sep "=" a -> no_sep "=" b ->
  a +:+ String "=" x = b +:+ String "=" y -> a = b /\ x = y.
Proof.
  intros Ha Hb E. destruct (strcspn_no_sep "=" a x Ha) as [E1 _].
  destruct (strcspn_no_sep "=" b y Hb) as [E2 _]. rewrite E in E1. rewrite E1 in E2. by simplify_eq.
Qed.

Lemma not_sep_app a b : ~ no_sep "=" (a +:+ String "=" b).
Proof.
  unfold no_sep. induction a as [|c a IH]; [done|].
  change (String c a +:+ String "=" b) with (String c (a +:+ String "=" b)). cbn.
  destruct (negb _); [done|discriminate].
Qed.

Lemma setting_value_new name name' value : no_sep "=" name -> no_sep "=" name' ->
  setting_value name' (name +:+ "=" +:+ value) = if decide (name' = name) then Some value else None.
Proof.
  intros Hn Hn'. unfold setting_value, STREQ, name_equals. change ("=" +:+ value) with (String "=" value).
  case_bool_decide as E; [subst; by apply not_sep_app in Hn'|]. case_decide as D; [subst; by rewrite after_prefix_app|].
  destruct (after_prefix name' _) as [r|] eqn:Er; [|done].
  apply after_prefix_inv in Er. destruct r as [|c r]; [done|].
  destruct (Ascii.eqb_spec c "=") as [->|Hc].
  - apply split_at_equals in Er as [-> _]; done.
  - destruct c as [[] [] [] [] [] [] [] []]; done.
Qed.

Lemma find_setting_app name a b : find_setting name (a ++ b) =
  match find_setting name a with Some v => Some v | None => find_setting name b end.
Proof. induction a as [|s a IH]; [done|]. cbn. by destruct (setting_value name s). Qed.

Lemma find_setting_cleared name l : find_setting name (filter (fun s => ~ matches name s) l) = None.
Proof.
  induction l as [|s l IH]; [done|]. rewrite filter_cons. case_decide as D; [|done]. cbn.
  destruct (setting_value name s) eqn:E; [|done]. exfalso. apply D. by eexists.
Qed.

Lemma setting_value_inv name s v : setting_value name s = Some v ->
  s = name \/ s = name +:+ String "=" v.
Proof.
  unfold setting_value, STREQ, name_equals. case_bool_decide; [by left|]. intros H1. right.
  destruct (after_prefix name s) as [[|c r]|] eqn:E; try done. apply after_prefix_inv in E.
  destruct (Ascii.eqb_spec c "=") as [->|Hc]; [congruence|by destruct c as [[] [] [] [] [] [] [] []]].
Qed.

Lemma setting_value_unique name name' s : no_sep "=" name -> no_sep "=" name' ->
  matches name s -> matches name' s -> name = name'.
Proof.
  intros Hn Hn' [v Hv%setting_value_inv] [v' Hv'%setting_value_inv].
  destruct Hv as [->| ->], Hv' as [E|E]; try done.
  - rewrite E in Hn. by apply not_sep_app in Hn.
  - rewrite <- E in Hn'. by apply not_sep_app in Hn'.
  - by destruct (split_at_equals _ _ _ _ Hn Hn' E).
Qed.

Lemma find_setting_other name name' l : no_sep "=" name -> no_sep "=" name' -> name <> name' ->
  find_setting name' (filter (fun s => ~ matches name s) l) = find_setting name' l.
Proof.
  intros Hn Hn' Hne. induction l as [|s l IH]; [done|]. rewrite filter_cons. cbn.
  case_decide as D; cbn; rewrite IH; [done|].
  destruct (setting_value name' s) as [v|] eqn:E; [|done]. exfalso.
  apply Hne, (setting_value_unique name name' s); [done|done| |by eexists].
  destruct (decide (matches name s)); [done|]. by exfalso.
Qed.

(** ** The error handler stack and silent calls *)

Definition is_error_output (o : output) : bool := match o with OutError _ _ _ => true | _ => false end.
Definition silent (os : list output) : Prop := Forall (fun o => is_error_output o = false) os.

Lemma silent_dispatched ev buf array es k :
  silent (concat (imap (fun i e => if event_matches ev e then call_cb ev buf array (k + i)%nat e else []) es)).
Proof.
  revert k. induction es as [|e es IH]; intros k; [constructor|]. cbn. apply Forall_app. split.
  - case_if; [|constructor]. unfold call_cb.
    destruct (event_cb e), (event_opaque2 e); try (by repeat constructor).
    + destruct array as [|? [|? [|? [|? ?]]]]; by repeat constructor.
  - erewrite imap_ext; [apply (IH (S k))|]. intros i x _. unfold compose. by rewrite Nat.add_succ_r.
Qed.

Lemma message_silent g ev buf :
  exists os, guestfs___call_callbacks_message g ev buf = add_out os g /\ silent os.
Proof.
  unfold guestfs___call_callbacks_message. rewrite call_callbacks_from_spec.
  pose proof (silent_dispatched ev buf [] (g_events g) 0) as Hs.
  set (os := concat _) in *. clearbody os.
  destruct (0 <? _)%nat; [eauto|].
  destruct (_ && _); [|eauto]. rewrite emit_all_add_out. unfold emit.
  assert (forall ws, silent (OutStderr <$> ws)) as Hw.
  { intros ws. apply Forall_fmap, Forall_true. done. }
  repeat case_if; rewrite ?add_out_app; eexists; (split; [reflexivity|]);
    repeat (apply Forall_app; split); first [exact Hs|apply Hw|by repeat constructor].
Qed.

(** What [guestfs_get_backend_setting] returns and leaves alone. *)
Lemma get_backend_setting_silent name g : error_cb (g_errs g) = None ->
  exists os, guestfs_get_backend_setting name g =
    (Ret (l ← backend_settings (g_cfg g); find_setting name l),
     add_out os (match (l ← backend_settings (g_cfg g); find_setting name l) with
                 | Some _ => g
                 | None => set_last_error g ESRCH "setting not found"
                 end)) /\ silent os.
Proof.
  intros He. unfold guestfs_get_backend_setting, api.
  assert (forall ev s g, exists os, message ev s g = (Ret tt, add_out os g) /\ silent os) as Hmsg.
  { intros ev s g0. unfold message, modify. destruct (message_silent g0 ev (bytes_of_string s)) as (os & -> & H). eauto. }
  assert (forall b s g, exists os, trace_call b s g = (Ret tt, add_out os g) /\ silent os) as Htr.
  { intros b s g0. destruct b; [apply Hmsg|]. exists []. split; [by rewrite add_out_nil|constructor]. }
  destruct (Hmsg GUESTFS_EVENT_ENTER "get_backend_setting" g) as (o1 & E1 & S1). mstep E1.
  match goal with |- context [trace_call ?b ?s] =>
    destruct (Htr b s (add_out o1 g)) as (o2 & E2 & S2) end. mstep E2. rewrite add_out_app.
  set (found := l ← backend_settings (g_cfg g); find_setting name l).
  assert (guestfs__get_backend_setting name (add_out (o1 ++ o2) g) =
    (Ret found, add_out (o1 ++ o2) (match found with
                                    | Some _ => g
                                    | None => set_last_error g ESRCH "setting not found"
                                    end))) as E3.
  { unfold guestfs__get_backend_setting. cbn [g_cfg add_out upd upd_g_out]. fold found.
    destruct found; [done|]. unfold guestfs___error_errno, call_error_cb. cbn. by rewrite He. }
  mstep E3.
  match goal with |- context [(trace_call ?b ?s ;;; _) ?x] =>
    destruct (Htr b s x) as (o3 & E4 & S3) end. mstep E4.
  exists ((o1 ++ o2) ++ o3). rewrite add_out_app. split; [done|].
  by repeat (apply Forall_app; split).
Qed.

Lemma pop_push g cb data : guestfs_pop_error_handler (guestfs_push_error_handler g cb data) = g.
Proof. by destruct g as [? ? [] ? ? ? ? ? ? ? ? ?]. Qed.

(** * Properties *)

Fixpoint push_all (hs : list (option error_handler_cb * Z)) (g : guestfs_h) : guestfs_h :=
  match hs with
  | [] => g
  | (cb, data) :: hs' => push_all hs' (guestfs_push_error_handler g cb data)
  end.
Fixpoint pop_n (n : nat) (g : guestfs_h) : guestfs_h :=
  match n with O => g | S n' => pop_n n' (guestfs_pop_error_handler g) end.

Lemma pop_n_S n g : pop_n (S n) g = guestfs_pop_error_handler (pop_n n g).
Proof. revert g. induction n as [|n IH]; intros g; [done|]. cbn [pop_n] in *. by rewrite <- IH. Qed.

Theorem error_handler_stack g hs :
  pop_n (length hs) (push_all hs g) = g /\
  guestfs_get_error_handler (push_all hs g) = default (guestfs_get_error_handler g) (last hs) /\
  (error_cb_stack (g_errs g) = [] ->
     guestfs_get_error_handler (pop_n (S (length hs)) (push_all hs g)) = (Some ErrDefault, 0)).
Proof.
  assert (forall hs g, pop_n (length hs) (push_all hs g) = g) as Hpp.
  { clear. induction hs as [|[cb data] hs IH]; intros g; [done|].
    cbn [length push_all]. rewrite pop_n_S, IH. apply pop_push. }
  split_and!; [apply Hpp| |].
  - revert g. induction hs as [|[cb data] hs IH]; intros g; [done|]. cbn [push_all]. rewrite IH.
    destruct hs as [|h hs]; [done|]. rewrite last_cons_cons. destruct (last (h :: hs)) eqn:E; [done|]. by apply last_None in E.
  - intros He. rewrite pop_n_S, Hpp. unfold guestfs_pop_error_handler. by rewrite He.
Qed.

Lemma error_handler_stack_witness :
  guestfs_get_error_handler (pop_n 2 (push_all [(Some (ErrUser 7), 1)] Examples.ex_handle)) = (Some ErrDefault, 0).
Proof. apply (error_handler_stack Examples.ex_handle [(Some (ErrUser 7), 1)]). reflexivity. Defined.

(** Reading a boolean backend setting gives 1 exactly when the setting is 1 or present
    alone, never reports an error to the user and restores the error handler. *)
Theorem setting_bool_quiet name g :
  exists g' os, guestfs___get_backend_setting_bool name g =
    (Ret (bool_int (bool_decide ((l ← backend_settings (g_cfg g); find_setting name l) = Some "1"))), g') /\
    g_out g' = g_out g ++ os /\ silent os /\
    g_cfg g' = g_cfg g /\ error_cb (g_errs g') = error_cb (g_errs g) /\
    error_cb_data (g_errs g') = error_cb_data (g_errs g) /\
    error_cb_stack (g_errs g') = error_cb_stack (g_errs g).
Proof.
  destruct (get_backend_setting_silent name (guestfs_push_error_handler g None 0) eq_refl) as (os & E & Hs).
  unfold guestfs___get_backend_setting_bool. rewrite bind_modify.
  mstep E. rewrite bind_modify, bind_gets. cbn [g_cfg guestfs_push_error_handler guestfs_set_error_handler upd upd_g_errs].
  destruct (l ← backend_settings (g_cfg g); find_setting name l) as [v|] eqn:Ev.
  - unfold STREQ. destruct (decide (v = "1")) as [->|Hv].
    + eexists _, os. split; [reflexivity|]. by split_and!.
    + rewrite !bool_decide_eq_false_2 by congruence.
      eexists _, os. split; [reflexivity|]. by split_and!.
  - eexists _, os. split; [reflexivity|]. by split_and!.
Qed.

Section properties.
Context (realpath : string -> Z + string) (stat_isdir : string -> Z + bool)
        (mkdtemp : string -> Z + string).

(** The configuration functions of the API. *)
Inductive config_call : hm Z -> Prop :=
  | call_set_verbose v : config_call (api "set_verbose" (arg_bool v) (guestfs__set_verbose v))
  | call_set_autosync v : config_call (api "set_autosync" (arg_bool v) (guestfs__set_autosync v))
  | call_set_trace v : config_call (api "set_trace" (arg_bool v) (guestfs__set_trace v))
  | call_set_program s : config_call (api "set_program" (arg_string s) (guestfs__set_program s))
  | call_set_selinux v : config_call (api_config "set_selinux" (arg_bool v) (guestfs__set_selinux v))
  | call_set_direct v : config_call (api_config "set_direct" (arg_bool v) (guestfs__set_direct v))
  | call_set_recovery_proc v :
      config_call (api_config "set_recovery_proc" (arg_bool v) (guestfs__set_recovery_proc v))
  | call_set_network v : config_call (api_config "set_network" (arg_bool v) (guestfs__set_network v))
  | call_set_pgroup v : config_call (api_config "set_pgroup" (arg_bool v) (guestfs__set_pgroup v))
  | call_set_hv s : config_call (guestfs_set_hv s)
  | call_set_qemu s : config_call (api_config "set_qemu" (arg_opt s) (guestfs__set_qemu s))
  | call_set_path s : config_call (api_config "set_path" (arg_opt s) (guestfs__set_path s))
  | call_set_append s : config_call (api_config "set_append" (arg_opt s) (guestfs__set_append s))
  | call_set_memsize m : config_call (guestfs_set_memsize m)
  | call_set_smp v : config_call (api_config "set_smp" (arg_int v) (guestfs__set_smp v))
  | call_config p v : config_call (api_config "config" (arg_string p +:+ arg_opt v) (guestfs__config p v))
  | call_set_backend s : config_call (guestfs_set_backend s)
  | call_set_attach_method s :
      config_call (api_config "set_attach_method" (arg_string s) (guestfs__set_attach_method s))
  | call_set_backend_settings l : config_call (guestfs_set_backend_settings l)
  | call_set_backend_setting n v :
      config_call (api_config "set_backend_setting" (arg_string n +:+ arg_string v)
                     (guestfs__set_backend_setting n v))
  | call_clear_backend_setting n : config_call (guestfs_clear_backend_setting n)
  | call_set_tmpdir d :
      config_call (api_config "set_tmpdir" (arg_opt d) (guestfs__set_tmpdir realpath stat_isdir d))
  | call_set_cachedir d :
      config_call (api_config "set_cachedir" (arg_opt d) (guestfs__set_cachedir realpath stat_isdir d))
  | call_parse_environment getenv :
      config_call (api "parse_environment" ""
                     (guestfs__parse_environment realpath stat_isdir getenv))
  | call_parse_environment_list l :
      config_call (api "parse_environment_list" (arg_list l)
                     (guestfs__parse_environment_list realpath stat_isdir l)).

Lemma config_call_keeps op : config_call op -> keeps op.
Proof.
  assert (forall set d, keeps (set_abs_path realpath stat_isdir set d)) by (intros; apply keeps_set_abs_path).
  assert (forall e, keeps (parse_environment realpath stat_isdir e)) by (intros; apply keeps_parse_environment).
  destruct 1; try exact (keeps_set_backend _);
    first [apply keeps_api|apply keeps_api_config, keeps_config];
    first [exact (H _ _)|exact (H0 _)|exact (keeps_set_backend _)|auto with keeps].
Qed.

(** A program: a sequence of calls, whatever each one returns. *)
Fixpoint run_calls (ops : list (hm Z)) : hm (list Z) :=
  match ops with
  | [] => ret []
  | op :: ops' => r <- op ;; rs <- run_calls ops' ;; ret (r :: rs)
  end.

(** C37: Any sequence of configuration calls, in any state and with any arguments, returns from
    every call (no assertion fails) and keeps the configuration well-formed: at least the
    minimum memory, between 1 and 255 virtual CPUs, no reserved hypervisor parameter, and a
    backend name that resolves to the operations and argument in use; the state of the handle
    never changes. *)
Theorem config_calls_safe ops g :
  Forall config_call ops -> config_ok g ->
  exists rs g', run_calls ops g = (Ret rs, g') /\ length rs = length ops /\
    config_ok g' /\ g_state g' = g_state g.
Proof.
  intros Hops. revert g. induction Hops as [|op ops Hop _ IH]; intros g Hg.
  - exists [], g. by split_and!.
  - destruct (config_call_keeps op Hop (g_state g) g (conj Hg eq_refl)) as (r & g1 & E1 & H1 & S1).
    destruct (IH g1 H1) as (rs & g2 & E2 & L2 & H2 & S2).
    exists (r :: rs), g2. cbn [run_calls]. mstep E1. mstep E2. split_and!; [done|cbn; lia|done|congruence].
Qed.

(** ** Backend settings are a store *)

(** In the config state [set] makes [get] return the value and leaves the
    other names alone; [clear] removes the name and counts its entries. *)
Definition settings_of (g : guestfs_h) : list string := default [] (backend_settings (g_cfg g)).

Lemma clear_backend_setting_spec name g : g_state g = CONFIG ->
  exists os, guestfs_clear_backend_setting name g =
    (Ret (zlength (filter (matches name) (settings_of g))),
     add_out os (g <| g_cfg; backend_settings ::=
                       fmap (fun l => filter (fun s => ~ matches name s) l) |>)).
Proof.
  intros Hc. unfold guestfs_clear_backend_setting, api_config. rewrite decide_True by done.
  destruct (api_spec "clear_backend_setting" (arg_string name) (guestfs__clear_backend_setting name) g)
    as (o1 & o2 & ->).
  unfold guestfs__clear_backend_setting, settings_of. cbn [g_cfg add_out upd upd_g_out].
  destruct (backend_settings (g_cfg g)) as [l|] eqn:El; cbn [default from_option].
  - pose proof (clear_loop_spec name (length l) [] l 0 (le_n _)) as E. cbn [length app Nat.add] in E.
    rewrite E. eexists (o1 ++ _). rewrite <- add_out_app. f_equal. f_equal.
    destruct g as [? [] ? ? ? ? ? ? ? ? ? ? ?]; cbn in *. by subst.
  - eexists (o1 ++ _). rewrite <- add_out_app. f_equal. f_equal.
    destruct g as [? [] ? ? ? ? ? ? ? ? ? ? ?]; cbn in *. by subst.
Qed.

Lemma set_backend_setting_spec name value g : g_state g = CONFIG ->
  exists os, guestfs__set_backend_setting name value g =
    (Ret 0, add_out os (g <| g_cfg; backend_settings :=
       Some (filter (fun s => ~ matches name s) (settings_of g) ++ [name +:+ "=" +:+ value]) |>)).
Proof.
  intros Hc. unfold guestfs__set_backend_setting, settings_of.
  destruct (backend_settings (g_cfg g)) as [l|] eqn:El; cbn [default from_option].
  - destruct (clear_backend_setting_spec name g Hc) as (os & E). mstep E. exists os.
    rewrite bind_modify. unfold ret. f_equal. destruct g as [? [] ? ? ? ? ? ? ? ? ? ? ?]; cbn in *. by subst.
  - exists []. rewrite add_out_nil. f_equal. destruct g as [? [] ? ? ? ? ? ? ? ? ? ? ?]; cbn in *. by subst.
Qed.

(** The backend settings behave as a store: setting a name and reading it gives the value
    back, reads of every other name are unchanged, and clearing the name removes exactly one
    setting after which it is not found. *)
Theorem backend_setting_store name value g :
  g_state g = CONFIG -> no_sep "=" name ->
  exists g1, guestfs__set_backend_setting name value g = (Ret 0, g1) /\
    guestfs__get_backend_setting name g1 = (Ret (Some value), g1) /\
    (forall name', no_sep "=" name' -> name' <> name ->
       fst (guestfs__get_backend_setting name' g1) = fst (guestfs__get_backend_setting name' g)) /\
    exists g2, guestfs_clear_backend_setting name g1 = (Ret 1, g2) /\
      fst (guestfs__get_backend_setting name g2) = Ret None.
Proof.
  intros Hc Hn. destruct (set_backend_setting_spec name value g Hc) as (os & E).
  eexists. split; [exact E|]. set (l := settings_of g) in *. set (new := name +:+ "=" +:+ value).
  pose proof (setting_value_new name name value Hn Hn) as Hv. rewrite decide_True in Hv by done.
  assert (find_setting name (filter (fun s => ~ matches name s) l ++ [new]) = Some value) as Ef.
  { rewrite find_setting_app, find_setting_cleared. cbn. unfold new. by rewrite Hv. }
  split_and!.
  - unfold guestfs__get_backend_setting. cbn [g_cfg add_out upd upd_g_out upd_g_cfg backend_settings upd_backend_settings mbind option_bind].
    by rewrite Ef.
  - intros name' Hn' Hne. unfold guestfs__get_backend_setting.
    cbn [g_cfg add_out upd upd_g_out upd_g_cfg backend_settings upd_backend_settings mbind option_bind].
    rewrite find_setting_app, find_setting_other by done. cbn [find_setting]. unfold new.
    rewrite setting_value_new, decide_False by done. unfold l, settings_of.
    destruct (backend_settings (g_cfg g)) as [l0|]; cbn; [|done]. by destruct (find_setting name' l0).
  - match goal with |- context [guestfs_clear_backend_setting name ?x] =>
      destruct (clear_backend_setting_spec name x Hc) as (os2 & ->) end.
    eexists. split.
    + f_equal. f_equal. unfold settings_of, zlength.
      cbn [g_cfg add_out upd upd_g_out upd_g_cfg backend_settings upd_backend_settings default from_option].
      unfold id. rewrite filter_app, length_app, filter_cons_True by by eexists.
      assert (filter (matches name) (filter (fun s => ~ matches name s) l) = []) as ->; [|done].
      clear. induction l as [|s l IH]; [done|]. rewrite filter_cons. case_decide; [|done].
      by rewrite filter_cons_False.
    + unfold guestfs__get_backend_setting.
      cbn [g_cfg add_out upd upd_g_out upd_g_cfg backend_settings upd_backend_settings mbind option_bind fmap option_fmap option_map].
      by rewrite find_setting_cleared.
Qed.
End properties.

Lemma backend_setting_store_witness :
  exists g1, guestfs__set_backend_setting "force_tcg" "1"
    (Examples.ex_handle <| g_state := CONFIG |> <| g_cfg; backend_settings := Some ["force_tcg"; "x=y"] |>) =
    (Ret 0, g1) /\ guestfs__get_backend_setting "force_tcg" g1 = (Ret (Some "1"), g1).
Proof.
  destruct (backend_setting_store "force_tcg" "1"
    (Examples.ex_handle <| g_state := CONFIG |> <| g_cfg; backend_settings := Some ["force_tcg"; "x=y"] |>))
    as (g1 & H1 & H2 & _); [reflexivity|reflexivity|]. eauto.
Defined.

Lemma ex_handle_config_ok : config_ok Examples.ex_handle.
Proof. split; cbn; try done; unfold MIN_MEMSIZE; lia. Qed.

Lemma config_calls_safe_witness :
  exists rs g', run_calls [guestfs_set_backend "libvirt"; guestfs_set_memsize 64;
      api "set_verbose" (arg_bool 1) (guestfs__set_verbose 1)] Examples.ex_handle = (Ret rs, g') /\
    config_ok g'.
Proof.
  destruct (config_calls_safe (fun d => inr d) (fun _ => inr true)
    [guestfs_set_backend "libvirt"; guestfs_set_memsize 64;
     api "set_verbose" (arg_bool 1) (guestfs__set_verbose 1)] Examples.ex_handle)
    as (rs & g' & H1 & _ & H2 & _).
  - repeat constructor.
  - split; cbn; try done; unfold MIN_MEMSIZE; lia.
  - eauto.
Defined.

(** ** The environment variables *)

Section environment.
Context (realpath : string -> Z + string) (stat_isdir : string -> Z + bool).

(** The directory that a path names. *)
Definition real_dir (d : string) : option string :=
  match realpath d with
  | inl _ => None
  | inr r => match stat_isdir r with inr true => Some r | _ => None end
  end.

Definition opt_set {A} (v : option A) (f : A -> guestfs_h -> guestfs_h) (g : guestfs_h) : guestfs_h :=
  match v with Some v => f v g | None => g end.
Definition opt_check {A} (v : option A) (f : A -> guestfs_h -> option guestfs_h) (g : guestfs_h) :
    option guestfs_h :=
  match v with Some v => f v g | None => Some g end.

Definition env_memsize (s : string) (g : guestfs_h) : option guestfs_h :=
  m ← sscanf_d s; if m <? MIN_MEMSIZE then None else Some (g <| g_cfg; memsize := m |>).
Definition env_backend (s : string) (g : guestfs_h) : option guestfs_h :=
  '(arg, ops) ← find_backend (backend_alias s) (env_backends (g_env g));
  Some (g <| g_cfg; backend := backend_alias s |> <| g_cfg; backend_arg := arg |> <| g_backend_ops := ops |>).

(** What the variables mean: the settings they give, or [None] when one of
    them is not acceptable. *)
Definition env_meaning (getenv : string -> option string) (g : guestfs_h) : option guestfs_h :=
  let var s := non_empty (getenv s) in
  let g := if is_one (getenv "LIBGUESTFS_TRACE") then g <| g_cfg; trace := true |> else g in
  let g := if is_one (getenv "LIBGUESTFS_DEBUG") then g <| g_cfg; verbose := true |> else g in
  g ← opt_check (var "LIBGUESTFS_TMPDIR")
        (fun s g => d ← real_dir s; Some (g <| g_dirs; int_tmpdir := Some d |>)) g;
  g ← opt_check (var "LIBGUESTFS_CACHEDIR")
        (fun s g => d ← real_dir s; Some (g <| g_dirs; int_cachedir := Some d |>)) g;
  g ← match getenv "TMPDIR" with
      | None => Some (g <| g_dirs; env_tmpdir := None |>)
      | Some s => d ← real_dir s; Some (g <| g_dirs; env_tmpdir := Some d |>)
      end;
  let g := opt_set (var "LIBGUESTFS_PATH") (fun s g => g <| g_cfg; path := s |>) g in
  let hv_var := match var "LIBGUESTFS_HV" with Some s => Some s | None => var "LIBGUESTFS_QEMU" end in
  let g := opt_set hv_var (fun s g => g <| g_cfg; hv := s |>) g in
  let g := opt_set (getenv "LIBGUESTFS_APPEND") (fun s g => g <| g_cfg; append := Some s |>) g in
  g ← opt_check (var "LIBGUESTFS_MEMSIZE") env_memsize g;
  let backend_var := match var "LIBGUESTFS_BACKEND" with
                     | Some s => Some s
                     | None => var "LIBGUESTFS_ATTACH_METHOD"
                     end in
  g ← opt_check backend_var env_backend g;
  Some (opt_set (getenv "LIBGUESTFS_BACKEND_SETTINGS")
          (fun s g => g <| g_cfg; backend_settings := Some (guestfs___split_string ":" s) |>) g).

(** [m] does what [h] says to the core of a handle in the config state, and
    returns -1 when [h] has no result. *)
Definition does (m : hm Z) (h : guestfs_h -> option guestfs_h) : Prop :=
  forall g0 g, g_state g0 = CONFIG -> core g = core g0 ->
    exists r g', m g = (Ret r, g') /\
      match h g0 with
      | None => r = -1
      | Some g1 => r = 0 /\ core g' = core g1 /\ g_state g1 = CONFIG
      end.

Lemma core_state g g' : core g = core g' -> g_state g = g_state g'.
Proof. intros E. apply (f_equal g_state) in E. exact E. Qed.

Lemma does_api name args m h : does m h -> does (api name args m) h.
Proof.
  intros Hm g0 g Hs Hc. destruct (api_spec name args m g) as (o1 & o2 & E).
  destruct (Hm g0 (add_out o1 g) Hs) as (r & g1 & E1 & H); [by rewrite core_add_out|].
  rewrite E1 in E. exists r, (add_out (o2 r g1) g1). split; [done|].
  destruct (h g0); [|done]. by rewrite core_add_out.
Qed.
Lemma does_api_config name args m h : does m h -> does (api_config name args m) h.
Proof.
  intros Hm g0 g Hs Hc. unfold api_config. rewrite decide_True by (by rewrite (core_state g g0)).
  by apply does_api.
Qed.
Lemma does_set_cfg f : does (set_cfg f) (fun g => Some (upd g_cfg f g)).
Proof.
  intros g0 g Hs Hc. eexists _, _. split; [reflexivity|]. split_and!; [done| |done].
  apply (f_equal (upd g_cfg f)) in Hc. exact Hc.
Qed.
Lemma does_or_return m k h1 h2 : does m h1 -> does k h2 ->
  does (or_return m k) (fun g => g1 ← h1 g; h2 g1).
Proof.
  intros Hm Hk g0 g Hs Hc. destruct (Hm g0 g Hs Hc) as (r & g1 & E & H). unfold or_return. mstep E.
  destruct (h1 g0) as [g0'|]; cbn [mbind option_bind].
  - destruct H as (-> & Hc' & Hs'). by apply Hk.
  - subst r. cbn. eauto.
Qed.
Lemma does_seq m k h1 h2 : does m (fun g => Some (h1 g)) -> does k h2 -> does (m ;;; k) (fun g => h2 (h1 g)).
Proof.
  intros Hm Hk g0 g Hs Hc. destruct (Hm g0 g Hs Hc) as (r & g1 & E & _ & Hc' & Hs'). mstep E. by apply Hk.
Qed.
Lemma does_ret : does (ret 0) Some.
Proof. intros g0 g Hs Hc. exists 0, g. by split_and!. Qed.
Lemma does_ext m h h' : (forall g, h g = h' g) -> does m h -> does m h'.
Proof. intros He Hm g0 g Hs Hc. rewrite <- He. by apply Hm. Qed.

Lemma does_when_set str f k h1 h2 :
  (forall s, does (f s) (fun g => Some (h1 s g))) -> does k h2 ->
  does (when_set str f k) (fun g => h2 (opt_set (non_empty str) h1 g)).
Proof. intros Hf Hk. unfold when_set. destruct (non_empty str); [|done]. by apply does_seq. Qed.
Lemma does_when_set_check str f k h1 h2 :
  (forall s, does (f s) (h1 s)) -> does k h2 ->
  does (when_set_check str f k) (fun g => g1 ← opt_check (non_empty str) h1 g; h2 g1).
Proof. intros Hf Hk. unfold when_set_check. destruct (non_empty str); [by apply does_or_return|done]. Qed.

Lemma does_fail msg h : (forall g, h g = None) -> does (report msg ;;; ret (-1)) h.
Proof. intros Hh g0 g _ _. eexists _, _. split; [reflexivity|]. by rewrite Hh. Qed.

Lemma does_set_abs_path (set : option string -> directories -> directories) s :
  (forall a b d, set a (set b d) = set a d) ->
  does (set_abs_path realpath stat_isdir set (Some s))
    (fun g => d ← real_dir s; Some (upd g_dirs (set (Some d)) g)).
Proof.
  intros Hset g0 g Hs Hc. unfold set_abs_path, real_dir. rewrite bind_modify.
  destruct (realpath s) as [e|r]; [eexists _, _; by split|].
  destruct (stat_isdir r) as [e|[]]; try (eexists _, _; by split). cbn [mbind option_bind].
  eexists _, _. split; [reflexivity|]. split_and!; [done| |done].
  apply (f_equal (upd g_dirs (set (Some r)))) in Hc. transitivity (upd g_dirs (set (Some r)) (core g)); [|exact Hc].
  unfold core, upd, upd_g_dirs, upd_g_errs, upd_g_out. cbn. by rewrite Hset.
Qed.

Lemma does_memsize_env s : does (set_memsize_env s) (env_memsize s).
Proof.
  unfold set_memsize_env, env_memsize. destruct (sscanf_d s) as [m|]; [|by apply does_fail].
  apply does_api_config. cbn [mbind option_bind]. unfold guestfs__set_memsize.
  destruct (m <? MIN_MEMSIZE); [by apply does_fail|apply does_set_cfg].
Qed.

Lemma does_set_backend s : does (guestfs_set_backend s) (env_backend s).
Proof.
  apply does_api_config. intros g0 g Hs Hc. unfold guestfs__set_backend, guestfs___set_backend, env_backend.
  unfold bind at 1. rewrite decide_True by (by rewrite (core_state g g0)).
  assert (env_backends (g_env g) = env_backends (g_env g0)) as ->.
  { apply (f_equal g_env) in Hc. cbn in Hc. by rewrite Hc. }
  destruct (find_backend _ _) as [[arg ops]|]; cbn [mbind option_bind].
  - eexists _, _. split; [reflexivity|]. split_and!; [done| |done].
    apply (f_equal (fun x => x <| g_cfg; backend := backend_alias s |>
      <| g_cfg; backend_arg := arg |> <| g_backend_ops := ops |>)) in Hc. exact Hc.
  - eexists _, _. by split.
Qed.

Lemma non_empty_or (a b : option string) :
  non_empty (match non_empty a with Some s => Some s | None => b end) =
  match non_empty a with Some s => Some s | None => non_empty b end.
Proof. destruct a as [a|]; cbn; [|done]. destruct (STRNEQ a "") eqn:E; cbn; [by rewrite E|done]. Qed.

Lemma does_parse_environment getenv :
  does (parse_environment realpath stat_isdir getenv) (env_meaning getenv).
Proof.
  assert (exists h, does (parse_environment realpath stat_isdir getenv) h /\
            forall g, h g = env_meaning getenv g) as (h & H1 & H2); [|by eapply does_ext].
  eexists. split.
  - unfold parse_environment.
    apply (does_seq _ _ (fun g => if is_one (getenv "LIBGUESTFS_TRACE") then g <| g_cfg; trace := true |> else g)).
    { destruct (is_one _); [apply does_api, does_set_cfg|apply does_ret]. }
    apply (does_seq _ _ (fun g => if is_one (getenv "LIBGUESTFS_DEBUG") then g <| g_cfg; verbose := true |> else g)).
    { destruct (is_one _); [apply does_api, does_set_cfg|apply does_ret]. }
    apply does_when_set_check.
    { intros s. by apply does_api_config, (does_set_abs_path (fun v d => d <| int_tmpdir := v |>)). }
    apply does_when_set_check.
    { intros s. by apply does_api_config, (does_set_abs_path (fun v d => d <| int_cachedir := v |>)). }
    apply (does_or_return _ _ (fun g => match getenv "TMPDIR" with
      | None => Some (g <| g_dirs; env_tmpdir := None |>)
      | Some s => d ← real_dir s; Some (g <| g_dirs; env_tmpdir := Some d |>)
      end)).
    { destruct (getenv "TMPDIR") as [s|].
      - by apply (does_set_abs_path (fun v d => d <| env_tmpdir := v |>)).
      - intros g0 g Hs Hc. eexists _, _. split; [reflexivity|]. split_and!; [done| |done].
        apply (f_equal (upd g_dirs (fun d => d <| env_tmpdir := None |>))) in Hc. exact Hc. }
    apply (does_when_set _ _ _ (fun s g => g <| g_cfg; path := s |>)).
    { intros s. apply does_api_config, (does_set_cfg (fun c => c <| path := s |>)). }
    apply (does_when_set _ _ _ (fun s g => g <| g_cfg; hv := s |>)).
    { intros s. apply does_api_config, (does_set_cfg (fun c => c <| hv := s |>)). }
    apply (does_seq _ _ (opt_set (getenv "LIBGUESTFS_APPEND") (fun s g => g <| g_cfg; append := Some s |>))).
    { destruct (getenv "LIBGUESTFS_APPEND") as [s|]; [|apply does_ret].
      apply does_api_config, (does_set_cfg (fun c => c <| append := Some s |>)). }
    apply does_when_set_check; [apply does_memsize_env|].
    apply does_when_set_check; [apply does_set_backend|].
    apply (does_ext _ (fun g => Some (opt_set (getenv "LIBGUESTFS_BACKEND_SETTINGS")
      (fun s g => g <| g_cfg; backend_settings := Some (guestfs___split_string ":" s) |>) g))); [done|].
    destruct (getenv "LIBGUESTFS_BACKEND_SETTINGS") as [s|]; [|apply does_ret].
    eapply does_ext; [|apply does_or_return; [apply does_api_config, does_set_cfg|apply does_ret]]. done.
  - intros g. unfold env_meaning. rewrite !non_empty_or. reflexivity.
Qed.

(** guestfs_parse_environment has exactly the effect of the documented environment
    variables taken in order, and fails exactly when one of them has an unacceptable value. *)
Theorem parse_environment_meaning getenv g :
  g_state g = CONFIG ->
  exists r g', guestfs__parse_environment realpath stat_isdir getenv g = (Ret r, g') /\
    match env_meaning getenv g with
    | None => r = -1
    | Some g1 => r = 0 /\ core g' = core g1
    end.
Proof.
  intros Hs. destruct (does_parse_environment getenv g g Hs eq_refl) as (r & g' & E & H).
  exists r, g'. split; [exact E|]. destruct (env_meaning getenv g); [|done]. by destruct H as (? & ? & _).
Qed.

Lemma get_tmpdir_spec g : exists os, guestfs_get_tmpdir g = (Ret (Some (guestfs__get_tmpdir g)), add_out os g).
Proof.
  unfold guestfs_get_tmpdir.
  destruct (api_spec "get_tmpdir" "" (gets (fun g => Some (guestfs__get_tmpdir g))) g) as (o1 & o2 & ->).
  cbn [gets]. eexists (o1 ++ _). by rewrite <- add_out_app.
Qed.

Lemma dirs_core g g' : core g = core g' -> g_dirs g = g_dirs g'.
Proof. intros E. apply (f_equal g_dirs) in E. exact E. Qed.

(** set_tmpdir succeeds exactly on a path that resolves to a directory, get_tmpdir then
    gives that directory, else the environment's, else /tmp, and the temporary directory is
    created below it once and then kept. *)
Theorem tmpdir_resolution (mkdtemp : string -> Z + string) g d :
  exists r g1, guestfs__set_tmpdir realpath stat_isdir (Some d) g = (Ret r, g1) /\
    (r = 0 /\ is_Some (real_dir d) \/ r = -1 /\ real_dir d = None) /\
    guestfs__get_tmpdir g1 = default (default "/tmp" (env_tmpdir (g_dirs g))) (real_dir d) /\
    (tmpdir (g_dirs g) = None ->
     exists r2 g2, guestfs___lazy_make_tmpdir mkdtemp g1 = (Ret r2, g2) /\
       match mkdtemp (guestfs__get_tmpdir g1 +:+ "/libguestfsXXXXXX") with
       | inl _ => r2 = -1 /\ tmpdir (g_dirs g2) = None
       | inr p => r2 = 0 /\ tmpdir (g_dirs g2) = Some p /\
                  guestfs___lazy_make_tmpdir mkdtemp g2 = (Ret 0, g2)
       end).
Proof.
  assert (exists r g1, guestfs__set_tmpdir realpath stat_isdir (Some d) g = (Ret r, g1) /\
    (r = 0 /\ is_Some (real_dir d) \/ r = -1 /\ real_dir d = None) /\
    g_dirs g1 = (g_dirs g) <| int_tmpdir := real_dir d |>) as (r & g1 & E & Hr & Hd).
  { unfold guestfs__set_tmpdir, set_abs_path, real_dir. rewrite bind_modify.
    assert (forall e m, g_dirs (guestfs___perrorf (g <| g_dirs; int_tmpdir := None |>) e m) =
              (g_dirs g) <| int_tmpdir := None |>) as Hp.
    { intros e m. by rewrite (dirs_core _ _ (core_perrorf _ e m)). }
    destruct (realpath d) as [e|p]; [eexists _, _; split_and!; [done|by right|apply Hp]|].
    destruct (stat_isdir p) as [e|[]]; eexists _, _; (split; [reflexivity|]).
    - split; [by right|apply Hp].
    - split; [left; split; [done|by eexists]|done].
    - split; [by right|]. unfold error. by rewrite (dirs_core _ _ (core_error_errno _ 0 _)). }
  exists r, g1. split_and!; [done|done| |].
  - unfold guestfs__get_tmpdir. rewrite Hd. cbn. destruct (real_dir d), (env_tmpdir _); done.
  - intros Ht. unfold guestfs___lazy_make_tmpdir.
    assert (tmpdir (g_dirs g1) = None) as -> by (rewrite Hd; exact Ht).
    destruct (get_tmpdir_spec g1) as (os & E2). mstep E2. cbn [default from_option]. unfold id.
    destruct (mkdtemp _) as [e|p]; eexists _, _; by split.
Qed.
End environment.

Lemma parse_environment_meaning_witness :
  exists r g', guestfs__parse_environment (fun d => inr d) (fun _ => inr true)
      (getenv_from_strings ["LIBGUESTFS_MEMSIZE=1024"; "LIBGUESTFS_DEBUG=1"; "LIBGUESTFS_BACKEND=direct"])
      (Examples.ex_handle <| g_state := CONFIG |>) = (Ret r, g') /\ r = 0.
Proof.
  destruct (parse_environment_meaning (fun d => inr d) (fun _ => inr true)
    (getenv_from_strings ["LIBGUESTFS_MEMSIZE=1024"; "LIBGUESTFS_DEBUG=1"; "LIBGUESTFS_BACKEND=direct"])
    (Examples.ex_handle <| g_state := CONFIG |>)) as (r & g' & E & H); [reflexivity|].
  exists r, g'. split; [exact E|]. vm_compute in H. destruct H as [H _]. exact H.
Defined.
