(* ===== verification/EndToEnd.v ===== *)
(** The library and the daemon together.  The client stubs of generator/c.ml
    and the daemon's of generator/daemon.ml are modelled here; the bytes one
    side hands over are fed to the other. *)

From S2P Require Import Prelude Xdr Protocol Handle Events Conn LibProto LibProtoSpec LibProtoSafe DaemonProto DaemonSpec Config.
Local Open Scope Z_scope.

(** * The stubs (generator/c.ml) *)

Section stubs.
Context {C : Type} `{ConnOps C}.

(** guestfs___string_to_errno (generated code) is a parameter. *)
Variable string_to_errno : list byte -> Z.
(** The value of g->trace when the stub was entered, and the error code of the
    stub's return type (-1 or NULL). *)
Variable trace_flag : bool.
Variable errcode : string.

Definition trace_line (line : string) : M (lib C) unit :=
  on_g (fun g => if trace_flag then guestfs___call_callbacks_message g GUESTFS_EVENT_TRACE (bytes_of_string line) else g).
Definition trace_return_error (name : string) : M (lib C) unit :=
  on_g (fun g => if trace_flag then guestfs___trace g (name +:+ " = " +:+ errcode +:+ " (error)") else g).

Definition report_reply_error (name : string) (err : guestfs_message_error) (g : guestfs_h) : guestfs_h :=
  let errnum := match errno_string err with [] => 0 | s => string_to_errno s end in
  let msg := name +:+ ": " +:+ string_of_bytes (error_message err) in
  if errnum <=? 0 then error g msg else guestfs___error_errno g errnum msg.

(** From the label [read_reply] of a stub on: 0 and the result, or -1. *)
Definition stub_reply {A} (name : string) (proc_nr serial : Z)
    (xdrp : option (list byte -> option (A * list byte))) : M (lib C) (Z * option A) :=
  let* (r, rep) := guestfs___recv name xdrp in
  if r =? -1 then trace_return_error name ;;; ret (-1, None) else
  r <- guestfs___check_reply_header (reply_hdr rep) proc_nr serial ;;
  if r =? -1 then trace_return_error name ;;; ret (-1, None) else
  if hdr_status (reply_hdr rep) =? GUESTFS_STATUS_ERROR then
    trace_return_error name ;;;
    on_g (report_reply_error name (reply_err rep)) ;;; ret (-1, None)
  else ret (0, reply_ret rep).

(** A FileOut parameter. *)
Definition stub_recv_file (name filename : string) : M (lib C) Z :=
  r <- guestfs___recv_file filename ;;
  if r =? -1 then trace_return_error name ;;; ret (-1) else ret 0.

(** A FileIn parameter: sending the file, and what follows until the reply is
    read.  [inl r] returns. *)
Definition stub_send_file (name filename : string) : M (lib C) (Z + unit) :=
  r <- guestfs___send_file filename ;;
  if r =? -1 then trace_return_error name ;;; guestfs___recv_discard name ;;; ret (inl (-1))
  else ret (inr tt).

(** The part of a stub with one FileOut parameter and no result from the label
    [read_reply] on. *)
Definition stub_download (name : string) (proc_nr serial : Z) (filename : string) : M (lib C) Z :=
  let* (r, _) := stub_reply (A := unit) name proc_nr serial None in
  if r =? -1 then ret (-1) else stub_recv_file name filename.

(** A stub from the call of guestfs___check_appliance_up on: the arguments are
    marshalled by [xdr_args], at most one file goes in and one comes out,
    [show] traces the result. *)
Definition stub_body {A} (name : string) (proc_nr progress_hint optargs_bitmask : Z)
    (xdr_args : option (xenc -> option xenc)) (filein fileout : option string)
    (xdr_ret : option (list byte -> option (A * list byte))) (show : option A -> string) :
    M (lib C) (Z * option A) :=
  r <- guestfs___check_appliance_up name ;;
  if r =? -1 then trace_return_error name ;;; ret (-1, None) else
  serial <- guestfs___send proc_nr progress_hint optargs_bitmask xdr_args ;;
  if serial =? -1 then trace_return_error name ;;; ret (-1, None) else
  sent <- (match filein with Some f => stub_send_file name f | None => ret (inr tt) end) ;;
  match sent with
  | inl _ => ret (-1, None)
  | inr _ =>
      let* (r, ret_v) := stub_reply name proc_nr serial xdr_ret in
      if r =? -1 then ret (-1, None) else
      r <- (match fileout with Some f => stub_recv_file name f | None => ret 0 end) ;;
      if r =? -1 then ret (-1, None) else
      trace_line (name +:+ " = " +:+ show ret_v) ;;; ret (0, ret_v)
  end.

End stubs.

(** guestfs_<name> for a procedure of the daemon. *)
Definition daemon_stub {C A} `{ConnOps C} string_to_errno errcode (name args : string)
    (proc_nr progress_hint optargs_bitmask : Z) (xdr_args : option (xenc -> option xenc))
    (filein fileout : option string) (xdr_ret : option (list byte -> option (A * list byte)))
    (show : option A -> string) : M (lib C) (Z * option A) := fun l =>
  let trace_flag := trace (g_cfg (l_g l)) in
  (on_g (fun g => guestfs___call_callbacks_message g GUESTFS_EVENT_ENTER (bytes_of_string name)) ;;;
   trace_line trace_flag (name +:+ args) ;;;
   stub_body string_to_errno trace_flag errcode name proc_nr progress_hint optargs_bitmask xdr_args
     filein fileout xdr_ret show) l.

Lemma quiet_traced_error tf name g msg : quiet g (if tf : bool then guestfs___trace g (name +:+ msg) else g).
Proof. destruct tf; [apply quiet_call_callbacks_message|auto with guestfs]. Qed.
Lemma quiet_traced tf g msg :
  quiet g (if tf : bool then guestfs___call_callbacks_message g GUESTFS_EVENT_TRACE msg else g).
Proof. destruct tf; auto with guestfs. Qed.
Lemma quiet_report_reply_error s2e name e g : quiet g (report_reply_error s2e name e g).
Proof. unfold report_reply_error. case_if; auto with guestfs. Qed.

(** The daemon's stub (generator/daemon.ml) of a procedure without optional
    arguments or files that is always available: refuse a bitmask, decode,
    call, reply.  [f] is do_X: the errno and message it gives
    reply_with_error_errno, or its result. *)
Definition serve {A B} `{XdrCodec A} `{XdrCodec B} (f : A -> (Z * list byte) + B)
    (s : list byte) : dm unit := fun d =>
  if negb (d_optargs_bitmask d =? 0) then
    reply_with_error ("header optargs_bitmask field must be passed as 0 for calls that " +:+
                      "don't take optional arguments") d
  else
  match xdr_get (A := A) s with
  | None => reply_with_error "daemon failed to decode procedure arguments" d
  | Some (a, _) =>
      match f a with
      | inl (errnum, msg) => reply_with_error_errno errnum msg d
      | inr b => DaemonProto.reply (Some (xdr_put b)) d
      end
  end.

(** * Feeding *)

Section feed.
Context {C : Type} `{ConnFeed C}.

Definition lib_feed (bs : list byte) (l : lib C) : lib C :=
  l <| l_conn ::= fmap (conn_feed bs) |>.

Lemma lib_feed_healthy bs l : lib_healthy l -> lib_healthy (lib_feed bs l).
Proof. unfold lib_healthy, lib_feed. destruct l as [g [c|] io]; cbn; [apply conn_feed_healthy|done]. Qed.
Lemma lib_feed_inbox bs l : lib_healthy l -> lib_inbox (lib_feed bs l) = lib_inbox l ++ bs.
Proof. unfold lib_healthy, lib_feed, lib_inbox. destruct l as [g [c|] io]; cbn; [apply conn_feed_inbox|done]. Qed.
Lemma lib_feed_io bs l : l_io (lib_feed bs l) = l_io l.
Proof. done. Qed.

(** What [l'] has handed over since [l]. *)
Definition lib_sent_since (l l' : lib C) : list byte := drop (length (lib_outbox l)) (lib_outbox l').
Definition d_sent_since (d d' : daemon) : list byte := drop (length (d_sent d)) (d_sent d').

Lemma lib_sent_since_app l l' bs : lib_outbox l' = lib_outbox l ++ bs -> lib_sent_since l l' = bs.
Proof. unfold lib_sent_since. intros ->. apply drop_app_length. Qed.
Lemma d_sent_since_app d d' bs : d_sent d' = d_sent d ++ bs -> d_sent_since d d' = bs.
Proof. unfold d_sent_since. intros ->. apply drop_app_length. Qed.

(** ** Replies match requests *)

Lemma reply_header_typed d st : d_healthy d -> is_s32 st -> header_typed (reply_header d st).
Proof. intros [] ?. split_and!; cbn; try done; apply u32_bound. Qed.

Lemma check_reply_header_ok d st proc serial (l : lib C) :
  d_proc_nr d = proc -> d_serial d = serial ->
  guestfs___check_reply_header (reply_header d st) proc serial l = (Ret 0, l).
Proof.
  intros <- <-. unfold guestfs___check_reply_header, reply_header. cbn [hdr_prog hdr_vers hdr_direction hdr_proc hdr_serial].
  by rewrite !Z.eqb_refl.
Qed.

(** The reply half of a stub on an [ok_reply] and on an [error_reply]. *)
Lemma stub_reply_ok {A} s2e tf ec name (get : option (list byte -> option (A * list byte))) d body v ps rest (l : lib C) :
  lib_healthy l -> d_healthy d -> Forall progress_typed ps ->
  zlength body <= GUESTFS_MESSAGE_MAX - 40 ->
  lib_inbox l = progress_frames ps ++ ok_reply d body ++ rest ->
  (match get with None => v = None | Some g => exists x t, g body = Some (x, t) /\ v = Some x end) ->
  exists l', stub_reply s2e tf ec name (d_proc_nr d) (d_serial d) get l = (Ret (0, v), l') /\
    exch_io (progress_frames ps ++ ok_reply d body) [] l l'.
Proof.
  intros Hh Hd Hps Hb Hi Hget. unfold stub_reply.
  destruct (recv_spec name get [] ps (reply_header d GUESTFS_STATUS_OK) body rest l
    (mk_reply (reply_header d GUESTFS_STATUS_OK) zero_error v)) as (l' & E & X); try done.
  - by apply reply_header_typed.
  - unfold message_ok. rewrite zlength_app, zlength_header_wire. pose proof (zlength_nonneg body). lia.
  - unfold decode_reply. cbn [hdr_status reply_header]. change (GUESTFS_STATUS_OK =? GUESTFS_STATUS_ERROR) with false.
    cbn iota. destruct get as [g|]; [|by subst]. destruct Hget as (x & t & -> & ->). done.
  - exists l'. mstep E. cbn [Z.eqb reply_hdr].
    rewrite (bind_Ret _ _ _ _ _ (check_reply_header_ok d GUESTFS_STATUS_OK _ _ l' eq_refl eq_refl)). by split.
Qed.

Lemma stub_reply_error {A} s2e tf ec name (get : option (list byte -> option (A * list byte))) d e segs ps rest (l : lib C) :
  lib_healthy l -> d_healthy d -> Forall (Forall progress_typed) segs -> Forall progress_typed ps ->
  error_fits e = true -> lib_inbox l = stray segs ++ progress_frames ps ++ error_reply d e ++ rest ->
  exists l', stub_reply s2e tf ec name (d_proc_nr d) (d_serial d) get l = (Ret (-1, None), l') /\
    exch_io (stray segs ++ progress_frames ps ++ error_reply d e) [] l l' /\
    guestfs_last_error (l_g l') = Some (name +:+ ": " +:+ string_of_bytes (error_message e)).
Proof.
  intros Hh Hd Hsegs Hps He Hi. unfold stub_reply. pose proof (zlength_error_wire e He).
  destruct (recv_spec name get segs ps (reply_header d GUESTFS_STATUS_ERROR) (error_wire e) rest l
    (mk_reply (reply_header d GUESTFS_STATUS_ERROR) e None)) as (l' & E & X); try done.
  - by apply reply_header_typed.
  - unfold message_ok. rewrite zlength_app, zlength_header_wire. pose proof (zlength_nonneg (error_wire e)).
    unfold GUESTFS_ERROR_LEN, GUESTFS_MESSAGE_MAX in *. lia.
  - unfold decode_reply. cbn [hdr_status reply_header]. change (GUESTFS_STATUS_ERROR =? GUESTFS_STATUS_ERROR) with true.
    cbn iota. rewrite <- (app_nil_r (error_wire e)), error_get by done. done.
  - mstep E. cbn [Z.eqb reply_hdr].
    rewrite (bind_Ret _ _ _ _ _ (check_reply_header_ok d GUESTFS_STATUS_ERROR _ _ l' eq_refl eq_refl)).
    cbn [Z.eqb hdr_status reply_header]. change (GUESTFS_STATUS_ERROR =? GUESTFS_STATUS_ERROR) with true. cbn iota.
    eexists. split; [reflexivity|]. split.
    + pose proof (exch_io_healthy _ _ _ _ X) as Hh'.
      rewrite <- (app_nil_r (stray segs ++ _)). apply (exch_io_trans _ [] _ [] _ l'); [done|].
      apply (exch_io_trans [] [] [] [] _ (upd l_g (fun g => if tf then guestfs___trace g
        (name +:+ " = " +:+ ec +:+ " (error)") else g) l')); [apply exch_io_g; [exact Hh'|apply quiet_traced_error]|].
      apply exch_io_g; [done|apply quiet_report_reply_error].
    + cbn. unfold report_reply_error. case_if; unfold error, guestfs___error_errno, call_error_cb; cbn;
        by destruct (error_cb _) as [[]|].
Qed.

End feed.

(** * Remote procedure calls *)

Lemma call_header_ok proc serial mask : is_s32 proc -> is_u64 mask -> call_ok (call_header proc serial 0 mask).
Proof. intros Hp Hm. unfold call_ok, header_typed, call_header. cbn. split_and!; try done; apply u32_bound. Qed.

(** What the daemon answers: an error number and a message, or the body of a
    reply, made by an XDR routine and with its bytes. *)
Definition rpc_answer (B : Type) : Type := ((Z * list byte) + (xenc -> option xenc) * list byte * option B)%type.
Definition send_answer {B} (r : rpc_answer B) : dm unit :=
  match r with
  | inl (e, m) => reply_with_error_errno e m
  | inr (put, _, _) => DaemonProto.reply (Some put)
  end.
(** The answer fits in a message, and the stub decodes it. *)
Definition rpc_answer_ok {B} (get : option (list byte -> option (B * list byte))) (r : rpc_answer B) : Prop :=
  match r with
  | inl _ => True
  | inr (put, body, v) =>
      (forall x, put x = xput body x) /\ 40 + zlength body <= GUESTFS_MESSAGE_MAX /\
      match get with None => v = None | Some g => exists x t, g body = Some (x, t) /\ v = Some x end
  end.

Lemma reply_put_spec d (put : xenc -> option xenc) body : (forall x, put x = xput body x) -> d_healthy d ->
  40 + zlength body <= GUESTFS_MESSAGE_MAX ->
  exists d', DaemonProto.reply (Some put) d = (Ret tt, d') /\ dex [] (ok_reply d body) d d' /\
    d_file d' = d_file d /\ d_select d' = d_select d.
Proof.
  intros Hp Hd Hb. unfold DaemonProto.reply. rewrite header_put_room by (unfold GUESTFS_MESSAGE_MAX; lia).
  rewrite Hp, xput_Some by (cbn [x_left]; lia). unfold xdr_getpos. cbn [x_out]. exact (send_frame_spec d _ Hd).
Qed.

(** A remote procedure call, for any dispatch function that gives the answer
    [r] to the request. *)
Lemma rpc_with {C} `{ConnFeed C} {B} s2e tf ec name proc mask put body (get : option (list byte -> option (B * list byte)))
    (dispatch : list byte -> dm unit) (r : rpc_answer B) (l : lib C) (d : daemon) :
  lib_healthy l -> lib_inbox l = [] -> d_healthy d -> d_inbox d = [] ->
  is_s32 proc -> is_s32 (g_msg_next_serial (l_g l)) -> is_u64 mask ->
  (forall x, put x = xput body x) -> 40 + zlength body <= GUESTFS_MESSAGE_MAX ->
  (forall d1, d_optargs_bitmask d1 = mask -> d_proc_nr d1 = proc -> dispatch body d1 = send_answer r d1) ->
  rpc_answer_ok get r ->
  exists serial l1 d1 l2,
    guestfs___send proc 0 mask (Some put) l = (Ret serial, l1) /\
    main_loop_turn dispatch (d_feed (lib_sent_since l l1) d) = (Ret tt, d1) /\
    stub_reply s2e tf ec name proc serial get (lib_feed (d_sent_since d d1) l1) =
      (Ret (match r with inr (_, _, v) => (0, v) | inl _ => (-1, None) end), l2) /\
    lib_inbox l2 = [] /\ lib_healthy l2 /\ d_inbox d1 = [] /\ d_healthy d1 /\
    (forall e m, r = inl (e, m) -> guestfs_last_error (l_g l2) =
       Some (name +:+ ": " +:+ string_of_bytes (truncate_error m))).
Proof.
  intros Hh Hi Hd Hdi Hp Hser Hmask Hput Hlen Hdisp Hr.
  edestruct (fun args => send_spec proc 0 mask args l put [] false) as (x & l1 & E1 & _ & Hx);
    [done|constructor|by rewrite Hi|reflexivity|].
  rewrite Hput, xput_Some in Hx by (cbn [x_left]; lia). cbn [x_out] in Hx.
  destruct Hx as (-> & Hh1 & Ho1 & din & Hi1). rewrite Hi in Hi1.
  symmetry in Hi1. apply app_eq_nil in Hi1 as [-> Hi1].
  set (serial := g_msg_next_serial (l_g l)) in *. set (h := call_header proc serial 0 mask) in *.
  destruct (main_loop_request dispatch h body [] (d_feed (lib_sent_since l l1) d))
    as (d1 & E2 & Hd1 & Hid1 & Hsd1 & _ & _ & Hp1 & Hs1 & _ & Hb1 & _).
  { by apply d_feed_healthy. }
  { by apply call_header_ok. }
  { unfold message_ok. rewrite zlength_app, zlength_header_wire. pose proof (zlength_nonneg body). lia. }
  { by rewrite d_feed_inbox, Hdi, (lib_sent_since_app _ _ _ Ho1), app_nil_r. }
  change (hdr_proc h) with proc in Hp1. change (hdr_optargs_bitmask h) with mask in Hb1.
  rewrite d_feed_sent in Hsd1. rewrite (Hdisp d1 Hb1 Hp1) in E2.
  assert (d_serial d1 = serial) as Hs3 by (rewrite Hs1; cbn; by rewrite s32_u32, s32_id).
  destruct r as [[e m]|[[put' body'] v]]; cbn [send_answer] in E2.
  - destruct (send_error_spec d1 e m Hd1) as (d2 & E2' & X2 & _). destruct X2 as [Xi Xo Xh _ _ _].
    unfold reply_with_error_errno in E2. rewrite E2' in E2. rewrite Hsd1 in Xo.
    destruct (stub_reply_error s2e tf ec name get d1 (error_body d1 e m) [] [] []
      (lib_feed (d_sent_since d d2) l1)) as (l2 & E3 & X3 & Hm);
      [by apply lib_feed_healthy|done|constructor|constructor|by apply error_body_fits|
       by rewrite lib_feed_inbox, Hi1, (d_sent_since_app _ _ _ Xo), app_nil_r|].
    rewrite Hp1, Hs3 in *. exists serial, l1, d2, l2.
    split_and!; [exact E1|exact E2|exact E3| |by eapply exch_io_healthy|by rewrite <- Hid1|done|].
    + eapply exch_io_inbox; [exact X3|]. by rewrite lib_feed_inbox, Hi1, (d_sent_since_app _ _ _ Xo), app_nil_r.
    + intros e' m' [= <- <-]. exact Hm.
  - destruct Hr as (Hput' & Hlen' & Hv).
    destruct (reply_put_spec d1 put' body' Hput' Hd1 Hlen') as (d2 & E2' & X2 & _). destruct X2 as [Xi Xo Xh _ _ _].
    rewrite E2' in E2. rewrite Hsd1 in Xo.
    destruct (stub_reply_ok s2e tf ec name get d1 body' v [] [] (lib_feed (d_sent_since d d2) l1)) as (l2 & E3 & X3);
      [by apply lib_feed_healthy|done|constructor|lia|
       by rewrite lib_feed_inbox, Hi1, (d_sent_since_app _ _ _ Xo), app_nil_r|done|].
    rewrite Hp1, Hs3 in *. exists serial, l1, d2, l2.
    split_and!; [exact E1|exact E2|exact E3| |by eapply exch_io_healthy|by rewrite <- Hid1|done|done].
    eapply exch_io_inbox; [exact X3|]. by rewrite lib_feed_inbox, Hi1, (d_sent_since_app _ _ _ Xo), app_nil_r.
Qed.

(** C5: A remote procedure call works from end to end: for any argument and result types with a
    lawful XDR codec, guestfs___send writes a request which one turn of the daemon's main loop
    decodes and serves, and the reply half of the client stub returns exactly the result of the
    procedure, or -1 with the (truncated) error message of the procedure as the handle's last
    error; both input streams end empty, so the two sides are synchronised for the next call. *)
Theorem rpc_roundtrip {C} `{ConnFeed C} {A B} `{XdrLaws A} `{XdrLaws B} s2e tf ec name proc
    (f : A -> (Z * list byte) + B) (a : A) (l : lib C) (d : daemon) :
  lib_healthy l -> lib_inbox l = [] -> d_healthy d -> d_inbox d = [] ->
  is_s32 proc -> is_s32 (g_msg_next_serial (l_g l)) ->
  xdr_fits a = true -> xdr_typed a -> 40 + zlength (xdr_wire a) <= GUESTFS_MESSAGE_MAX ->
  (forall b, f a = inr b ->
     xdr_fits b = true /\ xdr_typed b /\ 40 + zlength (xdr_wire b) <= GUESTFS_MESSAGE_MAX) ->
  exists serial l1 d1 l2,
    guestfs___send proc 0 0 (Some (xdr_put a)) l = (Ret serial, l1) /\
    main_loop_turn (serve f) (d_feed (lib_sent_since l l1) d) = (Ret tt, d1) /\
    stub_reply s2e tf ec name proc serial (Some (xdr_get (A := B))) (lib_feed (d_sent_since d d1) l1) =
      (Ret (match f a with inr b => (0, Some b) | inl _ => (-1, None) end), l2) /\
    lib_inbox l2 = [] /\ lib_healthy l2 /\ d_inbox d1 = [] /\ d_healthy d1 /\
    (forall e m, f a = inl (e, m) -> guestfs_last_error (l_g l2) =
       Some (name +:+ ": " +:+ string_of_bytes (truncate_error m))).
Proof.
  intros Hh Hi Hd Hdi Hp Hser Hfit Hty Hlen Hres.
  set (r := match f a with
            | inl em => inl em
            | inr b => inr (xdr_put b, xdr_wire b, Some b)
            end : rpc_answer B).
  destruct (rpc_with s2e tf ec name proc 0 (xdr_put a) (xdr_wire a) (Some (xdr_get (A := B))) (serve f) r l d)
    as (serial & l1 & d1 & l2 & E1 & E2 & E3 & ? & ? & ? & ? & Herr); try done.
  - intros x. by rewrite xdr_put_wire, Hfit.
  - intros d1 Hb _. unfold serve. rewrite Hb. cbn [Z.eqb negb].
    rewrite <- (app_nil_r (xdr_wire a)), xdr_get_wire by done. unfold r. by destruct (f a) as [[]|].
  - unfold r. destruct (f a) as [em|b]; [done|]. destruct (Hres b eq_refl) as (Hfb & Htb & Hlb).
    split_and!; [intros x; by rewrite xdr_put_wire, Hfb|done|].
    exists b, []. split; [|done]. rewrite <- (app_nil_r (xdr_wire b)). by apply xdr_get_wire.
  - exists serial, l1, d1, l2. split_and!; try done.
    + rewrite E3. unfold r. by destruct (f a) as [[]|].
    + intros e m Hf. apply (Herr e m). unfold r. by rewrite Hf.
Qed.

(** A procedure that takes and returns a progress structure, for the witness. *)
Definition ex_proc (p : guestfs_progress) : (Z * list byte) + guestfs_progress :=
  if progress_total p =? 0 then inl (22, bytes_of_string "total is zero")
  else inr (mk_progress (progress_proc p) (progress_serial p) (progress_total p) (progress_total p)).

Lemma rpc_roundtrip_witness :
  let l := ex_lib [] [] in let d := ex_daemon [] (ex_file [] []) in
  exists serial l1 d1 l2,
    guestfs___send 282 0 0 (Some (xdr_put ex_progress)) l = (Ret serial, l1) /\
    main_loop_turn (serve ex_proc) (d_feed (lib_sent_since l l1) d) = (Ret tt, d1) /\
    stub_reply (fun _ => 22) true "NULL" "f" 282 serial (Some (xdr_get (A := guestfs_progress)))
        (lib_feed (d_sent_since d d1) l1) =
      (Ret (0, Some (mk_progress 282 0x123400 2 2)), l2).
Proof.
  intros l d.
  destruct (rpc_roundtrip (fun _ => 22) true "NULL" "f" 282 ex_proc ex_progress l d)
    as (serial & l1 & d1 & l2 & E1 & E2 & E3 & _).
  - apply ex_socket_healthy.
  - reflexivity.
  - apply ex_daemon_healthy.
  - reflexivity.
  - split; [discriminate|reflexivity].
  - split; [discriminate|reflexivity].
  - reflexivity.
  - repeat split; discriminate.
  - vm_compute. discriminate.
  - intros b [= <-]. split; [reflexivity|]. split; [repeat split; discriminate|vm_compute; discriminate].
  - exists serial, l1, d1, l2. split; [exact E1|]. split; [exact E2|exact E3].
Defined.

(** * Uploads *)

Lemma up_wire_of_frames ds (r : Z) :
  data_frames ds ++ (if r =? 0 then complete_frame else cancel_frame) =
  up_wire (pair 0%nat <$> ds) 0 (negb (r =? 0)).
Proof.
  unfold up_wire, data_frames. rewrite <- list_fmap_compose. cbn [cancels replicate concat app].
  f_equal. by destruct (r =? 0).
Qed.

Lemma snd_pair_fmap (ds : list (list byte)) : snd <$> (pair 0%nat <$> ds) = ds.
Proof. rewrite <- list_fmap_compose. apply list_fmap_id. Qed.

(** The two procedures that receive a file, and the file after them: do_upload
    replaces a regular file, do_upload_offset writes into it. *)
Definition upload_proc (filename : string) (offset : option Z) : DaemonProto.dm Z :=
  match offset with None => do_upload filename | Some offset => do_upload_offset filename offset end.
Definition uploaded (offset : option Z) (f : guest_file) (bs : list byte) : list byte :=
  match offset with
  | None => if gf_regular f then bs else write_at 0 bs (gf_data f)
  | Some offset => write_at offset bs (gf_data f)
  end.
Lemma upload_proc_spec fn offset items n cancel rest d :
  d_healthy d -> 0 <= default 0 offset -> Forall up_item_ok items -> d_inbox d = up_wire items n cancel ++ rest ->
  exists r d' ps, upload_proc fn offset d = (Ret r, d') /\ Forall progress_typed ps /\ d_inbox d' = rest /\
    (r = 0 /\ cancel = false /\ dex (up_wire items n cancel) (progress_frames ps) d d' /\
       gf_data (d_file d') = uploaded offset (d_file d) (concat (snd <$> items)) \/
     r = -1 /\ ~ (guest_upload_good (default 0 offset) (d_file d) /\ cancel = false) /\
       exists cancelled e, error_fits e = true /\
         dex (up_wire items n cancel) (failed_upload d ps cancelled e) d d').
Proof.
  intros Hd Hp Hit Hi. destruct offset as [offset|]; cbn [upload_proc default uploaded] in *.
  - unfold do_upload_offset. destruct (Z.ltb_spec offset 0); [cbn in Hp; lia|]. by apply upload_spec.
  - unfold do_upload.
    match goal with |- context [upload fn ?flags 0 d] => destruct (upload_spec fn flags 0 items n cancel rest d)
      as (r & d' & ps & E & T & Hi' & Hr) end; [done..|].
    exists r, d', ps. split_and!; [done..|]. destruct Hr as [(Hr & Hc & X & Hdata)|Hr]; [left|by right].
    split_and!; [done..|]. rewrite Hdata. unfold upload_content.
    change (is_true _ && gf_regular (d_file d)) with (gf_regular (d_file d)).
    destruct (gf_regular (d_file d)); [apply write_at_start|done].
Qed.



(** * Downloads *)

(** C7: Downloading a file, when the opens, reads, writes and closes on both sides succeed and
    nobody cancels: the reply, progress messages and chunks that do_download writes are read
    back by the client stub, which returns 0 with the local file holding exactly the content of
    the guest file, whatever it held before, nothing left unread on either side and nothing sent
    back. *)
Theorem download_end_to_end {C} `{ConnFeed C} s2e tf ec name gfn fn (l : lib C) (d : daemon) :
  lib_healthy l -> lib_inbox l = [] -> d_healthy d -> cancel_state false [] d ->
  guest_download_good gfn (d_file d) -> local_download_good (l_io l) ->
  exists d' l', do_download gfn d = (Ret 0, d') /\
    stub_download s2e tf ec name (d_proc_nr d) (d_serial d) fn (lib_feed (d_sent_since d d') l) = (Ret 0, l') /\
    lib_inbox l' = [] /\ lib_outbox l' = lib_outbox (lib_feed (d_sent_since d d') l) /\ lib_healthy l' /\
    d_inbox d' = [] /\
    io_data (l_io l') = file_content (gf_read (d_file d)).
Proof.
  intros Hh Hi Hd Hcs Hgg Hlg.
  destruct (do_download_spec gfn false [] d Hd Hcs) as (r & d' & E & Hend).
  destruct Hend as [e _ Hb _|items ps Hit Hps Hc X|items ps _ _ Hb _|items ps _ _ ? _ _]; try done.
  pose proof (dx_out _ _ _ _ X) as Ho. pose proof (dx_in _ _ _ _ X) as Hin. cbn in Hin.
  rewrite (cs_inbox _ _ _ Hcs) in Hin. cbn in Hin.
  set (l1 := lib_feed (d_sent_since d d') l).
  assert (lib_inbox l1 = progress_frames [] ++ ok_reply d [] ++ down_wire items ps (mk_chunk 0 [])) as Hi1.
  { unfold l1. rewrite lib_feed_inbox, Hi, (d_sent_since_app _ _ _ Ho) by done. done. }
  exists d'. unfold stub_download.
  destruct (stub_reply_ok (A := unit) s2e tf ec name None d [] None [] (down_wire items ps (mk_chunk 0 [])) l1)
    as (l2 & E2 & X2); [by apply lib_feed_healthy|done|constructor|done|exact Hi1|done|].
  mstep E2. cbn [Z.eqb]. destruct X2 as [X2 Hio _].
  assert (lib_inbox l2 = down_wire items ps (mk_chunk 0 []) ++ []) as Hi2.
  { rewrite app_nil_r. eapply exch_inbox; [exact X2|]. exact Hi1. }
  destruct (recv_file_spec fn items ps (mk_chunk 0 []) [] l2) as (r & l3 & dout & E3 & X3 & Hr);
    [by destruct X2|done|done|by split_and!|done|]. unfold stub_recv_file. mstep E3.
  destruct Hr as [(-> & -> & _ & Hdata)|(-> & _ & Hb)].
  2: { destruct Hb. split; [|done]. rewrite Hio. exact Hlg. }
  exists l3. split_and!; [done|done| | |by destruct X3|done|].
  - eapply exch_inbox; [exact X3|done].
  - destruct X2 as [_ Ho2 _ _], X3 as [_ Ho3 _ _]. by rewrite Ho3, Ho2, !app_nil_r.
  - by rewrite Hdata, Hc.
Qed.

Lemma download_end_to_end_witness :
  let l := (ex_lib [] []) <| l_io; io_data := [x7a] |> in
  let d := ex_daemon [] (ex_file [RdData [x61; x62]; RdData [x63]] []) in
  exists d' l', do_download "/f" d = (Ret 0, d') /\
    stub_download (fun _ => 0) true "-1" "download" 5 0x123400 "f" (lib_feed (d_sent_since d d') l) = (Ret 0, l') /\
    io_data (l_io l') = [x61; x62; x63].
Proof.
  intros l d.
  destruct (download_end_to_end (fun _ => 0) true "-1" "download" "/f" "f" l d) as (d' & l' & E1 & E2 & _ & _ & _ & _ & Hd).
  - apply ex_socket_healthy.
  - reflexivity.
  - apply ex_daemon_healthy.
  - split; [reflexivity|]. intros _. constructor.
  - split; [reflexivity|split; reflexivity|reflexivity|repeat constructor|reflexivity].
  - split; [reflexivity|constructor|reflexivity|constructor].
  - exists d', l'. split; [exact E1|]. split; [exact E2|exact Hd].
Defined.

(** * Every stub, on every connection *)

Section safe.
Context {C : Type} `{ConnLaws C}.
Implicit Types l : lib C.

Lemma hoare_up_report {A} l0 (m : M (lib C) unit) f (a : A) (P : lib C -> Prop) : m = on_g f ->
  (forall l, P l -> evolves l0 l) -> (forall g, quiet g (f g)) ->
  hoare P (m ;;; ret a) (fun x l => x = a /\ evolves l0 l).
Proof.
  intros -> HP Hf. eapply hoare_bind; [eapply hoare_pre; [apply (hoare_on_g (evolves l0)); [|done]|exact HP]|].
  - intros l g Hl Hq. by apply (evolves_g l0).
  - intros ?. by apply hoare_ret.
Qed.

(** The result -1 may have lost the connection. *)
Definition ended {A} (l0 : lib C) (x : Z * A) l : Prop := evolves l0 l /\ (fst x <> -1 -> online l).

Lemma hoare_traced_error {A} l0 tf ec name (a : A) (P : lib C -> Prop) : (forall l, P l -> evolves l0 l) ->
  hoare P (trace_return_error tf ec name ;;; ret (-1, a)) (ended l0).
Proof.
  intros HP. eapply hoare_post; [eapply hoare_up_report; [reflexivity|exact HP|intros; apply quiet_traced_error]|].
  intros x l [-> ?]. by split.
Qed.

Lemma check_reply_header_on_g hdr proc serial l :
  exists r f, guestfs___check_reply_header hdr proc serial l = (Ret r, upd l_g f l) /\ (forall g, quiet g (f g)).
Proof.
  unfold guestfs___check_reply_header.
  repeat (case_if; [eexists _, (fun g => error g _); split; [reflexivity|auto with guestfs]|]).
  exists 0, (fun g => g). split; [by destruct l|auto with guestfs].
Qed.

Lemma hoare_stub_reply {A} l0 s2e tf ec name proc serial (get : option (list byte -> option (A * list byte))) :
  hoare (evolves l0) (stub_reply s2e tf ec name proc serial get) (ended l0).
Proof.
  eapply hoare_bind; [apply (hoare_any' l0 _ fst); intros; apply hoare_recv|]. intros [r rep]. cbn beta iota.
  destruct (Z.eqb_spec r (-1)) as [->|Hr]; [apply hoare_traced_error; by intros l []|].
  eapply (hoare_pre _ (up l0)); [|intros l [? Hon]; split; [done|by apply Hon]].
  apply (hoare_bind _ _ (fun _ => up l0)).
  { intros l Hl. destruct (check_reply_header_on_g (reply_hdr rep) proc serial l) as (r' & f & -> & Hf).
    by apply up_g. }
  intros r'. apply hoare_if; intros _; [apply hoare_traced_error; by intros l []|].
  apply hoare_if; intros _; [|by apply hoare_ret; intros l []].
  eapply hoare_bind; [apply (hoare_on_g (up l0)); [apply up_g|intros; apply quiet_traced_error]|]. intros ?.
  eapply hoare_post; [eapply hoare_up_report; [reflexivity|by intros l [He _]; exact He|]|].
  - intros g. apply quiet_report_reply_error.
  - intros x l [-> ?]. by split.
Qed.

Lemma hoare_stub_recv_file l0 tf ec name fn :
  hoare (up l0) (stub_recv_file tf ec name fn) (fun _ => evolves l0).
Proof.
  eapply hoare_bind; [apply hoare_recv_file|]. intros r. apply hoare_if; intros _; [|by apply hoare_ret].
  eapply hoare_post; [eapply (hoare_up_report l0); [reflexivity|done|intros; apply quiet_traced_error]|].
  by intros a l [].
Qed.

Lemma hoare_stub_send_file l0 tf ec name fn :
  hoare (up l0) (stub_send_file tf ec name fn) (fun _ => evolves l0).
Proof.
  eapply hoare_bind; [apply hoare_send_file|]. intros r. apply hoare_if; intros _; [|by apply hoare_ret].
  eapply hoare_bind; [apply (hoare_on_g (evolves l0)); [apply evolves_g|intros; apply quiet_traced_error]|]. intros ?.
  eapply hoare_bind; [apply (hoare_any' l0 _ id); intros; apply hoare_recv_discard|].
  intros ?. apply hoare_ret. by intros l [].
Qed.

(** The result of a stub: 0, or -1 and no value. *)
Definition stub_done {A} (l0 : lib C) (x : Z * option A) l : Prop :=
  evolves l0 l /\ (fst x = 0 \/ x = (-1, None)).

Lemma hoare_stub_failed {A} l0 tf ec name (P : lib C -> Prop) : (forall l, P l -> evolves l0 l) ->
  hoare P (trace_return_error tf ec name ;;; ret (-1, None)) (stub_done (A := A) l0).
Proof.
  intros HP. eapply hoare_post; [eapply hoare_up_report; [reflexivity|exact HP|intros; apply quiet_traced_error]|].
  intros x l [-> ?]. split; [done|by right].
Qed.

Lemma hoare_stub_body {A} l0 s2e tf ec name proc hint mask xa fi fo
    (xr : option (list byte -> option (A * list byte))) show :
  hoare (evolves l0) (stub_body s2e tf ec name proc hint mask xa fi fo xr show) (stub_done l0).
Proof.
  apply (hoare_bind _ _ (fun _ => evolves l0)).
  { intros l Hl. unfold guestfs___check_appliance_up. destruct (decide _) as [_|_]; [|done].
    revert l Hl. apply (hoare_report (evolves l0)); [apply evolves_g|auto with guestfs]. }
  intros r. apply hoare_if; intros _; [by apply hoare_stub_failed|].
  eapply hoare_bind; [apply (hoare_any' l0 _ id); intros; apply hoare_send|]. intros serial. unfold id.
  destruct (Z.eqb_spec serial (-1)) as [->|Hs]; [apply hoare_stub_failed; by intros l []|].
  eapply (hoare_pre _ (up l0)); [|intros l [? Hon]; split; [done|by apply Hon]].
  apply (hoare_bind _ _ (fun _ => evolves l0)).
  { destruct fi; [apply hoare_stub_send_file|apply hoare_ret; by intros l []]. }
  intros [r1|[]]; [apply hoare_ret; intros l ?; split; [done|by right]|].
  eapply hoare_bind; [apply hoare_stub_reply|]. intros [r2 v]. cbn beta iota.
  destruct (Z.eqb_spec r2 (-1)) as [->|Hr2]; [apply hoare_ret; intros l []; split; [done|by right]|].
  eapply (hoare_pre _ (up l0)); [|intros l [? Hon]; split; [done|by apply Hon]].
  apply (hoare_bind _ _ (fun _ => evolves l0)).
  { destruct fo; [apply hoare_stub_recv_file|apply hoare_ret; by intros l []]. }
  intros r3. apply hoare_if; intros _; [apply hoare_ret; intros l ?; split; [done|by right]|].
  eapply hoare_post; [eapply (hoare_up_report l0); [reflexivity|done|intros; apply quiet_traced]|].
  intros x l [-> ?]. split; [done|by left].
Qed.

Lemma hoare_daemon_stub {A} l0 s2e ec name args proc hint mask xa fi fo
    (xr : option (list byte -> option (A * list byte))) show :
  hoare (evolves l0) (daemon_stub s2e ec name args proc hint mask xa fi fo xr show) (stub_done l0).
Proof.
  intros l Hl. unfold daemon_stub. generalize (trace (g_cfg (l_g l))) as tf. intros tf. revert l Hl.
  eapply hoare_bind; [apply (hoare_on_g (evolves l0)); [apply evolves_g|auto with guestfs]|]. intros ?.
  eapply hoare_bind; [apply (hoare_on_g (evolves l0)); [apply evolves_g|intros; apply quiet_traced]|]. intros ?.
  apply hoare_stub_body.
Qed.

End safe.

(** C9: Every client stub, for any procedure, arguments, files and result, on any lawful
    connection and any state of the handle, whatever the daemon sends: it returns, or waits for
    input that never comes; it never runs out of fuel, fails an assertion or uses a connection
    that is gone. It returns 0, or -1 without a value, and keeps the invariant that a handle
    without a connection is in the CONFIG state. *)
Theorem stub_safe {C} `{ConnLaws C} {A} s2e ec name args proc hint mask xa fi fo
    (xr : option (list byte -> option (A * list byte))) show (l : lib C) :
  let stub := daemon_stub s2e ec name args proc hint mask xa fi fo xr show in
  ((exists r l', stub l = (Ret r, l')) \/ fst (stub l) = Stop Blocked) /\
  (forall r v l', stub l = (Ret (r, v), l') ->
     (r = 0 \/ r = -1 /\ v = None) /\ (conn_inv l -> conn_inv l') /\
     (g_state (l_g l') = READY -> g_state (l_g l) = READY \/ g_state (l_g l) = LAUNCHING)).
Proof.
  intros stub.
  destruct (hoare_returns _ l _ _ (hoare_daemon_stub l s2e ec name args proc hint mask xa fi fo xr show))
    as [Hret Hpost]; [constructor|]. split; [exact Hret|].
  intros r v l' E. destruct (Hpost _ _ E) as [He Hr]. split_and!.
  - destruct Hr as [?|[= -> ->]]; [by left|by right].
  - by apply conn_inv_evolves.
  - by apply ready_evolves.
Qed.
