(* ===== verification/Lifecycle.v ===== *)
(** The life of a handle: guestfs_create, guestfs_shutdown and guestfs_close of
    src/handle.c, guestfs_launch and the state queries of src/launch.c.

    Parameters: the function of the backend that starts the appliance, the
    generated call internal_autosync, and what the C library answers about the
    process and the file system. *)

From S2P Require Import Prelude Xdr Protocol Handle Events Conn LibProto Utils Config.
Local Open Scope Z_scope.

(** * guestfs_create (src/handle.c) *)

Definition GUESTFS_CREATE_NO_ENVIRONMENT : Z := Z.shiftl 1 0.
Definition GUESTFS_CREATE_NO_CLOSE_ON_EXIT : Z := Z.shiftl 1 1.

(** The handle when its fixed defaults have been set. *)
Definition calloc_handle (env : environment) (program_invocation_short_name : option string) :
    guestfs_h :=
  let program :=
    match program_invocation_short_name with
    | Some n => match after_prefix "lt-" n with Some n' => n' | None => n end
    | None => ""
    end in
  let hv := match env_qemu env with Some q => q | None => "false" end in
  guestfs___init_error_handler
    (mk_handle CONFIG
       (mk_config false false true false true false false false false 1 DEFAULT_MEMSIZE
          (env_default_path env) hv None [] program "" None None)
       (mk_errors None 0 None 0 []) [] [] (mk_directories None None None None)
       false (mk_timeval 0 0) 0 0x00123400
       (mk_backend_ops 0 None (fun _ => -1) None None None None) env []).

(** The default backend, or 'direct'. *)
Definition create_backend (default_backend : string) : hm bool :=
  r <- guestfs___set_backend default_backend ;;
  if r =? -1 then
    modify (fun g => guestfs___warning g
      "libguestfs was built with an invalid default backend, using 'direct' instead") ;;;
    r <- guestfs___set_backend "direct" ;;
    if r =? -1
    then modify (fun g => guestfs___warning g "'direct' backend does not work") ;;; ret false
    else ret true
  else ret true.

(** What follows the choice of the backend; [fmt_p] prints the address. *)
Definition create_finish (realpath : string -> Z + string) (stat_isdir : string -> Z + bool)
    (getenv : string -> option string) (fmt_p : Z -> string) (addr flags : Z) : hm unit :=
  (if Z.land flags GUESTFS_CREATE_NO_ENVIRONMENT =? 0
   then api "parse_environment" "" (guestfs__parse_environment realpath stat_isdir getenv)
   else ret 0) ;;;
  (if Z.land flags GUESTFS_CREATE_NO_CLOSE_ON_EXIT =? 0
   then modify (fun g => g <| g_cfg; close_on_exit := true |>) else ret tt) ;;;
  modify (fun g => guestfs___debug g ("create: flags = " +:+ pretty flags +:+ ", handle = " +:+
            fmt_p addr +:+ ", program = " +:+ program (g_cfg g))).

(** [handles] is the global list of the handles to close at exit, by address. *)
Definition guestfs_create_flags (realpath : string -> Z + string) (stat_isdir : string -> Z + bool)
    (getenv : string -> option string) (fmt_p : Z -> string) (default_backend : string)
    (env : environment) (short_name : option string) (addr flags : Z) :
    M (list Z) (option guestfs_h) := fun handles =>
  match create_backend default_backend (calloc_handle env short_name) with
  | (Stop w, _) => (Stop w, handles)
  | (Ret false, _) => (Ret None, handles)
  | (Ret true, g) =>
      match create_finish realpath stat_isdir getenv fmt_p addr flags g with
      | (Stop w, _) => (Stop w, handles)
      | (Ret tt, g) => (Ret (Some g), if Z.land flags GUESTFS_CREATE_NO_CLOSE_ON_EXIT =? 0
                                      then addr :: handles else handles)
      end
  end.

Definition guestfs_create realpath stat_isdir getenv fmt_p default_backend env short_name addr :=
  guestfs_create_flags realpath stat_isdir getenv fmt_p default_backend env short_name addr 0.

(** * State queries (src/launch.c) *)

Definition ENOTSUP : Z := 95.

Definition guestfs__get_pid (g : guestfs_h) : Z * guestfs_h :=
  if decide (g_state g = READY) then
    match bo_get_pid (g_backend_ops g) with
    | None => (-1, guestfs___error_errno g ENOTSUP "the current backend does not support 'get-pid'")
    | Some pid => (pid, g)
    end
  else (-1, error g "get-pid can only be called after launch").

Definition guestfs__max_disks (g : guestfs_h) : Z * guestfs_h :=
  match bo_max_disks (g_backend_ops g) with
  | None => (-1, guestfs___error_errno g ENOTSUP
                   "the current backend does not allow max disks to be queried")
  | Some n => (n, g)
  end.

Definition guestfs__wait_ready (g : guestfs_h) : Z * guestfs_h :=
  if decide (g_state g = READY) then (0, g) else (-1, error g "qemu has not been launched yet").

Definition guestfs__is_config (g : guestfs_h) : Z := bool_int (bool_decide (g_state g = CONFIG)).
Definition guestfs__is_launching (g : guestfs_h) : Z := bool_int (bool_decide (g_state g = LAUNCHING)).
Definition guestfs__is_ready (g : guestfs_h) : Z := bool_int (bool_decide (g_state g = READY)).
Definition guestfs__is_busy (g : guestfs_h) : Z := 0.
Definition guestfs__get_state (g : guestfs_h) : Z := s32 (state_int (g_state g)).

(** * Launch, shutdown and close *)

Section lifecycle.
Context {C : Type} `{ConnOps C}.
Context (mkdtemp : string -> Z + string) (chmod : string -> option Z)
        (umask_text euid_text version_text : string)
        (backend_launch : option string -> M (lib C) Z)
        (guestfs_internal_autosync : M (lib C) Z)
        (recursive_remove_dir : string -> guestfs_h -> guestfs_h)
        (fmt_p : Z -> string).

Definition on_hm {A} (m : hm A) : M (lib C) A := zoom l_g (fun g l => l <| l_g := g |>) m.

#[local] Instance traced_version : Traced unit :=
  {| errcode := "NULL"; show_ret _ := Some "<struct guestfs_version *>" |}.

(** The debugging information of [guestfs__launch]. *)
Definition launch_debug : hm unit := fun g =>
  let dbg (s : string) : hm unit := modify (fun g => guestfs___debug g s) in
  if verbose (g_cfg g) then
    (api "version" "" (ret tt) ;;;
     backend <- guestfs_get_backend ;;
     dbg ("launch: program=" +:+ program (g_cfg g)) ;;;
     dbg ("launch: version=" +:+ version_text) ;;;
     (fix each (bs : list (string * backend_ops)) : hm unit :=
        match bs with
        | [] => ret tt
        | b :: bs' => dbg ("launch: backend registered: " +:+ fst b) ;;; each bs'
        end) (env_backends (g_env g)) ;;;
     dbg ("launch: backend=" +:+ default "" backend) ;;;
     dbg ("launch: tmpdir=" +:+ default "" (tmpdir (g_dirs g))) ;;;
     dbg ("launch: umask=0" +:+ umask_text) ;;;
     dbg ("launch: euid=" +:+ euid_text)) g
  else (Ret tt, g).

Definition guestfs__launch : M (lib C) Z := fun l =>
  if decide (g_state (l_g l) = CONFIG) then
    (on_g (fun g => let '(t, g) := gettimeofday g in g <| g_launch_t := t |>) ;;;
     r <- on_hm (guestfs___lazy_make_tmpdir mkdtemp) ;;
     if r =? -1 then ret (-1) else
     on_g (fun g =>
       let dir := default "" (tmpdir (g_dirs g)) in
       match chmod dir with
       | Some e => guestfs___warning g
           ("chmod: " +:+ dir +:+ ": " +:+ env_strerror (g_env g) e +:+ " (ignored)")
       | None => g
       end) ;;;
     on_hm launch_debug ;;;
     arg <- gets (fun l => backend_arg (g_cfg (l_g l))) ;;
     r <- backend_launch arg ;;
     if r =? -1 then ret (-1) else ret 0) l
  else (on_g (fun g => error g "the libguestfs handle has already been launched") ;;; ret (-1)) l.

Definition shutdown_backend (check_for_errors : Z) : M (lib C) Z := fun l =>
  if decide (g_state (l_g l) = CONFIG) then (Ret 0, l) else
  (r1 <- (if autosync (g_cfg (l_g l)) && bool_decide (g_state (l_g l) = READY)
          then guestfs_internal_autosync else ret 0) ;;
   r2 <- gets (fun l => bo_shutdown (g_backend_ops (l_g l)) check_for_errors) ;;
   modify (fun l => l <| l_conn := None |>) ;;;
   on_g guestfs___free_drives ;;;
   on_g (fun g => g <| g_state := CONFIG |>) ;;;
   ret (if (r1 =? -1) || (r2 =? -1) then -1 else 0)) l.

Definition guestfs__shutdown : M (lib C) Z := shutdown_backend 1.
Definition guestfs__kill_subprocess : M (lib C) Z := guestfs__shutdown.

Definition guestfs___remove_tmpdir (g : guestfs_h) : guestfs_h :=
  match tmpdir (g_dirs g) with Some d => recursive_remove_dir d g | None => g end.

(** [for (gg = &handles; *gg != g; gg = &( *gg)->next) ;] and the unlinking;
    a handle that is not on the list would run off its end. *)
Fixpoint unlink_handle (addr : Z) (handles : list Z) : option (list Z) :=
  match handles with
  | [] => None
  | h :: rest => if h =? addr then Some rest else cons h <$> unlink_handle addr rest
  end.

Definition global (A : Type) : Type := M (list Z * lib C) A.
Definition on_lib {A} (m : M (lib C) A) : global A := zoom snd (fun l w => (fst w, l)) m.

(** [guestfs_close] once the handle is off the list. *)
Definition close_body (addr : Z) : M (lib C) unit := fun l =>
  ((if trace (g_cfg (l_g l))
    then on_g (fun g => guestfs___call_callbacks_message g GUESTFS_EVENT_TRACE (bytes_of_string "close"))
    else ret tt) ;;;
   on_g (fun g => guestfs___debug g ("closing guestfs handle " +:+ fmt_p addr +:+ " (state " +:+
           pretty (s32 (state_int (g_state g))) +:+ ")")) ;;;
   (if bool_decide (g_state (l_g l) = CONFIG) then ret 0 else shutdown_backend 0) ;;;
   on_g (fun g => guestfs___call_callbacks_void g GUESTFS_EVENT_CLOSE) ;;;
   on_g guestfs___remove_tmpdir ;;;
   on_g (fun g => g <| g_state := NO_HANDLE |>) ;;;
   on_g (fun g => g <| g_events := [] |>) ;;;
   on_g guestfs___free_drives ;;;
   on_g (fun g => g <| g_cfg; hv_params := [] |>) ;;;
   on_g (fun g => pop_n (length (error_cb_stack (g_errs g))) g)) l.

Definition guestfs_close (addr : Z) : global unit := fun '(handles, l) =>
  if decide (g_state (l_g l) = NO_HANDLE) then
    (Ret tt, (handles, l <| l_g ::= emit (OutStderr (bytes_of_string
       ("guestfs_close: called twice on the same handle" +:+ newline))) |>))
  else
    match (if close_on_exit (g_cfg (l_g l)) then unlink_handle addr handles else Some handles) with
    | None => (Stop AssertFailed, (handles, l))
    | Some handles => on_lib (close_body addr) (handles, l)
    end.
End lifecycle.

(** * Lemmas *)

Lemma core_message g ev buf : core (guestfs___call_callbacks_message g ev buf) = core g.
Proof. destruct (message_add_out g ev buf) as [os ->]. apply core_add_out. Qed.
Lemma core_debug g s : core (guestfs___debug g s) = core g.
Proof. unfold guestfs___debug. destruct (negb _); [done|apply core_message]. Qed.
Lemma core_warning g s : core (guestfs___warning g s) = core g.
Proof. apply core_message. Qed.
Lemma core_callbacks_void g ev : core (guestfs___call_callbacks_void g ev) = core g.
Proof.
  unfold guestfs___call_callbacks_void. rewrite call_callbacks_from_dispatched. apply core_add_out.
Qed.

(** The handle before a backend was chosen: the invariant without the backend. *)
Record precreated (g : guestfs_h) (env : environment) : Prop := {
  pre_state : g_state g = CONFIG;
  pre_env : g_env g = env;
  pre_memsize : memsize (g_cfg g) = DEFAULT_MEMSIZE;
  pre_smp : smp (g_cfg g) = 1;
  pre_params : hv_params (g_cfg g) = []
}.
Lemma calloc_precreated env n : precreated (calloc_handle env n) env.
Proof. by split. Qed.
Lemma precreated_core g g' env : core g = core g' -> precreated g env -> precreated g' env.
Proof.
  intros E [H1 H2 H3 H4 H5].
  assert (g_state g = g_state g' /\ g_cfg g = g_cfg g' /\ g_env g = g_env g') as (E1 & E2 & E3).
  { split_and!; [apply (f_equal g_state) in E|apply (f_equal g_cfg) in E|apply (f_equal g_env) in E]; exact E. }
  split; congruence.
Qed.

Lemma set_backend_precreated g env method : precreated g env ->
  match find_backend (backend_alias method) (env_backends env) with
  | None => guestfs___set_backend method g = (Ret (-1), g)
  | Some _ => exists g', guestfs___set_backend method g = (Ret 0, g') /\ ok_in CONFIG g' /\
                g_events g' = g_events g /\ g_drives g' = g_drives g
  end.
Proof.
  intros [H1 H2 H3 H4 H5]. unfold guestfs___set_backend. rewrite decide_True by done. rewrite H2.
  destruct (find_backend _ _) as [[arg ops]|] eqn:E; [|done].
  eexists. split_and!; [reflexivity| |done|done]. split; [|done]. split; cbn.
  - rewrite H3. unfold MIN_MEMSIZE, DEFAULT_MEMSIZE. lia.
  - rewrite H4. lia.
  - by rewrite H5.
  - apply backend_alias_not.
  - by rewrite H2.
Qed.

Lemma unlink_handle_spec addr handles :
  match unlink_handle addr handles with
  | None => addr ∉ handles
  | Some hs => exists a b, handles = a ++ addr :: b /\ hs = a ++ b /\ addr ∉ a
  end.
Proof.
  induction handles as [|h hs IH]; cbn; [apply not_elem_of_nil|].
  destruct (Z.eqb_spec h addr) as [->|Hne].
  - exists [], hs. split_and!; [done|done|apply not_elem_of_nil].
  - destruct (unlink_handle addr hs) as [hs'|]; cbn.
    + destruct IH as (a & b & -> & -> & Ha). exists (h :: a), b. split_and!; [done|done|].
      apply not_elem_of_cons. by split.
    + apply not_elem_of_cons. by split.
Qed.

(** * Properties *)

Lemma create_finish_ok realpath stat_isdir getenv fmt_p addr flags g :
  ok_in CONFIG g ->
  exists g', create_finish realpath stat_isdir getenv fmt_p addr flags g = (Ret tt, g') /\ ok_in CONFIG g' /\
    (Z.land flags GUESTFS_CREATE_NO_CLOSE_ON_EXIT = 0 -> close_on_exit (g_cfg g') = true).
Proof.
  intros Hg. unfold create_finish.
  assert (keeps (if Z.land flags GUESTFS_CREATE_NO_ENVIRONMENT =? 0
       then api "parse_environment" "" (guestfs__parse_environment realpath stat_isdir getenv)
       else ret 0)) as Hk.
  { apply keeps_if; intros _; [apply keeps_api, keeps_parse_environment|apply keeps_ret]. }
  destruct (Hk CONFIG g Hg) as (r & g1 & E1 & H1). mstep E1.
  destruct (Z.eqb_spec (Z.land flags GUESTFS_CREATE_NO_CLOSE_ON_EXIT) 0) as [Hf|Hf].
  - rewrite bind_modify. eexists. split; [reflexivity|].
    assert (ok_in CONFIG (g1 <| g_cfg; close_on_exit := true |>)) as H2.
    { destruct H1 as [[] ?]. by split; [split|]. }
    split; [eapply ok_in_core; [symmetry; apply core_debug|exact H2]|].
    intros _. match goal with |- close_on_exit (g_cfg ?x) = true =>
      change (close_on_exit (g_cfg (core x)) = true) end. by rewrite core_debug.
  - eexists. split; [reflexivity|]. split; [|done].
    eapply ok_in_core; [symmetry; apply core_debug|exact H1].
Qed.

Lemma create_backend_spec default_backend g env : precreated g env ->
  let found m := find_backend (backend_alias m) (env_backends env) in
  exists g', match found default_backend, found "direct" with
             | None, None => create_backend default_backend g = (Ret false, g')
             | _, _ => create_backend default_backend g = (Ret true, g') /\ ok_in CONFIG g'
             end.
Proof.
  intros Hp. cbv zeta. unfold create_backend.
  pose proof (set_backend_precreated _ env default_backend Hp) as Hd.
  destruct (find_backend (backend_alias default_backend) (env_backends env)) as [b|].
  - destruct Hd as (g1 & E1 & H1 & _). mstep E1. exists g1. done.
  - mstep Hd. change (-1 =? -1) with true. cbn iota. rewrite bind_modify.
    match goal with |- context [guestfs___warning g ?m] =>
      pose proof (precreated_core _ _ env (eq_sym (core_warning g m)) Hp) as Hp2 end.
    pose proof (set_backend_precreated _ env "direct" Hp2) as Hd2.
    destruct (find_backend (backend_alias "direct") (env_backends env)) as [b|].
    + destruct Hd2 as (g1 & E1 & H1 & _). mstep E1. exists g1. done.
    + mstep Hd2. by eexists.
Qed.

(** guestfs_create_flags fails exactly when neither the default backend nor direct exists;
    otherwise it gives a well-formed handle in the CONFIG state whatever the environment holds,
    linked on the global list exactly when the flags do not forbid it. *)
Theorem create_flags_ok realpath stat_isdir getenv fmt_p default_backend env short_name addr flags handles :
  let found m := find_backend (backend_alias m) (env_backends env) in
  match found default_backend, found "direct" with
  | None, None =>
      guestfs_create_flags realpath stat_isdir getenv fmt_p default_backend env short_name addr flags handles =
      (Ret None, handles)
  | _, _ =>
      exists g, guestfs_create_flags realpath stat_isdir getenv fmt_p default_backend env short_name addr flags
                  handles =
        (Ret (Some g), if Z.land flags GUESTFS_CREATE_NO_CLOSE_ON_EXIT =? 0 then addr :: handles else handles) /\
        config_ok g /\ g_state g = CONFIG /\
        (Z.land flags GUESTFS_CREATE_NO_CLOSE_ON_EXIT = 0 -> close_on_exit (g_cfg g) = true)
  end.
Proof.
  cbv zeta. unfold guestfs_create_flags.
  destruct (create_backend_spec default_backend _ env (calloc_precreated env short_name)) as (g1 & H).
  cbv zeta in H.
  assert (create_backend default_backend (calloc_handle env short_name) = (Ret true, g1) /\
    ok_in CONFIG g1 -> exists g,
    match create_backend default_backend (calloc_handle env short_name) with
    | (Stop w, _) => (Stop w, handles)
    | (Ret false, _) => (Ret None, handles)
    | (Ret true, g) =>
        match create_finish realpath stat_isdir getenv fmt_p addr flags g with
        | (Stop w, _) => (Stop w, handles)
        | (Ret tt, g) => (Ret (Some g), if Z.land flags GUESTFS_CREATE_NO_CLOSE_ON_EXIT =? 0
                                        then addr :: handles else handles)
        end
    end = (Ret (Some g), if Z.land flags GUESTFS_CREATE_NO_CLOSE_ON_EXIT =? 0
                         then addr :: handles else handles) /\
    config_ok g /\ g_state g = CONFIG /\
    (Z.land flags GUESTFS_CREATE_NO_CLOSE_ON_EXIT = 0 -> close_on_exit (g_cfg g) = true)) as Hok.
  { intros [E1 H1]. rewrite E1.
    destruct (create_finish_ok realpath stat_isdir getenv fmt_p addr flags g1 H1) as (g2 & E2 & [H2 S2] & F2).
    rewrite E2. eauto 10. }
  destruct (find_backend (backend_alias default_backend) (env_backends env)), (find_backend (backend_alias "direct") (env_backends env));
    [by apply Hok..|]. by rewrite H.
Qed.

Section lifecycle_properties.
Context {C : Type} `{ConnOps C}.
Context (mkdtemp : string -> Z + string) (chmod : string -> option Z)
        (umask_text euid_text version_text : string)
        (backend_launch : option string -> M (lib C) Z)
        (guestfs_internal_autosync : M (lib C) Z)
        (recursive_remove_dir : string -> guestfs_h -> guestfs_h)
        (fmt_p : Z -> string).

(** The call of the daemon before the shutdown. *)
Definition synced (l : lib C) : M (lib C) Z :=
  if autosync (g_cfg (l_g l)) && bool_decide (g_state (l_g l) = READY)
  then guestfs_internal_autosync else ret 0.

Lemma shutdown_backend_spec check (l : lib C) r l1 :
  synced l l = (Ret r, l1) -> g_state (l_g l) <> CONFIG ->
  shutdown_backend guestfs_internal_autosync check l =
    (Ret (if (r =? -1) || (bo_shutdown (g_backend_ops (l_g l1)) check =? -1) then -1 else 0),
     l1 <| l_conn := None |> <| l_g; g_drives := [] |> <| l_g; g_state := CONFIG |>).
Proof.
  intros E Hs. unfold shutdown_backend. rewrite decide_False by done. fold (synced l). by mstep E.
Qed.

(** guestfs_shutdown always returns the handle to the CONFIG state with no drives and no
    connection, reports an error exactly when the sync or the backend's shutdown failed, and is
    idempotent. *)
Theorem shutdown_resets check (l : lib C) r l1 :
  synced l l = (Ret r, l1) ->
  (g_state (l_g l) = CONFIG -> g_drives (l_g l) = [] /\ l_conn l = None) ->
  exists r' l', shutdown_backend guestfs_internal_autosync check l = (Ret r', l') /\
    g_state (l_g l') = CONFIG /\ g_drives (l_g l') = [] /\ l_conn l' = None /\
    (r' = 0 \/ r' = -1) /\
    (g_state (l_g l) <> CONFIG ->
       (r' = -1 <-> r = -1 \/ bo_shutdown (g_backend_ops (l_g l1)) check = -1)) /\
    shutdown_backend guestfs_internal_autosync check l' = (Ret 0, l').
Proof.
  intros E Hc. destruct (decide (g_state (l_g l) = CONFIG)) as [Hs|Hs].
  - destruct (Hc Hs). exists 0, l. unfold shutdown_backend. rewrite decide_True by done. split_and!; auto. done.
  - rewrite (shutdown_backend_spec check l r l1 E Hs). eexists _, _. split; [reflexivity|].
    split_and!; [done|done|done|case_if; auto| |done].
    intros _. destruct (Z.eqb_spec r (-1)), (Z.eqb_spec (bo_shutdown (g_backend_ops (l_g l1)) check) (-1));
      cbn; split; intros; auto; lia.
Qed.

Lemma pop_n_all n g : length (error_cb_stack (g_errs g)) = n ->
  error_cb_stack (g_errs (pop_n n g)) = [] /\ core (pop_n n g) = core g.
Proof.
  revert g. induction n as [|n IH]; intros g Hn.
  - split; [|done]. cbn. by apply nil_length_inv.
  - cbn [pop_n]. unfold guestfs_pop_error_handler.
    destruct (error_cb_stack (g_errs g)) as [|[cb d] st] eqn:E; [done|].
    match goal with |- context [pop_n n ?x] => destruct (IH x) as [H1 H2] end.
    { cbn. by injection Hn. }
    split; [done|]. rewrite H2. by destruct g.
Qed.

(** The last steps of the close, from the close callbacks on. *)
Lemma close_tail (l : lib C) : (forall d g, core (recursive_remove_dir d g) = core g) ->
  exists l', (on_g (fun g => guestfs___call_callbacks_void g GUESTFS_EVENT_CLOSE) ;;;
   on_g (guestfs___remove_tmpdir recursive_remove_dir) ;;;
   on_g (fun g => g <| g_state := NO_HANDLE |>) ;;;
   on_g (fun g => g <| g_events := [] |>) ;;;
   on_g guestfs___free_drives ;;;
   on_g (fun g => g <| g_cfg; hv_params := [] |>) ;;;
   on_g (fun g => pop_n (length (error_cb_stack (g_errs g))) g)) l = (Ret tt, l') /\
  g_state (l_g l') = NO_HANDLE /\ g_events (l_g l') = [] /\ g_drives (l_g l') = [] /\
  error_cb_stack (g_errs (l_g l')) = [] /\ l_conn l' = l_conn l.
Proof.
  intros Hrm. unfold on_g. rewrite !bind_modify. eexists. split; [reflexivity|].
  cbn [upd upd_l_g l_g l_conn].
  match goal with |- context [pop_n ?n ?x] => destruct (pop_n_all n x eq_refl) as [H1 H2] end.
  pose proof (f_equal g_state H2) as Es. pose proof (f_equal g_events H2) as Ee. pose proof (f_equal g_drives H2) as Ed.
  split_and!; [exact Es|exact Ee|exact Ed|exact H1|done].
Qed.

Lemma close_body_spec addr (l : lib C) :
  (forall l0, exists r0 l0', guestfs_internal_autosync l0 = (Ret r0, l0')) ->
  (forall d g, core (recursive_remove_dir d g) = core g) ->
  exists l', close_body guestfs_internal_autosync recursive_remove_dir fmt_p addr l = (Ret tt, l') /\
    g_state (l_g l') = NO_HANDLE /\ g_events (l_g l') = [] /\ g_drives (l_g l') = [] /\
    error_cb_stack (g_errs (l_g l')) = [] /\ (g_state (l_g l) <> CONFIG -> l_conn l' = None).
Proof.
  intros Hsync Hrm. unfold close_body.
  set (pre := if trace (g_cfg (l_g l)) then _ else _).
  assert (exists l1, pre l = (Ret tt, l1) /\ g_state (l_g l1) = g_state (l_g l)) as (l1 & E1 & S1).
  { unfold pre. destruct (trace (g_cfg (l_g l))); [|by exists l]. eexists. split; [reflexivity|].
    apply (f_equal g_state (core_message _ _ _)). }
  mstep E1. unfold on_g at 1. rewrite bind_modify. set (l2 := upd l_g _ l1).
  assert (g_state (l_g l2) = g_state (l_g l)) as S2.
  { rewrite <- S1. apply (f_equal g_state (core_debug _ _)). }
  case_bool_decide as Hs.
  - rewrite (bind_Ret _ _ _ _ _ (eq_refl (Ret 0, l2))).
    destruct (close_tail l2 Hrm) as (l' & E & H1 & H2 & H3 & H4 & H5). exists l'. split_and!; done.
  - assert (exists r l3, synced l2 l2 = (Ret r, l3)) as (r & l3 & E3).
    { unfold synced. destruct (_ && _); [apply Hsync|by eexists _, _]. }
    rewrite (bind_Ret _ _ _ _ _ (shutdown_backend_spec 0 l2 r l3 E3 ltac:(congruence))).
    match goal with |- context [_ ?x = (Ret tt, _)] =>
      destruct (close_tail x Hrm) as (l' & E & H1 & H2 & H3 & H4 & H5) end.
    exists l'. split_and!; done.
Qed.

(** guestfs_close returns, unlinks exactly this handle from the global list, and leaves it
    dead with no events, drives or error handlers; a second close changes nothing in the list.
    *)
Theorem close_handle addr handles (l : lib C) :
  g_state (l_g l) <> NO_HANDLE ->
  (close_on_exit (g_cfg (l_g l)) = true -> addr ∈ handles) ->
  (forall l0, exists r0 l0', guestfs_internal_autosync l0 = (Ret r0, l0')) ->
  (forall d g, core (recursive_remove_dir d g) = core g) ->
  exists handles' l',
    guestfs_close guestfs_internal_autosync recursive_remove_dir fmt_p addr (handles, l) =
      (Ret tt, (handles', l')) /\
    (if close_on_exit (g_cfg (l_g l))
     then exists a b, handles = a ++ addr :: b /\ handles' = a ++ b /\ addr ∉ a
     else handles' = handles) /\
    g_state (l_g l') = NO_HANDLE /\ g_events (l_g l') = [] /\ g_drives (l_g l') = [] /\
    error_cb_stack (g_errs (l_g l')) = [] /\
    (g_state (l_g l) <> CONFIG -> l_conn l' = None) /\
    fst (snd (guestfs_close guestfs_internal_autosync recursive_remove_dir fmt_p addr (handles', l'))) = handles'.
Proof.
  intros Hs Hin Hsync Hrm. unfold guestfs_close at 1. rewrite decide_False by done.
  destruct (close_body_spec addr l Hsync Hrm) as (l' & E & H1 & H2 & H3 & H4 & H5).
  assert (forall hs, on_lib (close_body guestfs_internal_autosync recursive_remove_dir fmt_p addr) (hs, l) =
    (Ret tt, (hs, l'))) as El.
  { intros hs. unfold on_lib, zoom. cbn. by rewrite E. }
  assert (forall hs, fst (snd (guestfs_close guestfs_internal_autosync recursive_remove_dir fmt_p addr (hs, l'))) = hs)
    as Htwice.
  { intros hs. unfold guestfs_close. by rewrite decide_True. }
  destruct (close_on_exit (g_cfg (l_g l))) eqn:Ec.
  - pose proof (unlink_handle_spec addr handles) as Hu. destruct (unlink_handle addr handles) as [hs|].
    + exists hs, l'. rewrite El. by split_and!.
    + by destruct (Hu (Hin eq_refl)).
  - exists handles, l'. rewrite El. by split_and!.
Qed.
Definition same_core (g0 : guestfs_h) (g : guestfs_h) : Prop := core g = core g0.
#[local] Instance same_core_closed g0 : CoreClosed (same_core g0).
Proof. intros g g' E H1. unfold same_core in *. congruence. Qed.

Lemma launch_debug_core g0 :
  total (same_core g0) (launch_debug umask_text euid_text version_text) (fun _ => same_core g0).
Proof.
  assert (forall s, total (same_core g0) (modify (fun g => guestfs___debug g s)) (fun _ => same_core g0)) as Hd.
  { intros s. apply total_modify. intros g Hg. unfold same_core in *. by rewrite core_debug. }
  intros g Hg. unfold launch_debug. destruct (verbose (g_cfg g)); [|eauto].
  match goal with |- exists a s', ?m g = (Ret a, s') /\ _ =>
    enough (total (same_core g0) m (fun _ => same_core g0)) as Hm by exact (Hm g Hg) end.
  apply (total_bind _ _ (fun _ => same_core g0)); [apply total_api; [apply _|intros; apply _|by apply total_ret]|intros ?].
  apply (total_bind _ _ (fun _ => same_core g0)); [apply total_api; [apply _|intros; apply _|]|intros ?].
  { intros x Hx. by eexists _, _. }
  do 2 (apply (total_bind _ _ (fun _ => same_core g0)); [apply Hd|intros ?]).
  apply (total_bind _ _ (fun _ => same_core g0)); [|intros ?; repeat (apply (total_bind _ _ (fun _ => same_core g0)); [apply Hd|intros ?]); apply Hd].
  induction (env_backends (g_env g)) as [|bk bs IH]; [by apply total_ret|].
  apply (total_bind _ _ (fun _ => same_core g0)); [apply Hd|intros ?]. exact IH.
Qed.

Lemma lazy_make_tmpdir_spec g :
  exists r g', guestfs___lazy_make_tmpdir mkdtemp g = (Ret r, g') /\
    core (g' <| g_dirs := g_dirs g |>) = core g /\
    (r = 0 /\ is_Some (tmpdir (g_dirs g')) \/ r = -1 /\ tmpdir (g_dirs g') = None).
Proof.
  unfold guestfs___lazy_make_tmpdir. destruct (tmpdir (g_dirs g)) as [d|] eqn:Et.
  - exists 0, g. split_and!; [done|by destruct g|left; split; [done|by rewrite Et; eexists]].
  - destruct (get_tmpdir_spec g) as (os & E). mstep E.
    destruct (mkdtemp _) as [e|p].
    + eexists _, _. split; [reflexivity|]. split; [|by right].
      match goal with |- context [guestfs___perrorf ?x e ?m] => pose proof (core_perrorf x e m) as Ep end.
      rewrite core_add_out in Ep. apply (f_equal (fun x => x <| g_dirs := g_dirs g |>)) in Ep.
      etransitivity; [exact Ep|]. by destruct g.
    + eexists _, _. split; [reflexivity|]. split; [|left; split; [done|by eexists]]. by destruct g.
Qed.

(** guestfs_launch is refused outside the CONFIG state without any effect; inside it, the
    backend's launch runs with the backend's argument, only after the temporary directory
    exists, on an unchanged configuration, drive table and connection. *)
Theorem launch_order (l : lib C) :
  (g_state (l_g l) <> CONFIG ->
     exists l', guestfs__launch mkdtemp chmod umask_text euid_text version_text backend_launch l = (Ret (-1), l') /\
       core (l_g l') = core (l_g l) /\ l_conn l' = l_conn l) /\
  (g_state (l_g l) = CONFIG ->
     (exists l', guestfs__launch mkdtemp chmod umask_text euid_text version_text backend_launch l = (Ret (-1), l') /\
        g_state (l_g l') = CONFIG /\ tmpdir (g_dirs (l_g l')) = None) \/
     (exists l1, is_Some (tmpdir (g_dirs (l_g l1))) /\ g_state (l_g l1) = CONFIG /\
        g_cfg (l_g l1) = g_cfg (l_g l) /\ g_drives (l_g l1) = g_drives (l_g l) /\ l_conn l1 = l_conn l /\
        guestfs__launch mkdtemp chmod umask_text euid_text version_text backend_launch l =
        (r <- backend_launch (backend_arg (g_cfg (l_g l))) ;; if r =? -1 then ret (-1) else ret 0) l1)).
Proof.
  split; intros Hs; unfold guestfs__launch.
  - rewrite decide_False by done. eexists. split; [reflexivity|]. split; [|done]. apply core_error_errno.
  - rewrite decide_True by done. unfold on_g. rewrite bind_modify. set (l1 := upd l_g _ l).
    assert (g_state (l_g l1) = CONFIG /\ g_cfg (l_g l1) = g_cfg (l_g l) /\ g_drives (l_g l1) = g_drives (l_g l) /\
            l_conn l1 = l_conn l) as (S1 & C1 & D1 & N1).
    { unfold l1, gettimeofday. cbn. by destruct (env_clock (g_env (l_g l))) as [|t [|t' ts]]. }
    destruct (lazy_make_tmpdir_spec (l_g l1)) as (r & g2 & E2 & K2 & Hr).
    assert (on_hm (guestfs___lazy_make_tmpdir mkdtemp) l1 = (Ret r, l1 <| l_g := g2 |>)) as E2'.
    { unfold on_hm, zoom. by rewrite E2. }
    mstep E2'.
    assert (g_state g2 = CONFIG /\ g_cfg g2 = g_cfg (l_g l) /\ g_drives g2 = g_drives (l_g l)) as (S2 & C2 & D2).
    { split_and!; [rewrite <- S1; exact (f_equal g_state K2)|rewrite <- C1; exact (f_equal g_cfg K2)|
        rewrite <- D1; exact (f_equal g_drives K2)]. }
    destruct Hr as [[-> Ht]|[-> Ht]].
    2:{ left. eexists. split; [reflexivity|]. done. }
    change (0 =? -1) with false. cbn iota. rewrite bind_modify. set (l3 := upd l_g _ (l1 <| l_g := g2 |>)).
    assert (core (l_g l3) = core g2) as K3.
    { unfold l3. cbn. destruct (chmod _); [apply core_warning|done]. }
    destruct (launch_debug_core g2 (l_g l3) K3) as ([] & g4 & E4 & K4).
    assert (on_hm (launch_debug umask_text euid_text version_text) l3 = (Ret tt, l3 <| l_g := g4 |>)) as E4'.
    { unfold on_hm, zoom. by rewrite E4. }
    mstep E4'. rewrite bind_gets. right. exists (l3 <| l_g := g4 |>). unfold same_core in K4.
    cbn [l_g l_conn upd upd_l_g].
    assert (g_cfg g4 = g_cfg (l_g l)) as C4 by (rewrite <- C2; exact (f_equal g_cfg K4)).
    split_and!; [|rewrite <- S2; exact (f_equal g_state K4)|done|rewrite <- D2; exact (f_equal g_drives K4)|done|by rewrite C4].
    pose proof (f_equal (fun x => tmpdir (g_dirs x)) K4) as Hd. cbn in Hd. by rewrite Hd.
Qed.
End lifecycle_properties.

(** ** Witnesses *)

Definition ex_lib : lib connection_socket :=
  mk_lib Examples.ex_handle (Some (ex_socket [])) (mk_file_io None [] [] None [] []).

Lemma shutdown_resets_witness :
  exists r' l', shutdown_backend (ret 0) 1 ex_lib = (Ret r', l') /\ g_state (l_g l') = CONFIG /\ l_conn l' = None.
Proof.
  destruct (shutdown_resets (ret 0) 1 ex_lib 0 ex_lib) as (r' & l' & H1 & H2 & _ & H3 & _);
    [reflexivity|discriminate|]. eauto.
Defined.

Lemma close_handle_witness :
  exists handles' l', guestfs_close (ret (-1)) (fun _ g => g) (fun _ => "0x1") 7 ([9; 7; 5], ex_lib) =
    (Ret tt, (handles', l')) /\ g_state (l_g l') = NO_HANDLE.
Proof.
  destruct (close_handle (ret (-1)) (fun _ g => g) (fun _ => "0x1") 7 [9; 7; 5] ex_lib)
    as (hs & l' & H1 & _ & H2 & _).
  - discriminate.
  - intros _. right. left.
  - intros l0. exists (-1), l0. reflexivity.
  - reflexivity.
  - eauto.
Defined.

Lemma launch_order_witness :
  exists l', guestfs__launch (fun t => inr t) (fun _ => None) "022" "0" "1.28.1" (fun _ => ret 0) ex_lib =
    (Ret (-1), l') /\ core (l_g l') = core (l_g ex_lib) /\ l_conn l' = l_conn ex_lib.
Proof.
  destruct (launch_order (fun t => inr t) (fun _ => None) "022" "0" "1.28.1" (fun _ => ret 0) ex_lib) as [H1 _].
  apply H1. discriminate.
Defined.
