(* ===== verification/Drives.v ===== *)
(** src/drives.c: the drives of the handle, before launch and hotplugged.

    Parameters: access (2) and getservbyname (3), guestfs_disk_create
    (src/create.c, which runs qemu-img), and the generated calls of the daemon
    that make a hotplugged drive appear and disappear. *)

From S2P Require Import Prelude Xdr Protocol Handle Events Conn LibProto LibProtoSpec LibProtoSafe Utils Config Lifecycle.
From Stdlib Require Import Ascii.
Local Open Scope Z_scope.

(** * Validation *)

Definition valid_format_iface (str : string) : bool :=
  negb (STREQ str "") &&
  str_forallb (fun c => Ascii.eqb c "-" || Ascii.eqb c "_" || c_isalnum c) str.

Definition valid_disk_label (str : string) : bool :=
  negb ((String.length str =? 0)%nat || (20 <? String.length str)%nat) && str_forallb c_isalpha str.

Definition valid_hostname (str : string) : bool :=
  negb ((String.length str =? 0)%nat || (255 <? String.length str)%nat) &&
  str_forallb (fun c => c_isalnum c || Ascii.eqb c "-" || Ascii.eqb c "." || Ascii.eqb c ":" ||
                        Ascii.eqb c "[" || Ascii.eqb c "]") str.

Definition valid_port (port : Z) : bool := negb ((port <=? 0) || (65535 <? port)).

(** ** Servers *)

Fixpoint span {A} (p : A -> bool) (l : list A) : list A * list A :=
  match l with
  | x :: l' => if p x then let '(a, b) := span p l' in (x :: a, b) else ([], l)
  | [] => ([], [])
  end.

Definition chars (s : string) : list ascii := String.list_ascii_of_string s.
Definition of_chars (l : list ascii) : string := String.string_of_list_ascii l.
Definition nl : ascii := ascii_of_nat 10.

(** The regular expression (.* ):(\d+)$ of PCRE: [$] also matches before a
    final newline, and [.] matches no newline, so that the first group starts
    after the last newline before the colon.  The digits are a maximal run
    because the colon is not one of them. *)
Definition re_hostname_port (s : string) : option (string * string) :=
  let l := rev (chars s) in
  let l := match l with c :: l' => if Ascii.eqb c nl then l' else l | [] => [] end in
  let '(digits, rest) := span c_isdigit l in
  match digits, rest with
  | _ :: _, c :: rest' =>
      if Ascii.eqb c ":"
      then Some (of_chars (rev (fst (span (fun c => negb (Ascii.eqb c nl)) rest'))), of_chars (rev digits))
      else None
  | _, _ => None
  end.

(** The part of [parse_one_server] after the label [skip_unix]. *)
Definition parse_host (transport : drive_transport) (server : string) : hm (option drive_server) :=
  match re_hostname_port server with
  | Some (hostname, port_str) =>
      match (p ← sscanf_d port_str; if valid_port p then Some p else None) with
      | None => report ("invalid port number '" +:+ port_str +:+ "'") ;;; ret None
      | Some port =>
          if negb (valid_hostname hostname)
          then report ("invalid hostname '" +:+ hostname +:+ "'") ;;; ret None
          else ret (Some (mk_server transport hostname port))
      end
  | None =>
      if negb (valid_hostname server)
      then report ("invalid hostname or server string '" +:+ server +:+ "'") ;;; ret None
      else ret (Some (mk_server transport server 0))
  end.

Definition parse_one_server (server : string) : hm (option drive_server) :=
  match after_prefix "tcp:" server with
  | Some rest => parse_host drive_transport_tcp rest
  | None =>
      match after_prefix "unix:" server with
      | Some "" => report "missing Unix domain socket path" ;;; ret None
      | Some socket => ret (Some (mk_server drive_transport_unix socket 0))
      | None => parse_host drive_transport_none server
      end
  end.

Fixpoint parse_servers (strs : list string) : hm (option (list drive_server)) :=
  match strs with
  | [] => ret (Some [])
  | s :: strs' =>
      r <- parse_one_server s ;;
      match r with
      | None => ret None
      | Some srv => rest <- parse_servers strs' ;; ret (cons srv <$> rest)
      end
  end.

(** * Creating a drive *)

Record drive_create_data := mk_create_data {
  dc_protocol : drive_protocol;
  dc_servers : list drive_server;
  dc_exportname : string;
  dc_username : option string;
  dc_secret : option string;
  dc_readonly : bool;
  dc_format : option string;
  dc_iface : option string;
  dc_name : option string;
  dc_disk_label : option string;
  dc_cachemode : option string;
  dc_discard : discard;
  dc_copyonread : bool
}.
#[export] Instance upd_dc_protocol : Field dc_protocol := fun f r =>
  mk_create_data (f (dc_protocol r)) (dc_servers r) (dc_exportname r) (dc_username r) (dc_secret r)
    (dc_readonly r) (dc_format r) (dc_iface r) (dc_name r) (dc_disk_label r) (dc_cachemode r)
    (dc_discard r) (dc_copyonread r).
#[export] Instance upd_dc_servers : Field dc_servers := fun f r =>
  mk_create_data (dc_protocol r) (f (dc_servers r)) (dc_exportname r) (dc_username r) (dc_secret r)
    (dc_readonly r) (dc_format r) (dc_iface r) (dc_name r) (dc_disk_label r) (dc_cachemode r)
    (dc_discard r) (dc_copyonread r).

(** An error, and NULL. *)
Definition null {A} (msg : string) : hm (option A) := report msg ;;; ret None.

Definition create_overlay (drv : drive) : hm (option drive) := fun g =>
  match bo_create_cow_overlay (g_backend_ops g) with
  | None => null "this backend does not support adding read-only drives" g
  | Some create_cow_overlay =>
      (modify (fun g => guestfs___debug g "creating COW overlay to protect original drive content") ;;;
       match create_cow_overlay drv with
       | None => ret None
       | Some overlay => ret (Some (drv <| drv_overlay := Some overlay |>))
       end) g
  end.

Definition with_overlay (readonly : bool) (drv : drive) : hm (option drive) :=
  if readonly then create_overlay drv else ret (Some drv).

Definition create_drive_file (data : drive_create_data) : hm (option drive) :=
  with_overlay (dc_readonly data)
    (mk_drive (mk_source drive_protocol_file (dc_format data) (dc_exportname data) [] None None)
       None (dc_readonly data) (dc_iface data) (dc_name data) (dc_disk_label data)
       (dc_cachemode data) (dc_discard data) (dc_copyonread data)).

Definition create_drive_non_file (data : drive_create_data) : hm (option drive) :=
  with_overlay (dc_readonly data)
    (mk_drive (mk_source (dc_protocol data) (dc_format data) (dc_exportname data) (dc_servers data)
                 (dc_username data) (dc_secret data))
       None (dc_readonly data) (dc_iface data) (dc_name data) (dc_disk_label data)
       (dc_cachemode data) (dc_discard data) (dc_copyonread data)).

Definition tcp_or_none (s : drive_server) : bool :=
  match srv_transport s with drive_transport_unix => false | _ => true end.
(** [exportname[0] == '/'] *)
Definition absolute (s : string) : bool := STRPREFIX s "/".
Definition is_set {A} (o : option A) : bool := match o with Some _ => true | None => false end.

(** A check that fails with an error. *)
Definition check (bad : bool) (msg : string) (k : hm (option drive)) : hm (option drive) :=
  if bad then null msg else k.

(** [nr_servers != 1], and then a look at [servers[0]]. *)
Definition one_server (data : drive_create_data) (msg : string) (k : drive_server -> hm (option drive)) :
    hm (option drive) :=
  match dc_servers data with [s] => k s | _ => null msg end.

Definition create_drive_curl (data : drive_create_data) : hm (option drive) :=
  one_server data "curl: you must specify exactly one server" (fun s =>
  check (negb (tcp_or_none s)) "curl: only tcp transport is supported" (
  check (STREQ (dc_exportname data) "") "curl: pathname should not be an empty string" (
  check (negb (absolute (dc_exportname data))) "curl: pathname must begin with a '/'" (
  create_drive_non_file data)))).

Definition create_drive_gluster (data : drive_create_data) : hm (option drive) :=
  check (is_set (dc_username data)) "gluster: you cannot specify a username with this protocol" (
  check (is_set (dc_secret data)) "gluster: you cannot specify a secret with this protocol" (
  one_server data "gluster: you must specify exactly one server" (fun s =>
  check (STREQ (dc_exportname data) "") "gluster: volume name parameter should not be an empty string" (
  check (absolute (dc_exportname data)) "gluster: volume/image must not begin with a '/'" (
  create_drive_non_file data))))).

(** [getservbyname] is the port of "nbd", if the services file has it. *)
Definition nbd_port (getservbyname : option Z) : Z :=
  match getservbyname with Some p => p | None => 10809 end.

Definition create_drive_nbd (getservbyname : option Z) (data : drive_create_data) : hm (option drive) :=
  check (is_set (dc_username data)) "nbd: you cannot specify a username with this protocol" (
  check (is_set (dc_secret data)) "nbd: you cannot specify a secret with this protocol" (
  one_server data "nbd: you must specify exactly one server" (fun s =>
  create_drive_non_file
    (if srv_port s =? 0
     then data <| dc_servers := [mk_server (srv_transport s) (srv_host s) (nbd_port getservbyname)] |>
     else data)))).

(** The loop over the servers in [create_drive_rbd] and [create_drive_sheepdog]. *)
Fixpoint check_servers (proto : string) (servers : list drive_server) (k : hm (option drive)) :
    hm (option drive) :=
  match servers with
  | [] => k
  | s :: servers' =>
      check (negb (tcp_or_none s)) (proto +:+ ": only tcp transport is supported") (
      check (srv_port s =? 0) (proto +:+ ": port number must be specified") (
      check_servers proto servers' k))
  end.

Definition create_drive_rbd (data : drive_create_data) : hm (option drive) :=
  check_servers "rbd" (dc_servers data) (
  check (STREQ (dc_exportname data) "") "rbd: image name parameter should not be an empty string" (
  check (absolute (dc_exportname data)) "rbd: image name must not begin with a '/'" (
  create_drive_non_file data))).

Definition create_drive_sheepdog (data : drive_create_data) : hm (option drive) :=
  check (is_set (dc_username data)) "sheepdog: you cannot specify a username with this protocol" (
  check (is_set (dc_secret data)) "sheepdog: you cannot specify a secret with this protocol" (
  check_servers "sheepdog" (dc_servers data) (
  check (STREQ (dc_exportname data) "") "sheepdog: volume parameter should not be an empty string" (
  check (absolute (dc_exportname data)) "sheepdog: volume parameter must not begin with a '/'" (
  create_drive_non_file data))))).

Definition create_drive_ssh (data : drive_create_data) : hm (option drive) :=
  one_server data "ssh: you must specify exactly one server" (fun s =>
  check (negb (tcp_or_none s)) "ssh: only tcp transport is supported" (
  check (STREQ (dc_exportname data) "") "ssh: pathname should not be an empty string" (
  check (negb (absolute (dc_exportname data))) "ssh: pathname must begin with a '/'" (
  check (bool_decide (dc_username data = Some "")) "ssh: username should not be an empty string" (
  create_drive_non_file data))))).

Definition create_drive_iscsi (data : drive_create_data) : hm (option drive) :=
  check (is_set (dc_username data)) "iscsi: you cannot specify a username with this protocol" (
  check (is_set (dc_secret data)) "iscsi: you cannot specify a secret with this protocol" (
  one_server data "iscsi: you must specify exactly one server" (fun s =>
  check (negb (tcp_or_none s)) "iscsi: only tcp transport is supported" (
  check (STREQ (dc_exportname data) "") "iscsi: target name should not be an empty string" (
  check (absolute (dc_exportname data)) "iscsi: target string must not begin with a '/'" (
  create_drive_non_file data)))))).

Definition create_drive_dummy : hm (option drive) :=
  create_drive_file (mk_create_data drive_protocol_file [] "" None None false None None None None None
                       discard_disable false).

Definition guestfs___drive_protocol_to_string (p : drive_protocol) : string :=
  match p with
  | drive_protocol_file => "file"
  | drive_protocol_ftp => "ftp"
  | drive_protocol_ftps => "ftps"
  | drive_protocol_gluster => "gluster"
  | drive_protocol_http => "http"
  | drive_protocol_https => "https"
  | drive_protocol_iscsi => "iscsi"
  | drive_protocol_nbd => "nbd"
  | drive_protocol_rbd => "rbd"
  | drive_protocol_sheepdog => "sheepdog"
  | drive_protocol_ssh => "ssh"
  | drive_protocol_tftp => "tftp"
  end.

Definition opt_field (key : string) (v : option string) : string :=
  match v with Some v => key +:+ v | None => "" end.

Definition drive_to_string (drv : drive) : string :=
  src_path (drv_src drv) +:+
  (if drv_readonly drv then " readonly" else "") +:+
  opt_field " format=" (src_format (drv_src drv)) +:+
  " protocol=" +:+ guestfs___drive_protocol_to_string (src_protocol (drv_src drv)) +:+
  opt_field " iface=" (drv_iface drv) +:+
  opt_field " name=" (drv_name drv) +:+
  opt_field " label=" (drv_disk_label drv) +:+
  opt_field " cache=" (drv_cachemode drv) +:+
  (match drv_discard drv with
   | discard_disable => ""
   | discard_enable => " discard=enable"
   | discard_besteffort => " discard=besteffort"
   end) +:+
  (if drv_copyonread drv then " copyonread" else "").

(** * The vector of drives *)

Definition add_drive_to_handle_at (d : drive) (drv_index : nat) : hm unit := fun g =>
  let drives := g_drives g ++ replicate (S drv_index - length (g_drives g)) None in
  match drives !! drv_index with
  | Some None => (Ret tt, g <| g_drives := <[drv_index := Some d]> drives |>)
  | _ => (Stop AssertFailed, g <| g_drives := drives |>)
  end.

Definition add_drive_to_handle (d : drive) : hm unit := fun g =>
  add_drive_to_handle_at d (length (g_drives g)) g.

(** The drive is created without an overlay: NULL is never returned. *)
Definition guestfs___add_dummy_appliance_drive : hm unit :=
  drv <- create_drive_dummy ;;
  match drv with Some d => add_drive_to_handle d | None => ret tt end.

Definition guestfs___checkpoint_drives (g : guestfs_h) : nat := length (g_drives g).
Definition guestfs___rollback_drives (old_i : nat) (g : guestfs_h) : guestfs_h :=
  g <| g_drives ::= take old_i |>.

Definition guestfs__debug_drives (g : guestfs_h) : list string :=
  drive_to_string <$> omap id (g_drives g).

(** * Adding drives *)

(** The optional arguments: [None] is an unset bit of the bitmask. *)
Record add_drive_optargs := mk_optargs {
  o_readonly : option bool;
  o_format : option string;
  o_iface : option string;
  o_name : option string;
  o_label : option string;
  o_protocol : option string;
  o_server : option (list string);
  o_username : option string;
  o_secret : option string;
  o_cachemode : option string;
  o_discard : option string;
  o_copyonread : option bool
}.
Definition no_optargs : add_drive_optargs :=
  mk_optargs None None None None None None None None None None None None.

(** How generator/c.ml traces them. *)
Definition trace_opt (n : string) (v : option string) : string :=
  match v with Some v => " " +:+ quoted (n +:+ ":" +:+ v) | None => "" end.
Definition bool_text (b : bool) : string := if b then "true" else "false".
Definition arg_optargs (o : add_drive_optargs) : string :=
  trace_opt "readonly" (bool_text <$> o_readonly o) +:+
  trace_opt "format" (o_format o) +:+ trace_opt "iface" (o_iface o) +:+
  trace_opt "name" (o_name o) +:+ trace_opt "label" (o_label o) +:+
  trace_opt "protocol" (o_protocol o) +:+
  trace_opt "server" (guestfs___join_strings " " <$> o_server o) +:+
  trace_opt "username" (o_username o) +:+ trace_opt "secret" (o_secret o) +:+
  trace_opt "cachemode" (o_cachemode o) +:+ trace_opt "discard" (o_discard o) +:+
  trace_opt "copyonread" (bool_text <$> o_copyonread o).

(** A check of [guestfs__add_drive_opts]. *)
Definition check_data (bad : bool) (msg : string) (k : hm (option drive_create_data)) :
    hm (option drive_create_data) :=
  if bad then null msg else k.

Definition invalid (p : string -> bool) (o : option string) : bool :=
  match o with Some s => negb (p s) | None => false end.

Definition parse_discard (o : option string) : option discard :=
  match o with
  | None => Some discard_disable
  | Some s => if STREQ s "disable" then Some discard_disable
              else if STREQ s "enable" then Some discard_enable
              else if STREQ s "besteffort" then Some discard_besteffort
              else None
  end.

(** [guestfs__add_drive_opts], up to the choice of the protocol. *)
Definition add_drive_data (filename : string) (o : add_drive_optargs) : hm (option drive_create_data) :=
  servers <- match o_server o with Some strs => parse_servers strs | None => ret (Some []) end ;;
  match servers with
  | None => ret None
  | Some servers =>
      match parse_discard (o_discard o) with
      | None => null "discard parameter must be 'disable', 'enable' or 'besteffort'"
      | Some discard =>
          let data := mk_create_data drive_protocol_file servers filename (o_username o) (o_secret o)
            (default false (o_readonly o)) (o_format o) (o_iface o) (o_name o) (o_label o)
            (o_cachemode o) discard (default false (o_copyonread o)) in
          check_data (dc_readonly data && bool_decide (dc_discard data = discard_enable))
            "discard support cannot be enabled on read-only drives" (
          check_data (invalid valid_format_iface (dc_format data))
            "format parameter is empty or contains disallowed characters" (
          check_data (invalid valid_format_iface (dc_iface data))
            "iface parameter is empty or contains disallowed characters" (
          check_data (invalid valid_disk_label (dc_disk_label data))
            "label parameter is empty, too long, or contains disallowed characters" (
          check_data (invalid (fun s => STREQ s "writeback" || STREQ s "unsafe") (dc_cachemode data))
            "cachemode parameter must be 'writeback' (default) or 'unsafe'" (
          ret (Some data))))))
      end
  end.

(** The last free index, or the end: the loop does not stop at the first. *)
Fixpoint free_index (i : nat) (drives : list (option drive)) (drv_index : nat) : nat :=
  match drives with
  | [] => drv_index
  | d :: drives' => free_index (S i) drives' (match d with None => i | Some _ => drv_index end)
  end.
Definition hotplug_index (drives : list (option drive)) : nat := free_index 0 drives (length drives).

(** ITER_DRIVES in [guestfs__remove_drive]. *)
Fixpoint find_label (label : string) (i : nat) (drives : list (option drive)) : option (nat * drive) :=
  match drives with
  | [] => None
  | Some drv :: drives' =>
      if bool_decide (drv_disk_label drv = Some label) then Some (i, drv)
      else find_label label (S i) drives'
  | None :: drives' => find_label label (S i) drives'
  end.

Section drives.
Context {C : Type} `{ConnOps C}.
Context (access : string -> option Z)                       (* access (2): the errno *)
        (getservbyname : option Z)
        (mkdtemp : string -> Z + string)
        (guestfs_disk_create : string -> string -> Z -> hm Z)
        (guestfs_internal_hot_add_drive : string -> M (lib C) Z)
        (guestfs_internal_hot_remove_drive_precheck : string -> M (lib C) Z)
        (guestfs_internal_hot_remove_drive : string -> M (lib C) Z).

(** [++g->unique] and the name in the temporary directory. *)
Definition fresh_tmp (base : string) : hm string := fun g =>
  let g := g <| g_unique ::= fun u => u + 1 |> in
  (Ret (default "" (tmpdir (g_dirs g)) +:+ "/" +:+ base +:+ pretty (g_unique g)), g).

Definition create_drive_dev_null (data : drive_create_data) : hm (option drive) :=
  if bool_decide (is_Some (dc_format data) /\ dc_format data <> Some "raw")
  then null "for device '/dev/null', format must be 'raw'" else
  r <- guestfs___lazy_make_tmpdir mkdtemp ;;
  if r =? -1 then ret None else
  tmpfile <- fresh_tmp "devnull" ;;
  r <- guestfs_disk_create tmpfile "raw" 4096 ;;
  if r =? -1 then ret None else
  create_drive_file
    (mk_create_data (dc_protocol data) (dc_servers data) tmpfile (dc_username data) (dc_secret data)
       false (dc_format data) (dc_iface data) (dc_name data) (dc_disk_label data) (dc_cachemode data)
       discard_disable false).

Definition create_file_protocol (filename : string) (data : drive_create_data) : hm (option drive) :=
  match dc_servers data with
  | _ :: _ => null "you cannot specify a server with file-backed disks"
  | [] =>
      check (is_set (dc_username data)) "you cannot specify a username with file-backed disks" (
      check (is_set (dc_secret data)) "you cannot specify a secret with file-backed disks" (
      if STREQ filename "/dev/null" then create_drive_dev_null data
      else match access filename with
           | Some e => modify (fun g => guestfs___perrorf g e filename) ;;; ret None
           | None => create_drive_file data
           end))
  end.

(** The chain of comparisons of [protocol]. *)
Definition create_by_protocol (filename protocol : string) (data : drive_create_data) : hm (option drive) :=
  let proto := STREQ protocol in
  if proto "file" then create_file_protocol filename data
  else if proto "ftp" then create_drive_curl (data <| dc_protocol := drive_protocol_ftp |>)
  else if proto "ftps" then create_drive_curl (data <| dc_protocol := drive_protocol_ftps |>)
  else if proto "gluster" then create_drive_gluster (data <| dc_protocol := drive_protocol_gluster |>)
  else if proto "http" then create_drive_curl (data <| dc_protocol := drive_protocol_http |>)
  else if proto "https" then create_drive_curl (data <| dc_protocol := drive_protocol_https |>)
  else if proto "iscsi" then create_drive_iscsi (data <| dc_protocol := drive_protocol_iscsi |>)
  else if proto "nbd" then create_drive_nbd getservbyname (data <| dc_protocol := drive_protocol_nbd |>)
  else if proto "rbd" then create_drive_rbd (data <| dc_protocol := drive_protocol_rbd |>)
  else if proto "sheepdog" then create_drive_sheepdog (data <| dc_protocol := drive_protocol_sheepdog |>)
  else if proto "ssh" then create_drive_ssh (data <| dc_protocol := drive_protocol_ssh |>)
  else if proto "tftp" then create_drive_curl (data <| dc_protocol := drive_protocol_tftp |>)
  else null ("unknown protocol '" +:+ protocol +:+ "'").

(** [guestfs__add_drive_opts], up to the point where the drive is added. *)
Definition create_drive (filename : string) (o : add_drive_optargs) : hm (option drive) :=
  data <- add_drive_data filename o ;;
  match data with
  | None => ret None
  | Some data => create_by_protocol filename (default "file" (o_protocol o)) data
  end.

Definition on_error {A} (msg : string) (a : A) : M (lib C) A := on_g (fun g => error g msg) ;;; ret a.

(** The hotplugging case. *)
Definition hot_add (drv : drive) : M (lib C) Z := fun l =>
  match bo_hot_add_drive (g_backend_ops (l_g l)), drv_disk_label drv with
  | None, _ => on_error "the current backend does not support hotplugging drives" (-1) l
  | Some _, None => on_error "'label' is required when hotplugging drives" (-1) l
  | Some hot_add_drive, Some label =>
      let drv_index := hotplug_index (g_drives (l_g l)) in
      if hot_add_drive drv drv_index =? -1 then (Ret (-1), l) else
      (on_hm (add_drive_to_handle_at drv drv_index) ;;;
       r <- guestfs_internal_hot_add_drive label ;;
       if r =? -1 then ret (-1) else ret 0) l
  end.

Definition guestfs__add_drive_opts (filename : string) (o : add_drive_optargs) : M (lib C) Z :=
  drv <- on_hm (create_drive filename o) ;;
  match drv with
  | None => ret (-1)
  | Some drv => fun l =>
      if decide (g_state (l_g l) = CONFIG)
      then (on_hm (add_drive_to_handle drv) ;;; ret 0) l
      else hot_add drv l
  end.

(** The generated wrapper, around a function that may call the daemon. *)
Definition api_lib (name args : string) (f : M (lib C) Z) : M (lib C) Z := fun l =>
  let trace_flag := trace (g_cfg (l_g l)) in
  (on_hm (message GUESTFS_EVENT_ENTER name) ;;;
   on_hm (trace_call trace_flag (name +:+ args)) ;;;
   r <- f ;;
   on_hm (trace_call trace_flag (name +:+ " = " +:+ match show_ret r with
                                                    | Some s => s
                                                    | None => errcode +:+ " (error)"
                                                    end)) ;;;
   ret r) l.

Definition guestfs_add_drive_opts_argv (filename : string) (o : add_drive_optargs) : M (lib C) Z :=
  api_lib "add_drive" (arg_string filename +:+ arg_optargs o) (guestfs__add_drive_opts filename o).

Definition guestfs__add_drive_ro (filename : string) : M (lib C) Z :=
  guestfs_add_drive_opts_argv filename
    (mk_optargs (Some true) None None None None None None None None None None None).
Definition guestfs__add_drive_with_if (filename iface : string) : M (lib C) Z :=
  guestfs_add_drive_opts_argv filename
    (mk_optargs None None (Some iface) None None None None None None None None None).
Definition guestfs__add_drive_ro_with_if (filename iface : string) : M (lib C) Z :=
  guestfs_add_drive_opts_argv filename
    (mk_optargs (Some true) None (Some iface) None None None None None None None None None).
Definition guestfs__add_cdrom (filename : string) : M (lib C) Z := guestfs__add_drive_ro filename.

Definition guestfs__add_drive_scratch (size : Z) (name label : option string) : M (lib C) Z :=
  r <- on_hm (guestfs___lazy_make_tmpdir mkdtemp) ;;
  if r =? -1 then ret (-1) else
  filename <- on_hm (fresh_tmp "scratch.") ;;
  r <- on_hm (guestfs_disk_create filename "raw" size) ;;
  if r =? -1 then ret (-1) else
  guestfs_add_drive_opts_argv filename
    (mk_optargs None (Some "raw") None name label None None None None (Some "unsafe") None None).

(** * Removing drives *)

(** [g->drives[i] = NULL; if (i == g->nr_drives-1) g->nr_drives--;] *)
Definition clear_slot (i : nat) (drives : list (option drive)) : list (option drive) :=
  let drives := <[i := None]> drives in
  if (i =? length drives - 1)%nat then take (length drives - 1) drives else drives.

Definition hot_remove (label : string) (i : nat) (drv : drive) : M (lib C) Z := fun l =>
  match bo_hot_remove_drive (g_backend_ops (l_g l)) with
  | None => on_error "the current backend does not support hotplugging drives" (-1) l
  | Some hot_remove_drive =>
      (r <- guestfs_internal_hot_remove_drive_precheck label ;;
       if r =? -1 then ret (-1) else
       if hot_remove_drive drv i =? -1 then ret (-1) else
       on_g (fun g => g <| g_drives ::= clear_slot i |>) ;;;
       r <- guestfs_internal_hot_remove_drive label ;;
       if r =? -1 then ret (-1) else ret 0) l
  end.

Definition guestfs__remove_drive (label : string) : M (lib C) Z := fun l =>
  match find_label label 0 (g_drives (l_g l)) with
  | None => on_error ("disk with label '" +:+ label +:+ "' not found") (-1) l
  | Some (i, drv) =>
      if decide (g_state (l_g l) = CONFIG)
      then (on_g (fun g => g <| g_drives ::= delete i |>) ;;; ret 0) l
      else hot_remove label i drv l
  end.
End drives.

(** * Well-formed drives *)

Definition server_ok (s : drive_server) : Prop :=
  match srv_transport s with
  | drive_transport_unix => srv_host s <> ""
  | _ => valid_hostname (srv_host s) = true /\ (srv_port s = 0 \/ valid_port (srv_port s) = true)
  end.

Definition anonymous (s : drive_source) : Prop := src_username s = None /\ src_secret s = None.
Definition relative_name (s : drive_source) : Prop := src_path s <> "" /\ absolute (src_path s) = false.
Definition ported (srv : drive_server) : Prop := tcp_or_none srv = true /\ srv_port srv <> 0.

(** What each protocol demands. *)
Definition protocol_ok (s : drive_source) : Prop :=
  match src_protocol s with
  | drive_protocol_file => src_servers s = [] /\ anonymous s
  | drive_protocol_nbd => (exists srv, src_servers s = [srv] /\ srv_port srv <> 0) /\ anonymous s
  | drive_protocol_gluster => (exists srv, src_servers s = [srv]) /\ anonymous s /\ relative_name s
  | drive_protocol_iscsi =>
      (exists srv, src_servers s = [srv] /\ tcp_or_none srv = true) /\ anonymous s /\ relative_name s
  | drive_protocol_ftp | drive_protocol_ftps | drive_protocol_http | drive_protocol_https
  | drive_protocol_tftp =>
      (exists srv, src_servers s = [srv] /\ tcp_or_none srv = true) /\ absolute (src_path s) = true
  | drive_protocol_ssh =>
      (exists srv, src_servers s = [srv] /\ tcp_or_none srv = true) /\ absolute (src_path s) = true /\
      src_username s <> Some ""
  | drive_protocol_rbd => Forall ported (src_servers s) /\ relative_name s
  | drive_protocol_sheepdog => Forall ported (src_servers s) /\ anonymous s /\ relative_name s
  end.

(** What holds of the parameters once they have been checked. *)
Record options_ok (format iface label cachemode : option string) : Prop := {
  ok_format : invalid valid_format_iface format = false;
  ok_iface : invalid valid_format_iface iface = false;
  ok_label : invalid valid_disk_label label = false;
  ok_cachemode : invalid (fun s => STREQ s "writeback" || STREQ s "unsafe") cachemode = false
}.

Record drive_ok (d : drive) : Prop := {
  ok_options : options_ok (src_format (drv_src d)) (drv_iface d) (drv_disk_label d) (drv_cachemode d);
  ok_servers : Forall server_ok (src_servers (drv_src d));
  ok_protocol : protocol_ok (drv_src d);
  (** The original content of a read-only drive is protected. *)
  ok_overlay : drv_readonly d = true -> is_Some (drv_overlay d);
  ok_discard : drv_readonly d = true -> drv_discard d <> discard_enable
}.

Record data_ok (data : drive_create_data) : Prop := {
  dok_options : options_ok (dc_format data) (dc_iface data) (dc_disk_label data) (dc_cachemode data);
  dok_servers : Forall server_ok (dc_servers data);
  dok_discard : dc_readonly data = true -> dc_discard data <> discard_enable
}.

(** * Lemmas *)

(** Creating a drive leaves the drives and the state alone. *)
Definition neutral (g0 g : guestfs_h) : Prop :=
  g_state g = g_state g0 /\ g_drives g = g_drives g0 /\ g_backend_ops g = g_backend_ops g0.

Lemma neutral_core g0 g g' : core g = core g' -> neutral g0 g -> neutral g0 g'.
Proof.
  intros E (H1 & H2 & H3).
  assert (g_state g = g_state g' /\ g_drives g = g_drives g' /\ g_backend_ops g = g_backend_ops g') as (E1 & E2 & E3).
  { split_and!; [apply (f_equal g_state) in E|apply (f_equal g_drives) in E|apply (f_equal g_backend_ops) in E]; exact E. }
  unfold neutral. split_and!; congruence.
Qed.

Definition yields {A} (P : A -> Prop) (m : hm A) : Prop :=
  forall g0, total (neutral g0) m (fun r g => neutral g0 g /\ P r).

Lemma yields_ret {A} (P : A -> Prop) a : P a -> yields P (ret a).
Proof. intros H g0. by apply total_ret. Qed.
Lemma yields_bind {A B} (P : A -> Prop) (Q : B -> Prop) (m : hm A) (f : A -> hm B) :
  yields P m -> (forall a, P a -> yields Q (f a)) -> yields Q (bind m f).
Proof.
  intros Hm Hf g0 g Hg. destruct (Hm g0 g Hg) as (a & g1 & E & Hg1 & Ha). mstep E.
  by apply (Hf a Ha g0).
Qed.
Lemma yields_core (f : guestfs_h -> guestfs_h) : (forall g, core (f g) = core g) -> yields (fun _ => True) (modify f).
Proof. intros Hf g0. apply total_modify. intros g Hg. split; [|done]. eapply neutral_core; [symmetry; apply Hf|done]. Qed.
Lemma yields_null {A} (P : option A -> Prop) msg : P None -> yields P (null msg).
Proof.
  intros H. eapply yields_bind; [apply yields_core; intros g; apply core_error_errno|].
  intros _ _. by apply yields_ret.
Qed.
Lemma yields_if {A} (P : A -> Prop) (b : bool) m m' :
  (b = true -> yields P m) -> (b = false -> yields P m') -> yields P (if b then m else m').
Proof. destruct b; auto. Qed.
Lemma yields_conseq {A} (P Q : A -> Prop) m : (forall a, P a -> Q a) -> yields P m -> yields Q m.
Proof. intros H Hm g0 g Hg. destruct (Hm g0 g Hg) as (a & g1 & E & H1 & H2). eauto 10. Qed.

(** The result is NULL, or has the property. *)
Definition opt {A} (P : A -> Prop) (o : option A) : Prop := match o with Some a => P a | None => True end.

Lemma yields_check P bad msg k : (bad = false -> yields (opt P) k) -> yields (opt P) (check bad msg k).
Proof. intros H. apply yields_if; [intros _; by apply yields_null|done]. Qed.
Lemma yields_check_data P bad msg k : (bad = false -> yields (opt P) k) -> yields (opt P) (check_data bad msg k).
Proof. intros H. apply yields_if; [intros _; by apply yields_null|done]. Qed.
Lemma yields_one_server P data msg k :
  (forall s, dc_servers data = [s] -> yields (opt P) (k s)) -> yields (opt P) (one_server data msg k).
Proof.
  intros H. unfold one_server. destruct (dc_servers data) as [|s [|s' l]]; try (by apply yields_null). by apply H.
Qed.
Lemma yields_check_servers P proto servers k :
  (Forall ported servers -> yields (opt P) k) -> yields (opt P) (check_servers proto servers k).
Proof.
  induction servers as [|s l IH]; cbn [check_servers]; intros H; [by apply H|].
  apply yields_check. intros H1%negb_false_iff. apply yields_check. intros H2%Z.eqb_neq.
  apply IH. intros Hl. apply H. by constructor.
Qed.

(** ** Servers *)

Lemma yields_parse_host tr s : tr <> drive_transport_unix -> yields (opt (fun v => server_ok v /\ srv_transport v = tr)) (parse_host tr s).
Proof.
  intros Ht. unfold parse_host.
  assert (forall h p, valid_hostname h = true -> p = 0 \/ valid_port p = true ->
    opt (fun v => server_ok v /\ srv_transport v = tr) (Some (mk_server tr h p))) as Hok.
  { intros h p H1 H2. split; [|done]. unfold server_ok. cbn. by destruct tr. }
  destruct (re_hostname_port s) as [[h ps]|].
  - destruct (sscanf_d ps) as [p|]; cbn [mbind option_bind]; [|by apply yields_null].
    destruct (valid_port p) eqn:Ep; [|by apply yields_null].
    apply yields_if; intros Hh; [by apply yields_null|]. apply negb_false_iff in Hh. apply yields_ret. auto.
  - apply yields_if; intros Hh; [by apply yields_null|]. apply negb_false_iff in Hh. apply yields_ret. auto.
Qed.

Lemma yields_parse_one_server s : yields (opt server_ok) (parse_one_server s).
Proof.
  unfold parse_one_server. destruct (after_prefix "tcp:" s) as [r|].
  { eapply yields_conseq; [|by apply yields_parse_host]. by intros [v|]; [intros []|]. }
  destruct (after_prefix "unix:" s) as [[|c r]|].
  - by apply yields_null.
  - by apply yields_ret.
  - eapply yields_conseq; [|by apply yields_parse_host]. by intros [v|]; [intros []|].
Qed.

Lemma yields_parse_servers strs : yields (opt (Forall server_ok)) (parse_servers strs).
Proof.
  induction strs as [|s strs IH]; cbn [parse_servers]; [by apply yields_ret; constructor|].
  eapply yields_bind; [apply yields_parse_one_server|]. intros [v|] Hv; [|by apply yields_ret].
  eapply yields_bind; [apply IH|]. intros [vs|] Hvs; apply yields_ret; [by constructor|done].
Qed.

Lemma yields_add_drive_data filename o :
  yields (opt (fun data => data_ok data /\ dc_exportname data = filename /\ dc_disk_label data = o_label o))
    (add_drive_data filename o).
Proof.
  unfold add_drive_data. eapply (yields_bind (opt (Forall server_ok))).
  { destruct (o_server o); [apply yields_parse_servers|by apply yields_ret; constructor]. }
  intros [servers|] Hs; [|by apply yields_ret].
  destruct (parse_discard (o_discard o)) as [dis|]; [|by apply yields_null]. cbv zeta.
  apply yields_check_data; intros H1. apply yields_check_data; intros H2. apply yields_check_data; intros H3.
  apply yields_check_data; intros H4. apply yields_check_data; intros H5. apply yields_ret.
  split; [|done]. split; [by split|done|]. cbn in *. intros Hr Hd. rewrite Hr in H1. cbn in H1.
  by apply bool_decide_eq_false in H1.
Qed.

(** ** Creation *)

Definition created (label : option string) (d : drive) : Prop := drive_ok d /\ drv_disk_label d = label.

(** The drive as it is before its overlay. *)
Lemma yields_with_overlay ro d label :
  options_ok (src_format (drv_src d)) (drv_iface d) (drv_disk_label d) (drv_cachemode d) ->
  Forall server_ok (src_servers (drv_src d)) -> protocol_ok (drv_src d) ->
  drv_readonly d = ro -> (ro = true -> drv_discard d <> discard_enable) -> drv_disk_label d = label ->
  yields (opt (created label)) (with_overlay ro d).
Proof.
  intros H1 H2 H3 H4 H5 H6. apply yields_if; intros Hro.
  - intros g0 g Hg. unfold create_overlay.
    destruct (bo_create_cow_overlay (g_backend_ops g)) as [f|].
    + revert g Hg. match goal with |- forall g, _ -> exists a s', ?m g = _ /\ _ =>
        enough (yields (opt (created label)) m) as Hm by (intros g Hg; exact (Hm g0 g Hg)) end.
      eapply yields_bind; [apply yields_core; intros g; apply core_debug|]. intros _ _.
      destruct (f d) as [ov|]; apply yields_ret; [|done]. split; [|done].
      split; cbn; [done|done|done|by eexists|intros _; by apply H5].
    + by apply (yields_null (opt (created label))).
  - apply yields_ret. split; [|done]. split; try done; congruence.
Qed.

Lemma yields_create_drive_file data label : dc_disk_label data = label -> data_ok data -> yields (opt (created label)) (create_drive_file data).
Proof. intros <- [H1 H2 H3]. by apply yields_with_overlay. Qed.

Lemma yields_create_drive_non_file data label : dc_disk_label data = label -> data_ok data ->
  protocol_ok (mk_source (dc_protocol data) (dc_format data) (dc_exportname data) (dc_servers data)
                 (dc_username data) (dc_secret data)) ->
  yields (opt (created label)) (create_drive_non_file data).
Proof. intros <- [H1 H2 H3] Hp. by apply yields_with_overlay. Qed.

Lemma not_set {A} (o : option A) : is_set o = false -> o = None.
Proof. by destruct o. Qed.
Lemma STREQ_false a b : STREQ a b = false -> a <> b.
Proof. unfold STREQ. by rewrite bool_decide_eq_false. Qed.

(** One protocol after the other: collect what the checks establish. *)
Ltac creation :=
  repeat first
    [ apply yields_check; let E := fresh "E" in intros E;
      first [apply not_set in E|apply STREQ_false in E|apply negb_false_iff in E|idtac]
    | apply yields_one_server; let s := fresh "s" in let E := fresh "E" in intros s E
    | apply yields_check_servers; let E := fresh "E" in intros E ];
  apply yields_create_drive_non_file; [done|done|];
  unfold protocol_ok, anonymous, relative_name;
  cbn [src_protocol src_format src_path src_servers src_username src_secret].

Lemma yields_create_drive_curl data label : dc_disk_label data = label -> data_ok data ->
  dc_protocol data ∈ [drive_protocol_ftp; drive_protocol_ftps; drive_protocol_http; drive_protocol_https; drive_protocol_tftp] ->
  yields (opt (created label)) (create_drive_curl data).
Proof.
  intros <- Hd Hp. unfold create_drive_curl. creation.
  assert ((exists srv, dc_servers data = [srv] /\ tcp_or_none srv = true) /\ absolute (dc_exportname data) = true) as H
    by eauto.
  rewrite !elem_of_cons in Hp. destruct Hp as [->|[->|[->|[->|[->|Hp]]]]]; try exact H. by apply not_elem_of_nil in Hp.
Qed.
Lemma yields_create_drive_gluster data label : dc_disk_label data = label -> data_ok data -> dc_protocol data = drive_protocol_gluster ->
  yields (opt (created label)) (create_drive_gluster data).
Proof. intros <- Hd Hp. unfold create_drive_gluster. creation. rewrite Hp. eauto 10. Qed.
Lemma yields_create_drive_iscsi data label : dc_disk_label data = label -> data_ok data -> dc_protocol data = drive_protocol_iscsi ->
  yields (opt (created label)) (create_drive_iscsi data).
Proof. intros <- Hd Hp. unfold create_drive_iscsi. creation. rewrite Hp. eauto 10. Qed.
Lemma yields_create_drive_rbd data label : dc_disk_label data = label -> data_ok data -> dc_protocol data = drive_protocol_rbd ->
  yields (opt (created label)) (create_drive_rbd data).
Proof. intros <- Hd Hp. unfold create_drive_rbd. creation. rewrite Hp. eauto 10. Qed.
Lemma yields_create_drive_sheepdog data label : dc_disk_label data = label -> data_ok data -> dc_protocol data = drive_protocol_sheepdog ->
  yields (opt (created label)) (create_drive_sheepdog data).
Proof. intros <- Hd Hp. unfold create_drive_sheepdog. creation. rewrite Hp. eauto 10. Qed.
Lemma yields_create_drive_ssh data label : dc_disk_label data = label -> data_ok data -> dc_protocol data = drive_protocol_ssh ->
  yields (opt (created label)) (create_drive_ssh data).
Proof.
  intros <- Hd Hp. unfold create_drive_ssh. creation. rewrite Hp.
  match goal with H : bool_decide _ = false |- _ => apply bool_decide_eq_false in H end. eauto 10.
Qed.

Lemma valid_port_nonzero p : valid_port p = true -> p <> 0.
Proof. unfold valid_port. intros H ->. done. Qed.

Lemma yields_create_drive_nbd gs data label : dc_disk_label data = label -> data_ok data -> dc_protocol data = drive_protocol_nbd ->
  valid_port (nbd_port gs) = true ->
  yields (opt (created label)) (create_drive_nbd gs data).
Proof.
  intros <- Hd Hp Hport. unfold create_drive_nbd.
  apply yields_check; intros E1%not_set. apply yields_check; intros E2%not_set.
  apply yields_one_server; intros s Es.
  destruct Hd as [H1 H2 H3]. rewrite Es in H2. inversion H2 as [|? ? Hs _]; subst.
  destruct (Z.eqb_spec (srv_port s) 0) as [Ep|Ep].
  - apply (yields_create_drive_non_file (data <| dc_servers := [mk_server (srv_transport s) (srv_host s) (nbd_port gs)] |>)); [done| |].
    + split; try done. cbn. constructor; [|done]. unfold server_ok in *. cbn.
      destruct (srv_transport s); [|destruct Hs; auto|done]. destruct Hs; auto.
    + cbn. rewrite Hp. cbn. split; [eexists; split; [reflexivity|]|done]. cbn. by apply valid_port_nonzero.
  - apply yields_create_drive_non_file; [done|by split; rewrite ?Es|].
    unfold protocol_ok, anonymous. cbn. rewrite Hp. cbn. eauto 10.
Qed.

Section creation.
Context {C : Type} `{ConnOps C}.
Context (access : string -> option Z) (getservbyname : option Z) (mkdtemp : string -> Z + string)
        (guestfs_disk_create : string -> string -> Z -> hm Z).
(** guestfs_disk_create returns, and leaves the drives alone. *)
Context (disk_create_neutral : forall f fmt size, yields (fun _ => True) (guestfs_disk_create f fmt size)).
(** The services file has ports between 1 and 65535. *)
Context (nbd_port_valid : valid_port (nbd_port getservbyname) = true).

Lemma yields_lazy_make_tmpdir : yields (fun _ => True) (guestfs___lazy_make_tmpdir mkdtemp).
Proof.
  intros g0 g (H1 & H2 & H3). destruct (lazy_make_tmpdir_spec mkdtemp g) as (r & g' & E & K & _).
  exists r, g'. split; [done|]. split; [|done].
  pose proof (f_equal g_state K) as E1. pose proof (f_equal g_drives K) as E2. pose proof (f_equal g_backend_ops K) as E3.
  cbn in E1, E2, E3. unfold neutral. split_and!; congruence.
Qed.

Lemma yields_fresh_tmp base : yields (fun _ => True) (fresh_tmp base).
Proof. intros g0 g Hg. eexists _, _. by split. Qed.

Lemma yields_create_drive_dev_null data : data_ok data ->
  yields (opt (created (dc_disk_label data))) (create_drive_dev_null mkdtemp guestfs_disk_create data).
Proof.
  intros [H1 H2 H3]. unfold create_drive_dev_null. apply yields_if; intros _; [by apply yields_null|].
  eapply yields_bind; [apply yields_lazy_make_tmpdir|intros r _]. apply yields_if; intros _; [by apply yields_ret|].
  eapply yields_bind; [apply yields_fresh_tmp|intros f _].
  eapply yields_bind; [apply disk_create_neutral|intros r' _]. apply yields_if; intros _; [by apply yields_ret|].
  by apply yields_with_overlay.
Qed.

Lemma yields_create_by_protocol filename protocol data : data_ok data ->
  yields (opt (created (dc_disk_label data)))
    (create_by_protocol access getservbyname mkdtemp guestfs_disk_create filename protocol data).
Proof.
  intros Hd. unfold create_by_protocol. cbv zeta.
  assert (forall p, data_ok (data <| dc_protocol := p |>)) as Hd' by (intros p; by destruct Hd).
  assert (forall p, p ∈ [drive_protocol_ftp; drive_protocol_ftps; drive_protocol_http; drive_protocol_https; drive_protocol_tftp] ->
    yields (opt (created (dc_disk_label data))) (create_drive_curl (data <| dc_protocol := p |>))) as Hcurl.
  { intros p Hp. by apply (yields_create_drive_curl (data <| dc_protocol := p |>)). }
  apply yields_if; intros _.
  { unfold create_file_protocol. destruct (dc_servers data) eqn:Es; [|by apply yields_null].
    apply yields_check; intros _. apply yields_check; intros _.
    apply yields_if; intros _; [by apply yields_create_drive_dev_null|].
    destruct (access filename); [|by apply yields_create_drive_file].
    eapply yields_bind; [apply yields_core; intros g; apply core_perrorf|]. intros _ _. by apply yields_ret. }
  repeat (apply yields_if; intros _; [first
    [ apply Hcurl; repeat first [by left|right]
    | by apply (yields_create_drive_gluster (data <| dc_protocol := drive_protocol_gluster |>))
    | by apply (yields_create_drive_iscsi (data <| dc_protocol := drive_protocol_iscsi |>))
    | by apply (yields_create_drive_nbd getservbyname (data <| dc_protocol := drive_protocol_nbd |>))
    | by apply (yields_create_drive_rbd (data <| dc_protocol := drive_protocol_rbd |>))
    | by apply (yields_create_drive_sheepdog (data <| dc_protocol := drive_protocol_sheepdog |>))
    | by apply (yields_create_drive_ssh (data <| dc_protocol := drive_protocol_ssh |>)) ]|]).
  by apply yields_null.
Qed.

Lemma yields_create_drive filename o :
  yields (opt (created (o_label o))) (create_drive access getservbyname mkdtemp guestfs_disk_create filename o).
Proof.
  eapply yields_bind; [apply yields_add_drive_data|]. intros [data|] Hd; [|by apply yields_ret].
  destruct Hd as (Hd & _ & <-). by apply yields_create_by_protocol.
Qed.
End creation.

(** ** The vector *)

Lemma add_at_free d i g : (i <= length (g_drives g))%nat -> (forall x, g_drives g !! i = Some x -> x = None) ->
  exists drives', add_drive_to_handle_at d i g = (Ret tt, g <| g_drives := drives' |>) /\
    drives' !! i = Some (Some d) /\ (forall j, j <> i -> drives' !! j = g_drives g !! j) /\
    drives' = (if decide (i = length (g_drives g)) then g_drives g ++ [Some d] else <[i := Some d]> (g_drives g)).
Proof.
  intros Hi Hfree. unfold add_drive_to_handle_at.
  destruct (decide (i = length (g_drives g))) as [->|Hne].
  - replace (S (length (g_drives g)) - length (g_drives g))%nat with 1%nat by lia. cbn [replicate].
    rewrite lookup_app_r, Nat.sub_diag by lia. cbn [lookup list_lookup].
    rewrite insert_length_app. eexists. split_and!; [reflexivity| | |done].
    + by rewrite lookup_app_r, Nat.sub_diag by lia.
    + intros j Hj. destruct (decide (j < length (g_drives g))%nat); [by rewrite lookup_app_l|].
      rewrite lookup_app_r by lia. rewrite (lookup_ge_None_2 (g_drives g)) by lia.
      by destruct (j - length (g_drives g))%nat eqn:E; [lia|].
  - replace (S i - length (g_drives g))%nat with 0%nat by lia. cbn [replicate]. rewrite app_nil_r.
    destruct (lookup_lt_is_Some_2 (g_drives g) i) as [x Hx]; [lia|]. rewrite Hx, (Hfree x Hx).
    eexists. split_and!; [reflexivity| | |done].
    + apply list_lookup_insert_eq. lia.
    + intros j Hj. by apply list_lookup_insert_ne.
Qed.

(** The loop picks the last free slot. *)
Lemma free_index_spec : forall drives i d,
  free_index i drives d = d /\ Forall is_Some drives \/
  exists k, free_index i drives d = (i + k)%nat /\ drives !! k = Some None /\
    (forall j x, (k < j)%nat -> drives !! j = Some x -> is_Some x).
Proof.
  induction drives as [|x drives IH]; intros i d; cbn [free_index]; [left; by split|].
  destruct (IH (S i) (match x with None => i | Some _ => d end)) as [[E HF]|(k & E & Hk & Hl)].
  - destruct x as [v|].
    + left. split; [done|]. by constructor.
    + right. exists 0%nat. rewrite E. split_and!; [lia|done|]. intros [|j] y Hj Hy; [lia|].
      rewrite Forall_forall in HF. apply HF. by eapply list_elem_of_lookup_2.
  - right. exists (S k). split_and!; [lia|done|]. intros [|j] y Hj Hy; [lia|]. eapply Hl; [|exact Hy]. lia.
Qed.

Lemma hotplug_index_spec drives :
  (hotplug_index drives <= length drives)%nat /\
  (forall x, drives !! hotplug_index drives = Some x -> x = None) /\
  (forall j x, (hotplug_index drives < j)%nat -> drives !! j = Some x -> is_Some x) /\
  (hotplug_index drives = length drives -> Forall is_Some drives).
Proof.
  unfold hotplug_index. destruct (free_index_spec drives 0 (length drives)) as [[-> HF]|(k & -> & Hk & Hl)].
  - split_and!; [done| | |done].
    + intros x Hx%lookup_lt_Some. lia.
    + intros j x Hj Hx%lookup_lt_Some. lia.
  - cbn [Nat.add]. apply lookup_lt_Some in Hk as Hlt. split_and!; [lia| |done|lia].
    intros x Hx. congruence.
Qed.

Lemma find_label_spec label : forall drives i,
  match find_label label i drives with
  | Some (k, d) => (i <= k)%nat /\ drives !! (k - i)%nat = Some (Some d) /\ drv_disk_label d = Some label
  | None => Forall (opt (fun d => drv_disk_label d <> Some label)) drives
  end.
Proof.
  induction drives as [|[d|] drives IH]; intros i; cbn [find_label]; [constructor| |].
  - case_bool_decide as Hd.
    + split; [lia|]. by rewrite Nat.sub_diag.
    + specialize (IH (S i)). destruct (find_label label (S i) drives) as [[k d']|].
      * destruct IH as (H1 & H2 & H3). split_and!; [lia| |done].
        by replace (k - i)%nat with (S (k - S i)) by lia.
      * by constructor.
  - specialize (IH (S i)). destruct (find_label label (S i) drives) as [[k d']|].
    + destruct IH as (H1 & H2 & H3). split_and!; [lia| |done].
      by replace (k - i)%nat with (S (k - S i)) by lia.
    + by constructor.
Qed.

Lemma find_label_snoc label d : forall drives i,
  Forall (opt (fun d => drv_disk_label d <> Some label)) drives -> drv_disk_label d = Some label ->
  find_label label i (drives ++ [Some d]) = Some ((i + length drives)%nat, d).
Proof.
  induction drives as [|[x|] drives IH]; intros i HF Hd; cbn [app find_label length].
  - rewrite bool_decide_eq_true_2 by done. by rewrite Nat.add_0_r.
  - inversion HF as [|? ? Hx HF']; subst. cbn in Hx. rewrite bool_decide_eq_false_2 by done.
    rewrite IH by done. by rewrite Nat.add_succ_r.
  - inversion HF; subst. rewrite IH by done. by rewrite Nat.add_succ_r.
Qed.

Definition drives_ok (drives : list (option drive)) : Prop := Forall (opt drive_ok) drives.

Lemma clear_slot_lookup i drives j x : (i < length drives)%nat ->
  clear_slot i drives !! j = Some x -> j <> i /\ drives !! j = Some x \/ j = i /\ x = None.
Proof.
  intros Hi. unfold clear_slot. rewrite length_insert.
  intros Hx. assert (<[i:=None]> drives !! j = Some x) as Hx'.
  { destruct (i =? length drives - 1)%nat; [|done]. by apply lookup_take_Some in Hx as [? _]. }
  destruct (decide (j = i)) as [->|Hne].
  - rewrite list_lookup_insert_eq in Hx' by done. right. split; [done|congruence].
  - rewrite list_lookup_insert_ne in Hx' by done. by left.
Qed.

Lemma clear_slot_keeps i drives j x : (i < length drives)%nat -> j <> i ->
  drives !! j = Some x -> clear_slot i drives !! j = Some x.
Proof.
  intros Hi Hj Hx. unfold clear_slot. rewrite length_insert.
  apply lookup_lt_Some in Hx as Hl. destruct (Nat.eqb_spec i (length drives - 1)).
  - rewrite lookup_take_lt by lia. by rewrite list_lookup_insert_ne.
  - by rewrite list_lookup_insert_ne.
Qed.

Lemma evolves_drives {C} `{ConnLaws C} (l l' : lib C) : evolves l l' ->
  g_drives (l_g l') = g_drives (l_g l) \/ g_drives (l_g l') = [].
Proof.
  induction 1 as [|l1 l2 l3 Hs _ IH]; [by left|].
  destruct Hs as [? ? _ E _|? ? _ _ E _|? ? _ E _]; rewrite E in IH; tauto.
Qed.

(** * Properties *)

Section properties.
Context {C : Type} `{ConnLaws C}.
Context (access : string -> option Z) (getservbyname : option Z) (mkdtemp : string -> Z + string)
        (guestfs_disk_create : string -> string -> Z -> hm Z)
        (hot_add_call hot_remove_precheck hot_remove_call : string -> M (lib C) Z).
(** guestfs_disk_create returns, and leaves the drives alone. *)
Context (disk_create_neutral : forall f fmt size, yields (fun _ => True) (guestfs_disk_create f fmt size)).
(** The services file has ports between 1 and 65535. *)
Context (nbd_port_valid : valid_port (nbd_port getservbyname) = true).

#[local] Notation add_drive := (guestfs__add_drive_opts access getservbyname mkdtemp guestfs_disk_create hot_add_call).
#[local] Notation remove_drive := (guestfs__remove_drive hot_remove_precheck hot_remove_call).

Lemma create_drive_lib filename o (l : lib C) :
  exists r g', on_hm (create_drive access getservbyname mkdtemp guestfs_disk_create filename o) l =
      (Ret r, l <| l_g := g' |>) /\ neutral (l_g l) g' /\ opt (created (o_label o)) r.
Proof.
  destruct (yields_create_drive access getservbyname mkdtemp guestfs_disk_create disk_create_neutral
    nbd_port_valid filename o (l_g l) (l_g l)) as (r & g' & E & Hn & Hc); [done|].
  exists r, g'. split; [|done]. unfold on_hm, zoom. by rewrite E.
Qed.

(** Before launch: what one call does to the drives. *)
Lemma add_drive_config_spec filename o (l : lib C) : g_state (l_g l) = CONFIG ->
  exists r l', add_drive filename o l = (Ret r, l') /\ g_state (l_g l') = CONFIG /\ l_conn l' = l_conn l /\
    (r = -1 /\ g_drives (l_g l') = g_drives (l_g l) \/
     exists d, r = 0 /\ g_drives (l_g l') = g_drives (l_g l) ++ [Some d] /\ created (o_label o) d).
Proof.
  intros Hs. destruct (create_drive_lib filename o l) as (r & g' & E & (Hs' & Hd & _) & Hc).
  unfold guestfs__add_drive_opts. mstep E. destruct r as [d|].
  - rewrite decide_True by (cbn; congruence).
    destruct (add_at_free d (length (g_drives g')) g') as (ds & E2 & _ & _ & Eds); [done| |].
    { intros x Hx%lookup_lt_Some. lia. }
    rewrite decide_True in Eds by done.
    assert (on_hm (add_drive_to_handle d) (l <| l_g := g' |>) = (Ret tt, l <| l_g := g' <| g_drives := ds |> |>)) as E3.
    { unfold on_hm, zoom. change (l_g (l <| l_g := g' |>)) with g'. unfold add_drive_to_handle. by rewrite E2. }
    mstep E3. eexists _, _. split; [reflexivity|]. cbn. split_and!; [congruence|done|].
    right. exists d. rewrite Eds, Hd. done.
  - eexists _, _. split; [reflexivity|]. cbn. split_and!; [congruence|done|]. by left.
Qed.

(** A sequence of calls before launch only appends well-formed drives. *)
Fixpoint add_all (args : list (string * add_drive_optargs)) : M (lib C) (list Z) :=
  match args with
  | [] => ret []
  | (f, o) :: args' => r <- add_drive f o ;; rs <- add_all args' ;; ret (r :: rs)
  end.

Lemma add_all_spec args (l : lib C) : g_state (l_g l) = CONFIG ->
  exists rs l' ds, add_all args l = (Ret rs, l') /\ g_state (l_g l') = CONFIG /\
    g_drives (l_g l') = g_drives (l_g l) ++ ds /\ drives_ok ds /\
    length ds = length (filter (fun r : Z => r = 0%Z) rs).
Proof.
  revert l. induction args as [|[f o] args IH]; intros l Hs; cbn [add_all].
  - exists [], l, []. rewrite app_nil_r. split_and!; try done. constructor.
  - destruct (add_drive_config_spec f o l Hs) as (r & l1 & E1 & S1 & _ & Hr). mstep E1.
    destruct (IH l1 S1) as (rs & l2 & ds & E2 & S2 & D2 & O2 & L2). mstep E2.
    destruct Hr as [[-> D1]|(d & -> & D1 & Hd)].
    + exists (-1 :: rs), l2, ds. rewrite D2, D1. split_and!; try done.
    + exists (0 :: rs), l2, (Some d :: ds). rewrite D2, D1, <- app_assoc. split_and!; try done.
      * constructor; [by destruct Hd|done].
      * rewrite filter_cons_True by done. cbn. by rewrite L2.
Qed.

(** Adding any list of drives before launch appends one valid drive per successful call,
    whatever fails in between, and rolling back to the checkpoint restores exactly the drives
    there were. *)
Theorem add_drives_rollback args (l : lib C) :
  g_state (l_g l) = CONFIG -> drives_ok (g_drives (l_g l)) ->
  exists rs l', add_all args l = (Ret rs, l') /\
    drives_ok (g_drives (l_g l')) /\
    length (g_drives (l_g l')) = (length (g_drives (l_g l)) + length (filter (fun r : Z => r = 0%Z) rs))%nat /\
    g_drives (guestfs___rollback_drives (guestfs___checkpoint_drives (l_g l)) (l_g l')) = g_drives (l_g l).
Proof.
  intros Hs Hok. destruct (add_all_spec args l Hs) as (rs & l' & ds & E & _ & D & O & L).
  exists rs, l'. split; [done|]. rewrite D. split_and!.
  - by apply Forall_app.
  - by rewrite length_app, L.
  - cbn. rewrite D. apply take_app_length.
Qed.

(** Before launch, removing a drive by the fresh label it was just added with restores the
    drive table, and a second removal fails and changes nothing. *)
Theorem add_remove_drive filename o label (l l1 : lib C) :
  g_state (l_g l) = CONFIG -> o_label o = Some label ->
  Forall (opt (fun d => drv_disk_label d <> Some label)) (g_drives (l_g l)) ->
  add_drive filename o l = (Ret 0, l1) ->
  exists l2, remove_drive label l1 = (Ret 0, l2) /\ g_drives (l_g l2) = g_drives (l_g l) /\
    exists l3, remove_drive label l2 = (Ret (-1), l3) /\ g_drives (l_g l3) = g_drives (l_g l).
Proof.
  intros Hs Hl Hfresh E. destruct (add_drive_config_spec filename o l Hs) as (r & l1' & E' & S1 & _ & Hr).
  rewrite E in E'. injection E' as <- <-. destruct Hr as [[? _]|(d & _ & D & [_ Hd])]; [done|].
  rewrite Hl in Hd. unfold guestfs__remove_drive.
  rewrite D, find_label_snoc by done. rewrite decide_True by done. cbn [Nat.add].
  eexists. split; [reflexivity|].
  assert (g_drives (l_g l1) = g_drives (l_g l) ++ [Some d]) as D' by done.
  assert (delete (length (g_drives (l_g l))) (g_drives (l_g l1)) = g_drives (l_g l)) as Edel.
  { rewrite D'. rewrite delete_middle. by rewrite app_nil_r. }
  split; [exact Edel|]. cbn. rewrite Edel.
  pose proof (find_label_spec label (g_drives (l_g l)) 0) as Hf.
  destruct (find_label label 0 (g_drives (l_g l))) as [[k d']|].
  - exfalso. destruct Hf as (_ & Hk & Hl'). rewrite Forall_forall in Hfresh.
    exact (Hfresh (Some d') (list_elem_of_lookup_2 _ _ _ Hk) Hl').
  - eexists. split; [reflexivity|]. cbn.
    match goal with |- g_drives (error ?x ?m) = _ => etransitivity; [exact (f_equal g_drives (core_error_errno x 0 m))|] end.
    exact Edel.
Qed.

(** Hotplugging: the generated calls of the daemon return, and either leave the
    drives alone or, when the appliance dies, fail. *)
Definition daemon_call (f : string -> M (lib C) Z) : Prop :=
  forall label l, exists r l', f label l = (Ret r, l') /\ evolves l l' /\
    (r <> -1 -> g_drives (l_g l') = g_drives (l_g l)).

(** Hot-adding a drive fails, or succeeds with a labelled, valid drive that the backend
    accepted at index i: slot i was free or one past the end, it now holds the drive, every
    other slot is unchanged and no later slot was free. *)
Theorem hotplug_add_slot filename o (l : lib C) :
  daemon_call hot_add_call -> g_state (l_g l) <> CONFIG ->
  exists r l', add_drive filename o l = (Ret r, l') /\
    (r = -1 \/
     exists d i hot_add_drive,
       r = 0 /\ drive_ok d /\ bo_hot_add_drive (g_backend_ops (l_g l)) = Some hot_add_drive /\
       hot_add_drive d i <> -1 /\ is_Some (drv_disk_label d) /\
       g_drives (l_g l') !! i = Some (Some d) /\
       (forall j, j <> i -> g_drives (l_g l') !! j = g_drives (l_g l) !! j) /\
       (forall x, g_drives (l_g l) !! i = Some x -> x = None) /\
       (forall j x, (i < j)%nat -> g_drives (l_g l) !! j = Some x -> is_Some x)).
Proof.
  intros Hcall Hs. destruct (create_drive_lib filename o l) as (r & g' & E & (Hs' & Hd & Hb) & Hc).
  unfold guestfs__add_drive_opts. mstep E. destruct r as [d|]; [|eexists _, _; split; [reflexivity|by left]].
  rewrite decide_False by (cbn; congruence). unfold hot_add. cbn [l_g upd upd_l_g]. rewrite Hb.
  destruct (bo_hot_add_drive (g_backend_ops (l_g l))) as [f|] eqn:Ef; [|eexists _, _; split; [reflexivity|by left]].
  destruct (drv_disk_label d) as [label|] eqn:El; [|eexists _, _; split; [reflexivity|by left]].
  rewrite Hd. set (i := hotplug_index (g_drives (l_g l))).
  destruct (Z.eqb_spec (f d i) (-1)) as [Ebad|Egood]; [eexists _, _; split; [reflexivity|by left]|].
  destruct (hotplug_index_spec (g_drives (l_g l))) as (H1 & H2 & H3 & _). fold i in H1, H2, H3.
  destruct (add_at_free d i g') as (ds & E2 & L1 & L2 & _); [by rewrite Hd|by rewrite Hd|]. rewrite Hd in L2.
  assert (on_hm (add_drive_to_handle_at d i) (l <| l_g := g' |>) =
    (Ret tt, l <| l_g := g' <| g_drives := ds |> |>)) as E3.
  { unfold on_hm, zoom. change (l_g (l <| l_g := g' |>)) with g'. by rewrite E2. }
  mstep E3. destruct (Hcall label (l <| l_g := g' <| g_drives := ds |> |>)) as (r & l' & E4 & _ & Hr). mstep E4.
  destruct (Z.eqb_spec r (-1)) as [->|Hne]; [eexists _, _; split; [reflexivity|by left]|].
  eexists _, _. split; [reflexivity|]. right. exists d, i, f. rewrite (Hr Hne). destruct Hc as [Hok _].
  split_and!; try done.
Qed.

(** Hot-removing a drive by label fails, or empties exactly the slot of a drive with that
    label and changes no other slot, so the device numbering of the remaining drives is kept. *)
Theorem hotplug_remove_slot label (l : lib C) :
  daemon_call hot_remove_precheck -> daemon_call hot_remove_call -> g_state (l_g l) <> CONFIG ->
  exists r l', remove_drive label l = (Ret r, l') /\
    (r = -1 \/
     exists d i, r = 0 /\ g_drives (l_g l) !! i = Some (Some d) /\ drv_disk_label d = Some label /\
       (forall x, g_drives (l_g l') !! i = Some x -> x = None) /\
       (forall j x, j <> i -> (g_drives (l_g l) !! j = Some x <-> g_drives (l_g l') !! j = Some x))).
Proof.
  intros Hpre Hrm Hs. unfold guestfs__remove_drive.
  pose proof (find_label_spec label (g_drives (l_g l)) 0) as Hf.
  destruct (find_label label 0 (g_drives (l_g l))) as [[i d]|]; [|eexists _, _; split; [reflexivity|by left]].
  destruct Hf as (_ & Hi & Hl). rewrite Nat.sub_0_r in Hi. rewrite decide_False by done. unfold hot_remove.
  destruct (bo_hot_remove_drive (g_backend_ops (l_g l))) as [f|]; [|eexists _, _; split; [reflexivity|by left]].
  destruct (Hpre label l) as (r1 & l1 & E1 & _ & H1). mstep E1.
  destruct (Z.eqb_spec r1 (-1)) as [->|Hr1]; [eexists _, _; split; [reflexivity|by left]|].
  destruct (Z.eqb_spec (f d i) (-1)); [eexists _, _; split; [reflexivity|by left]|].
  unfold on_g. rewrite bind_modify. set (l2 := upd l_g _ l1).
  destruct (Hrm label l2) as (r3 & l3 & E3 & _ & H3). mstep E3.
  destruct (Z.eqb_spec r3 (-1)) as [->|Hr3]; [eexists _, _; split; [reflexivity|by left]|].
  eexists _, _. split; [reflexivity|]. right. exists d, i.
  assert (g_drives (l_g l3) = clear_slot i (g_drives (l_g l))) as ->.
  { rewrite (H3 Hr3). cbn. by rewrite (H1 Hr1). }
  apply lookup_lt_Some in Hi as Hlt. split_and!; [done|done|done| |].
  - intros x Hx. destruct (clear_slot_lookup _ _ _ _ Hlt Hx) as [[? _]|[_ ?]]; [done|done].
  - intros j x Hj. split.
    + intros Hx. by apply clear_slot_keeps.
    + intros Hx. destruct (clear_slot_lookup _ _ _ _ Hlt Hx) as [[_ ?]|[? _]]; [done|done].
Qed.

(** ** All drives of a handle are always well formed *)

Inductive drive_step : lib C -> lib C -> Prop :=
  | step_add filename o l r l' : add_drive filename o l = (Ret r, l') -> drive_step l l'
  | step_remove label l r l' : remove_drive label l = (Ret r, l') -> drive_step l l'
  | step_dummy l l' : on_hm guestfs___add_dummy_appliance_drive l = (Ret tt, l') -> drive_step l l'
  | step_rollback old_i l : drive_step l (l <| l_g ::= guestfs___rollback_drives old_i |>)
  | step_other l l' : evolves l l' -> drive_step l l'.

Lemma drives_ok_lookup drives : (forall i x, drives !! i = Some x -> opt drive_ok x) -> drives_ok drives.
Proof.
  intros Hx. apply Forall_forall. intros x Hin. apply list_elem_of_lookup_1 in Hin as [i Hi]. by eapply Hx.
Qed.

Lemma drives_ok_evolves (l l' : lib C) : evolves l l' -> drives_ok (g_drives (l_g l)) -> drives_ok (g_drives (l_g l')).
Proof. intros [E|E]%evolves_drives; rewrite E; [done|constructor]. Qed.

Lemma drive_step_add filename o (l : lib C) r l' :
  daemon_call hot_add_call -> add_drive filename o l = (Ret r, l') ->
  drives_ok (g_drives (l_g l)) -> drives_ok (g_drives (l_g l')).
Proof.
  intros Hcall E Hok. destruct (create_drive_lib filename o l) as (r1 & g' & E1 & (Hs' & Hd & Hb) & Hc).
  unfold guestfs__add_drive_opts in E. rewrite (bind_Ret _ _ _ _ _ E1) in E.
  assert (drives_ok (g_drives g')) as Hok' by (by rewrite Hd).
  destruct r1 as [d|]; [|by injection E as <- <-].
  assert (forall i g2, on_hm (C := C) (add_drive_to_handle_at d i) (l <| l_g := g' |>) = (Ret tt, l <| l_g := g2 |>) ->
    (i <= length (g_drives g'))%nat -> (forall x, g_drives g' !! i = Some x -> x = None) -> drives_ok (g_drives g2)) as Hadd.
  { intros i g2 E2 Hi Hfree. destruct (add_at_free d i g' Hi Hfree) as (ds & E3 & L1 & L2 & _).
    unfold on_hm, zoom in E2. change (l_g (l <| l_g := g' |>)) with g' in E2. rewrite E3 in E2.
    injection E2 as <-. cbn. apply drives_ok_lookup. intros j x Hx. destruct (decide (j = i)) as [->|Hj].
    - rewrite L1 in Hx. injection Hx as <-. by destruct Hc.
    - rewrite L2 in Hx by done. unfold drives_ok in Hok'. rewrite Forall_forall in Hok'.
      eapply Hok', list_elem_of_lookup_2, Hx. }
  destruct (decide (g_state (l_g (l <| l_g := g' |>)) = CONFIG)).
  - apply bind_inv in E as ([] & l2 & E2 & E3). injection E3 as <- <-.
    assert (exists g2, l2 = l <| l_g := g2 |>) as [g2 ->].
    { unfold on_hm, zoom in E2. destruct (add_drive_to_handle d _) as [? g2]. injection E2 as _ <-. eauto. }
    apply (Hadd (length (g_drives g')) g2 E2); [done|]. intros x Hx%lookup_lt_Some. lia.
  - unfold hot_add in E. cbn [l_g upd upd_l_g] in E.
    assert (forall m : string, drives_ok (g_drives (error g' m))) as Herr.
    { intros m. by rewrite (f_equal g_drives (core_error_errno g' 0 m) : g_drives (error g' m) = g_drives g'). }
    destruct (bo_hot_add_drive (g_backend_ops g')) as [f|]; [|injection E as <- <-; apply Herr].
    destruct (drv_disk_label d) as [label|]; [|injection E as <- <-; apply Herr].
    destruct (f d _ =? -1); [by injection E as <- <-|].
    destruct (hotplug_index_spec (g_drives g')) as (H1 & H2 & _ & _).
    apply bind_inv in E as ([] & l2 & E2 & E3).
    assert (exists g2, l2 = l <| l_g := g2 |>) as [g2 ->].
    { unfold on_hm, zoom in E2. destruct (add_drive_to_handle_at d _ _) as [? g2]. injection E2 as _ <-. eauto. }
    apply bind_inv in E3 as (r4 & l4 & E4 & E5).
    destruct (Hcall label (l <| l_g := g2 |>)) as (r5 & l5 & E6 & Hev & _). rewrite E4 in E6. injection E6 as -> ->.
    assert (l' = l5) as -> by (destruct (r5 =? -1); by injection E5).
    eapply drives_ok_evolves; [exact Hev|]. by eapply Hadd.
Qed.

Lemma drives_ok_clear_slot i drives : drives_ok drives -> drives_ok (clear_slot i drives).
Proof.
  intros Hok. unfold clear_slot. case_if; [apply Forall_take|]; by apply Forall_insert.
Qed.

Lemma drive_step_remove label (l : lib C) r l' :
  daemon_call hot_remove_precheck -> daemon_call hot_remove_call ->
  remove_drive label l = (Ret r, l') -> drives_ok (g_drives (l_g l)) -> drives_ok (g_drives (l_g l')).
Proof.
  intros Hpre Hrm E Hok. unfold guestfs__remove_drive in E.
  assert (forall m : string, drives_ok (g_drives (error (l_g l) m))) as Herr.
  { intros m. by rewrite (f_equal g_drives (core_error_errno (l_g l) 0 m) : g_drives (error (l_g l) m) = g_drives (l_g l)). }
  destruct (find_label label 0 (g_drives (l_g l))) as [[i d]|]; [|injection E as <- <-; apply Herr].
  destruct (decide (g_state (l_g l) = CONFIG)).
  { injection E as <- <-. cbn. by apply Forall_delete. }
  unfold hot_remove in E.
  destruct (bo_hot_remove_drive (g_backend_ops (l_g l))) as [f|]; [|injection E as <- <-; apply Herr].
  destruct (Hpre label l) as (r1 & l1 & E1 & Hev1 & _). rewrite (bind_Ret _ _ _ _ _ E1) in E.
  pose proof (drives_ok_evolves _ _ Hev1 Hok) as Hok1.
  destruct (r1 =? -1); [by injection E as <- <-|]. destruct (f d i =? -1); [by injection E as <- <-|].
  unfold on_g in E. rewrite bind_modify in E.
  match type of E with (_ <- hot_remove_call label ;; _) ?x = _ => destruct (Hrm label x) as (r3 & l3 & E3 & Hev3 & _) end.
  rewrite (bind_Ret _ _ _ _ _ E3) in E. assert (l' = l3) as -> by (destruct (r3 =? -1); by injection E).
  eapply drives_ok_evolves; [exact Hev3|]. by apply drives_ok_clear_slot.
Qed.

Lemma dummy_ok : drive_ok (mk_drive (mk_source drive_protocol_file None "" [] None None) None false
  None None None None discard_disable false).
Proof. by split. Qed.

(** C36: Over any sequence of adding, removing, hotplugging, rolling back drives and protocol
    operations, every drive of the handle satisfies the constraints its protocol and options
    demand (validated names, servers, ports, cache modes and discard modes), and every read-only
    drive has an overlay that protects the original. *)
Theorem drives_always_ok (l l' : lib C) :
  daemon_call hot_add_call -> daemon_call hot_remove_precheck -> daemon_call hot_remove_call ->
  rtc drive_step l l' -> drives_ok (g_drives (l_g l)) ->
  Forall (opt (fun d => drive_ok d /\ (drv_readonly d = true -> is_Some (drv_overlay d)))) (g_drives (l_g l')).
Proof.
  intros H1 H2 H3 Hr Hok. eapply Forall_impl with (P := opt drive_ok).
  2:{ intros [d|]; [|done]. intros Hd. split; [done|]. by destruct Hd. }
  induction Hr as [|x y z Hxy _ IH]; [done|]. apply IH. clear IH.
  destruct Hxy as [f o l r l' E|label l r l' E|l l' E|old_i l|l l' E].
  - by eapply drive_step_add.
  - by eapply drive_step_remove.
  - unfold on_hm, zoom in E. cbn in E. destruct (add_drive_to_handle _ (l_g l)) as [o g'] eqn:E1.
    injection E as -> <-. cbn. unfold add_drive_to_handle in E1.
    match type of E1 with add_drive_to_handle_at ?d ?i ?g = _ =>
      destruct (add_at_free d i g) as (ds & E2 & _ & _ & ->); [done|intros x Hx%lookup_lt_Some; lia|] end.
    rewrite decide_True in E2 by done. rewrite E2 in E1. injection E1 as <-. cbn.
    apply Forall_app. split; [done|]. constructor; [|done]. apply dummy_ok.
  - cbn. by apply Forall_take.
  - by eapply drives_ok_evolves.
Qed.
End properties.

(** ** Servers *)

Lemma chars_app a b : chars (a +:+ b) = chars a ++ chars b.
Proof. induction a as [|c a IH]; [done|]. change (c :: chars (a +:+ b) = c :: chars a ++ chars b). by rewrite IH. Qed.

Lemma span_app {A} (p : A -> bool) a x b : Forall (fun c => p c = true) a -> p x = false ->
  span p (a ++ x :: b) = (a, x :: b).
Proof. induction 1 as [|c a Hc _ IH]; intros Hx; cbn; [by rewrite Hx|]. by rewrite Hc, IH. Qed.
Lemma span_all {A} (p : A -> bool) a : Forall (fun c => p c = true) a -> span p a = (a, []).
Proof. induction 1 as [|c a Hc _ IH]; cbn; [done|]. by rewrite Hc, IH. Qed.

Lemma str_forallb_chars p s : str_forallb p s = true <-> Forall (fun c => p c = true) (chars s).
Proof.
  induction s as [|c s IH]; cbn; [split; [constructor|done]|]. rewrite andb_true_iff, Forall_cons, IH. done.
Qed.

Lemma of_chars_chars s : of_chars (chars s) = s.
Proof. apply String.string_of_list_ascii_of_string. Qed.

(** host:digits is recognised. *)
Lemma re_hostname_port_ok host ds : str_forallb (fun c => negb (Ascii.eqb c nl)) host = true ->
  str_forallb c_isdigit ds = true -> ds <> "" -> re_hostname_port (host +:+ ":" +:+ ds) = Some (host, ds).
Proof.
  intros Hh Hd Hne. unfold re_hostname_port. rewrite !chars_app, !rev_app_distr.
  apply str_forallb_chars in Hh, Hd.
  assert (Forall (fun c => c_isdigit c = true) (rev (chars ds))) as Hd' by by apply Forall_rev.
  assert (rev (chars ds) <> []) as Hne'.
  { intros E. apply (f_equal (@rev ascii)) in E. rewrite rev_involutive in E. cbn in E.
    apply Hne. rewrite <- (of_chars_chars ds), E. done. }
  change (chars ":") with [":"%char]. cbn [rev app]. rewrite <- !app_assoc. cbn [app].
  destruct (rev (chars ds)) as [|c r] eqn:Er; [done|]. cbn [app].
  inversion Hd' as [|? ? Hc Hr]; subst.
  assert (Ascii.eqb c nl = false) as -> by (destruct (Ascii.eqb_spec c nl); [subst; done|done]).
  change (c :: r ++ ":"%char :: rev (chars host)) with ((c :: r) ++ ":"%char :: rev (chars host)).
  rewrite (span_app c_isdigit) by done. cbn [Ascii.eqb Bool.eqb].
  rewrite (span_all (fun c => negb (Ascii.eqb c nl))) by by apply Forall_rev. cbn [fst].
  rewrite rev_involutive, <- Er, rev_involutive, !of_chars_chars. done.
Qed.

Lemma valid_hostname_no_nl h : valid_hostname h = true -> str_forallb (fun c => negb (Ascii.eqb c nl)) h = true.
Proof.
  unfold valid_hostname. intros [_ H]%andb_prop. apply str_forallb_chars in H. apply str_forallb_chars.
  eapply Forall_impl; [exact H|]. intros c Hc. cbn in *. destruct (Ascii.eqb_spec c nl) as [->|]; [done|done].
Qed.

(** A server printed as tcp:host:port with a valid host name and port parses back to that
    server, and whatever is parsed satisfies the constraints on servers. *)
Theorem parse_server_roundtrip host ds g :
  valid_hostname host = true -> str_forallb c_isdigit ds = true -> ds <> "" ->
  valid_port (digits_value ds) = true ->
  parse_one_server ("tcp:" +:+ host +:+ ":" +:+ ds) g =
    (Ret (Some (mk_server drive_transport_tcp host (digits_value ds))), g) /\
  (forall s, exists r g', parse_one_server s g = (Ret r, g') /\ opt server_ok r /\ g_drives g' = g_drives g).
Proof.
  intros Hh Hd Hne Hp. split.
  - unfold parse_one_server. rewrite after_prefix_app. unfold parse_host.
    rewrite re_hostname_port_ok by (done || by apply valid_hostname_no_nl).
    rewrite sscanf_digits by done. cbn [mbind option_bind].
    assert (s32 (clamp_long (digits_value ds)) = digits_value ds) as ->.
    { unfold valid_port in Hp. unfold clamp_long. rewrite s32_id; lia. }
    rewrite Hp, Hh. done.
  - intros s. destruct (yields_parse_one_server s g g) as (r & g' & E & (_ & Hdr & _) & Hr); [done|]. eauto.
Qed.

Lemma parse_server_roundtrip_witness :
  parse_one_server "tcp:example.com:10809" Examples.ex_handle =
  (Ret (Some (mk_server drive_transport_tcp "example.com" 10809)), Examples.ex_handle).
Proof.
  exact (proj1 (parse_server_roundtrip "example.com" "10809" Examples.ex_handle eq_refl eq_refl
    ltac:(discriminate) eq_refl)).
Defined.

(** A port that does not fit in an int wraps around and may be accepted. *)
Lemma port_wraps_around :
  fst (parse_one_server "example.com:4294967376" Examples.ex_handle) =
  Ret (Some (mk_server drive_transport_none "example.com" 80)) /\
  digits_value "4294967376" = 4294967376.
Proof. split; vm_compute; reflexivity. Qed.

(** The slot of a hotplugged drive: the last free one, where the comment in
    the code says the first. *)
Lemma hotplug_not_first d :
  hotplug_index [Some d; None; Some d; None; Some d] = 3%nat.
Proof. reflexivity. Qed.

(** ** Witnesses *)

Definition ex_backend : backend_ops :=
  mk_backend_ops 0 (Some (fun _ => Some "/tmp/overlay1")) (fun _ => 0) None None
    (Some (fun _ _ => 0)) (Some (fun _ _ => 0)).
Definition ex_drives_lib (st : state) (drives : list (option drive)) : lib connection_socket :=
  mk_lib (Examples.ex_handle <| g_state := st |> <| g_backend_ops := ex_backend |> <| g_drives := drives |>)
    (Some (ex_socket [])) (mk_file_io None [] [] None [] []).
Definition ex_optargs : add_drive_optargs :=
  mk_optargs (Some true) (Some "raw") None None (Some "data") None None None None None None None.
Definition ex_disk_create (f fmt : string) (size : Z) : hm Z := ret 0.
Definition ex_call (label : string) : M (lib connection_socket) Z := ret 0.

Lemma ex_disk_create_neutral f fmt size : yields (fun _ => True) (ex_disk_create f fmt size).
Proof. by apply yields_ret. Qed.
Lemma ex_call_daemon : daemon_call ex_call.
Proof. intros label l. exists 0, l. split_and!; [done|constructor|done]. Qed.

Lemma add_drives_rollback_witness :
  exists rs l', add_all (fun _ => None) None (fun t => inr t) ex_disk_create ex_call
      [("/disk.img", ex_optargs); ("/dev/null", no_optargs)] (ex_drives_lib CONFIG []) = (Ret rs, l') /\
    drives_ok (g_drives (l_g l')).
Proof.
  destruct (add_drives_rollback (fun _ => None) None (fun t => inr t) ex_disk_create ex_call
    ex_disk_create_neutral eq_refl [("/disk.img", ex_optargs); ("/dev/null", no_optargs)] (ex_drives_lib CONFIG []))
    as (rs & l' & H1 & H2 & _); [reflexivity|constructor|]. eauto.
Defined.

Lemma add_remove_drive_witness :
  exists l2, guestfs__remove_drive ex_call ex_call "data"
    (snd (guestfs__add_drive_opts (fun _ => None) None (fun t => inr t) ex_disk_create ex_call
            "/disk.img" ex_optargs (ex_drives_lib CONFIG []))) = (Ret 0, l2) /\ g_drives (l_g l2) = [].
Proof.
  destruct (add_remove_drive (fun _ => None) None (fun t => inr t) ex_disk_create ex_call ex_call ex_call
    ex_disk_create_neutral eq_refl "/disk.img" ex_optargs "data" (ex_drives_lib CONFIG [])
    (snd (guestfs__add_drive_opts (fun _ => None) None (fun t => inr t) ex_disk_create ex_call
            "/disk.img" ex_optargs (ex_drives_lib CONFIG [])))) as (l2 & H1 & H2 & _);
    [reflexivity|reflexivity|constructor|reflexivity|]. eauto.
Defined.

Lemma hotplug_add_slot_witness :
  exists r l', guestfs__add_drive_opts (fun _ => None) None (fun t => inr t) ex_disk_create ex_call
    "/disk.img" ex_optargs (ex_drives_lib READY [None]) = (Ret r, l').
Proof.
  destruct (hotplug_add_slot (fun _ => None) None (fun t => inr t) ex_disk_create ex_call
    ex_disk_create_neutral eq_refl "/disk.img" ex_optargs (ex_drives_lib READY [None]) ex_call_daemon)
    as (r & l' & H1 & _); [discriminate|]. eauto.
Defined.

Lemma hotplug_remove_slot_witness :
  exists r l', guestfs__remove_drive ex_call ex_call "data" (ex_drives_lib READY [None]) = (Ret r, l').
Proof.
  destruct (hotplug_remove_slot ex_call ex_call "data" (ex_drives_lib READY [None]) ex_call_daemon ex_call_daemon)
    as (r & l' & H1 & _); [discriminate|]. eauto.
Defined.

Lemma drives_always_ok_witness :
  Forall (opt (fun d => drive_ok d /\ (drv_readonly d = true -> is_Some (drv_overlay d))))
    (g_drives (l_g (snd (guestfs__add_drive_opts (fun _ => None) None (fun t => inr t) ex_disk_create ex_call
            "/disk.img" ex_optargs (ex_drives_lib READY []))))).
Proof.
  apply (drives_always_ok (fun _ => None) None (fun t => inr t) ex_disk_create ex_call ex_call ex_call
    ex_disk_create_neutral eq_refl (ex_drives_lib READY []) _ ex_call_daemon ex_call_daemon ex_call_daemon).
  - apply rtc_once. eapply (step_add _ _ _ _ _ _ _ "/disk.img" ex_optargs _ 0). vm_compute. reflexivity.
  - constructor.
Defined.
