(* ===== verification/Command.v ===== *)
(** src/command.c, the runner of external commands, with the string lists of
    src/stringsbuf.c: building an argument vector or a shell command, the
    pipes and the child, the loop that reads its output, the three ways of
    buffering it for the callback, and the release of every resource. *)

From S2P Require Import Prelude Xdr Handle Utils Events Conn.
From Stdlib Require Import Ascii.
Import Errors.

(** * src/stringsbuf.c

    [None] is the terminating NULL; [size] is the length of the list.  The
    buffer is reallocated, never overrun: see [stringsbuf_ok]. *)

Module StringsBuf.

Record stringsbuf := mk_stringsbuf {
  sb_argv : list (option string);
  sb_alloc : nat
}.

Definition DECLARE_STRINGSBUF : stringsbuf := mk_stringsbuf [] 0.

Definition guestfs___add_string_nodup (sb : stringsbuf) (str : option string) : stringsbuf :=
  let alloc := if (sb_alloc sb <=? length (sb_argv sb))%nat then sb_alloc sb + 64 else sb_alloc sb in
  mk_stringsbuf (sb_argv sb ++ [str]) alloc.

Definition guestfs___add_string (sb : stringsbuf) (str : string) : stringsbuf :=
  guestfs___add_string_nodup sb (Some str).

(** The argument is what vasprintf returns; its failure calls [abort_cb]. *)
Definition guestfs___add_sprintf (sb : stringsbuf) (str : string) : stringsbuf :=
  guestfs___add_string_nodup sb (Some str).

Definition guestfs___end_stringsbuf (sb : stringsbuf) : stringsbuf :=
  guestfs___add_string_nodup sb None.

(** Every slot that is written is inside the allocation. *)
Definition stringsbuf_ok (sb : stringsbuf) : Prop := length (sb_argv sb) <= sb_alloc sb.

Lemma add_string_nodup_ok sb str : stringsbuf_ok sb -> stringsbuf_ok (guestfs___add_string_nodup sb str).
Proof.
  unfold stringsbuf_ok. cbn. rewrite length_app. cbn [length]. intros H.
  destruct (Nat.leb_spec (sb_alloc sb) (length (sb_argv sb))); lia.
Qed.

End StringsBuf.
Import StringsBuf.

(** * struct command

    The style and the union it discriminates are one tagged union.  [c_overrun]
    records that memcpy has written past the [alloc] bytes of the string. *)

Inductive command_line :=
  | COMMAND_STYLE_NOT_SELECTED
  | COMMAND_STYLE_EXECV (argv : stringsbuf)
  | COMMAND_STYLE_SYSTEM (str : list byte) (alloc : nat).

(** The function pointers [add_data] and [close_data] are set together. *)
Inductive buffering_mode := BufNone | BufLine | BufUnbuffered | BufWhole.
#[export] Instance buffering_mode_eq_dec : EqDecision buffering_mode.
Proof. solve_decision. Defined.

(** [buffer] holds [len] bytes; in line mode a NUL follows them. *)
Record buffering := mk_buffering {
  ob_buffer : list byte;
  ob_mode : buffering_mode
}.

(** The caller's function, on the handle and its own data. *)
Definition cmd_stdout_callback (D : Type) : Type := guestfs_h -> D -> list byte -> guestfs_h * D.

Record command (D : Type) := mk_command {
  c_line : command_line;
  c_overrun : bool;
  c_capture_errors : bool;
  c_errorfd : Z;
  c_close_files : bool;
  c_stdout_callback : option (cmd_stdout_callback D);
  c_stdout_data : D;
  c_outfd : Z;
  c_outbuf : buffering;
  c_stderr_to_stdout : bool;
  c_pid : Z
}.
Arguments mk_command {D}.
Arguments c_line {D}.
Arguments c_overrun {D}.
Arguments c_capture_errors {D}.
Arguments c_errorfd {D}.
Arguments c_close_files {D}.
Arguments c_stdout_callback {D}.
Arguments c_stdout_data {D}.
Arguments c_outfd {D}.
Arguments c_outbuf {D}.
Arguments c_stderr_to_stdout {D}.
Arguments c_pid {D}.

(** The kernel the parent sees: answers of pipe2, fork, select, the two pipes,
    close and waitpid, and what it keeps for the process: the open descriptors
    and the children not yet waited for. *)
Inductive sel_ev := SelFail (errnum : Z) | SelSet (err out : bool).

Record cmd_kernel := mk_cmd_kernel {
  ck_pipe : list (option Z);     (* an errno, or success; success in the end *)
  ck_fork : Z + positive;        (* an errno, or the pid of the child *)
  ck_select : list sel_ev;       (* in the end every descriptor is readable *)
  ck_err : list read_ev;
  ck_out : list read_ev;
  ck_close : list (option Z);
  ck_wait : list (option Z);     (* waitpid: an errno, or success *)
  ck_status : Z;                 (* the status the child ends with *)
  ck_open : gset Z;
  ck_children : gset Z
}.

#[export] Instance upd_c_line {D} : Field (@c_line D) := fun f r =>
  mk_command (f (c_line r)) (c_overrun r) (c_capture_errors r) (c_errorfd r) (c_close_files r)
    (c_stdout_callback r) (c_stdout_data r) (c_outfd r) (c_outbuf r) (c_stderr_to_stdout r)
    (c_pid r).
#[export] Instance upd_c_overrun {D} : Field (@c_overrun D) := fun f r =>
  mk_command (c_line r) (f (c_overrun r)) (c_capture_errors r) (c_errorfd r) (c_close_files r)
    (c_stdout_callback r) (c_stdout_data r) (c_outfd r) (c_outbuf r) (c_stderr_to_stdout r)
    (c_pid r).
#[export] Instance upd_c_capture_errors {D} : Field (@c_capture_errors D) := fun f r =>
  mk_command (c_line r) (c_overrun r) (f (c_capture_errors r)) (c_errorfd r) (c_close_files r)
    (c_stdout_callback r) (c_stdout_data r) (c_outfd r) (c_outbuf r) (c_stderr_to_stdout r)
    (c_pid r).
#[export] Instance upd_c_errorfd {D} : Field (@c_errorfd D) := fun f r =>
  mk_command (c_line r) (c_overrun r) (c_capture_errors r) (f (c_errorfd r)) (c_close_files r)
    (c_stdout_callback r) (c_stdout_data r) (c_outfd r) (c_outbuf r) (c_stderr_to_stdout r)
    (c_pid r).
#[export] Instance upd_c_close_files {D} : Field (@c_close_files D) := fun f r =>
  mk_command (c_line r) (c_overrun r) (c_capture_errors r) (c_errorfd r) (f (c_close_files r))
    (c_stdout_callback r) (c_stdout_data r) (c_outfd r) (c_outbuf r) (c_stderr_to_stdout r)
    (c_pid r).
#[export] Instance upd_c_stdout_callback {D} : Field (@c_stdout_callback D) := fun f r =>
  mk_command (c_line r) (c_overrun r) (c_capture_errors r) (c_errorfd r) (c_close_files r)
    (f (c_stdout_callback r)) (c_stdout_data r) (c_outfd r) (c_outbuf r) (c_stderr_to_stdout r)
    (c_pid r).
#[export] Instance upd_c_stdout_data {D} : Field (@c_stdout_data D) := fun f r =>
  mk_command (c_line r) (c_overrun r) (c_capture_errors r) (c_errorfd r) (c_close_files r)
    (c_stdout_callback r) (f (c_stdout_data r)) (c_outfd r) (c_outbuf r) (c_stderr_to_stdout r)
    (c_pid r).
#[export] Instance upd_c_outfd {D} : Field (@c_outfd D) := fun f r =>
  mk_command (c_line r) (c_overrun r) (c_capture_errors r) (c_errorfd r) (c_close_files r)
    (c_stdout_callback r) (c_stdout_data r) (f (c_outfd r)) (c_outbuf r) (c_stderr_to_stdout r)
    (c_pid r).
#[export] Instance upd_c_outbuf {D} : Field (@c_outbuf D) := fun f r =>
  mk_command (c_line r) (c_overrun r) (c_capture_errors r) (c_errorfd r) (c_close_files r)
    (c_stdout_callback r) (c_stdout_data r) (c_outfd r) (f (c_outbuf r)) (c_stderr_to_stdout r)
    (c_pid r).
#[export] Instance upd_c_stderr_to_stdout {D} : Field (@c_stderr_to_stdout D) := fun f r =>
  mk_command (c_line r) (c_overrun r) (c_capture_errors r) (c_errorfd r) (c_close_files r)
    (c_stdout_callback r) (c_stdout_data r) (c_outfd r) (c_outbuf r) (f (c_stderr_to_stdout r))
    (c_pid r).
#[export] Instance upd_c_pid {D} : Field (@c_pid D) := fun f r =>
  mk_command (c_line r) (c_overrun r) (c_capture_errors r) (c_errorfd r) (c_close_files r)
    (c_stdout_callback r) (c_stdout_data r) (c_outfd r) (c_outbuf r) (c_stderr_to_stdout r)
    (f (c_pid r)).

#[export] Instance upd_ck_pipe : Field ck_pipe := fun f r =>
  mk_cmd_kernel (f (ck_pipe r)) (ck_fork r) (ck_select r) (ck_err r) (ck_out r) (ck_close r)
    (ck_wait r) (ck_status r) (ck_open r) (ck_children r).
#[export] Instance upd_ck_fork : Field ck_fork := fun f r =>
  mk_cmd_kernel (ck_pipe r) (f (ck_fork r)) (ck_select r) (ck_err r) (ck_out r) (ck_close r)
    (ck_wait r) (ck_status r) (ck_open r) (ck_children r).
#[export] Instance upd_ck_select : Field ck_select := fun f r =>
  mk_cmd_kernel (ck_pipe r) (ck_fork r) (f (ck_select r)) (ck_err r) (ck_out r) (ck_close r)
    (ck_wait r) (ck_status r) (ck_open r) (ck_children r).
#[export] Instance upd_ck_err : Field ck_err := fun f r =>
  mk_cmd_kernel (ck_pipe r) (ck_fork r) (ck_select r) (f (ck_err r)) (ck_out r) (ck_close r)
    (ck_wait r) (ck_status r) (ck_open r) (ck_children r).
#[export] Instance upd_ck_out : Field ck_out := fun f r =>
  mk_cmd_kernel (ck_pipe r) (ck_fork r) (ck_select r) (ck_err r) (f (ck_out r)) (ck_close r)
    (ck_wait r) (ck_status r) (ck_open r) (ck_children r).
#[export] Instance upd_ck_close : Field ck_close := fun f r =>
  mk_cmd_kernel (ck_pipe r) (ck_fork r) (ck_select r) (ck_err r) (ck_out r) (f (ck_close r))
    (ck_wait r) (ck_status r) (ck_open r) (ck_children r).
#[export] Instance upd_ck_wait : Field ck_wait := fun f r =>
  mk_cmd_kernel (ck_pipe r) (ck_fork r) (ck_select r) (ck_err r) (ck_out r) (ck_close r)
    (f (ck_wait r)) (ck_status r) (ck_open r) (ck_children r).
#[export] Instance upd_ck_status : Field ck_status := fun f r =>
  mk_cmd_kernel (ck_pipe r) (ck_fork r) (ck_select r) (ck_err r) (ck_out r) (ck_close r)
    (ck_wait r) (f (ck_status r)) (ck_open r) (ck_children r).
#[export] Instance upd_ck_open : Field ck_open := fun f r =>
  mk_cmd_kernel (ck_pipe r) (ck_fork r) (ck_select r) (ck_err r) (ck_out r) (ck_close r)
    (ck_wait r) (ck_status r) (f (ck_open r)) (ck_children r).
#[export] Instance upd_ck_children : Field ck_children := fun f r =>
  mk_cmd_kernel (ck_pipe r) (ck_fork r) (ck_select r) (ck_err r) (ck_out r) (ck_close r)
    (ck_wait r) (ck_status r) (ck_open r) (f (ck_children r)).

#[export] Instance upd_ob_buffer : Field ob_buffer := fun f r =>
  mk_buffering (f (ob_buffer r)) (ob_mode r).
#[export] Instance upd_ob_mode : Field ob_mode := fun f r =>
  mk_buffering (ob_buffer r) (f (ob_mode r)).

(** A run of the parent: the handle, the command and the kernel. *)
Record run (D : Type) := mk_run { r_g : guestfs_h; r_cmd : command D; r_k : cmd_kernel }.
Arguments mk_run {D}.
Arguments r_g {D}.
Arguments r_cmd {D}.
Arguments r_k {D}.
#[export] Instance upd_r_g {D} : Field (@r_g D) := fun f r => mk_run (f (r_g r)) (r_cmd r) (r_k r).
#[export] Instance upd_r_cmd {D} : Field (@r_cmd D) := fun f r => mk_run (r_g r) (f (r_cmd r)) (r_k r).
#[export] Instance upd_r_k {D} : Field (@r_k D) := fun f r => mk_run (r_g r) (r_cmd r) (f (r_k r)).

Definition cm (D : Type) := M (run D).

(** * Building the command *)

Section build.
Context {D : Type}.
Implicit Types (cmd : command D).

Definition guestfs___new_command (d : D) : command D :=
  {| c_line := COMMAND_STYLE_NOT_SELECTED; c_overrun := false; c_capture_errors := true;
     c_errorfd := -1; c_close_files := true; c_stdout_callback := None; c_stdout_data := d;
     c_outfd := -1; c_outbuf := mk_buffering [] BufNone; c_stderr_to_stdout := false; c_pid := 0 |}.

(** The building functions act on the command alone. *)
Definition bm := M (command D).

Definition add_arg_no_strdup (arg : string) : bm unit := fun cmd =>
  match c_line cmd with
  | COMMAND_STYLE_SYSTEM _ _ => (Stop AssertFailed, cmd)
  | COMMAND_STYLE_EXECV argv =>
      (Ret tt, cmd <| c_line := COMMAND_STYLE_EXECV (guestfs___add_string_nodup argv (Some arg)) |>)
  | COMMAND_STYLE_NOT_SELECTED =>
      (Ret tt, cmd <| c_line := COMMAND_STYLE_EXECV
                                  (guestfs___add_string_nodup DECLARE_STRINGSBUF (Some arg)) |>)
  end.

(** [None] is a NULL argument. *)
Definition add_arg (arg : option string) : bm unit :=
  match arg with
  | None => halt AssertFailed
  | Some arg => add_arg_no_strdup arg
  end.
Definition guestfs___cmd_add_arg (arg : option string) : bm unit := add_arg arg.
(** The argument is the formatted text. *)
Definition guestfs___cmd_add_arg_format (arg : string) : bm unit := add_arg_no_strdup arg.

(** The growth of the buffer before [len] bytes are copied. *)
Definition grow (cur alloc len : nat) : nat :=
  if (alloc <=? cur)%nat then
    if (alloc =? 0)%nat then 256 else alloc + Nat.max alloc len
  else alloc.

Definition add_string (bs : list byte) : bm unit := fun cmd =>
  let copy str alloc :=
    let alloc' := grow (length str) alloc (length bs) in
    (Ret tt, cmd <| c_line := COMMAND_STYLE_SYSTEM (str ++ bs) alloc' |>
                 <| c_overrun ::= orb (alloc' <? length str + length bs)%nat |>) in
  match c_line cmd with
  | COMMAND_STYLE_EXECV _ => (Stop AssertFailed, cmd)
  | COMMAND_STYLE_NOT_SELECTED => copy [] 0
  | COMMAND_STYLE_SYSTEM str alloc => copy str alloc
  end.

Definition guestfs___cmd_add_string_unquoted (str : string) : bm unit := add_string (bytes_of_string str).

Definition dquote : byte := x22.
Definition dollar : byte := x24.
Definition backquote : byte := x60.
Definition needs_escape (b : byte) : bool :=
  existsb (Byte.eqb b) [dollar; backquote; backslash; dquote].

(** The loop over [str] of [guestfs___cmd_add_string_quoted]. *)
Fixpoint add_quoted_chars (bs : list byte) : bm unit :=
  match bs with
  | [] => ret tt
  | b :: bs' =>
      (if needs_escape b then add_string [backslash] else ret tt) ;;;
      add_string [b] ;;;
      add_quoted_chars bs'
  end.

Definition guestfs___cmd_add_string_quoted (str : string) : bm unit :=
  add_string [dquote] ;;;
  add_quoted_chars (bytes_of_string str) ;;;
  add_string [dquote].

Definition CMD_STDOUT_FLAG_LINE_BUFFER : Z := 0.
Definition CMD_STDOUT_FLAG_UNBUFFERED : Z := 1.
Definition CMD_STDOUT_FLAG_WHOLE_BUFFER : Z := 2.

Definition guestfs___cmd_set_stdout_callback (cb : cmd_stdout_callback D) (data : D) (flags : Z) : bm unit :=
  modify (fun cmd => cmd <| c_stdout_callback := Some cb |> <| c_stdout_data := data |>) ;;;
  let mode := Z.land flags 3 in
  if (mode =? CMD_STDOUT_FLAG_LINE_BUFFER)%Z then modify (fun cmd => cmd <| c_outbuf; ob_mode := BufLine |>)
  else if (mode =? CMD_STDOUT_FLAG_UNBUFFERED)%Z then
    modify (fun cmd => cmd <| c_outbuf; ob_mode := BufUnbuffered |>)
  else if (mode =? CMD_STDOUT_FLAG_WHOLE_BUFFER)%Z then
    modify (fun cmd => cmd <| c_outbuf; ob_mode := BufWhole |>)
  else halt AssertFailed.

Definition guestfs___cmd_set_stderr_to_stdout : bm unit :=
  modify (fun cmd => cmd <| c_stderr_to_stdout := true |>).
Definition guestfs___cmd_clear_capture_errors : bm unit :=
  modify (fun cmd => cmd <| c_capture_errors := false |>).
Definition guestfs___cmd_clear_close_files : bm unit :=
  modify (fun cmd => cmd <| c_close_files := false |>).

Definition finish_command : bm unit := fun cmd =>
  match c_line cmd with
  | COMMAND_STYLE_EXECV argv =>
      (Ret tt, cmd <| c_line := COMMAND_STYLE_EXECV (guestfs___end_stringsbuf argv) |>)
  | COMMAND_STYLE_SYSTEM _ _ => add_string [x00] cmd
  | COMMAND_STYLE_NOT_SELECTED => (Stop AssertFailed, cmd)
  end.

End build.

(** * The kernel's side *)

(** POSIX: the lowest descriptor that is not open.  Of [size open + 1]
    candidates one is free, see [new_fd_fresh]. *)
Fixpoint lowest_free (fuel : nat) (fd : Z) (open : gset Z) : Z :=
  match fuel with
  | O => fd
  | S fuel' => if decide (fd ∈ open) then lowest_free fuel' (fd + 1)%Z open else fd
  end.
Definition new_fd (open : gset Z) : Z := lowest_free (size open) 0 open.

(** The head of a list of answers; success when there are none left. *)
Definition answer (q : list (option Z)) : option Z * list (option Z) :=
  match q with [] => (None, []) | a :: q' => (a, q') end.

(** read (2) on a pipe: end of file when the script ends. *)
Definition pipe_read (n : nat) (q : list read_ev) : read_ev * list read_ev :=
  match q with [] => (RdData [], []) | _ => sys_read n q end.

Section running.
Context {D : Type}.

(** pipe2 (fds, O_CLOEXEC): the errno, or the two descriptors. *)
Definition sys_pipe2 : cm D (Z + Z * Z) := fun r =>
  let '(a, q) := answer (ck_pipe (r_k r)) in
  let r := r <| r_k; ck_pipe := q |> in
  match a with
  | Some e => (Ret (inl e), r)
  | None =>
      let rd := new_fd (ck_open (r_k r)) in
      let wr := new_fd ({[rd]} ∪ ck_open (r_k r)) in
      (Ret (inr (rd, wr)), r <| r_k; ck_open ::= fun o => {[rd; wr]} ∪ o |>)
  end.

(** close (fd) gives the descriptor back also when it reports an error. *)
Definition sys_close (fd : Z) : cm D (option Z) := fun r =>
  let '(a, q) := answer (ck_close (r_k r)) in
  (Ret a, r <| r_k; ck_close := q |> <| r_k; ck_open ::= fun o => o ∖ {[fd]} |>).

Definition sys_waitpid (pid : Z) : cm D (Z + Z) := fun r =>
  let '(a, q) := answer (ck_wait (r_k r)) in
  let r := r <| r_k; ck_wait := q |> in
  match a with
  | Some e => (Ret (inl e), r)
  | None => (Ret (inr (ck_status (r_k r))), r <| r_k; ck_children ::= fun c => c ∖ {[pid]} |>)
  end.

Definition perrorf (errnum : Z) (msg : string) : cm D unit :=
  modify (fun r => r <| r_g ::= fun g => guestfs___perrorf g errnum msg |>).
Definition set_cmd (f : command D -> command D) : cm D unit := modify (fun r => r <| r_cmd ::= f |>).

(** * The child

    Where descriptors 1 and 2 of the child lead, and what it runs. *)

Inductive dest := Inherited (fd : Z) | ErrorPipe | OutPipe.
#[export] Instance dest_eq_dec : EqDecision dest.
Proof. solve_decision. Defined.

Definition child_fds (cmd : command D) : dest * dest :=
  let callback := bool_decide (is_Some (c_stdout_callback cmd)) in
  let '(o, e) := (Inherited 1, Inherited 2) in
  let '(o, e) := if c_capture_errors cmd then (if negb callback then ErrorPipe else o, ErrorPipe)
                 else (o, e) in
  let o := if callback then OutPipe else o in
  let e := if c_stderr_to_stdout cmd then o else e in
  (o, e).

(** The descriptors from 3 that the child closes: up to this bound. *)
Definition child_close_bound (cmd : command D) (sysconf : Z) : Z :=
  if c_close_files cmd then
    let max_fd := if (sysconf =? -1)%Z then 1024%Z else sysconf in
    if (65536 <? max_fd)%Z then 65536%Z else max_fd
  else 3.

Inductive child_action :=
  | Execvp (file : option string) (argv : list (option string))
  | System (str : list byte)
  | Abort.
Definition child_run (cmd : command D) : child_action :=
  match c_line cmd with
  | COMMAND_STYLE_EXECV argv => Execvp (default None (head (sb_argv argv))) (sb_argv argv)
  | COMMAND_STYLE_SYSTEM str _ => System str
  | COMMAND_STYLE_NOT_SELECTED => Abort
  end.

(** The exit code of the child after system (3) has returned [r]. *)
Definition child_exit_code (r : Z) : Z :=
  if (r =? -1)%Z then 1%Z else if WIFEXITED r then WEXITSTATUS r else 1%Z.

(** * debug_command *)

Definition arg_starts_dash (arg : option string) : bool :=
  match arg with Some (String "-" _) => true | _ => false end.
Definition arg_str (arg : option string) : string := default "(null)" arg.

(** The loop over argv[1 .. last-1]. *)
Fixpoint debug_args (args : list (option string)) (g : guestfs_h) : guestfs_h :=
  match args with
  | [] => g
  | [a] => guestfs___debug g ("command: run: \ " +:+ arg_str a)
  | a :: ((b :: rest') as rest) =>
      if arg_starts_dash a && negb (arg_starts_dash b) then
        debug_args rest' (guestfs___debug g ("command: run: \ " +:+ arg_str a +:+ " " +:+ arg_str b))
      else debug_args rest (guestfs___debug g ("command: run: \ " +:+ arg_str a))
  end.

(** The bytes before the first NUL, as printf prints a string. *)
Fixpoint until_nul (bs : list byte) : list byte :=
  match bs with
  | [] => []
  | b :: bs' => if Byte.eqb b x00 then [] else b :: until_nul bs'
  end.

Definition debug_command : cm D unit := fun r =>
  match c_line (r_cmd r) with
  | COMMAND_STYLE_EXECV argv =>
      let args := removelast (sb_argv argv) in       (* omit final NULL pointer *)
      let g := guestfs___debug (r_g r) ("command: run: " +:+ arg_str (default None (head (sb_argv argv)))) in
      (Ret tt, r <| r_g := debug_args (tail args) g |>)
  | COMMAND_STYLE_SYSTEM str _ =>
      (Ret tt, r <| r_g ::= fun g => guestfs___debug g
                              ("command: run: " +:+ string_of_bytes (until_nul str)) |>)
  | COMMAND_STYLE_NOT_SELECTED => (Stop AssertFailed, r)
  end.

(** * run_command: the parent *)

(** The label [error]: close what is open. *)
Definition close_if_open (fd : Z) : cm D unit :=
  if (0 <=? fd)%Z then sys_close fd ;;; ret tt else ret tt.
Definition run_error (errorfd outfd : Z * Z) : cm D Z :=
  close_if_open (fst errorfd) ;;; close_if_open (snd errorfd) ;;;
  close_if_open (fst outfd) ;;; close_if_open (snd outfd) ;;; ret (-1)%Z.

(** A pipe when [wanted]; otherwise both ends stay -1. *)
Definition open_pipe (wanted : bool) : cm D (option (Z * Z)) :=
  if wanted then
    a <- sys_pipe2 ;;
    match a with
    | inl e => perrorf e "pipe2" ;;; ret None
    | inr fds => ret (Some fds)
    end
  else ret (Some (-1, -1)%Z).

(** fork: a child is added on success. *)
Definition sys_fork : cm D (Z + positive) := fun r =>
  match ck_fork (r_k r) with
  | inl e => (Ret (inl e), r)
  | inr pid => (Ret (inr pid), r <| r_k; ck_children ::= fun c => {[Z.pos pid]} ∪ c |>)
  end.

(** The branch of the parent: the write ends are closed. *)
Definition parent_fds (capture callback : bool) (errorfd outfd : Z * Z) : cm D unit :=
  (if capture then
     sys_close (snd errorfd) ;;; set_cmd (fun cmd => cmd <| c_errorfd := fst errorfd |>)
   else ret tt) ;;;
  (if callback then
     sys_close (snd outfd) ;;; set_cmd (fun cmd => cmd <| c_outfd := fst outfd |>)
   else ret tt).

Definition run_command : cm D Z :=
  capture <- gets (fun r => c_capture_errors (r_cmd r)) ;;
  callback <- gets (fun r => bool_decide (is_Some (c_stdout_callback (r_cmd r)))) ;;
  e <- open_pipe capture ;;
  match e with
  | None => run_error (-1, -1)%Z (-1, -1)%Z
  | Some errorfd =>
      o <- open_pipe callback ;;
      match o with
      | None => run_error errorfd (-1, -1)%Z
      | Some outfd =>
          f <- sys_fork ;;
          match f with
          | inl errnum =>
              set_cmd (fun cmd => cmd <| c_pid := (-1)%Z |>) ;;;
              perrorf errnum "fork" ;;;
              run_error errorfd outfd
          | inr pid =>
              set_cmd (fun cmd => cmd <| c_pid := Z.pos pid |>) ;;;
              parent_fds capture callback errorfd outfd ;;;
              ret 0%Z
          end
      end
  end.

(** * Buffering of stdout *)

(** strchr (buffer, c) on a NUL-terminated buffer. *)
Fixpoint strchr (c : byte) (s : list byte) : option nat :=
  match s with
  | [] => None
  | b :: s' => if Byte.eqb b c then Some 0 else if Byte.eqb b x00 then None else S <$> strchr c s'
  end.
Definition nl : byte := x0a.

Definition call_stdout_callback (buf : list byte) : cm D unit := fun r =>
  match c_stdout_callback (r_cmd r) with
  | Some cb =>
      let '(g, d) := cb (r_g r) (c_stdout_data (r_cmd r)) buf in
      (Ret tt, r <| r_g := g |> <| r_cmd; c_stdout_data := d |>)
  | None => (Stop AssertFailed, r)            (* a call through NULL *)
  end.

(** One pass of the loop for each line; every pass removes at least a byte. *)
Fixpoint process_line_loop (fuel : nat) (closed : bool) : cm D unit := fun r =>
  let buffer := ob_buffer (c_outbuf (r_cmd r)) in
  match buffer, fuel with
  | [], _ => (Ret tt, r)
  | _, O => (Stop OutOfFuel, r)
  | _, S fuel' =>
      let consume len rest :=
        (call_stdout_callback (take len buffer) ;;;
         set_cmd (fun cmd => cmd <| c_outbuf; ob_buffer := rest |>) ;;;
         process_line_loop fuel' closed) r in
      match strchr nl buffer with
      | Some len => consume len (drop (len + 1) buffer)
      | None => if closed then consume (length buffer) [] else (Ret tt, r)
      end
  end.
Definition process_line_buffer (closed : bool) : cm D unit := fun r =>
  process_line_loop (length (ob_buffer (c_outbuf (r_cmd r)))) closed r.

Definition append_outbuf (buf : list byte) : cm D unit :=
  set_cmd (fun cmd => cmd <| c_outbuf; ob_buffer ::= fun b => b ++ buf |>).

Definition add_line_buffer (buf : list byte) : cm D unit :=
  append_outbuf buf ;;; process_line_buffer false.
Definition close_line_buffer : cm D unit := process_line_buffer true.
Definition add_unbuffered (buf : list byte) : cm D unit := call_stdout_callback buf.
Definition add_whole_buffer (buf : list byte) : cm D unit := append_outbuf buf.
Definition close_whole_buffer : cm D unit := fun r =>
  call_stdout_callback (ob_buffer (c_outbuf (r_cmd r))) r.

(** [if (cmd->outbuf.add_data) cmd->outbuf.add_data (cmd, buf, n);] *)
Definition add_data (buf : list byte) : cm D unit := fun r =>
  match ob_mode (c_outbuf (r_cmd r)) with
  | BufNone => (Ret tt, r)
  | BufLine => add_line_buffer buf r
  | BufUnbuffered => add_unbuffered buf r
  | BufWhole => add_whole_buffer buf r
  end.
Definition close_data : cm D unit := fun r =>
  match ob_mode (c_outbuf (r_cmd r)) with
  | BufNone | BufUnbuffered => (Ret tt, r)
  | BufLine => close_line_buffer r
  | BufWhole => close_whole_buffer r
  end.

(** * The loop *)

Definition sys_select : cm D sel_ev := fun r =>
  match ck_select (r_k r) with
  | [] => (Ret (SelSet true true), r)
  | s :: q => (Ret s, r <| r_k; ck_select := q |>)
  end.
Definition read_errorfd : cm D read_ev := fun r =>
  let '(ev, q) := pipe_read BUFSIZ (ck_err (r_k r)) in (Ret ev, r <| r_k; ck_err := q |>).
Definition read_outfd : cm D read_ev := fun r =>
  let '(ev, q) := pipe_read BUFSIZ (ck_out (r_k r)) in (Ret ev, r <| r_k; ck_out := q |>).

(** The body for [errorfd]: how many descriptors are left. *)
Definition loop_errorfd (nr_fds : nat) : cm D nat :=
  fd <- gets (fun r => c_errorfd (r_cmd r)) ;;
  ev <- read_errorfd ;;
  let drop_fd := set_cmd (fun cmd => cmd <| c_errorfd := (-1)%Z |>) ;;; ret (nr_fds - 1) in
  match ev with
  | RdData [] =>
      a <- sys_close fd ;;
      match a with Some e => perrorf e "close: errorfd" | None => ret tt end ;;;
      drop_fd
  | RdData buf =>
      modify (fun r => r <| r_g ::= fun g =>
        guestfs___call_callbacks_message g GUESTFS_EVENT_APPLIANCE buf |>) ;;;
      ret nr_fds
  | RdErr e =>
      perrorf e "read: errorfd" ;;;
      sys_close fd ;;;
      drop_fd
  end.

Definition loop_outfd (nr_fds : nat) : cm D nat :=
  fd <- gets (fun r => c_outfd (r_cmd r)) ;;
  ev <- read_outfd ;;
  let drop_fd := set_cmd (fun cmd => cmd <| c_outfd := (-1)%Z |>) ;;; ret (nr_fds - 1) in
  match ev with
  | RdData [] =>
      close_data ;;;
      a <- sys_close fd ;;
      match a with Some e => perrorf e "close: outfd" | None => ret tt end ;;;
      drop_fd
  | RdData buf =>
      add_data buf ;;;
      ret nr_fds
  | RdErr e =>
      perrorf e "read: outfd" ;;;
      sys_close fd ;;;
      drop_fd
  end.

Fixpoint loop_from (fuel nr_fds : nat) : cm D Z :=
  match nr_fds, fuel with
  | O, _ => ret 0%Z
  | S _, O => halt OutOfFuel
  | S _, S fuel' =>
      s <- sys_select ;;
      match s with
      | SelFail e =>
          if retry e then loop_from fuel' nr_fds
          else perrorf e "select" ;;; ret (-1)%Z
      | SelSet err out =>
          errorfd <- gets (fun r => c_errorfd (r_cmd r)) ;;
          nr_fds <- (if (0 <=? errorfd)%Z && err then loop_errorfd nr_fds else ret nr_fds) ;;
          outfd <- gets (fun r => c_outfd (r_cmd r)) ;;
          nr_fds <- (if (0 <=? outfd)%Z && out then loop_outfd nr_fds else ret nr_fds) ;;
          loop_from fuel' nr_fds
      end
  end.

(** The turns the loop can still make. *)
Definition fd_measure (fd : Z) (q : list read_ev) : nat := if (0 <=? fd)%Z then S (script_size q) else 0.
Definition loop_measure (r : run D) : nat :=
  length (ck_select (r_k r)) + fd_measure (c_errorfd (r_cmd r)) (ck_err (r_k r)) +
  fd_measure (c_outfd (r_cmd r)) (ck_out (r_k r)).
Definition open_fds (cmd : command D) : nat :=
  (if (0 <=? c_errorfd cmd)%Z then 1 else 0) + (if (0 <=? c_outfd cmd)%Z then 1 else 0).

Definition loop : cm D Z := fun r => loop_from (loop_measure r) (open_fds (r_cmd r)) r.

(** * Waiting, running, closing *)

Definition wait_command : cm D Z :=
  pid <- gets (fun r => c_pid (r_cmd r)) ;;
  a <- sys_waitpid pid ;;
  match a with
  | inl e => perrorf e "waitpid" ;;; ret (-1)%Z
  | inr status => set_cmd (fun cmd => cmd <| c_pid := 0%Z |>) ;;; ret status
  end.

Definition guestfs___cmd_run : cm D Z :=
  zoom r_cmd (fun cmd r => r <| r_cmd := cmd |>) finish_command ;;;
  v <- gets (fun r => verbose (g_cfg (r_g r))) ;;
  (if v : bool then debug_command else ret tt) ;;;
  x <- run_command ;;
  if (x =? -1)%Z then ret (-1)%Z
  else
    y <- loop ;;
    if (y =? -1)%Z then ret (-1)%Z else wait_command.

(** [free] is not modelled; the command is not used afterwards. *)
Definition guestfs___cmd_close : cm D unit :=
  errorfd <- gets (fun r => c_errorfd (r_cmd r)) ;;
  close_if_open errorfd ;;;
  outfd <- gets (fun r => c_outfd (r_cmd r)) ;;
  close_if_open outfd ;;;
  pid <- gets (fun r => c_pid (r_cmd r)) ;;
  if (0 <? pid)%Z then sys_waitpid pid ;;; ret tt else ret tt.

End running.

(** * Specifications *)

(** ** Reading a double-quoted shell word

    POSIX 2.2.3: up to the closing quote; a backslash escapes dollar,
    backquote, double quote, backslash and newline (which disappears), and is
    itself otherwise.  [None]: not closed, or an expansion begins. *)
Fixpoint sh_dquoted (s : list byte) : option (list byte * list byte) :=
  match s with
  | [] => None
  | b :: s' =>
      if Byte.eqb b dquote then Some ([], s')
      else if Byte.eqb b dollar || Byte.eqb b backquote then None
      else if Byte.eqb b backslash then
        match s' with
        | [] => None
        | c :: s'' =>
            if Byte.eqb c x0a then sh_dquoted s''
            else '(w, rest) ← sh_dquoted s'';
                 Some (if needs_escape c then (c :: w, rest) else (b :: c :: w, rest))
        end
      else '(w, rest) ← sh_dquoted s'; Some (b :: w, rest)
  end.
Definition sh_word (s : list byte) : option (list byte * list byte) :=
  match s with b :: s' => if Byte.eqb b dquote then sh_dquoted s' else None | [] => None end.

(** What the quoting adds to the string. *)
Definition escape_quoted (bs : list byte) : list byte :=
  bs ≫= (fun b => if needs_escape b then [backslash; b] else [b]).
Definition quoted (str : string) : list byte := [dquote] ++ escape_quoted (bytes_of_string str) ++ [dquote].

Lemma sh_dquoted_escape bs rest : sh_dquoted (escape_quoted bs ++ dquote :: rest) = Some (bs, rest).
Proof.
  induction bs as [|b bs IH]; [done|].
  change (escape_quoted (b :: bs)) with ((if needs_escape b then [backslash; b] else [b]) ++ escape_quoted bs).
  rewrite <- app_assoc. destruct (needs_escape b) eqn:E.
  - cbn [app]. cbn [sh_dquoted]. rewrite IH. change (Byte.eqb backslash dquote) with false.
    change (Byte.eqb backslash dollar || Byte.eqb backslash backquote) with false.
    change (Byte.eqb backslash backslash) with true.
    destruct (Byte.eqb b x0a) eqn:En; [|cbn [mbind option_bind]; by rewrite E].
    apply Byte.byte_dec_bl in En. by subst.
  - cbn [app sh_dquoted]. rewrite IH. unfold needs_escape in E. cbn [existsb] in E.
    destruct (Byte.eqb b dollar), (Byte.eqb b backquote), (Byte.eqb b backslash), (Byte.eqb b dquote); done.
Qed.

(** ** Lines *)

(** The lines of an output; a last line without a newline counts. *)
Fixpoint lines_of (s : list byte) : list (list byte) :=
  match s with
  | [] => []
  | b :: s' =>
      if Byte.eqb b nl then [] :: lines_of s'
      else match lines_of s' with
           | [] => [[b]]
           | l :: ls => (b :: l) :: ls
           end
  end.

Definition no_byte (c : byte) (s : list byte) : Prop := Forall (fun b => b <> c) s.
#[export] Instance no_byte_dec c s : Decision (no_byte c s).
Proof.
  apply Forall_dec. intros b. apply not_dec. apply Byte.byte_eq_dec.
Defined.
Definition unlines (ls : list (list byte)) : list byte := ls ≫= (fun l => l ++ [nl]).

Lemma byte_eqb_spec (a b : byte) : reflect (a = b) (Byte.eqb a b).
Proof.
  destruct (Byte.eqb a b) eqn:E; constructor; [by apply Byte.byte_dec_bl|].
  intros ->. by rewrite Byte.byte_dec_lb in E.
Qed.

Lemma lines_of_line l s : no_byte nl l -> lines_of (l ++ nl :: s) = l :: lines_of s.
Proof.
  induction 1 as [|b l Hb _ IH]; [done|]. cbn. destruct (byte_eqb_spec b nl); [done|]. by rewrite IH.
Qed.
Lemma lines_of_last l : no_byte nl l -> lines_of l = if decide (l = []) then [] else [l].
Proof.
  induction 1 as [|b l Hb _ IH]; [done|]. cbn. destruct (byte_eqb_spec b nl); [done|]. rewrite IH.
  by destruct l.
Qed.
Lemma lines_of_unlines ls s : Forall (no_byte nl) ls -> lines_of (unlines ls ++ s) = ls ++ lines_of s.
Proof.
  induction 1 as [|l ls Hl _ IH]; [done|]. change (unlines (l :: ls)) with ((l ++ [nl]) ++ unlines ls).
  rewrite <- !app_assoc. cbn [app]. by rewrite lines_of_line, IH.
Qed.

Lemma strchr_Some c s n : strchr c s = Some n ->
  exists s1 s2, s = s1 ++ c :: s2 /\ length s1 = n /\ no_byte c s1.
Proof.
  revert n. induction s as [|b s IH]; intros n; cbn; [done|].
  destruct (byte_eqb_spec b c) as [->|Hb]; [intros [= <-]; exists [], s; repeat split; constructor|].
  destruct (Byte.eqb b x00); [done|]. destruct (strchr c s) as [k|]; [|done]. intros [= <-].
  destruct (IH k eq_refl) as (s1 & s2 & -> & <- & Hs). exists (b :: s1), s2. repeat split. by constructor.
Qed.
Lemma strchr_None c s : no_byte x00 s -> strchr c s = None -> no_byte c s.
Proof.
  induction 1 as [|b s Hb _ IH]; cbn; [constructor|].
  cbn beta in Hb.
  destruct (byte_eqb_spec b c); [done|]. destruct (byte_eqb_spec b x00); [done|].
  destruct (strchr c s) eqn:E; [done|]. intros _. constructor; [done|by apply IH].
Qed.

(** ** Runs of the building functions *)

(** The string built so far; a command not yet selected has the empty one. *)
Definition cmd_string {D} (cmd : command D) : list byte :=
  match c_line cmd with COMMAND_STYLE_SYSTEM str _ => str | _ => [] end.
Definition cmd_alloc {D} (cmd : command D) : nat :=
  match c_line cmd with COMMAND_STYLE_SYSTEM _ alloc => alloc | _ => 0 end.
Definition not_execv {D} (cmd : command D) : Prop :=
  match c_line cmd with COMMAND_STYLE_EXECV _ => False | _ => True end.
(** The string lies in its allocation. *)
Definition string_ok {D} (cmd : command D) : Prop :=
  not_execv cmd /\ length (cmd_string cmd) <= cmd_alloc cmd /\ c_overrun cmd = false.

Section build_lemmas.
Context {D : Type}.
Implicit Types (cmd : command D).

Lemma add_string_run cmd bs : not_execv cmd ->
  exists cmd', add_string bs cmd = (Ret tt, cmd') /\ not_execv cmd' /\
    cmd_string cmd' = cmd_string cmd ++ bs /\
    cmd_alloc cmd' = grow (length (cmd_string cmd)) (cmd_alloc cmd) (length bs) /\
    c_overrun cmd' = (cmd_alloc cmd' <? length (cmd_string cmd'))%nat || c_overrun cmd.
Proof.
  destruct cmd as [line ? ? ? ? ? ? ? ? ? ?]. unfold not_execv, add_string, cmd_string, cmd_alloc. cbn [c_line].
  destruct line as [|argv|str alloc]; intros H; [|done|];
    (eexists; split; [reflexivity|]); cbn -[grow Nat.ltb]; by rewrite ?length_app.
Qed.

Lemma grow_one cur alloc : cur <= alloc -> cur + 1 <= grow cur alloc 1.
Proof.
  unfold grow. destruct (Nat.leb_spec alloc cur); [|lia]. destruct (Nat.eqb_spec alloc 0); lia.
Qed.

Lemma add_string_one cmd b : string_ok cmd ->
  exists cmd', add_string [b] cmd = (Ret tt, cmd') /\ string_ok cmd' /\
    cmd_string cmd' = cmd_string cmd ++ [b].
Proof.
  intros (Hs & Hl & Ho). destruct (add_string_run cmd [b] Hs) as (cmd' & E & Hs' & Es & Ea & Eo).
  exists cmd'. split_and!; [done| |done]. pose proof (grow_one _ _ Hl) as Hg.
  assert (length (cmd_string cmd') <= cmd_alloc cmd') as Hle.
  { rewrite Es, Ea, length_app. cbn [length]. lia. }
  split_and!; [done|done|]. rewrite Eo, Ho, orb_false_r. by apply Nat.ltb_ge.
Qed.

Lemma add_quoted_chars_run bs : forall cmd, string_ok cmd ->
  exists cmd', add_quoted_chars bs cmd = (Ret tt, cmd') /\ string_ok cmd' /\
    cmd_string cmd' = cmd_string cmd ++ escape_quoted bs.
Proof.
  induction bs as [|b bs IH]; intros cmd Hok; cbn [add_quoted_chars].
  { exists cmd. split_and!; [done|done|]. unfold escape_quoted. cbn. by rewrite app_nil_r. }
  assert (exists cmd1, (if needs_escape b then add_string [backslash] else ret tt) cmd = (Ret tt, cmd1) /\
            string_ok cmd1 /\ cmd_string cmd1 = cmd_string cmd ++ (if needs_escape b then [backslash] else []))
    as (cmd1 & E1 & Hok1 & Es1).
  { destruct (needs_escape b); [by apply add_string_one|]. exists cmd. by rewrite app_nil_r. }
  mstep E1. destruct (add_string_one cmd1 b Hok1) as (cmd2 & E2 & Hok2 & Es2). mstep E2.
  destruct (IH cmd2 Hok2) as (cmd3 & E3 & Hok3 & Es3). exists cmd3. split_and!; [done|done|].
  rewrite Es3, Es2, Es1, <- !app_assoc. f_equal.
  change (escape_quoted (b :: bs)) with ((if needs_escape b then [backslash; b] else [b]) ++ escape_quoted bs).
  by destruct (needs_escape b).
Qed.

Lemma add_string_quoted_run cmd str : string_ok cmd ->
  exists cmd', guestfs___cmd_add_string_quoted str cmd = (Ret tt, cmd') /\ string_ok cmd' /\
    cmd_string cmd' = cmd_string cmd ++ quoted str.
Proof.
  intros Hok. unfold guestfs___cmd_add_string_quoted.
  destruct (add_string_one cmd dquote Hok) as (c1 & E1 & H1 & S1). mstep E1.
  destruct (add_quoted_chars_run (bytes_of_string str) c1 H1) as (c2 & E2 & H2 & S2). mstep E2.
  destruct (add_string_one c2 dquote H2) as (c3 & E3 & H3 & S3). exists c3. split_and!; [done|done|].
  by rewrite S3, S2, S1, <- !app_assoc.
Qed.

Lemma sh_word_quoted str rest : sh_word (quoted str ++ rest) = Some (bytes_of_string str, rest).
Proof. unfold quoted. rewrite <- !app_assoc. apply sh_dquoted_escape. Qed.

Lemma new_command_ok (d : D) : string_ok (guestfs___new_command d).
Proof. by split_and!. Qed.

End build_lemmas.

(** ** Runs of the buffering *)

(** The effect of calls of the callback and of the buffer that is left. *)
Definition calls {D} (cb : cmd_stdout_callback D) (ls : list (list byte)) (gd : guestfs_h * D) :
    guestfs_h * D :=
  fold_left (fun gd l => cb (fst gd) (snd gd) l) ls gd.
Definition put {D} (gd : guestfs_h * D) (b : list byte) (r : run D) : run D :=
  mk_run (fst gd) ((r_cmd r) <| c_stdout_data := snd gd |> <| c_outbuf; ob_buffer := b |>) (r_k r).
Definition gd_of {D} (r : run D) : guestfs_h * D := (r_g r, c_stdout_data (r_cmd r)).
Definition buf_of {D} (r : run D) : list byte := ob_buffer (c_outbuf (r_cmd r)).

Section buffering_lemmas.
Context {D : Type}.
Implicit Types (r : run D) (cb : cmd_stdout_callback D).

Lemma put_put gd gd' b b' r : put gd' b' (put gd b r) = put gd' b' r.
Proof. by destruct r as [? [] ?]. Qed.
Lemma put_self r : put (gd_of r) (buf_of r) r = r.
Proof. by destruct r as [? [? ? ? ? ? ? ? ? [] ? ?] ?]. Qed.
Lemma gd_of_put gd b r : gd_of (put gd b r) = gd.
Proof. by destruct gd. Qed.
Lemma calls_app cb l1 l2 gd : calls cb (l1 ++ l2) gd = calls cb l2 (calls cb l1 gd).
Proof. apply fold_left_app. Qed.

Lemma call_stdout_callback_run cb buf r : c_stdout_callback (r_cmd r) = Some cb ->
  call_stdout_callback buf r = (Ret tt, put (calls cb [buf] (gd_of r)) (buf_of r) r).
Proof.
  intros E. unfold call_stdout_callback. rewrite E. destruct r as [g [? ? ? ? ? ? d ? [] ? ?] k]. cbn.
  by destruct (cb g d buf).
Qed.

(** The lines that are found, and what is left of the buffer. *)
Definition line_result (closed : bool) (b : list byte) (ls : list (list byte)) (rest : list byte) : Prop :=
  Forall (no_byte nl) ls /\
  if closed then rest = [] /\ ls = lines_of b else b = unlines ls ++ rest /\ no_byte nl rest.

Lemma line_result_cons closed l b ls rest : no_byte nl l ->
  line_result closed b ls rest -> line_result closed (l ++ nl :: b) (l :: ls) rest.
Proof.
  intros Hl [Hf H]. split; [by constructor|]. destruct closed; destruct H as [-> H].
  - split; [done|]. by rewrite lines_of_line, <- H.
  - split; [|done]. change (unlines (l :: ls)) with ((l ++ [nl]) ++ unlines ls). by rewrite <- !app_assoc.
Qed.

(** What a run of the loop does: the lines it passes on and what it leaves. *)
Definition line_run (closed : bool) (m : cm D unit) (cb : cmd_stdout_callback D) (b : list byte) (r : run D) :
    Prop :=
  exists ls rest, m r = (Ret tt, put (calls cb ls (gd_of r)) rest r) /\
    (no_byte x00 b -> line_result closed b ls rest).

Lemma line_run_done closed cb m r : m r = (Ret tt, r) ->
  (no_byte x00 (buf_of r) -> line_result closed (buf_of r) [] (buf_of r)) -> line_run closed m cb (buf_of r) r.
Proof.
  intros E H. exists [], (buf_of r). change (calls cb [] (gd_of r)) with (gd_of r). by rewrite put_self.
Qed.
Lemma line_run_ext closed cb m m' b r : m r = m' r -> line_run closed m' cb b r -> line_run closed m cb b r.
Proof. unfold line_run. by intros ->. Qed.

(** One pass that passes on [l] and keeps [rest0]. *)
Lemma line_turn closed cb m l rest0 b r : c_stdout_callback (r_cmd r) = Some cb ->
  line_run closed m cb rest0 (put (calls cb [l] (gd_of r)) rest0 r) ->
  (no_byte x00 b -> no_byte x00 rest0 /\
     forall ls rest, line_result closed rest0 ls rest -> line_result closed b (l :: ls) rest) ->
  line_run closed (call_stdout_callback l ;;;
     set_cmd (fun cmd => cmd <| c_outbuf; ob_buffer := rest0 |>) ;;; m) cb b r.
Proof.
  intros Hcb (ls & rest & Er & Hr) Hb. exists (l :: ls), rest.
  split; [|intros Hn; destruct (Hb Hn) as [H0 Hc]; apply Hc, Hr, H0].
  rewrite (bind_Ret _ _ _ _ _ (call_stdout_callback_run cb _ r Hcb)). unfold set_cmd. rewrite bind_modify.
  rewrite gd_of_put, put_put in Er. exact Er.
Qed.

Lemma no_byte_app c s1 s2 : no_byte c (s1 ++ s2) <-> no_byte c s1 /\ no_byte c s2.
Proof. apply Forall_app. Qed.

Lemma process_line_loop_run cb closed : forall fuel r,
  length (buf_of r) <= fuel -> c_stdout_callback (r_cmd r) = Some cb ->
  line_run closed (process_line_loop fuel closed) cb (buf_of r) r.
Proof.
  assert (forall fuel r, buf_of r = [] -> line_run closed (process_line_loop fuel closed) cb (buf_of r) r)
    as Hempty.
  { intros fuel r E. apply line_run_done.
    - destruct fuel; cbn; fold (buf_of r); by rewrite E.
    - rewrite E. intros _. destruct closed; repeat split; constructor. }
  induction fuel as [|fuel IH]; intros r Hf Hcb; [apply Hempty, nil_length_inv; lia|].
  destruct (decide (buf_of r = [])) as [E|Hne]; [by apply Hempty|].
  assert (process_line_loop (S fuel) closed r =
    let consume len rest := (call_stdout_callback (take len (buf_of r)) ;;;
         set_cmd (fun cmd => cmd <| c_outbuf; ob_buffer := rest |>) ;;; process_line_loop fuel closed) r in
    match strchr nl (buf_of r) with
    | Some len => consume len (drop (len + 1) (buf_of r))
    | None => if closed then consume (length (buf_of r)) [] else (Ret tt, r)
    end) as Eq.
  { cbn [process_line_loop]. fold (buf_of r). by destruct (buf_of r). }
  cbv zeta in Eq. destruct (strchr nl (buf_of r)) as [len|] eqn:Es in Eq.
  - apply strchr_Some in Es as (s1 & s2 & Eb & <- & Hs1).
    rewrite Eb, take_app_length, drop_app_add in Eq. change (drop 1 (nl :: s2)) with s2 in Eq.
    eapply line_run_ext; [exact Eq|]. apply line_turn; [done| |].
    + apply (IH (put _ s2 r)); [|done]. cbn. rewrite Eb, length_app in Hf. cbn in Hf. lia.
    + rewrite Eb. intros Hn. apply no_byte_app in Hn as [_ Hn]. inversion Hn; subst.
      split; [done|]. intros. by apply line_result_cons.
  - destruct closed.
    + rewrite firstn_all in Eq. eapply line_run_ext; [exact Eq|]. apply line_turn; [done|by apply IH; cbn; [lia|]|].
      intros Hn. split; [constructor|]. intros ls rest (Hls & -> & ->). cbn.
      apply strchr_None in Es; [|done]. split; [by constructor|]. rewrite lines_of_last by done.
      by rewrite decide_False.
    + apply line_run_done; [by rewrite Eq|]. intros Hn. split; [constructor|]. split; [done|].
      by apply strchr_None.
Qed.

Lemma process_line_buffer_run cb closed r : c_stdout_callback (r_cmd r) = Some cb ->
  line_run closed (process_line_buffer closed) cb (buf_of r) r.
Proof.
  intros Hcb. eapply line_run_ext; [|apply (process_line_loop_run cb closed (length (buf_of r)) r); auto]. done.
Qed.

End buffering_lemmas.

(** ** What the callback is given

    [progress]: after the bytes [p] have been read, the calls made are [cs]
    and [b] is buffered.  [delivers]: the calls of a whole output. *)
Definition progress (mode : buffering_mode) (cs : list (list byte)) (p b : list byte) : Prop :=
  match mode with
  | BufNone => cs = []
  | BufLine => p = unlines cs ++ b /\ Forall (no_byte nl) cs /\ no_byte nl b
  | BufUnbuffered => concat cs = p /\ Forall (fun c => c <> []) cs
  | BufWhole => cs = [] /\ b = p
  end.
Definition delivers (mode : buffering_mode) (data : list byte) (cs : list (list byte)) : Prop :=
  match mode with
  | BufNone => cs = []
  | BufLine => cs = lines_of data
  | BufUnbuffered => concat cs = data /\ Forall (fun c => c <> []) cs
  | BufWhole => cs = [data]
  end.
(** A NUL in the output hides the newlines after it from the line mode. *)
Definition readable (mode : buffering_mode) (data : list byte) : Prop :=
  mode = BufLine -> no_byte x00 data.

Section delivery.
Context {D : Type}.
Implicit Types (r : run D) (cb : cmd_stdout_callback D).

Definition mode_of r : buffering_mode := ob_mode (c_outbuf (r_cmd r)).

Lemma append_outbuf_run buf r : append_outbuf buf r = (Ret tt, put (gd_of r) (buf_of r ++ buf) r).
Proof. by destruct r as [? [? ? ? ? ? ? ? ? [] ? ?] ?]. Qed.

Lemma add_data_run cb bs r : c_stdout_callback (r_cmd r) = Some cb -> bs <> [] ->
  exists ls b, add_data bs r = (Ret tt, put (calls cb ls (gd_of r)) b r) /\
    forall cs p, progress (mode_of r) cs p (buf_of r) -> readable (mode_of r) (p ++ bs) ->
      progress (mode_of r) (cs ++ ls) (p ++ bs) b.
Proof.
  intros Hcb Hbs. unfold add_data, mode_of, readable. destruct (ob_mode (c_outbuf (r_cmd r))) eqn:Em; cbn [progress].
  - exists [], (buf_of r). change (calls cb [] (gd_of r)) with (gd_of r). rewrite put_self. split; [done|].
    by intros cs p ->.
  - unfold add_line_buffer. mstep (append_outbuf_run bs r).
    destruct (process_line_buffer_run cb false (put (gd_of r) (buf_of r ++ bs) r) Hcb) as (ls & b & E & Hl).
    exists ls, b. rewrite gd_of_put, put_put in E. split; [done|].
    intros cs p (-> & Hcs & Hb) Hn. specialize (Hn eq_refl). cbn in Hl.
    rewrite <- app_assoc, no_byte_app in Hn. destruct Hn as [_ Hn].
    destruct (Hl Hn) as (Hls & Eb & Hbn). rewrite <- app_assoc. cbn [buf_of r_cmd] in Eb.
    change (buf_of r ++ bs) with (ob_buffer (c_outbuf (r_cmd r)) ++ bs) in *. rewrite Eb.
    split_and!; [|by apply Forall_app|done]. unfold unlines. by rewrite bind_app, <- app_assoc.
  - unfold add_unbuffered. rewrite (call_stdout_callback_run cb bs r Hcb). exists [bs], (buf_of r). split; [done|].
    intros cs p [<- Hcs] _. rewrite concat_app. cbn [concat]. rewrite app_nil_r. split; [done|].
    apply Forall_app. split; [done|by repeat constructor].
  - unfold add_whole_buffer. exists [], (buf_of r ++ bs). rewrite append_outbuf_run. split; [done|].
    by intros cs p [-> <-].
Qed.

Lemma close_data_run cb r : c_stdout_callback (r_cmd r) = Some cb ->
  exists ls b, close_data r = (Ret tt, put (calls cb ls (gd_of r)) b r) /\
    forall cs p, progress (mode_of r) cs p (buf_of r) -> readable (mode_of r) p ->
      delivers (mode_of r) p (cs ++ ls).
Proof.
  intros Hcb. unfold close_data, mode_of, readable. destruct (ob_mode (c_outbuf (r_cmd r))) eqn:Em; cbn [progress delivers].
  - exists [], (buf_of r). change (calls cb [] (gd_of r)) with (gd_of r). rewrite put_self. split; [done|].
    by intros cs p ->.
  - destruct (process_line_buffer_run cb true r Hcb) as (ls & b & E & Hl).
    exists ls, b. split; [done|]. intros cs p (-> & Hcs & Hb) Hn. specialize (Hn eq_refl).
    apply no_byte_app in Hn as [_ Hn]. destruct (Hl Hn) as (Hls & _ & ->). by rewrite lines_of_unlines.
  - exists [], (buf_of r). change (calls cb [] (gd_of r)) with (gd_of r). rewrite put_self. split; [done|].
    intros cs p. by rewrite app_nil_r.
  - unfold close_whole_buffer. rewrite (call_stdout_callback_run cb _ r Hcb). exists [buf_of r], (buf_of r).
    split; [done|]. by intros cs p [-> <-].
Qed.

(** ** The pipes *)

(** The bytes a script gives up to the end of file, and that no read fails
    before it. *)
Fixpoint script_data (q : list read_ev) : list byte :=
  match q with
  | RdData [] :: _ | RdErr _ :: _ | [] => []
  | RdData bs :: q' => bs ++ script_data q'
  end.
Fixpoint script_clean (q : list read_ev) : bool :=
  match q with
  | [] | RdData [] :: _ => true
  | RdErr _ :: _ => false
  | RdData _ :: q' => script_clean q'
  end.

Lemma pipe_read_run n q : 0 < n ->
  exists ev q', pipe_read n q = (ev, q') /\
    match ev with
    | RdData [] => script_size q' = script_size q /\ script_data q = []
    | RdData bs => script_size q' < script_size q /\ script_data q = bs ++ script_data q' /\
                   script_clean q = script_clean q'
    | RdErr _ => script_size q' < script_size q /\ script_clean q = false
    end.
Proof.
  intros Hn. unfold pipe_read, sys_read. destruct q as [|[[|b bs]|e] q]; cbn [script_size script_data script_clean].
  - do 2 eexists. split; [reflexivity|done].
  - do 2 eexists. split; [reflexivity|done].
  - destruct (Nat.leb_spec (length (b :: bs)) n) as [Hl|Hl].
    + do 2 eexists. split; [reflexivity|]. cbn. split_and!; [lia|done|done].
    + destruct n as [|n]; [lia|]. do 2 eexists. split; [reflexivity|]. cbn in Hl. cbn [take drop].
      assert (length (drop n bs) <= length bs) by (rewrite length_drop; lia).
      destruct (drop n bs) as [|b' bs'] eqn:Ed.
      { apply (f_equal length) in Ed. rewrite length_drop in Ed. cbn in Ed. lia. }
      cbn [script_size length script_data script_clean]. cbn [length] in *. split_and!; [lia| |done].
      rewrite <- Ed, app_assoc. cbn [app]. by rewrite firstn_skipn.
  - do 2 eexists. split; [reflexivity|]. cbn. split; [lia|done].
Qed.
(** ** Invariants of the loop *)

(** The descriptors of the command; the others are not touched. *)
Definition fdset (fd : Z) : gset Z := if (0 <=? fd)%Z then {[fd]} else ∅.
Definition owned (cmd : command D) : gset Z := fdset (c_errorfd cmd) ∪ fdset (c_outfd cmd).
Definition kept r : gset Z := ck_open (r_k r) ∖ owned (r_cmd r).
Definition static r :=
  (c_stdout_callback (r_cmd r), mode_of r, c_pid (r_cmd r), ck_children (r_k r), ck_wait (r_k r),
   ck_status (r_k r)).

(** What has been passed on of an output [data], with the callback seen as a
    function [f] on its own data. *)
Definition out_state (f : D -> list byte -> D) (d0 : D) (data : list byte) r : Prop :=
  if (0 <=? c_outfd (r_cmd r))%Z then
    script_clean (ck_out (r_k r)) = true /\
    exists cs p, c_stdout_data (r_cmd r) = fold_left f cs d0 /\ progress (mode_of r) cs p (buf_of r) /\
      p ++ script_data (ck_out (r_k r)) = data
  else exists cs, c_stdout_data (r_cmd r) = fold_left f cs d0 /\ delivers (mode_of r) data cs.

Lemma out_state_open f d0 data r : (0 <= c_outfd (r_cmd r))%Z -> out_state f d0 data r =
  (script_clean (ck_out (r_k r)) = true /\
   exists cs p, c_stdout_data (r_cmd r) = fold_left f cs d0 /\ progress (mode_of r) cs p (buf_of r) /\
     p ++ script_data (ck_out (r_k r)) = data).
Proof. intros H. unfold out_state. destruct (Z.leb_spec 0 (c_outfd (r_cmd r))); [done|lia]. Qed.

Definition acts_as (cb : cmd_stdout_callback D) (f : D -> list byte -> D) : Prop :=
  forall g d b, snd (cb g d b) = f d b.

Record step r r' : Prop := {
  step_static : static r' = static r;
  step_kept : kept r' = kept r;
  step_fds : (0 <= c_outfd (r_cmd r') -> 0 <= c_outfd (r_cmd r))%Z;
  step_out : forall cb f d0 data, c_stdout_callback (r_cmd r) = Some cb -> acts_as cb f ->
    readable (mode_of r) data -> out_state f d0 data r -> out_state f d0 data r'
}.
#[export] Instance step_preorder : PreOrder step.
Proof.
  split; [by split|]. intros r1 r2 r3 [H1 K1 F1 O1] [H2 K2 F2 O2]. split; [congruence|congruence|auto|].
  intros cb f d0 data Hcb Hf Hr Ho. injection H1 as Ecb Em _ _ _ _. rewrite <- Em in Hr.
  eapply O2; [by rewrite Ecb|done|by rewrite Em in *|]. eapply O1; [done|done|by rewrite <- Em|done].
Qed.

Lemma calls_acts_as cb f ls gd : acts_as cb f -> snd (calls cb ls gd) = fold_left f ls (snd gd).
Proof. intros Hf. revert gd. induction ls as [|l ls IH]; intros gd; [done|]. cbn. unfold calls in IH. by rewrite IH, Hf. Qed.

Lemma BUFSIZ_pos : 0 < BUFSIZ.
Proof. unfold BUFSIZ. lia. Qed.

Lemma sys_close_run fd r : exists a q, sys_close fd r =
  (Ret a, mk_run (r_g r) (r_cmd r) ((r_k r) <| ck_close := q |> <| ck_open ::= fun o => o ∖ {[fd]} |>)).
Proof.
  unfold sys_close. destruct (answer (ck_close (r_k r))) as [a q]. exists a, q. by destruct r as [? ? []].
Qed.

(** Giving back [errorfd] or [outfd]. *)
Lemma kept_close_err cmd op : (0 <= c_errorfd cmd)%Z ->
  (op ∖ {[c_errorfd cmd]}) ∖ owned (cmd <| c_errorfd := (-1)%Z |>) = op ∖ owned cmd.
Proof.
  intros H. unfold owned, fdset. destruct cmd as [? ? ? e ? ? ? o ? ? ?]. cbn in *. destruct (Z.leb_spec 0 e); [|lia].
  destruct (0 <=? o)%Z; set_solver.
Qed.
Lemma kept_close_out cmd op : (0 <= c_outfd cmd)%Z ->
  (op ∖ {[c_outfd cmd]}) ∖ owned (cmd <| c_outfd := (-1)%Z |>) = op ∖ owned cmd.
Proof.
  intros H. unfold owned, fdset. destruct cmd as [? ? ? e ? ? ? o ? ? ?]. cbn in *. destruct (Z.leb_spec 0 o); [|lia].
  destruct (0 <=? e)%Z; set_solver.
Qed.

(** A turn on one descriptor: it is read, or given up. *)
Definition turn_ok (m : nat -> cm D nat) r : Prop :=
  exists nr' r', m (open_fds (r_cmd r)) r = (Ret nr', r') /\ step r r' /\ nr' = open_fds (r_cmd r') /\
    ck_select (r_k r') = ck_select (r_k r) /\ loop_measure r' < loop_measure r.

Lemma open_fds_err (cmd : command D) : (0 <= c_errorfd cmd)%Z ->
  open_fds cmd - 1 = open_fds (cmd <| c_errorfd := (-1)%Z |>).
Proof. intros H. unfold open_fds. cbn. destruct (Z.leb_spec 0 (c_errorfd cmd)); [|lia]. cbn. lia. Qed.
Lemma open_fds_out (cmd : command D) : (0 <= c_outfd cmd)%Z ->
  open_fds cmd - 1 = open_fds (cmd <| c_outfd := (-1)%Z |>).
Proof. intros H. unfold open_fds. cbn. destruct (Z.leb_spec 0 (c_outfd cmd)); [|lia]. lia. Qed.
Lemma fd_measure_open fd q : (0 <= fd)%Z -> fd_measure fd q = S (script_size q).
Proof. intros H. unfold fd_measure. destruct (Z.leb_spec 0 fd); [done|lia]. Qed.

(** The two ends of a turn on [errorfd]: the other side is as it was. *)
Lemma err_kept_turn g q r nr' r' : (0 <= c_errorfd (r_cmd r))%Z ->
  r' = mk_run g (r_cmd r) ((r_k r) <| ck_err := q |>) -> nr' = open_fds (r_cmd r) ->
  script_size q < script_size (ck_err (r_k r)) ->
  step r r' /\ nr' = open_fds (r_cmd r') /\ ck_select (r_k r') = ck_select (r_k r) /\ loop_measure r' < loop_measure r.
Proof.
  intros He -> -> Hq. split_and!; [by split|done|done|]. unfold loop_measure. cbn.
  rewrite (fd_measure_open _ q), (fd_measure_open _ (ck_err (r_k r))) by done. lia.
Qed.
Lemma err_closed_turn g q cl r nr' r' : (0 <= c_errorfd (r_cmd r))%Z ->
  r' = mk_run g ((r_cmd r) <| c_errorfd := (-1)%Z |>)
         ((r_k r) <| ck_err := q |> <| ck_close := cl |> <| ck_open ::= fun o => o ∖ {[c_errorfd (r_cmd r)]} |>) ->
  nr' = open_fds (r_cmd r) - 1 ->
  step r r' /\ nr' = open_fds (r_cmd r') /\ ck_select (r_k r') = ck_select (r_k r) /\ loop_measure r' < loop_measure r.
Proof.
  intros He -> ->. split_and!; [|by apply open_fds_err|done|].
  - split; [done| |done|done]. unfold kept. cbn [r_k r_cmd]. by apply kept_close_err.
  - unfold loop_measure. cbn. rewrite (fd_measure_open (c_errorfd (r_cmd r))) by done. lia.
Qed.

Lemma loop_errorfd_turn r : (0 <= c_errorfd (r_cmd r))%Z -> turn_ok loop_errorfd r.
Proof.
  intros He. unfold turn_ok, loop_errorfd. rewrite bind_gets.
  destruct (pipe_read_run BUFSIZ (ck_err (r_k r)) BUFSIZ_pos) as (ev & q & Er & Hev).
  rewrite (bind_Ret read_errorfd _ r ev (r <| r_k; ck_err := q |>)) by (unfold read_errorfd; by rewrite Er).
  set (r1 := r <| r_k; ck_err := q |>).
  destruct ev as [[|b bs]|e].
  - destruct (sys_close_run (c_errorfd (r_cmd r)) r1) as (a & cl & Ec). mstep Ec.
    destruct a; (do 2 eexists; split; [reflexivity|]; by eapply (err_closed_turn _ q cl)).
  - do 2 eexists. split; [reflexivity|]. eapply (err_kept_turn _ q); [done..|apply Hev].
  - unfold perrorf. rewrite bind_modify.
    destruct (sys_close_run (c_errorfd (r_cmd r)) (r1 <| r_g ::= fun g => guestfs___perrorf g e "read: errorfd" |>)) as (a & cl & Ec).
    mstep Ec. do 2 eexists. split; [reflexivity|]. by eapply (err_closed_turn _ q cl).
Qed.

Lemma out_kept_turn cb ls b q r nr' r' : (0 <= c_outfd (r_cmd r))%Z -> c_stdout_callback (r_cmd r) = Some cb ->
  r' = put (calls cb ls (gd_of r)) b (r <| r_k; ck_out := q |>) -> nr' = open_fds (r_cmd r) ->
  script_size q < script_size (ck_out (r_k r)) ->
  (forall cs p, progress (mode_of r) cs p (buf_of r) -> script_clean (ck_out (r_k r)) = true ->
     readable (mode_of r) (p ++ script_data (ck_out (r_k r))) ->
     script_clean q = true /\ exists p', progress (mode_of r) (cs ++ ls) p' b /\
       p' ++ script_data q = p ++ script_data (ck_out (r_k r))) ->
  step r r' /\ nr' = open_fds (r_cmd r') /\ ck_select (r_k r') = ck_select (r_k r) /\ loop_measure r' < loop_measure r.
Proof.
  intros Ho Hcb -> -> Hq Hp. split_and!; [|done|done|].
  - split; [done|done|done|]. intros cb' f d0 data Hcb' Hf Hr. rewrite Hcb in Hcb'. injection Hcb' as <-.
    rewrite (out_state_open f d0 data r), out_state_open by done.
    intros (Hc & cs & p & Ed & Hpr & <-). destruct (Hp cs p Hpr Hc Hr) as (Hc' & p' & Hp' & Ep).
    split; [done|]. exists (cs ++ ls), p'. split_and!; [|done|done].
    cbn. rewrite (calls_acts_as cb f) by done. cbn. by rewrite Ed, fold_left_app.
  - unfold loop_measure. cbn. rewrite (fd_measure_open _ q), (fd_measure_open _ (ck_out (r_k r))) by done. lia.
Qed.

Lemma out_closed_turn cb ls b g q cl r nr' r' :
  (0 <= c_outfd (r_cmd r))%Z -> c_stdout_callback (r_cmd r) = Some cb ->
  r' = mk_run g ((r_cmd r) <| c_stdout_data := snd (calls cb ls (gd_of r)) |>
                           <| c_outbuf; ob_buffer := b |> <| c_outfd := (-1)%Z |>)
         ((r_k r) <| ck_out := q |> <| ck_close := cl |> <| ck_open ::= fun o => o ∖ {[c_outfd (r_cmd r)]} |>) ->
  nr' = open_fds (r_cmd r) - 1 ->
  (forall cs p, progress (mode_of r) cs p (buf_of r) -> script_clean (ck_out (r_k r)) = true ->
     readable (mode_of r) (p ++ script_data (ck_out (r_k r))) ->
     delivers (mode_of r) (p ++ script_data (ck_out (r_k r))) (cs ++ ls)) ->
  step r r' /\ nr' = open_fds (r_cmd r') /\ ck_select (r_k r') = ck_select (r_k r) /\ loop_measure r' < loop_measure r.
Proof.
  intros Ho Hcb -> -> Hp. split_and!; [|by apply open_fds_out|done|].
  - split; [done|exact (kept_close_out (r_cmd (put (calls cb ls (gd_of r)) b r)) _ Ho)|done|].
    intros cb' f d0 data Hcb' Hf Hr. rewrite Hcb in Hcb'. injection Hcb' as <-.
    rewrite (out_state_open f d0 data r) by done. intros (Hc & cs & p & Ed & Hpr & <-).
    exists (cs ++ ls). split; [|by apply Hp]. cbn. rewrite (calls_acts_as cb f) by done. cbn. by rewrite Ed, fold_left_app.
  - unfold loop_measure. cbn. rewrite (fd_measure_open (c_outfd (r_cmd r))) by done. lia.
Qed.

Lemma loop_outfd_turn cb r : (0 <= c_outfd (r_cmd r))%Z -> c_stdout_callback (r_cmd r) = Some cb ->
  turn_ok loop_outfd r.
Proof.
  intros Ho Hcb. unfold turn_ok, loop_outfd. rewrite bind_gets.
  destruct (pipe_read_run BUFSIZ (ck_out (r_k r)) BUFSIZ_pos) as (ev & q & Er & Hev).
  rewrite (bind_Ret read_outfd _ r ev (r <| r_k; ck_out := q |>)) by (unfold read_outfd; by rewrite Er).
  set (r1 := r <| r_k; ck_out := q |>).
  destruct ev as [[|b bs]|e].
  - destruct (close_data_run cb r1 Hcb) as (ls & b & Ed & Hd). mstep Ed.
    set (r2 := put (calls cb ls (gd_of r1)) b r1).
    destruct (sys_close_run (c_outfd (r_cmd r)) r2) as (a & cl & Ec). mstep Ec.
    destruct a; (do 2 eexists; split; [reflexivity|]; eapply (out_closed_turn cb ls b _ q cl); [done..|]);
      destruct Hev as [_ ->]; intros cs p; rewrite app_nil_r; intros; by apply Hd.
  - destruct (add_data_run cb (b :: bs) r1 Hcb) as (ls & b' & Ed & Hd); [done|]. mstep Ed.
    do 2 eexists. split; [reflexivity|]. destruct Hev as (Hs & Edt & Ecl).
    eapply (out_kept_turn cb ls b' q); [done..|]. intros cs p Hp Hc Hr. rewrite Ecl in Hc. split; [done|].
    exists (p ++ b :: bs). rewrite Edt in *. split; [|by rewrite <- app_assoc]. apply Hd; [done|].
    intros Hm. specialize (Hr Hm). rewrite app_assoc, no_byte_app in Hr. apply Hr.
  - unfold perrorf. rewrite bind_modify.
    destruct (sys_close_run (c_outfd (r_cmd r)) (r1 <| r_g ::= fun g => guestfs___perrorf g e "read: outfd" |>)) as (a & cl & Ec).
    mstep Ec. do 2 eexists. split; [reflexivity|]. eapply (out_closed_turn cb [] (buf_of r) _ q cl); [done|done| |done|].
    + by destruct r as [? [? ? ? ? ? ? ? ? [] ? ?] ?].
    + intros cs p _ Hc. destruct Hev as [_ Hev]. congruence.
Qed.

(** A failure of select that ends the loop is still to come. *)
Definition select_fails r : Prop := exists e, SelFail e ∈ ck_select (r_k r) /\ retry e = false.
(** stdout is captured only for a callback. *)
Definition has_callback r : Prop :=
  (0 <= c_outfd (r_cmd r))%Z -> exists cb, c_stdout_callback (r_cmd r) = Some cb.

Lemma turn_if (b : bool) (m : nat -> cm D nat) r : (b = true -> turn_ok m r) ->
  exists nr' r', (if b then m (open_fds (r_cmd r)) else ret (open_fds (r_cmd r))) r = (Ret nr', r') /\ step r r' /\
    nr' = open_fds (r_cmd r') /\ ck_select (r_k r') = ck_select (r_k r) /\
    loop_measure r' <= loop_measure r /\ (b = true -> loop_measure r' < loop_measure r).
Proof.
  destruct b; intros H.
  - destruct (H eq_refl) as (nr' & r' & E & Hs & Hn & Hk & Hm). exists nr', r'. split_and!; [done..|lia|lia].
  - exists (open_fds (r_cmd r)), r. by split_and!.
Qed.

Lemma has_callback_step r r' : step r r' -> has_callback r -> has_callback r'.
Proof. intros [Hs _ Hf _] H Ho. injection Hs as -> _ _ _ _ _. auto. Qed.

(** The body of the loop: the descriptors that select reports are read. *)
Lemma loop_body r (err out : bool) (fuel : nat) : has_callback r ->
  exists r', (errorfd <- gets (fun r => c_errorfd (r_cmd r)) ;;
    nr_fds <- (if (0 <=? errorfd)%Z && err then loop_errorfd (open_fds (r_cmd r)) else ret (open_fds (r_cmd r))) ;;
    outfd <- gets (fun r => c_outfd (r_cmd r)) ;;
    nr_fds <- (if (0 <=? outfd)%Z && out then loop_outfd nr_fds else ret nr_fds) ;;
    loop_from fuel nr_fds) r = loop_from fuel (open_fds (r_cmd r')) r' /\
    step r r' /\ has_callback r' /\ ck_select (r_k r') = ck_select (r_k r) /\
    loop_measure r' <= loop_measure r /\
    (0 < open_fds (r_cmd r) -> err = true -> out = true -> loop_measure r' < loop_measure r).
Proof.
  intros Hcb. rewrite bind_gets.
  destruct (turn_if ((0 <=? c_errorfd (r_cmd r))%Z && err) loop_errorfd r) as (n1 & r1 & E1 & S1 & -> & K1 & M1 & L1).
  { intros [H _]%andb_prop. apply loop_errorfd_turn. lia. }
  mstep E1. rewrite bind_gets. pose proof (has_callback_step _ _ S1 Hcb) as Hcb1.
  destruct (turn_if ((0 <=? c_outfd (r_cmd r1))%Z && out) loop_outfd r1) as (n2 & r2 & E2 & S2 & -> & K2 & M2 & L2).
  { intros [H _]%andb_prop. destruct (Hcb1 ltac:(lia)) as [cb E]. apply (loop_outfd_turn cb); [lia|done]. }
  mstep E2. exists r2. pose proof (has_callback_step _ _ S2 Hcb1) as Hcb2.
  split_and!; [done|by etransitivity|done|congruence|lia|]. intros Ho -> ->. rewrite !andb_true_r in *.
  destruct (Z.leb_spec 0 (c_errorfd (r_cmd r))) as [He|He]; [lia|]. cbn in E1. injection E1 as _ <-.
  unfold open_fds in Ho. destruct (Z.leb_spec 0 (c_errorfd (r_cmd r))); [lia|].
  destruct (Z.leb_spec 0 (c_outfd (r_cmd r))); lia.
Qed.

Lemma loop_from_run : forall fuel r, loop_measure r <= fuel -> has_callback r ->
  exists x r', loop_from fuel (open_fds (r_cmd r)) r = (Ret x, r') /\ step r r' /\
    ((x = 0%Z /\ open_fds (r_cmd r') = 0) \/ (x = (-1)%Z /\ select_fails r)).
Proof.
  induction fuel as [|fuel IH]; intros r Hf Hcb; destruct (open_fds (r_cmd r)) as [|n] eqn:En.
  - exists 0%Z, r. naive_solver.
  - exfalso. unfold loop_measure, open_fds, fd_measure in *.
    destruct (0 <=? c_errorfd (r_cmd r))%Z, (0 <=? c_outfd (r_cmd r))%Z; lia.
  - exists 0%Z, r. naive_solver.
  - cbn [loop_from]. rewrite <- En. unfold sys_select. unfold bind at 1.
    destruct (ck_select (r_k r)) as [|[e|err out] sel] eqn:Es.
    + destruct (loop_body r true true fuel Hcb) as (r1 & E1 & S1 & H1 & K1 & M1 & L1).
      destruct (IH r1) as (x & r' & E & S & Hx); [specialize (L1 ltac:(lia) eq_refl eq_refl); lia|done|].
      exists x, r'. split_and!; [etransitivity; [exact E1|exact E]|by etransitivity|]. destruct Hx as [?|[-> (e & He & _)]]; [auto|].
      rewrite K1, Es in He. by apply not_elem_of_nil in He.
    + set (r0 := r <| r_k; ck_select := sel |>).
      assert (S (loop_measure r0) = loop_measure r) as Hm by (unfold loop_measure; rewrite Es; done).
      assert (step r r0) as S0 by by split.
      destruct (retry e) eqn:Er; [|exists (-1)%Z, (r0 <| r_g ::= fun g => guestfs___perrorf g e "select" |>);
        split_and!; [done|by split|right; split; [done|]; exists e; rewrite Es; split; [left|done]]].
      destruct (IH r0) as (x & r' & E & S & Hx); [lia|by apply (has_callback_step r)|].
      exists x, r'. split_and!; [done|by etransitivity|]. destruct Hx as [?|[-> (e' & He & ?)]]; [auto|].
      right. split; [done|]. exists e'. rewrite Es. split; [by right|done].
    + set (r0 := r <| r_k; ck_select := sel |>).
      assert (S (loop_measure r0) = loop_measure r) as Hm by (unfold loop_measure; rewrite Es; done).
      assert (step r r0) as S0 by by split.
      destruct (loop_body r0 err out fuel) as (r1 & E1 & S1 & H1 & K1 & M1 & _); [by apply (has_callback_step r)|].
      destruct (IH r1) as (x & r' & E & S & Hx); [lia|done|].
      exists x, r'. split_and!; [etransitivity; [exact E1|exact E]|etransitivity; [done|by etransitivity]|].
      destruct Hx as [?|[-> (e & He & ?)]]; [auto|].
      right. split; [done|]. exists e. rewrite Es. rewrite K1 in He. split; [by right|done].
Qed.

End delivery.

(** ** Descriptors and children of a whole run *)

Lemma lowest_free_taken open : forall fuel fd, lowest_free fuel fd open ∈ open ->
  forall i, (0 <= i <= Z.of_nat fuel)%Z -> (fd + i)%Z ∈ open.
Proof.
  induction fuel as [|fuel IH]; intros fd H i Hi; cbn [lowest_free] in H.
  - by replace (fd + i)%Z with fd by lia.
  - case_decide as Hd; [|done]. destruct (decide (i = 0)%Z) as [->|]; [by rewrite Z.add_0_r|].
    replace (fd + i)%Z with (fd + 1 + (i - 1))%Z by lia. apply IH; [done|lia].
Qed.
Lemma new_fd_fresh open : new_fd open ∉ open.
Proof.
  intros H. pose proof (lowest_free_taken open _ _ H) as Ht.
  assert (list_to_set (seqZ 0 (Z.of_nat (S (size open)))) ⊆ open) as Hs.
  { intros x. rewrite elem_of_list_to_set, elem_of_seqZ. intros Hx. apply (Ht x). lia. }
  apply subseteq_size in Hs. rewrite size_list_to_set in Hs by apply NoDup_seqZ.
  rewrite length_seqZ in Hs. lia.
Qed.
Lemma lowest_free_ge open : forall fuel fd, (fd <= lowest_free fuel fd open)%Z.
Proof.
  induction fuel as [|fuel IH]; intros fd; cbn [lowest_free]; [lia|]. case_decide; [|lia].
  specialize (IH (fd + 1)%Z). lia.
Qed.
Lemma new_fd_nonneg open : (0 <= new_fd open)%Z.
Proof. apply lowest_free_ge. Qed.

Section resources.
Context {D : Type}.
Implicit Types (r : run D).

(** Everything but the descriptors, the answers of pipe2 and close, and the handle. *)
Definition k_rest (k : cmd_kernel) :=
  (ck_fork k, ck_select k, ck_err k, ck_out k, ck_wait k, ck_status k, ck_children k).

Lemma fdset_nonneg fd : (0 <= fd)%Z -> fdset fd = {[fd]}.
Proof. intros H. unfold fdset. destruct (Z.leb_spec 0 fd); [done|lia]. Qed.

Lemma open_pipe_run wanted r : exists o r', open_pipe wanted r = (Ret o, r') /\
  r_cmd r' = r_cmd r /\ k_rest (r_k r') = k_rest (r_k r) /\ ck_pipe (r_k r') ⊆ ck_pipe (r_k r) /\
  match o with
  | None => ck_open (r_k r') = ck_open (r_k r) /\ exists e, Some e ∈ ck_pipe (r_k r)
  | Some (a, b) =>
      ck_open (r_k r') = fdset a ∪ fdset b ∪ ck_open (r_k r) /\ fdset a ## fdset b /\
      fdset a ∪ fdset b ## ck_open (r_k r) /\
      (if wanted then (0 <= a /\ 0 <= b)%Z else (a = -1 /\ b = -1)%Z)
  end.
Proof.
  unfold open_pipe, sys_pipe2. destruct wanted.
  - assert (forall a q, answer (ck_pipe (r_k r)) = (a, q) -> q ⊆ ck_pipe (r_k r) /\
      forall e, a = Some e -> Some e ∈ ck_pipe (r_k r)) as Hq.
    { intros a q. destruct (ck_pipe (r_k r)); intros [= <- <-]; split; [done|done|set_solver|set_solver]. }
    unfold bind at 1. destruct (answer (ck_pipe (r_k r))) as [a0 q] eqn:Ea. destruct (Hq a0 q eq_refl) as [Hq1 Hq2].
    destruct a0 as [e|]; (do 2 eexists; split; [reflexivity|]).
    + split_and!; [done|done|done|done|eauto].
    + set (open := ck_open (r_k r)). cbn.
      pose proof (new_fd_fresh open). pose proof (new_fd_nonneg open).
      pose proof (new_fd_fresh ({[new_fd open]} ∪ open)) as Hw. pose proof (new_fd_nonneg ({[new_fd open]} ∪ open)).
      fold open. set (a := new_fd open) in *. set (b := new_fd ({[a]} ∪ open)) in *. clearbody a b.
      rewrite !fdset_nonneg by done. split_and!; [done|done|done|set_solver|set_solver|set_solver|done|done].
  - do 2 eexists. split; [reflexivity|]. cbn. split_and!; [done|done|done|set_solver|set_solver|set_solver|done|done].
Qed.

Lemma close_if_open_run fd r : exists r', close_if_open fd r = (Ret tt, r') /\ r_g r' = r_g r /\
  r_cmd r' = r_cmd r /\ k_rest (r_k r') = k_rest (r_k r) /\ ck_open (r_k r') = ck_open (r_k r) ∖ fdset fd.
Proof.
  unfold close_if_open, fdset. destruct (0 <=? fd)%Z.
  - destruct (sys_close_run fd r) as (a & q & E). mstep E. eexists. split; [reflexivity|]. done.
  - exists r. split_and!; [done|done|done|done|set_solver].
Qed.

Lemma run_error_run e o r : exists r', run_error e o r = (Ret (-1)%Z, r') /\
  r_cmd r' = r_cmd r /\ k_rest (r_k r') = k_rest (r_k r) /\
  ck_open (r_k r') = ck_open (r_k r) ∖ (fdset (fst e) ∪ fdset (snd e) ∪ fdset (fst o) ∪ fdset (snd o)).
Proof.
  unfold run_error.
  destruct (close_if_open_run (fst e) r) as (r1 & E1 & _ & C1 & K1 & O1). mstep E1.
  destruct (close_if_open_run (snd e) r1) as (r2 & E2 & _ & C2 & K2 & O2). mstep E2.
  destruct (close_if_open_run (fst o) r2) as (r3 & E3 & _ & C3 & K3 & O3). mstep E3.
  destruct (close_if_open_run (snd o) r3) as (r4 & E4 & _ & C4 & K4 & O4). mstep E4.
  exists r4. split_and!; [done|congruence|congruence|]. rewrite O4, O3, O2, O1. set_solver.
Qed.

(** What the command holds for its callback, and what the pipes will say. *)
Definition out_side r := (c_stdout_callback (r_cmd r), c_outbuf (r_cmd r), c_stdout_data (r_cmd r)).
Definition k_pipes (k : cmd_kernel) := (ck_select k, ck_err k, ck_out k, ck_wait k, ck_status k).
Definition start_fails r : Prop :=
  (exists e, Some e ∈ ck_pipe (r_k r)) \/ (exists e, ck_fork (r_k r) = inl e).

Record run_post r (x : Z) r' : Prop := {
  rp_kept : kept r' = ck_open (r_k r);
  rp_out : out_side r' = out_side r;
  rp_pipes : k_pipes (r_k r') = k_pipes (r_k r);
  rp_result :
    (x = (-1)%Z /\ start_fails r /\ owned (r_cmd r') = ∅ /\ ck_children (r_k r') = ck_children (r_k r) /\
     (c_pid (r_cmd r') = c_pid (r_cmd r) \/ c_pid (r_cmd r') = (-1)%Z)) \/
    (x = 0%Z /\ exists pid, ck_fork (r_k r) = inr pid /\ c_pid (r_cmd r') = Z.pos pid /\
     ck_children (r_k r') = {[Z.pos pid]} ∪ ck_children (r_k r) /\
     ((0 <= c_outfd (r_cmd r'))%Z <-> is_Some (c_stdout_callback (r_cmd r))))
}.

Lemma parent_fds_run r e o (capture callback : bool) : c_errorfd (r_cmd r) = (-1)%Z -> c_outfd (r_cmd r) = (-1)%Z ->
  (if capture then (0 <= fst e /\ 0 <= snd e)%Z else e = (-1, -1)%Z) ->
  (if callback then (0 <= fst o /\ 0 <= snd o)%Z else o = (-1, -1)%Z) ->
  exists r', parent_fds capture callback e o r = (Ret tt, r') /\ k_rest (r_k r') = k_rest (r_k r) /\
    r_cmd r' = (r_cmd r) <| c_errorfd := fst e |> <| c_outfd := fst o |> /\
    ck_open (r_k r') = ck_open (r_k r) ∖ (fdset (snd e) ∪ fdset (snd o)).
Proof.
  intros He Ho Hc Hb. unfold parent_fds.
  assert (exists r1, (if capture then sys_close (snd e) ;;; set_cmd (fun cmd => cmd <| c_errorfd := fst e |>)
            else ret tt) r = (Ret tt, r1) /\ k_rest (r_k r1) = k_rest (r_k r) /\
            r_cmd r1 = (r_cmd r) <| c_errorfd := fst e |> /\ ck_open (r_k r1) = ck_open (r_k r) ∖ fdset (snd e))
    as (r1 & E1 & K1 & C1 & O1).
  { destruct capture.
    - destruct (sys_close_run (snd e) r) as (a & q & E). mstep E. eexists. split; [reflexivity|].
      by rewrite fdset_nonneg by tauto.
    - subst e. exists r. split_and!; [done|done| |unfold fdset; set_solver].
      destruct r as [? [] ?]. cbn in *. by subst. }
  mstep E1.
  assert (c_outfd (r_cmd r1) = (-1)%Z) as Ho1 by (by rewrite C1).
  destruct callback.
  - destruct (sys_close_run (snd o) r1) as (a & q & E). mstep E. eexists. split; [reflexivity|].
    rewrite (fdset_nonneg (snd o)) by tauto. cbn. rewrite C1, O1. split_and!; [done|done|set_solver].
  - subst o. exists r1. split_and!; [done|done| |rewrite O1; unfold fdset; set_solver].
    rewrite C1. destruct r as [? [] ?]. cbn in *. by subst.
Qed.

(** The label [error], with the pipes [e] and [o] opened since. *)
Lemma run_fail_run r r1 e o : owned (r_cmd r1) = ∅ -> out_side r1 = out_side r ->
  (c_pid (r_cmd r1) = c_pid (r_cmd r) \/ c_pid (r_cmd r1) = (-1)%Z) ->
  k_rest (r_k r1) = k_rest (r_k r) -> start_fails r ->
  let fds := fdset (fst e) ∪ fdset (snd e) ∪ fdset (fst o) ∪ fdset (snd o) in
  ck_open (r_k r1) = fds ∪ ck_open (r_k r) -> fds ## ck_open (r_k r) ->
  exists x r', run_error e o r1 = (Ret x, r') /\ run_post r x r'.
Proof.
  intros Hown Hout Hpid HK Hf fds Hop Hd. destruct (run_error_run e o r1) as (r2 & E2 & C2 & K2 & O2).
  exists (-1)%Z, r2. split; [done|]. rewrite HK in K2. injection K2 as F2 S2 Ee2 Oo2 W2 St2 Ch2.
  split; [| |unfold k_pipes; congruence|].
  - unfold kept. rewrite C2, Hown, O2, Hop. fold fds. set_solver.
  - rewrite <- Hout. unfold out_side. by rewrite C2.
  - left. split_and!; [done|done|by rewrite C2|done|by rewrite C2].
Qed.

Lemma run_command_run r : c_errorfd (r_cmd r) = (-1)%Z -> c_outfd (r_cmd r) = (-1)%Z ->
  exists x r', run_command r = (Ret x, r') /\ run_post r x r'.
Proof.
  intros He Ho. unfold run_command. rewrite !bind_gets.
  assert (owned (r_cmd r) = ∅) as Hown by (unfold owned; rewrite He, Ho; unfold fdset; set_solver).
  set (capture := c_capture_errors (r_cmd r)).
  set (callback := bool_decide (is_Some (c_stdout_callback (r_cmd r)))).
  assert (forall fd, fd = (-1)%Z -> fdset fd = ∅) as Hneg by (by intros ? ->).
  destruct (open_pipe_run capture r) as (e & r1 & E1 & C1 & K1 & P1 & Q1). mstep E1.
  destruct e as [[e0 e1]|]; cycle 1.
  { destruct Q1 as [Op1 Hfail]. eapply (run_fail_run r r1); rewrite ?C1; auto.
    - unfold out_side. by rewrite C1.
    - by left.
    - rewrite Op1. unfold fdset. set_solver.
    - unfold fdset. set_solver. }
  destruct Q1 as (Op1 & Dis1 & Fr1 & Sg1).
  destruct (open_pipe_run callback r1) as (o & r2 & E2 & C2 & K2 & P2 & Q2). mstep E2.
  rewrite C1 in C2. rewrite K1 in K2.
  destruct o as [[o0 o1]|]; cycle 1.
  { destruct Q2 as [Op2 (en & Hen)]. eapply (run_fail_run r r2); rewrite ?C2; auto.
    - unfold out_side. by rewrite C2.
    - left. exists en. by apply P1.
    - rewrite Op2, Op1. cbn [fst snd]. unfold fdset. set_solver.
    - cbn [fst snd]. set (a := fdset e0) in *. set (b := fdset e1) in *. unfold fdset. set_solver. }
  destruct Q2 as (Op2 & Dis2 & Fr2 & Sg2). rewrite Op1 in Fr2, Op2.
  assert (ck_fork (r_k r2) = ck_fork (r_k r)) as EF by (by injection K2).
  unfold sys_fork. unfold bind at 1. rewrite EF. destruct (ck_fork (r_k r)) as [en|pid] eqn:Ef.
  { unfold set_cmd, perrorf. rewrite !bind_modify. eapply (run_fail_run r); cbn [fst snd].
    - cbn. unfold owned in *. cbn. by rewrite C2.
    - unfold out_side. cbn. by rewrite C2.
    - by right.
    - done.
    - right. by exists en.
    - cbn. rewrite Op2. set_solver.
    - set_solver. }
  unfold set_cmd at 1. rewrite bind_modify.
  set (r3 := upd r_cmd (fun cmd => cmd <| c_pid := Z.pos pid |>)
               (r2 <| r_k; ck_children ::= fun c => {[Z.pos pid]} ∪ c |>)).
  assert (forall (b : bool) (x y : Z), (if b then 0 <= x /\ 0 <= y else x = -1 /\ y = -1)%Z ->
    if b then (0 <= x /\ 0 <= y)%Z else (x, y) = (-1, -1)%Z) as Hpair by (intros [] x y; [done|by intros [-> ->]]).
  destruct (parent_fds_run r3 (e0, e1) (o0, o1) capture callback) as (r4 & E4 & K4 & C4 & O4);
    [cbn; by rewrite C2..|by apply Hpair|by apply Hpair|].
  mstep E4. do 2 eexists. split; [reflexivity|].
  cbn in K4. injection K4 as F4 S4 Ee4 Oo4 W4 St4 Ch4. injection K2 as F2 S2 Ee2 Oo2 W2 St2 Ch2.
  cbn [fst snd] in *. split.
  - unfold kept, owned. rewrite C4, O4. cbn. rewrite Op2. set_solver.
  - unfold out_side. rewrite C4. cbn. by rewrite C2.
  - unfold k_pipes. congruence.
  - right. split; [done|]. exists pid. rewrite C4, Ch4, Ch2. cbn. split_and!; [done|done|done|].
    unfold callback in Sg2. case_bool_decide; split; intros; [done|tauto|lia|done].
Qed.

(** A command as [guestfs___new_command] and the building functions leave it. *)
Record ready (cmd : command D) : Prop := {
  ready_line : c_line cmd <> COMMAND_STYLE_NOT_SELECTED;
  ready_err : c_errorfd cmd = (-1)%Z;
  ready_outfd : c_outfd cmd = (-1)%Z;
  ready_buf : ob_buffer (c_outbuf cmd) = [];
  ready_pid : c_pid cmd = 0%Z
}.

(** finish_command and debug_command touch the command line and the log. *)
Definition prepared r r1 : Prop := exists g line ov,
  r1 = mk_run g ((r_cmd r) <| c_line := line |> <| c_overrun := ov |>) (r_k r).

Lemma finish_command_run (cmd : command D) : c_line cmd <> COMMAND_STYLE_NOT_SELECTED ->
  exists line ov, line <> COMMAND_STYLE_NOT_SELECTED /\
    finish_command cmd = (Ret tt, cmd <| c_line := line |> <| c_overrun := ov |>).
Proof.
  intros H. unfold finish_command, add_string. destruct (c_line cmd) as [|argv|str alloc] eqn:El; [done| |].
  - exists (COMMAND_STYLE_EXECV (guestfs___end_stringsbuf argv)), (c_overrun cmd). split; [done|].
    by destruct cmd.
  - do 2 eexists. split; [|destruct cmd; reflexivity]. done.
Qed.
Lemma debug_command_run r : c_line (r_cmd r) <> COMMAND_STYLE_NOT_SELECTED ->
  exists g, debug_command r = (Ret tt, r <| r_g := g |>).
Proof.
  intros H. unfold debug_command. destruct (c_line (r_cmd r)) as [|argv|str alloc]; [done| |]; eexists; reflexivity.
Qed.

Lemma cmd_run_prepare r : c_line (r_cmd r) <> COMMAND_STYLE_NOT_SELECTED ->
  exists r1, prepared r r1 /\ guestfs___cmd_run r =
    (x <- run_command ;; if (x =? -1)%Z then ret (-1)%Z
     else y <- loop ;; if (y =? -1)%Z then ret (-1)%Z else wait_command) r1.
Proof.
  intros H. destruct (finish_command_run (r_cmd r) H) as (line & ov & Hl & E). unfold guestfs___cmd_run.
  set (r0 := r <| r_cmd := (r_cmd r) <| c_line := line |> <| c_overrun := ov |> |>).
  rewrite (bind_Ret _ _ r tt r0) by (unfold zoom; by rewrite E). rewrite bind_gets.
  assert (prepared r r0) as Hp by (by exists (r_g r), line, ov).
  destruct (verbose (g_cfg (r_g r0))); [|by exists r0].
  destruct (debug_command_run r0) as (g & Eg); [done|]. mstep Eg. eexists. split; [|reflexivity].
  by exists g, line, ov.
Qed.

(** Open descriptors and children while the command is running. *)
Definition holds (base children : gset Z) r : Prop :=
  kept r = base /\ ck_children (r_k r) = (if (0 <? c_pid (r_cmd r))%Z then {[c_pid (r_cmd r)]} else ∅) ∪ children.

Lemma wait_command_run base children r : holds base children r -> (0 < c_pid (r_cmd r))%Z ->
  c_pid (r_cmd r) ∉ children ->
  exists x r', wait_command r = (Ret x, r') /\ holds base children r' /\ out_side r' = out_side r /\
    ((x = ck_status (r_k r) /\ c_pid (r_cmd r') = 0%Z) \/
     (x = (-1)%Z /\ c_pid (r_cmd r') = c_pid (r_cmd r) /\ exists e, Some e ∈ ck_wait (r_k r))) /\
    ck_wait (r_k r') ⊆ ck_wait (r_k r).
Proof.
  intros [Hk Hc] Hp Hf. unfold wait_command, sys_waitpid, answer. rewrite bind_gets. unfold bind at 1.
  destruct (Z.ltb_spec 0 (c_pid (r_cmd r))); [|lia].
  destruct (ck_wait (r_k r)) as [|[e|] q] eqn:Ew; (do 2 eexists; split; [reflexivity|]); cbn.
  - split_and!; [split; [done|cbn; set_solver]|done|by left|done].
  - split_and!; [split; [done|cbn; destruct (Z.ltb_spec 0 (c_pid (r_cmd r))); [done|lia]]|done| |set_solver].
    right. split_and!; [done|done|]. exists e. by left.
  - split_and!; [split; [done|cbn; set_solver]|done|by left|set_solver].
Qed.

Lemma cmd_close_run base children r : holds base children r ->
  ((0 < c_pid (r_cmd r))%Z -> c_pid (r_cmd r) ∉ children) ->
  exists r', guestfs___cmd_close r = (Ret tt, r') /\ ck_open (r_k r') = base /\
    out_side r' = out_side r /\
    ((forall e, Some e ∉ ck_wait (r_k r)) -> ck_children (r_k r') = children).
Proof.
  intros [Hk Hc] Hf. unfold guestfs___cmd_close. rewrite bind_gets.
  destruct (close_if_open_run (c_errorfd (r_cmd r)) r) as (r1 & E1 & _ & C1 & K1 & O1). mstep E1. rewrite bind_gets.
  destruct (close_if_open_run (c_outfd (r_cmd r1)) r1) as (r2 & E2 & _ & C2 & K2 & O2). mstep E2. rewrite bind_gets.
  rewrite C1 in *. rewrite K1 in K2. injection K2 as F2 S2 Ee2 Oo2 W2 St2 Ch2.
  assert (ck_open (r_k r2) = base) as Hb by (rewrite O2, O1, <- Hk; unfold kept, owned; set_solver).
  rewrite C2. destruct (Z.ltb_spec 0 (c_pid (r_cmd r))).
  - unfold sys_waitpid, answer. unfold bind at 1. destruct (ck_wait (r_k r2)) as [|[e|] q] eqn:Ew.
    + eexists. split; [reflexivity|]. split_and!; [done|unfold out_side; cbn; by rewrite C2|]. intros _. cbn.
      rewrite Ch2, Hc. clear -Hf H. set_solver.
    + eexists. split; [reflexivity|]. split_and!; [done|unfold out_side; cbn; by rewrite C2|]. intros Hw. destruct (Hw e).
      rewrite <- W2. left.
    + eexists. split; [reflexivity|]. split_and!; [done|unfold out_side; cbn; by rewrite C2|]. intros _. cbn.
      rewrite Ch2, Hc. clear -Hf H. set_solver.
  - eexists. split; [reflexivity|]. split_and!; [done|unfold out_side; by rewrite C2|]. intros _. set_solver.
Qed.

(** The pid of a new child is not one of a child the process has. *)
Definition fresh_pid (k : cmd_kernel) : Prop :=
  forall pid, ck_fork k = inr pid -> Z.pos pid ∉ ck_children k.
(** Nothing that makes the run fail, before the output has been read. *)
Definition healthy r : Prop :=
  ~ start_fails r /\ ~ select_fails r /\ script_clean (ck_out (r_k r)) = true /\
  (forall e, Some e ∉ ck_wait (r_k r)).

(** What the callback has been given in a run that ends in [r']. *)
Definition delivered r (x : Z) r' : Prop := forall cb f,
  c_stdout_callback (r_cmd r) = Some cb -> acts_as cb f ->
  readable (mode_of r) (script_data (ck_out (r_k r))) -> mode_of r <> BufNone -> healthy r ->
  x = ck_status (r_k r) /\
  exists cs, c_stdout_data (r_cmd r') = fold_left f cs (c_stdout_data (r_cmd r)) /\
    delivers (mode_of r) (script_data (ck_out (r_k r))) cs.

Lemma prepared_ready r r1 : ready (r_cmd r) -> prepared r r1 ->
  c_errorfd (r_cmd r1) = (-1)%Z /\ c_outfd (r_cmd r1) = (-1)%Z /\ c_pid (r_cmd r1) = 0%Z /\
  r_k r1 = r_k r /\ out_side r1 = out_side r /\ (start_fails r1 <-> start_fails r).
Proof. intros [] (g & line & ov & ->). by split_and!. Qed.

(** The loop starts with nothing passed on. *)
Lemma out_state_start f r : (0 <= c_outfd (r_cmd r))%Z -> buf_of r = [] -> mode_of r <> BufNone ->
  script_clean (ck_out (r_k r)) = true ->
  out_state f (c_stdout_data (r_cmd r)) (script_data (ck_out (r_k r))) r.
Proof.
  intros Ho Hb Hm Hc. rewrite out_state_open by done. split; [done|]. exists [], []. split_and!; [done| |done].
  rewrite Hb. destruct (mode_of r); cbn; repeat split; constructor.
Qed.

Lemma open_fds_0 (cmd : command D) : open_fds cmd = 0 -> owned cmd = ∅ /\ (0 <=? c_outfd cmd)%Z = false.
Proof.
  unfold open_fds, owned, fdset. destruct (0 <=? c_errorfd cmd)%Z, (0 <=? c_outfd cmd)%Z; try lia. set_solver.
Qed.

Lemma loop_and_wait_run base children r : holds base children r -> (0 < c_pid (r_cmd r))%Z ->
  c_pid (r_cmd r) ∉ children -> has_callback r ->
  exists x r', (y <- loop ;; if (y =? -1)%Z then ret (-1)%Z else wait_command) r = (Ret x, r') /\
    holds base children r' /\ ((0 < c_pid (r_cmd r'))%Z -> c_pid (r_cmd r') ∉ children) /\
    ck_wait (r_k r') ⊆ ck_wait (r_k r) /\
    forall cb f d0 data, c_stdout_callback (r_cmd r) = Some cb -> acts_as cb f -> readable (mode_of r) data ->
      out_state f d0 data r -> ~ select_fails r -> (forall e, Some e ∉ ck_wait (r_k r)) ->
      x = ck_status (r_k r) /\
      exists cs, c_stdout_data (r_cmd r') = fold_left f cs d0 /\ delivers (mode_of r) data cs.
Proof.
  intros [Hk Hc] Hp Hf Hcb.
  destruct (loop_from_run (loop_measure r) r (le_n _) Hcb) as (y & r1 & E & [Hst Hkp _ Hstep] & Hy).
  change (loop_from (loop_measure r) (open_fds (r_cmd r)) r) with (loop r) in E. mstep E.
  injection Hst as Ecb Em Ep Ech Ew Es. rewrite Hk in Hkp. rewrite <- Ep in Hp, Hf.
  assert (holds base children r1) as Hh by (split; [done|by rewrite Ech, Ep]).
  destruct Hy as [[-> Hno]|[-> Hsf]]; cbn [Z.eqb]; cycle 1.
  { exists (-1)%Z, r1. split_and!; [done|done|done|by rewrite Ew|]. done. }
  destruct (wait_command_run base children r1 Hh Hp Hf) as (x & r' & E' & Hh' & Hside & Hx & Hw).
  exists x, r'. rewrite Ew in Hw, Hx. split_and!; [done|done|by destruct Hx as [[_ ->]|(_ & -> & _)]|done|].
  intros cb f d0 data HF1 HF2 HF3 HF4 _ HF6. destruct Hx as [[-> _]|(_ & _ & e & He)]; [|by destruct (HF6 e)].
  split; [done|]. injection Hside as _ _ Hd. rewrite Hd. specialize (Hstep _ _ _ _ HF1 HF2 HF3 HF4).
  apply open_fds_0 in Hno as [_ Hno]. unfold out_state in Hstep. rewrite Hno, Em in Hstep. done.
Qed.

Lemma cmd_run_run r : ready (r_cmd r) -> fresh_pid (r_k r) ->
  exists x r', guestfs___cmd_run r = (Ret x, r') /\ holds (ck_open (r_k r)) (ck_children (r_k r)) r' /\
    ((0 < c_pid (r_cmd r'))%Z -> c_pid (r_cmd r') ∉ ck_children (r_k r)) /\
    ck_wait (r_k r') ⊆ ck_wait (r_k r) /\ delivered r x r'.
Proof.
  intros Hr Hfresh. destruct (cmd_run_prepare r (ready_line _ Hr)) as (r1 & Hp & ->).
  destruct (prepared_ready r r1 Hr Hp) as (He1 & Ho1 & Hp1 & Hk1 & Hs1 & Hf1).
  destruct (run_command_run r1 He1 Ho1) as (x & r2 & E2 & [Hkept Hout Hpipes Hres]). mstep E2.
  rewrite Hk1 in *. rewrite Hs1 in Hout. injection Hpipes as Sel2 Err2 Out2 Wt2 St2.
  destruct Hres as [(-> & Hfail & Hown & Hch & Hpid)|(-> & pid & Ef & Hpid & Hch & Hcb)].
  { exists (-1)%Z, r2. cbn. split_and!; [done| | |by rewrite Wt2|].
    - split; [done|]. destruct (Z.ltb_spec 0 (c_pid (r_cmd r2))); [lia|]. rewrite Hch. set_solver.
    - lia.
    - intros cb f _ _ _ _ (Hns & _). by apply Hf1 in Hfail. }
  cbn [Z.eqb]. assert (c_stdout_callback (r_cmd r1) = c_stdout_callback (r_cmd r2)) as Ecb.
  { unfold out_side in *. congruence. }
  destruct (loop_and_wait_run (ck_open (r_k r)) (ck_children (r_k r)) r2) as (x & r' & E & Hh & Hpf & Hw & Hd).
  { split; [done|]. by rewrite Hpid, Hch. }
  { by rewrite Hpid. }
  { rewrite Hpid. by apply Hfresh. }
  { intros H. apply Hcb in H as [cb Hcb']. exists cb. congruence. }
  exists x, r'. rewrite Wt2 in *. split_and!; [done|done|done|done|].
  intros cb f Hcb0 Hf Hrd Hm (_ & Hsel & Hcl & Hwt). injection Hout as Ecb2 Eob Edt.
  assert (mode_of r2 = mode_of r) as Em by (unfold mode_of; by rewrite Eob).
  rewrite <- St2, <- Out2, <- Em, <- Edt in *. apply (Hd cb f); [congruence|done|done| | |done].
  - apply out_state_start; [|unfold buf_of; rewrite Eob; apply Hr|done|done].
    apply Hcb. rewrite Ecb, Ecb2. by exists cb.
  - unfold select_fails in *. by rewrite Sel2.
Qed.
End resources.

(** * Properties *)

(** Run and close, the way every caller uses a command. *)
Definition run_and_close {D} : cm D Z := x <- guestfs___cmd_run ;; guestfs___cmd_close ;;; ret x.

Lemma run_and_close_run {D} (r : run D) : ready (r_cmd r) -> fresh_pid (r_k r) ->
  exists x r', run_and_close r = (Ret x, r') /\ ck_open (r_k r') = ck_open (r_k r) /\
    ((forall e, Some e ∉ ck_wait (r_k r)) -> ck_children (r_k r') = ck_children (r_k r)) /\ delivered r x r'.
Proof.
  intros Hr Hf. destruct (cmd_run_run r Hr Hf) as (x & r1 & E1 & H1 & P1 & W1 & D1).
  destruct (cmd_close_run _ _ r1 H1 P1) as (r2 & E2 & O2 & S2 & C2). exists x, r2.
  unfold run_and_close. mstep E1. mstep E2. split_and!; [done|done| |].
  - intros Hw. apply C2. intros e He. apply (Hw e). by apply W1.
  - injection S2 as _ _ Ed. unfold delivered. by rewrite Ed.
Qed.

(** C33: Running and closing a command returns, whatever pipe2, fork, select, read, close and
    waitpid answer; every descriptor that was opened is closed again, no other is touched, and
    no child is left unless waitpid fails. *)
Theorem cmd_resources_released {D} (r : run D) : ready (r_cmd r) -> fresh_pid (r_k r) ->
  exists x r', run_and_close r = (Ret x, r') /\ ck_open (r_k r') = ck_open (r_k r) /\
    ((forall e, Some e ∉ ck_wait (r_k r)) -> ck_children (r_k r') = ck_children (r_k r)).
Proof.
  intros Hr Hf. destruct (run_and_close_run r Hr Hf) as (x & r' & E & O & C & _). eauto.
Qed.

(** The callback is given the output of the command, however it arrives in pieces: its
    lines, the whole of it in one call, or its pieces in order, depending on the mode; and the
    status of the child is returned. *)
Theorem cmd_output_delivered {D} (r : run D) cb f :
  ready (r_cmd r) -> fresh_pid (r_k r) -> healthy r ->
  c_stdout_callback (r_cmd r) = Some cb -> acts_as cb f -> mode_of r <> BufNone ->
  readable (mode_of r) (script_data (ck_out (r_k r))) ->
  exists r', guestfs___cmd_run r = (Ret (ck_status (r_k r)), r') /\
    exists cs, c_stdout_data (r_cmd r') = fold_left f cs (c_stdout_data (r_cmd r)) /\
      delivers (mode_of r) (script_data (ck_out (r_k r))) cs.
Proof.
  intros Hr Hf Hh Hcb Ha Hm Hn. destruct (cmd_run_run r Hr Hf) as (x & r1 & E1 & _ & _ & _ & D1).
  destruct (D1 cb f) as [-> Hcs]; eauto.
Qed.

(** Quoting an argument appends one shell word that a POSIX shell reads back as exactly the
    argument, inside the buffer and whatever follows. *)
Theorem quoted_argument_roundtrip {D} (cmd : command D) (str : string) : string_ok cmd ->
  exists cmd' word, guestfs___cmd_add_string_quoted str cmd = (Ret tt, cmd') /\ string_ok cmd' /\
    cmd_string cmd' = cmd_string cmd ++ word /\
    forall rest, sh_word (word ++ rest) = Some (bytes_of_string str, rest).
Proof.
  intros Hok. destruct (add_string_quoted_run cmd str Hok) as (cmd' & E & Hok' & Es).
  exists cmd', (quoted str). split_and!; [done|done|done|]. apply sh_word_quoted.
Qed.

(** add_string does not make room for what it copies: an unquoted string runs past the
    allocation exactly when it is the first and longer than 256 bytes, or when it does not fit in the
    room that is left (but some is left). *)
Theorem add_string_overrun {D} (cmd : command D) (str : string) : string_ok cmd ->
  exists cmd', guestfs___cmd_add_string_unquoted str cmd = (Ret tt, cmd') /\
    let len := length (cmd_string cmd) in
    let n := length (bytes_of_string str) in
    (c_overrun cmd' = true <->
     (cmd_alloc cmd = 0 /\ 256 < n) \/ (len < cmd_alloc cmd /\ cmd_alloc cmd < len + n)).
Proof.
  intros (Hs & Hl & Ho). destruct (add_string_run cmd (bytes_of_string str) Hs) as (cmd' & E & _ & Es & Ea & Eo).
  exists cmd'. split; [done|]. cbv zeta. rewrite Eo, Ho, orb_false_r, Nat.ltb_lt, Ea, Es, length_app. unfold grow.
  destruct (Nat.leb_spec (cmd_alloc cmd) (length (cmd_string cmd))); [|lia].
  destruct (Nat.eqb_spec (cmd_alloc cmd) 0); lia.
Qed.

(** ** Witnesses *)

(** A command that logs what it is given. *)
Definition ex_log : cmd_stdout_callback (list (list byte)) := fun g d buf => (g, d ++ [buf]).
Definition ex_command (flags : Z) : command (list (list byte)) :=
  snd ((guestfs___cmd_add_string_unquoted "ls " ;;; guestfs___cmd_add_string_quoted "a b" ;;;
        guestfs___cmd_set_stdout_callback ex_log [] flags) (guestfs___new_command [])).
Definition ex_out : list byte := bytes_of_string ("one" +:+ newline +:+ "two").
Definition ex_kernel : cmd_kernel :=
  mk_cmd_kernel [] (inr 7%positive) [SelSet false true; SelFail EINTR] [RdData [x41]]
    [RdData (take 5 ex_out); RdData (drop 5 ex_out)] [] [] 256 {[0; 1; 2]}%Z ∅.
Definition ex_run (flags : Z) : run (list (list byte)) := mk_run Examples.ex_handle (ex_command flags) ex_kernel.

Lemma cmd_resources_released_witness :
  exists x r', run_and_close (ex_run 0) = (Ret x, r') /\ ck_open (r_k r') = {[0; 1; 2]}%Z.
Proof.
  destruct (cmd_resources_released (ex_run 0)) as (x & r' & E & Ho & _); [by split|done|].
  by exists x, r'.
Defined.

Lemma cmd_output_delivered_witness : exists r', guestfs___cmd_run (ex_run 0) = (Ret 256%Z, r') /\
  c_stdout_data (r_cmd r') = [bytes_of_string "one"; bytes_of_string "two"].
Proof.
  destruct (cmd_output_delivered (ex_run 0) ex_log (fun d buf => d ++ [buf])) as (r' & E & cs & Hd & Hcs);
    [by split|done| |done|done|done|intros _; vm_compute; repeat constructor; discriminate|exists r'; split; [done|rewrite Hd, Hcs; done]].
  split_and!; [intros [(e & He)|(e & He)]| |done|]; [set_solver|done| |set_solver].
  intros (e & He & Hr). cbn in He. apply elem_of_cons in He as [|He]; [done|].
  apply list_elem_of_singleton in He as [= ->]. done.
Defined.

Lemma quoted_argument_roundtrip_witness : exists cmd' word,
  guestfs___cmd_add_string_quoted "$x" (guestfs___new_command tt) = (Ret tt, cmd') /\
  cmd_string cmd' = word /\ sh_word (word ++ []) = Some (bytes_of_string "$x", []).
Proof.
  destruct (quoted_argument_roundtrip (guestfs___new_command tt) "$x" (new_command_ok tt))
    as (cmd' & word & E & _ & Es & Hw). by exists cmd', word.
Defined.

Definition ex_long (n : nat) : string := string_of_bytes (repeat x61 n).
Lemma add_string_overrun_witness : exists cmd',
  guestfs___cmd_add_string_unquoted (ex_long 257) (guestfs___new_command tt) = (Ret tt, cmd') /\
  c_overrun cmd' = true.
Proof.
  destruct (add_string_overrun (guestfs___new_command tt) (ex_long 257) (new_command_ok tt)) as (cmd' & E & H).
  exists cmd'. split; [done|]. apply H. left. split; [done|]. vm_compute. lia.
Defined.
