(* ===== verification/Guestfsd.v ===== *)
(** daemon/guestfsd.c, the utilities every procedure of the daemon uses:
    string lists, device names and their order, running external commands and
    collecting their output, splitting and trimming text, shell quoting,
    device name translation, btrfs subvolumes, random names. *)

From S2P Require Import Prelude Xdr Handle Utils Events Conn Command.
From stdpp Require Import sorting.
From Stdlib Require Import Ascii.
Import StringsBuf.

(** * Paths and string lists *)

Section paths.
Variable sysroot : string.
Definition sysroot_path (path : string) : string := sysroot +:+ path.
(** [realpath] inside the chroot; [None] is NULL. *)
Definition sysroot_realpath (realpath : string -> option string) (path : string) : option string :=
  rp ← realpath path; Some (sysroot_path rp).
End paths.

(** The stringsbuf of the daemon; allocation does not fail in the model. *)
Definition add_string_nodup (sb : stringsbuf) (str : option string) : stringsbuf :=
  let alloc := if (sb_alloc sb <=? length (sb_argv sb))%nat then sb_alloc sb + 64 else sb_alloc sb in
  mk_stringsbuf (sb_argv sb ++ [str]) alloc.
Definition add_string (sb : stringsbuf) (str : option string) : stringsbuf := add_string_nodup sb str.
Definition add_sprintf (sb : stringsbuf) (str : string) : stringsbuf := add_string_nodup sb (Some str).
Definition end_stringsbuf (sb : stringsbuf) : stringsbuf := add_string_nodup sb None.

(** The strings of an argv, up to the terminating NULL. *)
Fixpoint argv_strings (argv : list (option string)) : list string :=
  match argv with
  | Some s :: argv' => s :: argv_strings argv'
  | _ => []
  end.
Definition count_strings (argv : list (option string)) : nat := length (argv_strings argv).

Definition is_power_of_2 (v : Z) : bool := negb (v =? 0)%Z && (Z.land v (u64 (v - 1)) =? 0)%Z.

(** strcmp (3): the sign of the first difference of unsigned chars. *)
Fixpoint strcmp (a b : string) : Z :=
  match a, b with
  | EmptyString, EmptyString => 0
  | EmptyString, String c _ => - code c
  | String c _, EmptyString => code c
  | String c a', String d b' => if Ascii.eqb c d then strcmp a' b' else code c - code d
  end%Z.
Fixpoint strncmp (a b : string) (n : nat) {struct n} : Z :=
  match n, a, b with
  | O, _, _ => 0
  | _, EmptyString, EmptyString => 0
  | _, EmptyString, String c _ => - code c
  | _, String c _, EmptyString => code c
  | S n', String c a', String d b' => if Ascii.eqb c d then strncmp a' b' n' else code c - code d
  end%Z.

Definition str_le (a b : string) : Prop := (strcmp a b <= 0)%Z.
#[export] Instance str_le_dec a b : Decision (str_le a b) := Z_le_dec _ _.
(** qsort (3) with [compare]. *)
Definition sort_strings (argv : list string) : list string := merge_sort str_le argv.

(** ** Joining *)

Definition join_strings (separator : string) (argv : list string) : string := join_from 0 separator argv.
Definition concat_strings (argv : list string) : string := join_strings "" argv.

(** * Device names *)

Fixpoint span_nondigit (s : string) : string * string :=
  match s with
  | EmptyString => ("", "")
  | String c s' => if c_isdigit c then ("", s) else let '(a, b) := span_nondigit s' in (String c a, b)
  end.

(** [s += n]. *)
Fixpoint str_drop (n : nat) (s : string) : string :=
  match n, s with
  | S n', String _ s' => str_drop n' s'
  | _, _ => s
  end.
Definition skip_dev (s : string) : string := if STRPREFIX s "/dev/" then str_drop 5 s else s.

(** After sd, hd, vd or ubd; [None] is the failed assertion. *)
Definition skip_kind (s : string) : option string :=
  let alen := String.length (fst (strcspn "d" s)) in
  if ((0 <? alen) && (alen <=? 2))%nat then Some (str_drop (alen + 1) s) else None.

Definition compare_device_names (a b : string) : outcome Z :=
  match skip_kind (skip_dev a), skip_kind (skip_dev b) with
  | Some a, Some b =>
      let alen := String.length (fst (span_nondigit a)) in
      let blen := String.length (fst (span_nondigit b)) in
      if negb (alen =? blen)%nat then Ret (s32 (Z.of_nat alen - Z.of_nat blen))
      else
        let r := strncmp a b alen in
        if negb (r =? 0)%Z then Ret r
        else
          let a := str_drop alen a in
          let b := str_drop alen b in
          if STREQ a "" && STREQ b "" then Ret 0%Z
          else match sscanf_d a, sscanf_d b with
               | Some a_partnum, Some b_partnum => Ret (s32 (a_partnum - b_partnum))
               | _, _ => Stop AssertFailed
               end
  | _, _ => Stop AssertFailed
  end.

(** * Running commands *)

(** What the world answers to commandrvf. *)
Record cmd_world := mk_cmd_world {
  cw_pipe_ok : bool;
  cw_fork_ok : bool;
  cw_select : list sel_ev;
  cw_so : list read_ev;
  cw_se : list read_ev;
  cw_close_fd : bool;              (* close (flag_copy_fd) succeeds *)
  cw_wait : option Z               (* the status, or waitpid fails *)
}.

Definition COMMAND_FLAG_FD_MASK : Z := 1024 - 1.
Definition COMMAND_FLAG_FOLD_STDOUT_ON_STDERR : Z := 1024.
Definition COMMAND_FLAG_CHROOT_COPY_FILE_TO_STDIN : Z := 2048.
Definition has_flag (flags f : Z) : bool := negb (Z.land flags f =? 0)%Z.

(** Where descriptors 0, 1 and 2 of the child lead. *)
Inductive child_fd := FromFd (fd : Z) | DevNull | StdoutPipe | StderrPipe.
Definition commandrvf_child (flags : Z) : child_fd * child_fd * child_fd :=
  (if has_flag flags COMMAND_FLAG_CHROOT_COPY_FILE_TO_STDIN
   then FromFd (Z.land flags COMMAND_FLAG_FD_MASK) else DevNull,
   if negb (has_flag flags COMMAND_FLAG_FOLD_STDOUT_ON_STDERR) then StdoutPipe else StderrPipe,
   StderrPipe).

(** The state of the read loop: which descriptors are still in [rset], the two
    buffers and the scripts. *)
Record crv := mk_crv {
  cr_so_open : bool;
  cr_se_open : bool;
  cr_out : list byte;
  cr_err : list byte;
  cr_select : list sel_ev;
  cr_so : list read_ev;
  cr_se : list read_ev
}.

(** [None] is [goto quit]. *)
Definition crv_stdout (c : crv) : option crv :=
  match pipe_read 256 (cr_so c) with
  | (RdErr _, _) => None
  | (RdData [], q) => Some (mk_crv false (cr_se_open c) (cr_out c) (cr_err c) (cr_select c) q (cr_se c))
  | (RdData bs, q) =>
      Some (mk_crv (cr_so_open c) (cr_se_open c) (cr_out c ++ bs) (cr_err c) (cr_select c) q (cr_se c))
  end.
Definition crv_stderr (c : crv) : option crv :=
  match pipe_read 256 (cr_se c) with
  | (RdErr _, _) => None
  | (RdData [], q) => Some (mk_crv (cr_so_open c) false (cr_out c) (cr_err c) (cr_select c) (cr_so c) q)
  | (RdData bs, q) =>
      Some (mk_crv (cr_so_open c) (cr_se_open c) (cr_out c) (cr_err c ++ bs) (cr_select c) (cr_so c) q)
  end.

Definition crv_measure (c : crv) : nat :=
  length (cr_select c) + (if cr_so_open c then S (script_size (cr_so c)) else 0) +
  (if cr_se_open c then S (script_size (cr_se c)) else 0).

(** [while (quit < 2)]: [quit] counts the descriptors that are closed. *)
Fixpoint crv_loop (fuel : nat) (c : crv) : outcome (option crv) :=
  if negb (cr_so_open c || cr_se_open c) then Ret (Some c)
  else match fuel with
       | O => Stop OutOfFuel
       | S fuel' =>
           let '(ev, sel) := match cr_select c with
                             | [] => (SelSet true true, [])
                             | s :: q => (s, q)
                             end in
           let c := mk_crv (cr_so_open c) (cr_se_open c) (cr_out c) (cr_err c) sel (cr_so c) (cr_se c) in
           match ev with
           | SelFail e => if (e =? EINTR)%Z then crv_loop fuel' c else Ret None
           | SelSet so se =>
               match (if cr_so_open c && so then crv_stdout c else Some c) with
               | None => Ret None
               | Some c1 =>
                   match (if cr_se_open c1 && se then crv_stderr c1 else Some c1) with
                   | None => Ret None
                   | Some c2 => crv_loop fuel' c2
                   end
               end
           end
       end.

(** The loop that removes the trailing newlines. *)
Fixpoint strip_newlines (rev : list byte) : list byte :=
  match rev with
  | b :: rev' => if Byte.eqb b nl then strip_newlines rev' else rev
  | [] => []
  end.
Definition remove_trailing_nl (s : list byte) : list byte := rev (strip_newlines (rev s)).

Definition run_error_text : list byte :=
  bytes_of_string "error running external command, see debug output for details".

(** The result, and what is stored in the two buffers that were asked for;
    [None] is NULL or a buffer that was not asked for. *)
Definition cmd_result : Type := Z * option (list byte) * option (list byte).

Definition commandrvf (want_out want_err : bool) (flags : Z) (w : cmd_world) : outcome cmd_result :=
  let asked (want : bool) (s : list byte) := if want then Some s else None in
  let copy_stdin := has_flag flags COMMAND_FLAG_CHROOT_COPY_FILE_TO_STDIN in
  if negb (cw_pipe_ok w) then Stop AssertFailed
  else if negb (cw_fork_ok w) then Stop AssertFailed
  else
    let c := mk_crv true true [] [] (cw_select w) (cw_so w) (cw_se w) in
    match crv_loop (crv_measure c) c with
    | Stop why => Stop why
    | Ret None => Ret ((-1)%Z, None, asked want_err run_error_text)
    | Ret (Some c) =>
        let out := asked want_out (cr_out c) in
        let err := asked want_err (remove_trailing_nl (cr_err c)) in
        if copy_stdin && negb (cw_close_fd w) then Ret ((-1)%Z, out, err)
        else match cw_wait w with
             | None => Ret ((-1)%Z, out, err)
             | Some r => Ret ((if WIFEXITED r then WEXITSTATUS r else (-1)%Z), out, err)
             end
    end.

Definition commandvf (want_out want_err : bool) (flags : Z) (w : cmd_world) : outcome cmd_result :=
  match commandrvf want_out want_err flags w with
  | Stop why => Stop why
  | Ret (r, out, err) => Ret (if (r =? 0)%Z then 0%Z else (-1)%Z, out, err)
  end.

(** * Text *)

Definition nl_char : ascii := "010".

(** The loop of split_lines, from [p]. *)
Fixpoint split_lines_loop (fuel : nat) (p : string) : list string :=
  match p, fuel with
  | EmptyString, _ => []
  | _, O => []
  | _, S fuel' =>
      match strcspn nl_char p with
      | (line, EmptyString) => [line]
      | (line, String _ pend) => line :: split_lines_loop fuel' pend
      end
  end.
Definition empty_list : list string := [].
Definition split_lines (str : string) : list string :=
  if STREQ str "" then empty_list else split_lines_loop (String.length str) str.

Fixpoint trim_end (s : string) : string :=
  match s with
  | EmptyString => ""
  | String c s' => let t := trim_end s' in
                   if STREQ t "" && c_isspace c then "" else String c t
  end.
Definition trim (str : string) : string := skip_spaces (trim_end str).

(** %Q and %R *)
Definition SAFE (c : ascii) : bool :=
  c_isalnum c || Ascii.eqb c "/" || Ascii.eqb c "-" || Ascii.eqb c "_" || Ascii.eqb c ".".
Fixpoint print_shell_quote (str : string) : string :=
  match str with
  | EmptyString => ""
  | String c str' => (if SAFE c then String c "" else String "\" (String c "")) +:+ print_shell_quote str'
  end.
Definition print_sysroot_shell_quote (sysroot str : string) : string := sysroot +:+ print_shell_quote str.

(** * Devices *)

(** The file system the daemon sees: open for reading (an errno), stat
    (directory or not, st_rdev), access for execution. *)
Record dev_fs := mk_dev_fs {
  fs_open : string -> option Z;
  fs_stat : string -> option (bool * Z);
  fs_exec : string -> bool;
  root_device : Z
}.
Definition ENOENT : Z := 2.
Definition ENXIO : Z := 6.

Section devices.
Context (fs : dev_fs).

Definition opens (device : string) : bool := bool_decide (fs_open fs device = None).

Definition is_root_device_stat (st : bool * Z) : bool := (snd st =? root_device fs)%Z.
Definition is_root_device (device : string) : bool :=
  match fs_stat fs device with None => false | Some st => is_root_device_stat st end.

Definition device_name_translation (device : string) : option string :=
  match fs_open fs device with
  | None => Some device
  | Some errno =>
      if negb (errno =? ENXIO)%Z && negb (errno =? ENOENT)%Z then None
      else if negb (STRPREFIX device "/dev/sd") then None
      else
        let device := str_drop 7 device in
        if opens ("/dev/vd" +:+ device) then Some ("/dev/vd" +:+ device)
        else if opens ("/dev/hd" +:+ device) then Some ("/dev/hd" +:+ device)
        else if opens ("/dev/ubd" +:+ device) then Some ("/dev/ubd" +:+ device)
        else None
  end.

Inductive mountable_type := MOUNTABLE_DEVICE | MOUNTABLE_BTRFSVOL | MOUNTABLE_PATH.
Record mountable_t := mk_mountable { mt_type : mountable_type; mt_device : string; mt_volume : string }.

(** The loop over the slashes of [desc].  [seen] is the text before the next
    slash as far as [desc] goes as a C string: when the translation fails the
    slash stays overwritten by a NUL, which ends it there ([cut]).  [device] is
    the result of the last translation. *)
Fixpoint btrfsvol_loop (fuel : nat) (seen : string) (cut : bool) (rest : string) (device : option string) :
    option (option string * option string) :=
  match fuel with
  | O => Some (device, None)
  | S fuel' =>
      match strcspn "/" rest with
      | (_, EmptyString) => Some (device, None)
      | (piece, String _ rest') =>
          let desc := if cut then seen else seen +:+ piece in
          match device_name_translation desc with
          | None => btrfsvol_loop fuel' desc true rest' None
          | Some device =>
              match fs_stat fs device with
              | None => None
              | Some st =>
                  if negb (fst st) && negb (is_root_device_stat st) then Some (Some device, Some rest')
                  else if cut then btrfsvol_loop fuel' desc true rest' (Some device)
                  else btrfsvol_loop fuel' (desc +:+ "/") false rest' (Some device)
              end
          end
      end
  end.

(** [None] is -1. *)
Definition parse_btrfsvol (desc_orig : string) : option mountable_t :=
  if negb (STRPREFIX desc_orig "/dev/") then None
  else match btrfsvol_loop (String.length desc_orig) "/dev/" false (str_drop 5 desc_orig) None with
       | Some (Some device, Some volume) => Some (mk_mountable MOUNTABLE_BTRFSVOL device volume)
       | _ => None
       end.

Definition mountable_to_string (m : mountable_t) : string :=
  match mt_type m with
  | MOUNTABLE_DEVICE | MOUNTABLE_PATH => mt_device m
  | MOUNTABLE_BTRFSVOL => "btrfsvol:" +:+ mt_device m +:+ "/" +:+ mt_volume m
  end.

(** snprintf into 1024 bytes. *)
Definition prog_exists (prog : string) : bool :=
  existsb (fun dir => fs_exec fs (String.substring 0 1023 (dir +:+ "/" +:+ prog)))
    ["/sbin"; "/usr/sbin"; "/bin"; "/usr/bin"].
End devices.

(** * random_name *)

(** strrchr (template, '/'): the text before the last slash, and from it. *)
Fixpoint strrchr_slash (s : string) : option (string * string) :=
  match s with
  | EmptyString => None
  | String c s' => match strrchr_slash s' with
                   | Some (a, b) => Some (String c a, b)
                   | None => if Ascii.eqb c "/" then Some ("", s) else None
                   end
  end.

(** [None] is a failed read of /dev/urandom. *)
Fixpoint random_fill (p : string) (urandom : list (option byte)) : option string :=
  match p with
  | EmptyString => Some ""
  | String c p' =>
      if Ascii.eqb c "X" then
        match urandom with
        | Some b :: urandom' =>
            ch ← String.get (Z.to_nat (Z_of_byte b mod 36)) random_chars;
            s ← random_fill p' urandom';
            Some (String ch s)
        | _ => None
        end
      else s ← random_fill p' urandom; Some (String c s)
  end.

(** The updated template, with the result 0; -1 is [Ret None]. *)
Definition random_name (open_ok : bool) (urandom : list (option byte)) (template : string) :
    outcome (option string) :=
  if negb open_ok then Ret None
  else match strrchr_slash template with
       | None => Stop AssertFailed
       | Some (a, p) => Ret (match random_fill p urandom with Some p' => Some (a +:+ p') | None => None end)
       end.

(** * udev_settle *)

(** The command, and whether a warning is printed for the result of system. *)
Definition udev_settle_cmd (verbose : bool) : string :=
  "udevadm" +:+ (if verbose then " --debug" else "") +:+ " settle".
Definition udev_settle_warns (r : Z) : bool :=
  negb (r =? -1)%Z && (negb (WIFEXITED r) || negb (WEXITSTATUS r =? 0)%Z).

(** * Lemmas *)

#[local] Arguments String.append : simpl nomatch.

Definition str_unlines (ls : list string) : string := foldr (fun l s => l +:+ String nl_char s) "" ls.


Lemma split_lines_loop_nil fuel : split_lines_loop fuel "" = [].
Proof. by destruct fuel. Qed.

Lemma split_lines_loop_spec : forall fuel p, String.length p <= fuel ->
  Forall (no_sep nl_char) (split_lines_loop fuel p) /\
  (str_unlines (split_lines_loop fuel p) = p \/
   str_unlines (split_lines_loop fuel p) = p +:+ String nl_char "").
Proof.
  induction fuel as [|fuel IH]; intros p Hp.
  { destruct p; [|cbn in Hp; lia]. cbn. split; [constructor|by left]. }
  destruct p as [|c p]; [cbn; split; [constructor|by left]|]. cbn [split_lines_loop].
  destruct (strcspn nl_char (String c p)) as [line rest] eqn:E.
  apply strcspn_spec in E as (Ep & Hl & Hr). rewrite Ep in *. destruct Hr as [->|[pend ->]].
  - split; [by repeat constructor|]. right. cbn. by rewrite str_app_nil_r.
  - rewrite str_length_app in Hp. cbn in Hp. destruct (IH pend ltac:(lia)) as [Hf Hu].
    split; [by constructor|]. cbn [str_unlines foldr]. fold (str_unlines (split_lines_loop fuel pend)).
    destruct Hu as [Hu|Hu]; rewrite Hu; [by left|right]. by rewrite str_app_assoc, str_app_cons.
Qed.

Lemma split_lines_loop_unlines : forall ls fuel last, Forall (no_sep nl_char) ls -> no_sep nl_char last ->
  String.length (str_unlines ls +:+ last) <= fuel ->
  split_lines_loop fuel (str_unlines ls +:+ last) = ls ++ (if STREQ last "" then [] else [last]).
Proof.
  induction ls as [|l ls IH]; intros fuel last Hls Hlast Hf; cbn [str_unlines foldr].
  - cbn. destruct last as [|c last]; [apply split_lines_loop_nil|]. destruct fuel as [|fuel]; [cbn in Hf; lia|].
    cbn [split_lines_loop]. destruct (strcspn_no_sep nl_char _ "" Hlast) as [_ ->]. done.
  - fold (str_unlines ls). inversion Hls as [|? ? Hl Hls']; subst. rewrite str_app_assoc, str_app_cons.
    destruct (strcspn_no_sep nl_char l (str_unlines ls +:+ last) Hl) as [E _].
    cbn [str_unlines foldr] in Hf. fold (str_unlines ls) in Hf.
    rewrite str_app_assoc, str_app_cons, str_length_app in Hf. cbn [String.length] in Hf.
    destruct fuel as [|fuel]; [lia|].
    assert (l +:+ String nl_char (str_unlines ls +:+ last) <> "") as Hne by (by destruct l).
    destruct (l +:+ String nl_char (str_unlines ls +:+ last)) as [|c s] eqn:El; [done|].
    cbn [split_lines_loop]. rewrite E, IH by (done || lia). done.
Qed.

Lemma trim_end_spec s : exists b, s = trim_end s +:+ b /\ str_forallb c_isspace b = true /\
  (trim_end s = "" \/ exists t c, trim_end s = t +:+ String c "" /\ c_isspace c = false).
Proof.
  induction s as [|c s (b & Es & Hb & Ht)]; [exists ""; auto|]. cbn [trim_end].
  destruct (STREQ (trim_end s) "") eqn:E; unfold STREQ in E; apply bool_decide_eq_true in E || apply bool_decide_eq_false in E.
  - destruct (c_isspace c) eqn:Ec; cbn [andb].
    + exists (String c s). split_and!; [done| |by left]. cbn. rewrite Ec. rewrite E in Es. cbn in Es. by subst.
    + exists b. rewrite E in *. cbn in Es. subst. split_and!; [done|done|]. right. by exists "", c.
  - cbn [andb]. exists b. split_and!; [by rewrite str_app_cons, <- Es|done|]. right.
    destruct Ht as [?|(t & d & -> & Hd)]; [done|]. by exists (String c t), d.
Qed.

Lemma skip_spaces_spec s : exists a, s = a +:+ skip_spaces s /\ str_forallb c_isspace a = true /\
  (skip_spaces s = "" \/ exists c t, skip_spaces s = String c t /\ c_isspace c = false).
Proof.
  induction s as [|c s (a & Es & Ha & Ht)]; [exists ""; auto|]. cbn [skip_spaces].
  destruct (c_isspace c) eqn:Ec.
  - exists (String c a). split_and!; [by rewrite str_app_cons, <- Es|cbn; by rewrite Ec|done].
  - exists "". split_and!; [done|done|]. right. by exists c, s.
Qed.

Lemma skip_spaces_last t c : c_isspace c = false ->
  exists t', skip_spaces (t +:+ String c "") = t' +:+ String c "".
Proof.
  intros Hc. induction t as [|d t IH]; [exists ""; cbn; by rewrite Hc|]. rewrite str_app_cons. cbn [skip_spaces].
  destruct (c_isspace d); [done|]. by exists (String d t).
Qed.

(** ** strcmp is a total order *)

Lemma code_inj c d : code c = code d -> c = d.
Proof.
  unfold code. intros H. rewrite <- (ascii_N_embedding c), <- (ascii_N_embedding d). f_equal. lia.
Qed.
Lemma strcmp_refl a : strcmp a a = 0%Z.
Proof. induction a as [|c a IH]; [done|]. cbn. by rewrite Ascii.eqb_refl. Qed.
Lemma strcmp_antisym a : forall b, strcmp b a = (- strcmp a b)%Z.
Proof.
  induction a as [|c a IH]; intros [|d b]; cbn; try lia. rewrite Ascii.eqb_sym. destruct (Ascii.eqb_spec c d); [auto|lia].
Qed.
#[export] Instance str_le_total : Total str_le.
Proof. intros a b. unfold str_le. rewrite (strcmp_antisym a b). lia. Qed.

(** ** Drive names in bijective base 26 *)

Definition name_value (l : list ascii) : nat := fold_left (fun acc c => acc * 26 + (nat_of_ascii c - 96)) l 0.

(** The value of aa..a, [n] letters. *)
Fixpoint ones (n : nat) : nat := match n with O => 0 | S n' => 26 * ones n' + 1 end.

Lemma pow_ones n : 26 ^ n = 25 * ones n + 1.
Proof. induction n as [|n IH]; [done|]. cbn [ones]. rewrite Nat.pow_succ_r', IH. lia. Qed.
Lemma ones_le m n : m <= n -> ones m <= ones n.
Proof. induction 1; cbn [ones]; lia. Qed.

Lemma name_value_acc l : forall acc,
  fold_left (fun acc c => acc * 26 + (nat_of_ascii c - 96)) l acc = acc * 26 ^ length l + name_value l.
Proof.
  unfold name_value. induction l as [|c l IH]; intros acc; cbn [fold_left length]; [cbn; lia|].
  rewrite IH, (IH (0 * 26 + _)), Nat.pow_succ_r'. lia.
Qed.
Lemma lower_value c : is_lower c -> 1 <= nat_of_ascii c - 96 <= 26.
Proof. intros (n & Hn & ->)%lower_letter. rewrite nat_of_letter by done. lia. Qed.
Lemma name_value_cons c l : name_value (c :: l) = (nat_of_ascii c - 96) * 26 ^ length l + name_value l.
Proof. unfold name_value at 1. cbn [fold_left]. by rewrite name_value_acc. Qed.
Lemma name_value_bounds l : Forall is_lower l -> ones (length l) <= name_value l <= 26 * ones (length l).
Proof.
  induction 1 as [|c l Hc _ IH]; [done|]. rewrite name_value_cons. cbn [length ones]. rewrite pow_ones.
  pose proof (lower_value c Hc). nia.
Qed.

(** A longer name is greater. *)
Lemma name_value_longer l1 l2 : Forall is_lower l1 -> Forall is_lower l2 -> length l1 < length l2 ->
  name_value l1 < name_value l2.
Proof.
  intros H1%name_value_bounds H2%name_value_bounds Hl. pose proof (ones_le (S (length l1)) (length l2) Hl).
  cbn [ones] in *. lia.
Qed.

Lemma lower_code c d : is_lower c -> is_lower d ->
  (code c - code d)%Z = (Z.of_nat (nat_of_ascii c - 96) - Z.of_nat (nat_of_ascii d - 96))%Z.
Proof.
  intros Hc%lower_value Hd%lower_value. unfold code, nat_of_ascii in *. lia.
Qed.

(** Names of one length compare as strings do. *)
Lemma strncmp_names l1 : forall l2 r1 r2, Forall is_lower l1 -> Forall is_lower l2 -> length l1 = length l2 ->
  let z := strncmp (String.string_of_list_ascii l1 +:+ r1) (String.string_of_list_ascii l2 +:+ r2) (length l1) in
  ((z < 0)%Z <-> name_value l1 < name_value l2) /\ ((z = 0)%Z <-> l1 = l2).
Proof.
  induction l1 as [|c l1 IH]; intros [|d l2] r1 r2 H1 H2 Hl; [|done|done|].
  { cbn. split; [lia|done]. }
  inversion H1 as [|? ? Hc H1']; inversion H2 as [|? ? Hd H2']; subst. injection Hl as Hl.
  cbn [String.string_of_list_ascii length]. rewrite !str_app_cons. cbn [strncmp].
  rewrite !name_value_cons, Hl. destruct (Ascii.eqb_spec c d) as [->|Hcd].
  - destruct (IH l2 r1 r2 H1' H2' Hl) as [E1 E2]. rewrite <- Hl. split; [rewrite E1; lia|].
    rewrite E2. split; [by intros ->|by intros [= ->]].
  - rewrite lower_code by done. pose proof (lower_value c Hc) as Bc. pose proof (lower_value d Hd) as Bd.
    pose proof (name_value_bounds l1 H1') as B1. pose proof (name_value_bounds l2 H2') as B2. rewrite Hl in B1.
    rewrite pow_ones. assert (nat_of_ascii c - 96 <> nat_of_ascii d - 96) as Hne.
    { intros E. apply Hcd. unfold nat_of_ascii in *. rewrite <- (ascii_N_embedding c), <- (ascii_N_embedding d).
      f_equal. lia. }
    split; [|split; [lia|by intros [= ? ?]]]. split; intros; nia.
Qed.

(** ** The order of device names *)

(** A device or partition: the kind, the drive number and the partition. *)
Record devname := mk_devname { dn_kind : string; dn_drive : nat; dn_part : option N }.
Definition dn_ok (d : devname) : Prop :=
  dn_kind d ∈ ["s"; "h"; "v"; "ub"] /\ (Z.of_nat (dn_drive d) < 2 ^ 31 - 1)%Z /\
  match dn_part d with Some n => (Z.of_N n < 2 ^ 31)%Z | None => True end.
Definition part_string (part : option N) : string := match part with Some n => pretty n | None => "" end.
Definition dn_letters (d : devname) : string := String.string_of_list_ascii (guestfs___drive_name (dn_drive d)).
Definition dn_string (d : devname) : string :=
  "/dev/" +:+ dn_kind d +:+ "d" +:+ dn_letters d +:+ part_string (dn_part d).

Lemma skip_kind_dn d : dn_ok d ->
  skip_kind (skip_dev (dn_string d)) = Some (dn_letters d +:+ part_string (dn_part d)).
Proof.
  intros (Hk & _). unfold dn_string. generalize (dn_letters d +:+ part_string (dn_part d)) as rest. intros rest.
  repeat (apply elem_of_cons in Hk as [->|Hk]; [done|]). by apply not_elem_of_nil in Hk.
Qed.

Lemma span_nondigit_app l s : Forall is_lower l ->
  (s = "" \/ exists c s', s = String c s' /\ c_isdigit c = true) ->
  span_nondigit (String.string_of_list_ascii l +:+ s) = (String.string_of_list_ascii l, s).
Proof.
  intros Hl Hs. induction Hl as [|c l Hc _ IH].
  - cbn. destruct Hs as [->|(c & s' & -> & Hc)]; [done|]. cbn. by rewrite Hc.
  - cbn [String.string_of_list_ascii]. rewrite str_app_cons. cbn [span_nondigit].
    destruct (c_isdigit c) eqn:E.
    + exfalso. unfold is_lower, c_isdigit, in_range in *. lia.
    + by rewrite IH.
Qed.

Lemma part_string_head part : part_string part = "" \/
  exists c s', part_string part = String c s' /\ c_isdigit c = true.
Proof.
  destruct part as [n|]; [|by left]. right. destruct (pretty_N_spec n) as (Hd & Hne & _). cbn.
  destruct (pretty n) as [|c s'] eqn:E; [done|]. exists c, s'. cbn in Hd. by apply andb_prop in Hd as [? _].
Qed.

Lemma length_string_of_list l : String.length (String.string_of_list_ascii l) = length l.
Proof. induction l as [|c l IH]; [done|]. cbn. by rewrite IH. Qed.
Lemma str_drop_app a b : str_drop (String.length a) (a +:+ b) = b.
Proof. induction a as [|c a IH]; [by destruct b|done]. Qed.
Lemma str_drop_name l b : str_drop (length l) (String.string_of_list_ascii l +:+ b) = b.
Proof. rewrite <- length_string_of_list. apply str_drop_app. Qed.
Lemma drive_name_length n : length (guestfs___drive_name n) <= S n.
Proof.
  unfold guestfs___drive_name. assert (forall fuel i, length (drive_name_fuel fuel i) <= S fuel) as H; [|apply H].
  induction fuel as [|fuel IH]; intros i; [done|]. cbn [drive_name_fuel]. rewrite length_app. cbn [length].
  destruct (26 <=? i)%nat; [specialize (IH (i / 26 - 1)); lia|cbn; lia].
Qed.
Lemma name_value_drive n : name_value (guestfs___drive_name n) = S n.
Proof. apply drive_index_fuel. lia. Qed.

Lemma sscanf_part n : (Z.of_N n < 2 ^ 31)%Z -> sscanf_d (pretty n) = Some (Z.of_N n).
Proof.
  intros H. destruct (pretty_N_spec n) as (Hd & Hne & Hv). rewrite sscanf_digits by done. f_equal. rewrite Hv.
  unfold clamp_long. rewrite s32_id; lia.
Qed.

Lemma compare_device_names_dn a b : dn_ok a -> dn_ok b ->
  compare_device_names (dn_string a) (dn_string b) =
  let la := guestfs___drive_name (dn_drive a) in
  let lb := guestfs___drive_name (dn_drive b) in
  if negb (length la =? length lb)%nat then Ret (Z.of_nat (length la) - Z.of_nat (length lb))%Z
  else
    let r := strncmp (dn_letters a +:+ part_string (dn_part a)) (dn_letters b +:+ part_string (dn_part b)) (length la) in
    if negb (r =? 0)%Z then Ret r
    else match dn_part a, dn_part b with
         | None, None => Ret 0%Z
         | Some p, Some q => Ret (Z.of_N p - Z.of_N q)%Z
         | _, _ => Stop AssertFailed
         end.
Proof.
  intros Ha Hb. unfold compare_device_names. rewrite !skip_kind_dn by done.
  unfold dn_letters. rewrite !span_nondigit_app by (apply drive_name_lower || apply part_string_head).
  cbn [fst]. rewrite !length_string_of_list. cbv zeta.
  destruct Ha as (_ & Ha & Pa), Hb as (_ & Hb & Pb).
  pose proof (drive_name_length (dn_drive a)). pose proof (drive_name_length (dn_drive b)).
  destruct (Nat.eqb_spec (length (guestfs___drive_name (dn_drive a))) (length (guestfs___drive_name (dn_drive b)))) as [E|E];
    cbn [negb]; [|rewrite s32_id by lia; done].
  destruct (strncmp _ _ _ =? 0)%Z; cbn [negb]; [|done].
  rewrite (str_drop_name (guestfs___drive_name (dn_drive a))). rewrite E, str_drop_name.
  destruct (dn_part a) as [p|], (dn_part b) as [q|]; cbn [part_string].
  - destruct (pretty_N_spec p) as (_ & Hp & _). unfold STREQ. rewrite (bool_decide_eq_false_2 (pretty p = "")) by done.
    cbn [andb]. rewrite !sscanf_part by done. cbn beta iota. by rewrite s32_id by lia.
  - destruct (pretty_N_spec p) as (_ & Hp & _). unfold STREQ. rewrite (bool_decide_eq_false_2 (pretty p = "")) by done.
    cbn [andb]. by rewrite sscanf_part.
  - destruct (pretty_N_spec q) as (_ & Hq & _). unfold STREQ. rewrite (bool_decide_eq_false_2 (pretty q = "")) by done.
    by rewrite andb_false_r.
  - done.
Qed.

(** ** commandrvf *)

(** Nothing that makes the loop give up: no failing read, no failing select. *)
Definition crv_clean (c : crv) : Prop :=
  (cr_so_open c = true -> script_clean (cr_so c) = true) /\
  (cr_se_open c = true -> script_clean (cr_se c) = true) /\
  Forall (fun s => match s with SelFail e => e = EINTR | SelSet _ _ => True end) (cr_select c).
(** What will have been collected in the end. *)
Definition crv_total (c : crv) : list byte * list byte :=
  (cr_out c ++ (if cr_so_open c then script_data (cr_so c) else []),
   cr_err c ++ (if cr_se_open c then script_data (cr_se c) else [])).
(** A turn: fewer turns are left, and what will be collected is the same. *)
Definition crv_turn (c : crv) (o : option crv) : Prop :=
  match o with
  | None => ~ crv_clean c
  | Some c' => crv_measure c' < crv_measure c /\ cr_select c' = cr_select c /\
               (crv_clean c -> crv_clean c' /\ crv_total c' = crv_total c)
  end.

Lemma crv_stdout_turn c : cr_so_open c = true -> crv_turn c (crv_stdout c).
Proof.
  destruct c as [so se out err sel qo qe]. cbn. intros ->. unfold crv_turn, crv_stdout, crv_clean, crv_total, crv_measure.
  cbn [cr_so]. destruct (pipe_read_run 256 qo ltac:(lia)) as (ev & q & -> & Hev).
  destruct ev as [[|b bs]|e]; cbn.
  - destruct Hev as [Hs ->]. split_and!; [lia|done|]. intros (_ & H2 & H3). by split.
  - destruct Hev as (Hs & -> & ->). split_and!; [lia|done|]. intros (H1 & H2 & H3).
    split; [done|]. by rewrite <- app_assoc.
  - destruct Hev as [_ ->]. intros (H1 & _). by specialize (H1 eq_refl).
Qed.
Lemma crv_stderr_turn c : cr_se_open c = true -> crv_turn c (crv_stderr c).
Proof.
  destruct c as [so se out err sel qo qe]. cbn. intros ->. unfold crv_turn, crv_stderr, crv_clean, crv_total, crv_measure.
  cbn [cr_se]. destruct (pipe_read_run 256 qe ltac:(lia)) as (ev & q & -> & Hev).
  destruct ev as [[|b bs]|e]; cbn.
  - destruct Hev as [Hs ->]. split_and!; [lia|done|]. intros (H1 & _ & H3). by split.
  - destruct Hev as (Hs & -> & ->). split_and!; [lia|done|]. intros (H1 & H2 & H3).
    split; [done|]. by rewrite <- app_assoc.
  - destruct Hev as [_ ->]. intros (_ & H2 & _). by specialize (H2 eq_refl).
Qed.

(** A conditional turn. *)
Definition crv_turn_le (c : crv) (o : option crv) : Prop :=
  match o with
  | None => ~ crv_clean c
  | Some c' => crv_measure c' <= crv_measure c /\ cr_select c' = cr_select c /\
               (crv_clean c -> crv_clean c' /\ crv_total c' = crv_total c)
  end.
Lemma crv_turn_if (b : bool) c o : (b = true -> crv_turn c o) -> crv_turn_le c (if b then o else Some c).
Proof.
  destruct b; intros H; [|by split_and!]. specialize (H eq_refl). destruct o; cbn in *; [|done].
  destruct H as (? & ? & ?). by split_and!; [lia| |].
Qed.

(** Two descriptors are read in turn; with both ready something is. *)
Lemma crv_both c so se (k : crv -> outcome (option crv)) :
  let o := match (if cr_so_open c && so then crv_stdout c else Some c) with
           | None => None
           | Some c1 => if cr_se_open c1 && se then crv_stderr c1 else Some c1
           end in
  crv_turn_le c o /\
  match (if cr_so_open c && so then crv_stdout c else Some c) with
  | None => Ret None
  | Some c1 => match (if cr_se_open c1 && se then crv_stderr c1 else Some c1) with
               | None => Ret None
               | Some c2 => k c2
               end
  end = match o with None => Ret None | Some c' => k c' end /\
  (cr_so_open c || cr_se_open c = true -> so = true -> se = true -> forall c', o = Some c' ->
   crv_measure c' < crv_measure c).
Proof.
  pose proof (crv_turn_if (cr_so_open c && so) c (crv_stdout c)) as H1.
  specialize (H1 ltac:(intros [? _]%andb_prop; by apply crv_stdout_turn)).
  pose proof (crv_stdout_turn c) as L1.
  destruct (if cr_so_open c && so then crv_stdout c else Some c) as [c1|] eqn:E1; [|by split_and!].
  destruct H1 as (M1 & S1 & T1).
  pose proof (crv_turn_if (cr_se_open c1 && se) c1 (crv_stderr c1)) as H2.
  specialize (H2 ltac:(intros [? _]%andb_prop; by apply crv_stderr_turn)).
  pose proof (crv_stderr_turn c1) as L2.
  destruct (if cr_se_open c1 && se then crv_stderr c1 else Some c1) as [c2|] eqn:E2; cbn in H2; cycle 1.
  { split_and!; [cbn; intros Hc; by apply H2, T1|done|done]. }
  destruct H2 as (M2 & S2 & T2). split_and!; [split_and!; [lia|congruence|]|done|].
  - intros Hc. destruct (T1 Hc) as [Hc1 E]. destruct (T2 Hc1) as [Hc2 E']. split; [done|congruence].
  - intros Ho -> -> c' [= <-]. rewrite andb_true_r in *. destruct (cr_so_open c) eqn:Eo.
    + specialize (L1 eq_refl). rewrite E1 in L1. destruct L1 as [L1 _]. lia.
    + injection E1 as <-. cbn in Ho. rewrite Ho in E2. specialize (L2 Ho). rewrite E2 in L2. destruct L2 as [L2 _]. lia.
Qed.

Lemma crv_loop_run : forall fuel c, crv_measure c <= fuel ->
  exists o, crv_loop fuel c = Ret o /\
    (crv_clean c -> exists c', o = Some c' /\ (cr_out c', cr_err c') = crv_total c).
Proof.
  assert (forall c, negb (cr_so_open c || cr_se_open c) = true -> (cr_out c, cr_err c) = crv_total c) as Hdone.
  { intros c H. unfold crv_total. destruct (cr_so_open c), (cr_se_open c); try done. by rewrite !app_nil_r. }
  induction fuel as [|fuel IH]; intros c Hf; cbn [crv_loop];
    destruct (negb (cr_so_open c || cr_se_open c)) eqn:Eo; [exists (Some c); eauto| |exists (Some c); eauto|].
  { exfalso. unfold crv_measure in Hf. destruct (cr_so_open c), (cr_se_open c); cbn in *; try done; lia. }
  apply negb_false_iff in Eo. destruct (cr_select c) as [|s sel] eqn:Es.
  - assert (mk_crv (cr_so_open c) (cr_se_open c) (cr_out c) (cr_err c) [] (cr_so c) (cr_se c) = c) as ->.
    { destruct c. cbn in *. by subst. }
    destruct (crv_both c true true (crv_loop fuel)) as (Ht & -> & Hlt).
    destruct (match (if cr_so_open c && true then _ else _) with Some _ => _ | None => _ end) as [c'|]; cbn [crv_turn_le] in Ht;
      [|exists None; split; [done|by intros Hc%Ht]].
    specialize (Hlt Eo eq_refl eq_refl c' eq_refl). destruct Ht as (_ & _ & Ht).
    destruct (IH c' ltac:(lia)) as (o & -> & Ho). exists o. split; [done|]. intros Hc.
    destruct (Ht Hc) as [Hc' <-]. by apply Ho.
  - set (c0 := mk_crv (cr_so_open c) (cr_se_open c) (cr_out c) (cr_err c) sel (cr_so c) (cr_se c)).
    assert (S (crv_measure c0) = crv_measure c) as Hm by (unfold crv_measure; rewrite Es; done).
    destruct s as [e|so se].
    + destruct (Z.eqb_spec e EINTR) as [->|He].
      * destruct (IH c0 ltac:(lia)) as (o & -> & Ho). exists o. split; [done|]. intros (H1 & H2 & H3).
        apply Ho. rewrite Es in H3. inversion H3. by split_and!.
      * exists None. split; [done|]. intros (_ & _ & H3). rewrite Es in H3. by inversion H3.
    + destruct (crv_both c0 so se (crv_loop fuel)) as (Ht & -> & _).
      assert (crv_clean c -> crv_clean c0) as Hc0.
      { intros (H1 & H2 & H3). rewrite Es in H3. inversion H3. by split_and!. }
      destruct (match (if cr_so_open c0 && so then _ else _) with Some _ => _ | None => _ end) as [c'|]; cbn [crv_turn_le] in Ht;
        [|exists None; split; [done|by intros Hc%Hc0%Ht]].
      destruct Ht as (Hle & _ & Ht). destruct (IH c' ltac:(lia)) as (o & -> & Ho). exists o. split; [done|].
      intros Hc%Hc0. destruct (Ht Hc) as [Hc' E]. change (crv_total c) with (crv_total c0). rewrite <- E. by apply Ho.
Qed.

Lemma strip_newlines_spec r : exists k, r = repeat nl k ++ strip_newlines r /\ head (strip_newlines r) <> Some nl.
Proof.
  induction r as [|b r (k & E & Hh)]; [by exists 0|]. cbn [strip_newlines].
  destruct (byte_eqb_spec b nl) as [->|]; [|exists 0; split; [done|cbn; congruence]].
  exists (S k). by rewrite E at 1.
Qed.
Lemma remove_trailing_nl_spec s : exists k, s = remove_trailing_nl s ++ repeat nl k /\
  last (remove_trailing_nl s) <> Some nl.
Proof.
  destruct (strip_newlines_spec (rev s)) as (k & E & Hh). exists k. unfold remove_trailing_nl. split.
  - rewrite <- (rev_involutive s) at 1. rewrite E at 1. rewrite rev_app_distr, rev_repeat. done.
  - rewrite rev_alt. fold (reverse (strip_newlines (rev s))). by rewrite last_reverse.
Qed.

(** ** Shell quoting with %Q *)

(** A word of unquoted characters and backslash escapes (POSIX 2.2.1): a
    backslash and a newline are removed, a blank ends the word, another special
    character is not read. *)
Fixpoint sh_unquoted (s : string) : option (string * string) :=
  match s with
  | EmptyString => Some ("", "")
  | String c s' =>
      if Ascii.eqb c "\" then
        match s' with
        | EmptyString => None
        | String d s'' =>
            if Ascii.eqb d nl_char then sh_unquoted s''
            else '(w, rest) ← sh_unquoted s''; Some (String d w, rest)
        end
      else if Ascii.eqb c " " then Some ("", s)
      else if SAFE c then '(w, rest) ← sh_unquoted s'; Some (String c w, rest)
      else None
  end.

Fixpoint without_newlines (s : string) : string :=
  match s with
  | EmptyString => ""
  | String c s' => if Ascii.eqb c nl_char then without_newlines s' else String c (without_newlines s')
  end.

Lemma SAFE_plain c : SAFE c = true -> Ascii.eqb c "\" = false /\ Ascii.eqb c " " = false /\ Ascii.eqb c nl_char = false.
Proof. destruct c as [[] [] [] [] [] [] [] []]; vm_compute; tauto || discriminate || done. Qed.

Lemma sh_unquoted_quote str rest : (rest = "" \/ exists r, rest = String " " r) ->
  sh_unquoted (print_shell_quote str +:+ rest) = Some (without_newlines str, rest).
Proof.
  intros Hr. induction str as [|c str IH]; cbn [print_shell_quote without_newlines].
  - destruct Hr as [->|[r ->]]; done.
  - destruct (SAFE c) eqn:E; rewrite !str_app_assoc, !str_app_cons; cbn [String.append sh_unquoted].
    + destruct (SAFE_plain c E) as (E1 & E2 & E3). rewrite E1, E2, E3, E, IH. done.
    + change (Ascii.eqb "\" "\") with true. cbn iota. rewrite IH. by destruct (Ascii.eqb c nl_char).
Qed.

Lemma without_newlines_id str : no_sep nl_char str -> without_newlines str = str.
Proof.
  unfold no_sep. induction str as [|c str IH]; [done|]. cbn. intros [Hc Hs]%andb_prop.
  apply negb_true_iff in Hc. rewrite Hc. f_equal. auto.
Qed.

(** ** Powers of two *)

Lemma land_pred_pow2 v : (0 < v)%Z -> Z.land v (v - 1) = 0%Z <-> exists k, (0 <= k)%Z /\ v = (2 ^ k)%Z.
Proof.
  intros Hv. split.
  - intros H. exists (Z.log2 v). pose proof (Z.log2_nonneg v). split; [done|].
    destruct (Z.log2_spec v Hv) as [Hlo Hhi].
    destruct (decide (v = 2 ^ Z.log2 v)%Z) as [|Hne]; [done|exfalso].
    assert (Z.log2 (v - 1) = Z.log2 v) as El.
    { apply Z.log2_unique; [done|]. lia. }
    assert (Z.testbit (Z.land v (v - 1)) (Z.log2 v) = true) as Hb.
    { rewrite Z.land_spec, Z.bit_log2 by done. rewrite <- El, Z.bit_log2; [done|].
      assert (0 < 2 ^ Z.log2 v)%Z by (apply Z.pow_pos_nonneg; lia). lia. }
    rewrite H, Z.bits_0 in Hb. done.
  - intros (k & Hk & ->). rewrite Z.sub_1_r, <- Z.ones_equiv, Z.land_ones by done. by rewrite Z_mod_same_full.
Qed.

(** ** Subvolumes *)

Section btrfs.
Context (fs : dev_fs).

Lemma btrfsvol_loop_cut : forall fuel seen rest d v, device_name_translation fs seen = None ->
  btrfsvol_loop fs fuel seen true rest None <> Some (Some d, Some v).
Proof.
  induction fuel as [|fuel IH]; intros seen rest d v Hn; cbn [btrfsvol_loop]; [done|].
  destruct (strcspn "/" rest) as [piece [|c rest']]; [done|]. rewrite Hn. by apply IH.
Qed.

Lemma btrfsvol_loop_spec : forall fuel seen rest device d v,
  btrfsvol_loop fs fuel seen false rest device = Some (Some d, Some v) ->
  exists dev, seen +:+ rest = dev +:+ "/" +:+ v /\ device_name_translation fs dev = Some d /\
    exists st, fs_stat fs d = Some st /\ fst st = false /\ is_root_device_stat fs st = false.
Proof.
  induction fuel as [|fuel IH]; intros seen rest device d v; cbn [btrfsvol_loop]; [done|].
  destruct (strcspn "/" rest) as [piece tail] eqn:E. apply strcspn_spec in E as (-> & _ & [->|[rest' ->]]); [done|].
  destruct (device_name_translation fs (seen +:+ piece)) as [d'|] eqn:Et; [|intros H; by apply btrfsvol_loop_cut in H].
  destruct (fs_stat fs d') as [st|] eqn:Es; [|done].
  destruct (negb (fst st) && negb (is_root_device_stat fs st)) eqn:Ed.
  - intros [= <- <-]. apply andb_prop in Ed as [E1%negb_true_iff E2%negb_true_iff].
    exists (seen +:+ piece). rewrite str_app_assoc. split_and!; eauto.
  - intros H. apply IH in H as (dev & Ea & H). exists dev. split; [|done]. rewrite <- Ea.
    by rewrite !str_app_assoc.
Qed.
End btrfs.

Lemma str_prefix_app s p : STRPREFIX s p = true -> s = p +:+ str_drop (String.length p) s.
Proof.
  unfold STRPREFIX. revert s. induction p as [|c p IH]; intros s; [by destruct s|].
  destruct s as [|d s]; cbn; [done|]. destruct (ascii_dec c d); [|done]. subst. intros H.
  f_equal. by apply IH.
Qed.

Lemma strrchr_slash_app a b : no_sep "/" b -> strrchr_slash (a +:+ String "/" b) = Some (a, String "/" b).
Proof.
  intros Hb. assert (forall s, no_sep "/" s -> strrchr_slash s = None) as Hn.
  { unfold no_sep. induction s as [|c s IH]; [done|]. cbn. intros [Hc%negb_true_iff Hs]%andb_prop. by rewrite IH, Hc. }
  induction a as [|c a IH]; [cbn; by rewrite Hn|]. rewrite str_app_cons. cbn [strrchr_slash]. by rewrite IH.
Qed.

(** ** Random names *)

Definition is_random_char (c : ascii) : bool := in_range c 48 57 || in_range c 97 122.
(** The same text but for the X characters. *)
Inductive filled : string -> string -> Prop :=
  | filled_nil : filled "" ""
  | filled_x c p q : is_random_char c = true -> filled p q -> filled (String "X" p) (String c q)
  | filled_same c p q : c <> "X"%char -> filled p q -> filled (String c p) (String c q).

Lemma random_fill_filled p : forall urandom q, random_fill p urandom = Some q -> filled p q.
Proof.
  induction p as [|c p IH]; intros urandom q; cbn [random_fill]; [intros [= <-]; constructor|].
  destruct (Ascii.eqb_spec c "X") as [->|Hc].
  - destruct urandom as [|[b|] urandom]; [done| |done]. intros H.
    destruct (String.get _ random_chars) as [ch|] eqn:Eg; cbn in H; [|done].
    destruct (random_fill p urandom) as [s|] eqn:E; cbn in H; [|done]. injection H as <-.
    destruct (random_loop_spec 1 [Some b] (String ch "")) as [_ Hr]; [cbn [random_loop]; by rewrite Eg|].
    constructor; [|by eapply IH]. cbn in Hr. by rewrite andb_true_r in Hr.
  - intros H. destruct (random_fill p urandom) as [s|] eqn:E; cbn in H; [|done]. injection H as <-.
    constructor; [done|by eapply IH].
Qed.
Lemma random_fill_enough p : forall bs, String.length p <= length bs -> is_Some (random_fill p (Some <$> bs)).
Proof.
  induction p as [|c p IH]; intros bs Hl; cbn [random_fill]; [by eexists|].
  destruct (Ascii.eqb c "X").
  - destruct bs as [|b bs]; cbn in Hl; [lia|]. cbn [fmap list_fmap].
    destruct (IH bs ltac:(lia)) as [s ->]. pose proof (Z.mod_pos_bound (Z_of_byte b) 36 ltac:(lia)) as Hb.
    set (k := Z.to_nat (Z_of_byte b mod 36)%Z) in *. assert (k < 36) as Hk by lia. clearbody k.
    do 36 (destruct k as [|k]; [by eexists|]). lia.
  - cbn in Hl. destruct (IH bs ltac:(lia)) as [s ->]. by eexists.
Qed.

(** * Properties *)

(** The order: by drive, then by partition. *)
Definition dn_before (a b : devname) : Prop :=
  dn_drive a < dn_drive b \/
  (dn_drive a = dn_drive b /\ exists p q, dn_part a = Some p /\ dn_part b = Some q /\ (p < q)%N).
Definition dn_same (a b : devname) : Prop := dn_drive a = dn_drive b /\ dn_part a = dn_part b.

Lemma dn_by_drive a b z : dn_drive a <> dn_drive b -> ((z < 0)%Z <-> dn_drive a < dn_drive b) -> z <> 0%Z ->
  ((z < 0)%Z <-> dn_before a b) /\ ((z = 0)%Z <-> dn_same a b).
Proof. unfold dn_before, dn_same. intros Hd Hz Hn. rewrite Hz. split; split; [by left|intros [?|[? _]]; [done|lia]|lia|lia]. Qed.

Lemma dn_by_part a b p q : dn_drive a = dn_drive b -> dn_part a = Some p -> dn_part b = Some q ->
  ((Z.of_N p - Z.of_N q < 0)%Z <-> dn_before a b) /\ ((Z.of_N p - Z.of_N q = 0)%Z <-> dn_same a b).
Proof.
  unfold dn_before, dn_same. intros Hd Hp Hq. rewrite Hp, Hq. split; split.
  - intros. right. split; [done|]. exists p, q. split_and!; [done|done|lia].
  - intros [?|(_ & p' & q' & [= <-] & [= <-] & ?)]; lia.
  - intros. split; [done|f_equal; lia].
  - intros [_ [= ->]]. lia.
Qed.

Lemma compare_dn_spec (a b : devname) : dn_ok a -> dn_ok b ->
  match compare_device_names (dn_string a) (dn_string b) with
  | Ret z => ((z < 0)%Z <-> dn_before a b) /\ ((z = 0)%Z <-> dn_same a b)
  | Stop why => why = AssertFailed /\ dn_drive a = dn_drive b /\
                (is_Some (dn_part a) <-> dn_part b = None)
  end.
Proof.
  intros Ha Hb. rewrite compare_device_names_dn by done. cbv zeta.
  pose proof (name_value_drive (dn_drive a)) as Va. pose proof (name_value_drive (dn_drive b)) as Vb.
  set (la := guestfs___drive_name (dn_drive a)) in *. set (lb := guestfs___drive_name (dn_drive b)) in *.
  assert (Forall is_lower la) as La by apply drive_name_lower. assert (Forall is_lower lb) as Lb by apply drive_name_lower.
  destruct (Nat.eqb_spec (length la) (length lb)) as [El|Hl]; cbn [negb]; cycle 1.
  { assert (length la < length lb \/ length lb < length la) as [Hlt|Hlt] by lia.
    - pose proof (name_value_longer la lb La Lb Hlt). apply dn_by_drive; lia.
    - pose proof (name_value_longer lb la Lb La Hlt). apply dn_by_drive; lia. }
  destruct (strncmp_names la lb (part_string (dn_part a)) (part_string (dn_part b)) La Lb El) as [Hlt Heq].
  change (String.string_of_list_ascii la) with (dn_letters a) in Hlt, Heq.
  change (String.string_of_list_ascii lb) with (dn_letters b) in Hlt, Heq.
  set (z := strncmp _ _ _) in *. destruct (Z.eqb_spec z 0) as [E|Hne]; cbn [negb].
  - apply Heq in E. rewrite E in Va. assert (dn_drive a = dn_drive b) as Ed by lia.
    destruct (dn_part a) as [p|] eqn:Ep, (dn_part b) as [q|] eqn:Eq.
    + by apply dn_by_part.
    + by rewrite is_Some_alt.
    + split_and!; [done|done|]. by rewrite is_Some_alt.
    + unfold dn_before, dn_same. rewrite Ep, Eq. split; [|done]. split; [lia|]. intros [?|(_ & p & q & [=] & _)]. lia.
  - assert (name_value la <> name_value lb) as Hv; [|apply dn_by_drive; lia].
    intros E. apply Hne, Heq. unfold la, lb. f_equal. lia.
Qed.

(** compare_device_names orders devices by drive number and partitions of a drive by partition
    number, whatever their kind: sda < sdz < sdaa, sda9 < sda10; a device and a partition of the
    same drive cannot be compared (the assertion fails). *)
Theorem device_names_ordered (a b : devname) : dn_ok a -> dn_ok b ->
  match compare_device_names (dn_string a) (dn_string b) with
  | Ret z => ((z < 0)%Z <-> dn_before a b) /\ ((z = 0)%Z <-> dn_same a b)
  | Stop why => why = AssertFailed /\ dn_drive a = dn_drive b /\
                (is_Some (dn_part a) <-> dn_part b = None)
  end.
Proof. apply compare_dn_spec. Qed.

Lemma device_names_ordered_witness :
  match compare_device_names "/dev/sdz9" "/dev/vdaa10" with Ret z => (z < 0)%Z | Stop _ => False end.
Proof.
  pose (a := mk_devname "s" 25 (Some 9%N)). pose (b := mk_devname "v" 26 (Some 10%N)).
  assert (compare_device_names (dn_string a) (dn_string b) = Ret (-1)%Z) as E by (vm_compute; reflexivity).
  pose proof (device_names_ordered a b) as H. rewrite E in H.
  change "/dev/sdz9" with (dn_string a). change "/dev/vdaa10" with (dn_string b). rewrite E.
  apply H; [split_and!; [set_solver|cbn; lia|cbn; lia]..|left; cbn; lia].
Defined.

(** commandrvf returns whatever the pipes and select do; when no read and no select fails,
    it returns the exit status of the command (-1 when it was killed) with its whole output and
    its whole stderr but for the trailing newlines. *)
Theorem commandrvf_collects (want_out want_err : bool) (flags : Z) (w : cmd_world) :
  cw_pipe_ok w = true -> cw_fork_ok w = true ->
  exists r out err, commandrvf want_out want_err flags w = Ret (r, out, err) /\
    (is_Some err <-> want_err = true) /\
    (crv_clean (mk_crv true true [] [] (cw_select w) (cw_so w) (cw_se w)) ->
     out = (if want_out then Some (script_data (cw_so w)) else None) /\
     err = (if want_err then Some (remove_trailing_nl (script_data (cw_se w))) else None) /\
     forall status, cw_wait w = Some status ->
       (has_flag flags COMMAND_FLAG_CHROOT_COPY_FILE_TO_STDIN = true -> cw_close_fd w = true) ->
       r = (if WIFEXITED status then WEXITSTATUS status else (-1)%Z)).
Proof.
  intros Hp Hf. unfold commandrvf. rewrite Hp, Hf. cbn [negb].
  set (c := mk_crv true true [] [] (cw_select w) (cw_so w) (cw_se w)).
  destruct (crv_loop_run (crv_measure c) c (le_n _)) as (o & -> & Ho).
  destruct o as [c'|]; cycle 1.
  { do 3 eexists. split; [reflexivity|]. split; [by destruct want_err; rewrite is_Some_alt|].
    intros Hc. by destruct (Ho Hc) as (? & ? & _). }
  assert (crv_clean c -> cr_out c' = script_data (cw_so w) /\ cr_err c' = script_data (cw_se w)) as Hd.
  { intros Hc. destruct (Ho Hc) as (c1 & [= <-] & E). unfold crv_total in E. cbn in E. by injection E. }
  destruct (has_flag _ _ && negb (cw_close_fd w)) eqn:Ec; [|destruct (cw_wait w) as [st|] eqn:Ew].
  all: do 3 eexists; split; [reflexivity|]; split; [by destruct want_err; rewrite is_Some_alt|].
  all: intros Hc; destruct (Hd Hc) as [-> ->]; split_and!; [done..|].
  - apply andb_prop in Ec as [E1 E2]. intros status _ H. specialize (H E1). by rewrite H in E2.
  - by intros status [= <-] _.
  - done.
Qed.

Definition ex_world : cmd_world :=
  mk_cmd_world true true [SelSet false true; SelFail EINTR] [RdData [x41; x42]; RdData [x43]]
    [RdData [x65; nl]; RdData [nl]] true (Some 768%Z).
Lemma commandrvf_collects_witness : exists r out err,
  commandrvf true true 0 ex_world = Ret (r, out, err) /\
  r = 3%Z /\ out = Some [x41; x42; x43] /\ err = Some [x65].
Proof.
  destruct (commandrvf_collects true true 0 ex_world eq_refl eq_refl) as (r & out & err & E & _ & H).
  exists r, out, err. split; [done|].
  destruct H as (Ho & He & Hr); [split_and!; [done|done|constructor; [done|constructor; [done|constructor]]]|].
  split_and!; [by apply (Hr 768%Z)|by rewrite Ho|by rewrite He].
Defined.

(** split_lines gives back the lines of a text: of lines each ended by a newline, and also when
    the last one is not ended; and every text is of that form, so nothing is lost or added. *)
Theorem split_lines_roundtrip :
  (forall ls, Forall (no_sep nl_char) ls -> split_lines (str_unlines ls) = ls) /\
  (forall ls last, Forall (no_sep nl_char) ls -> no_sep nl_char last -> last <> "" ->
     split_lines (str_unlines ls +:+ last) = ls ++ [last]) /\
  (forall str, Forall (no_sep nl_char) (split_lines str) /\
     (str_unlines (split_lines str) = str \/ str_unlines (split_lines str) = str +:+ String nl_char "")).
Proof.
  assert (forall str, split_lines str = split_lines_loop (String.length str) str) as E.
  { intros [|c str]; [done|]. done. }
  split_and!.
  - intros ls Hls. rewrite E, <- (str_app_nil_r (str_unlines ls)), split_lines_loop_unlines by done.
    by rewrite app_nil_r.
  - intros ls last Hls Hlast Hne. rewrite E, split_lines_loop_unlines by done. unfold STREQ.
    by rewrite bool_decide_eq_false_2.
  - intros str. rewrite E. by apply split_lines_loop_spec.
Qed.

Lemma split_lines_roundtrip_witness :
  split_lines (str_unlines ["a"; "b"; ""]) = ["a"; "b"; ""] /\ split_lines (str_unlines ["a"] +:+ "b") = ["a"; "b"].
Proof.
  split; [apply split_lines_roundtrip; repeat constructor|].
  apply (proj1 (proj2 split_lines_roundtrip) ["a"] "b"); [repeat constructor|done|done].
Defined.

(** A string printed with %Q is read by the shell as one word, the string without its newlines:
    exactly the string when it has none. *)
Theorem shell_quote_read (str rest : string) : rest = "" \/ (exists r, rest = String " " r) ->
  sh_unquoted (print_shell_quote str +:+ rest) = Some (without_newlines str, rest) /\
  (no_sep nl_char str -> without_newlines str = str).
Proof. intros Hr. split; [by apply sh_unquoted_quote|apply without_newlines_id]. Qed.

Lemma shell_quote_read_witness :
  sh_unquoted (print_shell_quote "a b;$c" +:+ " x") = Some ("a b;$c", " x").
Proof.
  destruct (shell_quote_read "a b;$c" " x") as [H H']; [right; by eexists|]. by rewrite H, H'.
Defined.

(** A subvolume that parse_btrfsvol accepts is on a device that is not a directory and not the
    root device, and is printed back by mountable_to_string as it was given, when device names are
    not translated. *)
Theorem btrfsvol_roundtrip (fs : dev_fs) (desc : string) (m : mountable_t) :
  parse_btrfsvol fs desc = Some m ->
  (exists st, fs_stat fs (mt_device m) = Some st /\ fst st = false /\ is_root_device_stat fs st = false) /\
  ((forall d d', device_name_translation fs d = Some d' -> d' = d) ->
   mountable_to_string m = "btrfsvol:" +:+ desc).
Proof.
  unfold parse_btrfsvol. destruct (STRPREFIX desc "/dev/") eqn:Ep; cbn [negb]; [|done].
  destruct (btrfsvol_loop _ _ _ _ _ _) as [[[d|] [v|]]|] eqn:E; try done. intros [= <-].
  apply btrfsvol_loop_spec in E as (dev & Ed & Et & Hst). split; [done|]. intros Hn.
  rewrite <- (Hn _ _ Et) in Ed. unfold mountable_to_string. cbn [mt_type mt_device mt_volume]. rewrite <- Ed.
  f_equal. symmetry. exact (str_prefix_app desc "/dev/" Ep).
Qed.

Definition ex_fs : dev_fs :=
  mk_dev_fs (fun d => if bool_decide (d ∈ ["/dev/sda3"; "/dev/vg"; "/dev/vg/lv"]) then None else Some EAGAIN)
    (fun d => if bool_decide (d = "/dev/vg") then Some (true, 0%Z) else Some (false, 5%Z)) (fun _ => true) 1.
Lemma btrfsvol_roundtrip_witness : exists m, parse_btrfsvol ex_fs "/dev/vg/lv/a/b" = Some m /\
  mountable_to_string m = "btrfsvol:/dev/vg/lv/a/b".
Proof.
  exists (mk_mountable MOUNTABLE_BTRFSVOL "/dev/vg/lv" "a/b"). split; [reflexivity|].
  apply (btrfsvol_roundtrip ex_fs "/dev/vg/lv/a/b"); [reflexivity|].
  intros d d'. unfold device_name_translation, ex_fs, fs_open. case_bool_decide; [by intros [= <-]|done].
Defined.

(** trim removes exactly the whitespace at both ends. *)
Theorem trim_correct (str : string) : exists a b, str = a +:+ trim str +:+ b /\
  str_forallb c_isspace a = true /\ str_forallb c_isspace b = true /\
  (trim str = "" \/ (exists c t, trim str = String c t /\ c_isspace c = false) /\
                    (exists t c, trim str = t +:+ String c "" /\ c_isspace c = false)).
Proof.
  unfold trim. destruct (trim_end_spec str) as (b & Eb & Hb & Ht).
  destruct (skip_spaces_spec (trim_end str)) as (a & Ea & Ha & Hs). exists a, b.
  split_and!; [by rewrite <- str_app_assoc, <- Ea|done|done|].
  destruct Ht as [Ht|(t & c & Ht & Hc)]; [left; by rewrite Ht|]. destruct Hs as [Hs|Hs]; [by left|right].
  split; [done|]. rewrite Ht. destruct (skip_spaces_last t c Hc) as [t' ->]. by exists t', c.
Qed.

(** is_power_of_2 on 64-bit numbers. *)
Theorem is_power_of_2_correct (v : Z) : (0 <= v < 2 ^ 64)%Z ->
  is_power_of_2 v = true <-> exists k, (0 <= k)%Z /\ v = (2 ^ k)%Z.
Proof.
  intros Hv. unfold is_power_of_2. destruct (Z.eqb_spec v 0) as [->|Hne]; cbn [negb andb].
  - split; [done|]. intros (k & Hk & E). pose proof (Z.pow_pos_nonneg 2 k). lia.
  - rewrite u64_id by lia. rewrite Z.eqb_eq. apply land_pred_pow2. lia.
Qed.

Lemma is_power_of_2_correct_witness : is_power_of_2 4096 = true.
Proof. apply is_power_of_2_correct; [lia|]. by exists 12%Z. Defined.

(** random_name replaces every X after the last slash by a digit or lower-case letter and nothing
    else, and succeeds when /dev/urandom can be read. *)
Theorem random_name_correct (a p : string) (urandom : list (option byte)) :
  no_sep "/" p ->
  let template := a +:+ String "/" p in
  match random_name true urandom template with
  | Ret (Some t) => exists p', t = a +:+ String "/" p' /\ filled p p'
  | Ret None => ~ exists bs, urandom = Some <$> bs /\ String.length p < length bs
  | Stop _ => False
  end.
Proof.
  intros Hp template. unfold random_name. cbn [negb].
  assert (strrchr_slash template = Some (a, String "/" p)) as -> by by apply strrchr_slash_app.
  destruct (random_fill (String "/" p) urandom) as [q|] eqn:E.
  - apply random_fill_filled in E. inversion E as [|?|? ? q' ? Hq]; subst. by exists q'.
  - intros (bs & -> & Hl). destruct (random_fill_enough (String "/" p) bs) as [x Hx]; [cbn; lia|]. congruence.
Qed.

Lemma random_name_correct_witness :
  match random_name true (Some <$> [x00; x01; x0b; x24; x00]) "/sysroot/XX.X" with
  | Ret (Some t) => exists p', t = "/sysroot" +:+ String "/" p' /\ filled "XX.X" p'
  | _ => False
  end.
Proof. exact (random_name_correct "/sysroot" "XX.X" (Some <$> [x00; x01; x0b; x24; x00]) eq_refl). Defined.

(** sort_strings returns a sorted permutation. *)
Theorem sort_strings_sorted (argv : list string) :
  Sorted str_le (sort_strings argv) /\ sort_strings argv ≡ₚ argv.
Proof. split; [apply Sorted_merge_sort; apply _|apply merge_sort_Permutation]. Qed.
