(* ===== verification/LibFile.v ===== *)
(** src/file.c: the calls of the library that are built out of other calls.

    Whole files are passed through temporary files of the host, lists of names
    are cut into requests of 1000 names.  The generated calls of the daemon
    (guestfs_download, guestfs_find0, ...) are parameters, the class
    [GuestCalls]; what they do to the guest's files is the class [GuestLaws].
    The wrappers guestfs_read_file and guestfs_lstatnslist that the functions
    call are those of Config.v. *)

From S2P Require Import Prelude Handle Events Conn LibProto Utils Config Lifecycle Drives Command Guestfsd.
From stdpp Require Import sorting.
From Stdlib Require Import Ascii.
Local Open Scope Z_scope.

(** * The host *)

(** The host's files the library uses, its descriptors, the answers of the
    system calls ([Some errno] or success; success in the end), whether a
    descriptor was closed that was not open, and the guest. *)
Record world (G : Type) := mk_world {
  w_g : guestfs_h;
  w_files : gmap string (list byte);
  w_fds : gmap Z string;
  w_answers : list (option Z);
  w_bad_close : bool;
  w_guest : G
}.
Arguments mk_world {G}.
Arguments w_g {G}.
Arguments w_files {G}.
Arguments w_fds {G}.
Arguments w_answers {G}.
Arguments w_bad_close {G}.
Arguments w_guest {G}.
#[export] Instance upd_w_g {G} : Field (@w_g G) := fun f r =>
  mk_world (f (w_g r)) (w_files r) (w_fds r) (w_answers r) (w_bad_close r) (w_guest r).
#[export] Instance upd_w_files {G} : Field (@w_files G) := fun f r =>
  mk_world (w_g r) (f (w_files r)) (w_fds r) (w_answers r) (w_bad_close r) (w_guest r).
#[export] Instance upd_w_fds {G} : Field (@w_fds G) := fun f r =>
  mk_world (w_g r) (w_files r) (f (w_fds r)) (w_answers r) (w_bad_close r) (w_guest r).
#[export] Instance upd_w_answers {G} : Field (@w_answers G) := fun f r =>
  mk_world (w_g r) (w_files r) (w_fds r) (f (w_answers r)) (w_bad_close r) (w_guest r).
#[export] Instance upd_w_bad_close {G} : Field (@w_bad_close G) := fun f r =>
  mk_world (w_g r) (w_files r) (w_fds r) (w_answers r) (f (w_bad_close r)) (w_guest r).
#[export] Instance upd_w_guest {G} : Field (@w_guest G) := fun f r =>
  mk_world (w_g r) (w_files r) (w_fds r) (w_answers r) (w_bad_close r) (f (w_guest r)).

Definition fm (G : Type) := M (world G).

Definition ENOENT : Z := 2.

Section host.
Context {G : Type}.
Implicit Types w : world G.

Definition on_h {A} (m : hm A) : fm G A := zoom w_g (fun g w => w <| w_g := g |>) m.
Definition perrorf (errnum : Z) (msg : string) : fm G unit := on_h (modify (fun g => guestfs___perrorf g errnum msg)).

Definition next_answer : fm G (option Z) := fun w =>
  let '(a, q) := answer (w_answers w) in (Ret a, w <| w_answers := q |>).

(** The least descriptor that is not open is given to the file. *)
Definition sys_open (file : string) (create : bool) : fm G (Z + Z) :=
  a <- next_answer ;; fun w =>
  match a, w_files w !! file with
  | Some e, _ => (Ret (inl e), w)
  | None, None =>
      if create then
        let fd := new_fd (dom (w_fds w)) in
        (Ret (inr fd), w <| w_files ::= <[file := []]> |> <| w_fds ::= <[fd := file]> |>)
      else (Ret (inl ENOENT), w)
  | None, Some _ =>
      let fd := new_fd (dom (w_fds w)) in (Ret (inr fd), w <| w_fds ::= <[fd := file]> |>)
  end.

Definition fd_data w (fd : Z) : list byte :=
  match w_fds w !! fd with Some file => default [] (w_files w !! file) | None => [] end.

(** fstat: the size. *)
Definition sys_fstat (fd : Z) : fm G (Z + nat) :=
  a <- next_answer ;; fun w =>
  (Ret (match a with Some e => inl e | None => inr (length (fd_data w fd)) end), w).

(** The errno of a failure to allocate. *)
Definition malloc : fm G (option Z) := next_answer.

(** gnulib's full_read and full_write from the start of the file: what was
    transferred, and errno when that is less than was asked for. *)
Definition full_read (fd : Z) (size : nat) : fm G (Z * list byte) :=
  a <- next_answer ;; fun w =>
  (Ret (match a with Some e => (e, []) | None => (0, take size (fd_data w fd)) end), w).
Definition full_write (fd : Z) (content : list byte) : fm G (Z * nat) :=
  a <- next_answer ;; fun w =>
  match a, w_fds w !! fd with
  | Some e, _ => (Ret (e, 0%nat), w)
  | None, None => (Ret (9, 0%nat), w)
  | None, Some file =>
      (Ret (0, length content),
       w <| w_files ::= <[file := content ++ drop (length content) (default [] (w_files w !! file))]> |>)
  end.

(** close releases the descriptor also when it reports an error. *)
Definition sys_close (fd : Z) : fm G (option Z) := fun w =>
  match w_fds w !! fd with
  | None => (Ret (Some 9), w <| w_bad_close := true |>)
  | Some _ => (a <- next_answer ;; modify (fun w => w <| w_fds ::= delete fd |>) ;;; ret a) w
  end.

Definition unlink (file : string) : fm G unit := modify (fun w => w <| w_files ::= delete file |>).

End host.

(** * The calls *)

Record statns := mk_statns {
  st_dev : Z; st_ino : Z; st_mode : Z; st_nlink : Z; st_uid : Z; st_gid : Z; st_rdev : Z; st_size : Z;
  st_blksize : Z; st_blocks : Z; st_atime_sec : Z; st_atime_nsec : Z; st_mtime_sec : Z; st_mtime_nsec : Z;
  st_ctime_sec : Z; st_ctime_nsec : Z;
  st_spare1 : Z; st_spare2 : Z; st_spare3 : Z; st_spare4 : Z; st_spare5 : Z; st_spare6 : Z
}.
Record stat := mk_stat {
  dev : Z; ino : Z; mode : Z; nlink : Z; uid : Z; gid : Z; rdev : Z; size : Z; blksize : Z; blocks : Z;
  atime : Z; mtime : Z; ctime : Z
}.
Record xattr := mk_xattr { attrname : string; attrval : list byte }.

(** The generated calls of the daemon; 0 or -1, or NULL, as in C. *)
Class GuestCalls (G : Type) := {
  guestfs_download : string -> string -> fm G Z;
  guestfs_find0 : string -> string -> fm G Z;
  guestfs_ls0 : string -> string -> fm G Z;
  guestfs_upload : string -> string -> fm G Z;
  guestfs_upload_offset : string -> string -> Z -> fm G Z;
  guestfs_filesize : string -> fm G Z;
  guestfs_internal_write : string -> list byte -> fm G Z;
  guestfs_internal_write_append : string -> list byte -> fm G Z;
  guestfs_internal_lstatnslist : string -> list string -> fm G (option (list statns));
  guestfs_internal_lxattrlist : string -> list string -> fm G (option (list xattr));
  guestfs_internal_readlinklist : string -> list string -> fm G (option (list string));
  guestfs_statns : string -> fm G (option statns);
  guestfs_lstatns : string -> fm G (option statns)
}.

(** ** Tracing buffers (src/errors.c) *)

Definition c_isprint (b : byte) : bool := (32 <=? Z_of_byte b) && (Z_of_byte b <=? 126).
Definition hex_digit (z : Z) : ascii := default "0"%char (String.get (Z.to_nat z) "0123456789abcdef").
Definition hex_byte (b : byte) : string :=
  String (hex_digit (Z_of_byte b / 16)) (String (hex_digit (Z_of_byte b mod 16)) "").

Definition guestfs___print_BufferIn (buf : list byte) : string :=
  let orig_size := length buf in
  let buf := if (256 <? orig_size)%nat then take 256 buf else buf in
  quote +:+ guestfs___concat_strings
    ((fun b => if c_isprint b then string_of_bytes [b] else "\x" +:+ hex_byte b) <$> buf) +:+ quote +:+
  (if (length buf <? orig_size)%nat
   then "<truncated, original size " +:+ pretty orig_size +:+ " bytes>" else "").
Definition guestfs___print_BufferOut (buf : list byte) : string := guestfs___print_BufferIn buf.

#[export] Instance traced_buffer : Traced (option (list byte)) :=
  {| errcode := "NULL"; show_ret := fmap guestfs___print_BufferOut |}.
#[export] Instance traced_statns_list : Traced (option (list statns)) :=
  {| errcode := "NULL"; show_ret := fmap (fun _ => "<struct guestfs_statns_list *>") |}.

(** * file.c *)

Definition compare (p1 p2 : string) : Z := strcmp p1 p2.

Definition cmp_le (a b : string) : Prop := compare a b <= 0.
#[export] Instance cmp_le_dec a b : Decision (cmp_le a b) := Z_le_dec _ _.
(** qsort (3) with [compare]. *)
Definition sort_strings (argv : list string) : list string :=
  merge_sort cmp_le argv.

Definition take_strings (names : list string) (n : nat) : list string * list string :=
  (take n names, drop n names).

(** ** Splitting buffers in place

    A buffer is the bytes from its address on; [ret] is the array of pointers,
    as offsets in the buffer, which was allocated with [alloc] entries.  Writing
    beyond it, or reading a string that does not end in the buffer, is
    undefined. *)

Definition NUL : byte := x00.
Definition LF : byte := x0a.
Definition CR : byte := x0d.

Definition byte_at (buf : list byte) (i : nat) : byte := default NUL (buf !! i).

Fixpoint count_bytes (c : byte) (bs : list byte) : nat :=
  match bs with [] => 0 | b :: bs' => (if Byte.eqb b c then 1 else 0) + count_bytes c bs' end%nat.

(** The string at the offset: [None] when there is no NUL. *)
Fixpoint c_string (bs : list byte) : option (list byte) :=
  match bs with
  | [] => None
  | b :: bs' => if Byte.eqb b NUL then Some [] else cons b <$> c_string bs'
  end.
Definition string_at (buf : list byte) (off : nat) : option (list byte) := c_string (drop off buf).

(** Read the strings of the array, which has to hold them and a final NULL. *)
Definition strdup_all (alloc : nat) (buf : list byte) (ret : list nat) : outcome (list (list byte)) :=
  if (alloc <? length ret + 1)%nat then Stop Undefined
  else match mapM (string_at buf) ret with Some l => Ret l | None => Stop Undefined end.

(** A turn of the second loop of [guestfs__read_lines]. *)
Definition split_line_at (size : nat) (st : list byte * list nat) (i : nat) : list byte * list nat :=
  let '(buf, ret) := st in
  if Byte.eqb (byte_at buf i) LF
  then (<[i := NUL]> buf, if (i + 1 <? size)%nat then ret ++ [(i + 1)%nat] else ret)
  else st.

Definition strip_cr (line : list byte) : list byte :=
  let len := length line in
  if ((0 <? len)%nat && Byte.eqb (byte_at line (len - 1)) CR) then take (len - 1) line else line.

(** From [count = 0] on; the buffer of [guestfs_read_file] has a NUL after its
    [size] bytes. *)
Definition split_lines (data : list byte) : outcome (list (list byte)) :=
  let size := length data in
  let buf := data ++ [NUL] in
  let count := (count_bytes LF data +
                (if (0 <? size)%nat && negb (Byte.eqb (byte_at buf (size - 1)) LF) then 1 else 0))%nat in
  let '(buf, ret) :=
    if (0 <? size)%nat then fold_left (split_line_at size) (seq 0 size) (buf, [0%nat]) else (buf, []) in
  match strdup_all (count + 1) buf ret with
  | Ret l => Ret (strip_cr <$> l)
  | Stop s => Stop s
  end.

(** A turn of the loop of [guestfs__find] and [guestfs__ls]; the pointer after
    the last NUL is one past the end and is overwritten with NULL. *)
Definition split_nul_at (buf : list byte) (ret : list nat) (i : nat) : list nat :=
  if Byte.eqb (byte_at buf i) NUL then ret ++ [(i + 1)%nat] else ret.

Definition split_nul (buf : list byte) : outcome (list (list byte)) :=
  let size := length buf in
  let count := count_bytes NUL buf in
  let ret := fold_left (split_nul_at buf) (seq 0 size) [0%nat] in
  if (count + 1 <? length ret)%nat then Stop Undefined
  else strdup_all (count + 1) buf (removelast ret).

Section file.
Context {G : Type} `{GuestCalls G}.
Context (mkdtemp : string -> Z + string).
Implicit Types w : world G.

(** The generated wrappers, around a function of this file. *)
Definition api {A} `{Traced A} (name args : string) (f : fm G A) : fm G A :=
  tf <- gets (fun w => trace (g_cfg (w_g w))) ;;
  on_h (message GUESTFS_EVENT_ENTER name) ;;;
  on_h (trace_call tf (name +:+ args)) ;;;
  r <- f ;;
  on_h (trace_call tf (name +:+ " = " +:+ match show_ret r with
                                          | Some s => s
                                          | None => errcode +:+ " (error)"
                                          end)) ;;;
  ret r.

Definition lift {A} (o : outcome A) : fm G A := fun w => (o, w).

(** The label [err] when a file is open. *)
Definition err_close {A} (fd : Z) : fm G (option A) := sys_close fd ;;; ret None.

(** From [fd = open (tmpfile, ...)] to [close (fd)]: the whole file in memory,
    in a buffer of [extra] more bytes. *)
Definition read_whole (extra : nat) (tmpfile : string) : fm G (option (list byte)) :=
  o <- sys_open tmpfile false ;;
  match o with
  | inl e => perrorf e ("open: " +:+ tmpfile) ;;; ret None
  | inr fd =>
      s <- sys_fstat fd ;;
      match s with
      | inl e => perrorf e ("stat: " +:+ tmpfile) ;;; err_close fd
      | inr size =>
          let bytes := pretty (size + extra)%nat +:+ " bytes" in
          m <- malloc ;;
          match m with
          | Some e => perrorf e ("malloc: " +:+ bytes) ;;; err_close fd
          | None =>
              x <- full_read fd size ;;
              let '(e, data) := x in
              if negb (length data =? size)%nat
              then perrorf e ("full-read: " +:+ tmpfile +:+ ": " +:+ bytes) ;;; err_close fd else
              c <- sys_close fd ;;
              match c with
              | Some e => perrorf e ("close: " +:+ tmpfile) ;;; err_close fd
              | None => ret (Some data)
              end
          end
      end
  end.

(** A temporary file, of which only the name is made; [CLEANUP_UNLINK_FREE]
    removes the file when the function ends. *)
Definition with_tmpfile {A} (base : string) (failed : A) (k : string -> fm G A) : fm G A :=
  r <- on_h (guestfs___lazy_make_tmpdir mkdtemp) ;;
  if r =? -1 then ret failed else
  tmpfile <- on_h (fresh_tmp base) ;;
  x <- k tmpfile ;;
  unlink tmpfile ;;;
  ret x.

Definition guestfs__read_file (path : string) : fm G (option (list byte)) :=
  with_tmpfile "cat" None (fun tmpfile =>
    r <- guestfs_download path tmpfile ;;
    if r =? -1 then ret None else read_whole 1 tmpfile).

Definition guestfs_read_file (path : string) : fm G (option (list byte)) :=
  api "read_file" (arg_string path) (guestfs__read_file path).

(** The caller sees the buffer up to its first NUL. *)
Definition guestfs__cat (path : string) : fm G (option (list byte)) := guestfs_read_file path.

Definition guestfs__read_lines (file : string) : fm G (option (list (list byte))) :=
  buf <- guestfs_read_file file ;;
  match buf with
  | None => ret None
  | Some data =>
      m <- malloc ;;
      match m with
      | Some e => perrorf e "malloc" ;;; ret None
      | None => l <- lift (split_lines data) ;; ret (Some l)
      end
  end.

(** From [count = 0] on, in [guestfs__find] and [guestfs__ls]. *)
Definition sorted_names (buf : list byte) : fm G (option (list string)) :=
  m <- malloc ;;
  match m with
  | Some e => perrorf e "malloc" ;;; ret None
  | None => l <- lift (split_nul buf) ;; ret (Some (sort_strings (string_of_bytes <$> l)))
  end.

Definition guestfs__find (directory : string) : fm G (option (list string)) :=
  with_tmpfile "find" None (fun tmpfile =>
    r <- guestfs_find0 directory tmpfile ;;
    if r =? -1 then ret None else
    buf <- read_whole 0 tmpfile ;;
    match buf with None => ret None | Some buf => sorted_names buf end).

Definition guestfs__ls (directory : string) : fm G (option (list string)) :=
  with_tmpfile "ls" None (fun tmpfile =>
    r <- guestfs_ls0 directory tmpfile ;;
    if r =? -1 then ret None else
    buf <- read_whole 0 tmpfile ;;
    match buf with None => ret None | Some buf => sorted_names buf end).

(** ** Writing *)

Definition SMALL_WRITE : Z := 2 * 1024 * 1024.

(** The content in the temporary file. *)
Definition write_whole (tmpfile : string) (content : list byte) : fm G bool :=
  o <- sys_open tmpfile true ;;
  match o with
  | inl e => perrorf e ("open: " +:+ tmpfile) ;;; ret false
  | inr fd =>
      x <- full_write fd content ;;
      let '(e, n) := x in
      if negb (n =? length content)%nat
      then perrorf e ("write: " +:+ tmpfile) ;;; sys_close fd ;;; ret false else
      c <- sys_close fd ;;
      match c with
      | Some e => perrorf e ("close: " +:+ tmpfile) ;;; sys_close fd ;;; ret false
      | None => ret true
      end
  end.

Definition write_or_append (path : string) (content : list byte) (append : bool) : fm G Z :=
  if Z.of_nat (length content) <=? SMALL_WRITE
  then (if append then guestfs_internal_write_append else guestfs_internal_write) path content
  else
  with_tmpfile "write" (-1) (fun tmpfile =>
    ok <- write_whole tmpfile content ;;
    if negb ok then ret (-1)
    else if negb append then
      r <- guestfs_upload tmpfile path ;;
      if r =? -1 then ret (-1) else ret 0
    else
      filesize <- guestfs_filesize path ;;
      if filesize =? -1 then ret (-1) else
      r <- guestfs_upload_offset tmpfile path filesize ;;
      if r =? -1 then ret (-1) else ret 0).

Definition guestfs__write (path : string) (content : list byte) : fm G Z := write_or_append path content false.
Definition guestfs__write_append (path : string) (content : list byte) : fm G Z := write_or_append path content true.

(** ** Lists of names *)

(** The loop [while (len > 0)] of the three functions: ask for at most [max]
    names at a time and append the results.  They differ in the type of the
    entries, and in how the results so far are freed when a request fails.
    Each turn lowers [len], so [len] turns are enough. *)
Fixpoint chunk_loop {A} (fuel max : nat) (free : list A -> fm G unit) (call : list string -> fm G (option (list A)))
    (len : nat) (names : list string) (acc : list A) : fm G (option (list A)) :=
  if (len =? 0)%nat then ret (Some acc) else
  match fuel with
  | O => halt OutOfFuel
  | S fuel' =>
      let '(first, names') := take_strings names max in
      let len' := if (len <=? max)%nat then 0%nat else (len - max)%nat in
      r <- call first ;;
      match r with
      | None => free acc ;;; ret None
      | Some some => chunk_loop fuel' max free call len' names' (acc ++ some)
      end
  end.

(** guestfs_free_statns_list and guestfs_free_xattr_list know the length. *)
Definition free_struct_list {A} (l : list A) : fm G unit := ret tt.
(** guestfs___free_string_list looks for a final NULL, which [ret] does not have
    yet; it is not called when [ret] is NULL, as it is without entries. *)
Definition free_string_array (l : list string) : fm G unit :=
  match l with [] => ret tt | _ => halt Undefined end.

Definition LSTATNSLIST_MAX : nat := 1000.
Definition guestfs__lstatnslist (dir : string) (names : list string) : fm G (option (list statns)) :=
  let len := guestfs___count_strings names in
  chunk_loop len LSTATNSLIST_MAX free_struct_list (guestfs_internal_lstatnslist dir) len names [].

Definition guestfs_lstatnslist (dir : string) (names : list string) : fm G (option (list statns)) :=
  api "lstatnslist" (arg_string dir +:+ arg_list names) (guestfs__lstatnslist dir names).

Definition LXATTRLIST_MAX : nat := 1000.
Definition guestfs__lxattrlist (dir : string) (names : list string) : fm G (option (list xattr)) :=
  let len := guestfs___count_strings names in
  chunk_loop len LXATTRLIST_MAX free_struct_list (guestfs_internal_lxattrlist dir) len names [].

Definition READLINK_MAX : nat := 1000.
Definition guestfs__readlinklist (dir : string) (names : list string) : fm G (option (list string)) :=
  let len := guestfs___count_strings names in
  chunk_loop len READLINK_MAX free_string_array (guestfs_internal_readlinklist dir) len names [].

(** ** The old stat structure *)

Definition statns_to_old_stat (a : statns) : stat :=
  {| dev := st_dev a; ino := st_ino a; mode := st_mode a; nlink := st_nlink a; uid := st_uid a;
     gid := st_gid a; rdev := st_rdev a; size := st_size a; blksize := st_blksize a;
     blocks := st_blocks a; atime := st_atime_sec a; mtime := st_mtime_sec a; ctime := st_ctime_sec a |}.

Definition guestfs__stat (path : string) : fm G (option stat) :=
  r <- guestfs_statns path ;; ret (statns_to_old_stat <$> r).
Definition guestfs__lstat (path : string) : fm G (option stat) :=
  r <- guestfs_lstatns path ;; ret (statns_to_old_stat <$> r).
Definition guestfs__lstatlist (dir : string) (names : list string) : fm G (option (list stat)) :=
  r <- guestfs_lstatnslist dir names ;; 
  ret (match r with Some l => Some (statns_to_old_stat <$> l) | None => None end).

End file.

(** * What the calls promise *)

(** Every answer of the host is a success. *)
Definition host_ok {G} (w : world G) : Prop := Forall (eq None) (w_answers w).

(** A call leaves the host as it was, except for the files. *)
Definition same_host {G} (w w' : world G) : Prop :=
  w_answers w' = w_answers w /\ w_fds w' = w_fds w /\ w_bad_close w' = w_bad_close w.

Definition nul_terminated (names : list string) : list byte :=
  names ≫= (fun s => bytes_of_string s ++ [NUL]).

(** Writing [data] at the offset. *)
Definition splice (old : list byte) (off : nat) (data : list byte) : list byte :=
  take off (old ++ replicate (off - length old) NUL) ++ data ++ drop (off + length data) old.

(** The documented behaviour of the calls of the daemon on the guest's files.
    [guest_up]: the appliance answers and there is space for what is written. *)
Class GuestLaws (G : Type) `{GuestCalls G} := {
  guest_files : G -> gmap string (list byte);
  guest_find : G -> string -> option (list string);
  guest_ls : G -> string -> option (list string);
  guest_up : G -> Prop;

  download_law path local w : exists r w', guestfs_download path local w = (Ret r, w') /\ same_host w w' /\
    guest_files (w_guest w') = guest_files (w_guest w) /\ (guest_up (w_guest w) -> guest_up (w_guest w')) /\
    delete local (w_files w') = delete local (w_files w) /\
    (r = 0 /\ (exists d, guest_files (w_guest w) !! path = Some d /\ w_files w' !! local = Some d) \/
     r = -1 /\ (guest_up (w_guest w) -> guest_files (w_guest w) !! path = None));
  upload_law local path w : exists r w', guestfs_upload local path w = (Ret r, w') /\ same_host w w' /\
    (guest_up (w_guest w) -> guest_up (w_guest w')) /\ w_files w' = w_files w /\
    (r = 0 /\ (exists d, w_files w !! local = Some d /\
                 guest_files (w_guest w') = <[path := d]> (guest_files (w_guest w))) \/
     r = -1 /\ (guest_up (w_guest w) -> w_files w !! local = None));
  upload_offset_law local path off w : 0 <= off ->
    exists r w', guestfs_upload_offset local path off w = (Ret r, w') /\ same_host w w' /\
    (guest_up (w_guest w) -> guest_up (w_guest w')) /\ w_files w' = w_files w /\
    (r = 0 /\ (exists d, w_files w !! local = Some d /\ guest_files (w_guest w') =
                 <[path := splice (default [] (guest_files (w_guest w) !! path)) (Z.to_nat off) d]>
                   (guest_files (w_guest w))) \/
     r = -1 /\ (guest_up (w_guest w) -> w_files w !! local = None));
  filesize_law path w : exists r w', guestfs_filesize path w = (Ret r, w') /\ same_host w w' /\
    (guest_up (w_guest w) -> guest_up (w_guest w')) /\ w_files w' = w_files w /\
    guest_files (w_guest w') = guest_files (w_guest w) /\
    ((exists d, guest_files (w_guest w) !! path = Some d /\ r = Z.of_nat (length d)) \/
     r = -1 /\ (guest_up (w_guest w) -> guest_files (w_guest w) !! path = None));
  internal_write_law path content w :
    exists r w', guestfs_internal_write path content w = (Ret r, w') /\ same_host w w' /\
    (guest_up (w_guest w) -> guest_up (w_guest w')) /\ w_files w' = w_files w /\
    (r = 0 /\ guest_files (w_guest w') = <[path := content]> (guest_files (w_guest w)) \/
     r = -1 /\ ~ guest_up (w_guest w));
  internal_write_append_law path content w :
    exists r w', guestfs_internal_write_append path content w = (Ret r, w') /\ same_host w w' /\
    (guest_up (w_guest w) -> guest_up (w_guest w')) /\ w_files w' = w_files w /\
    (r = 0 /\ guest_files (w_guest w') =
       <[path := default [] (guest_files (w_guest w) !! path) ++ content]> (guest_files (w_guest w)) \/
     r = -1 /\ ~ guest_up (w_guest w));
  find0_law directory local w : exists r w', guestfs_find0 directory local w = (Ret r, w') /\ same_host w w' /\
    delete local (w_files w') = delete local (w_files w) /\
    (r = 0 /\ (exists names, guest_find (w_guest w) directory = Some names /\
                 w_files w' !! local = Some (nul_terminated names)) \/
     r = -1 /\ (guest_up (w_guest w) -> guest_find (w_guest w) directory = None));
  ls0_law directory local w : exists r w', guestfs_ls0 directory local w = (Ret r, w') /\ same_host w w' /\
    delete local (w_files w') = delete local (w_files w) /\
    (r = 0 /\ (exists names, guest_ls (w_guest w) directory = Some names /\
                 w_files w' !! local = Some (nul_terminated names)) \/
     r = -1 /\ (guest_up (w_guest w) -> guest_ls (w_guest w) directory = None));
  (* a file name has no NUL *)
  find_names g directory names : guest_find g directory = Some names ->
    Forall (fun s => no_byte NUL (bytes_of_string s)) names;
  ls_names g directory names : guest_ls g directory = Some names ->
    Forall (fun s => no_byte NUL (bytes_of_string s)) names
}.

(** * Lemmas *)

(** ** Splitting at newlines *)

Definition nul_nl (b : byte) : byte := if Byte.eqb b LF then NUL else b.

(** The offsets after newlines that are not the last byte. *)
Fixpoint starts (k : nat) (bs : list byte) : list nat :=
  match bs with
  | [] => []
  | b :: bs' => (if Byte.eqb b LF && negb (bool_decide (bs' = [])) then [S k] else []) ++ starts (S k) bs'
  end.

Lemma byte_at_app p b q : byte_at (p ++ b :: q) (length p) = b.
Proof. unfold byte_at. by rewrite lookup_app_r, Nat.sub_diag. Qed.

Lemma split_line_fold size : forall q p ret, size = (length p + length q)%nat ->
  fold_left (split_line_at size) (seq (length p) (length q)) (p ++ q ++ [NUL], ret) =
  (p ++ (nul_nl <$> q) ++ [NUL], ret ++ starts (length p) q).
Proof.
  induction q as [|b q IH]; intros p ret Hs; cbn [length seq fold_left starts fmap list_fmap app].
  { by rewrite app_nil_r. }
  cbn [length] in Hs. unfold split_line_at at 2. rewrite byte_at_app.
  specialize (IH (p ++ [nul_nl b])). rewrite length_app in IH. cbn [length] in IH. rewrite Nat.add_1_r in IH.
  assert (forall r, (p ++ [nul_nl b]) ++ q ++ r = p ++ nul_nl b :: q ++ r) as Ha by (intros; by rewrite <- app_assoc).
  assert (forall r, (p ++ [nul_nl b]) ++ (nul_nl <$> q) ++ r = p ++ nul_nl b :: (nul_nl <$> q) ++ r) as Hc
    by (intros; by rewrite <- app_assoc).
  rewrite Ha, Hc in IH. unfold nul_nl at 1 in IH. destruct (byte_eqb_spec b LF) as [->|Hb]; cbn [andb].
  - rewrite insert_app_r_alt, Nat.sub_diag by lia. cbn [list_insert insert].
    rewrite IH by lia. f_equal. rewrite app_assoc. f_equal.
    destruct q as [|c q]; cbn [length] in Hs.
    + rewrite bool_decide_true by done. replace (length p + 1 <? size)%nat with false by (symmetry; apply Nat.ltb_ge; lia).
      cbn. by rewrite app_nil_r.
    + rewrite bool_decide_false by done. replace (length p + 1 <? size)%nat with true by (symmetry; apply Nat.ltb_lt; lia).
      cbn. by rewrite Nat.add_1_r.
  - rewrite IH by lia. done.
Qed.

(** The strings the offsets point at are the lines up to their first NUL. *)
Lemma c_string_app_nul bs rest : c_string (bs ++ NUL :: rest) = Some (until_nul bs).
Proof.
  induction bs as [|b bs IH]; [done|]. cbn [app c_string until_nul]. change x00 with NUL.
  destruct (Byte.eqb b NUL); [done|]. by rewrite IH.
Qed.

Lemma string_at_app p q : string_at (p ++ q) (length p) = c_string q.
Proof. unfold string_at. by rewrite drop_app_length. Qed.

Lemma lines_of_nonempty q : q <> [] -> exists l ls, lines_of q = l :: ls.
Proof.
  destruct q as [|b q]; [done|]. intros _. cbn. destruct (Byte.eqb b _); [by eexists _, _|].
  destruct (lines_of q); by eexists _, _.
Qed.

(** The first line and the others, with the text of the lines before. *)
Lemma strings_at_starts : forall q p, q <> [] ->
  exists l ls, lines_of q = l :: ls /\
    c_string ((nul_nl <$> q) ++ [NUL]) = Some (until_nul l) /\
    mapM (string_at (p ++ (nul_nl <$> q) ++ [NUL])) (starts (length p) q) = Some (until_nul <$> ls).
Proof.
  induction q as [|b q IH]; intros p Hq; [done|]. clear Hq.
  specialize (IH (p ++ [nul_nl b])). rewrite length_app in IH. cbn [length] in IH. rewrite Nat.add_1_r in IH.
  rewrite <- app_assoc in IH. cbn [app] in IH.
  destruct (decide (q = [])) as [->|Hq].
  - cbn [lines_of starts]. change Command.nl with LF. rewrite bool_decide_true, andb_false_r by done.
    unfold nul_nl. cbn. destruct (byte_eqb_spec b LF) as [->|Hb]; [by eexists _, _|].
    exists [b], []. split; [done|]. split; [|done]. cbn [until_nul]. change x00 with NUL. by destruct (Byte.eqb b NUL).
  - destruct (IH Hq) as (l & ls & El & Ec & Em). cbn [lines_of starts fmap list_fmap app].
    change Command.nl with LF. rewrite bool_decide_false by done. fold (fmap (M := list) nul_nl q).
    change (c_string (nul_nl b :: (nul_nl <$> q) ++ [NUL])) with
      (if Byte.eqb (nul_nl b) NUL then Some [] else cons (nul_nl b) <$> c_string ((nul_nl <$> q) ++ [NUL])).
    rewrite Ec, El. unfold nul_nl at 1 2. destruct (byte_eqb_spec b LF) as [->|Hb]; cbn [andb negb].
    + exists [], (l :: ls). split; [done|]. split; [done|]. cbn [app].
      cbn [mapM]. change (nul_nl LF) with NUL in *.
      rewrite (cons_middle NUL p), app_assoc.
      replace (S (length p)) with (length (p ++ [NUL])) at 1 by (rewrite length_app; cbn; lia).
      rewrite string_at_app, Ec. cbn. rewrite <- app_assoc. cbn [app]. by rewrite Em.
    + exists (b :: l), ls. split; [done|]. split; [|exact Em]. cbn [until_nul]. change x00 with NUL. by destruct (Byte.eqb b NUL).
Qed.

Lemma length_starts : forall q k, q <> [] ->
  S (length (starts k q)) =
  (count_bytes LF q + (if negb (Byte.eqb (byte_at q (length q - 1)) LF) then 1 else 0))%nat.
Proof.
  induction q as [|b q IH]; intros k Hq; [done|]. clear Hq. cbn [starts count_bytes].
  destruct (decide (q = [])) as [->|Hq].
  { unfold byte_at. cbn. by destruct (Byte.eqb b LF). }
  rewrite bool_decide_false by done. rewrite andb_true_r, length_app, <- Nat.add_succ_r, (IH (S k) Hq).
  replace (byte_at (b :: q) (length (b :: q) - 1)) with (byte_at q (length q - 1)).
  { destruct (Byte.eqb b LF); cbn [length]; lia. }
  destruct q as [|c q]; [done|]. unfold byte_at. cbn [length]. by rewrite !Nat.sub_succ, !Nat.sub_0_r.
Qed.

(** [strip_cr] removes one final CR. *)
Lemma strip_cr_app l b : strip_cr (l ++ [b]) = if Byte.eqb b CR then l else l ++ [b].
Proof.
  unfold strip_cr. rewrite length_app, Nat.add_sub, byte_at_app. cbn [length].
  replace (0 <? length l + 1)%nat with true by (symmetry; apply Nat.ltb_lt; lia). cbn [andb].
  destruct (Byte.eqb b CR); [|done]. by rewrite take_app_length.
Qed.

(** ** Splitting at NULs *)

Fixpoint nul_starts (k : nat) (bs : list byte) : list nat :=
  match bs with
  | [] => []
  | b :: bs' => (if Byte.eqb b NUL then [S k] else []) ++ nul_starts (S k) bs'
  end.

(** The strings that end in a NUL. *)
Fixpoint nul_pieces (bs : list byte) : list (list byte) :=
  match bs with
  | [] => []
  | b :: bs' =>
      if Byte.eqb b NUL then [] :: nul_pieces bs'
      else match nul_pieces bs' with [] => [] | l :: ls => (b :: l) :: ls end
  end.

Lemma split_nul_fold : forall q p ret,
  fold_left (split_nul_at (p ++ q)) (seq (length p) (length q)) ret = ret ++ nul_starts (length p) q.
Proof.
  induction q as [|b q IH]; intros p ret; cbn [length seq fold_left nul_starts]; [by rewrite app_nil_r|].
  unfold split_nul_at at 2. rewrite byte_at_app.
  specialize (IH (p ++ [b])). rewrite length_app in IH. cbn [length] in IH. rewrite Nat.add_1_r, <- app_assoc in IH.
  cbn [app] in IH. rewrite IH. destruct (Byte.eqb b NUL); [|done]. by rewrite <- app_assoc, Nat.add_1_r.
Qed.

Lemma length_nul_starts : forall q k, length (nul_starts k q) = count_bytes NUL q.
Proof.
  induction q as [|b q IH]; intros k; [done|]. cbn [nul_starts count_bytes]. rewrite length_app, IH.
  by destruct (Byte.eqb b NUL).
Qed.

Lemma removelast_cons2 {A} (x y : A) l : removelast (x :: y :: l) = x :: removelast (y :: l).
Proof. done. Qed.
Lemma mapM_cons {A B} (f : A -> option B) x l :
  mapM f (x :: l) = (y ← f x; ys ← mapM f l; Some (y :: ys)).
Proof. done. Qed.

Lemma strings_at_nul_starts : forall q p,
  mapM (string_at (p ++ q)) (removelast (length p :: nul_starts (length p) q)) = Some (nul_pieces q).
Proof.
  induction q as [|b q IH]; intros p; [done|].
  specialize (IH (p ++ [b])). rewrite length_app in IH. cbn [length] in IH. rewrite Nat.add_1_r, <- app_assoc in IH.
  cbn [app] in IH. cbn [nul_starts nul_pieces].
  destruct (byte_eqb_spec b NUL) as [->|Hb]; cbn [app].
  - rewrite removelast_cons2.
    rewrite mapM_cons, string_at_app. change (c_string (NUL :: q)) with (Some ([] : list byte)). cbn [mbind option_bind].
    by rewrite IH.
  - destruct (nul_starts (S (length p)) q) as [|k S'] eqn:ES.
    { cbn in IH |- *. by destruct (nul_pieces q). }
    rewrite removelast_cons2 in IH |- *. rewrite mapM_cons in IH |- *. rewrite string_at_app.
    cbn [c_string]. destruct (byte_eqb_spec b NUL); [done|].
    replace (S (length p)) with (length (p ++ [b])) in IH by (rewrite length_app; cbn; lia).
    rewrite (cons_middle b p), app_assoc, string_at_app in IH.
    destruct (c_string q) as [l|]; [|done]. cbn in IH |- *. rewrite <- app_assoc in IH. cbn [app] in IH.
    destruct (mapM _ _) as [ls|]; [|done]. cbn in IH |- *. by injection IH as <-.
Qed.

(** ** The host's side *)

Section host_lemmas.
Context {G : Type}.
Implicit Types (w : world G) (fds : gmap Z string) (fs : gmap string (list byte)).

(** A state reached from [w0] without using the guest, with these descriptors
    and files: while no system call has failed, none will and no descriptor
    was closed twice. *)
Definition reached w0 fds fs w : Prop :=
  w_fds w = fds /\ w_files w = fs /\ w_guest w = w_guest w0 /\
  (host_ok w0 -> host_ok w /\ w_bad_close w = w_bad_close w0).

Lemma reached_refl w : reached w (w_fds w) (w_files w) w.
Proof. by split_and!. Qed.

Lemma reached_h w0 fds fs {A} (m : hm A) (Q : A -> Prop) : (forall g, exists a g', m g = (Ret a, g') /\ Q a) ->
  Prelude.total (reached w0 fds fs) (on_h m) (fun a w => reached w0 fds fs w /\ Q a).
Proof.
  intros Hm w Hw. destruct (Hm (w_g w)) as (a & g' & E & Ha). exists a, (w <| w_g := g' |>).
  split; [|done]. unfold on_h, zoom. by rewrite E.
Qed.

Lemma reached_perrorf w0 fds fs e m :
  Prelude.total (reached w0 fds fs) (perrorf e m) (fun _ => reached w0 fds fs).
Proof.
  eapply total_conseq; [apply (reached_h w0 fds fs _ (fun _ => True))|done|by intros ? ? []].
  intros g. by eexists _, _.
Qed.

Lemma reached_answer w0 fds fs :
  Prelude.total (reached w0 fds fs) next_answer (fun a w => reached w0 fds fs w /\ (host_ok w0 -> a = None)).
Proof.
  intros w (Hf & Hl & Hg & Hok). unfold next_answer. unfold host_ok in Hok at 2.
  destruct (w_answers w) as [|a q] eqn:Eq; cbn; (eexists _, _; split; [reflexivity|]).
  - split; [|done]. by split_and!.
  - split; [split_and!; try done|]; intros H0; destruct (Hok H0) as [Hq Hb]; apply Forall_cons in Hq as [? ?];
      [by split|done].
Qed.

(** A step that looks at the state after an answer. *)
Lemma reached_syscall {A} w0 fds fs (k : option Z -> fm G A) Q :
  (forall a w, reached w0 fds fs w -> (host_ok w0 -> a = None) -> exists r w', k a w = (Ret r, w') /\ Q r w') ->
  Prelude.total (reached w0 fds fs) (a <- next_answer ;; k a) Q.
Proof.
  intros Hk. eapply total_bind; [apply reached_answer|]. intros a w [Hw Ha]. by apply Hk.
Qed.

Lemma reached_open w0 fds fs file create :
  Prelude.total (reached w0 fds fs) (sys_open file create) (fun r w =>
    match r with
    | inl e => reached w0 fds fs w /\ ~ (host_ok w0 /\ (create = true \/ is_Some (fs !! file)))
    | inr fd => fds !! fd = None /\ (create = true \/ is_Some (fs !! file)) /\
        reached w0 (<[fd := file]> fds) (<[file := default [] (fs !! file)]> fs) w
    end).
Proof.
  apply reached_syscall. intros a w (Hf & Hl & Hg & Hok) Ha. pose proof (new_fd_fresh (dom (w_fds w))) as fresh_fd.
  apply not_elem_of_dom in fresh_fd. rewrite Hf in fresh_fd.
  destruct a as [e|].
  { eexists _, _. split; [reflexivity|]. split; [by split_and!|]. intros [H0 _]. by specialize (Ha H0). }
  rewrite Hl. destruct (fs !! file) as [d|] eqn:Ed.
  - eexists _, _. split; [reflexivity|]. cbn. rewrite Hf. split; [done|]. split; [by right|].
    split_and!; cbn; try done; [by rewrite Hf|by rewrite insert_id].
  - destruct create.
    + eexists _, _. split; [reflexivity|]. cbn. rewrite Hf. split; [done|]. split; [by left|].
      split_and!; cbn; try done; [by rewrite Hf|by rewrite Hl].
    + eexists _, _. split; [reflexivity|]. split; [by split_and!|]. intros [_ [?|[]]]; done.
Qed.

Lemma reached_close w0 fds fs fd file : fds !! fd = None ->
  Prelude.total (reached w0 (<[fd := file]> fds) fs) (sys_close fd)
    (fun a w => reached w0 fds fs w /\ (host_ok w0 -> a = None)).
Proof.
  intros Hfd w Hw. unfold sys_close. pose proof Hw as (Hf & _). rewrite Hf, lookup_insert_eq.
  eapply (reached_syscall w0 (<[fd := file]> fds) fs (fun a => modify _ ;;; ret a)); [|exact Hw].
  intros a w1 (Hf1 & Hl & Hg & Hok) Ha. eexists _, _. split; [reflexivity|]. split; [|done].
  split_and!; cbn; try done. by rewrite Hf1, delete_insert_id.
Qed.

(** The second close of a descriptor. *)
Lemma reached_close_again w0 fds fs fd : fds !! fd = None -> ~ host_ok w0 ->
  Prelude.total (reached w0 fds fs) (sys_close fd) (fun _ => reached w0 fds fs).
Proof.
  intros Hfd Hno w Hw. unfold sys_close. pose proof Hw as (Hf & Hl & Hg & _). rewrite Hf, Hfd.
  eexists _, _. split; [reflexivity|]. split_and!; try done.
Qed.

Lemma reached_err_close {A} w0 fds fs fd file : fds !! fd = None ->
  Prelude.total (reached w0 (<[fd := file]> fds) fs) (err_close fd)
    (fun (r : option A) w => reached w0 fds fs w /\ r = None).
Proof.
  intros Hfd. eapply total_bind; [by apply reached_close|]. intros a. apply total_ret. by intros w [Hw _].
Qed.

Lemma reached_report_close {A} w0 fds fs fd file e m : fds !! fd = None ->
  Prelude.total (reached w0 (<[fd := file]> fds) fs) (perrorf e m ;;; err_close fd)
    (fun (r : option A) w => reached w0 fds fs w /\ r = None).
Proof. intros Hfd. eapply total_bind; [apply reached_perrorf|]. intros ?. by apply reached_err_close. Qed.

Lemma total_pure {A} (phi : Prop) P (m : fm G A) Q :
  (phi -> Prelude.total P m Q) -> Prelude.total (fun w => phi /\ P w) m Q.
Proof. intros Hm w [Hphi Hw]. by apply Hm. Qed.
(** The result of reading the file: its data, unless something failed. *)
Definition read_result w0 fs (tmp : string) (r : option (list byte)) : Prop :=
  match r with Some d => fs !! tmp = Some d | None => ~ (host_ok w0 /\ is_Some (fs !! tmp)) end.

Lemma reached_read_failed w0 fds fs fd tmp e m : fds !! fd = None -> ~ host_ok w0 ->
  Prelude.total (reached w0 (<[fd := tmp]> fds) fs) (perrorf e m ;;; err_close fd)
    (fun r w => reached w0 fds fs w /\ read_result w0 fs tmp r).
Proof.
  intros Hfd Hno. eapply total_conseq; [by apply reached_report_close|done|].
  intros r w [Hw ->]. split; [done|]. by intros [].
Qed.

Lemma reached_read_whole w0 fds fs extra tmp :
  Prelude.total (reached w0 fds fs) (read_whole extra tmp)
    (fun r w => reached w0 fds fs w /\ read_result w0 fs tmp r).
Proof.
  eapply total_bind; [apply reached_open|]. intros [e|fd].
  { apply total_pure_r. intros Hno. eapply total_bind; [apply reached_perrorf|]. intros ?. apply total_ret.
    intros w Hw. split; [done|]. intros [H0 Hs]. apply Hno. auto. }
  apply total_pure. intros Hfd. apply total_pure. intros Hs.
  destruct Hs as [Hs|[d Hd]]; [discriminate Hs|].
  replace (<[tmp := default [] (fs !! tmp)]> fs) with fs by (rewrite Hd; cbn; by rewrite insert_id).
  assert (forall w1, reached w0 (<[fd := tmp]> fds) fs w1 -> fd_data w1 fd = d) as Hdata.
  { intros w1 (Hf & Hl & _). unfold fd_data. by rewrite Hf, Hl, lookup_insert_eq, Hd. }
  eapply (total_bind _ _ (fun s w => reached w0 (<[fd := tmp]> fds) fs w /\
    match s with inl _ => ~ host_ok w0 | inr size => size = length d end)).
  { apply reached_syscall. intros a w Hw Ha. eexists _, _. split; [reflexivity|]. split; [done|].
    destruct a; [intros H0; by specialize (Ha H0)|by rewrite Hdata]. }
  intros [e|size]; apply total_pure_r; [by apply reached_read_failed|intros ->].
  eapply total_bind; [apply reached_answer|]. intros a. apply total_pure_r. intros Ha.
  destruct a as [e|]; [apply reached_read_failed; [done|]; intros H0; by specialize (Ha H0)|clear Ha].
  eapply (total_bind _ _ (fun x w => reached w0 (<[fd := tmp]> fds) fs w /\ (snd x = d \/ snd x = [] /\ ~ host_ok w0))).
  { apply reached_syscall. intros a w Hw Ha. eexists _, _. split; [reflexivity|]. split; [done|].
    destruct a; [right; split; [done|]; intros H0; by specialize (Ha H0)|].
    left. cbn. by rewrite Hdata, firstn_all by done. }
  intros [e data]. cbn [snd]. apply total_pure_r. intros Hx.
  destruct (Nat.eqb_spec (length data) (length d)) as [El|El]; cbn [negb];
    [|apply reached_read_failed; [done|]; destruct Hx as [->|[_ ?]]; done].
  assert (data = d) as -> by (destruct Hx as [?|[-> _]]; [done|]; by destruct d).
  eapply total_bind; [by apply reached_close|]. intros a. apply total_pure_r. intros Ha.
  destruct a as [e'|]; [|by apply total_ret].
  assert (~ host_ok w0) as Hno by (intros H0; by specialize (Ha H0)).
  eapply total_bind; [apply reached_perrorf|]. intros ?.
  eapply total_bind; [by apply reached_close_again|]. intros ?. apply total_ret. intros w Hw.
  split; [done|]. by intros [].
Qed.

Lemma total_ex {A X} (P : X -> world G -> Prop) (m : fm G A) Q :
  (forall x, Prelude.total (P x) m Q) -> Prelude.total (fun w => exists x, P x w) m Q.
Proof. intros Hm w [x Hw]. by apply (Hm x). Qed.

(** The result of writing the file, whose other contents [old] stay. *)
Definition write_result w0 fs (tmp : string) (content : list byte) (ok : bool) fs' : Prop :=
  delete tmp fs' = delete tmp fs /\
  match ok with
  | true => fs' !! tmp = Some (content ++ drop (length content) (default [] (fs !! tmp)))
  | false => ~ host_ok w0
  end.

Lemma reached_full_write w0 fds fs fd tmp content :
  Prelude.total (reached w0 (<[fd := tmp]> fds) (<[tmp := default [] (fs !! tmp)]> fs)) (full_write fd content)
    (fun x w => exists fs', reached w0 (<[fd := tmp]> fds) fs' w /\
       (snd x = length content /\ write_result w0 fs tmp content true fs' \/
        snd x = 0%nat /\ write_result w0 fs tmp content false fs' /\ fs' !! tmp = Some (default [] (fs !! tmp)))).
Proof.
  apply reached_syscall. intros a w Hw Ha. pose proof Hw as (Hf & Hl & Hg & Hok). rewrite Hf, lookup_insert_eq, Hl.
  rewrite lookup_insert_eq. destruct a as [e|].
  - eexists _, _. split; [reflexivity|]. eexists. split; [exact Hw|]. right. split; [done|].
    split; [split; [apply delete_insert_eq|]|apply lookup_insert_eq]. intros H0. by specialize (Ha H0).
  - eexists _, _. split; [reflexivity|]. eexists. split; [split_and!; cbn; [done|by rewrite Hl|done|done]|].
    left. split; [done|]. unfold write_result. cbn [default]. rewrite insert_insert_eq, delete_insert_eq. split; [done|].
    by rewrite lookup_insert_eq.
Qed.

Lemma reached_write_whole w0 fds fs tmp content :
  Prelude.total (reached w0 fds fs) (write_whole tmp content) (fun ok w =>
    exists fs', reached w0 fds fs' w /\ write_result w0 fs tmp content ok fs').
Proof.
  eapply total_bind; [apply reached_open|]. intros [e|fd].
  { apply total_pure_r. intros Hno. eapply total_bind; [apply reached_perrorf|]. intros ?. apply total_ret.
    intros w Hw. exists fs. split; [done|]. split; [done|]. intros H0. apply Hno. auto. }
  apply total_pure. intros Hfd. apply total_pure. intros _.
  eapply total_bind; [apply reached_full_write|]. intros [e n]. apply total_ex. intros fs'. cbn [snd].
  apply total_pure_r. intros Hx. destruct (Nat.eqb_spec n (length content)) as [En|En]; cbn [negb].
  - eapply total_bind; [by apply reached_close|]. intros a. apply total_pure_r. intros Ha.
    destruct a as [e'|].
    + assert (~ host_ok w0) as Hno by (intros H0; by specialize (Ha H0)).
      eapply total_bind; [apply reached_perrorf|]. intros ?.
      eapply total_bind; [by apply reached_close_again|]. intros ?. apply total_ret. intros w Hw.
      exists fs'. split; [done|]. destruct Hx as [[_ [? _]]|[_ [[? _] _]]]; by split.
    + apply total_ret. intros w Hw. exists fs'. split; [done|]. destruct Hx as [[_ Hx]|(Hn & [Hx Hno] & Hl)]; [done|].
      assert (content = []) as -> by (destruct content; [done|cbn in En; lia]). by split.
  - eapply total_bind; [apply reached_perrorf|]. intros [].
    eapply total_bind; [by apply reached_close|]. intros a. apply total_ret. intros w [Hw _].
    exists fs'. split; [done|]. by destruct Hx as [[? _]|(_ & ? & _)].
Qed.

End host_lemmas.

(** ** The strings found *)

Lemma split_lines_run data : split_lines data = Ret ((fun l => strip_cr (until_nul l)) <$> lines_of data).
Proof.
  unfold split_lines. destruct (decide (data = [])) as [->|Hd]; [done|].
  replace (0 <? length data)%nat with true by (symmetry; apply Nat.ltb_lt; destruct data; [done|cbn; lia]).
  cbn [andb]. pose proof (split_line_fold (length data) data [] [0%nat] eq_refl) as Hf. cbn [length app] in Hf.
  rewrite Hf. destruct (strings_at_starts data [] Hd) as (l & ls & El & Ec & Em). cbn [length app] in Em.
  replace (byte_at (data ++ [NUL]) (length data - 1)) with (byte_at data (length data - 1)).
  2: { unfold byte_at. rewrite lookup_app_l; [done|]. destruct data; [done|cbn; lia]. }
  rewrite <- (length_starts data 0 Hd). unfold strdup_all. cbn [length].
  replace (S (length (starts 0 data)) + 1 <? S (length (starts 0 data)) + 1)%nat with false
    by (symmetry; apply Nat.ltb_ge; lia).
  rewrite mapM_cons. change (string_at ((nul_nl <$> data) ++ [NUL]) 0) with (c_string ((nul_nl <$> data) ++ [NUL])).
  rewrite Ec, El. cbn [mbind option_bind]. rewrite Em. cbn.
  by rewrite <- list_fmap_compose.
Qed.

Lemma split_nul_run buf : split_nul buf = Ret (nul_pieces buf).
Proof.
  unfold split_nul. pose proof (split_nul_fold buf [] [0%nat]) as Hf. cbn [length app] in Hf. rewrite Hf.
  cbn [length]. rewrite length_nul_starts.
  replace (count_bytes NUL buf + 1 <? S (count_bytes NUL buf))%nat with false by (symmetry; apply Nat.ltb_ge; lia).
  pose proof (strings_at_nul_starts buf []) as Hm. cbn [length app] in Hm. unfold strdup_all. rewrite Hm.
  replace (_ <? _)%nat with false; [done|]. symmetry. apply Nat.ltb_ge.
  pose proof (length_nul_starts buf 0) as Hl.
  assert (forall A (x : A) l, length (removelast (x :: l)) = length l) as Hr.
  { intros A x l. revert x. induction l as [|y l IH]; intros x; [done|]. rewrite removelast_cons2. cbn [length]. by rewrite IH. }
  rewrite Hr, Hl. lia.
Qed.

Lemma nul_pieces_app bs rest : no_byte NUL bs -> nul_pieces (bs ++ NUL :: rest) = bs :: nul_pieces rest.
Proof.
  induction 1 as [|b bs Hb _ IH]; [done|]. cbn [app nul_pieces]. destruct (byte_eqb_spec b NUL); [done|]. by rewrite IH.
Qed.

Lemma nul_pieces_terminated names : Forall (fun s => no_byte NUL (bytes_of_string s)) names ->
  nul_pieces (nul_terminated names) = bytes_of_string <$> names.
Proof.
  induction 1 as [|s names Hs _ IH]; [done|]. cbn [nul_terminated mbind list_bind fmap list_fmap].
  rewrite <- app_assoc. cbn [app]. rewrite nul_pieces_app by done. f_equal. exact IH.
Qed.

Lemma strings_of_pieces names : Forall (fun s => no_byte NUL (bytes_of_string s)) names ->
  string_of_bytes <$> nul_pieces (nul_terminated names) = names.
Proof.
  intros Hn. rewrite nul_pieces_terminated by done. rewrite <- list_fmap_compose. rewrite <- (list_fmap_id names) at 2.
  apply list_fmap_ext. intros i x _. cbn. apply string_of_bytes_of_string.
Qed.

(** ** Cutting lists into requests *)

Section chunks.
Context {G A : Type} (free : list A -> fm G unit) (call : list string -> fm G (option (list A))).

(** One request for each group, in order, until one fails. *)
Fixpoint ask_groups (groups : list (list string)) (acc : list A) : fm G (option (list A)) :=
  match groups with
  | [] => ret (Some acc)
  | ns :: groups' =>
      r <- call ns ;;
      match r with
      | None => free acc ;;; ret None
      | Some some => ask_groups groups' (acc ++ some)
      end
  end.

Lemma chunk_loop_groups max : (0 < max)%nat -> forall fuel names, (length names <= fuel)%nat ->
  exists groups, concat groups = names /\ Forall (fun ns => 0 < length ns <= max)%nat groups /\
    forall acc w, chunk_loop fuel max free call (length names) names acc w = ask_groups groups acc w.
Proof.
  intros Hmax. induction fuel as [|fuel IH]; intros names Hl.
  { assert (names = []) as -> by (destruct names; [done|cbn in Hl; lia]). by exists []. }
  destruct names as [|n names]; [by exists []|].
  set (ns := n :: names) in *. destruct (IH (drop max ns)) as (groups & Ec & Hf & Hr); [rewrite length_drop; cbn; cbn in Hl; lia|].
  exists (take max ns :: groups). split_and!.
  - cbn. by rewrite Ec, take_drop.
  - constructor; [|done]. rewrite length_take. cbn. lia.
  - intros acc w. change (length ns) with (S (length names)). cbn [chunk_loop Nat.eqb take_strings ask_groups].
    unfold bind. destruct (call (take max ns) w) as [[[some|]|] w1]; try done.
    replace (if (S (length names) <=? max)%nat then 0%nat else (S (length names) - max)%nat) with (length (drop max ns)); [apply Hr|].
    rewrite length_drop. cbn [length ns]. destruct (Nat.leb_spec (S (length names)) max); lia.
Qed.

(** When every request gives [f] of its names, so does the whole. *)
Lemma ask_groups_map (f : string -> list A) (I : world G -> Prop) max :
  (forall ns w, (length ns <= max)%nat -> I w -> exists w', call ns w = (Ret (Some (ns ≫= f)), w') /\ I w') ->
  forall groups acc w, Forall (fun ns => 0 < length ns <= max)%nat groups -> I w ->
  exists w', ask_groups groups acc w = (Ret (Some (acc ++ (concat groups ≫= f))), w') /\ I w'.
Proof.
  intros Hcall. induction groups as [|ns groups IH]; intros acc w Hf Hw.
  { exists w. cbn. by rewrite app_nil_r. }
  apply Forall_cons in Hf as [[_ Hn] Hf]. destruct (Hcall ns w Hn Hw) as (w1 & E & Hw1).
  cbn [ask_groups]. rewrite (bind_Ret _ _ _ _ _ E). destruct (IH (acc ++ (ns ≫= f)) w1 Hf Hw1) as (w2 & E2 & Hw2).
  exists w2. split; [|done]. rewrite E2. cbn. by rewrite bind_app, app_assoc.
Qed.

End chunks.

Section file_lemmas.
Context {G : Type} `{GuestLaws G}.
Context (mkdtemp : string -> Z + string).
Implicit Types (w : world G) (fs : gmap string (list byte)).

Definition tmpdir_ok : Prop := forall t, exists d, mkdtemp t = inr d.

(** The descriptors are released and no file is left behind. *)
Definition tidy w w' : Prop :=
  w_fds w' = w_fds w /\ w_files w' ⊆ w_files w /\
  (host_ok w -> host_ok w' /\ w_bad_close w' = w_bad_close w).

Lemma lazy_tmpdir_ok g : exists r g', guestfs___lazy_make_tmpdir mkdtemp g = (Ret r, g') /\ (r = 0 \/ r = -1 /\ ~ tmpdir_ok).
Proof.
  unfold guestfs___lazy_make_tmpdir. destruct (tmpdir (g_dirs g)); [by eexists _, _; split; [|left]|].
  destruct (get_tmpdir_spec g) as (os & E). mstep E. destruct (mkdtemp _) as [e|p] eqn:Em.
  - eexists _, _. split; [reflexivity|]. right. split; [done|]. intros Ht.
    match type of Em with mkdtemp ?t = _ => destruct (Ht t) as [d Hd] end. congruence.
  - eexists _, _. split; [reflexivity|]. by left.
Qed.

Lemma with_tmpfile_run {A} base (failed : A) k w (Q : A -> world G -> Prop) :
  (forall g tmp, (exists d (u : Z), tmp = d +:+ "/" +:+ base +:+ pretty u) ->
     exists x w2, k tmp (w <| w_g := g |>) = (Ret x, w2) /\ Q x (w2 <| w_files ::= delete tmp |>)) ->
  (forall g, ~ tmpdir_ok -> Q failed (w <| w_g := g |>)) ->
  exists x w', with_tmpfile mkdtemp base failed k w = (Ret x, w') /\ Q x w'.
Proof.
  intros Hk Hf. unfold with_tmpfile. destruct (lazy_tmpdir_ok (w_g w)) as (r & g1 & E & Hr).
  assert (on_h (guestfs___lazy_make_tmpdir mkdtemp) w = (Ret r, w <| w_g := g1 |>)) as E1
    by (unfold on_h, zoom; by rewrite E).
  rewrite (bind_Ret _ _ _ _ _ E1). destruct Hr as [->|[-> Hno]]; [|by eexists _, _; split; [reflexivity|auto]].
  change (0 =? -1) with false. cbv iota.
  assert (exists d (u : Z) g2, on_h (fresh_tmp base) (w <| w_g := g1 |>) =
    (Ret (d +:+ "/" +:+ base +:+ pretty u), w <| w_g := g2 |>)) as (d & u & g2 & E2) by (by eexists _, _, _).
  rewrite (bind_Ret _ _ _ _ _ E2). destruct (Hk g2 _ (ex_intro _ d (ex_intro _ u eq_refl))) as (x & w2 & E3 & HQ).
  rewrite (bind_Ret _ _ _ _ _ E3). by eexists _, _.
Qed.

(** The read of a file that a call has left in the temporary file. *)
Lemma delete_subset (fs fs' : gmap string (list byte)) tmp : delete tmp fs' = delete tmp fs -> delete tmp fs' ⊆ fs.
Proof. intros ->. apply delete_subseteq. Qed.

(** ** Reading *)

(** What a read of the guest's file gives. *)
Definition file_read path w (r : option (list byte)) w' : Prop :=
  tidy w w' /\ guest_files (w_guest w') = guest_files (w_guest w) /\
  (guest_up (w_guest w) -> guest_up (w_guest w')) /\
  match r with
  | Some d => guest_files (w_guest w) !! path = Some d
  | None => ~ (host_ok w /\ tmpdir_ok /\ guest_up (w_guest w) /\ is_Some (guest_files (w_guest w) !! path))
  end.

Lemma read_file_run path w :
  exists r w', guestfs__read_file mkdtemp path w = (Ret r, w') /\ file_read path w r w'.
Proof.
  apply with_tmpfile_run; [|intros g Hno; split_and!; [by split_and!|done|done|by intros (_ & ? & _)]].
  intros g tmp _. unfold file_read. destruct (download_law path tmp (w <| w_g := g |>)) as (r & w1 & E & (Ha & Hf & Hb) & Hg & Hu & Hd & Hr).
  rewrite (bind_Ret _ _ _ _ _ E). cbn in Ha, Hf, Hb, Hg, Hu, Hd, Hr. destruct Hr as [[-> (d & Hgd & Hl)]|[-> Hno]]; cbn [Z.eqb].
  - destruct (reached_read_whole w1 (w_fds w1) (w_files w1) 1 tmp w1 (reached_refl w1)) as (r & w2 & E2 & (Hf2 & Hl2 & Hg2 & Hok) & Hr).
    eexists _, _. split; [exact E2|]. unfold tidy. cbn. rewrite Hf2, Hl2, Hg2, Hg, Hf. split_and!; try done.
    + by apply delete_subset.
    + intros Hw. unfold host_ok in *. rewrite Ha, Hb in Hok. auto.
    + unfold read_result in Hr. rewrite Hl in Hr. destruct r as [d'|]; [by simplify_eq|].
      intros (Hw & _). apply Hr. split; [|done]. unfold host_ok. by rewrite Ha.
  - eexists _, _. split; [reflexivity|]. unfold tidy. cbn. rewrite Hf, Hg. split_and!; try done.
    + by apply delete_subset.
    + unfold host_ok. cbn. by rewrite Ha, Hb.
    + intros (_ & _ & H1 & [d H2]). by rewrite Hno in H2.
Qed.

(** The wrapper adds messages. *)
Lemma api_run {A} `{Traced A} name args (f : fm G A) w (Q : A -> world G -> Prop) :
  (forall g, exists r w', f (w <| w_g := g |>) = (Ret r, w') /\ forall g', Q r (w' <| w_g := g' |>)) ->
  exists r w', api name args f w = (Ret r, w') /\ Q r w'.
Proof.
  intros Hf. unfold api.
  assert (forall m w1, exists g', on_h (trace_call (trace (g_cfg (w_g w))) m) w1 = (Ret tt, w1 <| w_g := g' |>)) as Ht.
  { intros m w1. unfold trace_call. destruct (trace (g_cfg (w_g w))); [by eexists|]. exists (w_g w1). by destruct w1. }
  rewrite bind_gets.
  assert (exists g1, on_h (message GUESTFS_EVENT_ENTER name) w = (Ret tt, w <| w_g := g1 |>)) as [g1 E1] by by eexists.
  rewrite (bind_Ret _ _ _ _ _ E1). destruct (Ht (name +:+ args) (w <| w_g := g1 |>)) as [g2 E2].
  rewrite (bind_Ret _ _ _ _ _ E2). destruct (Hf g2) as (r & w' & E3 & HQ).
  rewrite (bind_Ret _ _ _ _ _ E3). match goal with |- context [on_h (trace_call _ ?m)] => destruct (Ht m w') as [g3 E4] end.
  rewrite (bind_Ret _ _ _ _ _ E4). by eexists _, _.
Qed.

Lemma guestfs_read_file_run path w :
  exists r w', guestfs_read_file mkdtemp path w = (Ret r, w') /\ file_read path w r w'.
Proof.
  apply api_run. intros g. destruct (read_file_run path (w <| w_g := g |>)) as (r & w' & E & Hr).
  exists r, w'. split; [done|]. intros g'. exact Hr.
Qed.

(** ** Writing *)

(** What a write leaves: the file with the content, unless something failed. *)
Definition file_written path (new : list byte) (ready : Prop) w (r : Z) w' : Prop :=
  tidy w w' /\ (guest_up (w_guest w) -> guest_up (w_guest w')) /\
  (r = 0 /\ guest_files (w_guest w') = <[path := new]> (guest_files (w_guest w)) \/
   r = -1 /\ ~ (host_ok w /\ tmpdir_ok /\ guest_up (w_guest w) /\ ready)).

Lemma append_splice old d : splice old (length old) d = old ++ d.
Proof.
  unfold splice. rewrite Nat.sub_diag, app_nil_r, firstn_all. rewrite drop_ge by lia. by rewrite app_nil_r.
Qed.

(** The temporary directory holds no file of this kind. *)
Definition no_file (base : string) w : Prop :=
  forall d (u : Z), w_files w !! (d +:+ "/" +:+ base +:+ pretty u) = None.

Lemma small_write_run path content (append : bool) w :
  exists r w', (if append then guestfs_internal_write_append else guestfs_internal_write) path content w = (Ret r, w') /\
    file_written path ((if append then default [] (guest_files (w_guest w) !! path) else []) ++ content) True w r w'.
Proof.
  destruct append.
  - destruct (internal_write_append_law path content w) as (r & w' & E & (Ha & Hf & Hb) & Hu & Hl & Hr).
    exists r, w'. split; [done|]. split_and!; [|done|].
    + split_and!; [done|by rewrite Hl|]. unfold host_ok. by rewrite Ha.
    + destruct Hr as [[-> Hr]|[-> Hr]]; [by left|right]. split; [done|]. by intros (_ & _ & ? & _).
  - destruct (internal_write_law path content w) as (r & w' & E & (Ha & Hf & Hb) & Hu & Hl & Hr).
    exists r, w'. split; [done|]. split_and!; [|done|].
    + split_and!; [done|by rewrite Hl|]. unfold host_ok. by rewrite Ha.
    + destruct Hr as [[-> Hr]|[-> Hr]]; [by left|right]. split; [done|]. by intros (_ & _ & ? & _).
Qed.

(** The part of [write_or_append] after the temporary file is written. *)
Lemma upload_part_run tmp path content (append : bool) w : w_files w !! tmp = Some content ->
  exists r w',
    (if negb append then r <- guestfs_upload tmp path ;; if r =? -1 then ret (-1) else ret 0
     else
       filesize <- guestfs_filesize path ;;
       if filesize =? -1 then ret (-1) else
       r <- guestfs_upload_offset tmp path filesize ;;
       if r =? -1 then ret (-1) else ret 0) w = (Ret r, w') /\
    same_host w w' /\ w_files w' = w_files w /\ (guest_up (w_guest w) -> guest_up (w_guest w')) /\
    (r = 0 /\ guest_files (w_guest w') =
       <[path := (if append then default [] (guest_files (w_guest w) !! path) else []) ++ content]>
         (guest_files (w_guest w)) \/
     r = -1 /\ ~ (guest_up (w_guest w) /\ (append = true -> is_Some (guest_files (w_guest w) !! path)))).
Proof.
  intros Hl. destruct append; cbn [negb].
  - destruct (filesize_law path w) as (r & w1 & E & (Ha & Hf & Hb) & Hu & Hl1 & Hg & Hr).
    rewrite (bind_Ret _ _ _ _ _ E). destruct Hr as [(d & Hd & ->)|[-> Hno]].
    + replace (Z.of_nat (length d) =? -1) with false by (symmetry; apply Z.eqb_neq; lia). cbv iota.
      destruct (upload_offset_law tmp path (Z.of_nat (length d)) w1) as (r & w2 & E2 & (Ha2 & Hf2 & Hb2) & Hu2 & Hl2 & Hr); [lia|].
      rewrite (bind_Ret _ _ _ _ _ E2). rewrite Nat2Z.id, Hg, Hd, Hl1, Hl in Hr. cbn [default] in Hr.
      destruct Hr as [[-> (c & Hc & Hr)]|[-> Hno]].
      * eexists _, _. split; [reflexivity|]. split; [unfold same_host; by rewrite Ha2, Hf2, Hb2|].
        split; [by rewrite Hl2|]. split; [auto|]. left. split; [done|]. simplify_eq. by rewrite Hr, append_splice, Hd.
      * eexists _, _. split; [reflexivity|]. split; [unfold same_host; by rewrite Ha2, Hf2, Hb2|].
        split; [by rewrite Hl2|]. split; [auto|]. right. split; [done|]. intros [? _]. by specialize (Hno (Hu ltac:(done))).
    + eexists _, _. split; [reflexivity|]. split; [done|]. split; [done|]. split; [done|]. right. split; [done|].
      intros [Hup Hs]. destruct (Hs eq_refl) as [d Hd]. by rewrite Hno in Hd.
  - destruct (upload_law tmp path w) as (r & w1 & E & Hh & Hu & Hl1 & Hr). rewrite (bind_Ret _ _ _ _ _ E).
    rewrite Hl in Hr. destruct Hr as [[-> (c & Hc & Hr)]|[-> Hno]].
    + eexists _, _. split; [reflexivity|]. split; [done|]. split; [done|]. split; [done|]. left. by simplify_eq.
    + eexists _, _. split; [reflexivity|]. split; [done|]. split; [done|]. split; [done|]. right. split; [done|].
      intros [Hup _]. by specialize (Hno Hup).
Qed.

Lemma write_or_append_run path content append w : no_file "write" w ->
  exists r w', write_or_append mkdtemp path content append w = (Ret r, w') /\
    file_written path ((if append then default [] (guest_files (w_guest w) !! path) else []) ++ content)
      (append = true -> Z.of_nat (length content) <= SMALL_WRITE \/ is_Some (guest_files (w_guest w) !! path)) w r w'.
Proof.
  intros Hfresh. unfold write_or_append. destruct (Z.leb_spec (Z.of_nat (length content)) SMALL_WRITE) as [Hsmall|Hbig].
  { destruct (small_write_run path content append w) as (r & w' & E & Ht & Hu & Hr). exists r, w'. split; [done|].
    split; [done|]. split; [done|]. destruct Hr as [?|[? Hr]]; [by left|right]. split; [done|].
    intros (?&?&?&_). by apply Hr. }
  apply with_tmpfile_run; [|intros g Hno; split_and!; [by split_and!|done|right; split; [done|by intros (_ & ? & _)]]].
  intros g tmp (d & u & Et). set (w1 := w <| w_g := g |>).
  assert (w_files w !! tmp = None) as Hn by (rewrite Et; apply Hfresh).
  destruct (reached_write_whole w1 (w_fds w1) (w_files w1) tmp content w1 (reached_refl w1))
    as (ok & w2 & E & fs' & (Hf & Hl & Hg & Hok) & Hd & Hres).
  rewrite (bind_Ret _ _ _ _ _ E). change (w_files w1) with (w_files w) in Hd, Hres. rewrite Hn in Hres.
  cbn [default] in Hres. rewrite drop_nil, app_nil_r in Hres. destruct ok; cbn [negb].
  - destruct (upload_part_run tmp path content append w2) as (r & w3 & E3 & (Ha3 & Hf3 & Hb3) & Hl3 & Hu & Hr); [by rewrite Hl|].
    exists r, w3. split; [exact E3|]. rewrite Hg in Hu, Hr. split; [|split; [done|]].
    + split_and!; cbn; [by rewrite Hf3, Hf|rewrite Hl3, Hl; by apply delete_subset|].
      intros Hw. unfold host_ok in *. cbn. rewrite Ha3, Hb3. by apply Hok.
    + destruct Hr as [?|[-> Hr]]; [by left|right]. split; [done|]. intros (_ & _ & Hup & Hs). apply Hr. split; [done|].
      intros Happ. destruct (Hs Happ); [lia|done].
  - exists (-1), w2. split; [reflexivity|]. split; [|split; [cbn; by rewrite Hg|right; split; [done|by intros (? & _)]]].
    split_and!; cbn; [by rewrite Hf|rewrite Hl; by apply delete_subset|done].
Qed.

(** ** Listings *)

(** The sorted names, unless something failed. *)
Definition listed (names : option (list string)) w (r : option (list string)) w' : Prop :=
  tidy w w' /\
  match r with
  | Some l => exists ns, names = Some ns /\ Sorted cmp_le l /\ l ≡ₚ ns
  | None => ~ (host_ok w /\ tmpdir_ok /\ guest_up (w_guest w) /\ is_Some names)
  end.

#[local] Instance cmp_le_total : Total cmp_le.
Proof. intros a b. unfold cmp_le, compare. rewrite (strcmp_antisym a b). lia. Qed.

Lemma sort_strings_sorted_perm l : Sorted cmp_le (sort_strings l) /\ sort_strings l ≡ₚ l.
Proof. split; [apply Sorted_merge_sort; apply _|apply merge_sort_Permutation]. Qed.

Lemma sorted_names_run w0 fds fs names : Forall (fun s => no_byte NUL (bytes_of_string s)) names ->
  Prelude.total (reached w0 fds fs) (sorted_names (nul_terminated names)) (fun r w => reached w0 fds fs w /\
    match r with Some l => l = sort_strings names | None => ~ host_ok w0 end).
Proof.
  intros Hn. eapply total_bind; [apply reached_answer|]. intros a. apply total_pure_r. intros Ha. destruct a as [e|].
  - eapply total_bind; [apply reached_perrorf|]. intros ?. apply total_ret. intros w Hw. split; [done|].
    intros Hok. by specialize (Ha Hok).
  - intros w Hw. exists (Some (sort_strings names)), w. split; [|done].
    unfold lift, bind. by rewrite split_nul_run, strings_of_pieces.
Qed.

Lemma listing_run base (call : string -> fm G Z) names w :
  (forall ns, names = Some ns -> Forall (fun s => no_byte NUL (bytes_of_string s)) ns) ->
  (forall g local, exists r w', call local (w <| w_g := g |>) = (Ret r, w') /\ same_host w w' /\
     delete local (w_files w') = delete local (w_files w) /\
     (r = 0 /\ (exists ns, names = Some ns /\ w_files w' !! local = Some (nul_terminated ns)) \/
      r = -1 /\ (guest_up (w_guest w) -> names = None))) ->
  exists r w', with_tmpfile mkdtemp base None (fun tmpfile =>
    r <- call tmpfile ;;
    if r =? -1 then ret None else
    buf <- read_whole 0 tmpfile ;;
    match buf with None => ret None | Some buf => sorted_names buf end) w = (Ret r, w') /\ listed names w r w'.
Proof.
  intros Hns Hcall.
  apply with_tmpfile_run; [|intros g Hno; split; [by split_and!|by intros (_ & ? & _)]].
  intros g tmp _. destruct (Hcall g tmp) as (r & w1 & E & (Ha & Hf & Hb) & Hd & Hr). rewrite (bind_Ret _ _ _ _ _ E).
  destruct Hr as [[-> (ns & En & Hl)]|[-> Hno]]; cbn [Z.eqb].
  - assert (Prelude.total (reached w1 (w_fds w1) (w_files w1))
      (buf <- read_whole 0 tmp ;; match buf with None => ret None | Some buf => sorted_names buf end)
      (fun r w => reached w1 (w_fds w1) (w_files w1) w /\
         match r with Some l => l = sort_strings ns | None => ~ host_ok w1 end)) as Ht.
    { eapply total_bind; [apply reached_read_whole|]. intros [buf|]; apply total_pure_r; unfold read_result; rewrite Hl.
      - intros [= <-]. by apply sorted_names_run, Hns.
      - intros Hno. apply total_ret. intros w2 Hw2. split; [done|]. intros Hok. by apply Hno. }
    destruct (Ht w1 (reached_refl w1)) as (r & w2 & E2 & (Hf2 & Hl2 & Hg2 & Hok) & Hr).
    eexists _, _. split; [exact E2|]. unfold listed, tidy. cbn. rewrite Hf2, Hl2, Hf.
    unfold host_ok in Hok, Hr. rewrite Ha, Hb in Hok. rewrite Ha in Hr. split_and!; [done|by apply delete_subset|done|].
    destruct r as [l|]; [subst; exists ns; split; [done|]; apply sort_strings_sorted_perm|by intros (? & _)].
  - eexists _, _. split; [reflexivity|]. unfold listed, tidy, host_ok. cbn. rewrite Hf, Ha, Hb.
    split_and!; [done|by apply delete_subset|done|]. intros (_ & _ & Hup & [ns Hs]). by rewrite Hno in Hs.
Qed.

End file_lemmas.

(** * Theorems *)

(** read_lines gives the lines of the file, each up to its first NUL and without one final
    CR, whether or not the last one is ended: the array always has room for them, descriptors
    are released, no temporary file is left, and it fails only when a call or the host does. *)
Theorem read_lines_correct {G} `{GuestLaws G} (mkdtemp : string -> Z + string) (file : string) (w : world G) :
  exists r w', guestfs__read_lines mkdtemp file w = (Ret r, w') /\
    w_fds w' = w_fds w /\ w_files w' ⊆ w_files w /\
    match r with
    | Some ls => exists d, guest_files (w_guest w) !! file = Some d /\
        ls = (fun l => strip_cr (until_nul l)) <$> lines_of d
    | None => ~ (host_ok w /\ tmpdir_ok mkdtemp /\ guest_up (w_guest w) /\
                 is_Some (guest_files (w_guest w) !! file))
    end.
Proof.
  unfold guestfs__read_lines. destruct (guestfs_read_file_run mkdtemp file w) as (r & w1 & E & (Hf & Hl & Hok) & _ & _ & Hr).
  rewrite (bind_Ret _ _ _ _ _ E). destruct r as [d|]; [|by eexists _, _].
  destruct (reached_answer w1 (w_fds w1) (w_files w1) w1 (reached_refl w1)) as (a & w2 & E2 & (Hf2 & Hl2 & _ & _) & Ha).
  unfold malloc. rewrite (bind_Ret _ _ _ _ _ E2). destruct a as [e|].
  - destruct (reached_perrorf w2 (w_fds w2) (w_files w2) e "malloc" w2 (reached_refl w2)) as (u & w3 & E3 & (Hf3 & Hl3 & _ & _)).
    rewrite (bind_Ret _ _ _ _ _ E3). eexists _, _. split; [reflexivity|]. rewrite Hf3, Hl3, Hf2, Hl2, Hf.
    split_and!; try done. intros (Hw & _). destruct (Hok Hw) as [Hw1 _]. by specialize (Ha Hw1).
  - unfold lift, bind. rewrite split_lines_run. eexists _, _. split; [reflexivity|]. rewrite Hf2, Hl2, Hf. split_and!; eauto.
Qed.

(** find lists the names in strcmp order, nothing else and nothing less, however the daemon
    orders them, and fails only when a call or the host does. *)
Theorem find_sorted {G} `{GuestLaws G} (mkdtemp : string -> Z + string) (directory : string) (w : world G) :
  exists r w', guestfs__find mkdtemp directory w = (Ret r, w') /\
    listed mkdtemp (guest_find (w_guest w) directory) w r w'.
Proof.
  apply listing_run; [apply find_names|]. intros g local. exact (find0_law directory local (w <| w_g := g |>)).
Qed.

Lemma ls_sorted {G} `{GuestLaws G} (mkdtemp : string -> Z + string) (directory : string) (w : world G) :
  exists r w', guestfs__ls mkdtemp directory w = (Ret r, w') /\
    listed mkdtemp (guest_ls (w_guest w) directory) w r w'.
Proof.
  apply listing_run; [apply ls_names|]. intros g local. exact (ls0_law directory local (w <| w_g := g |>)).
Qed.

(** C31: What write or write_append puts in a file of the guest, read_file gives back, on either
    side of the limit of 2 MB above which the content goes through a temporary file of the host;
    other files are untouched, descriptors and temporary files are released. A file that is
    appended to with more than 2 MB has to exist. *)
Theorem write_then_read {G} `{GuestLaws G} (mkdtemp : string -> Z + string) (path : string)
    (content : list byte) (append : bool) (w : world G) :
  no_file "write" w -> host_ok w -> tmpdir_ok mkdtemp -> guest_up (w_guest w) ->
  (append = true -> Z.of_nat (length content) <= SMALL_WRITE \/ is_Some (guest_files (w_guest w) !! path)) ->
  exists w1 w2,
    (if append then guestfs__write_append else guestfs__write) mkdtemp path content w = (Ret 0, w1) /\
    guestfs__read_file mkdtemp path w1 =
      (Ret (Some ((if append then default [] (guest_files (w_guest w) !! path) else []) ++ content)), w2) /\
    guest_files (w_guest w2) = guest_files (w_guest w1) /\
    (forall other, other <> path -> guest_files (w_guest w1) !! other = guest_files (w_guest w) !! other) /\
    w_fds w2 = w_fds w /\ w_files w2 ⊆ w_files w.
Proof.
  intros Hn Hok Ht Hup Hready.
  destruct (write_or_append_run mkdtemp path content append w Hn) as (r & w1 & E & (Hf & Hl & Ho) & Hu & Hr).
  destruct Hr as [[-> Hg]|[_ Hno]]; [|exfalso; by apply Hno].
  destruct (read_file_run mkdtemp path w1) as (r & w2 & E2 & (Hf2 & Hl2 & _) & Hg2 & _ & Hr).
  rewrite Hg, lookup_insert_eq in Hr. exists w1, w2.
  split; [by destruct append|]. destruct r as [d|]; [simplify_eq|exfalso; apply Hr; by split_and!; [apply Ho|..|apply Hu|]].
  split_and!; [done|done|intros other Ho'; rewrite Hg; by apply lookup_insert_ne|by rewrite Hf2, Hf|by etransitivity].
Qed.

(** More than 2 MB cannot be appended to a file that does not exist, which write_append is
    documented to create, and does create for less. *)
Theorem large_append_needs_file {G} `{GuestLaws G} (mkdtemp : string -> Z + string) (path : string)
    (content : list byte) (w : world G) :
  no_file "write" w -> SMALL_WRITE < Z.of_nat (length content) -> guest_files (w_guest w) !! path = None ->
  exists w', guestfs__write_append mkdtemp path content w = (Ret (-1), w').
Proof.
  intros Hn Hbig Hnone. unfold guestfs__write_append, write_or_append.
  destruct (Z.leb_spec (Z.of_nat (length content)) SMALL_WRITE); [lia|].
  match goal with |- exists w', ?m w = _ =>
    enough (exists r w', m w = (Ret r, w') /\ r = -1) as (r & w' & E & ->) by eauto end.
  apply with_tmpfile_run; [|done]. intros g tmp _. set (w1 := w <| w_g := g |>).
  destruct (reached_write_whole w1 (w_fds w1) (w_files w1) tmp content w1 (reached_refl w1))
    as (ok & w2 & E & fs' & (Hf & Hl & Hg & Hok) & _). rewrite (bind_Ret _ _ _ _ _ E). destruct ok; [|by eexists _, _].
  cbn [negb]. destruct (filesize_law path w2) as (r & w3 & E3 & _ & _ & _ & _ & Hr). rewrite (bind_Ret _ _ _ _ _ E3).
  rewrite Hg in Hr. destruct Hr as [(d & Hd & _)|[-> _]]; [|by eexists _, _]. change (w_guest w1) with (w_guest w) in Hd.
  by rewrite Hnone in Hd.
Qed.

(** lstatlist returns one structure for each name, in order, however many names there are:
    the names are asked for 1000 at a time, and the nanosecond fields are dropped. *)
Theorem lstatlist_one_to_one {G} `{GuestCalls G} (dir : string) (names : list string) (f : string -> statns)
    (inv : world G -> Prop) (w : world G) :
  (forall w g, inv w -> inv (w <| w_g := g |>)) ->
  (forall ns w, (length ns <= LSTATNSLIST_MAX)%nat -> inv w ->
     exists w', guestfs_internal_lstatnslist dir ns w = (Ret (Some (f <$> ns)), w') /\ inv w') ->
  inv w ->
  exists w', guestfs__lstatlist dir names w = (Ret (Some ((fun n => statns_to_old_stat (f n)) <$> names)), w') /\ inv w'.
Proof.
  intros Hg Hcall Hw. unfold guestfs__lstatlist, guestfs_lstatnslist.
  destruct (api_run "lstatnslist" (arg_string dir +:+ arg_list names) (guestfs__lstatnslist dir names) w
    (fun r w' => r = Some (f <$> names) /\ inv w')) as (r & w' & E & -> & Hw').
  - intros g. unfold guestfs__lstatnslist, guestfs___count_strings.
    destruct (chunk_loop_groups free_struct_list (guestfs_internal_lstatnslist dir) LSTATNSLIST_MAX) with (fuel := length names) (names := names)
      as (groups & Ec & Hf & Hr); [unfold LSTATNSLIST_MAX; lia|lia|].
    destruct (ask_groups_map free_struct_list (guestfs_internal_lstatnslist dir) (fun n => [f n]) inv LSTATNSLIST_MAX)
      with (groups := groups) (acc := @nil statns) (w := w <| w_g := g |>) as (w' & E & Hw'); [|done|by apply Hg|].
    { intros ns w0 Hl Hw0. destruct (Hcall ns w0 Hl Hw0) as (w' & E & ?). exists w'. by rewrite E, list_fmap_alt. }
    exists (Some (f <$> names)), w'. rewrite Hr, E, Ec. split; [by rewrite list_fmap_alt|]. auto.
  - rewrite (bind_Ret _ _ _ _ _ E). eexists. split; [|exact Hw']. cbn. by rewrite <- list_fmap_compose.
Qed.

(** * Examples *)

(** A guest with files, and the directory "/" to list. *)
Definition ex_guest : Type := gmap string (list byte).
Definition ex_listing (directory : string) : option (list string) :=
  if STREQ directory "/" then Some ["tmp"; "etc"; "home"] else None.
Definition ex_statns (name : string) : statns :=
  mk_statns 1 (Z.of_nat (String.length name)) 33188 1 0 0 0 10 4096 8 100 1 200 2 300 3 0 0 0 0 0 0.

Definition ex_list0 (directory local : string) : fm ex_guest Z := fun w =>
  match ex_listing directory with
  | Some names => (Ret 0, w <| w_files ::= <[local := nul_terminated names]> |>)
  | None => (Ret (-1), w)
  end.

#[export] Instance ex_calls : GuestCalls ex_guest := {|
  guestfs_download path local w :=
    match w_guest w !! path with
    | Some d => (Ret 0, w <| w_files ::= <[local := d]> |>)
    | None => (Ret (-1), w)
    end;
  guestfs_find0 := ex_list0;
  guestfs_ls0 := ex_list0;
  guestfs_upload local path w :=
    match w_files w !! local with
    | Some d => (Ret 0, w <| w_guest ::= <[path := d]> |>)
    | None => (Ret (-1), w)
    end;
  guestfs_upload_offset local path off w :=
    match w_files w !! local with
    | Some d => (Ret 0, w <| w_guest ::= fun fs => <[path := splice (default [] (fs !! path)) (Z.to_nat off) d]> fs |>)
    | None => (Ret (-1), w)
    end;
  guestfs_filesize path w :=
    (Ret (match w_guest w !! path with Some d => Z.of_nat (length d) | None => -1 end), w);
  guestfs_internal_write path content w := (Ret 0, w <| w_guest ::= <[path := content]> |>);
  guestfs_internal_write_append path content w :=
    (Ret 0, w <| w_guest ::= fun fs => <[path := default [] (fs !! path) ++ content]> fs |>);
  guestfs_internal_lstatnslist dir names w := (Ret (Some (ex_statns <$> names)), w);
  guestfs_internal_lxattrlist dir names w := (Ret (Some ((fun n => mk_xattr n []) <$> names)), w);
  guestfs_internal_readlinklist dir names w :=
    (Ret (if decide ("gone" ∈ names) then None else Some ((fun _ => "") <$> names)), w);
  guestfs_statns path w := (Ret (Some (ex_statns path)), w);
  guestfs_lstatns path w := (Ret (Some (ex_statns path)), w)
|}.

Lemma ex_list0_law directory local (w : world ex_guest) :
  exists r w', ex_list0 directory local w = (Ret r, w') /\ same_host w w' /\
    delete local (w_files w') = delete local (w_files w) /\
    (r = 0 /\ (exists names, ex_listing directory = Some names /\ w_files w' !! local = Some (nul_terminated names)) \/
     r = -1 /\ (True -> ex_listing directory = None)).
Proof.
  unfold ex_list0. destruct (ex_listing directory) as [names|].
  - eexists _, _. split; [reflexivity|]. split; [by split_and!|]. cbn. split; [apply delete_insert_eq|].
    left. split; [done|]. exists names. split; [done|]. apply lookup_insert_eq.
  - eexists _, _. split; [reflexivity|]. split; [by split_and!|]. split; [done|]. by right.
Qed.

Lemma ex_listing_names directory names : ex_listing directory = Some names ->
  Forall (fun s => no_byte NUL (bytes_of_string s)) names.
Proof. unfold ex_listing. destruct (STREQ _ _); [|done]. intros [= <-]. by repeat constructor. Qed.

#[export] Instance ex_laws : GuestLaws ex_guest.
Proof.
  refine {| guest_files := fun fs => fs; guest_find := fun _ => ex_listing; guest_ls := fun _ => ex_listing;
            guest_up := fun _ => True; find0_law := ex_list0_law; ls0_law := ex_list0_law;
            find_names := fun _ => ex_listing_names; ls_names := fun _ => ex_listing_names |}; cbn; unfold ex_guest in *.
  - intros path local w. destruct (w_guest w !! path) as [d|]; (eexists _, _; split; [reflexivity|]);
      (split; [by split_and!|]); (split; [done|]); (split; [done|]); cbn.
    + split; [apply delete_insert_eq|]. left. split; [done|]. exists d. split; [done|]. apply lookup_insert_eq.
    + split; [done|]. by right.
  - intros local path w. destruct (w_files w !! local) as [d|]; (eexists _, _; split; [reflexivity|]);
      (split; [by split_and!|]); (split; [done|]); (split; [done|]); [left|by right]. split; [done|]. by exists d.
  - intros local path off w _. destruct (w_files w !! local) as [d|]; (eexists _, _; split; [reflexivity|]);
      (split; [by split_and!|]); (split; [done|]); (split; [done|]); [left|by right]. split; [done|]. by exists d.
  - intros path w. destruct (w_guest w !! path) as [d|]; (eexists _, _; split; [reflexivity|]);
      (split; [by split_and!|]); (split; [done|]); (split; [done|]); (split; [done|]); [left|by right]. by exists d.
  - intros path content w. eexists _, _. split; [reflexivity|]. split; [by split_and!|]. split; [done|]. split; [done|]. by left.
  - intros path content w. eexists _, _. split; [reflexivity|]. split; [by split_and!|]. split; [done|]. split; [done|]. by left.
Defined.

Definition ex_mkdtemp (template : string) : Z + string := inr "/tmp/libguestfsAB12CD".
Definition ex_world : world ex_guest := mk_world Handle.Examples.ex_handle ∅ ∅ [] false {["/log" := bytes_of_string "one"]}.

(** A second request that fails frees an array without its final NULL. *)
Lemma readlinklist_bad_free :
  fst (guestfs__readlinklist "/" (replicate 1000 "a" ++ ["gone"]) ex_world) = Stop Undefined.
Proof. by vm_compute. Qed.

(** A close that reports an error is followed by another close of the same number. *)
Lemma read_file_closes_twice :
  w_bad_close (snd (guestfs__read_file ex_mkdtemp "/log"
    (ex_world <| w_answers := [None; None; None; None; Some 5] |>))) = true.
Proof. by vm_compute. Qed.

Lemma read_lines_correct_witness :
  exists r w', guestfs__read_lines ex_mkdtemp "/log" ex_world = (Ret r, w') /\ r = Some [bytes_of_string "one"].
Proof.
  destruct (read_lines_correct ex_mkdtemp "/log" ex_world) as (r & w' & E & _ & _ & Hr). exists r, w'. split; [done|].
  destruct r as [ls|]; [destruct Hr as (d & Hd & ->); cbn in Hd; injection Hd as <-; reflexivity|].
  exfalso. apply Hr. split_and!; [constructor|intros t; by eexists|done|by eexists].
Defined.

Lemma find_sorted_witness :
  exists r w', guestfs__find ex_mkdtemp "/" ex_world = (Ret r, w') /\ r = Some ["etc"; "home"; "tmp"].
Proof.
  destruct (find_sorted ex_mkdtemp "/" ex_world) as (r & w' & E & _). exists r, w'. split; [exact E|].
  transitivity (match fst (guestfs__find ex_mkdtemp "/" ex_world) with Ret x => x | _ => None end); [by rewrite E|].
  by vm_compute.
Defined.

Lemma write_then_read_witness : exists w1 w2,
  guestfs__write_append ex_mkdtemp "/log" (bytes_of_string " two") ex_world = (Ret 0, w1) /\
  guestfs__read_file ex_mkdtemp "/log" w1 = (Ret (Some (bytes_of_string "one two")), w2).
Proof.
  destruct (write_then_read ex_mkdtemp "/log" (bytes_of_string " two") true ex_world) as (w1 & w2 & E1 & E2 & _).
  - intros d u. apply lookup_empty.
  - constructor.
  - intros t. by eexists.
  - exact I.
  - intros _. left. cbn. unfold SMALL_WRITE. lia.
  - exists w1, w2. split; [exact E1|]. exact E2.
Defined.

Lemma large_append_needs_file_witness : exists w',
  guestfs__write_append ex_mkdtemp "/new" (replicate (Z.to_nat 2097153) x61) ex_world = (Ret (-1), w').
Proof.
  apply large_append_needs_file.
  - intros d u. apply lookup_empty.
  - rewrite length_replicate, Z2Nat.id by lia. unfold SMALL_WRITE. lia.
  - reflexivity.
Defined.

Lemma lstatlist_one_to_one_witness : exists w',
  guestfs__lstatlist "/" (replicate 2500 "a") ex_world =
    (Ret (Some ((fun n => statns_to_old_stat (ex_statns n)) <$> replicate 2500 "a")), w').
Proof.
  destruct (lstatlist_one_to_one "/" (replicate 2500 "a") ex_statns (fun _ => True) ex_world) as (w' & E & _); [done| |done|].
  - intros ns w _ _. by exists w.
  - by exists w'.
Defined.
