(* ===== verification/Transfers.v ===== *)
(** The procedures of the daemon that send or receive a file through a program
    or from a directory: daemon/tar.c, daemon/compress.c, daemon/base64.c,
    daemon/cpio.c, ls0 of daemon/ls.c and daemon/find.c.

    The pipe to a program that popen (3) starts is the file of the transfer
    ([d_file] of DaemonProto.v); which file that is depends on the command
    line. *)

From S2P Require Import Prelude Xdr Protocol Handle Utils Conn LibProtoSpec DaemonProto DaemonSpec Command Guestfsd LibFile.
From Stdlib Require Import Ascii.

Open Scope Z_scope.
#[local] Arguments String.append : simpl nomatch.

(** * The outside *)

(** The results of readdir (3) and closedir (3); [None]: success. *)
Record dir_stream := mk_dir_stream {
  ds_names : list string;
  ds_readdir : option Z;
  ds_closedir : option Z
}.

Record transfer_world := mk_transfer_world {
  tw_sysroot : string;
  tw_popen : string -> guest_file;                 (* the pipe of a command *)
  tw_stat : string -> Z + bool;                    (* errno, or whether it is a directory *)
  tw_opendir : string -> Z + dir_stream;
  tw_prog_exists : string -> bool;
  tw_random_name : string -> Z + string;
  tw_open : string -> option Z;                    (* errno of creating a file *)
  tw_fchown : string -> option Z;
  tw_mkstemp : string -> Z + string;
  tw_read_file : string -> option (list byte);
  tw_exclude_write : list write_ev;
  tw_exclude_close : option Z
}.

Definition EPERM : Z := 1.
Definition ENOTSUP : Z := 95.

(** fread (3) of at most [n] bytes: the data, whether an error was met, and the
    results left.  The end of file stays. *)
Fixpoint fread_run (n : nat) (q : list read_ev) : list byte * bool * list read_ev :=
  if (n =? 0)%nat then ([], false, q) else
  match q with
  | [] => ([], false, [])
  | RdErr _ :: q' => ([], true, q')
  | RdData [] :: _ => ([], false, q)
  | RdData bs :: q' =>
      if (n <? length bs)%nat then (take n bs, false, RdData (drop n bs) :: q')
      else let '(x, e, q'') := fread_run (n - length bs) q' in (bs ++ x, e, q'')
  end.

Definition strchr_newline (s : string) : bool := negb (bool_decide (no_byte LF (bytes_of_string s))).

Section transfers.
Context (W : transfer_world).

Definition reply_and {A} (m : dm unit) (r : A) : dm A := m ;;; ret r.
Definition shell_quote (s : string) : string := print_shell_quote s.
Definition sysroot_quote (s : string) : string := print_sysroot_shell_quote (tw_sysroot W) s.

(** popen (3): nothing has been written to the new pipe. *)
Definition new_pipe (f : guest_file) : guest_file := f <| gf_offset := 0 |> <| gf_data := [] |>.
Definition popen (cmd : string) : dm (option Z) := fun d =>
  let d := d <| d_file := new_pipe (tw_popen W cmd) |> in (Ret (gf_open (d_file d)), d).
Definition fread : dm (list byte * bool) := fun d =>
  let '(buf, e, q) := fread_run (Z.to_nat GUESTFS_MAX_CHUNK_SIZE) (gf_read (d_file d)) in
  (Ret (buf, e), d <| d_file; gf_read := q |>).
(** pclose (3) returns something else than 0. *)
Definition pclose_fails : dm bool := gets (fun d => match gf_close (d_file d) with Some _ => true | None => false end).

(** ** Sending the output of a program *)

(** [while ((r = fread (..)) > 0)]: [None] when [send_file_write] failed,
    otherwise whether [ferror (fp)].  Every turn but the last reads something. *)
Fixpoint output_loop (fuel : nat) (err : bool) : dm (option bool) :=
  let* (buf, e) := fread in
  let err := err || e in
  match buf with
  | [] => ret (Some err)
  | _ =>
      match fuel with
      | O => halt OutOfFuel
      | S fuel' =>
          r <- send_file_write buf ;;
          if r <? 0 then ret None else output_loop fuel' err
      end
  end.

(** From the reply on, when the data has been sent and the transfer is closed. *)
Definition close_output : dm Z :=
  bad <- pclose_fails ;;
  if bad : bool then send_file_end 1 ;;; ret (-1)
  else r <- send_file_end 0 ;; if is_true r then ret (-1) else ret 0.
Definition send_output : dm Z := fun d =>
  (DaemonProto.reply None ;;;
   r <- output_loop (script_bytes (gf_read (d_file d))) false ;;
   match r with
   | None => ret (-1)
   | Some true => send_file_end 1 ;;; ret (-1)
   | Some false => close_output
   end) d.
(** popen and the rest. *)
Definition run_output (cmd : string) : dm Z :=
  e <- popen cmd ;;
  match e with
  | Some e => reply_and (reply_with_perror_errno e cmd) (-1)
  | None => send_output
  end.

(** stat of the sysroot path: [true] when it is a directory. *)
Definition stat_isdir (dir : string) (display : string) (k : bool -> dm Z) : dm Z :=
  match tw_stat W (tw_sysroot W +:+ dir) with
  | inl e => reply_and (reply_with_perror_errno e display) (-1)
  | inr isdir => k isdir
  end.

(** * daemon/compress.c *)

Definition do_compressX_out (file filter : string) (is_device : bool) : dm Z :=
  run_output (if negb is_device then filter +:+ " " +:+ sysroot_quote file
              else filter +:+ " < " +:+ shell_quote file).

Definition not_available (prog : string) : string :=
  "compression type " +:+ prog +:+ " is not supported, because external program '" +:+ prog +:+
  "' is not available in the appliance".
(** The program [prog] with the levels it has. *)
Definition level_filter (prog : string) (lowest level : Z) : dm (option string) :=
  if negb (tw_prog_exists W prog) then reply_and (reply_with_error_errno ENOTSUP (bytes_of_string (not_available prog))) None
  else if level =? -1 then ret (Some (prog +:+ " -c"))
  else if (lowest <=? level) && (level <=? 9) then ret (Some (prog +:+ " -c -" +:+ pretty level))
  else reply_and (DaemonProto.reply_with_error (prog +:+ ": incorrect value for level parameter")) None.
Definition get_filter (ctype : string) (level : Z) : dm (option string) :=
  if STREQ ctype "compress" then
    if negb (tw_prog_exists W "compress")
    then reply_and (reply_with_error_errno ENOTSUP (bytes_of_string (not_available "compress"))) None
    else if negb (level =? -1)
    then reply_and (DaemonProto.reply_with_error "compress: cannot use optional level parameter with this compression type") None
    else ret (Some "compress -c")
  else if STREQ ctype "gzip" then level_filter "gzip" 1 level
  else if STREQ ctype "bzip2" then level_filter "bzip2" 1 level
  else if STREQ ctype "xz" then level_filter "xz" 0 level
  else if STREQ ctype "lzop" then level_filter "lzop" 1 level
  else reply_and (DaemonProto.reply_with_error "unknown compression type") None.
Definition compress_with (ctype file : string) (level : Z) (is_device : bool) : dm Z := fun d =>
  let level := if Z.testbit (d_optargs_bitmask d) 0 then level else -1 in
  (filter <- get_filter ctype level ;;
   match filter with
   | None => ret (-1)
   | Some filter => do_compressX_out file filter is_device
   end) d.
Definition do_compress_out (ctype file : string) (level : Z) : dm Z := compress_with ctype file level false.
Definition do_compress_device_out (ctype file : string) (level : Z) : dm Z := compress_with ctype file level true.

(** * daemon/base64.c *)

Definition do_base64_out (file : string) : dm Z :=
  stat_isdir file ("stat: " +:+ file) (fun isdir =>
    if isdir : bool then reply_and (DaemonProto.reply_with_error (file +:+ ": is a directory")) (-1)
    else run_output ("base64 " +:+ shell_quote (tw_sysroot W +:+ file))).

(** write_cb, which is the same in daemon/tar.c. *)
Definition pipe_write_cb (buf : list byte) : dm Z := xwrite_file buf.
(** An error before the transfer: the rest of the file is received first. *)
Definition cancel_and (m : dm unit) : dm Z := cancel_receive ;;; m ;;; ret (-1).

Definition do_base64_in (file : string) : dm Z :=
  let cmd := "base64 -d -i > " +:+ sysroot_quote file in
  e <- popen cmd ;;
  match e with
  | Some e => cancel_and (reply_with_perror_errno e cmd)
  | None =>
      r <- receive_file (Some pipe_write_cb) ;;
      if r =? -1 then cancel_and (DaemonProto.reply_with_error ("write error on file: " +:+ file))
      else if r =? -2 then reply_and (DaemonProto.reply_with_error "file upload cancelled") (-1)
      else
        bad <- pclose_fails ;;
        if bad : bool then reply_and (DaemonProto.reply_with_error ("base64 subcommand failed on file: " +:+ file)) (-1)
        else ret 0
  end.

(** * daemon/cpio.c *)

Definition do_cpio_out (dir format : string) : dm Z := fun d =>
  stat_isdir dir ("stat: " +:+ dir) (fun isdir =>
    if negb isdir then reply_and (DaemonProto.reply_with_error (dir +:+ ": not a directory")) (-1)
    else
      let given := Z.testbit (d_optargs_bitmask d) 0 in
      if given && STRNEQ format "newc" && STRNEQ format "crc"
      then reply_and (DaemonProto.reply_with_error (format +:+ ": format must be 'newc' or 'crc'")) (-1)
      else run_output ("cd " +:+ shell_quote (tw_sysroot W +:+ dir) +:+ " && find -print0 | cpio -0 -o -H " +:+
                       (if given then format else "newc") +:+ " --quiet")) d.

(** * daemon/tar.c *)

Definition optgroup_xz_available : bool := tw_prog_exists W "xz".

(** 1, 0, or -1 after the transfer was cancelled and an error was replied. *)
Definition is_chown_supported (dir : string) : dm Z :=
  match tw_random_name W (tw_sysroot W +:+ dir +:+ "/XXXXXXXX.XXX") with
  | inl e => cancel_and (reply_with_perror_errno e "random_name")
  | inr buf =>
      match tw_open W buf with
      | Some e => cancel_and (reply_with_perror_errno e dir)
      | None =>
          match tw_fchown W buf with
          | Some e => if e =? EPERM then ret 0 else cancel_and (reply_with_perror_errno e "unexpected error in fchown")
          | None => ret 1
          end
      end
  end.

(** Without one final newline; the string ends at the first NUL. *)
Definition strip_newline (bs : list byte) : list byte :=
  match rev bs with
  | b :: r => if Byte.eqb b LF then rev r else bs
  | [] => bs
  end.
Definition read_error_file (error_file : string) : string :=
  match tw_read_file W error_file with
  | None => "(no error)"
  | Some str => string_of_bytes (until_nul (strip_newline str))
  end.

Definition compress_filter (compress : string) : option string :=
  if STREQ compress "compress" then Some " --compress"
  else if STREQ compress "gzip" then Some " --gzip"
  else if STREQ compress "bzip2" then Some " --bzip2"
  else if STREQ compress "xz" then Some " --xz"
  else if STREQ compress "lzop" then Some " --lzop"
  else None.
Definition filter_for (mask : Z) (compress : string) : option string :=
  if Z.testbit mask 0 then compress_filter compress else Some "".

Definition tar_in_command (dir filter error_file : string) (chown_supported : Z) : string :=
  "tar -C " +:+ sysroot_quote dir +:+ filter +:+ " -xf - " +:+
  (if is_true chown_supported then "" else "--no-same-owner ") +:+ "2> " +:+ error_file.

(** From [popen] on. *)
Definition tar_in_run (dir cmd error_file : string) : dm Z :=
  e <- popen cmd ;;
  match e with
  | Some e => cancel_and (reply_with_perror_errno e cmd)
  | None =>
      r <- receive_file (Some pipe_write_cb) ;;
      if r =? -1 then
        cancel_and (DaemonProto.reply_with_error
          ("write error on directory: " +:+ dir +:+ ": " +:+ read_error_file error_file))
      else if r =? -2 then reply_and (DaemonProto.reply_with_error "file upload cancelled") (-1)
      else
        bad <- pclose_fails ;;
        if bad : bool then
          reply_and (DaemonProto.reply_with_error
            ("tar subcommand failed on directory: " +:+ dir +:+ ": " +:+ read_error_file error_file)) (-1)
        else ret 0
  end.

Definition do_tar_in (dir compress : string) : dm Z :=
  chown_supported <- is_chown_supported dir ;;
  if chown_supported =? -1 then ret (-1) else
  fun d =>
  match filter_for (d_optargs_bitmask d) compress with
  | None => reply_and (DaemonProto.reply_with_error ("unknown compression type: " +:+ compress)) (-1) d
  | Some filter =>
      match tw_mkstemp W "/tmp/tarXXXXXX" with
      | inl e => cancel_and (reply_with_perror_errno e "mkstemp") d
      | inr error_file => tar_in_run dir (tar_in_command dir filter error_file chown_supported) error_file d
      end
  end.
Definition do_tgz_in (dir : string) : dm Z := modify (fun d => d <| d_optargs_bitmask := 1 |>) ;;; do_tar_in dir "gzip".
Definition do_txz_in (dir : string) : dm Z := modify (fun d => d <| d_optargs_bitmask := 1 |>) ;;; do_tar_in dir "xz".

(** The patterns that are written before one with a newline, or a failed write. *)
Fixpoint write_excludes (excludes : list string) (q : list write_ev) : dm bool :=
  match excludes with
  | [] => ret true
  | x :: excludes' =>
      if strchr_newline x
      then reply_and (DaemonProto.reply_with_error "tar-out: excludes file patterns cannot contain \n character") false
      else
        let '(r, _, q) := xwrite_run q (bytes_of_string x) in
        match r with
        | Some e => reply_and (reply_with_perror_errno e "write") false
        | None =>
            let '(r, _, q) := xwrite_run q [LF] in
            match r with
            | Some e => reply_and (reply_with_perror_errno e "write") false
            | None => write_excludes excludes' q
            end
        end
  end.
Definition make_exclude_from_file (excludes : list string) : dm (option string) :=
  match tw_mkstemp W "/tmp/excludesXXXXXX" with
  | inl e => reply_and (reply_with_perror_errno e "mkstemp") None
  | inr template =>
      ok <- write_excludes excludes (tw_exclude_write W) ;;
      if negb ok then ret None
      else match tw_exclude_close W with
           | Some e => reply_and (reply_with_perror_errno e "close") None
           | None => ret (Some template)
           end
  end.

Definition tar_out_command (dir filter : string) (numericowner : bool) (exclude_from_file : option string) : string :=
  "tar -C " +:+ shell_quote (tw_sysroot W +:+ dir) +:+ filter +:+ (if numericowner then " --numeric-owner" else "") +:+
  (match exclude_from_file with Some f => " -X " +:+ f | None => "" end) +:+ " -cf - .".

Definition do_tar_out (dir compress : string) (numericowner : bool) (excludes : list string) : dm Z := fun d =>
  let mask := d_optargs_bitmask d in
  (match filter_for mask compress with
   | None => reply_and (DaemonProto.reply_with_error ("unknown compression type: " +:+ compress)) (-1)
   | Some filter =>
       let numericowner := Z.testbit mask 1 && numericowner in
       x <- (if Z.testbit mask 2 then (f <- make_exclude_from_file excludes ;; ret (Some <$> f)) else ret (Some None)) ;;
       match x with
       | None => ret (-1)
       | Some exclude_from_file =>
           stat_isdir dir ("stat: " +:+ dir) (fun isdir =>
             if negb isdir then reply_and (DaemonProto.reply_with_error (dir +:+ ": not a directory")) (-1)
             else run_output (tar_out_command dir filter numericowner exclude_from_file))
       end
   end) d.
Definition do_tgz_out (dir : string) : dm Z := modify (fun d => d <| d_optargs_bitmask := 1 |>) ;;; do_tar_out dir "gzip" false [].
Definition do_txz_out (dir : string) : dm Z := modify (fun d => d <| d_optargs_bitmask := 1 |>) ;;; do_tar_out dir "xz" false [].

(** * daemon/ls.c *)

(** The loop over the directory: whether every name was sent. *)
Fixpoint ls_loop (names : list string) : dm bool :=
  match names with
  | [] => ret true
  | d_name :: names' =>
      if STREQ d_name "." || STREQ d_name ".." then ls_loop names'
      else
        r <- send_file_write (bytes_of_string d_name ++ [NUL]) ;;
        if r <? 0 then ret false else ls_loop names'
  end.
Definition do_ls0 (path : string) : dm Z :=
  match tw_opendir W path with
  | inl e => reply_and (reply_with_perror_errno e ("opendir: " +:+ path)) (-1)
  | inr dir =>
      DaemonProto.reply None ;;;
      ok <- ls_loop (ds_names dir) ;;
      if negb ok then ret (-1) else
      match ds_readdir dir, ds_closedir dir with
      | Some _, _ | None, Some _ => send_file_end 1 ;;; ret (-1)
      | None, None => r <- send_file_end 0 ;; if is_true r then ret (-1) else ret 0
      end
  end.

(** * daemon/find.c *)

(** What the stream gives before its end or the first error, and whether that
    was an error. *)
Fixpoint stream_of (q : list read_ev) : list byte * bool :=
  match q with
  | [] | RdData [] :: _ => ([], false)
  | RdErr _ :: _ => ([], true)
  | RdData bs :: q' => let '(x, e) := stream_of q' in (bs ++ x, e)
  end.

(** [inr (str, rest)]: a string with its NUL; [inl 0]: the end; [inl (-1)]: too long. *)
Fixpoint input_to_nul (maxlen : nat) (input : list byte) : Z + list byte * list byte :=
  match maxlen, input with
  | O, _ => inl (-1)
  | _, [] => inl 0
  | S maxlen', c :: input' =>
      if Byte.eqb c NUL then inr ([c], input')
      else match input_to_nul maxlen' input' with
           | inr (str, rest) => inr (c :: str, rest)
           | inl r => inl r
           end
  end.
Definition too_long : string := "input_to_nul: input string too long".

(** [None] when [send_file_write] failed, otherwise whether a string was too
    long; each turn takes one from the input. *)
Fixpoint find_loop (fuel : nat) (sysrootdirlen : nat) (input : list byte) : dm (option bool) :=
  match fuel with
  | O => halt OutOfFuel
  | S fuel' =>
      match input_to_nul (Z.to_nat GUESTFS_MAX_CHUNK_SIZE) input with
      | inl r => (if r =? -1 then DaemonProto.reply_with_error too_long else ret tt) ;;; ret (Some (r =? -1))
      | inr (str, rest) =>
          if (length str - 1 <=? sysrootdirlen)%nat then find_loop fuel' sysrootdirlen rest
          else
            r <- send_file_write (drop sysrootdirlen str) ;;
            if r <? 0 then ret None else find_loop fuel' sysrootdirlen rest
      end
  end.
Definition find_command (sysrootdir : string) : string := "find " +:+ shell_quote sysrootdir +:+ " -print0".
Definition do_find0 (dir : string) : dm Z :=
  let sysrootdir := tw_sysroot W +:+ dir in
  stat_isdir dir dir (fun isdir =>
    if negb isdir then reply_and (DaemonProto.reply_with_error (dir +:+ ": not a directory")) (-1)
    else
      e <- popen (find_command sysrootdir) ;;
      match e with
      | Some e => reply_and (reply_with_perror_errno e (find_command sysrootdir)) (-1)
      | None => fun d =>
          let '(input, err) := stream_of (gf_read (d_file d)) in
          (DaemonProto.reply None ;;;
           r <- find_loop (S (length input)) (String.length sysrootdir) input ;;
           match r with
           | None => ret (-1)
           | Some long => if err && negb long then send_file_end 1 ;;; ret (-1) else close_output
           end) d
      end).
End transfers.

(** * Sending: what goes over the wire *)

(** Chunks without progress messages between them. *)
Definition pieces_of (pieces : list (list byte)) : list (list guestfs_progress * list byte) := (fun p => ([], p)) <$> pieces.
Definition data_wire (pieces : list (list byte)) : list byte := concat (down_item <$> pieces_of pieces).

(** The pieces were sent, or the library cancelled after some of them. *)
Definition sent_pieces (cancel : bool) (rest : list byte) (pieces : list (list byte)) (d d' : daemon) (ok : bool) : Prop :=
  if ok then dex [] (data_wire pieces) d d' /\ cancel_state cancel rest d'
  else cancel = true /\ exists p1, p1 `prefix_of` pieces /\
       dex (flag_word GUESTFS_CANCEL_FLAG) (data_wire p1 ++ cancel_frame) d d' /\ d_inbox d' = rest.

Lemma data_wire_cons p ps : data_wire (p :: ps) = chunk_frame (mk_chunk 0 p) ++ data_wire ps.
Proof. reflexivity. Qed.
Lemma sent_cons cancel rest p ps d d1 d' ok :
  dex [] (chunk_frame (mk_chunk 0 p)) d d1 -> sent_pieces cancel rest ps d1 d' ok -> sent_pieces cancel rest (p :: ps) d d' ok.
Proof.
  intros X1 Hs. destruct ok; cbn [sent_pieces] in *.
  - destruct Hs as [X2 Hc]. split; [|done]. exact (dex_trans _ _ _ _ _ _ _ X1 X2).
  - destruct Hs as (-> & p1 & [k ->] & X2 & Hi). split; [done|]. exists (p :: p1). split; [by exists k|]. split; [|done].
    rewrite data_wire_cons, <- app_assoc. exact (dex_trans _ _ _ _ _ _ _ X1 X2).
Qed.

(** ** fread *)

Lemma stream_data x q : x <> [] -> stream_of (RdData x :: q) = (x ++ fst (stream_of q), snd (stream_of q)).
Proof. intros Hx. destruct x; [done|]. cbn [stream_of]. by destruct (stream_of q). Qed.

Lemma fread_run_spec : forall q n buf e q', fread_run n q = (buf, e, q') -> (0 < n)%nat ->
  (length buf <= n)%nat /\ (length buf + script_bytes q' <= script_bytes q)%nat /\
  if e then snd (stream_of q) = true
  else stream_of q = (buf ++ fst (stream_of q'), snd (stream_of q')) /\ (buf = [] -> stream_of q = ([], false)).
Proof.
  induction q as [|[bs|e0] q IH]; intros n buf e q' E Hn; cbn [fread_run] in E;
    rewrite (proj2 (Nat.eqb_neq n 0)) in E by lia; [simplify_eq; by split_and!; [cbn; lia..| |]| |simplify_eq; by split_and!; [cbn; lia..|]].
  destruct (decide (bs = [])) as [->|Hx]; [by simplify_eq; split_and!; [cbn; lia..| |]|].
  rewrite stream_data by done. replace (match bs with [] => _ | _ => _ end) with
    (if (n <? length bs)%nat then (take n bs, false, RdData (drop n bs) :: q)
     else let '(x, e, q'') := fread_run (n - length bs) q in (bs ++ x, e, q'')) in E by by destruct bs.
  destruct (Nat.ltb_spec n (length bs)) as [Hlt|Hge].
  - injection E as <- <- <-. rewrite length_take.
    assert (take n bs <> []) as Ht by (intros Ht; apply (f_equal length) in Ht; rewrite length_take in Ht; cbn in Ht; lia).
    assert (drop n bs <> []) as Hdr by (intros Hd; apply (f_equal length) in Hd; rewrite length_drop in Hd; cbn in Hd; lia).
    split_and!; [lia|cbn; rewrite length_drop; lia| |by intros ?].
    rewrite stream_data by done. cbn [fst snd]. by rewrite app_assoc, take_drop.
  - destruct (decide (n = length bs)) as [->|Hne].
    { rewrite Nat.sub_diag in E. replace (fread_run 0 q) with (@nil byte, false, q) in E by by destruct q.
      rewrite app_nil_r in E. injection E as <- <- <-. by split_and!; [lia|cbn; lia| |]. }
    destruct (fread_run (n - length bs) q) as [[y e1] q1] eqn:Er. injection E as <- <- <-.
    destruct (IH _ _ _ _ Er ltac:(lia)) as (H1 & H2 & H3). rewrite length_app. split; [lia|]. split; [cbn; lia|].
    destruct e1; [done|]. destruct H3 as [-> _]. cbn [fst snd]. rewrite app_assoc. split; [done|].
    intros [? _]%app_nil. done.
Qed.

(** ** The loops *)

Section loops.
Context (W : transfer_world) (cancel : bool) (rest : list byte).

Lemma output_loop_spec : forall fuel err d, d_healthy d -> cancel_state cancel rest d ->
  (script_bytes (gf_read (d_file d)) <= fuel)%nat ->
  exists r d' pieces, output_loop fuel err d = (Ret r, d') /\ Forall block_ok pieces /\
    gf_close (d_file d') = gf_close (d_file d) /\
    sent_pieces cancel rest pieces d d' (match r with Some _ => true | None => false end) /\
    match r with
    | Some false => err = false /\ stream_of (gf_read (d_file d)) = (concat pieces, false)
    | Some true => err = true \/ snd (stream_of (gf_read (d_file d))) = true
    | None => True
    end.
Proof.
  induction fuel as [|fuel IH]; intros err d Hd Hc Hf; cbn [output_loop]; unfold fread, bind at 1;
    destruct (fread_run _ (gf_read (d_file d))) as [[buf e] q] eqn:Er;
    destruct (fread_run_spec _ _ _ _ _ Er ltac:(unfold GUESTFS_MAX_CHUNK_SIZE; lia)) as (Hl & Hb & He);
    set (d1 := d <| d_file; gf_read := q |>);
    (assert (dex [] [] d d1) as X1 by by apply dex_upd);
    (destruct buf as [|b buf];
     [exists (Some (err || e)), d1, []; split_and!; [done|done|done|split; [exact X1|by destruct Hc]|];
      destruct e; rewrite ?orb_true_r, ?orb_false_r; [by right|destruct He as [_ He]; destruct err; by eauto]|]).
  { cbn in Hb. lia. }
  set (blk := b :: buf) in *.
  assert (block_ok blk) as Hbl by (split; [done|unfold zlength, GUESTFS_MAX_CHUNK_SIZE in *; lia]).
  assert (cancel_state cancel rest d1) as Hc1 by by destruct Hc.
  destruct (send_file_write_spec blk cancel rest d1 (dx_healthy _ _ _ _ X1) Hc1 (proj2 Hbl)) as (r & d2 & E2 & F2 & Hr). mstep E2.
  destruct Hr as [(-> & X2 & Hc2)|(-> & Ec & X2 & Hi)]; cbn [Z.ltb Z.compare].
  - destruct (IH (err || e) d2) as (r & d' & ps & E3 & Hps & Hcl & Hs & Hres); [by destruct X2|done|rewrite F2; cbn in Hb |- *; lia|].
    exists r, d', (blk :: ps). split_and!; [done|by constructor|by rewrite Hcl, F2|by eapply sent_cons; [exact (dex_trans _ _ _ _ _ _ _ X1 X2)|]|].
    rewrite F2 in Hres. cbn [d_file gf_read] in Hres. destruct r as [[]|]; [|destruct Hres as [[-> ->]%orb_false_iff Hcat]|done].
    + destruct Hres as [[->| ->]%orb_true_iff|Hres]; [by left|by right|right]. destruct e; [done|]. by destruct He as [-> _].
    + split; [done|]. destruct He as [-> _]. change (gf_read (d_file d1)) with q in Hcat. by rewrite Hcat.
  - exists None, d2, []. split_and!; [done|done|by rewrite F2| |done]. split; [done|]. exists []. split; [done|]. split; [|done].
    exact (dex_trans _ _ _ _ _ _ _ X1 X2).
Qed.

(** A directory entry has no longer name. *)
Definition NAME_MAX : nat := 255.
(** The names that are listed. *)
Definition is_listed (name : string) : bool := negb (STREQ name "." || STREQ name "..").
Lemma ls_loop_spec : forall names d, d_healthy d -> cancel_state cancel rest d ->
  Forall (fun n => (String.length n <= NAME_MAX)%nat) names ->
  exists ok d', ls_loop names d = (Ret ok, d') /\
    sent_pieces cancel rest ((fun n => bytes_of_string n ++ [NUL]) <$> List.filter is_listed names) d d' ok.
Proof.
  induction names as [|n names IH]; intros d Hd Hc Hn; cbn [ls_loop].
  { exists true, d. split; [done|]. split; [by apply dex_refl|done]. }
  apply Forall_cons in Hn as [Hlen Hn]. cbn beta in Hlen. cbn [List.filter]. unfold is_listed at 1.
  destruct (STREQ n "." || STREQ n "..") eqn:Edot; cbn [negb]; [by apply IH|].
  assert (zlength (bytes_of_string n ++ [NUL]) <= GUESTFS_MAX_CHUNK_SIZE) as Hz.
  { unfold zlength. rewrite length_app, length_bytes_of_string. unfold GUESTFS_MAX_CHUNK_SIZE, NAME_MAX in *. cbn [length]. lia. }
  destruct (send_file_write_spec _ cancel rest d Hd Hc Hz) as (r & d1 & E1 & _ & Hr). mstep E1.
  destruct Hr as [(-> & X & Hc1)|(-> & Ec & X & Hi)]; cbn [Z.ltb Z.compare].
  - destruct (IH d1) as (ok & d' & -> & Hs); [by destruct X|done..|]. exists ok, d'. split; [done|]. by eapply sent_cons.
  - exists false, d1. split; [done|]. split; [done|]. exists []. split; [apply prefix_nil|]. by split.
Qed.
End loops.

(** * How a transfer to the library ends *)

(** Refused with an error; complete; cut off by a failure, with the mark that
    tells the library so; cancelled by the library.  [D]: what is sent when it
    is complete; [bad]: something failed. *)
Inductive output_end (D : list byte -> Prop) (bad : Prop) (cancel : bool) (rest : list byte) (d d' : daemon) : Z -> Prop :=
  | out_refused e : error_fits e = true -> bad -> dex [] (error_reply d e) d d' -> output_end D bad cancel rest d d' (-1)
  | out_complete pieces : Forall block_ok pieces -> D (concat pieces) ->
      dex [] (download_wire d (pieces_of pieces) [] (mk_chunk 0 [])) d d' -> output_end D bad cancel rest d d' 0
  | out_failed pieces : Forall block_ok pieces -> bad ->
      dex [] (download_wire d (pieces_of pieces) [] (mk_chunk 1 [])) d d' -> output_end D bad cancel rest d d' (-1)
  | out_cancelled pieces : Forall block_ok pieces -> cancel = true ->
      dex (flag_word GUESTFS_CANCEL_FLAG) (download_wire d (pieces_of pieces) [] (mk_chunk 1 [])) d d' ->
      d_inbox d' = rest -> output_end D bad cancel rest d d' (-1).

Lemma download_wire_pieces d pieces term :
  download_wire d (pieces_of pieces) [] term = ok_reply d [] ++ data_wire pieces ++ chunk_frame term.
Proof. reflexivity. Qed.

Section endings.
Context (D : list byte -> Prop) (bad : Prop) (cancel : bool) (rest : list byte).
#[local] Notation out_end := (output_end D bad cancel rest).

Lemma end_refused d m (errmsg : dm unit) :
  errmsg = reply_with_error m \/ (exists e, errmsg = reply_with_perror_errno e m) -> d_healthy d -> bad ->
  exists r d', reply_and errmsg (-1) d = (Ret r, d') /\ out_end d d' r.
Proof.
  intros Hm Hd Hb. destruct (then_error d d m errmsg [] [] (-1) Hm (dex_refl d Hd)) as (e & d' & E & Hf & X & _).
  exists (-1), d'. split; [exact E|]. by apply (out_refused _ _ _ _ _ _ e).
Qed.

(** The terminator, after the reply and all the pieces. *)
Lemma end_with d0 d pieces c : dex [] (ok_reply d0 [] ++ data_wire pieces) d0 d -> chunk_fits (mk_chunk c []) = true ->
  exists d', send_file_end c d = (Ret 0, d') /\ dex [] (download_wire d0 (pieces_of pieces) [] (mk_chunk c [])) d0 d'.
Proof.
  intros X Hc. destruct (send_chunk_spec (mk_chunk c []) d (dx_healthy _ _ _ _ X) Hc) as (d1 & E1 & X1 & _).
  exists d1. split; [exact E1|]. rewrite download_wire_pieces, app_assoc. exact (dex_trans _ _ _ _ _ _ _ X X1).
Qed.
Lemma end_failed d0 d pieces : dex [] (ok_reply d0 [] ++ data_wire pieces) d0 d -> Forall block_ok pieces -> bad ->
  exists r d', (send_file_end 1 ;;; ret (-1)) d = (Ret r, d') /\ out_end d0 d' r.
Proof.
  intros X Hp Hb. destruct (end_with d0 d pieces 1 X eq_refl) as (d1 & E1 & X1). mstep E1.
  exists (-1), d1. split; [done|]. by apply (out_failed _ _ _ _ _ _ pieces).
Qed.
Lemma end_complete d0 d pieces : dex [] (ok_reply d0 [] ++ data_wire pieces) d0 d -> Forall block_ok pieces -> D (concat pieces) ->
  exists r d', (r <- send_file_end 0 ;; if is_true r then ret (-1) else ret 0) d = (Ret r, d') /\ out_end d0 d' r.
Proof.
  intros X Hp HD. destruct (end_with d0 d pieces 0 X eq_refl) as (d1 & E1 & X1). mstep E1.
  exists 0, d1. split; [done|]. by apply (out_complete _ _ _ _ _ _ pieces).
Qed.
Lemma end_cancelled d0 d d' pieces : dex [] (ok_reply d0 []) d0 d -> sent_pieces cancel rest pieces d d' false ->
  Forall block_ok pieces -> out_end d0 d' (-1).
Proof.
  intros X (Hc & p1 & [k ->] & X1 & Hi) [Hp _]%Forall_app. apply (out_cancelled _ _ _ _ _ _ p1); [done|done| |done].
  rewrite download_wire_pieces. exact (dex_trans _ _ _ _ _ _ _ X X1).
Qed.
End endings.

(** The program's whole output, when it did not fail. *)
Definition printed (f : guest_file) (data : list byte) : Prop :=
  gf_open f = None /\ stream_of (gf_read f) = (data, false) /\ gf_close f = None.
Definition program_ok (f : guest_file) : Prop := exists data, printed f data.

Lemma output_end_from D bad cancel rest d d1 d' r : dex [] [] d d1 ->
  output_end D bad cancel rest d1 d' r -> output_end D bad cancel rest d d' r.
Proof.
  intros X [e Hf Hb X1|ps Hp HD X1|ps Hp Hb X1|ps Hp Hc X1 Hi].
  - apply (out_refused _ _ _ _ _ _ e); [done|done|]. rewrite <- (error_reply_same d d1) by apply X. exact (dex_trans _ _ _ _ _ _ _ X X1).
  - apply (out_complete _ _ _ _ _ _ ps); [done|done|]. rewrite download_wire_pieces in *. unfold ok_reply in *.
    rewrite (reply_header_same d d1) in X1 by apply X. exact (dex_trans _ _ _ _ _ _ _ X X1).
  - apply (out_failed _ _ _ _ _ _ ps); [done|done|]. rewrite download_wire_pieces in *. unfold ok_reply in *.
    rewrite (reply_header_same d d1) in X1 by apply X. exact (dex_trans _ _ _ _ _ _ _ X X1).
  - apply (out_cancelled _ _ _ _ _ _ ps); [done|done| |done]. rewrite download_wire_pieces in *. unfold ok_reply in *.
    rewrite (reply_header_same d d1) in X1 by apply X. exact (dex_trans _ _ _ _ _ _ _ X X1).
Qed.
Lemma output_end_mono (D D' : list byte -> Prop) (bad bad' : Prop) cancel rest d d' r :
  (forall x, D x -> D' x) -> (bad -> bad') -> output_end D bad cancel rest d d' r -> output_end D' bad' cancel rest d d' r.
Proof. intros HD Hb []; [eapply out_refused|eapply out_complete|eapply out_failed|eapply out_cancelled]; eauto. Qed.

Section programs.
Context (W : transfer_world) (cancel : bool) (rest : list byte).

Lemma popen_spec cmd d : d_healthy d -> cancel_state cancel rest d ->
  exists d1, popen W cmd d = (Ret (gf_open (tw_popen W cmd)), d1) /\ dex [] [] d d1 /\ cancel_state cancel rest d1 /\
    d_file d1 = new_pipe (tw_popen W cmd).
Proof.
  intros Hd Hc. eexists. split; [reflexivity|]. split; [by apply dex_upd|]. split; [|done]. by destruct Hc.
Qed.
Lemma reply_cancel_state d d1 : dex [] (ok_reply d []) d d1 -> d_select d1 = d_select d ->
  cancel_state cancel rest d -> cancel_state cancel rest d1.
Proof. intros X Hs [Hi Hc]. split; [|by rewrite Hs]. pose proof (dx_in _ _ _ _ X) as E. cbn in E. congruence. Qed.

Lemma close_output_spec D (bad : Prop) d0 d pieces :
  dex [] (ok_reply d0 [] ++ data_wire pieces) d0 d -> Forall block_ok pieces ->
  (gf_close (d_file d) = None -> D (concat pieces)) -> (gf_close (d_file d) <> None -> bad) ->
  exists r d', close_output d = (Ret r, d') /\ output_end D bad cancel rest d0 d' r.
Proof.
  intros X Hp HD Hb. unfold close_output, pclose_fails. rewrite bind_gets.
  destruct (gf_close (d_file d)) eqn:Ec; [by eapply end_failed; eauto|by eapply end_complete; eauto].
Qed.

Lemma run_output_spec cmd d : d_healthy d -> cancel_state cancel rest d ->
  exists r d', run_output W cmd d = (Ret r, d') /\
    output_end (printed (tw_popen W cmd)) (~ program_ok (tw_popen W cmd)) cancel rest d d' r.
Proof.
  intros Hd Hc. unfold run_output. destruct (popen_spec cmd d Hd Hc) as (d1 & E1 & X1 & Hc1 & F1). mstep E1.
  set (f := tw_popen W cmd) in *.
  assert (exists r d', match gf_open f with Some e => reply_and (reply_with_perror_errno e cmd) (-1) | None => send_output end d1 = (Ret r, d') /\
    output_end (printed f) (~ program_ok f) cancel rest d1 d' r) as (r & d' & E & H).
  2: { exists r, d'. split; [exact E|]. by eapply output_end_from. }
  destruct (gf_open f) as [e|] eqn:Eo.
  { eapply end_refused; [right; eauto|by destruct X1|]. intros (? & ? & _). congruence. }
  unfold send_output. destruct (reply_none_spec d1 (dx_healthy _ _ _ _ X1)) as (d2 & E2 & X2 & F2 & S2). mstep E2.
  destruct (output_loop_spec cancel rest (script_bytes (gf_read (d_file d1))) false d2) as (r & d3 & ps & E3 & Hps & Hcl & Hs & Hr);
    [by destruct X2|by eapply reply_cancel_state|by rewrite F2|]. mstep E3. rewrite F2, F1 in *.
  change (gf_read (new_pipe f)) with (gf_read f) in Hr. change (gf_close (new_pipe f)) with (gf_close f) in Hcl.
  destruct r as [err|]; [|eexists _, d3; split; [done|]; by eapply end_cancelled].
  destruct Hs as [X3 _]. pose proof (dex_trans _ _ _ _ _ _ _ X2 X3) as X. destruct err.
  - eapply end_failed; [exact X|done|]. destruct Hr as [?|Hr]; [done|]. intros (data & _ & Hd' & _). by rewrite Hd' in Hr.
  - destruct Hr as [_ Hr]. eapply close_output_spec; [exact X|done| |]; rewrite Hcl.
    + intros Hc0. by split_and!.
    + intros Hc0 (data & _ & _ & ?). done.
Qed.
End programs.

(** * The procedures that send the output of a program *)

Inductive out_call :=
  | Tar_out (dir compress : string) (numericowner : bool) (excludes : list string)
  | Tgz_out (dir : string)
  | Txz_out (dir : string)
  | Compress_out (ctype file : string) (level : Z)
  | Compress_device_out (ctype file : string) (level : Z)
  | Base64_out (file : string)
  | Cpio_out (dir format : string).

Section out_calls.
Context (W : transfer_world).

Definition run_out (c : out_call) : dm Z :=
  match c with
  | Tar_out dir compress numericowner excludes => do_tar_out W dir compress numericowner excludes
  | Tgz_out dir => do_tgz_out W dir
  | Txz_out dir => do_txz_out W dir
  | Compress_out ctype file level => do_compress_out W ctype file level
  | Compress_device_out ctype file level => do_compress_device_out W ctype file level
  | Base64_out file => do_base64_out W file
  | Cpio_out dir format => do_cpio_out W dir format
  end.

(** The file of patterns, when it can be made. *)
Fixpoint excludes_ok (excludes : list string) (q : list write_ev) : bool :=
  match excludes with
  | [] => true
  | x :: excludes' =>
      negb (strchr_newline x) &&
      (let '(r, _, q) := xwrite_run q (bytes_of_string x) in
       let '(r', _, q) := xwrite_run q [LF] in
       match r, r' with None, None => excludes_ok excludes' q | _, _ => false end)
  end.
Definition exclude_file (excludes : list string) : option string :=
  match tw_mkstemp W "/tmp/excludesXXXXXX", tw_exclude_close W with
  | inr template, None => if excludes_ok excludes (tw_exclude_write W) then Some template else None
  | _, _ => None
  end.
Definition is_directory (path : string) : bool :=
  match tw_stat W (tw_sysroot W +:+ path) with inr isdir => isdir | inl _ => false end.
Definition is_nondirectory (path : string) : bool :=
  match tw_stat W (tw_sysroot W +:+ path) with inr isdir => negb isdir | inl _ => false end.

(** The compressor and its level, when both are allowed. *)
Definition compressor (ctype : string) (level : Z) : option string :=
  let levels (lowest : Z) : option string :=
    if negb (tw_prog_exists W ctype) then None
    else if level =? -1 then Some (ctype +:+ " -c")
    else if (lowest <=? level) && (level <=? 9) then Some (ctype +:+ " -c -" +:+ pretty level) else None in
  if STREQ ctype "compress" then if tw_prog_exists W ctype && (level =? -1) then Some "compress -c" else None
  else if STREQ ctype "gzip" || STREQ ctype "bzip2" || STREQ ctype "lzop" then levels 1
  else if STREQ ctype "xz" then levels 0 else None.

(** The command of a call whose arguments are right. *)
Definition tar_out_line (mask : Z) (dir compress : string) (numericowner : bool) (excludes : list string) : option string :=
  filter ← filter_for mask compress;
  x ← (if Z.testbit mask 2 then Some <$> exclude_file excludes else Some None);
  if is_directory dir then Some (tar_out_command W dir filter (Z.testbit mask 1 && numericowner) x) else None.
Definition out_command (mask : Z) (c : out_call) : option string :=
  match c with
  | Tar_out dir compress numericowner excludes => tar_out_line mask dir compress numericowner excludes
  | Tgz_out dir => tar_out_line 1 dir "gzip" false []
  | Txz_out dir => tar_out_line 1 dir "xz" false []
  | Compress_out ctype file level =>
      filter ← compressor ctype (if Z.testbit mask 0 then level else -1); Some (filter +:+ " " +:+ sysroot_quote W file)
  | Compress_device_out ctype file level =>
      filter ← compressor ctype (if Z.testbit mask 0 then level else -1); Some (filter +:+ " < " +:+ shell_quote file)
  | Base64_out file => if is_nondirectory file then Some ("base64 " +:+ shell_quote (tw_sysroot W +:+ file)) else None
  | Cpio_out dir format =>
      let format := if Z.testbit mask 0 then format else "newc" in
      if is_directory dir && (STREQ format "newc" || STREQ format "crc")
      then Some ("cd " +:+ shell_quote (tw_sysroot W +:+ dir) +:+ " && find -print0 | cpio -0 -o -H " +:+ format +:+ " --quiet")
      else None
  end.

(** The output of the command, and that there is none. *)
Definition command_output (cmd : option string) (data : list byte) : Prop := exists c, cmd = Some c /\ printed (tw_popen W c) data.
Definition command_bad (cmd : option string) : Prop := ~ exists data, command_output cmd data.
#[local] Notation ends cancel rest cmd := (output_end (command_output cmd) (command_bad cmd) cancel rest).

Lemma run_output_ends cancel rest cmd d : d_healthy d -> cancel_state cancel rest d ->
  exists r d', run_output W cmd d = (Ret r, d') /\ ends cancel rest (Some cmd) d d' r.
Proof.
  intros Hd Hc. destruct (run_output_spec W cancel rest cmd d Hd Hc) as (r & d' & E & H). exists r, d'. split; [exact E|].
  eapply output_end_mono; [| |exact H]; [by intros x ?; exists cmd|]. intros Hb (data & c & [= <-] & Hp). apply Hb. by exists data.
Qed.
Lemma command_none : command_bad None.
Proof. by intros (data & c & ? & _). Qed.
(** An error reply, whatever is returned with it. *)
Lemma reply_and_spec {A} (errmsg : dm unit) (z : A) d : (exists n bs, errmsg d = send_error n bs d) -> d_healthy d ->
  exists e d', reply_and errmsg z d = (Ret z, d') /\ error_fits e = true /\ dex [] (error_reply d e) d d'.
Proof.
  intros (n & bs & E) Hd. destruct (send_error_spec d n bs Hd) as (d' & E1 & X & _). rewrite <- E in E1.
  exists (error_body d n bs), d'. unfold reply_and. mstep E1. split_and!; [done|by apply error_body_fits|done].
Qed.
#[local] Ltac refuse := apply reply_and_spec; [by do 2 eexists|done].
Lemma refused_ends cancel rest d (errmsg : dm unit) : (exists n bs, errmsg d = send_error n bs d) -> d_healthy d ->
  exists r d', reply_and errmsg (-1) d = (Ret r, d') /\ ends cancel rest None d d' r.
Proof.
  intros Hm Hd. destruct (reply_and_spec errmsg (-1) d Hm Hd) as (e & d' & E & Hf & X). exists (-1), d'. split; [exact E|].
  apply (out_refused _ _ _ _ _ _ e); [done|apply command_none|done].
Qed.
#[local] Ltac refuse_end := apply refused_ends; [by do 2 eexists|done].

Lemma level_filter_spec prog lowest level d : d_healthy d ->
  match (if negb (tw_prog_exists W prog) then None
         else if level =? -1 then Some (prog +:+ " -c")
         else if (lowest <=? level) && (level <=? 9) then Some (prog +:+ " -c -" +:+ pretty level) else None) with
  | Some f => level_filter W prog lowest level d = (Ret (Some f), d)
  | None => exists e d', level_filter W prog lowest level d = (Ret None, d') /\ error_fits e = true /\ dex [] (error_reply d e) d d'
  end.
Proof.
  intros Hd. unfold level_filter. destruct (negb _); [refuse|]. destruct (level =? -1); [done|]. destruct (_ && _); [done|refuse].
Qed.
Lemma get_filter_spec ctype level d : d_healthy d ->
  match compressor ctype level with
  | Some f => get_filter W ctype level d = (Ret (Some f), d)
  | None => exists e d', get_filter W ctype level d = (Ret None, d') /\ error_fits e = true /\ dex [] (error_reply d e) d d'
  end.
Proof.
  intros Hd. unfold compressor, get_filter. cbv zeta.
  destruct (STREQ ctype "compress") eqn:E1.
  { apply bool_decide_eq_true in E1 as ->. destruct (tw_prog_exists W "compress"); cbn [negb andb]; [|refuse].
    destruct (level =? -1); cbn [negb]; [done|refuse]. }
  destruct (STREQ ctype "gzip") eqn:E2; [apply bool_decide_eq_true in E2 as ->; by apply level_filter_spec|].
  destruct (STREQ ctype "bzip2") eqn:E3; [apply bool_decide_eq_true in E3 as ->; by apply level_filter_spec|].
  destruct (STREQ ctype "xz") eqn:E4.
  { apply bool_decide_eq_true in E4 as ->. by apply (level_filter_spec "xz" 0). }
  destruct (STREQ ctype "lzop") eqn:E5; [apply bool_decide_eq_true in E5 as ->; by apply level_filter_spec|]. cbn [orb]. refuse.
Qed.

Lemma compress_with_ends cancel rest ctype file level (is_device : bool) d : d_healthy d -> cancel_state cancel rest d ->
  exists r d', compress_with W ctype file level is_device d = (Ret r, d') /\
    ends cancel rest (filter ← compressor ctype (if Z.testbit (d_optargs_bitmask d) 0 then level else -1);
      Some (if negb is_device then filter +:+ " " +:+ sysroot_quote W file else filter +:+ " < " +:+ shell_quote file)) d d' r.
Proof.
  intros Hd Hc. unfold compress_with. set (lv := if Z.testbit (d_optargs_bitmask d) 0 then level else -1).
  pose proof (get_filter_spec ctype lv d Hd) as Hg. destruct (compressor ctype lv) as [f|]; cbn [mbind option_bind].
  - mstep Hg. by apply run_output_ends.
  - destruct Hg as (e & d' & E & Hf & X). mstep E. exists (-1), d'. split; [done|]. apply (out_refused _ _ _ _ _ _ e); [done|apply command_none|done].
Qed.

Lemma base64_out_ends cancel rest file d : d_healthy d -> cancel_state cancel rest d ->
  exists r d', do_base64_out W file d = (Ret r, d') /\ ends cancel rest (out_command 0 (Base64_out file)) d d' r.
Proof.
  intros Hd Hc. unfold do_base64_out, stat_isdir, out_command, is_nondirectory.
  destruct (tw_stat W _) as [e|[]]; cbn [negb]; [refuse_end..|by apply run_output_ends].
Qed.
Lemma cpio_out_ends cancel rest dir format d : d_healthy d -> cancel_state cancel rest d ->
  exists r d', do_cpio_out W dir format d = (Ret r, d') /\
    ends cancel rest (out_command (d_optargs_bitmask d) (Cpio_out dir format)) d d' r.
Proof.
  intros Hd Hc. unfold do_cpio_out, stat_isdir, out_command, is_directory. cbv zeta.
  destruct (tw_stat W _) as [e|[]]; cbn [negb andb]; [refuse_end| |refuse_end].
  destruct (Z.testbit _ 0); cbn [andb]; [|by apply run_output_ends].
  unfold STRNEQ. destruct (STREQ format "newc"); cbn [negb andb orb]; [by apply run_output_ends|].
  destruct (STREQ format "crc"); cbn [negb]; [by apply run_output_ends|refuse_end].
Qed.

Lemma write_excludes_spec : forall excludes q d, d_healthy d ->
  if excludes_ok excludes q then write_excludes excludes q d = (Ret true, d)
  else exists e d', write_excludes excludes q d = (Ret false, d') /\ error_fits e = true /\ dex [] (error_reply d e) d d'.
Proof.
  induction excludes as [|x excludes IH]; intros q d Hd; [done|]. cbn [excludes_ok write_excludes].
  destruct (strchr_newline x); cbn [negb andb]; [refuse|].
  destruct (xwrite_run q (bytes_of_string x)) as [[r w] q1]. destruct (xwrite_run q1 [LF]) as [[r' w'] q2].
  destruct r as [e|]; [refuse|]. destruct r' as [e|]; [refuse|]. by apply IH.
Qed.
Lemma make_exclude_spec excludes d : d_healthy d ->
  match exclude_file excludes with
  | Some f => make_exclude_from_file W excludes d = (Ret (Some f), d)
  | None => exists e d', make_exclude_from_file W excludes d = (Ret None, d') /\ error_fits e = true /\ dex [] (error_reply d e) d d'
  end.
Proof.
  intros Hd. unfold exclude_file, make_exclude_from_file. destruct (tw_mkstemp W _) as [e|f]; [refuse|].
  pose proof (write_excludes_spec excludes (tw_exclude_write W) d Hd) as Hw.
  destruct (excludes_ok excludes _).
  - mstep Hw. cbn [negb]. destruct (tw_exclude_close W); [refuse|done].
  - destruct Hw as (e & d' & E & Hf & X). mstep E. cbn [negb]. destruct (tw_exclude_close W); by exists e, d'.
Qed.

Lemma tar_out_ends cancel rest dir compress numericowner excludes d : d_healthy d -> cancel_state cancel rest d ->
  exists r d', do_tar_out W dir compress numericowner excludes d = (Ret r, d') /\
    ends cancel rest (tar_out_line (d_optargs_bitmask d) dir compress numericowner excludes) d d' r.
Proof.
  intros Hd Hc. unfold do_tar_out, tar_out_line. cbv zeta. set (mask := d_optargs_bitmask d).
  destruct (filter_for mask compress) as [filter|]; cbn [mbind option_bind]; [|refuse_end].
  assert (forall x, exists r d', stat_isdir W dir ("stat: " +:+ dir) (fun isdir =>
      if negb isdir then reply_and (DaemonProto.reply_with_error (dir +:+ ": not a directory")) (-1)
      else run_output W (tar_out_command W dir filter (Z.testbit mask 1 && numericowner) x)) d = (Ret r, d') /\
    ends cancel rest (if is_directory dir then Some (tar_out_command W dir filter (Z.testbit mask 1 && numericowner) x) else None) d d' r) as Hrun.
  { intros x. unfold stat_isdir, is_directory.
    destruct (tw_stat W _) as [e|[]]; cbn [negb]; [refuse_end|by apply run_output_ends|refuse_end]. }
  destruct (Z.testbit mask 2); [|apply Hrun].
  pose proof (make_exclude_spec excludes d Hd) as Hm. destruct (exclude_file excludes) as [f|]; cbn [mbind option_bind fmap option_fmap option_map].
  - unfold bind at 1 2. rewrite Hm. apply Hrun.
  - destruct Hm as (e & d' & E & Hf & X). unfold bind at 1 2. rewrite E. exists (-1), d'. split; [done|].
    apply (out_refused _ _ _ _ _ _ e); [done|apply command_none|done].
Qed.
Lemma tar_out_mask_ends cancel rest dir compress d : d_healthy d -> cancel_state cancel rest d ->
  exists r d', (modify (fun d => d <| d_optargs_bitmask := 1 |>) ;;; do_tar_out W dir compress false []) d = (Ret r, d') /\
    ends cancel rest (tar_out_line 1 dir compress false []) d d' r.
Proof.
  intros Hd Hc. rewrite bind_modify. set (d1 := d <| d_optargs_bitmask := 1 |>).
  assert (dex [] [] d d1) as X by by apply dex_upd.
  destruct (tar_out_ends cancel rest dir compress false [] d1) as (r & d' & E & H); [by destruct X|by destruct Hc|].
  exists r, d'. split; [exact E|]. by eapply output_end_from.
Qed.

Lemma run_out_ends cancel rest c d : d_healthy d -> cancel_state cancel rest d ->
  exists r d', run_out c d = (Ret r, d') /\ ends cancel rest (out_command (d_optargs_bitmask d) c) d d' r.
Proof.
  intros Hd Hc. destruct c; cbn [run_out out_command].
  - by apply tar_out_ends.
  - by apply tar_out_mask_ends.
  - by apply tar_out_mask_ends.
  - by apply (compress_with_ends cancel rest ctype file level false).
  - by apply (compress_with_ends cancel rest ctype file level true).
  - by apply base64_out_ends.
  - by apply cpio_out_ends.
Qed.
End out_calls.

(** * Receiving: how a transfer from the library ends *)

Lemma pipe_write_cb_spec : writes_file pipe_write_cb.
Proof.
  intros d blk Hd. unfold pipe_write_cb, xwrite_file.
  destruct (xwrite_run_spec (gf_write (d_file d)) blk) as (r & k & q' & E & Hk & Hg). rewrite E.
  set (d1 := d <| d_file; gf_write := q' |> <| d_file ::= file_wrote (take k blk) |>).
  destruct r as [e|].
  - exists (-1), (d1 <| d_errno := e |>), []. split_and!; try done; [by apply dex_upd| |].
    + split; [done|]. intros Hp. by destruct (Hg Hp).
    + right. split; [done|]. intros Hp. by destruct (Hg Hp).
  - exists 0, d1, []. split_and!; try done; [by apply dex_upd| |].
    + split; [done|]. intros Hp. by destruct (Hg Hp).
    + left. split; [done|]. split; cbn; by rewrite (Hk eq_refl).
Qed.

(** Everything was received and given to the program, which accepted it; or one
    error was replied, after the library was told to stop when it has not
    finished by itself.  Either way the next request comes next. *)
Definition input_end (file : option guest_file) (items : list (nat * list byte)) (n : nat) (cancel : bool) (rest : list byte)
    (d d' : daemon) (r : Z) : Prop :=
  d_inbox d' = rest /\
  (r = 0 /\ cancel = false /\ (exists ps, dex (up_wire items n cancel) (progress_frames ps) d d') /\
     (exists f, file = Some f /\ gf_close f = None /\ gf_data (d_file d') = concat (snd <$> items)) \/
   r = -1 /\ ~ ((exists f, file = Some f /\ gf_open f = None /\ Forall plain_write (gf_write f) /\ gf_close f = None) /\ cancel = false) /\
     exists ps cancelled e, error_fits e = true /\ dex (up_wire items n cancel) (failed_upload d ps cancelled e) d d').

(** One error is replied and nothing of the file is received. *)
Definition refused_unread (d d' : daemon) (r : Z) : Prop :=
  r = -1 /\ d_inbox d' = d_inbox d /\ exists e, error_fits e = true /\ d_sent d' = d_sent d ++ error_reply d e.

Section inputs.
Context (W : transfer_world) (items : list (nat * list byte)) (n : nat) (cancel : bool) (rest : list byte).
Context (Hit : Forall up_item_ok items).
#[local] Notation receives file := (input_end file items n cancel rest).

(** Refused before anything was received. *)
Lemma cancel_and_ends m (errmsg : dm unit) d :
  errmsg = reply_with_error m \/ (exists e, errmsg = reply_with_perror_errno e m) ->
  d_healthy d -> d_inbox d = up_wire items n cancel ++ rest ->
  exists d', cancel_and errmsg d = (Ret (-1), d') /\ receives None d d' (-1).
Proof.
  intros Hm Hd Hi.
  destruct (cancel_then_error d d m errmsg items n cancel rest [] [] Hm (dex_refl d Hd) Hit Hi) as (e & d' & E & Hf & X & Hi').
  exists d'. split; [exact E|]. split; [done|]. right. split; [done|]. split; [by intros [(f & ? & _) _]|].
  by exists [], true, e.
Qed.

Lemma input_end_from d d1 d' r file : dex [] [] d d1 -> receives file d1 d' r -> receives file d d' r.
Proof.
  intros X [Hi [(-> & Hc & (ps & X1) & Hf)|(-> & Hn & ps & c & e & Hf & X1)]]; (split; [done|]); [left|right].
  - split_and!; [done|done| |done]. exists ps. exact (dex_trans _ _ _ _ _ _ _ X X1).
  - split_and!; [done|done|]. exists ps, c, e. split; [done|]. unfold failed_upload in *.
    rewrite <- (error_reply_same d d1) by apply X. exact (dex_trans _ _ _ _ _ _ _ X X1).
Qed.

Lemma pipe_input_ends cmd werr perr d : d_healthy d -> d_inbox d = up_wire items n cancel ++ rest ->
  exists r d',
    (e <- popen W cmd ;;
     match e with
     | Some e => cancel_and (reply_with_perror_errno e cmd)
     | None =>
         r <- receive_file (Some pipe_write_cb) ;;
         if r =? -1 then cancel_and (DaemonProto.reply_with_error werr)
         else if r =? -2 then reply_and (DaemonProto.reply_with_error "file upload cancelled") (-1)
         else
           bad <- pclose_fails ;;
           if bad : bool then reply_and (DaemonProto.reply_with_error perr) (-1) else ret 0
     end) d = (Ret r, d') /\ receives (Some (tw_popen W cmd)) d d' r.
Proof.
  intros Hd Hi. set (f := tw_popen W cmd). set (d1 := d <| d_file := new_pipe f |>).
  assert (popen W cmd d = (Ret (gf_open f), d1)) as E0 by done. mstep E0.
  assert (dex [] [] d d1) as X0 by by apply dex_upd. pose proof (dx_healthy _ _ _ _ X0) as Hd1.
  destruct (gf_open f) as [e|] eqn:Eo.
  { destruct (cancel_and_ends cmd (reply_with_perror_errno e cmd) d1) as (d' & E & Hi' & [(? & _)|(_ & _ & H)]); [eauto|done|done|done|].
    exists (-1), d'. split; [exact E|]. apply (input_end_from d d1); [done|]. split; [done|]. right. split_and!; [done| |done].
    intros [(? & [= <-] & ? & _) _]. congruence. }
  destruct (receive_write_spec _ pipe_write_cb_spec items n cancel (S (script_bytes (d_in d1))) d1 rest)
    as (r & d2 & ps & E2 & T2 & K2 & Hend); [done|done|done|done|rewrite script_bytes_stream; unfold d_inbox; lia|].
  change (receive_file (Some pipe_write_cb) d1 = (Ret r, d2)) in E2. mstep E2.
  pose proof (fk_close _ _ K2) as Hcl. change (gf_close (d_file d1)) with (gf_close f) in Hcl.
  destruct Hend as [(-> & X2 & Hi2 & Hdata)|(-> & Hbad & its1 & its2 & Ei & X2 & Hi2)];
    pose proof (dex_trans _ _ _ _ _ _ _ X0 X2) as X; cbn [app] in X.
  - destruct cancel eqn:Ec; cbn [term_result Z.eqb Pos.eqb].
    + destruct (then_error d d2 "file upload cancelled" (reply_with_error "file upload cancelled") _ _ (-1)
        (or_introl eq_refl) X) as (e & d' & E & Hf & X' & Hi').
      exists (-1), d'. split; [exact E|]. split; [congruence|]. right. split_and!; [done|by intros []|]. by exists ps, false, e.
    + unfold pclose_fails. rewrite bind_gets, Hcl. destruct (gf_close f) as [err|] eqn:Ef.
      * destruct (then_error d d2 perr (reply_with_error perr) _ _ (-1) (or_introl eq_refl) X) as (e & d' & E & Hf & X' & Hi').
        exists (-1), d'. split; [exact E|]. split; [congruence|]. right. split_and!; [done| |by exists ps, false, e].
        intros [(? & [= <-] & _ & _ & ?) _]. congruence.
      * exists 0, d2. split; [done|]. split; [done|]. left. split_and!; [done|done|by exists ps|].
        exists f. split_and!; [done|done|]. destruct Hdata as [-> _]. apply write_at_start.
  - cbn [Z.eqb Pos.eqb]. subst items. apply Forall_app in Hit as [_ Hit2].
    destruct (cancel_then_error d d2 werr (reply_with_error werr) its2 n cancel rest _ ps (or_introl eq_refl) X Hit2 Hi2)
      as (e & d' & E & Hf & X' & Hi').
    exists (-1), d'. split; [exact E|]. split; [done|]. right. split_and!; [done| |].
    + intros [(? & [= <-] & _ & ? & _) _]. done.
    + exists ps, true, e. split; [done|]. unfold up_wire in *. rewrite fmap_app, concat_app, <- app_assoc. exact X'.
Qed.
End inputs.

(** ** tar_in and base64_in *)

Section in_calls.
Context (W : transfer_world).

(** Whether chown works there; [None] when that cannot be found out. *)
Definition chown_works (dir : string) : option Z :=
  match tw_random_name W (tw_sysroot W +:+ dir +:+ "/XXXXXXXX.XXX") with
  | inl _ => None
  | inr buf =>
      match tw_open W buf, tw_fchown W buf with
      | None, None => Some 1
      | None, Some e => if e =? EPERM then Some 0 else None
      | Some _, _ => None
      end
  end.
(** The pipe of tar, when it gets that far. *)
Definition tar_in_pipe (mask : Z) (dir compress : string) : option guest_file :=
  chown ← chown_works dir;
  filter ← filter_for mask compress;
  match tw_mkstemp W "/tmp/tarXXXXXX" with
  | inl _ => None
  | inr error_file => Some (tw_popen W (tar_in_command W dir filter error_file chown))
  end.

Lemma is_chown_supported_ends items n cancel rest dir d : Forall up_item_ok items ->
  d_healthy d -> d_inbox d = up_wire items n cancel ++ rest ->
  match chown_works dir with
  | Some c => is_chown_supported W dir d = (Ret c, d) /\ (c = 0 \/ c = 1)
  | None => exists d', is_chown_supported W dir d = (Ret (-1), d') /\ input_end None items n cancel rest d d' (-1)
  end.
Proof.
  intros Hit Hd Hi. unfold is_chown_supported, chown_works.
  destruct (tw_random_name W _) as [e|buf]; [eapply cancel_and_ends; eauto|].
  destruct (tw_open W buf); [eapply cancel_and_ends; eauto|].
  destruct (tw_fchown W buf) as [e|]; [|by auto]. destruct (e =? EPERM); [by auto|]. eapply cancel_and_ends; eauto.
Qed.

Lemma tar_in_ends items n cancel rest dir compress d : Forall up_item_ok items ->
  d_healthy d -> d_inbox d = up_wire items n cancel ++ rest ->
  exists r d', do_tar_in W dir compress d = (Ret r, d') /\
    (input_end (tar_in_pipe (d_optargs_bitmask d) dir compress) items n cancel rest d d' r \/
     filter_for (d_optargs_bitmask d) compress = None /\ refused_unread d d' r).
Proof.
  intros Hit Hd Hi. unfold do_tar_in, tar_in_pipe.
  pose proof (is_chown_supported_ends items n cancel rest dir d Hit Hd Hi) as Hc.
  destruct (chown_works dir) as [c|]; cbn [mbind option_bind].
  2: { destruct Hc as (d' & E & H). mstep E. exists (-1), d'. split; [done|by left]. }
  destruct Hc as [E Hc]. mstep E. replace (c =? -1) with false by (destruct Hc; by subst).
  destruct (filter_for _ compress) as [filter|].
  2: { set (m := "unknown compression type: " +:+ compress).
    destruct (then_error d d m (reply_with_error m) [] [] (-1) (or_introl eq_refl) (dex_refl d Hd)) as (e & d1 & E1 & He & X & Hi1).
    exists (-1), d1. split; [exact E1|]. right. split; [done|]. split_and!; [done|done|]. exists e. split; [done|by destruct X]. }
  cbn [mbind option_bind].
  destruct (tw_mkstemp W _) as [e|error_file].
  - destruct (cancel_and_ends items n cancel rest Hit "mkstemp" (reply_with_perror_errno e "mkstemp") d) as (d' & E1 & H); [eauto|done|done|].
    exists (-1), d'. split; [done|by left].
  - destruct (pipe_input_ends W items n cancel rest Hit) with (cmd := tar_in_command W dir filter error_file c) (d := d)
      (werr := "write error on directory: " +:+ dir +:+ ": " +:+ read_error_file W error_file)
      (perr := "tar subcommand failed on directory: " +:+ dir +:+ ": " +:+ read_error_file W error_file)
      as (r & d' & E1 & H); [done|done|]. exists r, d'. split; [exact E1|by left].
Qed.
Lemma tar_in_mask_ends items n cancel rest dir compress d : Forall up_item_ok items ->
  d_healthy d -> d_inbox d = up_wire items n cancel ++ rest -> filter_for 1 compress <> None ->
  exists r d', (modify (fun d => d <| d_optargs_bitmask := 1 |>) ;;; do_tar_in W dir compress) d = (Ret r, d') /\
    input_end (tar_in_pipe 1 dir compress) items n cancel rest d d' r.
Proof.
  intros Hit Hd Hi Hf. rewrite bind_modify. set (d1 := d <| d_optargs_bitmask := 1 |>).
  assert (dex [] [] d d1) as X by by apply dex_upd.
  destruct (tar_in_ends items n cancel rest dir compress d1) as (r & d' & E & [H|[? _]]); [done|by destruct X|done| |done].
  exists r, d'. split; [exact E|]. by eapply input_end_from.
Qed.
End in_calls.

Inductive in_call :=
  | Tar_in (dir compress : string)
  | Tgz_in (dir : string)
  | Txz_in (dir : string)
  | Base64_in (file : string).
Definition run_in (W : transfer_world) (c : in_call) : dm Z :=
  match c with
  | Tar_in dir compress => do_tar_in W dir compress
  | Tgz_in dir => do_tgz_in W dir
  | Txz_in dir => do_txz_in W dir
  | Base64_in file => do_base64_in W file
  end.
(** The program that is given the data. *)
Definition in_pipe (W : transfer_world) (mask : Z) (c : in_call) : option guest_file :=
  match c with
  | Tar_in dir compress => tar_in_pipe W mask dir compress
  | Tgz_in dir => tar_in_pipe W 1 dir "gzip"
  | Txz_in dir => tar_in_pipe W 1 dir "xz"
  | Base64_in file => Some (tw_popen W ("base64 -d -i > " +:+ sysroot_quote W file))
  end.
(** The compression type is not one that tar knows. *)
Definition in_unknown (mask : Z) (c : in_call) : Prop :=
  match c with Tar_in _ compress => filter_for mask compress = None | _ => False end.

(** * find0 *)

(** What is sent for a path that find prints. *)
Definition find_piece (len : nat) (path : string) : option (list byte) :=
  if (String.length path <=? len)%nat then None else Some (drop len (bytes_of_string path ++ [NUL])).
Definition path_ok (path : string) : Prop :=
  no_byte NUL (bytes_of_string path) /\ Z.of_nat (String.length path) < GUESTFS_MAX_CHUNK_SIZE.

Lemma input_to_nul_string rest : forall p maxlen, no_byte NUL p -> (length p < maxlen)%nat ->
  input_to_nul maxlen (p ++ NUL :: rest) = inr (p ++ [NUL], rest).
Proof.
  induction p as [|c p IH]; intros [|m] Hp Hl; [cbn in Hl; lia|done|cbn in Hl; lia|].
  apply Forall_cons in Hp as [Hc Hp]. cbn [app input_to_nul]. replace (Byte.eqb c NUL) with false.
  - rewrite (IH m); [done|done|cbn in Hl; lia].
  - symmetry. apply not_true_is_false. intros ?%Byte.byte_dec_bl. done.
Qed.
Lemma input_to_nul_end maxlen : (0 < maxlen)%nat -> input_to_nul maxlen [] = inl 0.
Proof. by destruct maxlen; [lia|]. Qed.

Lemma find_loop_spec cancel rest len : forall paths fuel d, d_healthy d -> cancel_state cancel rest d ->
  Forall path_ok paths -> (length (nul_terminated paths) < fuel)%nat ->
  exists r d', find_loop fuel len (nul_terminated paths) d = (Ret r, d') /\ (r = Some false \/ r = None) /\
    sent_pieces cancel rest (omap (find_piece len) paths) d d' (match r with Some _ => true | None => false end) /\
    d_file d' = d_file d.
Proof.
  assert (0 < Z.to_nat GUESTFS_MAX_CHUNK_SIZE)%nat as Hm by (unfold GUESTFS_MAX_CHUNK_SIZE; lia).
  induction paths as [|p paths IH]; intros fuel d Hd Hc Hp Hf; (destruct fuel as [|fuel]; [lia|]); cbn [find_loop].
  { change (nul_terminated []) with (@nil byte). rewrite input_to_nul_end by done. exists (Some false), d.
    split; [done|]. split; [by left|]. split; [|done]. split; [by apply dex_refl|done]. }
  apply Forall_cons in Hp as [[Hnul Hlen] Hp]. change (nul_terminated (p :: paths)) with ((bytes_of_string p ++ [NUL]) ++ nul_terminated paths) in *.
  rewrite <- app_assoc. cbn [app]. rewrite input_to_nul_string; [|done|rewrite length_bytes_of_string; lia].
  rewrite !length_app, length_bytes_of_string in *. cbn [length] in *. cbn [omap list_omap]. unfold find_piece at 1.
  replace (String.length p + 1 - 1)%nat with (String.length p) by lia.
  destruct (Nat.leb_spec (String.length p) len); [apply IH; [done..|lia]|].
  assert (zlength (drop len (bytes_of_string p ++ [NUL])) <= GUESTFS_MAX_CHUNK_SIZE) as Hz.
  { unfold zlength. rewrite length_drop, length_app, length_bytes_of_string. cbn [length]. lia. }
  destruct (send_file_write_spec _ cancel rest d Hd Hc Hz) as (r & d1 & E1 & F1 & Hr). mstep E1.
  destruct Hr as [(-> & X & Hc1)|(-> & Ec & X & Hi)]; cbn [Z.ltb Z.compare].
  - destruct (IH fuel d1) as (r & d' & -> & Hr & Hs & F); [by destruct X|done|done|lia|]. exists r, d'.
    split_and!; [done|done|by eapply sent_cons|congruence].
  - exists None, d1. split_and!; [done|by right| |done]. split; [done|]. exists []. split; [apply prefix_nil|]. by split.
Qed.

Lemma nul_terminated_concat names : concat ((fun n => bytes_of_string n ++ [NUL]) <$> names) = nul_terminated names.
Proof. unfold nul_terminated. induction names as [|n names IH]; [done|]. cbn. by rewrite IH. Qed.

(** What find prints for a tree: the directory itself and then what is below. *)
Definition find_output (sysrootdir : string) (names : list string) : list byte :=
  nul_terminated (sysrootdir :: ((fun n => sysrootdir +:+ n) <$> names)).
Lemma bytes_of_string_app a b : bytes_of_string (a +:+ b) = bytes_of_string a ++ bytes_of_string b.
Proof. induction a as [|c a IH]; [done|]. exact (f_equal (cons (byte_of_ascii c)) IH). Qed.
Lemma find_pieces dir names : Forall (fun n => n <> "") names ->
  omap (find_piece (String.length dir)) (dir :: ((fun n => dir +:+ n) <$> names)) = (fun n => bytes_of_string n ++ [NUL]) <$> names.
Proof.
  intros Hn. cbn [omap list_omap]. unfold find_piece at 1. rewrite Nat.leb_refl.
  induction Hn as [|n names Hne Hn IH]; [done|]. cbn [fmap list_fmap omap list_omap]. unfold find_piece at 1.
  rewrite str_length_app. destruct (Nat.leb_spec (String.length dir + String.length n) (String.length dir)).
  - destruct n; [done|]. cbn in *. lia.
  - f_equal; [|exact IH]. rewrite bytes_of_string_app, <- app_assoc, <- (length_bytes_of_string dir). by rewrite drop_app_length.
Qed.

(** * Theorems *)

(** C10: tar_out, compress_out, compress_device_out, base64_out and cpio_out keep the protocol
    in step whatever happens: either one error is replied, or one well-formed transfer is sent
    that ends in its terminator; it is marked complete only when it holds all the output of the
    command that the arguments ask for and the command succeeded, and when the library cancels
    it the cancellation is consumed. *)
Theorem output_procedures_sync (W : transfer_world) (c : out_call) (cancel : bool) (rest : list byte) (d : daemon) :
  d_healthy d -> cancel_state cancel rest d ->
  let cmd := out_command W (d_optargs_bitmask d) c in
  exists r d', run_out W c d = (Ret r, d') /\
    output_end (command_output W cmd) (command_bad W cmd) cancel rest d d' r.
Proof. intros Hd Hc cmd. by apply run_out_ends. Qed.

(** C11: tar_in, tgz_in, txz_in and base64_in keep the protocol in step, with one exception:
    whatever fails, and whether or not the library cancels, the whole file that was sent is
    consumed and no byte more, and there is either one error reply, preceded by at most one
    request to cancel, or success with nothing sent but progress messages; success means that
    the file was not cancelled and that the program was given the concatenation of the chunks on
    its standard input. The exception is tar_in with a compression type that it does not know:
    one error is replied and nothing of the file is consumed. *)
Theorem input_procedures_sync (W : transfer_world) (c : in_call) (items : list (nat * list byte)) (n : nat)
    (cancel : bool) (rest : list byte) (d : daemon) :
  d_healthy d -> Forall up_item_ok items -> d_inbox d = up_wire items n cancel ++ rest ->
  exists r d', run_in W c d = (Ret r, d') /\
    (input_end (in_pipe W (d_optargs_bitmask d) c) items n cancel rest d d' r \/
     in_unknown (d_optargs_bitmask d) c /\ refused_unread d d' r).
Proof.
  intros Hd Hit Hi. destruct c; cbn [run_in in_pipe in_unknown].
  - by apply tar_in_ends.
  - destruct (tar_in_mask_ends W items n cancel rest dir "gzip" d) as (r & d' & E & H); [done..|]. eauto.
  - destruct (tar_in_mask_ends W items n cancel rest dir "xz" d) as (r & d' & E & H); [done..|]. eauto.
  - destruct (pipe_input_ends W items n cancel rest Hit ("base64 -d -i > " +:+ sysroot_quote W file)
      ("write error on file: " +:+ file) ("base64 subcommand failed on file: " +:+ file) d) as (r & d' & E & H); [done..|]. eauto.
Qed.

(** tar_in with a compression type it does not know replies without consuming the file: the chunks are
    then taken for a request and the daemon exits. *)
Theorem tar_in_unknown_compression_desync (W : transfer_world) (dispatch : list byte -> dm unit) (dir compress : string)
    (rest : list byte) (d : daemon) :
  d_healthy d -> d_inbox d = complete_frame ++ rest -> is_Some (chown_works W dir) ->
  filter_for (d_optargs_bitmask d) compress = None ->
  exists e d1, do_tar_in W dir compress d = (Ret (-1), d1) /\
    d_sent d1 = d_sent d ++ error_reply d e /\ d_inbox d1 = complete_frame ++ rest /\
    fst (main_loop_turn dispatch d1) = Stop Exited.
Proof.
  intros Hd Hi [c Hc] Hf. unfold do_tar_in.
  pose proof (is_chown_supported_ends W [] 0 false rest dir d (Forall_nil_2 _) Hd Hi) as Hs. rewrite Hc in Hs. destruct Hs as [E Hc'].
  mstep E. replace (c =? -1) with false by (destruct Hc'; by subst). rewrite Hf.
  destruct (then_error d d ("unknown compression type: " +:+ compress) (reply_with_error ("unknown compression type: " +:+ compress))
    [] [] (-1) (or_introl eq_refl) (dex_refl d Hd)) as (e & d1 & E1 & _ & X & Hi1).
  exists e, d1. split; [exact E1|]. split; [by destruct X|]. split; [congruence|].
  eapply main_loop_chunk_exits; [by destruct X|by rewrite Hi1].
Qed.

(** ls0 sends the names of the directory, all of them and in the order of the directory, each ended by
    a NUL and without the entries . and .., which is the format that ls of the library splits; a
    directory that cannot be read to its end is never reported complete. *)
Theorem ls0_sends_names (W : transfer_world) (path : string) (cancel : bool) (rest : list byte) (d : daemon) :
  d_healthy d -> cancel_state cancel rest d ->
  (forall dir, tw_opendir W path = inr dir -> Forall (fun n => (String.length n <= NAME_MAX)%nat) (ds_names dir)) ->
  exists r d', do_ls0 W path d = (Ret r, d') /\
    output_end (fun data => exists names, tw_opendir W path = inr (mk_dir_stream names None None) /\
                  data = nul_terminated (List.filter is_listed names))
      (~ exists names, tw_opendir W path = inr (mk_dir_stream names None None)) cancel rest d d' r.
Proof.
  intros Hd Hc Hn. unfold do_ls0. destruct (tw_opendir W path) as [e|dir].
  { eapply end_refused; [right; eauto|done|]. by intros [? ?]. }
  destruct (reply_none_spec d Hd) as (d1 & E1 & X1 & F1 & S1). mstep E1.
  destruct (ls_loop_spec cancel rest (ds_names dir) d1) as (ok & d2 & E2 & Hs); [by destruct X1|by eapply reply_cancel_state|by apply Hn|].
  mstep E2. set (pieces := (fun n => bytes_of_string n ++ [NUL]) <$> List.filter is_listed (ds_names dir)) in *.
  assert (Forall block_ok pieces) as Hp.
  { apply Forall_fmap. apply List.Forall_forall. intros n [Hin _]%List.filter_In. specialize (Hn dir eq_refl). rewrite List.Forall_forall in Hn.
    specialize (Hn n Hin). split; [by destruct (bytes_of_string n)|]. unfold zlength, compose. rewrite length_app, length_bytes_of_string.
    unfold NAME_MAX, GUESTFS_MAX_CHUNK_SIZE in *. cbn [length]. lia. }
  destruct ok; cbn [negb]; [|eexists _, d2; split; [done|]; by eapply end_cancelled].
  destruct Hs as [X2 _]. pose proof (dex_trans _ _ _ _ _ _ _ X1 X2) as X. destruct dir as [names rd cl]. cbn [ds_readdir ds_closedir] in *.
  destruct rd; [eapply end_failed; [exact X|done|by intros [? ?]]|]. destruct cl; [eapply end_failed; [exact X|done|by intros [? ?]]|].
  eapply end_complete; [exact X|done|]. exists names. split; [done|]. apply nul_terminated_concat.
Qed.

(** find0 sends what find prints below the directory, in that order and with the name of the directory
    removed, each path ended by a NUL; it is complete only when find succeeded. *)
Theorem find0_sends_paths (W : transfer_world) (dir : string) (names : list string) (cancel : bool) (rest : list byte)
    (d : daemon) :
  let sysrootdir := tw_sysroot W +:+ dir in let f := tw_popen W (find_command sysrootdir) in
  d_healthy d -> cancel_state cancel rest d ->
  stream_of (gf_read f) = (find_output sysrootdir names, false) ->
  Forall (fun n => n <> "") names -> Forall path_ok (sysrootdir :: ((fun n => sysrootdir +:+ n) <$> names)) ->
  exists r d', do_find0 W dir d = (Ret r, d') /\
    output_end (fun data => data = nul_terminated names /\ program_ok f)
      (~ (is_directory W dir = true /\ program_ok f)) cancel rest d d' r.
Proof.
  intros sysrootdir f Hd Hc Hf Hne Hp. unfold do_find0. cbv zeta. fold sysrootdir. unfold stat_isdir, is_directory. fold sysrootdir.
  destruct (tw_stat W sysrootdir) as [e|[]]; cbn [negb]; [by eapply end_refused; [right; eauto|done|by intros [? _]]| |
    by eapply end_refused; [left; eauto|done|by intros [? _]]].
  destruct (popen_spec W cancel rest (find_command sysrootdir) d Hd Hc) as (d1 & E1 & X1 & Hc1 & F1). mstep E1. fold f in F1 |- *.
  match goal with |- exists r d', ?m d1 = _ /\ output_end ?D ?bad _ _ _ _ _ =>
    assert (exists r d', m d1 = (Ret r, d') /\ output_end D bad cancel rest d1 d' r) as (r & d' & E & H);
    [|exists r, d'; split; [exact E|]; by eapply output_end_from] end.
  destruct (gf_open f) as [e|] eqn:Eo; [eapply end_refused; [right; eauto|by destruct X1|]; intros (_ & data & ? & _); congruence|].
  rewrite F1. change (gf_read (new_pipe f)) with (gf_read f). rewrite Hf. destruct (reply_none_spec d1 (dx_healthy _ _ _ _ X1)) as (d2 & E2 & X2 & F2 & S2). mstep E2.
  destruct (find_loop_spec cancel rest (String.length sysrootdir) (sysrootdir :: ((fun n => sysrootdir +:+ n) <$> names))
    (S (length (find_output sysrootdir names))) d2) as (r & d3 & E3 & Hr & Hs & F3);
    [by destruct X2|by eapply reply_cancel_state|done|unfold find_output; lia|]. fold (find_output sysrootdir names) in E3. mstep E3.
  rewrite find_pieces in Hs by done.
  assert (Forall block_ok ((fun n => bytes_of_string n ++ [NUL]) <$> names)) as Hb.
  { apply Forall_cons in Hp as [_ Hp]. apply Forall_fmap. rewrite (Forall_fmap (fun n => sysrootdir +:+ n)) in Hp. eapply Forall_impl; [exact Hp|].
    intros n [_ Hl]. unfold compose in *. split; [by destruct (bytes_of_string n)|]. rewrite str_length_app in Hl.
    unfold zlength. rewrite length_app, length_bytes_of_string. cbn [length]. lia. }
  destruct Hr as [-> | ->]; [|eexists _, d3; split; [done|]; by eapply end_cancelled].
  destruct Hs as [X3 _]. pose proof (dex_trans _ _ _ _ _ _ _ X2 X3) as X. cbn [andb].
  assert (gf_close (d_file d3) = gf_close f) as Hcl by (by rewrite F3, F2, F1).
  eapply close_output_spec; [exact X|done| |]; rewrite Hcl.
  - intros Hcl0. rewrite nul_terminated_concat. split; [done|]. by exists (find_output sysrootdir names).
  - intros Hcl0 (_ & data & _ & _ & ?). done.
Qed.

(** * Examples *)

Definition ex_pipe (out : list read_ev) : guest_file := ex_file out [].
(** tar prints three bytes, find two paths; "/d" is a directory. *)
Definition ex_transfers : transfer_world := {|
  tw_sysroot := "/sysroot";
  tw_popen cmd := if STRPREFIX cmd "find" then ex_pipe [RdData (find_output "/sysroot/d" ["/a"; "/a/b"])]
                  else ex_pipe [RdData [x31]; RdData [x32; x33]];
  tw_stat p := if STREQ p "/sysroot/d" then inr true else inl 2;
  tw_opendir p := if STREQ p "/d" then inr (mk_dir_stream ["."; "b"; ".."; "a"] None None) else inl 2;
  tw_prog_exists _ := true;
  tw_random_name t := inr t;
  tw_open _ := None;
  tw_fchown _ := None;
  tw_mkstemp t := inr t;
  tw_read_file _ := None;
  tw_exclude_write := [];
  tw_exclude_close := None
|}.

Lemma output_procedures_sync_witness :
  let d := ex_daemon [] (ex_file [] []) in let c := Tar_out "/d" "" false [] in
  let cmd := out_command ex_transfers (d_optargs_bitmask d) c in
  exists r d', run_out ex_transfers c d = (Ret r, d') /\
    output_end (command_output ex_transfers cmd) (command_bad ex_transfers cmd) false [] d d' r.
Proof.
  intros d c. refine (output_procedures_sync ex_transfers c false [] d _ _).
  - apply ex_daemon_healthy.
  - split; [reflexivity|]. intros _. repeat constructor.
Defined.

Lemma input_procedures_sync_witness :
  let items := [(1%nat, [x61; x62])] in
  let d := ex_daemon (up_wire items 0 false ++ [x07]) (ex_file [] []) in let c := Tgz_in "/d" in
  exists r d', run_in ex_transfers c d = (Ret r, d') /\
    input_end (in_pipe ex_transfers (d_optargs_bitmask d) c) items 0 false [x07] d d' r.
Proof.
  intros items d c. destruct (input_procedures_sync ex_transfers c items 0 false [x07] d) as (r & d' & E & [H|[H _]]).
  - apply ex_daemon_healthy.
  - repeat constructor; [done|by vm_compute].
  - reflexivity.
  - by exists r, d'.
  - destruct H.
Defined.

Lemma tar_in_unknown_compression_desync_witness :
  let d := (ex_daemon complete_frame (ex_file [] [])) <| d_optargs_bitmask := 1 |> in
  exists e d1, do_tar_in ex_transfers "/d" "zip" d = (Ret (-1), d1) /\
    d_sent d1 = d_sent d ++ error_reply d e /\ d_inbox d1 = complete_frame ++ [] /\
    fst (main_loop_turn (fun _ => ret tt) d1) = Stop Exited.
Proof.
  intros d. apply (tar_in_unknown_compression_desync ex_transfers (fun _ => ret tt) "/d" "zip" [] d).
  - destruct (ex_daemon_healthy complete_frame (ex_file [] [])). by split.
  - reflexivity.
  - by eexists.
  - reflexivity.
Defined.

Lemma ls0_sends_names_witness :
  let d := ex_daemon [] (ex_file [] []) in
  exists r d', do_ls0 ex_transfers "/d" d = (Ret r, d') /\
    output_end (fun data => exists names, tw_opendir ex_transfers "/d" = inr (mk_dir_stream names None None) /\
                  data = nul_terminated (List.filter is_listed names))
      (~ exists names, tw_opendir ex_transfers "/d" = inr (mk_dir_stream names None None)) false [] d d' r.
Proof.
  intros d. refine (ls0_sends_names ex_transfers "/d" false [] d _ _ _).
  - apply ex_daemon_healthy.
  - split; [reflexivity|]. intros _. repeat constructor.
  - intros dir [= <-]. cbn. repeat constructor; unfold NAME_MAX; cbn; lia.
Defined.

Lemma find0_sends_paths_witness :
  let d := ex_daemon [] (ex_file [] []) in let f := tw_popen ex_transfers (find_command "/sysroot/d") in
  exists r d', do_find0 ex_transfers "/d" d = (Ret r, d') /\
    output_end (fun data => data = nul_terminated ["/a"; "/a/b"] /\ program_ok f)
      (~ (is_directory ex_transfers "/d" = true /\ program_ok f)) false [] d d' r.
Proof.
  intros d. refine (find0_sends_paths ex_transfers "/d" ["/a"; "/a/b"] false [] d _ _ _ _ _).
  - apply ex_daemon_healthy.
  - split; [reflexivity|]. intros _. repeat constructor.
  - reflexivity.
  - repeat constructor; discriminate.
  - repeat constructor; try discriminate; vm_compute; reflexivity.
Defined.

(** The same calls run: what is on the wire at the end. *)
Lemma ex_transfers_run :
  let d := ex_daemon [] (ex_file [] []) in
  let sent m := d_sent (snd (m d)) in let wire pieces := d_sent d ++ download_wire d (pieces_of pieces) [] (mk_chunk 0 []) in
  sent (do_tar_out ex_transfers "/d" "" false []) = wire [[x31; x32; x33]] /\
  sent (do_ls0 ex_transfers "/d") = wire [[x62; x00]; [x61; x00]] /\
  sent (do_find0 ex_transfers "/d") = wire [[x2f; x61; x00]; [x2f; x61; x2f; x62; x00]].
Proof. vm_compute. repeat split; reflexivity. Qed.

(** A path of 9000 bytes: an error reply is sent in the middle of the transfer, after the reply. *)
Definition ex_long_path : transfer_world := {|
  tw_sysroot := "/sysroot";
  tw_popen _ := ex_pipe [RdData (replicate (Z.to_nat 9000) x61)];
  tw_stat _ := inr true; tw_opendir _ := inl 2; tw_prog_exists _ := true; tw_random_name t := inr t; tw_open _ := None;
  tw_fchown _ := None; tw_mkstemp t := inr t; tw_read_file _ := None; tw_exclude_write := []; tw_exclude_close := None
|}.
Lemma find0_long_path_replies_twice :
  let d := ex_daemon [] (ex_file [] []) in
  exists d' e, do_find0 ex_long_path "/d" d = (Ret 0, d') /\
    d_sent d' = d_sent d ++ ok_reply d [] ++ error_reply d e ++ complete_frame.
Proof. intros d. eexists _, (error_body d 0 (bytes_of_string too_long)). split; vm_compute; reflexivity. Qed.
