(* ===== verification/Create.v ===== *)
(** src/create.c: making disk images.

    Raw images are made with system calls, whose answers are a script and which
    are logged; qcow2 images with qemu-img, through the subprocess runner of
    Command.v.  The code for systems without posix_fallocate is left out. *)

From S2P Require Import Prelude Handle Events Conn LibProto Utils Config Lifecycle Drives Command Guestfsd.
From Stdlib Require Import Ascii.
Import StringsBuf.
Local Open Scope Z_scope.

(** * State *)

(** What stat (2) tells about a file that exists. *)
Inductive file_kind := IsChr | IsBlk | IsOther.

Inductive host_op :=
  | OpenBlock (filename : string)              (* O_WRONLY *)
  | GetSize64 (filename : string)
  | Discard (filename : string) (start len : Z)
  | CreateFile (filename : string)             (* O_WRONLY|O_CREAT|O_TRUNC *)
  | Ftruncate (filename : string) (size : Z)
  | PosixFallocate (filename : string) (start size : Z)
  | CloseFile (filename : string)
  | Unlink (filename : string).

(** The handle, the kernel's side of subprocesses, the system calls made with
    their answers, and the answers to come: an errno, or success; success in
    the end. *)
Record cstate := mk_cstate {
  cs_g : guestfs_h;
  cs_k : cmd_kernel;
  cs_ops : list (host_op * option Z);
  cs_answers : list (option Z)
}.
#[export] Instance upd_cs_g : Field cs_g := fun f r => mk_cstate (f (cs_g r)) (cs_k r) (cs_ops r) (cs_answers r).
#[export] Instance upd_cs_k : Field cs_k := fun f r => mk_cstate (cs_g r) (f (cs_k r)) (cs_ops r) (cs_answers r).
#[export] Instance upd_cs_ops : Field cs_ops := fun f r => mk_cstate (cs_g r) (cs_k r) (f (cs_ops r)) (cs_answers r).
#[export] Instance upd_cs_answers : Field cs_answers := fun f r =>
  mk_cstate (cs_g r) (cs_k r) (cs_ops r) (f (cs_answers r)).

Definition crm := M cstate.

Definition on_g {A} (m : hm A) : crm A := zoom cs_g (fun g s => s <| cs_g := g |>) m.
Definition error (msg : string) : crm unit := on_g (report msg).
Definition perrorf (errnum : Z) (msg : string) : crm unit := on_g (modify (fun g => guestfs___perrorf g errnum msg)).

Definition sys (op : host_op) : crm (option Z) := fun s =>
  let '(a, q) := answer (cs_answers s) in
  (Ret a, s <| cs_answers := q |> <| cs_ops ::= fun l => l ++ [(op, a)] |>).

(** The optional arguments of guestfs_disk_create: [None] when the bit is not
    set. *)
Record disk_create_argv := mk_disk_create_argv {
  dca_backingfile : option string;
  dca_backingformat : option string;
  dca_preallocation : option string;
  dca_compat : option string;
  dca_clustersize : option Z
}.

(** An error message and -1. *)
Definition fail (msg : string) : crm Z := error msg ;;; ret (-1).

Section create.
Context (stat : string -> option file_kind)
        (blksize64 : string -> Z)              (* BLKGETSIZE64 *)
        (errno_text : string)                  (* %m, after a call that did not fail *)
        (strsignal : Z -> string).

(** * Raw images *)

Definition disk_create_raw_block (filename : string) : crm Z :=
  a <- sys (OpenBlock filename) ;;
  match a with
  | Some e => perrorf e ("cannot open block device: " +:+ filename) ;;; ret (-1)
  | None =>
      s <- sys (GetSize64 filename) ;;
      match s with
      | Some _ => ret tt
      | None =>
          d <- sys (Discard filename 0 (u64 (blksize64 filename))) ;;
          match d with
          | None => on_g (modify (fun g => guestfs___debug g
                      ("disk_create: " +:+ filename +:+ ": BLKDISCARD failed on this device: " +:+ errno_text)))
          | Some _ => ret tt
          end
      end ;;;
      sys (CloseFile filename) ;;;
      ret 0
  end.

(** The failure of a call on the new file: close it when it is open, remove it. *)
Definition raw_failed (filename : string) (e : Z) (what : string) (close : bool) : crm Z :=
  perrorf e (filename +:+ ": " +:+ what) ;;;
  (if close then sys (CloseFile filename) ;;; ret tt else ret tt) ;;;
  sys (Unlink filename) ;;;
  ret (-1).

(** After the checks of the arguments and of the file. *)
Definition disk_create_raw_file (filename : string) (size : Z) (allocated : bool) : crm Z :=
  fd <- sys (CreateFile filename) ;;
  match fd with
  | Some e => perrorf e ("cannot create raw file: " +:+ filename) ;;; ret (-1)
  | None =>
      t <- sys (if allocated then PosixFallocate filename 0 size else Ftruncate filename size) ;;
      match t with
      | Some e => raw_failed filename e (if allocated then "fallocate" else "truncate") true
      | None =>
          c <- sys (CloseFile filename) ;;
          match c with
          | Some e => raw_failed filename e "close" false
          | None => ret 0
          end
      end
  end.

Definition disk_create_raw (filename : string) (size : Z) (optargs : disk_create_argv) : crm Z :=
  if bool_decide (is_Some (dca_backingformat optargs))
  then fail "backingformat parameter cannot be used with raw format" else
  match (match dca_preallocation optargs with
         | None => Some false
         | Some p => if STREQ p "sparse" then Some false else if STREQ p "full" then Some true else None
         end) with
  | None => fail ("invalid value for preallocation parameter '" +:+ default "" (dca_preallocation optargs) +:+ "'")
  | Some allocated =>
      if bool_decide (is_Some (dca_compat optargs))
      then fail "compat parameter cannot be used with raw format" else
      if bool_decide (is_Some (dca_clustersize optargs))
      then fail "clustersize parameter cannot be used with raw format" else
      match stat filename with
      | Some IsChr => fail ("refusing to overwrite char device '" +:+ filename +:+ "'")
      | Some IsBlk => disk_create_raw_block filename
      | _ => disk_create_raw_file filename size allocated
      end
  end.

(** * qcow2 images *)

(** The argument is a 32-bit unsigned. *)
Definition is_power_of_2 (v : Z) : bool := negb (v =? 0) && (Z.land v (u32 (v - 1)) =? 0).

Fixpoint escape_commas (s : string) : string :=
  match s with
  | "" => ""
  | String c s' => String c (if Ascii.eqb c "," then String "," (escape_commas s') else escape_commas s')
  end.
Definition qemu_escape_param (param : string) : string := escape_commas param.

Definition valid_clustersize (clustersize : Z) : bool :=
  negb ((clustersize <? 512) || (2097152 <? clustersize) || negb (is_power_of_2 (u32 clustersize))).

(** The first of the checks that fails. *)
Definition check_qcow2 (optargs : disk_create_argv) : option string :=
  match dca_backingformat optargs with
  | Some f => if STRNEQ f "raw" && STRNEQ f "qcow2"
              then Some ("invalid value for backingformat parameter '" +:+ f +:+ "'") else None
  | None => None
  end
  ∪ match dca_preallocation optargs with
    | Some p => if STRNEQ p "off" && STRNEQ p "metadata"
                then Some ("invalid value for preallocation parameter '" +:+ p +:+ "'") else None
    | None => None
    end
  ∪ match dca_compat optargs with
    | Some c => if STRNEQ c "0.10" && STRNEQ c "1.1"
                then Some ("invalid value for compat parameter '" +:+ c +:+ "'") else None
    | None => None
    end
  ∪ match dca_clustersize optargs with
    | Some s => if negb (valid_clustersize s)
                then Some ("invalid value for clustersize parameter '" +:+ pretty s +:+ "'") else None
    | None => None
    end.

Definition add_option (key : string) (value : option string) (optionsv : stringsbuf) : stringsbuf :=
  match value with
  | Some v => guestfs___add_sprintf optionsv (key +:+ "=" +:+ v)
  | None => optionsv
  end.

Definition qcow2_options (backingfile : option string) (optargs : disk_create_argv) : stringsbuf :=
  let optionsv := DECLARE_STRINGSBUF in
  let optionsv := add_option "backing_file" (qemu_escape_param <$> backingfile) optionsv in
  let optionsv := add_option "backing_fmt" (dca_backingformat optargs) optionsv in
  let optionsv := add_option "preallocation" (dca_preallocation optargs) optionsv in
  let optionsv := add_option "compat" (dca_compat optargs) optionsv in
  let clustersize := default (-1) (dca_clustersize optargs) in
  let optionsv := if 0 <=? clustersize
                  then guestfs___add_sprintf optionsv ("cluster_size=" +:+ pretty clustersize) else optionsv in
  guestfs___end_stringsbuf optionsv.

Definition qcow2_filename (orig_filename : string) : string :=
  if negb (String.prefix "/" orig_filename) then "./" +:+ orig_filename else orig_filename.

(** The command line of qemu-img. *)
Definition qcow2_command (orig_filename : string) (size : Z) (backingfile : option string)
    (optargs : disk_create_argv) : @bm unit unit :=
  guestfs___cmd_add_arg (Some "qemu-img") ;;;
  guestfs___cmd_add_arg (Some "create") ;;;
  guestfs___cmd_add_arg (Some "-f") ;;;
  guestfs___cmd_add_arg (Some "qcow2") ;;;
  let optionsv := qcow2_options backingfile optargs in
  (if (1 <? length (sb_argv optionsv))%nat then
     let options := guestfs___join_strings "," (argv_strings (sb_argv optionsv)) in
     guestfs___cmd_add_arg (Some "-o") ;;;
     guestfs___cmd_add_arg (Some options)
   else ret tt) ;;;
  guestfs___cmd_add_arg (Some (qcow2_filename orig_filename)) ;;;
  (if 0 <=? size then guestfs___cmd_add_arg_format (pretty size) else ret tt).

(** src/errors.c. *)
Definition guestfs___external_command_failed (g : guestfs_h) (status : Z) (cmd_name : string)
    (extra : option string) : guestfs_h :=
  let len := (80 + String.length cmd_name)%nat in
  let status_string := guestfs___exit_status_to_string strsignal status cmd_name len in
  let text := match extra with
              | None => status_string
              | Some extra => cmd_name +:+ ": " +:+ extra +:+ ": " +:+ status_string
              end in
  Errors.error g
    (if verbose (g_cfg g) then text +:+ ", see debug messages above"
     else text +:+ "." +:+ newline +:+
          "To see full error messages you may need to enable debugging." +:+ newline +:+
          "See http://libguestfs.org/guestfs-faq.1.html#debugging-libguestfs").

(** A computation with a command of its own, which [CLEANUP_CMD_CLOSE] closes. *)
Definition with_command {A} (m : cm unit A) : crm A := fun s =>
  let '(o, r) := (x <- m ;; guestfs___cmd_close ;;; ret x) (mk_run (cs_g s) (guestfs___new_command tt) (cs_k s)) in
  (o, s <| cs_g := r_g r |> <| cs_k := r_k r |>).

Definition build {A} (m : @bm unit A) : cm unit A := zoom r_cmd (fun cmd r => r <| r_cmd := cmd |>) m.

Definition disk_create_qcow2 (orig_filename : string) (size : Z) (backingfile : option string)
    (optargs : disk_create_argv) : crm Z :=
  with_command (
    match check_qcow2 optargs with
    | Some msg => modify (fun r => r <| r_g ::= fun g => Errors.error g msg |>) ;;; ret (-1)
    | None =>
        build (qcow2_command orig_filename size backingfile optargs) ;;;
        r <- guestfs___cmd_run ;;
        if negb (WIFEXITED r) || negb (WEXITSTATUS r =? 0) then
          modify (fun st => st <| r_g ::= fun g =>
            guestfs___external_command_failed g r "qemu-img" (Some orig_filename) |>) ;;;
          ret (-1)
        else ret 0
    end).

(** * guestfs_disk_create *)

Definition guestfs__disk_create (filename format : string) (size : Z) (optargs : disk_create_argv) : crm Z :=
  let backingfile := dca_backingfile optargs in
  match (match backingfile with
         | Some _ => if negb (size =? -1) then Some "if using a backing file, size must be passed as -1" else None
         | None => if size <=? 0 then Some ("invalid size: " +:+ pretty size) else None
         end) with
  | Some msg => fail msg
  | None =>
      if STREQ format "raw" then
        if bool_decide (is_Some backingfile) then fail "backingfile cannot be used for raw format disks" else
        r <- disk_create_raw filename size optargs ;; if r =? -1 then ret (-1) else ret 0
      else if STREQ format "qcow2" then
        r <- disk_create_qcow2 filename size backingfile optargs ;; if r =? -1 then ret (-1) else ret 0
      else fail ("unsupported format '" +:+ format +:+ "'")
  end.

End create.

(** * Reading the options back

    The documented syntax of qemu's option lists: commas separate the options,
    a doubled comma is a comma of the value. *)

Definition push (c : ascii) (l : list string) : list string :=
  match l with [] => [String c ""] | s :: l' => String c s :: l' end.

Fixpoint qemu_opts (s : string) : list string :=
  match s with
  | "" => [""]
  | String c s' =>
      if Ascii.eqb c "," then
        match s' with
        | String d s'' => if Ascii.eqb d "," then push "," (qemu_opts s'') else "" :: qemu_opts s'
        | "" => "" :: qemu_opts s'
        end
      else push c (qemu_opts s')
  end.

(** The options that are meant. *)
Definition opt_entry (key : string) (value : option string) : list string :=
  match value with Some v => [key +:+ "=" +:+ v] | None => [] end.
Definition qcow2_wanted (backingfile : option string) (optargs : disk_create_argv) : list string :=
  opt_entry "backing_file" backingfile ++ opt_entry "backing_fmt" (dca_backingformat optargs) ++
  opt_entry "preallocation" (dca_preallocation optargs) ++ opt_entry "compat" (dca_compat optargs) ++
  opt_entry "cluster_size" (pretty <$> dca_clustersize optargs).

(** * Lemmas *)

(** ** Commas *)

Definition no_lead_comma (s : string) : Prop := match s with String c _ => c <> ","%char | "" => True end.

Lemma qemu_opts_last a : qemu_opts (escape_commas a) = [a].
Proof.
  induction a as [|c a IH]; [done|]. cbn [escape_commas]. destruct (Ascii.eqb_spec c ",") as [->|Hc]; cbn.
  - by rewrite IH.
  - destruct (Ascii.eqb_spec c ","); [done|]. by rewrite IH.
Qed.

Lemma qemu_opts_next a b : no_lead_comma b -> qemu_opts (escape_commas a +:+ "," +:+ b) = a :: qemu_opts b.
Proof.
  intros Hb. induction a as [|c a IH].
  - destruct b as [|d b]; [done|]. cbn in Hb.
    change ((if Ascii.eqb d "," then push "," (qemu_opts b) else "" :: qemu_opts (String d b)) = "" :: qemu_opts (String d b)).
    by destruct (Ascii.eqb_spec d ",").
  - cbn [escape_commas]. destruct (Ascii.eqb_spec c ",") as [->|Hc].
    + change (String "," (String "," (escape_commas a)) +:+ "," +:+ b) with
        (String "," (String "," (escape_commas a +:+ "," +:+ b))).
      cbn [qemu_opts]. rewrite IH. done.
    + change (String c (escape_commas a) +:+ "," +:+ b) with (String c (escape_commas a +:+ "," +:+ b)).
      cbn [qemu_opts]. rewrite IH. by destruct (Ascii.eqb_spec c ",").
Qed.

Lemma escape_lead a rest : no_lead_comma a -> a <> "" -> no_lead_comma (escape_commas a +:+ rest).
Proof. destruct a as [|c a]; [done|]. intros Hc _. exact Hc. Qed.

Lemma join_cons2 a b l : guestfs___join_strings "," (a :: b :: l) = a +:+ "," +:+ guestfs___join_strings "," (b :: l).
Proof.
  unfold guestfs___join_strings. change (join_from 0 "," (a :: b :: l)) with (a +:+ join_from 1 "," (b :: l)).
  by rewrite join_from_S.
Qed.

Lemma qemu_opts_join : forall opts, opts <> [] -> Forall (fun o => no_lead_comma o /\ o <> "") opts ->
  qemu_opts (guestfs___join_strings "," (escape_commas <$> opts)) = opts.
Proof.
  induction opts as [|a opts IH]; intros Hne Hf; [done|]. apply Forall_cons in Hf as [Ha Hf].
  destruct opts as [|b opts].
  { unfold guestfs___join_strings. cbn. rewrite str_app_nil_r. apply qemu_opts_last. }
  rewrite !fmap_cons, join_cons2. rewrite qemu_opts_next; [f_equal; rewrite <- fmap_cons; by apply IH|].
  apply Forall_cons in Hf as [[Hb Hb'] _]. destruct (escape_commas <$> opts) as [|c l] eqn:El.
  - unfold guestfs___join_strings. cbn. rewrite str_app_nil_r. rewrite <- (str_app_nil_r (escape_commas b)). by apply escape_lead.
  - rewrite join_cons2. by apply escape_lead.
Qed.

Lemma escape_commas_app a b : escape_commas (a +:+ b) = escape_commas a +:+ escape_commas b.
Proof.
  induction a as [|c a IH]; [done|]. rewrite str_app_cons. cbn [escape_commas]. rewrite IH.
  by destruct (Ascii.eqb c ","); rewrite ?str_app_cons.
Qed.

Lemma escape_commas_id a : no_sep "," a -> escape_commas a = a.
Proof.
  unfold no_sep. induction a as [|c a IH]; [done|]. cbn [str_forallb escape_commas]. intros [Hc Ha]%andb_prop.
  destruct (Ascii.eqb c ","); [done|]. by rewrite IH.
Qed.

Lemma opt_entry_escape key v : no_sep "," key ->
  opt_entry key (escape_commas <$> v) = escape_commas <$> opt_entry key v.
Proof.
  intros Hk. destruct v as [v|]; [|done].
  change ([key +:+ "=" +:+ escape_commas v] = [escape_commas (key +:+ "=" +:+ v)]).
  by rewrite !escape_commas_app, (escape_commas_id key).
Qed.

Lemma opt_entry_plain key v : no_sep "," key -> match v with Some v => no_sep "," v | None => True end ->
  opt_entry key v = escape_commas <$> opt_entry key v.
Proof.
  intros Hk Hv. rewrite <- opt_entry_escape by done. destruct v as [v|]; [|done].
  change (opt_entry key (Some v) = opt_entry key (Some (escape_commas v))). by rewrite escape_commas_id.
Qed.

(** ** The options *)

Lemma argv_strings_some (l : list string) rest : argv_strings ((Some <$> l) ++ None :: rest) = l.
Proof. induction l as [|x l IH]; [done|]. cbn. by f_equal. Qed.

Lemma add_option_argv key value sb l : sb_argv sb = Some <$> l ->
  sb_argv (add_option key value sb) = Some <$> (l ++ opt_entry key value).
Proof.
  intros Hsb. destruct value as [v|]; cbn; [|by rewrite app_nil_r]. by rewrite Hsb, fmap_app.
Qed.

Lemma is_power_of_2_spec v : 0 <= v < 2 ^ 32 -> is_power_of_2 v = true <-> exists k, 0 <= k /\ v = 2 ^ k.
Proof.
  intros Hv. unfold is_power_of_2. destruct (Z.eqb_spec v 0) as [->|Hne]; cbn [negb andb].
  - split; [done|]. intros (k & Hk & E). pose proof (Z.pow_pos_nonneg 2 k). lia.
  - rewrite u32_id by lia. rewrite Z.eqb_eq. apply land_pred_pow2. lia.
Qed.

Lemma valid_clustersize_spec z : - 2 ^ 31 <= z < 2 ^ 31 ->
  valid_clustersize z = true <-> exists k, 9 <= k <= 21 /\ z = 2 ^ k.
Proof.
  intros Hz. unfold valid_clustersize. rewrite negb_true_iff, !orb_false_iff, !Z.ltb_ge, negb_false_iff. split.
  - intros [[H1 H2] H3]. rewrite u32_id, is_power_of_2_spec in H3 by lia. destruct H3 as (k & Hk & ->).
    exists k. split; [|done]. change 512 with (2 ^ 9) in H1. change 2097152 with (2 ^ 21) in H2.
    split; [by apply (Z.pow_le_mono_r_iff 2)|by apply (Z.pow_le_mono_r_iff 2)].
  - intros (k & Hk & ->). pose proof (Z.pow_le_mono_r 2 9 k). pose proof (Z.pow_le_mono_r 2 k 21).
    split; [lia|]. rewrite u32_id by lia. apply is_power_of_2_spec; [lia|]. exists k. lia.
Qed.

Lemma union_None {A} (a b : option A) : a ∪ b = None -> a = None /\ b = None.
Proof. by destruct a, b. Qed.

Lemma one_of s a b : STRNEQ s a && STRNEQ s b = false -> s = a \/ s = b.
Proof.
  unfold STRNEQ, STREQ. intros [H|H]%andb_false_iff; apply negb_false_iff, bool_decide_eq_true in H; auto.
Qed.

Lemma pretty_pos_no_comma z : 0 < z -> no_sep "," (pretty z).
Proof. intros Hz. destruct z as [|p|p]; [lia| |lia]. by apply (pretty_no_sep "," (Npos p)). Qed.

Lemma options_argv backingfile optargs : check_qcow2 optargs = None ->
  sb_argv (qcow2_options backingfile optargs) = (Some <$> (escape_commas <$> qcow2_wanted backingfile optargs)) ++ [None].
Proof.
  intros Hc. unfold check_qcow2 in Hc. apply union_None in Hc as [Hc Hcl]. apply union_None in Hc as [Hc Hco].
  apply union_None in Hc as [Hf Hp]. unfold qcow2_options.
  set (s1 := add_option "backing_file" _ _). set (s2 := add_option "backing_fmt" _ s1).
  set (s3 := add_option "preallocation" _ s2). set (s4 := add_option "compat" _ s3).
  pose proof (add_option_argv "backing_file" (qemu_escape_param <$> backingfile) DECLARE_STRINGSBUF [] eq_refl) as H1.
  fold s1 in H1. pose proof (add_option_argv "backing_fmt" (dca_backingformat optargs) s1 _ H1) as H2. fold s2 in H2.
  pose proof (add_option_argv "preallocation" (dca_preallocation optargs) s2 _ H2) as H3. fold s3 in H3.
  pose proof (add_option_argv "compat" (dca_compat optargs) s3 _ H3) as H4. fold s4 in H4.
  clearbody s4.
  assert (sb_argv (if 0 <=? default (-1) (dca_clustersize optargs)
    then guestfs___add_sprintf s4 ("cluster_size=" +:+ pretty (default (-1) (dca_clustersize optargs))) else s4) =
    Some <$> (escape_commas <$> qcow2_wanted backingfile optargs)) as H5.
  { unfold qcow2_wanted. rewrite !fmap_app.
    rewrite <- opt_entry_escape, <- !opt_entry_plain; try done.
    - rewrite app_nil_l in H4. rewrite !fmap_app in H4. destruct (dca_clustersize optargs) as [z|].
      + destruct (valid_clustersize z) eqn:Ev; [|done]. unfold valid_clustersize in Ev.
        rewrite negb_true_iff, !orb_false_iff, Z.ltb_ge in Ev. destruct Ev as [[Ev _] _].
        change (default (-1) (Some z)) with z. destruct (Z.leb_spec 0 z); [|lia]. unfold guestfs___add_sprintf, guestfs___add_string_nodup. cbn [sb_argv].
        by rewrite H4, <- !app_assoc.
      + cbn. rewrite H4, app_nil_r, <- !app_assoc. done.
    - destruct (dca_clustersize optargs) as [z|]; [|done]. cbn. destruct (valid_clustersize z) eqn:Ev; [|done].
      unfold valid_clustersize in Ev. rewrite negb_true_iff, !orb_false_iff, Z.ltb_ge in Ev.
      apply pretty_pos_no_comma. lia.
    - destruct (dca_compat optargs) as [c|]; [|done]. destruct (_ && _) eqn:E; [done|]. by apply one_of in E as [->| ->].
    - destruct (dca_preallocation optargs) as [c|]; [|done]. destruct (_ && _) eqn:E; [done|]. by apply one_of in E as [->| ->].
    - destruct (dca_backingformat optargs) as [c|]; [|done]. destruct (_ && _) eqn:E; [done|]. by apply one_of in E as [->| ->]. }
  cbn [guestfs___end_stringsbuf guestfs___add_string_nodup sb_argv]. by rewrite H5.
Qed.

(** ** The command line *)

(** A command with these arguments and nothing else set. *)
Definition built (l : list string) (cmd : command unit) : Prop :=
  exists sb, cmd = (guestfs___new_command tt) <| c_line := COMMAND_STYLE_EXECV sb |> /\
    sb_argv sb = Some <$> l /\ stringsbuf_ok sb.

Lemma add_first arg :
  Prelude.total (fun cmd => cmd = guestfs___new_command tt) (guestfs___cmd_add_arg (Some arg)) (fun _ => built [arg]).
Proof.
  intros cmd ->. eexists _, _. split; [reflexivity|]. eexists. split; [reflexivity|]. split; [done|].
  apply add_string_nodup_ok. unfold stringsbuf_ok. cbn. lia.
Qed.

Lemma add_more l arg : Prelude.total (built l) (add_arg_no_strdup arg) (fun _ => built (l ++ [arg])).
Proof.
  intros cmd (sb & -> & Hl & Hok). eexists _, _. split; [reflexivity|]. eexists. split; [reflexivity|].
  split; [cbn; by rewrite Hl, fmap_app|by apply add_string_nodup_ok].
Qed.

Lemma built_ready l cmd : built l cmd -> ready cmd.
Proof. intros (sb & -> & _). by split. Qed.

Definition qcow2_argv (options : string) (orig_filename : string) (size : Z) (wanted : list string) : list string :=
  ["qemu-img"; "create"; "-f"; "qcow2"] ++ (if bool_decide (wanted = []) then [] else ["-o"; options]) ++
  [qcow2_filename orig_filename] ++ (if 0 <=? size then [pretty size] else []).

Lemma qcow2_command_run orig_filename size backingfile optargs : check_qcow2 optargs = None ->
  let wanted := qcow2_wanted backingfile optargs in
  exists cmd, qcow2_command orig_filename size backingfile optargs (guestfs___new_command tt) = (Ret tt, cmd) /\
    built (qcow2_argv (guestfs___join_strings "," (escape_commas <$> wanted)) orig_filename size wanted) cmd.
Proof.
  intros Hc wanted. set (options := guestfs___join_strings "," (escape_commas <$> wanted)).
  enough (Prelude.total (fun cmd => cmd = guestfs___new_command tt) (qcow2_command orig_filename size backingfile optargs)
    (fun _ => built (qcow2_argv options orig_filename size wanted))) as Ht.
  { destruct (Ht _ eq_refl) as ([] & cmd & E & Hb). by exists cmd. }
  eapply total_bind; [apply add_first|intros ?].
  do 3 (eapply total_bind; [apply add_more|intros ?]). cbn [app].
  rewrite options_argv, argv_strings_some by done. fold wanted options. rewrite length_app, !length_fmap.
  cbn [length]. unfold qcow2_argv.
  eapply (total_bind _ _ (fun _ => built (["qemu-img"; "create"; "-f"; "qcow2"] ++
    (if bool_decide (wanted = []) then [] else ["-o"; options])))).
  { case_bool_decide as Hw.
    - rewrite Hw. cbn. by apply total_ret.
    - replace (1 <? length wanted + 1)%nat with true by (symmetry; apply Nat.ltb_lt; destruct wanted; [done|cbn; lia]).
      eapply total_bind; [apply add_more|intros ?]. apply add_more. }
  intros ?. eapply total_bind; [apply add_more|intros ?].
  destruct (0 <=? size).
  - eapply total_conseq; [apply add_more|done|]. intros ? cmd. by rewrite <- !app_assoc.
  - apply total_ret. intros cmd. by rewrite <- !app_assoc.
Qed.

Lemma wanted_entries backingfile optargs :
  Forall (fun o => no_lead_comma o /\ o <> "") (qcow2_wanted backingfile optargs).
Proof.
  unfold qcow2_wanted. rewrite !Forall_app. split_and!; destruct backingfile, optargs as [? [] [] [] []]; cbn; by repeat constructor.
Qed.

(** ** Subprocesses *)

(** What a function of this file leaves: a result that is 0 or -1, and no
    descriptor. *)
Definition left (s : cstate) (r : Z) (s' : cstate) : Prop :=
  (r = 0 \/ r = -1) /\ ck_open (cs_k s') = ck_open (cs_k s) /\
  ((forall e, Some e ∉ ck_wait (cs_k s)) -> ck_children (cs_k s') = ck_children (cs_k s)).

Lemma new_command_holds g k : holds (ck_open k) (ck_children k) (mk_run g (guestfs___new_command tt) k).
Proof. split; [unfold kept, owned; cbn; set_solver|cbn; set_solver]. Qed.

(** The end of a computation with a command. *)
Lemma with_command_run (m : cm unit Z) s x r :
  m (mk_run (cs_g s) (guestfs___new_command tt) (cs_k s)) = (Ret x, r) -> x = 0 \/ x = -1 ->
  holds (ck_open (cs_k s)) (ck_children (cs_k s)) r ->
  (0 < c_pid (r_cmd r) -> c_pid (r_cmd r) ∉ ck_children (cs_k s)) -> ck_wait (r_k r) ⊆ ck_wait (cs_k s) ->
  exists s', with_command m s = (Ret x, s') /\ left s x s' /\ cs_ops s' = cs_ops s.
Proof.
  intros E Hx Hh Hp Hw. destruct (cmd_close_run _ _ r Hh Hp) as (r2 & E2 & Ho & _ & Hc).
  unfold with_command. rewrite (bind_Ret _ _ _ _ _ E), (bind_Ret _ _ _ _ _ E2). eexists. split; [reflexivity|].
  split; [|done]. split; [done|]. split; [done|]. intros Hno. apply Hc. intros e He. by apply (Hno e), Hw.
Qed.

Section create_lemmas.
Context (stat : string -> option file_kind) (blksize64 : string -> Z) (errno_text : string) (strsignal : Z -> string).

Lemma disk_create_qcow2_run f size backingfile optargs s : fresh_pid (cs_k s) ->
  exists x s', disk_create_qcow2 strsignal f size backingfile optargs s = (Ret x, s') /\ left s x s' /\ cs_ops s' = cs_ops s.
Proof.
  intros Hf. unfold disk_create_qcow2. set (r0 := mk_run (cs_g s) (guestfs___new_command tt) (cs_k s)).
  destruct (check_qcow2 optargs) as [msg|] eqn:Ec.
  { eexists. eapply with_command_run; [reflexivity|by right|apply (new_command_holds _ (cs_k s))|cbn; lia|done]. }
  destruct (qcow2_command_run f size backingfile optargs Ec) as (cmd & Eb & Hb).
  assert (build (qcow2_command f size backingfile optargs) r0 = (Ret tt, r0 <| r_cmd := cmd |>)) as E1
    by (unfold build, zoom; cbn [r_cmd r0]; by rewrite Eb).
  destruct (cmd_run_run (r0 <| r_cmd := cmd |>)) as (y & r & E2 & Hh & Hp & Hw & _); [by eapply built_ready|done|].
  set (k := fun y => if negb (WIFEXITED y) || negb (WEXITSTATUS y =? 0) then
      modify (fun st => st <| r_g ::= fun g => guestfs___external_command_failed strsignal g y "qemu-img" (Some f) |>) ;;;
      ret (-1) else ret 0 : cm unit Z).
  assert (exists x g, k y r = (Ret x, r <| r_g := g |>) /\ (x = 0 \/ x = -1)) as (x & g & E3 & Hx).
  { unfold k. destruct (_ || _); [eexists _, _; split; [reflexivity|by right]|].
    exists 0, (r_g r). split; [by destruct r|by left]. }
  exists x. eapply (with_command_run _ s x (r <| r_g := g |>)); [|done|exact Hh|exact Hp|exact Hw].
  rewrite (bind_Ret _ _ _ _ _ E1), (bind_Ret _ _ _ _ _ E2). exact E3.
Qed.

(** ** Raw files *)

(** The calls on the file and their answers: its size, [None] when it is not
    there. *)
Definition file_step (filename : string) (st : option Z) (op : host_op * option Z) : option Z :=
  match op with
  | (CreateFile f, None) => if STREQ f filename then Some 0 else st
  | (Ftruncate f n, None) | (PosixFallocate f _ n, None) => if STREQ f filename then Some n else st
  | (Unlink f, None) => if STREQ f filename then None else st
  | _ => st
  end.
Definition file_after (filename : string) (before : option Z) (ops : list (host_op * option Z)) : option Z :=
  fold_left (file_step filename) ops before.

Lemma STREQ_refl s : STREQ s s = true.
Proof. by apply bool_decide_eq_true. Qed.

(** The answers to the removals that were asked for. *)
Definition unlinks_work (ops : list (host_op * option Z)) : Prop :=
  Forall (fun '(op, a) => match op with Unlink _ => a = None | _ => True end) ops.

(** [s'] comes from [s] by these calls, without a subprocess. *)
Definition added s (new : list (host_op * option Z)) s' : Prop :=
  cs_k s' = cs_k s /\ cs_ops s' = cs_ops s ++ new.

Lemma added_refl s : added s [] s.
Proof. split; [done|by rewrite app_nil_r]. Qed.

Lemma added_sys s new s' op : added s new s' ->
  exists a s'', sys op s' = (Ret a, s'') /\ added s (new ++ [(op, a)]) s''.
Proof.
  intros [Hk Ho]. unfold sys. destruct (answer (cs_answers s')) as [a q]. eexists _, _. split; [reflexivity|].
  split; [done|]. cbn. by rewrite Ho, app_assoc.
Qed.

Lemma added_perrorf s new s' e m : added s new s' -> exists s'', perrorf e m s' = (Ret tt, s'') /\ added s new s''.
Proof. intros Ha. eexists. split; [reflexivity|]. exact Ha. Qed.

Lemma raw_failed_run s new s' filename e what close : added s new s' ->
  exists s'' a b, raw_failed filename e what close s' = (Ret (-1), s'') /\
    added s (new ++ (if close then [(CloseFile filename, a)] else []) ++ [(Unlink filename, b)]) s''.
Proof.
  intros Ha. unfold raw_failed. destruct (added_perrorf _ _ _ e (filename +:+ ": " +:+ what) Ha) as (s1 & E1 & Ha1).
  rewrite (bind_Ret _ _ _ _ _ E1). destruct close.
  - destruct (added_sys _ _ _ (CloseFile filename) Ha1) as (a & s2 & E2 & Ha2).
    assert ((sys (CloseFile filename) ;;; ret tt) s1 = (Ret tt, s2)) as E2' by (by rewrite (bind_Ret _ _ _ _ _ E2)).
    rewrite (bind_Ret _ _ _ _ _ E2'). destruct (added_sys _ _ _ (Unlink filename) Ha2) as (b & s3 & E3 & Ha3).
    rewrite (bind_Ret _ _ _ _ _ E3). exists s3, a, b. split; [done|]. by rewrite <- app_assoc in Ha3.
  - rewrite (bind_Ret _ _ _ _ _ (eq_refl : ret tt s1 = (Ret tt, s1))).
    destruct (added_sys _ _ _ (Unlink filename) Ha1) as (b & s3 & E3 & Ha3).
    rewrite (bind_Ret _ _ _ _ _ E3). by exists s3, None, b.
Qed.

(** The outcome of making a file, for the one that was there before. *)
Definition raw_outcome (filename : string) (size : Z) (r : Z) (new : list (host_op * option Z)) : Prop :=
  (forall f, (exists op, op ∈ new.*1 /\ match op with CreateFile g | Unlink g => g = f | _ => False end) -> f = filename) /\
  forall before,
    (r = 0 /\ file_after filename before new = Some size) \/
    (r = -1 /\ (unlinks_work new -> file_after filename before new = before \/ file_after filename before new = None)).

Ltac solve_names :=
  intros f (op & Hop & Hm); cbn in Hop; rewrite ?elem_of_cons in Hop;
  repeat (destruct Hop as [->|Hop]; [by first [done|symmetry in Hm; exact Hm|exact Hm]|]); by apply not_elem_of_nil in Hop.

Lemma raw_file_run filename size allocated s :
  exists r new s', disk_create_raw_file filename size allocated s = (Ret r, s') /\ added s new s' /\
    raw_outcome filename size r new.
Proof.
  unfold disk_create_raw_file. destruct (added_sys _ _ _ (CreateFile filename) (added_refl s)) as (a & s1 & E1 & A1).
  rewrite (bind_Ret _ _ _ _ _ E1). destruct a as [e|].
  { destruct (added_perrorf _ _ _ e ("cannot create raw file: " +:+ filename) A1) as (s2 & E2 & A2).
    rewrite (bind_Ret _ _ _ _ _ E2). eexists _, _, _. split; [reflexivity|]. split; [exact A2|]. split; [solve_names|].
    intros before. right. split; [done|]. intros _. by left. }
  set (op2 := if allocated then PosixFallocate filename 0 size else Ftruncate filename size).
  destruct (added_sys _ _ _ op2 A1) as (a & s2 & E2 & A2).
  rewrite (bind_Ret _ _ _ _ _ E2). destruct a as [e|].
  { destruct (raw_failed_run _ _ _ filename e (if allocated then "fallocate" else "truncate") true A2) as (s3 & a & b & E3 & A3).
    eexists (-1), _, s3. split; [exact E3|]. split; [exact A3|]. split; [unfold op2; destruct allocated; solve_names|].
    intros before. right. split; [done|]. intros Hu. right. do 3 (apply Forall_cons in Hu as [_ Hu]).
    apply Forall_cons in Hu as [Hb _]. cbn in Hb. subst b. unfold file_after, op2. by destruct allocated; cbn; rewrite STREQ_refl. }
  destruct (added_sys _ _ _ (CloseFile filename) A2) as (a & s3 & E3 & A3).
  rewrite (bind_Ret _ _ _ _ _ E3). destruct a as [e|].
  { destruct (raw_failed_run _ _ _ filename e "close" false A3) as (s4 & a & b & E4 & A4).
    eexists (-1), _, s4. split; [exact E4|]. split; [exact A4|]. split; [unfold op2; destruct allocated; solve_names|].
    intros before. right. split; [done|]. intros Hu. right. do 3 (apply Forall_cons in Hu as [_ Hu]).
    apply Forall_cons in Hu as [Hb _]. cbn in Hb. subst b. unfold file_after, op2. by destruct allocated; cbn; rewrite STREQ_refl. }
  eexists 0, _, s3. split; [reflexivity|]. split; [exact A3|]. split; [unfold op2; destruct allocated; solve_names|].
  intros before. left. split; [done|]. unfold file_after, op2. by destruct allocated; cbn; rewrite STREQ_refl.
Qed.

End create_lemmas.

(** * Theorems *)

(** The arguments a raw image accepts. *)
Definition raw_args_ok (size : Z) (optargs : disk_create_argv) : bool :=
  (0 <? size) &&
  bool_decide (dca_backingfile optargs = None /\ dca_backingformat optargs = None /\ dca_compat optargs = None /\
               dca_clustersize optargs = None /\
               (dca_preallocation optargs = None \/ dca_preallocation optargs = Some "sparse" \/
                dca_preallocation optargs = Some "full")).

(** The calls made for a block device: it is never created, resized or removed. *)
Definition only_discards (filename : string) (len : Z) (new : list (host_op * option Z)) : Prop :=
  Forall (fun '(op, _) => op ∈ [OpenBlock filename; GetSize64 filename; Discard filename 0 len; CloseFile filename]) new.

Section theorems.
Context (stat : string -> option file_kind) (blksize64 : string -> Z) (errno_text : string) (strsignal : Z -> string).

Lemma raw_block_run filename s : exists r new s',
  disk_create_raw_block blksize64 errno_text filename s = (Ret r, s') /\ added s new s' /\ (r = 0 \/ r = -1) /\
  only_discards filename (u64 (blksize64 filename)) new.
Proof.
  unfold disk_create_raw_block, only_discards.
  destruct (added_sys _ _ _ (OpenBlock filename) (added_refl s)) as (a & s1 & E1 & A1). rewrite (bind_Ret _ _ _ _ _ E1).
  destruct a as [e|].
  { destruct (added_perrorf _ _ _ e ("cannot open block device: " +:+ filename) A1) as (s2 & E2 & A2).
    rewrite (bind_Ret _ _ _ _ _ E2). eexists _, _, _. split; [reflexivity|]. split; [exact A2|]. split; [by right|].
    repeat constructor. }
  destruct (added_sys _ _ _ (GetSize64 filename) A1) as (a & s2 & E2 & A2). rewrite (bind_Ret _ _ _ _ _ E2).
  match goal with |- context [bind ?m] => assert (exists new s3, m s2 = (Ret tt, s3) /\ added s new s3 /\
    Forall (fun '(op, _) => op ∈ [OpenBlock filename; GetSize64 filename; Discard filename 0 (u64 (blksize64 filename));
      CloseFile filename]) new) as (new & s3 & E3 & A3 & F3) end.
  { destruct a as [e|]; [eexists _, _; split; [reflexivity|]; split; [exact A2|]; repeat constructor|].
    destruct (added_sys _ _ _ (Discard filename 0 (u64 (blksize64 filename))) A2) as (a & s3 & E3 & A3).
    rewrite (bind_Ret _ _ _ _ _ E3). destruct a as [e|]; (eexists _, _; split; [reflexivity|]; split; [exact A3|]; repeat constructor). }
  rewrite (bind_Ret _ _ _ _ _ E3).
  destruct (added_sys _ _ _ (CloseFile filename) A3) as (a' & s4 & E4 & A4). rewrite (bind_Ret _ _ _ _ _ E4).
  eexists _, _, _. split; [reflexivity|]. split; [exact A4|]. split; [by left|]. apply Forall_app. split; [done|]. repeat constructor.
Qed.

Lemma fail_run s msg : exists s', fail msg s = (Ret (-1), s') /\ added s [] s'.
Proof. eexists. split; [reflexivity|]. apply (added_refl s). Qed.

(** What making a raw image does, in terms of its arguments and of the file. *)
Definition raw_spec (filename : string) (size : Z) (optargs : disk_create_argv) (r : Z)
    (new : list (host_op * option Z)) : Prop :=
  (r = 0 \/ r = -1) /\
  if negb (raw_args_ok size optargs) then r = -1 /\ new = []
  else match stat filename with
       | Some IsChr => r = -1 /\ new = []
       | Some IsBlk => only_discards filename (u64 (blksize64 filename)) new
       | _ => raw_outcome filename size r new
       end.

Lemma raw_run filename size optargs s : dca_backingfile optargs = None -> 0 < size ->
  exists r new s', disk_create_raw stat blksize64 errno_text filename size optargs s = (Ret r, s') /\
    added s new s' /\ raw_spec filename size optargs r new.
Proof.
  intros Hb Hs. unfold disk_create_raw, raw_spec, raw_args_ok. destruct optargs as [bf fmt pre com clu]; cbn in *. subst bf.
  replace (0 <? size) with true by (symmetry; by apply Z.ltb_lt). cbn [andb].
  assert (forall msg, exists r new s', fail msg s = (Ret r, s') /\ added s new s' /\ (r = 0 \/ r = -1) /\ r = -1 /\ new = []) as Hfail.
  { intros msg. destruct (fail_run s msg) as (s' & E & A). exists (-1), [], s'. split_and!; try done. by right. }
  destruct fmt as [f|]; [rewrite bool_decide_true by done; rewrite (bool_decide_false (_ /\ _)) by naive_solver; apply Hfail|].
  rewrite bool_decide_false by (by intros []).
  match goal with |- context [match ?x with Some allocated => _ | None => _ end] => destruct x as [allocated|] eqn:Ep end; cycle 1.
  { rewrite bool_decide_false; [apply Hfail|]. intros (_ & _ & _ & _ & [->|[->| ->]]); cbn in Ep; discriminate. }
  destruct com as [c|]; [rewrite bool_decide_true by done; rewrite (bool_decide_false (_ /\ _)) by naive_solver; apply Hfail|].
  rewrite bool_decide_false by (by intros []).
  destruct clu as [c|]; [rewrite bool_decide_true by done; rewrite (bool_decide_false (_ /\ _)) by naive_solver; apply Hfail|].
  rewrite bool_decide_false by (by intros []). rewrite bool_decide_true; cycle 1.
  { split_and!; try done. destruct pre as [p|]; [|by left]. right. unfold STREQ in Ep.
    repeat case_bool_decide; subst; [by left|by right|done]. }
  cbn [negb]. destruct (stat filename) as [[]|].
  - destruct (fail_run s ("refusing to overwrite char device '" +:+ filename +:+ "'")) as (s' & E & A).
    exists (-1), [], s'. split_and!; try done. by right.
  - destruct (raw_block_run filename s) as (r & new & s' & E & A & Hr & Ho). by exists r, new, s'.
  - destruct (raw_file_run filename size allocated s) as (r & new & s' & E & A & Ho). exists r, new, s'. split_and!; try done.
    destruct Ho as [_ Ho]. destruct (Ho None) as [[? _]|[? _]]; auto.
  - destruct (raw_file_run filename size allocated s) as (r & new & s' & E & A & Ho). exists r, new, s'. split_and!; try done.
    destruct Ho as [_ Ho]. destruct (Ho None) as [[? _]|[? _]]; auto.
Qed.

(** A raw image: with wrong arguments, or for a character device, nothing is touched; a
    block device is discarded and never created, resized or removed; any other file has the size
    asked for when the call succeeds, and is as before or removed again when it fails, whichever
    system call fails. *)
Theorem disk_create_raw_image (filename : string) (size : Z) (optargs : disk_create_argv) (s : cstate) :
  exists r new s', guestfs__disk_create stat blksize64 errno_text strsignal filename "raw" size optargs s = (Ret r, s') /\
    cs_ops s' = cs_ops s ++ new /\ cs_k s' = cs_k s /\ raw_spec filename size optargs r new.
Proof.
  unfold guestfs__disk_create.
  assert (forall msg, raw_args_ok size optargs = false -> exists r new s', fail msg s = (Ret r, s') /\
    cs_ops s' = cs_ops s ++ new /\ cs_k s' = cs_k s /\ raw_spec filename size optargs r new) as Hfail.
  { intros msg Hno. destruct (fail_run s msg) as (s' & E & Hk & Ho). exists (-1), [], s'. split; [done|].
    split; [done|]. split; [done|]. split; [by right|]. by rewrite Hno. }
  destruct (dca_backingfile optargs) as [b|] eqn:Eb.
  { assert (raw_args_ok size optargs = false) as Hno.
    { unfold raw_args_ok. rewrite bool_decide_false, andb_false_r; [done|]. rewrite Eb. by intros [? _]. }
    destruct (negb (size =? -1)); [by apply Hfail|]. cbn. by apply Hfail. }
  destruct (Z.leb_spec size 0).
  { apply Hfail. unfold raw_args_ok. by replace (0 <? size) with false by (symmetry; by apply Z.ltb_ge). }
  cbn [STREQ]. rewrite STREQ_refl. rewrite bool_decide_false by (by intros []).
  destruct (raw_run filename size optargs s Eb ltac:(done)) as (r & new & s' & E & [Hk Ho] & Hr).
  rewrite (bind_Ret _ _ _ _ _ E). exists r, new, s'.
  pose proof Hr as [Hr01 _]. destruct Hr01 as [->| ->]; by split_and!.
Qed.

(** guestfs_disk_create returns 0 or -1 whatever the kernel answers, no descriptor is left
    open and no child is left unless waitpid fails. *)
Theorem disk_create_releases (filename format : string) (size : Z) (optargs : disk_create_argv) (s : cstate) :
  fresh_pid (cs_k s) ->
  exists r s', guestfs__disk_create stat blksize64 errno_text strsignal filename format size optargs s = (Ret r, s') /\
    left s r s'.
Proof.
  intros Hf.
  assert (forall m : crm Z, (exists r new s', m s = (Ret r, s') /\ added s new s' /\ (r = 0 \/ r = -1)) ->
    exists r s', m s = (Ret r, s') /\ left s r s') as Hadd.
  { intros m (r & new & s' & E & [Hk _] & Hr). exists r, s'. split; [done|]. split; [done|]. by rewrite Hk. }
  assert (forall msg, exists r s', fail msg s = (Ret r, s') /\ left s r s') as Hfail.
  { intros msg. apply Hadd. destruct (fail_run s msg) as (s' & E & A). exists (-1), [], s'. split_and!; try done. by right. }
  unfold guestfs__disk_create. match goal with |- context [match ?x with Some msg => fail _ | None => _ end] => destruct x eqn:Ex end;
    [apply Hfail|].
  destruct (STREQ format "raw").
  { destruct (dca_backingfile optargs) as [b|] eqn:Eb; [apply Hfail|]. rewrite bool_decide_false by (by intros []).
    destruct (Z.leb_spec size 0); [done|].
    destruct (raw_run filename size optargs s Eb ltac:(done)) as (r & new & s' & E & A & [Hr _]). apply Hadd.
    rewrite (bind_Ret _ _ _ _ _ E). exists r, new, s'. destruct Hr as [->| ->]; split_and!; auto. }
  destruct (STREQ format "qcow2"); [|apply Hfail].
  destruct (disk_create_qcow2_run strsignal filename size (dca_backingfile optargs) optargs s Hf) as (r & s' & E & Hl & _).
  rewrite (bind_Ret _ _ _ _ _ E). exists r, s'. split; [|done]. by destruct Hl as [[->| ->] _].
Qed.

End theorems.

(** The command line of qemu-img for valid arguments: the file name is one that qemu does
    not take for a protocol, and the reader of qemu's option lists finds exactly the options
    meant, the backing file with all its commas. *)
Theorem qcow2_options_roundtrip (orig_filename : string) (size : Z) (backingfile : option string)
    (optargs : disk_create_argv) :
  check_qcow2 optargs = None ->
  exists cmd options, qcow2_command orig_filename size backingfile optargs (guestfs___new_command tt) = (Ret tt, cmd) /\
    ready cmd /\ built (qcow2_argv options orig_filename size (qcow2_wanted backingfile optargs)) cmd /\
    (qcow2_wanted backingfile optargs <> [] -> qemu_opts options = qcow2_wanted backingfile optargs) /\
    (String.prefix "/" (qcow2_filename orig_filename) = true \/ String.prefix "./" (qcow2_filename orig_filename) = true).
Proof.
  intros Hc. destruct (qcow2_command_run orig_filename size backingfile optargs Hc) as (cmd & E & Hb).
  eexists cmd, _. split; [exact E|]. split; [by eapply built_ready|]. split; [exact Hb|]. split.
  - intros Hne. apply qemu_opts_join; [done|apply wanted_entries].
  - unfold qcow2_filename. destruct (String.prefix "/" orig_filename) eqn:Ep; cbn [negb]; [by left|]. right.
    by destruct orig_filename.
Qed.

(** The cluster sizes accepted for qcow2 are the powers of two from 512 to 2097152. *)
Theorem clustersize_powers (optargs : disk_create_argv) (z : Z) :
  - 2 ^ 31 <= z < 2 ^ 31 -> dca_clustersize optargs = Some z ->
  dca_backingformat optargs = None -> dca_preallocation optargs = None -> dca_compat optargs = None ->
  check_qcow2 optargs = None <-> exists k, 9 <= k <= 21 /\ z = 2 ^ k.
Proof.
  intros Hz Hcl Hf Hp Hco. unfold check_qcow2. rewrite Hcl, Hf, Hp, Hco, <- valid_clustersize_spec by done.
  cbn [union option_union]. destruct (valid_clustersize z); cbn; naive_solver.
Qed.

(** * Examples *)

Definition no_opts : disk_create_argv := mk_disk_create_argv None None None None None.
Definition ex_cstate : cstate := mk_cstate Examples.ex_handle (mk_cmd_kernel [] (inr 7%positive) [] [] [] [] [] 0 {[0; 1; 2]} ∅) [] [].

(** The message that discarding failed is the one for a discard that succeeded. *)
Lemma blkdiscard_success_reported :
  let s := ex_cstate <| cs_g ::= fun g => g <| g_cfg; verbose := true |> |> in
  (exists m, m ∈ g_out (cs_g (snd (disk_create_raw_block (fun _ => 4096) "Success" "/dev/sdx" s))) /\
             m ∉ g_out (cs_g s)) /\
  g_out (cs_g (snd (disk_create_raw_block (fun _ => 4096) "Success" "/dev/sdx"
    (s <| cs_answers := [None; None; Some 95] |>)))) = g_out (cs_g s).
Proof.
  split; [|by vm_compute]. eexists. split; [vm_compute; by left|]. vm_compute. intros H. by apply not_elem_of_nil in H.
Qed.

Lemma disk_create_releases_witness :
  exists r s', guestfs__disk_create (fun _ => None) (fun _ => 0) "" (fun _ => "") "a,b" "qcow2" (-1)
    (mk_disk_create_argv (Some "x,y") (Some "raw") None None (Some 4096)) ex_cstate = (Ret r, s') /\ left ex_cstate r s'.
Proof. apply disk_create_releases. intros pid _. set_solver. Defined.

Lemma qcow2_options_roundtrip_witness :
  exists cmd options, qcow2_command "a,b" (-1) (Some "x,y") (mk_disk_create_argv (Some "x,y") (Some "raw") None None (Some 4096))
      (guestfs___new_command tt) = (Ret tt, cmd) /\
    qemu_opts options = ["backing_file=x,y"; "backing_fmt=raw"; "cluster_size=4096"].
Proof.
  destruct (qcow2_options_roundtrip "a,b" (-1) (Some "x,y") (mk_disk_create_argv (Some "x,y") (Some "raw") None None (Some 4096)))
    as (cmd & options & E & _ & _ & Ho & _); [reflexivity|]. exists cmd, options. split; [exact E|]. by apply Ho.
Defined.

Lemma clustersize_powers_witness :
  check_qcow2 (mk_disk_create_argv None None None None (Some 65536)) = None <-> exists k, 9 <= k <= 21 /\ 65536 = 2 ^ k.
Proof. apply clustersize_powers; [lia|reflexivity..]. Defined.
