(* ===== verification/Fuse.v ===== *)
(** src/fuse.c: the guest's file system mounted on the host through FUSE.

    Each operation is a callback of libfuse that calls the API and returns 0 or
    a negated errno; three caches, filled by readdir, keep attributes, extended
    attributes and links for a short time.  libfuse, gnulib's hash tables and
    the calls of the API are parameters. *)

From S2P Require Import Prelude Handle Events Conn LibProto Utils Config Lifecycle Drives Command Guestfsd LibFile.
From Stdlib Require Import Ascii.
Local Open Scope Z_scope.

(** * The directory caches *)

(** gnulib's hash tables of entries with a path name: [None] is NULL, when
    there is no memory.  [hash_remove_if] is hash_do_for_each with a function
    that deletes some of the entries. *)
Class Hash (T : Type -> Type) := {
  hash_initialize {A} : option (T A);
  hash_lookup {A} : T A -> string -> option A;
  hash_delete {A} : T A -> string -> T A;
  hash_insert {A} : T A -> string -> A -> option (T A);
  hash_remove_if {A} : (A -> bool) -> T A -> T A
}.

Class HashLaws (T : Type -> Type) `{Hash T} := {
  hash_lookup_initialize {A} (t : T A) p : hash_initialize = Some t -> hash_lookup t p = None;
  hash_lookup_delete {A} (t : T A) p q :
    hash_lookup (hash_delete t p) q = if decide (p = q) then None else hash_lookup t q;
  hash_lookup_insert {A} (t t' : T A) p x q : hash_lookup t p = None -> hash_insert t p x = Some t' ->
    hash_lookup t' q = if decide (p = q) then Some x else hash_lookup t q;
  hash_lookup_remove_if {A} (f : A -> bool) (t : T A) p :
    hash_lookup (hash_remove_if f t) p =
    match hash_lookup t p with Some x => if f x then None else Some x | None => None end
}.

(** struct entry_common, with the value the table is for. *)
Record entry (A : Type) := mk_entry { timeout : Z; value : A }.
Arguments mk_entry {A}.
Arguments timeout {A}.
Arguments value {A}.

(** struct stat, with nanoseconds. *)
Record fstat := mk_fstat {
  s_dev : Z; s_ino : Z; s_mode : Z; s_nlink : Z; s_uid : Z; s_gid : Z; s_rdev : Z; s_size : Z; s_blksize : Z;
  s_blocks : Z; s_atime : Z; s_atime_nsec : Z; s_mtime : Z; s_mtime_nsec : Z; s_ctime : Z; s_ctime_nsec : Z
}.
Record dirent := mk_dirent { d_ino : Z; d_ftyp : ascii; d_name : string }.
Record statvfs := mk_statvfs {
  f_bsize : Z; f_frsize : Z; f_blocks : Z; f_bfree : Z; f_bavail : Z; f_files : Z; f_ffree : Z; f_favail : Z;
  f_fsid : Z; f_flag : Z; f_namemax : Z
}.

(** The handle as fuse.c uses it, the clock, libfuse's answers, the kernel's
    side of subprocesses and the guest. *)
Record fuse (T : Type -> Type) (G : Type) := mk_fuse {
  fu_g : guestfs_h;
  localmountpoint : option string;
  fu_fuse : bool;                    (* g->fuse is not NULL *)
  fu_channel : option string;        (* where libfuse has a channel that is open *)
  ml_dir_cache_timeout : Z;
  ml_read_only : Z;
  ml_debug_calls : Z;
  lsc_ht : option (T (entry fstat));
  xac_ht : option (T (entry (list xattr)));
  rlc_ht : option (T (entry string));
  fu_now : Z;
  fu_answers : list (option Z);
  fu_k : cmd_kernel;
  fu_guest : G
}.
Arguments mk_fuse {T G}.
Arguments fu_g {T G}.
Arguments localmountpoint {T G}.
Arguments fu_fuse {T G}.
Arguments fu_channel {T G}.
Arguments ml_dir_cache_timeout {T G}.
Arguments ml_read_only {T G}.
Arguments ml_debug_calls {T G}.
Arguments lsc_ht {T G}.
Arguments xac_ht {T G}.
Arguments rlc_ht {T G}.
Arguments fu_now {T G}.
Arguments fu_answers {T G}.
Arguments fu_k {T G}.
Arguments fu_guest {T G}.
#[export] Instance upd_fu_g {T G} : Field (@fu_g T G) := fun f r =>
  mk_fuse (f (fu_g r)) (localmountpoint r) (fu_fuse r) (fu_channel r) (ml_dir_cache_timeout r) (ml_read_only r)
    (ml_debug_calls r) (lsc_ht r) (xac_ht r) (rlc_ht r) (fu_now r) (fu_answers r) (fu_k r) (fu_guest r).
#[export] Instance upd_localmountpoint {T G} : Field (@localmountpoint T G) := fun f r =>
  mk_fuse (fu_g r) (f (localmountpoint r)) (fu_fuse r) (fu_channel r) (ml_dir_cache_timeout r) (ml_read_only r)
    (ml_debug_calls r) (lsc_ht r) (xac_ht r) (rlc_ht r) (fu_now r) (fu_answers r) (fu_k r) (fu_guest r).
#[export] Instance upd_fu_fuse {T G} : Field (@fu_fuse T G) := fun f r =>
  mk_fuse (fu_g r) (localmountpoint r) (f (fu_fuse r)) (fu_channel r) (ml_dir_cache_timeout r) (ml_read_only r)
    (ml_debug_calls r) (lsc_ht r) (xac_ht r) (rlc_ht r) (fu_now r) (fu_answers r) (fu_k r) (fu_guest r).
#[export] Instance upd_fu_channel {T G} : Field (@fu_channel T G) := fun f r =>
  mk_fuse (fu_g r) (localmountpoint r) (fu_fuse r) (f (fu_channel r)) (ml_dir_cache_timeout r) (ml_read_only r)
    (ml_debug_calls r) (lsc_ht r) (xac_ht r) (rlc_ht r) (fu_now r) (fu_answers r) (fu_k r) (fu_guest r).
#[export] Instance upd_ml_dir_cache_timeout {T G} : Field (@ml_dir_cache_timeout T G) := fun f r =>
  mk_fuse (fu_g r) (localmountpoint r) (fu_fuse r) (fu_channel r) (f (ml_dir_cache_timeout r)) (ml_read_only r)
    (ml_debug_calls r) (lsc_ht r) (xac_ht r) (rlc_ht r) (fu_now r) (fu_answers r) (fu_k r) (fu_guest r).
#[export] Instance upd_ml_read_only {T G} : Field (@ml_read_only T G) := fun f r =>
  mk_fuse (fu_g r) (localmountpoint r) (fu_fuse r) (fu_channel r) (ml_dir_cache_timeout r) (f (ml_read_only r))
    (ml_debug_calls r) (lsc_ht r) (xac_ht r) (rlc_ht r) (fu_now r) (fu_answers r) (fu_k r) (fu_guest r).
#[export] Instance upd_ml_debug_calls {T G} : Field (@ml_debug_calls T G) := fun f r =>
  mk_fuse (fu_g r) (localmountpoint r) (fu_fuse r) (fu_channel r) (ml_dir_cache_timeout r) (ml_read_only r) (f
    (ml_debug_calls r)) (lsc_ht r) (xac_ht r) (rlc_ht r) (fu_now r) (fu_answers r) (fu_k r) (fu_guest
    r).
#[export] Instance upd_lsc_ht {T G} : Field (@lsc_ht T G) := fun f r =>
  mk_fuse (fu_g r) (localmountpoint r) (fu_fuse r) (fu_channel r) (ml_dir_cache_timeout r) (ml_read_only r)
    (ml_debug_calls r) (f (lsc_ht r)) (xac_ht r) (rlc_ht r) (fu_now r) (fu_answers r) (fu_k r) (fu_guest
    r).
#[export] Instance upd_xac_ht {T G} : Field (@xac_ht T G) := fun f r =>
  mk_fuse (fu_g r) (localmountpoint r) (fu_fuse r) (fu_channel r) (ml_dir_cache_timeout r) (ml_read_only r)
    (ml_debug_calls r) (lsc_ht r) (f (xac_ht r)) (rlc_ht r) (fu_now r) (fu_answers r) (fu_k r) (fu_guest
    r).
#[export] Instance upd_rlc_ht {T G} : Field (@rlc_ht T G) := fun f r =>
  mk_fuse (fu_g r) (localmountpoint r) (fu_fuse r) (fu_channel r) (ml_dir_cache_timeout r) (ml_read_only r)
    (ml_debug_calls r) (lsc_ht r) (xac_ht r) (f (rlc_ht r)) (fu_now r) (fu_answers r) (fu_k r) (fu_guest
    r).
#[export] Instance upd_fu_now {T G} : Field (@fu_now T G) := fun f r =>
  mk_fuse (fu_g r) (localmountpoint r) (fu_fuse r) (fu_channel r) (ml_dir_cache_timeout r) (ml_read_only r)
    (ml_debug_calls r) (lsc_ht r) (xac_ht r) (rlc_ht r) (f (fu_now r)) (fu_answers r) (fu_k r) (fu_guest
    r).
#[export] Instance upd_fu_answers {T G} : Field (@fu_answers T G) := fun f r =>
  mk_fuse (fu_g r) (localmountpoint r) (fu_fuse r) (fu_channel r) (ml_dir_cache_timeout r) (ml_read_only r)
    (ml_debug_calls r) (lsc_ht r) (xac_ht r) (rlc_ht r) (fu_now r) (f (fu_answers r)) (fu_k r) (fu_guest
    r).
#[export] Instance upd_fu_k {T G} : Field (@fu_k T G) := fun f r =>
  mk_fuse (fu_g r) (localmountpoint r) (fu_fuse r) (fu_channel r) (ml_dir_cache_timeout r) (ml_read_only r)
    (ml_debug_calls r) (lsc_ht r) (xac_ht r) (rlc_ht r) (fu_now r) (fu_answers r) (f (fu_k r)) (fu_guest
    r).
#[export] Instance upd_fu_guest {T G} : Field (@fu_guest T G) := fun f r =>
  mk_fuse (fu_g r) (localmountpoint r) (fu_fuse r) (fu_channel r) (ml_dir_cache_timeout r) (ml_read_only r)
    (ml_debug_calls r) (lsc_ht r) (xac_ht r) (rlc_ht r) (fu_now r) (fu_answers r) (fu_k r) (f (fu_guest
    r)).

Definition fum (T : Type -> Type) (G : Type) := M (fuse T G).

(** * The calls of the API

    They act on the handle and the guest. *)

Class FuseCalls (G : Type) := {
  api_readdir : string -> M (guestfs_h * G) (option (list dirent));
  api_lstatnslist : string -> list string -> M (guestfs_h * G) (option (list statns));
  api_lxattrlist : string -> list string -> M (guestfs_h * G) (option (list xattr));
  api_readlinklist : string -> list string -> M (guestfs_h * G) (option (list string));
  api_lstatns : string -> M (guestfs_h * G) (option statns);
  api_readlink : string -> M (guestfs_h * G) (option string);
  api_mknod : Z -> Z -> Z -> string -> M (guestfs_h * G) Z;
  api_mkdir_mode : string -> Z -> M (guestfs_h * G) Z;
  api_rm : string -> M (guestfs_h * G) Z;
  api_rmdir : string -> M (guestfs_h * G) Z;
  api_ln_s : string -> string -> M (guestfs_h * G) Z;
  api_rename : string -> string -> M (guestfs_h * G) Z;
  api_ln : string -> string -> M (guestfs_h * G) Z;
  api_chmod : Z -> string -> M (guestfs_h * G) Z;
  api_lchown : Z -> Z -> string -> M (guestfs_h * G) Z;
  api_truncate_size : string -> Z -> M (guestfs_h * G) Z;
  api_utimens : string -> Z -> Z -> Z -> Z -> M (guestfs_h * G) Z;
  api_pread : string -> Z -> Z -> M (guestfs_h * G) (option (list byte));
  api_pwrite : string -> list byte -> Z -> M (guestfs_h * G) Z;
  api_statvfs : string -> M (guestfs_h * G) (option statvfs);
  api_sync : M (guestfs_h * G) Z;
  api_lsetxattr : string -> list byte -> string -> M (guestfs_h * G) Z;
  api_lgetxattrs : string -> M (guestfs_h * G) (option (list xattr));
  api_lremovexattr : string -> string -> M (guestfs_h * G) Z;
  api_exists : string -> M (guestfs_h * G) Z
}.

Definition EACCES : Z := 13.
Definition EINVAL : Z := 22.
Definition EROFS : Z := 30.
Definition ERANGE : Z := 34.
Definition ENOATTR : Z := 61.
Definition ENOMEM : Z := 12.

(** %o and %lx of a 32-bit number, of eleven and eight digits at most. *)
Fixpoint digits_in (base : Z) (fuel : nat) (z : Z) (acc : string) : string :=
  match fuel with
  | O => acc
  | S fuel' =>
      let acc := String (hex_digit (z mod base)) acc in
      if z / base =? 0 then acc else digits_in base fuel' (z / base) acc
  end.
Definition octal (z : Z) : string := digits_in 8 11 (u32 z) "".
Definition hexa (z : Z) : string := digits_in 16 16 (u64 z) "".

Section fuse.
Context {T : Type -> Type} {G : Type} `{Hash T} `{FuseCalls G}.
Context (ptr : string).                          (* how printf prints a pointer *)
Implicit Types w : fuse T G.

(** ** Effects *)

Definition on_api {A} (m : M (guestfs_h * G) A) : fum T G A :=
  zoom (fun w => (fu_g w, fu_guest w)) (fun x w => w <| fu_g := fst x |> <| fu_guest := snd x |>) m.
Definition on_g {A} (m : hm A) : fum T G A := zoom fu_g (fun g w => w <| fu_g := g |>) m.
Definition debug (msg : string) : fum T G unit := on_g (modify (fun g => guestfs___debug g msg)).
Definition perrorf (errnum : Z) (msg : string) : fum T G unit := on_g (modify (fun g => guestfs___perrorf g errnum msg)).
Definition time : fum T G Z := gets fu_now.

(** The macro DEBUG_CALL. *)
Definition DEBUG_CALL (func args : string) : fum T G unit := fun w =>
  if is_true (ml_debug_calls w)
  then debug (default "(null)" (localmountpoint w) +:+ ": " +:+ func +:+ " (" +:+ args +:+ ")") w
  else ret tt w.

(** The macro RETURN_ERRNO. *)
Definition RETURN_ERRNO : fum T G Z := fun w =>
  let ret_errno := guestfs_last_errno (fu_g w) in
  let ret_errno := if ret_errno =? 0 then EINVAL else ret_errno in
  ret (- ret_errno) w.

(** The end of most operations: 0, or the error of the call. *)
Definition int_result (r : Z) : fum T G Z := if r =? -1 then RETURN_ERRNO else ret 0.

(** ** The caches *)

(** The path name of an entry. *)
Definition entry_path (path name : string) : string :=
  if STREQ path "/" then "/" +:+ name else path +:+ "/" +:+ name.

(** A table that is not there is dereferenced. *)
Definition table {A} (t : option A) : fum T G A :=
  match t with Some t => ret t | None => halt Undefined end.

Definition gen_replace {A} (get : fuse T G -> option (T (entry A))) (set : T (entry A) -> fuse T G -> fuse T G)
    (pathname : string) (new_entry : entry A) : fum T G Z := fun w =>
  (t <- table (get w) ;;
   let t := hash_delete t pathname in
   match hash_insert t pathname new_entry with
   | None => modify (set t) ;;; perrorf ENOMEM "hash_insert" ;;; ret (-1)
   | Some t => modify (set t) ;;; ret 0
   end) w.

Definition lsc_insert (path name : string) (now : Z) (statbuf : fstat) : fum T G Z := fun w =>
  gen_replace lsc_ht (fun t w => w <| lsc_ht := Some t |>) (entry_path path name)
    (mk_entry (now + ml_dir_cache_timeout w) statbuf) w.
Definition xac_insert (path name : string) (now : Z) (xattrs : list xattr) : fum T G Z := fun w =>
  gen_replace xac_ht (fun t w => w <| xac_ht := Some t |>) (entry_path path name)
    (mk_entry (now + ml_dir_cache_timeout w) xattrs) w.
Definition rlc_insert (path name : string) (now : Z) (link : string) : fum T G Z := fun w =>
  gen_replace rlc_ht (fun t w => w <| rlc_ht := Some t |>) (entry_path path name)
    (mk_entry (now + ml_dir_cache_timeout w) link) w.

Definition gen_lookup {A} (get : fuse T G -> option (T (entry A))) (pathname : string) : fum T G (option A) := fun w =>
  (now <- time ;;
   t <- table (get w) ;;
   ret (match hash_lookup t pathname with
        | Some e => if now <=? timeout e then Some (value e) else None
        | None => None
        end)) w.
Definition lsc_lookup : string -> fum T G (option fstat) := gen_lookup lsc_ht.
Definition xac_lookup : string -> fum T G (option (list xattr)) := gen_lookup xac_ht.
Definition rlc_lookup : string -> fum T G (option string) := gen_lookup rlc_ht.

Definition gen_remove_if_expired {A} (now : Z) (e : entry A) : bool := timeout e <? now.

(** The three tables, each changed by [f]. *)
Definition on_tables (f : forall A, T (entry A) -> T (entry A)) : fum T G unit := fun w =>
  (l <- table (lsc_ht w) ;; x <- table (xac_ht w) ;; r <- table (rlc_ht w) ;;
   modify (fun w => w <| lsc_ht := Some (f _ l) |> <| xac_ht := Some (f _ x) |> <| rlc_ht := Some (f _ r) |>)) w.

Definition dir_cache_remove_all_expired (now : Z) : fum T G unit :=
  on_tables (fun A t => hash_remove_if (gen_remove_if_expired now) t).
Definition dir_cache_invalidate (path : string) : fum T G unit := on_tables (fun A t => hash_delete t path).

Definition free_dir_caches : fum T G unit :=
  modify (fun w => w <| lsc_ht := None |> <| xac_ht := None |> <| rlc_ht := None |>).

Definition init_dir_caches : fum T G Z :=
  modify (fun w => w <| lsc_ht := hash_initialize |> <| xac_ht := hash_initialize |> <| rlc_ht := hash_initialize |>) ;;;
  fun w =>
  match lsc_ht w, xac_ht w, rlc_ht w with
  | Some _, Some _, Some _ => ret 0 w
  | _, _, _ => (on_g (report "could not initialize dir cache hashtables") ;;; ret (-1)) w
  end.

(** ** Reading directories *)

Definition S_IFIFO : Z := 0x1000.
Definition S_IFCHR : Z := 0x2000.
Definition S_IFDIR : Z := 0x4000.
Definition S_IFBLK : Z := 0x6000.
Definition S_IFREG : Z := 0x8000.
Definition S_IFLNK : Z := 0xa000.
Definition S_IFSOCK : Z := 0xc000.

Definition ftyp_mode (ftyp : ascii) : Z :=
  if Ascii.eqb ftyp "b" then S_IFBLK else if Ascii.eqb ftyp "c" then S_IFCHR
  else if Ascii.eqb ftyp "d" then S_IFDIR else if Ascii.eqb ftyp "f" then S_IFIFO
  else if Ascii.eqb ftyp "l" then S_IFLNK else if Ascii.eqb ftyp "r" then S_IFREG
  else if Ascii.eqb ftyp "s" then S_IFSOCK else 0.

Definition dirent_stat (e : dirent) : fstat :=
  mk_fstat 0 (d_ino e) (ftyp_mode (d_ftyp e)) 0 0 0 0 0 0 0 0 0 0 0 0 0.

(** The attributes as the kernel has them. *)
Definition stat_of (a : statns) : fstat :=
  mk_fstat (st_dev a) (st_ino a) (st_mode a) (st_nlink a) (st_uid a) (st_gid a) (st_rdev a) (st_size a) (st_blksize a)
    (st_blocks a) (st_atime_sec a) (st_atime_nsec a) (st_mtime_sec a) (st_mtime_nsec a) (st_ctime_sec a) (st_ctime_nsec a).

(** [names[i]]: the element after the last is NULL, and is dereferenced. *)
Definition name_at (names : list string) (i : nat) : fum T G string := table (names !! i).

Fixpoint cache_stats (path : string) (now : Z) (names : list string) (i : nat) (ss : list statns) : fum T G unit :=
  match ss with
  | [] => ret tt
  | s :: ss' =>
      (if 0 <=? st_ino s then name <- name_at names i ;; lsc_insert path name now (stat_of s) ;;; ret tt else ret tt) ;;;
      cache_stats path now names (S i) ss'
  end.

(** One entry with an empty name for each file, followed by the attributes of
    the file if its value is not empty.  Each turn of the loop uses up one
    entry at least. *)
Fixpoint cache_xattrs (fuel : nat) (path : string) (now : Z) (names : list string) (ni : nat) (xattrs : list xattr) :
    fum T G unit :=
  match fuel, xattrs with
  | _, [] => ret tt
  | O, _ => halt OutOfFuel
  | S fuel', h :: rest =>
      if (0 <? length (attrval h))%nat then
        let '(copy, rest') := span (fun x => negb (STREQ (attrname x) "")) rest in
        name <- name_at names ni ;;
        xac_insert path name now copy ;;;
        cache_xattrs fuel' path now names (S ni) rest'
      else cache_xattrs fuel' path now names (S ni) rest
  end.

Fixpoint cache_links (path : string) (now : Z) (names links : list string) : fum T G unit :=
  match names, links with
  | [], _ => ret tt
  | _, [] => halt Undefined                  (* links[i] is NULL *)
  | name :: names', link :: links' =>
      (if negb (STREQ link "") then rlc_insert path name now link ;;; ret tt else ret tt) ;;;
      cache_links path now names' links'
  end.

(** [room] is how many entries [filler] takes before it returns 1. *)
Definition mount_local_readdir (path : string) (offset : Z) (room : nat) : fum T G (Z * list (string * fstat)) :=
  DEBUG_CALL "mount_local_readdir" (path +:+ ", " +:+ ptr +:+ ", " +:+ pretty offset) ;;;
  now <- time ;;
  dir_cache_remove_all_expired now ;;;
  ents <- on_api (api_readdir path) ;;
  match ents with
  | None => r <- RETURN_ERRNO ;; ret (r, [])
  | Some ents =>
      let filled := take room ((fun e => (d_name e, dirent_stat e)) <$> ents) in
      let names := d_name <$> ents in
      ss <- on_api (api_lstatnslist path names) ;;
      match ss with Some ss => cache_stats path now names 0 ss | None => ret tt end ;;;
      xattrs <- on_api (api_lxattrlist path names) ;;
      match xattrs with
      | Some xattrs => cache_xattrs (length xattrs) path now names 0 xattrs
      | None => ret tt
      end ;;;
      links <- on_api (api_readlinklist path names) ;;
      match links with Some links => cache_links path now names links | None => ret tt end ;;;
      ret (0, filled)
  end.

(** ** Attributes *)

Definition mount_local_getattr (path : string) : fum T G (Z * option fstat) :=
  DEBUG_CALL "mount_local_getattr" (path +:+ ", " +:+ ptr) ;;;
  buf <- lsc_lookup path ;;
  match buf with
  | Some s => ret (0, Some s)
  | None =>
      r <- on_api (api_lstatns path) ;;
      match r with
      | None => e <- RETURN_ERRNO ;; ret (e, None)
      | Some a => ret (0, Some (stat_of a))
      end
  end.

Definition R_OK : Z := 4.
Definition W_OK : Z := 2.
Definition X_OK : Z := 1.
Definition F_OK : Z := 0.
Definition has (mask bit : Z) : bool := is_true (Z.land mask bit).

(** One of the three tests: the bit for the owner, the group or the others. *)
Definition mode_allows (uid gid : Z) (s : fstat) (bit : Z) : bool :=
  is_true (Z.land (s_mode s)
    (if uid =? s_uid s then Z.shiftl bit 6 else if gid =? s_gid s then Z.shiftl bit 3 else bit)).

Definition mount_local_access (uid gid : Z) (path : string) (mask : Z) : fum T G Z := fun w =>
  (DEBUG_CALL "mount_local_access" (path +:+ ", " +:+ pretty mask) ;;;
   if is_true (ml_read_only w) && has mask W_OK then ret (- EROFS) else
   x <- mount_local_getattr path ;;
   let '(r, statbuf) := x in
   if (r <? 0) || (mask =? F_OK)
   then debug (path +:+ ": mount_local_getattr returned r = " +:+ pretty r) ;;; ret r else
   statbuf <- table statbuf ;;
   let ok := if uid =? 0 then true else
     (if has mask R_OK then mode_allows uid gid statbuf R_OK else true) &&
     (if has mask W_OK then mode_allows uid gid statbuf W_OK else true) &&
     (if has mask X_OK then mode_allows uid gid statbuf X_OK else true) in
   debug (path +:+ ": testing access mask" +:+ (if has mask R_OK then " R_OK" else "") +:+
     (if has mask W_OK then " W_OK" else "") +:+ (if has mask X_OK then " X_OK" else "") +:+
     (if mask =? 0 then " 0" else "") +:+ ": caller UID:GID = " +:+ pretty uid +:+ ":" +:+ pretty gid +:+
     ", file UID:GID = " +:+ pretty (s_uid statbuf) +:+ ":" +:+ pretty (s_gid statbuf) +:+ ", file mode = " +:+
     octal (s_mode statbuf) +:+ ", result = " +:+ (if ok then "OK" else "EACCESS")) ;;;
   if ok then ret 0 else ret (- EACCES)) w.

(** The bytes of the buffer of [size] bytes that are written, with the NUL. *)
Definition mount_local_readlink (path : string) (size : nat) : fum T G (Z * list byte) :=
  DEBUG_CALL "mount_local_readlink" (path +:+ ", " +:+ ptr +:+ ", " +:+ pretty size) ;;;
  r <- rlc_lookup path ;;
  r <- match r with Some r => ret (Some r) | None => on_api (api_readlink path) end ;;
  match r with
  | None => e <- RETURN_ERRNO ;; ret (e, [])
  | Some r =>
      let len := Z.of_nat (String.length r) in
      let len := if u64 (Z.of_nat size - 1) <? len then u64 (Z.of_nat size - 1) else len in
      ret (0, take (Z.to_nat len) (bytes_of_string r) ++ [x00])
  end.

(** ** Operations that change the guest *)

(** Refused on a read-only mount; the caches forget the paths first. *)
Definition changing (func args : string) (paths : list string) (call : M (guestfs_h * G) Z) : fum T G Z := fun w =>
  (DEBUG_CALL func args ;;;
   if is_true (ml_read_only w) then ret (- EROFS) else
   foldr (fun p m => dir_cache_invalidate p ;;; m) (r <- on_api call ;; int_result r) paths) w.

(** glibc's encoding of device numbers. *)
Definition major (dev : Z) : Z := Z.lor (Z.land (Z.shiftr dev 8) 0xfff) (Z.land (Z.shiftr dev 32) 0xfffff000).
Definition minor (dev : Z) : Z := Z.lor (Z.land dev 0xff) (Z.land (Z.shiftr dev 12) 0xffffff00).

Definition mount_local_mknod (path : string) (mode rdev : Z) : fum T G Z :=
  changing "mount_local_mknod" (path +:+ ", 0" +:+ octal mode +:+ ", 0x" +:+ hexa rdev) [path]
    (api_mknod mode (s32 (major rdev)) (s32 (minor rdev)) path).
Definition mount_local_mkdir (path : string) (mode : Z) : fum T G Z :=
  changing "mount_local_mkdir" (path +:+ ", 0" +:+ octal mode) [path] (api_mkdir_mode path mode).
Definition mount_local_unlink (path : string) : fum T G Z := changing "mount_local_unlink" path [path] (api_rm path).
Definition mount_local_rmdir (path : string) : fum T G Z := changing "mount_local_rmdir" path [path] (api_rmdir path).
Definition mount_local_symlink (from to : string) : fum T G Z :=
  changing "mount_local_symlink" (from +:+ ", " +:+ to) [to] (api_ln_s from to).
Definition mount_local_rename (from to : string) : fum T G Z :=
  changing "mount_local_rename" (from +:+ ", " +:+ to) [from; to] (api_rename from to).
Definition mount_local_link (from to : string) : fum T G Z :=
  changing "mount_local_link" (from +:+ ", " +:+ to) [from; to] (api_ln from to).
Definition mount_local_chmod (path : string) (mode : Z) : fum T G Z :=
  changing "mount_local_chmod" (path +:+ ", 0" +:+ octal mode) [path] (api_chmod mode path).
Definition mount_local_chown (path : string) (uid gid : Z) : fum T G Z :=
  changing "mount_local_chown" (path +:+ ", " +:+ pretty uid +:+ ", " +:+ pretty gid) [path] (api_lchown uid gid path).
Definition mount_local_truncate (path : string) (size : Z) : fum T G Z :=
  changing "mount_local_truncate" (path +:+ ", " +:+ pretty size) [path] (api_truncate_size path size).

Definition UTIME_NOW : Z := Z.shiftl 1 30 - 1.
Definition UTIME_OMIT : Z := Z.shiftl 1 30 - 2.
Definition utime_nsec (nsecs : Z) : Z :=
  let nsecs := if nsecs =? UTIME_NOW then -1 else nsecs in
  if nsecs =? UTIME_OMIT then -2 else nsecs.

Definition mount_local_utimens (path : string) (atsecs atnsecs mtsecs mtnsecs : Z) : fum T G Z :=
  changing "mount_local_utimens"
    (path +:+ ", [{ " +:+ pretty atsecs +:+ ", " +:+ pretty atnsecs +:+ " }, { " +:+ pretty mtsecs +:+ ", " +:+
     pretty mtnsecs +:+ " }]") [path]
    (api_utimens path atsecs (utime_nsec atnsecs) mtsecs (utime_nsec mtnsecs)).
Definition mount_local_setxattr (path name : string) (value : list byte) (flags : Z) : fum T G Z :=
  changing "mount_local_setxattr" (path +:+ ", " +:+ name +:+ ", " +:+ ptr +:+ ", " +:+ pretty (length value)) [path]
    (api_lsetxattr name value path).
Definition mount_local_removexattr (path name : string) : fum T G Z :=
  changing "mount_local_removexattr" (path +:+ ", " +:+ name) [path] (api_lremovexattr name path).

(** ** Files *)

Definition O_ACCMODE : Z := 3.
Definition O_RDONLY : Z := 0.

Definition mount_local_open (path : string) (fi_flags : Z) : fum T G Z := fun w =>
  let flags := Z.land fi_flags O_ACCMODE in
  (DEBUG_CALL "mount_local_open" (path +:+ ", 0" +:+ octal fi_flags) ;;;
   if is_true (ml_read_only w) && negb (flags =? O_RDONLY) then ret (- EROFS) else ret 0) w.

Definition RW_LIMIT : nat := Z.to_nat (2 * 1024 * 1024).

Definition mount_local_read (path : string) (size : nat) (offset : Z) : fum T G (Z * list byte) :=
  DEBUG_CALL "mount_local_read" (path +:+ ", " +:+ ptr +:+ ", " +:+ pretty size +:+ ", " +:+ pretty offset) ;;;
  let size := if (RW_LIMIT <? size)%nat then RW_LIMIT else size in
  r <- on_api (api_pread path (Z.of_nat size) offset) ;;
  match r with
  | None => e <- RETURN_ERRNO ;; ret (e, [])
  | Some data =>
      let rsize := if (size <? length data)%nat then size else length data in
      ret (Z.of_nat rsize, take rsize data)
  end.

Definition mount_local_write (path : string) (buf : list byte) (offset : Z) : fum T G Z := fun w =>
  (DEBUG_CALL "mount_local_write" (path +:+ ", " +:+ ptr +:+ ", " +:+ pretty (length buf) +:+ ", " +:+ pretty offset) ;;;
   if is_true (ml_read_only w) then ret (- EROFS) else
   dir_cache_invalidate path ;;;
   let size := if (RW_LIMIT <? length buf)%nat then RW_LIMIT else length buf in
   r <- on_api (api_pwrite path (take size buf) offset) ;;
   if r =? -1 then RETURN_ERRNO else ret r) w.

Definition mount_local_statfs (path : string) : fum T G (Z * option statvfs) :=
  DEBUG_CALL "mount_local_statfs" (path +:+ ", " +:+ ptr) ;;;
  r <- on_api (api_statvfs path) ;;
  match r with
  | None => e <- RETURN_ERRNO ;; ret (e, None)
  | Some r => ret (0, Some r)
  end.

Definition mount_local_release (path : string) : fum T G Z := DEBUG_CALL "mount_local_release" path ;;; ret 0.
Definition mount_local_flush (path : string) : fum T G Z := DEBUG_CALL "mount_local_flush" path ;;; ret 0.
Definition mount_local_fsync (path : string) (isdatasync : Z) : fum T G Z :=
  DEBUG_CALL "mount_local_fsync" (path +:+ ", " +:+ pretty isdatasync) ;;;
  r <- on_api api_sync ;; int_result r.

(** ** Extended attributes *)

(** The list of the cache, or of the guest. *)
Definition get_xattrs {A} (path : string) (failed : A) (k : list xattr -> Z * A) : fum T G (Z * A) :=
  xattrs <- xac_lookup path ;;
  xattrs <- match xattrs with Some l => ret (Some l) | None => on_api (api_lgetxattrs path) end ;;
  match xattrs with
  | None => e <- RETURN_ERRNO ;; ret (e, failed)
  | Some l => ret (k l)
  end.

(** [size] is [None] when [value] is NULL; the bytes copied to [value]. *)
Definition getxattr_from (name : string) (size : option nat) (xattrs : list xattr) : Z * list byte :=
  match List.find (fun x => STREQ (attrname x) name) xattrs with
  | None => (- ENOATTR, [])
  | Some x =>
      let sz := length (attrval x) in
      match size with
      | None => (Z.of_nat sz, [])
      | Some size => if (sz <=? size)%nat then (Z.of_nat sz, attrval x) else (- ERANGE, take size (attrval x))
      end
  end.
Definition mount_local_getxattr (path name : string) (size : option nat) : fum T G (Z * list byte) :=
  DEBUG_CALL "mount_local_getxattr" (path +:+ ", " +:+ name +:+ ", " +:+ ptr +:+ ", " +:+ pretty (default 0%nat size)) ;;;
  get_xattrs path [] (getxattr_from name size).

Definition attr_len (x : xattr) : nat := String.length (attrname x) + 1.

Fixpoint listxattr_loop (size : nat) (r : Z) (list : list byte) (xattrs : Datatypes.list xattr) : Z * Datatypes.list byte :=
  match xattrs with
  | [] => (r, list)
  | x :: xattrs' =>
      let len := attr_len x in
      if (len <=? size)%nat
      then listxattr_loop (size - len) (r + Z.of_nat len) (list ++ bytes_of_string (attrname x) ++ [x00]) xattrs'
      else (- ERANGE, list)
  end.
Definition listxattr_from (size : option nat) (xattrs : list xattr) : Z * list byte :=
  match size with
  | None => (Z.of_nat (foldr (fun x n => attr_len x + n)%nat 0%nat xattrs), [])
  | Some size => listxattr_loop size 0 [] xattrs
  end.
Definition mount_local_listxattr (path : string) (size : option nat) : fum T G (Z * list byte) :=
  DEBUG_CALL "mount_local_listxattr" (path +:+ ", " +:+ ptr +:+ ", " +:+ pretty (default 0%nat size)) ;;;
  get_xattrs path [] (listxattr_from size).

(** * Mounting *)

(** An answer of libfuse. *)
Definition libfuse : fum T G (option Z) := fun w =>
  let '(a, q) := answer (fu_answers w) in (Ret a, w <| fu_answers := q |>).

(** [fuse_destroy] also closes the channel. *)
Definition guestfs___free_fuse : fum T G unit :=
  modify (fun w => if fu_fuse w then w <| fu_fuse := false |> <| fu_channel := None |> else w) ;;; free_dir_caches.

Record mount_local_argv := mk_mount_local_argv {
  mla_readonly : option Z;
  mla_options : option string;
  mla_cachetimeout : option Z;
  mla_debugcalls : option Z
}.

(** The failure of one of libfuse's functions. *)
Definition mount_failed (errnum : Z) (what mp : string) : fum T G Z :=
  perrorf errnum (what +:+ ": " +:+ mp) ;;; guestfs___free_fuse ;;; ret (-1).

(** fuse_opt_add_arg for each argument. *)
Fixpoint add_fuse_args (args : list string) (mp : string) (k : fum T G Z) : fum T G Z :=
  match args with
  | [] => k
  | _ :: args' =>
      a <- libfuse ;;
      match a with
      | Some e => mount_failed e "fuse_opt_add_arg" mp
      | None => add_fuse_args args' mp k
      end
  end.

Definition guestfs__mount_local (mp : string) (optargs : mount_local_argv) : fum T G Z := fun w =>
  match localmountpoint w with
  | Some _ => (on_g (report "filesystem is already mounted in another thread") ;;; ret (-1)) w
  | None =>
      (modify (fun w => w <| ml_read_only := default 0 (mla_readonly optargs) |>
                          <| ml_dir_cache_timeout := default 60 (mla_cachetimeout optargs) |>
                          <| ml_debug_calls := default 0 (mla_debugcalls optargs) |>) ;;;
       r <- init_dir_caches ;;
       if r =? -1 then ret (-1) else
       add_fuse_args ("guestfs_mount_local" :: match mla_options optargs with Some o => ["-o"; o] | None => [] end) mp (
         debug ("guestfs__mount_local: fuse_mount " +:+ mp) ;;;
         ch <- libfuse ;;
         match ch with
         | Some e => mount_failed e "fuse_mount" mp
         | None =>
             modify (fun w => w <| fu_channel := Some mp |>) ;;;
             debug "guestfs__mount_local: fuse_new" ;;;
             f <- libfuse ;;
             match f with
             | Some e =>
                 perrorf e ("fuse_new: " +:+ mp) ;;;
                 modify (fun w => w <| fu_channel := None |>) ;;;          (* fuse_unmount *)
                 guestfs___free_fuse ;;;
                 ret (-1)
             | None =>
                 modify (fun w => w <| fu_fuse := true |>) ;;;
                 debug "guestfs__mount_local: leaving fuse_mount_local" ;;;
                 modify (fun w => w <| localmountpoint := Some mp |>) ;;;
                 ret 0
             end
         end)) w
  end.

(** [fuse_loop] is libfuse's loop: it calls the operations and returns an errno
    when it fails. *)
Definition guestfs__mount_local_run (fuse_loop : fum T G (option Z)) : fum T G Z := fun w =>
  match localmountpoint w with
  | None => (on_g (report "you must call guestfs_mount_local first") ;;; ret (-1)) w
  | Some mp =>
      (on_g (modify (fun g => guestfs_push_error_handler g None 0)) ;;;
       r <- on_api (api_exists "/") ;;
       on_g (modify guestfs_pop_error_handler) ;;;
       if r =? -1 then
         on_g (report ("you must call 'guestfs_mount' first to mount a filesystem on '/'." +:+ newline +:+
           "Note: '" +:+ mp +:+ "' is still mounted.  Use 'guestunmount " +:+ mp +:+ "' to clean up.")) ;;; ret (-1)
       else
       debug "guestfs__mount_local_run: entering fuse_loop" ;;;
       r <- fuse_loop ;;
       match r with Some e => perrorf e ("fuse_loop: " +:+ mp) | None => ret tt end ;;;
       debug "guestfs__mount_local_run: leaving fuse_loop" ;;;
       guestfs___free_fuse ;;;
       modify (fun w => w <| localmountpoint := None |>) ;;;
       ret (match r with None => 0 | Some _ => -1 end)) w
  end.

Definition guestfs__umount_local (optargs_retry : option Z) : fum T G Z := fun w =>
  let retry := match optargs_retry with
               | Some r => if is_true r then "--retry=5" else "--no-retry"
               | None => "--no-retry"
               end in
  match localmountpoint w with
  | None => (on_g (report "no filesystem is mounted") ;;; ret (-1)) w
  | Some mp =>
      let build (m : @bm unit unit) : cm unit unit := zoom r_cmd (fun cmd r => r <| r_cmd := cmd |>) m in
      let '(o, r) :=
        (build (guestfs___cmd_add_arg (Some "guestunmount") ;;; guestfs___cmd_add_arg (Some retry) ;;;
                guestfs___cmd_add_arg (Some mp)) ;;;
         x <- guestfs___cmd_run ;;
         guestfs___cmd_close ;;;
         ret (if x =? -1 then -1 else if WIFEXITED x && (WEXITSTATUS x =? 0) then 0 else -1))
          (mk_run (fu_g w) (guestfs___new_command tt) (fu_k w)) in
      (o, w <| fu_g := r_g r |> <| fu_k := r_k r |>)
  end.

End fuse.

(** * What the calls promise *)

(** The guest as the operations that read see it. *)
Record view := mk_view {
  v_stat : string -> option statns;
  v_xattrs : string -> option (list xattr);
  v_link : string -> option string
}.

(** lxattrlist's encoding: an entry without a name for each file, with a value
    and followed by the attributes when they could be read. *)
Inductive encodes : list (option (list xattr)) -> list xattr -> Prop :=
  | encodes_nil : encodes [] []
  | encodes_none h files l : attrval h = [] -> encodes files l -> encodes (None :: files) (h :: l)
  | encodes_some h xs files l : attrval h <> [] -> Forall (fun x => attrname x <> "") xs ->
      match l with [] => True | h' :: _ => attrname h' = "" end ->
      encodes files l -> encodes (Some xs :: files) (h :: xs ++ l).

(** A call that does not change the guest, and what it returns. *)
Definition reads {G A} (gview : G -> view) (m : M (guestfs_h * G) A) (Q : view -> A -> Prop) : Prop :=
  forall x, exists r x', m x = (Ret r, x') /\ gview (snd x') = gview (snd x) /\ Q (gview (snd x)) r /\
    0 <= guestfs_last_errno (fst x').
Definition returns {G A} (m : M (guestfs_h * G) A) : Prop := forall x, exists r x', m x = (Ret r, x').

Definition is_ret {A} (f : view -> option A) (v : view) (r : option A) : Prop :=
  match r with Some a => f v = Some a | None => True end.
Definition any {A} (v : view) (r : A) : Prop := True.

Class FuseLaws (G : Type) `{FuseCalls G} := {
  gview : G -> view;
  readdir_law path : reads gview (api_readdir path) any;
  lstatnslist_law path names : reads gview (api_lstatnslist path names) (fun v r =>
    match r with
    | Some l => length l = length names /\ forall i name s, names !! i = Some name -> l !! i = Some s -> 0 <= st_ino s ->
        v_stat v (entry_path path name) = Some s
    | None => True
    end);
  lxattrlist_law path names : reads gview (api_lxattrlist path names) (fun v r =>
    match r with
    | Some l => exists files, encodes files l /\ length files = length names /\
        forall i name xs, names !! i = Some name -> files !! i = Some (Some xs) ->
          v_xattrs v (entry_path path name) = Some xs
    | None => True
    end);
  readlinklist_law path names : reads gview (api_readlinklist path names) (fun v r =>
    match r with
    | Some l => length l = length names /\ forall i name link, names !! i = Some name -> l !! i = Some link ->
        link <> "" -> v_link v (entry_path path name) = Some link
    | None => True
    end);
  lstatns_law path : reads gview (api_lstatns path) (is_ret (fun v => v_stat v path));
  readlink_law path : reads gview (api_readlink path) (is_ret (fun v => v_link v path));
  lgetxattrs_law path : reads gview (api_lgetxattrs path) (is_ret (fun v => v_xattrs v path));
  pread_law path size offset : reads gview (api_pread path size offset) any;
  statvfs_law path : reads gview (api_statvfs path) any;
  sync_law : reads gview api_sync any;
  exists_law path : reads gview (api_exists path) any;
  mknod_law mode major minor path : returns (api_mknod mode major minor path);
  mkdir_mode_law path mode : returns (api_mkdir_mode path mode);
  rm_law path : returns (api_rm path);
  rmdir_law path : returns (api_rmdir path);
  ln_s_law from to : returns (api_ln_s from to);
  rename_law from to : returns (api_rename from to);
  ln_law from to : returns (api_ln from to);
  chmod_law mode path : returns (api_chmod mode path);
  lchown_law uid gid path : returns (api_lchown uid gid path);
  truncate_size_law path size : returns (api_truncate_size path size);
  utimens_law path a b c d : returns (api_utimens path a b c d);
  pwrite_law path buf offset : returns (api_pwrite path buf offset);
  lsetxattr_law name value path : returns (api_lsetxattr name value path);
  lremovexattr_law name path : returns (api_lremovexattr name path)
}.

(** ** The operations, as libfuse calls them *)

Inductive fuse_op :=
  | Op_getattr (path : string)
  | Op_access (uid gid : Z) (path : string) (mask : Z)
  | Op_readlink (path : string) (size : nat)
  | Op_readdir (path : string) (offset : Z) (room : nat)
  | Op_mknod (path : string) (mode rdev : Z)
  | Op_mkdir (path : string) (mode : Z)
  | Op_symlink (from to : string)
  | Op_unlink (path : string)
  | Op_rmdir (path : string)
  | Op_rename (from to : string)
  | Op_link (from to : string)
  | Op_chmod (path : string) (mode : Z)
  | Op_chown (path : string) (uid gid : Z)
  | Op_truncate (path : string) (size : Z)
  | Op_utimens (path : string) (atsecs atnsecs mtsecs mtnsecs : Z)
  | Op_open (path : string) (flags : Z)
  | Op_read (path : string) (size : nat) (offset : Z)
  | Op_write (path : string) (buf : list byte) (offset : Z)
  | Op_statfs (path : string)
  | Op_release (path : string)
  | Op_fsync (path : string) (isdatasync : Z)
  | Op_setxattr (path name : string) (value : list byte) (flags : Z)
  | Op_getxattr (path name : string) (size : option nat)
  | Op_listxattr (path : string) (size : option nat)
  | Op_removexattr (path name : string)
  | Op_flush (path : string).

Definition code {T G A} (m : fum T G (Z * A)) : fum T G Z := x <- m ;; ret (fst x).

(** struct fuse_operations: the result of the operation. *)
Definition mount_local_operations {T G} `{Hash T} `{FuseCalls G} (ptr : string) (op : fuse_op) : fum T G Z :=
  match op with
  | Op_getattr path => code (mount_local_getattr ptr path)
  | Op_access uid gid path mask => mount_local_access ptr uid gid path mask
  | Op_readlink path size => code (mount_local_readlink ptr path size)
  | Op_readdir path offset room => code (mount_local_readdir ptr path offset room)
  | Op_mknod path mode rdev => mount_local_mknod path mode rdev
  | Op_mkdir path mode => mount_local_mkdir path mode
  | Op_symlink from to => mount_local_symlink from to
  | Op_unlink path => mount_local_unlink path
  | Op_rmdir path => mount_local_rmdir path
  | Op_rename from to => mount_local_rename from to
  | Op_link from to => mount_local_link from to
  | Op_chmod path mode => mount_local_chmod path mode
  | Op_chown path uid gid => mount_local_chown path uid gid
  | Op_truncate path size => mount_local_truncate path size
  | Op_utimens path a b c d => mount_local_utimens path a b c d
  | Op_open path flags => mount_local_open path flags
  | Op_read path size offset => code (mount_local_read ptr path size offset)
  | Op_write path buf offset => mount_local_write ptr path buf offset
  | Op_statfs path => code (mount_local_statfs ptr path)
  | Op_release path => mount_local_release path
  | Op_fsync path isdatasync => mount_local_fsync path isdatasync
  | Op_setxattr path name value flags => mount_local_setxattr ptr path name value flags
  | Op_getxattr path name size => code (mount_local_getxattr ptr path name size)
  | Op_listxattr path size => code (mount_local_listxattr ptr path size)
  | Op_removexattr path name => mount_local_removexattr path name
  | Op_flush path => mount_local_flush path
  end.

(** The paths an operation changes. *)
Definition changed_paths (op : fuse_op) : list string :=
  match op with
  | Op_mknod p _ _ | Op_mkdir p _ | Op_symlink _ p | Op_unlink p | Op_rmdir p | Op_chmod p _ | Op_chown p _ _
  | Op_truncate p _ | Op_utimens p _ _ _ _ | Op_write p _ _ | Op_setxattr p _ _ _ | Op_removexattr p _ => [p]
  | Op_rename a b | Op_link a b => [a; b]
  | _ => []
  end.

(** * Lemmas *)

Section fuse_lemmas.
Context {T : Type -> Type} {G : Type} `{HashLaws T} `{FuseLaws G}.
Context (ptr : string).
Implicit Types (w : fuse T G) (phi : G -> Prop).

(** ** What operations do to the caches *)

Definition settings w :=
  (ml_dir_cache_timeout w, ml_read_only w, ml_debug_calls w, localmountpoint w, fu_fuse w, fu_channel w, fu_now w).

(** The entries of [t] are those of [t0] or new, with this timeout. *)
Definition renewed {A} (t0 : T (entry A)) (until : Z) (good : string -> A -> Prop) (t : T (entry A)) : Prop :=
  forall p e, hash_lookup t p = Some e -> hash_lookup t0 p = Some e \/ timeout e = until /\ good p (value e).

Definition table_renewed {A} (o0 : option (T (entry A))) (until : Z) (good : string -> A -> Prop)
    (o : option (T (entry A))) : Prop :=
  exists t0 t, o0 = Some t0 /\ o = Some t /\ renewed t0 until good t.

Definition is_stat (v : view) (p : string) (s : fstat) : Prop := exists a, v_stat v p = Some a /\ s = stat_of a.
Definition is_xattrs (v : view) (p : string) (l : list xattr) : Prop := v_xattrs v p = Some l.
Definition is_link (v : view) (p : string) (l : string) : Prop := v_link v p = Some l.

(** From [w0] to [w] in one operation: what is cached was cached before, or is
    what the guest had at the start. *)
Definition grows w0 w : Prop :=
  let v := gview (fu_guest w0) in let until := fu_now w0 + ml_dir_cache_timeout w0 in
  settings w = settings w0 /\ table_renewed (lsc_ht w0) until (is_stat v) (lsc_ht w) /\
  table_renewed (xac_ht w0) until (is_xattrs v) (xac_ht w) /\ table_renewed (rlc_ht w0) until (is_link v) (rlc_ht w).

(** The caches are there. *)
Definition mounted w : Prop := is_Some (lsc_ht w) /\ is_Some (xac_ht w) /\ is_Some (rlc_ht w).

Lemma grows_refl w : mounted w -> grows w w.
Proof.
  intros ([l Hl] & [x Hx] & [r Hr]). split; [done|].
  split_and!; eexists _, _; (split; [eassumption|]); (split; [eassumption|]); intros p e He; by left.
Qed.

Definition st w0 phi w : Prop := grows w0 w /\ phi (fu_guest w).
Definition unchanged w0 (g : G) : Prop := gview g = gview (fu_guest w0).
Definition whatever (g : G) : Prop := True.

Lemma st_whatever w0 phi w : st w0 phi w -> st w0 whatever w.
Proof. by intros [? _]. Qed.

(** A change of the handle alone. *)
Lemma st_on_g w0 phi f : Prelude.total (st w0 phi) (on_g (modify f)) (fun _ => st w0 phi).
Proof. intros w Hw. eexists _, _. split; [reflexivity|]. exact Hw. Qed.

Lemma st_DEBUG_CALL w0 phi func args : Prelude.total (st w0 phi) (DEBUG_CALL func args) (fun _ => st w0 phi).
Proof.
  intros w Hw. unfold DEBUG_CALL. destruct (is_true _); [by apply st_on_g|by eexists _, _].
Qed.

Lemma st_time w0 phi : Prelude.total (st w0 phi) time (fun now w => st w0 phi w /\ now = fu_now w0).
Proof.
  intros w Hw. eexists _, _. split; [reflexivity|]. split; [done|]. destruct Hw as [(Hs & _) _]. by injection Hs.
Qed.

Lemma st_RETURN_ERRNO w0 phi : Prelude.total (st w0 phi) RETURN_ERRNO (fun _ => st w0 phi).
Proof. intros w Hw. by eexists _, _. Qed.

Lemma st_call {A} w0 phi (m : M (guestfs_h * G) A) : returns m ->
  Prelude.total (st w0 phi) (on_api m) (fun _ => st w0 whatever).
Proof.
  intros Hm w Hw. destruct (Hm (fu_g w, fu_guest w)) as (r & x' & E). eexists _, _.
  split; [unfold on_api, zoom; by rewrite E|]. split; [exact (proj1 Hw)|done].
Qed.

Lemma st_read {A} w0 (m : M (guestfs_h * G) A) Q : reads gview m Q ->
  Prelude.total (st w0 (unchanged w0)) (on_api m)
    (fun r w => st w0 (unchanged w0) w /\ Q (gview (fu_guest w0)) r).
Proof.
  intros Hm w [Hw Hv]. destruct (Hm (fu_g w, fu_guest w)) as (r & x' & E & Hg & HQ & _). cbn in Hg, HQ. eexists _, _.
  split; [unfold on_api, zoom; by rewrite E|]. unfold unchanged in Hv. rewrite Hv in Hg, HQ. split; [|done].
  split; [exact Hw|]. exact Hg.
Qed.

Lemma table_renewed_sub {A} (o0 o : option (T (entry A))) until good f :
  (forall t p e, hash_lookup (f t) p = Some e -> hash_lookup t p = Some e) ->
  table_renewed o0 until good o -> exists t, o = Some t /\ table_renewed o0 until good (Some (f t)).
Proof.
  intros Hf (t0 & t & E0 & Ht & Hr). exists t. split; [done|]. exists t0, (f t). split_and!; try done.
  intros p e He. apply Hr. by apply Hf.
Qed.

Lemma st_on_tables w0 phi (f : forall A, T (entry A) -> T (entry A)) :
  (forall A (t : T (entry A)) p e, hash_lookup (f A t) p = Some e -> hash_lookup t p = Some e) ->
  Prelude.total (st w0 phi) (on_tables f) (fun _ => st w0 phi).
Proof.
  intros Hf w [(Hs & Hl & Hx & Hr) Hv].
  apply (table_renewed_sub _ _ _ _ (f _) (Hf _)) in Hl as (l & El & Hl).
  apply (table_renewed_sub _ _ _ _ (f _) (Hf _)) in Hx as (x & Ex & Hx).
  apply (table_renewed_sub _ _ _ _ (f _) (Hf _)) in Hr as (r & Er & Hr).
  eexists _, _. split; [unfold on_tables; rewrite El, Ex, Er; reflexivity|]. split; [|done]. by split_and!.
Qed.

Lemma st_invalidate w0 phi path : Prelude.total (st w0 phi) (dir_cache_invalidate path) (fun _ => st w0 phi).
Proof.
  apply st_on_tables. intros A t p e. rewrite hash_lookup_delete. by case_decide.
Qed.

Lemma st_remove_expired w0 phi now : Prelude.total (st w0 phi) (dir_cache_remove_all_expired now) (fun _ => st w0 phi).
Proof.
  apply st_on_tables. intros A t p e. rewrite hash_lookup_remove_if.
  destruct (hash_lookup t p) as [e'|]; [|done]. by destruct (gen_remove_if_expired now e').
Qed.

(** ** Lookups and insertions *)

(** What a lookup finds: an entry of the table that has not expired, or one
    that is as new. *)
Lemma st_gen_lookup {A} w0 phi (get : fuse T G -> option (T (entry A))) (good : string -> A -> Prop) p :
  (forall w, st w0 phi w -> table_renewed (get w0) (fu_now w0 + ml_dir_cache_timeout w0) good (get w)) ->
  Prelude.total (st w0 phi) (gen_lookup get p) (fun r w => st w0 phi w /\
    match r with
    | Some a => exists t e, get w0 = Some t /\ fu_now w0 <= timeout e /\ value e = a /\
        (hash_lookup t p = Some e \/ timeout e = fu_now w0 + ml_dir_cache_timeout w0 /\ good p a)
    | None => True
    end).
Proof.
  intros Hget w Hw. pose proof Hw as [(Hs & _) _]. injection Hs as _ _ _ _ _ _ Hn.
  destruct (Hget w Hw) as (t0 & t & E0 & Et & Hr). unfold gen_lookup, table. rewrite Et.
  eexists _, _. split; [reflexivity|]. split; [done|]. rewrite Hn.
  destruct (hash_lookup t p) as [e|] eqn:El; [|done]. destruct (Z.leb_spec (fu_now w0) (timeout e)); [|done].
  exists t0, e. split; [done|]. split; [done|]. split; [done|]. by apply Hr.
Qed.

Lemma renewed_insert {A} (t0 t t' : T (entry A)) until good p e :
  renewed t0 until good t -> hash_insert (hash_delete t p) p e = Some t' -> timeout e = until -> good p (value e) ->
  renewed t0 until good t'.
Proof.
  intros Hr Hi Ht He q e' Hl.
  rewrite (hash_lookup_insert _ _ _ _ _ ltac:(by rewrite hash_lookup_delete, decide_True) Hi) in Hl.
  case_decide; [simplify_eq; by right|]. rewrite hash_lookup_delete, decide_False in Hl by done. by apply Hr.
Qed.
Lemma renewed_delete {A} (t0 t : T (entry A)) until good p :
  renewed t0 until good t -> renewed t0 until good (hash_delete t p).
Proof. intros Hr q e Hl. rewrite hash_lookup_delete in Hl. case_decide; [done|]. by apply Hr. Qed.

(** One table of the state, and the others. *)
Definition replaces {A} w0 phi (get : fuse T G -> option (T (entry A))) (set : T (entry A) -> fuse T G -> fuse T G) good : Prop :=
  forall w, st w0 phi w -> table_renewed (get w0) (fu_now w0 + ml_dir_cache_timeout w0) good (get w) /\
    forall t, table_renewed (get w0) (fu_now w0 + ml_dir_cache_timeout w0) good (Some t) -> st w0 phi (set t w).

Lemma st_gen_replace {A} w0 phi (get : fuse T G -> option (T (entry A))) set good p a :
  replaces w0 phi get set good -> good p a ->
  Prelude.total (st w0 phi) (gen_replace get set p (mk_entry (fu_now w0 + ml_dir_cache_timeout w0) a)) (fun _ => st w0 phi).
Proof.
  intros Hrep Ha w Hw. destruct (Hrep w Hw) as [(t0 & t & E0 & Et & Hr) Hset]. unfold gen_replace, table. rewrite Et.
  unfold bind at 1. cbn [ret]. destruct (hash_insert _ _ _) as [t'|] eqn:Ei; unfold bind at 1; cbn [modify].
  - eexists _, _. split; [reflexivity|]. apply Hset. exists t0, t'. split_and!; try done. by eapply renewed_insert.
  - match goal with |- context [set ?d w] => assert (st w0 phi (set d w)) as Hd end.
    { apply Hset. exists t0, (hash_delete t p). split_and!; try done. by apply renewed_delete. }
    destruct (st_on_g w0 phi (fun g => guestfs___perrorf g ENOMEM "hash_insert") _ Hd) as (u & w1 & E1 & Hw1).
    unfold perrorf. rewrite (bind_Ret _ _ _ _ _ E1). by eexists _, _.
Qed.

Lemma replaces_lsc w0 phi : replaces w0 phi lsc_ht (fun t w => w <| lsc_ht := Some t |>) (is_stat (gview (fu_guest w0))).
Proof. intros w [(Hs & Hl & Hx & Hr) Hv]. split; [done|]. intros t Ht. split; [|done]. by split_and!. Qed.
Lemma replaces_xac w0 phi : replaces w0 phi xac_ht (fun t w => w <| xac_ht := Some t |>) (is_xattrs (gview (fu_guest w0))).
Proof. intros w [(Hs & Hl & Hx & Hr) Hv]. split; [done|]. intros t Ht. split; [|done]. by split_and!. Qed.
Lemma replaces_rlc w0 phi : replaces w0 phi rlc_ht (fun t w => w <| rlc_ht := Some t |>) (is_link (gview (fu_guest w0))).
Proof. intros w [(Hs & Hl & Hx & Hr) Hv]. split; [done|]. intros t Ht. split; [|done]. by split_and!. Qed.

(** The same state afterwards, whatever the result. *)
Lemma total_then {A B} P (m : fum T G A) (k : fum T G B) R :
  Prelude.total P m (fun _ => P) -> Prelude.total P k R -> Prelude.total P (m ;;; k) R.
Proof. intros Hm Hk. eapply total_bind; [exact Hm|]. by intros a. Qed.
Lemma total_ignore {A} P (m : fum T G A) : Prelude.total P m (fun _ => P) -> Prelude.total P (m ;;; ret tt) (fun _ => P).
Proof. intros Hm. apply total_then; [done|]. by apply total_ret. Qed.

(** ** Reading a directory *)

Lemma settings_eqs w0 phi w : st w0 phi w ->
  ml_dir_cache_timeout w = ml_dir_cache_timeout w0 /\ ml_read_only w = ml_read_only w0 /\ fu_now w = fu_now w0.
Proof. intros [(Hs & _) _]. by injection Hs. Qed.

Lemma st_lsc_insert w0 phi path name s : is_stat (gview (fu_guest w0)) (entry_path path name) s ->
  Prelude.total (st w0 phi) (lsc_insert path name (fu_now w0) s) (fun _ => st w0 phi).
Proof.
  intros Hs w Hw. unfold lsc_insert. destruct (settings_eqs _ _ _ Hw) as (-> & _).
  by apply (st_gen_replace w0 phi lsc_ht _ _ _ _ (replaces_lsc w0 phi)).
Qed.
Lemma st_xac_insert w0 phi path name l : is_xattrs (gview (fu_guest w0)) (entry_path path name) l ->
  Prelude.total (st w0 phi) (xac_insert path name (fu_now w0) l) (fun _ => st w0 phi).
Proof.
  intros Hs w Hw. unfold xac_insert. destruct (settings_eqs _ _ _ Hw) as (-> & _).
  by apply (st_gen_replace w0 phi xac_ht _ _ _ _ (replaces_xac w0 phi)).
Qed.
Lemma st_rlc_insert w0 phi path name l : is_link (gview (fu_guest w0)) (entry_path path name) l ->
  Prelude.total (st w0 phi) (rlc_insert path name (fu_now w0) l) (fun _ => st w0 phi).
Proof.
  intros Hs w Hw. unfold rlc_insert. destruct (settings_eqs _ _ _ Hw) as (-> & _).
  by apply (st_gen_replace w0 phi rlc_ht _ _ _ _ (replaces_rlc w0 phi)).
Qed.

Lemma st_name_at {B} w0 phi names i name (k : string -> fum T G B) R : names !! i = Some name ->
  Prelude.total (st w0 phi) (k name) R -> Prelude.total (st w0 phi) (name <- name_at names i ;; k name) R.
Proof. intros Hi Hk w Hw. unfold name_at, table. rewrite Hi. by apply Hk. Qed.

Lemma st_cache_stats w0 phi path names : forall ss i,
  (length ss + i = length names)%nat ->
  (forall j name s, names !! (j + i)%nat = Some name -> ss !! j = Some s -> 0 <= st_ino s ->
     v_stat (gview (fu_guest w0)) (entry_path path name) = Some s) ->
  Prelude.total (st w0 phi) (cache_stats path (fu_now w0) names i ss) (fun _ => st w0 phi).
Proof.
  induction ss as [|s ss IH]; intros i Hl Hs; cbn [cache_stats]; [by apply total_ret|]. cbn in Hl.
  apply total_then.
  - destruct (Z.leb_spec 0 (st_ino s)); [|by apply total_ret].
    destruct (lookup_lt_is_Some_2 names i) as [name Hi]; [lia|].
    eapply st_name_at; [exact Hi|]. apply total_ignore, st_lsc_insert. exists s. split; [|done]. by apply (Hs 0%nat).
  - apply IH; [lia|]. intros j name s' Hj Hs' Hp. apply (Hs (S j)); [|done|done]. by rewrite <- Nat.add_succ_comm in Hj.
Qed.

Lemma span_encoded (xs l : list xattr) : Forall (fun x => attrname x <> "") xs ->
  match l with [] => True | h' :: _ => attrname h' = "" end ->
  span (fun x => negb (STREQ (attrname x) "")) (xs ++ l) = (xs, l).
Proof.
  intros Hx Hl. induction Hx as [|x xs Hx _ IH]; cbn [app span].
  - destruct l as [|h l]; [done|]. cbn. rewrite Hl. done.
  - unfold STREQ at 1. rewrite bool_decide_false by done. cbn. by rewrite IH.
Qed.

Lemma st_cache_xattrs w0 phi path names : forall files l, encodes files l -> forall fuel i,
  (length l <= fuel)%nat -> (length files + i = length names)%nat ->
  (forall j name xs, names !! (j + i)%nat = Some name -> files !! j = Some (Some xs) ->
     v_xattrs (gview (fu_guest w0)) (entry_path path name) = Some xs) ->
  Prelude.total (st w0 phi) (cache_xattrs fuel path (fu_now w0) names i l) (fun _ => st w0 phi).
Proof.
  induction 1 as [|h files l Hh He IH|h xs files l Hh Hxs Hl He IH]; intros fuel i Hfuel Hlen Hspec.
  - destruct fuel; by apply total_ret.
  - destruct fuel as [|fuel]; [cbn in Hfuel; lia|]. cbn [cache_xattrs]. rewrite Hh. cbn [length Nat.ltb Nat.leb].
    cbn in Hlen, Hfuel. apply IH; [lia|lia|]. intros j name xs Hj Hf. apply (Hspec (S j)); [|done].
    by rewrite <- Nat.add_succ_comm in Hj.
  - destruct fuel as [|fuel]; [cbn in Hfuel; lia|]. cbn [cache_xattrs].
    replace (0 <? length (attrval h))%nat with true by (symmetry; apply Nat.ltb_lt; destruct (attrval h); [done|cbn; lia]).
    rewrite span_encoded by done. cbn in Hlen, Hfuel. rewrite length_app in Hfuel.
    destruct (lookup_lt_is_Some_2 names i) as [name Hi]; [lia|].
    eapply st_name_at; [exact Hi|]. apply total_then.
    + apply st_xac_insert. by apply (Hspec 0%nat).
    + apply IH; [lia|lia|]. intros j name' xs' Hj Hf. apply (Hspec (S j)); [|done]. by rewrite <- Nat.add_succ_comm in Hj.
Qed.

Lemma st_cache_links w0 phi path : forall names links, length links = length names ->
  (forall i name link, names !! i = Some name -> links !! i = Some link -> link <> "" ->
     v_link (gview (fu_guest w0)) (entry_path path name) = Some link) ->
  Prelude.total (st w0 phi) (cache_links path (fu_now w0) names links) (fun _ => st w0 phi).
Proof.
  induction names as [|name names IH]; intros [|link links] Hl Hs; cbn in Hl; [by apply total_ret|lia|lia|].
  cbn [cache_links]. apply total_then.
  - unfold STREQ. case_bool_decide; [by apply total_ret|]. cbn. apply total_ignore, st_rlc_insert. by apply (Hs 0%nat).
  - apply IH; [lia|]. intros i n k Hi Hk Hne. by apply (Hs (S i)).
Qed.

Lemma st_readdir w0 path offset room :
  Prelude.total (st w0 (unchanged w0)) (mount_local_readdir ptr path offset room) (fun _ => st w0 (unchanged w0)).
Proof.
  unfold mount_local_readdir. apply total_then; [apply st_DEBUG_CALL|].
  eapply total_bind; [apply st_time|]. intros now. apply total_pure_r. intros ->.
  apply total_then; [apply st_remove_expired|].
  eapply total_bind; [apply st_read, readdir_law|]. intros ents. apply total_pure_r. intros _.
  destruct ents as [ents|].
  2: { eapply total_bind; [apply st_RETURN_ERRNO|]. intros r. by apply total_ret. }
  eapply total_bind; [apply st_read, lstatnslist_law|]. intros ss. apply total_pure_r. intros Hss.
  apply total_then.
  { destruct ss as [ss|]; [|by apply total_ret]. destruct Hss as [Hl Hs]. apply st_cache_stats; [lia|].
    intros j name s Hj. rewrite Nat.add_0_r in Hj. by apply Hs. }
  eapply total_bind; [apply st_read, lxattrlist_law|]. intros xs. apply total_pure_r. intros Hxs.
  apply total_then.
  { destruct xs as [xs|]; [|by apply total_ret]. destruct Hxs as (files & He & Hl & Hs).
    eapply st_cache_xattrs; [exact He|lia|lia|]. intros j name l Hj. rewrite Nat.add_0_r in Hj. by apply Hs. }
  eapply total_bind; [apply st_read, readlinklist_law|]. intros links. apply total_pure_r. intros Hlinks.
  apply total_then; [|by apply total_ret].
  destruct links as [links|]; [|by apply total_ret]. destruct Hlinks as [Hl Hs]. by apply st_cache_links.
Qed.

(** ** The other operations *)

(** Found in the cache before it expired, or read now. *)
Definition found {A} (o : option (T (entry A))) (now : Z) (p : string) (a : A) (fresh : Prop) : Prop :=
  (exists t e, o = Some t /\ hash_lookup t p = Some e /\ now <= timeout e /\ value e = a) \/ fresh.

Lemma st_lookup {A} w0 phi (get : fuse T G -> option (T (entry A))) (good : string -> A -> Prop) p :
  (forall w, st w0 phi w -> table_renewed (get w0) (fu_now w0 + ml_dir_cache_timeout w0) good (get w)) ->
  Prelude.total (st w0 phi) (gen_lookup get p) (fun r w => st w0 phi w /\
    match r with Some a => found (get w0) (fu_now w0) p a (good p a) | None => True end).
Proof.
  intros Hget. eapply total_post; [by apply st_gen_lookup|]. intros [a|] w [Hw Hr]; [|done]. split; [done|].
  destruct Hr as (t & e & Et & Hle & He & [Hl|[_ Hg]]); [left|by right]. by exists t, e.
Qed.

Definition getattr_result w0 (path : string) (x : Z * option fstat) : Prop :=
  match x with
  | (r, Some s) => r = 0 /\ found (lsc_ht w0) (fu_now w0) path s (is_stat (gview (fu_guest w0)) path s)
  | (r, None) => r < 0
  end.

Lemma st_getattr w0 path : Prelude.total (st w0 (unchanged w0)) (mount_local_getattr ptr path)
  (fun x w => st w0 (unchanged w0) w /\ getattr_result w0 path x).
Proof.
  unfold mount_local_getattr. apply total_then; [apply st_DEBUG_CALL|].
  eapply total_bind; [apply (st_lookup w0 _ lsc_ht (is_stat (gview (fu_guest w0)))); by intros w [(_ & ? & _) _]|].
  intros [s|]; apply total_pure_r; intros Hs; [by apply total_ret|].
  intros w [Hw Hv]. destruct (lstatns_law path (fu_g w, fu_guest w)) as (r & [g' gu'] & E & Hg & HQ & He). cbn in Hg, HQ, He.
  assert (on_api (api_lstatns path) w = (Ret r, w <| fu_g := g' |> <| fu_guest := gu' |>)) as E1
    by (unfold on_api, zoom; by rewrite E).
  rewrite (bind_Ret _ _ _ _ _ E1). unfold unchanged in Hv. rewrite Hv in Hg, HQ. destruct r as [a|].
  - eexists _, _. split; [reflexivity|]. split; [by split|]. split; [done|]. right. by exists a.
  - eexists _, _. split; [reflexivity|]. split; [by split|]. cbn. destruct (Z.eqb_spec (guestfs_last_errno g') 0); [done|].
    cbn in He. lia.
Qed.

Lemma st_access w0 uid gid path mask :
  Prelude.total (st w0 (unchanged w0)) (mount_local_access ptr uid gid path mask) (fun _ => st w0 (unchanged w0)).
Proof.
  intros w Hw. unfold mount_local_access.
  match goal with |- exists a s', ?m w = _ /\ _ => enough (Prelude.total (st w0 (unchanged w0)) m (fun _ => st w0 (unchanged w0))) as Ht by exact (Ht w Hw) end.
  apply total_then; [apply st_DEBUG_CALL|]. destruct (_ && _); [by apply total_ret|].
  eapply total_bind; [apply st_getattr|]. intros [r s]. apply total_pure_r. intros Hr.
  destruct (Z.ltb_spec r 0); cbn [orb]; [apply total_then; [apply st_on_g|by apply total_ret]|].
  destruct (mask =? F_OK); [apply total_then; [apply st_on_g|by apply total_ret]|].
  destruct s as [s|]; [|cbn in Hr; lia]. cbn [table].
  intros w1 Hw1. unfold bind at 1. cbn [ret].
  match goal with |- exists a s', ?m w1 = _ /\ _ => enough (Prelude.total (st w0 (unchanged w0)) m (fun _ => st w0 (unchanged w0))) as Ht by exact (Ht w1 Hw1) end.
  apply total_then; [apply st_on_g|]. match goal with |- context [if ?b then ret 0 else _] => destruct b end; by apply total_ret.
Qed.

Lemma st_readlink w0 path size :
  Prelude.total (st w0 (unchanged w0)) (mount_local_readlink ptr path size) (fun _ => st w0 (unchanged w0)).
Proof.
  unfold mount_local_readlink. apply total_then; [apply st_DEBUG_CALL|].
  eapply total_bind; [apply (st_lookup w0 _ rlc_ht (is_link (gview (fu_guest w0)))); by intros w [(_ & _ & _ & ?) _]|].
  intros r. apply total_pure_r. intros _. eapply (total_bind _ _ (fun _ => st w0 (unchanged w0))).
  { destruct r; [by apply total_ret|]. eapply total_post; [apply st_read, readlink_law|]. by intros ? ? [? _]. }
  intros [l|]; [by apply total_ret|]. eapply total_bind; [apply st_RETURN_ERRNO|]. intros e. by apply total_ret.
Qed.

Lemma st_get_xattrs {A} w0 path (failed : A) k :
  Prelude.total (st w0 (unchanged w0)) (get_xattrs path failed k) (fun x w => st w0 (unchanged w0) w /\
    (snd x = failed \/ exists l, x = k l /\ found (xac_ht w0) (fu_now w0) path l (is_xattrs (gview (fu_guest w0)) path l))).
Proof.
  unfold get_xattrs.
  eapply total_bind; [apply (st_lookup w0 _ xac_ht (is_xattrs (gview (fu_guest w0)))); by intros w [(_ & _ & ? & _) _]|].
  intros r. apply total_pure_r. intros Hr. eapply (total_bind _ _ (fun r w => st w0 (unchanged w0) w /\
    match r with Some l => found (xac_ht w0) (fu_now w0) path l (is_xattrs (gview (fu_guest w0)) path l) | None => True end)).
  { destruct r as [l|]; [by apply total_ret|]. eapply total_post; [apply st_read, lgetxattrs_law|].
    intros [l|] w [Hw Hl]; [|done]. split; [done|]. by right. }
  intros [l|]; apply total_pure_r; intros Hl.
  - apply total_ret. intros w Hw. split; [done|]. right. by exists l.
  - eapply total_bind; [apply st_RETURN_ERRNO|]. intros e. apply total_ret. intros w Hw. split; [done|]. by left.
Qed.

(** ** Changes *)

Definition not_cached {A} (p : string) (o : option (T (entry A))) : Prop :=
  forall t, o = Some t -> hash_lookup t p = None.
(** Nothing is cached for the path. *)
Definition uncached w (p : string) : Prop := not_cached p (lsc_ht w) /\ not_cached p (xac_ht w) /\ not_cached p (rlc_ht w).

Lemma st_invalidate_more w0 phi ps p :
  Prelude.total (fun w => st w0 phi w /\ Forall (uncached w) ps) (dir_cache_invalidate p)
    (fun _ w => st w0 phi w /\ Forall (uncached w) (p :: ps)).
Proof.
  intros w [Hw Hu]. destruct (st_invalidate w0 phi p w Hw) as (u & w1 & E & Hw1). exists u, w1. split; [done|]. split; [done|].
  unfold dir_cache_invalidate, on_tables, bind, table in E.
  destruct (lsc_ht w) as [l|] eqn:El; [|done]. destruct (xac_ht w) as [x|] eqn:Ex; [|done].
  destruct (rlc_ht w) as [r|] eqn:Er; [|done]. cbn in E. injection E as _ <-.
  constructor; [split_and!; intros t [= <-]; by rewrite hash_lookup_delete, decide_True|].
  eapply Forall_impl; [exact Hu|]. intros q (Hl & Hx & Hr). rewrite El in Hl. rewrite Ex in Hx. rewrite Er in Hr.
  split_and!; intros t [= <-]; rewrite hash_lookup_delete; case_decide; auto.
Qed.

(** What an operation that changes the guest does. *)
Definition changes w0 (paths : list string) (r : Z) w : Prop :=
  st w0 whatever w /\
  if is_true (ml_read_only w0) then r = - EROFS /\ unchanged w0 (fu_guest w)
  else forall p, p ∈ paths -> uncached w p.

Lemma st_int_result w0 phi ps r :
  Prelude.total (fun w => st w0 phi w /\ Forall (uncached w) ps) (int_result r)
    (fun _ w => st w0 phi w /\ Forall (uncached w) ps).
Proof. unfold int_result. destruct (_ =? _); intros w Hw; by eexists _, _. Qed.

Lemma st_call_uncached w0 phi ps (m : M (guestfs_h * G) Z) : returns m ->
  Prelude.total (fun w => st w0 phi w /\ Forall (uncached w) ps) (on_api m)
    (fun _ w => st w0 whatever w /\ Forall (uncached w) ps).
Proof.
  intros Hm w [Hw Hu]. destruct (Hm (fu_g w, fu_guest w)) as (r & x' & E). eexists _, _.
  split; [unfold on_api, zoom; by rewrite E|]. split; [split; [exact (proj1 Hw)|done]|exact Hu].
Qed.

Lemma st_changing w0 func args paths m : returns m ->
  Prelude.total (st w0 (unchanged w0)) (changing func args paths m) (changes w0 paths).
Proof.
  intros Hm w Hw. unfold changing. destruct (settings_eqs _ _ _ Hw) as (_ & -> & _).
  match goal with |- exists a s', ?m w = _ /\ _ => enough (Prelude.total (st w0 (unchanged w0)) m (changes w0 paths)) as Ht by exact (Ht w Hw) end.
  apply total_then; [apply st_DEBUG_CALL|]. unfold changes. destruct (is_true (ml_read_only w0)).
  { apply total_ret. intros w1 Hw1. split; [by eapply st_whatever|]. by destruct Hw1. }
  assert (forall ps done, Prelude.total (fun w => st w0 (unchanged w0) w /\ Forall (uncached w) done)
    (foldr (fun p m => dir_cache_invalidate p ;;; m) (r <- on_api m ;; int_result r) ps)
    (fun _ w => st w0 whatever w /\ forall p, p ∈ ps \/ p ∈ done -> uncached w p)) as Hfold.
  { induction ps as [|p ps IH]; intros done; cbn [foldr].
    - eapply total_bind; [by apply st_call_uncached|]. intros r. eapply total_post; [apply st_int_result|].
      intros a w1 [Hw1 Hu]. split; [done|]. intros p [Hp|Hp]; [by apply not_elem_of_nil in Hp|].
      rewrite Forall_forall in Hu. by apply Hu.
    - eapply total_bind; [apply st_invalidate_more|]. intros u. eapply total_post; [apply IH|].
      intros a w1 [Hw1 Hu]. split; [done|]. intros q Hq. apply Hu. set_solver. }
  eapply total_conseq; [apply (Hfold paths [])|by split|]. intros a w1 [Hw1 Hu]. split; [done|]. auto.
Qed.

Lemma st_write w0 path buf offset :
  Prelude.total (st w0 (unchanged w0)) (mount_local_write ptr path buf offset) (changes w0 [path]).
Proof.
  intros w Hw. unfold mount_local_write. destruct (settings_eqs _ _ _ Hw) as (_ & -> & _).
  match goal with |- exists a s', ?m w = _ /\ _ => enough (Prelude.total (st w0 (unchanged w0)) m (changes w0 [path])) as Ht by exact (Ht w Hw) end.
  apply total_then; [apply st_DEBUG_CALL|]. unfold changes. destruct (is_true (ml_read_only w0)).
  { apply total_ret. intros w1 Hw1. split; [by eapply st_whatever|]. by destruct Hw1. }
  eapply total_bind.
  { eapply total_conseq; [apply (st_invalidate_more w0 (unchanged w0) [] path)|by intros w1 Hw1; split|by intros a w1 Hw1; exact Hw1]. }
  intros ?. eapply total_bind; [apply st_call_uncached, pwrite_law|]. intros r w1 [Hw1 Hu].
  assert (forall p, p ∈ [path] -> uncached w1 p) as Hp by (by rewrite <- Forall_forall).
  destruct (r =? -1); by eexists _, _.
Qed.

(** What every operation does. *)
Definition op_done w0 (op : fuse_op) (r : Z) w : Prop :=
  grows w0 w /\
  (is_true (ml_read_only w0) = true \/ changed_paths op = [] -> unchanged w0 (fu_guest w)) /\
  (is_true (ml_read_only w0) = true -> changed_paths op <> [] -> r = - EROFS) /\
  (is_true (ml_read_only w0) = false -> forall p, p ∈ changed_paths op -> uncached w p).

Lemma op_reading w0 op m : changed_paths op = [] ->
  Prelude.total (st w0 (unchanged w0)) m (fun _ => st w0 (unchanged w0)) ->
  Prelude.total (st w0 (unchanged w0)) m (op_done w0 op).
Proof.
  intros Hc Hm. eapply total_post; [exact Hm|]. intros r w [Hg Hu]. unfold op_done. rewrite Hc. split_and!; try done.
  intros _ p Hp. by apply not_elem_of_nil in Hp.
Qed.
Lemma op_changing w0 op m : changed_paths op <> [] ->
  Prelude.total (st w0 (unchanged w0)) m (changes w0 (changed_paths op)) ->
  Prelude.total (st w0 (unchanged w0)) m (op_done w0 op).
Proof.
  intros Hc Hm. eapply total_post; [exact Hm|]. intros r w [[Hg _] Hu]. unfold op_done.
  destruct (is_true (ml_read_only w0)); split_and!; try done; naive_solver.
Qed.

Lemma st_code {A} w0 (m : fum T G (Z * A)) :
  Prelude.total (st w0 (unchanged w0)) m (fun _ => st w0 (unchanged w0)) ->
  Prelude.total (st w0 (unchanged w0)) (code m) (fun _ => st w0 (unchanged w0)).
Proof. intros Hm. eapply total_bind; [exact Hm|]. intros x. by apply total_ret. Qed.

Lemma st_read_or_errno {A B} w0 (m : M (guestfs_h * G) (option A)) Q (k : A -> Z * B) (failed : B) : reads gview m Q ->
  Prelude.total (st w0 (unchanged w0))
    (r <- on_api m ;; match r with None => e <- RETURN_ERRNO ;; ret (e, failed) | Some a => ret (k a) end)
    (fun _ => st w0 (unchanged w0)).
Proof.
  intros Hm. eapply total_bind; [by apply st_read|]. intros [a|]; apply total_pure_r; intros _; [by apply total_ret|].
  eapply total_bind; [apply st_RETURN_ERRNO|]. intros e. by apply total_ret.
Qed.

Ltac drop_fact H := eapply total_post; [apply H|by intros ? ? [? _]].
Ltac reading := apply op_reading; [reflexivity|].
Ltac change_op law := apply op_changing; [discriminate|]; apply st_changing; apply law.

Lemma op_run op w0 : Prelude.total (st w0 (unchanged w0)) (mount_local_operations ptr op) (op_done w0 op).
Proof.
  destruct op; cbn [mount_local_operations].
  - reading. apply st_code. drop_fact st_getattr.
  - reading. apply st_access.
  - reading. apply st_code. apply st_readlink.
  - reading. apply st_code. apply st_readdir.
  - change_op mknod_law.
  - change_op mkdir_mode_law.
  - change_op ln_s_law.
  - change_op rm_law.
  - change_op rmdir_law.
  - change_op rename_law.
  - change_op ln_law.
  - change_op chmod_law.
  - change_op lchown_law.
  - change_op truncate_size_law.
  - change_op utimens_law.
  - reading. intros w Hw. unfold mount_local_open.
    destruct (st_DEBUG_CALL w0 (unchanged w0) "mount_local_open" (path +:+ ", 0" +:+ octal flags) w Hw) as (u & w1 & E & Hw1).
    rewrite (bind_Ret _ _ _ _ _ E). destruct (_ && _); by eexists _, _.
  - reading. apply st_code. apply total_then; [apply st_DEBUG_CALL|].
    apply (st_read_or_errno w0 _ any (fun data => (_, _))); apply pread_law.
  - apply op_changing; [discriminate|]. apply st_write.
  - reading. apply st_code. apply total_then; [apply st_DEBUG_CALL|].
    apply (st_read_or_errno w0 _ any (fun r => (0, Some r)) None); apply statvfs_law.
  - reading. apply total_then; [apply st_DEBUG_CALL|by apply total_ret].
  - reading. apply total_then; [apply st_DEBUG_CALL|]. eapply total_bind; [apply st_read, sync_law|]. intros r. apply total_pure_r.
    intros _. unfold int_result. destruct (_ =? _); [apply st_RETURN_ERRNO|by apply total_ret].
  - change_op lsetxattr_law.
  - reading. apply st_code. apply total_then; [apply st_DEBUG_CALL|]. drop_fact @st_get_xattrs.
  - reading. apply st_code. apply total_then; [apply st_DEBUG_CALL|]. drop_fact @st_get_xattrs.
  - change_op lremovexattr_law.
  - reading. apply total_then; [apply st_DEBUG_CALL|by apply total_ret].
Qed.

Lemma st_start w : mounted w -> st w (unchanged w) w.
Proof. intros Hm. split; [by apply grows_refl|done]. Qed.

Lemma op_mounted op w : mounted w -> exists r w', mount_local_operations ptr op w = (Ret r, w') /\ op_done w op r w'.
Proof. intros Hm. apply (op_run op w w). by apply st_start. Qed.

Lemma grows_mounted w0 w : grows w0 w -> mounted w.
Proof. intros (_ & (t0 & t & _ & Hl & _) & (x0 & x & _ & Hx & _) & (r0 & r & _ & Hr & _)). split_and!; by eexists. Qed.

End fuse_lemmas.

(** ** Mounting *)

Section mounting.
Context {T : Type -> Type} {G : Type} `{HashLaws T} `{FuseLaws G}.
Context (ptr : string).
Implicit Types w : fuse T G.

(** Nothing of a mount is left. *)
Definition unmounted w : Prop :=
  fu_fuse w = false /\ fu_channel w = None /\ lsc_ht w = None /\ xac_ht w = None /\ rlc_ht w = None /\ localmountpoint w = None.

(** The state after a mount that has succeeded. *)
Definition newly_mounted (mp : string) (optargs : mount_local_argv) w : Prop :=
  mounted w /\ (forall p, uncached w p) /\ localmountpoint w = Some mp /\ fu_fuse w = true /\ fu_channel w = Some mp /\
  ml_dir_cache_timeout w = default 60 (mla_cachetimeout optargs) /\
  ml_read_only w = default 0 (mla_readonly optargs).

(** While libfuse is called: the fields that are set, the channel, and the
    answers to come. *)
Definition configured (optargs : mount_local_argv) (c : option string) (q : list (option Z)) w : Prop :=
  mounted w /\ (forall p, uncached w p) /\ localmountpoint w = None /\ fu_fuse w = false /\ fu_channel w = c /\
  fu_answers w = q /\ ml_dir_cache_timeout w = default 60 (mla_cachetimeout optargs) /\
  ml_read_only w = default 0 (mla_readonly optargs).

(** The next [n] calls of libfuse succeed. *)
Definition libfuse_ok (n : nat) (q : list (option Z)) : bool := forallb (fun a => bool_decide (a = None)) (take n q).
(** The arguments that mount_local gives to libfuse, fuse_mount and fuse_new. *)
Definition libfuse_calls (optargs : mount_local_argv) : nat := if mla_options optargs then 5 else 3.

Definition mount_done (mp : string) (optargs : mount_local_argv) (c : option string) (ok : bool) (r : Z) w : Prop :=
  if ok then r = 0 /\ newly_mounted mp optargs w else r = -1 /\ (c = None -> unmounted w).

Lemma mount_failed_run optargs c q e what mp :
  Prelude.total (configured optargs c q) (mount_failed e what mp) (mount_done mp optargs c false).
Proof.
  intros w (_ & _ & Hm & Hf & Hc & _). eexists _, _. split; [reflexivity|]. split; [done|]. intros ->. cbn. rewrite Hf. by split_and!.
Qed.

Lemma configured_debug optargs c q msg : Prelude.total (configured optargs c q) (debug msg) (fun _ => configured optargs c q).
Proof. intros w Hw. eexists _, _. split; [reflexivity|]. exact Hw. Qed.

Lemma libfuse_run optargs c q n mp c0 (k : option Z -> fum T G Z) :
  (forall e, Prelude.total (configured optargs c (tail q)) (k (Some e)) (mount_done mp optargs c0 false)) ->
  Prelude.total (configured optargs c (tail q)) (k None) (mount_done mp optargs c0 (libfuse_ok n (tail q))) ->
  Prelude.total (configured optargs c q) (a <- libfuse ;; k a) (mount_done mp optargs c0 (libfuse_ok (S n) q)).
Proof.
  intros Hf Hk w (? & ? & ? & ? & ? & Hq & ? & ?). unfold bind, libfuse. rewrite Hq.
  destruct q as [|[e|] q]; cbn [answer].
  - change (libfuse_ok (S n) []) with true. replace (libfuse_ok n (tail [])) with true in Hk by (by destruct n). apply Hk. by split_and!.
  - apply Hf. by split_and!.
  - apply Hk. by split_and!.
Qed.

Lemma add_fuse_args_run optargs c mp n k : forall args q,
  (forall q, Prelude.total (configured optargs c q) k (mount_done mp optargs c (libfuse_ok n q))) ->
  Prelude.total (configured optargs c q) (add_fuse_args args mp k) (mount_done mp optargs c (libfuse_ok (length args + n) q)).
Proof.
  intros args q Hk. revert q. induction args as [|a args IH]; intros q; [apply Hk|]. cbn [add_fuse_args length Nat.add].
  apply libfuse_run; [intros e; apply mount_failed_run|apply IH].
Qed.

Lemma mount_local_run_spec mp optargs w : localmountpoint w = None -> fu_fuse w = false ->
  (forall A, is_Some (hash_initialize (T := T) (A := A))) ->
  exists r w', guestfs__mount_local mp optargs w = (Ret r, w') /\
    mount_done mp optargs (fu_channel w) (libfuse_ok (libfuse_calls optargs) (fu_answers w)) r w'.
Proof.
  intros Hm Hf Hi. unfold guestfs__mount_local. rewrite Hm. rewrite bind_modify.
  destruct (Hi (entry fstat)) as [l El], (Hi (entry (list xattr))) as [x Ex], (Hi (entry string)) as [r Er].
  match goal with |- context [bind init_dir_caches _ ?w1] => set (w0 := w1) end.
  assert (init_dir_caches w0 = (Ret 0, w0 <| lsc_ht := Some l |> <| xac_ht := Some x |> <| rlc_ht := Some r |>)) as E0.
  { unfold init_dir_caches. rewrite bind_modify. rewrite El, Ex, Er. done. }
  rewrite (bind_Ret _ _ _ _ _ E0). change (0 =? -1) with false. cbv iota.
  replace (libfuse_calls optargs) with
    (length ("guestfs_mount_local" :: match mla_options optargs with Some o => ["-o"; o] | None => [] end) + 2)%nat
    by (unfold libfuse_calls; by destruct (mla_options optargs)).
  apply (add_fuse_args_run optargs (fu_channel w) mp).
  - intros q. apply total_then; [apply configured_debug|]. apply libfuse_run; [intros e; apply mount_failed_run|].
    eapply (total_bind _ _ (fun _ => configured optargs (Some mp) (tail q))).
    { intros w1 (? & ? & ? & ? & ? & ? & ? & ?). eexists _, _. split; [reflexivity|]. by split_and!. }
    intros _. apply total_then; [apply configured_debug|]. apply libfuse_run.
    + intros e w1 (? & ? & ? & Hf1 & ?). eexists _, _. split; [reflexivity|]. split; [done|]. intros _. cbn. rewrite Hf1. by split_and!.
    + intros w1 (? & ? & ? & ? & ? & ? & ? & ?). eexists _, _. split; [reflexivity|]. split; [done|]. by split_and!.
  - split_and!; try done; [by eexists..|]. intros p. split_and!; intros t [= <-]; by apply hash_lookup_initialize.
Qed.

End mounting.

(** * Theorems *)

Section staleness.
Context {T : Type -> Type} {G : Type} `{HashLaws T} `{FuseLaws G}.
Context (ptr : string).
Implicit Types (w : fuse T G) (h : list (Z * view)).

(** The states of a mount, with the times and views of the guest that have
    been: operations of libfuse, the passing of time, and other calls on the
    handle, which change the guest behind the caches. *)
Inductive reaches : fuse T G -> list (Z * view) -> Prop :=
  | reaches_mount w0 mp optargs w : localmountpoint w0 = None -> fu_fuse w0 = false ->
      (forall A, is_Some (hash_initialize (T := T) (A := A))) -> 0 <= default 60 (mla_cachetimeout optargs) ->
      guestfs__mount_local mp optargs w0 = (Ret 0, w) -> reaches w [(fu_now w, gview (fu_guest w))]
  | reaches_op w h op r w' : reaches w h -> mount_local_operations ptr op w = (Ret r, w') ->
      reaches w' ((fu_now w', gview (fu_guest w')) :: h)
  | reaches_time w h d : 0 <= d -> reaches w h ->
      reaches (w <| fu_now ::= Z.add d |>) ((d + fu_now w, gview (fu_guest w)) :: h)
  | reaches_guest w h g gu : reaches w h ->
      reaches (w <| fu_g := g |> <| fu_guest := gu |>) ((fu_now w, gview gu) :: h).

(** Every entry is what the guest had at a time of the history, and expires
    [keep] seconds after it. *)
Definition cached_from {A} h (keep : Z) (good : view -> string -> A -> Prop) (o : option (T (entry A))) : Prop :=
  forall t p e, o = Some t -> hash_lookup t p = Some e ->
    exists tau v, (tau, v) ∈ h /\ timeout e = tau + keep /\ good v p (value e).

Record cache_inv w h : Prop := {
  ci_mounted : mounted w;
  ci_now : (fu_now w, gview (fu_guest w)) ∈ h;
  ci_past : Forall (fun x => fst x <= fu_now w) h;
  ci_keep : 0 <= ml_dir_cache_timeout w;
  ci_lsc : cached_from h (ml_dir_cache_timeout w) is_stat (lsc_ht w);
  ci_xac : cached_from h (ml_dir_cache_timeout w) is_xattrs (xac_ht w);
  ci_rlc : cached_from h (ml_dir_cache_timeout w) is_link (rlc_ht w)
}.

Lemma cached_from_more {A} h x keep (good : view -> string -> A -> Prop) o :
  cached_from h keep good o -> cached_from (x :: h) keep good o.
Proof.
  intros Hc t p e Ht He. destruct (Hc t p e Ht He) as (tau & v & Hin & Hr). exists tau, v. split; [by right|done].
Qed.

Lemma cached_from_grows {A} h keep now v (good : view -> string -> A -> Prop) o o' :
  (now, v) ∈ h -> cached_from h keep good o -> table_renewed o (now + keep) (good v) o' -> cached_from h keep good o'.
Proof.
  intros Hin Hc (t0 & t1 & E0 & E1 & Hr) t p e Ht He. rewrite E1 in Ht. injection Ht as <-.
  destruct (Hr p e He) as [Hold|[Hu Hg]]; [by eapply Hc|]. by exists now, v.
Qed.

Lemma cached_from_empty {A} h keep (good : view -> string -> A -> Prop) o :
  (forall p, not_cached p o) -> cached_from h keep good o.
Proof. intros Hn t p e Ht He. by rewrite (Hn p t Ht) in He. Qed.

Lemma reaches_inv w h : reaches w h -> cache_inv w h.
Proof.
  induction 1 as [w0 mp optargs w Hl Hf Hi Hk E|w h op r w' Hr IH E|w h d Hd Hr IH|w h g gu Hr IH].
  - destruct (mount_local_run_spec mp optargs w0 Hl Hf Hi) as (r & w1 & E1 & Hd).
    rewrite E in E1. injection E1 as <- <-. unfold mount_done in Hd.
    destruct (libfuse_ok _ _); [destruct Hd as [_ Hd]|by destruct Hd]. destruct Hd as (Hm & Hu & _ & _ & _ & Ht & _). split; [done|by left|constructor; [done|constructor]|by rewrite Ht|..];
      apply cached_from_empty; intros p; by destruct (Hu p) as (? & ? & ?).
  - destruct IH as [Hm Hn Hp Hk Hl Hx Hrl]. destruct (op_mounted ptr op w Hm) as (r1 & w1 & E1 & Hd).
    rewrite E in E1. injection E1 as <- <-. destruct Hd as [Hg _]. pose proof (grows_mounted _ _ Hg) as Hm'.
    destruct Hg as (Hs & Gl & Gx & Gr). injection Hs as Ht _ _ _ _ _ Hnow. split; rewrite ?Ht, ?Hnow; try done.
    + by left.
    + constructor; [done|done].
    + by eapply cached_from_more, cached_from_grows.
    + by eapply cached_from_more, cached_from_grows.
    + by eapply cached_from_more, cached_from_grows.
  - destruct IH as [Hm Hn Hp Hk Hl Hx Hrl]. split; cbn; try done; try by apply cached_from_more.
    + by left.
    + constructor; [done|]. eapply Forall_impl; [exact Hp|]. intros x Hle. cbn in Hle. lia.
  - destruct IH as [Hm Hn Hp Hk Hl Hx Hrl]. split; cbn; try done; try by apply cached_from_more.
    + by left.
    + by constructor.
Qed.

(** A value that was found is one the guest had at most [keep] seconds ago. *)
Definition recent {A} h w (good : view -> string -> A -> Prop) (p : string) (a : A) : Prop :=
  exists tau v, (tau, v) ∈ h /\ tau <= fu_now w <= tau + ml_dir_cache_timeout w /\ good v p a.

Lemma found_recent {A} w h (o : option (T (entry A))) good p a : cache_inv w h ->
  cached_from h (ml_dir_cache_timeout w) good o ->
  found o (fu_now w) p a (good (gview (fu_guest w)) p a) -> recent h w good p a.
Proof.
  intros [Hm Hn Hp Hk _ _ _] Hc [(t & e & Et & El & Hle & <-)|Hf].
  - destruct (Hc t p e Et El) as (tau & v & Hin & He & Hg). exists tau, v. split; [done|]. split; [|done].
    rewrite Forall_forall in Hp. specialize (Hp _ Hin). cbn in Hp. lia.
  - exists (fu_now w), (gview (fu_guest w)). split; [done|]. split; [lia|done].
Qed.

(** C28: What the mounted file system reports is never older than the cache timeout: in every
    state of a mount, whatever operations, other changes of the guest and times have passed, the
    attributes that getattr returns are those the file had at a moment of the last timeout
    seconds. *)
Theorem fuse_bounded_staleness w h path s w' :
  reaches w h -> mount_local_getattr ptr path w = (Ret (0, Some s), w') -> recent h w is_stat path s.
Proof.
  intros Hr E. pose proof (reaches_inv w h Hr) as Hi.
  destruct (st_getattr ptr w path w (st_start w (ci_mounted _ _ Hi))) as (x & w1 & E1 & _ & Hx).
  rewrite E in E1. injection E1 as <- <-. destruct Hx as [_ Hf]. eapply found_recent; [done|apply Hi|done].
Qed.

(** The program sees its own changes: when an operation has changed a path on a mount that is
    not read-only, nothing is cached for the path, and getattr returns what the guest has. *)
Theorem fuse_sees_own_changes w op r w1 path s w2 :
  mounted w -> is_true (ml_read_only w) = false -> path ∈ changed_paths op ->
  mount_local_operations ptr op w = (Ret r, w1) ->
  mount_local_getattr ptr path w1 = (Ret (0, Some s), w2) -> is_stat (gview (fu_guest w1)) path s.
Proof.
  intros Hm Hro Hin E E2. destruct (op_mounted ptr op w Hm) as (r' & w1' & E' & Hg & _ & _ & Hu).
  rewrite E in E'. injection E' as <- <-. destruct (Hu Hro path Hin) as (Hl & _).
  destruct (st_getattr ptr w1 path w1 (st_start w1 (grows_mounted _ _ Hg))) as (x & w3 & E3 & _ & Hx).
  rewrite E2 in E3. injection E3 as <- <-. destruct Hx as [_ [(t & e & Et & Ee & _)|Hf]]; [|done].
  by rewrite (Hl t Et) in Ee.
Qed.

(** C30: On a read-only mount no operation changes the guest, and every one that would change it
    answers EROFS. *)
Theorem fuse_read_only w op r w1 :
  mounted w -> is_true (ml_read_only w) = true -> mount_local_operations ptr op w = (Ret r, w1) ->
  gview (fu_guest w1) = gview (fu_guest w) /\ (changed_paths op <> [] -> r = - EROFS).
Proof.
  intros Hm Hro E. destruct (op_mounted ptr op w Hm) as (r' & w1' & E' & _ & Hu & Hr & _).
  rewrite E in E'. injection E' as <- <-. split; [apply Hu; by left|by apply Hr].
Qed.

(** libfuse's loop: these operations, and how it ends. *)
Fixpoint fuse_loop (ops : list fuse_op) (err : option Z) : fum T G (option Z) :=
  match ops with
  | [] => ret err
  | op :: ops' => mount_local_operations ptr op ;;; fuse_loop ops' err
  end.

(** Mounted at this place. *)
Definition mounted_at (mp : string) w : Prop :=
  mounted w /\ localmountpoint w = Some mp /\ fu_fuse w = true /\ fu_channel w = Some mp.

Lemma mounted_at_g mp f : Prelude.total (mounted_at mp) (on_g (modify f)) (fun _ => mounted_at mp).
Proof. intros w Hw. eexists _, _. split; [reflexivity|]. exact Hw. Qed.

Lemma fuse_loop_run mp err : forall ops,
  Prelude.total (mounted_at mp) (fuse_loop ops err) (fun r w => mounted_at mp w /\ r = err).
Proof.
  induction ops as [|op ops IH]; [by apply total_ret|]. cbn [fuse_loop].
  apply total_then; [|exact IH]. intros w (Hm & Hp & Hf & Hc). destruct (op_mounted ptr op w Hm) as (r & w1 & E & Hg & _).
  exists r, w1. split; [done|]. split; [by eapply grows_mounted|]. destruct Hg as [Hs _]. injection Hs as _ _ _ El Ef Ec _.
  by rewrite El, Ef, Ec.
Qed.

(** Whether guestfs_exists finds a root file system, as mount_local_run asks. *)
Definition root_mounted w : bool :=
  match fst (api_exists "/" (guestfs_push_error_handler (fu_g w) None 0, fu_guest w)) with
  | Ret r => negb (r =? -1)
  | Stop _ => false
  end.

Lemma run_session mp ops err w : mounted_at mp w ->
  exists r w', guestfs__mount_local_run (fuse_loop ops err) w = (Ret r, w') /\
    if root_mounted w then r = match err with None => 0 | Some _ => -1 end /\ unmounted w' else r = -1 /\ mounted_at mp w'.
Proof.
  intros Hw. unfold guestfs__mount_local_run. rewrite (proj1 (proj2 Hw)). unfold root_mounted.
  unfold bind at 1, on_g at 1, zoom at 1, modify at 1.
  destruct (exists_law "/" (guestfs_push_error_handler (fu_g w) None 0, fu_guest w)) as (r & x' & Ex & _).
  set (w1 := w <| fu_g := guestfs_push_error_handler (fu_g w) None 0 |>).
  assert (on_api (api_exists "/") w1 = (Ret r, w1 <| fu_g := fst x' |> <| fu_guest := snd x' |>)) as E1.
  { unfold on_api, zoom. change (fu_g w1, fu_guest w1) with (guestfs_push_error_handler (fu_g w) None 0, fu_guest w). by rewrite Ex. }
  rewrite (bind_Ret _ _ _ _ _ E1), Ex. cbn [fst]. clear E1 Ex.
  match goal with |- exists r0 w0, ?m ?w1 = _ /\ @?Q r0 w0 => enough (Prelude.total (mounted_at mp) m Q) as Ht by exact (Ht w1 Hw) end.
  apply total_then; [apply mounted_at_g|]. destruct (r =? -1); cbn [negb].
  { apply total_then; [apply mounted_at_g|]. by apply total_ret. }
  apply total_then; [apply mounted_at_g|]. eapply total_bind; [apply fuse_loop_run|]. intros r'. apply total_pure_r. intros ->.
  apply total_then; [destruct err; [apply mounted_at_g|by apply total_ret]|].
  apply total_then; [apply mounted_at_g|]. intros w0 (_ & _ & Hf & _). eexists _, _. split; [reflexivity|].
  split; [by destruct err|]. cbn. rewrite Hf. by split_and!.
Qed.

(** C29: A session ends and is undone. Mounting succeeds exactly when every call of libfuse
    does; when one fails, fuse_new included, -1 is returned and the mount point, libfuse's
    handle and channel and the caches are gone again. After a mount that has succeeded,
    mount_local_run returns -1 at once and leaves everything mounted if guestfs_exists fails, as
    it does when no root file system is mounted in the guest; otherwise any sequence of
    operations runs to its end, the result is 0 or -1 as fuse_loop ended well or not, and
    everything is gone again. *)
Theorem fuse_session mp optargs ops err w :
  localmountpoint w = None -> fu_fuse w = false -> fu_channel w = None ->
  (forall A, is_Some (hash_initialize (T := T) (A := A))) ->
  exists r w1, guestfs__mount_local mp optargs w = (Ret r, w1) /\
    if libfuse_ok (libfuse_calls optargs) (fu_answers w) then
      r = 0 /\ mounted_at mp w1 /\
      exists r2 w2, guestfs__mount_local_run (fuse_loop ops err) w1 = (Ret r2, w2) /\
        if root_mounted w1 then r2 = match err with None => 0 | Some _ => -1 end /\ unmounted w2
        else r2 = -1 /\ mounted_at mp w2
    else r = -1 /\ unmounted w1.
Proof.
  intros Hm Hf Hc Hi. destruct (mount_local_run_spec mp optargs w Hm Hf Hi) as (r & w1 & E & Hd). exists r, w1. split; [done|].
  unfold mount_done in Hd. destruct (libfuse_ok _ _); [|destruct Hd as [-> Hd]; auto].
  destruct Hd as (-> & Hmo & _ & Hmp & Hfu & Hch & _). split; [done|]. assert (mounted_at mp w1) as Hat by (by split_and!).
  split; [done|]. by apply run_session.
Qed.

End staleness.

(** ** Lists of attributes *)

Definition attr_names (xs : list xattr) : list byte := xs ≫= (fun x => bytes_of_string (attrname x) ++ [x00]).


Lemma attr_len_bytes x : length (bytes_of_string (attrname x) ++ [x00]) = attr_len x.
Proof. rewrite length_app, length_bytes_of_string. done. Qed.

Lemma attr_space xs : foldr (fun x n => attr_len x + n)%nat 0%nat xs = length (attr_names xs).
Proof.
  induction xs as [|x xs IH]; [done|]. cbn [foldr]. rewrite IH.
  change (attr_names (x :: xs)) with ((bytes_of_string (attrname x) ++ [x00]) ++ attr_names xs).
  by rewrite length_app, attr_len_bytes.
Qed.

Lemma listxattr_loop_spec : forall xs size r list,
  ((length (attr_names xs) <= size)%nat ->
     listxattr_loop size r list xs = (r + Z.of_nat (length (attr_names xs)), list ++ attr_names xs)) /\
  ((size < length (attr_names xs))%nat ->
     exists n, (n <= size)%nat /\ listxattr_loop size r list xs = (- ERANGE, list ++ take n (attr_names xs))).
Proof.
  induction xs as [|x xs IH]; intros size r list.
  { cbn. split; [intros _; by rewrite Z.add_0_r, app_nil_r|lia]. }
  change (attr_names (x :: xs)) with ((bytes_of_string (attrname x) ++ [x00]) ++ attr_names xs).
  rewrite length_app, attr_len_bytes. cbn [listxattr_loop].
  destruct (Nat.leb_spec (attr_len x) size) as [Hle|Hgt].
  - destruct (IH (size - attr_len x)%nat (r + Z.of_nat (attr_len x)) (list ++ bytes_of_string (attrname x) ++ [x00])) as [Hfit Hno].
    split.
    + intros Hs. rewrite Hfit by lia. rewrite <- app_assoc. f_equal. lia.
    + intros Hs. destruct Hno as (n & Hn & ->); [lia|]. exists (attr_len x + n)%nat. split; [lia|].
      rewrite <- app_assoc. f_equal. f_equal. rewrite <- (attr_len_bytes x), take_app_add. done.
  - split; [lia|]. intros _. exists 0%nat. split; [lia|]. by rewrite take_0, app_nil_r.
Qed.

(** listxattr as the system call: without a buffer the space the names take, with a buffer
    that is large enough all the names, and with a smaller one ERANGE, never writing more
    bytes than the buffer has. *)
Theorem listxattr_fits (xs : list xattr) :
  listxattr_from None xs = (Z.of_nat (length (attr_names xs)), []) /\
  forall size,
    ((length (attr_names xs) <= size)%nat ->
       listxattr_from (Some size) xs = (Z.of_nat (length (attr_names xs)), attr_names xs)) /\
    ((size < length (attr_names xs))%nat ->
       exists n, (n <= size)%nat /\ listxattr_from (Some size) xs = (- ERANGE, take n (attr_names xs))).
Proof.
  unfold listxattr_from. split; [by rewrite attr_space|]. intros size. apply (listxattr_loop_spec xs size 0 []).
Qed.

(** * Examples *)

#[export] Instance gmap_hash : Hash (gmap string) := {|
  hash_initialize A := Some ∅;
  hash_lookup A t p := t !! p;
  hash_delete A t p := delete p t;
  hash_insert A t p x := Some (<[p := x]> t);
  hash_remove_if A f t := filter (fun kv => f (snd kv) = false) t
|}.
#[export] Instance gmap_hash_laws : HashLaws (gmap string).
Proof.
  split; cbn.
  - by intros A t p [= <-].
  - intros A t p q. case_decide; [subst; apply lookup_delete_eq|by apply lookup_delete_ne].
  - intros A t t' p x q _ [= <-]. case_decide; [subst; apply lookup_insert_eq|by apply lookup_insert_ne].
  - intros A f t p. destruct (t !! p) as [x|] eqn:E.
    + destruct (f x) eqn:Ef.
      * apply map_lookup_filter_None. right. intros y Hy. simplify_eq/=. by rewrite Ef.
      * by apply map_lookup_filter_Some.
    + apply map_lookup_filter_None. by left.
Qed.

(** A guest of files with their attributes, and one directory to list. *)
Definition ex_fs : Type := gmap string statns.
Definition ex_missing : statns := mk_statns 0 (-1) 0 0 0 0 0 0 0 0 0 0 0 0 0 0 0 0 0 0 0 0.
Definition ex_view (g : ex_fs) : view := mk_view (fun p => g !! p) (fun _ => None) (fun _ => None).

Definition ex_ok {A} (r : ex_fs -> A) : M (guestfs_h * ex_fs) A := fun x =>
  (Ret (r (snd x)), (set_last_error (fst x) 2 "", snd x)).
Definition ex_change (f : ex_fs -> ex_fs) : M (guestfs_h * ex_fs) Z := fun x => (Ret 0, (fst x, f (snd x))).
Definition ex_rename (from to : string) (g : ex_fs) : ex_fs :=
  match g !! from with Some a => <[to := a]> (delete from g) | None => g end.

#[export] Instance ex_fuse_calls : FuseCalls ex_fs := {|
  api_readdir path := ex_ok (fun _ => Some [mk_dirent 12 "r" "x"]);
  api_lstatnslist path names := ex_ok (fun g => Some ((fun n => default ex_missing (g !! entry_path path n)) <$> names));
  api_lxattrlist path names := ex_ok (fun _ => Some ((fun _ => mk_xattr "" []) <$> names));
  api_readlinklist path names := ex_ok (fun _ => Some ((fun _ => "") <$> names));
  api_lstatns path := ex_ok (fun g => g !! path);
  api_readlink path := ex_ok (fun _ => None);
  api_mknod _ _ _ _ := ex_change id;
  api_mkdir_mode _ _ := ex_change id;
  api_rm path := ex_change (delete path);
  api_rmdir path := ex_change (delete path);
  api_ln_s _ _ := ex_change id;
  api_rename from to := ex_change (ex_rename from to);
  api_ln _ _ := ex_change id;
  api_chmod mode path := ex_change (alter (fun a => mk_statns (st_dev a) (st_ino a) mode (st_nlink a) (st_uid a) (st_gid a)
    (st_rdev a) (st_size a) (st_blksize a) (st_blocks a) (st_atime_sec a) (st_atime_nsec a) (st_mtime_sec a)
    (st_mtime_nsec a) (st_ctime_sec a) (st_ctime_nsec a) 0 0 0 0 0 0) path);
  api_lchown _ _ _ := ex_change id;
  api_truncate_size _ _ := ex_change id;
  api_utimens _ _ _ _ _ := ex_change id;
  api_pread _ _ _ := ex_ok (fun _ => Some []);
  api_pwrite _ buf _ := ex_change id;
  api_statvfs _ := ex_ok (fun _ => None);
  api_sync := ex_ok (fun _ => 0);
  api_lsetxattr _ _ _ := ex_change id;
  api_lgetxattrs _ := ex_ok (fun _ => None);
  api_lremovexattr _ _ := ex_change id;
  api_exists _ := ex_ok (fun _ => 1)
|}.

Lemma ex_reads {A} (r : ex_fs -> A) Q : (forall g, Q (ex_view g) (r g)) -> reads ex_view (ex_ok r) Q.
Proof. intros HQ [g gu]. eexists _, _. split; [reflexivity|]. split_and!; [done|apply HQ|done]. Qed.
Lemma ex_returns f : returns (ex_change f).
Proof. intros x. by eexists _, _. Qed.

Lemma ex_encodes (names : list string) : encodes ((fun _ => None) <$> names) ((fun _ => mk_xattr "" []) <$> names).
Proof. induction names as [|n names IH]; cbn; by constructor. Qed.

#[export] Instance ex_fuse_laws : FuseLaws ex_fs.
Proof.
  refine {| gview := ex_view |}; intros; try apply ex_returns; apply ex_reads; intros g; try done.
  - split; [by rewrite length_fmap|]. intros i name s Hi Hs Hp. rewrite list_lookup_fmap, Hi in Hs. cbn in Hs. injection Hs as <-.
    cbn. destruct (g !! _) as [a|]; [done|]. cbn in Hp. lia.
  - exists ((fun _ => None) <$> names). split; [apply ex_encodes|]. split; [by rewrite length_fmap|].
    intros i name xs Hi Hf. rewrite list_lookup_fmap, Hi in Hf. done.
  - split; [by rewrite length_fmap|]. intros i name link Hi Hl Hne. rewrite list_lookup_fmap, Hi in Hl. cbn in Hl. by injection Hl as <-.
  - unfold is_ret. cbn. by case_match.
Defined.

Definition ex_attr : statns := mk_statns 1 12 33188 1 0 0 0 10 4096 8 100 0 100 0 100 0 0 0 0 0 0 0.
Definition ex_unmounted (g : ex_fs) : fuse (gmap string) ex_fs :=
  mk_fuse Examples.ex_handle None false None 0 0 0 None None None 1000 [] ex_kernel g.
Definition ex_opts (readonly : option Z) : mount_local_argv := mk_mount_local_argv readonly None None None.
Definition ex_mounted : fuse (gmap string) ex_fs :=
  snd (guestfs__mount_local "/mnt" (ex_opts None) (ex_unmounted {["/a/x" := ex_attr]})).

(** Renaming a directory does not forget what is cached below it: the old path of a file
    still has its attributes, although the file is gone. *)
Lemma rename_leaves_children_cached :
  let w1 := snd (mount_local_operations "p" (Op_readdir "/a" 0 10) ex_mounted) in
  let w2 := snd (mount_local_operations "p" (Op_rename "/a" "/b") w1) in
  let gone := w2 <| fu_guest := ex_rename "/a/x" "/b/x" (fu_guest w2) |> in
  fst (mount_local_getattr "p" "/a/x" gone) = Ret (0, Some (stat_of ex_attr)) /\ fu_guest gone !! "/a/x" = None.
Proof. by vm_compute. Qed.

Lemma ex_reaches : reaches "p" ex_mounted [(fu_now ex_mounted, gview (fu_guest ex_mounted))].
Proof.
  apply (reaches_mount "p" (ex_unmounted {["/a/x" := ex_attr]}) "/mnt" (ex_opts None));
    [reflexivity|reflexivity|intros A; by exists ∅|cbn; lia|vm_compute; reflexivity].
Defined.

Lemma fuse_bounded_staleness_witness :
  recent [(fu_now ex_mounted, gview (fu_guest ex_mounted))] ex_mounted is_stat "/a/x" (stat_of ex_attr).
Proof.
  eapply (fuse_bounded_staleness "p" ex_mounted _ "/a/x" (stat_of ex_attr)); [apply ex_reaches|reflexivity].
Defined.

Definition ex_chmod : outcome Z * fuse (gmap string) ex_fs := mount_local_operations "p" (Op_chmod "/a/x" 33279) ex_mounted.
Definition ex_changed : fstat :=
  mk_fstat 1 12 33279 1 0 0 0 10 4096 8 100 0 100 0 100 0.

Lemma fuse_sees_own_changes_witness : is_stat (gview (fu_guest (snd ex_chmod))) "/a/x" ex_changed.
Proof.
  apply (fuse_sees_own_changes "p" ex_mounted (Op_chmod "/a/x" 33279) 0 (snd ex_chmod) "/a/x" ex_changed
    (snd (mount_local_getattr "p" "/a/x" (snd ex_chmod)))).
  - split_and!; by eexists.
  - reflexivity.
  - by left.
  - vm_compute. reflexivity.
  - vm_compute. reflexivity.
Defined.

Lemma fuse_read_only_witness :
  let w := snd (guestfs__mount_local "/mnt" (ex_opts (Some 1)) (ex_unmounted {["/a/x" := ex_attr]})) in
  gview (fu_guest (snd (mount_local_operations "p" (Op_unlink "/a/x") w))) = gview (fu_guest w).
Proof.
  intros w. apply (fuse_read_only "p" w (Op_unlink "/a/x") (- EROFS) (snd (mount_local_operations "p" (Op_unlink "/a/x") w)));
    [split_and!; by eexists|reflexivity|vm_compute; reflexivity].
Defined.

(** libfuse refuses fuse_new. *)
Definition ex_refusing (g : ex_fs) : fuse (gmap string) ex_fs :=
  (ex_unmounted g) <| fu_answers := [None; None; Some EACCES] |>.
(** A session that ends well, and a failure of fuse_new. *)
Lemma fuse_session_witness :
  (exists w1 w2, guestfs__mount_local "/mnt" (ex_opts None) (ex_unmounted {["/a/x" := ex_attr]}) = (Ret 0, w1) /\
     mounted_at "/mnt" w1 /\
     guestfs__mount_local_run (fuse_loop "p" [Op_readdir "/a" 0 10; Op_unlink "/a/x"] None) w1 = (Ret 0, w2) /\ unmounted w2) /\
  (exists w1, guestfs__mount_local "/mnt" (ex_opts None)
     (ex_refusing ∅) = (Ret (-1), w1) /\ unmounted w1).
Proof.
  split.
  - destruct (fuse_session "p" "/mnt" (ex_opts None) [Op_readdir "/a" 0 10; Op_unlink "/a/x"] None (ex_unmounted {["/a/x" := ex_attr]}))
      as (r & w1 & E & H); [reflexivity|reflexivity|reflexivity|intros A; by exists ∅|].
    destruct H as (-> & Hm & r2 & w2 & E2 & H2).
    replace (root_mounted w1) with true in H2 by (apply (f_equal snd) in E; cbn [snd] in E; rewrite <- E; vm_compute; reflexivity).
    destruct H2 as [-> H2]. by exists w1, w2.
  - destruct (fuse_session "p" "/mnt" (ex_opts None) [] None (ex_refusing ∅))
      as (r & w1 & E & -> & H); [reflexivity|reflexivity|reflexivity|intros A; by exists ∅|]. by exists w1.
Defined.
