(* ===== verification/Helpers.v ===== *)
(** Small parts of the library: the private data area of the handle
    (src/private-data.c) over the hash table of gnulib, GUID checking
    (src/guid.c) and canonical device names (src/canonical-name.c). *)

From S2P Require Import Prelude Xdr Handle Utils Guestfsd.
From Stdlib Require Import Ascii.

(** * src/private-data.c *)

Module PrivateData.

(** [None] is a NULL data pointer. *)
Record pda_entry := mk_pda_entry { pda_key : string; pda_data : option Z }.

(** The comparator and the hasher look at the key only. *)
Definition comparator (a b : pda_entry) : bool := STREQ (pda_key a) (pda_key b).

(** ** The hash table

    gnulib's hash module, by what src/private-data.c calls.  [hash_entries] is
    the order of the walk, which insertion and deletion may change. *)
Class HashOps (T : Type) := {
  hash_initialize : T;
  hash_delete : T -> pda_entry -> option pda_entry * T;
  hash_insert : T -> pda_entry -> pda_entry * T;      (* the entry now in the table *)
  hash_lookup : T -> pda_entry -> option pda_entry;
  hash_get_first : T -> option pda_entry;
  hash_get_next : T -> pda_entry -> option pda_entry;
  hash_entries : T -> list pda_entry
}.

(** The entry after the one with this key. *)
Fixpoint next_of (key : string) (l : list pda_entry) : option pda_entry :=
  match l with
  | [] => None
  | e :: l' => if STREQ (pda_key e) key then head l' else next_of key l'
  end.

Definition keys {T} `{HashOps T} (t : T) : list string := pda_key <$> hash_entries t.
Definition has_key (key : string) (e : pda_entry) : Prop := pda_key e = key.
#[export] Instance has_key_dec key e : Decision (has_key key e).
Proof. unfold has_key. apply _. Defined.

Class HashLaws (T : Type) `{HashOps T} := {
  hash_nodup t : NoDup (keys t);
  hash_initialize_entries : hash_entries hash_initialize = [];
  hash_delete_entries t e : hash_entries (snd (hash_delete t e)) ≡ₚ
    filter (fun x => ~ has_key (pda_key e) x) (hash_entries t);
  hash_insert_new t e : pda_key e ∉ keys t ->
    fst (hash_insert t e) = e /\ hash_entries (snd (hash_insert t e)) ≡ₚ e :: hash_entries t;
  hash_lookup_entries t e : hash_lookup t e = list_find (has_key (pda_key e)) (hash_entries t) ≫= (fun p => Some (snd p));
  hash_first_entries t : hash_get_first t = head (hash_entries t);
  hash_next_entries t e : e ∈ hash_entries t -> hash_get_next t e = next_of (pda_key e) (hash_entries t)
}.

(** ** The operations *)

Section ops.
Context {T : Type} `{HashOps T}.

(** The two fields of the handle. *)
Record pda_state := mk_pda { pda : option T; pda_next : option pda_entry }.

Definition guestfs_set_private (key : string) (data : option Z) : M pda_state unit := fun g =>
  let t := match pda g with None => hash_initialize | Some t => t end in
  let new_entry := mk_pda_entry key data in
  let '(_, t) := hash_delete t new_entry in
  let '(entry, t) := hash_insert t new_entry in
  let g := mk_pda (Some t) (pda_next g) in
  if STREQ (pda_key entry) key && bool_decide (pda_data entry = data) then (Ret tt, g)
  else (Stop AssertFailed, g).

Definition guestfs_get_private (key : string) (g : pda_state) : option Z :=
  match pda g with
  | None => None
  | Some t => match hash_lookup t (mk_pda_entry key None) with
              | Some entry => pda_data entry
              | None => None
              end
  end.

(** The loops that skip NULL data.  The fuel is the number of entries. *)
Fixpoint skip_null (fuel : nat) (t : T) (e : option pda_entry) : option pda_entry :=
  match e, fuel with
  | Some e', S fuel' => if bool_decide (pda_data e' = None) then skip_null fuel' t (hash_get_next t e') else e
  | _, _ => e
  end.
Definition entry_result (e : option pda_entry) : option (string * Z) :=
  match e with
  | Some e => match pda_data e with Some d => Some (pda_key e, d) | None => None end
  | None => None
  end.

(** The key returned through [key_rtn] and the data; [None] is NULL. *)
Definition guestfs_first_private (g : pda_state) : option (string * Z) * pda_state :=
  match pda g with
  | None => (None, g)
  | Some t =>
      let e := skip_null (length (hash_entries t)) t (hash_get_first t) in
      (entry_result e, mk_pda (pda g) e)
  end.
Definition guestfs_next_private (g : pda_state) : option (string * Z) * pda_state :=
  match pda g, pda_next g with
  | Some t, Some e =>
      let e := skip_null (length (hash_entries t)) t (hash_get_next t e) in
      (entry_result e, mk_pda (pda g) e)
  | _, _ => (None, g)
  end.

(** The walk of the manual: first, then next until NULL. *)
Fixpoint walk_next (fuel : nat) (g : pda_state) : list (string * Z) :=
  match fuel with
  | O => []
  | S fuel' => match guestfs_next_private g with
               | (Some kd, g') => kd :: walk_next fuel' g'
               | (None, _) => []
               end
  end.
Definition walk (g : pda_state) : list (string * Z) :=
  match guestfs_first_private g with
  | (Some kd, g') =>
      kd :: walk_next (match pda g with Some t => length (hash_entries t) | None => 0 end) g'
  | (None, _) => []
  end.
End ops.
Arguments pda_state : clear implicits.

(** ** The abstract specification

    A finite map from keys to data pointers that are not NULL. *)
Section spec.
Context {T : Type} `{HashLaws T}.
Implicit Types (g : pda_state T) (t : T).

Definition entry_pairs (l : list pda_entry) : list (string * Z) :=
  omap (fun e => (fun d => (pda_key e, d)) <$> pda_data e) l.
Definition abs g : gmap string Z :=
  match pda g with None => ∅ | Some t => list_to_map (entry_pairs (hash_entries t)) end.

Definition set_spec (key : string) (data : option Z) (m : gmap string Z) : gmap string Z :=
  match data with Some d => <[key := d]> m | None => delete key m end.

Lemma entry_pairs_fst l : (entry_pairs l).*1 ⊆ pda_key <$> l.
Proof.
  intros k (x & -> & Hx)%list_elem_of_fmap. unfold entry_pairs in Hx. apply list_elem_of_omap in Hx as (e & He & Hx).
  destruct (pda_data e); [|done]. injection Hx as <-. apply list_elem_of_fmap. by exists e.
Qed.
Lemma entry_pairs_nodup l : NoDup (pda_key <$> l) -> NoDup (entry_pairs l).*1.
Proof.
  induction l as [|e l IH]; cbn; [constructor|]. intros [Hn Hd]%NoDup_cons.
  unfold entry_pairs. cbn. destruct (pda_data e) as [d|]; cbn; [|by apply IH].
  apply NoDup_cons. split; [|by apply IH]. intros Hk. apply Hn. by apply (entry_pairs_fst l).
Qed.

(** The value of a key in a table. *)
Lemma abs_lookup l key : NoDup (pda_key <$> l) ->
  (list_to_map (entry_pairs l) : gmap string Z) !! key =
  list_find (has_key key) l ≫= (fun p => pda_data (snd p)).
Proof.
  induction l as [|e l IH]; [done|]. cbn [fmap list_fmap]. intros [Hn Hd]%NoDup_cons. cbn [list_find].
  unfold entry_pairs. cbn [omap list_omap]. fold (entry_pairs l).
  destruct (decide (has_key key e)) as [Hk|Hk]; cbn.
  - unfold has_key in Hk. subst key. destruct (pda_data e) as [d|]; cbn; [by rewrite lookup_insert_eq|].
    apply not_elem_of_list_to_map_1. intros Hin. apply Hn. by apply (entry_pairs_fst l).
  - unfold has_key in Hk. assert ((list_to_map (entry_pairs l) : gmap string Z) !! key =
      (prod_map S id <$> list_find (has_key key) l) ≫= (fun p => pda_data (snd p))) as E.
    { rewrite IH by done. by destruct (list_find (has_key key) l) as [[i x]|]. }
    destruct (pda_data e) as [d|]; cbn; [by rewrite lookup_insert_ne|done].
Qed.

Lemma entry_pairs_perm l1 l2 : l1 ≡ₚ l2 -> entry_pairs l1 ≡ₚ entry_pairs l2.
Proof. intros Hp. unfold entry_pairs. by rewrite Hp. Qed.

Lemma filter_find key l : list_find (has_key key) (filter (fun x => ~ has_key key x) l) = None.
Proof. apply list_find_None, Forall_forall. intros x Hx. by apply list_elem_of_filter in Hx as [? _]. Qed.
Lemma filter_find_ne key key' l : key <> key' ->
  list_find (has_key key') (filter (fun x => ~ has_key key x) l) ≫= (fun p => pda_data (snd p)) =
  list_find (has_key key') l ≫= (fun p => pda_data (snd p)).
Proof.
  intros Hne. assert (forall (o : option (nat * pda_entry)),
    (prod_map S id <$> o) ≫= (fun p => pda_data (snd p)) = o ≫= (fun p => pda_data (snd p))) as HS.
  { by intros [[i x]|]. }
  induction l as [|e l IH]; [done|]. rewrite filter_cons. destruct (decide (~ has_key key e)) as [Hk|Hk]; cbn [list_find].
  - destruct (decide (has_key key' e)); [done|]. by rewrite !HS.
  - apply dec_stable in Hk. destruct (decide (has_key key' e)); [unfold has_key in *; congruence|].
    by rewrite HS.
Qed.
Lemma filter_keys_nodup key l : NoDup (pda_key <$> l) -> NoDup (pda_key <$> filter (fun x => ~ has_key key x) l).
Proof.
  intros Hn. eapply sublist_NoDup; [exact Hn|]. apply fmap_sublist, sublist_filter.
Qed.

Lemma set_table_abs t key data :
  let t1 := snd (hash_delete t (mk_pda_entry key data)) in
  let r := hash_insert t1 (mk_pda_entry key data) in
  fst r = mk_pda_entry key data /\
  (list_to_map (entry_pairs (hash_entries (snd r))) : gmap string Z) =
  set_spec key data (list_to_map (entry_pairs (hash_entries t))).
Proof.
  intros t1 r. set (e := mk_pda_entry key data) in *. pose proof (hash_nodup t) as Hn.
  set (l := filter (fun x => ~ has_key key x) (hash_entries t)).
  assert (hash_entries t1 ≡ₚ l) as Hp by apply hash_delete_entries.
  assert (key ∉ pda_key <$> l) as Hk.
  { intros (x & Ex & Hx)%list_elem_of_fmap. apply list_elem_of_filter in Hx as [Hx _]. by apply Hx. }
  destruct (hash_insert_new t1 e) as [E1 E2]; [unfold keys; by rewrite Hp|]. split; [done|].
  fold r in E2. rewrite Hp in E2. apply map_eq. intros k.
  assert (NoDup (pda_key <$> (e :: l))) as Hnd.
  { cbn. apply NoDup_cons. split; [done|]. by apply filter_keys_nodup. }
  rewrite (list_to_map_proper _ (entry_pairs (e :: l))); [|apply entry_pairs_nodup, hash_nodup|by apply entry_pairs_perm].
  rewrite abs_lookup by done. cbn [list_find]. destruct (decide (has_key k e)) as [Hke|Hke].
  - unfold has_key in Hke. cbn in Hke. subst k. cbn. destruct data; cbn; [by rewrite lookup_insert_eq|by rewrite lookup_delete_eq].
  - unfold has_key in Hke. cbn in Hke.
    transitivity (list_find (has_key k) l ≫= (fun p => pda_data (snd p))).
    { by destruct (list_find (has_key k) l) as [[i x]|]. }
    unfold l. rewrite filter_find_ne by done. rewrite <- abs_lookup by done.
    destruct data; cbn; [by rewrite lookup_insert_ne|by rewrite lookup_delete_ne].
Qed.

(** ** The walk *)

Fixpoint drop_null (l : list pda_entry) : list pda_entry :=
  match l with
  | [] => []
  | e :: l' => if bool_decide (pda_data e = None) then drop_null l' else l
  end.

Lemma next_of_app l1 e l2 : NoDup (pda_key <$> (l1 ++ e :: l2)) -> next_of (pda_key e) (l1 ++ e :: l2) = head l2.
Proof.
  induction l1 as [|x l1 IH]; cbn; intros Hn.
  - unfold STREQ. by rewrite bool_decide_eq_true_2.
  - apply NoDup_cons in Hn as [Hx Hn]. unfold STREQ. rewrite bool_decide_eq_false_2; [by apply IH|].
    intros E. apply Hx. rewrite E. apply list_elem_of_fmap. exists e. split; [done|]. set_solver.
Qed.

Lemma skip_null_spec t : forall l2 l1 fuel, hash_entries t = l1 ++ l2 -> length l2 <= fuel ->
  skip_null fuel t (head l2) = head (drop_null l2).
Proof.
  induction l2 as [|e l2 IH]; intros l1 fuel El Hf; [by destruct fuel|]. destruct fuel as [|fuel]; [cbn in Hf; lia|].
  cbn. case_bool_decide; [|done]. rewrite hash_next_entries by (rewrite El; set_solver).
  rewrite El, next_of_app by (rewrite <- El; apply hash_nodup). apply (IH (l1 ++ [e])); [by rewrite <- app_assoc|].
  cbn in Hf. lia.
Qed.

Lemma drop_null_pairs l : entry_pairs (drop_null l) = entry_pairs l /\ length (drop_null l) <= length l /\
  (exists l', l = l' ++ drop_null l) /\
  (drop_null l = [] \/ exists e d l', drop_null l = e :: l' /\ pda_data e = Some d).
Proof.
  induction l as [|e l (E & Hl & (l' & Hs) & Hd)]; cbn; [split_and!; [done|done|by exists []|by left]|].
  case_bool_decide as Hn.
  - unfold entry_pairs in *. cbn. rewrite Hn. cbn. split_and!; [done|lia|exists (e :: l'); by rewrite Hs at 1|done].
  - split_and!; [done|done|by exists []|]. right. destruct (pda_data e) as [d|] eqn:Ed; [|done]. by exists e, d, l.
Qed.

Lemma walk_next_spec t : forall fuel l1 e l2, hash_entries t = l1 ++ e :: l2 -> length l2 < fuel ->
  walk_next fuel (mk_pda (Some t) (Some e)) = entry_pairs l2.
Proof.
  induction fuel as [|fuel IH]; intros l1 e l2 El Hf; [lia|]. cbn [walk_next]. unfold guestfs_next_private. cbn [pda pda_next].
  assert (skip_null (length (hash_entries t)) t (hash_get_next t e) = head (drop_null l2)) as ->.
  { rewrite hash_next_entries by (rewrite El; set_solver).
    replace (next_of (pda_key e) (hash_entries t)) with (head l2).
    - apply (skip_null_spec t l2 (l1 ++ [e])); [by rewrite <- app_assoc|rewrite El, length_app; cbn; lia].
    - rewrite El, next_of_app; [done|rewrite <- El; apply hash_nodup]. }
  destruct (drop_null_pairs l2) as (Ep & Hl & (l' & Hs) & [Hd|(e' & d & l3 & Hd & Hdd)]); rewrite <- Ep, Hd; [done|].
  cbn. rewrite Hdd. unfold entry_pairs. cbn. rewrite ?Hdd. cbn. f_equal.
  apply (IH (l1 ++ e :: l')); [|rewrite Hd in Hl; cbn in Hl; lia]. rewrite El, Hs, Hd. by rewrite <- app_assoc.
Qed.

Lemma walk_spec g : walk g = match pda g with None => [] | Some t => entry_pairs (hash_entries t) end.
Proof.
  unfold walk, guestfs_first_private. destruct g as [[t|] nx]; [|done]. cbn [pda].
  rewrite hash_first_entries, (skip_null_spec t (hash_entries t) []) by done.
  destruct (drop_null_pairs (hash_entries t)) as (Ep & Hl & (l' & Hs) & [Hd|(e & d & l3 & Hd & Hdd)]); rewrite <- Ep, Hd; [done|].
  cbn. rewrite Hdd. f_equal.
  apply (walk_next_spec t _ l'); [rewrite <- Hd; exact Hs|rewrite Hd in Hl; cbn in Hl; lia].
Qed.
End spec.

(** C32: The private data area refines a finite map, over any lawful hash table:
    guestfs_set_private updates it (a NULL pointer removes the key), guestfs_get_private looks a
    key up, and the walk of guestfs_first_private and guestfs_next_private gives every key with
    its data exactly once. *)
Theorem private_data_refines {T} `{HashLaws T} (g : pda_state T) (key : string) (data : option Z) :
  exists g', guestfs_set_private key data g = (Ret tt, g') /\
    abs g' = set_spec key data (abs g) /\
    (forall k, guestfs_get_private k g' = abs g' !! k) /\
    walk g' ≡ₚ map_to_list (abs g').
Proof.
  unfold guestfs_set_private. set (t := match pda g with None => hash_initialize | Some t => t end).
  assert (abs g = list_to_map (entry_pairs (hash_entries t))) as Ea.
  { unfold abs, t. destruct (pda g); [done|]. by rewrite hash_initialize_entries. }
  pose proof (set_table_abs t key data) as [E1 E2].
  destruct (hash_delete t (mk_pda_entry key data)) as [old t1]. cbn [snd] in *.
  destruct (hash_insert t1 (mk_pda_entry key data)) as [entry t2]. cbn [fst snd] in *. subst entry.
  cbn [pda_key pda_data]. unfold STREQ. rewrite !bool_decide_eq_true_2 by done. eexists. split; [reflexivity|].
  pose proof (hash_nodup t2) as Hn. split_and!.
  - by rewrite Ea, <- E2.
  - intros k. unfold guestfs_get_private, abs. cbn [pda]. rewrite abs_lookup by done.
    rewrite hash_lookup_entries. cbn [pda_key]. by destruct (list_find (has_key k) (hash_entries t2)) as [[i x]|].
  - rewrite walk_spec. unfold abs. cbn [pda]. by rewrite map_to_list_to_map by (by apply entry_pairs_nodup).
Qed.

(** A table that is a list. *)
Definition list_table : Type := { l : list pda_entry | NoDup (pda_key <$> l) }.
Lemma list_insert_nodup (l : list pda_entry) e : NoDup (pda_key <$> l) -> pda_key e ∉ pda_key <$> l ->
  NoDup (pda_key <$> (e :: l)).
Proof. intros. cbn. by apply NoDup_cons. Qed.
#[export] Instance list_table_ops : HashOps list_table := {|
  hash_initialize := exist _ [] (NoDup_nil_2 : NoDup (pda_key <$> []));
  hash_delete t e :=
    (list_find (has_key (pda_key e)) (proj1_sig t) ≫= (fun p => Some (snd p)),
     exist _ _ (filter_keys_nodup (pda_key e) _ (proj2_sig t)));
  hash_insert t e :=
    match decide (pda_key e ∈ pda_key <$> proj1_sig t) with
    | left _ => (default e (list_find (has_key (pda_key e)) (proj1_sig t) ≫= (fun p => Some (snd p))), t)
    | right Hn => (e, exist _ _ (list_insert_nodup _ e (proj2_sig t) Hn))
    end;
  hash_lookup t e := list_find (has_key (pda_key e)) (proj1_sig t) ≫= (fun p => Some (snd p));
  hash_get_first t := head (proj1_sig t);
  hash_get_next t e := next_of (pda_key e) (proj1_sig t);
  hash_entries t := proj1_sig t
|}.
#[export] Instance list_table_laws : HashLaws list_table.
Proof.
  split; try done.
  - intros t. apply (proj2_sig t).
  - intros t e Hk. cbn. destruct (decide _); [done|]. done.
Qed.

Lemma private_data_refines_witness : exists g' : pda_state list_table,
  guestfs_set_private "k" (Some 7%Z) (mk_pda None None) = (Ret tt, g') /\
  walk g' ≡ₚ map_to_list ({["k" := 7%Z]} : gmap string Z).
Proof.
  destruct (private_data_refines (mk_pda None None : pda_state list_table) "k" (Some 7%Z)) as (g' & E & Ea & _ & Hw).
  exists g'. split; [done|]. rewrite Hw, Ea. done.
Defined.

End PrivateData.

(** * src/guid.c *)

Module Guid.

Definition str_nth (i : nat) (s : string) : option ascii := String.get i s.

(** The cases of the switch. *)
Definition is_dash (i : nat) : bool := existsb (Nat.eqb i) [8; 13; 18; 23].

#[local] Arguments is_dash : simpl never.

(** The loop over the 36 characters. *)
Fixpoint guid_chars (i : nat) (s : string) : bool :=
  match s with
  | EmptyString => true
  | String c s' =>
      (if is_dash i then Ascii.eqb c "-" else c_isalnum c) && guid_chars (S i) s'
  end.

Definition guestfs___validate_guid (str : string) : bool :=
  let len := String.length str in
  if (len =? 36)%nat then guid_chars 0 str
  else if (len =? 38)%nat then
    if bool_decide (str_nth 0 str = Some "{"%char) && bool_decide (str_nth (len - 1) str = Some "}"%char)
    then guid_chars 0 (String.substring 1 (len - 2) str)
    else false
  else false.

(** Five groups of letters and digits, joined by dashes. *)
Definition guid_groups (s : string) : Prop := exists a b c d e,
  s = a +:+ "-" +:+ b +:+ "-" +:+ c +:+ "-" +:+ d +:+ "-" +:+ e /\
  (String.length a, String.length b, String.length c, String.length d, String.length e) = (8, 4, 4, 4, 12) /\
  str_forallb c_isalnum (a +:+ b +:+ c +:+ d +:+ e) = true.


(** A run of [n] letters or digits at a place with no dash. *)
Lemma guid_chars_run : forall n i a s, String.length a = n ->
  (forall k, i <= k < i + n -> is_dash k = false) ->
  guid_chars i (a +:+ s) = str_forallb c_isalnum a && guid_chars (i + n) s.
Proof.
  induction n as [|n IH]; intros i a s Hl Hk.
  - destruct a; [|done]. cbn [String.append str_forallb andb]. by rewrite Nat.add_0_r.
  - destruct a as [|c a]; [done|]. injection Hl as Hl. rewrite str_app_cons. cbn [guid_chars str_forallb].
    rewrite (Hk i) by lia. rewrite (IH (S i)) by (done || (intros; apply Hk; lia)).
    rewrite andb_assoc. do 2 f_equal. lia.
Qed.
Lemma guid_chars_dash i s : is_dash i = true ->
  guid_chars i ("-" +:+ s) = guid_chars (S i) s.
Proof. intros H. change ("-" +:+ s) with (String "-" s). cbn [guid_chars]. by rewrite H. Qed.

Lemma guid_no_dash i n : (n, i) ∈ [(8, 0); (4, 9); (4, 14); (4, 19); (12, 24)] ->
  forall k, i <= k < i + n -> is_dash k = false.
Proof.
  intros H k Hk. apply not_true_is_false. unfold is_dash. rewrite existsb_exists. intros (x & Hx & E%Nat.eqb_eq). subst x.
  repeat (apply elem_of_cons in H as [[= -> ->]|H]; [cbn in Hx; lia|]). by apply not_elem_of_nil in H.
Qed.

Lemma str_split n s : n <= String.length s -> exists a b, s = a +:+ b /\ String.length a = n.
Proof.
  revert s. induction n as [|n IH]; intros s Hs; [by exists "", s|]. destruct s as [|c s]; cbn in Hs; [lia|].
  destruct (IH s ltac:(lia)) as (a & b & -> & <-). by exists (String c a), b.
Qed.
Lemma str_length_0 s : String.length s = 0 -> s = "".
Proof. by destruct s. Qed.

(** The dash is read before the group that follows it. *)
Lemma guid_dash_inv i s n : is_dash i = true -> n < String.length s ->
  guid_chars i s = true -> exists a t, s = "-" +:+ a +:+ t /\ String.length a = n /\ guid_chars (S i) (a +:+ t) = true.
Proof.
  intros Hi Hl H. destruct s as [|c s]; cbn in Hl; [lia|]. cbn [guid_chars] in H. rewrite Hi in H.
  apply andb_prop in H as [Hc H]. apply Ascii.eqb_eq in Hc as ->.
  destruct (str_split n s ltac:(lia)) as (a & t & -> & Ha). by exists a, t.
Qed.

Lemma guid_chars_groups s : String.length s = 36 -> guid_chars 0 s = true <-> guid_groups s.
Proof.
  intros Hl. split.
  - intros H. destruct (str_split 8 s ltac:(lia)) as (a & s1 & -> & Ha).
    rewrite (guid_chars_run 8) in H by (done || (apply guid_no_dash; set_solver)). apply andb_prop in H as [Fa H].
    rewrite str_length_app in Hl.
    destruct (guid_dash_inv 8 s1 4 eq_refl ltac:(lia) H) as (b & s2 & -> & Hb & H2).
    rewrite (guid_chars_run 4) in H2 by (done || (apply guid_no_dash; set_solver)). apply andb_prop in H2 as [Fb H2].
    rewrite !str_length_app in Hl. cbn [String.length] in Hl.
    destruct (guid_dash_inv 13 s2 4 eq_refl ltac:(lia) H2) as (c & s3 & -> & Hc & H3).
    rewrite (guid_chars_run 4) in H3 by (done || (apply guid_no_dash; set_solver)). apply andb_prop in H3 as [Fc H3].
    rewrite !str_length_app in Hl. cbn [String.length] in Hl.
    destruct (guid_dash_inv 18 s3 4 eq_refl ltac:(lia) H3) as (d & s4 & -> & Hd & H4).
    rewrite (guid_chars_run 4) in H4 by (done || (apply guid_no_dash; set_solver)). apply andb_prop in H4 as [Fd H4].
    rewrite !str_length_app in Hl. cbn [String.length] in Hl.
    destruct (guid_dash_inv 23 s4 12 eq_refl ltac:(lia) H4) as (e & s5 & -> & He & H5).
    rewrite (guid_chars_run 12) in H5 by (done || (apply guid_no_dash; set_solver)). apply andb_prop in H5 as [Fe H5].
    rewrite !str_length_app in Hl. cbn [String.length] in Hl.
    assert (s5 = "") as -> by (apply str_length_0; lia). exists a, b, c, d, e.
    rewrite str_app_nil_r, !str_forallb_app, Fa, Fb, Fc, Fd, Fe. by rewrite Ha, Hb, Hc, Hd, He.
  - intros (a & b & c & d & e & -> & E & Hf). injection E as Ha Hb Hc Hd He.
    rewrite !str_forallb_app in Hf. repeat (apply andb_prop in Hf as [? Hf]).
    rewrite (guid_chars_run 8), (guid_chars_dash 8), (guid_chars_run 4), (guid_chars_dash 13), (guid_chars_run 4),
      (guid_chars_dash 18), (guid_chars_run 4), (guid_chars_dash 23), <- (str_app_nil_r e), (guid_chars_run 12)
      by (done || (apply guid_no_dash; set_solver)).
    by repeat (apply andb_true_intro; split).
Qed.

Lemma str_last n s : String.length s = S n -> exists t c, s = t +:+ String c "" /\ String.length t = n.
Proof.
  intros H. destruct (str_split n s ltac:(lia)) as (t & u & -> & Ht). rewrite str_length_app in H.
  destruct u as [|c u]; cbn in H; [lia|]. assert (u = "") as -> by (apply str_length_0; lia). by exists t, c.
Qed.
Lemma str_app_inj a : forall a' b b', String.length a = String.length a' -> a +:+ b = a' +:+ b' -> a = a' /\ b = b'.
Proof.
  induction a as [|c a IH]; intros [|c' a'] b b' Hl E; [done..|]. injection Hl as Hl. injection E as -> E.
  destruct (IH a' b b' Hl E) as [-> ->]. done.
Qed.
Lemma guid_groups_length s : guid_groups s -> String.length s = 36.
Proof. intros (a & b & c & d & e & -> & [= Ha Hb Hc Hd He] & _). rewrite !str_length_app. cbn. lia. Qed.

(** guestfs___validate_guid accepts exactly five groups of 8, 4, 4, 4 and 12 letters or digits
    joined by dashes, alone or in braces. *)
Theorem validate_guid_correct (str : string) :
  guestfs___validate_guid str = true <->
  guid_groups str \/ exists s, str = "{" +:+ s +:+ "}" /\ guid_groups s.
Proof.
  unfold guestfs___validate_guid. destruct (Nat.eqb_spec (String.length str) 36) as [E|Hne].
  { rewrite guid_chars_groups by done. split; [by left|]. intros [?|(s & -> & Hs)]; [done|].
    apply guid_groups_length in Hs. rewrite !str_length_app in E. cbn in E. lia. }
  destruct (Nat.eqb_spec (String.length str) 38) as [E|Hne']; cycle 1.
  { split; [done|]. intros [Hs|(s & -> & Hs)]; apply guid_groups_length in Hs; [lia|].
    rewrite !str_length_app in *. cbn in *. lia. }
  destruct str as [|c str]; [done|]. injection E as E. destruct (str_last 36 str E) as (s & d & -> & Hs).
  cbn [String.length]. rewrite E. change (S 37 - 1) with 37. change (S 37 - 2) with 36.
  assert (str_nth 37 (String c (s +:+ String d "")) = Some d) as ->.
  { unfold str_nth. cbn [String.get]. rewrite <- Hs. apply str_get_last. }
  assert (String.substring 1 36 (String c (s +:+ String d "")) = s) as ->.
  { change (String.substring 0 36 (s +:+ String d "") = s). rewrite <- Hs. apply str_substring_all. }
  unfold str_nth. cbn [String.get]. split.
  - destruct (bool_decide (Some c = Some "{"%char)) eqn:E1; [|done]. destruct (bool_decide (Some d = Some "}"%char)) eqn:E2; [|done].
    apply bool_decide_eq_true in E1 as [= ->]. apply bool_decide_eq_true in E2 as [= ->].
    cbn [andb]. rewrite guid_chars_groups by done. right. by exists s.
  - intros [Hg|(s' & Es & Hg)]; [apply guid_groups_length in Hg; cbn in Hg; rewrite str_length_app in Hg; cbn in Hg; lia|].
    pose proof (guid_groups_length _ Hg) as Hl. injection Es as -> Es.
    assert (s = s' /\ String d "" = "}") as [-> [= ->]].
    { change ("" +:+ s' +:+ "}") with (s' +:+ "}") in Es. apply str_app_inj in Es as [-> [= ->]]; [done|congruence]. }
    rewrite !bool_decide_eq_true_2 by done. cbn [andb]. by apply guid_chars_groups.
Qed.
End Guid.

(** * src/canonical-name.c *)

Module CanonicalName.

(** The result; [PastEnd] is a read behind the terminating NUL of [device]. *)
Inductive canonical := Canonical (s : string) | PastEnd.

Definition has_slash (s : string) : bool := negb (str_forallb (fun c => negb (Ascii.eqb c "/")) s).

(** The text at [&s[n]], when that is not behind the NUL. *)
Fixpoint str_at (n : nat) (s : string) : option string :=
  match n, s with
  | O, _ => Some s
  | S n', String _ s' => str_at n' s'
  | S _, EmptyString => None
  end.

(** [guestfs_lvm_canonical_lv_name] is a call of the daemon. *)
Definition guestfs__canonical_device_name (lvm_canonical_lv_name : string -> option string) (device : string) :
    canonical :=
  let len := String.length (fst (strcspn "d" (str_drop 5 device))) in
  if STRPREFIX device "/dev/" && negb (has_slash (str_drop 5 device)) && ((0 <? len) && (len <=? 2))%nat then
    match str_at (5 + len + 1) device with
    | Some rest => Canonical ("/dev/sd" +:+ rest)
    | None => PastEnd
    end
  else if STRPREFIX device "/dev/mapper/" || STRPREFIX device "/dev/dm-" then
    Canonical (default device (lvm_canonical_lv_name device))
  else Canonical device.

Lemma str_at_app a b : str_at (String.length a) (a +:+ b) = Some b.
Proof. by induction a. Qed.
Lemma str_at_end a : str_at (String.length a + 1) a = None.
Proof. by induction a. Qed.

Lemma canonical_dev lv name :
  let device := "/dev/" +:+ name in
  has_slash name = false ->
  let '(kind, rest) := strcspn "d" name in
  0 < String.length kind <= 2 ->
  guestfs__canonical_device_name lv device =
  match rest with String _ rest' => Canonical ("/dev/sd" +:+ rest') | EmptyString => PastEnd end.
Proof.
  intros device Hs. destruct (strcspn "d" name) as [kind rest] eqn:E. intros Hk.
  unfold guestfs__canonical_device_name, device. change (str_drop 5 ("/dev/" +:+ name)) with (str_drop 0 name).
  assert (str_drop 0 name = name) as -> by (by destruct name). rewrite E, Hs. cbn [fst negb].
  change (STRPREFIX ("/dev/" +:+ name) "/dev/") with true || idtac.
  assert (STRPREFIX ("/dev/" +:+ name) "/dev/" = true) as -> by (by destruct name).
  destruct (Nat.ltb_spec 0 (String.length kind)); [|lia]. destruct (Nat.leb_spec (String.length kind) 2); [|lia]. cbn [andb].
  change (str_at (5 + String.length kind + 1) ("/dev/" +:+ name)) with (str_at (String.length kind + 1) name).
  apply strcspn_spec in E as (-> & _ & [->|[rest' ->]]).
  - by rewrite str_app_nil_r, str_at_end.
  - replace (kind +:+ String "d" rest') with ((kind +:+ "d") +:+ rest') by by rewrite str_app_assoc.
    replace (String.length kind + 1) with (String.length (kind +:+ "d")) by (by rewrite str_length_app).
    by rewrite str_at_app.
Qed.

(** A device named sd, hd, vd or ubd gets its sd name, and the names of partitions with it; a
    name of one or two letters that has no d makes the function read behind the end of the string. *)
Theorem canonical_device_name_correct (lv : string -> option string) (kind rest : string) :
  no_sep "d" kind -> 0 < String.length kind <= 2 -> has_slash (kind +:+ rest) = false ->
  guestfs__canonical_device_name lv ("/dev/" +:+ kind +:+ "d" +:+ rest) = Canonical ("/dev/sd" +:+ rest) /\
  guestfs__canonical_device_name lv ("/dev/" +:+ kind) = PastEnd.
Proof.
  intros Hd Hl Hs. destruct (strcspn_no_sep "d" kind rest Hd) as [E1 E2]. unfold has_slash in Hs.
  apply negb_false_iff in Hs. rewrite str_forallb_app in Hs. apply andb_prop in Hs as [Hk Hr]. split.
  - pose proof (canonical_dev lv (kind +:+ String "d" rest)) as H. cbv zeta in H. rewrite E1 in H. apply H; [|done].
    unfold has_slash. rewrite str_forallb_app. cbn [str_forallb]. by rewrite Hk, Hr.
  - pose proof (canonical_dev lv kind) as H. cbv zeta in H. rewrite E2 in H. apply H; [|done].
    unfold has_slash. by rewrite Hk.
Qed.

Lemma canonical_device_name_correct_witness :
  guestfs__canonical_device_name (fun _ => None) "/dev/vda1" = Canonical "/dev/sda1" /\
  guestfs__canonical_device_name (fun _ => None) "/dev/v" = PastEnd.
Proof. apply (canonical_device_name_correct (fun _ => None) "v" "a1"); [done|cbn; lia|done]. Defined.

End CanonicalName.
