(* ===== verification/FishParse.v ===== *)
(** guestfish, the parsers of fish/fish.c and fish/tilde.c: command lines with
    their quoting, escapes, pipes and tilde expansion, lists of strings,
    booleans and prompts. *)

From S2P Require Import Prelude Xdr Handle Utils Guestfsd.
From Stdlib Require Import Ascii.

(** * Characters *)

Definition quote_char : ascii := "'".
Definition dquote_char : ascii := "034".
Definition c_isxdigit (c : ascii) : bool := c_isdigit c || in_range c 65 70 || in_range c 97 102.
Definition is_octal (c : ascii) : bool := in_range c 48 55.


(** * fish/tilde.c *)

Module Tilde.

Record passwd := mk_passwd { pw_name : string; pw_uid : Z; pw_dir : string }.

(** The environment of the process and the password file. *)
Record users := mk_users { u_home : option string; u_euid : Z; u_passwd : list passwd }.

Definition find_home_for_username (u : users) (username : string) : option string :=
  pw_dir <$> List.find (fun pw => STREQ (pw_name pw) username) (u_passwd u).
Definition find_home_for_current_user (u : users) : option string :=
  pw_dir <$> List.find (fun pw => (pw_uid pw =? u_euid u)%Z) (u_passwd u).
Definition expand_home (u : users) (orig : string) (append : string) : string :=
  match u_home u with
  | Some home => home +:+ append
  | None => match find_home_for_current_user u with
            | Some home => home +:+ append
            | None => orig
            end
  end.
(** [str] begins with a tilde. *)
Definition try_tilde_expansion (u : users) (str : string) : outcome string :=
  match str with
  | String "~" rest =>
      match rest with
      | EmptyString => Ret (expand_home u str "")
      | String "/" _ => Ret (expand_home u str rest)
      | _ =>
          let '(name, rest) := strcspn "/" rest in
          match find_home_for_username u name with
          | Some home => Ret (home +:+ rest)
          | None => Ret str
          end
      end
  | _ => Stop AssertFailed
  end.
End Tilde.
Import Tilde.

(** * parse_quoted_string *)

Definition hexdigit (d : ascii) : Z :=
  if c_isdigit d then code d - 48
  else if in_range d 97 102 then code d - 97 + 10
  else if in_range d 65 70 then code d - 65 + 10
  else -1.

(** The escapes of one character. *)
Definition simple_escape (c : ascii) : option ascii :=
  match c with
  | "\" => Some "\" | "a" => Some "007" | "b" => Some "008" | "f" => Some "012"
  | "n" => Some "010" | "r" => Some "013" | "t" => Some "009" | "v" => Some "011"
  | "034" => Some "034" | "'" => Some "'" | "?" => Some "?"
  | _ => None
  end%char.

Definition char_of_code (c : Z) : option ascii :=
  if ((c <? 1) || (255 <? c))%Z then None else Some (chr c).

Definition str_cons (c : ascii) (r : option (string * string)) : option (string * string) :=
  match r with Some (w, rest) => Some (String c w, rest) | None => None end.

(** From the character after the opening quote: the string with its escapes
    replaced, and what follows the closing quote.  [None] is -1. *)
Fixpoint parse_quoted_string (p : string) : option (string * string) :=
  match p with
  | EmptyString => None
  | String c p1 =>
      if Ascii.eqb c dquote_char then Some ("", p1)
      else if Ascii.eqb c "\" then
        match p1 with
        | EmptyString => None
        | String e p2 =>
            match simple_escape e with
            | Some r => str_cons r (parse_quoted_string p2)
            | None =>
                match p2 with
                | String d2 (String d3 p4) =>
                    if is_octal e then
                      if is_octal d2 && is_octal d3 then
                        match char_of_code ((code e - 48) * 64 + (code d2 - 48) * 8 + (code d3 - 48)) with
                        | Some r => str_cons r (parse_quoted_string p4)
                        | None => None
                        end
                      else None
                    else if Ascii.eqb e "x" then
                      if c_isxdigit d2 && c_isxdigit d3 then
                        match char_of_code (hexdigit d2 * 16 + hexdigit d3) with
                        | Some r => str_cons r (parse_quoted_string p4)
                        | None => None
                        end
                      else None
                    else None
                | _ => None
                end
            end
        end
      else str_cons c (parse_quoted_string p1)
  end.

(** * parse_command_line *)

Record parsed_command := mk_parsed {
  pc_status : Z;
  pc_pipe : option string;
  pc_cmd : string;
  pc_argv : list string
}.

Definition argv_len : nat := 64.

(** One parameter: an error, a pipe, or the argument, whether it is a candidate
    for tilde expansion and where parsing goes on. *)
Inductive param :=
  | ParamError
  | ParamPipe (pipe : string)
  | ParamArg (arg : string) (tilde_candidate : bool) (pend : string)
  | ParamAbort.

(** [pend] after a closing quote: [rest] starts with the character after it. *)
Definition after_quote (arg rest : string) : param :=
  match rest with
  | EmptyString => ParamArg arg false ""
  | String c rest' => if c_isblank c then ParamArg arg false rest' else ParamError
  end.

Definition parse_param (p : string) : param :=
  match p with
  | EmptyString => ParamAbort
  | String c p1 =>
      if Ascii.eqb c dquote_char then
        match parse_quoted_string p1 with
        | None => ParamError
        | Some (arg, rest) => after_quote arg rest
        end
      else if Ascii.eqb c quote_char then
        match strcspn quote_char p1 with
        | (_, EmptyString) => ParamError
        | (arg, String _ rest) => after_quote arg rest
        end
      else if Ascii.eqb c "|" then ParamPipe p1
      else if negb (c_isblank c) then
        match span_not c_isblank p with
        | (arg, EmptyString) => ParamArg arg (Ascii.eqb c "~") ""
        | (arg, String _ pend) => ParamArg arg (Ascii.eqb c "~") pend
        end
      else ParamAbort
  end.

Section parse.
Context (users : users) (system : string -> Z) (execute_and_inline : string -> bool -> Z).

(** The loop over the parameters; [i] have been stored.  [Ret None] is -1. *)
Fixpoint parse_params (fuel : nat) (p : string) (i : nat) : outcome (option (list string * option string)) :=
  match p, fuel with
  | EmptyString, _ => if (i =? argv_len)%nat then Ret None else Ret (Some ([], None))
  | _, O => Stop OutOfFuel
  | _, S fuel' =>
      if (i <? argv_len)%nat then
        match parse_param p with
        | ParamError => Ret None
        | ParamAbort => Stop AssertFailed
        | ParamPipe pipe => Ret (Some ([], Some pipe))
        | ParamArg arg tilde_candidate pend =>
            match (if tilde_candidate then try_tilde_expansion users arg else Ret arg) with
            | Stop why => Stop why
            | Ret arg =>
                match parse_params fuel' (skip_blanks pend) (S i) with
                | Ret (Some (args, pipe)) => Ret (Some (arg :: args, pipe))
                | r => r
                end
            end
        end
      else Ret None
  end.

Definition status_only (status : Z) : parsed_command := mk_parsed status None "" [].

(** The result and the local exit_on_error flag.  [fuel] bounds the leading
    dashes. *)
Fixpoint parse_line (fuel : nat) (buf : string) (exit_on_error : bool) : outcome (parsed_command * bool) :=
  let buf := skip_spaces buf in
  match buf with
  | EmptyString => Ret (status_only 0, exit_on_error)
  | String c buf1 =>
      if Ascii.eqb c "#" then Ret (status_only 0, exit_on_error)
      else if Ascii.eqb c "!" then
        let r := system buf1 in
        if (r =? -1)%Z || (WIFSIGNALED r && ((WTERMSIG r =? 2)%Z || (WTERMSIG r =? 3)%Z)) ||
           negb (WEXITSTATUS r =? 0)%Z
        then Ret (status_only (-1), exit_on_error)
        else Ret (status_only 0, exit_on_error)
      else if Ascii.eqb c "<" && STRPREFIX buf1 "!" then
        let r := execute_and_inline (str_drop 1 buf1) exit_on_error in
        Ret (status_only (if (r =? -1)%Z then -1 else 0), exit_on_error)
      else if Ascii.eqb c "-" then
        match fuel with
        | O => Stop OutOfFuel
        | S fuel' => parse_line fuel' buf1 false
        end
      else
        match span_not c_isblank buf with
        | (cmd, EmptyString) => Ret (mk_parsed 1 None cmd [], exit_on_error)
        | (cmd, String _ p) =>
            let p := skip_blanks p in
            match parse_params (String.length p) p 0 with
            | Stop why => Stop why
            | Ret None => Ret (mk_parsed (-1) None cmd [], exit_on_error)
            | Ret (Some (argv, pipe)) => Ret (mk_parsed 1 pipe cmd argv, exit_on_error)
            end
        end
  end.

Definition parse_command_line (buf : string) (exit_on_error : bool) : outcome (parsed_command * bool) :=
  parse_line (String.length buf) buf exit_on_error.
End parse.

(** * is_true *)

(** -1 is an error. *)
Definition is_true (str : string) : Z :=
  if STREQ str "1" || existsb (STRCASEEQ str) ["true"; "t"; "yes"; "y"; "on"] then 1
  else if STREQ str "0" || existsb (STRCASEEQ str) ["false"; "f"; "no"; "n"; "off"] then 0
  else -1.

(** * parse_string_list *)

(** A fragment: the text it adds to the token, and where [p] goes on.  It ends
    at a quote, or outside quotes at whitespace; a quote that follows a
    backslash is added instead of it. *)
Definition fragment (in_quote : bool) (p : string) : string * string :=
  let '(frag, rest) :=
    if in_quote then strcspn quote_char p
    else span_not (fun c => c_isblank c || Ascii.eqb c quote_char) p in
  let n := String.length frag in
  match rest with
  | String c rest' =>
      if Ascii.eqb c quote_char && negb (n =? 0)%nat && bool_decide (String.get (n - 1) frag = Some "\"%char)
      then (String.substring 0 (n - 1) frag +:+ String quote_char "", rest')
      else (frag, rest)
  | EmptyString => (frag, rest)
  end.

(** The loop over the fragments of a token.  [tok] is [None] until a fragment
    was seen; [Ret None] is a runaway quote. *)
Fixpoint token_loop (fuel : nat) (p : string) (in_quote : bool) (tok : option string) :
    outcome (option (option string * string)) :=
  let stop := match p with
              | EmptyString => true
              | String c _ => c_isblank c && negb in_quote
              end in
  if stop then Ret (if in_quote then None else Some (tok, p))
  else match fuel with
       | O => Stop OutOfFuel
       | S fuel' =>
           let '(in_quote, p) :=
             match p with
             | String c p' => if Ascii.eqb c quote_char then (negb in_quote, p') else (in_quote, p)
             | EmptyString => (in_quote, p)
             end in
           let '(text, p) := fragment in_quote p in
           token_loop fuel' p in_quote (Some (default "" tok +:+ text))
       end.

Fixpoint string_list_loop (fuel : nat) (p : string) : outcome (option (list string)) :=
  match p, fuel with
  | EmptyString, _ => Ret (Some [])
  | _, O => Stop OutOfFuel
  | _, S fuel' =>
      let p := skip_blanks p in
      match token_loop (String.length p) p false None with
      | Stop why => Stop why
      | Ret None => Ret None
      | Ret (Some (tok, p)) =>
          match string_list_loop fuel' p with
          | Ret (Some l) => Ret (Some (match tok with Some t => t :: l | None => l end))
          | r => r
          end
      end
  end.
(** [Ret None] is NULL, an error. *)
Definition parse_string_list (str : string) : outcome (option (list string)) :=
  string_list_loop (String.length str) str.

(** * decode_ps1 *)

Definition RL_PROMPT_START_IGNORE : ascii := "001".
Definition RL_PROMPT_END_IGNORE : ascii := "002".

(** The value of at most [lim] digits, and the rest. *)
Fixpoint decode_ps1_octal (lim : nat) (s : string) (ret : Z) : Z * string :=
  match lim, s with
  | S lim', String c s' => if is_octal c then decode_ps1_octal lim' s' (ret * 8 + (code c - 48))%Z else (ret, s)
  | _, _ => (ret, s)
  end.
Fixpoint hex_digits (lim : nat) (s : string) (ret : Z) : Z * string :=
  match lim, s with
  | S lim', String c s' => if c_isxdigit c then hex_digits lim' s' (ret * 16 + hexdigit c)%Z else (ret, s)
  | _, _ => (ret, s)
  end.
Definition decode_ps1_hex (s : string) : Z * string :=
  match s with
  | String c _ => if c_isxdigit c then hex_digits 2 s 0 else (63%Z, s)
  | EmptyString => (63%Z, s)
  end.

(** A backslash at the end stands for itself. *)
Fixpoint decode_loop (fuel : nat) (s : string) : string :=
  match fuel, s with
  | S fuel', String c s1 =>
      if Ascii.eqb c "\" then
        match s1 with
        | EmptyString => String "\" ""
        | String e s2 =>
            if is_octal e then
              let '(v, rest) := decode_ps1_octal 3 s1 0 in String (chr v) (decode_loop fuel' rest)
            else if Ascii.eqb e "x" then
              let '(v, rest) := decode_ps1_hex s2 in String (chr v) (decode_loop fuel' rest)
            else
              String (match e with
                      | "\" => "\" | "[" => RL_PROMPT_START_IGNORE | "]" => RL_PROMPT_END_IGNORE
                      | "a" => "007" | "e" => "027" | "n" => "010" | "r" => "013"
                      | _ => "?"
                      end%char) (decode_loop fuel' s2)
        end
      else String c (decode_loop fuel' s1)
  | _, _ => ""
  end.
Definition decode_ps1 (str : string) : string := decode_loop (String.length str) str.

(** * Lemmas *)

#[local] Arguments String.append : simpl nomatch.

(** ** Double quotes *)

Fixpoint fish_escape (s : string) : string :=
  match s with
  | EmptyString => ""
  | String c s' =>
      if Ascii.eqb c dquote_char || Ascii.eqb c "\" then String "\" (String c (fish_escape s'))
      else String c (fish_escape s')
  end.
Definition fish_quote (s : string) : string := String dquote_char (fish_escape s +:+ String dquote_char "").

Lemma parse_quoted_escape s rest :
  parse_quoted_string (fish_escape s +:+ String dquote_char rest) = Some (s, rest).
Proof.
  induction s as [|c s IH]; [done|]. cbn [fish_escape].
  destruct (Ascii.eqb_spec c dquote_char) as [->|H1]; [cbn [orb]; rewrite !str_app_cons; cbn; by rewrite IH|].
  destruct (Ascii.eqb_spec c "\") as [->|H2]; cbn [orb].
  - rewrite !str_app_cons. cbn. by rewrite IH.
  - rewrite str_app_cons. cbn [parse_quoted_string]. destruct (Ascii.eqb_spec c dquote_char); [done|].
    destruct (Ascii.eqb_spec c "\"); [done|]. by rewrite IH.
Qed.

(** A parsed string is followed by less text. *)
Lemma parse_quoted_length : forall n p a rest, String.length p <= n -> parse_quoted_string p = Some (a, rest) ->
  String.length rest < String.length p.
Proof.
  assert (forall c o a rest, str_cons c o = Some (a, rest) -> exists a', o = Some (a', rest)) as Hc.
  { intros c [[w r]|] a rest; [intros [= <- <-]; eauto|done]. }
  induction n as [|n IH]; intros p a rest Hl H; destruct p as [|c p1]; cbn in *; [done|lia|done|].
  destruct (Ascii.eqb c dquote_char); [injection H as _ <-; lia|].
  destruct (Ascii.eqb c "\"); [|apply Hc in H as [a' H]; apply IH in H; lia].
  destruct p1 as [|e p2]; [done|]. cbn in *.
  destruct (simple_escape e); [apply Hc in H as [a' H]; apply IH in H; lia|].
  destruct p2 as [|d2 [|d3 p4]]; [done|done|]. cbn in *.
  destruct (is_octal e).
  - destruct (is_octal d2 && is_octal d3); [|done]. destruct (char_of_code _); [|done].
    apply Hc in H as [a' H]. apply IH in H; lia.
  - destruct (Ascii.eqb e "x"); [|done]. destruct (c_isxdigit d2 && c_isxdigit d3); [|done].
    destruct (char_of_code _); [|done]. apply Hc in H as [a' H]. apply IH in H; lia.
Qed.

(** ** Parameters *)

Lemma after_quote_shape arg rest p : String.length rest < String.length p ->
  after_quote arg rest = ParamError \/
  exists pend, after_quote arg rest = ParamArg arg false pend /\ String.length pend < String.length p.
Proof.
  intros H. destruct rest as [|c rest]; cbn in *; [right; exists ""; cbn; split; [done|lia]|].
  destruct (c_isblank c); [|by left]. right. exists rest. split; [done|lia].
Qed.

(** Never the internal error, and an argument leaves less to parse. *)
Lemma parse_param_shape c p1 : c_isblank c = false ->
  match parse_param (String c p1) with
  | ParamError | ParamPipe _ => True
  | ParamArg arg tilde pend => String.length pend < S (String.length p1) /\
                               (tilde = true -> exists a', arg = String "~" a')
  | ParamAbort => False
  end.
Proof.
  intros Hb. cbn [parse_param]. destruct (Ascii.eqb c dquote_char).
  { destruct (parse_quoted_string p1) as [[arg rest]|] eqn:E; [|done].
    apply (parse_quoted_length (String.length p1)) in E; [|done].
    destruct (after_quote_shape arg rest p1 E) as [->|(pend & -> & Hl)]; [done|]. split; [lia|done]. }
  destruct (Ascii.eqb c quote_char).
  { destruct (strcspn quote_char p1) as [arg [|q rest]] eqn:E; [done|]. apply strcspn_spec in E as (-> & _ & _).
    destruct (after_quote_shape arg rest (arg +:+ String q rest)) as [->|(pend & -> & Hl)];
      [rewrite str_length_app; cbn; lia|done|]. split; [lia|done]. }
  destruct (Ascii.eqb c "|"); [done|]. rewrite Hb. cbn [negb].
  destruct (span_not c_isblank (String c p1)) as [arg rest] eqn:E.
  assert (Ascii.eqb c "~" = true -> exists a', arg = String "~" a') as Ht.
  { intros Hc. apply Ascii.eqb_eq in Hc as ->. cbn in E. destruct (span_not c_isblank p1). injection E as <- _. eauto. }
  apply span_not_spec in E as (E & _ & _). destruct rest as [|d pend]; split; try done; cbn; [lia|].
  apply (f_equal String.length) in E. rewrite str_length_app in E. cbn in E.
  destruct arg as [|a arg]; cbn in *; [|lia]. lia.
Qed.

Lemma tilde_total u a : exists r, try_tilde_expansion u (String "~" a) = Ret r.
Proof. cbn [try_tilde_expansion]. repeat case_match; eauto. Qed.

Section parse_lemmas.
Context (users : users) (system : string -> Z) (execute_and_inline : string -> bool -> Z).

Definition at_param (p : string) : Prop := p = "" \/ exists c p', p = String c p' /\ c_isblank c = false.

Lemma parse_params_total : forall fuel p i, String.length p <= fuel -> at_param p ->
  exists o, parse_params users fuel p i = Ret o.
Proof.
  induction fuel as [|fuel IH]; intros p i Hl Hp.
  - destruct p; [|cbn in Hl; lia]. cbn. case_if; eauto.
  - destruct p as [|c p1]; [cbn; case_if; eauto|]. cbn [parse_params].
    destruct (i <? argv_len)%nat; [|eauto]. destruct Hp as [|(c' & p' & [= <- <-] & Hb)]; [done|].
    pose proof (parse_param_shape c p1 Hb) as Hs. destruct (parse_param (String c p1)) as [|pipe|arg tilde pend|]; eauto; [|done].
    destruct Hs as [Hpend Ht].
    assert (exists arg', (if tilde then try_tilde_expansion users arg else Ret arg) = Ret arg') as [arg' ->].
    { destruct tilde; [|eauto]. destruct (Ht eq_refl) as [a' ->]. apply tilde_total. }
    destruct (IH (skip_blanks pend) (S i)) as [o Ho].
    { pose proof (skip_blanks_length pend). cbn in Hl. lia. }
    { destruct (skip_blanks_head pend) as [E|(d & s & E & Hd)]; [by left|right; eauto]. }
    rewrite Ho. destruct o as [[args pipe]|]; eauto.
Qed.

Lemma skip_spaces_length s : String.length (skip_spaces s) <= String.length s.
Proof. induction s as [|c s IH]; [done|]. cbn. destruct (c_isspace c); cbn; lia. Qed.

Lemma parse_line_total : forall fuel buf e, String.length buf <= fuel ->
  exists r, parse_line users system execute_and_inline fuel buf e = Ret r.
Proof.
  assert (forall p, exists o, parse_params users (String.length (skip_blanks p)) (skip_blanks p) 0 = Ret o) as Hp.
  { intros p. apply parse_params_total; [done|].
    destruct (skip_blanks_head p) as [E|(d & s & E & Hd)]; [by left|right; eauto]. }
  induction fuel as [|fuel IH]; intros buf e Hl; pose proof (skip_spaces_length buf) as Hs; cbn [parse_line];
    destruct (skip_spaces buf) as [|c buf1]; [eauto|cbn in Hs; lia|eauto|].
  destruct (Ascii.eqb c "#"); [eauto|]. destruct (Ascii.eqb c "!"); [case_if; eauto|].
  destruct (Ascii.eqb c "<" && STRPREFIX buf1 "!"); [eauto|].
  destruct (Ascii.eqb c "-"); [apply IH; cbn in Hs; lia|].
  destruct (span_not c_isblank (String c buf1)) as [cmd [|d p]]; [eauto|].
  destruct (Hp p) as [o ->]. destruct o as [[argv pipe]|]; eauto.
Qed.

(** ** Printing a command line *)

Fixpoint quote_args (args : list string) : string :=
  match args with
  | [] => ""
  | [a] => fish_quote a
  | a :: args' => fish_quote a +:+ String " " (quote_args args')
  end.

Lemma parse_param_quote a rest : rest = "" \/ (exists r, rest = String " " r) ->
  parse_param (fish_quote a +:+ rest) =
  ParamArg a false (match rest with EmptyString => "" | String _ r => r end).
Proof.
  intros Hr. unfold fish_quote. rewrite !str_app_cons, str_app_assoc, str_app_cons.
  cbn [parse_param]. change (Ascii.eqb dquote_char dquote_char) with true. cbn iota.
  change ("" +:+ rest) with rest. rewrite parse_quoted_escape. by destruct Hr as [->|[r ->]].
Qed.

Lemma quote_args_at_param args : skip_blanks (quote_args args) = quote_args args.
Proof. destruct args as [|a [|b args]]; done. Qed.

Lemma parse_params_quoted : forall args fuel i, i <= argv_len -> String.length (quote_args args) <= fuel ->
  parse_params users fuel (quote_args args) i = Ret (if i + length args <? argv_len then Some (args, None) else None).
Proof.
  induction args as [|a args IH]; intros fuel i Hi Hf.
  - cbn [length]. rewrite Nat.add_0_r. destruct fuel; cbn [quote_args parse_params];
      (destruct (Nat.eqb_spec i argv_len), (Nat.ltb_spec i argv_len); try lia; done).
  - cbn [length]. set (rest := match args with [] => "" | _ => String " " (quote_args args) end).
    assert (quote_args (a :: args) = fish_quote a +:+ rest) as E.
    { unfold rest. cbn [quote_args]. destruct args; [by rewrite str_app_nil_r|done]. }
    rewrite E in *. assert (String.length (quote_args args) <= String.length rest) as Hr.
    { unfold rest. destruct args; cbn [String.length]; cbn; lia. }
    rewrite str_length_app in Hf. unfold fish_quote in Hf at 1. cbn in Hf.
    destruct fuel as [|fuel]; [lia|].
    assert (fish_quote a +:+ rest = String dquote_char ((fish_escape a +:+ String dquote_char "") +:+ rest)) as Eq by done.
    rewrite Eq. cbn [parse_params]. rewrite <- Eq. destruct (Nat.ltb_spec i argv_len); [|by replace (_ <? _) with false by (symmetry; apply Nat.ltb_ge; lia)].
    rewrite parse_param_quote; [|unfold rest; destruct args; [by left|right; eauto]].
    assert (skip_blanks (match rest with EmptyString => "" | String _ r => r end) = quote_args args) as ->.
    { unfold rest. destruct args as [|b args]; [done|]. apply quote_args_at_param. }
    rewrite IH by lia. rewrite Nat.add_succ_comm. by destruct (i + S (length args) <? argv_len).
Qed.

(** A word that can be a command. *)
Definition plain_cmd (cmd : string) : Prop :=
  no_class c_isblank cmd /\
  exists c cmd', cmd = String c cmd' /\ c_isspace c = false /\ c_isblank c = false /\
    forallb (fun d => negb (Ascii.eqb c d)) ["#"; "!"; "<"; "-"]%char = true.

Lemma parse_line_quoted cmd args fuel e : plain_cmd cmd ->
  parse_line users system execute_and_inline fuel
    (cmd +:+ (match args with [] => "" | _ => String " " (quote_args args) end)) e =
  Ret (if length args <? argv_len then mk_parsed 1 None cmd args else mk_parsed (-1) None cmd [], e).
Proof.
  intros (Hn & c & cmd' & -> & Hs & Hb & Hc). cbn in Hc.
  repeat (apply andb_prop in Hc as [?H%negb_true_iff Hc]).
  set (rest := match args with [] => "" | _ => String " " (quote_args args) end).
  assert (skip_spaces (String c cmd' +:+ rest) = String c (cmd' +:+ rest)) as E by (rewrite str_app_cons; cbn; by rewrite Hs).
  assert (span_not c_isblank (String c (cmd' +:+ rest)) = (String c cmd', rest)) as E2.
  { apply (span_not_app c_isblank (String c cmd') rest); [done|].
    unfold rest. destruct args; [by left|right; by exists " "%char, (quote_args (s :: args))]. }
  destruct fuel; cbn [parse_line]; rewrite E, H, H0, H1, H2; cbn [andb]; rewrite E2; unfold rest;
    (destruct args as [|a args]; [done|]); rewrite quote_args_at_param, parse_params_quoted by (unfold argv_len; lia); change (0 + length (a :: args)) with (length (a :: args)); by destruct (length (a :: args) <? argv_len).
Qed.
End parse_lemmas.

(** ** Lists of strings *)

Lemma fragment_length in_quote p : String.length (snd (fragment in_quote p)) <= String.length p /\
  (forall c p', p = String c p' -> c_isblank c = false \/ in_quote = true -> Ascii.eqb c quote_char = false ->
   String.length (snd (fragment in_quote p)) < String.length p).
Proof.
  unfold fragment.
  assert (exists frag rest, (if in_quote then strcspn quote_char p
    else span_not (fun c => c_isblank c || Ascii.eqb c quote_char) p) = (frag, rest) /\ p = frag +:+ rest /\
    forall c p', p = String c p' -> c_isblank c = false \/ in_quote = true -> Ascii.eqb c quote_char = false -> frag <> "")
    as (frag & rest & -> & Ep & Hne).
  { destruct in_quote.
    - destruct (strcspn quote_char p) as [frag rest] eqn:E. exists frag, rest. split; [done|].
      split; [by apply strcspn_spec in E as (-> & _)|]. intros c p' -> _ Hq ->. cbn in E. rewrite Hq in E.
      by destruct (strcspn quote_char p').
    - destruct (span_not _ p) as [frag rest] eqn:E. exists frag, rest. split; [done|].
      split; [by apply span_not_spec in E as (-> & _)|]. intros c p' -> [Hb|?] Hq ->; [|done]. cbn in E. rewrite Hb, Hq in E. cbn in E.
      by destruct (span_not _ p'). }
  apply (f_equal String.length) in Ep as El. rewrite str_length_app in El.
  assert (forall r, String.length r <= String.length rest -> String.length r <= String.length p /\
    (forall c p', p = String c p' -> c_isblank c = false \/ in_quote = true -> Ascii.eqb c quote_char = false ->
     String.length r < String.length p)) as Hr.
  { intros r Hr. split; [lia|]. intros c p' E Hb Hq. specialize (Hne c p' E Hb Hq). destruct frag; [done|]. cbn in El. lia. }
  destruct rest as [|c rest']; [by apply Hr|]. destruct (_ && _ && _); apply Hr; cbn; lia.
Qed.

Lemma token_loop_total : forall fuel p in_quote tok, String.length p <= fuel ->
  exists o, token_loop fuel p in_quote tok = Ret o /\
    match o with
    | None => True
    | Some (_, p') => String.length p' <= String.length p /\
        (forall c s, p = String c s -> c_isblank c = false -> String.length p' < String.length p)
    end.
Proof.
  induction fuel as [|fuel IH]; intros p in_quote tok Hl; destruct p as [|c p]; cbn [token_loop].
  - destruct in_quote; eexists; (split; [reflexivity|]); [done|]. split; [done|]. by intros.
  - cbn in Hl. lia.
  - destruct in_quote; eexists; (split; [reflexivity|]); [done|]. split; [done|]. by intros.
  - destruct (c_isblank c && negb in_quote) eqn:Es.
    + eexists. split; [reflexivity|]. destruct in_quote; [done|]. split; [done|]. intros c' s [= <- <-] Hb.
      by rewrite Hb in Es.
    + set (st := if Ascii.eqb c quote_char then (negb in_quote, p) else (in_quote, String c p)).
      assert (exists q p1, st = (q, p1) /\ String.length (snd (fragment q p1)) < String.length (String c p)) as (q & p1 & -> & Hlt).
      { unfold st. destruct (Ascii.eqb c quote_char) eqn:Eq.
        - exists (negb in_quote), p. split; [done|]. destruct (fragment_length (negb in_quote) p) as [H _]. cbn. lia.
        - exists in_quote, (String c p). split; [done|]. destruct (fragment_length in_quote (String c p)) as [_ H].
          apply (H c p); [done| |done]. destruct (c_isblank c), in_quote; auto. }
      destruct (fragment q p1) as [text p2]. cbn [snd] in Hlt. cbn in Hl.
      destruct (IH p2 q (Some (default "" tok +:+ text))) as (o & -> & Ho); [cbn in Hlt; lia|].
      exists o. split; [done|]. destruct o as [[t p']|]; [|done]. destruct Ho as [Ho _].
      split; [lia|]. intros. lia.
Qed.

Lemma string_list_loop_total : forall fuel p, String.length p <= fuel -> exists o, string_list_loop fuel p = Ret o.
Proof.
  induction fuel as [|fuel IH]; intros p Hl; destruct p as [|c p]; cbn [string_list_loop]; [eauto|cbn in Hl; lia|eauto|].
  destruct (token_loop_total (String.length (skip_blanks (String c p))) (skip_blanks (String c p)) false None) as (o & -> & Ho); [done|].
  destruct o as [[tok p']|]; [|eauto]. destruct Ho as [H1 H2].
  assert (String.length p' <= fuel) as Hp'.
  { cbn [skip_blanks] in *. destruct (c_isblank c) eqn:Eb.
    - pose proof (skip_blanks_length p). cbn in Hl. lia.
    - specialize (H2 c p eq_refl Eb). cbn in *. lia. }
  destruct (IH p' Hp') as [[l|] ->]; eauto.
Qed.

(** ** Single quotes *)

Fixpoint sq_escape (s : string) : string :=
  match s with
  | EmptyString => ""
  | String c s' => if Ascii.eqb c quote_char then String "\" (String c (sq_escape s')) else String c (sq_escape s')
  end.
Definition sq_quote (s : string) : string := String quote_char (sq_escape s +:+ String quote_char "").
Definition no_backslash (s : string) : Prop := no_sep "\" s.

Lemma sq_escape_plain a : no_sep quote_char a -> sq_escape a = a.
Proof.
  unfold no_sep. induction a as [|c a IH]; [done|]. cbn. intros [Hc%negb_true_iff Ha]%andb_prop. by rewrite Hc, IH.
Qed.
Lemma sq_escape_app a b : sq_escape (a +:+ b) = sq_escape a +:+ sq_escape b.
Proof.
  induction a as [|c a IH]; [done|]. rewrite str_app_cons. cbn [sq_escape]. rewrite IH.
  by destruct (Ascii.eqb c quote_char).
Qed.
Lemma no_backslash_last a i : no_backslash a -> String.get i a <> Some "\"%char.
Proof.
  unfold no_backslash, no_sep. revert i. induction a as [|c a IH]; intros i Ha; [by destruct i|].
  cbn in Ha. apply andb_prop in Ha as [Hc Ha]. destruct i as [|i]; cbn; [|by apply IH].
  intros [= ->]. done.
Qed.

(** In quotes: up to the closing quote, or up to an escaped one. *)
Lemma fragment_quoted a rest : no_backslash a -> no_sep quote_char a ->
  fragment true (a +:+ String quote_char rest) = (a, String quote_char rest) /\
  fragment true (a +:+ String "\" (String quote_char rest)) = (a +:+ String quote_char "", rest).
Proof.
  intros Hb Hq. unfold fragment. split.
  - destruct (strcspn_no_sep quote_char a rest Hq) as [-> _].
    rewrite (bool_decide_eq_false_2 (String.get _ a = _)) by by apply no_backslash_last.
    by rewrite andb_false_r.
  - assert (no_sep quote_char (a +:+ String "\" "")) as Hq'.
    { unfold no_sep in *. clear Hb. induction a as [|c a IH]; [done|]. rewrite str_app_cons. cbn in *.
      apply andb_prop in Hq as [-> Hq]. by rewrite IH. }
    replace (a +:+ String "\" (String quote_char rest)) with ((a +:+ String "\" "") +:+ String quote_char rest)
      by by rewrite str_app_assoc.
    destruct (strcspn_no_sep quote_char _ rest Hq') as [-> _]. rewrite str_length_app. cbn [String.length].
    rewrite Nat.add_sub, str_get_last, str_substring_all. rewrite bool_decide_eq_true_2 by done.
    replace (String.length a + 1 =? 0)%nat with false by (symmetry; apply Nat.eqb_neq; lia). done.
Qed.

(** Every string is a run without quotes, alone or before a quote. *)
Lemma quote_cases t : no_sep quote_char t \/ exists a t', t = a +:+ String quote_char t' /\ no_sep quote_char a.
Proof.
  destruct (strcspn quote_char t) as [a b] eqn:E. apply strcspn_spec in E as (-> & Ha & [->|[b' ->]]).
  - left. by rewrite str_app_nil_r.
  - right. by exists a, b'.
Qed.

(** After an iteration in quotes at [sq_escape t]. *)
Definition quoted_rest (rest : string) : Prop := rest = "" \/ exists c r, rest = String c r /\ c_isblank c = true.

Lemma token_loop_close fuel tok rest : quoted_rest rest -> 1 <= fuel ->
  token_loop fuel (String quote_char rest) true (Some tok) = Ret (Some (Some tok, rest)).
Proof.
  intros Hr Hf. destruct fuel as [|fuel]; [lia|]. cbn [token_loop].
  change (c_isblank quote_char && negb true) with false. change (Ascii.eqb quote_char quote_char) with true. cbn iota. cbn [negb].
  assert (fragment false rest = ("", rest)) as ->.
  { destruct Hr as [->|(c & r & -> & Hc)]; [done|]. unfold fragment. cbn [span_not]. rewrite Hc. cbn. by rewrite andb_false_r. }
  cbn [default]. rewrite str_app_nil_r. destruct fuel; cbn [token_loop]; destruct Hr as [->|(c & r & -> & Hc)]; cbn; rewrite ?Hc; done.
Qed.

Lemma token_loop_in_quote : forall n t fuel tok rest, String.length t <= n -> no_backslash t -> quoted_rest rest ->
  S (String.length t) <= fuel ->
  (let '(text, p) := fragment true (sq_escape t +:+ String quote_char rest) in
   token_loop fuel p true (Some (tok +:+ text))) = Ret (Some (Some (tok +:+ t), rest)).
Proof.
  induction n as [|n IH]; intros t fuel tok rest Hn Hb Hr Hf.
  all: destruct (quote_cases t) as [Hq|(a & t' & -> & Hq)].
  1, 3: rewrite sq_escape_plain by done; destruct (fragment_quoted t rest Hb Hq) as [-> _]; apply token_loop_close; [done|lia].
  { rewrite str_length_app in Hn. cbn in Hn. lia. }
  apply no_sep_app in Hb as [Ha Hb]. rewrite str_length_app in Hn, Hf. cbn [String.length] in Hn, Hf.
  rewrite sq_escape_app, (sq_escape_plain a) by done. cbn [sq_escape]. change (Ascii.eqb quote_char quote_char) with true. cbn iota.
  rewrite str_app_assoc, !str_app_cons.
  destruct (fragment_quoted a (sq_escape t' +:+ String quote_char rest) Ha Hq) as [_ ->].
  destruct fuel as [|fuel]; [lia|].
  assert (no_backslash t') as Hb' by (unfold no_backslash, no_sep in *; cbn in Hb; exact Hb).
  assert (tok +:+ a +:+ String quote_char t' = (tok +:+ a +:+ String quote_char "") +:+ t') as ->
    by by rewrite !str_app_assoc.
  rewrite <- (IH t' fuel (tok +:+ a +:+ String quote_char "") rest) by (done || lia).
  assert (sq_escape t' +:+ String quote_char rest <> "" /\
          (t' = "" \/ exists c s, sq_escape t' +:+ String quote_char rest = String c s /\ Ascii.eqb c quote_char = false))
    as [Hne Hhd].
  { split; [by destruct (sq_escape t')|]. destruct t' as [|c t']; [by left|right]. cbn [sq_escape].
    destruct (Ascii.eqb c quote_char) eqn:E; rewrite str_app_cons; eauto. }
  destruct Hhd as [->|(c & s & E & Hc)].
  - cbn [sq_escape]. change ("" +:+ String quote_char rest) with (String quote_char rest).
    rewrite token_loop_close by (done || lia). destruct (fragment_quoted "" rest) as [H _]; [done|done|].
    change ("" +:+ String quote_char rest) with (String quote_char rest) in H. rewrite H.
    rewrite token_loop_close by (done || lia). by rewrite str_app_nil_r.
  - rewrite E. cbn [token_loop]. rewrite andb_false_r. by rewrite Hc.
Qed.
Fixpoint sq_list (l : list string) : string :=
  match l with
  | [] => ""
  | [t] => sq_quote t
  | t :: l' => sq_quote t +:+ String " " (sq_list l')
  end.

Lemma token_loop_quote t fuel rest : no_backslash t -> quoted_rest rest -> S (S (String.length t)) <= fuel ->
  token_loop fuel (sq_quote t +:+ rest) false None = Ret (Some (Some t, rest)).
Proof.
  intros Hb Hr Hf. destruct fuel as [|fuel]; [lia|]. unfold sq_quote. rewrite str_app_cons, str_app_assoc.
  change (String quote_char "" +:+ rest) with (String quote_char rest). cbn [token_loop].
  change (c_isblank quote_char && negb false) with false. change (Ascii.eqb quote_char quote_char) with true. cbn iota. cbn [negb].
  apply (token_loop_in_quote (String.length t) t fuel ""); (done || lia).
Qed.

Lemma sq_escape_length s : String.length s <= String.length (sq_escape s).
Proof. induction s as [|c s IH]; [done|]. cbn. destruct (Ascii.eqb c quote_char); cbn; lia. Qed.
Lemma sq_quote_length t : S (S (String.length t)) <= String.length (sq_quote t).
Proof. unfold sq_quote. cbn [String.length]. rewrite str_length_app. pose proof (sq_escape_length t). cbn. lia. Qed.

Lemma string_list_loop_quoted : forall l fuel, Forall no_backslash l -> String.length (sq_list l) <= fuel ->
  string_list_loop fuel (sq_list l) = Ret (Some l) /\
  string_list_loop (S fuel) (String " " (sq_list l)) = Ret (Some l).
Proof.
  assert (forall t rest fuel, string_list_loop (S fuel) (sq_quote t +:+ rest) =
            match token_loop (String.length (sq_quote t +:+ rest)) (sq_quote t +:+ rest) false None with
            | Stop why => Stop why
            | Ret None => Ret None
            | Ret (Some (tok, p)) => match string_list_loop fuel p with
                | Ret (Some l) => Ret (Some (match tok with Some t => t :: l | None => l end))
                | r => r
                end
            end /\ string_list_loop (S fuel) (String " " (sq_quote t +:+ rest)) = string_list_loop (S fuel) (sq_quote t +:+ rest))
    as Heq by done.
  induction l as [|t l IH]; intros fuel Hl Hf; [by destruct fuel|].
  inversion Hl as [|? ? Ht Hl']; subst. set (rest := match l with [] => "" | _ => String " " (sq_list l) end).
  assert (sq_list (t :: l) = sq_quote t +:+ rest) as E by (unfold rest; destruct l; [by rewrite str_app_nil_r|done]).
  rewrite E in *. rewrite str_length_app in Hf. pose proof (sq_quote_length t) as Hq.
  assert (forall fuel, String.length rest < fuel -> string_list_loop (S fuel) (sq_quote t +:+ rest) = Ret (Some (t :: l))) as Hgo.
  { intros f Hlen. destruct (Heq t rest f) as [-> _]. rewrite token_loop_quote.
    - assert (string_list_loop f rest = Ret (Some l)) as ->; [|done]. unfold rest in *. destruct l as [|t' l]; [by destruct f|].
      cbn [String.length] in Hlen. destruct f as [|f]; [lia|]. apply IH; [done|lia].
    - done.
    - unfold rest. destruct l; [by left|right; eauto].
    - rewrite str_length_app. lia. }
  destruct fuel as [|fuel]; [lia|]. split; [apply Hgo; lia|]. destruct (Heq t rest (S fuel)) as [_ ->]. apply Hgo. lia.
Qed.

(** ** Prompts *)

Lemma decode_octal_length lim : forall s r v rest, decode_ps1_octal lim s r = (v, rest) -> String.length rest <= String.length s.
Proof.
  induction lim as [|lim IH]; intros s r v rest; cbn; [by intros [= _ <-]|].
  destruct s as [|c s]; [by intros [= _ <-]|]. destruct (is_octal c); [|by intros [= _ <-]]. intros H%IH. cbn. lia.
Qed.
Lemma hex_digits_length lim : forall s r v rest, hex_digits lim s r = (v, rest) -> String.length rest <= String.length s.
Proof.
  induction lim as [|lim IH]; intros s r v rest; cbn; [by intros [= _ <-]|].
  destruct s as [|c s]; [by intros [= _ <-]|]. destruct (c_isxdigit c); [|by intros [= _ <-]]. intros H%IH. cbn. lia.
Qed.
Lemma decode_loop_length : forall fuel s, String.length s <= fuel ->
  String.length (decode_loop fuel s) <= String.length s.
Proof.
  induction fuel as [|fuel IH]; intros s Hl; [cbn; lia|]. destruct s as [|c s1]; [done|]. cbn [decode_loop].
  cbn in Hl. destruct (Ascii.eqb c "\"); [|cbn; pose proof (IH s1); lia].
  destruct s1 as [|e s2]; [cbn; lia|]. destruct (is_octal e) eqn:Eo.
  - assert (decode_ps1_octal 3 (String e s2) 0 = decode_ps1_octal 2 s2 (0 * 8 + (code e - 48))) as ->
      by (cbn [decode_ps1_octal]; by rewrite Eo).
    destruct (decode_ps1_octal 2 s2 _) as [v rest] eqn:E. apply decode_octal_length in E. cbn in *. pose proof (IH rest). lia.
  - destruct (Ascii.eqb e "x").
    + destruct (decode_ps1_hex s2) as [v rest] eqn:E. unfold decode_ps1_hex in E.
      assert (String.length rest <= String.length s2) as Hr.
      { destruct s2 as [|d s3]; [by injection E as _ <-|]. destruct (c_isxdigit d); [by apply hex_digits_length in E|by injection E as _ <-]. }
      cbn in *. pose proof (IH rest). lia.
    + cbn in *. pose proof (IH s2). lia.
Qed.

(** * Properties *)

(** Parsing a guestfish command line always ends: it never reaches the internal error,
    whatever the text is and whatever the commands it runs return. *)
Theorem parse_command_line_total (u : users) (system : string -> Z) (inline : string -> bool -> Z)
    (buf : string) (e : bool) : exists r, parse_command_line u system inline buf e = Ret r.
Proof. by apply parse_line_total. Qed.

(** C39: A guestfish command followed by arguments, each in double quotes with quotes and
    backslashes escaped, is parsed back to exactly that command and those arguments when there
    are fewer than 64 of them; with 64 or more the status is -1 (too many arguments). The name
    of the command has no blanks and does not start with white space or one of # ! < -. *)
Theorem parse_command_line_roundtrip (u : users) (system : string -> Z) (inline : string -> bool -> Z)
    (cmd : string) (args : list string) (e : bool) : plain_cmd cmd ->
  parse_command_line u system inline
    (cmd +:+ (match args with [] => "" | _ => String " " (quote_args args) end)) e =
  Ret (if length args <? 64 then mk_parsed 1 None cmd args else mk_parsed (-1) None cmd [], e).
Proof. apply parse_line_quoted. Qed.

Definition ex_users : users := mk_users (Some "/home/me") 0 [].
Lemma parse_command_line_roundtrip_witness :
  parse_command_line ex_users (fun _ => 0%Z) (fun _ _ => 0%Z)
    ("write " +:+ quote_args ["/a b"; "x\y"]) true = Ret (mk_parsed 1 None "write" ["/a b"; "x\y"], true) /\
  parse_command_line ex_users (fun _ => 0%Z) (fun _ _ => 0%Z)
    ("write " +:+ quote_args (replicate 64 "a")) true = Ret (mk_parsed (-1) None "write" [], true).
Proof.
  assert (plain_cmd "write") as Hw by (split; [done|]; by exists "w"%char, "rite").
  split.
  - apply (parse_command_line_roundtrip ex_users (fun _ => 0%Z) (fun _ _ => 0%Z) "write" ["/a b"; "x\y"] true Hw).
  - apply (parse_command_line_roundtrip ex_users (fun _ => 0%Z) (fun _ _ => 0%Z) "write" (replicate 64 "a") true Hw).
Defined.

(** parse_string_list always returns, and reads a list of single-quoted strings, with their
    quotes escaped, back as the list (for strings without backslashes). *)
Theorem parse_string_list_roundtrip :
  (forall str, exists o, parse_string_list str = Ret o) /\
  (forall l, Forall no_backslash l -> parse_string_list (sq_list l) = Ret (Some l)).
Proof.
  split; [intros str; by apply string_list_loop_total|]. intros l Hl. by apply string_list_loop_quoted.
Qed.

Lemma parse_string_list_roundtrip_witness :
  parse_string_list (sq_list ["a b"; ""; "it's"]) = Ret (Some ["a b"; ""; "it's"]).
Proof. apply (proj2 parse_string_list_roundtrip). repeat constructor. Defined.

(** A decoded prompt fits in the buffer that is allocated for it. *)
Theorem decode_ps1_fits (str : string) : String.length (decode_ps1 str) < String.length str + 1.
Proof. unfold decode_ps1. pose proof (decode_loop_length (String.length str) str). lia. Qed.
