(* ===== verification/Fish.v ===== *)
(** guestfish, the commands: running the commands given as arguments
    (cmdline of fish/fish.c), glob and its Cartesian product (fish/glob.c), URIs
    of -a (fish/uri.c), Windows paths, here documents and local files
    (fish/fish.c), splitting paths (fish/copy.c).  Commands and API calls are
    parameters. *)

From S2P Require Import Prelude Xdr Handle Utils Conn Guestfsd FishParse.
From Stdlib Require Import Ascii.

#[local] Arguments String.append : simpl nomatch.

(** * Issuing commands

    [issue cmd argv exit_on_error] is issue_command without a pipe, on a state
    of its own. *)

Section issuing.
Context {S : Type} (issue_command : string -> list string -> bool -> M S Z).

(** ** cmdline

    The commands between ":" arguments.  [fuel] is the number of arguments. *)
Fixpoint until_colon (args : list string) : list string * list string :=
  match args with
  | [] => ([], [])
  | a :: args' => if STREQ a ":" then ([], args)
                  else let '(params, rest) := until_colon args' in (a :: params, rest)
  end.

Definition drop_dash (cmd : string) : bool * string :=
  match cmd with String "-" cmd' => (false, cmd') | _ => (true, cmd) end.

Fixpoint cmdline (fuel : nat) (argv : list string) : M S unit :=
  match argv, fuel with
  | [], _ => ret tt
  | _, O => halt OutOfFuel
  | cmd :: args, Datatypes.S fuel' =>
      if STREQ cmd ":" then halt Exited
      else
        let '(exit_on_error, cmd) := drop_dash cmd in
        let '(params, rest) := until_colon args in
        r <- issue_command cmd params exit_on_error ;;
        if (r =? -1)%Z && exit_on_error then halt Exited
        else match rest with
             | [] => ret tt
             | _ :: rest' => cmdline fuel' rest'
             end
  end.

(** ** glob

    [posn] and [count] without the entry 0 that C ignores. *)
Definition odometer (digits : list (nat * nat)) : bool * list nat :=
  foldr (fun '(posn, count) '(stop, ps) =>
           if stop : bool then (true, posn :: ps)
           else if (posn + 1 <? count)%nat then (true, posn + 1 :: ps)
           else (false, 0 :: ps)) (false, []) digits.

Definition current (globs : list (list string)) (posn : list nat) : list string :=
  zip_with (fun g i => nth i g "") globs posn.

(** [r] is -1 once a command has failed. *)
Fixpoint glob_issue (fuel : nat) (cmd : string) (globs : list (list string)) (posn : list nat) (r : Z) : M S Z :=
  match fuel with
  | O => halt OutOfFuel
  | Datatypes.S fuel' =>
      x <- issue_command cmd (current globs posn) false ;;
      let r := if (x =? -1)%Z then (-1)%Z else r in
      let '(more, posn') := odometer (zip posn (length <$> globs)) in
      if more then glob_issue fuel' cmd globs posn' r else ret r
  end.

Definition product_size (globs : list (list string)) : nat := foldr (fun g n => length g * n) 1 globs.

(** *** What an argument stands for

    The calls of the API; [None] is an error. *)
Record glob_api := mk_glob_api {
  ga_glob_expand : string -> option (list string);
  ga_list_devices : option (list string);
  ga_list_partitions : option (list string);
  ga_list_md_devices : option (list string);
  ga_has_lvm2 : bool;
  ga_lvs : option (list string);
  ga_fnmatch : string -> string -> option bool          (* of a pattern and a name *)
}.

Definition single_element_list (element : string) : list string := [element].

Definition expand_pathname (api : glob_api) (path : string) : option (list string) :=
  pp ← ga_glob_expand api path;
  Some (match pp with [] => single_element_list path | _ => pp end).

Fixpoint add_strings_matching (api : glob_api) (pp : list string) (glob : string) (acc : list string) :
    option (list string) :=
  match pp with
  | [] => Some acc
  | p :: pp' =>
      m ← ga_fnmatch api glob p;
      add_strings_matching api pp' glob (if m : bool then acc ++ [p] else acc)
  end.

Definition expand_devicename (api : glob_api) (device : string) : option (list string) :=
  pp ← ga_list_devices api; l ← add_strings_matching api pp device [];
  pp ← ga_list_partitions api; l ← add_strings_matching api pp device l;
  pp ← ga_list_md_devices api; l ← add_strings_matching api pp device l;
  l ← (if ga_has_lvm2 api then pp ← ga_lvs api; add_strings_matching api pp device l else Some l);
  Some (match l with [] => single_element_list device | _ => l end).

Definition expand_arg (api : glob_api) (arg : string) : option (list string) :=
  if STRPREFIX arg "/dev/" then expand_devicename api arg
  else if STRPREFIX arg "/" then expand_pathname api arg
  else Some (single_element_list arg).

Definition run_glob (api : glob_api) (argv : list string) : M S Z :=
  match argv with
  | [] => ret (-1)%Z
  | cmd :: args =>
      match mapM (expand_arg api) args with
      | None => ret (-1)%Z
      | Some globs => glob_issue (product_size globs) cmd globs ((fun _ => 0) <$> globs) 0
      end
  end.

(** ** References *)

(** Every combination, the last varying fastest. *)
Fixpoint cartesian (globs : list (list string)) : list (list string) :=
  match globs with
  | [] => [[]]
  | g :: globs' => g ≫= (fun x => cons x <$> cartesian globs')
  end.
(** Run the command on each of the argument lists. *)
Fixpoint issue_all (cmd : string) (argvs : list (list string)) (r : Z) : M S Z :=
  match argvs with
  | [] => ret r
  | argv :: argvs' =>
      x <- issue_command cmd argv false ;;
      issue_all cmd argvs' (if (x =? -1)%Z then (-1)%Z else r)
  end.

(** The combinations from a position on. *)
Fixpoint from_posn (globs : list (list string)) (posn : list nat) : list (list string) :=
  match globs, posn with
  | g :: globs', p :: posn' =>
      (cons (nth p g "") <$> from_posn globs' posn') ++
      (drop (p + 1) g ≫= (fun x => cons x <$> cartesian globs'))
  | _, _ => [[]]
  end.

Definition posn_ok (globs : list (list string)) (posn : list nat) : Prop :=
  Forall2 (fun g p => p < length g) globs posn.

Lemma from_posn_zero globs : Forall (fun g => g <> []) globs ->
  from_posn globs ((fun _ => 0) <$> globs) = cartesian globs.
Proof.
  induction 1 as [|g globs Hg _ IH]; [done|]. cbn [fmap list_fmap from_posn cartesian]. rewrite IH.
  destruct g as [|x g]; [done|]. cbn. by rewrite drop_0.
Qed.

(** One turn of the odometer is one step in the product. *)
Lemma from_posn_step globs posn : posn_ok globs posn ->
  let '(more, posn') := odometer (zip posn (length <$> globs)) in
  from_posn globs posn = current globs posn :: (if more then from_posn globs posn' else []) /\
  (if more then posn_ok globs posn' else posn' = (fun _ => 0) <$> globs).
Proof.
  induction 1 as [|g p globs posn Hp Hps IH]; [done|]. cbn [fmap list_fmap zip zip_with odometer foldr].
  fold (odometer (zip posn (length <$> globs))). destruct (odometer (zip posn (length <$> globs))) as [more posn'] eqn:E.
  destruct IH as [IH1 IH2]. cbn [from_posn current zip_with]. fold (current globs posn). rewrite IH1. cbn [fmap list_fmap app].
  destruct more.
  - split; [done|by constructor].
  - rewrite IH2. assert (Forall (fun g => g <> []) globs) as Hne.
    { clear -Hps. induction Hps as [|h q ? ? Hq]; [constructor|]. constructor; [|done]. intros ->. cbn in Hq. lia. }
    destruct (Nat.ltb_spec (p + 1) (length g)) as [Hlt|Hge].
    + rewrite from_posn_zero by done. split.
      * destruct (drop (p + 1) g) as [|x rest] eqn:Ed.
        { apply (f_equal length) in Ed. rewrite length_drop in Ed. cbn in Ed. lia. }
        cbn [mbind list_bind]. assert (nth (p + 1) g "" = x) as Ex.
        { rewrite nth_lookup. assert (g !! (p + 1) = Some x) as ->; [|done].
          rewrite <- (Nat.add_0_r (p + 1)), <- lookup_drop, Ed. done. }
        assert (drop (p + 1 + 1) g = rest) as Er by (rewrite <- drop_drop, Ed; done).
        by rewrite Ex, Er.
      * constructor; [lia|]. clear -Hne. induction Hne as [|h ? Hh]; constructor; [|done]. destruct h; [done|cbn; lia].
    + split; [|by rewrite IH2 || done]. rewrite drop_ge by lia. done.
Qed.

Lemma cartesian_length globs : length (cartesian globs) = product_size globs.
Proof.
  induction globs as [|g globs IH]; [done|]. cbn [cartesian product_size foldr]. fold (product_size globs).
  rewrite <- IH. induction g as [|x g IHg]; [done|]. cbn [mbind list_bind]. rewrite length_app, length_fmap.
  cbn [length]. rewrite IHg. done.
Qed.

Lemma glob_issue_from : forall fuel cmd globs posn r s, posn_ok globs posn ->
  length (from_posn globs posn) <= fuel ->
  glob_issue fuel cmd globs posn r s = issue_all cmd (from_posn globs posn) r s.
Proof.
  induction fuel as [|fuel IH]; intros cmd globs posn r s Hp Hf; pose proof (from_posn_step globs posn Hp) as Hstep;
    destruct (odometer (zip posn (length <$> globs))) as [more posn'] eqn:E; destruct Hstep as [Es Ho]; rewrite Es in *;
    cbn [length] in Hf; [lia|].
  cbn [glob_issue issue_all]. rewrite E. unfold bind. destruct (issue_command cmd (current globs posn) false s) as [[x|w] s1]; [|done].
  destruct more; [|done]. apply IH; [done|lia].
Qed.

Lemma add_strings_matching_incl api pp glob : forall acc l, add_strings_matching api pp glob acc = Some l ->
  exists m, l = acc ++ m /\ m ⊆ pp.
Proof.
  induction pp as [|p pp IH]; intros acc l; cbn [add_strings_matching]; [intros [= <-]; exists []; by rewrite app_nil_r|].
  destruct (ga_fnmatch api glob p) as [m|]; cbn; [|done]. intros (m' & -> & Hm)%IH. destruct m.
  - exists (p :: m'). rewrite <- app_assoc. split; [done|set_solver].
  - exists m'. split; [done|set_solver].
Qed.
Lemma expand_arg_nonempty api arg l : expand_arg api arg = Some l -> l <> [].
Proof.
  unfold expand_arg, expand_devicename, expand_pathname. intros H.
  repeat (case_match || (apply bind_Some in H as (? & ? & H))); simplify_eq; done.
Qed.

(** ** The commands of a command line, one by one *)

Fixpoint split_colon (args : list string) : list (list string) :=
  match args with
  | [] => [[]]
  | a :: args' =>
      if STREQ a ":" then [] :: split_colon args'
      else match split_colon args' with
           | g :: gs => (a :: g) :: gs
           | [] => [[a]]
           end
  end.
(** A failing command ends the program unless it begins with a dash; an empty
    command is an error, but nothing may follow the last colon. *)
Fixpoint run_groups (gs : list (list string)) : M S unit :=
  match gs with
  | [] => ret tt
  | [] :: [] => ret tt
  | [] :: _ => halt Exited
  | (cmd :: params) :: gs' =>
      let '(exit_on_error, cmd) := drop_dash cmd in
      r <- issue_command cmd params exit_on_error ;;
      if (r =? -1)%Z && exit_on_error then halt Exited else run_groups gs'
  end.

Lemma split_colon_not_nil args : split_colon args <> [].
Proof. destruct args as [|a args]; [done|]. cbn. case_if; [done|]. by destruct (split_colon args). Qed.
Lemma split_colon_until args : let '(params, rest) := until_colon args in
  split_colon args = params :: (match rest with [] => [] | _ :: rest' => split_colon rest' end) /\
  length rest <= length args.
Proof.
  induction args as [|a args IH]; [done|]. cbn. destruct (STREQ a ":") eqn:E; [done|].
  destruct (until_colon args) as [params rest]. destruct IH as [-> Hl]. split; [done|lia].
Qed.

Lemma cmdline_groups : forall fuel argv s, length argv <= fuel -> cmdline fuel argv s = run_groups (split_colon argv) s.
Proof.
  induction fuel as [|fuel IH]; intros argv s Hf; (destruct argv as [|cmd args]; [done|]); cbn [length] in Hf; [lia|].
  cbn [cmdline split_colon]. destruct (STREQ cmd ":") eqn:E.
  - pose proof (split_colon_not_nil args). by destruct (split_colon args).
  - pose proof (split_colon_until args) as Hu. destruct (until_colon args) as [params rest]. destruct Hu as [-> Hl].
    cbn [run_groups]. destruct (drop_dash cmd) as [e c]. unfold bind.
    destruct (issue_command c params e s) as [[r|w] s1]; [|done]. destruct ((r =? -1)%Z && e); [done|].
    destruct rest as [|x rest]; [done|]. apply IH. cbn in Hl. lia.
Qed.
End issuing.

(** * fish/uri.c *)

Module Uri.

(** What libxml2's xmlParseURI returns. *)
Record xmlURI := mk_xmlURI {
  x_scheme : option string;
  x_server : option string;
  x_port : Z;
  x_user : option string;
  x_path : option string;
  x_query_raw : option string
}.
Record uri := mk_uri {
  uri_path : string; uri_protocol : string; uri_server : option string;
  uri_username : option string; uri_password : option string
}.

(** strstr (arg, "://"): the text before it. *)
Fixpoint before_css (arg : string) : option string :=
  if STRPREFIX arg "://" then Some ""
  else match arg with
       | EmptyString => None
       | String c arg' => String c <$> before_css arg'
       end.
Definition is_uri (arg : string) : bool :=
  match before_css arg with
  | None => false
  | Some s => if (8 <? String.length s)%nat then false else str_forallb c_islower s
  end.

(** Find the next separator: an ampersand anywhere, else a semicolon. *)
Definition next_section (query : string) : string * string :=
  match strcspn "&" query with
  | (_, EmptyString) => strcspn ";" query
  | r => r
  end.

Section query.
Context (xmlURIUnescapeString : string -> option string).

(** The name and value of a section; [None] is [goto next], [Some None] is
    [goto no_memory]. *)
Definition section_pair (sec : string) : option (option (string * string)) :=
  match sec with
  | EmptyString => None
  | _ =>
      match strcspn "=" sec with
      | (name, EmptyString) =>
          match xmlURIUnescapeString name with Some n => Some (Some (n, "")) | None => Some None end
      | (name, String _ EmptyString) =>
          match xmlURIUnescapeString name with Some n => Some (Some (n, "")) | None => Some None end
      | (EmptyString, _) => None
      | (name, String _ value) =>
          match xmlURIUnescapeString name, xmlURIUnescapeString value with
          | Some n, Some v => Some (Some (n, v))
          | _, _ => Some None
          end
      end
  end.

Fixpoint query_loop (fuel : nat) (query search_name : string) : option string :=
  match query, fuel with
  | EmptyString, _ => None
  | _, O => None
  | _, S fuel' =>
      let '(sec, end_) := next_section query in
      let next := match end_ with EmptyString => None | String _ q => query_loop fuel' q search_name end in
      match section_pair sec with
      | None => next
      | Some None => None
      | Some (Some (n, v)) => if STREQ n search_name then Some v else next
      end
  end.
Definition query_get (u : xmlURI) (search_name : string) : option string :=
  match x_query_raw u with
  | None => None
  | Some query => query_loop (String.length query) query search_name
  end.

Definition nonempty (s : option string) : option string :=
  match s with Some EmptyString => None | _ => s end.

(** The single element of the server list. *)
Definition make_server (u : xmlURI) (socket : option string) : option string :=
  match nonempty (x_server u) with
  | Some server =>
      Some (if (x_port u =? 0)%Z then "tcp:" +:+ server else "tcp:" +:+ server +:+ ":" +:+ pretty (x_port u))
  | None => match socket with
            | Some socket => Some ("unix:" +:+ socket)
            | None => None
            end
  end.

Definition strip_slash (scheme path : string) : string :=
  match path with
  | String "/" path' =>
      if bool_decide (scheme ∈ ["gluster"; "iscsi"; "rbd"; "sheepdog"]) then path' else path
  | _ => path
  end.

(** The user and the password of user:password. *)
Definition split_user (user : option string) : option string * option string :=
  match nonempty user with
  | None => (None, None)
  | Some user =>
      match strcspn ":" user with
      | (_, EmptyString) => (Some user, None)
      | (name, String _ password) => (Some name, nonempty (Some password))
      end
  end.

(** [None] is -1. *)
Definition parse (parsed : option xmlURI) : option uri :=
  u ← parsed;
  scheme ← nonempty (x_scheme u);
  let socket := query_get u "socket" in
  if bool_decide (is_Some (nonempty (x_server u))) && bool_decide (is_Some socket) then None
  else
    let '(username, password) := split_user (x_user u) in
    Some (mk_uri (strip_slash scheme (default "" (x_path u))) scheme (make_server u socket) username password).

Definition parse_uri (xmlParseURI : string -> option xmlURI) (arg : string) : option uri :=
  if is_uri arg then parse (xmlParseURI arg)
  else Some (mk_uri arg "file" None None None).

(** ** Queries *)

Definition plain_query (s : string) : Prop := no_sep "&" s /\ no_sep ";" s.
Definition pair_string (p : string * string) : string := fst p +:+ String "=" (snd p).
Definition pair_ok (p : string * string) : Prop :=
  fst p <> "" /\ plain_query (fst p) /\ no_sep "=" (fst p) /\ plain_query (snd p).
Fixpoint query_string (sep : ascii) (ps : list (string * string)) : string :=
  match ps with
  | [] => ""
  | [p] => pair_string p
  | p :: ps' => pair_string p +:+ String sep (query_string sep ps')
  end.

(** The value of the first pair with this name. *)
Fixpoint first_value (ps : list (string * string)) (search_name : string) : option string :=
  match ps with
  | [] => None
  | (n, v) :: ps' =>
      match xmlURIUnescapeString n, (if STREQ v "" then Some "" else xmlURIUnescapeString v) with
      | Some n, Some v => if STREQ n search_name then Some v else first_value ps' search_name
      | _, _ => None
      end
  end.

Lemma pair_string_plain p : pair_ok p -> plain_query (pair_string p) /\ pair_string p <> "".
Proof.
  intros (Hne & [Hn1 Hn2] & _ & [Hv1 Hv2]). unfold pair_string. split; [|by destruct (fst p)].
  split; apply no_sep_app; split; try done; unfold no_sep in *; cbn; by rewrite ?Hv1, ?Hv2.
Qed.

Lemma section_pair_ok p : pair_ok p -> section_pair (pair_string p) =
  Some (match xmlURIUnescapeString (fst p), (if STREQ (snd p) "" then Some "" else xmlURIUnescapeString (snd p)) with
        | Some n, Some v => Some (n, v)
        | _, _ => None
        end).
Proof.
  intros Hp. destruct (pair_string_plain p Hp) as [_ Hne]. destruct Hp as (Hn & _ & He & _). unfold section_pair.
  destruct (strcspn_no_sep "=" (fst p) (snd p) He) as [E _]. fold (pair_string p) in E. rewrite E.
  destruct (pair_string p); [done|]. destruct (fst p) as [|c n]; [done|]. destruct (snd p) as [|d v]; cbn;
    destruct (xmlURIUnescapeString (String c n)); try done. by destruct (xmlURIUnescapeString (String d v)).
Qed.

Lemma next_section_sep sep s rest : (sep = "&" \/ sep = ";")%char -> plain_query s ->
  (sep = ";"%char -> no_sep "&" rest) ->
  next_section (s +:+ String sep rest) = (s, String sep rest) /\ next_section s = (s, "").
Proof.
  intros Hs [H1 H2] Hr. unfold next_section.
  destruct (strcspn_no_sep "&" s rest H1) as [E1 E1']. destruct (strcspn_no_sep ";" s rest H2) as [E2 E2'].
  rewrite E1', E2'. split; [|done]. destruct Hs as [->| ->]; [by rewrite E1|].
  assert (no_sep "&" (s +:+ String ";" rest)) as H3.
  { apply no_sep_app. split; [done|]. specialize (Hr eq_refl). unfold no_sep in *. cbn. exact Hr. }
  destruct (strcspn_no_sep "&" _ "" H3) as [_ ->]. by rewrite E2.
Qed.

Lemma query_string_no_amp ps : Forall pair_ok ps -> no_sep "&" (query_string ";" ps).
Proof.
  induction 1 as [|p ps Hp _ IH]; [done|]. destruct (pair_string_plain p Hp) as [[H1 _] _]. cbn [query_string].
  destruct ps; [done|]. apply no_sep_app. split; [done|]. unfold no_sep in *. cbn [str_forallb]. exact IH.
Qed.

Lemma query_loop_pairs sep search : (sep = "&" \/ sep = ";")%char -> forall ps fuel, Forall pair_ok ps ->
  String.length (query_string sep ps) <= fuel ->
  query_loop fuel (query_string sep ps) search = first_value ps search.
Proof.
  intros Hs. induction ps as [|p ps IH]; intros fuel Hps Hf; [by destruct fuel|].
  inversion Hps as [|? ? Hp Hps']; subst. destruct (pair_string_plain p Hp) as [Hpl Hne].
  set (rest := match ps with [] => "" | _ => String sep (query_string sep ps) end).
  assert (query_string sep (p :: ps) = pair_string p +:+ rest) as E.
  { unfold rest. cbn [query_string]. destruct ps; [by rewrite str_app_nil_r|done]. }
  assert (next_section (pair_string p +:+ rest) = (pair_string p, rest)) as En.
  { destruct (next_section_sep sep (pair_string p) (query_string sep ps) Hs Hpl) as [H1 H2].
    - intros ->. by apply query_string_no_amp.
    - unfold rest. destruct ps; [by rewrite str_app_nil_r|done]. }
  rewrite E in *. rewrite str_length_app in Hf.
  assert (1 <= String.length (pair_string p)) as Hl by (destruct (pair_string p); [done|cbn; lia]).
  destruct fuel as [|fuel]; [lia|]. cbn [query_loop]. rewrite En, section_pair_ok by done.
  assert (pair_string p +:+ rest <> "") as Hne' by (by destruct (pair_string p)).
  destruct (pair_string p +:+ rest); [done|]. destruct p as [n v]. cbn [first_value fst snd].
  destruct (xmlURIUnescapeString n) as [n'|]; [|done].
  destruct (if STREQ v "" then Some "" else xmlURIUnescapeString v) as [v'|]; [|done].
  destruct (STREQ n' search); [done|]. unfold rest in *. destruct ps as [|q ps]; [done|].
  apply IH; [done|]. cbn [String.length] in Hf. lia.
Qed.
End query.
End Uri.

(** * Windows paths *)

Module WinPath.

(** The API calls that win_prefix makes; [None] is an error. *)
Record win_api := mk_win_api {
  wa_roots : option (list string);
  wa_drive_mappings : string -> option (list (string * string));
  wa_mountpoints : option (list (string * string));
  wa_case_sensitive_path : string -> option string
}.

Definition assoc (p : string -> bool) (l : list (string * string)) : option string :=
  snd <$> List.find (fun kv => p (fst kv)) l.

Definition win_prefix_drive_letter (api : win_api) (drive_letter : ascii) (path : string) : option string :=
  roots ← wa_roots api;
  root ← head roots;
  drives ← wa_drive_mappings api root;
  match drives with
  | [] => None
  | _ =>
      device ← assoc (fun d => STREQ (str_map c_tolower d) (String drive_letter "")) drives;
      mountpoints ← wa_mountpoints api;
      mountpoint ← assoc (fun d => STREQ d device) mountpoints;
      Some (mountpoint +:+ (if STRNEQ mountpoint "/" then "/" else "") +:+ path)
  end.

Definition slash_of (c : ascii) : ascii := if Ascii.eqb c "\" then "/" else c.

Definition win_prefix (api : win_api) (path : string) : option string :=
  if negb (STRCASEEQ (String.substring 0 4 path) "win:") then Some path
  else
    let path := str_drop 4 path in
    r ← match path with
        | String c (String ":" path') =>
            if c_isalpha c then win_prefix_drive_letter api (c_tolower c) path' else Some path
        | EmptyString => Some "/"
        | _ => Some path
        end;
    wa_case_sensitive_path api (str_map slash_of r).
End WinPath.

(** * FileIn and FileOut *)

Module LocalFile.

(** The lines fgets returns: at most BUFSIZ-1 bytes each, with the newline. *)
Fixpoint fgets_all (fuel : nat) (s : list byte) : list (list byte) :=
  match s, fuel with
  | [], _ => []
  | _, O => []
  | _, S fuel' =>
      let line := Nat.min (BUFSIZ - 1)
                    (match list_find (fun b => b = x0a) s with Some (i, _) => i + 1 | None => length s end) in
      take line s :: fgets_all fuel' (drop line s)
  end.

Definition is_end (endmarker buffer : list byte) : bool :=
  bool_decide (buffer = endmarker) || bool_decide (buffer = endmarker ++ [x0a]).

(** The loop of file_in_heredoc: what is written before the marker, and the
    lines after it; [None] is the end of the input without the marker. *)
Fixpoint heredoc_loop (endmarker : list byte) (lines : list (list byte)) (written : list byte) :
    option (list byte * list (list byte)) :=
  match lines with
  | [] => None
  | buffer :: lines' =>
      if is_end endmarker buffer then Some (written, lines')
      else heredoc_loop endmarker lines' (written ++ buffer)
  end.

Inductive file_in_result :=
  | FileInName (name : string)
  | FileInHeredoc (contents : list byte) (stdin : list (list byte))    (* a temporary file *)
  | FileInError.

Definition file_in (arg : string) (stdin : list (list byte)) : file_in_result :=
  if STREQ arg "-" then FileInName "/dev/stdin"
  else if STRPREFIX arg "-<<" then
    match str_drop 3 arg with
    | EmptyString => FileInError
    | endmarker =>
        match heredoc_loop (bytes_of_string endmarker) stdin [] with
        | Some (contents, rest) => FileInHeredoc contents rest
        | None => FileInError
        end
    end
  else FileInName arg.
Definition file_out (arg : string) : string := if STREQ arg "-" then "/dev/stdout" else arg.

Lemma heredoc_loop_spec endmarker : forall before after last written,
  Forall (fun l => is_end endmarker l = false) before -> is_end endmarker last = true ->
  heredoc_loop endmarker (before ++ last :: after) written = Some (written ++ concat before, after).
Proof.
  intros before after last written Hb Hl. revert written.
  induction Hb as [|l before Hl' _ IH]; intros written; cbn.
  - by rewrite Hl, app_nil_r.
  - by rewrite Hl', IH, app_assoc.
Qed.
End LocalFile.

(** * fish/copy.c: split_path *)

Module Copy.

Definition strip_last_slash (s : string) : string :=
  let len := String.length s in
  if (2 <=? len)%nat && bool_decide (String.get (len - 1) s = Some "/"%char) then String.substring 0 (len - 1) s else s.

(** The directory ([None] is NULL) and the base name; [None] is -1. *)
Definition split_path (path : string) : option (option string * string) :=
  if (String.length path =? 0)%nat then None
  else
    let buf := strip_last_slash path in
    Some (match strrchr_slash buf with
          | Some (EmptyString, rest) => (Some "/", str_drop 1 rest)
          | Some (dir, rest) => (Some dir, str_drop 1 rest)
          | None => (None, buf)
          end).

Lemma strip_last_slash_id s c : c <> "/"%char -> strip_last_slash (s +:+ String c "") = s +:+ String c "".
Proof.
  intros Hc. unfold strip_last_slash. rewrite str_length_app. cbn [String.length]. rewrite Nat.add_sub, str_get_last.
  rewrite (bool_decide_eq_false_2 (Some c = _)) by congruence. by rewrite andb_false_r.
Qed.
Lemma strip_last_slash_slash s : s <> "" -> strip_last_slash (s +:+ String "/" "") = s.
Proof.
  intros Hs. unfold strip_last_slash. rewrite str_length_app. cbn [String.length]. rewrite Nat.add_sub, str_get_last, str_substring_all.
  rewrite bool_decide_eq_true_2 by done. destruct s as [|c s]; [done|]. cbn [String.length].
  destruct (Nat.leb_spec 2 (S (String.length s) + 1)); [done|lia].
Qed.
Lemma str_snoc s : s <> "" -> exists t c, s = t +:+ String c "".
Proof.
  induction s as [|c s IH]; [done|]. intros _. destruct s as [|d s]; [by exists "", c|].
  destruct IH as (t & e & E); [done|]. exists (String c t), e. by rewrite E.
Qed.
End Copy.

(** * Properties *)

(** glob runs the command once for every combination of the expansions of its arguments,
    the last varying fastest, whatever the commands do, and fails when one of them has failed.
    *)
Theorem glob_runs_product {S} (issue : string -> list string -> bool -> M S Z) (api : glob_api)
    (cmd : string) (args : list string) (globs : list (list string)) (s : S) :
  mapM (expand_arg api) args = Some globs ->
  run_glob issue api (cmd :: args) s = issue_all issue cmd (cartesian globs) 0 s.
Proof.
  intros E. unfold run_glob. rewrite E.
  assert (Forall (fun g => g <> []) globs) as Hne.
  { apply mapM_Some_1 in E. clear -E. induction E as [|a g args globs Hg _ IH]; constructor; [|done].
    by apply expand_arg_nonempty in Hg. }
  rewrite glob_issue_from; [by rewrite from_posn_zero| |by rewrite from_posn_zero, cartesian_length].
  clear -Hne. induction Hne as [|g globs Hg _ IH]; constructor; [|done]. destruct g; [done|cbn; lia].
Qed.

Definition ex_glob_api : glob_api :=
  mk_glob_api (fun p => if STREQ p "/s*" then Some ["/sbin"; "/srv"] else Some []) (Some ["/dev/sda"]) (Some ["/dev/sda1"])
    (Some []) false None (fun _ _ => Some true).
Definition ex_issue (cmd : string) (argv : list string) (e : bool) : M (list (list string)) Z :=
  fun l => (Ret 0%Z, l ++ [cmd :: argv]).
Lemma glob_runs_product_witness :
  run_glob ex_issue ex_glob_api ["ls"; "/s*"; "/dev/*"] [] =
  (Ret 0%Z, [["ls"; "/sbin"; "/dev/sda"]; ["ls"; "/sbin"; "/dev/sda1"];
             ["ls"; "/srv"; "/dev/sda"]; ["ls"; "/srv"; "/dev/sda1"]]).
Proof.
  rewrite (glob_runs_product ex_issue ex_glob_api "ls" ["/s*"; "/dev/*"] [["/sbin"; "/srv"]; ["/dev/sda"; "/dev/sda1"]] []);
    reflexivity.
Defined.

(** The commands on the command line of guestfish run in order, each one up to the next colon; a
    failure stops the program unless the command begins with a dash. *)
Theorem cmdline_runs_groups {S} (issue : string -> list string -> bool -> M S Z) (argv : list string) (s : S) :
  cmdline issue (length argv) argv s = run_groups issue (split_colon argv) s.
Proof. by apply cmdline_groups. Qed.

(** query_get finds the value of the first parameter with the name in a query of name=value
    pairs joined by one separator, ampersand or semicolon. *)
Theorem query_get_first (unescape : string -> option string) (u : Uri.xmlURI) (sep : ascii)
    (ps : list (string * string)) (search : string) :
  (sep = "&" \/ sep = ";")%char -> Forall Uri.pair_ok ps -> Uri.x_query_raw u = Some (Uri.query_string sep ps) ->
  Uri.query_get unescape u search = Uri.first_value unescape ps search.
Proof. intros Hs Hp Hq. unfold Uri.query_get. rewrite Hq. by apply Uri.query_loop_pairs. Qed.

Lemma query_get_first_witness :
  Uri.query_get Some (Uri.mk_xmlURI None None 0 None None (Some "a=1;socket=/s")) "socket" = Some "/s".
Proof.
  rewrite (query_get_first Some _ ";" [("a", "1"); ("socket", "/s")]); [done|by right| |done].
  repeat constructor; done.
Defined.

(** The lines of a here document up to the line that is the end marker are the contents. *)
Theorem heredoc_contents (marker : string) (before after : list (list byte)) (last : list byte) :
  marker <> "" -> let m := bytes_of_string marker in
  Forall (fun l => LocalFile.is_end m l = false) before -> last = m \/ last = m ++ [x0a] ->
  LocalFile.file_in ("-<<" +:+ marker) (before ++ last :: after) = LocalFile.FileInHeredoc (concat before) after.
Proof.
  intros Hm m Hb Hl. unfold LocalFile.file_in.
  change (str_drop 3 ("-<<" +:+ marker)) with (str_drop 0 marker).
  assert (str_drop 0 marker = marker) as -> by (by destruct marker).
  assert (STRPREFIX ("-<<" +:+ marker) "-<<" = true) as -> by (by destruct marker).
  destruct marker as [|c marker]; [done|]. cbn [String.app]. unfold STREQ. rewrite bool_decide_eq_false_2 by done.
  rewrite LocalFile.heredoc_loop_spec; [done|done|]. unfold LocalFile.is_end. fold m.
  destruct Hl as [->| ->]; [by rewrite bool_decide_eq_true_2|]. rewrite (bool_decide_eq_true_2 (m ++ [x0a] = m ++ [x0a])) by done.
  by rewrite orb_true_r.
Qed.

Lemma heredoc_contents_witness :
  LocalFile.file_in "-<<END" [bytes_of_string ("a" +:+ newline); bytes_of_string ("END" +:+ newline)] =
  LocalFile.FileInHeredoc (bytes_of_string ("a" +:+ newline)) [].
Proof.
  apply (heredoc_contents "END" [bytes_of_string ("a" +:+ newline)] []); [done|by repeat constructor|by right].
Defined.

(** split_path gives the directory and the last component, with or without a slash at the end. *)
Theorem split_path_correct (dir base : string) : no_sep "/" base -> base <> "" ->
  forall path, (path = dir +:+ "/" +:+ base \/ path = dir +:+ "/" +:+ base +:+ "/") ->
  Copy.split_path path = Some (Some (if STREQ dir "" then "/" else dir), base).
Proof.
  intros Hb Hne path Hp. unfold Copy.split_path.
  assert (Copy.strip_last_slash path = dir +:+ String "/" base) as Es.
  { destruct (Copy.str_snoc base Hne) as (t & c & ->).
    assert (c <> "/"%char) as Hc. { apply no_sep_app in Hb as [_ Hb]. intros ->. done. }
    destruct Hp as [->| ->].
    - assert (dir +:+ "/" +:+ t +:+ String c "" = (dir +:+ String "/" t) +:+ String c "") as -> by by rewrite str_app_assoc.
      rewrite Copy.strip_last_slash_id by done. by rewrite str_app_assoc.
    - assert (dir +:+ "/" +:+ (t +:+ String c "") +:+ "/" = (dir +:+ String "/" (t +:+ String c "")) +:+ String "/" "") as ->
        by (rewrite (str_app_assoc dir); reflexivity).
      apply Copy.strip_last_slash_slash. by destruct dir. }
  assert (String.length path <> 0) as Hl by (destruct Hp as [->| ->]; rewrite !str_length_app; cbn; lia).
  destruct (Nat.eqb_spec (String.length path) 0); [done|]. rewrite Es, strrchr_slash_app by done.
  destruct dir as [|c dir]; cbn; [by destruct base|]. by destruct base.
Qed.

Lemma split_path_correct_witness : Copy.split_path "/usr/share/" = Some (Some "/usr", "share").
Proof. apply (split_path_correct "/usr" "share"); [done|done|by right]. Defined.
