(* ===== verification/Procs.v ===== *)
(** The procedures of the daemon (daemon/*.c): the state they share, running
    external programs, error replies, sscanf, and the
    logic used to prove that a procedure replies exactly once when it fails.
    It also holds the helpers other procedures call: is_device_mounted
    (daemon/mount.c), wipe_device_before_mkfs (daemon/zero.c) and
    call_blockdev (daemon/blockdev.c). *)

From S2P Require Import Prelude Xdr Handle Utils Events Conn Command Guestfsd.
From Stdlib Require Import Ascii.

Open Scope Z_scope.

#[local] Arguments String.append : simpl nomatch.

(** * The state of a procedure *)

(** What a procedure does to the outside, oldest first. *)
Inductive action :=
  | Settle                                        (* udev_settle *)
  | Ran (flags : Z) (argv : list string)          (* a program was run *)
  | System (cmd : string)                         (* system (3) *)
  | Called (f : string) (args : list string)      (* a system call or library function with an effect *)
  | Wrote (path : string) (off : Z) (data : list byte)   (* bytes were written to a file or device *)
  | Replied (errnum : Z) (msg : string).          (* an error reply was sent *)

#[export] Instance action_eq_dec : EqDecision action.
Proof. solve_decision. Defined.

(** The outside as the procedure sees it: what a program does, what the file
    system holds, given everything that was done before. *)
Record denv := mk_denv {
  ev_exec : list action -> list string -> cmd_world;
  ev_system : list action -> string -> Z + Z;          (* errno, or the status *)
  ev_call : list action -> string -> list string -> option Z;  (* errno when it fails *)
  ev_fs : list action -> dev_fs;
  ev_mounts : list action -> option (list (string * string));  (* mnt_fsname, mnt_dir; None: setmntent fails *)
  ev_errno : list action -> string -> Z;               (* errno after a failed call *)
  ev_strerror : Z -> string;
  ev_sysroot : string
}.

(** [ps_static] holds the function-static variables, -1 until assigned. *)
Record pstate := mk_pstate {
  ps_log : list action;
  ps_static : gmap string Z
}.
#[export] Instance ps_log_Field : Field ps_log := fun f r => mk_pstate (f (ps_log r)) (ps_static r).
#[export] Instance ps_static_Field : Field ps_static := fun f r => mk_pstate (ps_log r) (f (ps_static r)).

Definition proc := M pstate.

Definition log (a : action) : proc unit := modify (fun s => s <| ps_log ::= (fun l => l ++ [a]) |>).
Definition get_static (name : string) : proc Z := gets (fun s => default (-1)%Z (ps_static s !! name)).
Definition set_static (name : string) (v : Z) : proc unit :=
  modify (fun s => s <| ps_static ::= <[name := v]> |>).

Definition reply_with_error (msg : string) : proc unit := log (Replied 0 msg).
Definition fail {A} (msg : string) (r : A) : proc A := reply_with_error msg ;;; ret r.

(** snprintf into a buffer of [size] bytes, and %s of a pointer that may be NULL. *)
Definition snprintf (size : nat) (s : string) : string := String.substring 0 (size - 1) s.
Definition fmt_s (s : option string) : string := default "(null)" s.
(** What a buffer of bytes is as a C string. *)
Definition cstr (bs : list byte) : string := string_of_bytes (until_nul bs).

(** Whether [pat] occurs in [s]. *)
Definition strstr (s pat : string) : bool := match String.index 0 pat s with Some _ => true | None => false end.
(** %x of an unsigned number. *)
Definition hex_char (d : Z) : ascii := ascii_of_N (Z.to_N (if d <? 10 then d + 48 else d + 87)).
Fixpoint hex_fuel (fuel : nat) (z : Z) (acc : string) : string :=
  let acc := String (hex_char (z mod 16)) acc in
  match fuel with
  | S fuel' => if z <? 16 then acc else hex_fuel fuel' (z / 16) acc
  | O => acc
  end.
Definition hex (z : Z) : string := hex_fuel 16 z "".

Section procs.
Context (E : denv).

Definition udev_settle : proc unit := log Settle.
Definition sysroot : string := ev_sysroot E.

Definition errno (call : string) : proc Z := gets (fun s => ev_errno E (ps_log s) call).
Definition reply_with_perror (call msg : string) : proc unit :=
  e <- errno call ;;
  log (Replied e (msg +:+ ": " +:+ ev_strerror E e)).
Definition pfail {A} (call msg : string) (r : A) : proc A := reply_with_perror call msg ;;; ret r.

(** A system call with an effect; [sys_or] is its commonest use. *)
Definition sys (f : string) (args : list string) : proc (option Z) := fun s =>
  (Ret (ev_call E (ps_log s) f args), s <| ps_log ::= (fun l => l ++ [Called f args]) |>).
Definition perror {A} (e : Z) (msg : string) (r : A) : proc A :=
  log (Replied e (msg +:+ ": " +:+ ev_strerror E e)) ;;; ret r.
Definition sys_or (f : string) (args : list string) (msg : string) : proc Z :=
  e <- sys f args ;;
  match e with Some e => perror e msg (-1)%Z | None => ret 0%Z end.

(** commandrvf and commandvf on the process that [argv] starts; the two
    buffers as C strings. *)
Definition run_with (f : bool -> bool -> Z -> cmd_world -> outcome cmd_result)
    (want_out want_err : bool) (flags : Z) (argv : list string) :
    proc (Z * option string * option string) := fun s =>
  let s' := s <| ps_log ::= (fun l => l ++ [Ran flags argv]) |> in
  match f want_out want_err flags (ev_exec E (ps_log s) argv) with
  | Ret (r, out, err) => (Ret (r, cstr <$> out, cstr <$> err), s')
  | Stop why => (Stop why, s')
  end.

(** Collecting the arguments and running them. *)
Definition commandf := run_with commandvf.
Definition commandrf := run_with commandrvf.
Definition command_out (argv : list string) := commandf true true 0 argv.
Definition command_err (argv : list string) : proc (Z * option string) :=
  let* (r, _, err) := commandf false true 0 argv in ret (r, err).
Definition command_fold (argv : list string) : proc (Z * option string) :=
  let* (r, _, err) := commandf false true COMMAND_FLAG_FOLD_STDOUT_ON_STDERR argv in ret (r, err).
Definition commandr_out (argv : list string) := commandrf true true 0 argv.
Definition commandr_err (argv : list string) : proc (Z * option string) :=
  let* (r, _, err) := commandrf false true 0 argv in ret (r, err).

(** The commonest shape: run a program; when it fails, reply with a message
    made from its stderr. *)
Definition run_or (run : proc (Z * option string)) (msg : string -> string) : proc Z :=
  let* (r, err) := run in
  if (r =? -1)%Z then fail (msg (fmt_s err)) (-1)%Z else ret 0%Z.

(** * Mounts (daemon/mount.c) *)

(** Mounted on or under the sysroot. *)
Definition under_sysroot (mnt_dir : string) : bool :=
  ((0 <? String.length sysroot)%nat && STREQ mnt_dir sysroot) ||
  (STRPREFIX mnt_dir sysroot && STRPREFIX (str_drop (String.length sysroot) mnt_dir) "/").

Definition is_root_mounted : proc Z := fun s =>
  match ev_mounts E (ps_log s) with
  | None => (Stop Exited, s)
  | Some ms => (Ret (bool_int (existsb (fun m => under_sysroot (snd m)) ms)), s)
  end.

Definition is_device_mounted (device : string) : proc Z := fun s =>
  let fs := ev_fs E (ps_log s) in
  match fs_stat fs device with
  | None => pfail "stat" ("stat: " +:+ device) (-1)%Z s
  | Some stat1 =>
      match ev_mounts E (ps_log s) with
      | None => (Stop Exited, s)
      | Some ms =>
          (Ret (bool_int (existsb (fun m => under_sysroot (snd m) &&
                  match fs_stat fs (fst m) with
                  | Some stat2 => (snd stat1 =? snd stat2)%Z
                  | None => false
                  end) ms)), s)
      end
  end.

(** The macros of daemon.h, called by the function [func]. *)
Definition NEED_ROOT (func : string) : proc bool :=
  r <- is_root_mounted ;;
  if (r =? 0)%Z then fail (func +:+ ": you must call 'mount' first to mount the root filesystem") false else ret true.
Definition starts_with (c : ascii) (path : string) : bool :=
  match path with String c' _ => Ascii.eqb c' c | EmptyString => false end.
Definition ABS_PATH (func path : string) : proc bool :=
  if negb (starts_with "/" path) then fail (func +:+ ": path must start with a / character") false else ret true.

(** * Wiping before mkfs (daemon/zero.c) *)

Definition wipefs_has_force_option : proc Z :=
  flag <- get_static "wipefs_has_force_option.flag" ;;
  if (flag =? -1)%Z then
    let* (r, out, err) := command_out ["wipefs"; "--help"] in
    if (r =? -1)%Z then fail (fmt_s err) (-1)%Z
    else
      let flag := bool_int (strstr (default "" out) "--force") in
      set_static "wipefs_has_force_option.flag" flag ;;; ret flag
  else ret flag.

Definition wipefs_argv (force : Z) (device : string) : list string :=
  ["wipefs"; "-a"] ++ (if is_true force then ["--force"] else []) ++ [device].

Definition do_wipefs (device : string) : proc Z :=
  force <- wipefs_has_force_option ;;
  if (force =? -1)%Z then ret (-1)%Z
  else run_or (command_err (wipefs_argv force device)) (fun err => err).

Definition wipe_device_before_mkfs (device : string) : proc unit :=
  force <- wipefs_has_force_option ;;
  if (force =? -1)%Z then ret tt
  else commandf false false 0 (wipefs_argv force device) ;;; ret tt.
End procs.

(** * sscanf (3)

    A format is a list of directives; the result is the list of the values
    converted before the first failure, so its length is what sscanf returns
    (an end of input before the first conversion gives EOF, which the code
    never distinguishes from a number that is too small). *)

Inductive directive :=
  | Lit (c : ascii)          (* an ordinary character *)
  | White                    (* white space *)
  | Conv (base : Z) (store : Z -> Z).  (* an integer conversion and the width it is stored at *)

Definition digit_of (base : Z) (c : ascii) : option Z :=
  let d := if c_isdigit c then code c - 48
           else if in_range c 97 102 then code c - 87
           else if in_range c 65 70 then code c - 55 else 99 in
  if d <? base then Some d else None.

(** The digits at the start: value, how many, the rest. *)
Fixpoint scan_digits (base : Z) (s : string) (acc : Z) (n : nat) : Z * nat * string :=
  match s with
  | String c s' =>
      match digit_of base c with
      | Some d => scan_digits base s' (acc * base + d) (S n)
      | None => (acc, n, s)
      end
  | EmptyString => (acc, n, s)
  end.

(** Base 0 stands for %i: a leading 0x or 0 selects the base. *)
Definition scan_number (base : Z) (s : string) : option (Z * string) :=
  let s := skip_spaces s in
  let '(neg, s) := match s with
                   | String "-" s' => (true, s')
                   | String "+" s' => (false, s')
                   | _ => (false, s)
                   end in
  let '(base, zero, s) :=
    match s with
    | String "0" (String c s') =>
        if (Ascii.eqb c "x" || Ascii.eqb c "X") && ((base =? 0) || (base =? 16)) then (16, 1%nat, s')
        else (if base =? 0 then 8 else base, 1%nat, String c s')
    | String "0" EmptyString => (if base =? 0 then 8 else base, 1%nat, "")
    | _ => (if base =? 0 then 10 else base, O, s)
    end in
  let '(v, n, rest) := scan_digits base s 0 zero in
  if (n =? 0)%nat then None else Some (if neg : bool then - v else v, rest).

Definition s64 (z : Z) : Z :=
  (let w := z mod 2 ^ 64 in if w <? 2 ^ 63 then w else w - 2 ^ 64)%Z.
Lemma s64_id z : (- 2 ^ 63 <= z < 2 ^ 63)%Z -> s64 z = z.
Proof.
  intros H. unfold s64. destruct (Z_lt_dec z 0).
  - replace (z mod 2 ^ 64)%Z with (z + 2 ^ 64)%Z.
    + destruct (Z.ltb_spec (z + 2 ^ 64) (2 ^ 63)); lia.
    + apply Z.mod_unique with (-1)%Z; lia.
  - rewrite Z.mod_small by lia. destruct (Z.ltb_spec z (2 ^ 63)); lia.
Qed.

(** strtol and strtoul, which the conversions go through, clamp. *)
Definition store_int (v : Z) : Z := s32 (clamp_long v).
Definition store_int64 (v : Z) : Z := clamp_long v.
Definition store_uint64 (v : Z) : Z :=
  if Z.abs v <? 2 ^ 64 then s64 v else s64 (2 ^ 64 - 1).
(** %x into an int *)
Definition store_hex (v : Z) : Z := s32 (store_uint64 v).

Definition pct_d : directive := Conv 10 store_int.
Definition pct_i32 : directive := Conv 0 store_int.
Definition pct_i64 : directive := Conv 0 store_int64.
Definition pct_u64 : directive := Conv 10 store_uint64.
Definition pct_x : directive := Conv 16 store_hex.

Fixpoint sscanf (s : string) (fmt : list directive) : list Z :=
  match fmt with
  | [] => []
  | White :: fmt' => sscanf (skip_spaces s) fmt'
  | Lit c :: fmt' =>
      match s with
      | String d s' => if Ascii.eqb c d then sscanf s' fmt' else []
      | EmptyString => []
      end
  | Conv base store :: fmt' =>
      match scan_number base s with
      | Some (v, rest) => store v :: sscanf rest fmt'
      | None => []
      end
  end.

(** ** Block devices (daemon/blockdev.c) *)

Section blockdev.
Context (E : denv).

Definition call_blockdev (device switc : string) (extraarg : Z) (prints : bool) : proc Z :=
  udev_settle ;;;
  let argv := "blockdev" :: switc ::
    (if 0 <? extraarg then [snprintf 64 (pretty extraarg); device] else [device]) in
  let* (r, out, err) := command_out E argv in
  if r =? -1 then fail ("blockdev: " +:+ fmt_s err) (-1)
  else if prints then
    match sscanf (default "" out) [pct_i64] with
    | [rv] => ret rv
    | _ => fail "blockdev: expected output, but got nothing" (-1)
    end
  else ret 0.

Definition blockdev_int (device switc : string) (prints : bool) : proc Z :=
  r <- call_blockdev device switc 0 prints ;; ret (s32 r).
Definition do_blockdev_setro (device : string) := blockdev_int device "--setro" false.
Definition do_blockdev_setrw (device : string) := blockdev_int device "--setrw" false.
Definition do_blockdev_getro (device : string) := blockdev_int device "--getro" true.
Definition do_blockdev_getss (device : string) := blockdev_int device "--getss" true.
Definition do_blockdev_getbsz (device : string) := blockdev_int device "--getbsz" true.
Definition do_blockdev_setbsz (device : string) (blocksize : Z) : proc Z := ret 0.
Definition do_blockdev_getsz (device : string) := call_blockdev device "--getsz" 0 true.
Definition do_blockdev_getsize64 (device : string) := call_blockdev device "--getsize64" 0 true.
Definition do_blockdev_flushbufs (device : string) := blockdev_int device "--flushbufs" false.
Definition do_blockdev_rereadpt (device : string) := blockdev_int device "--rereadpt" false.
End blockdev.

Lemma snprintf_id size s : (String.length s < size)%nat -> snprintf size s = s.
Proof.
  intros H. unfold snprintf. assert (forall t n, (String.length t <= n)%nat -> String.substring 0 n t = t) as Hs.
  { clear. induction t as [|c t IH]; intros [|n] Hn; cbn in *; try done; [lia|]. by rewrite IH by lia. }
  apply Hs. lia.
Qed.

(** * Counting replies

    A procedure that fails must have sent one error reply, because its stub
    then sends nothing; one that succeeds must have sent none, because the
    stub sends the result.  [emits ub m Q]: [m] returns, and [Q] holds of its
    result and of the number of error replies it sent; only when [ub] is set
    may it instead make an access that is undefined. *)

Definition is_reply (a : action) : bool := match a with Replied _ _ => true | _ => false end.
Definition replies (l : list action) : nat := length (List.filter is_reply l).

Lemma replies_app l k : replies (l ++ k) = (replies l + replies k)%nat.
Proof. unfold replies. by rewrite List.filter_app, length_app. Qed.

Definition emits {A} (ub : bool) (m : proc A) (Q : A -> nat -> Prop) : Prop :=
  forall s, exists r s' new, m s = (r, s') /\ ps_log s' = ps_log s ++ new /\
    match r with
    | Ret a => Q a (replies new)
    | Stop w => ub = true /\ w = Undefined
    end.

Definition quiet {A} (m : proc A) : Prop := forall ub, emits ub m (fun _ n => n = 0%nat).
Definition one_reply {A} (ub : bool) (failed : A -> bool) (m : proc A) : Prop :=
  emits ub m (fun a n => n = if failed a then 1%nat else 0%nat).

(** How functions of type int and of pointer type say that they failed. *)
Definition int_failed (r : Z) : bool := r =? -1.
Definition false_failed (b : bool) : bool := negb b.
Definition ptr_failed {A} (r : option A) : bool := match r with None => true | Some _ => false end.

(** Programs can be started, and /proc/mounts can be read. *)
Class Starts (E : denv) : Prop := {
  starts_pipe : forall h argv, cw_pipe_ok (ev_exec E h argv) = true;
  starts_fork : forall h argv, cw_fork_ok (ev_exec E h argv) = true;
  starts_mounts : forall h, is_Some (ev_mounts E h)
}.

Section logic.
Context {A B : Type} (ub : bool).
Implicit Types (Q : A -> nat -> Prop) (R : B -> nat -> Prop).

Lemma emits_ret (a : A) Q : Q a 0%nat -> emits ub (ret a) Q.
Proof. intros H s. exists (Ret a), s, []. by rewrite app_nil_r. Qed.
Lemma emits_undefined Q : ub = true -> emits ub (halt Undefined) Q.
Proof. intros H s. exists (Stop Undefined), s, []. by rewrite app_nil_r. Qed.
Lemma emits_bind (m : proc A) (f : A -> proc B) Q R :
  emits ub m Q -> (forall a n, Q a n -> emits ub (f a) (fun b k => R b (n + k)%nat)) -> emits ub (bind m f) R.
Proof.
  intros Hm Hf s. destruct (Hm s) as (r & s1 & new1 & E1 & L1 & H1). destruct r as [a|w].
  - destruct (Hf a _ H1 s1) as (b & s2 & new2 & E2 & L2 & H2). exists b, s2, (new1 ++ new2).
    rewrite (bind_Ret _ _ _ _ _ E1), E2, L2, L1, app_assoc. split_and!; [done..|].
    destruct b; [by rewrite replies_app|done].
  - exists (Stop w), s1, new1. by rewrite (bind_Stop _ _ _ _ _ E1).
Qed.
Lemma emits_conseq (m : proc A) Q Q' : emits ub m Q -> (forall a n, Q a n -> Q' a n) -> emits ub m Q'.
Proof. intros Hm H s. destruct (Hm s) as (r & s1 & new & E1 & L1 & H1). exists r, s1, new. destruct r; auto. Qed.
(** After something that never replies. *)
Lemma emits_quiet (m : proc A) (f : A -> proc B) R :
  quiet m -> (forall a, emits ub (f a) R) -> emits ub (bind m f) R.
Proof. intros Hm Hf. eapply emits_bind; [exact (Hm ub)|]. intros a n ->. apply Hf. Qed.
(** After a procedure that replies exactly when it fails. *)
Lemma emits_call failed (m : proc A) (f : A -> proc B) R :
  one_reply ub failed m -> (forall a, failed a = true -> emits ub (f a) (fun b k => R b (S k))) ->
  (forall a, failed a = false -> emits ub (f a) R) -> emits ub (bind m f) R.
Proof.
  intros Hm H1 H0. eapply emits_bind; [exact Hm|]. intros a n ->.
  destruct (failed a) eqn:Ha; [by apply H1|by apply H0].
Qed.
Lemma emits_tail failed (m : proc A) Q :
  one_reply ub failed m -> (forall a, Q a (if failed a then 1%nat else 0%nat)) -> emits ub m Q.
Proof. intros Hm H. eapply emits_conseq; [exact Hm|]. intros a n ->. apply H. Qed.
Lemma emits_fail msg (r : A) Q : Q r 1%nat -> emits ub (fail msg r) Q.
Proof. intros H s. eexists (Ret r), _, [Replied 0 msg]. split; [reflexivity|]. done. Qed.
Lemma emits_perror E e msg (r : A) Q : Q r 1%nat -> emits ub (perror E e msg r) Q.
Proof. intros H s. eexists (Ret r), _, [Replied _ _]. split; [reflexivity|]. done. Qed.
Lemma emits_pfail E call msg (r : A) Q : Q r 1%nat -> emits ub (pfail E call msg r) Q.
Proof. intros H s. eexists (Ret r), _, [Replied _ _]. split; [reflexivity|]. done. Qed.
End logic.

Lemma emits_weaken {A} (m : proc A) Q ub : emits false m Q -> emits ub m Q.
Proof.
  intros Hm s. destruct (Hm s) as (r & s1 & new & E1 & L1 & H1). exists r, s1, new. destruct r; naive_solver.
Qed.
Lemma quiet_intro {A} (m : proc A) :
  (forall s, exists a s' new, m s = (Ret a, s') /\ ps_log s' = ps_log s ++ new /\ replies new = 0%nat) -> quiet m.
Proof. intros H ub s. destruct (H s) as (a & s' & new & E & L & R). by exists (Ret a), s', new. Qed.
Lemma quiet_bind {A B} (m : proc A) (f : A -> proc B) : quiet m -> (forall a, quiet (f a)) -> quiet (bind m f).
Proof. intros Hm Hf ub. apply emits_quiet; [done|]. intros a. apply Hf. Qed.
Lemma quiet_ret {A} (a : A) : quiet (ret a).
Proof. intros ub. by apply emits_ret. Qed.
Lemma quiet_log a : is_reply a = false -> quiet (log a).
Proof. intros H. apply quiet_intro. intros s. eexists tt, _, [a]. split; [reflexivity|]. unfold replies. cbn. by rewrite H. Qed.
Lemma quiet_settle : quiet udev_settle.
Proof. by apply quiet_log. Qed.
Lemma quiet_get_static x : quiet (get_static x).
Proof. apply quiet_intro. intros s. eexists _, s, []. by rewrite app_nil_r. Qed.
Lemma quiet_set_static x v : quiet (set_static x v).
Proof. apply quiet_intro. intros s. eexists tt, _, []. by rewrite app_nil_r. Qed.
Lemma quiet_gets {A} (f : pstate -> A) : quiet (gets f).
Proof. apply quiet_intro. intros s. eexists _, s, []. by rewrite app_nil_r. Qed.
Lemma quiet_sys E f args : quiet (sys E f args).
Proof. apply quiet_intro. intros s. by eexists _, _, [Called f args]. Qed.

(** ** Programs *)

Section programs.
Context (E : denv) `{!Starts E}.

Lemma commandrvf_returns want_out want_err flags (w : cmd_world) :
  cw_pipe_ok w = true -> cw_fork_ok w = true ->
  exists r out err, commandrvf want_out want_err flags w = Ret (r, out, err) /\ (want_err = true -> is_Some err).
Proof.
  intros Hp Hf. unfold commandrvf. rewrite Hp, Hf. cbn [negb].
  destruct (crv_loop_run _ (mk_crv true true [] [] (cw_select w) (cw_so w) (cw_se w)) (le_n _)) as (o & -> & _).
  destruct o as [c|]; [|eexists _, _, _; split; [reflexivity|by destruct want_err]].
  destruct (has_flag _ _ && _); [|destruct (cw_wait w)]; eexists _, _, _;
    (split; [reflexivity|by destruct want_err]).
Qed.
Lemma commandvf_returns want_out want_err flags (w : cmd_world) :
  cw_pipe_ok w = true -> cw_fork_ok w = true ->
  exists r out err, commandvf want_out want_err flags w = Ret (r, out, err) /\ (r = 0 \/ r = -1) /\ (want_err = true -> is_Some err).
Proof.
  intros Hp Hf. unfold commandvf.
  destruct (commandrvf_returns want_out want_err flags w Hp Hf) as (r & out & err & -> & He).
  eexists _, _, _. split; [reflexivity|]. split; [destruct (r =? 0); auto|done].
Qed.

Lemma quiet_run f want_out want_err flags argv :
  (forall w, cw_pipe_ok w = true -> cw_fork_ok w = true -> exists r, f want_out want_err flags w = Ret r) ->
  quiet (run_with E f want_out want_err flags argv).
Proof.
  intros H. apply quiet_intro. intros s. destruct (H (ev_exec E (ps_log s) argv) (starts_pipe _ _) (starts_fork _ _)) as [[[r out] err] Hr].
  unfold run_with. rewrite Hr. eexists _, _, [Ran flags argv]. done.
Qed.
Lemma quiet_commandf want_out want_err flags argv : quiet (commandf E want_out want_err flags argv).
Proof. apply quiet_run. intros w Hp Hf. destruct (commandvf_returns want_out want_err flags w Hp Hf) as (? & ? & ? & -> & _). eauto. Qed.
Lemma quiet_commandrf want_out want_err flags argv : quiet (commandrf E want_out want_err flags argv).
Proof. apply quiet_run. intros w Hp Hf. destruct (commandrvf_returns want_out want_err flags w Hp Hf) as (? & ? & ? & -> & _). eauto. Qed.
Lemma quiet_command_out argv : quiet (command_out E argv).
Proof. apply quiet_commandf. Qed.
Lemma quiet_commandr_out argv : quiet (commandr_out E argv).
Proof. apply quiet_commandrf. Qed.
Lemma quiet_command_err argv : quiet (command_err E argv).
Proof. apply quiet_bind; [apply quiet_commandf|]. intros [[r o] e]. apply quiet_ret. Qed.
Lemma quiet_command_fold argv : quiet (command_fold E argv).
Proof. apply quiet_bind; [apply quiet_commandf|]. intros [[r o] e]. apply quiet_ret. Qed.
Lemma quiet_commandr_err argv : quiet (commandr_err E argv).
Proof. apply quiet_bind; [apply quiet_commandrf|]. intros [[r o] e]. apply quiet_ret. Qed.
End programs.

#[export] Hint Resolve quiet_settle quiet_sys quiet_gets quiet_get_static quiet_set_static
  quiet_commandf quiet_commandrf quiet_command_out quiet_commandr_out quiet_command_err quiet_command_fold
  quiet_commandr_err : quiet.
#[export] Hint Extern 1 (quiet (log _)) => by apply quiet_log : quiet.

(** Procedures that other procedures call: resolved from [one_reply]. *)
Create HintDb one_reply.

(** One step of a proof that counts replies. *)
Ltac emits_step :=
  lazymatch goal with
  | |- forall _, _ => intros ?
  | |- emits _ (match ?x with _ => _ end) _ => destruct x eqn:?
  | |- emits _ (ret _) _ => apply emits_ret
  | |- emits _ (halt Undefined) _ => apply emits_undefined
  | |- emits _ (fail _ _) _ => apply emits_fail
  | |- emits _ (pfail _ _ _ _) _ => apply emits_pfail
  | |- emits _ (perror _ _ _ _) _ => apply emits_perror
  | |- emits _ (bind (fail _ _) _) _ => eapply emits_bind; [by apply (emits_fail _ _ _ (fun _ n => n = 1%nat))|intros ? ? ->]
  | |- emits _ (bind _ _) _ =>
      first [ eapply emits_quiet; [solve [eauto with quiet]|]
            | eapply emits_call; [solve [eauto with one_reply]| |] ]
  | |- emits _ _ _ => eapply emits_tail; [solve [eauto with one_reply]|]
  end.
Ltac emits_prune :=
  repeat match goal with
  | H : ptr_failed (Some _) = true |- _ => discriminate H
  | H : ptr_failed None = false |- _ => discriminate H
  | H : false_failed ?b = true |- _ => apply negb_true_iff in H; subst b
  | H : false_failed ?b = false |- _ => apply negb_false_iff in H; subst b
  | H : int_failed ?r = _ |- _ => change ((r =? -1) = _) in H
  | H : (?r =? -1) = ?b, H' : (?r =? -1) = ?c |- _ => first [constr_eq b c; clear H' | rewrite H in H'; discriminate H']
  end.
Ltac emits_done :=
  repeat match goal with
  | H : ptr_failed ?x = _ |- _ => is_var x; destruct x
  end; emits_prune;
  unfold int_failed, ptr_failed in *;
  repeat match goal with
  | H : (?a =? ?b) = _ |- context [?a =? ?b] => rewrite H
  end;
  repeat match goal with
  | H : (_ =? _) = true |- _ => apply Z.eqb_eq in H
  | H : (_ =? _) = false |- _ => apply Z.eqb_neq in H
  end; subst; cbn in *; try done; try congruence; try lia; try (by repeat case_match; (done || lia));
  try match goal with |- context [bool_int ?b] => by destruct b end.
Ltac emits := unfold one_reply; repeat (emits_step; cbn beta iota; emits_prune); emits_done.

(** ** The shared helpers *)

Section helpers.
Context (E : denv) `{!Starts E}.

Lemma run_or_one_reply ub run msg : quiet run -> one_reply ub int_failed (run_or run msg).
Proof. intros H. unfold run_or. eapply emits_quiet; [exact H|]. intros [r err]. emits. Qed.
Lemma sys_or_one_reply ub f args msg : one_reply ub int_failed (sys_or E f args msg).
Proof. unfold sys_or. emits. Qed.
Lemma is_device_mounted_one_reply ub device : one_reply ub int_failed (is_device_mounted E device).
Proof.
  intros s. unfold is_device_mounted. destruct (fs_stat _ _); [|by eapply (emits_pfail _ _ _ _ _ (fun a n => n = if int_failed a then 1%nat else 0%nat))].
  destruct (starts_mounts (E := E) (ps_log s)) as [ms ->]. eexists (Ret _), s, [].
  rewrite app_nil_r. split_and!; [done..|]. by destruct (existsb _ _).
Qed.
Lemma quiet_is_root_mounted : quiet (is_root_mounted E).
Proof.
  apply quiet_intro. intros s. unfold is_root_mounted. destruct (starts_mounts (E := E) (ps_log s)) as [ms ->].
  eexists _, s, []. by rewrite app_nil_r.
Qed.
Lemma NEED_ROOT_one_reply ub func : one_reply ub false_failed (NEED_ROOT E func).
Proof. unfold NEED_ROOT. eapply emits_quiet; [apply quiet_is_root_mounted|]. emits. Qed.
Lemma ABS_PATH_one_reply ub func path : one_reply ub false_failed (ABS_PATH func path).
Proof. unfold ABS_PATH. emits. Qed.
Lemma wipefs_has_force_option_one_reply ub : one_reply ub int_failed (wipefs_has_force_option E).
Proof. unfold wipefs_has_force_option. emits. Qed.
Lemma do_wipefs_one_reply ub device : one_reply ub int_failed (do_wipefs E device).
Proof.
  unfold do_wipefs. eapply emits_call; [apply wipefs_has_force_option_one_reply|emits|].
  intros a Ha. destruct (a =? -1) eqn:Ea; [emits|]. apply run_or_one_reply. auto with quiet.
Qed.

(** call_blockdev never replies twice, and replies only when it fails; but it
    also returns -1, without a reply, when that is what blockdev printed. *)
Definition reply_fails (r : Z) (n : nat) : Prop := (n <= 1)%nat /\ (n = 1%nat -> r = -1).
Lemma call_blockdev_replies ub device switc extraarg prints :
  emits ub (call_blockdev E device switc extraarg prints) reply_fails.
Proof. unfold call_blockdev, reply_fails. emits. Qed.
Lemma call_blockdev_no_print ub device switc extraarg :
  one_reply ub int_failed (call_blockdev E device switc extraarg false).
Proof. unfold call_blockdev. emits. Qed.
Lemma blockdev_int_replies ub device switc prints : emits ub (blockdev_int E device switc prints) reply_fails.
Proof.
  eapply emits_bind; [apply call_blockdev_replies|]. intros a n [H1 H2]. apply emits_ret.
  rewrite Nat.add_0_r. split; [done|]. intros Hn. by rewrite (H2 Hn).
Qed.
End helpers.
#[export] Hint Resolve run_or_one_reply sys_or_one_reply is_device_mounted_one_reply wipefs_has_force_option_one_reply
  do_wipefs_one_reply NEED_ROOT_one_reply ABS_PATH_one_reply : one_reply.
#[export] Hint Resolve quiet_is_root_mounted : quiet.
#[export] Hint Extern 2 (quiet _) => solve [eauto with quiet] : one_reply.

(** ** What a program prints *)

(** [w] is a process that starts, prints [out] (text without a zero byte) and
    exits with status 0; nothing that happens to the pipes is an error. *)
Definition prints (w : cmd_world) (out : string) : Prop :=
  cw_pipe_ok w = true /\ cw_fork_ok w = true /\
  crv_clean (mk_crv true true [] [] (cw_select w) (cw_so w) (cw_se w)) /\
  script_data (cw_so w) = bytes_of_string out /\ no_byte x00 (bytes_of_string out) /\ cw_wait w = Some 0.

Lemma until_nul_id bs : no_byte x00 bs -> until_nul bs = bs.
Proof.
  induction 1 as [|b bs Hb _ IH]; [done|]. cbn. destruct (Byte.eqb b x00) eqn:Eb.
  - by apply Byte.byte_dec_bl in Eb.
  - by rewrite IH.
Qed.
Lemma commandf_prints_gen E want_out want_err flags argv out s : prints (ev_exec E (ps_log s) argv) out ->
  has_flag flags COMMAND_FLAG_CHROOT_COPY_FILE_TO_STDIN = false ->
  exists err, commandf E want_out want_err flags argv s =
    (Ret (0, if want_out then Some out else None, err), s <| ps_log ::= (fun l => l ++ [Ran flags argv]) |>).
Proof.
  intros (Hp & Hf & Hc & Hd & Hn & Hw) Hfl. unfold commandf, run_with, commandvf, commandrvf.
  rewrite Hp, Hf, Hfl, Hw. cbn [negb andb].
  destruct (crv_loop_run _ _ (le_n (crv_measure (mk_crv true true [] [] (cw_select (ev_exec E (ps_log s) argv))
    (cw_so (ev_exec E (ps_log s) argv)) (cw_se (ev_exec E (ps_log s) argv)))))) as (o & -> & Ho).
  destruct (Ho Hc) as (c & -> & Hc'). unfold crv_total in Hc'. cbn in Hc'. injection Hc' as Hout _.
  eexists. destruct want_out; [|reflexivity]. cbn. unfold cstr.
  by rewrite Hout, Hd, until_nul_id, string_of_bytes_of_string by done.
Qed.
Lemma commandf_prints E want_err flags argv out s : prints (ev_exec E (ps_log s) argv) out ->
  has_flag flags COMMAND_FLAG_CHROOT_COPY_FILE_TO_STDIN = false ->
  exists err, commandf E true want_err flags argv s = (Ret (0, Some out, err), s <| ps_log ::= (fun l => l ++ [Ran flags argv]) |>).
Proof. apply (commandf_prints_gen E true). Qed.
(** A program that succeeds. *)
Lemma run_or_prints E argv msg out s : prints (ev_exec E (ps_log s) argv) out ->
  run_or (command_err E argv) msg s = (Ret 0, s <| ps_log ::= (fun l => l ++ [Ran 0 argv]) |>).
Proof.
  intros H. destruct (commandf_prints_gen E false true 0 argv out s H eq_refl) as [err Hc].
  unfold run_or, command_err, bind. by rewrite Hc.
Qed.

(** A process that prints [out] in one piece and exits with status 0. *)
Definition printing (out : string) : cmd_world :=
  mk_cmd_world true true [] [RdData (bytes_of_string out)] [] true (Some 0).
Lemma printing_prints out :
  forallb (fun b => negb (Byte.eqb b x00)) (bytes_of_string out) = true -> prints (printing out) out.
Proof.
  intros H. split_and!; try done; cbn.
  - unfold crv_clean. cbn. split_and!; [|done|constructor]. intros _. by destruct (bytes_of_string out).
  - destruct (bytes_of_string out); [done|]. cbn. by rewrite app_nil_r.
  - apply List.Forall_forall. intros b Hb. rewrite forallb_forall in H. specialize (H b Hb).
    by intros ->.
Qed.

Lemma split_lines_unlines ls : Forall (no_sep nl_char) ls -> split_lines (str_unlines ls) = ls.
Proof.
  intros H. unfold split_lines. unfold STREQ. case_bool_decide as E.
  - destruct ls as [|l ls]; [done|]. cbn in E. by destruct l.
  - pose proof (split_lines_loop_unlines ls (String.length (str_unlines ls)) "" H eq_refl) as Hs.
    rewrite str_app_nil_r in Hs. rewrite Hs by done. by rewrite app_nil_r.
Qed.
(** ** Scanning numbers *)

Lemma digit_of_10 c : digit_of 10 c = if c_isdigit c then Some (code c - 48) else None.
Proof.
  unfold digit_of, c_isdigit, in_range. destruct ((48 <=? code c) && (code c <=? 57)) eqn:E1.
  - destruct (Z.ltb_spec (code c - 48) 10); [done|lia].
  - destruct ((97 <=? code c) && (code c <=? 102)) eqn:E2; [destruct (Z.ltb_spec (code c - 87) 10); [lia|done]|].
    destruct ((65 <=? code c) && (code c <=? 70)) eqn:E3; [destruct (Z.ltb_spec (code c - 55) 10); [lia|done]|done].
Qed.
(** [rest] does not go on with a digit. *)
Definition ends_number (rest : string) : Prop := forall c r, rest = String c r -> c_isdigit c = false.
Lemma scan_digits_10 ds rest : str_forallb c_isdigit ds = true -> ends_number rest -> forall acc n,
  scan_digits 10 (ds +:+ rest) acc n = (fst (read_digits ds acc n), (n + String.length ds)%nat, rest).
Proof.
  intros Hd Hr. induction ds as [|c ds IH]; intros acc n; cbn in Hd.
  - cbn [String.append String.length read_digits fst]. rewrite Nat.add_0_r. destruct rest as [|c r]; [done|].
    cbn [scan_digits]. by rewrite digit_of_10, (Hr c r eq_refl).
  - apply andb_prop in Hd as [Hc Hd]. rewrite str_app_cons. cbn [scan_digits read_digits String.length].
    rewrite digit_of_10, Hc, IH by done. f_equal. f_equal. lia.
Qed.
Lemma pretty_go_head x : forall s, (0 < x)%N -> exists c t, pretty_N_go x s = String c t /\ c <> "0"%char.
Proof.
  induction (N.lt_wf_0 x) as [x _ IH]; intros s Hx. rewrite pretty_N_go_step by lia.
  destruct (decide (x / 10 = 0)%N) as [E0|E0].
  - rewrite E0, pretty_N_go_0. eexists _, _. split; [reflexivity|].
    apply N.div_small_iff in E0; [|done]. rewrite N.mod_small by done.
    destruct (pretty_N_char_digit x E0) as [_ Hc]. intros Hz. rewrite Hz in Hc.
    change (code "0" - 48) with 0 in Hc. lia.
  - apply IH; [apply N.div_lt; lia|by apply N.neq_0_lt_0].
Qed.

Lemma no_space_digit c : c_isdigit c = true -> c_isspace c = false.
Proof.
  unfold c_isdigit, c_isspace, in_range. intros H.
  destruct ((9 <=? code c) && (code c <=? 13)) eqn:E1; [lia|].
  destruct ((32 <=? code c) && (code c <=? 32)) eqn:E2; [lia|done].
Qed.
Lemma pretty_head (x : N) : exists c t, pretty x = String c t /\ c_isdigit c = true /\ (c = "0"%char -> x = 0%N /\ t = "").
Proof.
  destruct (pretty_N_spec x) as (Hd & Hne & _). unfold pretty, pretty_N in *. case_decide as Hx.
  - subst. by exists "0"%char, "".
  - destruct (pretty_go_head x "" ltac:(lia)) as (c & t & E & Hc). rewrite E in *. exists c, t.
    cbn in Hd. apply andb_prop in Hd as [Hd _]. by split_and!.
Qed.

(** A number printed in decimal is read back, whichever of %d and %i reads it. *)
Lemma scan_number_pretty base (x : N) rest : base = 10 \/ base = 0 -> ends_number rest ->
  (forall c r, rest = String c r -> c <> "x"%char /\ c <> "X"%char) ->
  scan_number base (pretty x +:+ rest) = Some (Z.of_N x, rest).
Proof.
  intros Hb Hr Hx. destruct (pretty_head x) as (c & t & E & Hc & Hz).
  destruct (pretty_N_spec x) as (Hd & _ & Hv). unfold scan_number.
  assert (skip_spaces (pretty x +:+ rest) = pretty x +:+ rest) as ->.
  { rewrite E, str_app_cons. cbn. by rewrite (no_space_digit c Hc). }
  assert (c <> "-"%char /\ c <> "+"%char) as [Hm Hp] by (split; intros ->; done).
  destruct (decide (c = "0"%char)) as [->|H0].
  - destruct (Hz eq_refl) as [-> ->]. rewrite E. cbn. destruct rest as [|d r].
    + cbn. by destruct Hb as [->| ->].
    + destruct (Hx d r eq_refl) as [H1 H2]. pose proof (Hr d r eq_refl) as H3.
      apply Ascii.eqb_neq in H1, H2. rewrite H1, H2. cbn [orb andb].
      assert (forall b, b <= 10 -> digit_of b d = None) as Hdn.
      { intros b Hb'. pose proof (digit_of_10 d) as H10. rewrite H3 in H10. unfold digit_of in *.
        destruct (Z.ltb_spec (if c_isdigit d then code d - 48 else if in_range d 97 102 then code d - 87
          else if in_range d 65 70 then code d - 55 else 99) 10); [done|].
        destruct (Z.ltb_spec (if c_isdigit d then code d - 48 else if in_range d 97 102 then code d - 87
          else if in_range d 65 70 then code d - 55 else 99) b); [lia|done]. }
      destruct Hb as [->| ->]; cbn; by rewrite Hdn by lia.
  - assert (forall (A : Type) (a b d : string -> A), match pretty x +:+ rest with
      | String "-" s' => a s' | String "+" s' => b s' | _ => d (pretty x +:+ rest) end = d (pretty x +:+ rest)) as Hsign.
    { intros A a b d. rewrite E, str_app_cons. destruct c as [[] [] [] [] [] [] [] []]; try done; congruence. }
    rewrite (Hsign _ (fun s' => (true, s')) (fun s' => (false, s')) (fun s' => (false, s'))). cbn beta iota zeta.
    assert (forall (A : Type) (f : ascii -> string -> A) (a d : A), match pretty x +:+ rest with
      | String "0" (String c' s') => f c' s' | String "0" EmptyString => a | _ => d end = d) as Hzero.
    { intros A f a d. rewrite E, str_app_cons. destruct c as [[] [] [] [] [] [] [] []]; try done; congruence. }
    rewrite Hzero. assert ((if base =? 0 then 10 else base) = 10) as -> by (by destruct Hb as [->| ->]).
    rewrite scan_digits_10 by done. fold (digits_value (pretty x)). rewrite Hv, E. done.
Qed.

Lemma sscanf_pretty base store (x : N) rest fmt : base = 10 \/ base = 0 -> ends_number rest ->
  (forall c r, rest = String c r -> c <> "x"%char /\ c <> "X"%char) ->
  sscanf (pretty x +:+ rest) (Conv base store :: fmt) = store (Z.of_N x) :: sscanf rest fmt.
Proof. intros. cbn [sscanf]. by rewrite scan_number_pretty. Qed.

Lemma ends_lit c rest : c_isdigit c = false -> ends_number (String c rest).
Proof. intros H d r [= <- <-]. done. Qed.
Lemma store_int_id x : (0 <= x < 2 ^ 31) -> store_int x = x.
Proof. intros H. unfold store_int, clamp_long. rewrite s32_id by lia. lia. Qed.
Lemma store_int64_id x : (- 2 ^ 63 <= x < 2 ^ 63) -> store_int64 x = x.
Proof. intros H. unfold store_int64, clamp_long. lia. Qed.

Lemma sscanf_lit c rest fmt : sscanf (String c rest) (Lit c :: fmt) = sscanf rest fmt.
Proof. cbn [sscanf]. by rewrite Ascii.eqb_refl. Qed.

Lemma no_class_no_sep (p : ascii -> bool) sep s : p sep = true -> no_class p s -> no_sep sep s.
Proof.
  unfold no_class, no_sep. intros Hp. induction s as [|c s IH]; [done|]. cbn. intros [Hc Hs]%andb_prop.
  rewrite (IH Hs), andb_true_r. apply negb_true_iff in Hc. apply negb_true_iff, Ascii.eqb_neq. intros ->. congruence.
Qed.

(** Negative numbers. *)
Lemma scan_number_neg base t v rest : (forall c r, t = String c r -> c_isdigit c = true) -> t <> "" ->
  scan_number base t = Some (v, rest) -> scan_number base (String "-" t) = Some (- v, rest).
Proof.
  intros Hd Hne. destruct t as [|c t]; [done|]. specialize (Hd c t eq_refl). unfold scan_number.
  assert (skip_spaces (String c t) = String c t) as -> by (cbn; by rewrite (no_space_digit c Hd)).
  change (skip_spaces (String "-" (String c t))) with (String "-" (String c t)). cbn beta iota zeta.
  assert (forall (A : Type) (a b d : string -> A), match String c t with
    | String "-" s' => a s' | String "+" s' => b s' | _ => d (String c t) end = d (String c t)) as Hsign.
  { intros A a b d. destruct c as [[] [] [] [] [] [] [] []]; done. }
  rewrite (Hsign _ (fun s' => (true, s')) (fun s' => (false, s')) (fun s' => (false, s'))). cbn beta iota zeta.
  repeat case_match; intros [= <- <-]; done.
Qed.
Lemma scan_number_pretty_Z (z : Z) : scan_number 0 (pretty z) = Some (z, "").
Proof.
  assert (forall x : N, scan_number 0 (pretty x) = Some (Z.of_N x, "")) as HN.
  { intros x. rewrite <- (str_app_nil_r (pretty x)) at 1. by apply scan_number_pretty; [right|..]. }
  destruct z as [|p|p]; [apply (HN 0%N)|apply (HN (Npos p))|].
  change (pretty (Zneg p)) with (String "-" (pretty (Npos p))).
  destruct (pretty_head (Npos p)) as (c & t & E & Hc & _).
  rewrite (scan_number_neg 0 (pretty (Npos p)) (Zpos p) ""); [done|..|by apply (HN (Npos p))].
  - rewrite E. by intros ? ? [= <- <-].
  - by rewrite E.
Qed.
