(* ===== verification/Parted.v ===== *)
(** daemon/parted.c: partition tables through parted, sfdisk and sgdisk, and
    the parsers of their output. *)

From S2P Require Import Prelude Xdr Handle Utils Events Conn Command Guestfsd Procs.
From Stdlib Require Import Ascii.

Open Scope Z_scope.
#[local] Arguments String.append : simpl nomatch.

(** * Fields of parted -m output *)

Definition is_sep (c : ascii) : bool := Ascii.eqb c ":" || Ascii.eqb c ";".

(** [PastEnd]: the pointer has been moved beyond the terminating zero, from
    where the loop reads on. *)
Inductive field := Field_ (s : string) | TooFew | PastEnd.

(** The loop of get_table_field, from [p], and the field found. *)
Fixpoint table_field (n : nat) (p : string) : field :=
  match n, p with
  | O, _ => Field_ (fst (span_not is_sep p))
  | S _, EmptyString => TooFew
  | S n', _ => match span_not is_sep p with
               | (_, EmptyString) => PastEnd
               | (_, String _ rest) => table_field n' rest
               end
  end.

(** [strstr (s, pat)]: what follows the first occurrence of [pat]. *)
Definition after (pat s : string) : option string :=
  i ← String.index 0 pat s; Some (str_drop (i + String.length pat) s).

(** * Procedures *)

Record partition := mk_partition { part_num : Z; part_start : Z; part_end : Z; part_size : Z }.

Section parted.
Context (E : denv).

Definition check_parttype (parttype : string) : option string :=
  if existsb (STREQ parttype) ["aix"; "amiga"; "bsd"; "dasd"; "dvh"; "gpt"; "mac"; "msdos"; "pc98"; "sun"]
  then Some parttype
  else if STREQ parttype "rdb" then Some "amiga"
  else if STREQ parttype "efi" then Some "gpt"
  else if STREQ parttype "mbr" then Some "msdos"
  else None.

Definition dquoted (s : string) : string := String "034" (s +:+ String "034" "").
Definition unknown_parttype : string :=
  "unknown partition type: common choices are " +:+ dquoted "gpt" +:+ " and " +:+ dquoted "msdos".

(** Settle, run parted, settle again unless it failed. *)
Definition run_parted (device : string) (args : list string) : proc Z :=
  udev_settle ;;;
  r <- run_or (command_fold E (["parted"; "-s"; "--"; device] ++ args))
         (fun err => "parted: " +:+ device +:+ ": " +:+ err) ;;
  if r =? -1 then ret (-1) else udev_settle ;;; ret 0.

Definition do_part_init (device parttype : string) : proc Z :=
  match check_parttype parttype with
  | None => fail unknown_parttype (-1)
  | Some parttype => run_parted device ["mklabel"; parttype]
  end.

Definition check_prlogex (prlogex : string) : option string :=
  if existsb (STREQ prlogex) ["primary"; "logical"; "extended"] then Some prlogex
  else if STREQ prlogex "p" then Some "primary"
  else if STREQ prlogex "l" then Some "logical"
  else if STREQ prlogex "e" then Some "extended"
  else None.

Definition do_part_add (device prlogex : string) (startsect endsect : Z) : proc Z :=
  match check_prlogex prlogex with
  | None => fail ("unknown partition type: " +:+ prlogex +:+ ": this should be " +:+ dquoted "primary" +:+
                  ", " +:+ dquoted "logical" +:+ " or " +:+ dquoted "extended") (-1)
  | Some prlogex =>
      if startsect <? 0 then fail "startsect cannot be negative" (-1)
      else run_parted device ["mkpart"; prlogex; snprintf 32 (pretty startsect +:+ "s");
                              snprintf 32 (pretty endsect +:+ "s")]
  end.

Definition bad_partnum : string := "partition number must be >= 1".

Definition do_part_del (device : string) (partnum : Z) : proc Z :=
  if partnum <=? 0 then fail bad_partnum (-1)
  else run_parted device ["rm"; snprintf 16 (pretty partnum)].

Definition do_part_disk (device parttype : string) : proc Z :=
  match check_parttype parttype with
  | None => fail unknown_parttype (-1)
  | Some parttype =>
      run_parted device ["mklabel"; parttype; "mkpart"; if STREQ parttype "gpt" then "p1" else "primary";
                         "128s"; "-128s"]
  end.

Definition do_part_set_bootable (device : string) (partnum : Z) (bootable : bool) : proc Z :=
  if partnum <=? 0 then fail bad_partnum (-1)
  else run_parted device ["set"; snprintf 16 (pretty partnum); "boot"; if bootable then "on" else "off"].

Definition do_part_set_name (device : string) (partnum : Z) (name : string) : proc Z :=
  if partnum <=? 0 then fail bad_partnum (-1)
  else run_parted device ["name"; snprintf 16 (pretty partnum); name].

Definition get_table_field (line : string) (n : nat) : proc (option string) :=
  match table_field n line with
  | Field_ q => ret (Some q)
  | TooFew => fail ("not enough fields in output of parted print command: " +:+ line) None
  | PastEnd => halt Undefined
  end.

Definition test_parted_m_opt : proc Z :=
  result <- get_static "test_parted_m_opt.result" ;;
  if 0 <=? result then ret result
  else
    let* (r, err) := commandr_err E ["parted"; "-s"; "-m"; "/dev/null"] in
    if r =? -1 then fail "could not run 'parted' command" (-1)
    else
      let result := match err with
                    | Some err => if strstr err "invalid option -- m" then 0 else 1
                    | None => 1
                    end in
      set_static "test_parted_m_opt.result" result ;;; ret result.

Definition print_partition_table (device : string) (parted_has_m_opt : Z) : proc (option string) :=
  let opt := if is_true parted_has_m_opt then "-m" else "-s" in
  let* (r, out, err) := command_out E ["parted"; opt; "--"; device; "unit"; "b"; "print"] in
  if r =? -1 then
    fail ("parted print: " +:+ device +:+ ": " +:+
          (if STREQ (default "" err) "" then fmt_s out else fmt_s err)) None
  else ret (Some (default "" out)).

(** The first two lines of parted -m output are there. *)
Definition unknown_signature : string :=
  "unknown signature, expected " +:+ dquoted "BYT;" +:+ " as first line of the output: ".
Definition check_header (lines : list string) : option string :=
  match lines with
  | [] => Some (unknown_signature +:+ "(signature was null)")
  | l0 :: rest =>
      if STRNEQ l0 "BYT;" then Some (unknown_signature +:+ l0)
      else match rest with
           | [] => Some "parted didn't return a line describing the device"
           | _ => None
           end
  end.

Definition not_partitioned (r : string) : proc (option string) :=
  if STREQ r "loop" then fail "not a partitioned device" None else ret (Some r).

Definition do_part_get_parttype (device : string) : proc (option string) :=
  m <- test_parted_m_opt ;;
  if m =? -1 then ret None
  else
    out <- print_partition_table device m ;;
    match out with
    | None => ret None
    | Some out =>
        if is_true m then
          let lines := split_lines out in
          match check_header lines with
          | Some msg => fail msg None
          | None =>
              r <- get_table_field (default "" (lines !! 1%nat)) 5 ;;
              match r with None => ret None | Some r => not_partitioned r end
          end
        else
          match after (newline +:+ "Partition Table: ") out with
          | None => fail "parted didn't return Partition Table line" None
          | Some p =>
              match strcspn nl_char p with
              | (_, EmptyString) => fail "parted Partition Table has no end of line char" None
              | (p, _) => not_partitioned p
              end
          end
    end.

(** One row, in the two formats. *)
Definition row_format (m : bool) : list directive :=
  if m then [pct_d; Lit ":"; pct_i64; Lit "B"; Lit ":"; pct_i64; Lit "B"; Lit ":"; pct_i64; Lit "B"]
  else [White; pct_d; White; pct_i64; Lit "B"; White; pct_i64; Lit "B"; White; pct_i64; Lit "B"].
Definition parse_row (m : bool) (line : string) : option partition :=
  match sscanf line (row_format m) with
  | [num; start; end_; size] => Some (mk_partition num start end_ size)
  | _ => None
  end.
Definition bad_row (line : string) : string :=
  "could not parse row from output of parted print command: " +:+ line.

Fixpoint parse_rows (m : bool) (rows : list string) : proc (option (list partition)) :=
  match rows with
  | [] => ret (Some [])
  | line :: rows' =>
      match parse_row m line with
      | None => fail (bad_row line) None
      | Some p =>
          r <- parse_rows m rows' ;;
          ret (cons p <$> r)
      end
  end.

(** The index of the first line that satisfies [p]. *)
Fixpoint find_row (p : string -> bool) (lines : list string) : option nat :=
  match lines with
  | [] => None
  | l :: lines' => if p l then Some O else S <$> find_row p lines'
  end.

Definition do_part_list (device : string) : proc (option (list partition)) :=
  m <- test_parted_m_opt ;;
  if m =? -1 then ret None
  else
    out <- print_partition_table device m ;;
    match out with
    | None => ret None
    | Some out =>
        let lines := split_lines out in
        if is_true m then
          (* lines[2] of a list that is already terminated *)
          if (length lines <? 2)%nat then halt Undefined
          else parse_rows true (drop 2 lines)
        else
          match find_row (fun l => STRPREFIX l "Number") lines with
          | None => fail ("parted output has no " +:+ dquoted "Number" +:+ " line") None
          | Some header =>
              match find_row (fun l => STREQ l "") (drop (S header) lines) with
              | None => fail "parted output has no blank after end of table" None
              | Some n => parse_rows false (take n (drop (S header) lines))
              end
          end
    end.

(** Partitions may not be in any order. *)
Fixpoint search_row (fmt : list directive) (partnum : Z) (rows : list string) : proc (option string) :=
  match rows with
  | [] => fail ("partition number " +:+ pretty partnum +:+ " not found") None
  | line :: rows' =>
      match sscanf line fmt with
      | [pnum] => if pnum =? partnum then ret (Some line) else search_row fmt partnum rows'
      | _ => fail (bad_row line) None
      end
  end.

Definition do_part_get_bootable (device : string) (partnum : Z) : proc Z :=
  if partnum <=? 0 then fail bad_partnum (-1)
  else
    m <- test_parted_m_opt ;;
    if m =? -1 then ret (-1)
    else
      out <- print_partition_table device m ;;
      match out with
      | None => ret (-1)
      | Some out =>
          let lines := split_lines out in
          if is_true m then
            match check_header lines with
            | Some msg => fail msg (-1)
            | None =>
                row <- search_row [pct_d; Lit ":"] partnum (drop 2 lines) ;;
                match row with
                | None => ret (-1)
                | Some row =>
                    boot <- get_table_field row 6 ;;
                    match boot with
                    | None => ret (-1)
                    | Some boot => ret (bool_int (strstr boot "boot"))
                    end
                end
            end
          else
            match find_row (fun l => STRPREFIX l "Number") lines with
            | None => fail ("parted output has no " +:+ dquoted "Number" +:+ " line") (-1)
            | Some header =>
                match String.index 0 "Flags" (default "" (lines !! header)) with
                | None => fail ("parted output has no " +:+ dquoted "Flags" +:+ " field") (-1)
                | Some col =>
                    row <- search_row [White; pct_d] partnum (drop (S header) lines) ;;
                    match row with
                    | None => ret (-1)
                    | Some row =>
                        if (String.length row <? col)%nat then halt Undefined
                        else ret (bool_int (STRPREFIX (str_drop col row) "boot"))
                    end
                end
            end
      end.

(** ** MBR and GPT types *)

Definition do_part_get_mbr_id (device : string) (partnum : Z) : proc Z :=
  if partnum <=? 0 then fail bad_partnum (-1)
  else
    udev_settle ;;;
    let* (r, out, err) := command_out E ["sfdisk"; "--print-id"; device; snprintf 16 (pretty partnum)] in
    if r =? -1 then fail ("sfdisk --print-id: " +:+ fmt_s err) (-1)
    else
      udev_settle ;;;
      match sscanf (default "" out) [pct_x] with
      | [id] => ret id
      | _ => fail ("sfdisk --print-id: cannot parse output: " +:+ fmt_s out) (-1)
      end.

Definition do_part_set_mbr_id (device : string) (partnum idbyte : Z) : proc Z :=
  if partnum <=? 0 then fail bad_partnum (-1)
  else
    udev_settle ;;;
    r <- run_or (command_err E ["sfdisk"; "--change-id"; device; snprintf 16 (pretty partnum);
                                snprintf 16 (hex (u32 idbyte))])
           (fun err => "sfdisk --change-id: " +:+ err) ;;
    if r =? -1 then ret (-1) else udev_settle ;;; ret 0.

Definition optgroup_gdisk_available (s : pstate) : Z := bool_int (prog_exists (ev_fs E (ps_log s)) "sgdisk").

Definition do_part_set_gpt_type (device : string) (partnum : Z) (guid : string) : proc Z :=
  if partnum <=? 0 then fail bad_partnum (-1)
  else
    let typecode := pretty partnum +:+ ":" +:+ guid in
    run_or (command_fold E ["sgdisk"; device; "-t"; typecode])
      (fun err => "sgdisk " +:+ device +:+ " -t " +:+ typecode +:+ ": " +:+ err).

(** The loop over the lines of sgdisk -i: the value of the first line whose
    name is [field]. *)
Fixpoint find_field (field : string) (lines : list string) : option string :=
  match lines with
  | [] => None
  | line :: lines' =>
      match strcspn ":" line with
      | (name, String _ value) => if STREQ name field then Some (skip_blanks value) else find_field field lines'
      | (_, EmptyString) => find_field field lines'
      end
  end.

Definition sgdisk_info_extract_field (device : string) (partnum : Z) (field : string)
    (extract : string -> option string) : proc (option string) :=
  if partnum <=? 0 then fail bad_partnum None
  else
    let partnum_str := pretty partnum in
    let* (r, err) := command_fold E ["sgdisk"; device; "-i"; partnum_str] in
    if r =? -1 then
      fail ("sgdisk " +:+ device +:+ " -i " +:+ partnum_str +:+ ": " +:+ fmt_s err) None
    else
      match find_field field (split_lines (default "" err)) with
      | Some value => ret (extract value)
      | None => fail ("sgdisk output did not contain '" +:+ field +:+
                      "'. See LIBGUESTFS_DEBUG output for more details") None
      end.

Definition guid_char (c : ascii) : bool := Ascii.eqb c "-" || c_isdigit c || in_range c 65 70.
Definition extract_uuid (value : string) : option string :=
  Some (fst (span_not (fun c => negb (guid_char c)) value)).

Definition do_part_get_gpt_type (device : string) (partnum : Z) : proc (option string) :=
  sgdisk_info_extract_field device partnum "Partition GUID code" extract_uuid.

Definition do_part_get_name (device : string) (partnum : Z) : proc (option string) :=
  parttype <- do_part_get_parttype device ;;
  match parttype with
  | None => ret None
  | Some parttype =>
      if STREQ parttype "gpt" then
        m <- test_parted_m_opt ;;
        if m =? -1 then ret None
        else
          out <- print_partition_table device m ;;
          match out with
          | None => ret None
          | Some out =>
              if is_true m then
                let lines := split_lines out in
                match check_header lines with
                | Some msg => fail msg None
                | None =>
                    row <- search_row [pct_d; Lit ":"] partnum (drop 2 lines) ;;
                    match row with
                    | None => ret None
                    | Some row =>
                        name <- get_table_field row 5 ;;
                        match name with
                        | None => fail ("cannot get the name field from '" +:+ row +:+ "'") None
                        | Some name => ret (Some name)
                        end
                    end
                end
              else fail ("cannot get the partition name from '" +:+ parttype +:+ "' layouts") None
          end
      else fail "part-get-name can only be used on GUID Partition Tables" None
  end.
End parted.

(** * Replies *)

Section replies.
Context (E : denv) `{!Starts E}.

Lemma run_parted_one_reply ub device args : one_reply ub int_failed (run_parted E device args).
Proof. unfold run_parted. emits. Qed.
Lemma get_table_field_one_reply line n : one_reply true ptr_failed (get_table_field line n).
Proof. unfold get_table_field. emits. Qed.
Lemma test_parted_m_opt_one_reply ub : one_reply ub int_failed (test_parted_m_opt E).
Proof. unfold test_parted_m_opt. emits. Qed.
Lemma print_partition_table_one_reply ub device m : one_reply ub ptr_failed (print_partition_table E device m).
Proof. unfold print_partition_table. emits. Qed.
#[local] Hint Resolve run_parted_one_reply get_table_field_one_reply test_parted_m_opt_one_reply
  print_partition_table_one_reply : one_reply.

Lemma not_partitioned_one_reply ub r : one_reply ub ptr_failed (not_partitioned r).
Proof. unfold not_partitioned. emits. Qed.
Lemma parse_rows_one_reply ub m rows : one_reply ub ptr_failed (parse_rows m rows).
Proof.
  induction rows as [|line rows IH]; cbn [parse_rows]; [by apply emits_ret|].
  destruct (parse_row m line); [|by apply emits_fail]. eapply emits_call; [exact IH|emits..].
Qed.
Lemma search_row_one_reply ub fmt partnum rows : one_reply ub ptr_failed (search_row fmt partnum rows).
Proof. induction rows as [|line rows IH]; cbn [search_row]; emits. Qed.
#[local] Hint Resolve not_partitioned_one_reply parse_rows_one_reply search_row_one_reply : one_reply.

Lemma do_part_init_one_reply ub device parttype : one_reply ub int_failed (do_part_init E device parttype).
Proof. unfold do_part_init. emits. Qed.
Lemma do_part_add_one_reply ub device prlogex a b : one_reply ub int_failed (do_part_add E device prlogex a b).
Proof. unfold do_part_add. emits. Qed.
Lemma do_part_del_one_reply ub device n : one_reply ub int_failed (do_part_del E device n).
Proof. unfold do_part_del. emits. Qed.
Lemma do_part_disk_one_reply ub device parttype : one_reply ub int_failed (do_part_disk E device parttype).
Proof. unfold do_part_disk. emits. Qed.
Lemma do_part_set_bootable_one_reply ub device n b : one_reply ub int_failed (do_part_set_bootable E device n b).
Proof. unfold do_part_set_bootable. emits. Qed.
Lemma do_part_set_name_one_reply ub device n name : one_reply ub int_failed (do_part_set_name E device n name).
Proof. unfold do_part_set_name. emits. Qed.
Lemma do_part_set_mbr_id_one_reply ub device n id : one_reply ub int_failed (do_part_set_mbr_id E device n id).
Proof. unfold do_part_set_mbr_id. emits. Qed.
Lemma do_part_set_gpt_type_one_reply ub device n guid : one_reply ub int_failed (do_part_set_gpt_type E device n guid).
Proof. unfold do_part_set_gpt_type. emits. Qed.
Lemma do_part_get_gpt_type_one_reply ub device n : one_reply ub ptr_failed (do_part_get_gpt_type E device n).
Proof. unfold do_part_get_gpt_type, sgdisk_info_extract_field. emits. Qed.
Lemma do_part_get_parttype_one_reply device : one_reply true ptr_failed (do_part_get_parttype E device).
Proof. unfold do_part_get_parttype. emits. Qed.
Lemma do_part_list_one_reply device : one_reply true ptr_failed (do_part_list E device).
Proof. unfold do_part_list. emits. Qed.
Lemma do_part_get_bootable_one_reply device n : one_reply true int_failed (do_part_get_bootable E device n).
Proof. unfold do_part_get_bootable. emits. Qed.
End replies.

(** * The tables parted -m prints *)

Record table_row := mk_row {
  row_num : N; row_start : N; row_end : N; row_size : N;
  row_fs : string; row_name : string; row_flags : string
}.
Record table := mk_table {
  tb_device : list string;         (* the fields before the type: path, size, transport, sector sizes *)
  tb_type : string;
  tb_more : list string;           (* model and the rest *)
  tb_rows : list table_row
}.

(** Fields separated by colons, the line ended by a semicolon. *)
Fixpoint fields_text (fs : list string) : string :=
  match fs with
  | [] => ""
  | [f] => f +:+ ";"
  | f :: fs' => f +:+ ":" +:+ fields_text fs'
  end.
Definition row_fields (r : table_row) : list string :=
  [pretty (row_num r); pretty (row_start r) +:+ "B"; pretty (row_end r) +:+ "B"; pretty (row_size r) +:+ "B";
   row_fs r; row_name r; row_flags r].
Definition table_lines (t : table) : list string :=
  "BYT;" :: fields_text (tb_device t ++ tb_type t :: tb_more t) :: ((fields_text ∘ row_fields) <$> tb_rows t).
Definition table_text (t : table) : string := str_unlines (table_lines t).

Definition plain (s : string) : Prop := no_class (fun c => is_sep c || Ascii.eqb c nl_char) s.
Definition row_ok (r : table_row) : Prop :=
  (Z.of_N (row_num r) < 2 ^ 31 /\ Z.of_N (row_start r) < 2 ^ 63 /\ Z.of_N (row_end r) < 2 ^ 63 /\
   Z.of_N (row_size r) < 2 ^ 63) /\ plain (row_fs r) /\ plain (row_name r) /\ plain (row_flags r).
Definition table_ok (t : table) : Prop :=
  length (tb_device t) = 5%nat /\ Forall plain (tb_device t) /\ plain (tb_type t) /\ Forall plain (tb_more t) /\
  Forall row_ok (tb_rows t).

Definition row_partition (r : table_row) : partition :=
  mk_partition (Z.of_N (row_num r)) (Z.of_N (row_start r)) (Z.of_N (row_end r)) (Z.of_N (row_size r)).

(** ** Fields *)

Lemma plain_app a b : plain (a +:+ b) <-> plain a /\ plain b.
Proof. unfold plain, no_class. rewrite str_forallb_app. apply andb_true_iff. Qed.
Lemma plain_digits s : str_forallb c_isdigit s = true -> plain s.
Proof.
  unfold plain, no_class. induction s as [|c s IH]; [done|]. cbn. intros [Hc Hs]%andb_prop.
  rewrite (IH Hs), andb_true_r. apply negb_true_iff. unfold is_sep.
  destruct c as [[] [] [] [] [] [] [] []]; done.
Qed.
Lemma plain_pretty (x : N) : plain (pretty x).
Proof. apply plain_digits, pretty_N_spec. Qed.
Lemma no_class_weaken (p q : ascii -> bool) s : (forall c, q c = true -> p c = true) -> no_class p s -> no_class q s.
Proof.
  unfold no_class. intros H. induction s as [|c s IH]; [done|]. cbn. intros [Hc Hs]%andb_prop.
  rewrite (IH Hs), andb_true_r. apply negb_true_iff in Hc. apply negb_true_iff. destruct (q c) eqn:Eq; [|done].
  by rewrite (H c Eq) in Hc.
Qed.
Lemma plain_sep s : plain s -> no_class is_sep s.
Proof. apply no_class_weaken. by intros c ->. Qed.
Lemma plain_nl s : plain s -> no_sep nl_char s.
Proof.
  unfold plain, no_class, no_sep. induction s as [|c s IH]; [done|]. cbn. intros [Hc Hs]%andb_prop.
  rewrite (IH Hs), andb_true_r. apply negb_true_iff, orb_false_iff in Hc as [_ Hc]. by rewrite Hc.
Qed.

Lemma fields_text_cons f fs : exists c rest, is_sep c = true /\ fields_text (f :: fs) = f +:+ String c rest /\
  rest = fields_text fs.
Proof. destruct fs as [|g fs]; [by exists ";"%char, ""|]. by exists ":"%char, (fields_text (g :: fs)). Qed.

(** get_table_field on a line that is ended: the field, an empty one just after
    the last, an error beyond; never an access past the end. *)
Lemma table_field_text : forall n fs, Forall (no_class is_sep) fs ->
  table_field n (fields_text fs) =
    if (n <=? length fs)%nat then Field_ (default "" (fs !! n)) else TooFew.
Proof.
  assert (forall n, table_field n "" = if (n <=? 0)%nat then Field_ "" else TooFew) as Hnil by (by intros []).
  induction n as [|n IH]; intros fs Hfs.
  - destruct fs as [|f fs]; [done|]. inversion Hfs; subst. destruct (fields_text_cons f fs) as (c & rest & Hc & -> & _).
    cbn [table_field length Nat.leb]. rewrite span_not_app by (done || right; eauto). done.
  - destruct fs as [|f fs]; [by rewrite Hnil|]. inversion Hfs as [|? ? Hf Hfs']; subst.
    destruct (fields_text_cons f fs) as (c & rest & Hc & -> & ->).
    assert (table_field (S n) (f +:+ String c (fields_text fs)) = table_field n (fields_text fs)) as ->.
    { assert (f +:+ String c (fields_text fs) <> "") as Hne by (by destruct f).
      cbn [table_field]. rewrite (span_not_app is_sep f) by (done || right; eauto).
      by destruct (f +:+ String c (fields_text fs)). }
    rewrite (IH fs Hfs'). done.
Qed.

(** A line that is not ended: the pointer leaves the string as soon as a field
    that is not there is asked for. *)
Lemma table_field_unended : forall n fs last, Forall (no_class is_sep) fs -> no_class is_sep last -> last <> "" ->
  (length fs < n)%nat -> table_field n (foldr (fun f s => f +:+ String ":" s) last fs) = PastEnd.
Proof.
  induction n as [|n IH]; intros fs last Hfs Hl Hne Hn; [lia|]. destruct fs as [|f fs]; cbn [foldr].
  - cbn [table_field]. pose proof (span_not_app is_sep last "" Hl (or_introl eq_refl)) as E.
    rewrite str_app_nil_r in E. rewrite E. by destruct last.
  - inversion Hfs as [|? ? Hf Hfs']; subst. cbn [table_field].
    set (rest := foldr _ _ _) in *.
    rewrite (span_not_app is_sep f (String ":" rest)) by (done || right; by exists ":"%char, rest).
    destruct (f +:+ String ":" rest) eqn:Ef; [by destruct f|]. apply IH; try done. cbn in Hn. lia.
Qed.

Lemma fields_text_nl fs : Forall (no_sep nl_char) fs -> no_sep nl_char (fields_text fs).
Proof.
  intros H. induction H as [|f fs Hf _ IH]; [done|]. destruct (fields_text_cons f fs) as (c & rest & Hc & -> & ->).
  apply no_sep_app. split; [done|]. unfold no_sep in *. cbn. rewrite IH, andb_true_r. apply negb_true_iff.
  unfold is_sep in Hc. by destruct c as [[] [] [] [] [] [] [] []].
Qed.

(** ** Rows *)

Lemma row_fields_plain r : row_ok r -> Forall plain (row_fields r).
Proof.
  intros (_ & H1 & H2 & H3). unfold row_fields. repeat (constructor; [first [done|apply plain_pretty|
    apply plain_app; split; [apply plain_pretty|done]]|]). constructor.
Qed.

Lemma parse_row_text r : row_ok r -> parse_row true (fields_text (row_fields r)) = Some (row_partition r).
Proof.
  intros ((H1 & H2 & H3 & H4) & _). unfold parse_row, row_fields. cbn [fields_text row_format].
  rewrite !str_app_assoc. cbn [String.append]. unfold pct_d, pct_i64.
  repeat (rewrite sscanf_pretty by (first [by left|by right|by apply ends_lit|by intros ? ? [= <- <-]]); rewrite !sscanf_lit).
  cbn [sscanf]. rewrite store_int_id, !store_int64_id by lia. done.
Qed.
Lemma row_number_text r fmt : row_ok r ->
  sscanf (fields_text (row_fields r)) (pct_d :: Lit ":" :: fmt) =
    Z.of_N (row_num r) :: sscanf (fields_text (tail (row_fields r))) fmt.
Proof.
  intros ((H1 & _) & _). unfold row_fields. cbn [fields_text tail]. cbn [String.append]. unfold pct_d.
  rewrite sscanf_pretty by (first [by left|by apply ends_lit|by intros ? ? [= <- <-]]).
  rewrite sscanf_lit, store_int_id by lia. done.
Qed.

Lemma parse_rows_text rows s : Forall row_ok rows ->
  parse_rows true ((fields_text ∘ row_fields) <$> rows) s = (Ret (Some (row_partition <$> rows)), s).
Proof.
  induction 1 as [|r rows Hr _ IH]; [done|]. cbn [fmap list_fmap parse_rows compose].
  rewrite (parse_row_text r Hr). by rewrite (bind_Ret _ _ _ _ _ IH).
Qed.

Lemma search_row_text rows partnum s : Forall row_ok rows ->
  search_row [pct_d; Lit ":"] partnum ((fields_text ∘ row_fields) <$> rows) s =
    match List.find (fun r => Z.of_N (row_num r) =? partnum) rows with
    | Some r => (Ret (Some (fields_text (row_fields r))), s)
    | None => fail ("partition number " +:+ pretty partnum +:+ " not found") None s
    end.
Proof.
  induction 1 as [|r rows Hr _ IH]; [done|]. cbn [fmap list_fmap search_row compose List.find].
  rewrite (row_number_text r [] Hr). cbn [sscanf]. by destruct (_ =? partnum).
Qed.

Lemma find_row_ok rows p r : Forall row_ok rows -> List.find p rows = Some r -> row_ok r.
Proof. intros H Hf. apply List.find_some in Hf as [Hr _]. rewrite List.Forall_forall in H. by apply H. Qed.

(** ** Lines *)

Lemma table_lines_split t : table_ok t -> split_lines (table_text t) = table_lines t.
Proof.
  intros (_ & H1 & H2 & H3 & H4). apply split_lines_unlines. repeat constructor.
  - apply fields_text_nl, Forall_app. split; [|constructor].
    + eapply Forall_impl; [exact H1|apply plain_nl].
    + by apply plain_nl.
    + eapply Forall_impl; [exact H3|apply plain_nl].
  - apply Forall_fmap. eapply Forall_impl; [exact H4|]. intros r Hr. apply fields_text_nl.
    eapply Forall_impl; [by apply row_fields_plain|apply plain_nl].
Qed.

(** ** The procedures on such a table *)

Section queries.
Context (E : denv) (device : string) (t : table).
Context (Ht : table_ok t)
  (Hprint : forall h, prints (ev_exec E h ["parted"; "-m"; "--"; device; "unit"; "b"; "print"]) (table_text t)).

Definition has_m_opt (s : pstate) : Prop := ps_static s !! "test_parted_m_opt.result" = Some 1.
Lemma test_parted_static s s1 : test_parted_m_opt E s = (Ret 1, s1) -> has_m_opt s1.
Proof.
  intros H. unfold test_parted_m_opt in H. cbn in H. unfold has_m_opt. destruct (0 <=? default (-1) _) eqn:E0.
  - injection H as H ->. destruct (ps_static s1 !! _); [cbn in H; by f_equal|done].
  - apply bind_inv in H as ([r err] & s2 & _ & H). destruct (r =? -1); [done|]. cbn in H.
    injection H as Hr <-. rewrite Hr. cbn. by simplify_map_eq.
Qed.
Lemma static_test_parted s : has_m_opt s -> test_parted_m_opt E s = (Ret 1, s).
Proof. intros Hs. unfold test_parted_m_opt. cbn. by rewrite Hs. Qed.

Lemma print_table s : exists s2, print_partition_table E device 1 s = (Ret (Some (table_text t)), s2) /\
  ps_static s2 = ps_static s /\ ps_log s2 = ps_log s ++ [Ran 0 ["parted"; "-m"; "--"; device; "unit"; "b"; "print"]].
Proof.
  destruct (commandf_prints E true 0 _ _ s (Hprint (ps_log s)) eq_refl) as [err Hc].
  eexists. unfold print_partition_table, command_out. cbn [is_true Z.eqb negb].
  rewrite (bind_Ret _ _ _ _ _ Hc). cbn. done.
Qed.

Lemma header_ok : check_header (table_lines t) = None.
Proof. done. Qed.

Lemma part_list_table s s1 : test_parted_m_opt E s = (Ret 1, s1) ->
  exists s2, do_part_list E device s = (Ret (Some (row_partition <$> tb_rows t)), s2).
Proof.
  intros H. destruct (print_table s1) as (s2 & E2 & _). exists s2. unfold do_part_list.
  rewrite (bind_Ret _ _ _ _ _ H). cbn [Z.eqb]. rewrite (bind_Ret _ _ _ _ _ E2). cbn [is_true Z.eqb negb].
  rewrite (table_lines_split t Ht). cbn [length Nat.ltb Nat.leb table_lines drop skipn].
  apply parse_rows_text, Ht.
Qed.

Lemma device_line : table_field 5 (fields_text (tb_device t ++ tb_type t :: tb_more t)) = Field_ (tb_type t).
Proof.
  destruct Ht as (Hl & H1 & H2 & H3 & _). rewrite table_field_text.
  - rewrite length_app, Hl. cbn [length Nat.add Nat.leb]. rewrite lookup_app_r, Hl by lia. done.
  - apply Forall_app. split; [|constructor]; [|by apply plain_sep|]; (eapply Forall_impl; [eassumption|apply plain_sep]).
Qed.

Lemma part_get_parttype_table s s1 : test_parted_m_opt E s = (Ret 1, s1) ->
  exists s2, do_part_get_parttype E device s =
    (Ret (if STREQ (tb_type t) "loop" then None else Some (tb_type t)), s2) /\
    has_m_opt s2.
Proof.
  intros H. destruct (print_table s1) as (s2 & E2 & Hs & _).
  assert (has_m_opt s2) as Hm by (unfold has_m_opt; rewrite Hs; by eapply test_parted_static).
  unfold do_part_get_parttype.
  rewrite (bind_Ret _ _ _ _ _ H). cbn [Z.eqb]. rewrite (bind_Ret _ _ _ _ _ E2). cbn [is_true Z.eqb negb].
  rewrite (table_lines_split t Ht), header_ok. unfold get_table_field. cbn [table_lines lookup list_lookup default id].
  rewrite device_line. cbn [bind ret]. unfold not_partitioned.
  destruct (STREQ (tb_type t) "loop"); eexists; (split; [reflexivity|exact Hm]).
Qed.

Lemma row_field n f r : row_ok r -> row_fields r !! n = Some f -> table_field n (fields_text (row_fields r)) = Field_ f.
Proof.
  intros Hr Hf. rewrite table_field_text by (eapply Forall_impl; [by apply row_fields_plain|apply plain_sep]).
  rewrite Hf. apply lookup_lt_Some in Hf. destruct (Nat.leb_spec n (length (row_fields r))); [done|lia].
Qed.

Definition find_part (partnum : Z) : option table_row :=
  List.find (fun r => Z.of_N (row_num r) =? partnum) (tb_rows t).

Lemma part_get_bootable_table partnum s s1 : test_parted_m_opt E s = (Ret 1, s1) -> 0 < partnum ->
  exists s2, do_part_get_bootable E device partnum s =
    (Ret (match find_part partnum with Some r => bool_int (strstr (row_flags r) "boot") | None => -1 end), s2).
Proof.
  intros H Hp. destruct (print_table s1) as (s2 & E2 & _). unfold do_part_get_bootable.
  destruct (Z.leb_spec partnum 0); [lia|].
  rewrite (bind_Ret _ _ _ _ _ H). cbn [Z.eqb]. rewrite (bind_Ret _ _ _ _ _ E2). cbn [is_true Z.eqb negb].
  rewrite (table_lines_split t Ht), header_ok. cbn [table_lines drop skipn]. unfold bind at 1.
  rewrite drop_0, search_row_text by apply Ht. fold (find_part partnum). destruct (find_part partnum) as [r|] eqn:Er; [|by eexists].
  unfold get_table_field. rewrite (row_field 6 (row_flags r) r) by (done || by eapply find_row_ok; [apply Ht|]).
  by eexists.
Qed.

Lemma part_get_name_table partnum s s1 : test_parted_m_opt E s = (Ret 1, s1) -> tb_type t = "gpt" ->
  exists s2, do_part_get_name E device partnum s = (Ret (row_name <$> find_part partnum), s2).
Proof.
  intros H Hg. destruct (part_get_parttype_table s s1 H) as (s2 & E2 & H2). rewrite Hg in E2. cbn in E2.
  destruct (print_table s2) as (s3 & E3 & _). unfold do_part_get_name.
  rewrite (bind_Ret _ _ _ _ _ E2). change (STREQ "gpt" "gpt") with true. cbn iota beta.
  rewrite (bind_Ret _ _ _ _ _ (static_test_parted s2 H2)). cbn [Z.eqb].
  rewrite (bind_Ret _ _ _ _ _ E3). cbn [is_true Z.eqb negb].
  rewrite (table_lines_split t Ht), header_ok. cbn [table_lines drop skipn]. unfold bind at 1.
  rewrite drop_0, search_row_text by apply Ht. fold (find_part partnum). destruct (find_part partnum) as [r|] eqn:Er; [|by eexists].
  unfold get_table_field. rewrite (row_field 5 (row_name r) r) by (done || by eapply find_row_ok; [apply Ht|]).
  by eexists.
Qed.
End queries.

(** * Properties *)

(** Reading a partition table: whatever parted -m prints in its documented format,
    part_list gives the partitions back in order, part_get_parttype the type (an error for
    loop), and part_get_bootable and part_get_name the boot flag and the name of the partition
    with that number, or an error when there is none. *)
Theorem part_queries_correct (E : denv) (device : string) (t : table) (s s1 : pstate) : table_ok t ->
  (forall h, prints (ev_exec E h ["parted"; "-m"; "--"; device; "unit"; "b"; "print"]) (table_text t)) ->
  test_parted_m_opt E s = (Ret 1, s1) ->
  (exists s2, do_part_list E device s = (Ret (Some (row_partition <$> tb_rows t)), s2)) /\
  (exists s2, do_part_get_parttype E device s =
     (Ret (if STREQ (tb_type t) "loop" then None else Some (tb_type t)), s2)) /\
  (forall partnum, 0 < partnum -> exists s2, do_part_get_bootable E device partnum s =
     (Ret (match find_part t partnum with Some r => bool_int (strstr (row_flags r) "boot") | None => -1 end), s2)) /\
  (forall partnum, tb_type t = "gpt" -> exists s2, do_part_get_name E device partnum s =
     (Ret (row_name <$> find_part t partnum), s2)).
Proof.
  intros Ht Hp H. split_and!.
  - by eapply part_list_table.
  - destruct (part_get_parttype_table E device t Ht Hp s s1 H) as (s2 & E2 & _). by exists s2.
  - intros partnum Hn. by eapply part_get_bootable_table.
  - intros partnum Hg. by eapply part_get_name_table.
Qed.

Definition ex_table : table :=
  mk_table ["/dev/sda"; "1073741824B"; "scsi"; "512"; "512"] "gpt" ["ATA QEMU HARDDISK"; ""]
    [mk_row 2 524288000 1073724927 549437928 "ext4" "root" ""; mk_row 1 1048576 524287999 523239424 "vfat" "EFI" "boot, esp"].
Definition ex_env (out : string) : denv :=
  mk_denv (fun _ argv => if bool_decide (argv = ["parted"; "-s"; "-m"; "/dev/null"]) then printing "" else printing out)
    (fun _ _ => inr 0) (fun _ _ _ => None) (fun _ => mk_dev_fs (fun _ => None) (fun _ => None) (fun _ => false) 0) (fun _ => Some []) (fun _ _ => 0)
    (fun _ => "") "/sysroot".
Definition ex_pstate : pstate := mk_pstate [] ∅.

Lemma part_queries_correct_witness :
  exists s2, do_part_get_name (ex_env (table_text ex_table)) "/dev/sda" 1 ex_pstate = (Ret (Some "EFI"), s2).
Proof.
  destruct (part_queries_correct (ex_env (table_text ex_table)) "/dev/sda" ex_table ex_pstate
    (snd (test_parted_m_opt (ex_env (table_text ex_table)) ex_pstate))) as (_ & _ & _ & H).
  - split_and!; repeat constructor.
  - intros h. cbn [ev_exec ex_env]. rewrite bool_decide_false by done. by apply printing_prints.
  - reflexivity.
  - exact (H 1 eq_refl).
Defined.

(** Each of the partition procedures replies with an error exactly once when it fails and
    never when it succeeds, whatever the external programs print; those that only run a program
    always return, the parsers may also read outside an object when the output is malformed. *)
Theorem parted_one_reply (E : denv) : Starts E ->
  (forall device parttype, one_reply false int_failed (do_part_init E device parttype)) /\
  (forall device prlogex a b, one_reply false int_failed (do_part_add E device prlogex a b)) /\
  (forall device n, one_reply false int_failed (do_part_del E device n)) /\
  (forall device parttype, one_reply false int_failed (do_part_disk E device parttype)) /\
  (forall device n b, one_reply false int_failed (do_part_set_bootable E device n b)) /\
  (forall device n name, one_reply false int_failed (do_part_set_name E device n name)) /\
  (forall device n id, one_reply false int_failed (do_part_set_mbr_id E device n id)) /\
  (forall device n guid, one_reply false int_failed (do_part_set_gpt_type E device n guid)) /\
  (forall device n, one_reply false ptr_failed (do_part_get_gpt_type E device n)) /\
  (forall device, one_reply true ptr_failed (do_part_get_parttype E device)) /\
  (forall device, one_reply true ptr_failed (do_part_list E device)) /\
  (forall device n, one_reply true int_failed (do_part_get_bootable E device n)).
Proof.
  intros HE. split_and!; intros.
  - by apply do_part_init_one_reply.
  - by apply do_part_add_one_reply.
  - by apply do_part_del_one_reply.
  - by apply do_part_disk_one_reply.
  - by apply do_part_set_bootable_one_reply.
  - by apply do_part_set_name_one_reply.
  - by apply do_part_set_mbr_id_one_reply.
  - by apply do_part_set_gpt_type_one_reply.
  - by apply do_part_get_gpt_type_one_reply.
  - by apply do_part_get_parttype_one_reply.
  - by apply do_part_list_one_reply.
  - by apply do_part_get_bootable_one_reply.
Qed.

Lemma ex_env_starts out : Starts (ex_env out).
Proof. constructor; intros; cbn; try (by case_match); eauto. Qed.
Lemma parted_one_reply_witness :
  one_reply false int_failed (do_part_init (ex_env "") "/dev/sda" "mbr") /\
  one_reply true ptr_failed (do_part_list (ex_env "BYT;") "/dev/sda").
Proof.
  split.
  - exact (proj1 (parted_one_reply (ex_env "") (ex_env_starts "")) "/dev/sda" "mbr").
  - destruct (parted_one_reply (ex_env "BYT;") (ex_env_starts "BYT;")) as (_ & _ & _ & _ & _ & _ & _ & _ & _ & _ & H & _).
    exact (H "/dev/sda").
Defined.

(** What a table with too few fields does to part_get_name: two error replies
    are sent for one call. *)
Definition short_table : string :=
  str_unlines ["BYT;"; "/dev/sda:1B:scsi:512:512:gpt:QEMU:;"; "1:1B:2B:2B;"].
Lemma part_get_name_replies_twice : exists s',
  do_part_get_name (ex_env short_table) "/dev/sda" 1 ex_pstate = (Ret None, s') /\ replies (ps_log s') = 2%nat.
Proof. eexists. split; vm_compute; reflexivity. Qed.

(** A table without the line that describes the device is read past its end. *)
Lemma part_list_reads_past_end :
  fst (do_part_list (ex_env "BYT;") "/dev/sda" ex_pstate) = Stop Undefined.
Proof. vm_compute. reflexivity. Qed.
