(* ===== verification/DevParts.v ===== *)
(** daemon/devsparts.c: the block devices and partitions of the appliance, and
    the names of partitions. *)

From S2P Require Import Prelude Xdr Handle Utils Events Conn Command Guestfsd Procs.
From stdpp Require Import sorting.
From Stdlib Require Import Ascii.

Open Scope Z_scope.
#[local] Arguments String.append : simpl nomatch.

(** * The file system of the appliance *)

(** A directory as opendir, readdir and closedir give it: the entries up to
    the end or to a failing readdir. *)
Record directory := mk_directory {
  dir_open : option Z;          (* the errno of opendir *)
  dir_entries : list string;
  dir_errno : Z;                (* 0, or the errno of the readdir that fails *)
  dir_close : option Z          (* the errno of closedir *)
}.

(** realpath: an errno, or the path and the value errno is left at. *)
Record sysfs := mk_sysfs {
  sf_dir : string -> directory;
  sf_stat_errno : string -> option Z;        (* None: stat succeeds *)
  sf_realpath : string -> Z + string * Z
}.

Definition ENOTDIR : Z := 20.

(** reply_with_perror for a call whose errno is known. *)
Definition perror_reply (E : denv) (e : Z) (msg : string) : proc unit :=
  log (Replied e (msg +:+ ": " +:+ ev_strerror E e)).

(** * Sorting *)

Definition dev_le (a b : string) : Prop :=
  match compare_device_names a b with Ret z => z <= 0 | Stop _ => True end.
#[export] Instance dev_le_dec a b : Decision (dev_le a b).
Proof. unfold dev_le. destruct (compare_device_names a b); apply _. Defined.

Definition comparable (a b : string) : bool :=
  match compare_device_names a b with Ret _ => true | Stop _ => false end.

(** qsort with compare_device_names.  A name that the assertions reject is
    compared with another one as soon as there are two. *)
Definition sort_device_names (argv : list string) : outcome (list string) :=
  match argv with
  | [] | [_] => Ret argv
  | _ => if forallb (fun a => forallb (fun b => comparable a b) argv) argv then Ret (merge_sort dev_le argv)
         else Stop AssertFailed
  end.

Section devices.
Context (E : denv) (F : sysfs).

(** * Listing *)

Definition block_name (name : string) : bool :=
  STRPREFIX name "sd" || STRPREFIX name "hd" || STRPREFIX name "ubd" || STRPREFIX name "vd" || STRPREFIX name "sr".

(** A device the loop passes to its function: not the root device, and it can
    be opened. *)
Definition wanted (fs : dev_fs) (name : string) : bool :=
  let dev_path := snprintf 256 ("/dev/" +:+ name) in
  block_name name && negb (is_root_device fs dev_path) && opens fs dev_path.

(** The function called for a device: the strings it adds to the list, or the
    errno it failed with after replying and freeing the list. *)
Definition block_dev_func := string -> proc (Z + list string).

(** The loop over the entries; [inr r] when readdir has given NULL, [inl e] on
    the break after a failure, with the list at that point. *)
Fixpoint block_loop (func : block_dev_func) (fs : dev_fs) (entries : list string) (r : list string) :
    proc (Z * list string + list string) :=
  match entries with
  | [] => ret (inr r)
  | d :: entries' =>
      if wanted fs d then
        x <- func d ;;
        match x with
        | inl e => ret (inl (e, r))
        | inr new => block_loop func fs entries' (r ++ new)
        end
      else block_loop func fs entries' r
  end.

(** free_stringslen of a list that the function has freed already. *)
Definition free_again (r : list string) : proc unit :=
  match r with [] => ret tt | _ => halt Undefined end.

Definition foreach_block_device (func : block_dev_func) : proc (option (list string)) := fun s =>
  let dir := sf_dir F "/sys/block" in
  match dir_open dir with
  | Some e => (perror_reply E e "opendir: /sys/block" ;;; ret None) s
  | None =>
      (x <- block_loop func (ev_fs E (ps_log s)) (dir_entries dir) [] ;;
       match x with
       | inl (e, r) =>
           (if e =? 0 then ret tt else perror_reply E e "readdir: /sys/block") ;;;
           free_again r ;;; ret None
       | inr r =>
           if negb (dir_errno dir =? 0) then perror_reply E (dir_errno dir) "readdir: /sys/block" ;;; ret None
           else match dir_close dir with
                | Some e => perror_reply E e "closedir: /sys/block" ;;; ret None
                | None => match sort_device_names r with
                          | Ret l => ret (Some l)
                          | Stop w => halt w
                          end
                end
       end) s
  end.

Definition add_device : block_dev_func := fun device => ret (inr [snprintf 256 ("/dev/" +:+ device)]).
Definition do_list_devices : proc (option (list string)) := foreach_block_device add_device.

Definition add_partitions : block_dev_func := fun device =>
  let devdir := snprintf 256 ("/sys/block/" +:+ device) in
  let dir := sf_dir F devdir in
  match dir_open dir with
  | Some e => perror_reply E e ("opendir: " +:+ devdir) ;;; ret (inl e)
  | None =>
      let parts := (fun d => snprintf 256 ("/dev/" +:+ d)) <$> List.filter (fun d => STRPREFIX d device) (dir_entries dir) in
      if negb (dir_errno dir =? 0) then
        perror_reply E (dir_errno dir) ("readdir: " +:+ devdir) ;;; ret (inl (dir_errno dir))
      else match dir_close dir with
           | Some e => perror_reply E e ("closedir: /sys/block/" +:+ device) ;;; ret (inl e)
           | None => ret (inr parts)
           end
  end.
Definition do_list_partitions : proc (option (list string)) := foreach_block_device add_partitions.

(** * Names of partitions *)

(** The loop that walks back over digits: the device, and the digits. *)
Fixpoint split_digits (s : string) : string * string :=
  match s with
  | EmptyString => ("", "")
  | String c s' =>
      let '(dev, num) := split_digits s' in
      if STREQ dev "" && c_isdigit c then ("", String c num) else (String c dev, num)
  end.
Definition not_a_partition : string := "device name is not a partition".

Definition do_part_to_dev (part : string) : proc (option string) :=
  match split_digits part with
  | (_, EmptyString) => fail not_a_partition None
  | (dev, _) => ret (Some dev)
  end.

Definition do_part_to_partnum (part : string) : proc Z :=
  match split_digits part with
  | (_, EmptyString) => fail not_a_partition (-1)
  | (_, num) => match sscanf num [pct_d] with
                | [r] => ret r
                | _ => fail "could not parse number" (-1)
                end
  end.

Definition do_is_whole_device (device : string) : proc Z :=
  match sf_stat_errno F ("/sys/block/" +:+ str_drop 5 device +:+ "/device") with
  | Some e => if (e =? ENOENT) || (e =? ENOTDIR) then ret 0 else perror_reply E e "stat" ;;; ret (-1)
  | None => ret 1
  end.

(** [for (i = 0; devices[i] != NULL; ++i)]: the last index at which the device stands. *)
Fixpoint last_index (device : string) (devices : list string) (i : nat) (r : Z) : Z :=
  match devices with
  | [] => r
  | d :: devices' => last_index device devices' (S i) (if STREQ device d then s32 (Z.of_nat i) else r)
  end.
Definition do_device_index (device : string) : proc Z :=
  devices <- do_list_devices ;;
  match devices with
  | None => ret (-1)
  | Some devices =>
      let r := last_index device devices 0 (-1) in
      if r =? -1 then fail "device not found" (-1) else ret r
  end.
Definition do_nr_devices : proc Z :=
  devices <- do_list_devices ;;
  match devices with
  | None => ret (-1)
  | Some devices => ret (s32 (Z.of_nat (length devices)))
  end.

(** * Disk labels *)

(** The loop: the strings so far, errno, and the entries left.  [None]: an
    error has been replied. *)
Fixpoint label_loop (entries : list string) (r : list string) (e : Z) : proc (option (list string * Z)) :=
  match entries with
  | [] => ret (Some (r, e))
  | d :: entries' =>
      if STRPREFIX d "." then label_loop entries' r e
      else
        let path := "/dev/disk/guestfs/" +:+ d in
        match sf_realpath F path with
        | inl e => perror_reply E e ("realpath: " +:+ path) ;;; ret None
        | inr (rawdev, e') => label_loop entries' (r ++ [d; rawdev]) (if e' =? 0 then e else e')
        end
  end.
Definition do_list_disk_labels : proc (option (list string)) :=
  let dir := sf_dir F "/dev/disk/guestfs" in
  match dir_open dir with
  | Some e => perror_reply E e "opendir: /dev/disk/guestfs" ;;; ret None
  | None =>
      x <- label_loop (dir_entries dir) [] 0 ;;
      match x with
      | None => ret None
      | Some (r, e) =>
          let e := if dir_errno dir =? 0 then e else dir_errno dir in
          if negb (e =? 0) then perror_reply E e "readdir: /dev/disk/guestfs" ;;; ret None
          else match dir_close dir with
               | Some e => perror_reply E e "closedir: /dev/disk/guestfs" ;;; ret None
               | None => ret (Some r)
               end
      end
  end.
End devices.

(** * Properties of names *)

Lemma split_digits_spec s : let '(dev, num) := split_digits s in
  s = dev +:+ num /\ str_forallb c_isdigit num = true /\ (forall a c, dev = a +:+ String c "" -> c_isdigit c = false).
Proof.
  induction s as [|c s IH]; cbn [split_digits]; [split_and!; [done..|]; by intros []|].
  destruct (split_digits s) as [dev num]. destruct IH as (-> & Hn & Hd). unfold STREQ.
  case_bool_decide as Ed; subst; cbn [andb].
  - destruct (c_isdigit c) eqn:Ec.
    + split_and!; [done|cbn; by rewrite Ec, Hn|by intros []].
    + split_and!; [done|done|]. intros [|d a] e Ea; [by injection Ea as <-|]. by destruct a.
  - split_and!; [done|done|]. intros [|d a] e Ea; [by injection Ea|]. injection Ea as _ ->. by eapply Hd.
Qed.
Lemma split_digits_app dev num : (forall a c, dev = a +:+ String c "" -> c_isdigit c = false) ->
  str_forallb c_isdigit num = true -> split_digits (dev +:+ num) = (dev, num).
Proof.
  intros Hd Hn. induction dev as [|c dev IH].
  - induction num as [|c num IHn]; [done|]. cbn in Hn. apply andb_prop in Hn as [Hc Hn]. cbn [String.append] in *.
    cbn [split_digits]. rewrite IHn by done. cbn. by rewrite Hc.
  - rewrite str_app_cons. cbn [split_digits]. rewrite IH.
    + unfold STREQ. case_bool_decide as Ed; [|done]. subst. by rewrite (Hd "" c eq_refl).
    + intros a d Ea. apply (Hd (String c a) d). by rewrite Ea, str_app_cons.
Qed.

Lemma strncmp_antisym n : forall a b, strncmp b a n = - strncmp a b n.
Proof.
  induction n as [|n IH]; intros a b; [done|]. destruct a as [|c a], b as [|d b]; cbn [strncmp]; try lia.
  destruct (Ascii.eqb_spec c d) as [->|Hc].
  - rewrite Ascii.eqb_refl. apply IH.
  - destruct (Ascii.eqb_spec d c); [congruence|lia].
Qed.
Lemma s32_total z : s32 z <= 0 \/ s32 (- z) <= 0.
Proof.
  unfold s32. pose proof (Z.mod_pos_bound z (2 ^ 32) ltac:(lia)).
  destruct (decide (z mod 2 ^ 32 = 0)) as [E|E].
  - rewrite E. by left.
  - rewrite (Z.mod_opp_l_nz z (2 ^ 32)) by (done || lia).
    destruct (Z.ltb_spec (z mod 2 ^ 32) (2 ^ 31)), (Z.ltb_spec (2 ^ 32 - z mod 2 ^ 32) (2 ^ 31)); lia.
Qed.
#[export] Instance dev_le_total : Total dev_le.
Proof.
  intros x y. unfold dev_le, compare_device_names.
  destruct (skip_kind (skip_dev x)) as [a|], (skip_kind (skip_dev y)) as [b|]; try by left.
  cbv zeta. set (la := String.length (fst (span_nondigit a))). set (lb := String.length (fst (span_nondigit b))).
  rewrite (Nat.eqb_sym lb la). destruct (Nat.eqb_spec la lb) as [El|El]; cbn [negb].
  - rewrite <- El, (strncmp_antisym la a b). destruct (Z.eqb_spec (strncmp a b la) 0) as [Er|Er]; cbn [negb].
    + rewrite Er. cbn [Z.opp Z.eqb negb]. rewrite (andb_comm (STREQ (str_drop la b) "")).
      destruct (STREQ (str_drop la a) "" && _); [by left|].
      destruct (sscanf_d (str_drop la a)) as [p|], (sscanf_d (str_drop la b)) as [q|]; try by left.
      replace (q - p) with (- (p - q)) by lia. apply s32_total.
    + destruct (Z.eqb_spec (- strncmp a b la) 0); [lia|]. cbn [negb]. lia.
  - replace (Z.of_nat lb - Z.of_nat la) with (- (Z.of_nat la - Z.of_nat lb)) by lia. apply s32_total.
Qed.

(** ** The order *)

Definition dn_le (a b : devname) : Prop := dn_before a b \/ dn_same a b.
#[export] Instance dn_le_trans : Transitive dn_le.
Proof.
  unfold dn_le, dn_before, dn_same. intros [k1 d1 p1] [k2 d2 p2] [k3 d3 p3]. cbn.
  intros H1 H2. destruct H1 as [[?|(? & p & q & ? & ? & ?)]|[? ?]], H2 as [[?|(? & p' & q' & ? & ? & ?)]|[? ?]];
    simplify_eq; try (left; left; lia).
  - left. right. split; [done|]. exists p, q'. split_and!; [done..|lia].
  - left. right. split; [done|]. by exists p, q.
  - left. right. split; [done|]. by exists p', q'.
  - by right.
Qed.

(** All whole devices, or all partitions. *)
Definition one_sort (ds : list devname) : Prop :=
  Forall (fun d => dn_part d = None) ds \/ Forall (fun d => is_Some (dn_part d)) ds.

Lemma one_sort_comparable ds a b : one_sort ds -> a ∈ ds -> b ∈ ds -> dn_ok a -> dn_ok b ->
  comparable (dn_string a) (dn_string b) = true /\ (dev_le (dn_string a) (dn_string b) <-> dn_le a b).
Proof.
  intros Hs Ha Hb Oa Ob. pose proof (compare_dn_spec a b Oa Ob) as H. unfold comparable, dev_le.
  destruct (compare_device_names _ _) as [z|w].
  - split; [done|]. destruct H as [H1 H2]. unfold dn_le. rewrite <- H1, <- H2. lia.
  - exfalso. destruct H as (_ & _ & H). destruct Hs as [Hs|Hs]; rewrite Forall_forall in Hs;
      pose proof (Hs a Ha) as Pa; pose proof (Hs b Hb) as Pb; cbn in Pa, Pb.
    + rewrite Pa, Pb in H. by destruct (proj2 H eq_refl).
    + apply H in Pa. rewrite Pa in Pb. by destruct Pb.
Qed.

Lemma sort_device_names_dn ds : Forall dn_ok ds -> one_sort ds ->
  exists ds', sort_device_names (dn_string <$> ds) = Ret (dn_string <$> ds') /\ ds' ≡ₚ ds /\ StronglySorted dn_le ds'.
Proof.
  intros Hok Hs. assert (Forall (fun a => Forall (fun b => comparable (dn_string a) (dn_string b) = true /\
    (dev_le (dn_string a) (dn_string b) <-> dn_le a b)) ds) ds) as Hc.
  { apply Forall_forall. intros a Ha. apply Forall_forall. intros b Hb. rewrite Forall_forall in Hok.
    eapply one_sort_comparable; eauto. }
  assert (exists ds', merge_sort dev_le (dn_string <$> ds) = dn_string <$> ds' /\ ds' ≡ₚ ds /\ StronglySorted dn_le ds') as (ds' & E & Hp & Hst).
  { pose proof (merge_sort_Permutation dev_le (dn_string <$> ds)) as Hp.
    apply Permutation_map_inv in Hp as (ds' & E & Hp). exists ds'. rewrite E. split_and!; [done|by symmetry|].
    apply Sorted_StronglySorted; [apply dn_le_trans|].
    pose proof (Sorted_merge_sort dev_le (dn_string <$> ds)) as HS. rewrite E in HS.
    assert (forall x, x ∈ ds' -> x ∈ ds) as Hin by (intros x; by rewrite Hp).
    clear E Hp. induction ds' as [|a ds' IH]; [constructor|]. inversion HS as [|? ? HS' Hh]; subst.
    constructor; [apply IH; [done|]; intros x Hx; apply Hin; by right|].
    destruct ds' as [|b ds']; [constructor|]. constructor. inversion Hh; subst.
    rewrite Forall_forall in Hc. specialize (Hc a (Hin a ltac:(left))). rewrite Forall_forall in Hc.
    apply (Hc b (Hin b ltac:(right; left))). done. }
  destruct ds as [|a [|b ds]].
  - exists []. split_and!; [done|done|constructor].
  - exists [a]. split_and!; [done|done|repeat constructor].
  - exists ds'. split_and!; [|done|done]. unfold sort_device_names. cbn [fmap list_fmap] in *. rewrite E.
    assert (forallb (fun x => forallb (fun y => comparable x y) (dn_string <$> (a :: b :: ds))) (dn_string <$> (a :: b :: ds)) = true) as HH.
    { apply forallb_forall. intros x Hx. apply in_map_iff in Hx as (p & <- & Hx). apply forallb_forall. intros y Hy.
      apply in_map_iff in Hy as (q & <- & Hy). rewrite Forall_forall in Hc. specialize (Hc p ltac:(by apply list_elem_of_In)).
      rewrite Forall_forall in Hc. by apply (Hc q ltac:(by apply list_elem_of_In)). }
    cbn [fmap list_fmap] in HH. by rewrite HH.
Qed.

(** ** The loop over the devices *)

(** The name in /sys/block. *)
Definition dn_short (d : devname) : string := dn_kind d +:+ "d" +:+ dn_letters d +:+ part_string (dn_part d).
Definition dn_fits (d : devname) : Prop := dn_ok d /\ (String.length (dn_string d) < 256)%nat.

Lemma block_loop_run func fs f : (forall d s, wanted fs d = true -> func d s = (Ret (inr (f d)), s)) ->
  forall entries r s, block_loop func fs entries r s =
    (Ret (inr (r ++ List.concat (f <$> List.filter (wanted fs) entries))), s).
Proof.
  intros Hf. induction entries as [|d entries IH]; intros r s; cbn [block_loop List.filter].
  - by rewrite app_nil_r.
  - destruct (wanted fs d) eqn:Ew; [|apply IH].
    rewrite (bind_Ret _ _ _ _ _ (Hf d s Ew)), IH. cbn [fmap list_fmap List.concat]. by rewrite app_assoc.
Qed.

Lemma foreach_sorted E F func f entries ds s : sf_dir F "/sys/block" = mk_directory None entries 0 None ->
  (forall d s', wanted (ev_fs E (ps_log s)) d = true -> func d s' = (Ret (inr (f d)), s')) ->
  List.concat (f <$> List.filter (wanted (ev_fs E (ps_log s))) entries) = dn_string <$> ds ->
  Forall dn_ok ds -> one_sort ds ->
  exists ds', foreach_block_device E F func s = (Ret (Some (dn_string <$> ds')), s) /\ ds' ≡ₚ ds /\ StronglySorted dn_le ds'.
Proof.
  intros Hd Hf Hc Hok Hs. destruct (sort_device_names_dn ds Hok Hs) as (ds' & Es & Hp & Hst). exists ds'.
  split_and!; [|done|done]. unfold foreach_block_device. rewrite Hd. cbn [dir_open dir_entries dir_errno dir_close].
  rewrite (bind_Ret _ _ _ _ _ (block_loop_run func _ f Hf entries [] s)). cbn [app Z.eqb negb].
  by rewrite Hc, Es.
Qed.

Lemma concat_singletons {A B} (f : A -> B) l : List.concat ((fun d => [f d]) <$> l) = f <$> l.
Proof. induction l as [|a l IH]; [done|]. cbn. by rewrite <- IH. Qed.

Lemma last_index_spec device l : NoDup l -> forall i r, Z.of_nat (i + length l) < 2 ^ 31 ->
  last_index device l i r = match list_find (fun d => d = device) l with Some (j, _) => Z.of_nat (i + j) | None => r end.
Proof.
  intros Hn. induction Hn as [|d l Hd Hn IH]; intros i r Hl; [cbn; done|]. cbn [last_index length] in *.
  rewrite IH by lia. cbn [list_find]. unfold STREQ. case_decide as E; subst.
  - rewrite bool_decide_true by done.
    destruct (list_find _ l) as [[j x]|] eqn:Ef; [|rewrite s32_id by lia; f_equal; lia].
    apply list_find_Some in Ef as (Hj & -> & _). exfalso. apply Hd. by eapply list_elem_of_lookup_2.
  - rewrite bool_decide_false by congruence. destruct (list_find _ l) as [[j x]|]; cbn; [|done]. f_equal. lia.
Qed.

(** * Properties *)

(** The list of devices: when /sys/block can be read, list_devices gives exactly the block
    devices that are not the root device and can be opened, each once, in the order sda, sdb,
    .., sdz, sdaa; device_index gives the position of each of them in that list, and nr_devices
    their number. *)
Theorem list_devices_sorted (E : denv) (F : sysfs) (entries : list string) (ds : list devname) (s : pstate) :
  sf_dir F "/sys/block" = mk_directory None entries 0 None ->
  List.filter (wanted (ev_fs E (ps_log s))) entries = dn_short <$> ds ->
  Forall dn_fits ds -> Forall (fun d => dn_part d = None) ds -> NoDup (dn_string <$> ds) ->
  Z.of_nat (length ds) < 2 ^ 31 ->
  exists ds', do_list_devices E F s = (Ret (Some (dn_string <$> ds')), s) /\
    ds' ≡ₚ ds /\ StronglySorted dn_le ds' /\
    do_nr_devices E F s = (Ret (Z.of_nat (length ds)), s) /\
    forall i d, ds' !! i = Some d -> do_device_index E F (dn_string d) s = (Ret (Z.of_nat i), s).
Proof.
  intros Hd Hw Hfit Hnone Hnd Hlen.
  destruct (foreach_sorted E F add_device (fun d => [snprintf 256 ("/dev/" +:+ d)]) entries ds s Hd) as (ds' & El & Hp & Hst);
    [done| |eapply Forall_impl; [exact Hfit|by intros ? []]|by left|].
  { rewrite concat_singletons, Hw, <- list_fmap_compose. clear Hw Hnd Hlen Hnone. induction Hfit as [|d ds [Hok Hl] _ IH]; [done|].
    cbn [fmap list_fmap compose] in *. rewrite IH. f_equal. by apply snprintf_id. }
  assert (length ds' = length ds) as Hl' by by rewrite Hp.
  exists ds'. split_and!; [exact El|done|done| |].
  - unfold do_nr_devices, do_list_devices. rewrite (bind_Ret _ _ _ _ _ El). unfold ret.
    by rewrite length_fmap, Hl', s32_id by lia.
  - intros i d Hi. unfold do_device_index, do_list_devices. rewrite (bind_Ret _ _ _ _ _ El).
    assert (NoDup (dn_string <$> ds')) as Hnd' by by rewrite Hp.
    rewrite last_index_spec by (done || rewrite length_fmap; lia).
    assert ((dn_string <$> ds') !! i = Some (dn_string d)) as Hi' by by rewrite list_lookup_fmap, Hi.
    assert (list_find (fun x => x = dn_string d) (dn_string <$> ds') = Some (i, dn_string d)) as ->.
    { apply list_find_Some. split_and!; [done|done|]. intros j y Hj Hlt ->.
      pose proof (NoDup_lookup _ _ _ _ Hnd' Hi' Hj). lia. }
    cbn [Nat.add]. destruct (Z.eqb_spec (Z.of_nat i) (-1)); [lia|done].
Qed.

Definition ex_sysfs : sysfs :=
  mk_sysfs (fun p => if STREQ p "/sys/block" then mk_directory None ["vdb"; "ram0"; "sdaa"; "sda"; "."] 0 None
                     else mk_directory None [] 0 None) (fun _ => None) (fun p => inr (p, 0)).
Definition ex_denv : denv :=
  mk_denv (fun _ _ => printing "") (fun _ _ => inr 0) (fun _ _ _ => None)
    (fun _ => mk_dev_fs (fun _ => None) (fun _ => Some (false, 1)) (fun _ => false) 0) (fun _ => Some [])
    (fun _ _ => 0) (fun _ => "") "/sysroot".
Definition ex_state : pstate := mk_pstate [] ∅.
Lemma list_devices_sorted_witness : exists ds', 
  do_list_devices ex_denv ex_sysfs ex_state = (Ret (Some (dn_string <$> ds')), ex_state) /\
  StronglySorted dn_le ds' /\ do_nr_devices ex_denv ex_sysfs ex_state = (Ret 3, ex_state).
Proof.
  destruct (list_devices_sorted ex_denv ex_sysfs ["vdb"; "ram0"; "sdaa"; "sda"; "."]
    [mk_devname "v" 1 None; mk_devname "s" 26 None; mk_devname "s" 0 None] ex_state) as (ds' & E & _ & Hs & Hn & _).
  - reflexivity.
  - vm_compute. reflexivity.
  - assert (forall a b, (a <=? b)%nat = true -> (a <= b)%nat) as Hle by (intros a b; apply Nat.leb_le).
    repeat constructor; cbn [dn_kind dn_drive dn_part]; try set_solver; try lia; apply Hle; vm_compute; reflexivity.
  - repeat constructor.
  - apply (bool_decide_unpack _). vm_compute. exact I.
  - cbn. lia.
  - exists ds'. split_and!; [exact E|exact Hs|exact Hn].
Defined.

(** Partition names: a device name that does not end in a digit followed by a number below
    2^31 is split back into that device and that number; and whatever name is given, the two procedures
    succeed together, exactly when it ends in a digit, the device being the name without its final digits. *)
Theorem part_name_roundtrip :
  (forall (dev : string) (n : N) s, (forall a c, dev = a +:+ String c "" -> c_isdigit c = false) ->
     Z.of_N n < 2 ^ 31 ->
     do_part_to_dev (dev +:+ pretty n) s = (Ret (Some dev), s) /\
     do_part_to_partnum (dev +:+ pretty n) s = (Ret (Z.of_N n), s)) /\
  (forall part s, match do_part_to_dev part s with
     | (Ret (Some dev), s') => s' = s /\ exists num, part = dev +:+ num /\ num <> "" /\ str_forallb c_isdigit num = true /\
         (forall a c, dev = a +:+ String c "" -> c_isdigit c = false)
     | (Ret None, s') => do_part_to_partnum part s = (Ret (-1), s') /\
         (forall a c, part = a +:+ String c "" -> c_isdigit c = false)
     | (Stop _, _) => False
     end).
Proof.
  split.
  - intros dev n s Hd Hn. destruct (pretty_N_spec n) as (Hdig & Hne & _).
    unfold do_part_to_dev, do_part_to_partnum. rewrite split_digits_app by done.
    assert (sscanf (pretty n) [pct_d] = [Z.of_N n]) as Hs.
    { unfold pct_d. cbn [sscanf]. rewrite <- (str_app_nil_r (pretty n)).
      rewrite scan_number_pretty by (by left || done). unfold store_int, clamp_long. rewrite s32_id by lia. f_equal. lia. }
    destruct (pretty n) eqn:En; [done|]. by rewrite Hs.
  - intros part s. pose proof (split_digits_spec part) as H. unfold do_part_to_dev, do_part_to_partnum.
    destruct (split_digits part) as [dev num]. destruct H as (-> & Hn & Hd). destruct num as [|c num]; cbn.
    + split; [done|]. by rewrite str_app_nil_r.
    + split; [done|]. exists (String c num). by split_and!.
Qed.
Lemma part_name_roundtrip_witness :
  do_part_to_dev "/dev/sda12" ex_state = (Ret (Some "/dev/sda"), ex_state) /\
  do_part_to_partnum "/dev/sda12" ex_state = (Ret 12, ex_state).
Proof.
  apply (proj1 part_name_roundtrip "/dev/sda" 12%N ex_state); [|lia].
  intros a c Ha. assert (String.get 7 "/dev/sda" = Some c) as Hc.
  { assert (String.length a = 7%nat) as <- by (apply (f_equal String.length) in Ha; rewrite str_length_app in Ha; cbn in Ha; lia).
    rewrite Ha. apply str_get_last. }
  by injection Hc as <-.
Defined.

(** ** What goes wrong *)

(** A directory that cannot be opened: list_partitions replies twice; and when
    partitions were found before it, the list is freed twice. *)
Definition broken_sysfs (first : list string) : sysfs :=
  mk_sysfs (fun p => if STREQ p "/sys/block" then mk_directory None (first ++ ["vdb"]) 0 None
                     else if STREQ p "/sys/block/vdb" then mk_directory (Some 2) [] 0 None
                     else mk_directory None ["vda1"] 0 None) (fun _ => None) (fun p => inr (p, 0)).
Lemma list_partitions_replies_twice : exists s',
  do_list_partitions ex_denv (broken_sysfs []) ex_state = (Ret None, s') /\ replies (ps_log s') = 2%nat.
Proof. eexists. split; vm_compute; reflexivity. Qed.
Lemma list_partitions_double_free :
  fst (do_list_partitions ex_denv (broken_sysfs ["vda"]) ex_state) = Stop Undefined.
Proof. vm_compute. reflexivity. Qed.
(** Two devices of which one is a CD-ROM drive: the assertion in
    compare_device_names fails. *)
Lemma list_devices_cdrom_aborts :
  fst (do_list_devices ex_denv
    (mk_sysfs (fun _ => mk_directory None ["sda"; "sr0"] 0 None) (fun _ => None) (fun p => inr (p, 0))) ex_state) =
  Stop AssertFailed.
Proof. vm_compute. reflexivity. Qed.
