(* ===== verification/Filesys.v ===== *)
(** The procedures that make, label, tune and describe file systems:
    daemon/blkid.c, daemon/labels.c, daemon/uuids.c, daemon/mkfs.c,
    daemon/ext2.c.

    An optional argument that the caller has not given, whose bit is not set in
    optargs_bitmask, is [None]. *)

From S2P Require Import Prelude Xdr Handle Utils Events Conn Command Guestfsd Procs.
From stdpp Require Import sorting.
From Stdlib Require Import Ascii.

Open Scope Z_scope.
#[local] Arguments String.append : simpl nomatch.

(** The argument vector of a program: [ADD_ARG] aborts when the array of
    [max] entries, the final NULL included, is full. *)
Definition check_args (max : nat) (argv : list string) : proc unit :=
  if (max <? S (length argv))%nat then halt AssertFailed else ret tt.

(** Arguments made from optional arguments, or the error that is replied. *)
Inductive arg_error := Bad (msg : string) | BadErrno (call msg : string).
Definition args := (arg_error + list string)%type.
Fixpoint all_args (l : list args) : args :=
  match l with
  | [] => inr []
  | inl e :: _ => inl e
  | inr a :: l' => match all_args l' with inl e => inl e | inr b => inr (a ++ b) end
  end.

(** A number that must not be negative, after a flag; [fmt] makes the text. *)
Definition opt_num (flag name : string) (size : nat) (msg : string) (fmt : Z -> string) (v : option Z) : args :=
  match v with
  | None => inr []
  | Some n => if n <? 0 then inl (Bad (name +:+ msg)) else inr [flag; snprintf size (fmt n)]
  end.
Definition opt_flag (flag : string) (v : option bool) : args :=
  inr (match v with Some true => [flag] | _ => [] end).
Definition opt_str (flag : string) (v : option string) : args :=
  inr (match v with Some s => [flag; s] | None => [] end).
Definition opt_switch (flag on off : string) (v : option bool) : args :=
  inr (match v with Some b => [flag; if b then on else off] | None => [] end).

Definition EXT2_LABEL_MAX : nat := 16.
Definition fstype_is_extfs (fstype : string) : bool :=
  STREQ fstype "ext2" || STREQ fstype "ext3" || STREQ fstype "ext4".

Section filesystems.
Context (E : denv).

Definition fail_args {A} (e : arg_error) (r : A) : proc A :=
  match e with Bad msg => fail msg r | BadErrno call msg => pfail E call msg r end.

(** * daemon/blkid.c *)

(** Drop one final newline. *)
Definition chomp (s : string) : string :=
  let n := String.length s in
  match String.get (n - 1) s with
  | Some c => if Ascii.eqb c nl_char then String.substring 0 (n - 1) s else s
  | None => s
  end.

Definition get_blkid_tag (device tag : string) : proc (option string) :=
  let* (r, out, err) := commandr_out E ["blkid"; "-c"; "/dev/null"; "-o"; "value"; "-s"; tag; device] in
  if negb (r =? 0) && negb (r =? 2) then
    fail (device +:+ ": " +:+ fmt_s err +:+
          (if 0 <=? r then " (blkid returned " +:+ pretty r +:+ ")" else "")) None
  else if r =? 2 then ret (Some "")
  else ret (Some (chomp (default "" out))).

Definition do_vfs_type (m : mountable_t) : proc (option string) := get_blkid_tag (mt_device m) "TYPE".
Definition do_vfs_label (m : mountable_t) : proc (option string) := get_blkid_tag (mt_device m) "LABEL".
Definition do_vfs_uuid (m : mountable_t) : proc (option string) := get_blkid_tag (mt_device m) "UUID".

Definition test_blkid_p_i_opt : proc Z :=
  let* (r, err) := commandr_err E ["blkid"; "-p"; "/dev/null"] in
  let failed := fail ("could not run 'blkid' command: " +:+ fmt_s err) (-1) in
  if r =? -1 then failed
  else if strstr (default "" err) "invalid option --" then ret 0
  else
    let* (r, err2) := commandr_err E ["blkid"; "-i"] in
    if r =? -1 then failed
    else if strstr (default "" err2) "invalid option --" then ret 0
    else ret 1.

(** key=value lines, as a list of keys and values; lines that are not of this
    form are ignored. *)
Fixpoint key_values (key : string -> string) (lines : list string) : list string :=
  match lines with
  | [] => []
  | line :: lines' =>
      match strcspn "=" line with
      | (k, String _ v) => key k :: v :: key_values key lines'
      | (_, EmptyString) => key_values key lines'
      end
  end.

Definition blkid_with_p_i_opt (device : string) : proc (option (list string)) :=
  let* (r, out, err) := command_out E ["blkid"; "-c"; "/dev/null"; "-p"; "-i"; "-o"; "export"; device] in
  if r =? -1 then fail (fmt_s err) None
  else ret (Some (key_values (fun k => k) (split_lines (default "" out)))).

Fixpoint blkid_tags (device : string) (tags : list string) : proc (option (list string)) :=
  match tags with
  | [] => ret (Some [])
  | tag :: tags' =>
      s <- get_blkid_tag device tag ;;
      match s with
      | None => ret None
      | Some s => r <- blkid_tags device tags' ;; ret ((fun l => tag :: s :: l) <$> r)
      end
  end.
Definition blkid_without_p_i_opt (device : string) : proc (option (list string)) :=
  blkid_tags device ["TYPE"; "LABEL"; "UUID"].

Definition do_blkid (device : string) : proc (option (list string)) :=
  opt <- get_static "do_blkid.blkid_has_p_i_opt" ;;
  opt <- (if opt =? -1 then
            opt <- test_blkid_p_i_opt ;;
            set_static "do_blkid.blkid_has_p_i_opt" opt ;;; ret opt
          else ret opt) ;;
  if opt =? -1 then ret None
  else if is_true opt then blkid_with_p_i_opt device
  else blkid_without_p_i_opt device.

(** * daemon/labels.c *)

Definition run_err (argv : list string) : proc Z := run_or (command_err E argv) (fun err => err).

Definition label_too_long (label : string) : string :=
  label +:+ ": ext2 labels are limited to " +:+ pretty (Z.of_nat EXT2_LABEL_MAX) +:+ " bytes".

Definition btrfslabel (device label : string) : proc Z := run_err ["btrfs"; "filesystem"; "label"; device; label].
Definition dosfslabel (device label : string) : proc Z := run_err ["dosfslabel"; device; label].
Definition e2label (device label : string) : proc Z :=
  if (EXT2_LABEL_MAX <? String.length label)%nat then fail (label_too_long label) (-1)
  else run_err ["e2label"; device; label].
Definition ntfslabel (device label : string) : proc Z := run_err ["ntfslabel"; device; label].
Definition xfslabel (device label : string) : proc Z :=
  if STREQ label "---" then fail "xfs: invalid new label" (-1)
  else run_err ["xfs_admin"; "-L"; label; device].

Definition do_set_label (m : mountable_t) (label : string) : proc Z :=
  vfs_type <- do_vfs_type m ;;
  match vfs_type with
  | None => ret (-1)
  | Some vfs_type =>
      if STREQ vfs_type "btrfs" then btrfslabel (mt_device m) label
      else if STREQ vfs_type "msdos" || STREQ vfs_type "fat" || STREQ vfs_type "vfat" then
        dosfslabel (mt_device m) label
      else if fstype_is_extfs vfs_type then e2label (mt_device m) label
      else if STREQ vfs_type "ntfs" then ntfslabel (mt_device m) label
      else if STREQ vfs_type "xfs" then xfslabel (mt_device m) label
      else fail ("don't know how to set the label for '" +:+ vfs_type +:+ "' filesystems") (-1)
  end.

(** * daemon/uuids.c *)

Definition e2uuid (device uuid : string) : proc Z :=
  if STREQ uuid "clear" || STREQ uuid "random" || STREQ uuid "time" then fail "e2: invalid new UUID" (-1)
  else run_err ["tune2fs"; "-U"; uuid; device].
Definition xfsuuid (device uuid : string) : proc Z :=
  if STREQ uuid "nil" || STREQ uuid "generate" then fail "xfs: invalid new UUID" (-1)
  else run_err ["xfs_admin"; "-U"; uuid; device].
Definition do_set_uuid (device uuid : string) : proc Z :=
  vfs_type <- get_blkid_tag device "TYPE" ;;
  match vfs_type with
  | None => ret (-1)
  | Some vfs_type =>
      if fstype_is_extfs vfs_type then e2uuid device uuid
      else if STREQ vfs_type "xfs" then xfsuuid device uuid
      else fail ("don't know how to set the UUID for '" +:+ vfs_type +:+ "' filesystems") (-1)
  end.

(** * daemon/mkfs.c *)

Record mkfs_optargs := mk_mkfs_optargs {
  mkfs_blocksize : option Z; mkfs_features : option string; mkfs_inode : option Z; mkfs_sectorsize : option Z
}.

(** The arguments that depend on the type only. *)
Definition mkfs_type_args (fstype : string) : list string :=
  (if fstype_is_extfs fstype then ["mke2fs"] else ["mkfs"]) ++ ["-t"; fstype] ++
  (if fstype_is_extfs fstype then ["-F"] else []) ++
  (if STREQ fstype "ntfs" then ["-Q"; "-F"] else []) ++
  (if STREQ fstype "reiserfs" || STREQ fstype "jfs" || STREQ fstype "xfs" then ["-f"] else []) ++
  (if STREQ fstype "gfs" || STREQ fstype "gfs2" then ["-p"; "lock_nolock"; "-j"; "1"; "-O"] else []) ++
  (if STREQ fstype "fat" || STREQ fstype "vfat" || STREQ fstype "msdos" then ["-I"] else []).

Definition is_power_of_2_int (blocksize : Z) : bool := is_power_of_2 (u64 blocksize).

(** The blocksize parameter; [None]: an error has been replied. *)
Definition mkfs_blocksize_args (fstype device : string) (blocksize : option Z) : proc (option (list string)) :=
  match blocksize with
  | None => ret (Some [])
  | Some blocksize =>
      if (blocksize <=? 0) || negb (is_power_of_2_int blocksize) then
        fail "block size must be > 0 and a power of 2" None
      else if STREQ fstype "vfat" || STREQ fstype "msdos" then
        sectorsize <- do_blockdev_getss E device ;;
        if sectorsize =? -1 then ret None
        else if sectorsize =? 0 then halt Undefined      (* division by zero *)
        else
          let sectors_per_cluster := Z.quot blocksize sectorsize in
          if (sectors_per_cluster <? 1) || (128 <? sectors_per_cluster) then
            fail ("unsupported cluster size for " +:+ fstype +:+ " filesystem (requested cluster size = " +:+
                  pretty blocksize +:+ ", sector size = " +:+ pretty sectorsize +:+
                  ", trying sectors per cluster = " +:+ pretty sectors_per_cluster +:+ ")") None
          else ret (Some ["-s"; snprintf 32 (pretty sectors_per_cluster)])
      else if STREQ fstype "ntfs" then ret (Some ["-c"; snprintf 32 (pretty blocksize)])
      else if STREQ fstype "btrfs" then
        fail "blocksize cannot be set on btrfs filesystems, use 'mkfs-btrfs'" None
      else if STREQ fstype "xfs" then ret (Some ["-b"; snprintf 32 ("size=" +:+ pretty blocksize)])
      else ret (Some ["-b"; snprintf 32 (pretty blocksize)])
  end.

Definition mkfs_other_args (fstype : string) (o : mkfs_optargs) : args :=
  all_args [
    opt_str "-O" (mkfs_features o);
    match mkfs_inode o with
    | None => inr []
    | Some inode =>
        if negb (fstype_is_extfs fstype) then inl (Bad "inode size (-I) can only be set on ext2/3/4 filesystems")
        else if inode <=? 0 then inl (Bad "inode size must be larger than zero")
        else inr ["-I"; snprintf 32 (pretty inode)]
    end;
    match mkfs_sectorsize o with
    | None => inr []
    | Some sectorsize =>
        if negb (STREQ fstype "ufs") then inl (Bad "sector size (-S) can only be set on ufs filesystems")
        else if sectorsize <=? 0 then inl (Bad "sector size must be larger than zero")
        else inr ["-S"; snprintf 32 (pretty sectorsize)]
    end].

(** Wipe the device and make the file system. *)
Definition wipe_and_make (max : nat) (device : string) (argv : list string) (msg : string -> string) : proc Z :=
  check_args max argv ;;;
  wipe_device_before_mkfs E device ;;;
  run_or (command_err E argv) msg.

Definition do_mkfs (fstype device : string) (o : mkfs_optargs) : proc Z :=
  b <- mkfs_blocksize_args fstype device (mkfs_blocksize o) ;;
  match b with
  | None => ret (-1)
  | Some b =>
      match mkfs_other_args fstype o with
      | inl e => fail_args e (-1)
      | inr more =>
          wipe_and_make 64 device (mkfs_type_args fstype ++ b ++ more ++ [device])
            (fun err => fstype +:+ ": " +:+ device +:+ ": " +:+ err)
      end
  end.
Definition do_mkfs_b (fstype : string) (blocksize : Z) (device : string) : proc Z :=
  do_mkfs fstype device (mk_mkfs_optargs (Some blocksize) None None None).

(** * daemon/ext2.c *)

(** The lines up to the first blank one, split at the colon. *)
Fixpoint tune2fs_pairs (lines : list string) : list string :=
  match lines with
  | [] | EmptyString :: _ => []
  | line :: lines' =>
      match strcspn ":" line with
      | (k, String _ v) =>
          let v := skip_spaces v in
          k :: (if STREQ v "<none>" || STREQ v "<not available>" || STREQ v "(none)" then "" else v)
            :: tune2fs_pairs lines'
      | (_, EmptyString) => line :: "" :: tune2fs_pairs lines'
      end
  end.

Definition do_tune2fs_l (device : string) : proc (option (list string)) :=
  let* (r, out, err) := command_out E ["tune2fs"; "-l"; device] in
  if r =? -1 then fail (fmt_s err) None
  else
    let p := default "" out in
    if STRPREFIX p "tune2fs " || STRPREFIX p "tune4fs " then
      match strcspn nl_char p with
      | (_, String _ p) => ret (Some (tune2fs_pairs (split_lines p)))
      | (_, EmptyString) => fail "truncated output" None
      end
    else ret (Some (tune2fs_pairs (split_lines p))).

Definition device_mountable (device : string) : mountable_t := mk_mountable MOUNTABLE_DEVICE device "".
Definition do_set_e2label (device label : string) : proc Z := do_set_label (device_mountable device) label.
Definition do_get_e2label (device : string) : proc (option string) := do_vfs_label (device_mountable device).
Definition do_set_e2uuid (device uuid : string) : proc Z := run_err ["tune2fs"; "-U"; uuid; device].
Definition do_get_e2uuid (device : string) : proc (option string) := do_vfs_uuid (device_mountable device).

Definition if_not_mounted_run_e2fsck (device : string) : proc Z :=
  mounted <- is_device_mounted E device ;;
  if mounted =? -1 then ret (-1)
  else if negb (is_true mounted) then run_or (command_fold E ["e2fsck"; "-fy"; device]) (fun err => err)
  else ret 0.

Definition resize2fs (device : string) (argv : list string) : proc Z :=
  r <- if_not_mounted_run_e2fsck device ;;
  if r =? -1 then ret (-1) else run_err argv.
Definition do_resize2fs (device : string) : proc Z := resize2fs device ["resize2fs"; device].
Definition do_resize2fs_size (device : string) (size : Z) : proc Z :=
  if negb (Z.land size 1023 =? 0) then
    fail (pretty size +:+ ": size must be a round number of kilobytes") (-1)
  else resize2fs device ["resize2fs"; device; snprintf 32 (pretty (Z.quot size 1024) +:+ "K")].
Definition do_resize2fs_M (device : string) : proc Z := resize2fs device ["resize2fs"; "-M"; device].

Definition do_e2fsck (device : string) (correct forceall : option bool) : proc Z :=
  let correct := default false correct in
  let forceall := default false forceall in
  if correct && forceall then
    fail "only one of the options 'correct', 'forceall' may be specified" (-1)
  else
    let argv := ["e2fsck"; "-f"] ++ (if correct then ["-p"] else []) ++ (if forceall then ["-y"] else []) ++ [device] in
    check_args 128 argv ;;;
    let* (r, err) := command_fold E argv in
    if (r =? -1) || (2 <=? r) then fail (fmt_s err) (-1) else ret 0.
Definition do_e2fsck_f (device : string) : proc Z := do_e2fsck device (Some true) None.

(** ** Journals *)

Definition blocksize_s (blocksize : Z) : string := snprintf 32 (pretty blocksize).
Definition make_journal (device : string) (argv : list string) : proc Z :=
  wipe_device_before_mkfs E device ;;; run_err argv.
Definition do_mke2journal (blocksize : Z) (device : string) : proc Z :=
  make_journal device ["mke2fs"; "-F"; "-O"; "journal_dev"; "-b"; blocksize_s blocksize; device].
Definition do_mke2journal_L (blocksize : Z) (label device : string) : proc Z :=
  if (EXT2_LABEL_MAX <? String.length label)%nat then fail (label_too_long label) (-1)
  else make_journal device
         ["mke2fs"; "-F"; "-O"; "journal_dev"; "-b"; blocksize_s blocksize; "-L"; label; device].
Definition do_mke2journal_U (blocksize : Z) (uuid device : string) : proc Z :=
  make_journal device ["mke2fs"; "-F"; "-O"; "journal_dev"; "-b"; blocksize_s blocksize; "-U"; uuid; device].

Definition not_extfs (fstype : string) : string := fstype +:+ ": not a valid extended filesystem type".
Definition make_with_journal (fstype : string) (blocksize : Z) (device jdev : string) : proc Z :=
  make_journal device ["mke2fs"; "-F"; "-t"; fstype; "-J"; jdev; "-b"; blocksize_s blocksize; device].
Definition do_mke2fs_J (fstype : string) (blocksize : Z) (device journal : string) : proc Z :=
  if negb (fstype_is_extfs fstype) then fail (not_extfs fstype) (-1)
  else make_with_journal fstype blocksize device (snprintf (String.length journal + 32) ("device=" +:+ journal)).
Definition do_mke2fs_JL (fstype : string) (blocksize : Z) (device label : string) : proc Z :=
  if negb (fstype_is_extfs fstype) then fail (not_extfs fstype) (-1)
  else if (EXT2_LABEL_MAX <? String.length label)%nat then fail (label_too_long label) (-1)
  else make_with_journal fstype blocksize device (snprintf (String.length label + 32) ("device=LABEL=" +:+ label)).
Definition do_mke2fs_JU (fstype : string) (blocksize : Z) (device uuid : string) : proc Z :=
  if negb (fstype_is_extfs fstype) then fail (not_extfs fstype) (-1)
  else make_with_journal fstype blocksize device (snprintf (String.length uuid + 32) ("device=UUID=" +:+ uuid)).

(** ** tune2fs *)

Record tune2fs_optargs := mk_tune2fs_optargs {
  t2_force : option bool; t2_maxmountcount : option Z; t2_mountcount : option Z; t2_errorbehavior : option string;
  t2_group : option Z; t2_intervalbetweenchecks : option Z; t2_reservedblockspercentage : option Z;
  t2_lastmounteddirectory : option string; t2_reservedblockscount : option Z; t2_user : option Z
}.

Definition tune2fs_args (o : tune2fs_optargs) : args :=
  let num flag name v := opt_num flag name 64 " cannot be negative" pretty v in
  all_args [
    opt_flag "-f" (t2_force o);
    num "-c" "maxmountcount" (t2_maxmountcount o);
    num "-C" "mountcount" (t2_mountcount o);
    match t2_errorbehavior o with
    | None => inr []
    | Some b => if STRNEQ b "continue" && STRNEQ b "remount-ro" && STRNEQ b "panic"
                then inl (Bad ("invalid errorbehavior parameter: " +:+ b)) else inr ["-e"; b]
    end;
    num "-g" "group" (t2_group o);
    opt_num "-i" "intervalbetweenchecks" 64 " cannot be negative"
      (fun n => if 0 <? n then pretty n +:+ "s" else "0") (t2_intervalbetweenchecks o);
    num "-m" "reservedblockspercentage" (t2_reservedblockspercentage o);
    opt_str "-M" (t2_lastmounteddirectory o);
    num "-r" "reservedblockscount" (t2_reservedblockscount o);
    num "-u" "user" (t2_user o)].

Definition do_tune2fs (device : string) (o : tune2fs_optargs) : proc Z :=
  match tune2fs_args o with
  | inl e => fail_args e (-1)
  | inr a =>
      let argv := "tune2fs" :: a ++ [device] in
      check_args 128 argv ;;;
      run_or (command_err E argv) (fun err => device +:+ ": " +:+ err)
  end.

(** ** File attributes *)

(** [char] is signed. *)
Definition schar (c : ascii) : Z := if code c <? 128 then code c else code c - 256.
Definition char_le (a b : ascii) : Prop := schar a <= schar b.
#[local] Instance char_le_dec a b : Decision (char_le a b) := Z_le_dec _ _.

(** The loop stops at a space only; without one it runs off the end. *)
Definition e2attrs_of (out : string) : option string :=
  match strcspn " " out with
  | (_, EmptyString) => None
  | (a, _) => Some (String.string_of_list_ascii
                (merge_sort char_le (List.filter (fun c => negb (Ascii.eqb c "-")) (String.list_ascii_of_string a))))
  end.
Definition do_get_e2attrs (filename : string) : proc (option string) :=
  let* (r, out, err) := command_out E ["lsattr"; "-d"; "--"; sysroot_path (sysroot E) filename] in
  if r =? -1 then fail ("lsattr: " +:+ filename +:+ ": " +:+ fmt_s err) None
  else match e2attrs_of (default "" out) with
       | None => halt Undefined
       | Some a => ret (Some a)
       end.

(** The loop over the attributes: [seen] holds those already met. *)
Fixpoint check_attrs (attrs : string) (seen : list ascii) : option string :=
  match attrs with
  | EmptyString => None
  | String c attrs' =>
      let quoted (msg : string) := msg +:+ " file attribute '" +:+ String c "'" in
      if existsb (Ascii.eqb c) ["R"; "V"; "f"; "v"]%char then Some (quoted "bad")
      else if in_range c 97 122 || in_range c 65 90 then
        if existsb (Ascii.eqb c) seen then Some (quoted "duplicate") else check_attrs attrs' (c :: seen)
      else Some (quoted "unknown")
  end.
Definition do_set_e2attrs (filename attrs : string) (clear : option bool) : proc Z :=
  let sign := if default false clear then "-" else "+" in
  if STREQ attrs "" then ret 0
  else match check_attrs attrs [] with
       | Some msg => fail msg (-1)
       | None =>
           run_or (command_err E ["chattr"; sign +:+ attrs; "--"; sysroot_path (sysroot E) filename])
             (fun err => "chattr: " +:+ filename +:+ ": " +:+ err)
       end.

Definition do_get_e2generation (filename : string) : proc Z :=
  let* (r, out, err) := command_out E ["lsattr"; "-dv"; "--"; sysroot_path (sysroot E) filename] in
  if r =? -1 then fail ("lsattr: " +:+ filename +:+ ": " +:+ fmt_s err) (-1)
  else match sscanf (default "" out) [pct_u64] with
       | [v] => ret v
       | _ => fail ("cannot parse output from 'lsattr' command: " +:+ fmt_s out) (-1)
       end.
Definition do_set_e2generation (filename : string) (generation : Z) : proc Z :=
  run_or (command_err E ["chattr"; "-v"; snprintf 64 (pretty (u64 generation)); "--"; sysroot_path (sysroot E) filename])
    (fun err => "chattr: " +:+ filename +:+ ": " +:+ err).

(** ** mke2fs *)

Record mke2fs_optargs := mk_mke2fs_optargs {
  m2_blockscount : option Z; m2_blocksize : option Z; m2_fragsize : option Z; m2_blockspergroup : option Z;
  m2_numberofgroups : option Z; m2_bytesperinode : option Z; m2_inodesize : option Z; m2_journalsize : option Z;
  m2_numberofinodes : option Z; m2_stridesize : option Z; m2_stripewidth : option Z; m2_maxonlineresize : option Z;
  m2_reservedblockspercentage : option Z; m2_mmpupdateinterval : option Z; m2_journaldevice : option string;
  m2_label : option string; m2_lastmounteddir : option string; m2_creatoros : option string;
  m2_fstype : option string; m2_usagetype : option string; m2_uuid : option string; m2_forcecreate : option bool;
  m2_writesbandgrouponly : option bool; m2_lazyitableinit : option bool; m2_lazyjournalinit : option bool;
  m2_testfs : option bool; m2_discard : option bool; m2_quotatype : option bool; m2_extent : option bool;
  m2_filetype : option bool; m2_flexbg : option bool; m2_hasjournal : option bool; m2_journaldev : option bool;
  m2_largefile : option bool; m2_quota : option bool; m2_resizeinode : option bool; m2_sparsesuper : option bool;
  m2_uninitbg : option bool
}.

Definition journaldevice_args (fs : dev_fs) (journaldevice : option string) : args :=
  match journaldevice with
  | None => inr []
  | Some j =>
      if STRPREFIX j "/dev/" then
        if is_root_device fs j then inl (Bad (j +:+ ": device not found"))
        else match device_name_translation fs j with
             | None => inl (BadErrno "device_name_translation" j)
             | Some d => inr ["-J"; "device=" +:+ d]
             end
      else inr ["-J"; "device=" +:+ j]
  end.

(** The extended options and the features. *)
Definition mke2fs_extended_args (o : mke2fs_optargs) : list args :=
  let ext name size prefix v := opt_num "-E" name size " must be >= 0" (fun n => prefix +:+ pretty n) v in
  [
    ext "mmpupdateinterval" 84%nat "mmp_update_interval=" (m2_mmpupdateinterval o);
    ext "stridesize" 74%nat "stride=" (m2_stridesize o);
    ext "stripewidth" 84%nat "stripe_width=" (m2_stripewidth o);
    ext "maxonlineresize" 74%nat "resize=" (m2_maxonlineresize o);
    opt_switch "-E" "lazy_itable_init=1" "lazy_itable_init=0" (m2_lazyitableinit o);
    opt_switch "-E" "lazy_journal_init=1" "lazy_journal_init=0" (m2_lazyjournalinit o);
    inr (match m2_testfs o with Some true => ["-E"; "test_fs"] | _ => [] end);
    opt_switch "-E" "discard" "nodiscard" (m2_discard o)].
Definition mke2fs_feature_args (o : mke2fs_optargs) : list args :=
  let feature name v := opt_switch "-O" name ("^" +:+ name) v in
  [
    feature "extent" (m2_extent o);
    feature "filetype" (m2_filetype o);
    feature "flexbg" (m2_flexbg o);
    feature "has_journal" (m2_hasjournal o);
    feature "journal_dev" (m2_journaldev o);
    feature "large_file" (m2_largefile o);
    feature "quota" (m2_quota o);
    feature "resize_inode" (m2_resizeinode o);
    feature "sparse_super" (m2_sparsesuper o);
    feature "uninit_bg" (m2_uninitbg o)].

(** Everything before the device. *)
Definition mke2fs_args (fs : dev_fs) (o : mke2fs_optargs) : args :=
  let num flag name v := opt_num flag name 64 " must be >= 0" pretty v in
  all_args ([
    num "-b" "blocksize" (m2_blocksize o);
    num "-f" "fragsize" (m2_fragsize o);
    opt_flag "-F" (m2_forcecreate o);
    num "-g" "blockspergroup" (m2_blockspergroup o);
    num "-G" "numberofgroups" (m2_numberofgroups o);
    num "-i" "bytesperinode" (m2_bytesperinode o);
    num "-I" "inodesize" (m2_inodesize o);
    opt_num "-J" "journalsize" 64 " must be >= 0" (fun n => "size=" +:+ pretty n) (m2_journalsize o);
    journaldevice_args fs (m2_journaldevice o);
    opt_str "-L" (m2_label o);
    num "-m" "reservedblockspercentage" (m2_reservedblockspercentage o);
    opt_str "-M" (m2_lastmounteddir o);
    num "-N" "numberofinodes" (m2_numberofinodes o);
    opt_str "-o" (m2_creatoros o);
    opt_flag "-S" (m2_writesbandgrouponly o);
    match m2_fstype o with
    | None => inr []
    | Some t => if fstype_is_extfs t then inr ["-t"; t] else inl (Bad (not_extfs t))
    end;
    opt_str "-T" (m2_usagetype o);
    opt_str "-U" (m2_uuid o)] ++ mke2fs_extended_args o ++ mke2fs_feature_args o).

(** The block count comes after the device. *)
Definition blockscount_args (v : option Z) : args :=
  match v with
  | None => inr []
  | Some n => if n <? 0 then inl (Bad "blockscount must be >= 0") else inr [snprintf 64 (pretty n)]
  end.

Definition do_mke2fs (device : string) (o : mke2fs_optargs) : proc Z := fun s =>
  (match all_args [mke2fs_args (ev_fs E (ps_log s)) o; inr [device]; blockscount_args (m2_blockscount o)] with
   | inl e => fail_args e (-1)
   | inr a => wipe_and_make 128 device ("mke2fs" :: a) (fun err => device +:+ ": " +:+ err)
   end) s.

Definition do_mklost_and_found (mountpoint : string) : proc Z := fun s =>
  let cmd := "cd " +:+ print_sysroot_shell_quote (sysroot E) mountpoint +:+ " && mklost+found" in
  let s' := s <| ps_log ::= (fun l => l ++ [System cmd]) |> in
  match ev_system E (ps_log s) cmd with
  | inl e => (log (Replied e ("system: " +:+ ev_strerror E e)) ;;; ret (-1)) s'
  | inr r => if negb (WIFEXITED r) || negb (WEXITSTATUS r =? 0) then fail (cmd +:+ ": command failed") (-1) s'
             else (Ret 0, s')
  end.
End filesystems.

(** * Lemmas *)

(** ** Sizes of argument vectors *)

Definition args_le (n : nat) (a : args) : Prop := match a with inl _ => True | inr l => (length l <= n)%nat end.
Lemma all_args_le n l : Forall (args_le n) l -> args_le (n * length l) (all_args l).
Proof.
  induction 1 as [|a l Ha _ IH]; cbn [all_args length]; [cbn; lia|]. destruct a as [e|a]; [done|].
  destruct (all_args l) as [e|b]; [done|]. unfold args_le in *. rewrite length_app. lia.
Qed.
Lemma opt_num_le flag name size msg fmt v : args_le 2 (opt_num flag name size msg fmt v).
Proof. unfold opt_num, args_le. destruct v as [z|]; cbn; [destruct (z <? 0); cbn; lia|lia]. Qed.
Lemma opt_flag_le flag v : args_le 2 (opt_flag flag v).
Proof. destruct v as [[]|]; cbn; lia. Qed.
Lemma opt_str_le flag v : args_le 2 (opt_str flag v).
Proof. destruct v; cbn; lia. Qed.
Lemma opt_switch_le flag on off v : args_le 2 (opt_switch flag on off v).
Proof. destruct v; cbn; lia. Qed.
Lemma journaldevice_le fs v : args_le 2 (journaldevice_args fs v).
Proof. unfold journaldevice_args, args_le. repeat case_match; cbn in *; simplify_eq; cbn; lia. Qed.
Create HintDb args_le.
#[local] Hint Resolve opt_num_le opt_flag_le opt_str_le opt_switch_le journaldevice_le : args_le.
#[local] Hint Extern 2 (args_le _ _) => (unfold args_le; repeat case_match; cbn; simplify_eq; cbn; lia) : args_le.

Lemma tune2fs_args_le o : args_le 20 (tune2fs_args o).
Proof. apply (all_args_le 2). repeat (constructor; [auto with args_le|]). constructor. Qed.
Lemma mke2fs_args_le fs o : args_le 72 (mke2fs_args fs o).
Proof. apply (all_args_le 2). repeat (constructor; [auto with args_le|]). constructor. Qed.
Lemma mkfs_other_args_le fstype o : args_le 6 (mkfs_other_args fstype o).
Proof. apply (all_args_le 2). repeat (constructor; [auto with args_le|]). constructor. Qed.
Lemma mkfs_type_args_le fstype : (length (mkfs_type_args fstype) <= 14)%nat.
Proof. unfold mkfs_type_args. rewrite !length_app. repeat case_match; cbn; lia. Qed.

(** ** Replies *)

(** wipefs --help can be run: what wipe_device_before_mkfs relies on. *)
Class WipefsWorks (E : denv) : Prop :=
  wipefs_help : forall h, exists out, prints (ev_exec E h ["wipefs"; "--help"]) out.

Section replies.
Context (E : denv) `{!Starts E}.

Lemma quiet_check_args max argv : (S (length argv) <= max)%nat -> quiet (check_args max argv).
Proof. intros H. unfold check_args. destruct (Nat.ltb_spec max (S (length argv))); [lia|]. apply quiet_ret. Qed.

Lemma quiet_wipe `{!WipefsWorks E} device : quiet (wipe_device_before_mkfs E device).
Proof.
  unfold wipe_device_before_mkfs. apply quiet_bind.
  - unfold wipefs_has_force_option. apply quiet_bind; [apply quiet_get_static|]. intros flag.
    destruct (flag =? -1); [|apply quiet_ret]. apply quiet_intro. intros s.
    destruct (wipefs_help (E := E) (ps_log s)) as [out Hp].
    destruct (commandf_prints E true 0 _ _ s Hp eq_refl) as [err Hc].
    unfold command_out. rewrite (bind_Ret _ _ _ _ _ Hc). cbn [Z.eqb].
    eexists _, _, [Ran 0 ["wipefs"; "--help"]]. by split.
  - intros force. destruct (force =? -1); [apply quiet_ret|].
    apply quiet_bind; [apply quiet_commandf; exact _|]. intros ?. apply quiet_ret.
Qed.

Lemma run_err_one_reply ub argv : one_reply ub int_failed (run_err E argv).
Proof. apply run_or_one_reply. auto with quiet. Qed.
Lemma get_blkid_tag_one_reply ub device tag : one_reply ub ptr_failed (get_blkid_tag E device tag).
Proof. unfold get_blkid_tag. emits. Qed.
Hint Resolve run_err_one_reply get_blkid_tag_one_reply : one_reply.
Hint Resolve quiet_wipe : quiet.

Lemma do_vfs_type_one_reply ub m : one_reply ub ptr_failed (do_vfs_type E m).
Proof. apply get_blkid_tag_one_reply. Qed.
Lemma test_blkid_one_reply ub : one_reply ub int_failed (test_blkid_p_i_opt E).
Proof. unfold test_blkid_p_i_opt. emits. Qed.
Lemma blkid_with_one_reply ub device : one_reply ub ptr_failed (blkid_with_p_i_opt E device).
Proof. unfold blkid_with_p_i_opt. emits. Qed.
Lemma blkid_tags_one_reply ub device tags : one_reply ub ptr_failed (blkid_tags E device tags).
Proof.
  induction tags as [|tag tags IH]; cbn [blkid_tags]; [by apply emits_ret|].
  eapply emits_call; [apply get_blkid_tag_one_reply|emits|]. intros [s|] Hs; [|done].
  eapply emits_call; [exact IH|emits..].
Qed.
Hint Resolve do_vfs_type_one_reply test_blkid_one_reply blkid_with_one_reply blkid_tags_one_reply : one_reply.
Lemma do_blkid_one_reply ub device : one_reply ub ptr_failed (do_blkid E device).
Proof.
  unfold do_blkid, blkid_without_p_i_opt. eapply emits_quiet; [apply quiet_get_static|]. intros opt.
  eapply (emits_call _ int_failed).
  - destruct (opt =? -1) eqn:Eo; [|apply emits_ret; unfold int_failed; by rewrite Eo].
    eapply emits_call; [apply test_blkid_one_reply|emits..].
  - emits.
  - emits.
Qed.

Lemma do_set_label_one_reply ub m label : one_reply ub int_failed (do_set_label E m label).
Proof. unfold do_set_label, btrfslabel, dosfslabel, e2label, ntfslabel, xfslabel. emits. Qed.
Lemma do_set_uuid_one_reply ub device uuid : one_reply ub int_failed (do_set_uuid E device uuid).
Proof. unfold do_set_uuid, e2uuid, xfsuuid. emits. Qed.
Lemma do_tune2fs_l_one_reply ub device : one_reply ub ptr_failed (do_tune2fs_l E device).
Proof. unfold do_tune2fs_l. emits. Qed.
Lemma if_not_mounted_one_reply ub device : one_reply ub int_failed (if_not_mounted_run_e2fsck E device).
Proof. unfold if_not_mounted_run_e2fsck. emits. Qed.
Hint Resolve if_not_mounted_one_reply : one_reply.
Lemma resize2fs_one_reply ub device argv : one_reply ub int_failed (resize2fs E device argv).
Proof. unfold resize2fs. emits. Qed.
Hint Resolve resize2fs_one_reply : one_reply.
Lemma do_resize2fs_size_one_reply ub device size : one_reply ub int_failed (do_resize2fs_size E device size).
Proof. unfold do_resize2fs_size. emits. Qed.
Lemma do_e2fsck_one_reply ub device c f : one_reply ub int_failed (do_e2fsck E device c f).
Proof.
  unfold do_e2fsck. destruct (default false c), (default false f); cbn [andb app]; [by apply emits_fail|..];
    (eapply emits_quiet; [apply quiet_check_args; cbn; lia|]; intros _; emits).
Qed.
End replies.

Section mkfs_replies.
Context (E : denv) `{!Starts E} `{!WipefsWorks E}.

Lemma fail_args_one_reply ub e : one_reply ub int_failed (fail_args E e (-1)).
Proof. destruct e; cbn [fail_args]; emits. Qed.
Lemma wipe_and_make_one_reply ub max device argv msg : (S (length argv) <= max)%nat ->
  one_reply ub int_failed (wipe_and_make E max device argv msg).
Proof.
  intros H. unfold wipe_and_make. eapply emits_quiet; [by apply quiet_check_args|]. intros _.
  eapply emits_quiet; [by apply quiet_wipe|]. intros _. apply run_or_one_reply. auto with quiet.
Qed.
Lemma make_journal_one_reply ub device argv : one_reply ub int_failed (make_journal E device argv).
Proof. eapply emits_quiet; [by apply quiet_wipe|]. intros _. by apply run_err_one_reply. Qed.
Hint Resolve fail_args_one_reply make_journal_one_reply : one_reply.

Lemma do_mke2journal_L_one_reply ub b label device : one_reply ub int_failed (do_mke2journal_L E b label device).
Proof. unfold do_mke2journal_L. emits. Qed.
Lemma do_mke2fs_J_one_reply ub t b device j : one_reply ub int_failed (do_mke2fs_J E t b device j).
Proof. unfold do_mke2fs_J, make_with_journal. emits. Qed.
Lemma do_mke2fs_JL_one_reply ub t b device j : one_reply ub int_failed (do_mke2fs_JL E t b device j).
Proof. unfold do_mke2fs_JL, make_with_journal. emits. Qed.
Lemma do_mke2fs_JU_one_reply ub t b device j : one_reply ub int_failed (do_mke2fs_JU E t b device j).
Proof. unfold do_mke2fs_JU, make_with_journal. emits. Qed.

Lemma do_tune2fs_one_reply ub device o : one_reply ub int_failed (do_tune2fs E device o).
Proof.
  unfold do_tune2fs. pose proof (tune2fs_args_le o) as H. destruct (tune2fs_args o) as [e|a]; [apply fail_args_one_reply|].
  eapply emits_quiet; [apply quiet_check_args; cbn in *; rewrite length_app; cbn; lia|]. intros _.
  apply run_or_one_reply. auto with quiet.
Qed.
Lemma do_mke2fs_one_reply ub device o : one_reply ub int_failed (do_mke2fs E device o).
Proof.
  intros s. unfold do_mke2fs. set (fs := ev_fs E (ps_log s)). pose proof (mke2fs_args_le fs o) as H. cbn [all_args].
  revert s fs H. intros s fs. generalize (mke2fs_args fs o) as a. intros a H.
  assert (one_reply ub int_failed
    (match (match a with inl e => inl e | inr x => match (match (match blockscount_args (m2_blockscount o) with
        inl e => inl e | inr y => inr (y ++ []) end) with inl e => inl e | inr y => inr ([device] ++ y) end) with
        inl e => inl e | inr y => inr (x ++ y) end end : args) with
     | inl e => fail_args E e (-1)
     | inr a => wipe_and_make E 128 device ("mke2fs" :: a) (fun err => device +:+ ": " +:+ err)
     end)) as Hm; [|exact (Hm s)].
  destruct a as [e|a]; [apply fail_args_one_reply|].
  assert (args_le 1 (blockscount_args (m2_blockscount o))) as Hb
    by (unfold blockscount_args, args_le; repeat case_match; simplify_eq; cbn; lia).
  destruct (blockscount_args _) as [e|b]; [apply fail_args_one_reply|].
  apply wipe_and_make_one_reply. cbn in *. rewrite !length_app. cbn. rewrite length_app. cbn. lia.
Qed.

Lemma do_set_e2attrs_one_reply ub f a c : one_reply ub int_failed (do_set_e2attrs E f a c).
Proof. unfold do_set_e2attrs. emits. Qed.
Lemma do_get_e2attrs_one_reply f : one_reply true ptr_failed (do_get_e2attrs E f).
Proof. unfold do_get_e2attrs. emits. Qed.
Lemma do_mklost_one_reply ub d : one_reply ub int_failed (do_mklost_and_found E d).
Proof.
  intros s. unfold do_mklost_and_found. destruct (ev_system _ _ _) as [e|r].
  - eexists (Ret (-1)), _, [System _; Replied e _]. split; [reflexivity|]. split; [|done]. cbn. by rewrite <- app_assoc.
  - destruct (negb (WIFEXITED r) || _).
    + eexists (Ret (-1)), _, [System _; Replied 0 _]. split; [reflexivity|]. split; [|done]. cbn. by rewrite <- app_assoc.
    + eexists (Ret 0), _, [System _]. by split.
Qed.

(** The sector size is what blockdev prints, so a -1 or a 0 printed there is
    returned, or divided by. *)
Lemma mkfs_blocksize_replies fstype device b : STREQ fstype "vfat" || STREQ fstype "msdos" = false ->
  forall ub, one_reply ub ptr_failed (mkfs_blocksize_args E fstype device b).
Proof. intros H ub. unfold mkfs_blocksize_args. rewrite H. emits. Qed.
Lemma mkfs_blocksize_length fstype device b s l s' :
  mkfs_blocksize_args E fstype device b s = (Ret (Some l), s') -> (length l <= 2)%nat.
Proof.
  unfold mkfs_blocksize_args. destruct b as [b|]; [|by intros [= <- _]; cbn; lia].
  destruct (_ || _); [done|]. destruct (STREQ fstype "vfat" || _).
  - intros (a & s1 & _ & H)%bind_inv. destruct (a =? -1); [done|]. destruct (a =? 0); [done|].
    destruct (_ || _); [done|]. injection H as <- _. cbn. lia.
  - repeat case_match; intros [=]; subst; cbn; lia.
Qed.
Lemma do_mkfs_one_reply ub fstype device o : STREQ fstype "vfat" || STREQ fstype "msdos" = false ->
  one_reply ub int_failed (do_mkfs E fstype device o).
Proof.
  intros H s. unfold do_mkfs.
  destruct (mkfs_blocksize_replies fstype device (mkfs_blocksize o) H ub s) as (r & s1 & new & E1 & L1 & R1).
  destruct r as [b|w]; [|exists (Stop w), s1, new; by rewrite (bind_Stop _ _ _ _ _ E1)].
  rewrite (bind_Ret _ _ _ _ _ E1). destruct b as [b|]; [|exists (Ret (-1)), s1, new; by rewrite R1].
  pose proof (mkfs_blocksize_length _ _ _ _ _ _ E1) as Hb. cbn in R1.
  assert (one_reply ub int_failed (match mkfs_other_args fstype o with
    | inl e => fail_args E e (-1)
    | inr more => wipe_and_make E 64 device (mkfs_type_args fstype ++ b ++ more ++ [device])
        (fun err => fstype +:+ ": " +:+ device +:+ ": " +:+ err) end)) as Hm.
  { pose proof (mkfs_other_args_le fstype o) as Ho. destruct (mkfs_other_args fstype o) as [e|more]; [apply fail_args_one_reply|].
    apply wipe_and_make_one_reply. pose proof (mkfs_type_args_le fstype). rewrite !length_app. cbn in *. lia. }
  destruct (Hm s1) as (r & s2 & new2 & E2 & L2 & R2). exists r, s2, (new ++ new2).
  split_and!; [done|by rewrite L2, L1, app_assoc|]. rewrite replies_app, R1. done.
Qed.
End mkfs_replies.

(** ** What is run, in which order *)

(** [logs m Q]: when [m] returns [a] having done [new], [Q a new]. *)
Definition logs {A} (m : proc A) (Q : A -> list action -> Prop) : Prop :=
  forall s a s', m s = (Ret a, s') -> exists new, ps_log s' = ps_log s ++ new /\ Q a new.

Section logs.
Context {A B : Type}.
Lemma logs_ret (a : A) (Q : A -> list action -> Prop) : Q a [] -> logs (ret a) Q.
Proof. intros H s b s' [= <- <-]. exists []. by rewrite app_nil_r. Qed.
Lemma logs_bind (m : proc A) (f : A -> proc B) Q R :
  logs m Q -> (forall a new, Q a new -> logs (f a) (fun b new' => R b (new ++ new'))) -> logs (bind m f) R.
Proof.
  intros Hm Hf s b s' (a & s1 & E1 & E2)%bind_inv. destruct (Hm _ _ _ E1) as (n1 & L1 & H1).
  destruct (Hf a n1 H1 _ _ _ E2) as (n2 & L2 & H2). exists (n1 ++ n2). by rewrite L2, L1, app_assoc.
Qed.
Lemma logs_conseq (m : proc A) Q Q' : logs m Q -> (forall a new, Q a new -> Q' a new) -> logs m Q'.
Proof. intros Hm H s a s' E. destruct (Hm _ _ _ E) as (new & L & HQ). eauto. Qed.
Lemma logs_fail msg (r : A) : logs (fail msg r) (fun a new => a = r /\ new = [Replied 0 msg]).
Proof. intros s a s' [= <- <-]. by exists [Replied 0 msg]. Qed.
Lemma logs_pfail E call msg (r : A) : logs (pfail E call msg r) (fun a new => a = r /\ exists e m, new = [Replied e m]).
Proof. intros s a s' [= <- <-]. eexists [Replied _ _]. split; [done|]. eauto. Qed.
Lemma logs_halt w (Q : A -> list action -> Prop) : logs (halt w) Q.
Proof. by intros s a s' [=]. Qed.
End logs.

Lemma logs_run E f wo we flags argv : logs (run_with E f wo we flags argv) (fun _ new => new = [Ran flags argv]).
Proof.
  intros s a s' H. unfold run_with in H. destruct (f _ _ _ _) as [[[r o] e]|w]; [|done]. injection H as _ <-.
  by exists [Ran flags argv].
Qed.
Lemma logs_run_or E argv msg : logs (run_or (command_err E argv) msg)
  (fun r new => exists tail, new = Ran 0 argv :: tail /\ Forall (fun a => is_reply a = true) tail).
Proof.
  unfold run_or, command_err. eapply logs_bind.
  - eapply logs_bind; [apply logs_run|]. intros [[r o] e] new ->. apply logs_ret.
    instantiate (1 := fun _ new => new = [Ran 0 argv]). done.
  - intros [r e] new ->. destruct (r =? -1).
    + eapply logs_conseq; [apply logs_fail|]. intros a new [-> ->]. eexists. split; [done|]. by repeat constructor.
    + apply logs_ret. exists []. by split.
Qed.

Definition is_wipe (a : action) : bool :=
  match a with Ran _ (prog :: opt :: _) => STREQ prog "wipefs" && STREQ opt "-a" | _ => false end.
Definition no_wipe (l : list action) : Prop := Forall (fun a => is_wipe a = false) l.

Lemma logs_wipe E device : logs (wipe_device_before_mkfs E device) (fun _ new => exists pre, no_wipe pre /\
  (new = pre \/ exists force, new = pre ++ [Ran 0 (wipefs_argv force device)])).
Proof.
  unfold wipe_device_before_mkfs. eapply logs_bind with (Q := fun _ new => no_wipe new).
  - unfold wipefs_has_force_option. eapply logs_bind with (Q := fun _ new => new = []).
    + intros s a s' [= <- <-]. exists []. by rewrite app_nil_r.
    + intros flag new ->. destruct (flag =? -1); [|apply logs_ret; constructor].
      eapply logs_bind; [apply logs_run|]. intros [[r o] e] new ->. destruct (r =? -1).
      * eapply logs_conseq; [apply logs_fail|]. intros a new [_ ->]. by repeat constructor.
      * intros s a s' [= <- <-]. exists []. split; [by rewrite app_nil_r|]. by repeat constructor.
  - intros force new Hn. destruct (force =? -1).
    + apply logs_ret. exists new. rewrite app_nil_r. auto.
    + eapply logs_bind; [apply logs_run|]. intros ? ? ->. apply logs_ret. exists new. split; [done|]. right. by exists force.
Qed.

(** Nothing is wiped, or the device is wiped and the program that makes the
    file system on it is started at once; only error replies follow. *)
Definition wipe_then_make (device : string) (new : list action) : Prop :=
  no_wipe new \/ exists pre force argv tail,
    new = pre ++ [Ran 0 (wipefs_argv force device); Ran 0 argv] ++ tail /\ no_wipe pre /\
    (head argv = Some "mke2fs" \/ head argv = Some "mkfs") /\ device ∈ argv /\ Forall (fun a => is_reply a = true) tail.

Lemma replies_no_wipe l : Forall (fun a => is_reply a = true) l -> no_wipe l.
Proof. intros H. eapply Forall_impl; [exact H|]. by intros []. Qed.
Lemma no_wipe_app pre new device : no_wipe pre -> wipe_then_make device new -> wipe_then_make device (pre ++ new).
Proof.
  intros Hp [Hn|(pre' & force & argv & tail & -> & H1 & H2)].
  - left. by apply Forall_app.
  - right. exists (pre ++ pre'), force, argv, tail. rewrite <- app_assoc. split; [done|]. split; [by apply Forall_app|done].
Qed.
Lemma logs_make E device argv msg : head argv = Some "mke2fs" \/ head argv = Some "mkfs" -> device ∈ argv ->
  logs (wipe_device_before_mkfs E device ;;; run_or (command_err E argv) msg) (fun _ => wipe_then_make device).
Proof.
  intros Hh Hd. eapply logs_bind; [apply logs_wipe|]. intros _ new (pre & Hp & Hn).
  eapply logs_conseq; [apply logs_run_or|]. intros r n2 (tail & -> & Ht). destruct Hn as [->|[force ->]].
  - left. apply Forall_app. split; [done|]. constructor; [|by apply replies_no_wipe].
    destruct argv as [|p [|q argv]]; cbn in *; try done. by destruct Hh as [[= ->]|[= ->]].
  - right. exists pre, force, argv, tail. rewrite <- app_assoc. split_and!; done.
Qed.
Lemma logs_fail_args {A} E e (r : A) : logs (fail_args E e r) (fun _ new => no_wipe new).
Proof.
  destruct e; cbn [fail_args]; (eapply logs_conseq; [first [apply logs_fail|apply logs_pfail]|]).
  - intros a new [_ ->]. by repeat constructor.
  - intros a new (_ & ? & ? & ->). by repeat constructor.
Qed.
Lemma logs_wipe_and_make E max device argv msg : head argv = Some "mke2fs" \/ head argv = Some "mkfs" -> device ∈ argv ->
  logs (wipe_and_make E max device argv msg) (fun _ => wipe_then_make device).
Proof.
  intros Hh Hd. unfold wipe_and_make. eapply logs_bind with (Q := fun _ new => new = []).
  - unfold check_args. destruct (_ <? _)%nat; [apply logs_halt|by apply logs_ret].
  - intros _ new ->. by apply logs_make.
Qed.
Lemma logs_blockdev E device switc x prints : logs (call_blockdev E device switc x prints) (fun _ new => no_wipe new).
Proof.
  unfold call_blockdev. eapply logs_bind with (Q := fun _ new => no_wipe new).
  { intros s a s' [= <- <-]. exists [Settle]. split; [done|]. by repeat constructor. }
  intros _ n1 H1. eapply logs_bind; [apply logs_run|]. intros [[r o] e] n2 ->.
  assert (no_wipe (n1 ++ [Ran 0 ("blockdev" :: switc :: (if 0 <? x then [snprintf 64 (pretty x); device] else [device]))])) as Hn
    by (apply Forall_app; split; [done|by repeat constructor]).
  assert (forall (z : Z) msg, logs (fail msg z) (fun _ new => no_wipe (n1 ++
    [Ran 0 ("blockdev" :: switc :: (if 0 <? x then [snprintf 64 (pretty x); device] else [device]))] ++ new))) as Hf.
  { intros z msg. eapply logs_conseq; [apply logs_fail|]. intros a new [_ ->]. rewrite app_assoc.
    apply Forall_app. split; [done|by repeat constructor]. }
  destruct (r =? -1); [apply Hf|]. destruct prints; [|by apply logs_ret; rewrite app_nil_r].
  destruct (sscanf _ _) as [|? []]; [apply Hf|by apply logs_ret; rewrite app_nil_r|apply Hf].
Qed.
Lemma logs_mkfs_blocksize E fstype device b : logs (mkfs_blocksize_args E fstype device b) (fun _ new => no_wipe new).
Proof.
  assert (forall {A} (r : A) msg, logs (fail msg r) (fun _ new => no_wipe new)) as Hf.
  { intros A r msg. eapply logs_conseq; [apply logs_fail|]. intros a new [_ ->]. by repeat constructor. }
  unfold mkfs_blocksize_args. destruct b as [b|]; [|apply logs_ret; constructor].
  destruct (_ || _); [apply Hf|]. destruct (STREQ fstype "vfat" || _).
  - eapply logs_bind with (Q := fun _ new => no_wipe new).
    { unfold do_blockdev_getss, blockdev_int. eapply logs_bind; [apply logs_blockdev|].
      intros a new Hn. apply logs_ret. rewrite app_nil_r. exact Hn. }
    intros ss new Hn. destruct (ss =? -1); [apply logs_ret; by rewrite app_nil_r|].
    destruct (ss =? 0); [apply logs_halt|]. destruct (_ || _); [|apply logs_ret; by rewrite app_nil_r].
    eapply logs_conseq; [apply Hf|]. intros a n2 H2. by apply Forall_app.
  - repeat case_match; solve [apply Hf|apply logs_ret; constructor].
Qed.

(** ** Text *)

Lemma key_values_pairs key ps : Forall (fun p => no_sep "=" (fst p)) ps ->
  key_values key ((fun p => fst p +:+ String "=" (snd p)) <$> ps) = ps ≫= (fun p => [key (fst p); snd p]).
Proof.
  induction 1 as [|[k v] ps Hk _ IH]; [done|]. cbn [fmap list_fmap key_values fst snd] in *.
  destruct (strcspn_no_sep "=" k v Hk) as [-> _]. by rewrite IH.
Qed.

(** The attributes that pass the check are different letters. *)
Lemma check_attrs_ok : forall attrs seen, check_attrs attrs seen = None ->
  NoDup (String.list_ascii_of_string attrs) /\
  Forall (fun c => c_isalpha c = true /\ c ∉ seen) (String.list_ascii_of_string attrs).
Proof.
  induction attrs as [|c attrs IH]; intros seen H; cbn [String.list_ascii_of_string]; [by split; constructor|].
  cbn [check_attrs] in H. destruct (existsb (Ascii.eqb c) ["R"; "V"; "f"; "v"]%char); [done|].
  destruct (in_range c 97 122 || in_range c 65 90) eqn:El; [|done].
  destruct (existsb (Ascii.eqb c) seen) eqn:Es; [done|]. destruct (IH _ H) as [Hn Hf].
  assert (c ∉ seen) as Hc.
  { intros Hin. apply list_elem_of_In in Hin. apply Bool.not_true_iff_false in Es. apply Es. apply existsb_exists.
    exists c. split; [done|apply Ascii.eqb_refl]. }
  rewrite Forall_forall in Hf. split.
  - constructor; [|done]. intros Hin. destruct (Hf c Hin) as [_ Hx]. apply Hx. by left.
  - constructor; [split; [unfold c_isalpha; by rewrite orb_comm|done]|]. apply Forall_forall. intros d Hd.
    destruct (Hf d Hd) as [H1 H2]. split; [done|]. intros Hx. apply H2. by right.
Qed.

Definition letters : list ascii :=
  String.list_ascii_of_string "abcdefghijklmnopqrstuvwxyzABCDEFGHIJKLMNOPQRSTUVWXYZ".
Lemma alpha_letter c : c_isalpha c = true -> c ∈ letters.
Proof.
  intros H. apply list_elem_of_In. assert (existsb (Ascii.eqb c) letters = true) as He.
  { revert H. destruct c as [[] [] [] [] [] [] [] []]; vm_compute; done. }
  apply existsb_exists in He as (d & Hd & ->%Ascii.eqb_eq). done.
Qed.

(** * Properties *)

(** The note in daemon/zero.c: a device is wiped only just before the program that makes
    the file system. Whatever the arguments and whatever the programs do, each of the mkfs
    procedures either wipes nothing, in particular when it rejects an argument, or runs wipefs
    on the device and then at once mke2fs or mkfs on the same device, followed by nothing but an
    error reply. *)
Theorem wipe_just_before_make (E : denv) :
  (forall fstype device o, logs (do_mkfs E fstype device o) (fun _ => wipe_then_make device)) /\
  (forall device o, logs (do_mke2fs E device o) (fun _ => wipe_then_make device)) /\
  (forall b device, logs (do_mke2journal E b device) (fun _ => wipe_then_make device)) /\
  (forall b label device, logs (do_mke2journal_L E b label device) (fun _ => wipe_then_make device)) /\
  (forall b uuid device, logs (do_mke2journal_U E b uuid device) (fun _ => wipe_then_make device)) /\
  (forall t b device j, logs (do_mke2fs_J E t b device j) (fun _ => wipe_then_make device)) /\
  (forall t b device label, logs (do_mke2fs_JL E t b device label) (fun _ => wipe_then_make device)) /\
  (forall t b device uuid, logs (do_mke2fs_JU E t b device uuid) (fun _ => wipe_then_make device)).
Proof.
  assert (forall (r : Z) msg device, logs (fail msg r) (fun _ => wipe_then_make device)) as Hf.
  { intros r msg device. eapply logs_conseq; [apply logs_fail|]. intros a new [_ ->]. left. by repeat constructor. }
  assert (forall device argv, head argv = Some "mke2fs" -> device ∈ argv ->
    logs (make_journal E device argv) (fun _ => wipe_then_make device)) as Hj.
  { intros device argv Hh Hd. apply logs_make; auto. }
  split_and!; intros.
  - unfold do_mkfs. eapply logs_bind; [apply logs_mkfs_blocksize|]. intros b new Hn. cbn beta in Hn.
    destruct b as [b|]; [|apply logs_ret; rewrite app_nil_r; by left].
    destruct (mkfs_other_args fstype o) as [e|more].
    + eapply logs_conseq; [apply logs_fail_args|]. intros a n2 H2. left. by apply Forall_app.
    + eapply logs_conseq; [apply logs_wipe_and_make|].
      * unfold mkfs_type_args. destruct (fstype_is_extfs fstype); auto.
      * rewrite !elem_of_app. set_solver.
      * intros a n2 H2. by apply no_wipe_app.
  - intros s a s'. unfold do_mke2fs. destruct (all_args _) as [e|argv] eqn:Ea; intros H.
    + destruct (logs_fail_args E e (-1) _ _ _ H) as (new & L & Hn). exists new. split; [done|by left].
    + refine (logs_wipe_and_make E 128 device ("mke2fs" :: argv) _ _ _ _ _ _ H); [by left|].
      cbn [all_args] in Ea. destruct (mke2fs_args _ o) as [|x]; [done|]. destruct (blockscount_args _) as [|y]; [done|].
      injection Ea as <-. set_solver.
  - apply Hj; [done|set_solver].
  - unfold do_mke2journal_L. destruct (_ <? _)%nat; [apply Hf|apply Hj; [done|set_solver]].
  - apply Hj; [done|set_solver].
  - unfold do_mke2fs_J. destruct (negb _); [apply Hf|apply Hj; [done|set_solver]].
  - unfold do_mke2fs_JL. destruct (negb _); [apply Hf|]. destruct (_ <? _)%nat; [apply Hf|apply Hj; [done|set_solver]].
  - unfold do_mke2fs_JU. destruct (negb _); [apply Hf|apply Hj; [done|set_solver]].
Qed.

(** Each of the file system procedures replies with an error exactly once when it fails and
    never when it succeeds, whatever the programs print, and never overflows its argument array,
    provided that programs can be started and, for those that make a file system, that wipefs
    --help works. (get_e2attrs reads past the end of output without a space.) *)
Theorem filesys_one_reply (E : denv) : Starts E ->
  (forall device tag, one_reply false ptr_failed (get_blkid_tag E device tag)) /\
  (forall device, one_reply false ptr_failed (do_blkid E device)) /\
  (forall m label, one_reply false int_failed (do_set_label E m label)) /\
  (forall device uuid, one_reply false int_failed (do_set_uuid E device uuid)) /\
  (forall device, one_reply false ptr_failed (do_tune2fs_l E device)) /\
  (forall device size, one_reply false int_failed (do_resize2fs_size E device size)) /\
  (forall device c f, one_reply false int_failed (do_e2fsck E device c f)) /\
  (forall f a c, one_reply false int_failed (do_set_e2attrs E f a c)) /\
  (forall f, one_reply true ptr_failed (do_get_e2attrs E f)) /\
  (forall device o, one_reply false int_failed (do_tune2fs E device o)) /\
  (forall d, one_reply false int_failed (do_mklost_and_found E d)) /\
  (WipefsWorks E ->
   (forall fstype device o, STREQ fstype "vfat" || STREQ fstype "msdos" = false ->
      one_reply false int_failed (do_mkfs E fstype device o)) /\
   (forall device o, one_reply false int_failed (do_mke2fs E device o)) /\
   (forall b label device, one_reply false int_failed (do_mke2journal_L E b label device)) /\
   (forall t b device j, one_reply false int_failed (do_mke2fs_J E t b device j)) /\
   (forall t b device label, one_reply false int_failed (do_mke2fs_JL E t b device label)) /\
   (forall t b device uuid, one_reply false int_failed (do_mke2fs_JU E t b device uuid))).
Proof.
  intros HE. split_and!; intros.
  - by apply get_blkid_tag_one_reply.
  - by apply do_blkid_one_reply.
  - by apply do_set_label_one_reply.
  - by apply do_set_uuid_one_reply.
  - by apply do_tune2fs_l_one_reply.
  - by apply do_resize2fs_size_one_reply.
  - by apply do_e2fsck_one_reply.
  - by apply do_set_e2attrs_one_reply.
  - by apply do_get_e2attrs_one_reply.
  - by apply do_tune2fs_one_reply.
  - by apply do_mklost_one_reply.
  - split_and!; intros.
    + by apply do_mkfs_one_reply.
    + by apply do_mke2fs_one_reply.
    + by apply do_mke2journal_L_one_reply.
    + by apply do_mke2fs_J_one_reply.
    + by apply do_mke2fs_JL_one_reply.
    + by apply do_mke2fs_JU_one_reply.
Qed.

(** A process that prints [out] and [err] and exits with [status]. *)
Definition exiting (out err : string) (status : Z) : cmd_world :=
  mk_cmd_world true true [] [RdData (bytes_of_string out)] [RdData (bytes_of_string err)] true (Some (Z.shiftl status 8)).
Definition ex_denv (run : list string -> cmd_world) : denv :=
  mk_denv (fun _ argv => run argv) (fun _ _ => inr 0) (fun _ _ _ => None)
    (fun _ => mk_dev_fs (fun _ => None) (fun _ => Some (false, 1)) (fun _ => false) 0) (fun _ => Some [])
    (fun _ _ => 0) (fun _ => "") "/sysroot".
Definition ex_state : pstate := mk_pstate [] ∅.

Definition wipefs_then (help rest : cmd_world) : denv :=
  ex_denv (fun argv => if bool_decide (argv = ["wipefs"; "--help"]) then help else rest).
Lemma filesys_one_reply_witness :
  one_reply false int_failed (do_mkfs (wipefs_then (printing "--force") (exiting "" "no" 1)) "ext4" "/dev/sda"
    (mk_mkfs_optargs (Some 4096) None None None)).
Proof.
  assert (Starts (wipefs_then (printing "--force") (exiting "" "no" 1))) as HE
    by (constructor; intros; cbn; [by case_match..|eauto]).
  destruct (filesys_one_reply _ HE) as (_ & _ & _ & _ & _ & _ & _ & _ & _ & _ & _ & H).
  assert (WipefsWorks (wipefs_then (printing "--force") (exiting "" "no" 1))) as HW
    by (intros h; exists "--force"; by apply printing_prints).
  exact (proj1 (H HW) "ext4" "/dev/sda" (mk_mkfs_optargs (Some 4096) None None None) eq_refl).
Defined.

(** When wipefs cannot be run, its error is replied from
    wipe_device_before_mkfs and mkfs goes on: a file system that is made
    answers with an error and then with success, one that is not with two
    errors. *)
Lemma mkfs_replies_without_wipefs :
  (exists s', do_mkfs (wipefs_then (exiting "" "not found" 127) (exiting "" "" 0)) "ext4" "/dev/sda"
     (mk_mkfs_optargs None None None None) ex_state = (Ret 0, s') /\ replies (ps_log s') = 1%nat) /\
  (exists s', do_mkfs (wipefs_then (exiting "" "not found" 127) (exiting "" "no" 1)) "ext4" "/dev/sda"
     (mk_mkfs_optargs None None None None) ex_state = (Ret (-1), s') /\ replies (ps_log s') = 2%nat).
Proof. split; eexists; split; vm_compute; reflexivity. Qed.

(** The attributes given to set_e2attrs always fit in the 54 bytes of the buffer they are copied
    to with a sign in front, because each letter is accepted once: whatever the string, the argument that
    chattr is run with is at most 53 characters long. *)
Theorem set_e2attrs_fits (E : denv) (filename attrs : string) (clear : option bool) :
  logs (do_set_e2attrs E filename attrs clear) (fun _ new =>
    Forall (fun a => match a with
                     | Ran _ (_ :: attr_arg :: _) => (String.length attr_arg + 1 <= 26 * 2 + 1 + 1)%nat
                     | _ => True
                     end) new).
Proof.
  unfold do_set_e2attrs. destruct (STREQ attrs ""); [apply logs_ret; constructor|].
  destruct (check_attrs attrs []) eqn:Ec.
  - eapply logs_conseq; [apply logs_fail|]. intros a new [_ ->]. by repeat constructor.
  - eapply logs_conseq; [apply logs_run_or|]. intros r new (tail & -> & Ht). constructor.
    + destruct (check_attrs_ok attrs [] Ec) as [Hn Hf].
      assert (String.length attrs <= 52)%nat as Hl.
      { assert (length (String.list_ascii_of_string attrs) = String.length attrs) as <-
          by (clear; induction attrs; cbn; congruence).
        change 52%nat with (length letters). apply submseteq_length, NoDup_submseteq; [done|].
        intros c Hc. rewrite Forall_forall in Hf. by apply alpha_letter, (Hf c Hc). }
      rewrite str_length_app. destruct (default false clear); cbn; lia.
    + eapply Forall_impl; [exact Ht|]. by intros [].
Qed.

(** blkid -o export prints key=value lines: with the new options do_blkid gives back the
    keys and values in order. *)
Theorem blkid_roundtrip (E : denv) (device : string) (ps : list (string * string)) (s : pstate) :
  ps_static s !! "do_blkid.blkid_has_p_i_opt" = Some 1 ->
  Forall (fun p => no_sep "=" (fst p) /\ no_sep nl_char (fst p) /\ no_sep nl_char (snd p)) ps ->
  prints (ev_exec E (ps_log s) ["blkid"; "-c"; "/dev/null"; "-p"; "-i"; "-o"; "export"; device])
    (str_unlines ((fun p => fst p +:+ String "=" (snd p)) <$> ps)) ->
  exists s', do_blkid E device s = (Ret (Some (ps ≫= (fun p => [fst p; snd p]))), s').
Proof.
  intros Hs Hps Hp. destruct (commandf_prints E true 0 _ _ s Hp eq_refl) as [err Hc]. eexists.
  unfold do_blkid. unfold get_static. rewrite bind_gets, Hs. cbn [default id Z.eqb]. unfold bind at 1, ret at 1.
  cbn [Z.eqb is_true negb]. unfold blkid_with_p_i_opt, command_out. rewrite (bind_Ret _ _ _ _ _ Hc). cbn [Z.eqb default id].
  rewrite split_lines_unlines.
  - rewrite key_values_pairs; [reflexivity|]. eapply Forall_impl; [exact Hps|]. by intros [k v] [? _].
  - apply Forall_fmap. eapply Forall_impl; [exact Hps|]. intros [k v] (_ & Hk & Hv). cbn in *.
    apply no_sep_app. split; [done|]. unfold no_sep in *. cbn. by rewrite Hv.
Qed.
Lemma blkid_roundtrip_witness : exists s',
  do_blkid (ex_denv (fun _ => printing (str_unlines ["UUID=a=b"; "TYPE=ext2"]))) "/dev/sda"
    (mk_pstate [] {[ "do_blkid.blkid_has_p_i_opt" := 1 ]}) = (Ret (Some ["UUID"; "a=b"; "TYPE"; "ext2"]), s').
Proof.
  apply (blkid_roundtrip (ex_denv (fun _ => printing (str_unlines ["UUID=a=b"; "TYPE=ext2"]))) "/dev/sda"
    [("UUID", "a=b"); ("TYPE", "ext2")]).
  - reflexivity.
  - by repeat constructor.
  - by apply printing_prints.
Defined.

(** e2fsck exits with status 1 when it has corrected errors; the comment in
    do_e2fsck takes this for success, but commandvf has turned it into -1. *)
Lemma e2fsck_corrected_fails : exists s',
  do_e2fsck (ex_denv (fun _ => exiting "FILE SYSTEM WAS MODIFIED" "" 1)) "/dev/sda" (Some true) None ex_state =
    (Ret (-1), s').
Proof. eexists. vm_compute. reflexivity. Qed.
(** The lines of tune2fs -l after a blank one are lost. *)
Lemma tune2fs_l_stops_at_blank :
  tune2fs_pairs ["Filesystem UUID:  x"; ""; "Inode count: 5"] = ["Filesystem UUID"; "x"].
Proof. reflexivity. Qed.
