(* ===== verification/Md.v ===== *)
(** daemon/md.c: Linux software RAID. *)

From S2P Require Import Prelude Xdr Handle Utils Events Conn Command Guestfsd Procs Filesys.
From Stdlib Require Import Ascii.

Open Scope Z_scope.
#[local] Arguments String.append : simpl nomatch.

(** * Creating an array *)

(** The recursion of count_bits, on a 64-bit number. *)
Fixpoint count_bits_fuel (fuel : nat) (bitmap : Z) : nat :=
  if bitmap =? 0 then O
  else match fuel with
       | O => O
       | S fuel' => ((if Z.odd bitmap then 1 else 0) + count_bits_fuel fuel' (Z.shiftr bitmap 1))%nat
       end.
Definition count_bits (bitmap : Z) : nat := count_bits_fuel 64 bitmap.

(** The loop that adds the devices and "missing": [i] entries of the array of
    [max] are in use.  When a bit is clear and no device is left, NULL is
    added and the index moves past the end of the list of devices. *)
Fixpoint add_devices (fuel : nat) (max i : Z) (devices : list string) (bitmap : Z) : outcome (list string) :=
  match devices, bitmap =? 0 with
  | [], true => Ret []
  | _, _ =>
      match fuel with
      | O => Stop OutOfFuel
      | S fuel' =>
          if max <=? i then Stop AssertFailed
          else
            let next (arg : string) (devices : list string) :=
              match add_devices fuel' max (i + 1) devices (Z.shiftr bitmap 1) with
              | Ret l => Ret (arg :: l)
              | Stop w => Stop w
              end in
            if Z.odd bitmap then next "missing" devices
            else match devices with
                 | [] => Stop Undefined
                 | d :: devices' => next d devices'
                 end
      end
  end.

Record md_create_optargs := mk_md_create_optargs {
  mdc_missingbitmap : option Z; mdc_nrdevices : option Z; mdc_spare : option Z; mdc_chunk : option Z;
  mdc_level : option string
}.

Definition md_levels : list string :=
  ["linear"; "raid0"; "0"; "stripe"; "raid1"; "1"; "mirror"; "raid4"; "4"; "raid5"; "5"; "raid6"; "6"; "raid10"; "10"].

(** The checks, in order: an error, or the values to use. *)
Definition md_check (devices : list string) (o : md_create_optargs) : string + (Z * Z * Z * string) :=
  let umissingbitmap := match mdc_missingbitmap o with Some b => u64 b | None => 0 end in
  let total := Z.of_nat (length devices + count_bits umissingbitmap) in
  if match mdc_spare o with Some n => n <? 0 | None => false end then inl "spare must not be negative"
  else
    let spare := default 0 (mdc_spare o) in
    if match mdc_nrdevices o with Some n => n <? 2 | None => false end then inl "nrdevices is less than 2"
    else
      let nrdevices := default (s32 total) (mdc_nrdevices o) in
      let level := default "raid1" (mdc_level o) in
      if negb (existsb (STREQ level) md_levels) then inl ("unknown level parameter: " +:+ level)
      else if match mdc_chunk o with Some c => negb (Z.land c 1023 =? 0) | None => false end then
        inl "chunk size must be a multiple of 1024 bytes"
      else if negb (total =? u64 (s32 (nrdevices + spare))) then
        inl ("devices (" +:+ pretty (Z.of_nat (length devices)) +:+ ") + bits set in missingbitmap (" +:+
             pretty (Z.of_nat (count_bits umissingbitmap)) +:+ ") is not equal to nrdevices (" +:+
             pretty nrdevices +:+ ") + spare (" +:+ pretty spare +:+ ")")
      else inr (umissingbitmap, nrdevices, spare, level).

(** The arguments before the devices. *)
Definition md_first_args (name : string) (o : md_create_optargs) (nrdevices spare : Z) (level : string) : list string :=
  ["mdadm"; "--create"; "--run"; name; "--level"; level; "--raid-devices"; snprintf 32 (pretty nrdevices)] ++
  (if mdc_spare o then ["--spare-devices"; snprintf 32 (pretty spare)] else []) ++
  (match mdc_chunk o with Some c => ["--chunk"; snprintf 32 (pretty (Z.quot c 1024))] | None => [] end).

Section md.
Context (E : denv).

Definition do_md_create (name : string) (devices : list string) (o : md_create_optargs) : proc Z :=
  match md_check devices o with
  | inl msg => fail msg (-1)
  | inr (umissingbitmap, nrdevices, spare, level) =>
      let max := u64 (s32 (nrdevices + 16)) in
      let first := md_first_args name o nrdevices spare level in
      if max <? Z.of_nat (length first) then halt AssertFailed
      else match add_devices (length devices + 64) max (Z.of_nat (length first)) devices umissingbitmap with
           | Stop w => halt w
           | Ret l =>
               let argv := first ++ l in
               if max <? Z.of_nat (S (length argv)) then halt AssertFailed
               else
                 r <- run_or (command_err E argv) (fun err => "mdadm: " +:+ name +:+ ": " +:+ err) ;;
                 if r =? -1 then ret (-1) else udev_settle ;;; ret 0
           end
  end.

(** * Existing arrays *)

(** glob (3) and the GET_ARRAY_INFO ioctl. *)
Inductive glob_result := GLOB_NOSPACE | GLOB_ABORTED | Globbed (paths : list string).
Record md_world := mk_md_world {
  mw_glob : string -> glob_result;
  mw_array_info : string -> option Z       (* the errno of the ioctl; None when open or ioctl is fine *)
}.
Definition ENODEV : Z := 19.
Context (W : md_world).

Definition is_raid_device (dev : string) : bool :=
  match mw_array_info W dev with Some e => negb (e =? ENODEV) | None => true end.

(** /sys/block/mdN/md to /dev/mdN *)
Definition md_dev (path : string) : string :=
  "/dev/md" +:+ String.substring 13 (String.length path - 13 - 3) path.

Definition glob_failed (which : string) : string := "glob: returned " +:+ which +:+ ": rerun with LIBGUESTFS_DEBUG=1".
Definition do_list_md_devices : proc (option (list string)) :=
  match mw_glob W "/sys/block/md[0-9]*/md" with
  | GLOB_NOSPACE => fail (glob_failed "GLOB_NOSPACE") None
  | GLOB_ABORTED => fail (glob_failed "GLOB_ABORTED") None
  | Globbed paths => ret (Some (List.filter is_raid_device (md_dev <$> paths)))
  end.

Definition md_key (k : string) : string := if STRPREFIX k "MD_" then str_map c_tolower (str_drop 3 k) else k.
Definition do_md_detail (md : string) : proc (option (list string)) :=
  let* (r, out, err) := command_out E ["mdadm"; "-D"; "--export"; md] in
  if r =? -1 then fail (fmt_s err) None
  else ret (Some (key_values md_key (split_lines (default "" out)))).

Definition do_md_stop (md : string) : proc Z := run_err E ["mdadm"; "--stop"; md].

(** * /proc/mdstat *)

Record mdstat := mk_mdstat { mdstat_device : string; mdstat_index : Z; mdstat_flags : string }.

Fixpoint keep_alpha (s : string) : string :=
  match s with
  | EmptyString => ""
  | String c s' => if c_isalpha c then String c (keep_alpha s') else keep_alpha s'
  end.

(** One word: skipped, an error, or an entry.  The first '[' comes before the
    first ']'. *)
Definition md_word (word : string) : option (string + mdstat) :=
  match strcspn "[" word with
  | (_, EmptyString) => None
  | (dev, String _ rest) =>
      match strcspn "]" word with
      | (_, EmptyString) => None
      | (before, String _ flags) =>
          if (String.length before <? String.length dev)%nat then None
          else if STREQ dev "" then Some (inl ("device entry is too short: " +:+ word))
          else
            let index := fst (strcspn "]" rest) in
            match sscanf index [pct_i32] with
            | [n] => Some (inr (mk_mdstat ("/dev/" +:+ dev) n (keep_alpha flags)))
            | _ => Some (inl ("not a device number: " +:+ index))
            end
      end
  end.

(** The loop over the words.  When no word is an entry the length of the list
    is never assigned: [None] for the list. *)
Fixpoint md_words (words : list string) : string + list mdstat :=
  match words with
  | [] => inr []
  | w :: words' =>
      match md_word w with
      | None => md_words words'
      | Some (inl msg) => inl msg
      | Some (inr e) => match md_words words' with inl msg => inl msg | inr l => inr (e :: l) end
      end
  end.
Definition parse_md_stat_line (line : string) : proc (option (list mdstat)) :=
  match md_words (guestfs___split_string " " line) with
  | inl msg => fail msg None
  | inr [] => halt Undefined
  | inr l => ret (Some l)
  end.

(** getline: the lines with their newlines; errno when fopen or fclose fails. *)
Record mdstat_file := mk_mdstat_file { mf_open : option Z; mf_lines : list string; mf_close : option Z }.

Definition do_md_stat (f : mdstat_file) (md : string) : proc (option (list mdstat)) :=
  let md := if STRPREFIX md "/dev/" then str_drop 5 md else md in
  match mf_open f with
  | Some e => log (Replied e ("fopen: /proc/mdstat: " +:+ ev_strerror E e)) ;;; ret None
  | None =>
      let close (r : option (list mdstat)) :=
        match mf_close f with
        | Some e => log (Replied e ("fclose: /proc/mdstat: " +:+ ev_strerror E e)) ;;; ret None
        | None => match r with
                  | Some l => ret (Some l)
                  | None => fail (md +:+ ": MD device not found") None
                  end
        end in
      match List.find (fun line => STRPREFIX line (md +:+ " : ")) (mf_lines f) with
      | None => close None
      | Some line =>
          r <- parse_md_stat_line (str_drop (String.length md + 3) line) ;;
          match r with None => ret None | Some l => close (Some l) end
      end
  end.
End md.

(** * Lemmas *)

Lemma count_bits_fuel_more : forall k k' b, 0 <= b < 2 ^ Z.of_nat k -> (k <= k')%nat ->
  count_bits_fuel k' b = count_bits_fuel k b.
Proof.
  induction k as [|k IH]; intros k' b Hb Hk.
  - assert (b = 0) as -> by (cbn in Hb; lia). by destruct k'.
  - destruct k' as [|k']; [lia|]. cbn [count_bits_fuel]. destruct (b =? 0); [done|]. f_equal. apply IH; [|lia].
    rewrite Z.shiftr_div_pow2 by lia. change (2 ^ 1) with 2. split; [apply Z.div_pos; lia|].
    apply Z.div_lt_upper_bound; [lia|]. rewrite Nat2Z.inj_succ, Z.pow_succ_r in Hb by lia. lia.
Qed.
Lemma half_bounds b k : 0 <= b < 2 ^ Z.of_nat (S k) -> 0 <= Z.shiftr b 1 < 2 ^ Z.of_nat k.
Proof.
  intros Hb. rewrite Z.shiftr_div_pow2 by lia. change (2 ^ 1) with 2. split; [apply Z.div_pos; lia|].
  apply Z.div_lt_upper_bound; [lia|]. rewrite Nat2Z.inj_succ, Z.pow_succ_r in Hb by lia. lia.
Qed.
Lemma count_bits_step b : 0 <= b < 2 ^ 64 -> count_bits b = ((if Z.odd b then 1 else 0) + count_bits (Z.shiftr b 1))%nat.
Proof.
  intros Hb. unfold count_bits. destruct (Z.eqb_spec b 0) as [->|Hn]; [done|].
  rewrite (count_bits_fuel_more 63 64 (Z.shiftr b 1)) by (first [by apply (half_bounds b 63)|lia]).
  change (count_bits_fuel 64 b) with (if b =? 0 then O
    else ((if Z.odd b then 1 else 0) + count_bits_fuel 63 (Z.shiftr b 1))%nat).
  by destruct (Z.eqb_spec b 0).
Qed.
Lemma odd_half b : b = 2 * Z.shiftr b 1 + (if Z.odd b then 1 else 0).
Proof.
  rewrite Z.shiftr_div_pow2 by lia. change (2 ^ 1) with 2. rewrite (Z.div_mod b 2) at 1 by lia. f_equal.
  by rewrite Zmod_odd.
Qed.
(** A number is at least as large as the one with all its bits at the bottom. *)
Lemma count_bits_bound : forall k b, 0 <= b < 2 ^ Z.of_nat k -> (k <= 64)%nat ->
  2 ^ Z.of_nat (count_bits b) <= b + 1.
Proof.
  induction k as [|k IH]; intros b Hb Hk.
  - assert (b = 0) as -> by (cbn in Hb; lia). done.
  - assert (0 <= b < 2 ^ 64) as Hb'.
    { split; [lia|]. eapply Z.lt_le_trans; [apply Hb|]. apply Z.pow_le_mono_r; lia. }
    rewrite count_bits_step by done. specialize (IH _ (half_bounds b k Hb) ltac:(lia)).
    pose proof (odd_half b) as Hh. destruct (Z.odd b).
    + rewrite Nat2Z.inj_add, Z.pow_add_r by lia. change (2 ^ Z.of_nat 1) with 2. lia.
    + cbn [Nat.add]. lia.
Qed.

Lemma count_bits_pos : forall k b, 0 < b < 2 ^ Z.of_nat k -> (k <= 64)%nat -> (1 <= count_bits b)%nat.
Proof.
  induction k as [|k IH]; intros b Hb Hk; [cbn in Hb; lia|].
  assert (0 <= b < 2 ^ 64) as Hb'.
  { split; [lia|]. eapply Z.lt_le_trans; [apply Hb|]. apply Z.pow_le_mono_r; lia. }
  rewrite count_bits_step by done. pose proof (odd_half b) as Hh. destruct (Z.odd b); [lia|]. cbn [Nat.add].
  pose proof (half_bounds b k ltac:(lia)). apply IH; lia.
Qed.

(** What stands at the positions whose bit is clear. *)
Fixpoint clear_positions (b : Z) (l : list string) : list string :=
  match l with
  | [] => []
  | x :: l' => (if Z.odd b then [] else [x]) ++ clear_positions (Z.shiftr b 1) l'
  end.
Definition placed (devices : list string) (b : Z) (l : list string) : Prop :=
  length l = (length devices + count_bits b)%nat /\ clear_positions b l = devices /\
  forall j, Z.testbit b (Z.of_nat j) = true -> l !! j = Some "missing".

Lemma add_devices_spec : forall fuel k devices b max i, 0 <= b < 2 ^ Z.of_nat k -> (k <= 64)%nat ->
  (length devices + k <= fuel)%nat -> 0 <= i -> i + Z.of_nat (length devices + count_bits b) <= max ->
  if b <? 2 ^ Z.of_nat (length devices + count_bits b)
  then exists l, add_devices fuel max i devices b = Ret l /\ placed devices b l
  else add_devices fuel max i devices b = Stop Undefined.
Proof.
  induction fuel as [|fuel IH]; intros k devices b max i Hb Hk Hf Hi Hm.
  { assert (devices = []) as -> by (by destruct devices; cbn in Hf; [|lia]).
    assert (k = O) as -> by lia. assert (b = 0) as -> by (cbn in Hb; lia). cbn. exists []. split; [done|].
    split_and!; try done. intros j. by rewrite Z.testbit_0_l. }
  assert (0 <= b < 2 ^ 64) as Hb'.
  { split; [lia|]. eapply Z.lt_le_trans; [apply Hb|]. apply Z.pow_le_mono_r; lia. }
  destruct (Z.eqb_spec b 0) as [->|Hn].
  - destruct devices as [|d devices]; [cbn; exists []; split; [done|]; split_and!; try done; intros j; by rewrite Z.testbit_0_l|].
    cbn [add_devices]. change (count_bits 0) with O in *. rewrite Nat.add_0_r in *. cbn [length] in *.
    destruct (Z.leb_spec max i); [lia|]. cbn [Z.odd Z.shiftr].
    specialize (IH 0%nat devices 0 max (i + 1) ltac:(cbn; lia) ltac:(lia) ltac:(lia) ltac:(lia)).
    change (count_bits 0) with O in IH. rewrite Nat.add_0_r in IH. specialize (IH ltac:(lia)).
    destruct (Z.ltb_spec 0 (2 ^ Z.of_nat (length devices))); [|lia].
    destruct (Z.ltb_spec 0 (2 ^ Z.of_nat (S (length devices)))); [|lia].
    change (Z.shiftr 0 1) with 0. destruct IH as (l & -> & Hl & Hc & _). exists (d :: l). split; [done|].
    split_and!; [cbn [length]; change (count_bits 0) with O in *; lia|
      transitivity ([d] ++ clear_positions 0 l); [done|by rewrite Hc]|intros j; by rewrite Z.testbit_0_l].
  - destruct k as [|k]; [cbn in Hb; lia|].
    assert (add_devices (S fuel) max i devices b =
      if max <=? i then Stop AssertFailed
      else let next arg devices := match add_devices fuel max (i + 1) devices (Z.shiftr b 1) with
                                   | Ret l => Ret (arg :: l) | Stop w => Stop w end in
           if Z.odd b then next "missing" devices
           else match devices with [] => Stop Undefined | d :: devices' => next d devices' end) as ->.
    { cbn [add_devices]. destruct (Z.eqb_spec b 0); [done|]. by destruct devices. }
    pose proof (odd_half b) as Hh. pose proof (count_bits_step b Hb') as Hs. pose proof (half_bounds b k Hb) as Hb2.
    assert (forall arg devices', (Z.odd b = true /\ devices' = devices /\ arg = "missing") \/ (Z.odd b = false /\ devices = arg :: devices') ->
      let o := match add_devices fuel max (i + 1) devices' (Z.shiftr b 1) with Ret l => Ret (arg :: l) | Stop w => Stop w end in
      if b <? 2 ^ Z.of_nat (length devices + count_bits b)
      then exists l, o = Ret l /\ placed devices b l else o = Stop Undefined) as Hnext.
    { intros arg devices' Hcase.
      assert ((length devices + count_bits b)%nat = S (length devices' + count_bits (Z.shiftr b 1))) as Ht.
      { rewrite Hs. destruct Hcase as [(-> & -> & _)|(-> & ->)]; cbn; lia. }
      assert (length devices' <= length devices)%nat as Hle by (destruct Hcase as [(_ & -> & _)|(_ & ->)]; cbn; lia).
      specialize (IH k devices' (Z.shiftr b 1) max (i + 1) Hb2 ltac:(lia)
        ltac:(destruct Hcase as [(_ & -> & _)|(_ & ->)]; cbn in *; lia) ltac:(lia) ltac:(lia)).
      rewrite Ht. rewrite Nat2Z.inj_succ, Z.pow_succ_r by lia.
      set (w := 2 ^ Z.of_nat (length devices' + count_bits (Z.shiftr b 1))) in *.
      destruct (Z.ltb_spec b (2 * w)), (Z.ltb_spec (Z.shiftr b 1) w); try (destruct (Z.odd b); lia).
      - destruct IH as (l & -> & Hl & Hc & Hj). exists (arg :: l). split; [done|]. split_and!.
        + cbn [length]. rewrite Hl. lia.
        + cbn [clear_positions]. rewrite Hc. destruct Hcase as [(-> & -> & _)|(-> & ->)]; done.
        + intros [|j] Hbit.
          * cbn in Hbit. rewrite Z.bit0_odd in Hbit. destruct Hcase as [(_ & _ & ->)|(Ho & _)]; [done|congruence].
          * cbn. apply Hj. rewrite Z.shiftr_spec by lia. by replace (Z.of_nat j + 1) with (Z.of_nat (S j)) by lia.
      - by rewrite IH. }
    destruct (Z.leb_spec max i).
    { exfalso. rewrite Hs in Hm. destruct (Z.odd b) eqn:Ho; [lia|].
      pose proof (count_bits_pos k (Z.shiftr b 1) ltac:(lia) ltac:(lia)). lia. }
    cbv zeta. destruct (Z.odd b) eqn:Ho; [apply Hnext; auto|]. destruct devices as [|d devices]; [|apply Hnext; auto].
    cbn [length Nat.add]. destruct (Z.ltb_spec b (2 ^ Z.of_nat (count_bits b))); [|done]. exfalso.
    rewrite Hs in H0. cbn [Nat.add] in H0.
    pose proof (count_bits_bound k (Z.shiftr b 1) Hb2 ltac:(lia)). lia.
Qed.

(** ** /proc/mdstat *)

Lemma keep_alpha_app a b : keep_alpha (a +:+ b) = keep_alpha a +:+ keep_alpha b.
Proof. induction a as [|c a IH]; [done|]. rewrite str_app_cons. cbn. destruct (c_isalpha c); by rewrite IH. Qed.

(** The flags in parentheses. *)
Fixpoint flags_text (flags : string) : string :=
  match flags with
  | EmptyString => ""
  | String c flags' => "(" +:+ String c (")" +:+ flags_text flags')
  end.
Definition entry_text (dev : string) (index : N) (flags : string) : string :=
  dev +:+ "[" +:+ pretty index +:+ "]" +:+ flags_text flags.
Definition entry_ok (e : string * N * string) : Prop :=
  let '(dev, index, flags) := e in
  dev <> "" /\ no_class (fun c => Ascii.eqb c "[" || Ascii.eqb c "]" || Ascii.eqb c " ") dev /\
  Z.of_N index < 2 ^ 31 /\ str_forallb c_isalpha flags = true.

Lemma keep_alpha_flags flags : str_forallb c_isalpha flags = true -> keep_alpha (flags_text flags) = flags.
Proof.
  induction flags as [|c flags IH]; [done|]. cbn [str_forallb]. intros [Hc Hf]%andb_prop.
  cbn [flags_text keep_alpha String.append c_isalpha in_range]. cbn. rewrite Hc. by rewrite IH.
Qed.
Lemma md_word_entry dev index flags tail : entry_ok (dev, index, flags) -> keep_alpha tail = "" ->
  md_word (entry_text dev index flags +:+ tail) =
    Some (inr (mk_mdstat ("/dev/" +:+ dev) (Z.of_N index) flags)).
Proof.
  intros (Hne & Hd & Hi & Hf) Ht. unfold entry_text, md_word. rewrite !str_app_assoc.
  change ("[" +:+ ?x) with (String "[" x). change ("]" +:+ ?x) with (String "]" x). rewrite !str_app_cons, ?str_app_assoc.
  change ("" +:+ ?x) with x.
  set (rest := pretty index +:+ String "]" (flags_text flags +:+ tail)).
  destruct (strcspn_no_sep "[" dev rest ltac:(by eapply no_class_no_sep; [|exact Hd])) as [-> _].
  assert (no_sep "]" (dev +:+ String "[" (pretty index))) as Hb.
  { apply no_sep_app. split; [by eapply no_class_no_sep; [|exact Hd]|]. unfold no_sep. cbn. by apply pretty_no_sep. }
  assert (dev +:+ String "[" rest = (dev +:+ String "[" (pretty index)) +:+ String "]" (flags_text flags +:+ tail)) as ->
    by (unfold rest; by rewrite str_app_assoc, str_app_cons).
  destruct (strcspn_no_sep "]" _ (flags_text flags +:+ tail) Hb) as [-> _].
  rewrite str_length_app. cbn [String.length]. destruct (Nat.ltb_spec (String.length dev + S (String.length (pretty index))) (String.length dev)); [lia|].
  unfold STREQ. rewrite bool_decide_false by done. unfold rest.
  destruct (strcspn_no_sep "]" (pretty index) (flags_text flags +:+ tail) ltac:(by apply pretty_no_sep)) as [-> _]. cbn [fst].
  unfold pct_i32. cbn [sscanf]. rewrite <- (str_app_nil_r (pretty index)), scan_number_pretty by (by right || done).
  assert (store_int (Z.of_N index) = Z.of_N index) as -> by (unfold store_int, clamp_long; rewrite s32_id by lia; lia).
  rewrite keep_alpha_app, keep_alpha_flags, Ht, str_app_nil_r by done. done.
Qed.

Definition mdstat_of (e : string * N * string) : mdstat :=
  let '(dev, index, flags) := e in mk_mdstat ("/dev/" +:+ dev) (Z.of_N index) flags.
Definition text_of (e : string * N * string) : string := let '(dev, index, flags) := e in entry_text dev index flags.

Lemma md_words_skip ws words : Forall (no_sep "[") ws -> md_words (ws ++ words) = md_words words.
Proof.
  induction 1 as [|w ws Hw _ IH]; [done|]. cbn [app md_words]. unfold md_word.
  destruct (strcspn_no_sep "[" w "" Hw) as [_ ->]. done.
Qed.
Lemma md_words_entries es last tail : Forall entry_ok es -> entry_ok last -> keep_alpha tail = "" ->
  md_words ((text_of <$> es) ++ [text_of last +:+ tail]) = inr (mdstat_of <$> (es ++ [last])).
Proof.
  intros Hes Hl Ht. induction Hes as [|[[d i] f] es He _ IH].
  - destruct last as [[d i] f]. cbn [fmap list_fmap app md_words text_of]. by rewrite md_word_entry.
  - cbn [fmap list_fmap app md_words text_of]. pose proof (md_word_entry d i f "" He eq_refl) as Hw.
    rewrite str_app_nil_r in Hw. rewrite Hw, IH. done.
Qed.
Lemma text_of_no_space e : entry_ok e -> no_sep " " (text_of e).
Proof.
  destruct e as [[d i] f]. intros (_ & Hd & _ & Hf). unfold text_of, entry_text.
  apply no_sep_app. split; [by eapply no_class_no_sep; [|exact Hd]|]. apply no_sep_app. split; [done|].
  apply no_sep_app. split; [by apply pretty_no_sep|]. apply no_sep_app. split; [done|].
  induction f as [|c f IH]; [done|]. cbn [str_forallb] in Hf. apply andb_prop in Hf as [Hc Hf]. unfold no_sep in *. cbn.
  rewrite IH by done. rewrite andb_true_r. apply negb_true_iff, Ascii.eqb_neq. by intros ->.
Qed.

(** * Properties *)

(** Creating an array: when the checks pass and the arguments fit in the array, mdadm is
    run with one argument per device or missing disk, 'missing' exactly where the bitmap has a
    bit and the devices in their order elsewhere, provided that no bit of the bitmap is above
    the number of places; the procedure returns 0 or replies with one error. *)
Theorem md_create_argv (E : denv) (name : string) (devices : list string) (o : md_create_optargs)
    (b nr spare : Z) (level : string) (s : pstate) : Starts E ->
  md_check devices o = inr (b, nr, spare, level) ->
  let first := md_first_args name o nr spare level in
  let total := (length devices + count_bits b)%nat in
  0 <= nr < 2 ^ 31 - 16 -> b < 2 ^ Z.of_nat total -> Z.of_nat (length first + total) < nr + 16 ->
  exists l r s' tail, placed devices b l /\ do_md_create E name devices o s = (Ret r, s') /\
    ps_log s' = ps_log s ++ Ran 0 (first ++ l) :: tail /\
    (r = 0 /\ tail = [Settle] \/ r = -1 /\ exists err, tail = [Replied 0 ("mdadm: " +:+ name +:+ ": " +:+ err)]).
Proof.
  intros HE Hc first total Hnr Hb Hfit.
  assert (0 <= b < 2 ^ 64) as Hb64.
  { unfold md_check in Hc. repeat case_match; try done; injection Hc as <- _ _ _; first [apply u64_bound|lia]. }
  pose proof (add_devices_spec (length devices + 64) 64 devices b (nr + 16) (Z.of_nat (length first)) Hb64
    ltac:(lia) ltac:(lia) ltac:(lia) ltac:(lia)) as Ha. fold total in Ha.
  destruct (Z.ltb_spec b (2 ^ Z.of_nat total)); [|lia]. destruct Ha as (l & Ea & Hl).
  assert (length l = total) as Hlen by apply Hl.
  unfold do_md_create. rewrite Hc. cbv zeta. fold first.
  assert (u64 (s32 (nr + 16)) = nr + 16) as -> by (rewrite s32_id, u64_id by lia; done).
  destruct (Z.ltb_spec (nr + 16) (Z.of_nat (length first))); [lia|]. rewrite Ea.
  destruct (Z.ltb_spec (nr + 16) (Z.of_nat (S (length (first ++ l))))); [rewrite length_app in *; lia|].
  destruct (commandvf_returns false true 0 (ev_exec E (ps_log s) (first ++ l)) (starts_pipe _ _) (starts_fork _ _))
    as (r & out & err & Er & Hr & _).
  assert (command_err E (first ++ l) s =
    (Ret (r, cstr <$> err), s <| ps_log ::= (fun x => x ++ [Ran 0 (first ++ l)]) |>)) as Hcmd.
  { unfold command_err, commandf, run_with, bind. by rewrite Er. }
  exists l. unfold run_or. unfold bind at 1. destruct Hr as [->| ->].
  - eexists 0, _, [Settle]. split; [exact Hl|]. rewrite (bind_Ret _ _ _ _ _ Hcmd). cbn [Z.eqb].
    split; [reflexivity|]. split; [cbn; by rewrite <- app_assoc|]. by left.
  - eexists (-1), _, [_]. split; [exact Hl|]. rewrite (bind_Ret _ _ _ _ _ Hcmd). cbn [Z.eqb].
    split; [reflexivity|]. split; [cbn; by rewrite <- app_assoc|]. right. split; [done|]. by eexists.
Qed.

Lemma md_create_argv_witness : exists l r s' tail,
  placed ["/dev/sda"; "/dev/sdb"] 2 l /\
  do_md_create (ex_denv (fun _ => exiting "" "busy" 1)) "r1" ["/dev/sda"; "/dev/sdb"]
    (mk_md_create_optargs (Some 2) None None None None) ex_state = (Ret r, s') /\
  ps_log s' = [] ++ Ran 0 (md_first_args "r1" (mk_md_create_optargs (Some 2) None None None None) 3 0 "raid1" ++ l) :: tail /\
  (r = 0 /\ tail = [Settle] \/ r = -1 /\ exists err, tail = [Replied 0 ("mdadm: " +:+ "r1" +:+ ": " +:+ err)]).
Proof.
  refine (md_create_argv (ex_denv (fun _ => exiting "" "busy" 1)) "r1" ["/dev/sda"; "/dev/sdb"]
    (mk_md_create_optargs (Some 2) None None None None) 2 3 0 "raid1" ex_state _ _ _ _ _);
    [constructor; intros; cbn; eauto|reflexivity|lia|by vm_compute|by vm_compute].
Defined.

(** Every line of /proc/mdstat that consists of words without brackets followed by at
    least one entry, a device with its number in brackets and its flags in parentheses, is parsed into
    exactly those devices, numbers and flags, in order. *)
Theorem md_stat_line_roundtrip (ws : list string) (es : list (string * N * string)) (e : string * N * string)
    (tail : string) (s : pstate) :
  Forall (fun w => no_sep "[" w /\ no_sep " " w) ws -> Forall entry_ok (es ++ [e]) ->
  keep_alpha tail = "" -> no_sep " " tail ->
  parse_md_stat_line (guestfs___join_strings " " (ws ++ (text_of <$> es) ++ [text_of e +:+ tail])) s =
    (Ret (Some (mdstat_of <$> (es ++ [e]))), s).
Proof.
  intros Hws [Hes He]%Forall_app Ht Hn. inversion_clear He as [|? ? He0 _]; rename He0 into He. unfold parse_md_stat_line.
  rewrite split_join.
  - rewrite md_words_skip by (by eapply Forall_impl; [exact Hws|intros w [? _]]).
    rewrite md_words_entries by done. destruct es; done.
  - repeat apply Forall_app_2.
    + by eapply Forall_impl; [exact Hws|intros w [_ ?]].
    + apply Forall_fmap. eapply Forall_impl; [exact Hes|]. intros x. apply text_of_no_space.
    + apply Forall_singleton, no_sep_app. split; [by apply text_of_no_space|done].
  - destruct ws as [|w ws].
    + destruct es; [|by destruct es]. destruct e as [[d i] f]. destruct He as (Hd & _). by destruct d.
    + intros [= _ H]. by destruct ws, es.
Qed.

Lemma md_stat_line_roundtrip_witness :
  parse_md_stat_line "active raid1 sdb1[1](F) sda1[0]" ex_state =
    (Ret (Some [mk_mdstat "/dev/sdb1" 1 "F"; mk_mdstat "/dev/sda1" 0 ""]), ex_state).
Proof.
  apply (md_stat_line_roundtrip ["active"; "raid1"] [("sdb1", 1%N, "F")] ("sda1", 0%N, "") "" ex_state);
    [repeat constructor|repeat constructor; done|done|done].
Defined.

(** Every spare takes a place in the array of arguments, which has room for nrdevices + 16: six
    spares with their option do not fit and the daemon is aborted. *)
Lemma md_create_spares_abort :
  fst (do_md_create (ex_denv (fun _ => exiting "" "" 0)) "r1"
    ["/dev/sda"; "/dev/sdb"; "/dev/sdc"; "/dev/sdd"; "/dev/sde"; "/dev/sdf"; "/dev/sdg"; "/dev/sdh"]
    (mk_md_create_optargs None (Some 2) (Some 6) None None) ex_state) = Stop AssertFailed.
Proof. by vm_compute. Qed.

(** A bit above the places of the devices: the loop goes past the end of the devices. *)
Lemma md_create_high_bit :
  fst (do_md_create (ex_denv (fun _ => exiting "" "" 0)) "r1" ["/dev/sda"; "/dev/sdb"]
    (mk_md_create_optargs (Some 16) None None None None) ex_state) = Stop Undefined.
Proof. by vm_compute. Qed.

(** An array without devices: the length of the list is never set. *)
Lemma md_stat_no_devices : fst (parse_md_stat_line "inactive" ex_state) = Stop Undefined.
Proof. by vm_compute. Qed.
