(* ===== verification/Lvm.v ===== *)
(** daemon/lvm.c: logical volumes, and the generated parsers of the long
    listings (lvm_tokenize_* and parse_command_line_* of generator/daemon.ml). *)

From S2P Require Import Prelude Xdr Protocol Handle Utils Events Conn Command Guestfsd Procs DevParts.
From stdpp Require Import sorting.
From Stdlib Require Import Ascii.

Open Scope Z_scope.
#[local] Arguments String.append : simpl nomatch.

(** The lines of a text the way the loops over [strchr (p, '\n')] see them:
    there is always a last one, which may be empty. *)
Definition lines (out : string) : list string := split_loop (String.length out) nl_char out.

(** * Listings *)

(** The body of the loop of convert_lvm_output on a line; None: skipped. *)
Definition convert_line (prefix : option string) (p : string) : option string :=
  let p := trim_end (skip_spaces p) in
  if STREQ p "" then None
  else
    let str := match prefix with Some prefix => snprintf 256 (prefix +:+ p) | None => p end in
    if STREQ str "unknown device" then None else Some str.
Definition convert_lvm_output (out : string) (prefix : option string) : list string :=
  sort_strings (omap (convert_line prefix) (lines out)).

Section lvm.
Context (E : denv).

Definition optgroup_lvm2_available : proc bool := gets (fun s => prog_exists (ev_fs E (ps_log s)) "lvm").

(** Listing with a program, and running one that changes the devices. *)
Definition lvm_list (argv : list string) (prefix : option string) : proc (option (list string)) :=
  let* (r, out, err) := command_out E argv in
  if r =? -1 then fail (fmt_s err) None else ret (Some (convert_lvm_output (default "" out) prefix)).
Definition lvm_run (argv : list string) (msg : string -> string) : proc Z :=
  r <- run_or (command_err E ("lvm" :: argv)) msg ;;
  if r =? -1 then ret (-1) else udev_settle ;;; ret 0.
Definition plainly (err : string) : string := err.

Definition do_pvs := lvm_list ["lvm"; "pvs"; "-o"; "pv_name"; "--noheadings"] None.
Definition do_vgs := lvm_list ["lvm"; "vgs"; "-o"; "vg_name"; "--noheadings"] None.
Definition do_lvs :=
  lvm_list ["lvm"; "lvs"; "-o"; "vg_name,lv_name"; "--noheadings"; "--separator"; "/"] (Some "/dev/").

(** * Creating, resizing, removing *)

Definition do_pvcreate (device : string) : proc Z := lvm_run ["pvcreate"; "--force"; device] plainly.
Definition do_vgcreate (volgroup : string) (physvols : list string) : proc Z :=
  lvm_run ("vgcreate" :: volgroup :: physvols) plainly.
Definition do_lvcreate (logvol volgroup : string) (mbytes : Z) : proc Z :=
  lvm_run ["lvcreate"; "-L"; snprintf 64 (pretty mbytes); "-n"; logvol; volgroup] plainly.
Definition bad_percent (percent : Z) : bool := (percent <? 0) || (100 <? percent).
Definition bad_percent_message (percent : Z) : string := "percentage must be [0..100] (was " +:+ pretty percent +:+ ")".
Definition do_lvcreate_free (logvol volgroup : string) (percent : Z) : proc Z :=
  if bad_percent percent then fail (bad_percent_message percent) (-1)
  else lvm_run ["lvcreate"; "-l"; snprintf 64 (pretty percent +:+ "%FREE"); "-n"; logvol; volgroup] plainly.

Definition ignore_same_size_error (err : string) : bool :=
  strstr err "New size (" && strstr err "extents) matches existing size (".
Definition lvresize (argv : list string) : proc Z :=
  let* (r, err) := command_err E argv in
  if (r =? -1) && negb (ignore_same_size_error (default "" err)) then fail (fmt_s err) (-1) else ret 0.
Definition do_lvresize (logvol : string) (mbytes : Z) : proc Z :=
  lvresize ["lvm"; "lvresize"; "--force"; "-L"; snprintf 64 (pretty mbytes); logvol].
Definition do_lvresize_free (logvol : string) (percent : Z) : proc Z :=
  if bad_percent percent then fail (bad_percent_message percent) (-1)
  else lvresize ["lvm"; "lvresize"; "-l"; snprintf 64 ("+" +:+ pretty percent +:+ "%FREE"); logvol].

(** One of the loops of lvm_remove_all: deactivate with the program
    [deactivate], if any, then remove. *)
Fixpoint remove_loop (deactivate : option string) (remove : string) (xs : list string) : proc Z :=
  match xs with
  | [] => ret 0
  | x :: xs' =>
      (match deactivate with
       | Some change => commandf E false false 0 ["lvm"; change; "-an"; x] ;;; udev_settle
       | None => ret tt
       end) ;;;
      r <- run_or (command_err E ["lvm"; remove; "-f"; x]) (fun err => remove +:+ ": " +:+ x +:+ ": " +:+ err) ;;
      if r =? -1 then ret (-1) else remove_loop deactivate remove xs'
  end.
Definition remove_all (list : proc (option (list string))) (deactivate : option string) (remove : string) : proc Z :=
  xs <- list ;;
  match xs with None => ret (-1) | Some xs => remove_loop deactivate remove xs end.
Definition do_lvm_remove_all : proc Z :=
  r <- remove_all do_lvs (Some "lvchange") "lvremove" ;;
  if r =? -1 then ret (-1) else
  r <- remove_all do_vgs (Some "vgchange") "vgremove" ;;
  if r =? -1 then ret (-1) else
  r <- remove_all do_pvs None "pvremove" ;;
  if r =? -1 then ret (-1) else
  udev_settle ;;; ret 0.

Definition do_lvremove (device : string) : proc Z := lvm_run ["lvremove"; "-f"; device] plainly.
Definition do_vgremove (device : string) : proc Z := lvm_run ["vgremove"; "-f"; device] plainly.
Definition do_pvremove (device : string) : proc Z := lvm_run ["pvremove"; "-ff"; device] plainly.
Definition named (device err : string) : string := device +:+ ": " +:+ err.
Definition do_pvresize (device : string) : proc Z := run_or (command_err E ["lvm"; "pvresize"; device]) (named device).
Definition do_pvresize_size (device : string) (size : Z) : proc Z :=
  run_or (command_err E ["lvm"; "pvresize"; "--setphysicalvolumesize"; snprintf 32 (pretty size +:+ "b"); device]) (named device).

Definition do_vg_activate (activate : bool) (volgroups : list string) : proc Z :=
  lvm_run ("vgchange" :: "-a" :: (if activate then "y" else "n") :: volgroups) (fun err => "vgchange: " +:+ err).
Definition do_vg_activate_all (activate : bool) : proc Z := do_vg_activate activate [].
Definition renamed (a b err : string) : string := a +:+ " -> " +:+ b +:+ ": " +:+ err.
Definition do_lvrename (logvol newlogvol : string) : proc Z := lvm_run ["lvrename"; logvol; newlogvol] (renamed logvol newlogvol).
Definition do_vgrename (volgroup newvolgroup : string) : proc Z :=
  lvm_run ["vgrename"; volgroup; newvolgroup] (renamed volgroup newvolgroup).
Definition do_vgscan : proc Z := run_or (command_err E ["lvm"; "vgscan"]) plainly.
Definition do_pvchange_uuid (device : string) : proc Z := lvm_run ["pvchange"; "-u"; device] (named device).
Definition do_pvchange_uuid_all : proc Z := lvm_run ["pvchange"; "-u"; "-a"] plainly.
Definition do_vgchange_uuid (vg : string) : proc Z := lvm_run ["vgchange"; "-u"; vg] (named vg).
Definition do_vgchange_uuid_all : proc Z := lvm_run ["vgchange"; "-u"] plainly.

(** * Fields *)

Definition field_argv (cmd field device : string) : list string :=
  ["lvm"; cmd; "--unbuffered"; "--noheadings"; "-o"; field; device].
Definition get_lvm_field (cmd field device : string) : proc (option string) :=
  let* (r, out, err) := command_out E (field_argv cmd field device) in
  if r =? -1 then fail (named device (fmt_s err)) None else ret (Some (trim (default "" out))).
Definition get_lvm_fields (cmd field device : string) : proc (option (list string)) :=
  let* (r, out, err) := command_out E (field_argv cmd field device) in
  if r =? -1 then fail (named device (fmt_s err)) None else ret (Some (map trim (split_lines (default "" out)))).
Definition do_pvuuid := get_lvm_field "pvs" "pv_uuid".
Definition do_vguuid := get_lvm_field "vgs" "vg_uuid".
Definition do_lvuuid := get_lvm_field "lvs" "lv_uuid".
Definition do_vgpvuuids := get_lvm_fields "vgs" "pv_uuid".
Definition do_vglvuuids := get_lvm_fields "vgs" "lv_uuid".

(** * Canonical names *)

(** stat (2): the device a name refers to. *)
Definition stat_rdev (path : string) : proc (option Z) := gets (fun s => snd <$> fs_stat (ev_fs E (ps_log s)) path).
(** The loop over the logical volumes: the result with [*ret]. *)
Fixpoint lv_loop (rdev : Z) (lvs : list string) : proc (Z * string) :=
  match lvs with
  | [] => ret (0, "")
  | lv :: lvs' =>
      stat2 <- stat_rdev lv ;;
      match stat2 with
      | None => pfail E "stat" ("stat: " +:+ lv) (-1, "")
      | Some rdev2 => if rdev =? rdev2 then ret (1, lv) else lv_loop rdev lvs'
      end
  end.
Definition lv_canonical (device : string) : proc (Z * string) :=
  stat1 <- stat_rdev device ;;
  match stat1 with
  | None => pfail E "stat" ("stat: " +:+ device) (-1, "")
  | Some rdev =>
      lvs <- do_lvs ;;
      match lvs with None => ret (-1, "") | Some lvs => lv_loop rdev lvs end
  end.
Definition do_is_lv (device : string) : proc Z := let* (r, _) := lv_canonical device in ret r.
Definition do_lvm_canonical_lv_name (device : string) : proc (option string) :=
  let* (r, canonical) := lv_canonical device in
  if r =? -1 then ret None
  else if r =? 0 then fail (device +:+ ": not a logical volume") None
  else ret (Some canonical).

(** The loop over /dev/mapper: what it has collected, or None after an error. *)
Fixpoint dm_loop (entries acc : list string) : proc (option (list string)) :=
  match entries with
  | [] => ret (Some acc)
  | d :: entries' =>
      if STREQ d "." || STREQ d ".." || STREQ d "control" then dm_loop entries' acc
      else
        let devname := "/dev/mapper/" +:+ d in
        let* (r, _) := lv_canonical devname in
        if r =? -1 then ret None
        else dm_loop entries' (if negb (r =? 0) then acc else acc ++ [devname])
  end.
Definition do_list_dm_devices (F : sysfs) : proc (option (list string)) :=
  let dir := sf_dir F "/dev/mapper" in
  match dir_open dir with
  | Some e => perror E e "opendir: /dev/mapper" None
  | None =>
      x <- dm_loop (dir_entries dir) [] ;;
      match x with
      | None => ret None
      | Some acc =>
          if negb (dir_errno dir =? 0) then perror E (dir_errno dir) "readdir: /dev/mapper" None
          else match dir_close dir with
               | Some e => perror E e "closedir: /dev/mapper" None
               | None => ret (Some (sort_strings acc))
               end
      end
  end.
End lvm.

(** * The metadata of a volume group *)

(** The temporary file: what mkstemp gives, whether it can be opened again,
    what its reads give (an errno, or bytes; the end after the last), close. *)
Record vg_world := mk_vg_world {
  vw_mkstemp : Z + string;
  vw_open : bool;
  vw_reads : list (Z + list byte);
  vw_close : option Z
}.
Definition VGMETA_MAX : Z := GUESTFS_MESSAGE_MAX - 1000.
Definition reads_size (reads : list (Z + list byte)) : nat :=
  foldr (fun r n => (S (match r with inl _ => 0 | inr d => length d end) + n)%nat) O reads.

Section vgmeta.
Context (E : denv) (W : vg_world).

Fixpoint vgmeta_loop (fuel : nat) (tmp : string) (reads : list (Z + list byte)) (alloc : Z) (buf : list byte) :
    proc (option (list byte)) :=
  match fuel with
  | O => halt OutOfFuel
  | S fuel' =>
      let size := Z.of_nat (length buf) in
      let grow := alloc <=? size in
      let alloc := if grow then alloc + 8192 else alloc in
      if grow && (VGMETA_MAX <? alloc) then fail "metadata is too large for message buffer" None
      else match reads with
           | [] => ret (Some buf)
           | inl e :: _ => perror E e ("read: " +:+ tmp) None
           | inr [] :: _ => ret (Some buf)
           | inr d :: reads' =>
               let n := Z.to_nat (alloc - size) in
               vgmeta_loop fuel' tmp (match drop n d with [] => reads' | d' => inr d' :: reads' end) alloc (buf ++ take n d)
           end
  end.
Definition do_vgmeta (vg : string) : proc (option (list byte)) :=
  match vw_mkstemp W with
  | inl e => perror E e "mkstemp" None
  | inr tmp =>
      log (Called "mkstemp" [tmp]) ;;;
      r <- run_or (command_err E ["lvm"; "vgcfgbackup"; "-f"; tmp; vg]) (fun err => "vgcfgbackup: " +:+ err) ;;
      if r =? -1 then ret None
      else if negb (vw_open W) then fail tmp None
      else
        buf <- vgmeta_loop (S (reads_size (vw_reads W))) tmp (vw_reads W) 0 [] ;;
        match buf with
        | None => ret None
        | Some buf =>
            match vw_close W with
            | Some e => perror E e ("close: " +:+ tmp) None
            | None => log (Called "unlink" [tmp]) ;;; ret (Some buf)
            end
        end
  end.
End vgmeta.

(** * The long listings *)

(** The columns; the type of a percentage is a C float. *)
Inductive coltype := FString | FUUID | FBytes | FInt64 | FOptPercent.
#[export] Instance coltype_eq_dec : EqDecision coltype.
Proof. solve_decision. Defined.

Definition lvm_pv_cols : list (string * coltype) := [
  ("pv_name", FString); ("pv_uuid", FUUID); ("pv_fmt", FString); ("pv_size", FBytes); ("dev_size", FBytes);
  ("pv_free", FBytes); ("pv_used", FBytes); ("pv_attr", FString); ("pv_pe_count", FInt64);
  ("pv_pe_alloc_count", FInt64); ("pv_tags", FString); ("pe_start", FBytes); ("pv_mda_count", FInt64);
  ("pv_mda_free", FBytes)].
Definition lvm_vg_cols : list (string * coltype) := [
  ("vg_name", FString); ("vg_uuid", FUUID); ("vg_fmt", FString); ("vg_attr", FString); ("vg_size", FBytes);
  ("vg_free", FBytes); ("vg_sysid", FString); ("vg_extent_size", FBytes); ("vg_extent_count", FInt64);
  ("vg_free_count", FInt64); ("max_lv", FInt64); ("max_pv", FInt64); ("pv_count", FInt64); ("lv_count", FInt64);
  ("snap_count", FInt64); ("vg_seqno", FInt64); ("vg_tags", FString); ("vg_mda_count", FInt64);
  ("vg_mda_free", FBytes)].
Definition lvm_lv_cols : list (string * coltype) := [
  ("lv_name", FString); ("lv_uuid", FUUID); ("lv_attr", FString); ("lv_major", FInt64); ("lv_minor", FInt64);
  ("lv_kernel_major", FInt64); ("lv_kernel_minor", FInt64); ("lv_size", FBytes); ("seg_count", FInt64);
  ("origin", FString); ("snap_percent", FOptPercent); ("copy_percent", FOptPercent); ("move_pv", FString);
  ("lv_tags", FString); ("mirror_log", FString); ("modules", FString)].

(** The 32 characters of a UUID, without its dashes. *)
Fixpoint scan_uuid (n : nat) (tok : string) : option string :=
  match n, tok with
  | O, _ => Some ""
  | S _, EmptyString => None
  | S n', String c tok' => if Ascii.eqb c "-" then scan_uuid n tok' else String c <$> scan_uuid n' tok'
  end.

Section tokenize.
(** float, -1 as a float, and sscanf %f *)
Context {F : Type} (minus_one : F) (scan_float : string -> option F).

Definition col_value (t : coltype) : Type :=
  match t with FString | FUUID => string | FBytes | FInt64 => Z | FOptPercent => F end.
Fixpoint row (cols : list (string * coltype)) : Type :=
  match cols with [] => unit | (_, t) :: cols' => (col_value t * row cols')%type end.

Definition scan_col (t : coltype) (tok : string) : option (col_value t) :=
  match t with
  | FString => Some tok
  | FUUID => scan_uuid 32 tok
  | FBytes => head (sscanf tok [pct_u64])
  | FInt64 => head (sscanf tok [pct_i64])
  | FOptPercent => if STREQ tok "" then Some minus_one else scan_float tok
  end.
Fixpoint tokenize_cols (cols : list (string * coltype)) (tok : option string) : option (row cols) :=
  match cols with
  | [] => match tok with None => Some tt | Some _ => None end
  | (_, t) :: cols' =>
      tok ← tok;
      let '(tok, p) := strcspn "," tok in
      let next := match p with EmptyString => None | String _ p' => Some p' end in
      v ← scan_col t tok;
      r ← tokenize_cols cols' next;
      Some (v, r)
  end.
Definition lvm_tokenize (cols : list (string * coltype)) (str : string) : option (row cols) :=
  match str with
  | EmptyString => None
  | String c _ => if c_isspace c then None else tokenize_cols cols (Some str)
  end.

Fixpoint parse_lines (cols : list (string * coltype)) (ls : list string) : option (list (row cols)) :=
  match ls with
  | [] => Some []
  | p :: ls' =>
      let p := skip_spaces p in
      if STREQ p "" then parse_lines cols ls'
      else r ← lvm_tokenize cols p; rs ← parse_lines cols ls'; Some (r :: rs)
  end.
Definition full_argv (typ : string) (cols : list (string * coltype)) : list string :=
  ["lvm"; typ +:+ "s"; "-o"; join_strings "," (map fst cols); "--unbuffered"; "--noheadings"; "--nosuffix";
   "--separator"; ","; "--units"; "b"].
Definition parse_command_line (E : denv) (typ : string) (cols : list (string * coltype)) : proc (option (list (row cols))) :=
  let* (r, out, err) := command_out E (full_argv typ cols) in
  if r =? -1 then fail (fmt_s err) None
  else match parse_lines cols (lines (default "" out)) with
       | None => fail ("failed to parse output of '" +:+ typ +:+ "s' command") None
       | Some rs => ret (Some rs)
       end.
Definition do_pvs_full (E : denv) := parse_command_line E "pv" lvm_pv_cols.
Definition do_vgs_full (E : denv) := parse_command_line E "vg" lvm_vg_cols.
Definition do_lvs_full (E : denv) := parse_command_line E "lv" lvm_lv_cols.
End tokenize.

(** * One reply *)

Section one_reply.
Context (E : denv) `{!Starts E} (ub : bool).

Lemma lvm_list_one_reply argv prefix : one_reply ub ptr_failed (lvm_list E argv prefix).
Proof. unfold lvm_list. emits. Qed.
Lemma lvm_run_one_reply argv msg : one_reply ub int_failed (lvm_run E argv msg).
Proof. unfold lvm_run. emits. Qed.
Lemma lvresize_one_reply argv : one_reply ub int_failed (lvresize E argv).
Proof. unfold lvresize. emits. Qed.
Lemma get_lvm_field_one_reply cmd field device : one_reply ub ptr_failed (get_lvm_field E cmd field device).
Proof. unfold get_lvm_field. emits. Qed.
Lemma get_lvm_fields_one_reply cmd field device : one_reply ub ptr_failed (get_lvm_fields E cmd field device).
Proof. unfold get_lvm_fields. emits. Qed.
Lemma parse_command_line_one_reply {F} minus_one (scan_float : string -> option F) typ cols :
  one_reply ub ptr_failed (parse_command_line minus_one scan_float E typ cols).
Proof. unfold parse_command_line. emits. Qed.
End one_reply.
#[export] Hint Resolve lvm_list_one_reply lvm_run_one_reply lvresize_one_reply get_lvm_field_one_reply
  get_lvm_fields_one_reply parse_command_line_one_reply : one_reply.

Lemma quiet_stat_rdev E path : quiet (stat_rdev E path).
Proof. apply quiet_gets. Qed.
#[export] Hint Resolve quiet_stat_rdev : quiet.

(** How lv_canonical says that it failed. *)
Definition pair_failed {A} (r : Z * A) : bool := fst r =? -1.

Section one_reply_loops.
Context (E : denv) `{!Starts E} (ub : bool).

Lemma remove_loop_one_reply deactivate remove xs : one_reply ub int_failed (remove_loop E deactivate remove xs).
Proof.
  induction xs as [|x xs IH]; cbn [remove_loop]; [emits|]. apply emits_quiet.
  - destruct deactivate; [apply quiet_bind; auto with quiet|apply quiet_ret].
  - emits.
Qed.
Lemma remove_all_one_reply list deactivate remove :
  one_reply ub ptr_failed list -> one_reply ub int_failed (remove_all E list deactivate remove).
Proof.
  intros Hl. unfold remove_all. eapply emits_call; [exact Hl|intros [|] Ha; emits|].
  intros [xs|] Ha; [apply remove_loop_one_reply|done].
Qed.
Lemma do_lvm_remove_all_one_reply : one_reply ub int_failed (do_lvm_remove_all E).
Proof.
  pose proof (fun argv prefix => remove_all_one_reply _ (Some "lvchange") "lvremove" (lvm_list_one_reply E ub argv prefix)).
  pose proof (fun argv prefix => remove_all_one_reply _ (Some "vgchange") "vgremove" (lvm_list_one_reply E ub argv prefix)).
  pose proof (fun argv prefix => remove_all_one_reply _ None "pvremove" (lvm_list_one_reply E ub argv prefix)).
  unfold do_lvm_remove_all, do_lvs, do_vgs, do_pvs. emits.
Qed.
Lemma lv_loop_one_reply rdev lvs : one_reply ub pair_failed (lv_loop E rdev lvs).
Proof. induction lvs as [|lv lvs IH]; cbn [lv_loop]; emits. Qed.
Lemma lv_canonical_one_reply device : one_reply ub pair_failed (lv_canonical E device).
Proof. pose proof lv_loop_one_reply. unfold lv_canonical, do_lvs. emits. Qed.
Lemma do_is_lv_one_reply device : one_reply ub int_failed (do_is_lv E device).
Proof.
  unfold do_is_lv. eapply emits_bind; [apply lv_canonical_one_reply|]. intros [r c] n ->. apply emits_ret.
  by rewrite Nat.add_0_r.
Qed.
Lemma do_lvm_canonical_lv_name_one_reply device : one_reply ub ptr_failed (do_lvm_canonical_lv_name E device).
Proof.
  unfold do_lvm_canonical_lv_name. eapply emits_call; [apply lv_canonical_one_reply| |];
    intros [r c] Hr; unfold pair_failed in Hr; cbn [fst] in Hr; rewrite Hr; emits.
Qed.
Lemma dm_loop_one_reply entries : forall acc, one_reply ub ptr_failed (dm_loop E entries acc).
Proof.
  induction entries as [|d entries IH]; intros acc; cbn [dm_loop]; [emits|].
  destruct (_ || _); [apply IH|]. eapply emits_call; [apply lv_canonical_one_reply| |];
    intros [r c] Hr; unfold pair_failed in Hr; cbn [fst] in Hr; rewrite Hr; [emits|apply IH].
Qed.
Lemma do_list_dm_devices_one_reply F : one_reply ub ptr_failed (do_list_dm_devices E F).
Proof.
  unfold do_list_dm_devices. destruct (dir_open _); [emits|].
  eapply emits_call; [apply dm_loop_one_reply| |]; intros [acc|] Ha; try done; emits.
Qed.
End one_reply_loops.
#[export] Hint Resolve do_lvm_remove_all_one_reply do_is_lv_one_reply do_lvm_canonical_lv_name_one_reply
  do_list_dm_devices_one_reply : one_reply.

(** ** vgmeta *)

Definition reads_content (reads : list (Z + list byte)) : list byte :=
  foldr (fun r acc => match r with inl _ => acc | inr d => d ++ acc end) [] reads.
Definition reads_good (reads : list (Z + list byte)) : Prop :=
  Forall (fun r => match r with inl _ => False | inr d => d <> [] end) reads.
(** The largest allocation below the limit. *)
Definition VGMETA_LIMIT : Z := 8192 * (VGMETA_MAX / 8192).
Definition alloc_ok (alloc : Z) (buf : list byte) : Prop :=
  0 <= alloc <= VGMETA_LIMIT /\ (8192 | alloc) /\ Z.of_nat (length buf) <= alloc.

(** What is left after a read of [n] bytes. *)
Definition read_rest (n : nat) (d : list byte) (reads : list (Z + list byte)) : list (Z + list byte) :=
  match drop n d with [] => reads | d' => inr d' :: reads end.
Lemma read_rest_size n d reads : d <> [] -> (0 < n)%nat ->
  (reads_size (read_rest n d reads) < reads_size (inr d :: reads))%nat.
Proof.
  intros Hd Hn. unfold read_rest. destruct (drop n d) as [|c d'] eqn:Ed; cbn [reads_size foldr]; fold (reads_size reads); [lia|].
  rewrite <- Ed, length_drop. destruct d; [done|]. cbn [length]. lia.
Qed.
Lemma read_rest_content n d reads : take n d ++ reads_content (read_rest n d reads) = reads_content (inr d :: reads).
Proof.
  unfold read_rest. cbn [reads_content foldr]. fold (reads_content reads). rewrite <- (take_drop n d) at 3.
  destruct (drop n d); cbn [reads_content foldr]; fold (reads_content reads); by rewrite <- app_assoc.
Qed.
Lemma read_rest_good n d reads : reads_good reads -> reads_good (read_rest n d reads).
Proof. intros H. unfold read_rest. destruct (drop n d); [done|]. by constructor. Qed.

(** The new allocation, when it is granted. *)
Lemma alloc_grow alloc buf : alloc_ok alloc buf ->
  let alloc' := if alloc <=? Z.of_nat (length buf) then alloc + 8192 else alloc in
  if (alloc <=? Z.of_nat (length buf)) && (VGMETA_MAX <? alloc') then Z.of_nat (length buf) = VGMETA_LIMIT
  else 0 <= alloc' <= VGMETA_LIMIT /\ (8192 | alloc') /\ Z.of_nat (length buf) < alloc'.
Proof.
  intros ([H0 Hl] & [k Hk] & Hb). change VGMETA_LIMIT with 4186112 in *. change VGMETA_MAX with 4193304.
  destruct (Z.leb_spec alloc (Z.of_nat (length buf))); cbn.
  - destruct (Z.ltb_spec 4193304 (alloc + 8192)); [lia|].
    split_and!; [lia|lia|exists (k + 1); lia|lia].
  - split_and!; [lia..|by exists k|lia].
Qed.

Section vgmeta_proof.
Context (E : denv) (tmp : string).

Lemma vgmeta_loop_spec : forall fuel reads alloc buf s,
  (reads_size reads < fuel)%nat -> reads_good reads -> alloc_ok alloc buf ->
  let content := buf ++ reads_content reads in
  vgmeta_loop E fuel tmp reads alloc buf s =
    if Z.of_nat (length content) <? VGMETA_LIMIT then (Ret (Some content), s)
    else (Ret None, s <| ps_log ::= (fun l => l ++ [Replied 0 "metadata is too large for message buffer"]) |>).
Proof.
  induction fuel as [|fuel IH]; intros reads alloc buf s Hf Hg Ha; [lia|]. cbn zeta.
  pose proof (alloc_grow alloc buf Ha) as Hgrow. cbn [vgmeta_loop]. cbn zeta in *.
  set (alloc' := if alloc <=? Z.of_nat (length buf) then alloc + 8192 else alloc) in *.
  destruct ((alloc <=? Z.of_nat (length buf)) && (VGMETA_MAX <? alloc')).
  { rewrite length_app. destruct (Z.ltb_spec (Z.of_nat (length buf + length (reads_content reads))) VGMETA_LIMIT); [lia|done]. }
  destruct Hgrow as (Hl & Hm & Hlt). destruct reads as [|[e|d] reads].
  - rewrite app_nil_r. destruct (Z.ltb_spec (Z.of_nat (length buf)) VGMETA_LIMIT); [done|lia].
  - inversion Hg as [|? ? Hd _]. done.
  - inversion Hg as [|? ? Hd Hg']; subst. destruct d as [|c d']; [done|].
    remember (c :: d') as d eqn:Ed. clear Ed. set (n := Z.to_nat (alloc' - Z.of_nat (length buf))).
    change (match drop n d with [] => reads | d' => inr d' :: reads end) with (read_rest n d reads).
    pose proof (read_rest_size n d reads Hd ltac:(lia)). rewrite IH.
    + cbn zeta. rewrite <- app_assoc, read_rest_content. done.
    + lia.
    + by apply read_rest_good.
    + split_and!; [lia|lia|done|]. rewrite length_app, length_take. lia.
Qed.
(** Whatever the reads give, the loop ends and replies once when it fails. *)
Lemma vgmeta_loop_one_reply ub : forall fuel reads alloc buf,
  (reads_size reads < fuel)%nat -> Z.of_nat (length buf) <= alloc ->
  one_reply ub ptr_failed (vgmeta_loop E fuel tmp reads alloc buf).
Proof.
  induction fuel as [|fuel IH]; intros reads alloc buf Hf Ha; [lia|]. cbn [vgmeta_loop]. cbn zeta.
  destruct ((alloc <=? Z.of_nat (length buf)) && _); [emits|].
  set (alloc' := if alloc <=? Z.of_nat (length buf) then alloc + 8192 else alloc).
  assert (Z.of_nat (length buf) < alloc') as Hlt by (unfold alloc'; destruct (Z.leb_spec alloc (Z.of_nat (length buf))); lia).
  destruct reads as [|[e|d] reads]; [emits..|]. destruct d as [|c d']; [emits|].
  remember (c :: d') as d eqn:Ed. assert (d <> []) as Hd by (by rewrite Ed). clear Ed.
  set (n := Z.to_nat (alloc' - Z.of_nat (length buf))).
  pose proof (read_rest_size n d reads Hd ltac:(lia)). apply IH.
  - unfold read_rest in *. lia.
  - rewrite length_app, length_take. lia.
Qed.
End vgmeta_proof.

Lemma do_vgmeta_one_reply E `{!Starts E} W ub vg : one_reply ub ptr_failed (do_vgmeta E W vg).
Proof.
  unfold do_vgmeta. destruct (vw_mkstemp W) as [e|tmp]; [emits|].
  pose proof (vgmeta_loop_one_reply E tmp ub (S (reads_size (vw_reads W))) (vw_reads W) 0 [] ltac:(lia) ltac:(done)).
  emits.
Qed.
#[export] Hint Resolve do_vgmeta_one_reply : one_reply.

(** [m] returns [r] having only added to the log; [new] is what it added. *)
Definition does_log {A} (m : proc A) (s : pstate) (r : A) (new : list action) : Prop :=
  exists s', m s = (Ret r, s') /\ ps_log s' = ps_log s ++ new /\ ps_static s' = ps_static s.

(** The metadata of a volume group: when vgcfgbackup succeeds and the file can be read, in
    pieces of any size, the metadata is returned in full and the temporary file removed if it is
    shorter than 511 blocks of 8192 bytes; otherwise an error is replied and the temporary file
    is left behind. *)
Theorem vgmeta_bound (E : denv) (W : vg_world) (vg tmp out : string) (s : pstate) :
  vw_mkstemp W = inr tmp -> vw_open W = true -> vw_close W = None -> reads_good (vw_reads W) ->
  (forall h, prints (ev_exec E h ["lvm"; "vgcfgbackup"; "-f"; tmp; vg]) out) ->
  let content := reads_content (vw_reads W) in
  let start := [Called "mkstemp" [tmp]; Ran 0 ["lvm"; "vgcfgbackup"; "-f"; tmp; vg]] in
  if Z.of_nat (length content) <? VGMETA_LIMIT then
    does_log (do_vgmeta E W vg) s (Some content) (start ++ [Called "unlink" [tmp]])
  else does_log (do_vgmeta E W vg) s None (start ++ [Replied 0 "metadata is too large for message buffer"]).
Proof.
  intros Hm Ho Hc Hg Hp content start. subst content start. unfold do_vgmeta. rewrite Hm, Ho, Hc.
  set (s1 := s <| ps_log ::= (fun l => l ++ [Called "mkstemp" [tmp]]) |>).
  pose proof (run_or_prints E ["lvm"; "vgcfgbackup"; "-f"; tmp; vg] (fun err => "vgcfgbackup: " +:+ err) out s1 (Hp _)) as Hr.
  set (s2 := s1 <| ps_log ::= (fun l => l ++ [Ran 0 ["lvm"; "vgcfgbackup"; "-f"; tmp; vg]]) |>) in *.
  pose proof (vgmeta_loop_spec E tmp (S (reads_size (vw_reads W))) (vw_reads W) 0 [] s2) as Hl. cbn zeta in Hl.
  rewrite app_nil_l in Hl. specialize (Hl ltac:(lia) Hg ltac:(split_and!; [done|done|by exists 0|done])).
  destruct (_ <? VGMETA_LIMIT); eexists;
    rewrite (bind_Ret (log (Called "mkstemp" [tmp])) _ s tt s1 eq_refl), (bind_Ret _ _ _ _ _ Hr);
    cbn [Z.eqb negb]; rewrite (bind_Ret _ _ _ _ _ Hl); (split; [reflexivity|]); cbn; by rewrite <- ?app_assoc.
Qed.

Lemma vgmeta_bound_witness :
  let W := mk_vg_world (inr "/tmp/vgmeta1") true [inr [x61; x62]; inr [x63]] None in
  does_log (do_vgmeta ex_denv W "vg") ex_state (Some [x61; x62; x63])
    [Called "mkstemp" ["/tmp/vgmeta1"]; Ran 0 ["lvm"; "vgcfgbackup"; "-f"; "/tmp/vgmeta1"; "vg"]; Called "unlink" ["/tmp/vgmeta1"]].
Proof.
  intros W. apply (vgmeta_bound ex_denv W "vg" "/tmp/vgmeta1" "" ex_state); try done.
  - repeat constructor; done.
  - intros h. by apply printing_prints.
Defined.

(** ** The long listings are read back *)

Section listings.
Context {F : Type} (minus_one : F) (scan_float : string -> option F).

(** How a value may be printed in a column. *)
Fixpoint undashed (s : string) : string :=
  match s with
  | EmptyString => ""
  | String c s' => if Ascii.eqb c "-" then undashed s' else String c (undashed s')
  end.
Definition col_text (t : coltype) : col_value (F := F) t -> string -> Prop :=
  match t with
  | FString => fun v text => text = v
  | FUUID => fun v text => undashed text = v /\ String.length v = 32%nat
  | FBytes => fun v text => text = pretty v /\ 0 <= v < 2 ^ 63
  | FInt64 => fun v text => text = pretty v /\ - 2 ^ 63 <= v < 2 ^ 63
  | FOptPercent => fun v text => (text = "" /\ v = minus_one) \/ (text <> "" /\ scan_float text = Some v)
  end.
Fixpoint row_text (cols : list (string * coltype)) : row (F := F) cols -> list string -> Prop :=
  match cols with
  | [] => fun _ texts => texts = []
  | (_, t) :: cols' => fun r texts =>
      exists text texts', texts = text :: texts' /\ col_text t (fst r) text /\ no_sep "," text /\ row_text cols' (snd r) texts'
  end.
(** A line of a listing: indented, and the first column is not empty. *)
Definition line_text (cols : list (string * coltype)) (r : row (F := F) cols) (line : string) : Prop :=
  exists indent texts, line = indent +:+ join_strings "," texts /\ str_forallb c_isspace indent = true /\
    row_text cols r texts /\ no_sep nl_char line /\
    exists c w texts', texts = String c w :: texts' /\ c_isspace c = false.

Lemma scan_uuid_undashed n text : String.length (undashed text) = n -> scan_uuid n text = Some (undashed text).
Proof.
  revert n. induction text as [|c text IH]; intros n; cbn [undashed scan_uuid].
  - by intros <-.
  - destruct (Ascii.eqb c "-"); [intros Hn|intros <-; cbn [String.length]; by rewrite (IH _ eq_refl)].
    destruct n; [|by apply IH]. by destruct (undashed text).
Qed.
Lemma scan_col_text t v text : col_text t v text -> scan_col minus_one scan_float t text = Some v.
Proof.
  destruct t; cbn [col_text scan_col].
  - by intros ->.
  - intros [<- H]. by apply scan_uuid_undashed.
  - intros [-> H]. destruct v as [|p|p]; [done| |lia]. cbn [sscanf pct_u64].
    change (pretty (Zpos p)) with (pretty (Npos p)). rewrite <- (str_app_nil_r (pretty (N.pos p))).
    rewrite scan_number_pretty by (by left || done). cbn. unfold store_uint64.
    destruct (Z.ltb_spec (Z.abs (Z.pos p)) (2 ^ 64)); [|lia]. by rewrite s64_id by lia.
  - intros [-> H]. cbn [sscanf pct_i64]. rewrite scan_number_pretty_Z. cbn. by rewrite store_int64_id.
  - intros [[-> ->]|[Hne H]]; [done|]. unfold STREQ. by rewrite bool_decide_false.
Qed.
Lemma join_strings_cons sep a b l : join_strings sep (a :: b :: l) = a +:+ sep +:+ join_strings sep (b :: l).
Proof.
  unfold join_strings. change (join_from 0 sep (a :: b :: l)) with (a +:+ join_from 1 sep (b :: l)).
  by rewrite join_from_S.
Qed.
Lemma join_strings_one sep a : join_strings sep [a] = a.
Proof. apply str_app_nil_r. Qed.
Lemma tokenize_cols_text cols : forall r texts, cols <> [] -> row_text cols r texts ->
  tokenize_cols minus_one scan_float cols (Some (join_strings "," texts)) = Some r.
Proof.
  induction cols as [|[name t] cols IH]; [done|]. intros [v r] texts _ (text & texts' & -> & Hv & Hs & Hr).
  cbn [fst snd] in *. cbn [tokenize_cols mbind option_bind]. destruct texts' as [|text' texts'].
  - rewrite join_strings_one. destruct (strcspn_no_sep "," text "" Hs) as [_ ->].
    rewrite (scan_col_text t v text Hv). cbn [mbind option_bind].
    destruct cols as [|[? ?] cols]; [by destruct r|]. by destruct Hr as (? & ? & ? & _).
  - rewrite join_strings_cons. change ("," +:+ join_strings "," (text' :: texts')) with
      (String "," (join_strings "," (text' :: texts'))).
    destruct (strcspn_no_sep "," text (join_strings "," (text' :: texts')) Hs) as [-> _].
    rewrite (scan_col_text t v text Hv). cbn [mbind option_bind].
    rewrite (IH r); [done|by intros ->|done].
Qed.
Lemma lvm_tokenize_line cols r line : cols <> [] -> line_text cols r line ->
  lvm_tokenize minus_one scan_float cols (skip_spaces line) = Some r.
Proof.
  intros Hc (indent & texts & -> & Hi & Hr & _ & c & w & texts' & -> & Hw).
  pose proof (tokenize_cols_text cols r _ Hc Hr) as Ht.
  assert (exists k, join_strings "," (String c w :: texts') = String c k) as [k Ek].
  { destruct texts'; [rewrite join_strings_one; by exists w|]. rewrite join_strings_cons, str_app_cons. eauto. }
  rewrite Ek in *. assert (skip_spaces (indent +:+ String c k) = String c k) as ->.
  { clear -Hi Hw. induction indent as [|d indent IH]; [cbn; by rewrite Hw|]. cbn in Hi. apply andb_prop in Hi as [Hd Hi].
    rewrite str_app_cons. cbn [skip_spaces]. rewrite Hd. by apply IH. }
  cbn [lvm_tokenize]. by rewrite Hw.
Qed.
Lemma parse_lines_text cols rs ls : cols <> [] -> Forall2 (line_text cols) rs ls ->
  parse_lines minus_one scan_float cols (ls ++ [""]) = Some rs.
Proof.
  intros Hc. induction 1 as [|r line rs ls Hl _ IH]; [done|]. cbn [app parse_lines].
  pose proof (lvm_tokenize_line cols r line Hc Hl) as Ht.
  destruct (skip_spaces line) as [|c k] eqn:Es; [done|]. change (STREQ (String c k) "") with false. cbv iota.
  by rewrite Ht, IH.
Qed.
End listings.

Lemma lines_unlines ls : Forall (no_sep nl_char) ls -> lines (str_unlines ls) = ls ++ [""].
Proof.
  intros H. unfold lines. assert (forall fuel, (String.length (str_unlines ls) <= fuel)%nat ->
    split_loop fuel nl_char (str_unlines ls) = ls ++ [""]) as Hf; [|by apply Hf].
  induction H as [|l ls Hl _ IH]; intros fuel Hn; [by destruct fuel|]. cbn [str_unlines foldr] in *.
  fold (str_unlines ls) in *. destruct (strcspn_no_sep nl_char l (str_unlines ls) Hl) as [E _].
  rewrite str_length_app in Hn. cbn [String.length] in Hn. destruct fuel as [|fuel]; [lia|].
  cbn [split_loop]. rewrite E, IH by lia. done.
Qed.

(** C21: The long listings (pvs_full, vgs_full, lvs_full), for any list of columns: whatever lvm
    prints, one line per volume with the values separated by commas, numbers in decimal, UUIDs
    with dashes anywhere and empty percentages for -1, is parsed back to exactly those rows in
    order, provided that no value has a comma in it. *)
Theorem lvm_listing_roundtrip {F} (minus_one : F) (scan_float : string -> option F) (E : denv) (typ : string)
    (cols : list (string * coltype)) (rs : list (row cols)) (ls : list string) (s : pstate) :
  cols <> [] -> Forall2 (line_text minus_one scan_float cols) rs ls ->
  prints (ev_exec E (ps_log s) (full_argv typ cols)) (str_unlines ls) ->
  does_log (parse_command_line minus_one scan_float E typ cols) s (Some rs) [Ran 0 (full_argv typ cols)].
Proof.
  intros Hc Hl Hp. destruct (commandf_prints E true 0 _ _ s Hp eq_refl) as [err Hr].
  assert (Forall (no_sep nl_char) ls) as Hn.
  { clear -Hl. induction Hl as [|r l rs ls (? & ? & ? & ? & ? & Hn & _) _ IH]; by constructor. }
  pose proof (parse_lines_text minus_one scan_float cols rs ls Hc Hl) as Hpl.
  eexists. unfold parse_command_line, command_out. rewrite (bind_Ret _ _ _ _ _ Hr). change (default "" (Some (str_unlines ls))) with (str_unlines ls). cbn [Z.eqb].
  rewrite lines_unlines, Hpl by done. split; [reflexivity|]. done.
Qed.

Definition ex_uuid : string := "0123456789abcdefghijklmnopqrstuv".
Definition ex_scan_float (text : string) : option Z := head (sscanf text [pct_i64]).
Definition ex_lv_row : row (F := Z) lvm_lv_cols :=
  ("root", (ex_uuid, ("-wi-a-", (-1, (-1, (253, (0, (1048576, (1, ("", (-1, (12, ("", ("", ("", ("", tt)))))))))))))))).
Definition ex_lv_texts : list string :=
  ["root"; "012345-6789-abcd-efgh-ijkl-mnop-qrstuv"; "-wi-a-"; "-1"; "-1"; "253"; "0"; "1048576"; "1"; ""; ""; "12"; ""; ""; ""; ""].
Definition ex_lv_line : string := "  " +:+ join_strings "," ex_lv_texts.

Lemma ex_lv_line_ok : line_text (-1) ex_scan_float lvm_lv_cols ex_lv_row ex_lv_line.
Proof.
  exists "  ", ex_lv_texts. split_and!; [done..| |done|by eexists _, _, _].
  unfold ex_lv_texts. cbn [row_text lvm_lv_cols].
  repeat (eexists _, _; split; [reflexivity|]; split_and!; [|done|]; [cbn; auto; try (right; split; [done|by vm_compute]); try (split; [done|lia])|]).
  done.
Qed.
Lemma lvm_listing_roundtrip_witness :
  does_log (do_lvs_full (-1) ex_scan_float
    (mk_denv (fun _ _ => printing (str_unlines [ex_lv_line; ex_lv_line])) (fun _ _ => inr 0) (fun _ _ _ => None) (ev_fs ex_denv) (fun _ => Some [])
       (fun _ _ => 0) (fun _ => "") "/sysroot")) ex_state
    (Some [ex_lv_row; ex_lv_row]) [Ran 0 (full_argv "lv" lvm_lv_cols)].
Proof.
  apply (lvm_listing_roundtrip (-1) ex_scan_float _ "lv" lvm_lv_cols _ [ex_lv_line; ex_lv_line]).
  - done.
  - repeat constructor; apply ex_lv_line_ok.
  - by apply printing_prints.
Defined.

(** Tags are separated by commas too: with two tags the line has a column too
    many, and the whole listing fails. *)
Lemma lvm_two_tags_fail :
  let texts := ["root"; "012345-6789-abcd-efgh-ijkl-mnop-qrstuv"; "-wi-a-"; "-1"; "-1"; "253"; "0"; "1048576"; "1"; ""; ""; ""; "";
    "tag1,tag2"; ""; ""] in
  lvm_tokenize (-1) ex_scan_float lvm_lv_cols (join_strings "," texts) = None.
Proof. reflexivity. Qed.

(** ** Names of volumes *)

(** A name printed with space around it. *)
Definition name_ok (name : string) : Prop := name <> "" /\ no_class c_isspace name /\ (String.length name <= 250)%nat.
Definition name_line (name line : string) : Prop :=
  exists a b, line = a +:+ name +:+ b /\ str_forallb c_isspace a = true /\ str_forallb c_isspace b = true /\
    no_sep nl_char line /\ name_ok name.

Lemma trim_end_spaces b : str_forallb c_isspace b = true -> trim_end b = "".
Proof.
  induction b as [|c b IH]; [done|]. cbn. intros [Hc Hb]%andb_prop. rewrite (IH Hb), Hc. done.
Qed.
Lemma trim_end_name name b : no_class c_isspace name -> str_forallb c_isspace b = true -> trim_end (name +:+ b) = name.
Proof.
  intros Hn Hb. induction name as [|c name IH]; [by apply trim_end_spaces|]. unfold no_class in *. cbn in Hn.
  apply andb_prop in Hn as [Hc Hn]. apply negb_true_iff in Hc. rewrite str_app_cons. cbn [trim_end].
  rewrite (IH Hn), Hc, andb_false_r. done.
Qed.
Lemma skip_spaces_app a t : str_forallb c_isspace a = true -> skip_spaces (a +:+ t) = skip_spaces t.
Proof.
  induction a as [|c a IH]; [done|]. cbn [str_forallb]. intros [Hc Ha]%andb_prop. rewrite str_app_cons.
  cbn [skip_spaces]. rewrite Hc. by apply IH.
Qed.
Lemma convert_name_line name line : name_line name line -> convert_line (Some "/dev/") line = Some ("/dev/" +:+ name).
Proof.
  intros (a & b & -> & Ha & Hb & _ & Hne & Hn & Hlen). unfold convert_line.
  rewrite skip_spaces_app by done.
  assert (skip_spaces (name +:+ b) = name +:+ b) as ->.
  { destruct name as [|c name]; [done|]. unfold no_class in Hn. cbn in Hn. apply andb_prop in Hn as [Hc _].
    rewrite str_app_cons. cbn [skip_spaces]. apply negb_true_iff in Hc. by rewrite Hc. }
  rewrite trim_end_name by done. unfold STREQ. rewrite bool_decide_false by done.
  rewrite snprintf_id; [by rewrite bool_decide_false|]. rewrite str_length_app. cbn [String.length]. lia.
Qed.
Lemma convert_names names ls : Forall2 name_line names ls ->
  convert_lvm_output (str_unlines ls) (Some "/dev/") = sort_strings ((fun n => "/dev/" +:+ n) <$> names).
Proof.
  intros H. unfold convert_lvm_output. f_equal. rewrite lines_unlines.
  - induction H as [|n l names ls Hl _ IH]; [done|]. cbn [app omap list_omap]. by rewrite (convert_name_line n l Hl), IH.
  - clear -H. induction H as [|n l names ls (? & ? & ? & ? & ? & Hn & _) _ IH]; by constructor.
Qed.

Section canonical.
Context (E : denv) (names ls : list string) (rdev_of : string -> Z).
Definition lvs_argv : list string := ["lvm"; "lvs"; "-o"; "vg_name,lv_name"; "--noheadings"; "--separator"; "/"].
Context (Hnames : Forall2 name_line names ls)
  (Hprint : forall h, prints (ev_exec E h lvs_argv) (str_unlines ls)).

(** The volumes listed: the names under /dev, sorted. *)
Lemma lvs_listed s : does_log (do_lvs E) s (Some (sort_strings ((fun n => "/dev/" +:+ n) <$> names))) [Ran 0 lvs_argv].
Proof using Hnames Hprint.
  destruct (commandf_prints E true 0 _ _ s (Hprint _) eq_refl) as [err Hr]. eexists.
  unfold do_lvs, lvm_list, command_out. fold lvs_argv. rewrite (bind_Ret _ _ _ _ _ Hr). cbn [Z.eqb].
  change (default "" (Some (str_unlines ls))) with (str_unlines ls). rewrite (convert_names names ls Hnames).
  split; [reflexivity|]. done.
Qed.
Lemma lv_loop_search rdev lvs s :
  (forall lv, lv ∈ lvs -> exists b, fs_stat (ev_fs E (ps_log s)) lv = Some (b, rdev_of lv)) ->
  lv_loop E rdev lvs s = (Ret (match List.find (fun lv => rdev =? rdev_of lv) lvs with Some lv => (1, lv) | None => (0, "") end), s).
Proof.
  induction lvs as [|lv lvs IH]; intros H; [done|]. cbn [lv_loop List.find].
  destruct (H lv ltac:(by left)) as [b Hb]. unfold stat_rdev, gets, bind. rewrite Hb. cbn [fmap option_fmap option_map snd].
  destruct (rdev =? rdev_of lv); [done|]. apply IH. intros lv' Hlv. apply H. by right.
Qed.
End canonical.

(** Canonical names of logical volumes: when lvs lists the volumes and all of them exist, a
    device is reported as a volume exactly when one of the volumes is the same device, under the
    name /dev/VG/LV of such a volume. *)
Theorem lv_canonical_correct (E : denv) (names ls : list string) (rdev_of : string -> Z) (device : string) (b : bool) (s : pstate) :
  Forall2 name_line names ls -> (forall h, prints (ev_exec E h lvs_argv) (str_unlines ls)) ->
  fs_stat (ev_fs E (ps_log s)) device = Some (b, rdev_of device) ->
  (forall n, n ∈ names -> exists b, fs_stat (ev_fs E (ps_log s ++ [Ran 0 lvs_argv])) ("/dev/" +:+ n) = Some (b, rdev_of ("/dev/" +:+ n))) ->
  (exists n, n ∈ names /\ rdev_of ("/dev/" +:+ n) = rdev_of device /\
     does_log (lv_canonical E device) s (1, "/dev/" +:+ n) [Ran 0 lvs_argv]) \/
  ((forall n, n ∈ names -> rdev_of ("/dev/" +:+ n) <> rdev_of device) /\
     does_log (lv_canonical E device) s (0, "") [Ran 0 lvs_argv]).
Proof.
  intros Hn Hp Hd Hv. set (lvs := sort_strings ((fun n => "/dev/" +:+ n) <$> names)).
  assert (forall lv, lv ∈ lvs <-> exists n, lv = "/dev/" +:+ n /\ n ∈ names) as Hin.
  { intros lv. unfold lvs, sort_strings. by rewrite merge_sort_Permutation, list_elem_of_fmap. }
  destruct (lvs_listed E names ls Hn Hp s) as (s1 & E1 & L1 & T1).
  assert (lv_canonical E device s = lv_loop E (rdev_of device) lvs s1) as Hc.
  { unfold lv_canonical, stat_rdev. erewrite (bind_Ret (gets _)) by reflexivity. rewrite Hd. cbn [fmap option_fmap option_map snd].
    by rewrite (bind_Ret _ _ _ _ _ E1). }
  rewrite (lv_loop_search E rdev_of (rdev_of device) lvs s1) in Hc.
  2:{ intros lv (n & -> & Hin')%Hin. rewrite L1. by apply Hv. }
  destruct (List.find _ lvs) as [lv|] eqn:Ef.
  - apply List.find_some in Ef as [Hl He]. apply list_elem_of_In, Hin in Hl as (n & -> & Hin'). left. exists n.
    split_and!; [done|lia|]. by exists s1.
  - right. split; [|by exists s1]. intros n Hin' He.
    pose proof (List.find_none _ _ Ef ("/dev/" +:+ n)) as Hnone.
    rewrite <- list_elem_of_In, Hin in Hnone. specialize (Hnone ltac:(eauto)). cbv beta in Hnone. apply Z.eqb_neq in Hnone. by rewrite He in Hnone.
Qed.

Definition ex_lvm_env : denv :=
  mk_denv (fun _ _ => printing (str_unlines ["  vg/swap"; "  vg/root  "])) (fun _ _ => inr 0) (fun _ _ _ => None)
    (fun _ => mk_dev_fs (fun _ => None) (fun p => Some (false, if STREQ p "/dev/vg/swap" then 1 else 2)) (fun _ => true) 0)
    (fun _ => Some []) (fun _ _ => 0) (fun _ => "") "/sysroot".
Lemma lv_canonical_correct_witness :
  does_log (lv_canonical ex_lvm_env "/dev/mapper/vg-root") ex_state (1, "/dev/vg/root") [Ran 0 lvs_argv].
Proof.
  destruct (lv_canonical_correct ex_lvm_env ["vg/swap"; "vg/root"] ["  vg/swap"; "  vg/root  "]
    (fun p => if STREQ p "/dev/vg/swap" then 1 else 2) "/dev/mapper/vg-root" false ex_state) as [(n & Hin & He & Hl)|[Hno _]].
  - constructor; [|constructor; [|constructor]].
    + exists "  ", "". split_and!; try done. split_and!; [done..|cbn; lia].
    + exists "  ", "  ". split_and!; try done. split_and!; [done..|cbn; lia].
  - intros h. by apply printing_prints.
  - done.
  - by eexists.
  - rewrite list_elem_of_In in Hin. destruct Hin as [<-|[<-|[]]]; [by vm_compute in He|exact Hl].
  - exfalso. apply (Hno "vg/root"); [by right; left|done].
Defined.
