(* ===== verification/Mount.v ===== *)
(** daemon/mount.c: mounting, unmounting and listing file systems, and
    unmounting everything. *)

From S2P Require Import Prelude Xdr Handle Utils Events Conn Command Guestfsd Procs DevParts Filesys Lvm.
From stdpp Require Import sorting.
From Stdlib Require Import Ascii.

Open Scope Z_scope.
#[local] Arguments String.append : simpl nomatch.

(** compare_longest_first, as the order qsort is given. *)
Definition compare_longest_first (p1 p2 : string) : Z := Z.of_nat (String.length p2) - Z.of_nat (String.length p1).
Definition longest_first (p1 p2 : string) : Prop := compare_longest_first p1 p2 <= 0.
#[export] Instance longest_first_dec p1 p2 : Decision (longest_first p1 p2) := Z_le_dec _ _.

Section mount.
Context (E : denv).
#[local] Notation path p := (sysroot_path (sysroot E) p).

(** * Mounting *)

Definition mount_vfs_nochroot (options : string) (vfstype : option string) (mountable : mountable_t) (mp user_mp : string) : proc Z :=
  let device := mt_device mountable in
  let options_plus :=
    match mt_type mountable with
    | MOUNTABLE_BTRFSVOL =>
        if (0 <? String.length options)%nat then "subvol=" +:+ mt_volume mountable +:+ "," +:+ options
        else "subvol=" +:+ mt_volume mountable
    | _ => options
    end in
  run_or (command_err E (["mount"; "-o"; options_plus] ++
      (match vfstype with Some vfstype => ["-t"; vfstype] | None => [] end) ++ [device; mp]))
    (fun error => device +:+ " on " +:+ user_mp +:+ " (options: '" +:+ options +:+ "'): " +:+ error).

Definition stat_isdir (p : string) : proc (option bool) := gets (fun s => fst <$> fs_stat (ev_fs E (ps_log s)) p).

(** The errno of the last message is whatever an earlier call left. *)
Definition mount_vfs (options : string) (vfstype : option string) (mountable : mountable_t) (mountpoint : string) : proc Z :=
  a <- ABS_PATH "do_mount_vfs" mountpoint ;;
  if negb a then ret (-1) else
  let mp := path mountpoint in
  st <- stat_isdir mp ;;
  match st with
  | None => pfail E "stat" ("mount: " +:+ mountpoint) (-1)
  | Some false => pfail E "" ("mount: " +:+ mountpoint +:+ ": mount point is not a directory") (-1)
  | Some true => mount_vfs_nochroot options vfstype mountable mp mountpoint
  end.
Definition do_mount_vfs (options vfstype : string) := mount_vfs options (Some vfstype).
Definition do_mount := mount_vfs "" None.
Definition do_mount_ro := mount_vfs "ro" None.
Definition do_mount_options (options : string) := mount_vfs options None.

Definition do_mount_loop (file mountpoint : string) : proc Z :=
  run_or (command_err E ["mount"; "-o"; "loop"; path file; path mountpoint])
    (fun error => file +:+ " on " +:+ mountpoint +:+ ": " +:+ error).

Definition do_remount (mountpoint : string) (rw : option bool) : proc Z :=
  match rw with
  | None => fail "parameter 'rw' must be specified" (-1)
  | Some rw =>
      let options := if rw : bool then "remount,rw" else "remount,ro" in
      run_or (command_err E ["mount"; "-o"; options; path mountpoint])
        (fun err => mountpoint +:+ ": " +:+ options +:+ ": " +:+ err)
  end.

(** * Unmounting *)

Definition is_true_opt (o : option bool) : bool := match o with Some b => b | None => false end.
Definition do_umount (pathordevice : string) (force lazyunmount : option bool) : proc Z :=
  let buf := if STRPREFIX pathordevice "/dev/" then pathordevice else path pathordevice in
  let argv := ["umount"] ++ (if is_true_opt force then ["-f"] else []) ++
              (if is_true_opt lazyunmount then ["-l"] else []) ++ [buf] in
  check_args 64 argv ;;;
  run_or (command_err E argv) (fun err => pathordevice +:+ ": " +:+ err).

(** /proc/mounts; setmntent that fails ends the daemon. *)
Definition getmntents : proc (list (string * string)) := fun s =>
  match ev_mounts E (ps_log s) with
  | None => (Stop Exited, s)
  | Some ms => (Ret ms, s)
  end.

Fixpoint umount_loop (mounts : list string) : proc Z :=
  match mounts with
  | [] => ret 0
  | m :: mounts' =>
      r <- run_or (command_err E ["umount"; m]) (fun err => "umount: " +:+ m +:+ ": " +:+ err) ;;
      if r =? -1 then ret (-1) else umount_loop mounts'
  end.
Definition do_umount_all : proc Z :=
  log (Called "aug_finalize" []) ;;;
  log (Called "hivex_finalize" []) ;;;
  log (Called "journal_finalize" []) ;;;
  ms <- getmntents ;;
  umount_loop (merge_sort longest_first (List.filter (under_sysroot E) (map snd ms))).

(** * Listing *)

(** The mount directory as the caller sees it. *)
Definition user_dir (mnt_dir : string) : string :=
  if STREQ mnt_dir (sysroot E) then "/" else str_drop (String.length (sysroot E)) mnt_dir.
Definition mapper_name (fsname : string) : bool := STRPREFIX fsname "/dev/mapper/" || STRPREFIX fsname "/dev/dm-".
(** The second loop, over the file systems that were found. *)
Fixpoint canonical_loop (mp : bool) (found : list (string * string)) : proc (option (list string)) :=
  match found with
  | [] => ret (Some [])
  | (fsname, dir) :: found' =>
      name <- (if mapper_name fsname then
                 let* (r, canonical) := lv_canonical E fsname in
                 ret (if r =? -1 then None else if r =? 1 then Some canonical else Some fsname)
               else ret (Some fsname)) ;;
      match name with
      | None => ret None
      | Some name =>
          rest <- canonical_loop mp found' ;;
          ret ((fun rest => name :: (if mp then [dir] else []) ++ rest) <$> rest)
      end
  end.
Definition mounts_or_mountpoints (mp : bool) : proc (option (list string)) :=
  ms <- getmntents ;;
  canonical_loop mp ((fun m => (fst m, user_dir (snd m))) <$> List.filter (fun m => under_sysroot E (snd m)) ms).
Definition do_mounts := mounts_or_mountpoints false.
Definition do_mountpoints := mounts_or_mountpoints true.

(** * Mount points

    mkdir and rmdir between CHROOT_IN and CHROOT_OUT. *)

Definition do_mkmountpoint (p : string) : proc Z :=
  a <- ABS_PATH "do_mkmountpoint" p ;;
  if negb a then ret (-1) else sys_or E "chroot mkdir" [p] p.
Definition do_rmmountpoint (p : string) : proc Z :=
  a <- ABS_PATH "do_rmmountpoint" p ;;
  if negb a then ret (-1) else sys_or E "chroot rmdir" [p] p.
End mount.

(** * One reply *)

Section one_reply.
Context (E : denv) `{!Starts E} (ub : bool).

Lemma quiet_getmntents : quiet (getmntents E).
Proof.
  apply quiet_intro. intros s. unfold getmntents. destruct (starts_mounts (E := E) (ps_log s)) as [ms ->].
  eexists _, s, []. by rewrite app_nil_r.
Qed.
Lemma quiet_stat_isdir p : quiet (stat_isdir E p).
Proof. apply quiet_gets. Qed.
#[local] Hint Resolve quiet_getmntents quiet_stat_isdir : quiet.

Lemma mount_vfs_one_reply options vfstype m mountpoint : one_reply ub int_failed (mount_vfs E options vfstype m mountpoint).
Proof. unfold mount_vfs, mount_vfs_nochroot. emits. Qed.
Lemma do_mount_loop_one_reply file mountpoint : one_reply ub int_failed (do_mount_loop E file mountpoint).
Proof. unfold do_mount_loop. emits. Qed.
Lemma do_remount_one_reply mountpoint rw : one_reply ub int_failed (do_remount E mountpoint rw).
Proof. unfold do_remount. emits. Qed.
Lemma do_umount_one_reply p force lazy : one_reply ub int_failed (do_umount E p force lazy).
Proof.
  unfold do_umount. apply emits_quiet.
  - destruct (is_true_opt force), (is_true_opt lazy); apply quiet_ret.
  - emits.
Qed.
Lemma umount_loop_one_reply mounts : one_reply ub int_failed (umount_loop E mounts).
Proof. induction mounts as [|m mounts IH]; cbn [umount_loop]; emits. Qed.
Lemma do_umount_all_one_reply : one_reply ub int_failed (do_umount_all E).
Proof. pose proof umount_loop_one_reply. unfold do_umount_all. emits. Qed.
Lemma canonical_loop_one_reply mp found : one_reply ub ptr_failed (canonical_loop E mp found).
Proof.
  induction found as [|[fsname dir] found IH]; cbn [canonical_loop]; [emits|].
  eapply (emits_call ub ptr_failed).
  - destruct (mapper_name fsname); [|emits]. eapply emits_call; [by apply lv_canonical_one_reply| |];
      intros [r c] Hr; unfold pair_failed in Hr; cbn [fst] in Hr; rewrite Hr; emits.
  - intros [|] Ha; emits.
  - intros [name|] Ha; [|done]. eapply emits_bind; [exact IH|]. intros [rest|] n ->; by apply emits_ret.
Qed.
Lemma mounts_or_mountpoints_one_reply mp : one_reply ub ptr_failed (mounts_or_mountpoints E mp).
Proof. pose proof canonical_loop_one_reply. unfold mounts_or_mountpoints. emits. Qed.
Lemma do_mkmountpoint_one_reply p : one_reply ub int_failed (do_mkmountpoint E p).
Proof. unfold do_mkmountpoint. emits. Qed.
Lemma do_rmmountpoint_one_reply p : one_reply ub int_failed (do_rmmountpoint E p).
Proof. unfold do_rmmountpoint. emits. Qed.
End one_reply.
#[export] Hint Resolve mount_vfs_one_reply do_mount_loop_one_reply do_remount_one_reply do_umount_one_reply
  do_umount_all_one_reply mounts_or_mountpoints_one_reply do_mkmountpoint_one_reply do_rmmountpoint_one_reply : one_reply.

(** * Unmounting everything *)

(** [q] is inside the directory [p]. *)
Definition inside (p q : string) : Prop := exists t, q = p +:+ "/" +:+ t.

(** umount (8) and /proc/mounts: a directory can be unmounted as long as
    nothing is mounted inside it, which removes one entry; closing the handles
    of Augeas, hivex and the journal does not change what is mounted. *)
Class UmountWorks (E : denv) : Prop := {
  umount_works : forall h ms p, ev_mounts E h = Some ms -> p ∈ map snd ms -> under_sysroot E p = true ->
    (forall q, q ∈ map snd ms -> ~ inside p q) ->
    (exists out, prints (ev_exec E h ["umount"; p]) out) /\
    exists ms', ev_mounts E (h ++ [Ran 0 ["umount"; p]]) = Some ms' /\ map snd ms ≡ₚ p :: map snd ms';
  finalize_mounts : forall h f, ev_mounts E (h ++ [Called f []]) = ev_mounts E h
}.

Lemma inside_longer p q : inside p q -> (String.length p < String.length q)%nat.
Proof. intros [t ->]. rewrite !str_length_app. cbn [String.length]. lia. Qed.
Lemma str_prefix_self p t : STRPREFIX (p +:+ t) p = true.
Proof. unfold STRPREFIX. induction p as [|c p IH]; [by destruct t|]. cbn. destruct (ascii_dec c c); [done|congruence]. Qed.
Lemma under_sysroot_inside E p q : under_sysroot E p = true -> inside p q -> under_sysroot E q = true.
Proof.
  intros Hp [t ->]. unfold under_sysroot in *. apply orb_true_iff. right.
  assert (exists u, p +:+ "/" +:+ t = sysroot E +:+ "/" +:+ u) as [u ->].
  { apply orb_prop in Hp as [[_ Hp]%andb_prop|[Hp Hd]%andb_prop].
    - unfold STREQ in Hp. apply bool_decide_eq_true in Hp as ->. by exists t.
    - apply str_prefix_app in Hp, Hd. rewrite Hd in Hp. rewrite Hp. eexists. by rewrite !str_app_assoc. }
  by rewrite str_prefix_self, str_drop_app, str_prefix_self.
Qed.

#[export] Instance filter_Permutation {A} (f : A -> bool) : Proper (Permutation ==> Permutation) (List.filter f).
Proof.
  induction 1 as [|x l l' _ IH|x y l|l1 l2 l3 _ IH1 _ IH2]; cbn; [done| | |by etrans].
  - destruct (f x); [by constructor|done].
  - destruct (f x), (f y); done || constructor.
Qed.
#[export] Instance longest_first_trans : Transitive longest_first.
Proof. intros a b c. unfold longest_first, compare_longest_first. lia. Qed.
#[export] Instance longest_first_total : Total longest_first.
Proof. intros a b. unfold longest_first, compare_longest_first. lia. Qed.

Section umount_all.
Context (E : denv) `{!UmountWorks E}.
#[local] Notation inner := (List.filter (under_sysroot E)).
#[local] Notation outer := (List.filter (fun d => negb (under_sysroot E d))).

Lemma umount_loop_works l : forall s ms, ev_mounts E (ps_log s) = Some ms ->
  StronglySorted longest_first l -> l ≡ₚ inner (map snd ms) ->
  exists s' ms', umount_loop E l s = (Ret 0, s') /\
    ps_log s' = ps_log s ++ map (fun p => Ran 0 ["umount"; p]) l /\
    ev_mounts E (ps_log s') = Some ms' /\ inner (map snd ms') = [] /\ outer (map snd ms') ≡ₚ outer (map snd ms).
Proof.
  induction l as [|p l IH]; intros s ms Hms Hsort Hl.
  - exists s, ms. apply Permutation_nil in Hl. rewrite app_nil_r. by split_and!.
  - inversion Hsort as [|? ? Hs Hall]; subst.
    assert (p ∈ inner (map snd ms)) as Hp by (rewrite <- Hl; by left).
    apply list_elem_of_In, filter_In in Hp as [Hin Hu]. apply list_elem_of_In in Hin.
    destruct (umount_works (ps_log s) ms p Hms Hin Hu) as ((out & Hout) & ms1 & Hms1 & Hperm).
    { intros q Hq Hi. pose proof (inside_longer p q Hi) as Hlen.
      assert (q ∈ p :: l) as Hq'.
      { rewrite Hl. apply list_elem_of_In, filter_In. split; [by apply list_elem_of_In|by eapply under_sysroot_inside]. }
      apply elem_of_cons in Hq' as [->|Hq']; [lia|]. rewrite Forall_forall in Hall.
      specialize (Hall q Hq'). unfold longest_first, compare_longest_first in Hall. lia. }
    set (s1 := s <| ps_log ::= (fun l => l ++ [Ran 0 ["umount"; p]]) |>).
    destruct (IH s1 ms1) as (s' & ms' & E1 & L1 & M1 & I1 & O1); [done|done| |].
    { apply (Permutation_cons_inv (a := p)). rewrite Hl, Hperm. cbn. by rewrite Hu. }
    exists s', ms'. cbn [umount_loop]. rewrite (bind_Ret _ _ _ _ _ (run_or_prints E _ _ out s Hout)). cbn [Z.eqb].
    split_and!; [exact E1| |done|done|].
    + rewrite L1. cbn. by rewrite <- app_assoc.
    + rewrite O1, Hperm. cbn. by rewrite Hu.
Qed.
End umount_all.

(** C20: Unmounting everything, when umount works as documented: umount_all succeeds, afterwards
    nothing is mounted on or under the sysroot and everything else still is; and it has run
    umount on each of the directories that were mounted there, longer names first, so that no
    directory is unmounted before those inside it. *)
Theorem umount_all_unmounts (E : denv) (s : pstate) (ms : list (string * string)) :
  UmountWorks E -> ev_mounts E (ps_log s) = Some ms ->
  exists s' ms' dirs,
    do_umount_all E s = (Ret 0, s') /\ ev_mounts E (ps_log s') = Some ms' /\
    List.filter (under_sysroot E) (map snd ms') = [] /\ is_root_mounted E s' = (Ret 0, s') /\
    List.filter (fun d => negb (under_sysroot E d)) (map snd ms') ≡ₚ List.filter (fun d => negb (under_sysroot E d)) (map snd ms) /\
    ps_log s' = ps_log s ++ [Called "aug_finalize" []; Called "hivex_finalize" []; Called "journal_finalize" []] ++
      map (fun p => Ran 0 ["umount"; p]) dirs /\
    dirs ≡ₚ List.filter (under_sysroot E) (map snd ms) /\
    (forall before p after, dirs = before ++ p :: after -> forall q, q ∈ after -> ~ inside p q).
Proof.
  intros HU Hms. set (dirs := merge_sort longest_first (List.filter (under_sysroot E) (map snd ms))).
  set (s1 := s <| ps_log ::= (fun l => l ++ [Called "aug_finalize" []]) |> <| ps_log ::= (fun l => l ++ [Called "hivex_finalize" []]) |>
               <| ps_log ::= (fun l => l ++ [Called "journal_finalize" []]) |>).
  assert (ev_mounts E (ps_log s1) = Some ms) as Hms1 by (cbn; by rewrite !finalize_mounts).
  assert (StronglySorted longest_first dirs) as Hsort by (apply (StronglySorted_merge_sort longest_first); apply _).
  assert (dirs ≡ₚ List.filter (under_sysroot E) (map snd ms)) as Hperm by apply merge_sort_Permutation.
  destruct (umount_loop_works E dirs s1 ms Hms1 Hsort Hperm) as (s' & ms' & E1 & L1 & M1 & I1 & O1).
  exists s', ms', dirs. split_and!; try done.
  - unfold do_umount_all, getmntents. rewrite (bind_Ret (log _) _ s tt _ eq_refl), (bind_Ret (log _) _ _ tt _ eq_refl),
      (bind_Ret (log _) _ _ tt _ eq_refl). unfold bind. fold s1. rewrite Hms1. exact E1.
  - unfold is_root_mounted. rewrite M1.
    enough (existsb (fun m => under_sysroot E (snd m)) ms' = false) as -> by done. apply not_true_is_false. intros (m & Hm & Hu)%existsb_exists.
    assert (snd m ∈ List.filter (under_sysroot E) (map snd ms')) as Hin.
    { apply list_elem_of_In, filter_In. split; [by apply in_map|done]. }
    rewrite I1 in Hin. by apply not_elem_of_nil in Hin.
  - rewrite L1. cbn. by rewrite <- !app_assoc.
  - intros before p after Hd q Hq Hi%inside_longer. rewrite Hd in Hsort. apply StronglySorted_app in Hsort as (_ & _ & Hs).
    inversion Hs as [|? ? _ Hall]; subst. rewrite Forall_forall in Hall. specialize (Hall q Hq).
    unfold longest_first, compare_longest_first in Hall. lia.
Qed.

(** A kernel whose umount removes the last mount on the directory. *)
Fixpoint unmount_one (p : string) (ms : list (string * string)) : list (string * string) :=
  match ms with
  | [] => []
  | m :: ms' => if bool_decide (snd m = p) then ms' else m :: unmount_one p ms'
  end.
Definition mounts_after (init : list (string * string)) (h : list action) : list (string * string) :=
  foldl (fun ms a => match a with Ran _ [prog; p] => if STREQ prog "umount" then unmount_one p ms else ms | _ => ms end) init h.
Definition ex_mount_env (init : list (string * string)) : denv :=
  mk_denv (fun _ _ => printing "") (fun _ _ => inr 0) (fun _ _ _ => None) (ev_fs ex_lvm_env)
    (fun h => Some (mounts_after init h)) (fun _ _ => 0) (fun _ => "") "/sysroot".
Lemma unmount_one_perm p ms : p ∈ map snd ms -> map snd ms ≡ₚ p :: map snd (unmount_one p ms).
Proof.
  induction ms as [|m ms IH]; [by intros ?%not_elem_of_nil|]. cbn [map unmount_one]. case_bool_decide as Hm.
  - by subst.
  - intros [?|Hp]%elem_of_cons; [done|]. cbn [map]. rewrite (IH Hp). constructor.
Qed.
#[export] Instance ex_mount_env_works init : UmountWorks (ex_mount_env init).
Proof.
  constructor.
  - intros h ms p [= <-] Hp _ _. split; [exists ""; by apply printing_prints|].
    exists (unmount_one p (mounts_after init h)). split; [|by apply unmount_one_perm].
    cbn. unfold mounts_after. by rewrite foldl_app.
  - intros h f. cbn. unfold mounts_after. by rewrite foldl_app.
Qed.
Lemma umount_all_unmounts_witness :
  let E := ex_mount_env [("/dev/vda", "/"); ("/dev/sda1", "/sysroot"); ("/dev/sda2", "/sysroot/usr"); ("/dev/sda3", "/sysroot/usr/local")] in
  exists s' ms', do_umount_all E ex_state = (Ret 0, s') /\ ev_mounts E (ps_log s') = Some ms' /\
    List.filter (under_sysroot E) (map snd ms') = [].
Proof.
  intros E. destruct (umount_all_unmounts E ex_state (mounts_after _ []) (ex_mount_env_works _) eq_refl)
    as (s' & ms' & dirs & H1 & H2 & H3 & _). exists s', ms'. split; [exact H1|]. split; [exact H2|exact H3].
Defined.
