(* ===== verification/Content.v ===== *)
(** The procedures that read and write the content of files and devices in a
    loop: daemon/zero.c, daemon/copy.c, daemon/dd.c, daemon/fill.c,
    daemon/truncate.c and daemon/fallocate.c. *)

From S2P Require Import Prelude Xdr Handle Utils Events Conn Command Guestfsd Procs.
From Stdlib Require Import Ascii.

Open Scope Z_scope.
#[local] Arguments String.append : simpl nomatch.

(** * Files and devices

    The content of a file is what it was at first with the writes of the log
    applied, so that a file that is read while it is written, or under two
    names of an open file, is seen as it is. *)

Definition zeros (n : Z) : list byte := replicate (Z.to_nat n) x00.
(** Write [d] at [off]; a file grows, with zeros before a write past its end. *)
Definition splice (c : list byte) (off : Z) (d : list byte) : list byte :=
  let o := Z.to_nat off in
  match d with
  | [] => c
  | _ => take o c ++ replicate (o - length c)%nat x00 ++ d ++ drop (o + length d)%nat c
  end.

(** What the system calls do: errors, and at most how many bytes a read or a
    write transfers (at least one). *)
Record disk := mk_disk {
  dk_init : string -> list byte;
  dk_open : list action -> string -> option Z;
  dk_read : list action -> string -> Z -> Z + nat;
  dk_write : list action -> string -> Z -> Z + nat;
  dk_seek : list action -> string -> option Z;
  dk_close : list action -> string -> option Z
}.

Definition O_TRUNC : string := "open O_TRUNC".

Section disk.
Context (E : denv) (K : disk).

Definition apply_action (path : string) (c : list byte) (a : action) : list byte :=
  match a with
  | Wrote p off d => if STREQ p path then splice c off d else c
  | Called f [p] => if STREQ f O_TRUNC && STREQ p path then [] else c
  | _ => c
  end.
Definition content (h : list action) (path : string) : list byte := foldl (apply_action path) (dk_init K path) h.
Definition file_of (path : string) : proc (list byte) := gets (fun s => content (ps_log s) path).

Definition sys_open (path : string) : proc (option Z) := gets (fun s => dk_open K (ps_log s) path).
Definition sys_open_trunc (path : string) : proc (option Z) :=
  e <- sys_open path ;;
  (match e with None => log (Called O_TRUNC [path]) | Some _ => ret tt end) ;;; ret e.
Definition sys_close (path : string) : proc (option Z) := gets (fun s => dk_close K (ps_log s) path).
Definition sys_seek (path : string) : proc (option Z) := gets (fun s => dk_seek K (ps_log s) path).
Definition sys_pread (path : string) (off n : Z) : proc (Z + list byte) := gets (fun s =>
  match dk_read K (ps_log s) path off with
  | inl e => inl e
  | inr cap => inr (take (Nat.min (Nat.max 1 cap) (Z.to_nat n)) (drop (Z.to_nat off) (content (ps_log s) path)))
  end).
(** An errno, or how many bytes were written. *)
Definition sys_pwrite (path : string) (off : Z) (data : list byte) : proc (Z + Z) := fun s =>
  match dk_write K (ps_log s) path off with
  | inl e => (Ret (inl e), s)
  | inr cap =>
      let d := take (Nat.max 1 cap) data in
      (log (Wrote path off d) ;;; ret (inr (Z.of_nat (length d)))) s
  end.

(** xwrite of guestfsd.c: write everything; the errno when it fails. *)
Fixpoint xwrite_fuel (fuel : nat) (path : string) (off : Z) (data : list byte) : proc (option Z) :=
  match data, fuel with
  | [], _ => ret None
  | _, O => halt OutOfFuel
  | _, S fuel' =>
      r <- sys_pwrite path off data ;;
      match r with
      | inl e => ret (Some e)
      | inr n => xwrite_fuel fuel' path (off + n) (drop (Z.to_nat n) data)
      end
  end.
Definition xwrite (path : string) (off : Z) (data : list byte) : proc (option Z) := xwrite_fuel (length data) path off data.

(** The end of most procedures: close, and the error it may give. *)
Definition finish (path msg : string) : proc Z :=
  e <- sys_close path ;;
  match e with Some e => perror E e msg (-1) | None => ret 0 end.

(** * Zeroing (daemon/zero.c) *)

Definition is_zero (buf : list byte) : bool := forallb (fun b => Byte.eqb b x00) buf.
Definition ZERO_BUF : Z := 4096.
Definition BUF : Z := 8192.    (* BUFSIZ *)

Fixpoint zero_loop (k : nat) (i : Z) (device : string) : proc Z :=
  match k with
  | O => finish device ("close: " +:+ device)
  | S k' =>
      let offset := i * ZERO_BUF in
      buf <- sys_pread device offset ZERO_BUF ;;
      match buf with
      | inl e => perror E e ("pread: " +:+ device) (-1)
      | inr buf =>
          if negb (zlength buf =? ZERO_BUF) then pfail E "" ("pread: " +:+ device) (-1)
          else if is_zero buf then zero_loop k' (i + 1) device
          else
            r <- sys_pwrite device offset (zeros ZERO_BUF) ;;
            match r with
            | inl e => perror E e ("pwrite: " +:+ device) (-1)
            | inr n => if negb (n =? ZERO_BUF) then pfail E "" ("pwrite: " +:+ device) (-1)
                       else zero_loop k' (i + 1) device
            end
      end
  end.
Definition do_zero (device : string) : proc Z :=
  e <- sys_open device ;;
  match e with
  | Some e => perror E e device (-1)
  | None => zero_loop 32 0 device
  end.

(** [buf] keeps what earlier reads have left in it: the test is over the whole
    buffer, whatever the size of the last read. *)
Fixpoint zero_device_loop (fuel : nat) (device : string) (size pos : Z) (buf : list byte) : proc Z :=
  if size <=? pos then finish device ("close: " +:+ device)
  else match fuel with
  | O => halt OutOfFuel
  | S fuel' =>
      let n := Z.min (size - pos) ZERO_BUF in
      d <- sys_pread device pos n ;;
      match d with
      | inl e => perror E e ("pread: " +:+ device +:+ " at offset " +:+ pretty pos) (-1)
      | inr d =>
          let buf := d ++ drop (length d) buf in
          if negb (is_zero buf) then
            r <- sys_pwrite device pos (zeros n) ;;
            match r with
            | inl e => perror E e ("pwrite: " +:+ device +:+ " (with " +:+ pretty (s64 size) +:+ " bytes left to write)") (-1)
            | inr r => zero_device_loop fuel' device size (pos + r) buf
            end
          else zero_device_loop fuel' device size (pos + n) buf
      end
  end.
(** [garbage] is what is in the buffer at first. *)
Definition do_zero_device (garbage : list byte) (device : string) : proc Z :=
  ssize <- do_blockdev_getsize64 E device ;;
  if ssize =? -1 then ret (-1) else
  let size := u64 ssize in
  e <- sys_open device ;;
  match e with
  | Some e => perror E e device (-1)
  | None => zero_device_loop (Z.to_nat size) device size 0 garbage
  end.

Fixpoint is_zero_loop (fuel : nat) (file display : string) (off : Z) : proc Z :=
  match fuel with
  | O => halt OutOfFuel
  | S fuel' =>
      d <- sys_pread file off BUF ;;
      match d with
      | inl e => perror E e ("read: " +:+ display) (-1)
      | inr [] =>
          e <- sys_close file ;;
          match e with Some e => perror E e ("close: " +:+ display) (-1) | None => ret 1 end
      | inr d => if negb (is_zero d) then ret 0 else is_zero_loop fuel' file display (off + zlength d)
      end
  end.
Definition is_zero_file (file display : string) : proc Z :=
  e <- sys_open file ;;
  match e with
  | Some e => perror E e ("open: " +:+ display) (-1)
  | None => c <- file_of file ;; is_zero_loop (S (length c)) file display 0
  end.
Definition do_is_zero (path : string) : proc Z := is_zero_file (sysroot_path (sysroot E) path) path.
Definition do_is_zero_device (device : string) : proc Z := is_zero_file device device.

(** zero_free_space: the file system takes [blocks] blocks of zeros, and the
    write after them gives [err]; the errors of the other calls. *)
Record free_space := mk_free_space {
  fs_name : Z + string;            (* random_name *)
  fs_statvfs : option Z;
  fs_blocks : nat;
  fs_errno : Z;
  fs_unlink : option Z
}.
Definition ENOSPC : Z := 28.
Definition do_zero_free_space (W : free_space) (dir : string) : proc Z :=
  match fs_name W with
  | inl e => perror E e "random_name" (-1)
  | inr filename =>
      e <- sys_open filename ;;
      match e with
      | Some e => perror E e ("open: " +:+ filename) (-1)
      | None =>
          log (Called O_TRUNC [filename]) ;;;
          match fs_statvfs W with
          | Some e => perror E e "fstatvfs" (-1)
          | None =>
              log (Wrote filename 0 (zeros (ZERO_BUF * Z.of_nat (fs_blocks W)))) ;;;
              if negb (fs_errno W =? ENOSPC) then
                log (Called "unlink" [filename]) ;;; perror E (fs_errno W) ("write: " +:+ filename) (-1)
              else
                log (Called "sync_disks" []) ;;;
                log (Called "unlink" [filename]) ;;;
                match fs_unlink W with
                | Some e => perror E e ("unlink: " +:+ filename) (-1)
                | None => ret 0
                end
          end
      end
  end.

(** * Copying (daemon/copy.c) *)

Section copy.
Context (src src_display dest dest_display : string) (unlink_dest : bool).

(** The failures after the destination was opened. *)
Definition copy_failed (m : proc Z) : proc Z :=
  r <- m ;; (if unlink_dest then log (Called "unlink" [dest]) else ret tt) ;;; ret r.

(** [size] is -1 when everything is copied; [soff] and [doff] are the file
    positions. *)
Fixpoint copy_loop (fuel : nat) (sparse : bool) (size soff doff : Z) : proc Z :=
  if size =? 0 then ret 0
  else match fuel with
  | O => halt OutOfFuel
  | S fuel' =>
      let n := if (size =? -1) || (BUF <? size) then BUF else size in
      d <- sys_pread src soff n ;;
      match d with
      | inl e => copy_failed (perror E e ("read: " +:+ src_display) (-1))
      | inr [] =>
          if size =? -1 then ret 0
          else copy_failed (fail (src_display +:+ ": input too short") (-1))
      | inr d =>
          let r := zlength d in
          let next := copy_loop fuel' sparse (if size =? -1 then -1 else size - r) (soff + r) (doff + r) in
          if sparse && is_zero d then
            e <- sys_seek dest ;;
            match e with
            | Some e => copy_failed (perror E e (dest_display +:+ ": seek (because of sparse flag)") (-1))
            | None => next
            end
          else
            e <- xwrite dest doff d ;;
            match e with
            | Some e => copy_failed (perror E e (dest_display +:+ ": write") (-1))
            | None => next
            end
      end
  end.

Definition negative (o : option Z) : bool := match o with Some z => z <? 0 | None => false end.
Definition copy_close : proc Z :=
  e <- sys_close src ;;
  match e with
  | Some e => copy_failed (perror E e ("close: " +:+ src_display) (-1))
  | None =>
      e <- sys_close dest ;;
      match e with
      | Some e => copy_failed (perror E e ("close: " +:+ dest_display) (-1))
      | None => ret 0
      end
  end.
(** Seek, when the offset is not zero. *)
Definition seek_to (path : string) (off : Z) : proc (option Z) := if 0 <? off then sys_seek path else ret None.

Definition copy (open_dest : proc (option Z)) (srcoffset destoffset size : option Z) (sparse : option bool) : proc Z :=
  if negative srcoffset then fail "srcoffset is negative" (-1)
  else if negative destoffset then fail "destoffset is negative" (-1)
  else if negative size then fail "size is negative" (-1)
  else
  let soff := default 0 srcoffset in
  let doff := default 0 destoffset in
  let size := default (-1) size in
  e <- sys_open src ;;
  match e with
  | Some e => perror E e src_display (-1)
  | None =>
  e <- seek_to src soff ;;
  match e with
  | Some e => perror E e ("lseek: " +:+ src_display) (-1)
  | None =>
  e <- open_dest ;;
  match e with
  | Some e => perror E e dest_display (-1)
  | None =>
  e <- seek_to dest doff ;;
  match e with
  | Some e => copy_failed (perror E e ("lseek: " +:+ dest_display) (-1))
  | None =>
  c <- file_of src ;;
  r <- copy_loop (S (if size =? -1 then length c else Z.to_nat size)) (match sparse with Some b => b | None => false end) size soff doff ;;
  if r =? -1 then ret (-1) else copy_close
  end end end end.
End copy.

Section copies.
Context (srcoffset destoffset size : option Z) (sparse : option bool) (src dest : string).
Let in_root (p : string) := sysroot_path (sysroot E) p.
Definition do_copy_device_to_device : proc Z :=
  copy src src dest dest false (sys_open dest) srcoffset destoffset size sparse.
Definition do_copy_device_to_file : proc Z :=
  copy src src (in_root dest) dest false (sys_open_trunc (in_root dest)) srcoffset destoffset size sparse.
Definition do_copy_file_to_device : proc Z :=
  copy (in_root src) src dest dest false (sys_open dest) srcoffset destoffset size sparse.
Definition do_copy_file_to_file : proc Z :=
  copy (in_root src) src (in_root dest) dest true (sys_open_trunc (in_root dest)) srcoffset destoffset size sparse.
End copies.

(** * dd and copy_size (daemon/dd.c) *)

Definition dev_or_root (p : string) : string := if STRPREFIX p "/dev/" then p else sysroot_path (sysroot E) p.
Definition do_dd (src dest : string) : proc Z :=
  run_or (command_err E ["dd"; "bs=1024K"; "if=" +:+ dev_or_root src; "of=" +:+ dev_or_root dest])
    (fun err => src +:+ ": " +:+ dest +:+ ": " +:+ err).

Fixpoint copy_size_loop (fuel : nat) (src dest : string) (size position : Z) : proc Z :=
  if size <=? position then
    e <- sys_close (dev_or_root src) ;;
    match e with
    | Some e => perror E e (src +:+ ": close") (-1)
    | None => finish (dev_or_root dest) (dest +:+ ": close")
    end
  else match fuel with
  | O => halt OutOfFuel
  | S fuel' =>
      d <- sys_pread (dev_or_root src) position (Z.min (size - position) BUF) ;;
      match d with
      | inl e => perror E e (src +:+ ": read") (-1)
      | inr [] => fail (src +:+ ": input file too short") (-1)
      | inr d =>
          e <- xwrite (dev_or_root dest) position d ;;
          match e with
          | Some e => perror E e (dest +:+ ": write") (-1)
          | None => copy_size_loop fuel' src dest size (position + zlength d)
          end
      end
  end.
Definition do_copy_size (src dest : string) (ssize : Z) : proc Z :=
  e <- sys_open (dev_or_root src) ;;
  match e with
  | Some e => perror E e src (-1)
  | None =>
      e <- (if STRPREFIX dest "/dev/" then sys_open dest else sys_open_trunc (dev_or_root dest)) ;;
      match e with
      | Some e => perror E e dest (-1)
      | None =>
          c <- file_of (dev_or_root src) ;;
          copy_size_loop (S (length c)) src dest (u64 ssize) 0
      end
  end.

(** * Filling (daemon/fill.c) *)

Fixpoint fill_loop (fuel : nat) (file path : string) (b : byte) (len n : Z) : proc Z :=
  if len <=? n then finish file ("close: " +:+ path)
  else match fuel with
  | O => halt OutOfFuel
  | S fuel' =>
      r <- sys_pwrite file n (replicate (Z.to_nat (Z.min (len - n) BUF)) b) ;;
      match r with
      | inl e => perror E e ("write: " +:+ path) (-1)
      | inr r => fill_loop fuel' file path b len (n + r)
      end
  end.
Definition do_fill (c len : Z) (path : string) : proc Z :=
  if (c <? 0) || (255 <? c) then fail (pretty c +:+ ": byte number must be in range 0..255") (-1)
  else if len <? 0 then fail (pretty len +:+ ": length is < 0") (-1)
  else
    let file := sysroot_path (sysroot E) path in
    e <- sys_open file ;;
    match e with
    | Some e => perror E e ("open: " +:+ path) (-1)
    | None => fill_loop (Z.to_nat len) file path (byte_of_Z c) len 0
    end.

Fixpoint fill_pattern_loop (fuel : nat) (file path : string) (pattern : list byte) (len n : Z) : proc Z :=
  if len <=? n then finish file ("close: " +:+ path)
  else match fuel with
  | O => halt OutOfFuel
  | S fuel' =>
      let wrlen := Z.min (len - n) (zlength pattern) in
      e <- xwrite file n (take (Z.to_nat wrlen) pattern) ;;
      match e with
      | Some e => perror E e ("write: " +:+ path) (-1)
      | None => fill_pattern_loop fuel' file path pattern len (n + wrlen)
      end
  end.
Definition do_fill_pattern (pattern : string) (len : Z) (path : string) : proc Z :=
  if (String.length pattern <? 1)%nat then fail "pattern string must be non-empty" (-1)
  else if len <? 0 then fail (pretty len +:+ ": length is < 0") (-1)
  else
    let file := sysroot_path (sysroot E) path in
    e <- sys_open file ;;
    match e with
    | Some e => perror E e ("open: " +:+ path) (-1)
    | None => fill_pattern_loop (Z.to_nat len) file path (bytes_of_string pattern) len 0
    end.

(** %08d of a number that is not negative, in a buffer of ten bytes after the
    directory. *)
Definition pad8 (i : Z) : string :=
  let t := pretty i in String.substring 0 (8 - String.length t) "00000000" +:+ t.
Fixpoint fill_dir_loop (k : nat) (i : Z) (dir : string) : proc Z :=
  match k with
  | O => ret 0
  | S k' =>
      let filename := snprintf (String.length dir + 10)%nat (dir +:+ "/" +:+ pad8 i) in
      let file := sysroot_path (sysroot E) filename in
      e <- sys_open file ;;
      match e with
      | Some e => perror E e ("create: " +:+ filename) (-1)
      | None =>
          log (Called "create" [file]) ;;;
          e <- sys_close file ;;
          match e with
          | Some e => perror E e ("close: " +:+ filename) (-1)
          | None => fill_dir_loop k' (i + 1) dir
          end
      end
  end.
Definition do_fill_dir (dir : string) (n : Z) : proc Z := fill_dir_loop (Z.to_nat n) 0 dir.

(** * Truncating and allocating (daemon/truncate.c, daemon/fallocate.c) *)

Definition do_truncate_size (path : string) (size : Z) : proc Z :=
  let file := sysroot_path (sysroot E) path in
  e <- sys_open file ;;
  match e with
  | Some e => perror E e ("open: " +:+ path) (-1)
  | None =>
      e <- sys E "ftruncate" [file; pretty size] ;;
      match e with
      | Some e => perror E e ("ftruncate: " +:+ path) (-1)
      | None => finish file ("close: " +:+ path)
      end
  end.
Definition do_truncate (path : string) : proc Z := do_truncate_size path 0.

Definition do_fallocate64 (path : string) (len : Z) : proc Z :=
  let file := sysroot_path (sysroot E) path in
  e <- sys_open_trunc file ;;
  match e with
  | Some e => perror E e ("open: " +:+ path) (-1)
  | None =>
      e <- sys E "posix_fallocate" [file; "0"; pretty len] ;;
      match e with
      | Some e => perror E e path (-1)
      | None => finish file ("close: " +:+ path)
      end
  end.
Definition do_fallocate (path : string) (len : Z) : proc Z :=
  if len <? 0 then fail "length < 0" (-1) else do_fallocate64 path len.
End disk.

(** * What the writes add up to *)

Lemma splice_ne c off d : d <> [] -> splice c off d =
  (take (Z.to_nat off) c ++ replicate (Z.to_nat off - length c) x00) ++ d ++ drop (Z.to_nat off + length d) c.
Proof. intros Hd. unfold splice. destruct d; [done|]. by rewrite <- app_assoc. Qed.
Lemma splice_pre_length c o : length (take o c ++ replicate (o - length c) x00) = o.
Proof. rewrite length_app, length_take, length_replicate. lia. Qed.
Lemma splice_app c off d1 d2 : 0 <= off ->
  splice (splice c off d1) (off + zlength d1) d2 = splice c off (d1 ++ d2).
Proof.
  intros Ho. destruct (decide (d1 = [])) as [->|H1]; [unfold zlength; cbn; by rewrite Z.add_0_r|].
  destruct (decide (d2 = [])) as [->|H2]; [by rewrite app_nil_r|].
  rewrite !splice_ne by (try done; by destruct d1).
  replace (Z.to_nat (off + zlength d1)) with (Z.to_nat off + length d1)%nat by (unfold zlength; lia).
  set (o := Z.to_nat off). pose proof (splice_pre_length c o) as Hpre.
  set (pre := take o c ++ replicate (o - length c) x00) in *.
  assert (take (o + length d1) (pre ++ d1 ++ drop (o + length d1) c) = pre ++ d1) as ->.
  { rewrite app_assoc, take_app_length'; [done|rewrite length_app; lia]. }
  replace (o + length d1 - length (pre ++ d1 ++ drop (o + length d1) c))%nat with 0%nat by (rewrite !length_app; lia).
  cbn [replicate]. rewrite app_nil_r, <- !app_assoc. do 3 f_equal. rewrite (app_assoc pre).
  rewrite drop_app_ge by (rewrite length_app; lia). rewrite length_app, drop_drop, Hpre. f_equal. rewrite length_app. lia.
Qed.
Lemma splice_same c off d : 0 <= off -> take (length d) (drop (Z.to_nat off) c) = d -> splice c off d = c.
Proof.
  intros Ho Hd. destruct (decide (d = [])) as [->|H1]; [done|]. rewrite splice_ne by done.
  assert (Z.to_nat off + length d <= length c)%nat as Hlen.
  { pose proof (f_equal length Hd) as Hl. rewrite length_take, length_drop in Hl.
    assert (0 < length d)%nat by (destruct d; [done|cbn; lia]). lia. }
  replace (Z.to_nat off - length c)%nat with 0%nat by lia. cbn [replicate]. rewrite app_nil_r.
  rewrite <- Hd at 1. rewrite <- drop_drop, take_drop. apply take_drop.
Qed.
Lemma splice_inside c off d : 0 <= off -> off + zlength d <= zlength c ->
  splice c off d = take (Z.to_nat off) c ++ d ++ drop (Z.to_nat off + length d) c.
Proof.
  intros Ho Hc. unfold zlength in Hc. destruct (decide (d = [])) as [->|H1].
  - cbn. by rewrite Nat.add_0_r, take_drop.
  - rewrite splice_ne by done. replace (Z.to_nat off - length c)%nat with 0%nat by lia. cbn [replicate]. by rewrite app_nil_r.
Qed.
Lemma splice_drop c off d : 0 <= off -> off + zlength d <= zlength c ->
  drop (Z.to_nat (off + zlength d)) (splice c off d) = drop (Z.to_nat (off + zlength d)) c.
Proof.
  intros Ho Hc. rewrite splice_inside by done. unfold zlength in *.
  rewrite app_assoc, drop_app_ge by (rewrite length_app, length_take; lia).
  rewrite length_app, length_take, drop_drop. f_equal. lia.
Qed.
Lemma splice_length c off d : 0 <= off -> off + zlength d <= zlength c -> length (splice c off d) = length c.
Proof.
  intros Ho Hc. rewrite splice_inside by done. unfold zlength in *.
  rewrite !length_app, length_take, length_drop. lia.
Qed.

Section content_lemmas.
Context (K : disk).

Lemma content_wrote h p off d path :
  content K (h ++ [Wrote p off d]) path = if STREQ p path then splice (content K h path) off d else content K h path.
Proof. unfold content. by rewrite foldl_app. Qed.

(** [s'] is [s] after [d] was written to [path] at [off], and nothing else. *)
Definition wrote (path : string) (off : Z) (d : list byte) (s s' : pstate) : Prop :=
  (exists new, ps_log s' = ps_log s ++ new /\ replies new = 0%nat) /\
  content K (ps_log s') path = splice (content K (ps_log s) path) off d /\
  (forall q, q <> path -> content K (ps_log s') q = content K (ps_log s) q).

Lemma wrote_nil path off s : wrote path off [] s s.
Proof. split_and!; [exists []; by rewrite app_nil_r|done..]. Qed.
Lemma wrote_app path off d1 d2 s s1 s2 : 0 <= off ->
  wrote path off d1 s s1 -> wrote path (off + zlength d1) d2 s1 s2 -> wrote path off (d1 ++ d2) s s2.
Proof.
  intros Ho ((n1 & L1 & R1) & P1 & O1) ((n2 & L2 & R2) & P2 & O2). split_and!.
  - exists (n1 ++ n2). rewrite L2, L1, app_assoc, replies_app. split; [done|lia].
  - by rewrite P2, P1, splice_app.
  - intros q Hq. by rewrite O2, O1.
Qed.
(** Writing what is there already changes nothing. *)
Lemma wrote_same path off d s : 0 <= off ->
  take (length d) (drop (Z.to_nat off) (content K (ps_log s) path)) = d -> wrote path off d s s.
Proof.
  intros Ho Hd. split_and!; [exists []; by rewrite app_nil_r|by rewrite splice_same|done].
Qed.

(** The calls on [path] that write succeed. *)
Definition writable (path : string) : Prop := forall h off, exists cap, dk_write K h path off = inr cap.
Lemma sys_pwrite_wrote path off data s : writable path -> data <> [] ->
  exists d s', sys_pwrite K path off data s = (Ret (inr (zlength d)), s') /\ wrote path off d s s' /\
    d <> [] /\ data = d ++ drop (length d) data.
Proof.
  intros Hw Hd. unfold sys_pwrite. destruct (Hw (ps_log s) off) as [cap ->].
  set (k := Nat.max 1 cap). exists (take k data). eexists. split; [reflexivity|].
  split_and!.
  - split_and!.
    + eexists. split; [reflexivity|done].
    + etrans; [apply content_wrote|]. unfold STREQ. by rewrite bool_decide_true.
    + intros q Hq. etrans; [apply content_wrote|]. unfold STREQ. by rewrite bool_decide_false.
  - intros Hn. apply (f_equal length) in Hn. rewrite length_take in Hn. destruct data; [done|]. cbn in Hn, k. lia.
  - rewrite length_take. destruct (Nat.le_ge_cases k (length data)).
    + rewrite Nat.min_l by done. by rewrite take_drop.
    + rewrite Nat.min_r, drop_all, app_nil_r, take_ge by done. done.
Qed.
Lemma xwrite_wrote path : writable path -> forall fuel off data s, 0 <= off -> (length data <= fuel)%nat ->
  exists s', xwrite_fuel K fuel path off data s = (Ret None, s') /\ wrote path off data s s'.
Proof.
  intros Hw. induction fuel as [|fuel IH]; intros off data s Ho Hf.
  - destruct data; [|cbn in Hf; lia]. exists s. split; [done|apply wrote_nil].
  - destruct (decide (data = [])) as [->|Hne]; [exists s; split; [done|apply wrote_nil]|].
    destruct (sys_pwrite_wrote path off data s Hw Hne) as (d & s1 & E1 & W1 & Hd & Ed).
    assert (xwrite_fuel K (S fuel) path off data s = xwrite_fuel K fuel path (off + zlength d) (drop (length d) data) s1) as ->.
    { destruct data; [done|]. cbn [xwrite_fuel]. rewrite (bind_Ret _ _ _ _ _ E1). unfold zlength. by rewrite Nat2Z.id. }
    destruct (IH (off + zlength d) (drop (length d) data) s1) as (s' & E2 & W2).
    { unfold zlength. lia. }
    { rewrite length_drop. destruct d; [done|]. cbn. lia. }
    exists s'. split; [exact E2|]. rewrite Ed. by eapply wrote_app.
Qed.
End content_lemmas.

(** * Copying is exact *)

(** No call on [p] fails. *)
Record disk_ok (K : disk) (p : string) : Prop := mk_disk_ok {
  ok_open : forall h, dk_open K h p = None;
  ok_read : forall h off, exists cap, dk_read K h p off = inr cap;
  ok_write : writable K p;
  ok_seek : forall h, dk_seek K h p = None;
  ok_close : forall h, dk_close K h p = None
}.

Lemma is_zero_replicate d : is_zero d = true <-> d = replicate (length d) x00.
Proof.
  unfold is_zero. split.
  - induction d as [|b d IH]; [done|]. cbn. intros [Hb Hd]%andb_prop. apply Byte.byte_dec_bl in Hb as ->. by f_equal; apply IH.
  - intros ->. by induction (length d).
Qed.
(** The range of [n] bytes at [off] exists and is zero. *)
Definition zero_range (c : list byte) (off : Z) (n : nat) : Prop := take n (drop (Z.to_nat off) c) = replicate n x00.
Lemma zero_range_length c off n : 0 <= off -> (0 < n)%nat -> zero_range c off n -> off + Z.of_nat n <= zlength c.
Proof.
  intros Ho Hn H. apply (f_equal length) in H. rewrite length_take, length_drop, length_replicate in H. unfold zlength. lia.
Qed.
Lemma zero_range_next c off d n : 0 <= off -> (length d <= n)%nat -> zero_range c off n ->
  zero_range (splice c off d) (off + zlength d) (n - length d).
Proof.
  intros Ho Hn H. destruct (decide (n = 0)%nat) as [->|Hne].
  { destruct d; [|cbn in Hn; lia]. by unfold zero_range. }
  pose proof (zero_range_length c off n Ho ltac:(lia) H) as Hlen. unfold zero_range in *.
  rewrite splice_drop by (unfold zlength in *; lia). unfold zlength in *.
  replace (Z.to_nat (off + Z.of_nat (length d))) with (Z.to_nat off + length d)%nat by lia.
  rewrite <- drop_drop, <- skipn_firstn_comm. change skipn with (@drop byte). change firstn with (@take byte).
  rewrite H. by rewrite drop_replicate.
Qed.
Lemma zero_range_skip c off d n : (length d <= n)%nat -> zero_range c off n -> is_zero d = true ->
  take (length d) (drop (Z.to_nat off) c) = d.
Proof.
  intros Hn H ->%is_zero_replicate. rewrite length_replicate. unfold zero_range in H.
  rewrite <- (Nat.min_l (length d) n), <- take_take, H, take_replicate by done. by rewrite Nat.min_l.
Qed.

Lemma sys_pread_ok K p off n s : disk_ok K p -> 0 <= off -> 0 < n ->
  exists d, sys_pread K p off n s = (Ret (inr d), s) /\ zlength d <= n /\
    drop (Z.to_nat off) (content K (ps_log s) p) = d ++ drop (Z.to_nat (off + zlength d)) (content K (ps_log s) p) /\
    (d = [] -> drop (Z.to_nat off) (content K (ps_log s) p) = []).
Proof.
  intros Hk Ho Hn. unfold sys_pread, gets. destruct (ok_read K p Hk (ps_log s) off) as [cap ->].
  set (c := content K (ps_log s) p). set (k := Nat.min (Nat.max 1 cap) (Z.to_nat n)). eexists. split; [reflexivity|].
  split_and!.
  - unfold zlength. rewrite length_take. lia.
  - unfold zlength. rewrite length_take, length_drop.
    replace (Z.to_nat (off + Z.of_nat (k `min` (length c - Z.to_nat off)))) with
      (Z.to_nat off + k `min` (length c - Z.to_nat off))%nat by lia.
    rewrite <- drop_drop. set (r := drop (Z.to_nat off) c). rewrite <- (length_drop c (Z.to_nat off)). fold r.
    destruct (Nat.le_ge_cases k (length r)).
    + by rewrite Nat.min_l, take_drop by done.
    + by rewrite Nat.min_r, drop_all, app_nil_r, take_ge by done.
  - intros Hd. apply (f_equal length) in Hd. rewrite length_take in Hd. cbn in Hd.
    apply nil_length_inv. lia.
Qed.

Section copy_proof.
Context (E : denv) (K : disk) (src src_display dest dest_display : string) (unlink_dest : bool).
Context (Hne : src <> dest) (Hsrc : disk_ok K src) (Hdest : disk_ok K dest).

(** What is copied. *)
Definition copied (size : Z) (rest : list byte) : list byte := if size =? -1 then rest else take (Z.to_nat size) rest.

Lemma copy_loop_spec sparse : forall fuel size soff doff s,
  let rest := drop (Z.to_nat soff) (content K (ps_log s) src) in
  0 <= soff -> 0 <= doff -> -1 <= size -> (if size =? -1 then zlength rest < Z.of_nat fuel else size < Z.of_nat fuel) ->
  (sparse = true -> zero_range (content K (ps_log s) dest) doff (length (copied size rest))) ->
  exists r s', copy_loop E K src src_display dest dest_display unlink_dest fuel sparse size soff doff s = (Ret r, s') /\
    if size <=? zlength rest then r = 0 /\ wrote K dest doff (copied size rest) s s' else r = -1.
Proof using Hne Hsrc Hdest.
  induction fuel as [|fuel IH]; intros size soff doff s rest Hso Hdo Hsize Hf Hz.
  { destruct (Z.eqb_spec size (-1)); unfold zlength in *; lia. }
  cbn [copy_loop]. destruct (Z.eqb_spec size 0) as [->|Hs0].
  { eexists 0, s. split; [done|]. destruct (Z.leb_spec 0 (zlength rest)); [|unfold zlength in *; lia].
    split; [done|]. apply wrote_nil. }
  set (n := if (size =? -1) || (BUF <? size) then BUF else size).
  assert (0 < n /\ (size <> -1 -> n <= size)) as [Hn Hn'].
  { unfold n. destruct (Z.eqb_spec size (-1)); cbn [orb]; [unfold BUF; lia|]. destruct (Z.ltb_spec BUF size); unfold BUF in *; lia. }
  destruct (sys_pread_ok K src soff n s Hsrc Hso Hn) as (d & E1 & Hd & Hrest & Hnil).
  rewrite (bind_Ret _ _ _ _ _ E1). fold rest in Hrest, Hnil.
  destruct (decide (d = [])) as [->|Hdn].
  { specialize (Hnil eq_refl). rewrite Hnil. unfold copied. rewrite take_nil. destruct (Z.eqb_spec size (-1)) as [->|].
    - exists 0, s. split; [done|]. split; [done|]. apply wrote_nil.
    - assert (exists s', copy_failed dest unlink_dest (fail (src_display +:+ ": input too short") (-1)) s = (Ret (-1), s'))
        as [s' Es] by (unfold copy_failed; destruct unlink_dest; by eexists).
      exists (-1), s'. split; [exact Es|].
      destruct (Z.leb_spec size (zlength (@nil byte))) as [H0|]; [unfold zlength in H0; cbn in H0; lia|done]. }
  set (r := zlength d) in *. set (size' := if size =? -1 then -1 else size - r).
  set (rest' := drop (Z.to_nat (soff + r)) (content K (ps_log s) src)) in *.
  assert (0 < r) as Hr by (unfold r, zlength; destruct d; [done|cbn; lia]).
  assert (zlength rest = r + zlength rest') as Hlen by (rewrite Hrest; unfold r, zlength; rewrite length_app; lia).
  assert (copied size rest = d ++ copied size' rest') as Hcop.
  { unfold copied, size'. destruct (Z.eqb_spec size (-1)); [by rewrite Z.eqb_refl|].
    destruct (Z.eqb_spec (size - r) (-1)); [unfold r in *; lia|].
    rewrite Hrest, take_app_ge by (unfold r, zlength in *; lia). do 2 f_equal. unfold r, zlength in *. lia. }
  assert (forall s1, wrote K dest doff d s s1 ->
    exists r0 s', copy_loop E K src src_display dest dest_display unlink_dest fuel sparse size' (soff + r) (doff + r) s1 = (Ret r0, s') /\
      if size <=? zlength rest then r0 = 0 /\ wrote K dest doff (copied size rest) s s' else r0 = -1) as Hnext.
  { intros s1 W1. pose proof W1 as (_ & P1 & O1). specialize (O1 src Hne).
    destruct (IH size' (soff + r) (doff + r) s1) as (r0 & s' & E2 & H2); rewrite ?O1; fold rest'.
    - lia.
    - lia.
    - unfold size'. destruct (Z.eqb_spec size (-1)); lia.
    - unfold size'. destruct (Z.eqb_spec size (-1)); [rewrite Z.eqb_refl; lia|].
      destruct (Z.eqb_spec (size - r) (-1)); lia.
    - intros Hsp. rewrite P1. specialize (Hz Hsp). rewrite Hcop, length_app in Hz.
      replace (length (copied size' rest')) with (length d + length (copied size' rest') - length d)%nat by lia.
      apply zero_range_next; [done|lia|done].
    - exists r0, s'. split; [exact E2|]. rewrite O1 in H2. fold rest' in H2.
      replace (size <=? zlength rest) with (size' <=? zlength rest').
      + destruct (size' <=? zlength rest'); [|done]. destruct H2 as [-> W2]. split; [done|].
        rewrite Hcop. by eapply wrote_app.
      + unfold size'. destruct (Z.eqb_spec size (-1)) as [->|].
        * destruct (Z.leb_spec (-1) (zlength rest')), (Z.leb_spec (-1) (zlength rest)); unfold zlength in *; try done; lia.
        * destruct (Z.leb_spec (size - r) (zlength rest')), (Z.leb_spec size (zlength rest)); try done; lia. }
  destruct d as [|b d0] eqn:Ed; [done|]. rewrite <- Ed in *. clear Ed.
  destruct (sparse && is_zero d) eqn:Esp.
  - apply andb_prop in Esp as [-> Hzd]. unfold sys_seek, gets. rewrite (bind_Ret _ _ s None s) by (by rewrite ok_seek).
    apply Hnext, wrote_same; [done|]. eapply zero_range_skip; [|by apply Hz|done]. rewrite Hcop, length_app. lia.
  - destruct (xwrite_wrote K dest (ok_write K dest Hdest) (length d) doff d s Hdo ltac:(done)) as (s1 & E2 & W1).
    unfold xwrite. rewrite (bind_Ret _ _ _ _ _ E2). by apply Hnext.
Qed.
End copy_proof.

Lemma content_trunc K h p q : content K (h ++ [Called O_TRUNC [p]]) q = if STREQ p q then [] else content K h q.
Proof. unfold content. by rewrite foldl_app. Qed.

(** C12: Copying between files and devices, when no system call fails, however few bytes the
    reads and writes transfer at a time: the destination, emptied first if it is a file, holds
    exactly the requested part of the source at the requested offset, and the rest of it and
    every other file are unchanged; the sparse flag makes no difference when the target is
    already zeroed there; when the source is shorter than the size asked for, copying fails. *)
Theorem copy_exact (E : denv) (K : disk) (src src_display dest dest_display : string) (unlink_dest trunc : bool)
    (srcoffset destoffset size : option Z) (sparse : option bool) (s : pstate) :
  let soff := default 0 srcoffset in
  let doff := default 0 destoffset in
  let target := if trunc then [] else content K (ps_log s) dest in
  let rest := drop (Z.to_nat soff) (content K (ps_log s) src) in
  let data := copied (default (-1) size) rest in
  src <> dest -> disk_ok K src -> disk_ok K dest ->
  negative srcoffset = false -> negative destoffset = false -> negative size = false ->
  (sparse = Some true -> zero_range target doff (length data)) ->
  exists r s', copy E K src src_display dest dest_display unlink_dest
      (if trunc then sys_open_trunc K dest else sys_open K dest) srcoffset destoffset size sparse s = (Ret r, s') /\
    if default (-1) size <=? zlength rest then
      r = 0 /\ content K (ps_log s') dest = splice target doff data /\
      (forall q, q <> dest -> content K (ps_log s') q = content K (ps_log s) q)
    else r = -1.
Proof.
  intros soff doff target rest data Hne Hs Hd H1 H2 H3 Hz. unfold copy. rewrite H1, H2, H3. fold soff doff.
  assert (0 <= soff /\ 0 <= doff /\ -1 <= default (-1) size) as (Hso & Hdo & Hsi).
  { unfold soff, doff. destruct srcoffset, destoffset, size; cbn in *; lia. }
  assert (forall p off s0, disk_ok K p -> seek_to K p off s0 = (Ret None, s0)) as Hseek.
  { intros p off s0 Hp. unfold seek_to, sys_seek, gets. destruct (0 <? off); [by rewrite ok_seek|done]. }
  assert (exists s1, (if trunc then sys_open_trunc K dest else sys_open K dest) s = (Ret None, s1) /\
    content K (ps_log s1) dest = target /\ forall q, q <> dest -> content K (ps_log s1) q = content K (ps_log s) q) as (s1 & Eo & T1 & O1).
  { unfold target. destruct trunc.
    - unfold sys_open_trunc, sys_open, gets, bind. rewrite (ok_open K dest Hd). eexists. split; [reflexivity|]. split.
      + etrans; [apply content_trunc|]. unfold STREQ. by rewrite bool_decide_true.
      + intros q Hq. etrans; [apply content_trunc|]. unfold STREQ. by rewrite bool_decide_false.
    - unfold sys_open, gets. rewrite (ok_open K dest Hd). by exists s. }
  rewrite (bind_Ret (sys_open K src) _ s None s) by (unfold sys_open, gets; by rewrite (ok_open K src Hs)).
  rewrite (bind_Ret _ _ _ _ _ (Hseek src soff s Hs)), (bind_Ret _ _ _ _ _ Eo), (bind_Ret _ _ _ _ _ (Hseek dest doff s1 Hd)).
  unfold file_of. rewrite (bind_Ret (gets _) _ s1 (content K (ps_log s1) src) s1 eq_refl).
  pose proof (copy_loop_spec E K src src_display dest dest_display unlink_dest Hne Hs Hd (match sparse with Some b => b | None => false end)
    (S (if default (-1) size =? -1 then length (content K (ps_log s1) src) else Z.to_nat (default (-1) size)))
    (default (-1) size) soff doff s1) as HL. cbn zeta in HL.
  rewrite (O1 src Hne), T1 in *. fold rest in HL. fold data in HL.
  destruct HL as (r & s2 & E2 & H); [done|done|done| | |].
  - destruct (Z.eqb_spec (default (-1) size) (-1)); [|lia]. unfold rest, zlength. rewrite length_drop. lia.
  - intros Hsp. apply Hz. by destruct sparse as [[]|].
  - rewrite (bind_Ret _ _ _ _ _ E2). destruct (default (-1) size <=? zlength rest).
    + destruct H as [-> (_ & P2 & O2)]. exists 0, s2. cbn [Z.eqb]. split.
      * unfold copy_close, sys_close, gets, bind. by rewrite (ok_close K src Hs), (ok_close K dest Hd).
      * split_and!; [done|by rewrite P2, T1|]. intros q Hq. by rewrite O2, O1.
    + subst r. exists (-1), s2. done.
Qed.

(** Disks on which nothing fails; reads and writes of at most [cap] bytes. *)
Definition ex_disk (cap : nat) (init : string -> list byte) : disk :=
  mk_disk init (fun _ _ => None) (fun _ _ _ => inr cap) (fun _ _ _ => inr cap) (fun _ _ => None) (fun _ _ => None).
Lemma ex_disk_ok cap init p : disk_ok (ex_disk cap init) p.
Proof. constructor; try done; intros h off; by exists cap. Qed.
Definition ex_files (p : string) : list byte :=
  if STREQ p "/dev/sda" then [x61; x62; x63; x64; x65] else if STREQ p "/dev/sdb" then [x00; x00; x00; x00; x7a] else [].
Definition ex_content_env : denv :=
  mk_denv (fun _ _ => printing "") (fun _ _ => inr 0) (fun _ _ _ => None)
    (fun _ => mk_dev_fs (fun _ => None) (fun _ => Some (false, 1)) (fun _ => true) 0) (fun _ => Some []) (fun _ _ => 0) (fun _ => "") "/sysroot".

Lemma copy_exact_witness : exists r s',
  do_copy_device_to_device ex_content_env (ex_disk 2 ex_files) (Some 1) (Some 1) (Some 3) (Some true) "/dev/sda" "/dev/sdb"
    (mk_pstate [] ∅) = (Ret r, s') /\
  r = 0 /\ content (ex_disk 2 ex_files) (ps_log s') "/dev/sdb" = [x00; x62; x63; x64; x7a].
Proof.
  destruct (copy_exact ex_content_env (ex_disk 2 ex_files) "/dev/sda" "/dev/sda" "/dev/sdb" "/dev/sdb" false false
    (Some 1) (Some 1) (Some 3) (Some true) (mk_pstate [] ∅)) as (r & s' & E1 & H); try done; try apply ex_disk_ok.
  exists r, s'. split; [exact E1|]. cbn in H. destruct H as (H1 & H2 & _). split; [exact H1|exact H2].
Defined.

(** * Zeroing a device *)

Lemma zero_prefix_splice c pos d : 0 <= pos -> pos + zlength d <= zlength c -> is_zero d = true ->
  zero_range c 0 (Z.to_nat pos) -> zero_range (splice c pos d) 0 (Z.to_nat (pos + zlength d)).
Proof.
  intros Hp Hc Hz%is_zero_replicate H. unfold zero_range, zlength in *. change (Z.to_nat 0) with 0%nat in *. rewrite !drop_0 in *.
  rewrite splice_inside by (unfold zlength; lia). rewrite app_assoc, take_app_length'.
  - rewrite H, Hz, length_replicate. rewrite <- replicate_add. f_equal. lia.
  - rewrite length_app, length_take. lia.
Qed.
Lemma is_zero_app a b : is_zero (a ++ b) = is_zero a && is_zero b.
Proof. unfold is_zero. apply forallb_app. Qed.
Lemma zeros_ne n : 0 < n -> zeros n <> [].
Proof. intros Hn. unfold zeros. destruct (Z.to_nat n) eqn:En; [lia|done]. Qed.
Lemma is_zero_zeros n : is_zero (zeros n) = true.
Proof. apply is_zero_replicate. unfold zeros. by rewrite length_replicate. Qed.

Section zero_device.
Context (E : denv) (K : disk) (device : string) (Hok : disk_ok K device)
  (Hfull : forall h off, exists cap, dk_read K h device off = inr cap /\ (4096 <= cap)%nat).

(** A read that is not cut short. *)
Lemma sys_pread_full pos n s : 0 <= pos -> 0 < n <= ZERO_BUF -> pos + n <= zlength (content K (ps_log s) device) ->
  exists d, sys_pread K device pos n s = (Ret (inr d), s) /\ zlength d = n /\
    take (length d) (drop (Z.to_nat pos) (content K (ps_log s) device)) = d.
Proof using Hfull.
  intros Hp Hn Hc. unfold sys_pread, gets. destruct (Hfull (ps_log s) pos) as (cap & -> & Hcap). unfold ZERO_BUF, zlength in *.
  replace (Nat.min (Nat.max 1 cap) (Z.to_nat n)) with (Z.to_nat n) by lia. eexists. split; [reflexivity|].
  rewrite length_take, length_drop. split; [lia|]. f_equal. lia.
Qed.

Lemma zero_device_loop_spec size : forall fuel pos buf s,
  zlength (content K (ps_log s) device) = size -> 0 <= pos <= size -> size - pos <= Z.of_nat fuel ->
  zero_range (content K (ps_log s) device) 0 (Z.to_nat pos) ->
  exists s', zero_device_loop E K fuel device size pos buf s = (Ret 0, s') /\
    content K (ps_log s') device = zeros size /\
    (forall q, q <> device -> content K (ps_log s') q = content K (ps_log s) q).
Proof using Hok Hfull.
  induction fuel as [|fuel IH]; intros pos buf s Hsize Hpos Hf Hz.
  all: cbn [zero_device_loop]; destruct (Z.leb_spec size pos) as [Hend|Hend]; [|try lia].
  1,2: exists s; unfold finish, sys_close, gets, bind; rewrite (ok_close K device Hok); split_and!; [done| |done];
    unfold zero_range, zlength in *; change (Z.to_nat 0) with 0%nat in Hz; rewrite drop_0, take_ge in Hz by lia; rewrite Hz; unfold zeros; f_equal; lia.
  set (n := Z.min (size - pos) ZERO_BUF). assert (0 < n <= ZERO_BUF /\ pos + n <= size) as [Hn Hn'] by (unfold n, ZERO_BUF; lia).
  destruct (sys_pread_full pos n s ltac:(lia) Hn ltac:(lia)) as (d & E1 & Hd & Hsame).
  rewrite (bind_Ret _ _ _ _ _ E1). set (buf' := d ++ drop (length d) buf).
  assert (forall s1 e, wrote K device pos e s s1 -> is_zero e = true -> 0 < zlength e <= n ->
    exists s', zero_device_loop E K fuel device size (pos + zlength e) buf' s1 = (Ret 0, s') /\
      content K (ps_log s') device = zeros size /\
      (forall q, q <> device -> content K (ps_log s') q = content K (ps_log s) q)) as Hnext.
  { intros s1 e (_ & P1 & O1) He Hl. destruct (IH (pos + zlength e) buf' s1) as (s' & E2 & C2 & O2).
    - rewrite P1. unfold zlength. rewrite splice_length by lia. done.
    - lia.
    - lia.
    - rewrite P1. apply zero_prefix_splice; [lia|lia|done|done].
    - exists s'. split_and!; [done|done|]. intros q Hq. by rewrite O2, O1. }
  destruct (is_zero buf') eqn:Eb; cbn [negb].
  - unfold buf' in Eb. rewrite is_zero_app in Eb. apply andb_prop in Eb as [Ez _].
    rewrite <- Hd. apply (Hnext s d); [by apply wrote_same; [lia|]|done|lia].
  - destruct (sys_pwrite_wrote K device pos (zeros n) s (ok_write K device Hok)) as (e & s1 & E2 & W1 & He & Heq).
    { apply zeros_ne. lia. }
    rewrite (bind_Ret _ _ _ _ _ E2). apply (Hnext s1 e W1).
    + pose proof (is_zero_zeros n) as Hzn. rewrite Heq, is_zero_app in Hzn. by apply andb_prop in Hzn as [? _].
    + unfold zlength. split; [destruct e; [done|cbn; lia]|].
      apply (f_equal length) in Heq. unfold zeros in Heq. rewrite length_app, length_replicate in Heq. lia.
Qed.
End zero_device.

Lemma getsize64_prints E device size s : 0 <= size < 2 ^ 63 ->
  prints (ev_exec E (ps_log s ++ [Settle]) ["blockdev"; "--getsize64"; device]) (pretty size +:+ newline) ->
  exists s', do_blockdev_getsize64 E device s = (Ret size, s') /\
    ps_log s' = ps_log s ++ [Settle; Ran 0 ["blockdev"; "--getsize64"; device]].
Proof.
  intros Hs Hp. set (s1 := s <| ps_log ::= (fun l => l ++ [Settle]) |>).
  destruct (commandf_prints E true 0 ["blockdev"; "--getsize64"; device] _ s1 Hp eq_refl) as [err Hr].
  eexists. unfold do_blockdev_getsize64, call_blockdev. rewrite (bind_Ret udev_settle _ s tt s1 eq_refl).
  unfold command_out. change (if 0 <? 0 then _ else [device]) with [device]. rewrite (bind_Ret _ _ _ _ _ Hr). cbn [Z.eqb].
  change (default "" (Some (pretty size +:+ newline))) with (pretty size +:+ newline).
  assert (sscanf (pretty size +:+ newline) [pct_i64] = [size]) as ->.
  { destruct size as [|p|p]; [done| |lia]. unfold pct_i64. change (pretty (Zpos p)) with (pretty (Npos p)).
    rewrite sscanf_pretty; [|by right|by apply ends_lit|by intros ? ? [= <- <-]]. by rewrite store_int64_id by lia. }
  split; [reflexivity|]. cbn. by rewrite <- app_assoc.
Qed.

(** C22: zero_device: when blockdev prints the size of the device, no call fails and the reads
    are not cut short, every byte of the device is zero afterwards, whatever was in the stack
    buffer before and however few bytes each write takes; every other file is unchanged. *)
Theorem zero_device_zeroes (E : denv) (K : disk) (garbage : list byte) (device : string) (s : pstate) :
  let size := zlength (content K (ps_log s) device) in
  disk_ok K device -> (forall h off, exists cap, dk_read K h device off = inr cap /\ (4096 <= cap)%nat) ->
  size < 2 ^ 63 ->
  prints (ev_exec E (ps_log s ++ [Settle]) ["blockdev"; "--getsize64"; device]) (pretty size +:+ newline) ->
  exists s', do_zero_device E K garbage device s = (Ret 0, s') /\ content K (ps_log s') device = zeros size /\
    (forall q, q <> device -> content K (ps_log s') q = content K (ps_log s) q).
Proof.
  intros size Hok Hfull Hsize Hp. assert (0 <= size) as H0 by (unfold size, zlength; lia).
  destruct (getsize64_prints E device size s ltac:(lia) Hp) as (s1 & E1 & L1).
  assert (forall q, content K (ps_log s1) q = content K (ps_log s) q) as Hc by (intros q; unfold content; by rewrite L1, foldl_app).
  unfold do_zero_device. rewrite (bind_Ret _ _ _ _ _ E1). destruct (Z.eqb_spec size (-1)); [lia|].
  replace (u64 size) with size by (unfold u64; rewrite Z.mod_small by lia; done).
  rewrite (bind_Ret (sys_open K device) _ s1 None s1) by (unfold sys_open, gets; by rewrite (ok_open K device Hok)).
  destruct (zero_device_loop_spec E K device Hok Hfull size (Z.to_nat size) 0 garbage s1) as (s' & E2 & C2 & O2).
  - by rewrite Hc.
  - lia.
  - lia.
  - done.
  - exists s'. split_and!; [done|done|]. intros q Hq. by rewrite O2.
Qed.

Definition ex_size_env (size : Z) : denv :=
  mk_denv (fun _ _ => printing (pretty size +:+ newline)) (fun _ _ => inr 0) (fun _ _ _ => None)
    (ev_fs ex_content_env) (fun _ => Some []) (fun _ _ => 0) (fun _ => "") "/sysroot".
Lemma zero_device_zeroes_witness : exists s',
  do_zero_device (ex_size_env 5) (ex_disk 4096 ex_files) [x01; x02] "/dev/sda" (mk_pstate [] ∅) = (Ret 0, s') /\
  content (ex_disk 4096 ex_files) (ps_log s') "/dev/sda" = [x00; x00; x00; x00; x00].
Proof.
  destruct (zero_device_zeroes (ex_size_env 5) (ex_disk 4096 ex_files) [x01; x02] "/dev/sda" (mk_pstate [] ∅)) as (s' & E1 & E2 & _).
  - apply ex_disk_ok.
  - intros h off. exists 4096%nat. split; [done|lia].
  - by vm_compute.
  - by apply printing_prints.
  - exists s'. split; [exact E1|exact E2].
Defined.

(** The test looks at the whole buffer, not at what was read: after a short
    read of a zero byte, the bytes that were not read are taken for zeros. *)
Lemma zero_device_short_read :
  let K := ex_disk 1 (fun _ => [x00; x01]) in
  exists s', do_zero_device (ex_size_env 2) K (zeros 4096) "/dev/sda" (mk_pstate [] ∅) = (Ret 0, s') /\
    content K (ps_log s') "/dev/sda" = [x00; x01].
Proof. eexists. split; vm_compute; reflexivity. Qed.

(** A sparse copy to a file: the zeros at the end are skipped, and nothing sets
    the size of the file. *)
Lemma copy_sparse_loses_end :
  let K := ex_disk 8192 (fun p => if STREQ p "/dev/sda" then replicate 8192 x01 ++ [x00; x00] else []) in
  exists s', do_copy_device_to_file ex_content_env K None None None (Some true) "/dev/sda" "/f" (mk_pstate [] ∅) = (Ret 0, s') /\
    content K (ps_log s') "/sysroot/f" = replicate 8192 x01.
Proof. eexists. split; vm_compute; reflexivity. Qed.

(** fill does not truncate the file. *)
Lemma fill_keeps_tail :
  let K := ex_disk 8192 (fun _ => [x61; x62; x63; x64]) in
  exists s', do_fill ex_content_env K 48 2 "/f" (mk_pstate [] ∅) = (Ret 0, s') /\
    content K (ps_log s') "/sysroot/f" = [x30; x30; x63; x64].
Proof. eexists. split; vm_compute; reflexivity. Qed.

(** * One reply *)

Section one_reply.
Context (E : denv) `{!Starts E} (K : disk) (ub : bool).

Lemma quiet_sys_open p : quiet (sys_open K p).
Proof. apply quiet_gets. Qed.
Lemma quiet_sys_close p : quiet (sys_close K p).
Proof. apply quiet_gets. Qed.
Lemma quiet_sys_seek p : quiet (sys_seek K p).
Proof. apply quiet_gets. Qed.
Lemma quiet_file_of p : quiet (file_of K p).
Proof. apply quiet_gets. Qed.
Lemma quiet_sys_open_trunc p : quiet (sys_open_trunc K p).
Proof.
  apply quiet_bind; [apply quiet_sys_open|]. intros [e|]; (apply quiet_bind; [|intros; apply quiet_ret]);
    [apply quiet_ret|by apply quiet_log].
Qed.
Lemma quiet_sys_pread p off n : quiet (sys_pread K p off n).
Proof. apply quiet_gets. Qed.
Lemma quiet_seek_to p off : quiet (seek_to K p off).
Proof. unfold seek_to. destruct (0 <? off); [apply quiet_sys_seek|apply quiet_ret]. Qed.
End one_reply.
#[export] Hint Resolve quiet_sys_open quiet_sys_close quiet_sys_seek quiet_file_of quiet_sys_open_trunc quiet_sys_pread
  quiet_seek_to : quiet.

(** What is known of a write: nothing is replied, and it makes progress. *)
Lemma emits_pwrite K ub path off data : data <> [] ->
  emits ub (sys_pwrite K path off data) (fun r n => n = 0%nat /\ match r with inl _ => True | inr k => 0 < k <= zlength data end).
Proof.
  intros Hd s. unfold sys_pwrite. destruct (dk_write K (ps_log s) path off) as [e|cap].
  - eexists (Ret (inl e)), s, []. by rewrite app_nil_r.
  - set (d := take _ data). eexists (Ret (inr (Z.of_nat (length d)))), _, [_]. split; [reflexivity|]. split; [reflexivity|].
    split; [done|]. unfold d, zlength. rewrite length_take. destruct data; [done|]. cbn [length]. lia.
Qed.
Lemma emits_xwrite K ub path : forall fuel off data, (length data <= fuel)%nat ->
  emits ub (xwrite_fuel K fuel path off data) (fun _ n => n = 0%nat).
Proof.
  induction fuel as [|fuel IH]; intros off data Hf.
  - destruct data; [by apply emits_ret|cbn in Hf; lia].
  - destruct data as [|b d] eqn:Ed; [by apply emits_ret|]. cbn [xwrite_fuel]. rewrite <- Ed in *.
    eapply emits_bind; [apply emits_pwrite; by rewrite Ed|]. intros [e|k] n [-> Hk]; [by apply emits_ret|].
    apply IH. rewrite length_drop. unfold zlength in Hk. lia.
Qed.
Lemma quiet_xwrite K path off data : quiet (xwrite K path off data).
Proof. intros ub. by apply emits_xwrite. Qed.
#[export] Hint Resolve quiet_xwrite : quiet.

Section replies.
Context (E : denv) `{!Starts E} (K : disk) (ub : bool).

Lemma finish_one_reply path msg : one_reply ub int_failed (finish E K path msg).
Proof. unfold finish. emits. Qed.
#[local] Hint Resolve finish_one_reply : one_reply.
Lemma zero_loop_one_reply device : forall k i, one_reply ub int_failed (zero_loop E K k i device).
Proof.
  induction k as [|k IH]; intros i; cbn [zero_loop]; [apply finish_one_reply|].
  eapply emits_quiet; [auto with quiet|]. intros [e|buf]; [by apply emits_perror|]. destruct (negb _); [by apply emits_pfail|].
  destruct (is_zero buf); [apply IH|]. eapply emits_bind; [apply emits_pwrite, zeros_ne; unfold ZERO_BUF; lia|].
  intros [e|n] m [-> _]; [by apply emits_perror|]. destruct (negb _); [by apply emits_pfail|apply IH].
Qed.
Lemma do_zero_one_reply device : one_reply ub int_failed (do_zero E K device).
Proof.
  eapply emits_quiet; [auto with quiet|]. intros [e|]; [by apply emits_perror|apply zero_loop_one_reply].
Qed.
Lemma do_zero_free_space_one_reply W dir : one_reply ub int_failed (do_zero_free_space E K W dir).
Proof. unfold do_zero_free_space. emits. Qed.
Lemma do_dd_one_reply src dest : one_reply ub int_failed (do_dd E src dest).
Proof. unfold do_dd. emits. Qed.
Lemma fill_loop_one_reply file path b len : forall fuel n, len - n <= Z.of_nat fuel ->
  one_reply ub int_failed (fill_loop E K fuel file path b len n).
Proof.
  induction fuel as [|fuel IH]; intros n Hf; cbn [fill_loop]; destruct (Z.leb_spec len n); try apply finish_one_reply; [lia|].
  eapply emits_bind; [apply emits_pwrite|].
  { assert (0 < Z.min (len - n) BUF) by (unfold BUF; lia). destruct (Z.to_nat (Z.min (len - n) BUF)) eqn:En; [lia|done]. }
  intros [e|k] m [-> Hk]; [emits|]. apply IH. lia.
Qed.
Lemma do_fill_one_reply c len path : one_reply ub int_failed (do_fill E K c len path).
Proof.
  unfold do_fill. destruct (_ || _); [emits|]. destruct (Z.ltb_spec len 0); [emits|].
  eapply emits_quiet; [auto with quiet|]. intros [e|]; [emits|]. apply fill_loop_one_reply. lia.
Qed.
Lemma fill_pattern_loop_one_reply file path pattern len : 0 < zlength pattern -> forall fuel n, len - n <= Z.of_nat fuel ->
  one_reply ub int_failed (fill_pattern_loop E K fuel file path pattern len n).
Proof.
  intros Hp. induction fuel as [|fuel IH]; intros n Hf; cbn [fill_pattern_loop]; destruct (Z.leb_spec len n); try apply finish_one_reply; [lia|].
  eapply emits_quiet; [auto with quiet|]. intros [e|]; [emits|]. apply IH. lia.
Qed.
Lemma do_fill_pattern_one_reply pattern len path : one_reply ub int_failed (do_fill_pattern E K pattern len path).
Proof.
  unfold do_fill_pattern. destruct (Nat.ltb_spec (String.length pattern) 1); [emits|]. destruct (Z.ltb_spec len 0); [emits|].
  eapply emits_quiet; [auto with quiet|]. intros [e|]; [emits|]. apply fill_pattern_loop_one_reply; [|lia].
  unfold zlength. destruct pattern; [cbn in *; lia|cbn; lia].
Qed.
Lemma fill_dir_loop_one_reply dir : forall k i, one_reply ub int_failed (fill_dir_loop E K k i dir).
Proof. induction k as [|k IH]; intros i; cbn [fill_dir_loop]; emits. Qed.
Lemma do_truncate_size_one_reply path size : one_reply ub int_failed (do_truncate_size E K path size).
Proof. unfold do_truncate_size. emits. Qed.
Lemma do_fallocate64_one_reply path len : one_reply ub int_failed (do_fallocate64 E K path len).
Proof. unfold do_fallocate64. emits. Qed.
Lemma do_fallocate_one_reply path len : one_reply ub int_failed (do_fallocate E K path len).
Proof. pose proof do_fallocate64_one_reply. unfold do_fallocate. emits. Qed.
End replies.
#[export] Hint Resolve do_zero_one_reply do_zero_free_space_one_reply do_dd_one_reply do_fill_one_reply do_fill_pattern_one_reply
  fill_dir_loop_one_reply do_truncate_size_one_reply do_fallocate64_one_reply do_fallocate_one_reply : one_reply.

(** * Testing for zeros *)

Lemma is_zero_loop_spec E K file display : disk_ok K file -> forall fuel off s,
  0 <= off -> (length (drop (Z.to_nat off) (content K (ps_log s) file)) < fuel)%nat ->
  is_zero_loop E K fuel file display off s =
    (Ret (bool_int (is_zero (drop (Z.to_nat off) (content K (ps_log s) file)))), s).
Proof.
  intros Hok. induction fuel as [|fuel IH]; intros off s Ho Hf; [lia|]. cbn [is_zero_loop].
  destruct (sys_pread_ok K file off BUF s Hok Ho ltac:(done)) as (d & E1 & _ & Hrest & Hnil).
  rewrite (bind_Ret _ _ _ _ _ E1). destruct d as [|b d0] eqn:Ed.
  - rewrite (Hnil eq_refl). unfold sys_close, gets, bind. by rewrite (ok_close K file Hok).
  - rewrite <- Ed in *. rewrite Hrest in Hf |- *. rewrite length_app in Hf. rewrite is_zero_app.
    destruct (is_zero d); cbn [negb andb]; [|done]. rewrite IH; [done|unfold zlength; lia|].
    rewrite Ed in Hf at 1. cbn [length] in Hf. lia.
Qed.
(** is_zero and is_zero_device: true exactly when every byte is zero, however
    few bytes a read gives. *)
Theorem is_zero_correct (E : denv) (K : disk) (file display : string) (s : pstate) : disk_ok K file ->
  is_zero_file E K file display s =
    (Ret (bool_int (bool_decide (Forall (fun b => b = x00) (content K (ps_log s) file)))), s).
Proof.
  intros Hok. unfold is_zero_file, sys_open, file_of. rewrite (bind_Ret (gets _) _ s None s) by (unfold gets; by rewrite (ok_open K file Hok)).
  rewrite (bind_Ret (gets _) _ s _ s eq_refl), is_zero_loop_spec by (try done; change (Z.to_nat 0) with 0%nat; rewrite drop_0; lia).
  change (Z.to_nat 0) with 0%nat. rewrite drop_0. repeat f_equal.
  unfold is_zero. case_bool_decide as Hz;
    [apply forallb_forall|apply not_true_is_false; rewrite forallb_forall; intros Ha; apply Hz; clear Hz].
  - intros b Hb. rewrite List.Forall_forall in Hz. by rewrite (Hz b Hb).
  - apply List.Forall_forall. intros b Hb. by apply Byte.byte_dec_bl, Ha.
Qed.

Lemma is_zero_correct_witness :
  do_is_zero_device ex_content_env (ex_disk 2 (fun _ => [x00; x00; x00])) "/dev/sda" (mk_pstate [] ∅) = (Ret 1, mk_pstate [] ∅).
Proof.
  exact (is_zero_correct ex_content_env (ex_disk 2 (fun _ => [x00; x00; x00])) "/dev/sda" "/dev/sda" (mk_pstate [] ∅) (ex_disk_ok _ _ _)).
Defined.
