(* ===== verification/Files.v ===== *)
(** The procedures on files and directories: daemon/file.c, daemon/dir.c,
    daemon/cpmv.c, daemon/link.c, daemon/is.c, daemon/headtail.c and
    daemon/wc.c. *)

From S2P Require Import Prelude Xdr Protocol Handle Utils Events Conn Command Guestfsd Procs DevParts Filesys Content.
From Stdlib Require Import Ascii.

Open Scope Z_scope.
#[local] Arguments String.append : simpl nomatch.

(** * What the file system answers *)

Record statbuf := mk_statbuf { st_mode : Z; st_size : Z; st_uid : Z; st_gid : Z }.
Definition S_IFMT : Z := 61440.       (* 0170000 *)
Definition ifmt (mode : Z) : Z := Z.land mode S_IFMT.
Definition S_ISREG (mode : Z) : bool := ifmt mode =? 32768.
Definition S_ISDIR (mode : Z) : bool := ifmt mode =? 16384.
Definition S_ISCHR (mode : Z) : bool := ifmt mode =? 8192.
Definition S_ISBLK (mode : Z) : bool := ifmt mode =? 24576.
Definition S_ISFIFO (mode : Z) : bool := ifmt mode =? 4096.
Definition S_ISLNK (mode : Z) : bool := ifmt mode =? 40960.
Definition S_ISSOCK (mode : Z) : bool := ifmt mode =? 49152.
Definition EEXIST : Z := 17.

(** stat, lstat and readlink, an errno or the answer; the number of the next
    file descriptor; popen, an errno or the output with the errno of pclose. *)
Record file_world := mk_file_world {
  fw_stat : list action -> string -> Z + statbuf;
  fw_lstat : list action -> string -> Z + statbuf;
  fw_readlink : list action -> string -> Z + string;
  fw_fd : Z;
  fw_popen : list action -> string -> Z + string * option Z
}.

Section files.
Context (E : denv) (K : disk) (W : file_world).
#[local] Notation path p := (sysroot_path (sysroot E) p).

Definition lstat (p : string) : proc (Z + statbuf) := gets (fun s => fw_lstat W (ps_log s) p).
Definition stat (p : string) : proc (Z + statbuf) := gets (fun s => fw_stat W (ps_log s) p).

(** * daemon/file.c *)

Definition do_touch (p : string) : proc Z :=
  r <- lstat (path p) ;;
  let go : proc Z :=
    e <- sys_open K (path p) ;;
    match e with
    | Some e => perror E e ("open: " +:+ p) (-1)
    | None =>
        e <- sys E "futimens" [path p] ;;
        match e with
        | Some e => perror E e ("futimens: " +:+ p) (-1)
        | None => finish E K (path p) ("close: " +:+ p)
        end
    end in
  match r with
  | inl e => if negb (e =? ENOENT) then perror E e ("lstat: " +:+ p) (-1) else go
  | inr st => if negb (S_ISREG (st_mode st)) then fail (p +:+ ": touch can only be used on a regular files") (-1) else go
  end.

(** A system call inside the chroot. *)
Definition chroot_or (f : string) (args : list string) (msg : string) : proc Z := sys_or E ("chroot " +:+ f) args msg.
Definition do_rm (p : string) : proc Z := chroot_or "unlink" [p] p.
Definition do_rm_f (p : string) : proc Z :=
  e <- sys E "chroot unlink" [p] ;;
  match e with
  | Some e => if negb (e =? ENOENT) then perror E e p (-1) else ret 0
  | None => ret 0
  end.

(** %o *)
Fixpoint octal_fuel (fuel : nat) (z : Z) (acc : string) : string :=
  let acc := String (hex_char (z mod 8)) acc in
  match fuel with
  | S fuel' => if z <? 8 then acc else octal_fuel fuel' (z / 8) acc
  | O => acc
  end.
Definition octal (z : Z) : string := octal_fuel 11 z "".
Definition do_chmod (mode : Z) (p : string) : proc Z :=
  if mode <? 0 then fail (p +:+ ": mode is negative") (-1)
  else chroot_or "chmod" [p; octal mode] (p +:+ ": 0" +:+ octal mode).
Definition owner_text (owner group : Z) (p : string) : string := p +:+ ": " +:+ pretty owner +:+ "." +:+ pretty group.
Definition do_chown (owner group : Z) (p : string) : proc Z :=
  chroot_or "chown" [p; pretty owner; pretty group] (owner_text owner group p).
Definition do_lchown (owner group : Z) (p : string) : proc Z :=
  chroot_or "lchown" [p; pretty owner; pretty group] (owner_text owner group p).

(** Writing a whole file, from the opened descriptor on. *)
Definition write_fd (p : string) (off : Z) (data : list byte) : proc Z :=
  e <- xwrite K (path p) off data ;;
  match e with
  | Some e => perror E e "write" (-1)
  | None => finish E K (path p) ("close: " +:+ p)
  end.
Definition do_internal_write (p : string) (data : list byte) : proc Z :=
  e <- sys_open_trunc K (path p) ;;
  match e with
  | Some e => perror E e ("open: " +:+ p) (-1)
  | None => write_fd p 0 data
  end.
Definition do_write_file (p text : string) (size : Z) : proc Z :=
  if size <? 0 then fail "size cannot be negative" (-1)
  else
    let content_len := Z.of_nat (String.length text) in
    let size' := if size =? 0 then content_len else size in
    if content_len <? size' then fail "size parameter is larger than string content" (-1)
    else do_internal_write p (take (Z.to_nat size') (bytes_of_string text)).
(** O_APPEND: at the end of the file. *)
Definition do_internal_write_append (p : string) (data : list byte) : proc Z :=
  e <- sys_open K (path p) ;;
  match e with
  | Some e => perror E e ("open: " +:+ p) (-1)
  | None => c <- file_of K (path p) ;; write_fd p (zlength c) data
  end.

Definition pread_fd (file : string) (count offset : Z) (display : string) : proc (option (list byte)) :=
  if count <? 0 then fail "count is negative" None
  else if offset <? 0 then fail "offset is negative" None
  else if GUESTFS_MESSAGE_MAX <=? count then
    fail (display +:+ ": count is too large for the protocol, use smaller reads") None
  else
    d <- sys_pread K file offset count ;;
    match d with
    | inl e => perror E e ("pread: " +:+ display) None
    | inr d =>
        e <- sys_close K file ;;
        match e with
        | Some e => perror E e ("close: " +:+ display) None
        | None => ret (Some d)
        end
    end.
Definition open_pread (file display : string) (count offset : Z) : proc (option (list byte)) :=
  e <- sys_open K file ;;
  match e with
  | Some e => perror E e ("open: " +:+ display) None
  | None => pread_fd file count offset display
  end.
Definition do_pread (p : string) (count offset : Z) := open_pread (path p) p count offset.
Definition do_pread_device (device : string) (count offset : Z) := open_pread device device count offset.

Definition pwrite_fd (file : string) (data : list byte) (offset : Z) (display : string) (settle : bool) : proc Z :=
  r <- sys_pwrite K file offset data ;;
  match r with
  | inl e => perror E e ("pwrite: " +:+ display) (-1)
  | inr r =>
      e <- sys_close K file ;;
      match e with
      | Some e => perror E e ("close: " +:+ display) (-1)
      | None => (if settle then udev_settle else ret tt) ;;; ret (s32 r)
      end
  end.
Definition open_pwrite (file display : string) (data : list byte) (offset : Z) (settle : bool) : proc Z :=
  if offset <? 0 then fail "offset is negative" (-1)
  else
    e <- sys_open K file ;;
    match e with
    | Some e => perror E e ("open: " +:+ display) (-1)
    | None => pwrite_fd file data offset display settle
    end.
Definition do_pwrite (p : string) (data : list byte) (offset : Z) := open_pwrite (path p) p data offset false.
Definition do_pwrite_device (device : string) (data : list byte) (offset : Z) := open_pwrite device device data offset true.

(** The type of something that is not a regular file. *)
Definition file_type (mode : Z) : string :=
  if S_ISDIR mode then "directory" else if S_ISCHR mode then "character device"
  else if S_ISBLK mode then "block device" else if S_ISFIFO mode then "FIFO"
  else if S_ISLNK mode then "symbolic link" else if S_ISSOCK mode then "socket" else "unknown, not regular file".
(** Without the last character when it is [c]. *)
Fixpoint strip_last (c : ascii) (s : string) : string :=
  match s with
  | EmptyString => ""
  | String d EmptyString => if Ascii.eqb d c then "" else s
  | String d s' => String d (strip_last c s')
  end.
Definition run_file (flags file display : string) : proc (option string) :=
  let* (r, out, err) := command_out E ["file"; flags; file] in
  if r =? -1 then fail (display +:+ ": " +:+ fmt_s err) None
  else ret (Some (strip_last " " (strip_last nl_char (default "" out)))).
Definition do_file (p : string) : proc (option string) :=
  if STRPREFIX p "/dev/" then run_file "-zbsL" p p
  else
    r <- lstat (path p) ;;
    match r with
    | inl e => perror E e ("lstat: " +:+ p) None
    | inr st => if negb (S_ISREG (st_mode st)) then ret (Some (file_type (st_mode st))) else run_file "-zb" (path p) p
    end.

(** fgets: a line with its newline, in a buffer of [size] bytes. *)
Fixpoint fgets (n : nat) (s : string) : string :=
  match n, s with
  | S n', String c s' => if Ascii.eqb c nl_char then String c "" else String c (fgets n' s')
  | _, _ => ""
  end.
Definition do_zfile (method p : string) : proc (option string) :=
  let run (zcat : string) : proc (option string) :=
    let cmd := zcat +:+ " " +:+ print_sysroot_shell_quote (sysroot E) p +:+ " | file -bsL -" in
    r <- gets (fun s => fw_popen W (ps_log s) cmd) ;;
    log (System cmd) ;;;
    match r with
    | inl e => perror E e cmd None
    | inr (out, pclose) =>
        if STREQ out "" then pfail E "fgets" "fgets" None
        else match pclose with
             | Some e => perror E e "pclose" None
             | None => ret (Some (strip_last nl_char (fgets 255 out)))
             end
    end in
  if STREQ method "gzip" || STREQ method "compress" then run "zcat"
  else if STREQ method "bzip2" then run "bzcat"
  else fail "unknown method" None.

Definition do_filesize (p : string) : proc Z :=
  r <- stat (path p) ;;
  match r with
  | inl e => perror E e p (-1)
  | inr st => ret (st_size st)
  end.

(** * daemon/dir.c *)

Definition do_rmdir (p : string) : proc Z := chroot_or "rmdir" [p] p.
Definition do_rm_rf (p : string) : proc Z :=
  if STREQ p "/" then fail "cannot remove root directory" (-1)
  else run_or (command_err E ["rm"; "-rf"; path p]) (fun err => p +:+ ": " +:+ err).
Definition do_mkdir (p : string) : proc Z := chroot_or "mkdir" [p; "0777"] p.
Definition do_mkdir_mode (p : string) (mode : Z) : proc Z :=
  if mode <? 0 then fail (p +:+ ": mode is negative") (-1)
  else chroot_or "mkdir" [p; "0" +:+ octal mode] p.

Definition sys_mkdir (p : string) : proc (option Z) := sys E "chroot mkdir" [p; "0777"].
(** Something is there already: the result, and errno. *)
Definition mkdir_exists (p : string) : proc (Z * Z) :=
  r <- lstat (path p) ;;
  ret (match r with
       | inl e => (-1, e)
       | inr st => if negb (S_ISDIR (st_mode st)) then (-2, 0) else (0, 0)
       end).
(** The path up to its last slash, or all of it. *)
Definition parent (p : string) : string :=
  match strrchr_slash p with Some (q, _) => q | None => p end.
Fixpoint recursive_mkdir (fuel : nat) (p : string) : proc (Z * Z) :=
  e <- sys_mkdir p ;;
  match e with
  | None => ret (0, 0)
  | Some e =>
      if e =? EEXIST then mkdir_exists p
      else if e =? ENOENT then
        if STREQ p "/" then ret (-1, e)
        else match fuel with
        | O => halt OutOfFuel
        | S fuel' =>
            let* (r, e') := recursive_mkdir fuel' (parent p) in
            if negb (r =? 0) then ret (r, e')
            else
              e <- sys_mkdir p ;;
              match e with
              | None => ret (0, 0)
              | Some e => if e =? EEXIST then mkdir_exists p else ret (-1, e)
              end
        end
      else ret (-1, e)
  end.
Definition do_mkdir_p (p : string) : proc Z :=
  let* (r, e) := recursive_mkdir (String.length p) p in
  if r =? -1 then perror E e p (-1)
  else if r =? -2 then fail (p +:+ ": a path element was not a directory") (-1)
  else ret 0.

(** * daemon/cpmv.c *)

Definition cpmv_cmd (cmd : string) (flags : option string) (src dest : string) : proc Z :=
  run_or (command_err E ([cmd] ++ (match flags with Some f => [f] | None => [] end) ++ [path src; path dest])) (fun err => err).
Definition do_cp := cpmv_cmd "cp" None.
Definition do_cp_a := cpmv_cmd "cp" (Some "-a").
Definition do_cp_r := cpmv_cmd "cp" (Some "-rP").
Definition do_mv := cpmv_cmd "mv" None.

(** * daemon/link.c *)

Definition readlink (p : string) : proc (Z + string) := gets (fun s => fw_readlink W (ps_log s) p).
Definition do_readlink (p : string) : proc (option string) :=
  r <- readlink (path p) ;;
  match r with
  | inl e => perror E e p None
  | inr link => ret (Some link)
  end.
Fixpoint readlink_loop (dir : string) (names acc : list string) : proc (list string) :=
  match names with
  | [] => ret acc
  | name :: names' =>
      r <- readlink (dir +:+ "/" +:+ name) ;;
      readlink_loop dir names' (acc ++ [match r with inr link => link | inl _ => "" end])
  end.
Definition do_internal_readlinklist (p : string) (names : list string) : proc (option (list string)) :=
  e <- sys_open K (path p) ;;
  match e with
  | Some e => perror E e ("open: " +:+ p) None
  | None => l <- readlink_loop (path p) names [] ;; ret (Some l)
  end.
Definition link_message (target linkname : string) : string := "link: " +:+ target +:+ ": " +:+ linkname.
Definition do_ln (target linkname : string) : proc Z := chroot_or "link" [target; linkname] (link_message target linkname).
Definition do_ln_f (target linkname : string) : proc Z :=
  sys E "chroot unlink" [linkname] ;;;
  chroot_or "link" [target; linkname] (link_message target linkname).
Definition _symlink (flag target linkname : string) : proc Z :=
  run_or (command_err E ["ln"; flag; "--"; target; path linkname])
    (fun err => "ln " +:+ flag +:+ ": " +:+ target +:+ ": " +:+ linkname +:+ ": " +:+ err).
Definition do_ln_s := _symlink "-s".
Definition do_ln_sf := _symlink "-sf".

(** * daemon/is.c *)

(** [inl r]: the value to return; [inr mode]: it exists. *)
Definition get_mode (p : string) (followsymlinks : bool) : proc (Z + Z) :=
  r <- (if followsymlinks then stat (path p) else lstat (path p)) ;;
  match r with
  | inl e => if negb (e =? ENOENT) && negb (e =? ENOTDIR) then perror E e ("stat: " +:+ p) (inl (-1)) else ret (inl 0)
  | inr st => ret (inr (st_mode st))
  end.
Definition is_mode (test : Z -> bool) (p : string) (followsymlinks : bool) : proc Z :=
  r <- get_mode p followsymlinks ;;
  ret (match r with inl r => r | inr mode => bool_int (test mode) end).
Definition do_exists (p : string) : proc Z := is_mode (fun _ => true) p false.
Definition given (o : option bool) : bool := match o with Some b => b | None => false end.
Definition do_is_file (p : string) (f : option bool) := is_mode S_ISREG p (given f).
Definition do_is_dir (p : string) (f : option bool) := is_mode S_ISDIR p (given f).
Definition do_is_chardev (p : string) (f : option bool) := is_mode S_ISCHR p (given f).
Definition do_is_blockdev (p : string) (f : option bool) := is_mode S_ISBLK p (given f).
Definition do_is_fifo (p : string) (f : option bool) := is_mode S_ISFIFO p (given f).
Definition do_is_symlink (p : string) := is_mode S_ISLNK p false.
Definition do_is_socket (p : string) (f : option bool) := is_mode S_ISSOCK p (given f).

(** * daemon/headtail.c and daemon/wc.c *)

Definition stdin_flags : Z := Z.lor COMMAND_FLAG_CHROOT_COPY_FILE_TO_STDIN (fw_fd W).
(** A program that reads the file; [None] after a failure, with the message
    for open and for the program. *)
Definition with_stdin (p : string) (argv : list string) (open_msg : string) (msg : string -> string) : proc (option string) :=
  e <- sys_open K (path p) ;;
  match e with
  | Some e => perror E e open_msg None
  | None =>
      let* (r, out, err) := commandf E true true stdin_flags argv in
      if r =? -1 then fail (msg (fmt_s err)) None else ret (Some (default "" out))
  end.
Definition headtail (prog flag n p : string) : proc (option (list string)) :=
  out <- with_stdin p [prog; flag; n] p (fun err => prog +:+ " " +:+ flag +:+ " " +:+ n +:+ ": " +:+ err) ;;
  ret (split_lines <$> out).
Definition do_head := headtail "head" "-n" "10".
Definition do_tail := headtail "tail" "-n" "10".
Definition do_head_n (n : Z) (p : string) := headtail "head" "-n" (snprintf 16 (pretty n)) p.
Definition do_tail_n (n : Z) (p : string) :=
  headtail "tail" "-n" (snprintf 16 (if 0 <=? n then pretty n else "+" +:+ pretty (s32 (- n)))) p.

Definition wc (flag p : string) : proc Z :=
  out <- with_stdin p ["wc"; flag] ("wc " +:+ flag +:+ ": " +:+ p) (fun err => "wc " +:+ flag +:+ ": " +:+ err) ;;
  match out with
  | None => ret (-1)
  | Some out => match sscanf out [pct_d] with
                | [r] => ret r
                | _ => fail ("cannot parse number: " +:+ out) (-1)
                end
  end.
Definition do_wc_l := wc "-l".
Definition do_wc_w := wc "-w".
Definition do_wc_c := wc "-c".
End files.

(** * One reply *)

Section one_reply.
Context (E : denv) `{!Starts E} (K : disk) (W : file_world) (ub : bool).

Lemma quiet_lstat p : quiet (lstat W p).
Proof. apply quiet_gets. Qed.
Lemma quiet_stat p : quiet (stat W p).
Proof. apply quiet_gets. Qed.
Lemma quiet_readlink p : quiet (readlink W p).
Proof. apply quiet_gets. Qed.
Lemma quiet_readlink_loop dir names : forall acc, quiet (readlink_loop W dir names acc).
Proof. induction names as [|n names IH]; intros acc; [apply quiet_ret|]. apply quiet_bind; [apply quiet_readlink|auto]. Qed.
#[local] Hint Resolve quiet_lstat quiet_stat quiet_readlink quiet_readlink_loop : quiet.
#[local] Hint Resolve finish_one_reply : one_reply.

Lemma do_touch_one_reply p : one_reply ub int_failed (do_touch E K W p).
Proof. unfold do_touch. emits. Qed.
Lemma chroot_or_one_reply f args msg : one_reply ub int_failed (chroot_or E f args msg).
Proof. unfold chroot_or. emits. Qed.
#[local] Hint Resolve chroot_or_one_reply : one_reply.
Lemma do_rm_f_one_reply p : one_reply ub int_failed (do_rm_f E p).
Proof. unfold do_rm_f. emits. Qed.
Lemma do_chmod_one_reply mode p : one_reply ub int_failed (do_chmod E mode p).
Proof. unfold do_chmod. emits. Qed.
Lemma write_fd_one_reply p off data : one_reply ub int_failed (write_fd E K p off data).
Proof. unfold write_fd. emits. Qed.
#[local] Hint Resolve write_fd_one_reply : one_reply.
Lemma do_internal_write_one_reply p data : one_reply ub int_failed (do_internal_write E K p data).
Proof. unfold do_internal_write. emits. Qed.
#[local] Hint Resolve do_internal_write_one_reply : one_reply.
Lemma do_write_file_one_reply p text size : one_reply ub int_failed (do_write_file E K p text size).
Proof. unfold do_write_file. emits. Qed.
Lemma do_internal_write_append_one_reply p data : one_reply ub int_failed (do_internal_write_append E K p data).
Proof. unfold do_internal_write_append. emits. Qed.
Lemma open_pread_one_reply file display count offset : one_reply ub ptr_failed (open_pread E K file display count offset).
Proof. unfold open_pread, pread_fd. emits. Qed.
Lemma run_file_one_reply flags file display : one_reply ub ptr_failed (run_file E flags file display).
Proof. unfold run_file. emits. Qed.
#[local] Hint Resolve run_file_one_reply : one_reply.
Lemma do_file_one_reply p : one_reply ub ptr_failed (do_file E W p).
Proof. unfold do_file. emits. Qed.
Lemma do_zfile_one_reply method p : one_reply ub ptr_failed (do_zfile E W method p).
Proof. unfold do_zfile. emits. Qed.
Lemma do_rm_rf_one_reply p : one_reply ub int_failed (do_rm_rf E p).
Proof. unfold do_rm_rf. emits. Qed.
Lemma do_mkdir_mode_one_reply p mode : one_reply ub int_failed (do_mkdir_mode E p mode).
Proof. unfold do_mkdir_mode. emits. Qed.
Lemma cpmv_cmd_one_reply cmd flags src dest : one_reply ub int_failed (cpmv_cmd E cmd flags src dest).
Proof. unfold cpmv_cmd. emits. Qed.
Lemma do_readlink_one_reply p : one_reply ub ptr_failed (do_readlink E W p).
Proof. unfold do_readlink. emits. Qed.
Lemma do_internal_readlinklist_one_reply p names : one_reply ub ptr_failed (do_internal_readlinklist E K W p names).
Proof. unfold do_internal_readlinklist. emits. Qed.
Lemma do_ln_f_one_reply target linkname : one_reply ub int_failed (do_ln_f E target linkname).
Proof. unfold do_ln_f. emits. Qed.
Lemma symlink_one_reply flag target linkname : one_reply ub int_failed (_symlink E flag target linkname).
Proof. unfold _symlink. emits. Qed.
Lemma is_mode_one_reply test p follow : one_reply ub int_failed (is_mode E W test p follow).
Proof.
  eapply (emits_bind _ _ _ (fun x n => n = match x with inl r => if int_failed r then 1%nat else 0%nat | inr _ => 0%nat end)).
  - unfold get_mode. apply emits_quiet; [destruct follow; auto with quiet|]. emits.
  - intros [r|mode] n ->; apply emits_ret; [by rewrite Nat.add_0_r|]. by destruct (test mode).
Qed.
Lemma with_stdin_one_reply p argv open_msg msg : one_reply ub ptr_failed (with_stdin E K W p argv open_msg msg).
Proof. unfold with_stdin. emits. Qed.
Lemma headtail_one_reply prog flag n p : one_reply ub ptr_failed (headtail E K W prog flag n p).
Proof. eapply emits_bind; [apply with_stdin_one_reply|]. intros [out|] m ->; by apply emits_ret. Qed.
End one_reply.
#[export] Hint Resolve do_touch_one_reply chroot_or_one_reply do_rm_f_one_reply do_chmod_one_reply do_internal_write_one_reply
  do_write_file_one_reply do_internal_write_append_one_reply open_pread_one_reply do_file_one_reply do_zfile_one_reply
  do_rm_rf_one_reply do_mkdir_mode_one_reply cpmv_cmd_one_reply do_readlink_one_reply do_internal_readlinklist_one_reply
  do_ln_f_one_reply symlink_one_reply is_mode_one_reply headtail_one_reply : one_reply.

(** * Writing and reading back *)

(** Reads of this file are not cut short. *)
Definition full_reads (K : disk) (file : string) (n : nat) : Prop :=
  forall h off, exists cap, dk_read K h file off = inr cap /\ (n <= cap)%nat.

Lemma finish_ok E K file msg s : disk_ok K file -> finish E K file msg s = (Ret 0, s).
Proof. intros H. unfold finish, sys_close, gets, bind. by rewrite (ok_close K file H). Qed.
Lemma write_fd_content E K p off data s : disk_ok K (sysroot_path (sysroot E) p) -> 0 <= off ->
  exists s', write_fd E K p off data s = (Ret 0, s') /\ wrote K (sysroot_path (sysroot E) p) off data s s'.
Proof.
  intros Hok Ho. destruct (xwrite_wrote K _ (ok_write K _ Hok) (length data) off data s Ho ltac:(done)) as (s' & E1 & W1).
  exists s'. split; [|done]. unfold write_fd, xwrite. by rewrite (bind_Ret _ _ _ _ _ E1), finish_ok.
Qed.
Lemma splice_empty data : splice [] 0 data = data.
Proof. destruct data as [|b d]; [done|]. cbn. by rewrite app_nil_r. Qed.
Lemma splice_end c data : splice c (zlength c) data = c ++ data.
Proof.
  unfold zlength. destruct (decide (data = [])) as [->|Hd]; [by rewrite app_nil_r|]. rewrite splice_ne by done.
  rewrite Nat2Z.id, firstn_all, Nat.sub_diag. cbn [replicate].
  rewrite drop_ge by lia. by rewrite !app_nil_r.
Qed.

(** C23: A file that is written, appended to and read: when no call fails and reads are not cut
    short, pread gives back the requested part of what was written followed by what was
    appended, whatever the file was before and however few bytes each write took; no other file
    changes. *)
Theorem write_append_pread (E : denv) (K : disk) (p : string) (data more : list byte) (s : pstate) :
  let file := sysroot_path (sysroot E) p in
  disk_ok K file -> full_reads K file (length (data ++ more)) ->
  exists s1 s2, do_internal_write E K p data s = (Ret 0, s1) /\ do_internal_write_append E K p more s1 = (Ret 0, s2) /\
    (forall count offset, 0 <= count < GUESTFS_MESSAGE_MAX -> 0 <= offset ->
       do_pread E K p count offset s2 = (Ret (Some (take (Z.to_nat count) (drop (Z.to_nat offset) (data ++ more)))), s2)) /\
    (forall q, q <> file -> content K (ps_log s2) q = content K (ps_log s) q).
Proof.
  intros file Hok Hfull. set (s0 := s <| ps_log ::= (fun l => l ++ [Called O_TRUNC [file]]) |>).
  destruct (write_fd_content E K p 0 data s0 Hok ltac:(done)) as (s1 & E1 & _ & C1 & O1).
  assert (content K (ps_log s1) file = data) as Hc1.
  { etrans; [exact C1|]. fold file. change (ps_log s0) with (ps_log s ++ [Called O_TRUNC [file]]). rewrite content_trunc. unfold STREQ.
    rewrite bool_decide_true by done. apply splice_empty. }
  destruct (write_fd_content E K p (zlength data) more s1 Hok ltac:(unfold zlength; lia)) as (s2 & E2 & _ & C2 & O2).
  fold file in C2, O2. rewrite Hc1, splice_end in C2. exists s1, s2. split_and!.
  - unfold do_internal_write, sys_open_trunc, sys_open, gets, bind. fold file. rewrite (ok_open K file Hok). exact E1.
  - unfold do_internal_write_append, sys_open, file_of, gets, bind. fold file. rewrite (ok_open K file Hok), Hc1. exact E2.
  - intros count offset Hc Ho. unfold do_pread, open_pread, sys_open, gets, bind at 1. fold file. rewrite (ok_open K file Hok).
    unfold pread_fd. destruct (Z.ltb_spec count 0); [lia|]. destruct (Z.ltb_spec offset 0); [lia|].
    destruct (Z.leb_spec GUESTFS_MESSAGE_MAX count); [lia|]. unfold sys_pread, sys_close, gets, bind.
    destruct (Hfull (ps_log s2) offset) as (cap & -> & Hcap). rewrite (ok_close K file Hok), C2. do 3 f_equal.
    set (rest := drop (Z.to_nat offset) (data ++ more)).
    assert (length rest <= length (data ++ more))%nat by (unfold rest; rewrite length_drop; lia).
    destruct (Nat.le_ge_cases (Z.to_nat count) (Nat.max 1 cap)).
    + by rewrite Nat.min_r.
    + rewrite !take_ge by lia. done.
  - intros q Hq. rewrite O2, O1 by done. change (ps_log s0) with (ps_log s ++ [Called O_TRUNC [file]]).
    rewrite content_trunc. unfold STREQ. by rewrite bool_decide_false.
Qed.
Lemma write_append_pread_witness :
  let K := ex_disk 100 (fun _ => [x7a; x7a]) in
  exists s1 s2, do_internal_write ex_content_env K "/f" [x61; x62] (mk_pstate [] ∅) = (Ret 0, s1) /\
    do_internal_write_append ex_content_env K "/f" [x63] s1 = (Ret 0, s2) /\
    do_pread ex_content_env K "/f" 5 1 s2 = (Ret (Some [x62; x63]), s2).
Proof.
  intros K. destruct (write_append_pread ex_content_env K "/f" [x61; x62] [x63] (mk_pstate [] ∅)) as (s1 & s2 & E1 & E2 & E3 & _).
  - apply ex_disk_ok.
  - intros h off. exists 100%nat. split; [done|cbn; lia].
  - exists s1, s2. split; [exact E1|]. split; [exact E2|]. apply (E3 5 1); unfold GUESTFS_MESSAGE_MAX; lia.
Defined.

(** * mkdir_p *)

(** The path of a list of components. *)
Definition path_of (comps : list string) : string := foldr (fun c p => "/" +:+ c +:+ p) "" comps.
Definition comp_ok (c : string) : Prop := c <> "" /\ no_sep "/" c.

(** mkdir (2) and lstat on a tree in which everything that exists is a
    directory and the root exists: mkdir fails with EEXIST on a directory, with
    ENOENT when the parent does not exist, and succeeds otherwise; directories
    stay. *)
Class MkdirTree (E : denv) (W : file_world) (isdir : list action -> list string -> bool) : Prop := {
  tree_root : forall h, isdir h [] = true;
  tree_parent : forall h l c, comp_ok c -> isdir h (l ++ [c]) = true -> isdir h l = true;
  tree_lstat : forall h l, isdir h l = true ->
    exists st, fw_lstat W h (sysroot_path (sysroot E) (path_of l)) = inr st /\ S_ISDIR (st_mode st) = true;
  tree_exists : forall h l, isdir h l = true -> ev_call E h "chroot mkdir" [path_of l; "0777"] = Some EEXIST;
  tree_missing : forall h l c, comp_ok c -> isdir h l = false ->
    ev_call E h "chroot mkdir" [path_of (l ++ [c]); "0777"] = Some ENOENT;
  tree_mkdir : forall h l c, comp_ok c -> isdir h l = true -> isdir h (l ++ [c]) = false ->
    ev_call E h "chroot mkdir" [path_of (l ++ [c]); "0777"] = None /\
    isdir (h ++ [Called "chroot mkdir" [path_of (l ++ [c]); "0777"]]) (l ++ [c]) = true;
  tree_stays : forall h l args, isdir h l = true -> isdir (h ++ [Called "chroot mkdir" args]) l = true
}.

Lemma path_of_snoc l c : path_of (l ++ [c]) = path_of l +:+ "/" +:+ c.
Proof.
  induction l as [|d l IH]; cbn [app path_of foldr]; [by rewrite str_app_nil_r|]. fold (path_of (l ++ [c])). fold (path_of l).
  by rewrite IH, !str_app_assoc.
Qed.
Lemma strrchr_slash_none c : no_sep "/" c -> strrchr_slash c = None.
Proof.
  unfold no_sep. induction c as [|d c IH]; [done|]. cbn. intros [Hd Hc]%andb_prop. rewrite (IH Hc).
  apply negb_true_iff in Hd. by rewrite Hd.
Qed.
Lemma parent_snoc l c : no_sep "/" c -> parent (path_of (l ++ [c])) = path_of l.
Proof.
  intros Hc. rewrite path_of_snoc. unfold parent.
  assert (forall a, strrchr_slash (a +:+ "/" +:+ c) = Some (a, "/" +:+ c)) as H; [|by rewrite H].
  induction a as [|d a IH]; [cbn; by rewrite strrchr_slash_none|]. rewrite str_app_cons. cbn [strrchr_slash]. by rewrite IH.
Qed.
Lemma path_of_not_root l c : comp_ok c -> STREQ (path_of (l ++ [c])) "/" = false.
Proof.
  intros [Hc _]. rewrite path_of_snoc. unfold STREQ. apply bool_decide_eq_false. intros H.
  apply (f_equal String.length) in H. rewrite !str_length_app in H. destruct c; [done|]. cbn in H. lia.
Qed.

Section mkdir_p.
Context (E : denv) (W : file_world) (isdir : list action -> list string -> bool) `{!MkdirTree E W isdir}.

(** [s'] is [s] after directories were made. *)
Definition grown (s s' : pstate) : Prop := forall l, isdir (ps_log s) l = true -> isdir (ps_log s') l = true.

Lemma mkdir_exists_ok l s : isdir (ps_log s) l = true -> mkdir_exists E W (path_of l) s = (Ret (0, 0), s).
Proof using MkdirTree0.
  intros H. destruct (tree_lstat (ps_log s) l H) as (st & Hl & Hd). unfold mkdir_exists, lstat, gets, bind.
  rewrite Hl. cbn. by rewrite Hd.
Qed.
Lemma recursive_mkdir_works comps : Forall comp_ok comps -> comps <> [] -> forall fuel s, (length comps <= fuel)%nat ->
  exists s', recursive_mkdir E W fuel (path_of comps) s = (Ret (0, 0), s') /\
    isdir (ps_log s') comps = true /\ grown s s'.
Proof using MkdirTree0.
  induction comps as [|c l IH] using rev_ind; [done|]. intros Hok _ fuel s Hf.
  apply Forall_app in Hok as [Hl Hc]. inversion Hc as [|? ? Hc' _]; subst. rewrite length_app in Hf. cbn in Hf.
  destruct fuel as [|fuel]; [lia|]. set (p := path_of (l ++ [c])).
  assert (forall s0 : pstate, sys_mkdir E p s0 = (Ret (ev_call E (ps_log s0) "chroot mkdir" [p; "0777"]),
    s0 <| ps_log ::= (fun h => h ++ [Called "chroot mkdir" [p; "0777"]]) |>)) as Hsys by done.
  assert (forall s0 : pstate, grown s0 (s0 <| ps_log ::= (fun h => h ++ [Called "chroot mkdir" [p; "0777"]]) |>)) as Hgrow
    by (intros s0 m Hm; by apply tree_stays).
  cbn [recursive_mkdir]. rewrite (bind_Ret _ _ _ _ _ (Hsys s)). set (s1 := s <| ps_log ::= _ |>).
  destruct (isdir (ps_log s) (l ++ [c])) eqn:Ed.
  { unfold p at 1. rewrite (tree_exists _ _ Ed). cbn [Z.eqb]. exists s1.
    pose proof (Hgrow s (l ++ [c]) Ed) as Ed1. split; [apply (mkdir_exists_ok (l ++ [c]) s1 Ed1)|]. split; [done|apply Hgrow]. }
  destruct (isdir (ps_log s) l) eqn:El.
  { unfold p at 1. destruct (tree_mkdir _ _ _ Hc' El Ed) as [-> Hd]. exists s1. split; [done|]. split; [exact Hd|apply Hgrow]. }
  unfold p at 1. rewrite (tree_missing _ _ c Hc' El).
  change (ENOENT =? EEXIST) with false. change (ENOENT =? ENOENT) with true. cbv iota.
  unfold p at 1. rewrite path_of_not_root by done. unfold p at 1. rewrite parent_snoc by apply Hc'.
  assert (l <> []) as Hne by (intros ->; by rewrite tree_root in El).
  destruct (IH Hl Hne fuel s1 ltac:(lia)) as (s2 & E2 & D2 & G2). rewrite (bind_Ret _ _ _ _ _ E2). cbn [Z.eqb negb].
  rewrite (bind_Ret _ _ _ _ _ (Hsys s2)). set (s3 := s2 <| ps_log ::= _ |>). exists s3.
  assert (grown s s3) as G3 by (intros m Hm; apply Hgrow, G2, Hgrow, Hm).
  destruct (isdir (ps_log s2) (l ++ [c])) eqn:Ed2.
  - unfold p at 1. rewrite (tree_exists _ _ Ed2). cbn [Z.eqb]. pose proof (Hgrow s2 (l ++ [c]) Ed2) as Ed3.
    split; [apply (mkdir_exists_ok (l ++ [c]) s3 Ed3)|done].
  - unfold p at 1. destruct (tree_mkdir _ _ _ Hc' D2 Ed2) as [-> Hd]. done.
Qed.
Lemma isdir_prefix h l k : Forall comp_ok k -> isdir h (l ++ k) = true -> isdir h l = true.
Proof using MkdirTree0.
  induction k as [|c k IH] using rev_ind; [by rewrite app_nil_r|]. rewrite app_assoc. intros [Hk Hc]%Forall_app H.
  inversion Hc; subst. apply IH; [done|]. by apply (tree_parent h _ c).
Qed.
End mkdir_p.

Lemma path_of_length comps : (length comps <= String.length (path_of comps))%nat.
Proof.
  induction comps as [|c l IH]; [done|]. cbn [path_of foldr length]. fold (path_of l). rewrite !str_length_app. cbn [String.length]. lia.
Qed.

(** mkdir_p ends and makes the directory with all its parents: on a tree where mkdir
    behaves as documented, for every path of at least one component, it returns 0, afterwards
    the path and each path above it is a directory, and the directories that were there still
    are. *)
Theorem mkdir_p_makes (E : denv) (W : file_world) (isdir : list action -> list string -> bool) (comps : list string) (s : pstate) :
  MkdirTree E W isdir -> Forall comp_ok comps -> comps <> [] ->
  exists s', do_mkdir_p E W (path_of comps) s = (Ret 0, s') /\
    (forall l k, comps = l ++ k -> isdir (ps_log s') l = true) /\
    (forall l, isdir (ps_log s) l = true -> isdir (ps_log s') l = true).
Proof.
  intros HT Hok Hne. destruct (recursive_mkdir_works E W isdir comps Hok Hne (String.length (path_of comps)) s) as (s' & E1 & D1 & G1).
  { apply path_of_length. }
  exists s'. split_and!; [|intros l k ->; apply Forall_app in Hok as [_ Hk]; by eapply isdir_prefix|done].
  unfold do_mkdir_p. by rewrite (bind_Ret _ _ _ _ _ E1).
Qed.

(** A tree that starts with the root alone. *)
Definition made (h : list action) : list string :=
  foldl (fun S a => match a with
    | Called f (p :: _) => if STREQ f "chroot mkdir" && (STREQ (parent p) "" || bool_decide (parent p ∈ S)) then p :: S else S
    | _ => S
    end) [] h.
Definition made_dir (h : list action) (p : string) : bool := STREQ p "" || bool_decide (p ∈ made h).
Definition ex_tree_env : denv :=
  mk_denv (fun _ _ => printing "") (fun _ _ => inr 0)
    (fun h _ args => match args with
       | p :: _ => if made_dir h p then Some EEXIST else if made_dir h (parent p) then None else Some ENOENT
       | [] => None
       end)
    (ev_fs ex_content_env) (fun _ => Some []) (fun _ _ => 0) (fun _ => "") "/sysroot".
Definition ex_file_world : file_world :=
  mk_file_world (fun _ _ => inl ENOENT) (fun _ _ => inr (mk_statbuf 16877 0 0 0)) (fun _ _ => inl ENOENT) 3 (fun _ _ => inl ENOENT).

Lemma made_snoc h f p args : made (h ++ [Called f (p :: args)]) =
  if STREQ f "chroot mkdir" && made_dir h (parent p) then p :: made h else made h.
Proof. unfold made_dir, made. by rewrite foldl_app. Qed.
Lemma made_parent h p : p ∈ made h -> made_dir h (parent p) = true.
Proof.
  induction h as [|a h IH] using rev_ind; [by intros ?%not_elem_of_nil|].
  assert (forall q, made_dir h q = true -> made_dir (h ++ [a]) q = true) as Hmono.
  { intros q. unfold made_dir, made. rewrite foldl_app. fold (made h). cbn [foldl]. intros [Hq|Hq]%orb_prop; [by rewrite Hq|].
    apply orb_true_iff. right. apply bool_decide_eq_true in Hq. apply bool_decide_eq_true.
    destruct a as [| | |f [|x args]| |]; try done. case_match; [by right|done]. }
  destruct a as [| | |f [|x args]| |]; try (unfold made at 1; rewrite foldl_app; intros Hp; by apply Hmono, IH).
  rewrite made_snoc. destruct (STREQ f _ && made_dir h (parent x)) eqn:Ex.
  - intros [->|Hp]%elem_of_cons; [|by apply Hmono, IH]. by apply andb_prop in Ex as [_ Ex]; apply Hmono.
  - intros Hp. by apply Hmono, IH.
Qed.
#[export] Instance ex_tree : MkdirTree ex_tree_env ex_file_world (fun h l => made_dir h (path_of l)).
Proof.
  constructor.
  - done.
  - intros h l c [_ Hc] H. unfold made_dir in H. apply orb_prop in H as [H|H].
    + rewrite path_of_snoc in H. unfold STREQ in H. apply bool_decide_eq_true in H. by destruct (path_of l).
    + apply bool_decide_eq_true, made_parent in H. by rewrite parent_snoc in H.
  - intros h l _. by eexists.
  - intros h l H. cbn. by rewrite H.
  - intros h l c [Hne Hc] H. cbn [ev_call ex_tree_env]. rewrite parent_snoc, H by done.
    destruct (made_dir h (path_of (l ++ [c]))) eqn:Hd; [|done]. exfalso. apply orb_prop in Hd as [Hd|Hd].
    + rewrite path_of_snoc in Hd. unfold STREQ in Hd. apply bool_decide_eq_true in Hd. by destruct (path_of l).
    + apply bool_decide_eq_true, made_parent in Hd. rewrite parent_snoc in Hd by done. congruence.
  - intros h l c [_ Hc] Hl Hd. cbn [ev_call ex_tree_env]. rewrite Hd, parent_snoc, Hl by done. split; [done|].
    unfold made_dir at 1. rewrite made_snoc, parent_snoc, Hl by done. change ((STREQ "chroot mkdir" "chroot mkdir")) with true. cbv iota.
    apply orb_true_iff. right. apply bool_decide_eq_true. by left.
  - intros h l args [H|H]%orb_prop; apply orb_true_iff; [by left|right]. apply bool_decide_eq_true in H. apply bool_decide_eq_true.
    destruct args as [|p args]; [unfold made; by rewrite foldl_app|]. rewrite made_snoc. case_match; [by right|done].
Qed.
Lemma mkdir_p_makes_witness : exists s',
  do_mkdir_p ex_tree_env ex_file_world "/var/log/app" (mk_pstate [] ∅) = (Ret 0, s') /\
  made_dir (ps_log s') "/var" = true /\ made_dir (ps_log s') "/var/log/app" = true.
Proof.
  destruct (mkdir_p_makes ex_tree_env ex_file_world _ ["var"; "log"; "app"] (mk_pstate [] ∅) ex_tree) as (s' & E1 & D1 & _).
  - by repeat constructor.
  - done.
  - exists s'. split; [exact E1|]. split; [exact (D1 ["var"] _ eq_refl)|exact (D1 ["var"; "log"; "app"] [] eq_refl)].
Defined.
