(* ===== verification/GuestCmd.v ===== *)
(** Running programs of the guest: daemon/command.c. *)

From S2P Require Import Prelude Xdr Protocol Handle Utils Events Conn Command Guestfsd Procs Parted DevParts Filesys Content Files.
From Stdlib Require Import Ascii.

Open Scope Z_scope.
#[local] Arguments String.append : simpl nomatch.
#[local] Notation total := Prelude.total.

(** enable_network; whether lstat succeeds; whether /dev/urandom can be opened,
    and what is read from it. *)
Record shell_world := mk_shell_world {
  sh_network : bool;
  sh_lstat : list action -> string -> bool;
  sh_urandom : list action -> bool * list (option byte)
}.

Record bind_state := mk_bind_state {
  bs_mounted : bool;
  dev_ok : bool; dev_pts_ok : bool; proc_ok : bool; selinux_ok : bool; sys_ok : bool; sys_fs_selinux_ok : bool
}.
Record resolver_state := mk_resolver_state {
  rs_mounted : bool;
  sysroot_etc_resolv_conf : string;
  sysroot_etc_resolv_conf_old : option string
}.

Section command.
Context (E : denv) (W : shell_world).
#[local] Notation path p := (sysroot_path (sysroot E) p).

(** The macros of daemon.h. *)
Definition CHROOT_IN : proc unit :=
  if (0 <? String.length (sysroot E))%nat then log (Called "chroot" [sysroot E]) else ret tt.
Definition CHROOT_OUT : proc unit :=
  if (0 <? String.length (sysroot E))%nat then log (Called "chroot" ["."]) else ret tt.

(** A mount that may fail. *)
Definition try_bind (src dest : string) : proc bool :=
  let* (r, _, _) := commandf E false false 0 ["mount"; "--bind"; src; path dest] in ret (negb (r =? -1)).
Definition bind_mount : proc bind_state :=
  dev_ok <- try_bind "/dev" "/dev" ;;
  dev_pts_ok <- try_bind "/dev/pts" "/dev/pts" ;;
  proc_ok <- try_bind "/proc" "/proc" ;;
  selinux_ok <- try_bind "/sys/fs/selinux" "/selinux" ;;
  sys_ok <- try_bind "/sys" "/sys" ;;
  sys_fs_selinux_ok <- try_bind "/sys/fs/selinux" "/sys/fs/selinux" ;;
  ret (mk_bind_state true dev_ok dev_pts_ok proc_ok selinux_ok sys_ok sys_fs_selinux_ok).

Definition umount_ignore_fail (p : string) : proc unit := commandf E false false 0 ["umount"; p] ;;; ret tt.
Definition umount_if (ok : bool) (dest : string) : proc unit := if ok then umount_ignore_fail (path dest) else ret tt.
Definition free_bind_state (bs : bind_state) : proc unit :=
  if bs_mounted bs then
    umount_if (sys_fs_selinux_ok bs) "/sys/fs/selinux" ;;;
    umount_if (sys_ok bs) "/sys" ;;;
    umount_if (selinux_ok bs) "/selinux" ;;;
    umount_if (proc_ok bs) "/proc" ;;;
    umount_if (dev_pts_ok bs) "/dev/pts" ;;;
    umount_if (dev_ok bs) "/dev"
  else ret tt.

(** [None]: an error was replied. *)
Definition set_up_etc_resolv_conf : proc (option resolver_state) :=
  let conf := path "/etc/resolv.conf" in
  let go (old : option string) : proc (option resolver_state) :=
    commandf E false false 0 ["cp"; "/etc/resolv.conf"; conf] ;;;
    ret (Some (mk_resolver_state true conf old)) in
  found <- gets (fun s => sh_lstat W (ps_log s) conf) ;;
  if found : bool then
    r <- (fun s => (let '(ok, urandom) := sh_urandom W (ps_log s) in
                    random_name ok urandom (snprintf (String.length (sysroot E) + 32) (sysroot E +:+ "/etc/XXXXXXXX")), s)) ;;
    match r with
    | None => pfail E "random_name" "random_name" None
    | Some old =>
        e <- sys E "rename" [conf; old] ;;
        match e with
        | Some e => perror E e ("rename: " +:+ conf +:+ " to " +:+ old) None
        | None => go (Some old)
        end
    end
  else go None.
(** Failures are only printed. *)
Definition free_resolver_state (rs : resolver_state) : proc unit :=
  if rs_mounted rs then
    sys E "unlink" [sysroot_etc_resolv_conf rs] ;;;
    match sysroot_etc_resolv_conf_old rs with
    | Some old => sys E "rename" [old; sysroot_etc_resolv_conf rs] ;;; ret tt
    | None => ret tt
    end
  else ret tt.

Definition no_resolver : resolver_state := mk_resolver_state false "" None.
Definition do_command (argv : list string) : proc (option string) :=
  ok <- NEED_ROOT E "do_command" ;;
  if negb ok then ret None else
  match argv with
  | [] => fail "passed an empty list" None
  | _ =>
      bind_state <- bind_mount ;;
      rs <- (if sh_network W then set_up_etc_resolv_conf else ret (Some no_resolver)) ;;
      match rs with
      | None => free_bind_state bind_state ;;; ret None
      | Some resolver_state =>
          CHROOT_IN ;;;
          let* (r, out, err) := command_out E argv in
          CHROOT_OUT ;;;
          free_bind_state bind_state ;;;
          free_resolver_state resolver_state ;;;
          if r =? -1 then fail (fmt_s err) None else ret (Some (default "" out))
      end
  end.
Definition do_command_lines (argv : list string) : proc (option (list string)) :=
  out <- do_command argv ;;
  ret (split_lines <$> out).
Definition do_sh (cmd : string) : proc (option string) := do_command ["/bin/sh"; "-c"; cmd].
Definition do_sh_lines (cmd : string) : proc (option (list string)) := do_command_lines ["/bin/sh"; "-c"; cmd].
End command.

(** * The system as the calls change it *)

(** Whether the daemon is inside the chroot, what is bind-mounted, the last one
    first, and which file is under a name. *)
Record sysview := mk_sysview { v_inside : bool; v_binds : list string; v_files : gmap string string }.

Section view.
Context (E : denv).

Definition succeeds (h : list action) (argv : list string) : bool :=
  match commandvf false false 0 (ev_exec E h argv) with Ret (r, _, _) => negb (r =? -1) | Stop _ => false end.

(** Unmounting counts only for the last mount that is still there, so that a view
    that comes back tells that the order was the opposite one. *)
Definition remove_bind (d : string) (binds : list string) : list string :=
  match binds with
  | top :: binds' => if STREQ top d then binds' else binds
  | [] => []
  end.
(** One call after the calls [h].  What a program does inside the chroot is its
    own; a file that unlink does not find is not there. *)
Definition view_step (h : list action) (v : sysview) (a : action) : sysview :=
  match a with
  | Called "chroot" [d] => mk_sysview (negb (STREQ d ".")) (v_binds v) (v_files v)
  | Ran _ argv =>
      if v_inside v || negb (succeeds h argv) then v
      else match argv with
           | ["mount"; "--bind"; _; d] => mk_sysview false (d :: v_binds v) (v_files v)
           | ["umount"; d] => mk_sysview false (remove_bind d (v_binds v)) (v_files v)
           | ["cp"; src; d] => mk_sysview false (v_binds v) (<[d := "copy of " +:+ src]> (v_files v))
           | _ => v
           end
  | Called "rename" [a; b] =>
      match ev_call E h "rename" [a; b], v_files v !! a with
      | None, Some f => mk_sysview (v_inside v) (v_binds v) (<[b := f]> (delete a (v_files v)))
      | _, _ => v
      end
  | Called "unlink" [a] =>
      match ev_call E h "unlink" [a] with
      | Some e => if e =? ENOENT then mk_sysview (v_inside v) (v_binds v) (delete a (v_files v)) else v
      | None => mk_sysview (v_inside v) (v_binds v) (delete a (v_files v))
      end
  | _ => v
  end.
Fixpoint view_after (h new : list action) (v : sysview) : sysview :=
  match new with
  | [] => v
  | a :: new' => view_after (h ++ [a]) new' (view_step h v a)
  end.
Lemma view_after_snoc new : forall h v a, view_after h (new ++ [a]) v = view_step (h ++ new) (view_after h new v) a.
Proof.
  induction new as [|b new IH]; intros h v a; cbn; [by rewrite app_nil_r|]. by rewrite IH, <- app_assoc.
Qed.
End view.

(** The file names of the guest that the call deals with. *)
Definition resolv_conf (E : denv) : string := sysroot_path (sysroot E) "/etc/resolv.conf".
Definition backup_template (E : denv) : string :=
  snprintf (String.length (sysroot E) + 32) (sysroot E +:+ "/etc/XXXXXXXX").

(** The kernel as seen from [h0], when it is [v0]: the last mount can be unmounted, the file that
    was made can be removed and the backup renamed; lstat tells what is there; the random name is
    not in use. *)
Class Restorable (E : denv) (W : shell_world) (h0 : list action) (v0 : sysview) : Prop := {
  rst_sysroot : starts_with "/" (sysroot E) = true;
  rst_outside : v_inside v0 = false;
  rst_umount new d binds : v_inside (view_after E h0 new v0) = false -> v_binds (view_after E h0 new v0) = d :: binds ->
    succeeds E (h0 ++ new) ["umount"; d] = true;
  rst_unlink h : ev_call E h "unlink" [resolv_conf E] = None \/ ev_call E h "unlink" [resolv_conf E] = Some ENOENT;
  rst_rename h old : ev_call E h "rename" [old; resolv_conf E] = None;
  rst_lstat new : sh_lstat W (h0 ++ new) (resolv_conf E) =
    bool_decide (is_Some (v_files (view_after E h0 new v0) !! resolv_conf E));
  rst_fresh h ok urandom old : sh_urandom W h = (ok, urandom) -> random_name ok urandom (backup_template E) = Ret (Some old) ->
    v_files v0 !! old = None
}.

Section restores.
Context (E : denv) `{!Starts E} (W : shell_world) (h0 : list action) (v0 : sysview).
Definition sees (v : sysview) (s : pstate) : Prop := exists new, ps_log s = h0 ++ new /\ view_after E h0 new v0 = v.
Lemma sees_log v a s : sees v s -> sees (view_step E (ps_log s) v a) (s <| ps_log ::= (fun l => l ++ [a]) |>).
Proof.
  intros (new & Hl & Hv). exists (new ++ [a]). cbn. rewrite Hl, app_assoc. split; [done|]. by rewrite view_after_snoc, Hv.
Qed.

Lemma total_run v argv : total (sees v) (commandf E false false 0 argv)
  (fun x s => exists new, let h := h0 ++ new in view_after E h0 new v0 = v /\
     sees (view_step E h v (Ran 0 argv)) s /\ negb (fst (fst x) =? -1) = succeeds E h argv).
Proof.
  intros s Hs. unfold commandf, run_with.
  destruct (commandvf_returns false false 0 (ev_exec E (ps_log s) argv) (starts_pipe _ _) (starts_fork _ _)) as (r & out & err & Hc & _).
  rewrite Hc. eexists _, _. split; [reflexivity|].
  pose proof (sees_log v (Ran 0 argv) s Hs) as Hs'. destruct Hs as (new & Hl & Hv). exists new. rewrite <- Hl.
  split; [done|]. split; [done|]. unfold succeeds. by rewrite Hc.
Qed.
(** Inside the chroot. *)
Lemma total_inside v argv : v_inside v = true -> total (sees v) (command_out E argv) (fun _ => sees v).
Proof.
  intros Hi s Hs. unfold command_out, commandf, run_with.
  destruct (commandvf_returns true true 0 (ev_exec E (ps_log s) argv) (starts_pipe _ _) (starts_fork _ _)) as (r & out & err & Hc & _).
  rewrite Hc. eexists _, _. split; [reflexivity|]. apply (sees_log _ (Ran 0 argv)) in Hs. cbn [view_step] in Hs. by rewrite Hi in Hs.
Qed.

Definition pushed (ok : bool) (d : string) (v : sysview) : sysview :=
  if ok then mk_sysview false (sysroot_path (sysroot E) d :: v_binds v) (v_files v) else v.
Lemma pushed_outside ok d v : v_inside v = false -> v_inside (pushed ok d v) = false.
Proof. by destruct ok. Qed.
#[local] Hint Resolve pushed_outside : core.

Lemma total_try_bind v src d : v_inside v = false -> total (sees v) (try_bind E src d) (fun ok => sees (pushed ok d v)).
Proof.
  intros Hi. unfold try_bind. eapply total_bind; [apply total_run|]. intros [[r o] e] s (new & _ & Hs & Hr). eexists _, s. split; [reflexivity|].
  cbn [fst] in Hr. rewrite Hr. cbn [view_step] in Hs. rewrite Hi in Hs. unfold pushed. by destruct (succeeds E _ _).
Qed.
Lemma remove_bind_top d l : remove_bind d (d :: l) = l.
Proof. cbn. unfold STREQ. by rewrite bool_decide_true by done. Qed.
Lemma total_umount_if ok d v : Restorable E W h0 v0 -> v_inside v = false ->
  total (sees (pushed ok d v)) (umount_if E ok d) (fun _ => sees v).
Proof.
  intros R Hi. unfold umount_if. destruct ok; [|intros s Hs; by exists tt, s]. unfold umount_ignore_fail.
  eapply total_bind; [apply total_run|]. intros x s (new & Hv & Hs & _). exists tt, s. split; [done|]. cbn [view_step pushed v_inside] in Hs.
  rewrite (rst_umount (W := W) new _ (v_binds v)) in Hs by (by rewrite Hv). cbn [orb negb v_binds v_files] in Hs.
  rewrite remove_bind_top in Hs. destruct v as [i b f]. cbn in *. by subst i.
Qed.

(** What bind_mount has mounted. *)
Definition all_pushed (bs : bind_state) (v : sysview) : sysview :=
  pushed (sys_fs_selinux_ok bs) "/sys/fs/selinux" (pushed (sys_ok bs) "/sys" (pushed (selinux_ok bs) "/selinux"
    (pushed (proc_ok bs) "/proc" (pushed (dev_pts_ok bs) "/dev/pts" (pushed (dev_ok bs) "/dev" v))))).
Lemma total_bind_mount v : v_inside v = false ->
  total (sees v) (bind_mount E) (fun bs s => sees (all_pushed bs v) s /\ bs_mounted bs = true).
Proof.
  intros Hi. unfold bind_mount. do 6 (eapply total_bind; [apply total_try_bind; by auto 10|]; intros ?).
  intros s Hs. eexists _, s. split; [reflexivity|]. by split.
Qed.
Lemma total_free_bind bs v : Restorable E W h0 v0 -> v_inside v = false -> bs_mounted bs = true ->
  total (sees (all_pushed bs v)) (free_bind_state E bs) (fun _ => sees v).
Proof.
  intros R Hi Hm. unfold free_bind_state. rewrite Hm. unfold all_pushed.
  do 5 (eapply total_bind; [apply total_umount_if; by auto 10|]; intros []).
  by apply total_umount_if.
Qed.

(** The files while the guest's file is away under the name [old]. *)
Definition with_files (m : gmap string string) (v : sysview) : sysview := mk_sysview (v_inside v) (v_binds v) m.
Definition away (old : option string) (m m' : gmap string string) : Prop :=
  delete (resolv_conf E) m' = match old with
    | None => m
    | Some o => match m !! resolv_conf E with Some f => <[o := f]> (delete (resolv_conf E) m) | None => m end
    end /\
  match old with Some o => m !! o = None /\ is_Some (m !! resolv_conf E) | None => m !! resolv_conf E = None end.
#[local] Notation held v rs s := (exists m, away (sysroot_etc_resolv_conf_old rs) (v_files v) m /\ sees (with_files m v) s).

Lemma with_files_id v : with_files (v_files v) v = v.
Proof. by destruct v. Qed.

Lemma total_copy v old : v_inside v = false -> forall m, away old (v_files v) m -> m !! resolv_conf E = None ->
  total (sees (with_files m v)) (commandf E false false 0 ["cp"; "/etc/resolv.conf"; resolv_conf E])
    (fun _ s => exists m, away old (v_files v) m /\ sees (with_files m v) s).
Proof.
  intros Hi m [Ha Ho] Hn s Hs. destruct (total_run _ ["cp"; "/etc/resolv.conf"; resolv_conf E] s Hs) as (x & s' & Ex & new & _ & Hs' & _).
  exists x, s'. split; [done|]. cbn [view_step v_inside with_files] in Hs'. rewrite Hi in Hs'. destruct (succeeds E _ _); cbn in Hs'.
  - eexists. split; [|unfold with_files; rewrite Hi; exact Hs']. split; [|done]. by rewrite delete_insert_eq.
  - exists m. by split.
Qed.

Lemma total_set_up v : Restorable E W h0 v0 -> v_inside v = false -> v_files v = v_files v0 ->
  total (sees v) (set_up_etc_resolv_conf E W) (fun r s => match r with
    | None => sees v s
    | Some rs => (rs_mounted rs = true /\ sysroot_etc_resolv_conf rs = resolv_conf E) /\ held v rs s
    end).
Proof.
  intros R Hi Hf s Hs. unfold set_up_etc_resolv_conf. fold (resolv_conf E). cbv zeta. unfold gets, bind at 1.
  assert (sh_lstat W (ps_log s) (resolv_conf E) = bool_decide (is_Some (v_files v !! resolv_conf E))) as ->.
  { destruct Hs as (new & -> & <-). apply (rst_lstat (E := E)). }
  case_bool_decide as Hc.
  - unfold bind at 1. fold (backup_template E). destruct (sh_urandom W (ps_log s)) as [ok urandom] eqn:Eu.
    destruct (random_name ok urandom (backup_template E)) as [[old|]|] eqn:Er.
    + assert (v_files v !! old = None) as Hold by (rewrite Hf; by eapply (rst_fresh (E := E))).
      destruct Hc as [f Hc]. unfold sys, bind at 1. apply (sees_log _ (Called "rename" [resolv_conf E; old])) in Hs. cbn [view_step] in Hs.
      destruct (ev_call E (ps_log s) "rename" [resolv_conf E; old]) as [e|].
      * eexists None, _. split; [reflexivity|]. exact (sees_log _ (Replied _ _) _ Hs).
      * rewrite Hc in Hs. assert (old <> resolv_conf E) as Hne by congruence.
        destruct (total_copy v (Some old) Hi (<[old:=f]> (delete (resolv_conf E) (v_files v)))) with (s := s <| ps_log ::= (fun l => l ++ [Called "rename" [resolv_conf E; old]]) |>)
          as (x & s' & Ex & Hs'); [| |exact Hs|].
        -- split; [|by eauto]. rewrite Hc, delete_insert_ne by done. by rewrite delete_delete_eq.
        -- by rewrite lookup_insert_ne, lookup_delete_eq by done.
        -- rewrite (bind_Ret _ _ _ _ _ Ex). eexists _, s'. split; [reflexivity|]. by split.
    + eexists None, _. split; [reflexivity|]. exact (sees_log _ (Replied _ _) _ Hs).
    + exfalso. unfold random_name in Er. destruct ok; [|done]. cbn in Er.
      assert (backup_template E = sysroot E +:+ String "/" "etc" +:+ String "/" "XXXXXXXX") as Hb.
      { unfold backup_template. rewrite snprintf_id; [done|]. rewrite str_length_app. cbn. lia. }
      rewrite Hb, <- str_app_assoc, strrchr_slash_app in Er by done. by destruct (random_fill _ _).
  - destruct (total_copy v None Hi (v_files v)) with (s := s) as (x & s' & Ex & Hs').
    + split; [|by apply eq_None_not_Some]. apply delete_id. by apply eq_None_not_Some.
    + by apply eq_None_not_Some.
    + by rewrite with_files_id.
    + rewrite (bind_Ret _ _ _ _ _ Ex). eexists _, s'. split; [reflexivity|]. by split.
Qed.

Lemma total_free_resolver v rs : Restorable E W h0 v0 ->
  rs_mounted rs = true /\ sysroot_etc_resolv_conf rs = resolv_conf E ->
  total (fun s => held v rs s) (free_resolver_state E rs) (fun _ => sees v).
Proof.
  intros R [Hm Hc] s (m & [Ha Ho] & Hs). unfold free_resolver_state. rewrite Hm, Hc. unfold sys at 1, bind at 1.
  apply (sees_log _ (Called "unlink" [resolv_conf E])) in Hs.
  set (s1 := s <| ps_log ::= _ |>) in *.
  assert (sees (with_files (delete (resolv_conf E) m) v) s1) as Hs1.
  { cbn [view_step] in Hs. by destruct (rst_unlink (E := E) (ps_log s)) as [Hu|Hu]; rewrite Hu in Hs. }
  clear Hs. rewrite Ha in Hs1. destruct (sysroot_etc_resolv_conf_old rs) as [old|]; [|exists tt, s1; split; [done|]; by rewrite with_files_id in Hs1].
  destruct Ho as [Ho [f Hf]]. rewrite Hf in Hs1. unfold sys, bind. eexists tt, _. split; [reflexivity|].
  apply (sees_log _ (Called "rename" [old; resolv_conf E])) in Hs1. cbn [view_step] in Hs1. rewrite (rst_rename (E := E)) in Hs1.
  cbn [with_files v_files] in Hs1. rewrite lookup_insert_eq in Hs1. cbn [v_inside v_binds] in Hs1.
  assert (old <> resolv_conf E) as Hne by congruence.
  rewrite delete_insert_id, insert_delete_id in Hs1; [by destruct v|done|by rewrite lookup_delete_ne].
Qed.

Lemma total_chroot v : Restorable E W h0 v0 -> v_inside v = false ->
  total (sees v) (CHROOT_IN E) (fun _ => sees (mk_sysview true (v_binds v) (v_files v))) /\
  total (sees (mk_sysview true (v_binds v) (v_files v))) (CHROOT_OUT E) (fun _ => sees v).
Proof.
  intros R Hi. pose proof (rst_sysroot (E := E)) as Hr. unfold CHROOT_IN, CHROOT_OUT. destruct (sysroot E) as [|c r] eqn:Es; [done|].
  cbn [String.length Nat.ltb]. cbn in Hr. apply Ascii.eqb_eq in Hr as ->.
  split; intros s Hs; eexists tt, _; (split; [reflexivity|]).
  - exact (sees_log _ (Called "chroot" [String "/" r]) _ Hs).
  - apply (sees_log _ (Called "chroot" ["."])) in Hs. cbn in Hs. destruct v as [i b f]. cbn in *. by subst i.
Qed.
End restores.

Lemma all_pushed_files E bs m v : all_pushed E bs (with_files m v) = with_files m (all_pushed E bs v).
Proof.
  unfold all_pushed. assert (forall ok d w, pushed E ok d (with_files m w) = with_files m (pushed E ok d w)) as H by (by intros []).
  by rewrite !H.
Qed.
Lemma total_inner E `{!Starts E} W h0 v0 bs v argv {A} (k : Z -> option string -> option string -> proc A) Q :
  Restorable E W h0 v0 -> v_inside v = false -> bs_mounted bs = true -> (forall r out err, total (sees E h0 v0 v) (k r out err) Q) ->
  total (sees E h0 v0 (all_pushed E bs v))
    (CHROOT_IN E ;;; let* (r, out, err) := command_out E argv in CHROOT_OUT E ;;; free_bind_state E bs ;;; k r out err) Q.
Proof.
  intros R Hi Hm Hk. assert (v_inside (all_pushed E bs v) = false) as Hi1 by (unfold all_pushed, pushed; by repeat case_match).
  destruct (total_chroot E W h0 v0 _ R Hi1) as [Hin Hout]. eapply total_bind; [exact Hin|]. intros ?.
  eapply total_bind; [by apply total_inside|]. intros [[r out] err]. eapply total_bind; [exact Hout|]. intros ?.
  eapply total_bind; [by eapply total_free_bind|]. intros ?. apply Hk.
Qed.

(** * Replies *)

Section replies.
Context (E : denv) `{!Starts E} (W : shell_world).
Lemma quiet_try_bind src d : quiet (try_bind E src d).
Proof. apply quiet_bind; [auto with quiet|]. intros [[r o] e]. apply quiet_ret. Qed.
Lemma quiet_umount_if ok d : quiet (umount_if E ok d).
Proof. destruct ok; [|apply quiet_ret]. apply quiet_bind; [auto with quiet|]. intros x. apply quiet_ret. Qed.
Lemma quiet_bind_mount : quiet (bind_mount E).
Proof. unfold bind_mount. do 6 (apply quiet_bind; [apply quiet_try_bind|]; intros ?). apply quiet_ret. Qed.
Lemma quiet_free_bind bs : quiet (free_bind_state E bs).
Proof.
  unfold free_bind_state. destruct (bs_mounted bs); [|apply quiet_ret].
  do 5 (apply quiet_bind; [apply quiet_umount_if|]; intros ?). apply quiet_umount_if.
Qed.
Lemma quiet_free_resolver rs : quiet (free_resolver_state E rs).
Proof.
  unfold free_resolver_state. destruct (rs_mounted rs); [|apply quiet_ret]. apply quiet_bind; [auto with quiet|]. intros ?.
  destruct (sysroot_etc_resolv_conf_old rs); [|apply quiet_ret]. apply quiet_bind; [auto with quiet|]. intros ?. apply quiet_ret.
Qed.
Lemma quiet_CHROOT_IN : quiet (CHROOT_IN E).
Proof. unfold CHROOT_IN. destruct (_ <? _)%nat; [by apply quiet_log|apply quiet_ret]. Qed.
Lemma quiet_CHROOT_OUT : quiet (CHROOT_OUT E).
Proof. unfold CHROOT_OUT. destruct (_ <? _)%nat; [by apply quiet_log|apply quiet_ret]. Qed.
Lemma backup_template_eq : backup_template E = (sysroot E +:+ "/etc") +:+ String "/" "XXXXXXXX".
Proof. unfold backup_template. rewrite snprintf_id; [by rewrite str_app_assoc|]. rewrite str_length_app. cbn. lia. Qed.
Lemma random_backup ok urandom : exists r, random_name ok urandom (backup_template E) = Ret r.
Proof.
  unfold random_name. destruct ok; [|by eexists]. cbn. rewrite backup_template_eq, strrchr_slash_app by done. by eexists.
Qed.
Lemma set_up_one_reply ub : one_reply ub ptr_failed (set_up_etc_resolv_conf E W).
Proof.
  unfold set_up_etc_resolv_conf. eapply emits_quiet; [auto with quiet|]. intros [|]; [|emits].
  eapply emits_quiet; [|emits]. apply quiet_intro. intros s. fold (backup_template E). destruct (sh_urandom W (ps_log s)) as [ok urandom].
  destruct (random_backup ok urandom) as [r ->]. eexists r, s, []. by rewrite app_nil_r.
Qed.
Lemma do_command_one_reply ub argv : one_reply ub ptr_failed (do_command E W argv).
Proof.
  unfold do_command. eapply emits_call; [by apply NEED_ROOT_one_reply|emits|]. intros [] ?; [|done]. cbn [negb].
  destruct argv as [|a argv]; [emits|]. eapply emits_quiet; [apply quiet_bind_mount|]. intros bs.
  assert (one_reply ub ptr_failed (if sh_network W then set_up_etc_resolv_conf E W else ret (Some no_resolver))) as Hs
    by (destruct (sh_network W); [apply set_up_one_reply|by apply emits_ret]).
  eapply emits_bind; [exact Hs|]. intros [rs|] n ->.
  - eapply emits_quiet; [apply quiet_CHROOT_IN|]. intros _. eapply emits_quiet; [auto with quiet|]. intros [[r out] err].
    eapply emits_quiet; [apply quiet_CHROOT_OUT|]. intros _. eapply emits_quiet; [apply quiet_free_bind|]. intros _.
    eapply emits_quiet; [apply quiet_free_resolver|]. intros _. emits.
  - eapply emits_quiet; [apply quiet_free_bind|]. emits.
Qed.
Lemma do_command_lines_one_reply ub argv : one_reply ub ptr_failed (do_command_lines E W argv).
Proof.
  unfold do_command_lines. eapply emits_bind; [apply do_command_one_reply|]. intros r n ->. apply emits_ret. by destruct r.
Qed.
End replies.

(** * Theorems *)


(** * Examples *)

(** Every program succeeds; a root file system is mounted. *)
Definition ex_shell_env : denv :=
  mk_denv (fun _ _ => printing "uid=0") (fun _ _ => inr 0) (fun _ _ _ => None)
    (fun _ => mk_dev_fs (fun _ => None) (fun _ => None) (fun _ => false) 0)
    (fun _ => Some [("/dev/sda1", "/sysroot")]) (fun _ _ => 0) (fun _ => "") "/sysroot".
#[export] Instance ex_shell_starts : Starts ex_shell_env.
Proof. split; try done. Qed.
Definition ex_shell_view : sysview := mk_sysview false [] {["/sysroot/etc/resolv.conf" := "guest"]}.
Definition ex_shell : shell_world := {|
  sh_network := true;
  sh_lstat h p := bool_decide (is_Some (v_files (view_after ex_shell_env [] h ex_shell_view) !! p));
  sh_urandom _ := (true, Some <$> [x00; x01; x02; x03; x04; x05; x06; x07])
|}.
#[export] Instance ex_restorable : Restorable ex_shell_env ex_shell [] ex_shell_view.
Proof.
  split; try done.
  - by left.
  - intros h ok urandom old [= <- <-]. vm_compute. by intros [= <-].
Qed.

(** What is done, in order. *)
Definition ex_binds : list (string * string) :=
  [("/dev", "/sysroot/dev"); ("/dev/pts", "/sysroot/dev/pts"); ("/proc", "/sysroot/proc"); ("/sys/fs/selinux", "/sysroot/selinux");
   ("/sys", "/sysroot/sys"); ("/sys/fs/selinux", "/sysroot/sys/fs/selinux")].
Lemma command_example : exists s', do_sh ex_shell_env ex_shell "id" ex_pstate = (Ret (Some "uid=0"), s') /\ ps_log s' =
  ((fun b => Ran 0 ["mount"; "--bind"; fst b; snd b]) <$> ex_binds) ++
  [Called "rename" ["/sysroot/etc/resolv.conf"; "/sysroot/etc/01234567"]; Ran 0 ["cp"; "/etc/resolv.conf"; "/sysroot/etc/resolv.conf"];
   Called "chroot" ["/sysroot"]; Ran 0 ["/bin/sh"; "-c"; "id"]; Called "chroot" ["."]] ++
  ((fun b => Ran 0 ["umount"; snd b]) <$> rev ex_binds) ++
  [Called "unlink" ["/sysroot/etc/resolv.conf"]; Called "rename" ["/sysroot/etc/01234567"; "/sysroot/etc/resolv.conf"]].
Proof. eexists. split; vm_compute; reflexivity. Qed.
