(* ===== verification/Xfs.v ===== *)
(** XFS: daemon/xfs.c.  The parser of xfs_info is proved against the text that
    the tool prints by evaluating it on that text with the values left open
    ([line], [sym_find]). *)

From S2P Require Import Prelude Xdr Protocol Handle Utils Events Conn Command Guestfsd Procs Parted DevParts Filesys.
From Stdlib Require Import Ascii.

Open Scope Z_scope.
#[local] Arguments String.append : simpl nomatch.

(** * Searching *)

(** What follows the first occurrence of [pat]: strstr (s, pat) + strlen (pat). *)
Fixpoint after (pat s : string) : option string :=
  if String.prefix pat s then Some (str_drop (String.length pat) s)
  else match s with EmptyString => None | String _ s' => after pat s' end.

(** Neither space, comma nor equals sign: what split_strdup does not stop at. *)
Definition plain (c : ascii) : bool := negb (Ascii.eqb c " " || Ascii.eqb c "," || Ascii.eqb c "=").

(** strndup (string, strcspn (string, " ,=")) *)
Fixpoint split_strdup (s : string) : string :=
  match s with
  | EmptyString => ""
  | String c s' => if plain c then String c (split_strdup s') else ""
  end.

(** * daemon/xfs.c *)

Record xfsinfo := mk_xfsinfo {
  xfs_mntpoint : option string; xfs_inodesize : Z; xfs_agcount : Z; xfs_agsize : Z; xfs_sectsize : Z; xfs_attr : Z;
  xfs_blocksize : Z; xfs_datablocks : Z; xfs_imaxpct : Z; xfs_sunit : Z; xfs_swidth : Z; xfs_dirversion : Z;
  xfs_dirblocksize : Z; xfs_cimode : Z; xfs_logname : option string; xfs_logblocksize : Z; xfs_logblocks : Z;
  xfs_logversion : Z; xfs_logsectsize : Z; xfs_logsunit : Z; xfs_lazycount : Z; xfs_rtname : option string;
  xfs_rtextsize : Z; xfs_rtblocks : Z; xfs_rtextents : Z
}.
(** -1 in fields of type uint32_t and uint64_t. *)
Definition U32_MINUS1 : Z := 2 ^ 32 - 1.
Definition U64_MINUS1 : Z := 2 ^ 64 - 1.
Definition empty_xfsinfo : xfsinfo :=
  let n := U32_MINUS1 in
  mk_xfsinfo None n n n n n n U64_MINUS1 n n n n n n None n n n n n n None n U64_MINUS1 U64_MINUS1.

(** %u and %lu of sscanf, which go through strtoul. *)
Definition store_uint32 (v : Z) : Z := u32 (if Z.abs v <? 2 ^ 64 then v else 2 ^ 64 - 1).
Definition store_ulong (v : Z) : Z := u64 (if Z.abs v <? 2 ^ 64 then v else 2 ^ 64 - 1).
Definition bad_number (str : string) : string := "cannot parse numeric field from isoinfo: " +:+ str.
Definition parse_with (store : Z -> Z) (str : string) : string + Z :=
  match sscanf str [Conv 10 store] with
  | [r] => inr r
  | _ => inl (bad_number str)
  end.
Definition parse_uint32 : string -> string + Z := parse_with store_uint32.
Definition parse_uint64 : string -> string + Z := parse_with store_ulong.

(** Assignments to the fields. *)
Definition set_mntpoint (v : string) (i : xfsinfo) : xfsinfo := mk_xfsinfo (Some v) (xfs_inodesize i) (xfs_agcount i)
  (xfs_agsize i) (xfs_sectsize i) (xfs_attr i) (xfs_blocksize i) (xfs_datablocks i) (xfs_imaxpct i) (xfs_sunit i)
  (xfs_swidth i) (xfs_dirversion i) (xfs_dirblocksize i) (xfs_cimode i) (xfs_logname i) (xfs_logblocksize i)
  (xfs_logblocks i) (xfs_logversion i) (xfs_logsectsize i) (xfs_logsunit i) (xfs_lazycount i) (xfs_rtname i)
  (xfs_rtextsize i) (xfs_rtblocks i) (xfs_rtextents i).
Definition set_inodesize (v : Z) (i : xfsinfo) : xfsinfo := mk_xfsinfo (xfs_mntpoint i) v (xfs_agcount i) (xfs_agsize
  i) (xfs_sectsize i) (xfs_attr i) (xfs_blocksize i) (xfs_datablocks i) (xfs_imaxpct i) (xfs_sunit i) (xfs_swidth i)
  (xfs_dirversion i) (xfs_dirblocksize i) (xfs_cimode i) (xfs_logname i) (xfs_logblocksize i) (xfs_logblocks i)
  (xfs_logversion i) (xfs_logsectsize i) (xfs_logsunit i) (xfs_lazycount i) (xfs_rtname i) (xfs_rtextsize i)
  (xfs_rtblocks i) (xfs_rtextents i).
Definition set_agcount (v : Z) (i : xfsinfo) : xfsinfo := mk_xfsinfo (xfs_mntpoint i) (xfs_inodesize i) v (xfs_agsize
  i) (xfs_sectsize i) (xfs_attr i) (xfs_blocksize i) (xfs_datablocks i) (xfs_imaxpct i) (xfs_sunit i) (xfs_swidth i)
  (xfs_dirversion i) (xfs_dirblocksize i) (xfs_cimode i) (xfs_logname i) (xfs_logblocksize i) (xfs_logblocks i)
  (xfs_logversion i) (xfs_logsectsize i) (xfs_logsunit i) (xfs_lazycount i) (xfs_rtname i) (xfs_rtextsize i)
  (xfs_rtblocks i) (xfs_rtextents i).
Definition set_agsize (v : Z) (i : xfsinfo) : xfsinfo := mk_xfsinfo (xfs_mntpoint i) (xfs_inodesize i) (xfs_agcount i)
  v (xfs_sectsize i) (xfs_attr i) (xfs_blocksize i) (xfs_datablocks i) (xfs_imaxpct i) (xfs_sunit i) (xfs_swidth i)
  (xfs_dirversion i) (xfs_dirblocksize i) (xfs_cimode i) (xfs_logname i) (xfs_logblocksize i) (xfs_logblocks i)
  (xfs_logversion i) (xfs_logsectsize i) (xfs_logsunit i) (xfs_lazycount i) (xfs_rtname i) (xfs_rtextsize i)
  (xfs_rtblocks i) (xfs_rtextents i).
Definition set_sectsize (v : Z) (i : xfsinfo) : xfsinfo := mk_xfsinfo (xfs_mntpoint i) (xfs_inodesize i) (xfs_agcount
  i) (xfs_agsize i) v (xfs_attr i) (xfs_blocksize i) (xfs_datablocks i) (xfs_imaxpct i) (xfs_sunit i) (xfs_swidth i)
  (xfs_dirversion i) (xfs_dirblocksize i) (xfs_cimode i) (xfs_logname i) (xfs_logblocksize i) (xfs_logblocks i)
  (xfs_logversion i) (xfs_logsectsize i) (xfs_logsunit i) (xfs_lazycount i) (xfs_rtname i) (xfs_rtextsize i)
  (xfs_rtblocks i) (xfs_rtextents i).
Definition set_attr (v : Z) (i : xfsinfo) : xfsinfo := mk_xfsinfo (xfs_mntpoint i) (xfs_inodesize i) (xfs_agcount i)
  (xfs_agsize i) (xfs_sectsize i) v (xfs_blocksize i) (xfs_datablocks i) (xfs_imaxpct i) (xfs_sunit i) (xfs_swidth i)
  (xfs_dirversion i) (xfs_dirblocksize i) (xfs_cimode i) (xfs_logname i) (xfs_logblocksize i) (xfs_logblocks i)
  (xfs_logversion i) (xfs_logsectsize i) (xfs_logsunit i) (xfs_lazycount i) (xfs_rtname i) (xfs_rtextsize i)
  (xfs_rtblocks i) (xfs_rtextents i).
Definition set_blocksize (v : Z) (i : xfsinfo) : xfsinfo := mk_xfsinfo (xfs_mntpoint i) (xfs_inodesize i) (xfs_agcount
  i) (xfs_agsize i) (xfs_sectsize i) (xfs_attr i) v (xfs_datablocks i) (xfs_imaxpct i) (xfs_sunit i) (xfs_swidth i)
  (xfs_dirversion i) (xfs_dirblocksize i) (xfs_cimode i) (xfs_logname i) (xfs_logblocksize i) (xfs_logblocks i)
  (xfs_logversion i) (xfs_logsectsize i) (xfs_logsunit i) (xfs_lazycount i) (xfs_rtname i) (xfs_rtextsize i)
  (xfs_rtblocks i) (xfs_rtextents i).
Definition set_datablocks (v : Z) (i : xfsinfo) : xfsinfo := mk_xfsinfo (xfs_mntpoint i) (xfs_inodesize i)
  (xfs_agcount i) (xfs_agsize i) (xfs_sectsize i) (xfs_attr i) (xfs_blocksize i) v (xfs_imaxpct i) (xfs_sunit i)
  (xfs_swidth i) (xfs_dirversion i) (xfs_dirblocksize i) (xfs_cimode i) (xfs_logname i) (xfs_logblocksize i)
  (xfs_logblocks i) (xfs_logversion i) (xfs_logsectsize i) (xfs_logsunit i) (xfs_lazycount i) (xfs_rtname i)
  (xfs_rtextsize i) (xfs_rtblocks i) (xfs_rtextents i).
Definition set_imaxpct (v : Z) (i : xfsinfo) : xfsinfo := mk_xfsinfo (xfs_mntpoint i) (xfs_inodesize i) (xfs_agcount
  i) (xfs_agsize i) (xfs_sectsize i) (xfs_attr i) (xfs_blocksize i) (xfs_datablocks i) v (xfs_sunit i) (xfs_swidth i)
  (xfs_dirversion i) (xfs_dirblocksize i) (xfs_cimode i) (xfs_logname i) (xfs_logblocksize i) (xfs_logblocks i)
  (xfs_logversion i) (xfs_logsectsize i) (xfs_logsunit i) (xfs_lazycount i) (xfs_rtname i) (xfs_rtextsize i)
  (xfs_rtblocks i) (xfs_rtextents i).
Definition set_sunit (v : Z) (i : xfsinfo) : xfsinfo := mk_xfsinfo (xfs_mntpoint i) (xfs_inodesize i) (xfs_agcount i)
  (xfs_agsize i) (xfs_sectsize i) (xfs_attr i) (xfs_blocksize i) (xfs_datablocks i) (xfs_imaxpct i) v (xfs_swidth i)
  (xfs_dirversion i) (xfs_dirblocksize i) (xfs_cimode i) (xfs_logname i) (xfs_logblocksize i) (xfs_logblocks i)
  (xfs_logversion i) (xfs_logsectsize i) (xfs_logsunit i) (xfs_lazycount i) (xfs_rtname i) (xfs_rtextsize i)
  (xfs_rtblocks i) (xfs_rtextents i).
Definition set_swidth (v : Z) (i : xfsinfo) : xfsinfo := mk_xfsinfo (xfs_mntpoint i) (xfs_inodesize i) (xfs_agcount i)
  (xfs_agsize i) (xfs_sectsize i) (xfs_attr i) (xfs_blocksize i) (xfs_datablocks i) (xfs_imaxpct i) (xfs_sunit i) v
  (xfs_dirversion i) (xfs_dirblocksize i) (xfs_cimode i) (xfs_logname i) (xfs_logblocksize i) (xfs_logblocks i)
  (xfs_logversion i) (xfs_logsectsize i) (xfs_logsunit i) (xfs_lazycount i) (xfs_rtname i) (xfs_rtextsize i)
  (xfs_rtblocks i) (xfs_rtextents i).
Definition set_dirversion (v : Z) (i : xfsinfo) : xfsinfo := mk_xfsinfo (xfs_mntpoint i) (xfs_inodesize i)
  (xfs_agcount i) (xfs_agsize i) (xfs_sectsize i) (xfs_attr i) (xfs_blocksize i) (xfs_datablocks i) (xfs_imaxpct i)
  (xfs_sunit i) (xfs_swidth i) v (xfs_dirblocksize i) (xfs_cimode i) (xfs_logname i) (xfs_logblocksize i)
  (xfs_logblocks i) (xfs_logversion i) (xfs_logsectsize i) (xfs_logsunit i) (xfs_lazycount i) (xfs_rtname i)
  (xfs_rtextsize i) (xfs_rtblocks i) (xfs_rtextents i).
Definition set_dirblocksize (v : Z) (i : xfsinfo) : xfsinfo := mk_xfsinfo (xfs_mntpoint i) (xfs_inodesize i)
  (xfs_agcount i) (xfs_agsize i) (xfs_sectsize i) (xfs_attr i) (xfs_blocksize i) (xfs_datablocks i) (xfs_imaxpct i)
  (xfs_sunit i) (xfs_swidth i) (xfs_dirversion i) v (xfs_cimode i) (xfs_logname i) (xfs_logblocksize i) (xfs_logblocks
  i) (xfs_logversion i) (xfs_logsectsize i) (xfs_logsunit i) (xfs_lazycount i) (xfs_rtname i) (xfs_rtextsize i)
  (xfs_rtblocks i) (xfs_rtextents i).
Definition set_cimode (v : Z) (i : xfsinfo) : xfsinfo := mk_xfsinfo (xfs_mntpoint i) (xfs_inodesize i) (xfs_agcount i)
  (xfs_agsize i) (xfs_sectsize i) (xfs_attr i) (xfs_blocksize i) (xfs_datablocks i) (xfs_imaxpct i) (xfs_sunit i)
  (xfs_swidth i) (xfs_dirversion i) (xfs_dirblocksize i) v (xfs_logname i) (xfs_logblocksize i) (xfs_logblocks i)
  (xfs_logversion i) (xfs_logsectsize i) (xfs_logsunit i) (xfs_lazycount i) (xfs_rtname i) (xfs_rtextsize i)
  (xfs_rtblocks i) (xfs_rtextents i).
Definition set_logname (v : string) (i : xfsinfo) : xfsinfo := mk_xfsinfo (xfs_mntpoint i) (xfs_inodesize i)
  (xfs_agcount i) (xfs_agsize i) (xfs_sectsize i) (xfs_attr i) (xfs_blocksize i) (xfs_datablocks i) (xfs_imaxpct i)
  (xfs_sunit i) (xfs_swidth i) (xfs_dirversion i) (xfs_dirblocksize i) (xfs_cimode i) (Some v) (xfs_logblocksize i)
  (xfs_logblocks i) (xfs_logversion i) (xfs_logsectsize i) (xfs_logsunit i) (xfs_lazycount i) (xfs_rtname i)
  (xfs_rtextsize i) (xfs_rtblocks i) (xfs_rtextents i).
Definition set_logblocksize (v : Z) (i : xfsinfo) : xfsinfo := mk_xfsinfo (xfs_mntpoint i) (xfs_inodesize i)
  (xfs_agcount i) (xfs_agsize i) (xfs_sectsize i) (xfs_attr i) (xfs_blocksize i) (xfs_datablocks i) (xfs_imaxpct i)
  (xfs_sunit i) (xfs_swidth i) (xfs_dirversion i) (xfs_dirblocksize i) (xfs_cimode i) (xfs_logname i) v (xfs_logblocks
  i) (xfs_logversion i) (xfs_logsectsize i) (xfs_logsunit i) (xfs_lazycount i) (xfs_rtname i) (xfs_rtextsize i)
  (xfs_rtblocks i) (xfs_rtextents i).
Definition set_logblocks (v : Z) (i : xfsinfo) : xfsinfo := mk_xfsinfo (xfs_mntpoint i) (xfs_inodesize i) (xfs_agcount
  i) (xfs_agsize i) (xfs_sectsize i) (xfs_attr i) (xfs_blocksize i) (xfs_datablocks i) (xfs_imaxpct i) (xfs_sunit i)
  (xfs_swidth i) (xfs_dirversion i) (xfs_dirblocksize i) (xfs_cimode i) (xfs_logname i) (xfs_logblocksize i) v
  (xfs_logversion i) (xfs_logsectsize i) (xfs_logsunit i) (xfs_lazycount i) (xfs_rtname i) (xfs_rtextsize i)
  (xfs_rtblocks i) (xfs_rtextents i).
Definition set_logversion (v : Z) (i : xfsinfo) : xfsinfo := mk_xfsinfo (xfs_mntpoint i) (xfs_inodesize i)
  (xfs_agcount i) (xfs_agsize i) (xfs_sectsize i) (xfs_attr i) (xfs_blocksize i) (xfs_datablocks i) (xfs_imaxpct i)
  (xfs_sunit i) (xfs_swidth i) (xfs_dirversion i) (xfs_dirblocksize i) (xfs_cimode i) (xfs_logname i)
  (xfs_logblocksize i) (xfs_logblocks i) v (xfs_logsectsize i) (xfs_logsunit i) (xfs_lazycount i) (xfs_rtname i)
  (xfs_rtextsize i) (xfs_rtblocks i) (xfs_rtextents i).
Definition set_logsectsize (v : Z) (i : xfsinfo) : xfsinfo := mk_xfsinfo (xfs_mntpoint i) (xfs_inodesize i)
  (xfs_agcount i) (xfs_agsize i) (xfs_sectsize i) (xfs_attr i) (xfs_blocksize i) (xfs_datablocks i) (xfs_imaxpct i)
  (xfs_sunit i) (xfs_swidth i) (xfs_dirversion i) (xfs_dirblocksize i) (xfs_cimode i) (xfs_logname i)
  (xfs_logblocksize i) (xfs_logblocks i) (xfs_logversion i) v (xfs_logsunit i) (xfs_lazycount i) (xfs_rtname i)
  (xfs_rtextsize i) (xfs_rtblocks i) (xfs_rtextents i).
Definition set_logsunit (v : Z) (i : xfsinfo) : xfsinfo := mk_xfsinfo (xfs_mntpoint i) (xfs_inodesize i) (xfs_agcount
  i) (xfs_agsize i) (xfs_sectsize i) (xfs_attr i) (xfs_blocksize i) (xfs_datablocks i) (xfs_imaxpct i) (xfs_sunit i)
  (xfs_swidth i) (xfs_dirversion i) (xfs_dirblocksize i) (xfs_cimode i) (xfs_logname i) (xfs_logblocksize i)
  (xfs_logblocks i) (xfs_logversion i) (xfs_logsectsize i) v (xfs_lazycount i) (xfs_rtname i) (xfs_rtextsize i)
  (xfs_rtblocks i) (xfs_rtextents i).
Definition set_lazycount (v : Z) (i : xfsinfo) : xfsinfo := mk_xfsinfo (xfs_mntpoint i) (xfs_inodesize i) (xfs_agcount
  i) (xfs_agsize i) (xfs_sectsize i) (xfs_attr i) (xfs_blocksize i) (xfs_datablocks i) (xfs_imaxpct i) (xfs_sunit i)
  (xfs_swidth i) (xfs_dirversion i) (xfs_dirblocksize i) (xfs_cimode i) (xfs_logname i) (xfs_logblocksize i)
  (xfs_logblocks i) (xfs_logversion i) (xfs_logsectsize i) (xfs_logsunit i) v (xfs_rtname i) (xfs_rtextsize i)
  (xfs_rtblocks i) (xfs_rtextents i).
Definition set_rtname (v : string) (i : xfsinfo) : xfsinfo := mk_xfsinfo (xfs_mntpoint i) (xfs_inodesize i)
  (xfs_agcount i) (xfs_agsize i) (xfs_sectsize i) (xfs_attr i) (xfs_blocksize i) (xfs_datablocks i) (xfs_imaxpct i)
  (xfs_sunit i) (xfs_swidth i) (xfs_dirversion i) (xfs_dirblocksize i) (xfs_cimode i) (xfs_logname i)
  (xfs_logblocksize i) (xfs_logblocks i) (xfs_logversion i) (xfs_logsectsize i) (xfs_logsunit i) (xfs_lazycount i)
  (Some v) (xfs_rtextsize i) (xfs_rtblocks i) (xfs_rtextents i).
Definition set_rtextsize (v : Z) (i : xfsinfo) : xfsinfo := mk_xfsinfo (xfs_mntpoint i) (xfs_inodesize i) (xfs_agcount
  i) (xfs_agsize i) (xfs_sectsize i) (xfs_attr i) (xfs_blocksize i) (xfs_datablocks i) (xfs_imaxpct i) (xfs_sunit i)
  (xfs_swidth i) (xfs_dirversion i) (xfs_dirblocksize i) (xfs_cimode i) (xfs_logname i) (xfs_logblocksize i)
  (xfs_logblocks i) (xfs_logversion i) (xfs_logsectsize i) (xfs_logsunit i) (xfs_lazycount i) (xfs_rtname i) v
  (xfs_rtblocks i) (xfs_rtextents i).
Definition set_rtblocks (v : Z) (i : xfsinfo) : xfsinfo := mk_xfsinfo (xfs_mntpoint i) (xfs_inodesize i) (xfs_agcount
  i) (xfs_agsize i) (xfs_sectsize i) (xfs_attr i) (xfs_blocksize i) (xfs_datablocks i) (xfs_imaxpct i) (xfs_sunit i)
  (xfs_swidth i) (xfs_dirversion i) (xfs_dirblocksize i) (xfs_cimode i) (xfs_logname i) (xfs_logblocksize i)
  (xfs_logblocks i) (xfs_logversion i) (xfs_logsectsize i) (xfs_logsunit i) (xfs_lazycount i) (xfs_rtname i)
  (xfs_rtextsize i) v (xfs_rtextents i).
Definition set_rtextents (v : Z) (i : xfsinfo) : xfsinfo := mk_xfsinfo (xfs_mntpoint i) (xfs_inodesize i) (xfs_agcount
  i) (xfs_agsize i) (xfs_sectsize i) (xfs_attr i) (xfs_blocksize i) (xfs_datablocks i) (xfs_imaxpct i) (xfs_sunit i)
  (xfs_swidth i) (xfs_dirversion i) (xfs_dirblocksize i) (xfs_cimode i) (xfs_logname i) (xfs_logblocksize i)
  (xfs_logblocks i) (xfs_logversion i) (xfs_logsectsize i) (xfs_logsunit i) (xfs_lazycount i) (xfs_rtname i)
  (xfs_rtextsize i) (xfs_rtblocks i) v.

(** The fields that the parser assigns, and the assignment of the text after a key. *)
Inductive field :=
    | F_mntpoint | F_inodesize | F_agcount | F_agsize | F_sectsize | F_attr | F_blocksize | F_datablocks |
  F_imaxpct | F_sunit | F_swidth | F_dirversion | F_dirblocksize | F_cimode | F_logname | F_logblocksize |
  F_logblocks | F_logversion | F_logsectsize | F_logsunit | F_lazycount | F_rtname | F_rtblocks | F_rtextents.
Definition put_str (put : string -> xfsinfo -> xfsinfo) (buf : string) (i : xfsinfo) : string + xfsinfo := inr (put buf i).
Definition put_num (parse : string -> string + Z) (put : Z -> xfsinfo -> xfsinfo) (buf : string) (i : xfsinfo) : string + xfsinfo :=
  match parse buf with inl msg => inl msg | inr v => inr (put v i) end.
Definition store (f : field) : string -> xfsinfo -> string + xfsinfo :=
  match f with
  | F_mntpoint => put_str set_mntpoint
  | F_inodesize => put_num parse_uint32 set_inodesize
  | F_agcount => put_num parse_uint32 set_agcount
  | F_agsize => put_num parse_uint32 set_agsize
  | F_sectsize => put_num parse_uint32 set_sectsize
  | F_attr => put_num parse_uint32 set_attr
  | F_blocksize => put_num parse_uint32 set_blocksize
  | F_datablocks => put_num parse_uint64 set_datablocks
  | F_imaxpct => put_num parse_uint32 set_imaxpct
  | F_sunit => put_num parse_uint32 set_sunit
  | F_swidth => put_num parse_uint32 set_swidth
  | F_dirversion => put_num parse_uint32 set_dirversion
  | F_dirblocksize => put_num parse_uint32 set_dirblocksize
  | F_cimode => put_num parse_uint32 set_cimode
  | F_logname => put_str set_logname
  | F_logblocksize => put_num parse_uint32 set_logblocksize
  | F_logblocks => put_num parse_uint32 set_logblocks
  | F_logversion => put_num parse_uint32 set_logversion
  | F_logsectsize => put_num parse_uint32 set_logsectsize
  | F_logsunit => put_num parse_uint32 set_logsunit
  | F_lazycount => put_num parse_uint32 set_lazycount
  | F_rtname => put_str set_rtname
  | F_rtblocks => put_num parse_uint64 set_rtblocks
  | F_rtextents => put_num parse_uint64 set_rtextents
  end.

(** One entry for each [if (p = strstr (lines[i], KEY))]: the key, and the field
    by the section. *)
Definition in_section (l : list (string * field)) (section : option string) : option field :=
  section ≫= (fun s => snd <$> List.find (fun x => STREQ s (fst x)) l).
Definition always (sl : field) (section : option string) : option field := Some sl.
Definition xfs_keys : list (string * (option string -> option field)) := [
  ("meta-data=", always F_mntpoint);
  ("isize=", always F_inodesize);
  ("agcount=", always F_agcount);
  ("agsize=", always F_agsize);
  ("sectsz=", in_section [("meta-data", F_sectsize); ("log", F_logsectsize)]);
  ("attr=", always F_attr);
  ("bsize=", in_section [("data", F_blocksize); ("naming", F_dirblocksize); ("log", F_logblocksize)]);
  ("blocks=", in_section [("data", F_datablocks); ("log", F_logblocks); ("realtime", F_rtblocks)]);
  ("imaxpct=", always F_imaxpct);
  ("sunit=", in_section [("data", F_sunit); ("log", F_logsunit)]);
  ("swidth=", always F_swidth);
  ("naming   =version ", always F_dirversion);
  ("ascii-ci=", always F_cimode);
  ("log      =", always F_logname);
  ("version=", always F_logversion);
  ("lazy-count=", always F_lazycount);
  ("realtime =", always F_rtname);
  ("rtextents=", always F_rtextents)
].

Section xfs.
Context (E : denv).
#[local] Notation path p := (sysroot_path (sysroot E) p).

Definition optgroup_xfs_available : proc bool := gets (fun s => prog_exists (ev_fs E (ps_log s)) "mkfs.xfs").

(** The keys of one line. *)
Fixpoint parse_keys (keys : list (string * (option string -> option field))) (section : option string) (line : string)
    (ret : xfsinfo) : string + xfsinfo :=
  match keys with
  | [] => inr ret
  | (key, sel) :: keys' =>
      match after key line with
      | None => parse_keys keys' section line ret
      | Some p =>
          match sel section with
          | None => parse_keys keys' section line ret
          | Some sl =>
              match store sl (split_strdup p) ret with
              | inl msg => inl msg
              | inr ret => parse_keys keys' section line ret
              end
          end
      end
  end.
Definition new_section (section : option string) (line : string) : option string :=
  match line with
  | String c _ => if c_isalpha c then Some (split_strdup line) else section
  | EmptyString => section
  end.
Fixpoint parse_xfs_lines (keys : list (string * (option string -> option field))) (section : option string) (lines : list string) (ret : xfsinfo) : string + xfsinfo :=
  match lines with
  | [] => inr ret
  | line :: lines' =>
      let section := new_section section line in
      match parse_keys keys section line ret with
      | inl msg => inl msg
      | inr ret => parse_xfs_lines keys section lines' ret
      end
  end.
Definition parse_xfs_info (lines : list string) : proc (option xfsinfo) :=
  match parse_xfs_lines xfs_keys None lines empty_xfsinfo with
  | inl msg => fail msg None
  | inr i =>
      let or_empty o := Some (default "" o) in
      ret (Some (mk_xfsinfo (or_empty (xfs_mntpoint i)) (xfs_inodesize i) (xfs_agcount i) (xfs_agsize i) (xfs_sectsize i)
        (xfs_attr i) (xfs_blocksize i) (xfs_datablocks i) (xfs_imaxpct i) (xfs_sunit i) (xfs_swidth i) (xfs_dirversion i)
        (xfs_dirblocksize i) (xfs_cimode i) (or_empty (xfs_logname i)) (xfs_logblocksize i) (xfs_logblocks i)
        (xfs_logversion i) (xfs_logsectsize i) (xfs_logsunit i) (xfs_lazycount i) (or_empty (xfs_rtname i))
        (xfs_rtextsize i) (xfs_rtblocks i) (xfs_rtextents i)))
  end.
Definition do_xfs_info (pathordevice : string) : proc (option xfsinfo) :=
  let buf := if STRPREFIX pathordevice "/dev/" then pathordevice else path pathordevice in
  let* (r, out, err) := command_out E ["xfs_info"; buf] in
  if r =? -1 then fail (fmt_s err) None
  else parse_xfs_info (split_lines (default "" out)).

(** A number that must not be negative. *)
Definition xfs_num (flag name : string) (size : nat) (prefix : string) (v : option Z) : args :=
  opt_num flag name size " must be >= 0" (fun n => prefix +:+ pretty n) v.
Definition MAX_ARGS : nat := 64.
(** commandv and commandrv of the arguments, when they are all right. *)
Definition run_xfs (prog : string) (a : args) (target : list string) (run : list string -> proc Z) : proc Z :=
  match a with
  | inl e => fail_args E e (-1)
  | inr a => let argv := prog :: a ++ target in check_args MAX_ARGS argv ;;; run argv
  end.
Definition run_named (name : string) (argv : list string) : proc Z :=
  run_or (command_err E argv) (fun err => name +:+ ": " +:+ err).

Record growfs_optargs := mk_growfs_optargs {
  gr_datasec : option bool; gr_logsec : option bool; gr_rtsec : option bool; gr_datasize : option Z; gr_logsize : option Z;
  gr_rtsize : option Z; gr_rtextsize : option Z; gr_maxpct : option Z
}.
Definition do_xfs_growfs (p : string) (o : growfs_optargs) : proc Z :=
  run_xfs "xfs_growfs" (all_args [
    opt_flag "-d" (gr_datasec o); opt_flag "-l" (gr_logsec o); opt_flag "-r" (gr_rtsec o);
    xfs_num "-D" "datasize" 64 "" (gr_datasize o); xfs_num "-L" "logsize" 64 "" (gr_logsize o);
    xfs_num "-R" "rtsize" 64 "" (gr_rtsize o); xfs_num "-e" "rtextsize" 64 "" (gr_rtextsize o);
    xfs_num "-m" "maxpct" 32 "" (gr_maxpct o)]) [path p] (run_named p).

Record admin_optargs := mk_admin_optargs {
  ad_extunwritten : option bool; ad_imgfile : option bool; ad_v2log : option bool; ad_projid32bit : option bool;
  ad_lazycounter : option bool; ad_label : option string; ad_uuid : option string
}.
Definition do_xfs_admin (device : string) (o : admin_optargs) : proc Z :=
  run_xfs "xfs_admin" (all_args [
    opt_flag "-e" (ad_extunwritten o); opt_flag "-f" (ad_imgfile o); opt_flag "-j" (ad_v2log o); opt_flag "-p" (ad_projid32bit o);
    opt_switch "-c" "1" "0" (ad_lazycounter o); opt_str "-L" (ad_label o); opt_str "-U" (ad_uuid o)]) [device] (run_named device).

Record repair_optargs := mk_repair_optargs {
  rp_forcelogzero : option bool; rp_nomodify : option bool; rp_noprefetch : option bool; rp_forcegeometry : option bool;
  rp_maxmem : option Z; rp_ihashsize : option Z; rp_bhashsize : option Z; rp_agstride : option Z;
  rp_logdev : option string; rp_rtdev : option string
}.
(** The result is the exit status. *)
Definition do_xfs_repair (device : string) (o : repair_optargs) : proc Z :=
  run_xfs "xfs_repair" (all_args [
    opt_flag "-L" (rp_forcelogzero o); opt_flag "-n" (rp_nomodify o); opt_flag "-P" (rp_noprefetch o);
    inr (match rp_forcegeometry o with Some true => ["-o"; "force_geometry"] | _ => [] end);
    xfs_num "-m" "maxmem" 64 "" (rp_maxmem o); xfs_num "-o" "ihashsize" 70 "ihash=" (rp_ihashsize o);
    xfs_num "-o" "bhashsize" 70 "bhash=" (rp_bhashsize o); xfs_num "-o" "agstride" 74 "ag_stride=" (rp_agstride o);
    opt_str "-l" (rp_logdev o); opt_str "-r" (rp_rtdev o)])
    (if STRPREFIX device "/dev/" then [device] else ["-f"; path device])
    (fun argv => let* (r, err) := commandr_err E argv in
       if r =? -1 then fail (device +:+ ": " +:+ fmt_s err) (-1) else ret r).
End xfs.

(** * Text with open values *)

(** A character, the text of a value, or one or more spaces. *)
Inductive sym := C (c : ascii) | V (n : nat) | W (n : nat).
Inductive answer := Yes (rest : list sym) | No | Unknown.

Fixpoint lit (s : string) : list sym := match s with EmptyString => [] | String c s' => C c :: lit s' end.

(** [f] holds of [p] and of what is left of it after any characters of a class. *)
Fixpoint none_of (cls : ascii -> bool) (f : string -> bool) (p : string) : bool :=
  match p with
  | EmptyString => false
  | String c p' => f p && (negb (cls c) || none_of cls f p')
  end.
Definition is_space (c : ascii) : bool := Ascii.eqb c " ".
Definition is_No (a : answer) : bool := match a with No => true | _ => false end.
(** Whether a text starts with [p]; a value may be any plain text. *)
Fixpoint sym_prefix (p : string) (l : list sym) {struct l} : answer :=
  match p with
  | EmptyString => Yes l
  | String c p' =>
      match l with
      | [] => No
      | C d :: l' => if Ascii.eqb c d then sym_prefix p' l' else No
      | V _ :: l' => if none_of plain (fun q => is_No (sym_prefix q l')) p then No else Unknown
      | W _ :: l' => if negb (is_space c) || none_of is_space (fun q => is_No (sym_prefix q l')) p' then No else Unknown
      end
  end.
(** [after] *)
Fixpoint sym_find (p : string) (l : list sym) : answer :=
  match sym_prefix p l with
  | No => match l with [] => No | _ :: l' => sym_find p l' end
  | a => a
  end.
(** [split_strdup] *)
Fixpoint sym_token (l : list sym) : list sym :=
  match l with
  | C c :: l' => if plain c then C c :: sym_token l' else []
  | V n :: l' => V n :: sym_token l'
  | [] | W _ :: _ => []
  end.

Section interpretation.
Context (val : nat -> string) (Hval : forall n, str_forallb plain (val n) = true) (gap : nat -> nat).
Fixpoint spaces (n : nat) : string := match n with O => " " | S n' => String " " (spaces n') end.
Fixpoint text (l : list sym) : string :=
  match l with
  | [] => ""
  | C c :: l' => String c (text l')
  | V n :: l' => val n +:+ text l'
  | W n :: l' => spaces (gap n) +:+ text l'
  end.

Lemma text_lit s : text (lit s) = s.
Proof. induction s as [|c s IH]; [done|]. change (String c (text (lit s)) = String c s). by rewrite IH. Qed.
Lemma text_app l k : text (l ++ k) = text l +:+ text k.
Proof. induction l as [|[c|n|n] l IH]; [done|..]; cbn; rewrite IH; [done|by rewrite str_app_assoc..]. Qed.
(** A pattern that starts in a text [v] of a class and goes on after it. *)
Lemma none_of_sound cls (f : string -> bool) (t : string) : (forall q, f q = true -> String.prefix q t = false) -> forall p v,
  str_forallb cls v = true -> none_of cls f p = true -> String.prefix p (v +:+ t) = false.
Proof.
  intros Hf. induction p as [|c p IH]; intros v Hv; [done|]. cbn [none_of]. intros [H1 H2]%andb_true_iff.
  destruct v as [|d v]; [by apply Hf|]. cbn in Hv. apply andb_true_iff in Hv as [Hd Hv]. rewrite str_app_cons. cbn [String.prefix].
  destruct (Ascii.ascii_dec c d) as [->|]; [|done]. rewrite Hd in H2. cbn in H2. by apply IH.
Qed.
Lemma spaces_class n : str_forallb is_space (spaces n) = true.
Proof. by induction n. Qed.
Definition sound (l : list sym) (p : string) (a : answer) : Prop :=
  match a with
  | Yes r => String.prefix p (text l) = true /\ str_drop (String.length p) (text l) = text r
  | No => String.prefix p (text l) = false
  | Unknown => True
  end.
Lemma none_in_spaces l c p n : (forall q, sound l q (sym_prefix q l)) ->
  negb (is_space c) || none_of is_space (fun q => is_No (sym_prefix q l)) p = true -> String.prefix (String c p) (spaces n +:+ text l) = false.
Proof.
  intros IH H. assert (forall v, String.prefix (String c p) (String " " v) = if is_space c then String.prefix p v else false) as Hc.
  { intros v. unfold is_space. cbn. destruct (Ascii.ascii_dec c " ") as [->|Hne]; [done|]. by destruct (Ascii.eqb_spec c " "). }
  assert (forall q, is_No (sym_prefix q l) = true -> String.prefix q (text l) = false) as Hq.
  { intros q Hq. specialize (IH q). destruct (sym_prefix q l); [done| |done]. exact IH. }
  destruct n as [|n]; [change (spaces 0 +:+ text l) with (String " " ("" +:+ text l))|change (spaces (S n) +:+ text l) with (String " " (spaces n +:+ text l))];
    rewrite Hc; (destruct (is_space c); [|done]); cbn in H; (eapply none_of_sound; [exact Hq| |exact H]); [done|apply spaces_class].
Qed.
Lemma sym_prefix_sound : forall l p, sound l p (sym_prefix p l).
Proof.
  assert (forall s, String.prefix "" s = true) as Hnil by (by intros []).
  induction l as [|[d|n|n] l IH]; intros [|c p]; unfold sound; cbn [sym_prefix]; try (by split); cbn [text].
  - destruct (Ascii.eqb_spec c d) as [->|Hne]; cbn [String.prefix String.length str_drop].
    + specialize (IH p). unfold sound in IH. destruct (Ascii.ascii_dec d d); [|done]. by destruct (sym_prefix p l).
    + destruct (Ascii.ascii_dec c d); done.
  - destruct (none_of _ _) eqn:E; [|done]. eapply none_of_sound; [|done|exact E]. intros q Hq. specialize (IH q). unfold sound in IH. cbn beta in Hq. destruct (sym_prefix q l); [done| |done]. exact IH.
  - destruct (negb (is_space c) || none_of is_space _ p) eqn:E; [|done]. apply none_in_spaces; [exact IH|exact E].
Qed.
Lemma after_skip_var p (t : string) : forall v, str_forallb plain v = true ->
  (forall v', str_forallb plain v' = true -> String.prefix p (v' +:+ t) = false) -> after p (v +:+ t) = after p t.
Proof.
  induction v as [|c v IH]; intros Hv Hp; [done|]. pose proof (Hp (String c v) Hv) as Hc. cbn in Hv. apply andb_true_iff in Hv as [_ Hv].
  rewrite str_app_cons in *. cbn [after]. rewrite Hc. by apply IH.
Qed.
Lemma sym_find_sound p : forall l, match sym_find p l with
  | Yes r => after p (text l) = Some (text r)
  | No => after p (text l) = None
  | Unknown => True
  end.
Proof.
  induction l as [|x l IH]; cbn [sym_find].
  - pose proof (sym_prefix_sound [] p) as H. unfold sound in H. destruct (sym_prefix p []) as [r| |]; [|cbn in H |- *; by rewrite H|done].
    destruct H as [H1 H2]. cbn in H1, H2 |- *. by rewrite H1, H2.
  - pose proof (sym_prefix_sound (x :: l) p) as H. unfold sound in H. destruct (sym_prefix p (x :: l)) as [r| |] eqn:E; [| |done].
    + destruct H as [H1 H2]. destruct (text (x :: l)) as [|c s]; cbn [after]; by rewrite H1, H2.
    + assert (after p (text (x :: l)) = after p (text l)) as ->; [|done]. destruct x as [c|n|n]; [cbn in H |- *; by rewrite H| |].
      2: { destruct p as [|c p]; [done|]. cbn [sym_prefix] in E. destruct (negb (is_space c) || _) eqn:En; [|done].
        assert (forall k, String.prefix (String c p) (spaces k +:+ text l) = false) as Hk
          by (intros k; apply none_in_spaces; [intros q; apply sym_prefix_sound|exact En]).
        clear -Hk. cbn [text]. induction (gap n) as [|k IH].
        - specialize (Hk O). change (spaces 0 +:+ text l) with (String " " (text l)) in *. cbn [after]. by rewrite Hk.
        - specialize (Hk (S k)). change (spaces (S k) +:+ text l) with (String " " (spaces k +:+ text l)) in *. cbn [after]. by rewrite Hk. }
      cbn [text]. apply after_skip_var; [done|]. intros v Hv. destruct p as [|c p]; [done|]. cbn [sym_prefix] in E.
      destruct (none_of _ _) eqn:En; [|done]. eapply none_of_sound; [|done|exact En]. intros q Hq.
      pose proof (sym_prefix_sound l q) as Hs. unfold sound in Hs. cbn beta in Hq. destruct (sym_prefix q l); [done| |done]. exact Hs.
Qed.
Lemma split_app v t : str_forallb plain v = true -> split_strdup (v +:+ t) = v +:+ split_strdup t.
Proof. induction v as [|c v IH]; [done|]. cbn [str_forallb]. intros [Hc Hv]%andb_true_iff. rewrite !str_app_cons. cbn. by rewrite Hc, IH. Qed.
Lemma sym_token_sound l : split_strdup (text l) = text (sym_token l).
Proof.
  induction l as [|[c|n|n] l IH]; [done|..]; cbn [text sym_token]; [| |by destruct (gap n)].
  - cbn. destruct (plain c); [|done]. cbn. by rewrite IH.
  - rewrite split_app by done. cbn. by rewrite IH.
Qed.

(** What the keys of a line store, and where; [None] when it cannot be told. *)
Fixpoint sym_keys (keys : list (string * (option string -> option field))) (section : option string) (l : list sym) :
    option (list (field * list sym)) :=
  match keys with
  | [] => Some []
  | (key, sel) :: keys' =>
      match sym_find key l with
      | Unknown => None
      | No => sym_keys keys' section l
      | Yes r =>
          match sel section with
          | None => sym_keys keys' section l
          | Some sl => cons (sl, sym_token r) <$> sym_keys keys' section l
          end
      end
  end.
Fixpoint store_all (us : list (field * list sym)) (i : xfsinfo) : string + xfsinfo :=
  match us with
  | [] => inr i
  | (sl, tok) :: us' => match store sl (text tok) i with inl msg => inl msg | inr i => store_all us' i end
  end.
Lemma store_all_app us vs : forall i, store_all (us ++ vs) i = match store_all us i with inl msg => inl msg | inr i => store_all vs i end.
Proof. induction us as [|[sl tok] us IH]; intros i; [done|]. cbn. destruct (store sl (text tok) i); [done|apply IH]. Qed.
Lemma sym_keys_sound section l : forall keys us i, sym_keys keys section l = Some us ->
  parse_keys keys section (text l) i = store_all us i.
Proof.
  induction keys as [|[key sel] keys IH]; intros us i; [by intros [= <-]|]. cbn [sym_keys parse_keys].
  pose proof (sym_find_sound key l) as Hf. destruct (sym_find key l) as [r| |]; [| |done]; rewrite Hf; [|apply IH].
  destruct (sel section) as [sl|]; [|apply IH]. destruct (sym_keys keys section l) as [us'|] eqn:E; [|done]. intros [= <-].
  cbn [store_all]. rewrite sym_token_sound. destruct (store sl (text (sym_token r)) i); [done|]. by apply IH.
Qed.

(** The lines start with a letter or a space; a section has a fixed name. *)
Fixpoint all_chars (l : list sym) : option string :=
  match l with [] => Some "" | C c :: l' => String c <$> all_chars l' | _ => None end.
Definition sym_section (section : option string) (l : list sym) : option (option string) :=
  match l with
  | C c :: _ => if c_isalpha c then Some <$> all_chars (sym_token l) else Some section
  | _ => None
  end.
Lemma all_chars_text l : forall s, all_chars l = Some s -> text l = s.
Proof. induction l as [|[c|n|n] l IH]; intros s; cbn; [by intros [= <-]| |done|done]. destruct (all_chars l) eqn:E; [|done]. intros [= <-]. by rewrite (IH _ eq_refl). Qed.
Fixpoint sym_lines (keys : list (string * (option string -> option field))) (section : option string) (ls : list (list sym)) : option (list (field * list sym)) :=
  match ls with
  | [] => Some []
  | l :: ls' =>
      section ← sym_section section l;
      us ← sym_keys keys section l;
      app us <$> sym_lines keys section ls'
  end.
Lemma sym_section_sound section l sec : sym_section section l = Some sec -> new_section section (text l) = sec.
Proof.
  destruct l as [|[c|n|n] l]; try done. cbn [sym_section]. unfold new_section. change (text (C c :: l)) with (String c (text l)).
  cbv beta iota. destruct (c_isalpha c); [|congruence]. destruct (all_chars (sym_token (C c :: l))) as [s|] eqn:Ea; [|done].
  intros [= <-]. f_equal. change (String c (text l)) with (text (C c :: l)). rewrite sym_token_sound. by apply all_chars_text.
Qed.
Lemma sym_lines_sound keys : forall ls section us i, sym_lines keys section ls = Some us ->
  parse_xfs_lines keys section (text <$> ls) i = store_all us i.
Proof.
  induction ls as [|l ls IH]; intros section us i; [by intros [= <-]|]. cbn [sym_lines fmap list_fmap parse_xfs_lines].
  destruct (sym_section section l) as [sec|] eqn:Es; [|done]. cbn [mbind option_bind]. rewrite (sym_section_sound _ _ _ Es).
  destruct (sym_keys keys sec l) as [vs|] eqn:Ek; [|done]. cbn [mbind option_bind]. rewrite (sym_keys_sound _ _ _ _ i Ek).
  destruct (sym_lines keys sec ls) as [ws|] eqn:Ew; [|done]. cbn [fmap option_fmap option_map]. intros [= <-].
  rewrite store_all_app. destruct (store_all vs i) as [msg|i']; [reflexivity|]. exact (IH sec ws i' Ew).
Qed.
End interpretation.

(** * What xfs_info prints *)

(** The values, in the order in which they are printed; 0 is the device, 14 the
    log and 21 the realtime section; numbers and names are padded on the right. *)
Definition xfs_output : list (list sym) :=
  [ lit "meta-data=" ++ [V 0; W 0] ++ lit "isize=" ++ [V 1; W 1] ++ lit "agcount=" ++ [V 2] ++ lit ", agsize=" ++ [V 3] ++ lit " blks";
    lit "         =" ++ [W 2] ++ lit "sectsz=" ++ [V 4; W 3] ++ lit "attr=" ++ [V 5];
    lit "data     =" ++ [W 4] ++ lit "bsize=" ++ [V 6; W 5] ++ lit "blocks=" ++ [V 7] ++ lit ", imaxpct=" ++ [V 8];
    lit "         =" ++ [W 6] ++ lit "sunit=" ++ [V 9; W 7] ++ lit "swidth=" ++ [V 10] ++ lit " blks";
    lit "naming   =version " ++ [V 11; W 8] ++ lit "bsize=" ++ [V 12; W 9] ++ lit "ascii-ci=" ++ [V 13];
    lit "log      =" ++ [V 14; W 10] ++ lit "bsize=" ++ [V 15; W 11] ++ lit "blocks=" ++ [V 16] ++ lit ", version=" ++ [V 17];
    lit "         =" ++ [W 12] ++ lit "sectsz=" ++ [V 18; W 13] ++ lit "sunit=" ++ [V 19] ++ lit " blks, lazy-count=" ++ [V 20];
    lit "realtime =" ++ [V 21; W 14] ++ lit "extsz=" ++ [V 22; W 15] ++ lit "blocks=" ++ [V 23] ++ lit ", rtextents=" ++ [V 24] ].
Definition xfs_text (val : nat -> string) (gap : nat -> nat) : string := str_unlines (text val gap <$> xfs_output).

(** The texts of the values of [i]; [extsz] is printed too. *)
Definition xfs_values (i : xfsinfo) (extsz : string) : list string :=
  [default "" (xfs_mntpoint i); pretty (xfs_inodesize i); pretty (xfs_agcount i); pretty (xfs_agsize i); pretty (xfs_sectsize i);
   pretty (xfs_attr i); pretty (xfs_blocksize i); pretty (xfs_datablocks i); pretty (xfs_imaxpct i); pretty (xfs_sunit i);
   pretty (xfs_swidth i); pretty (xfs_dirversion i); pretty (xfs_dirblocksize i); pretty (xfs_cimode i); default "" (xfs_logname i);
   pretty (xfs_logblocksize i); pretty (xfs_logblocks i); pretty (xfs_logversion i); pretty (xfs_logsectsize i);
   pretty (xfs_logsunit i); pretty (xfs_lazycount i); default "" (xfs_rtname i); extsz; pretty (xfs_rtblocks i);
   pretty (xfs_rtextents i)].
Definition xfs_value (i : xfsinfo) (extsz : string) (n : nat) : string := nth n (xfs_values i extsz) "".

Definition xfs_name (s : option string) : Prop := exists t, s = Some t /\ str_forallb plain t = true /\ no_sep nl_char t.
(** The structure as the tool can print it. *)
Record xfs_typed (i : xfsinfo) : Prop := {
  xt_names : xfs_name (xfs_mntpoint i) /\ xfs_name (xfs_logname i) /\ xfs_name (xfs_rtname i);
  xt_u32 : Forall (fun f => 0 <= f i < 2 ^ 32) [xfs_inodesize; xfs_agcount; xfs_agsize; xfs_sectsize; xfs_attr; xfs_blocksize;
    xfs_imaxpct; xfs_sunit; xfs_swidth; xfs_dirversion; xfs_dirblocksize; xfs_cimode; xfs_logblocksize; xfs_logblocks;
    xfs_logversion; xfs_logsectsize; xfs_logsunit; xfs_lazycount];
  xt_u64 : Forall (fun f => 0 <= f i < 2 ^ 64) [xfs_datablocks; xfs_rtblocks; xfs_rtextents]
}.

Lemma pretty_N_of_Z (z : Z) : 0 <= z -> pretty z = pretty (Z.to_N z).
Proof. destruct z as [|p|p]; [done|done|lia]. Qed.
Lemma parse_uint32_pretty (z : Z) : 0 <= z < 2 ^ 32 -> parse_uint32 (pretty z) = inr z.
Proof.
  intros Hz. unfold parse_uint32, parse_with. rewrite pretty_N_of_Z by lia. rewrite <- (str_app_nil_r (pretty (Z.to_N z))).
  rewrite sscanf_pretty by (by left || done). cbn [sscanf]. unfold store_uint32. rewrite Z2N.id by lia.
  destruct (Z.ltb_spec (Z.abs z) (2 ^ 64)); [|lia]. by rewrite u32_id by lia.
Qed.
Lemma parse_uint64_pretty (z : Z) : 0 <= z < 2 ^ 64 -> parse_uint64 (pretty z) = inr z.
Proof.
  intros Hz. unfold parse_uint64, parse_with. rewrite pretty_N_of_Z by lia. rewrite <- (str_app_nil_r (pretty (Z.to_N z))).
  rewrite sscanf_pretty by (by left || done). cbn [sscanf]. unfold store_ulong. rewrite Z2N.id by lia.
  destruct (Z.ltb_spec (Z.abs z) (2 ^ 64)); [|lia]. by rewrite u64_id by lia.
Qed.
Lemma pretty_plain (z : Z) : 0 <= z -> str_forallb plain (pretty z) = true /\ no_sep nl_char (pretty z).
Proof.
  intros Hz. rewrite pretty_N_of_Z by done. destruct (pretty_N_spec (Z.to_N z)) as (Hd & _). unfold no_sep.
  assert (forall p s, (forall c, c_isdigit c = true -> p c = true) -> str_forallb c_isdigit s = true -> str_forallb p s = true) as Hp.
  { intros p s Hp. induction s as [|c s IH]; [done|]. cbn. intros [Hc Hs]%andb_true_iff. by rewrite (Hp c Hc), IH. }
  split; (apply Hp; [|done]); intros c; destruct c as [[] [] [] [] [] [] [] []]; by vm_compute.
Qed.

Lemma xfs_values_ok i extsz : xfs_typed i -> str_forallb plain extsz = true -> no_sep nl_char extsz ->
  forall n, str_forallb plain (xfs_value i extsz n) = true /\ no_sep nl_char (xfs_value i extsz n).
Proof.
  intros [(Hm & Hl & Hr) H32 H64] He1 He2.
  assert (forall o, xfs_name o -> str_forallb plain (default "" o) = true /\ no_sep nl_char (default "" o)) as Hname by (by intros ? (t & -> & ? & ?)).
  assert (Forall (fun t => str_forallb plain t = true /\ no_sep nl_char t) (xfs_values i extsz)) as Hall.
  { unfold xfs_values. repeat (apply Forall_cons in H32 as [? H32]). repeat (apply Forall_cons in H64 as [? H64]).
    repeat (constructor; [first [by apply Hname | done | apply pretty_plain; lia]|]). constructor. }
  intros n. unfold xfs_value. destruct (nth_in_or_default n (xfs_values i extsz) "") as [Hin|Hd]; [|by rewrite Hd].
  rewrite List.Forall_forall in Hall. by apply Hall.
Qed.
Lemma no_nl_text val gap l : (forall n, no_sep nl_char (val n)) -> no_sep nl_char (text val gap l) <-> forallb (fun x => match x with C c => negb (Ascii.eqb c nl_char) | _ => true end) l = true.
Proof.
  intros Hv. assert (forall n, no_sep nl_char (spaces n)) as Hs by (by induction n). unfold no_sep in *.
  induction l as [|[c|n|n] l IH]; [done|..]; cbn; rewrite ?str_forallb_app, ?Hv, ?Hs; cbn; rewrite ?andb_true_iff, IH; done.
Qed.

(** The assignments that the lines lead to. *)
Definition xfs_updates : list (field * list sym) :=
  let n := fun sl k => (sl, [V k]) in
  [n F_mntpoint 0; n F_inodesize 1; n F_agcount 2; n F_agsize 3;
   n F_sectsize 4; n F_attr 5; n F_blocksize 6; n F_datablocks 7;
   n F_imaxpct 8; n F_sunit 9; n F_swidth 10; n F_dirblocksize 12;
   n F_dirversion 11; n F_cimode 13; n F_logblocksize 15; n F_logblocks 16;
   n F_logname 14; n F_logversion 17; n F_logsectsize 18; n F_logsunit 19;
   n F_lazycount 20; n F_rtblocks 23; n F_rtname 21; n F_rtextents 24]%nat.
Lemma xfs_updates_ok : sym_lines xfs_keys None xfs_output = Some xfs_updates.
Proof. vm_compute. reflexivity. Qed.
Lemma store_all_updates i extsz gap : xfs_typed i ->
  store_all (xfs_value i extsz) gap xfs_updates empty_xfsinfo = inr (set_rtextsize U32_MINUS1 i).
Proof.
  intros [((t1 & H1 & _) & (t2 & H2 & _) & (t3 & H3 & _)) H32 H64]. unfold xfs_updates. cbn [store_all text store]. unfold put_str, put_num.
  repeat (apply Forall_cons in H32 as [? H32]). repeat (apply Forall_cons in H64 as [? H64]). cbv beta in *.
  unfold xfs_value, xfs_values. cbn [nth]. rewrite !str_app_nil_r.
  repeat (first [rewrite parse_uint32_pretty by done | rewrite parse_uint64_pretty by done]; cbv beta iota).
  destruct i. cbn in *. by subst.
Qed.

(** * Theorems *)

(** C26: The structure that xfs_info prints is read back, each number and each name, however the
    columns are padded; but for the size of realtime extents, which is printed as extsz and
    never read. *)
Theorem xfs_info_roundtrip (E : denv) (pathordevice extsz : string) (gap : nat -> nat) (i : xfsinfo) (s : pstate) :
  xfs_typed i -> str_forallb plain extsz = true -> no_sep nl_char extsz ->
  let buf := if STRPREFIX pathordevice "/dev/" then pathordevice else sysroot_path (sysroot E) pathordevice in
  prints (ev_exec E (ps_log s) ["xfs_info"; buf]) (xfs_text (xfs_value i extsz) gap) ->
  exists s', do_xfs_info E pathordevice s = (Ret (Some (set_rtextsize U32_MINUS1 i)), s').
Proof.
  intros Hi He1 He2 buf Hp. unfold do_xfs_info. fold buf. set (val := xfs_value i extsz) in *.
  pose proof (xfs_values_ok i extsz Hi He1 He2) as Hv. fold val in Hv.
  destruct (commandf_prints E true 0 ["xfs_info"; buf] _ s Hp eq_refl) as [err Hc].
  unfold command_out. eexists. rewrite (bind_Ret _ _ _ _ _ Hc). cbn [default]. change (0 =? -1) with false. cbv iota.
  unfold id, xfs_text. rewrite split_lines_unlines.
  2: { apply Forall_fmap, List.Forall_forall. intros l Hl. apply no_nl_text; [intros n; apply Hv|].
       revert l Hl. apply List.Forall_forall. repeat constructor. }
  unfold parse_xfs_info.
  rewrite (sym_lines_sound val (fun n => proj1 (Hv n)) gap xfs_keys xfs_output None _ empty_xfsinfo xfs_updates_ok).
  unfold val. rewrite store_all_updates by done. destruct Hi as [((t1 & H1 & _) & (t2 & H2 & _) & (t3 & H3 & _)) _ _].
  destruct i. cbn in *. by subst.
Qed.

(** * Replies *)

Section replies.
Context (E : denv) `{!Starts E}.
Lemma xfs_info_one_reply ub p : one_reply ub ptr_failed (do_xfs_info E p).
Proof. unfold do_xfs_info, parse_xfs_info. emits. Qed.
Lemma run_xfs_one_reply ub prog l target run : Forall (args_le 2) l -> (2 * length l + length target + 2 <= 64)%nat ->
  (forall argv, one_reply ub int_failed (run argv)) -> one_reply ub int_failed (run_xfs E prog (all_args l) target run).
Proof.
  intros Hl Hn Hr. unfold run_xfs. pose proof (all_args_le 2 l Hl) as Ha. destruct (all_args l) as [e|a]; [by apply fail_args_one_reply|].
  eapply emits_quiet; [apply quiet_check_args|intros ?; apply Hr]. cbn in Ha |- *. unfold MAX_ARGS. rewrite length_app. lia.
Qed.
Lemma run_named_one_reply ub name argv : one_reply ub int_failed (run_named E name argv).
Proof. apply run_or_one_reply. auto with quiet. Qed.
#[local] Hint Resolve opt_num_le opt_flag_le opt_str_le opt_switch_le : core.
#[local] Ltac arguments := repeat (constructor; [unfold xfs_num; first [by auto | cbn; repeat case_match; cbn; lia]|]); constructor.
Lemma xfs_growfs_one_reply ub p o : one_reply ub int_failed (do_xfs_growfs E p o).
Proof. apply run_xfs_one_reply; [arguments|cbn; lia|apply run_named_one_reply]. Qed.
Lemma xfs_admin_one_reply ub device o : one_reply ub int_failed (do_xfs_admin E device o).
Proof. apply run_xfs_one_reply; [arguments|cbn; lia|apply run_named_one_reply]. Qed.
Lemma xfs_repair_one_reply ub device o : one_reply ub int_failed (do_xfs_repair E device o).
Proof.
  apply run_xfs_one_reply; [arguments|destruct (STRPREFIX device "/dev/"); cbn; lia|]. intros argv. emits.
Qed.
End replies.

(** * Examples *)

Definition ex_xfsinfo : xfsinfo :=
  mk_xfsinfo (Some "/dev/sda1") 256 4 6392 512 2 4096 25568 25 0 0 2 4096 0 (Some "internal") 4096 1200 2 512 0 1 (Some "none") 0 0 0.
(** The text of the comment of parse_xfs_info. *)
Definition ex_gap (n : nat) : nat := nth n [13; 3; 22; 2; 22; 2; 22; 5; 13; 2; 14; 2; 22; 2; 18; 2]%nat O.
Lemma xfs_text_example : xfs_text (xfs_value ex_xfsinfo "4096") ex_gap = str_unlines
  ["meta-data=/dev/sda1              isize=256    agcount=4, agsize=6392 blks";
   "         =                       sectsz=512   attr=2";
   "data     =                       bsize=4096   blocks=25568, imaxpct=25";
   "         =                       sunit=0      swidth=0 blks";
   "naming   =version 2              bsize=4096   ascii-ci=0";
   "log      =internal               bsize=4096   blocks=1200, version=2";
   "         =                       sectsz=512   sunit=0 blks, lazy-count=1";
   "realtime =none                   extsz=4096   blocks=0, rtextents=0"].
Proof. by vm_compute. Qed.
Lemma xfs_info_roundtrip_witness : exists s',
  do_xfs_info (Parted.ex_env (xfs_text (xfs_value ex_xfsinfo "4096") ex_gap)) "/dev/sda1" ex_pstate =
    (Ret (Some (set_rtextsize U32_MINUS1 ex_xfsinfo)), s').
Proof.
  apply (xfs_info_roundtrip (Parted.ex_env (xfs_text (xfs_value ex_xfsinfo "4096") ex_gap)) "/dev/sda1" "4096" ex_gap ex_xfsinfo ex_pstate).
  - split; [split_and!; by eexists|repeat (constructor; [cbn; lia|]); constructor..].
  - reflexivity.
  - reflexivity.
  - cbn [ev_exec Parted.ex_env]. rewrite bool_decide_false by done. by apply printing_prints; vm_compute.
Defined.
