(* ===== verification/Regex.v ===== *)
(** Regular expressions as PCRE matches them.

    The library (src/inspect-fs*.c) and the daemon (daemon/btrfs.c) match lines
    with PCRE.  [rx] has the constructs that their expressions use; [rx_exec] is
    the search of pcre_exec, which backtracks: the leftmost match is taken, of
    alternatives the first and of repetitions the longest after which the rest
    matches. *)

From S2P Require Import Prelude Utils Guestfsd.
From Stdlib Require Import Ascii.

Open Scope Z_scope.
#[local] Arguments String.append : simpl nomatch.

(** [k] is tried after the longest run first; [taken] is the run so far. *)
Fixpoint greedy {A} (k : string -> string -> option A) (least : nat) (p : ascii -> bool) (taken s : string) : option A :=
  let stop := if (least <=? String.length taken)%nat then k taken s else None in
  match s with
  | EmptyString => stop
  | String c s' =>
      if p c then match greedy k least p (taken +:+ String c "") s' with Some r => Some r | None => stop end
      else stop
  end.

(** \\s and the full stop. *)
Definition rx_space (c : ascii) : bool := Ascii.eqb c " " || in_range c 9 10 || in_range c 12 13.
Definition rx_any (c : ascii) : bool := negb (Ascii.eqb c nl_char).

Inductive rx :=
  | Eps
  | Cls (p : ascii -> bool)
  | Many (least : nat) (p : ascii -> bool)
  | Seq (a b : rx)
  | Or (a b : rx)
  | Maybe (a : rx)
  | Group (n : nat) (a : rx)
  | Start
  | End.

Definition captures := list (nat * string).
Definition rx_text (s rest : string) : string := String.substring 0 (String.length s - String.length rest) s.

(** [start]: nothing has been consumed.  A dollar also matches before a newline
    that ends the text. *)
Fixpoint rx_run (r : rx) (start : bool) (s : string) (caps : captures) (k : bool -> string -> captures -> option captures) : option captures :=
  match r with
  | Eps => k start s caps
  | Cls p => match s with String c s' => if p c then k false s' caps else None | EmptyString => None end
  | Many least p => greedy (fun taken rest => k (start && STREQ taken "") rest caps) least p "" s
  | Seq a b => rx_run a start s caps (fun start s caps => rx_run b start s caps k)
  | Or a b => match rx_run a start s caps k with Some r => Some r | None => rx_run b start s caps k end
  | Maybe a => match rx_run a start s caps k with Some r => Some r | None => k start s caps end
  | Group n a => rx_run a start s caps (fun start rest caps => k start rest ((n, rx_text s rest) :: caps))
  | Start => if start then k start s caps else None
  | End => if STREQ s "" || STREQ s newline then k start s caps else None
  end.

Definition rx_at (r : rx) (start : bool) (s : string) : option captures := rx_run r start s [] (fun _ _ caps => Some caps).
Fixpoint rx_from (r : rx) (start : bool) (s : string) : option captures :=
  match rx_at r start s with
  | Some caps => Some caps
  | None => match s with EmptyString => None | String _ s' => rx_from r false s' end
  end.
Definition rx_exec (r : rx) (s : string) : option captures := rx_from r true s.

(** The text of a group; [None] when it took no part in the match. *)
Definition capture (caps : captures) (n : nat) : option string := snd <$> List.find (fun c => (fst c =? n)%nat) caps.

(** ** Notations for expressions *)

Definition rx_seq (l : list rx) : rx := foldr Seq Eps l.
Fixpoint lit (s : string) : rx := match s with EmptyString => Eps | String c s' => Seq (Cls (Ascii.eqb c)) (lit s') end.
Definition digits (n : nat) : rx := Group n (Many 1 c_isdigit).
Definition anything : rx := Many 0 rx_any.

(** * src/match.c *)

Definition guestfs___match (str : string) (re : rx) : bool := match rx_exec re str with Some _ => true | None => false end.
Definition guestfs___match1 (str : string) (re : rx) : option string := rx_exec re str ≫= fun caps => capture caps 1.
Definition guestfs___match2 (str : string) (re : rx) : option (option string * option string) :=
  (fun caps => (capture caps 1, capture caps 2)) <$> rx_exec re str.
Definition guestfs___match3 (str : string) (re : rx) : option (option string * option string * option string) :=
  (fun caps => (capture caps 1, capture caps 2, capture caps 3)) <$> rx_exec re str.
Definition guestfs___match4 (str : string) (re : rx) : option (option string * option string * option string * option string) :=
  (fun caps => (capture caps 1, capture caps 2, capture caps 3, capture caps 4)) <$> rx_exec re str.
Definition guestfs___match6 (str : string) (re : rx) : option (list (option string)) :=
  (fun caps => capture caps <$> seq 1 6) <$> rx_exec re str.

(** * Lemmas *)

Lemma greedy_none {A} (k : string -> string -> option A) least p : forall s taken,
  (forall u v, s = u +:+ v -> str_forallb p u = true -> k (taken +:+ u) v = None) -> greedy k least p taken s = None.
Proof.
  induction s as [|c s IH]; intros taken Hn; pose proof (Hn "" _ eq_refl eq_refl) as H0; rewrite str_app_nil_r in H0; cbn [greedy]; rewrite H0.
  - by destruct (least <=? _)%nat.
  - destruct (p c) eqn:Hc; [|by destruct (least <=? _)%nat]. rewrite IH; [by destruct (least <=? _)%nat|].
    intros u v -> Hu. rewrite str_app_assoc. apply (Hn (String c u) v); [done|]. cbn. by rewrite Hc.
Qed.
(** The longest run after which the rest matches is taken. *)
Lemma greedy_spec {A} (k : string -> string -> option A) least p : forall u taken v r,
  str_forallb p u = true -> (least <= String.length taken + String.length u)%nat -> k (taken +:+ u) v = Some r ->
  (forall u' v', v = u' +:+ v' -> u' <> "" -> str_forallb p u' = true -> k (taken +:+ u +:+ u') v' = None) ->
  greedy k least p taken (u +:+ v) = Some r.
Proof.
  induction u as [|c u IH]; intros taken v r Hu Hl Hk Hn.
  - rewrite str_app_nil_r in Hk. cbn in Hl. change ("" +:+ v) with v.
    assert ((if (least <=? String.length taken)%nat then k taken v else None) = Some r) as Hstop.
    { destruct (Nat.leb_spec least (String.length taken)); [done|lia]. }
    destruct v as [|d v]; cbn [greedy]; rewrite Hstop; [done|]. destruct (p d) eqn:Hd; [|done]. rewrite greedy_none; [done|].
    intros u' v' -> Hu'. rewrite str_app_assoc. apply (Hn (String d u') v'); [done|done|]. cbn. by rewrite Hd.
  - cbn in Hu. apply andb_true_iff in Hu as [Hc Hu]. rewrite str_app_cons. cbn [greedy]. rewrite Hc.
    rewrite (IH (taken +:+ String c "") v r); [done|done| | |].
    + rewrite str_length_app. cbn in Hl |- *. lia.
    + rewrite str_app_assoc. exact Hk.
    + intros u' v' Hv Hne Hp. rewrite str_app_assoc. by apply Hn.
Qed.

Lemma greedy_some {A} (k : string -> string -> option A) least p : forall s taken r,
  greedy k least p taken s = Some r -> exists u v, s = u +:+ v /\ k (taken +:+ u) v = Some r.
Proof.
  induction s as [|c s IH]; intros taken r; cbn [greedy].
  - destruct (least <=? _)%nat; [|done]. intros H. exists "", "". split; [done|by rewrite str_app_nil_r].
  - assert ((if (least <=? String.length taken)%nat then k taken (String c s) else None) = Some r ->
      exists u v, String c s = u +:+ v /\ k (taken +:+ u) v = Some r) as Hs.
    { destruct (least <=? _)%nat; [|done]. intros H. exists "", (String c s). split; [done|by rewrite str_app_nil_r]. }
    destruct (p c); [|exact Hs]. destruct (greedy k least p _ s) as [r'|] eqn:Eg; [|exact Hs]. intros [= ->].
    destruct (IH _ _ Eg) as (u & v & -> & H). exists (String c u), v. split; [done|]. by rewrite str_app_assoc in H.
Qed.
