(* ===== verification/Btrfs.v ===== *)
(** Btrfs and the availability of features: daemon/btrfs.c,
    daemon/available.c and daemon/modprobe.c. *)

From S2P Require Import Prelude Xdr Protocol Handle Utils Events Conn Command Guestfsd Procs Parted DevParts Filesys Lvm Mount Xfs Regex.
From Stdlib Require Import Ascii.

Open Scope Z_scope.
#[local] Arguments String.append : simpl nomatch.

(** * Regular expressions

    The one expression of the file is a sequence of single characters and
    greedy repetitions, some of them captured: a list of items is enough, and
    easier to reason about than the trees of Regex.v. *)

Inductive item := One (p : ascii -> bool) | Rep (captured : bool) (least : nat) (p : ascii -> bool).

Fixpoint rx_match (l : list item) (s : string) : option (list string) :=
  match l with
  | [] => Some []
  | One p :: l' => match s with String c s' => if p c then rx_match l' s' else None | EmptyString => None end
  | Rep captured least p :: l' =>
      greedy (fun taken rest => (if captured : bool then cons taken else id) <$> rx_match l' rest) least p "" s
  end.
Fixpoint rx_search (l : list item) (s : string) : option (list string) :=
  match rx_match l s with
  | Some r => Some r
  | None => match s with EmptyString => None | String _ s' => rx_search l s' end
  end.

Fixpoint rx_lit (s : string) : list item := match s with EmptyString => [] | String c s' => One (Ascii.eqb c) :: rx_lit s' end.

(** "ID\\s+(\\d+).*\\stop level\\s+(\\d+).*\\spath\\s(.* )" *)
Definition re_path : list item := [One rx_space] ++ rx_lit "path" ++ [One rx_space; Rep true 0 rx_any].
Definition re_top : list item :=
  [One rx_space] ++ rx_lit "top level" ++ [Rep false 1 rx_space; Rep true 1 c_isdigit; Rep false 0 rx_any] ++ re_path.
Definition re_subvolume : list item :=
  rx_lit "ID" ++ [Rep false 1 rx_space; Rep true 1 c_isdigit; Rep false 0 rx_any] ++ re_top.

(** * daemon/available.c and daemon/modprobe.c *)

(** Whether access says that /proc/modules does not exist; mkdtemp. *)
Record btrfs_world := mk_btrfs_world {
  bw_no_modules : list action -> bool;
  bw_mkdtemp : list action -> string -> Z + string
}.

Section btrfs.
Context (E : denv) (W : btrfs_world).
#[local] Notation path p := (sysroot_path (sysroot E) p).

Definition prog (name : string) : proc bool := gets (fun s => prog_exists (ev_fs E (ps_log s)) name).
Definition optgroup_linuxmodules_available : proc bool :=
  b <- gets (fun s => bw_no_modules W (ps_log s)) ;;
  if b : bool then ret false else prog "modprobe".
Definition do_modprobe (module : string) : proc Z :=
  let* (r, err) := command_err E ["modprobe"; module] in
  if r =? -1 then fail (fmt_s err) (-1) else ret r.

(** The first group that is not available, among known ones. *)
Fixpoint available (optgroups : list (string * proc bool)) (groups : list string) (error_on_unavailable : bool) : proc Z :=
  match groups with
  | [] => ret 1
  | g :: groups' =>
      match List.find (fun o => STREQ g (fst o)) optgroups with
      | None => fail (g +:+ ": unknown group") (-1)
      | Some (name, test) =>
          av <- test ;;
          if negb av then
            if error_on_unavailable then fail (name +:+ ": group not available") (-1) else ret 0
          else available optgroups groups' error_on_unavailable
      end
  end.
Definition do_feature_available (optgroups : list (string * proc bool)) (groups : list string) : proc Z := available optgroups groups false.
Definition do_available (optgroups : list (string * proc bool)) (groups : list string) : proc Z :=
  r <- available optgroups groups true ;;
  if r =? -1 then ret (-1) else ret 0.
Definition do_available_all_groups (optgroups : list (string * proc bool)) : proc (option (list string)) := ret (Some (fst <$> optgroups)).

Definition test_proc_filesystems (filesystem : string) : proc Z :=
  let regex := snprintf (String.length filesystem + 32) ("^[[:space:]]*" +:+ filesystem +:+ "$") in
  let* (r, err) := commandr_err E ["grep"; regex; "/proc/filesystems"] in
  if (r =? -1) || (2 <=? r) then ret (-1) else ret (bool_int (r =? 0)).
Definition modprobe (module : string) : proc unit := commandf E false false 0 ["modprobe"; module] ;;; ret tt.
Definition filesystem_available (filesystem : string) : proc Z :=
  r <- test_proc_filesystems filesystem ;;
  if (r =? -1) || (0 <? r) then ret r
  else
    m <- optgroup_linuxmodules_available ;;
    if m : bool then modprobe filesystem ;;; test_proc_filesystems filesystem else ret r.
Definition do_filesystem_available (filesystem : string) : proc Z :=
  if negb (str_forallb (fun c => c_isalnum c || Ascii.eqb c "_") filesystem)
  then fail "filesystem name contains non-alphanumeric characters" (-1)
  else
    r <- filesystem_available filesystem ;;
    if r =? -1 then fail "error testing for filesystem availability; enable verbose mode and look at preceeding output" (-1)
    else ret r.

(** * daemon/btrfs.c *)

Definition optgroup_btrfs_available : proc bool :=
  b <- prog "btrfs" ;;
  if negb b then ret false else r <- filesystem_available "btrfs" ;; ret (0 <? r).

Definition do_btrfs_filesystem_resize (filesystem : string) (size : option Z) : proc Z :=
  let run (size_str : string) := run_named E filesystem ["btrfs"; "filesystem"; "resize"; size_str; path filesystem] in
  match size with
  | Some size => if size <=? 0 then fail "size is zero or negative" (-1) else run (snprintf 32 (pretty size))
  | None => run "max"
  end.

Record mkfs_btrfs_optargs := mk_mkfs_btrfs_optargs {
  mb_allocstart : option Z; mb_bytecount : option Z; mb_datatype : option string; mb_leafsize : option Z;
  mb_label : option string; mb_metadata : option string; mb_nodesize : option Z; mb_sectorsize : option Z
}.
Definition raid_type (flag name : string) (v : option string) : args :=
  match v with
  | None => inr []
  | Some t => if STRNEQ t "raid0" && STRNEQ t "raid1" && STRNEQ t "raid10" && STRNEQ t "single"
              then inl (Bad (name +:+ " not one of the allowed values")) else inr [flag; t]
  end.
Definition power_size (flag name : string) (v : option Z) : args :=
  match v with
  | None => inr []
  | Some n => if negb (is_power_of_2 (u64 n)) || (n <=? 0) then inl (Bad (name +:+ " must be > 0 and a power of two"))
              else inr [flag; snprintf 64 (pretty n)]
  end.
Definition mkfs_btrfs_args (o : mkfs_btrfs_optargs) : args :=
  all_args [
    xfs_num "--alloc-start" "allocstart" 64 "" (mb_allocstart o);
    match mb_bytecount o with
    | None => inr []
    | Some n => if n <=? 0 then inl (Bad "bytecount must be > 0") else inr ["--byte-count"; snprintf 64 (pretty n)]
    end;
    raid_type "--data" "datatype" (mb_datatype o);
    power_size "--leafsize" "leafsize" (mb_leafsize o);
    opt_str "--label" (mb_label o);
    raid_type "--metadata" "metadata" (mb_metadata o);
    power_size "--nodesize" "nodesize" (mb_nodesize o);
    power_size "--sectorsize" "sectorsize" (mb_sectorsize o)].
Fixpoint wipe_all (devices : list string) : proc unit :=
  match devices with
  | [] => ret tt
  | device :: devices' => wipe_device_before_mkfs E device ;;; wipe_all devices'
  end.
Definition do_mkfs_btrfs (devices : list string) (o : mkfs_btrfs_optargs) : proc Z :=
  match devices with
  | [] => fail "list of devices must be non-empty" (-1)
  | device0 :: _ =>
      match mkfs_btrfs_args o with
      | inl e => fail_args E e (-1)
      | inr a =>
          let argv := "mkfs.btrfs" :: a ++ devices in
          check_args (length devices + 64) argv ;;;
          wipe_all devices ;;;
          run_named E device0 argv
      end
  end.

Definition do_btrfs_subvolume_snapshot (source dest : string) : proc Z :=
  run_named E (source +:+ ": " +:+ dest) ["btrfs"; "subvolume"; "snapshot"; path source; path dest].
Definition do_btrfs_subvolume_delete (subvolume : string) : proc Z :=
  run_named E subvolume ["btrfs"; "subvolume"; "delete"; path subvolume].
Definition do_btrfs_subvolume_create (dest : string) : proc Z :=
  run_named E dest ["btrfs"; "subvolume"; "create"; path dest].

Record btrfssubvolume := mk_btrfssubvolume { btrfssubvolume_id : Z; btrfssubvolume_top_level_id : Z; btrfssubvolume_path : string }.

(** xstrtoul of digits: [None] is an overflow. *)
Definition xstrtoul (digits : string) : option Z :=
  let v := digits_value digits in if v <? 2 ^ 64 then Some v else None.
Definition parse_subvolume (line : string) : option btrfssubvolume :=
  match rx_search re_subvolume line with
  | Some [id; top_level_id; p] =>
      id ← xstrtoul id; top_level_id ← xstrtoul top_level_id; Some (mk_btrfssubvolume id top_level_id p)
  | _ => None
  end.
Fixpoint parse_subvolumes (lines : list string) : string + list btrfssubvolume :=
  match lines with
  | [] => inr []
  | line :: lines' =>
      match parse_subvolume line with
      | None => inl ("unexpected output from 'btrfs subvolume list' command: " +:+ line)
      | Some v => match parse_subvolumes lines' with inl e => inl e | inr l => inr (v :: l) end
      end
  end.

(** The label cmderror, for a file system that was mounted on [fs_buf]. *)
Definition cmderror {A} (is_path : bool) (fs_buf : string) : proc (option A) :=
  if is_path then ret None
  else
    command_err E ["umount"; fs_buf] ;;;
    sys E "rmdir" [fs_buf] ;;;
    ret None.
(** [None]: everything went well. *)
Definition unmount_tmp (fs_buf : string) : proc (option unit) :=
  let* (r, err) := command_err E ["umount"; fs_buf] in
  if r =? -1 then reply_with_error (fmt_s err) ;;; ret (Some tt)
  else
    e <- sys E "rmdir" [fs_buf] ;;
    match e with
    | Some e =>
        if negb (e =? ENOENT) then reply_with_error ("rmdir: " +:+ ev_strerror E e +:+ newline) ;;; ret (Some tt) else ret None
    | None => ret None
    end.
Definition list_in (fs : mountable_t) (is_path : bool) (fs_buf : string) : proc (option (list btrfssubvolume)) :=
  let* (r, out, errout) := command_out E ["btrfs"; "subvolume"; "list"; fs_buf] in
  e <- (if is_path then ret None else unmount_tmp fs_buf) ;;
  match e with
  | Some _ => cmderror is_path fs_buf
  | None =>
      if r =? -1 then
        reply_with_error (mountable_to_string fs +:+ ": " +:+ fmt_s errout) ;;;
        cmderror is_path fs_buf
      else
        match parse_subvolumes (split_lines (default "" out)) with
        | inl msg => fail msg None
        | inr l => ret (Some l)
        end
  end.
Definition do_btrfs_subvolume_list (fs : mountable_t) : proc (option (list btrfssubvolume)) :=
  match mt_type fs with
  | MOUNTABLE_PATH => list_in fs true (path (mt_device fs))
  | _ =>
      r <- gets (fun s => bw_mkdtemp W (ps_log s) "/tmp/btrfs.XXXXXX") ;;
      log (Called "mkdtemp" ["/tmp/btrfs.XXXXXX"]) ;;;
      match r with
      | inl e => perror E e "mkdtemp" tt ;;; cmderror false "/tmp/btrfs.XXXXXX"
      | inr fs_buf =>
          r <- mount_vfs_nochroot E "" None fs fs_buf "<internal>" ;;
          if r =? -1 then cmderror false fs_buf else list_in fs false fs_buf
      end
  end.

Definition do_btrfs_subvolume_set_default (id : Z) (fs : string) : proc Z :=
  run_named E fs ["btrfs"; "subvolume"; "set-default"; snprintf 64 (pretty id); path fs].
Definition do_btrfs_filesystem_sync (fs : string) : proc Z := run_named E fs ["btrfs"; "filesystem"; "sync"; path fs].
Definition do_btrfs_filesystem_balance (fs : string) : proc Z := run_named E fs ["btrfs"; "filesystem"; "balance"; path fs].

Definition test_btrfs_device_add_needs_force : proc Z :=
  let* (r, out, err) := command_out E ["btrfs"; "device"; "add"; "--help"] in
  if r =? -1 then fail ("btrfs device add --help: " +:+ fmt_s err) (-1)
  else ret (bool_int (strstr (default "" out) "--force")).
Definition device_args (verb : string) (flags devices : list string) (fs : string) : list string :=
  ["btrfs"; "device"; verb] ++ flags ++ devices ++ [path fs].
Definition do_btrfs_device_add (devices : list string) (fs : string) : proc Z :=
  match devices with
  | [] => ret 0
  | _ =>
      force <- get_static "btrfs_device_add_needs_force" ;;
      force <- (if force =? -1 then
                  f <- test_btrfs_device_add_needs_force ;;
                  set_static "btrfs_device_add_needs_force" f ;;; ret f
                else ret force) ;;
      if force =? -1 then ret (-1)
      else
        let argv := device_args "add" (if is_true force then ["--force"] else []) devices fs in
        check_args (length devices + 8) argv ;;;
        run_named E fs argv
  end.
Definition do_btrfs_device_delete (devices : list string) (fs : string) : proc Z :=
  match devices with
  | [] => ret 0
  | _ => let argv := device_args "delete" [] devices fs in check_args (length devices + 8) argv ;;; run_named E fs argv
  end.

(** The result of commandr is the exit status: only -1 is an error here. *)
Definition do_btrfs_set_seeding (device : string) (svalue : bool) : proc Z :=
  run_or (commandr_err E ["btrfstune"; "-S"; if svalue then "1" else "0"; device]) (fun err => device +:+ ": " +:+ err).

Definition do_btrfs_fsck (device : string) (superblock : option Z) (repair : option bool) : proc Z :=
  match opt_num "--super" "super block offset" 64 " must be >= 0" pretty superblock with
  | inl e => fail_args E e (-1)
  | inr a =>
      let argv := "btrfsck" :: a ++ (match repair with Some true => ["--repair"] | _ => [] end) ++ [device] in
      check_args 64 argv ;;; run_named E device argv
  end.
End btrfs.

(** * Matching a line *)

(** A match of a sequence ends with a match of its last part. *)
Lemma rx_match_app l1 l2 : forall s r, rx_match (l1 ++ l2) s = Some r -> exists a b, s = a +:+ b /\ is_Some (rx_match l2 b).
Proof.
  induction l1 as [|[p|cap least p] l1 IH]; intros s r; cbn [app rx_match].
  - intros H. exists "", s. split; [done|]. by eexists.
  - destruct s as [|c s]; [done|]. destruct (p c); [|done]. intros H. destruct (IH _ _ H) as (a & b & -> & Hb). by exists (String c a), b.
  - intros H. apply greedy_some in H as (u & v & -> & H). destruct (rx_match (l1 ++ l2) v) as [r'|] eqn:E; [|done].
    destruct (IH _ _ E) as (a & b & -> & Hb). exists (u +:+ a), b. by rewrite str_app_assoc.
Qed.
Lemma rx_lit_match s l t : rx_match (rx_lit s ++ l) (s +:+ t) = rx_match l t.
Proof. induction s as [|c s IH]; [done|]. cbn. by rewrite Ascii.eqb_refl. Qed.

(** No white space, "path" and white space in a text. *)
Definition no_path (s : string) : Prop := forall a b, s = a +:+ b -> rx_match re_path b = None.
Lemma no_path_top s : no_path s -> rx_match re_top s = None.
Proof.
  intros H. destruct (rx_match re_top s) as [r|] eqn:E; [|done]. unfold re_top in E. rewrite !app_assoc in E.
  apply rx_match_app in E as (a & b & Hs & [x Hx]). by rewrite (H a b Hs) in Hx.
Qed.
Lemma no_path_suffix a b : no_path (a +:+ b) -> no_path b.
Proof. intros H u v ->. apply (H (a +:+ u)). by rewrite str_app_assoc. Qed.

Lemma app_split (a b u v : string) : a +:+ b = u +:+ v ->
  (exists w, u = a +:+ w /\ b = w +:+ v) \/ (exists c w, a = u +:+ String c w /\ v = String c w +:+ b).
Proof.
  revert u. induction a as [|c a IH]; intros u H; [by left; exists u|]. rewrite str_app_cons in H. destruct u as [|d u].
  - right. exists c, a. by split.
  - rewrite str_app_cons in H. injection H as -> H. destruct (IH u H) as [(w & -> & ->)|(e & w & -> & ->)]; [left; by exists w|right; by exists e, w].
Qed.

Lemma path_match p : str_forallb rx_any p = true -> rx_match re_path (" path " +:+ p) = Some [p].
Proof.
  intros Hp. unfold re_path. change (" path " +:+ p) with (String " " ("path" +:+ String " " p)). cbn [app rx_match]. cbn -[rx_lit String.append app].
  change [One rx_space; Rep true 0 rx_any] with ([One rx_space; Rep true 0 rx_any] ++ []). rewrite rx_lit_match. cbn [app rx_match].
  change (rx_space " ") with true. cbv iota. rewrite <- (str_app_nil_r p) at 1.
  apply greedy_spec; [done|cbn; lia|done|]. intros u' v' Hv Hne _. by destruct u'.
Qed.
Lemma path_later p v u : no_path (String " " p) -> " path " +:+ p = u +:+ v -> u <> "" -> rx_match re_path v = None /\ rx_match re_top v = None.
Proof.
  intros Hp H Hne. change (" path " +:+ p) with (" path" +:+ String " " p) in H. apply app_split in H as [(w & -> & Hw)|(c & w & Hu & ->)].
  - rewrite Hw in Hp. split; [by apply (Hp w)|]. apply no_path_top. by eapply no_path_suffix.
  - destruct u as [|c1 u]; [done|]. injection Hu as <- Hu.
    repeat (destruct u as [|? u]; [injection Hu as <- <-; by split|injection Hu as <- Hu]). by destruct u.
Qed.
Lemma top_match (t : N) p : str_forallb rx_any p = true -> no_path (String " " p) ->
  rx_match re_top (" top level " +:+ pretty t +:+ " path " +:+ p) = Some [pretty t; p].
Proof.
  intros Hany Hp. destruct (pretty_N_spec t) as (Hd & Hne & _). unfold re_top.
  change (" top level " +:+ ?x) with (String " " ("top level" +:+ String " " x)). cbn [app rx_match]. change (rx_space " ") with true. cbv iota.
  rewrite rx_lit_match. cbn [rx_match app]. change (String " " ?x) with (" " +:+ x).
  apply greedy_spec; [done|cbn; lia| |].
  - cbn [id fmap option_fmap option_map]. assert (forall r, r = Some [pretty t; p] -> option_map id r = Some [pretty t; p]) as Hid by (by intros ? ->).
    apply Hid. apply (greedy_spec _ 1 c_isdigit (pretty t) "" (" path " +:+ p)); [done|destruct (pretty t); [done|cbn; lia]| |].
    + cbn [String.append]. assert (greedy (fun taken rest => id <$> rx_match re_path rest) 0 rx_any "" ("" +:+ " path " +:+ p) = Some [p]) as Hg.
      { apply greedy_spec; [done|lia| |]; [by rewrite path_match|]. intros u' v' Hv Hu _. by rewrite (proj1 (path_later _ _ _ Hp Hv Hu)). }
      cbn [String.append] in Hg. fold re_path. by rewrite Hg.
    + intros u' v' Hv Hu Hdg. destruct u' as [|c u']; [done|]. injection Hv as <- _. done.
  - intros u' v' Hv Hu Hsp. destruct u' as [|c u']; [done|]. exfalso. destruct (pretty t) as [|c' t']; [done|]. injection Hv as <- _.
    cbn in Hd, Hsp. apply andb_true_iff in Hd as [Hd _]. apply andb_true_iff in Hsp as [Hsp _]. clear -Hd Hsp.
    destruct c' as [[] [] [] [] [] [] [] []]; vm_compute in *; congruence.
Qed.
Lemma digit_not_space c : c_isdigit c = true -> rx_space c = false /\ Ascii.eqb "t" c = false.
Proof. destruct c as [[] [] [] [] [] [] [] []]; vm_compute; split; congruence. Qed.
Lemma top_not_t d x : Ascii.eqb "t" d = false -> rx_match re_top (String " " (String d x)) = None.
Proof. intros H. unfold re_top. cbn [app rx_lit rx_match]. rewrite H. by destruct (rx_space " "). Qed.
Lemma top_later (t : N) p v u : no_path (String " " p) ->
  " top level " +:+ pretty t +:+ " path " +:+ p = u +:+ v -> u <> "" -> rx_match re_top v = None.
Proof.
  intros Hp H Hne. destruct (pretty_N_spec t) as (Hd & Hne' & _). apply app_split in H as [(w & -> & Hw)|(c & w & Hu & ->)].
  - apply app_split in Hw as [(w2 & -> & Hw)|(c & w2 & Hu & ->)].
    + destruct w2 as [|c w2]; [change ("" +:+ v) with v in Hw; by rewrite <- Hw|]. by apply (path_later p v (String c w2)).
    + rewrite Hu, str_forallb_app in Hd. apply andb_true_iff in Hd as [_ Hd]. cbn in Hd. apply andb_true_iff in Hd as [Hd _].
      unfold re_top. rewrite str_app_cons. cbn [app rx_match]. by rewrite (proj1 (digit_not_space c Hd)).
  - destruct (pretty t) as [|d ds]; [done|]. cbn in Hd. apply andb_true_iff in Hd as [Hd _]. destruct (digit_not_space d Hd) as [_ Hdt].
    destruct u as [|c1 u]; [done|]. injection Hu as <- Hu.
    repeat (destruct u as [|? u]; [injection Hu as <- <-; first [reflexivity | exact (top_not_t d _ Hdt)]|injection Hu as <- Hu]). by destruct u.
Qed.

(** A line as btrfs prints it; [mid] is what some versions print between the
    two numbers. *)
Definition subvolume_line (mid : string) (v : btrfssubvolume) : string :=
  "ID " +:+ pretty (btrfssubvolume_id v) +:+ mid +:+ " top level " +:+ pretty (btrfssubvolume_top_level_id v) +:+
  " path " +:+ btrfssubvolume_path v.
Definition mid_ok (mid : string) : Prop := str_forallb rx_any mid = true /\ ends_number mid.
Record subvolume_ok (v : btrfssubvolume) : Prop := {
  sv_id : 0 <= btrfssubvolume_id v < 2 ^ 64;
  sv_top : 0 <= btrfssubvolume_top_level_id v < 2 ^ 64;
  sv_path : str_forallb rx_any (btrfssubvolume_path v) = true /\ no_path (String " " (btrfssubvolume_path v))
}.

Lemma id_match (a t : N) mid p : mid_ok mid -> str_forallb rx_any p = true -> no_path (String " " p) ->
  rx_search re_subvolume ("ID " +:+ pretty a +:+ mid +:+ " top level " +:+ pretty t +:+ " path " +:+ p) = Some [pretty a; pretty t; p].
Proof.
  intros [Hmid Hend] Hany Hp. set (T := " top level " +:+ pretty t +:+ " path " +:+ p). destruct (pretty_N_spec a) as (Hd & Hne & _).
  assert (rx_match re_subvolume ("ID " +:+ pretty a +:+ mid +:+ T) = Some [pretty a; pretty t; p]) as Hm; [|cbn [String.append rx_search] in *; by rewrite Hm].
  unfold re_subvolume. change ("ID " +:+ ?x) with ("ID" +:+ String " " x). rewrite rx_lit_match. cbn [app rx_match].
  change (String " " ?x) with (" " +:+ x).
  assert (greedy (fun taken rest => id <$> rx_match re_top rest) 0 rx_any "" (mid +:+ T) = Some [pretty t; p]) as Hg.
  { apply greedy_spec; [done|lia|unfold T; by rewrite (top_match t p Hany Hp)|]. intros u' v' Hv Hu _. by rewrite (top_later t p v' u' Hp Hv Hu). }
  apply greedy_spec; [done|cbn; lia| |].
  - assert (forall r, r = Some [pretty a; pretty t; p] -> option_map id r = Some [pretty a; pretty t; p]) as Hid by (by intros ? ->).
    apply Hid. apply (greedy_spec _ 1 c_isdigit (pretty a) "" (mid +:+ T)); [done|destruct (pretty a); [done|cbn; lia]| |].
    + cbn [String.append]. fold re_top. by rewrite Hg.
    + intros u' v' Hv Hu Hdg. exfalso. destruct u' as [|c u']; [done|]. cbn in Hdg. apply andb_true_iff in Hdg as [Hc _].
      destruct mid as [|m mid]; [injection Hv as <- _; done|]. injection Hv as -> _. by rewrite (Hend c mid eq_refl) in Hc.
  - intros u' v' Hv Hu Hsp. destruct u' as [|c u']; [done|]. exfalso. destruct (pretty a) as [|c' t']; [done|]. injection Hv as <- _.
    cbn in Hd, Hsp. apply andb_true_iff in Hd as [Hd _]. apply andb_true_iff in Hsp as [Hsp _].
    rewrite (proj1 (digit_not_space _ Hd)) in Hsp. done.
Qed.
Lemma parse_subvolume_line mid v : mid_ok mid -> subvolume_ok v -> parse_subvolume (subvolume_line mid v) = Some v.
Proof.
  intros Hmid [Hi Ht [Hany Hp]]. unfold parse_subvolume, subvolume_line. rewrite !pretty_N_of_Z by lia. rewrite id_match by done.
  unfold xstrtoul. rewrite !(proj2 (proj2 (pretty_N_spec _))), !Z2N.id by lia.
  destruct (Z.ltb_spec (btrfssubvolume_id v) (2 ^ 64)); [|lia]. cbn. destruct (Z.ltb_spec (btrfssubvolume_top_level_id v) (2 ^ 64)); [|lia]. cbn.
  by destruct v.
Qed.

(** * Replies *)

Section replies.
Context (E : denv) `{!Starts E} (W : btrfs_world).
Lemma quiet_prog name : quiet (prog E name).
Proof. apply quiet_gets. Qed.
Lemma quiet_linuxmodules : quiet (optgroup_linuxmodules_available E W).
Proof. apply quiet_bind; [apply quiet_gets|]. intros [|]; [apply quiet_ret|apply quiet_prog]. Qed.
Lemma quiet_test_proc_filesystems fs : quiet (test_proc_filesystems E fs).
Proof. apply quiet_bind; [auto with quiet|]. intros [r err]. destruct (_ || _); apply quiet_ret. Qed.
Lemma quiet_filesystem_available fs : quiet (filesystem_available E W fs).
Proof.
  apply quiet_bind; [apply quiet_test_proc_filesystems|]. intros r. destruct (_ || _); [apply quiet_ret|].
  apply quiet_bind; [apply quiet_linuxmodules|]. intros [|]; [|apply quiet_ret].
  apply quiet_bind; [|intros ?; apply quiet_test_proc_filesystems]. apply quiet_bind; [auto with quiet|]. intros ?. apply quiet_ret.
Qed.
Lemma quiet_btrfs_group : quiet (optgroup_btrfs_available E W).
Proof.
  apply quiet_bind; [apply quiet_prog|]. intros [|]; [|apply quiet_ret]. apply quiet_bind; [apply quiet_filesystem_available|]. intros r. apply quiet_ret.
Qed.
#[local] Hint Resolve quiet_filesystem_available run_named_one_reply : quiet one_reply.
Lemma do_modprobe_one_reply ub m : one_reply ub int_failed (do_modprobe E m).
Proof. unfold do_modprobe. emits. Qed.
Lemma do_filesystem_available_one_reply ub fs : one_reply ub int_failed (do_filesystem_available E W fs).
Proof. unfold do_filesystem_available. emits. Qed.
Lemma available_one_reply ub optgroups err : Forall (fun o => quiet (snd o)) optgroups -> forall groups,
  one_reply ub int_failed (available optgroups groups err).
Proof.
  intros Hq. induction groups as [|g groups IH]; [by apply emits_ret|]. cbn [available].
  destruct (List.find _ optgroups) as [[name test]|] eqn:Ef; [|emits]. apply List.find_some in Ef as [Hin _].
  rewrite List.Forall_forall in Hq. specialize (Hq _ Hin). eapply emits_quiet; [exact Hq|]. intros [|]; [exact IH|]. destruct err; emits.
Qed.
Lemma do_available_one_reply ub optgroups groups : Forall (fun o => quiet (snd o)) optgroups ->
  one_reply ub int_failed (do_available optgroups groups).
Proof. intros Hq. unfold do_available. eapply emits_call; [by apply available_one_reply|emits|emits]. Qed.

Lemma do_btrfs_filesystem_resize_one_reply ub fs size : one_reply ub int_failed (do_btrfs_filesystem_resize E fs size).
Proof. unfold do_btrfs_filesystem_resize. destruct size as [z|]; [destruct (z <=? 0); [emits|]|]; by apply run_named_one_reply. Qed.
Lemma run_devices_one_reply ub name max argv : (S (length argv) <= max)%nat ->
  one_reply ub int_failed (check_args max argv ;;; run_named E name argv).
Proof. intros H. eapply emits_quiet; [by apply quiet_check_args|]. intros ?. by apply run_named_one_reply. Qed.
Lemma do_btrfs_device_delete_one_reply ub devices fs : one_reply ub int_failed (do_btrfs_device_delete E devices fs).
Proof.
  unfold do_btrfs_device_delete. destruct devices as [|d devices]; [by apply emits_ret|].
  apply run_devices_one_reply. unfold device_args. cbn. rewrite !length_app. cbn. lia.
Qed.
Lemma needs_force_one_reply ub : one_reply ub int_failed (test_btrfs_device_add_needs_force E).
Proof. unfold test_btrfs_device_add_needs_force. emits. Qed.
Lemma do_btrfs_device_add_one_reply ub devices fs : one_reply ub int_failed (do_btrfs_device_add E devices fs).
Proof.
  unfold do_btrfs_device_add. destruct devices as [|d devices]; [by apply emits_ret|]. eapply emits_quiet; [auto with quiet|]. intros force.
  eapply (emits_call _ int_failed).
  - destruct (force =? -1) eqn:Ef; [|apply emits_ret; unfold int_failed; by rewrite Ef].
    eapply emits_bind; [apply needs_force_one_reply|]. intros f n ->. eapply emits_quiet; [auto with quiet|]. intros ?. apply emits_ret.
    by rewrite Nat.add_0_r.
  - intros a Ha. change ((a =? -1) = true) in Ha. rewrite Ha. emits.
  - intros a Ha. change ((a =? -1) = false) in Ha. rewrite Ha. apply run_devices_one_reply. unfold device_args.
    rewrite !length_app. destruct (is_true a); cbn [length]; lia.
Qed.
Lemma do_btrfs_fsck_one_reply ub device superblock repair : one_reply ub int_failed (do_btrfs_fsck E device superblock repair).
Proof.
  unfold do_btrfs_fsck. pose proof (opt_num_le "--super" "super block offset" 64 " must be >= 0" pretty superblock) as Hl.
  destruct (opt_num _ _ _ _ _ _) as [e|a]; [by apply fail_args_one_reply|]. apply run_devices_one_reply. cbn in Hl |- *. rewrite !length_app.
  destruct repair as [[|]|]; cbn; lia.
Qed.
Lemma quiet_wipe_all `{!WipefsWorks E} devices : quiet (wipe_all E devices).
Proof.
  induction devices as [|d devices IH]; [apply quiet_ret|]. cbn [wipe_all]. apply quiet_bind; [by apply quiet_wipe|]. by intros ?.
Qed.
Lemma mkfs_btrfs_args_le o : args_le 16 (mkfs_btrfs_args o).
Proof.
  unfold mkfs_btrfs_args. apply (all_args_le 2).
  repeat (constructor; [unfold xfs_num, raid_type, power_size; first [by apply opt_num_le|by apply opt_str_le|repeat case_match; cbn; lia]|]). constructor.
Qed.
Lemma do_mkfs_btrfs_one_reply `{!WipefsWorks E} ub devices o : one_reply ub int_failed (do_mkfs_btrfs E devices o).
Proof.
  unfold do_mkfs_btrfs. destruct devices as [|d devices]; [emits|]. pose proof (mkfs_btrfs_args_le o) as Hl.
  destruct (mkfs_btrfs_args o) as [e|a]; [by apply fail_args_one_reply|].
  eapply emits_quiet; [apply quiet_check_args; cbn in Hl |- *; rewrite !length_app; cbn; lia|]. intros ?.
  eapply emits_quiet; [apply quiet_wipe_all|]. intros ?. by apply run_named_one_reply.
Qed.

Lemma cmderror_returns ub {A} is_path fs_buf : emits ub (cmderror (A := A) E is_path fs_buf) (fun a n => a = None /\ n = 0%nat).
Proof.
  unfold cmderror. destruct is_path; [by apply emits_ret|]. eapply emits_quiet; [auto with quiet|]. intros ?.
  eapply emits_quiet; [auto with quiet|]. intros ?. by apply emits_ret.
Qed.
Lemma cmderror_replied ub {A} e msg is_path fs_buf :
  one_reply ub ptr_failed (log (Replied e msg) ;;; cmderror (A := A) E is_path fs_buf).
Proof.
  eapply (emits_bind _ _ _ (fun _ n => n = 1%nat)); [intros s; by eexists (Ret tt), _, [Replied e msg]|]. intros ? n ->.
  eapply emits_conseq; [apply cmderror_returns|]. by intros ? ? (-> & ->).
Qed.
Lemma unmount_tmp_replies ub fs_buf : emits ub (unmount_tmp E fs_buf) (fun e n => n = match e with Some _ => 1%nat | None => 0%nat end).
Proof.
  assert (forall msg, emits ub (reply_with_error msg ;;; ret (Some tt)) (fun e n => n = match e with Some _ => 1%nat | None => 0%nat end)) as Hr.
  { intros msg. apply (emits_fail ub msg (Some tt)). done. }
  unfold unmount_tmp. eapply emits_quiet; [auto with quiet|]. intros [r err]. destruct (r =? -1); [apply Hr|].
  eapply emits_quiet; [auto with quiet|]. intros [e|]; [|by apply emits_ret]. destruct (negb (e =? ENOENT)); [apply Hr|by apply emits_ret].
Qed.
Lemma list_in_one_reply ub fs is_path fs_buf : one_reply ub ptr_failed (list_in E fs is_path fs_buf).
Proof.
  unfold list_in. eapply emits_quiet; [auto with quiet|]. intros [[r out] err].
  eapply (emits_bind _ _ _ (fun e n => n = match e with Some _ => 1%nat | None => 0%nat end)).
  { destruct is_path; [by apply emits_ret|apply unmount_tmp_replies]. }
  intros [u|] n ->.
  - eapply emits_conseq; [apply cmderror_returns|]. by intros ? ? (-> & ->).
  - destruct (r =? -1); [apply cmderror_replied|]. destruct (parse_subvolumes _); emits.
Qed.
Lemma do_btrfs_subvolume_list_one_reply ub fs : one_reply ub ptr_failed (do_btrfs_subvolume_list E W fs).
Proof.
  assert (one_reply ub ptr_failed (r <- gets (fun s => bw_mkdtemp W (ps_log s) "/tmp/btrfs.XXXXXX") ;;
    log (Called "mkdtemp" ["/tmp/btrfs.XXXXXX"]) ;;;
    match r with
    | inl e => perror E e "mkdtemp" tt ;;; cmderror E false "/tmp/btrfs.XXXXXX"
    | inr fs_buf => r <- mount_vfs_nochroot E "" None fs fs_buf "<internal>" ;;
                    if r =? -1 then cmderror E false fs_buf else list_in E fs false fs_buf
    end)) as H.
  { eapply emits_quiet; [auto with quiet|]. intros [e|fs_buf]; (eapply emits_quiet; [by apply quiet_log|]; intros ?).
    - eapply (emits_bind _ _ _ (fun _ n => n = 1%nat)); [by apply (emits_perror ub E e "mkdtemp" tt)|]. intros ? n ->.
      eapply emits_conseq; [apply cmderror_returns|]. by intros ? ? (-> & ->).
    - eapply emits_call; [by apply run_or_one_reply; auto with quiet| |]; intros r Ha; (change ((r =? -1) = true) in Ha || change ((r =? -1) = false) in Ha); rewrite Ha.
      + eapply emits_conseq; [apply cmderror_returns|]. by intros ? ? (-> & ->).
      + apply list_in_one_reply. }
  unfold do_btrfs_subvolume_list. destruct (mt_type fs); [exact H|exact H|apply list_in_one_reply].
Qed.
Lemma do_btrfs_set_seeding_one_reply ub device v : one_reply ub int_failed (do_btrfs_set_seeding E device v).
Proof. apply run_or_one_reply. auto with quiet. Qed.
End replies.

(** * Theorems *)

Lemma parse_subvolumes_lines (l : list (string * btrfssubvolume)) : Forall (fun x => mid_ok (fst x) /\ subvolume_ok (snd x)) l ->
  parse_subvolumes ((fun x => subvolume_line (fst x) (snd x)) <$> l) = inr (snd <$> l).
Proof.
  induction 1 as [|[mid v] l [Hm Hv] Hl IH]; [done|]. cbn [fmap list_fmap parse_subvolumes fst snd] in *. by rewrite parse_subvolume_line, IH.
Qed.
Lemma no_nl_any s : str_forallb rx_any s = true -> no_sep nl_char s.
Proof. done. Qed.
Lemma subvolume_line_no_nl mid v : mid_ok mid -> subvolume_ok v -> no_sep nl_char (subvolume_line mid v).
Proof.
  intros [Hm _] [Hi Ht [Hp _]]. destruct (pretty_plain _ (proj1 Hi)) as [_ H1]. destruct (pretty_plain _ (proj1 Ht)) as [_ H2].
  unfold subvolume_line, no_sep, rx_any in *. rewrite !str_forallb_app, H1, H2, Hm, Hp. done.
Qed.

(** What happens around the listing of a file system that is not mounted. *)
Definition around (fs : mountable_t) (dir : string) (acts : list action) : list action :=
  [Called "mkdtemp" ["/tmp/btrfs.XXXXXX"]; Ran 0 (["mount"; "-o"; match mt_type fs with MOUNTABLE_BTRFSVOL => "subvol=" +:+ mt_volume fs | _ => "" end] ++ [mt_device fs; dir])] ++
  acts ++ [Ran 0 ["umount"; dir]; Called "rmdir" [dir]].

(** C27: btrfs subvolume list: what the tool prints for each subvolume is read back, in order,
    whatever it prints between the two numbers, when no path has path between spaces in it; a
    file system that is not mounted is mounted on a new directory for it, unmounted again, and
    the directory removed. *)
Theorem subvolume_list_roundtrip (E : denv) (W : btrfs_world) (fs : mountable_t) (l : list (string * btrfssubvolume)) (s : pstate) :
  Forall (fun x => mid_ok (fst x) /\ subvolume_ok (snd x)) l ->
  (forall h dir, prints (ev_exec E h ["btrfs"; "subvolume"; "list"; dir]) (str_unlines ((fun x => subvolume_line (fst x) (snd x)) <$> l))) ->
  (forall h argv, hd "" argv ∈ ["mount"; "umount"] -> exists out, prints (ev_exec E h argv) out) ->
  (forall h dir, ev_call E h "rmdir" [dir] = None) -> (forall h t, exists dir, bw_mkdtemp W h t = inr dir) ->
  exists s' dir, do_btrfs_subvolume_list E W fs s = (Ret (Some (snd <$> l)), s') /\
    ps_log s' = ps_log s ++
      match mt_type fs with
      | MOUNTABLE_PATH => [Ran 0 ["btrfs"; "subvolume"; "list"; sysroot_path (sysroot E) (mt_device fs)]]
      | _ => around fs dir [Ran 0 ["btrfs"; "subvolume"; "list"; dir]]
      end.
Proof.
  intros Hl Hp Hm Hr Ht.
  assert (forall is_path dir s, exists s', list_in E fs is_path dir s = (Ret (Some (snd <$> l)), s') /\
    ps_log s' = ps_log s ++ [Ran 0 ["btrfs"; "subvolume"; "list"; dir]] ++ if is_path then [] else [Ran 0 ["umount"; dir]; Called "rmdir" [dir]]) as Hin.
  { intros is_path dir s1. unfold list_in. destruct (commandf_prints E true 0 _ _ s1 (Hp (ps_log s1) dir) eq_refl) as [err Hc].
    unfold command_out. rewrite (bind_Ret _ _ _ _ _ Hc). set (s2 := s1 <| ps_log ::= _ |>).
    assert (exists s3, (if is_path then ret None else unmount_tmp E dir) s2 = (Ret None, s3) /\
      ps_log s3 = ps_log s2 ++ if is_path then [] else [Ran 0 ["umount"; dir]; Called "rmdir" [dir]]) as (s3 & E3 & L3).
    { destruct is_path; [exists s2; by rewrite app_nil_r|]. unfold unmount_tmp.
      destruct (Hm (ps_log s2) ["umount"; dir] ltac:(set_solver)) as [out Ho].
      destruct (commandf_prints_gen E false true 0 _ out s2 Ho eq_refl) as [err' Hc'].
      erewrite bind_Ret by (unfold command_err; by rewrite (bind_Ret _ _ _ _ _ Hc')). cbv beta iota. change (0 =? -1) with false. cbv iota.
      erewrite bind_Ret by (unfold sys; by rewrite Hr). eexists. split; [reflexivity|]. cbn. by rewrite <- !app_assoc. }
    rewrite (bind_Ret _ _ _ _ _ E3). exists s3. cbn [default]. change (0 =? -1) with false. cbv iota. unfold id.
    rewrite split_lines_unlines by (apply Forall_fmap; eapply Forall_impl; [exact Hl|]; intros [mid v] [? ?]; by apply subvolume_line_no_nl).
    rewrite parse_subvolumes_lines by done. split; [done|]. rewrite L3. cbn. by rewrite <- app_assoc. }
  assert (forall dir opts msg s1, exists s', (r <- run_or (command_err E ["mount"; "-o"; opts; mt_device fs; dir]) msg ;;
      if r =? -1 then cmderror E false dir else list_in E fs false dir) s1 = (Ret (Some (snd <$> l)), s') /\
    ps_log s' = ps_log s1 ++ Ran 0 ["mount"; "-o"; opts; mt_device fs; dir] :: Ran 0 ["btrfs"; "subvolume"; "list"; dir] ::
      [Ran 0 ["umount"; dir]; Called "rmdir" [dir]]) as Hmnt.
  { intros dir opts msg s1. destruct (Hm (ps_log s1) ["mount"; "-o"; opts; mt_device fs; dir] ltac:(set_solver)) as [out Ho].
    rewrite (bind_Ret _ _ _ _ _ (run_or_prints E _ msg out s1 Ho)). change (0 =? -1) with false. cbv iota.
    match goal with |- exists s', list_in E fs false dir ?s2 = _ /\ _ => destruct (Hin false dir s2) as (s' & E1 & L1) end.
    exists s'. split; [exact E1|]. rewrite L1. cbn. by rewrite <- app_assoc. }
  destruct (mt_type fs) eqn:Ety.
  3: { destruct (Hin true (sysroot_path (sysroot E) (mt_device fs)) s) as (s' & E1 & L1). exists s', "".
       unfold do_btrfs_subvolume_list. rewrite Ety. by rewrite L1. }
  all: destruct (Ht (ps_log s) "/tmp/btrfs.XXXXXX") as [dir Hd]; unfold do_btrfs_subvolume_list; rewrite Ety;
    unfold gets, bind at 1; rewrite Hd; unfold log, modify, bind at 1; cbv beta iota;
    unfold mount_vfs_nochroot; rewrite Ety; cbn [app String.length Nat.ltb Nat.leb].
  all: edestruct Hmnt as (s' & E1 & L1); eexists s', dir; split; [exact E1|]; rewrite L1; unfold around; rewrite Ety; cbn; by rewrite <- app_assoc.
Qed.

(** * Examples *)

Definition ex_subvolumes : list (string * btrfssubvolume) :=
  [(" gen 30", mk_btrfssubvolume 256 5 "test1"); ("", mk_btrfssubvolume 257 5 "dir/test 2")].
Definition ex_subvolume_text : string := str_unlines ((fun x => subvolume_line (fst x) (snd x)) <$> ex_subvolumes).
Lemma ex_subvolume_text_is : ex_subvolume_text =
  str_unlines ["ID 256 gen 30 top level 5 path test1"; "ID 257 top level 5 path dir/test 2"].
Proof. by vm_compute. Qed.
Definition ex_btrfs : btrfs_world := mk_btrfs_world (fun _ => false) (fun _ t => inr t).

Lemma no_path_by_length (s : string) :
  forallb (fun n => match rx_match re_path (str_drop n s) with None => true | Some _ => false end) (seq 0 (S (String.length s))) = true ->
  no_path s.
Proof.
  intros H a b ->. rewrite forallb_forall in H. specialize (H (String.length a)). rewrite str_drop_app in H.
  destruct (rx_match re_path b); [|done]. rewrite str_length_app in H. discriminate H. apply in_seq. lia.
Qed.
Lemma subvolume_list_roundtrip_witness : exists s' dir,
  do_btrfs_subvolume_list (Parted.ex_env ex_subvolume_text) ex_btrfs (mk_mountable MOUNTABLE_DEVICE "/dev/sda1" "") ex_pstate =
    (Ret (Some [mk_btrfssubvolume 256 5 "test1"; mk_btrfssubvolume 257 5 "dir/test 2"]), s') /\
  ps_log s' = ps_log ex_pstate ++ around (mk_mountable MOUNTABLE_DEVICE "/dev/sda1" "") dir [Ran 0 ["btrfs"; "subvolume"; "list"; dir]].
Proof.
  apply (subvolume_list_roundtrip (Parted.ex_env ex_subvolume_text) ex_btrfs (mk_mountable MOUNTABLE_DEVICE "/dev/sda1" "") ex_subvolumes ex_pstate).
  - repeat constructor; cbn; try lia; try done; try (by intros c r [= <- <-]); by apply no_path_by_length; vm_compute.
  - intros h dir. cbn [ev_exec Parted.ex_env]. rewrite bool_decide_false by done. by apply printing_prints; vm_compute.
  - intros h argv Ha. exists ex_subvolume_text. cbn [ev_exec Parted.ex_env]. rewrite bool_decide_false by (intros ->; set_solver).
    by apply printing_prints; vm_compute.
  - done.
  - intros h t. by exists t.
Defined.

(** A subvolume whose path has " path " in it is listed under the end of its
    path only. *)
Lemma subvolume_path_cut :
  parse_subvolume (subvolume_line " gen 7" (mk_btrfssubvolume 260 5 "my path to/home")) = Some (mk_btrfssubvolume 260 5 "to/home").
Proof. by vm_compute. Qed.

(** btrfstune that exits with status 1 is taken for a success. *)
Lemma set_seeding_failure_ignored :
  let E := mk_denv (fun _ _ => exiting "" "not a btrfs file system" 1) (fun _ _ => inr 0) (fun _ _ _ => None)
    (fun _ => mk_dev_fs (fun _ => None) (fun _ => None) (fun _ => false) 0) (fun _ => Some []) (fun _ _ => 0) (fun _ => "") "/sysroot" in
  exists s', do_btrfs_set_seeding E "/dev/sda1" true ex_pstate = (Ret 0, s') /\ replies (ps_log s') = 0%nat.
Proof. by eexists. Qed.
