(* ===== verification/Xattr.v ===== *)
(** Extended attributes: daemon/xattr.c, and copy_attributes of daemon/file.c.

    The kernel may give another answer each time it is asked, because the
    files can change between two calls: every call is an entry of the log and
    the answers are functions of the log.  [XattrFs] is a file system that does
    not change while it is only read. *)

From S2P Require Import Prelude Xdr Protocol Handle Utils Events Conn LibProto Config Lifecycle Drives Command Guestfsd LibFile Fuse Procs Parted DevParts Filesys Content Files.
From stdpp Require Import sorting.
From Stdlib Require Import Ascii.

Open Scope Z_scope.
#[local] Arguments String.append : simpl nomatch.
#[local] Notation statbuf := Files.statbuf.
#[local] Notation st_mode := Files.st_mode.
#[local] Notation st_uid := Files.st_uid.
#[local] Notation st_gid := Files.st_gid.
#[local] Notation octal := Files.octal.
#[local] Notation total := Prelude.total.

(** * The kernel *)

(** What listxattr and getxattr ([true]: they follow symbolic links) and stat
    answer inside the chroot, an errno or the data; and what fresh memory
    holds at an offset. *)
Record xattr_world := mk_xattr_world {
  xw_list : bool -> list action -> string -> Z + list byte;
  xw_get : bool -> list action -> string -> string -> Z + list byte;
  xw_stat : list action -> string -> Z + statbuf;
  xw_fresh : list action -> nat -> byte
}.

Definition ERANGE : Z := 34.
Definition XATTR_SIZE_MAX : Z := 65536.

(** The result and what was stored in a buffer of [size] bytes; a size of 0
    asks for the size only. *)
Definition sized (r : Z + list byte) (size : nat) : Z + nat * list byte :=
  match r with
  | inl e => inl e
  | inr d =>
      if (size =? 0)%nat then inr (length d, [])
      else if (length d <=? size)%nat then inr (length d, d) else inl ERANGE
  end.
(** A buffer after data was stored at its start. *)
Definition fill (buf d : list byte) : list byte := d ++ drop (length d) buf.

Definition lprefix (follow : bool) (f : string) : string := "chroot " +:+ (if follow then "" else "l") +:+ f.

Section xattr.
Context (E : denv) (X : xattr_world).

(** A question to the kernel. *)
Definition ask {A} (f : string) (args : list string) (answer : list action -> A) : proc A := fun s =>
  (Ret (answer (ps_log s)), s <| ps_log ::= (fun l => l ++ [Called f args]) |>).
Definition sys_listxattr (follow : bool) (path : string) (size : nat) : proc (Z + nat * list byte) :=
  ask (lprefix follow "listxattr") [path] (fun h => sized (xw_list X follow h path) size).
Definition sys_getxattr (follow : bool) (path name : string) (size : nat) : proc (Z + nat * list byte) :=
  ask (lprefix follow "getxattr") [path; name] (fun h => sized (xw_get X follow h path name) size).
Definition sys_stat (path : string) : proc (Z + statbuf) :=
  ask "chroot stat" [path] (fun h => xw_stat X h path).

(** malloc, and the end of the block that realloc adds to [old]. *)
Definition malloc (n : nat) : proc (list byte) := gets (fun s => xw_fresh X (ps_log s) <$> seq 0 n).
Definition realloc (old : list byte) (n : nat) : proc (list byte) :=
  gets (fun s => old ++ (xw_fresh X (ps_log s) <$> seq (length old) (n - length old))).

(** * daemon/xattr.c *)

Definition optgroup_linuxxattrs_available : proc bool := ret true.

(** The names of the loop [for (i = 0; i < len; i += strlen (&buf[i]) + 1)];
    each turn advances, so [len] turns are enough. *)
Fixpoint names_loop (fuel : nat) (buf : list byte) (len i : nat) : outcome (list string) :=
  if (len <=? i)%nat then Ret [] else
  match fuel with
  | O => Stop OutOfFuel
  | S fuel' =>
      match string_at buf i with
      | None => Stop Undefined
      | Some n =>
          match names_loop fuel' buf len (i + length n + 1) with
          | Ret l => Ret (string_of_bytes n :: l)
          | Stop w => Stop w
          end
      end
  end.
Definition names_in (buf : list byte) (len : nat) : proc (list string) := fun s => (names_loop len buf len 0, s).

(** The buffer, and [*size]. *)
Definition _listxattrs (path : string) (follow : bool) : proc (option (list byte * nat)) :=
  r <- sys_listxattr follow path 0 ;;
  match r with
  | inl e => perror E e ("listxattr: " +:+ path) None
  | inr (len, _) =>
      buf <- malloc len ;;
      r <- sys_listxattr follow path len ;;
      match r with
      | inl e => perror E e ("listxattr: " +:+ path) None
      | inr (len, d) => ret (Some (fill buf d, len))
      end
  end.

Definition too_large : string := "extended attribute is too large".

(** A turn of the second loops of [getxattrs] and [do_internal_lxattrlist]:
    attrval_len is what the first call returned. *)
Definition getxattr_turn (follow : bool) (path name : string) : proc (option xattr) :=
  r <- sys_getxattr follow path name 0 ;;
  match r with
  | inl e => perror E e "getxattr" None
  | inr (vlen, _) =>
      if XATTR_SIZE_MAX <? Z.of_nat vlen then fail too_large None
      else
        attrval_val <- malloc vlen ;;
        r <- sys_getxattr follow path name vlen ;;
        match r with
        | inl e => perror E e "getxattr" None
        | inr (_, d) => ret (Some (mk_xattr name (fill attrval_val d)))
        end
  end.
Fixpoint getxattr_loop (follow : bool) (path : string) (names : list string) : proc (option (list xattr)) :=
  match names with
  | [] => ret (Some [])
  | name :: names' =>
      x <- getxattr_turn follow path name ;;
      match x with
      | None => ret None
      | Some x => l <- getxattr_loop follow path names' ;; ret (cons x <$> l)
      end
  end.

Definition compare_xattrs (xa1 xa2 : xattr) : Z := strcmp (attrname xa1) (attrname xa2).
Definition xattr_le (xa1 xa2 : xattr) : Prop := compare_xattrs xa1 xa2 <= 0.
#[export] Instance xattr_le_dec xa1 xa2 : Decision (xattr_le xa1 xa2) := Z_le_dec _ _.
(** qsort (3) with [compare_xattrs]. *)
Definition sort_xattrs (l : list xattr) : list xattr := merge_sort xattr_le l.

Definition getxattrs (path : string) (follow : bool) : proc (option (list xattr)) :=
  r <- _listxattrs path follow ;;
  match r with
  | None => ret None
  | Some (buf, len) =>
      names <- names_in buf len ;;
      r <- getxattr_loop follow path names ;;
      ret (sort_xattrs <$> r)
  end.
Definition do_getxattrs (path : string) : proc (option (list xattr)) := getxattrs path true.
Definition do_lgetxattrs (path : string) : proc (option (list xattr)) := getxattrs path false.

Definition _setxattr (xattr : string) (val : list byte) (path : string) (follow : bool) : proc Z :=
  if XATTR_SIZE_MAX <? zlength val then fail too_large (-1)
  else sys_or E (lprefix follow "setxattr") [path; xattr; string_of_bytes val] "setxattr".
Definition do_setxattr (xattr : string) (val : list byte) (path : string) : proc Z := _setxattr xattr val path true.
Definition do_lsetxattr (xattr : string) (val : list byte) (path : string) : proc Z := _setxattr xattr val path false.

Definition _removexattr (xattr path : string) (follow : bool) : proc Z :=
  sys_or E (lprefix follow "removexattr") [path; xattr] "removexattr".
Definition do_removexattr (xattr path : string) : proc Z := _removexattr xattr path true.
Definition do_lremovexattr (xattr path : string) : proc Z := _removexattr xattr path false.

(** entry[0] for a file whose attributes were read: their number and a NUL. *)
Definition count_entry (nr_attrs : nat) : xattr :=
  mk_xattr "" (bytes_of_string (snprintf 16 (pretty nr_attrs)) ++ [NUL]).

(** The entries for one name; the list of attributes of the file that cannot be
    read is not an error. *)
Definition lxattrlist_turn (path name : string) : proc (option (list xattr)) :=
  let pathname := path +:+ "/" +:+ name in
  r <- sys_listxattr false pathname 0 ;;
  match r with
  | inl _ => ret (Some [mk_xattr "" []])
  | inr (len, _) =>
      buf <- malloc len ;;
      r <- sys_listxattr false pathname len ;;
      match r with
      | inl _ => ret (Some [mk_xattr "" []])
      | inr (len, d) =>
          names <- names_in (fill buf d) len ;;
          l <- getxattr_loop false pathname names ;;
          match l with
          | None => ret None
          | Some l => ret (Some (count_entry (length names) :: sort_xattrs l))
          end
      end
  end.
Fixpoint lxattrlist_loop (path : string) (names : list string) (acc : list xattr) : proc (option (list xattr)) :=
  match names with
  | [] => ret (Some acc)
  | name :: names' =>
      l <- lxattrlist_turn path name ;;
      match l with
      | None => ret None
      | Some l => lxattrlist_loop path names' (acc ++ l)
      end
  end.
Definition do_internal_lxattrlist (path : string) (names : list string) : proc (option (list xattr)) :=
  lxattrlist_loop path names [].

Definition _getxattr (name path : string) (follow : bool) : proc (option (list byte)) :=
  r <- sys_getxattr follow path name 0 ;;
  match r with
  | inl e => perror E e "getxattr" None
  | inr (len, _) =>
      if XATTR_SIZE_MAX <? Z.of_nat len then fail too_large None
      else
        buf <- malloc len ;;
        r <- sys_getxattr follow path name len ;;
        match r with
        | inl e => perror E e "getxattr" None
        | inr (r, d) =>
            if negb (len =? r)%nat
            then fail ("getxattr: unexpected size (" +:+ pretty len +:+ "/" +:+ pretty r +:+ ")") None
            else ret (Some (fill buf d))
        end
  end.
Definition do_getxattr (path name : string) : proc (option (list byte)) := _getxattr name path true.
Definition do_lgetxattr (path name : string) : proc (option (list byte)) := _getxattr name path false.

(** The loop of [copy_xattrs]; [attrval] is the buffer, which only grows. *)
Fixpoint copy_xattrs_loop (src dest : string) (names : list string) (attrval : list byte) : proc bool :=
  match names with
  | [] => ret true
  | name :: names' =>
      r <- sys_getxattr true src name 0 ;;
      match r with
      | inl e => perror E e ("getxattr: " +:+ src +:+ ", " +:+ name) false
      | inr (vlen, _) =>
          if XATTR_SIZE_MAX <? Z.of_nat vlen then fail too_large false
          else
            attrval <- realloc attrval vlen ;;
            r <- sys_getxattr true src name vlen ;;
            match r with
            | inl e => perror E e ("getxattr: " +:+ src +:+ ", " +:+ name) false
            | inr (vlen, d) =>
                let attrval := fill attrval d in
                if (length attrval <? vlen)%nat then halt Undefined
                else
                  e <- sys E "chroot setxattr" [dest; name; string_of_bytes (take vlen attrval)] ;;
                  match e with
                  | Some e => perror E e ("setxattr: " +:+ dest +:+ ", " +:+ name) false
                  | None => copy_xattrs_loop src dest names' attrval
                  end
            end
      end
  end.
Definition copy_xattrs (src dest : string) : proc bool :=
  r <- _listxattrs src true ;;
  match r with
  | None => ret false
  | Some (buf, len) => names <- names_in buf len ;; copy_xattrs_loop src dest names []
  end.

(** * copy_attributes (daemon/file.c) *)

Definition file_mask : Z := 4095.
Definition perms (st : statbuf) : Z := Z.land (st_mode st) file_mask.

(** The flags, after [if (all)]. *)
Definition copy_flag (mask i : Z) (all flag : bool) : bool := if all && negb (Z.testbit mask i) then true else flag.

Definition call_or (f : string) (args : list string) (msg : string) : proc bool :=
  e <- sys E f args ;;
  match e with Some e => perror E e msg false | None => ret true end.

Definition do_copy_attributes (mask : Z) (src dest : string) (all mode xattributes ownership : bool) : proc Z :=
  let mode := copy_flag mask 1 all mode in
  let xattributes := copy_flag mask 2 all xattributes in
  let ownership := copy_flag mask 3 all ownership in
  r <- sys_stat src ;;
  match r with
  | inl e => perror E e ("stat: " +:+ src) (-1)
  | inr srcstat =>
  r <- sys_stat dest ;;
  match r with
  | inl e => perror E e ("stat: " +:+ dest) (-1)
  | inr deststat =>
  ok <- (if mode && negb (perms srcstat =? perms deststat)
         then call_or "chroot chmod" [dest; octal (perms srcstat)] ("chmod: " +:+ dest) else ret true) ;;
  if negb ok then ret (-1) else
  ok <- (if ownership && (negb (st_uid srcstat =? st_uid deststat) || negb (st_gid srcstat =? st_gid deststat))
         then call_or "chroot chown" [dest; pretty (st_uid srcstat); pretty (st_gid srcstat)] ("chown: " +:+ dest)
         else ret true) ;;
  if negb ok then ret (-1) else
  available <- optgroup_linuxxattrs_available ;;
  if xattributes && available then
    ok <- copy_xattrs src dest ;;
    if negb ok then ret (-1) else ret 0
  else ret 0
  end end.
End xattr.

(** * A file system that stays the same while it is read *)

Definition attr_ok (x : xattr) : Prop :=
  attrname x <> "" /\ no_byte NUL (bytes_of_string (attrname x)) /\ Z.of_nat (length (attrval x)) <= XATTR_SIZE_MAX.

(** The calls that only read. *)
Definition queries : list string :=
  "chroot stat" :: (lprefix true <$> ["listxattr"; "getxattr"]) ++ (lprefix false <$> ["listxattr"; "getxattr"]).
Definition is_query (a : action) : Prop := match a with Called f _ => f ∈ queries | _ => False end.

(** The calls that change something. *)
Definition is_effect (a : action) : bool :=
  match a with Called f _ => negb (bool_decide (f ∈ queries)) | Replied _ _ => false | _ => true end.
Definition effects (l : list action) : list action := List.filter is_effect l.

(** The attributes of a file, each with a name of its own; listxattr gives the
    names, each followed by a NUL, and getxattr the value of a name. *)
Class XattrFs (X : xattr_world) := {
  fs_attrs : bool -> list action -> string -> Z + list xattr;
  fs_list follow h path : xw_list X follow h path =
    match fs_attrs follow h path with inl e => inl e | inr l => inr (nul_terminated (attrname <$> l)) end;
  fs_get follow h path l x : fs_attrs follow h path = inr l -> x ∈ l -> xw_get X follow h path (attrname x) = inr (attrval x);
  fs_names follow h path l : fs_attrs follow h path = inr l -> NoDup (attrname <$> l) /\ Forall attr_ok l;
  fs_stable follow h new path : Forall is_query new -> fs_attrs follow (h ++ new) path = fs_attrs follow h path
}.

(** * Lemmas *)

Lemma sized_ok d : sized (inr d) (length d) = inr (length d, d).
Proof. unfold sized. destruct d as [|b d]; [done|]. by rewrite Nat.leb_refl. Qed.
Lemma fill_all buf d : length buf = length d -> fill buf d = d.
Proof. intros H. unfold fill. rewrite drop_ge by lia. apply app_nil_r. Qed.

Lemma lprefix_query follow f : f ∈ ["listxattr"; "getxattr"] -> lprefix follow f ∈ queries.
Proof. intros Hf. unfold queries. destruct follow; set_solver. Qed.

(** ** The names in a buffer *)

Lemma c_string_nul n rest : no_byte NUL n -> c_string (n ++ NUL :: rest) = Some n.
Proof. intros Hn. rewrite c_string_app_nul. f_equal. by apply until_nul_id. Qed.

Lemma names_loop_ok buf : forall names fuel pre, buf = pre ++ nul_terminated names ->
  Forall (fun n => no_byte NUL (bytes_of_string n)) names -> (length names <= fuel)%nat ->
  names_loop fuel buf (length buf) (length pre) = Ret names.
Proof.
  induction names as [|n names IH]; intros fuel pre Hb Hn Hf.
  { unfold nul_terminated in Hb. cbn in Hb. rewrite app_nil_r in Hb. subst. destruct fuel; cbn [names_loop]; by rewrite Nat.leb_refl. }
  apply Forall_cons in Hn as [Hn Hns]. change (nul_terminated (n :: names)) with ((bytes_of_string n ++ [NUL]) ++ nul_terminated names) in Hb.
  destruct fuel as [|fuel]; [cbn in Hf; lia|]. cbn [names_loop].
  replace (_ <=? _)%nat with false by (symmetry; apply Nat.leb_gt; subst; rewrite !length_app; cbn; lia).
  unfold string_at. rewrite Hb at 1. rewrite drop_app_length, <- app_assoc. cbn [app]. rewrite c_string_nul by done.
  replace (length pre + length (bytes_of_string n) + 1)%nat with (length (pre ++ bytes_of_string n ++ [NUL])) by (rewrite !length_app; cbn; lia).
  rewrite (IH fuel); [by rewrite string_of_bytes_of_string| |done|cbn in Hf; lia]. by rewrite Hb, <- !app_assoc.
Qed.

Lemma names_in_ok names s : Forall (fun n => no_byte NUL (bytes_of_string n)) names ->
  names_in (nul_terminated names) (length (nul_terminated names)) s = (Ret names, s).
Proof.
  intros Hn. unfold names_in. rewrite (names_loop_ok _ names _ []); [done|done|done|].
  clear Hn. induction names as [|n names IH]; [done|]. cbn. unfold nul_terminated in IH. rewrite !length_app. cbn. lia.
Qed.

(** ** Sorting *)

#[export] Instance xattr_le_total : Total xattr_le.
Proof. intros x y. apply (str_le_total (attrname x) (attrname y)). Qed.
Lemma sort_xattrs_sorted l : Sorted xattr_le (sort_xattrs l) /\ sort_xattrs l ≡ₚ l.
Proof. split; [apply Sorted_merge_sort; apply _|apply merge_sort_Permutation]. Qed.

(** ** Reading *)

(** Only such actions were made between the two logs, with these effects. *)
Definition did (P : action -> Prop) (h es h' : list action) : Prop :=
  exists new, h' = h ++ new /\ Forall P new /\ effects new = es.
Notation asked := (did is_query).
(** They do not change the attributes of the file. *)
Definition steady {X} `{!XattrFs X} (P : action -> Prop) (follow : bool) (path : string) : Prop :=
  forall h new, Forall P new -> fs_attrs follow (h ++ new) path = fs_attrs follow h path.

Lemma effects_app l k : effects (l ++ k) = effects l ++ effects k.
Proof. apply List.filter_app. Qed.
Lemma effect_query f args : f ∈ queries -> effects [Called f args] = [].
Proof. intros Hf. cbn. by rewrite bool_decide_true. Qed.
Lemma did_refl P h : did P h [] h.
Proof. exists []. by rewrite app_nil_r. Qed.
Lemma did_call P h es h' a : did P h es h' -> P a -> did P h (es ++ effects [a]) (h' ++ [a]).
Proof.
  intros (new & -> & HP & <-) Ha. exists (new ++ [a]). rewrite app_assoc, effects_app. split_and!; [done| |done].
  apply Forall_app. split; [done|]. by apply Forall_singleton.
Qed.

Section reading.
Context (E : denv) (X : xattr_world) `{!XattrFs X} (P : action -> Prop) (follow : bool) (path : string).
Context (HP : forall a, is_query a -> P a) (Hst : steady P follow path).

#[local] Notation since h es := (fun s => did P h es (ps_log s)).

Lemma did_attrs h es h' : did P h es h' -> fs_attrs follow h' path = fs_attrs follow h path.
Proof. intros (new & -> & Hq & _). by apply Hst. Qed.

Lemma total_ask {A} h es f args (answer : list action -> A) (a : A) : f ∈ queries ->
  (forall h', did P h es h' -> answer h' = a) -> total (since h es) (ask f args answer) (fun r s => did P h es (ps_log s) /\ r = a).
Proof.
  intros Hf Ha s Hs. eexists _, _. split; [reflexivity|]. split; [|by apply Ha].
  pose proof (did_call P h es (ps_log s) (Called f args) Hs (HP (Called f args) Hf)) as Hd. rewrite effect_query, app_nil_r in Hd by done. exact Hd.
Qed.
Lemma total_malloc h es n : total (since h es) (malloc X n) (fun buf s => did P h es (ps_log s) /\ length buf = n).
Proof. intros s Hs. eexists _, s. split; [reflexivity|]. split; [done|]. by rewrite length_fmap, length_seq. Qed.

(** The list of names, as the kernel gives it. *)
Definition name_list (r : Z + list xattr) : Z + list byte :=
  match r with inl e => inl e | inr l => inr (nul_terminated (attrname <$> l)) end.
Lemma total_list h es size : total (since h es) (sys_listxattr X follow path size)
  (fun r s => did P h es (ps_log s) /\ r = sized (name_list (fs_attrs follow h path)) size).
Proof.
  apply total_ask; [apply lprefix_query; set_solver|]. intros h' Hh'. rewrite fs_list. by rewrite (did_attrs _ _ _ Hh').
Qed.
Lemma total_get h es l x size : fs_attrs follow h path = inr l -> x ∈ l ->
  total (since h es) (sys_getxattr X follow path (attrname x) size)
    (fun r s => did P h es (ps_log s) /\ r = sized (inr (attrval x)) size).
Proof.
  intros Hl Hx. apply total_ask; [apply lprefix_query; set_solver|]. intros h' Hh'. f_equal.
  eapply fs_get; [|done]. by rewrite (did_attrs _ _ _ Hh').
Qed.

Lemma total_turn h es l x : fs_attrs follow h path = inr l -> x ∈ l ->
  total (since h es) (getxattr_turn E X follow path (attrname x)) (fun r s => did P h es (ps_log s) /\ r = Some x).
Proof.
  intros Hl Hx. pose proof (fs_names _ _ _ _ Hl) as [_ Hok]. rewrite Forall_forall in Hok. destruct (Hok x Hx) as (_ & _ & Hlen).
  unfold getxattr_turn. eapply total_bind; [by eapply total_get|]. cbn beta. intros r. apply total_pure_r. intros ->. cbn.
  destruct (Z.ltb_spec XATTR_SIZE_MAX (Z.of_nat (length (attrval x)))); [lia|].
  eapply total_bind; [apply total_malloc|]. cbn beta. intros buf. apply total_pure_r. intros Hb.
  eapply total_bind; [by eapply total_get|]. cbn beta. intros r. apply total_pure_r. intros ->. rewrite sized_ok.
  rewrite fill_all by done. intros s Hs. eexists _, s. split; [reflexivity|]. split; [done|]. by destruct x.
Qed.
Lemma total_loop h es l : fs_attrs follow h path = inr l -> forall l', l' ⊆ l ->
  total (since h es) (getxattr_loop E X follow path (attrname <$> l')) (fun r s => did P h es (ps_log s) /\ r = Some l').
Proof.
  intros Hl. induction l' as [|x l' IH]; intros Hsub.
  { intros s Hs. by exists (Some []), s. }
  cbn [getxattr_loop fmap list_fmap]. eapply total_bind; [eapply total_turn; [done|set_solver]|]. cbn beta. intros r. apply total_pure_r. intros ->.
  eapply total_bind; [apply IH; set_solver|]. cbn beta. intros r. apply total_pure_r. intros -> s Hs. by eexists _, s.
Qed.

(** The kernel's list and the names in it; an error is replied by [failed]. *)
Lemma total_names {A} h es (failed : Z -> proc A) (k : list string -> proc A) Q :
  (forall e, fs_attrs follow h path = inl e -> total (since h es) (failed e) Q) ->
  (forall l, fs_attrs follow h path = inr l -> total (since h es) (k (attrname <$> l)) Q) ->
  total (since h es)
    (r <- sys_listxattr X follow path 0 ;;
     match r with
     | inl e => failed e
     | inr (len, _) =>
         buf <- malloc X len ;;
         r <- sys_listxattr X follow path len ;;
         match r with inl e => failed e | inr (len, d) => names <- names_in (fill buf d) len ;; k names end
     end) Q.
Proof.
  intros Hf Hk. eapply total_bind; [apply total_list|]. cbn beta. intros r. apply total_pure_r. intros ->.
  destruct (fs_attrs follow h path) as [e|l] eqn:Hl; cbn [name_list sized]; [by apply Hf|]. cbn [Nat.eqb].
  eapply total_bind; [apply total_malloc|]. cbn beta. intros buf. apply total_pure_r. intros Hb.
  eapply total_bind; [apply total_list|]. cbn beta. intros r. apply total_pure_r. intros ->.
  rewrite Hl. unfold name_list. rewrite sized_ok. cbn. rewrite fill_all by done.
  assert (Forall (fun n => no_byte NUL (bytes_of_string n)) (attrname <$> l)) as Hn.
  { destruct (fs_names _ _ _ _ Hl) as [_ Hok]. apply Forall_fmap. eapply Forall_impl; [exact Hok|]. by intros x (_ & ? & _). }
  intros s Hs. rewrite (bind_Ret _ _ _ _ _ (names_in_ok _ s Hn)). by apply Hk.
Qed.

End reading.

(** [_listxattrs] and the names, as its callers use it. *)
Lemma listxattrs_names {A} E X follow path (z : A) (k : list string -> proc A) s :
  (r <- _listxattrs E X path follow ;;
   match r with None => ret z | Some (buf, len) => names <- names_in buf len ;; k names end) s =
  (r <- sys_listxattr X follow path 0 ;;
   match r with
   | inl e => perror E e ("listxattr: " +:+ path) z
   | inr (len, _) =>
       buf <- malloc X len ;;
       r <- sys_listxattr X follow path len ;;
       match r with
       | inl e => perror E e ("listxattr: " +:+ path) z
       | inr (len, d) => names <- names_in (fill buf d) len ;; k names
       end
   end) s.
Proof.
  unfold _listxattrs, bind. cbn. destruct (sized _ 0) as [e|[len d]]; [done|]. cbn. by destruct (sized _ len) as [e|[len' d']].
Qed.

Lemma total_listed {A} E X `{!XattrFs X} (P : action -> Prop) follow path h es (z : A) (k : list string -> proc A) Q :
  (forall a, is_query a -> P a) -> steady P follow path ->
  (forall e, fs_attrs follow h path = inl e ->
     total (fun s => did P h es (ps_log s)) (perror E e ("listxattr: " +:+ path) z) Q) ->
  (forall l, fs_attrs follow h path = inr l -> total (fun s => did P h es (ps_log s)) (k (attrname <$> l)) Q) ->
  total (fun s => did P h es (ps_log s))
    (r <- _listxattrs E X path follow ;;
     match r with None => ret z | Some (buf, len) => names <- names_in buf len ;; k names end) Q.
Proof.
  intros HP Hst Hf Hk s Hs. rewrite listxattrs_names. revert s Hs.
  exact (total_names X P follow path HP Hst h es (fun e => perror E e ("listxattr: " +:+ path) z) k Q Hf Hk).
Qed.

(** * Listing *)

(** What lxattrlist has to say about a file. *)
Definition file_attrs {X} `{!XattrFs X} (h : list action) (pathname : string) : option (list xattr) :=
  match fs_attrs false h pathname with inl _ => None | inr l => Some (sort_xattrs l) end.

Section listing.
Context (E : denv) (X : xattr_world) `{!XattrFs X}.
#[local] Notation since h := (fun s => asked h [] (ps_log s)).
Lemma queries_steady follow path : steady is_query follow path.
Proof. intros h new. apply fs_stable. Qed.
#[local] Hint Resolve queries_steady : core.

Lemma getxattrs_run h follow path : match fs_attrs follow h path with
  | inr l => total (since h) (getxattrs E X path follow) (fun r s => asked h [] (ps_log s) /\ r = Some (sort_xattrs l))
  | inl e => total (since h) (getxattrs E X path follow) (fun r s => r = None /\ exists new,
      ps_log s = h ++ new ++ [Replied e (("listxattr: " +:+ path) +:+ ": " +:+ ev_strerror E e)] /\ Forall is_query new)
  end.
Proof.
  destruct (fs_attrs follow h path) as [e|l] eqn:Hl; (apply (total_listed E X is_query follow path h []); [done|done|..]); rewrite Hl; try done.
  - intros ? [= <-] s (new & Hs & Hq & _). eexists _, _. split; [reflexivity|]. split; [done|]. exists new. cbn.
    by rewrite Hs, <- app_assoc.
  - intros ? [= <-]. eapply total_bind; [by eapply total_loop|]. cbn beta. intros r. apply total_pure_r. intros -> s Hs.
    by eexists _, s.
Qed.

Lemma lxattrlist_turn_run h path name :
  total (since h) (lxattrlist_turn E X path name) (fun r s => asked h [] (ps_log s) /\
    r = Some (match file_attrs h (path +:+ "/" +:+ name) with
              | None => [mk_xattr "" []] | Some l => count_entry (length l) :: l end)).
Proof.
  unfold lxattrlist_turn. apply (total_names X is_query false (path +:+ "/" +:+ name) (fun a H => H) (queries_steady _ _) h [] (fun _ => ret (Some [mk_xattr "" []]))).
  - intros e Hl s Hs. eexists _, s. split; [reflexivity|]. split; [done|]. unfold file_attrs. by rewrite Hl.
  - intros l Hl. eapply total_bind; [by eapply total_loop|]. cbn beta. intros r. apply total_pure_r. intros -> s Hs.
    eexists _, s. split; [reflexivity|]. split; [done|]. unfold file_attrs. rewrite Hl, length_fmap. do 3 f_equal.
    by rewrite (proj2 (sort_xattrs_sorted l)).
Qed.

(** The entries of a list of files. *)
Definition entries_of (files : list (option (list xattr))) : list xattr :=
  files ≫= (fun f => match f with None => [mk_xattr "" []] | Some l => count_entry (length l) :: l end).
Lemma lxattrlist_run h path names : forall acc,
  total (since h) (lxattrlist_loop E X path names acc) (fun r s => asked h [] (ps_log s) /\
    r = Some (acc ++ entries_of ((fun name => file_attrs h (path +:+ "/" +:+ name)) <$> names))).
Proof.
  induction names as [|name names IH]; intros acc.
  { intros s Hs. eexists _, s. split; [reflexivity|]. cbn. by rewrite app_nil_r. }
  cbn [lxattrlist_loop]. eapply total_bind; [apply lxattrlist_turn_run|]. cbn beta. intros r. apply total_pure_r. intros ->.
  eapply total_post; [apply IH|]. cbn beta. intros r s (Hs & ->). split; [done|]. cbn. by rewrite <- app_assoc.
Qed.

Lemma count_entry_value n : attrval (count_entry n) <> [].
Proof. unfold count_entry. cbn. by destruct (bytes_of_string _). Qed.
Lemma entries_encode files : Forall (fun f => match f with Some l => Forall attr_ok l | None => True end) files ->
  encodes files (entries_of files).
Proof.
  induction 1 as [|f files Hf Hfs IH]; [constructor|]. destruct f as [l|]; [|by constructor].
  change (entries_of (Some l :: files)) with (count_entry (length l) :: (l ++ entries_of files)). constructor; [apply count_entry_value| | |done].
  - eapply Forall_impl; [exact Hf|]. by intros x (? & _).
  - clear. by destruct files as [|[l|] files].
Qed.
Lemma file_attrs_ok h p : match file_attrs h p with Some l => Forall attr_ok l | None => True end.
Proof.
  unfold file_attrs. destruct (fs_attrs false h p) as [|l] eqn:Hl; [done|]. rewrite (proj2 (sort_xattrs_sorted l)).
  by eapply fs_names.
Qed.
End listing.

(** * Copying *)

(** What copy_attributes does to the destination. *)
Definition set_call (dest : string) (x : xattr) : action :=
  Called "chroot setxattr" [dest; attrname x; string_of_bytes (attrval x)].
Definition mode_calls (dest : string) (mode : bool) (st1 st2 : statbuf) : list action :=
  if mode && negb (perms st1 =? perms st2) then [Called "chroot chmod" [dest; octal (perms st1)]] else [].
Definition owner_calls (dest : string) (ownership : bool) (st1 st2 : statbuf) : list action :=
  if ownership && (negb (st_uid st1 =? st_uid st2) || negb (st_gid st1 =? st_gid st2))
  then [Called "chroot chown" [dest; pretty (st_uid st1); pretty (st_gid st1)]] else [].

(** The calls that read, and those that change [dest]. *)
Definition copying (dest : string) (a : action) : Prop :=
  is_query a \/ match a with
                | Called f (p :: _) => p = dest /\ f ∈ ["chroot chmod"; "chroot chown"; "chroot setxattr"]
                | _ => False
                end.

Section copying.
Context (E : denv) (X : xattr_world) `{!XattrFs X} (src dest : string).
Context (Hst : steady (copying dest) true src).
#[local] Notation doing h es := (fun s => did (copying dest) h es (ps_log s)).

Lemma copying_query a : is_query a -> copying dest a.
Proof. by left. Qed.

(** A call failed after a part of the plan, and one error was replied. *)
Definition stopped (h plan : list action) (s : pstate) : Prop :=
  exists new e m, ps_log s = h ++ new ++ [Replied e m] /\ Forall (copying dest) new /\ effects new `prefix_of` plan /\
    exists h' f args, is_Some (ev_call E h' f args).
(** All of the plan was done, or it was stopped. *)
Definition carried_out (h plan : list action) (ok : bool) (s : pstate) : Prop :=
  if ok then did (copying dest) h plan (ps_log s) else stopped h plan s.

Lemma total_effect {A} h es f args msg (z : A) (k : proc A) Q more :
  f ∈ ["chroot chmod"; "chroot chown"; "chroot setxattr"] ->
  (forall s, stopped h (es ++ Called f (dest :: args) :: more) s -> Q z s) ->
  total (doing h (es ++ [Called f (dest :: args)])) k Q ->
  total (doing h es) (e <- sys E f (dest :: args) ;; match e with Some e => perror E e msg z | None => k end) Q.
Proof.
  intros Hf Hz Hk s Hs. unfold bind at 1, sys.
  set (a := Called f (dest :: args)). set (s1 := s <| ps_log ::= (fun l => l ++ [a]) |>).
  assert (did (copying dest) h (es ++ [a]) (ps_log s1)) as Hs1.
  { replace [a] with (effects [a]); [apply did_call; [done|by right]|]. cbn. rewrite bool_decide_false; [done|].
    intros Hq. unfold queries in Hq. clear -Hf Hq. set_solver. }
  destruct (ev_call E (ps_log s) f (dest :: args)) as [e|] eqn:He; [|by apply Hk].
  eexists _, _. split; [reflexivity|]. apply Hz. destruct Hs1 as (new & Hl & HP & He'). exists new, e. eexists.
  split; [cbn in *; rewrite Hl, <- app_assoc; reflexivity|]. split_and!; [done| |by eauto].
  rewrite He'. exists more. by rewrite <- app_assoc.
Qed.

Lemma total_call_or h es f args msg :
  f ∈ ["chroot chmod"; "chroot chown"; "chroot setxattr"] ->
  total (doing h es) (call_or E f (dest :: args) msg) (carried_out h (es ++ [Called f (dest :: args)])).
Proof.
  intros Hf. unfold call_or. eapply (total_effect h es f args msg false (ret true) _ []); [done|done|].
  intros s Hs. by exists true, s.
Qed.

Lemma copy_loop_run h l : fs_attrs true h src = inr l -> forall l' attrval es, l' ⊆ l ->
  total (doing h es) (copy_xattrs_loop E X src dest (attrname <$> l') attrval)
    (carried_out h (es ++ (set_call dest <$> l'))).
Proof.
  intros Hl. induction l' as [|x l' IH]; intros buf es Hsub.
  { intros s Hs. exists true, s. split; [done|]. cbn. by rewrite app_nil_r. }
  assert (x ∈ l) as Hx by set_solver. cbn [copy_xattrs_loop fmap list_fmap].
  destruct (fs_names _ _ _ _ Hl) as [_ Hok]. rewrite Forall_forall in Hok. destruct (Hok x Hx) as (_ & _ & Hlen).
  eapply total_bind; [by apply (total_get X (copying dest) true src copying_query Hst h es l x)|]. cbn beta. intros r. apply total_pure_r. intros ->. cbn [sized Nat.eqb].
  destruct (Z.ltb_spec XATTR_SIZE_MAX (Z.of_nat (length (attrval x)))); [lia|].
  eapply (total_bind _ _ (fun b s => did (copying dest) h es (ps_log s) /\ (length (attrval x) <= length b)%nat)).
  { intros s Hs. eexists _, s. split; [reflexivity|]. split; [done|]. rewrite length_app, length_fmap, length_seq. lia. }
  cbn beta. intros b. apply total_pure_r. intros Hb.
  eapply total_bind; [by apply (total_get X (copying dest) true src copying_query Hst h es l x)|]. cbn beta. intros r. apply total_pure_r. intros ->. rewrite sized_ok.
  replace (_ <? _)%nat with false by (symmetry; apply Nat.ltb_ge; unfold fill; rewrite length_app; lia).
  unfold fill at 1. rewrite take_app_length. change (set_call dest <$> x :: l') with (set_call dest x :: (set_call dest <$> l')).
  apply (total_effect h es _ _ _ false _ _ (set_call dest <$> l')); [set_solver|done|].
  eapply total_post; [apply (IH (fill b (attrval x)) (es ++ [set_call dest x])); set_solver|]. intros r s. by rewrite <- app_assoc.
Qed.

Lemma copy_xattrs_run h es l : fs_attrs true h src = inr l ->
  total (doing h es) (copy_xattrs E X src dest) (carried_out h (es ++ (set_call dest <$> l))).
Proof.
  intros Hl. apply (total_listed E X (copying dest) true src h es false); [apply copying_query|done|by rewrite Hl|].
  rewrite Hl. intros ? [= <-]. by apply (copy_loop_run h l).
Qed.

Lemma total_stop {A} h plan more (z : A) (k : bool -> proc A) (m : proc bool) es Q :
  total (doing h es) m (carried_out h plan) ->
  (forall s, stopped h (plan ++ more) s -> Q z s) -> total (doing h plan) (k true) Q ->
  total (doing h es) (ok <- m ;; if negb ok then ret z else k ok) Q.
Proof.
  intros Hm Hz Hk. eapply total_bind; [exact Hm|]. intros [|]; [exact Hk|]. cbn. intros s (new & e & msg & Hl & HP & Hpre & Hc).
  exists z, s. split; [done|]. apply Hz. exists new, e, msg. split_and!; [done|done| |done]. by apply prefix_app_r.
Qed.
End copying.

(** * One reply *)

Section replies.
Context (E : denv) (X : xattr_world).

Lemma quiet_ask {A} f args (answer : list action -> A) : quiet (ask f args answer).
Proof. apply quiet_intro. intros s. by eexists _, _, [Called f args]. Qed.
Lemma quiet_listxattr follow p n : quiet (sys_listxattr X follow p n).
Proof. apply quiet_ask. Qed.
Lemma quiet_getxattr follow p name n : quiet (sys_getxattr X follow p name n).
Proof. apply quiet_ask. Qed.
Lemma quiet_sys_stat p : quiet (sys_stat X p).
Proof. apply quiet_ask. Qed.
Lemma quiet_malloc n : quiet (malloc X n).
Proof. apply quiet_gets. Qed.
Lemma quiet_realloc old n : quiet (realloc X old n).
Proof. apply quiet_gets. Qed.
#[local] Hint Resolve quiet_listxattr quiet_getxattr quiet_sys_stat quiet_malloc quiet_realloc : quiet.

Lemma _setxattr_one_reply ub xattr val p follow : one_reply ub int_failed (_setxattr E xattr val p follow).
Proof. unfold _setxattr. emits. Qed.
Lemma _removexattr_one_reply ub xattr p follow : one_reply ub int_failed (_removexattr E xattr p follow).
Proof. apply sys_or_one_reply. Qed.
Lemma _getxattr_one_reply ub name p follow : one_reply ub ptr_failed (_getxattr E X name p follow).
Proof. unfold _getxattr. emits. Qed.

(** A name beyond the end of the buffer may be read when the kernel's answers
    do not agree. *)
Lemma names_loop_stops fuel buf len : forall i, (len <= i + fuel)%nat ->
  match names_loop fuel buf len i with Ret _ => True | Stop w => w = Undefined end.
Proof.
  induction fuel as [|fuel IH]; intros i Hi; cbn [names_loop]; (destruct (Nat.leb_spec len i); [done|]); [lia|].
  destruct (string_at buf i) as [n|]; [|done]. specialize (IH (i + length n + 1)%nat ltac:(lia)).
  by destruct (names_loop fuel buf len _).
Qed.
Lemma names_in_emits {B} buf len (k : list string -> proc B) R :
  (forall names, emits true (k names) R) -> emits true (bind (names_in buf len) k) R.
Proof.
  intros Hk s. pose proof (names_loop_stops len buf len 0 ltac:(lia)) as Hn. unfold bind, names_in.
  destruct (names_loop len buf len 0) as [names|w]; [by apply Hk|]. exists (Stop w), s, []. by rewrite app_nil_r.
Qed.

Lemma getxattr_turn_one_reply ub follow p name : one_reply ub ptr_failed (getxattr_turn E X follow p name).
Proof. unfold getxattr_turn. emits. Qed.
#[local] Hint Resolve getxattr_turn_one_reply : one_reply.
Lemma getxattr_loop_one_reply ub follow p names : one_reply ub ptr_failed (getxattr_loop E X follow p names).
Proof. induction names as [|name names IH]; cbn [getxattr_loop]; [by apply emits_ret|]. emits. Qed.
Lemma _listxattrs_one_reply ub p follow : one_reply ub ptr_failed (_listxattrs E X p follow).
Proof. unfold _listxattrs. emits. Qed.
#[local] Hint Resolve getxattr_loop_one_reply _listxattrs_one_reply : one_reply.
Lemma getxattrs_one_reply p follow : one_reply true ptr_failed (getxattrs E X p follow).
Proof.
  unfold getxattrs. eapply emits_bind; [apply _listxattrs_one_reply|]. intros [[buf len]|] n ->; [|by apply emits_ret].
  apply names_in_emits. intros names. emits.
Qed.
Lemma lxattrlist_turn_one_reply p name : one_reply true ptr_failed (lxattrlist_turn E X p name).
Proof.
  unfold lxattrlist_turn. eapply emits_quiet; [apply quiet_listxattr|]. intros [e|[len d]]; [by apply emits_ret|].
  eapply emits_quiet; [apply quiet_malloc|]. intros buf. eapply emits_quiet; [apply quiet_listxattr|]. intros [e|[len' d']]; [by apply emits_ret|].
  apply names_in_emits. intros names. emits.
Qed.
Lemma lxattrlist_one_reply p names : one_reply true ptr_failed (do_internal_lxattrlist E X p names).
Proof.
  unfold do_internal_lxattrlist. generalize (@nil xattr) as acc. induction names as [|name names IH]; intros acc; [by apply emits_ret|].
  cbn [lxattrlist_loop]. eapply emits_bind; [apply lxattrlist_turn_one_reply|]. intros [l|] n ->; [apply IH|by apply emits_ret].
Qed.
Lemma copy_loop_one_reply src dest names : forall attrval, one_reply true false_failed (copy_xattrs_loop E X src dest names attrval).
Proof. induction names as [|name names IH]; intros attrval; cbn [copy_xattrs_loop]; [by apply emits_ret|]. emits. Qed.
Lemma copy_xattrs_one_reply src dest : one_reply true false_failed (copy_xattrs E X src dest).
Proof.
  unfold copy_xattrs. eapply emits_bind; [apply _listxattrs_one_reply|]. intros [[buf len]|] n ->; [|by apply emits_ret].
  apply names_in_emits. intros names. apply copy_loop_one_reply.
Qed.
Lemma call_or_one_reply ub f args msg : one_reply ub false_failed (call_or E f args msg).
Proof. unfold call_or. emits. Qed.
Lemma if_call_one_reply ub (b : bool) f args msg : one_reply ub false_failed (if b then call_or E f args msg else ret true).
Proof. destruct b; [apply call_or_one_reply|by apply emits_ret]. Qed.
Lemma quiet_linuxxattrs : quiet optgroup_linuxxattrs_available.
Proof. apply quiet_ret. Qed.
#[local] Hint Resolve copy_xattrs_one_reply if_call_one_reply : one_reply.
#[local] Hint Resolve quiet_linuxxattrs : quiet.
Lemma copy_attributes_one_reply mask src dest all mode xattributes ownership :
  one_reply true int_failed (do_copy_attributes E X mask src dest all mode xattributes ownership).
Proof.
  unfold do_copy_attributes. emits.
Qed.
End replies.

(** * Theorems *)

(** getxattrs and lgetxattrs return every attribute of the file once, with its whole value, in the
    order of strcmp, and change nothing; when the list cannot be read the errno of listxattr is
    replied. *)
Theorem getxattrs_correct (E : denv) (X : xattr_world) `{!XattrFs X} (path : string) (follow : bool) (s : pstate) :
  exists r s', getxattrs E X path follow s = (Ret r, s') /\
    match fs_attrs follow (ps_log s) path with
    | inr l => exists l', r = Some l' /\ l' ≡ₚ l /\ Sorted xattr_le l' /\ asked (ps_log s) [] (ps_log s')
    | inl e => r = None /\ exists new, ps_log s' =
        ps_log s ++ new ++ [Replied e (("listxattr: " +:+ path) +:+ ": " +:+ ev_strerror E e)] /\ Forall is_query new
    end.
Proof.
  pose proof (getxattrs_run E X (ps_log s) follow path) as Hr.
  destruct (fs_attrs follow (ps_log s) path) as [e|l]; destruct (Hr s (did_refl _ _)) as (r & s' & Es & Hq); exists r, s'; split; try done.
  destruct Hq as [Hq ->]. exists (sort_xattrs l). destruct (sort_xattrs_sorted l). by split_and!.
Qed.

(** The guest of the library is the daemon's state. *)
Definition on_daemon {A} (m : proc A) : fm pstate A := zoom w_guest (fun s w => w <| w_guest := s |>) m.
(** The stub of internal_lxattrlist runs the procedure of the daemon. *)
Definition calls_lxattrlist (E : denv) (X : xattr_world) `{GuestCalls pstate} : Prop :=
  forall dir names w, guestfs_internal_lxattrlist dir names w = on_daemon (do_internal_lxattrlist E X dir names) w.

(** ** The decoding of the list (src/fuse.c) *)

Lemma entry_path_inj path name name' : entry_path path name = entry_path path name' -> name = name'.
Proof.
  unfold entry_path. case_match; intros Heq; [by simplify_eq|]. apply (inj (String.append path)) in Heq. by simplify_eq.
Qed.

Section decoding.
Context {T : Type -> Type} {G : Type} `{HashLaws T} (path : string) (now : Z).
(** There is memory. *)
Context (Hroom : forall A (t : T A) p x, is_Some (hash_insert t p x)).

Lemma xac_insert_run name xs (w : fuse T G) t : xac_ht w = Some t -> exists t',
  xac_insert path name now xs w = (Ret 0, w <| xac_ht := Some t' |>) /\
  forall p, hash_lookup t' p =
    if decide (entry_path path name = p) then Some (mk_entry (now + ml_dir_cache_timeout w) xs) else hash_lookup t p.
Proof.
  intros Ht. set (q := entry_path path name). set (e := mk_entry (now + ml_dir_cache_timeout w) xs).
  destruct (Hroom _ (hash_delete t q) q e) as [t' Et]. exists t'. split.
  - unfold xac_insert, gen_replace. fold q e. rewrite Ht. unfold bind at 1. cbn. by rewrite Et.
  - intros p. rewrite (hash_lookup_insert _ _ _ _ _ ltac:(by rewrite hash_lookup_delete, decide_True) Et).
    case_decide; [done|]. by rewrite hash_lookup_delete, decide_False.
Qed.

(** What a table holds when the attributes [f] of these files were added to [t]. *)
Definition cached (f : string -> option (list xattr)) (until : Z) (names : list string) (t t' : T (entry (list xattr))) : Prop :=
  (forall name xs, name ∈ names -> f name = Some xs -> hash_lookup t' (entry_path path name) = Some (mk_entry until xs)) /\
  (forall p, (forall name, name ∈ names -> is_Some (f name) -> entry_path path name <> p) -> hash_lookup t' p = hash_lookup t p).

Lemma cache_xattrs_decodes f names : forall ns pre l fuel (w : fuse T G) t, encodes (f <$> ns) l -> names = pre ++ ns ->
  (length l <= fuel)%nat -> xac_ht w = Some t -> exists t',
  cache_xattrs fuel path now names (length pre) l w = (Ret tt, w <| xac_ht := Some t' |>) /\
  cached f (now + ml_dir_cache_timeout w) ns t t'.
Proof.
  induction ns as [|name ns IH]; intros pre l fuel w t He Hn Hf Ht.
  { inversion He. subst. exists t. split; [|by split; [set_solver|]]. destruct w. cbn in Ht. subst. by destruct fuel. }
  rewrite fmap_cons in He. assert (names = (pre ++ [name]) ++ ns) as Hn' by (by rewrite <- app_assoc).
  assert (length (pre ++ [name]) = S (length pre)) as Hlen by (rewrite length_app; cbn; lia).
  inversion He as [|h files l' Hh He' Hfn|h xs files l' Hh Hxs Hl He' Hfn]; subst files; [subst l|]; symmetry in Hfn.
  - destruct fuel as [|fuel]; [cbn in Hf; lia|]. cbn [cache_xattrs]. rewrite Hh. cbn [length Nat.ltb Nat.leb].
    rewrite <- Hlen. destruct (IH _ l' fuel w t He' Hn' ltac:(cbn in Hf; lia) Ht) as (t' & Et & H1 & H2).
    exists t'. split; [done|]. split; [|intros p Hp; apply H2; set_solver].
    intros name' xs' [->|Hin]%elem_of_cons Hx; [by rewrite Hfn in Hx|by apply H1].
  - subst l. destruct fuel as [|fuel]; [cbn in Hf; lia|]. cbn [cache_xattrs].
    replace (0 <? length (attrval h))%nat with true by (symmetry; apply Nat.ltb_lt; destruct (attrval h); [done|cbn; lia]).
    rewrite span_encoded by done. cbn in Hf. rewrite length_app in Hf.
    destruct (xac_insert_run name xs w t Ht) as (t1 & E1 & L1).
    destruct (IH _ l' fuel (w <| xac_ht := Some t1 |>) t1 He' Hn' ltac:(lia) eq_refl) as (t' & Et & H1 & H2).
    exists t'. split.
    + unfold name_at, bind at 1. rewrite Hn, lookup_app_r, Nat.sub_diag by done. cbn [lookup list_lookup Fuse.table ret].
      rewrite <- Hn, (bind_Ret _ _ _ _ _ E1), <- Hlen. by rewrite Et.
    + cbn [ml_dir_cache_timeout] in H1. split.
      * intros name' xs' Hin Hx. destruct (decide (name' ∈ ns)) as [Hi|Hi]; [by apply H1|].
        apply elem_of_cons in Hin as [->|Hin]; [|done]. rewrite H2; [by rewrite L1, decide_True, Hfn in *; simplify_eq|].
        intros n Hni _ Heq%entry_path_inj. by subst.
      * intros p Hp. rewrite H2 by set_solver. rewrite L1, decide_False; [done|]. apply Hp; [set_solver|by rewrite Hfn].
Qed.
End decoding.

(** C24: From the kernel to the directory cache, on a file system that does not change while it
    is read and where every attribute that is listed can be read (a failure of lgetxattr fails
    the whole call, see lxattrlist_unreadable_value): the list that lxattrlist of the library
    puts together for any number of names, from as many requests to the daemon as are needed, is
    decoded by the FUSE side, when there is memory, to cache entries that hold for each file
    exactly its attributes, sorted by name, with the timeout of the cache; for a file whose
    attributes cannot be listed, and for any other path, the cache is as it was; and the daemon
    only reads. *)
Theorem lxattrlist_end_to_end (E : denv) (X : xattr_world) `{!XattrFs X} `{GuestCalls pstate} (dir : string)
    (names : list string) (w : world pstate)
    {T : Type -> Type} {G : Type} `{HashLaws T} (c : fuse T G) (t : T (entry (list xattr))) (now : Z) :
  calls_lxattrlist E X -> xac_ht c = Some t -> (forall A (t : T A) p x, is_Some (hash_insert t p x)) ->
  let attrs name := file_attrs (ps_log (w_guest w)) (dir +:+ "/" +:+ name) in
  exists l w' t', guestfs__lxattrlist dir names w = (Ret (Some l), w') /\ asked (ps_log (w_guest w)) [] (ps_log (w_guest w')) /\
    cache_xattrs (length l) dir now names 0 l c = (Ret tt, c <| xac_ht := Some t' |>) /\
    cached dir attrs (now + ml_dir_cache_timeout c) names t t'.
Proof.
  intros Hc Ht Hroom attrs. set (h := ps_log (w_guest w)).
  set (f := fun name => entries_of [file_attrs h (dir +:+ "/" +:+ name)]).
  assert (forall ns, entries_of ((fun name => file_attrs h (dir +:+ "/" +:+ name)) <$> ns) = ns ≫= f) as Hf.
  { intros ns. induction ns as [|n ns IH]; [done|]. cbn in IH |- *. unfold entries_of in IH. rewrite IH. unfold f, entries_of. cbn. by rewrite app_nil_r. }
  unfold guestfs__lxattrlist, guestfs___count_strings.
  destruct (chunk_loop_groups free_struct_list (guestfs_internal_lxattrlist dir) LXATTRLIST_MAX ltac:(unfold LXATTRLIST_MAX; lia)
    (length names) names) as (groups & Hg & Hgs & Hrun); [done|]. rewrite Hrun.
  destruct (ask_groups_map free_struct_list (guestfs_internal_lxattrlist dir) f
    (fun w => asked h [] (ps_log (w_guest w))) LXATTRLIST_MAX) with (groups := groups) (acc := @nil xattr) (w := w)
    as (w' & Ew & Hw); [|done|apply did_refl|].
  - intros ns w1 _ Hw1. rewrite Hc. unfold on_daemon, zoom.
    destruct (lxattrlist_run E X h dir ns [] (w_guest w1) Hw1) as (r & s' & Er & Hs' & ->).
    unfold do_internal_lxattrlist. rewrite Er. eexists. split; [by rewrite Hf|done].
  - set (l := [] ++ (concat groups ≫= f)). assert (encodes (attrs <$> names) l) as He.
    { unfold l. cbn [app]. rewrite Hg, <- Hf. apply entries_encode. apply Forall_fmap, Forall_forall. intros name _. apply file_attrs_ok. }
    destruct (cache_xattrs_decodes dir now Hroom attrs names names [] l (length l) c t) as (t' & Et & Hc'); [done..|].
    by exists l, w', t'.
Qed.

(** A flag that was not given follows [all]. *)
Lemma copy_flag_wanted mask i all flag : copy_flag mask i all flag = flag || all && negb (Z.testbit mask i).
Proof. unfold copy_flag. by destruct flag, all, (Z.testbit mask i). Qed.

(** copy_attributes does to the destination exactly what is asked for: it sets the
    permissions and the owner only when they are wanted and differ, and every attribute of the
    source with its value, in that order, and nothing else; when a call fails it stops there,
    after replying with one error. *)
Theorem copy_attributes_copies (E : denv) (X : xattr_world) `{!XattrFs X} (mask : Z) (src dest : string)
    (all mode xattributes ownership : bool) (s : pstate) (st1 st2 : statbuf) (l : list xattr) :
  steady (copying dest) true src ->
  xw_stat X (ps_log s) src = inr st1 -> xw_stat X (ps_log s ++ [Called "chroot stat" [src]]) dest = inr st2 ->
  fs_attrs true (ps_log s) src = inr l ->
  let wanted i (flag : bool) := flag || all && negb (Z.testbit mask i) in
  let plan := mode_calls dest (wanted 1 mode) st1 st2 ++ owner_calls dest (wanted 3 ownership) st1 st2 ++
              (if wanted 2 xattributes then set_call dest <$> l else []) in
  exists r s', do_copy_attributes E X mask src dest all mode xattributes ownership s = (Ret r, s') /\
    (r = 0 /\ did (copying dest) (ps_log s) plan (ps_log s') \/ r = -1 /\ stopped E dest (ps_log s) plan s').
Proof.
  intros Hst H1 H2 Hl wanted plan. set (h := ps_log s). unfold do_copy_attributes. cbv zeta.
  rewrite !copy_flag_wanted. fold (wanted 1 mode) (wanted 3 ownership) (wanted 2 xattributes).
  erewrite bind_Ret by (unfold sys_stat, ask; by rewrite H1). cbv iota.
  erewrite bind_Ret by (unfold sys_stat, ask; cbn; by rewrite H2). cbv iota.
  match goal with |- context [?m ?s2] => assert (did (copying dest) h [] (ps_log s2)) as Hs2 end.
  { exists [Called "chroot stat" [src]; Called "chroot stat" [dest]]. cbn. rewrite <- app_assoc. split_and!; [done| |done].
    repeat constructor. }
  revert Hs2. match goal with |- did _ _ _ (ps_log ?s2) -> _ => generalize s2 end.
  match goal with |- forall s2, _ -> exists r s', ?m s2 = _ /\ @?Q r s' => change (total (fun s2 => did (copying dest) h [] (ps_log s2)) m Q) end.
  eapply (total_stop E dest h (mode_calls dest (wanted 1 mode) st1 st2)).
  { unfold mode_calls. destruct (_ && _); [apply (total_call_or E dest h []); set_solver|]. intros s2 Hs2. by exists true, s2. }
  { intros s2 Hs2. right. split; [done|]. exact Hs2. }
  eapply (total_stop E dest h (mode_calls dest (wanted 1 mode) st1 st2 ++
    owner_calls dest (wanted 3 ownership) st1 st2)).
  { unfold owner_calls. destruct (_ && _); [apply total_call_or; set_solver|]. intros s2 Hs2. exists true, s2. by rewrite app_nil_r. }
  { intros s2 Hs2. right. split; [done|]. unfold plan. rewrite app_assoc. exact Hs2. }
  unfold optgroup_linuxxattrs_available, plan. intros s2 Hs2. rewrite (bind_Ret _ _ _ _ _ (eq_refl : ret true s2 = (Ret true, s2))).
  rewrite andb_true_r, app_assoc. revert s2 Hs2. destruct (wanted 2 xattributes).
  - eapply total_bind; [by apply (copy_xattrs_run E X src dest Hst)|]. intros [|] s2 Hs2; [exists 0|exists (-1)]; exists s2; (split; [done|]); auto.
  - intros s2 Hs2. exists 0, s2. split; [done|]. left. by rewrite app_nil_r.
Qed.

(** * Examples *)

(** A file system that is never changed by the calls: two attributes, none, and
    files that are not there. *)
Definition ex_attrs (follow : bool) (h : list action) (path : string) : Z + list xattr :=
  if STREQ path "/d/a" then inr [mk_xattr "user.x" [x31; x32]; mk_xattr "security.selinux" [x73; x00]]
  else if STREQ path "/d/b" then inr [] else inl 2.
Definition ex_value (l : list xattr) (name : string) : Z + list byte :=
  match List.find (fun x => STREQ (attrname x) name) l with Some x => inr (attrval x) | None => inl 61 end.
Definition ex_xattrs : xattr_world := {|
  xw_list follow h path := name_list (ex_attrs follow h path);
  xw_get follow h path name := match ex_attrs follow h path with inl e => inl e | inr l => ex_value l name end;
  xw_stat h path := inr (Files.mk_statbuf (if STREQ path "/d/a" then 33188 else 33024) 0 0 0);
  xw_fresh _ _ := xff
|}.
#[export] Instance ex_xattr_fs : XattrFs ex_xattrs.
Proof.
  refine {| fs_attrs := ex_attrs |}; [done| | |done]; unfold ex_attrs; intros follow h path l.
  - intros x Hl Hx. cbn. unfold ex_attrs. repeat case_match; simplify_eq; [|set_solver].
    apply list_elem_of_In in Hx. by destruct Hx as [<-|[<-|[]]].
  - intros Hl. repeat case_match; simplify_eq; (split; [apply (bool_decide_unpack _); by vm_compute|]); [|done].
    repeat constructor; try done; by vm_compute.
Defined.

Lemma getxattrs_example : exists s', getxattrs (Parted.ex_env "") ex_xattrs "/d/a" true ex_pstate =
  (Ret (Some [mk_xattr "security.selinux" [x73; x00]; mk_xattr "user.x" [x31; x32]]), s').
Proof. by eexists. Qed.

(** A guest that answers internal_lxattrlist and nothing else. *)
#[export] Instance ex_guest_calls : GuestCalls pstate.
Proof.
  refine {| guestfs_internal_lxattrlist dir names := on_daemon (do_internal_lxattrlist (Parted.ex_env "") ex_xattrs dir names) |};
  intros; first [exact (ret (-1)) | exact (ret None)].
Defined.
Definition ex_daemon_world : world pstate := mk_world Examples.ex_handle ∅ ∅ [] false ex_pstate.

(** A cache with a timeout of 60 seconds and an old entry. *)
Definition ex_old : gmap string (entry (list xattr)) := {["/d/gone" := mk_entry 5 []]}.
Definition ex_cache : fuse (gmap string) ex_fs := ex_mounted <| xac_ht := Some ex_old |>.
Lemma lxattrlist_end_to_end_witness : exists l w' t',
  guestfs__lxattrlist "/d" ["a"; "gone"; "b"] ex_daemon_world = (Ret (Some l), w') /\
  cache_xattrs (length l) "/d" 100 ["a"; "gone"; "b"] 0 l ex_cache = (Ret tt, ex_cache <| xac_ht := Some t' |>) /\
  t' !! "/d/a" = Some (mk_entry 160 [mk_xattr "security.selinux" [x73; x00]; mk_xattr "user.x" [x31; x32]]) /\
  t' !! "/d/gone" = Some (mk_entry 5 []) /\ t' !! "/d/b" = Some (mk_entry 160 []).
Proof.
  destruct (lxattrlist_end_to_end (Parted.ex_env "") ex_xattrs "/d" ["a"; "gone"; "b"] ex_daemon_world ex_cache ex_old 100)
    as (l & w' & t' & E & _ & Ec & H1 & H2).
  - by intros dir names w.
  - done.
  - by intros; eexists.
  - exists l, w', t'. split; [exact E|]. split; [exact Ec|]. split; [by apply (H1 "a"); [set_solver|]|].
    split; [|by apply (H1 "b"); [set_solver|]]. transitivity (ex_old !! "/d/gone"); [|done].
    apply (H2 "/d/gone"). intros name Hin [xs Hx] Heq. apply (entry_path_inj "/d" name "gone") in Heq. by subst.
Defined.

(** A value that cannot be read fails the whole call, and the attributes of the
    other files are lost. *)
Definition ex_forbidden : xattr_world :=
  mk_xattr_world (xw_list ex_xattrs) (fun _ _ _ _ => inl 13) (xw_stat ex_xattrs) (xw_fresh ex_xattrs).
Lemma lxattrlist_unreadable_value : exists s' h m,
  do_internal_lxattrlist (Parted.ex_env "") ex_forbidden "/d" ["b"; "a"; "gone"] ex_pstate = (Ret None, s') /\
  ps_log s' = h ++ [Replied 13 m].
Proof.
  eexists _, [Called "chroot llistxattr" ["/d/b"]; Called "chroot llistxattr" ["/d/b"]; Called "chroot llistxattr" ["/d/a"];
    Called "chroot llistxattr" ["/d/a"]; Called "chroot lgetxattr" ["/d/a"; "user.x"]], _.
  split; vm_compute; reflexivity.
Qed.

Lemma copy_attributes_copies_witness : exists s', 
  do_copy_attributes (Parted.ex_env "") ex_xattrs 1 "/d/a" "/d/b" true false false false ex_pstate = (Ret 0, s') /\
  did (copying "/d/b") (ps_log ex_pstate)
    [Called "chroot chmod" ["/d/b"; "644"];
     Called "chroot setxattr" ["/d/b"; "user.x"; "12"];
     Called "chroot setxattr" ["/d/b"; "security.selinux"; string_of_bytes [x73; x00]]] (ps_log s').
Proof.
  destruct (copy_attributes_copies (Parted.ex_env "") ex_xattrs 1 "/d/a" "/d/b" true false false false ex_pstate
    (Files.mk_statbuf 33188 0 0 0) (Files.mk_statbuf 33024 0 0 0)
    [mk_xattr "user.x" [x31; x32]; mk_xattr "security.selinux" [x73; x00]]) as (r & s' & E & [[-> H]|[_ (_ & _ & _ & _ & _ & _ & h' & f & args & Hc)]]).
  - by intros h new _.
  - done.
  - done.
  - done.
  - exists s'. split; [exact E|exact H].
  - exfalso. revert Hc. vm_compute. by intros [? ?].
Defined.

(** An attribute of four bytes that another process replaces by one of one byte
    after its size was read. *)
Definition ex_shrinking : xattr_world := {|
  xw_list _ _ _ := inr (nul_terminated ["user.x"]);
  xw_get _ h _ _ := inr (if (length h <=? 2)%nat then [x31; x32; x33; x34] else [x39]);
  xw_stat _ _ := inl 2;
  xw_fresh _ _ := xff
|}.
(** The attribute is returned with the old size: the caller gets three bytes that
    were never written. *)
Lemma getxattrs_uninitialised : exists s', do_getxattrs (Parted.ex_env "") ex_shrinking "/f" ex_pstate =
  (Ret (Some [mk_xattr "user.x" [x39; xff; xff; xff]]), s').
Proof. by eexists. Qed.

(** An attribute is added to a file that had none between the two calls of
    listxattr, the second of which has a size of 0. *)
Definition ex_appearing : xattr_world := {|
  xw_list _ h _ := inr (if (length h =? 0)%nat then [] else nul_terminated ["user.x"]);
  xw_get _ _ _ _ := inr [x31];
  xw_stat _ _ := inl 2;
  xw_fresh _ _ := xff
|}.
(** The names are then read outside of the empty buffer. *)
Lemma getxattrs_overread : exists s', do_getxattrs (Parted.ex_env "") ex_appearing "/f" ex_pstate = (Stop Undefined, s').
Proof. by eexists. Qed.
