(* ===== verification/Dirs.v ===== *)
(** Attributes and names of files: daemon/stat.c, daemon/readdir.c,
    daemon/statvfs.c, daemon/realpath.c, daemon/mknod.c, daemon/utimens.c,
    daemon/umask.c, daemon/mktemp.c, daemon/glob.c, daemon/du.c, daemon/df.c
    and ll and llz of daemon/ls.c. *)

From S2P Require Import Prelude Xdr Protocol Handle Utils Events Conn LibProto Config Lifecycle Drives Command Guestfsd LibFile Fuse Procs Parted DevParts Filesys Content Files Xattr.
From Stdlib Require Import Ascii.

Open Scope Z_scope.
#[local] Arguments String.append : simpl nomatch.
#[local] Notation octal := Files.octal.

(** * The kernel *)

(** struct stat, struct dirent and an open directory: its entries, the errno of
    readdir in place of a normal end, and of closedir. *)
Record kstat := mk_kstat {
  k_dev : Z; k_ino : Z; k_mode : Z; k_nlink : Z; k_uid : Z; k_gid : Z; k_rdev : Z; k_size : Z; k_blksize : Z;
  k_blocks : Z; k_atime : Z; k_atim_nsec : Z; k_mtime : Z; k_mtim_nsec : Z; k_ctime : Z; k_ctim_nsec : Z
}.
Record kdirent := mk_kdirent { kd_ino : Z; kd_type : Z; kd_name : string }.
Record open_dir := mk_open_dir { od_entries : list kdirent; od_readdir : option Z; od_closedir : option Z }.

(** What the kernel and libc answer, an errno or the data.  A directory that is
    open is known by a number; [dw_glob] gives the result of glob, errno and
    the names. *)
Record dir_world := mk_dir_world {
  dw_stat : bool -> list action -> string -> Z + kstat;          (* [true] follows links; inside the chroot *)
  dw_open : list action -> string -> Z + Z;                      (* O_DIRECTORY, inside the chroot *)
  dw_open_sysroot : list action -> Z + Z;
  dw_openat : list action -> Z -> string -> Z + Z;
  dw_fstatat : list action -> Z -> string -> Z + kstat;
  dw_close : list action -> Z -> option Z;
  dw_dup : list action -> Z -> option Z;
  dw_fdopendir : list action -> Z -> Z + open_dir;
  dw_statvfs : list action -> string -> Z + statvfs;
  dw_realpath : list action -> string -> Z + string;
  dw_mkdtemp : list action -> string -> Z + string;
  dw_mkstemps : list action -> string -> Z -> Z + string;
  dw_glob : list action -> string -> Z * Z * list string
}.
Definition GLOB_NOMATCH : Z := 3.

Section dirs.
Context (E : denv) (W : dir_world).
#[local] Notation path p := (sysroot_path (sysroot E) p).
Definition answer {A} (f : list action -> A) : proc A := gets (fun s => f (ps_log s)).

(** * daemon/stat.c *)

(** The fields of struct stat that are unsigned long become int64_t. *)
Definition stat_to_statns (b : kstat) : statns :=
  mk_statns (s64 (k_dev b)) (s64 (k_ino b)) (k_mode b) (s64 (k_nlink b)) (k_uid b) (k_gid b) (s64 (k_rdev b))
    (k_size b) (k_blksize b) (k_blocks b) (k_atime b) (k_atim_nsec b) (k_mtime b) (k_mtim_nsec b) (k_ctime b) (k_ctim_nsec b)
    0 0 0 0 0 0.

Definition statns_call (follow : bool) (p : string) : proc (option statns) :=
  r <- answer (fun h => dw_stat W follow h p) ;;
  match r with
  | inl e => perror E e p None
  | inr b => ret (Some (stat_to_statns b))
  end.
Definition do_statns (p : string) : proc (option statns) := statns_call true p.
Definition do_lstatns (p : string) : proc (option statns) := statns_call false p.

(** An element from calloc with st_ino = -1. *)
Definition no_stat : statns := mk_statns 0 (-1) 0 0 0 0 0 0 0 0 0 0 0 0 0 0 0 0 0 0 0 0.
Fixpoint lstatns_loop (path_fd : Z) (names : list string) : proc (list statns) :=
  match names with
  | [] => ret []
  | name :: names' =>
      r <- answer (fun h => dw_fstatat W h path_fd name) ;;
      l <- lstatns_loop path_fd names' ;;
      ret (match r with inl _ => no_stat | inr b => stat_to_statns b end :: l)
  end.
Definition do_internal_lstatnslist (p : string) (names : list string) : proc (option (list statns)) :=
  r <- answer (fun h => dw_open W h p) ;;
  match r with
  | inl e => perror E e p None
  | inr path_fd =>
      l <- lstatns_loop path_fd names ;;
      e <- answer (fun h => dw_close W h path_fd) ;;
      match e with
      | Some e => perror E e ("close: " +:+ p) None
      | None => ret (Some l)
      end
  end.

(** * daemon/readdir.c *)

(** DT_BLK is 6, and so on. *)
Definition ftyp_of (d_type : Z) : ascii :=
  if d_type =? 6 then "b" else if d_type =? 2 then "c" else if d_type =? 4 then "d" else if d_type =? 1 then "f"
  else if d_type =? 10 then "l" else if d_type =? 8 then "r" else if d_type =? 12 then "s"
  else if d_type =? 0 then "u" else "?"%char.
Definition dirent_of (d : kdirent) : dirent := mk_dirent (s64 (kd_ino d)) (ftyp_of (kd_type d)) (kd_name d).
(** opendir, inside the chroot. *)
Definition opendir (p : string) : proc (Z + open_dir) :=
  answer (fun h => match dw_open W h p with inl e => inl e | inr fd => dw_fdopendir W h fd end).
(** The loop ends when readdir returns NULL, whether or not it has failed. *)
Definition do_readdir (p : string) : proc (option (list dirent)) :=
  r <- opendir p ;;
  match r with
  | inl e => perror E e ("opendir: " +:+ p) None
  | inr dir =>
      let l := dirent_of <$> od_entries dir in
      match od_closedir dir with
      | Some e => perror E e "closedir" None
      | None => ret (Some l)
      end
  end.

(** * daemon/statvfs.c *)

(** With HAVE_STATVFS: the fields are unsigned long. *)
Definition do_statvfs (p : string) : proc (option statvfs) :=
  r <- answer (fun h => dw_statvfs W h p) ;;
  match r with
  | inl e => perror E e "statvfs" None
  | inr b =>
      ret (Some (mk_statvfs (s64 (f_bsize b)) (s64 (f_frsize b)) (s64 (f_blocks b)) (s64 (f_bfree b)) (s64 (f_bavail b))
        (s64 (f_files b)) (s64 (f_ffree b)) (s64 (f_favail b)) (s64 (f_fsid b)) (s64 (f_flag b)) (s64 (f_namemax b))))
  end.

(** * daemon/realpath.c *)

Definition do_realpath (p : string) : proc (option string) :=
  r <- answer (fun h => dw_realpath W h p) ;;
  match r with
  | inl e => perror E e p None
  | inr p' => ret (Some p')
  end.

(** [*name_ret], or NULL when an error was replied. *)
Definition find_path_element (fd_cwd : Z) (is_end : bool) (name : string) : proc (option string) :=
  e <- answer (fun h => dw_dup W h fd_cwd) ;;
  match e with
  | Some e => perror E e "dup" None
  | None =>
  r <- answer (fun h => dw_fdopendir W h fd_cwd) ;;
  match r with
  | inl e => perror E e "opendir" None
  | inr dir =>
      match List.find (fun d => STRCASEEQ (kd_name d) name) (od_entries dir) with
      | None =>
          match od_readdir dir with
          | Some e => perror E e "readdir" None
          | None =>
              if is_end then ret (Some name)
              else fail (name +:+ ": no file or directory found with this name") None
          end
      | Some d =>
          match od_closedir dir with
          | Some e => perror E e "closedir" None
          | None => ret (Some (kd_name d))
          end
      end
  end end.

(** [path] is what is left; [real] is the buffer [ret]. *)
Fixpoint case_loop (fuel : nat) (path : string) (fd_cwd : Z) (real : string) : proc (option string) :=
  match path with
  | EmptyString => ret (Some real)
  | String _ rest =>
      match fuel with
      | O => halt OutOfFuel
      | S fuel' =>
          let '(name_in, path') := strcspn "/" path in
          if STREQ name_in "" then case_loop fuel' rest fd_cwd real
          else if STREQ name_in "." || STREQ name_in ".." then fail "path contained . or .. elements" None
          else
            let is_end := STREQ path' "" in
            r <- find_path_element fd_cwd is_end name_in ;;
            match r with
            | None => ret None
            | Some name_out =>
                let real := (if (1 <? String.length real)%nat then real +:+ "/" else real) +:+ name_out in
                fd2 <- answer (fun h => dw_openat W h fd_cwd name_out) ;;
                match fd2 with
                | inl e =>
                    if is_end && ((e =? ENOTDIR) || (e =? ENOENT)) then ret (Some real)
                    else perror E e ("openat: " +:+ name_out) None
                | inr fd2 => case_loop fuel' path' fd2 real
                end
            end
      end
  end.
Definition do_case_sensitive_path (p : string) : proc (option string) :=
  r <- answer (dw_open_sysroot W) ;;
  match r with
  | inl e => perror E e (sysroot E) None
  | inr fd_cwd => case_loop (String.length p) p fd_cwd "/"
  end.

(** * daemon/mknod.c *)

Definition optgroup_mknod_available : proc bool := ret true.
Definition do_mknod (mode devmajor devminor : Z) (p : string) : proc Z :=
  if mode <? 0 then fail (p +:+ ": mode is negative") (-1)
  else sys_or E "chroot mknod" [p; octal mode; pretty devmajor; pretty devminor] p.
Definition do_mkfifo (mode : Z) (p : string) : proc Z := do_mknod (Z.lor mode 4096) 0 0 p.
Definition do_mknod_b (mode devmajor devminor : Z) (p : string) : proc Z := do_mknod (Z.lor mode 24576) devmajor devminor p.
Definition do_mknod_c (mode devmajor devminor : Z) (p : string) : proc Z := do_mknod (Z.lor mode 8192) devmajor devminor p.

(** * daemon/utimens.c *)

Definition UTIME_NOW : Z := 1073741823.
Definition UTIME_OMIT : Z := 1073741822.
Definition utimens_nsecs (nsecs : Z) : Z :=
  let nsecs := if nsecs =? -1 then UTIME_NOW else nsecs in
  if nsecs =? -2 then UTIME_OMIT else nsecs.
Definition do_utimens (p : string) (atsecs atnsecs mtsecs mtnsecs : Z) : proc Z :=
  sys_or E "chroot utimensat"
    [p; pretty atsecs; pretty (utimens_nsecs atnsecs); pretty mtsecs; pretty (utimens_nsecs mtnsecs)] ("utimensat: " +:+ p).

(** * daemon/umask.c *)

(** umask (2): the mask of the process, which main sets to 022. *)
Definition umask (mask : Z) : proc Z := fun s =>
  (Ret (default 18 (ps_static s !! "umask")), s <| ps_static ::= <["umask" := Z.land mask 511]> |>).
Definition do_umask (mask : Z) : proc Z :=
  if (mask <? 0) || (511 <? mask) then fail ("0" +:+ octal (u32 mask) +:+ ": mask negative or out of range") (-1)
  else
    r <- umask mask ;;
    if r =? -1 then pfail E "umask" "umask" (-1) else ret r.
Definition do_get_umask : proc Z :=
  r <- umask 18 ;;
  if r =? -1 then pfail E "umask" "umask" (-1) else umask r ;;; ret r.

(** * daemon/mktemp.c *)

Definition do_mkdtemp (template : string) : proc (option string) :=
  r <- answer (fun h => dw_mkdtemp W h template) ;;
  log (Called "chroot mkdtemp" [template]) ;;;
  match r with
  | inl e => perror E e template None
  | inr name => ret (Some name)
  end.
Definition ends_in_X (template : string) : bool :=
  match String.get (String.length template - 1) template with Some c => Ascii.eqb c "X" | None => false end.
Definition do_mktemp (mask : Z) (template suffix : string) : proc (option string) :=
  let go (dest_name : string) (suffix_len : Z) : proc (option string) :=
    r <- answer (fun h => dw_mkstemps W h dest_name suffix_len) ;;
    log (Called "chroot mkstemps" [dest_name; pretty suffix_len]) ;;;
    match r with
    | inl e => perror E e dest_name None
    | inr name => ret (Some name)
    end in
  if Z.testbit mask 0 then
    if (String.length template =? 0)%nat || negb (ends_in_X template)
    then fail ("template " +:+ template +:+ " must end in X") None
    else go (template +:+ suffix) (s32 (Z.of_nat (String.length suffix)))
  else go template 0.

(** * daemon/glob.c *)

Definition do_glob_expand (pattern : string) : proc (option (list string)) :=
  let* (r, errno, names) := answer (fun h => dw_glob W h pattern) in
  if r =? GLOB_NOMATCH then ret (Some [])
  else if negb (r =? 0) then
    if negb (errno =? 0) then perror E errno pattern None else fail ("glob failed: " +:+ pattern) None
  else ret (Some names).

(** * daemon/du.c, daemon/df.c and daemon/ls.c *)

Definition do_du (p : string) : proc Z :=
  let* (r, out, err) := command_out E ["du"; "-s"; path p] in
  if r =? -1 then fail (p +:+ ": " +:+ fmt_s err) (-1)
  else match sscanf (default "" out) [pct_i64] with
       | [rv] => ret rv
       | _ => fail (p +:+ ": could not read output: " +:+ default "" out) (-1)
       end.

Definition out_or (argv : list string) : proc (option string) :=
  let* (r, out, err) := command_out E argv in
  if r =? -1 then fail (fmt_s err) None else ret (Some (default "" out)).
Definition df_with (func : string) (args : list string) : proc (option string) :=
  ok <- NEED_ROOT E func ;;
  if negb ok then ret None else out_or ("df" :: args).
Definition do_df : proc (option string) := df_with "do_df" [].
Definition do_df_h : proc (option string) := df_with "do_df_h" ["-h"].
Definition do_ll (p : string) : proc (option string) := out_or ["ls"; "-la"; path p].
Definition do_llz (p : string) : proc (option string) := out_or ["ls"; "-laZ"; path p].
End dirs.

(** * Paths without regard to case *)

(** The elements of a path, and whether it ends with a slash. *)
Fixpoint elements_fuel (fuel : nat) (p : string) : list string :=
  match fuel, p with
  | S fuel', String _ rest =>
      let '(name, p') := strcspn "/" p in
      if STREQ name "" then elements_fuel fuel' rest else name :: elements_fuel fuel' p'
  | _, _ => []
  end.
Definition elements (p : string) : list string := elements_fuel (String.length p) p.
Fixpoint trailing (p : string) : bool :=
  match p with
  | EmptyString => false
  | String c EmptyString => Ascii.eqb c "/"
  | String _ p' => trailing p'
  end.

Section resolve.
Context (W : dir_world) (h : list action).

Definition entries (fd : Z) : list string :=
  match dw_fdopendir W h fd with inr dir => kd_name <$> od_entries dir | inl _ => [] end.
(** What is found under a name: [Some None] when nothing is. *)
Definition lookup_name (fd : Z) (name : string) : option (option string) :=
  match dw_dup W h fd, dw_fdopendir W h fd with
  | None, inr dir =>
      match List.find (fun d => STRCASEEQ (kd_name d) name) (od_entries dir) with
      | None => match od_readdir dir with Some _ => None | None => Some None end
      | Some d => match od_closedir dir with Some _ => None | None => Some (Some (kd_name d)) end
      end
  | _, _ => None
  end.
Definition find_name (fd : Z) (is_end : bool) (name : string) : option string :=
  match lookup_name fd name with
  | Some (Some real) => Some real
  | Some None => if is_end then Some name else None
  | None => None
  end.
Definition may_end (e : Z) : bool := (e =? ENOTDIR) || (e =? ENOENT).
Definition is_dots (name : string) : bool := STREQ name "." || STREQ name "..".

(** The names of a path as they are in the directories. *)
Fixpoint resolve (fd : Z) (slash : bool) (names : list string) : option (list string) :=
  match names with
  | [] => Some []
  | name :: names' =>
      if is_dots name then None
      else
        let is_end := match names' with [] => negb slash | _ => false end in
        real ← find_name fd is_end name;
        match dw_openat W h fd real with
        | inl e => if is_end && may_end e then Some [real] else None
        | inr fd2 => cons real <$> resolve fd2 slash names'
        end
  end.
(** Every name is found. *)
Fixpoint all_found (fd : Z) (names : list string) : bool :=
  match names with
  | [] => true
  | name :: names' =>
      match lookup_name fd name with
      | Some (Some real) => match dw_openat W h fd real with inl _ => true | inr fd2 => all_found fd2 names' end
      | Some None => false
      | None => true
      end
  end.
End resolve.

(** ** Lemmas *)

Lemma tolower_slash c : c_tolower c = "/"%char <-> c = "/"%char.
Proof. destruct c as [[] [] [] [] [] [] [] []]; vm_compute; split; congruence. Qed.

Definition same_case (a b : string) : Prop := str_map c_tolower a = str_map c_tolower b.
Lemma STRCASEEQ_spec a b : STRCASEEQ a b = true <-> same_case a b.
Proof. unfold STRCASEEQ, STREQ. by rewrite bool_decide_eq_true. Qed.
#[export] Instance same_case_equiv : Equivalence same_case.
Proof. unfold same_case. split; [done|by intros ? ?|intros ? ? ?; congruence]. Qed.

Lemma find_same_case l a b : same_case a b ->
  List.find (fun d => STRCASEEQ (kd_name d) a) l = List.find (fun d => STRCASEEQ (kd_name d) b) l.
Proof.
  intros H. induction l as [|d l IH]; [done|]. cbn. rewrite IH.
  destruct (STRCASEEQ (kd_name d) a) eqn:Ea, (STRCASEEQ (kd_name d) b) eqn:Eb; try done; exfalso.
  - apply STRCASEEQ_spec in Ea. assert (same_case (kd_name d) b) as Hb%STRCASEEQ_spec by (by etrans). congruence.
  - apply STRCASEEQ_spec in Eb. assert (same_case (kd_name d) a) as Hb%STRCASEEQ_spec by (etrans; [done|by symmetry]). congruence.
Qed.

Lemma str_map_app f a b : str_map f (a +:+ b) = str_map f a +:+ str_map f b.
Proof. induction a as [|c a IH]; [done|]. cbn. by rewrite IH. Qed.

Definition no_slash (s : string) : Prop := no_sep "/" s.
Lemma same_case_no_slash a b : same_case a b -> no_slash b -> no_slash a.
Proof.
  unfold same_case, no_slash, no_sep. revert b. induction a as [|c a IH]; intros [|d b]; try done. cbn. intros [= Hc Hs] [Hd Hb]%andb_true_iff.
  apply andb_true_iff. split; [|by eapply IH]. apply negb_true_iff in Hd. apply negb_true_iff, Ascii.eqb_neq. intros ->.
  apply Ascii.eqb_neq in Hd. apply Hd, tolower_slash. by rewrite <- Hc.
Qed.

Lemma slash_split c (rest name p' : string) : strcspn "/" (String c rest) = (name, p') -> 
  (name = "" /\ c = "/"%char) \/ (name <> "" /\ no_slash name /\ String c rest = name +:+ p' /\ (p' = "" \/ exists q, p' = String "/" q)).
Proof.
  intros H. apply strcspn_spec in H as (He & Hn & Hp). destruct name as [|d name].
  - left. destruct Hp as [->|[q ->]]; [done|]. by injection He as -> _.
  - right. by split_and!.
Qed.

Lemma elements_more : forall fuel fuel' p, (String.length p <= fuel)%nat -> (String.length p <= fuel')%nat ->
  elements_fuel fuel p = elements_fuel fuel' p.
Proof.
  induction fuel as [|fuel IH]; intros fuel' p H H'; destruct p as [|c rest]; try (by destruct fuel'); [cbn in H; lia|].
  destruct fuel' as [|fuel']; [cbn in H'; lia|]. cbn [elements_fuel]. destruct (strcspn "/" (String c rest)) as [name p'] eqn:Es.
  apply slash_split in Es as [[-> ->]|(Hn & _ & Es & _)].
  - cbn in H, H' |- *. rewrite (IH fuel'); [done|lia..].
  - unfold STREQ. rewrite bool_decide_false by done. f_equal. apply (f_equal String.length) in Es. rewrite str_length_app in Es. cbn in H, H', Es.
    destruct name; [done|]. cbn in Es. apply IH; lia.
Qed.
Lemma elements_slash p : elements (String "/" p) = elements p.
Proof. reflexivity. Qed.
Lemma elements_name name p' : name <> "" -> no_slash name -> p' = "" \/ (exists q, p' = String "/" q) ->
  elements (name +:+ p') = name :: elements p'.
Proof.
  intros Hn Hs Hp. unfold elements. assert (strcspn "/" (name +:+ p') = (name, p')) as Es.
  { destruct Hp as [->|[q ->]]; [rewrite str_app_nil_r; destruct (strcspn_no_sep "/" name "" Hs) as [_ ->]; done|].
    by destruct (strcspn_no_sep "/" name q Hs) as [-> _]. }
  destruct name as [|c name]; [done|]. rewrite str_app_cons in *. cbn [String.length elements_fuel]. rewrite Es. cbn.
  f_equal. apply elements_more; rewrite ?str_length_app; lia.
Qed.
Lemma trailing_app name p' : p' <> "" -> trailing (name +:+ p') = trailing p'.
Proof.
  intros Hp. induction name as [|c name IH]; [done|]. rewrite str_app_cons. cbn [trailing].
  destruct (name +:+ p') eqn:E; [|done]. apply (f_equal String.length) in E. rewrite str_length_app in E. destruct p'; [done|cbn in E; lia].
Qed.
Lemma no_slash_trailing name : no_slash name -> trailing name = false.
Proof.
  unfold no_slash, no_sep. induction name as [|c name IH]; [done|]. cbn [str_forallb]. intros [Hc Hn]%andb_true_iff. cbn [trailing].
  destruct name; [by apply negb_true_iff in Hc|auto].
Qed.
Lemma no_elements_trailing : forall fuel p, (String.length p <= fuel)%nat -> p <> "" -> elements p = [] -> trailing p = true.
Proof.
  induction fuel as [|fuel IH]; intros [|c rest] Hf Hp He; try done; [cbn in Hf; lia|].
  destruct (strcspn "/" (String c rest)) as [name p'] eqn:Es. apply slash_split in Es as [[-> ->]|(Hn & Hs & Ep & Hp')].
  - rewrite elements_slash in He. cbn [trailing]. destruct rest as [|d rest]; [done|]. apply IH; [cbn in Hf |- *; lia|done|done].
  - rewrite Ep in He. by rewrite elements_name in He.
Qed.

(** The buffer after names were added. *)
Definition add_name (real name : string) : string := (if (1 <? String.length real)%nat then real +:+ "/" else real) +:+ name.
Definition add_names (real : string) (names : list string) : string := fold_left add_name names real.
Lemma add_names_app real : (1 < String.length real)%nat -> forall names name,
  add_names (real +:+ "/" +:+ name) names = real +:+ "/" +:+ String.concat "/" (name :: names).
Proof.
  intros Hr names. induction names as [|n names IH]; intros name; [done|]. change (String.concat "/" (name :: n :: names)) with (name +:+ "/" +:+ String.concat "/" (n :: names)).
  change (add_names ?r (n :: names)) with (add_names (add_name r n) names).
  unfold add_name at 1. rewrite (proj2 (Nat.ltb_lt _ _)) by (rewrite !str_length_app; lia).
  specialize (IH (name +:+ "/" +:+ n)). rewrite !str_app_assoc in *. rewrite IH.
  destruct names; cbn [String.concat]; by rewrite ?str_app_assoc.
Qed.
Lemma add_names_root names : Forall (fun n => n <> "") names -> add_names "/" names = "/" +:+ String.concat "/" names.
Proof.
  intros Hn. destruct Hn as [|n names Hn Hns]; [done|]. change (add_names "/" (n :: names)) with (add_names ("/" +:+ n) names).
  assert (1 < String.length ("/" +:+ n))%nat as Hl by (destruct n; [done|cbn; lia]).
  destruct names as [|m names]; [done|]. change (add_names ?r (m :: names)) with (add_names (add_name r m) names).
  unfold add_name at 1. rewrite (proj2 (Nat.ltb_lt _ _)) by done.
  rewrite str_app_assoc, (add_names_app ("/" +:+ n) Hl). cbn [String.concat]. by rewrite !str_app_assoc.
Qed.

Section sensitive.
Context (E : denv) (W : dir_world).
#[local] Notation replied1 h s := (exists e msg, ps_log s = h ++ [Replied e msg]).

Lemma find_path_element_run fd is_end name s : exists r s', find_path_element E W fd is_end name s = (Ret r, s') /\
  r = find_name W (ps_log s) fd is_end name /\ match r with Some _ => s' = s | None => replied1 (ps_log s) s' end.
Proof.
  unfold find_path_element, find_name, lookup_name, answer, gets. unfold bind at 1. destruct (dw_dup W (ps_log s) fd) as [e|].
  { eexists None, _. split; [reflexivity|]. split; [done|]. by eexists _, _. }
  unfold bind at 1. destruct (dw_fdopendir W (ps_log s) fd) as [e|dir]; [eexists None, _; split; [reflexivity|]; split; [done|]; by eexists _, _|].
  repeat case_match; simplify_eq; (eexists _, _; split; [reflexivity|]; split; [done|]; by eauto).
Qed.

Lemma case_loop_run : forall fuel p fd real s, (String.length p <= fuel)%nat ->
  exists r s', case_loop E W fuel p fd real s = (Ret r, s') /\
    r = add_names real <$> resolve W (ps_log s) fd (trailing p) (elements p) /\
    match r with Some _ => s' = s | None => replied1 (ps_log s) s' end.
Proof.
  induction fuel as [|fuel IH]; intros [|c rest] fd real s Hf; try (cbn in Hf; lia); try (by eexists (Some real), s).
  cbn [case_loop]. destruct (strcspn "/" (String c rest)) as [name p'] eqn:Es. apply slash_split in Es as [[-> ->]|(Hn & Hs & Ep & Hp')].
  { cbn [STREQ]. destruct (IH rest fd real s) as (r & s' & E1 & -> & H1); [cbn in Hf; lia|]. eexists _, s'. split; [exact E1|].
    rewrite elements_slash. destruct rest; done. }
  rewrite Ep, elements_name by done. cbn [resolve]. unfold STREQ at 1. rewrite bool_decide_false by done. fold (is_dots name).
  destruct (is_dots name); [eexists None, _; split; [reflexivity|]; split; [done|]; by eexists _, _|].
  assert (STREQ p' "" = match elements p' with [] => negb (trailing (name +:+ p')) | _ => false end) as ->.
  { unfold STREQ. destruct Hp' as [->|[q ->]].
    - rewrite str_app_nil_r, no_slash_trailing by done. done.
    - rewrite bool_decide_false by done. destruct (elements _) eqn:He; [|done]. rewrite trailing_app by done.
      by rewrite (no_elements_trailing _ _ (le_n _)). }
  set (is_end := match elements p' with [] => _ | _ => false end).
  destruct (find_path_element_run fd is_end name s) as (r & s1 & E1 & -> & H1). rewrite (bind_Ret _ _ _ _ _ E1). clear E1.
  destruct (find_name W (ps_log s) fd is_end name) as [out|]; [subst s1|by eexists None, s1].
  cbn [mbind option_bind]. unfold answer, gets, bind at 1. fold (add_name real out).
  destruct (dw_openat W (ps_log s) fd out) as [e|fd2].
  - fold (may_end e). destruct (is_end && may_end e); [by eexists _, s|]. eexists None, _. split; [reflexivity|]. split; [done|]. by eexists _, _.
  - assert (String.length p' <= fuel)%nat as Hl.
    { apply (f_equal String.length) in Ep. rewrite str_length_app in Ep. destruct name; [done|]. cbn in Ep, Hf. lia. }
    destruct (IH p' fd2 (add_name real out) s Hl) as (r & s' & E2 & -> & H2). eexists _, s'. split; [exact E2|].
    assert (resolve W (ps_log s) fd2 (trailing p') (elements p') = resolve W (ps_log s) fd2 (trailing (name +:+ p')) (elements p')) as <-.
    { destruct (elements p') eqn:He; [done|]. rewrite trailing_app; [done|]. by intros ->. }
    split; [|exact H2]. by destruct (resolve W (ps_log s) fd2 (trailing p') (elements p')).
Qed.
End sensitive.

Definition name_ok (n : string) : Prop := n <> "" /\ no_slash n.
Lemma elements_ok : forall fuel p, (String.length p <= fuel)%nat -> Forall name_ok (elements p).
Proof.
  induction fuel as [|fuel IH]; intros [|c rest] Hf; try constructor; [cbn in Hf; lia|].
  destruct (strcspn "/" (String c rest)) as [name p'] eqn:Es. apply slash_split in Es as [[-> ->]|(Hn & Hs & Ep & Hp')].
  - rewrite elements_slash. apply IH. cbn in Hf. lia.
  - rewrite Ep, elements_name by done. constructor; [done|]. apply IH. apply (f_equal String.length) in Ep.
    rewrite str_length_app in Ep. destruct name; [done|]. cbn in Ep, Hf. lia.
Qed.
Lemma elements_join names : Forall name_ok names -> elements ("/" +:+ String.concat "/" names) = names.
Proof.
  intros Hn. change ("/" +:+ ?x) with (String "/" x). rewrite elements_slash. induction Hn as [|n names [Hne Hs] Hn IH]; [done|].
  destruct names as [|m names]; [cbn [String.concat]; rewrite <- (str_app_nil_r n) at 1; by rewrite elements_name by auto|].
  change (String.concat "/" (n :: m :: names)) with (n +:+ String "/" (String.concat "/" (m :: names))).
  rewrite elements_name, elements_slash by eauto. by rewrite IH.
Qed.
Lemma trailing_join names : names <> [] -> Forall name_ok names -> trailing ("/" +:+ String.concat "/" names) = false.
Proof.
  intros Hne Hn. induction Hn as [|n names [Hn1 Hs] Hn IH]; [done|]. destruct names as [|m names].
  - cbn [String.concat]. rewrite trailing_app by done. by apply no_slash_trailing.
  - change (String.concat "/" (n :: m :: names)) with (n +:+ "/" +:+ (String.concat "/" (m :: names))).
    rewrite <- (str_app_assoc "/" n), trailing_app by done. by apply IH.
Qed.

Lemma same_case_dots a b : same_case a b -> is_dots a = is_dots b.
Proof.
  assert (forall c, c_tolower c = "."%char -> c = "."%char) as Hc
    by (intros c; destruct c as [[] [] [] [] [] [] [] []]; vm_compute; congruence).
  assert (forall x y, same_case x y -> is_dots y = true -> is_dots x = true) as H.
  { intros x y Hxy Hy. enough (x = y) as -> by done. unfold is_dots, STREQ in Hy. apply orb_true_iff in Hy as [Hy|Hy]; apply bool_decide_eq_true in Hy as ->;
      unfold same_case in Hxy; cbn in Hxy; destruct x as [|c [|d [|e x]]]; try discriminate; injection Hxy; intros; repeat f_equal; by apply Hc. }
  intros Hab. destruct (is_dots a) eqn:Ea, (is_dots b) eqn:Eb; try done.
  - rewrite (H b a) in Eb; [done|by symmetry|done].
  - rewrite (H a b) in Ea; done.
Qed.

Section resolved.
Context (W : dir_world) (h : list action).

Lemma lookup_name_same fd a b : same_case a b -> lookup_name W h fd a = lookup_name W h fd b.
Proof. intros H. unfold lookup_name. repeat case_match; try done; by rewrite (find_same_case _ a b H) in *; simplify_eq. Qed.
Lemma lookup_name_found fd name real : lookup_name W h fd name = Some (Some real) ->
  same_case real name /\ real ∈ entries W h fd.
Proof.
  unfold lookup_name, entries. repeat case_match; try done. intros [= <-]. match goal with H : List.find _ _ = Some _ |- _ => apply List.find_some in H as [Hin Hc] end.
  split; [by apply STRCASEEQ_spec|]. apply list_elem_of_fmap. eexists. split; [done|]. by apply list_elem_of_In.
Qed.
Lemma find_name_cases fd is_end name real : find_name W h fd is_end name = Some real ->
  same_case real name /\ (real ∈ entries W h fd \/ is_end = true /\ real = name) /\
  forall is_end', (is_end = true -> is_end' = true) -> find_name W h fd is_end' real = Some real.
Proof.
  unfold find_name. destruct (lookup_name W h fd name) as [[r|]|] eqn:El; [| |done].
  - intros [= ->]. destruct (lookup_name_found _ _ _ El) as [Hc Hin]. split_and!; [done|by left|]. intros is_end' _.
    by rewrite (lookup_name_same fd real name Hc), El.
  - destruct is_end; [|done]. intros [= ->]. split_and!; [done|by right|]. intros is_end' ->; [by rewrite El|done].
Qed.

Lemma resolve_names slash : forall names fd reals, resolve W h fd slash names = Some reals ->
  Forall2 same_case reals names /\ resolve W h fd false reals = Some reals.
Proof.
  induction names as [|name names IH]; intros fd reals; cbn [resolve]; [by intros [= <-]|].
  destruct (is_dots name) eqn:Hd; [done|]. set (is_end := match names with [] => negb slash | _ => false end).
  destruct (find_name W h fd is_end name) as [real|] eqn:Ef; [|done]. cbn [mbind option_bind].
  apply find_name_cases in Ef as (Hc & _ & Hagain). rewrite <- (same_case_dots _ _ Hc) in Hd.
  destruct (dw_openat W h fd real) as [e|fd2] eqn:Eo.
  - destruct (is_end && may_end e) eqn:He; [|done]. intros [= <-]. apply andb_true_iff in He as [He1 He2].
    assert (names = []) as -> by (unfold is_end in He1; by destruct names). split; [by repeat constructor|].
    cbn [resolve]. rewrite Hd, Hagain by done. cbn. by rewrite Eo, He2.
  - destruct (resolve W h fd2 slash names) as [rs|] eqn:Er; [|done]. intros [= <-]. destruct (IH _ _ Er) as [Hf Hr].
    split; [by constructor|]. cbn [resolve]. rewrite Hd, Hagain.
    + cbn. by rewrite Eo, Hr.
    + unfold is_end. destruct names; [|done]. inversion Hf; by subst.
Qed.

Lemma resolve_same slash names names' : Forall2 same_case names names' -> forall fd,
  all_found W h fd names = true -> resolve W h fd slash names = resolve W h fd slash names'.
Proof.
  induction 1 as [|a b names names' Hab Hs IH]; intros fd Hf; [done|]. cbn [all_found resolve] in *. rewrite (same_case_dots _ _ Hab).
  unfold find_name. rewrite <- (lookup_name_same fd a b Hab). destruct (is_dots b); [done|].
  assert (match names with [] => negb slash | _ :: _ => false end = match names' with [] => negb slash | _ :: _ => false end) as -> by (by destruct Hs).
  destruct (lookup_name W h fd a) as [[real|]|] eqn:El; [|done|done]. cbn. destruct (dw_openat W h fd real); [done|]. by rewrite IH.
Qed.

(** ** What the names stand for *)

(** The first entry that is the name up to case. *)
Definition first_match (fd : Z) (name real : string) : Prop := exists before after,
  entries W h fd = before ++ real :: after /\ same_case real name /\ Forall (fun x => ~ same_case x name) before.
Definition no_match (fd : Z) (name : string) : Prop := Forall (fun x => ~ same_case x name) (entries W h fd).
(** The last name: a directory, another file, or nothing at all. *)
Definition end_ok (fd : Z) (real : string) : Prop :=
  match dw_openat W h fd real with inl e => e = ENOTDIR \/ e = ENOENT | inr _ => True end.
(** From a directory: the names of a path that ends with a slash or not, and the real names. *)
Inductive leads (slash : bool) : Z -> list string -> list string -> Prop :=
  | leads_nil fd : leads slash fd [] []
  | leads_dir fd name real fd2 names reals : is_dots name = false -> first_match fd name real ->
      dw_openat W h fd real = inr fd2 -> leads slash fd2 names reals -> leads slash fd (name :: names) (real :: reals)
  | leads_last fd name real : slash = false -> is_dots name = false -> first_match fd name real -> end_ok fd real ->
      leads slash fd [name] [real]
  | leads_new fd name : slash = false -> is_dots name = false -> no_match fd name -> end_ok fd name ->
      leads slash fd [name] [name].
(** Directories can be read to the end. *)
Definition readable : Prop := forall fd, dw_dup W h fd = None /\
  exists dir, dw_fdopendir W h fd = inr dir /\ od_readdir dir = None /\ od_closedir dir = None.

Lemma find_entry (l : list kdirent) name : match List.find (fun d => STRCASEEQ (kd_name d) name) l with
  | Some d => exists before after, kd_name <$> l = before ++ kd_name d :: after /\ same_case (kd_name d) name /\
      Forall (fun x => ~ same_case x name) before
  | None => Forall (fun x => ~ same_case x name) (kd_name <$> l)
  end.
Proof.
  induction l as [|d l IH]; [constructor|]. cbn [List.find]. destruct (STRCASEEQ (kd_name d) name) eqn:Ec.
  - exists [], (kd_name <$> l). split; [done|]. split; [by apply STRCASEEQ_spec|constructor].
  - assert (~ same_case (kd_name d) name) as Hn by (intros H%STRCASEEQ_spec; congruence).
    destruct (List.find _ l) as [d'|]; [|by constructor]. destruct IH as (before & after & El & Hs & Hb).
    exists (kd_name d :: before), after. split; [by rewrite fmap_cons, El|]. split; [done|by constructor].
Qed.
Lemma first_match_unique fd name real real' : first_match fd name real -> first_match fd name real' -> real = real'.
Proof.
  intros (b & a & E1 & H1 & F1) (b' & a' & E2 & H2 & F2). rewrite E1 in E2. clear E1. revert b' E2 F2.
  induction F1 as [|x b Hx _ IH]; intros [|y b'] E2 F2; cbn in E2; simplify_eq; try (by inversion F2); try done.
  eapply IH; [done|by inversion F2].
Qed.
Lemma match_or_none fd name real : first_match fd name real -> no_match fd name -> False.
Proof. unfold no_match. intros (b & a & -> & H & _) [_ Hn]%Forall_app. inversion Hn. by subst. Qed.
Lemma lookup_name_spec fd name : match lookup_name W h fd name with
  | Some (Some real) => first_match fd name real
  | Some None => no_match fd name
  | None => ~ readable
  end.
Proof.
  unfold lookup_name, first_match, no_match, entries, readable.
  destruct (dw_dup W h fd) eqn:Ed; [intros Hr; destruct (Hr fd); congruence|].
  destruct (dw_fdopendir W h fd) as [e|dir] eqn:Eo; [intros Hr; destruct (Hr fd) as (_ & ? & ? & _); congruence|].
  pose proof (find_entry (od_entries dir) name) as Hf. destruct (List.find _ _) as [d|].
  - destruct (od_closedir dir) eqn:Ec; [|done]. intros Hr. destruct (Hr fd) as (_ & dir' & ? & _ & ?). congruence.
  - destruct (od_readdir dir) eqn:Ec; [|done]. intros Hr. destruct (Hr fd) as (_ & dir' & ? & ? & _). congruence.
Qed.
Lemma may_end_spec e : may_end e = true <-> e = ENOTDIR \/ e = ENOENT.
Proof. unfold may_end. by rewrite orb_true_iff, !Z.eqb_eq. Qed.

Lemma resolve_leads slash : forall names fd reals, resolve W h fd slash names = Some reals -> leads slash fd names reals.
Proof.
  induction names as [|name names IH]; intros fd reals; cbn [resolve]; [intros [= <-]; constructor|].
  destruct (is_dots name) eqn:Hd; [done|]. set (is_end := match names with [] => negb slash | _ => false end).
  assert (is_end = true -> names = [] /\ slash = false) as Hend by (unfold is_end; by destruct names, slash).
  unfold find_name. pose proof (lookup_name_spec fd name) as Hl. destruct (lookup_name W h fd name) as [[real|]|]; [| |done]; cbn [mbind option_bind].
  - destruct (dw_openat W h fd real) as [e|fd2] eqn:Eo.
    + destruct is_end; [|done]. destruct Hend as [-> ->]; [done|]. cbn. destruct (may_end e) eqn:Em; [|done]. intros [= <-].
      apply leads_last; [done..|]. unfold end_ok. rewrite Eo. by apply may_end_spec.
    + destruct (resolve W h fd2 slash names) eqn:Er; [|done]. intros [= <-]. by eapply leads_dir; eauto.
  - destruct is_end; [|done]. destruct Hend as [-> ->]; [done|]. cbn.
    destruct (dw_openat W h fd name) as [e|fd2] eqn:Eo; [destruct (may_end e) eqn:Em; [|done]|]; intros [= <-];
      (apply leads_new; [done..|]); unfold end_ok; rewrite Eo; [by apply may_end_spec|done].
Qed.
Lemma leads_resolve slash names fd reals : readable -> leads slash fd names reals -> resolve W h fd slash names = Some reals.
Proof.
  intros Hr. induction 1 as [fd|fd name real fd2 names reals Hd Hm Ho _ IH|fd name real -> Hd Hm He|fd name -> Hd Hm He]; [done|..];
    cbn [resolve]; rewrite Hd; unfold find_name; pose proof (lookup_name_spec fd name) as Hl;
    (destruct (lookup_name W h fd name) as [[r|]|]; [| |done]); try (exfalso; by eapply match_or_none).
  - rewrite (first_match_unique _ _ _ _ Hl Hm). cbn [mbind option_bind]. rewrite Ho, IH. done.
  - rewrite (first_match_unique _ _ _ _ Hl Hm). cbn. unfold end_ok in He. destruct (dw_openat W h fd real); [|done].
    by rewrite (proj2 (may_end_spec _) He).
  - cbn. unfold end_ok in He. destruct (dw_openat W h fd name); [|done]. by rewrite (proj2 (may_end_spec _) He).
Qed.
End resolved.

(** * Replies *)

Section replies.
Context (E : denv) `{!Starts E} (W : dir_world).
#[local] Hint Extern 0 (quiet (answer _)) => apply quiet_gets : quiet.
Lemma statns_call_one_reply ub follow p : one_reply ub ptr_failed (statns_call E W follow p).
Proof. unfold statns_call. emits. Qed.
Lemma quiet_lstatns_loop fd names : quiet (lstatns_loop W fd names).
Proof.
  induction names as [|name names IH]; [apply quiet_ret|]. cbn [lstatns_loop].
  apply quiet_bind; [apply quiet_gets|]. intros r. apply quiet_bind; [done|]. intros l. apply quiet_ret.
Qed.
#[local] Hint Resolve quiet_lstatns_loop : quiet.
Lemma lstatnslist_one_reply ub p names : one_reply ub ptr_failed (do_internal_lstatnslist E W p names).
Proof. unfold do_internal_lstatnslist. emits. Qed.
Lemma readdir_one_reply ub p : one_reply ub ptr_failed (do_readdir E W p).
Proof. unfold do_readdir, opendir. emits. Qed.
Lemma statvfs_one_reply ub p : one_reply ub ptr_failed (do_statvfs E W p).
Proof. unfold do_statvfs. emits. Qed.
Lemma realpath_one_reply ub p : one_reply ub ptr_failed (do_realpath E W p).
Proof. unfold do_realpath. emits. Qed.
Lemma case_sensitive_path_one_reply ub p : one_reply ub ptr_failed (do_case_sensitive_path E W p).
Proof.
  unfold do_case_sensitive_path. eapply emits_quiet; [apply quiet_gets|]. intros [e|fd]; [emits|]. intros s.
  destruct (case_loop_run E W (String.length p) p fd "/" s (le_n _)) as (r & s' & E1 & _ & H). exists (Ret r), s'. destruct r.
  - subst s'. exists []. by rewrite app_nil_r.
  - destruct H as (e & msg & H). by exists [Replied e msg].
Qed.
Lemma mknod_one_reply ub mode devmajor devminor p : one_reply ub int_failed (do_mknod E mode devmajor devminor p).
Proof. unfold do_mknod, sys_or. emits. Qed.
Lemma mkfifo_one_reply ub mode p : one_reply ub int_failed (do_mkfifo E mode p).
Proof. apply mknod_one_reply. Qed.
Lemma utimens_one_reply ub p a b c d : one_reply ub int_failed (do_utimens E p a b c d).
Proof. unfold do_utimens, sys_or. emits. Qed.
Lemma mkdtemp_one_reply ub template : one_reply ub ptr_failed (do_mkdtemp E W template).
Proof. unfold do_mkdtemp. emits. Qed.
Lemma mktemp_one_reply ub mask template suffix : one_reply ub ptr_failed (do_mktemp E W mask template suffix).
Proof. unfold do_mktemp. emits. Qed.
Lemma glob_expand_one_reply ub pattern : one_reply ub ptr_failed (do_glob_expand E W pattern).
Proof. unfold do_glob_expand. emits. Qed.
Lemma out_or_one_reply ub argv : one_reply ub ptr_failed (out_or E argv).
Proof. unfold out_or. emits. Qed.
#[local] Hint Resolve out_or_one_reply NEED_ROOT_one_reply : one_reply.
Lemma df_with_one_reply ub func args : one_reply ub ptr_failed (df_with E func args).
Proof. unfold df_with. emits. Qed.
Lemma ll_one_reply ub p : one_reply ub ptr_failed (do_ll E p).
Proof. apply out_or_one_reply. Qed.
Lemma llz_one_reply ub p : one_reply ub ptr_failed (do_llz E p).
Proof. apply out_or_one_reply. Qed.
Lemma quiet_umask mask : quiet (umask mask).
Proof. apply quiet_intro. intros s. eexists _, _, []. by rewrite app_nil_r. Qed.
#[local] Hint Resolve quiet_umask : quiet.
Lemma umask_one_reply ub mask : one_reply ub int_failed (do_umask E mask).
Proof. unfold do_umask. emits. Qed.
Lemma get_umask_one_reply ub : one_reply ub int_failed (do_get_umask E).
Proof. unfold do_get_umask. emits. Qed.
End replies.

(** * Theorems *)

(** C25: case_sensitive_path always returns. The path that it gives is, element by element, the
    first entry of the directory before it that is the element up to case, each of them a
    directory that can be opened; only the last element of a path that does not end in a slash
    may also be another kind of file, or not be there, when it is as it was given. The elements
    . and .. are refused. Nothing is changed, and the call with this path gives the same path
    again. When it fails there is one error reply, and if the directories can be read there is
    no such path. *)
Theorem case_sensitive_path_correct (E : denv) (W : dir_world) (p : string) (s : pstate) :
  let h := ps_log s in
  exists r s', do_case_sensitive_path E W p s = (Ret r, s') /\
    match r with
    | Some real => s' = s /\ do_case_sensitive_path E W real s = (Ret (Some real), s) /\
        exists root names, dw_open_sysroot W h = inr root /\ leads W h (trailing p) root (elements p) names /\
          Forall2 same_case names (elements p) /\ real = "/" +:+ String.concat "/" names
    | None => (exists e msg, ps_log s' = h ++ [Replied e msg]) /\
        (readable W h -> forall root names, dw_open_sysroot W h = inr root -> ~ leads W h (trailing p) root (elements p) names)
    end.
Proof.
  unfold do_case_sensitive_path. unfold answer, gets, bind at 1. destruct (dw_open_sysroot W (ps_log s)) as [e|root] eqn:Eo.
  { eexists None, _. split; [reflexivity|]. split; [by eexists _, _|done]. }
  destruct (case_loop_run E W (String.length p) p root "/" s (le_n _)) as (r & s' & E1 & -> & H). eexists _, s'. split; [exact E1|].
  destruct (resolve W (ps_log s) root (trailing p) (elements p)) as [names|] eqn:Er.
  2: { split; [exact H|]. intros Hr ? names [= <-] Hl. by rewrite (leads_resolve _ _ _ _ _ _ Hr Hl) in Er. } cbn in H |- *. subst s'.
  destruct (resolve_names _ _ _ _ _ _ Er) as [Hc Hi].
  assert (Forall name_ok names) as Hok.
  { apply Forall_forall. intros n Hn. pose proof (elements_ok _ p (le_n _)) as He. rewrite Forall_forall in He.
    apply list_elem_of_lookup in Hn as [i Hi']. destruct (Forall2_lookup_l _ _ _ _ _ Hc Hi') as (m & Hm & Hnm).
    destruct (He m) as [Hm1 Hm2]; [by eapply list_elem_of_lookup_2|]. split; [|by eapply same_case_no_slash]. intros ->. by destruct m. }
  assert (add_names "/" names = "/" +:+ String.concat "/" names) as -> by (apply add_names_root; eapply Forall_impl; [exact Hok|by intros n []]).
  split; [done|]. split; [|exists root, names; split_and!; [done|by apply resolve_leads|done|done]].
  rewrite Eo. set (q := "/" +:+ String.concat "/" names).
  destruct (case_loop_run E W (String.length q) q root "/" s (le_n _)) as (r2 & s2 & E2 & -> & H2). rewrite E2. unfold q in *. clear q E2.
  rewrite elements_join in * by done. destruct names as [|n names]; [cbn in H2 |- *; by subst s2|].
  rewrite trailing_join, Hi in * by done. cbn in H2 |- *. subst s2. do 2 f_equal.
  f_equal. apply (add_names_root (n :: names)). eapply Forall_impl; [exact Hok|by intros ? []].
Qed.

(** Two paths with the same elements up to case lead to the same answer, when all of them are there. *)
Theorem case_sensitive_path_canonical (E : denv) (W : dir_world) (p p' : string) (s : pstate) :
  Forall2 same_case (elements p) (elements p') -> trailing p = trailing p' ->
  (forall root, dw_open_sysroot W (ps_log s) = inr root -> all_found W (ps_log s) root (elements p) = true) ->
  forall real, fst (do_case_sensitive_path E W p s) = Ret (Some real) <-> fst (do_case_sensitive_path E W p' s) = Ret (Some real).
Proof.
  intros Hc Ht Hf real. unfold do_case_sensitive_path, answer, gets, bind. destruct (dw_open_sysroot W (ps_log s)) as [e|root] eqn:Eo; [done|].
  destruct (case_loop_run E W (String.length p) p root "/" s (le_n _)) as (r & s1 & -> & -> & _).
  destruct (case_loop_run E W (String.length p') p' root "/" s (le_n _)) as (r & s2 & -> & -> & _). cbn.
  by rewrite Ht, (resolve_same W (ps_log s) (trailing p') (elements p) (elements p') Hc root (Hf _ eq_refl)).
Qed.

(** The stub of internal_lstatnslist runs the procedure of the daemon. *)
Definition calls_lstatnslist (E : denv) (W : dir_world) `{GuestCalls pstate} : Prop :=
  forall dir names w, guestfs_internal_lstatnslist dir names w = on_daemon (do_internal_lstatnslist E W dir names) w.

Lemma lstatns_loop_run W fd names s :
  lstatns_loop W fd names s =
  (Ret ((fun n => match dw_fstatat W (ps_log s) fd n with inl _ => no_stat | inr b => stat_to_statns b end) <$> names), s).
Proof.
  induction names as [|name names IH]; [done|]. cbn [lstatns_loop]. unfold answer, gets, bind at 1. by rewrite (bind_Ret _ _ _ _ _ IH).
Qed.

(** From the kernel to the program: lstatlist of the library, which asks the daemon as many
    times as are needed, gives for each name the attributes that the kernel has for it at that
    time, in order, and an inode number of -1 for a name that cannot be examined; the daemon
    does nothing else. *)
Theorem lstatlist_end_to_end (E : denv) (W : dir_world) `{GuestCalls pstate} (dir : string) (names : list string)
    (w : world pstate) (fd : Z) :
  calls_lstatnslist E W ->
  dw_open W (ps_log (w_guest w)) dir = inr fd -> dw_close W (ps_log (w_guest w)) fd = None ->
  exists w', guestfs__lstatlist dir names w =
      (Ret (Some ((fun n => statns_to_old_stat (match dw_fstatat W (ps_log (w_guest w)) fd n with
                                                | inl _ => no_stat | inr b => stat_to_statns b end)) <$> names)), w') /\
    w_guest w' = w_guest w.
Proof.
  intros Hc Ho Hcl.
  destruct (lstatlist_one_to_one dir names (fun n => match dw_fstatat W (ps_log (w_guest w)) fd n with
    | inl _ => no_stat | inr b => stat_to_statns b end) (fun w1 => w_guest w1 = w_guest w) w) as (w' & E1 & Hw); [done| |done|by exists w'].
  intros ns w1 _ Hw1. rewrite Hc. unfold on_daemon, zoom. rewrite Hw1. unfold do_internal_lstatnslist. unfold answer, gets, bind at 1. rewrite Ho.
  rewrite (bind_Ret _ _ _ _ _ (lstatns_loop_run W fd ns (w_guest w))). unfold bind at 1. rewrite Hcl. eexists. split; [reflexivity|]. done.
Qed.

(** get_umask gives the mask and leaves it as it was; umask gives the old one and sets the new. *)
Lemma umask_set_get (E : denv) (mask : Z) (s : pstate) :
  0 <= mask <= 511 -> 0 <= default 18 (ps_static s !! "umask") <= 511 ->
  exists s1 s2, do_umask E mask s = (Ret (default 18 (ps_static s !! "umask")), s1) /\
    do_get_umask E s1 = (Ret mask, s2) /\ ps_static s2 !! "umask" = Some mask.
Proof.
  intros Hm Ho. unfold do_umask. rewrite (proj2 (Z.ltb_ge mask 0)), (proj2 (Z.ltb_ge 511 mask)) by lia. cbn [orb].
  unfold umask at 1, bind at 1. rewrite (proj2 (Z.eqb_neq _ (-1))) by lia. eexists _, _. split; [reflexivity|].
  assert (Z.land mask 511 = mask) as Hl by (change 511 with (Z.ones 9); rewrite Z.land_ones by lia; apply Z.mod_small; lia).
  unfold do_get_umask, umask, bind, ret. cbn. rewrite !lookup_insert_eq. cbn. rewrite Hl, (proj2 (Z.eqb_neq mask (-1))) by lia.
  split; [reflexivity|]. cbn. rewrite !lookup_insert_eq. by rewrite Hl.
Qed.

(** * Examples *)

(** /Windows/System32 with one file; "/" is 1, and so on. *)
Definition ex_listing (fd : Z) : list kdirent :=
  mk_kdirent fd 4 "." :: mk_kdirent 1 4 ".." ::
  (if fd =? 1 then [mk_kdirent 2 4 "Windows"; mk_kdirent 9 8 "boot.ini"]
   else if fd =? 2 then [mk_kdirent 3 4 "System32"] else [mk_kdirent 4 8 "Config.sys"]).
Definition ex_kstat (ino : Z) : kstat := mk_kstat 1 ino 33188 1 0 0 0 10 4096 8 100 1 200 2 300 3.
Definition ex_dirs : dir_world := {|
  dw_stat _ _ _ := inr (ex_kstat 4);
  dw_open _ p := if STREQ p "/" then inr 1 else inl ENOENT;
  dw_open_sysroot _ := inr 1;
  dw_openat _ fd name :=
    match List.find (fun d => STREQ (kd_name d) name) (ex_listing fd) with
    | Some d => if kd_type d =? 4 then inr (kd_ino d) else inl ENOTDIR
    | None => inl ENOENT
    end;
  dw_fstatat _ fd name :=
    match List.find (fun d => STREQ (kd_name d) name) (ex_listing fd) with
    | Some d => inr (ex_kstat (kd_ino d)) | None => inl ENOENT end;
  dw_close _ _ := None;
  dw_dup _ _ := None;
  dw_fdopendir _ fd := inr (mk_open_dir (ex_listing fd) None None);
  dw_statvfs _ _ := inl 38;
  dw_realpath _ p := inr p;
  dw_mkdtemp _ t := inr t;
  dw_mkstemps _ t _ := inr t;
  dw_glob _ _ := (GLOB_NOMATCH, 0, [])
|}.

Lemma case_sensitive_path_example : 
  (fun p => fst (do_case_sensitive_path (Parted.ex_env "") ex_dirs p ex_pstate)) <$>
    ["/WINDOWS//system32/config.SYS"; "/windows/NEW"; "/windows/NEW/"; "/windows/../x"] =
  [Ret (Some "/Windows/System32/Config.sys"); Ret (Some "/Windows/NEW"); Ret None; Ret None].
Proof. by vm_compute. Qed.

Lemma ex_readable h : readable ex_dirs h.
Proof. intros fd. split; [done|]. by eexists. Qed.
(** A name that is not there yet, and one below it. *)
Lemma case_sensitive_path_correct_witness :
  (exists names, leads ex_dirs [] false 1 ["windows"; "NEW"] names /\ String.concat "/" names = "Windows/NEW") /\
  (forall names, ~ leads ex_dirs [] true 1 ["windows"; "NEW"] names).
Proof.
  split.
  - destruct (case_sensitive_path_correct (Parted.ex_env "") ex_dirs "/windows/NEW" ex_pstate) as (r & s' & E & H).
    vm_compute in E. injection E as <- <-. destruct H as (_ & _ & root & names & [= <-] & Hl & _ & En).
    exists names. split; [exact Hl|]. by injection En.
  - destruct (case_sensitive_path_correct (Parted.ex_env "") ex_dirs "/windows/NEW/" ex_pstate) as (r & s' & E & H).
    vm_compute in E. injection E as <- <-. destruct H as [_ H]. intros names. by apply (H (ex_readable _) 1).
Defined.

Lemma case_sensitive_path_canonical_witness : forall real,
  fst (do_case_sensitive_path (Parted.ex_env "") ex_dirs "/WINDOWS/System32" ex_pstate) = Ret (Some real) <->
  fst (do_case_sensitive_path (Parted.ex_env "") ex_dirs "/windows//SYSTEM32" ex_pstate) = Ret (Some real).
Proof.
  apply (case_sensitive_path_canonical (Parted.ex_env "") ex_dirs "/WINDOWS/System32" "/windows//SYSTEM32" ex_pstate).
  - repeat constructor.
  - reflexivity.
  - by intros root [= <-].
Defined.

(** A guest that answers internal_lstatnslist and nothing else. *)
#[local] Instance ex_stat_calls : GuestCalls pstate.
Proof.
  refine {| guestfs_internal_lstatnslist dir names := on_daemon (do_internal_lstatnslist (Parted.ex_env "") ex_dirs dir names) |};
  intros; first [exact (ret (-1)) | exact (ret None)].
Defined.
Lemma lstatlist_end_to_end_witness : exists w',
  @guestfs__lstatlist pstate ex_stat_calls "/" ["boot.ini"; "gone"] ex_daemon_world =
    (Ret (Some (statns_to_old_stat <$> [stat_to_statns (ex_kstat 9); no_stat])), w') /\ w_guest w' = w_guest ex_daemon_world.
Proof.
  apply (lstatlist_end_to_end (Parted.ex_env "") ex_dirs "/" ["boot.ini"; "gone"] ex_daemon_world 1).
  - by intros dir names w.
  - reflexivity.
  - reflexivity.
Defined.

(** A read error in the middle of a directory: the entries so far are returned
    as if they were all. *)
Lemma readdir_error_ignored : 
  let W := mk_dir_world (fun _ _ _ => inl 2) (fun _ _ => inr 1) (fun _ => inr 1) (fun _ _ _ => inl 2) (fun _ _ _ => inl 2) (fun _ _ => None)
    (fun _ _ => None) (fun _ _ => inr (mk_open_dir [mk_kdirent 7 8 "a"] (Some 5) None)) (fun _ _ => inl 2) (fun _ _ => inl 2) (fun _ _ => inl 2)
    (fun _ _ _ => inl 2) (fun _ _ => (0, 0, [])) in
  do_readdir (Parted.ex_env "") W "/d" ex_pstate = (Ret (Some [mk_dirent 7 "r" "a"]), ex_pstate).
Proof. reflexivity. Qed.
