(* ===== verification/Args.v ===== *)
(** The XDR marshalling of arguments and results (generator/xdr.ml): the
    routine that rpcgen makes for each kind of argument and result, built from
    those of the C library (xdr_string, xdr_array, xdr_pointer, ..), with the
    laws that the remote procedure call relies on. *)

From S2P Require Import Prelude Xdr Protocol Utils Events Conn Command Guestfsd Procs.

Open Scope Z_scope.

(** * Routines *)

(** An xdrproc_t for values of type [T]: encoding and decoding, and for the
    laws the bytes of a value, whether it can be encoded, and which values can
    come out of decoding. *)
Record xdrproc (T : Type) := mk_xdrproc {
  xp_put : T -> xenc -> option xenc;
  xp_get : list byte -> option (T * list byte);
  xp_wire : T -> list byte;
  xp_fits : T -> bool;
  xp_typed : T -> Prop
}.
Arguments mk_xdrproc {T}.
Arguments xp_put {T}.
Arguments xp_get {T}.
Arguments xp_wire {T}.
Arguments xp_fits {T}.
Arguments xp_typed {T}.

Class XdrProc {T} (p : xdrproc T) : Prop := {
  xp_put_wire a x : xp_put p a x = if xp_fits p a then xput (xp_wire p a) x else None;
  xp_get_wire a rest : xp_fits p a = true -> xp_typed p a -> xp_get p (xp_wire p a ++ rest) = Some (a, rest);
  xp_get_typed bs a rest : xp_get p bs = Some (a, rest) -> xp_typed p a
}.

Definition xdr_void : xdrproc unit :=
  mk_xdrproc (fun _ => xput []) (fun bs => Some (tt, bs)) (fun _ => []) (fun _ => true) (fun _ => True).

Definition xdr_int : xdrproc Z :=
  mk_xdrproc (fun z => xput (be_bytes 4 z)) xdr_int_get (be_bytes 4) (fun _ => true) is_s32.

Definition xdr_int64_get (bs : list byte) : option (Z * list byte) :=
  '(z, r) ← xdr_uint64_get bs; Some (s64 z, r).
Definition xdr_int64_t : xdrproc Z :=
  mk_xdrproc xdr_uint64_put xdr_int64_get (be_bytes 8) (fun _ => true) (fun z => - 2 ^ 63 <= z < 2 ^ 63).

Definition xdr_bool_get (bs : list byte) : option (bool * list byte) :=
  '(z, r) ← xdr_u_int_get bs; Some (negb (z =? 0), r).
Definition xdr_bool : xdrproc bool :=
  mk_xdrproc (fun b => xdr_u_int_put (bool_int b)) xdr_bool_get (fun b => be_bytes 4 (bool_int b)) (fun _ => true) (fun _ => True).

Definition UINT_MAX : Z := 2 ^ 32 - 1.

(** opaque n<>: xdr_bytes. *)
Definition xdr_opaque : xdrproc (list byte) :=
  mk_xdrproc (xdr_bytes_put UINT_MAX) (xdr_bytes_get UINT_MAX) opaque_wire
    (fun bs => zlength bs <=? UINT_MAX) (fun _ => True).

(** string n<>: a C string goes up to the first NUL; when decoding room for
    the final NUL is needed, so that the largest size is refused. *)
Definition cbytes (s : string) : list byte := until_nul (bytes_of_string s).
Definition xdr_string_get (bs : list byte) : option (string * list byte) :=
  '(b, r) ← xdr_bytes_get (UINT_MAX - 1) bs; Some (cstr b, r).
Definition xdr_string : xdrproc string :=
  mk_xdrproc (fun s => xdr_bytes_put UINT_MAX (cbytes s)) xdr_string_get (fun s => opaque_wire (cbytes s))
    (fun s => zlength (cbytes s) <=? UINT_MAX)
    (fun s => cbytes s = bytes_of_string s /\ zlength (cbytes s) < UINT_MAX).

(** type *n: xdr_pointer. *)
Definition xdr_pointer_get {T} (p : xdrproc T) (bs : list byte) : option (option T * list byte) :=
  '(more, bs) ← xdr_bool_get bs;
  if more : bool then '(a, bs) ← xp_get p bs; Some (Some a, bs) else Some (None, bs).
Definition xdr_pointer {T} (p : xdrproc T) : xdrproc (option T) :=
  mk_xdrproc
    (fun o x => x ← xdr_u_int_put (bool_int (bool_decide (is_Some o))) x;
                match o with Some a => xp_put p a x | None => Some x end)
    (xdr_pointer_get p)
    (fun o => be_bytes 4 (bool_int (bool_decide (is_Some o))) ++ match o with Some a => xp_wire p a | None => [] end)
    (fun o => match o with Some a => xp_fits p a | None => true end)
    (fun o => match o with Some a => xp_typed p a | None => True end).

(** type n<>: xdr_array, the elements taking [elsize] bytes of memory. *)
Fixpoint put_all {T} (p : xdrproc T) (l : list T) (x : xenc) : option xenc :=
  match l with [] => Some x | a :: l' => x ← xp_put p a x; put_all p l' x end.
Fixpoint get_all {T} (p : xdrproc T) (n : nat) (bs : list byte) : option (list T * list byte) :=
  match n with
  | O => Some ([], bs)
  | S n' => '(a, bs) ← xp_get p bs; '(l, bs) ← get_all p n' bs; Some (a :: l, bs)
  end.
Definition too_many (elsize c : Z) : bool := UINT_MAX / elsize <? c.
Definition xdr_array_put {T} (elsize : Z) (p : xdrproc T) (l : list T) (x : xenc) : option xenc :=
  x ← xdr_u_int_put (zlength l) x;
  if too_many elsize (zlength l) then None else put_all p l x.
Definition xdr_array_get {T} (elsize : Z) (p : xdrproc T) (bs : list byte) : option (list T * list byte) :=
  '(c, bs) ← xdr_u_int_get bs;
  if too_many elsize c then None else get_all p (Z.to_nat c) bs.
Definition xdr_array {T} (elsize : Z) (p : xdrproc T) : xdrproc (list T) :=
  mk_xdrproc (xdr_array_put elsize p) (xdr_array_get elsize p)
    (fun l => be_bytes 4 (zlength l) ++ concat (xp_wire p <$> l))
    (fun l => negb (too_many elsize (zlength l)) && forallb (xp_fits p) l)
    (fun l => Forall (xp_typed p) l).

(** Two fields of a structure. *)
Definition xdr_fields {A B} (p : xdrproc A) (q : xdrproc B) : xdrproc (A * B) :=
  mk_xdrproc
    (fun v x => x ← xp_put p (fst v) x; xp_put q (snd v) x)
    (fun bs => '(a, bs) ← xp_get p bs; '(b, bs) ← xp_get q bs; Some ((a, b), bs))
    (fun v => xp_wire p (fst v) ++ xp_wire q (snd v))
    (fun v => xp_fits p (fst v) && xp_fits q (snd v))
    (fun v => xp_typed p (fst v) /\ xp_typed q (snd v)).

(** A structure that is another one under different names. *)
Definition xdr_as {A B} (f : A -> B) (g : B -> A) (p : xdrproc A) : xdrproc B :=
  mk_xdrproc (fun b => xp_put p (g b)) (fun bs => '(a, bs) ← xp_get p bs; Some (f a, bs))
    (fun b => xp_wire p (g b)) (fun b => xp_fits p (g b)) (fun b => xp_typed p (g b)).

Definition xdr_strings : xdrproc (list string) := xdr_array 8 xdr_string.

(** * Arguments *)

Inductive arg_kind :=
  | Pathname | Device | Mountable | Dev_or_Path | Mountable_or_Path | AString | Key | GUID
  | OptString | StringList | DeviceList | ABool | AInt | AInt64 | BufferIn.
#[export] Instance arg_kind_eq_dec : EqDecision arg_kind.
Proof. solve_decision. Defined.

Definition wire_type (k : arg_kind) : Type :=
  match k with
  | OptString => option string
  | StringList | DeviceList => list string
  | ABool => bool
  | AInt | AInt64 => Z
  | BufferIn => list byte
  | _ => string
  end.
Definition arg_xdr (k : arg_kind) : xdrproc (wire_type k) :=
  match k with
  | OptString => xdr_pointer xdr_string
  | StringList | DeviceList => xdr_strings
  | ABool => xdr_bool
  | AInt => xdr_int
  | AInt64 => xdr_int64_t
  | BufferIn => xdr_opaque
  | _ => xdr_string
  end.

(** struct guestfs_NAME_args: the arguments in order. *)
Fixpoint args_of (f : arg_kind -> Type) (ks : list arg_kind) : Type :=
  match ks with [] => unit | k :: ks' => (f k * args_of f ks')%type end.
Fixpoint args_xdr (ks : list arg_kind) : xdrproc (args_of wire_type ks) :=
  match ks with [] => xdr_void | k :: ks' => xdr_fields (arg_xdr k) (args_xdr ks') end.

(** * Laws *)

Lemma xput_nil x : 0 <= x_left x -> xput [] x = Some x.
Proof. intros H. rewrite xput_Some by done. destruct x. cbn. by rewrite app_nil_r, Z.sub_0_r. Qed.
Lemma xput_left bs x x' : xput bs x = Some x' -> 0 <= x_left x'.
Proof. unfold xput. destruct (Z.leb_spec (zlength bs) (x_left x)); [|done]. intros [= <-]. cbn. lia. Qed.

#[export] Instance xdr_void_laws : XdrProc xdr_void.
Proof. split; [done| |done]. by intros []. Qed.

#[export] Instance xdr_int_laws : XdrProc xdr_int.
Proof.
  split; [done| |]; cbn.
  - intros a rest _ H. by apply xdr_int_get_put.
  - intros bs a rest. unfold xdr_int_get, xget. case_match; [|done]. cbn. intros [= <- _].
    unfold is_s32. apply s32_bound.
Qed.

Lemma s64_be z : - 2 ^ 63 <= z < 2 ^ 63 -> s64 (z mod 2 ^ 64) = z.
Proof. intros H. rewrite <- (s64_id z H) at 2. unfold s64. by rewrite Zmod_mod. Qed.
Lemma s64_bound z : - 2 ^ 63 <= s64 z < 2 ^ 63.
Proof.
  unfold s64. pose proof (Z.mod_pos_bound z (2 ^ 64) ltac:(lia)). cbv zeta. case_match; lia.
Qed.
#[export] Instance xdr_int64_t_laws : XdrProc xdr_int64_t.
Proof.
  split; [done| |]; cbn.
  - intros a rest _ H. unfold xdr_int64_get, xdr_uint64_get. rewrite xget_app by apply length_be_bytes. cbn.
    rewrite be_Z_be_bytes. change (8 * Z.of_nat 8) with 64. by rewrite s64_be.
  - intros bs a rest. unfold xdr_int64_get, xdr_uint64_get, xget. case_match; [|done]. cbn. intros [= <- _]. apply s64_bound.
Qed.

#[export] Instance xdr_bool_laws : XdrProc xdr_bool.
Proof.
  split; [done| |done]. cbn. intros a rest _ _. unfold xdr_bool_get.
  rewrite xdr_u_int_get_put by (destruct a; cbn; lia). by destruct a.
Qed.

#[export] Instance xdr_opaque_laws : XdrProc xdr_opaque.
Proof.
  split; [apply xdr_bytes_put_wire| |done]. cbn. intros a rest H%Z.leb_le _.
  apply xdr_bytes_get_wire; unfold UINT_MAX in *; lia.
Qed.

(** A C string has no NUL. *)
Lemma cbytes_cstr bs : cbytes (cstr bs) = bytes_of_string (cstr bs).
Proof.
  unfold cbytes, cstr. rewrite bytes_of_string_of_bytes. induction bs as [|b bs IH]; [done|]. cbn.
  destruct (Byte.eqb b x00) eqn:E; [done|]. cbn. by rewrite E, IH.
Qed.
Lemma cstr_cbytes s : cbytes s = bytes_of_string s -> cstr (cbytes s) = s.
Proof. intros H. unfold cstr. rewrite H. fold (cbytes s). rewrite H. apply string_of_bytes_of_string. Qed.
Lemma length_until_nul bs : (length (until_nul bs) <= length bs)%nat.
Proof. induction bs as [|b bs IH]; [done|]. cbn. case_match; cbn; lia. Qed.

Lemma xdr_bytes_get_length max bs b r : xdr_bytes_get max bs = Some (b, r) -> 0 <= max -> zlength b <= max.
Proof.
  unfold xdr_bytes_get, xdr_u_int_get, xget. intros H Hm. repeat (case_match; cbn in *; simplify_eq).
  unfold zlength. rewrite length_take.
  match goal with H : (_ <? _) = false |- _ => apply Z.ltb_ge in H end. lia.
Qed.
#[export] Instance xdr_string_laws : XdrProc xdr_string.
Proof.
  split; cbn.
  - intros a x. apply xdr_bytes_put_wire.
  - intros a rest _ [Hc Hl]. unfold xdr_string_get. rewrite xdr_bytes_get_wire by (unfold UINT_MAX in *; lia).
    cbn. by rewrite cstr_cbytes.
  - intros bs a rest. unfold xdr_string_get. destruct (xdr_bytes_get _ bs) as [[b r]|] eqn:E; [|done].
    cbn. intros [= <- _]. split; [apply cbytes_cstr|].
    apply xdr_bytes_get_length in E; [|unfold UINT_MAX; lia]. rewrite cbytes_cstr. unfold cstr.
    rewrite bytes_of_string_of_bytes. unfold zlength in *. pose proof (length_until_nul b). lia.
Qed.

Section combinators.
Context {T U : Type} (p : xdrproc T) (q : xdrproc U) `{!XdrProc p} `{!XdrProc q}.

#[export] Instance xdr_pointer_laws : XdrProc (xdr_pointer p).
Proof.
  split; cbn.
  - intros [a|] x; unfold xdr_u_int_put; rewrite xput_app.
    + rewrite bool_decide_true by eauto. destruct (xput _ x); cbn; [apply xp_put_wire|by case_match].
    + destruct (xput _ x) eqn:E; cbn; [|done]. symmetry. apply xput_nil. by eapply xput_left.
  - intros o rest Hf Ht. unfold xdr_pointer_get, xdr_bool_get. rewrite <- app_assoc, xdr_u_int_get_put
      by (destruct o; cbn; lia). cbn. destruct o as [a|]; [|done]. rewrite bool_decide_true by eauto. cbn.
    by rewrite xp_get_wire.
  - intros bs o rest. unfold xdr_pointer_get. destruct (xdr_bool_get bs) as [[[] bs']|]; cbn; [| |done].
    + destruct (xp_get p bs') as [[a r]|] eqn:E; cbn; [|done]. intros [= <- _]. by eapply xp_get_typed.
    + by intros [= <- _].
Qed.

Lemma put_all_wire l x : 0 <= x_left x ->
  put_all p l x = if forallb (xp_fits p) l then xput (concat (xp_wire p <$> l)) x else None.
Proof.
  revert x. induction l as [|a l IH]; intros x Hx; cbn; [by rewrite xput_nil|]. rewrite xp_put_wire, xput_app.
  destruct (xp_fits p a); cbn; [|done]. destruct (xput (xp_wire p a) x) eqn:E; cbn; [|by case_match].
  apply IH. by eapply xput_left.
Qed.
Lemma get_all_wire l rest : forallb (xp_fits p) l = true -> Forall (xp_typed p) l ->
  get_all p (length l) (concat (xp_wire p <$> l) ++ rest) = Some (l, rest).
Proof.
  intros Hf Ht. revert Hf. induction Ht as [|a l Ha _ IH]; [done|]. cbn. intros [Hf Hl]%andb_prop.
  rewrite <- app_assoc, xp_get_wire by done. cbn. by rewrite IH.
Qed.
Lemma get_all_typed n bs l rest : get_all p n bs = Some (l, rest) -> Forall (xp_typed p) l.
Proof.
  revert bs l. induction n as [|n IH]; intros bs l; cbn; [by intros [= <- _]|].
  destruct (xp_get p bs) as [[a bs']|] eqn:E; cbn; [|done].
  destruct (get_all p n bs') as [[l' r]|] eqn:E'; cbn; [|done]. intros [= <- <-].
  constructor; [by eapply xp_get_typed|by eapply IH].
Qed.
#[export] Instance xdr_array_laws elsize : XdrProc (xdr_array (Zpos elsize) p).
Proof.
  split; cbn.
  - intros l x. unfold xdr_array_put, xdr_u_int_put. rewrite xput_app.
    destruct (xput _ x) eqn:E; cbn; [|by case_match]. destruct (too_many _ _); cbn; [done|].
    apply put_all_wire. by eapply xput_left.
  - intros l rest [Hm Hf]%andb_prop Ht. apply negb_true_iff in Hm. unfold xdr_array_get. rewrite <- app_assoc.
    rewrite xdr_u_int_get_put.
    + cbn. rewrite Hm. unfold zlength. rewrite Nat2Z.id. by apply get_all_wire.
    + pose proof (zlength_nonneg l). unfold too_many, UINT_MAX in Hm. apply Z.ltb_ge in Hm.
      assert ((2 ^ 32 - 1) / Zpos elsize <= 2 ^ 32 - 1) by (apply Z.div_le_upper_bound; lia). lia.
  - intros bs l rest. unfold xdr_array_get. destruct (xdr_u_int_get bs) as [[c bs']|]; cbn; [|done].
    case_match; [done|]. apply get_all_typed.
Qed.

#[export] Instance xdr_fields_laws : XdrProc (xdr_fields p q).
Proof.
  split; cbn.
  - intros [a b] x. cbn. rewrite xp_put_wire, xput_app. destruct (xp_fits p a); cbn; [|done].
    destruct (xput _ x); cbn; [apply xp_put_wire|by case_match].
  - intros [a b] rest [Hp Hq]%andb_prop [Tp Tq]. cbn in *. rewrite <- app_assoc, xp_get_wire by done. cbn.
    by rewrite xp_get_wire.
  - intros bs [a b] rest. destruct (xp_get p bs) as [[a' r]|] eqn:E; cbn; [|done].
    destruct (xp_get q r) as [[b' r']|] eqn:E'; cbn; [|done]. intros [= <- <- _].
    split; by eapply xp_get_typed.
Qed.
Lemma xdr_as_laws (f : T -> U) (g : U -> T) : (forall a, g (f a) = a) -> (forall b, f (g b) = b) -> XdrProc (xdr_as f g p).
Proof.
  intros Hgf Hfg. split; cbn.
  - intros b x. apply xp_put_wire.
  - intros b rest Hf Ht. rewrite xp_get_wire by done. cbn. by rewrite Hfg.
  - intros bs b rest. destruct (xp_get p bs) as [[a r]|] eqn:E; cbn; [|done]. intros [= <- _]. rewrite Hgf.
    by eapply xp_get_typed.
Qed.
End combinators.

#[export] Instance xdr_strings_laws : XdrProc xdr_strings := _.
#[export] Instance arg_xdr_laws k : XdrProc (arg_xdr k).
Proof. destruct k; apply _. Qed.
#[export] Instance args_xdr_laws ks : XdrProc (args_xdr ks).
Proof. induction ks; apply _. Qed.

(** * What a kind of argument may hold, and its bytes on the wire *)

(** A C string that fits: no NUL byte, and room for the final NUL. *)
Definition c_string (s : string) : Prop :=
  x00 ∉ bytes_of_string s /\ Z.of_nat (String.length s) < 2 ^ 32 - 1.
Definition arg_typed (k : arg_kind) : wire_type k -> Prop :=
  match k with
  | OptString => fun o => match o with Some s => c_string s | None => True end
  | StringList | DeviceList => fun l => zlength l <= (2 ^ 32 - 1) / 8 /\ Forall c_string l
  | ABool => fun _ => True
  | AInt => fun z => - 2 ^ 31 <= z < 2 ^ 31
  | AInt64 => fun z => - 2 ^ 63 <= z < 2 ^ 63
  | BufferIn => fun bs => zlength bs <= 2 ^ 32 - 1
  | _ => c_string
  end.

(** RFC 4506: integers are big-endian, of four or of eight bytes; strings and
    opaque data are a length, the bytes, and zeroes up to a multiple of four;
    optional data and lists are preceded by their number of elements. *)
Definition opaque_bytes (bs : list byte) : list byte :=
  be_bytes 4 (zlength bs) ++ bs ++ replicate (Z.to_nat ((- zlength bs) mod 4)) x00.
Definition string_wire (s : string) : list byte := opaque_bytes (bytes_of_string s).
Definition arg_wire (k : arg_kind) : wire_type k -> list byte :=
  match k with
  | OptString => fun o => match o with Some s => be_bytes 4 1 ++ string_wire s | None => be_bytes 4 0 end
  | StringList | DeviceList => fun l => be_bytes 4 (zlength l) ++ concat (string_wire <$> l)
  | ABool => fun b : bool => be_bytes 4 (if b then 1 else 0)
  | AInt => be_bytes 4
  | AInt64 => be_bytes 8
  | BufferIn => opaque_bytes
  | _ => string_wire
  end.

(** The arguments of a procedure: each of its kind, one after the other. *)
Fixpoint args_typed (ks : list arg_kind) : args_of wire_type ks -> Prop :=
  match ks with [] => fun _ => True | k :: ks' => fun v => arg_typed k (fst v) /\ args_typed ks' (snd v) end.
Fixpoint args_wire (ks : list arg_kind) : args_of wire_type ks -> list byte :=
  match ks with [] => fun _ => [] | k :: ks' => fun v => arg_wire k (fst v) ++ args_wire ks' (snd v) end.

Lemma opaque_bytes_wire bs : opaque_bytes bs = opaque_wire bs.
Proof.
  unfold opaque_bytes, opaque_wire, rndup, zlength. do 3 f_equal.
  apply Nat2Z.inj. rewrite Z2Nat.id by (apply Z.mod_pos_bound; lia).
  rewrite Nat2Z.inj_mod, Nat2Z.inj_sub, Nat2Z.inj_mod by (pose proof (Nat.mod_upper_bound (length bs) 4); lia).
  change (Z.of_nat 4) with 4. Z.div_mod_to_equations. lia.
Qed.
Lemma until_nul_fixed bs : x00 ∉ bs <-> until_nul bs = bs.
Proof.
  induction bs as [|b bs IH]; cbn; [set_solver|]. rewrite not_elem_of_cons.
  destruct (Byte.eqb b x00) eqn:E.
  - apply Byte.byte_dec_bl in E as ->. split; [by intros []|done].
  - rewrite IH. split; [by intros [_ ->]|]. intros [= ->]. split; [|done]. by intros <-.
Qed.
Lemma c_string_typed s : c_string s <-> xp_typed xdr_string s.
Proof.
  unfold c_string. cbn. unfold cbytes. rewrite until_nul_fixed. unfold zlength, UINT_MAX.
  rewrite <- (length_bytes_of_string s). split; intros [E H]; (split; [done|]); by rewrite E in *.
Qed.
Lemma c_string_wire s : c_string s -> xp_wire xdr_string s = string_wire s /\ xp_fits xdr_string s = true.
Proof.
  intros H%c_string_typed. pose proof H as [E Hl]. cbn in *. unfold string_wire. rewrite opaque_bytes_wire, <- E.
  split; [done|]. apply Z.leb_le. lia.
Qed.
Lemma c_strings_wire l : Forall c_string l ->
  concat (xp_wire xdr_string <$> l) = concat (string_wire <$> l) /\
  forallb (xp_fits xdr_string) l = true /\ Forall (xp_typed xdr_string) l.
Proof.
  induction 1 as [|s l Hs _ (IHw & IHf & IHt)]; [done|].
  pose proof (c_string_wire s Hs) as [Ew Ef]. apply c_string_typed in Hs.
  rewrite !fmap_cons. cbn [concat forallb]. rewrite Ew, Ef, IHw, IHf. auto.
Qed.

Lemma c_strings_arg (l : list string) : zlength l <= (2 ^ 32 - 1) / 8 /\ Forall c_string l ->
  xp_wire xdr_strings l = be_bytes 4 (zlength l) ++ concat (string_wire <$> l) /\
  xp_fits xdr_strings l = true /\ xp_typed xdr_strings l.
Proof.
  intros [Hn Hl]. destruct (c_strings_wire l Hl) as (Ew & Ef & Et). unfold xdr_strings, xdr_array. cbn [xp_wire xp_fits xp_typed]. rewrite Ew, Ef.
  split; [done|]. split; [|done]. unfold too_many, UINT_MAX. rewrite andb_true_r. apply negb_true_iff, Z.ltb_ge. lia.
Qed.
Lemma get_all_length {T} (p : xdrproc T) n bs l rest : get_all p n bs = Some (l, rest) -> length l = n.
Proof.
  revert bs l. induction n as [|n IH]; intros bs l; cbn; [by intros [= <- _]|].
  destruct (xp_get p bs) as [[a r]|]; cbn; [|done]. destruct (get_all p n r) as [[l' r']|] eqn:E; cbn; [|done].
  intros [= <- <-]. cbn. f_equal. by eapply IH.
Qed.
Lemma c_strings_get bs (l : list string) rest : xp_get xdr_strings bs = Some (l, rest) ->
  zlength l <= (2 ^ 32 - 1) / 8 /\ Forall c_string l.
Proof.
  intros H. split.
  - cbn in H. unfold xdr_array_get, xdr_u_int_get, xget in H. case_match; [|done]. cbn in H.
    destruct (too_many 8 _) eqn:E; [done|]. apply get_all_length in H. unfold zlength. rewrite H.
    unfold too_many, UINT_MAX in E. apply Z.ltb_ge in E. pose proof (be_Z_bound (take 4 bs)). lia.
  - apply xp_get_typed in H. eapply Forall_impl; [exact H|]. intros s. apply c_string_typed.
Qed.

Lemma c_string_arg s : c_string s ->
  xp_wire xdr_string s = string_wire s /\ xp_fits xdr_string s = true /\ xp_typed xdr_string s.
Proof. intros H. destruct (c_string_wire s H). split; [done|]. split; [done|by apply c_string_typed]. Qed.
Lemma c_string_get bs s rest : xp_get xdr_string bs = Some (s, rest) -> c_string s.
Proof. intros H%xp_get_typed. by apply c_string_typed. Qed.
Lemma opt_string_arg (o : option string) : match o with Some s => c_string s | None => True end ->
  xp_wire (xdr_pointer xdr_string) o = match o with Some s => be_bytes 4 1 ++ string_wire s | None => be_bytes 4 0 end /\
  xp_fits (xdr_pointer xdr_string) o = true /\ xp_typed (xdr_pointer xdr_string) o.
Proof.
  destruct o as [s|]; [|done]. intros (Ew & Ef & Et)%c_string_arg.
  unfold xdr_pointer. cbn [xp_wire xp_fits xp_typed]. rewrite bool_decide_true by eauto. by rewrite Ew.
Qed.
Lemma opaque_arg bs : zlength bs <= 2 ^ 32 - 1 ->
  xp_wire xdr_opaque bs = opaque_bytes bs /\ xp_fits xdr_opaque bs = true /\ xp_typed xdr_opaque bs.
Proof. intros H. rewrite opaque_bytes_wire. split; [done|]. split; [by apply Z.leb_le|done]. Qed.

(** The routine chosen for a kind is the right one. *)
Lemma arg_wire_ok k (a : wire_type k) : arg_typed k a ->
  xp_wire (arg_xdr k) a = arg_wire k a /\ xp_fits (arg_xdr k) a = true /\ xp_typed (arg_xdr k) a.
Proof.
  destruct k; first
    [ exact (c_string_arg a) | exact (opt_string_arg a) | exact (c_strings_arg a) | exact (opaque_arg a)
    | intros H; split; [by destruct a|]; split; [reflexivity|exact H] ].
Qed.
Lemma arg_get_typed k bs (a : wire_type k) rest : xp_get (arg_xdr k) bs = Some (a, rest) -> arg_typed k a.
Proof.
  destruct k; first
    [ exact (c_string_get bs a rest) | exact (c_strings_get bs a rest)
    | exact (fun H => xdr_bytes_get_length UINT_MAX bs a rest H ltac:(done))
    | exact (xp_get_typed bs a rest)
    | intros H%xp_get_typed; destruct a; [by apply c_string_typed|done] ].
Qed.

Lemma args_wire_ok ks (v : args_of wire_type ks) : args_typed ks v ->
  xp_wire (args_xdr ks) v = args_wire ks v /\ xp_fits (args_xdr ks) v = true /\ xp_typed (args_xdr ks) v.
Proof.
  induction ks as [|k ks IH]; [done|]. destruct v as [a v]. cbn. intros [Ha Hv].
  destruct (arg_wire_ok k a Ha) as (-> & -> & Ht). destruct (IH v Hv) as (-> & -> & Hts). done.
Qed.
Lemma args_get_typed ks bs (v : args_of wire_type ks) rest : xp_get (args_xdr ks) bs = Some (v, rest) -> args_typed ks v.
Proof.
  revert bs. induction ks as [|k ks IH]; intros bs; [done|]. destruct v as [a v]. cbn.
  destruct (xp_get (arg_xdr k) bs) as [[a' r]|] eqn:E; cbn; [|done].
  destruct (xp_get (args_xdr ks) r) as [[v' r']|] eqn:E'; cbn; [|done]. intros [= <- <- <-].
  split; [by eapply arg_get_typed|by eapply IH].
Qed.

(** * Properties *)

(** C4: The arguments of a procedure on the wire, whatever its list of argument kinds. Of
    arguments that its kinds allow (32-bit and 64-bit integers, strings without NUL bytes and
    shorter than 2^32 - 1, lists of up to (2^32 - 1) / 8 such strings, buffers of less than 2^32
    bytes), the routine that rpcgen makes for them appends exactly the bytes of RFC 4506: big-
    endian integers of four and of eight bytes, strings, buffers and lists with their length and
    padded to four bytes, 0 or 1 before an optional string; and it fails exactly when they do
    not fit in what is left of the buffer. Decoding these bytes gives back the same arguments
    and leaves what follows, and whatever bytes arrive, arguments that are decoded are such as
    the kinds allow. *)
Theorem args_marshalling (ks : list arg_kind) :
  (forall v, args_typed ks v ->
     (forall x, xp_put (args_xdr ks) v x =
        if zlength (args_wire ks v) <=? x_left x
        then Some (mk_xenc (x_out x ++ args_wire ks v) (x_left x - zlength (args_wire ks v))) else None) /\
     (forall rest, xp_get (args_xdr ks) (args_wire ks v ++ rest) = Some (v, rest))) /\
  (forall bs v rest, xp_get (args_xdr ks) bs = Some (v, rest) -> args_typed ks v).
Proof.
  split; [|apply args_get_typed]. intros v (Ew & Ef & Ht)%args_wire_ok. rewrite <- Ew. split.
  - intros x. by rewrite xp_put_wire, Ef.
  - intros rest. by apply xp_get_wire.
Qed.

Lemma args_marshalling_witness :
  let ks := [AString; AInt64; StringList; OptString] in
  let v : args_of wire_type ks := ("ab", (- 2 ^ 40, (["x"; "y z"], (Some "q", tt)))) in
  args_typed ks v /\
  option_map x_out (xp_put (args_xdr ks) v (xdrmem_create_encode 100)) = Some (args_wire ks v) /\
  xp_put (args_xdr ks) v (xdrmem_create_encode 43) = None /\
  xp_get (args_xdr ks) (args_wire ks v ++ [x00]) = Some (v, [x00]).
Proof.
  intros ks v.
  assert (Hs : forall s : string, bool_decide (x00 ∉ bytes_of_string s) = true ->
    Z.of_nat (String.length s) <? 2 ^ 32 - 1 = true -> c_string s).
  { intros s H1 H2. split; [by eapply bool_decide_eq_true_1|by apply Z.ltb_lt]. }
  assert (Ht : args_typed ks v).
  { split; [by apply Hs|]. split; [cbn; lia|]. split; [|by split; [apply Hs|]].
    split; [done|]. repeat apply Forall_cons_2; try apply Forall_nil_2; by apply Hs. }
  destruct (proj1 (args_marshalling ks) v Ht) as [Hput Hget].
  split; [done|]. rewrite !Hput. split; [reflexivity|]. split; [reflexivity|]. apply Hget.
Defined.
