(* ===== verification/Stubs.v ===== *)
(** The daemon's stubs and the dispatch of requests (generator/daemon.ml), for
    any procedure without files: the checks of the optional-argument bitmask,
    the decoding of the arguments, the macros that resolve devices, mountables
    and paths, the call, the reply; and a table of the procedures that are
    modelled (generator/actions.ml). *)

From S2P Require Import Prelude Xdr Protocol Handle Utils Events Conn LibProto LibProtoSpec DaemonProto DaemonSpec EndToEnd Command Guestfsd Procs Parted DevParts Filesys Md Args.
From Stdlib Require Import Ascii.

Open Scope Z_scope.
#[local] Arguments String.append : simpl nomatch.
#[local] Notation fail := Procs.fail.

(** * Arguments *)

(** What do_X is given for an argument. *)
Definition local_type (k : arg_kind) : Type :=
  match k with
  | Mountable | Mountable_or_Path => mountable_t
  | k => wire_type k
  end.

Definition ENOTSUP : Z := 95.
Definition unavailable_feature (feature : string) : string :=
  "feature '" +:+ feature +:+ "' is not available in this" +:+ newline +:+
  "build of libguestfs.  Read 'AVAILABILITY' in the guestfs(3) man page for" +:+ newline +:+
  "how to check for the availability of features.".

Section resolve.
Context (E : denv) (func : string).

Definition RESOLVE_DEVICE (path : string) : proc (option string) := fun s =>
  let fs := ev_fs E (ps_log s) in
  (if negb (STRPREFIX path "/dev/") then fail (func +:+ ": " +:+ path +:+ ": expecting a device name") None
   else if is_root_device fs path then fail (func +:+ ": " +:+ path +:+ ": device not found") None
   else match device_name_translation fs path with
        | None => pfail E "device_name_translation" (func +:+ ": " +:+ path) None
        | Some path_out => ret (Some path_out)
        end) s.

Definition RESOLVE_MOUNTABLE (desc : string) : proc (option mountable_t) := fun s =>
  (if STRPREFIX desc "btrfsvol:" then
     match parse_btrfsvol (ev_fs E (ps_log s)) (str_drop 9 desc) with
     | None => fail (func +:+ ": " +:+ desc +:+ ": expecting a btrfs volume") None
     | Some m => ret (Some m)
     end
   else
     d <- RESOLVE_DEVICE desc ;;
     ret ((fun d => mk_mountable MOUNTABLE_DEVICE d "") <$> d)) s.

Definition REQUIRE_ROOT_OR_RESOLVE_DEVICE (path : string) : proc (option string) :=
  if STRPREFIX path "/dev/" then RESOLVE_DEVICE path
  else
    r <- NEED_ROOT E func ;;
    if negb r then ret None else
    a <- ABS_PATH func path ;;
    if negb a then ret None else ret (Some path).

Definition REQUIRE_ROOT_OR_RESOLVE_MOUNTABLE (desc : string) : proc (option mountable_t) :=
  if STRPREFIX desc "/dev/" || negb (starts_with "/" desc) then RESOLVE_MOUNTABLE desc
  else
    r <- NEED_ROOT E func ;;
    ret (if r : bool then Some (mk_mountable MOUNTABLE_PATH desc "") else None).

(** The loop over a device list. *)
Fixpoint resolve_devices (paths : list string) : proc (option (list string)) :=
  match paths with
  | [] => ret (Some [])
  | p :: paths' =>
      d <- RESOLVE_DEVICE p ;;
      match d with
      | None => ret None
      | Some d => l <- resolve_devices paths' ;; ret (cons d <$> l)
      end
  end.

Definition resolve_arg (k : arg_kind) : wire_type k -> proc (option (local_type k)) :=
  match k with
  | Pathname => fun n => a <- ABS_PATH func n ;; ret (if a : bool then Some n else None)
  | Device => RESOLVE_DEVICE
  | Mountable => RESOLVE_MOUNTABLE
  | Dev_or_Path => REQUIRE_ROOT_OR_RESOLVE_DEVICE
  | Mountable_or_Path => REQUIRE_ROOT_OR_RESOLVE_MOUNTABLE
  | DeviceList => resolve_devices
  | AString | Key | GUID => fun n => ret (Some n)
  | OptString => fun n => ret (Some n)
  | StringList => fun n => ret (Some n)
  | ABool => fun n => ret (Some n)
  | AInt | AInt64 => fun n => ret (Some n)
  | BufferIn => fun n => ret (Some n)
  end.
Fixpoint resolve_args (ks : list arg_kind) : args_of wire_type ks -> proc (option (args_of local_type ks)) :=
  match ks with
  | [] => fun _ => ret (Some tt)
  | k :: ks' => fun v =>
      a <- resolve_arg k (fst v) ;;
      match a with
      | None => ret None
      | Some a => l <- resolve_args ks' (snd v) ;; ret (pair a <$> l)
      end
  end.
End resolve.

(** * Results *)

(** A kind of result: the C type that do_X returns and its error value, and
    the structure that is sent, if any. *)
Record ret_kind := mk_ret_kind {
  rk_c : Type;
  rk_failed : rk_c -> bool;
  rk_type : Type;
  rk_val : rk_c -> rk_type;
  rk_xdr : option (xdrproc rk_type)
}.
Definition RErr : ret_kind := mk_ret_kind Z int_failed unit (fun _ => tt) None.
Definition RInt : ret_kind := mk_ret_kind Z int_failed Z (fun r => r) (Some xdr_int).
Definition RInt64 : ret_kind := mk_ret_kind Z int_failed Z (fun r => r) (Some xdr_int64_t).
Definition RBool : ret_kind := mk_ret_kind Z int_failed bool (fun r => negb (r =? 0)) (Some xdr_bool).
Definition RString : ret_kind := mk_ret_kind (option string) ptr_failed string (default "") (Some xdr_string).
Definition RStringList : ret_kind := mk_ret_kind (option (list string)) ptr_failed (list string) (default []) (Some xdr_strings).
Definition RHashtable : ret_kind := RStringList.
(** A NULL pointer with a size of 1 is the error; NULL with size 0 is an empty buffer. *)
Definition RBufferOut : ret_kind := mk_ret_kind (option (list byte)) ptr_failed (list byte) (default []) (Some xdr_opaque).
(** [size] is the size of the structure in memory. *)
Definition RStructList {T} (size : positive) (p : xdrproc T) : ret_kind :=
  mk_ret_kind (option (list T)) ptr_failed (list T) (default []) (Some (xdr_array (Zpos size) p)).

(** struct guestfs_int_partition *)
Definition xdr_partition : xdrproc partition :=
  xdr_as (fun v => mk_partition (fst v) (fst (snd v)) (fst (snd (snd v))) (snd (snd (snd v))))
         (fun p => (part_num p, (part_start p, (part_end p, part_size p))))
         (xdr_fields xdr_int (xdr_fields xdr_int64_t (xdr_fields xdr_int64_t xdr_int64_t))).

(** * Stubs *)

Record procedure := mk_procedure {
  pr_name : string;
  pr_nr : Z;
  pr_optional : option (string * proc bool);          (* the group, and optgroup_GROUP_available *)
  pr_args : list arg_kind;                            (* the optional arguments come last *)
  pr_noptargs : nat;
  pr_ret : ret_kind;
  pr_do : Z -> args_of local_type pr_args -> proc (rk_c pr_ret)   (* do_X, given optargs_bitmask *)
}.

Definition no_optargs_message : string :=
  "header optargs_bitmask field must be passed as 0 for calls that don't take optional arguments".
Definition unknown_option_message : string :=
  "unknown option in optional arguments bitmask (this can happen if a program is compiled against a newer version of libguestfs, then run against an older version of the daemon)".

Definition check_bitmask (noptargs : nat) (optargs_bitmask : Z) : option string :=
  match noptargs with
  | O => if negb (optargs_bitmask =? 0) then Some no_optargs_message else None
  | _ => if negb (Z.land optargs_bitmask (u64 (Z.lnot (2 ^ Z.of_nat noptargs - 1))) =? 0)
         then Some unknown_option_message else None
  end.
Definition has_pathname (ks : list arg_kind) : bool := existsb (fun k => bool_decide (k = Pathname)) ks.

Section stub.
Context (E : denv) (P : procedure).
Let func := pr_name P +:+ "_stub".

(** From the decoding of the arguments on: the value to reply with, or nothing
    when an error was replied. *)
Definition stub_call (optargs_bitmask : Z) (xdr_in : list byte) : proc (option (rk_type (pr_ret P))) :=
  match xp_get (args_xdr (pr_args P)) xdr_in with
  | None => fail "daemon failed to decode procedure arguments" None
  | Some (args, _) =>
      v <- resolve_args E func (pr_args P) args ;;
      match v with
      | None => ret None
      | Some v =>
          root <- (if has_pathname (pr_args P) then NEED_ROOT E func else ret true) ;;
          if negb root then ret None else
          r <- pr_do P optargs_bitmask v ;;
          ret (if rk_failed (pr_ret P) r then None else Some (rk_val (pr_ret P) r))
      end
  end.

Definition X_stub (optargs_bitmask : Z) (xdr_in : list byte) : proc (option (rk_type (pr_ret P))) :=
  available <- (match pr_optional P with Some (_, available) => available | None => ret true end) ;;
  if negb available then
    log (Replied ENOTSUP (unavailable_feature (match pr_optional P with Some (group, _) => group | None => "" end))) ;;;
    ret None
  else
    match check_bitmask (pr_noptargs P) optargs_bitmask with
    | Some msg => fail msg None
    | None => stub_call optargs_bitmask xdr_in
    end.
End stub.

(** * Dispatch *)

(** The replies of a procedure, in order, as messages. *)
Fixpoint replay (acts : list action) : dm unit :=
  match acts with
  | [] => ret tt
  | Replied e msg :: acts' => reply_with_error_errno e (bytes_of_string msg) ;;; replay acts'
  | _ :: acts' => replay acts'
  end.
Definition unknown_procedure (nr : Z) : string :=
  "dispatch_incoming_message: unknown procedure number " +:+ pretty nr +:+
  ", set LIBGUESTFS_PATH to point to the matching libguestfs appliance directory".

(** The procedure runs in the state [s] of the outside. *)
Definition dispatch_incoming_message (E : denv) (table : list procedure) (s : pstate) (xdr_in : list byte) : dm unit :=
  fun d =>
  match List.find (fun P => pr_nr P =? d_proc_nr d) table with
  | None => DaemonProto.reply_with_error (unknown_procedure (d_proc_nr d)) d
  | Some P =>
      match X_stub E P (d_optargs_bitmask d) xdr_in s with
      | (Stop w, _) => (Stop w, d)
      | (Ret o, s') =>
          (replay (drop (length (ps_log s)) (ps_log s')) ;;;
           match o with
           | None => ret tt
           | Some v => DaemonProto.reply ((fun p => xp_put p v) <$> rk_xdr (pr_ret P))
           end) d
      end
  end.

(** * One message per request *)

(** What the stub relies on: do_X has sent one error reply exactly when it
    returns its error value. *)
Class RetKind (k : ret_kind) : Prop := ret_xdr_ok : forall p, rk_xdr k = Some p -> XdrProc p.
Record procedure_ok (ub : bool) (P : procedure) : Prop := mk_procedure_ok {
  pr_optional_ok : forall group available, pr_optional P = Some (group, available) -> quiet available;
  pr_ret_ok : RetKind (pr_ret P);
  pr_do_ok : forall mask v, one_reply ub (rk_failed (pr_ret P)) (pr_do P mask v)
}.

Section stub_replies.
Context (E : denv) `{!Starts E} (ub : bool) (func : string).

Lemma emits_state {A} (m : pstate -> proc A) Q : (forall s, emits ub (m s) Q) -> emits ub (fun s => m s s) Q.
Proof. intros H s. apply (H s s). Qed.

Lemma RESOLVE_DEVICE_one_reply path : one_reply ub ptr_failed (RESOLVE_DEVICE E func path).
Proof. apply emits_state. intros s. cbv zeta. emits. Qed.
Lemma RESOLVE_MOUNTABLE_one_reply desc : one_reply ub ptr_failed (RESOLVE_MOUNTABLE E func desc).
Proof.
  apply emits_state. intros s. destruct (STRPREFIX desc _); [emits|].
  eapply emits_bind; [apply RESOLVE_DEVICE_one_reply|]. intros [d|] n ->; by apply emits_ret.
Qed.
Lemma ROOT_OR_DEVICE_one_reply path : one_reply ub ptr_failed (REQUIRE_ROOT_OR_RESOLVE_DEVICE E func path).
Proof.
  unfold REQUIRE_ROOT_OR_RESOLVE_DEVICE. destruct (STRPREFIX path _); [apply RESOLVE_DEVICE_one_reply|].
  eapply emits_bind; [by apply NEED_ROOT_one_reply|]. intros [] n ->; [|by apply emits_ret]. cbn [negb].
  eapply emits_bind; [apply ABS_PATH_one_reply|]. intros [] n ->; by apply emits_ret.
Qed.
Lemma ROOT_OR_MOUNTABLE_one_reply desc : one_reply ub ptr_failed (REQUIRE_ROOT_OR_RESOLVE_MOUNTABLE E func desc).
Proof.
  unfold REQUIRE_ROOT_OR_RESOLVE_MOUNTABLE. destruct (_ || _); [apply RESOLVE_MOUNTABLE_one_reply|].
  eapply emits_bind; [by apply NEED_ROOT_one_reply|]. intros [] n ->; by apply emits_ret.
Qed.
Lemma resolve_devices_one_reply paths : one_reply ub ptr_failed (resolve_devices E func paths).
Proof.
  induction paths as [|p paths IH]; [by apply emits_ret|]. cbn [resolve_devices].
  eapply emits_bind; [apply RESOLVE_DEVICE_one_reply|]. intros [d|] n ->; [|by apply emits_ret].
  eapply emits_bind; [exact IH|]. intros [l|] n ->; by apply emits_ret.
Qed.
Lemma resolve_arg_one_reply k v : one_reply ub ptr_failed (resolve_arg E func k v).
Proof.
  destruct k; cbn [resolve_arg]; try by apply emits_ret.
  - eapply emits_bind; [apply ABS_PATH_one_reply|]. intros [] n ->; by apply emits_ret.
  - apply RESOLVE_DEVICE_one_reply.
  - apply RESOLVE_MOUNTABLE_one_reply.
  - apply ROOT_OR_DEVICE_one_reply.
  - apply ROOT_OR_MOUNTABLE_one_reply.
  - apply resolve_devices_one_reply.
Qed.
Lemma resolve_args_one_reply ks v : one_reply ub ptr_failed (resolve_args E func ks v).
Proof.
  induction ks as [|k ks IH]; [by apply emits_ret|]. cbn [resolve_args].
  eapply emits_bind; [apply resolve_arg_one_reply|]. intros [a|] n ->; [|by apply emits_ret].
  eapply emits_bind; [apply IH|]. intros [l|] n ->; by apply emits_ret.
Qed.
End stub_replies.

Lemma X_stub_one_reply E `{!Starts E} ub P mask bs : procedure_ok ub P -> one_reply ub ptr_failed (X_stub E P mask bs).
Proof.
  intros HP. unfold X_stub. eapply emits_quiet.
  { destruct (pr_optional P) as [[g av]|] eqn:Eo; [by eapply pr_optional_ok|apply quiet_ret]. }
  intros [|]; cbn [negb]; [|intros s; eexists (Ret None), _, [Replied ENOTSUP _]; done].
  destruct (check_bitmask _ _); [by apply emits_fail|]. unfold stub_call.
  destruct (xp_get _ bs) as [[v rest]|]; [|by apply emits_fail].
  eapply emits_bind; [by apply resolve_args_one_reply|]. intros [a|] n ->; [|by apply emits_ret].
  eapply (emits_bind _ _ _ (fun (b : bool) n => n = if false_failed b then 1%nat else 0%nat)).
  { destruct (has_pathname _); [by apply NEED_ROOT_one_reply|by apply emits_ret]. }
  intros [] n ->; [|by apply emits_ret]. cbn [negb].
  eapply emits_bind; [apply (pr_do_ok _ _ HP)|]. intros r n ->. apply emits_ret. by destruct (rk_failed _ r).
Qed.

Lemma replay_none acts d : replies acts = 0%nat -> replay acts d = (Ret tt, d).
Proof. induction acts as [|a acts IH]; [done|]. unfold replies in *. by destruct a. Qed.
Lemma replay_one acts : replies acts = 1%nat -> exists e m, Replied e m ∈ acts /\
  forall d, replay acts d = reply_with_error_errno e (bytes_of_string m) d.
Proof.
  induction acts as [|a acts IH]; [done|]. unfold replies in *. destruct a; cbn.
  1-5: intros H; destruct (IH H) as (e & m & Hin & Hd); exists e, m; split; [by right|done].
  intros [= H]. exists errnum, msg. split; [by left|]. intros d. unfold bind.
  destruct (reply_with_error_errno errnum _ d) as [[[]|w] d']; [by apply replay_none|done].
Qed.

(** The bytes of a result, and whether they fit in a message. *)
Definition ret_wire (k : ret_kind) (v : rk_type k) : list byte :=
  match rk_xdr k with Some p => xp_wire p v | None => [] end.
Definition ret_fits (k : ret_kind) (v : rk_type k) : bool :=
  match rk_xdr k with Some p => xp_fits p v | None => true end && (40 + zlength (ret_wire k v) <=? GUESTFS_MESSAGE_MAX).
Definition ret_typed (k : ret_kind) (v : rk_type k) : Prop :=
  match rk_xdr k with Some p => xp_typed p v | None => True end.

Lemma reply_none_put d : DaemonProto.reply None d = DaemonProto.reply (Some (xput [])) d.
Proof.
  unfold DaemonProto.reply. rewrite header_put_room by (unfold GUESTFS_MESSAGE_MAX; lia). cbv iota.
  rewrite xput_nil; [done|]. cbn [x_left]. unfold GUESTFS_MESSAGE_MAX. lia.
Qed.
(** A reply is the result, or the error that it is too large. *)
Lemma reply_result k `{!RetKind k} (v : rk_type k) d :
  DaemonProto.reply ((fun p => xp_put p v) <$> rk_xdr k) d =
  if ret_fits k v then DaemonProto.reply (Some (xput (ret_wire k v))) d
  else DaemonProto.reply_with_error reply_too_large d.
Proof.
  unfold ret_fits, ret_wire. destruct (rk_xdr k) as [p|] eqn:Ep; cbn [fmap option_fmap option_map].
  2: { cbn. apply reply_none_put. }
  pose proof (ret_xdr_ok p Ep) as Hp.
  unfold DaemonProto.reply. rewrite header_put_room by (unfold GUESTFS_MESSAGE_MAX; lia). cbv iota.
  rewrite xp_put_wire. unfold xput. cbn [x_left].
  destruct (xp_fits p v); cbn [andb]; [|done].
  destruct (Z.leb_spec (zlength (xp_wire p v)) (GUESTFS_MESSAGE_MAX - 40)),
    (Z.leb_spec (40 + zlength (xp_wire p v)) GUESTFS_MESSAGE_MAX); try lia; done.
Qed.

(** What the stub sends, as an answer: [o] and the replies of [new]. *)
Definition stub_outcome (k : ret_kind) (o : option (rk_type k)) (new : list action) : dm unit :=
  replay new ;;;
  match o with None => ret tt | Some v => DaemonProto.reply ((fun p => xp_put p v) <$> rk_xdr k) end.
Lemma stub_outcome_answer k `{!RetKind k} (o : option (rk_type k)) new :
  replies new = (if ptr_failed o then 1 else 0)%nat ->
  exists r : rpc_answer (rk_type k), (forall d, stub_outcome k o new d = send_answer r d) /\
    match o with
    | None => exists e m, Replied e m ∈ new /\ r = inl (e, bytes_of_string m)
    | Some v => r = if ret_fits k v
                    then inr (xput (ret_wire k v), ret_wire k v, match rk_xdr k with Some _ => Some v | None => None end)
                    else inl (0, bytes_of_string reply_too_large)
    end.
Proof.
  intros H. unfold stub_outcome. destruct o as [v|]; cbn [ptr_failed] in H.
  - eexists. split; [|reflexivity]. intros d. unfold bind. rewrite replay_none, reply_result by done.
    by destruct (ret_fits k v).
  - destruct (replay_one new H) as (e & m & Hin & Hd). exists (inl (e, bytes_of_string m)). split; [|by eauto].
    intros d. unfold bind. rewrite Hd. cbn [send_answer].
    by destruct (reply_with_error_errno e (bytes_of_string m) d) as [[[]|w] d'].
Qed.
Lemma dispatch_outcome E table s bs d P o s' new :
  List.find (fun P => pr_nr P =? d_proc_nr d) table = Some P ->
  X_stub E P (d_optargs_bitmask d) bs s = (Ret o, s') -> ps_log s' = ps_log s ++ new ->
  dispatch_incoming_message E table s bs d = stub_outcome (pr_ret P) o new d.
Proof.
  intros Hf Hs Hn. unfold dispatch_incoming_message. rewrite Hf, Hs, Hn, drop_app_length. done.
Qed.

(** One error message or one result. *)
Definition one_message (d : daemon) (m : list byte) : Prop :=
  (exists e msg, m = error_reply d (error_body d e msg)) \/ (exists body, m = ok_reply d body).

Lemma send_answer_message {B} (r : rpc_answer B) d : d_healthy d ->
  match r with inl _ => True | inr (put, body, _) => (forall x, put x = xput body x) /\ 40 + zlength body <= GUESTFS_MESSAGE_MAX end ->
  exists d' m, send_answer r d = (Ret tt, d') /\ dex [] m d d' /\ one_message d m.
Proof.
  intros Hd Hr. destruct r as [[e m]|[[put body] v]]; cbn.
  - destruct (send_error_spec d e m Hd) as (d' & E & X & _). exists d', (error_reply d (error_body d e m)).
    split_and!; [exact E|exact X|left; eauto].
  - destruct Hr as [Hp Hl]. destruct (reply_put_spec d put body Hp Hd Hl) as (d' & E & X & _).
    exists d', (ok_reply d body). split_and!; [exact E|exact X|right; eauto].
Qed.
Lemma stub_outcome_message k `{!RetKind k} (o : option (rk_type k)) new d : d_healthy d ->
  replies new = (if ptr_failed o then 1 else 0)%nat ->
  exists d' m, stub_outcome k o new d = (Ret tt, d') /\ dex [] m d d' /\ one_message d m.
Proof.
  intros Hd H. destruct (stub_outcome_answer k o new H) as (r & E & Hr). rewrite E. apply send_answer_message; [done|].
  destruct o as [v|]; [|by destruct Hr as (e & m & _ & ->)]. subst r. destruct (ret_fits k v) eqn:Ef; [|done].
  unfold ret_fits in Ef. apply andb_prop in Ef as [_ Ef%Z.leb_le]. done.
Qed.

