(* ===== verification/Calls.v ===== *)
(** Calls from end to end: the client stub, the message, the dispatch in the
    daemon, the stub of the procedure, the procedure itself and the way back;
    and the table of the procedures that are modelled. *)

From S2P Require Import Prelude Xdr Protocol Handle Utils Events Conn LibProto LibProtoSpec LibProtoSafe DaemonProto DaemonSpec Config EndToEnd Command Guestfsd Procs Parted DevParts Filesys Md LibFile Lvm Mount Content Files Xattr Args Stubs.

Open Scope Z_scope.
#[local] Arguments String.append : simpl nomatch.

(** * Any procedure *)

(** How the client stub decodes the result, and what it returns. *)
Definition rk_get (k : ret_kind) : option (list byte -> option (rk_type k * list byte)) := xp_get <$> rk_xdr k.
Definition returned (k : ret_kind) (o : option (rk_type k)) : Z * option (rk_type k) :=
  match o with
  | Some v => if ret_fits k v then (0, match rk_xdr k with Some _ => Some v | None => None end) else (-1, None)
  | None => (-1, None)
  end.

Section call.
Context {C : Type} `{ConnFeed C}.
Context (E : denv) (table : list procedure) (P : procedure) (s2e : list byte -> Z) (tf : bool) (ec : string).

(** The library and the daemon are idle and connected. *)
Record idle (l : lib C) (d : daemon) : Prop := mk_idle {
  idle_lib : lib_healthy l;
  idle_lib_in : lib_inbox l = [];
  idle_daemon : d_healthy d;
  idle_daemon_in : d_inbox d = []
}.

(** The arguments fit in a message. *)
Record sendable (mask : Z) (args : args_of wire_type (pr_args P)) (l : lib C) : Prop := mk_sendable {
  snd_nr : is_s32 (pr_nr P);
  snd_serial : is_s32 (g_msg_next_serial (l_g l));
  snd_mask : is_u64 mask;
  snd_fits : xp_fits (args_xdr (pr_args P)) args = true;
  snd_size : 40 + zlength (xp_wire (args_xdr (pr_args P)) args) <= GUESTFS_MESSAGE_MAX
}.
Definition lookup_procedure (nr : Z) : option procedure := List.find (fun P => pr_nr P =? nr) table.

(** guestfs_X on an idle connection when the stub of the procedure gives [o]. *)
Definition call_returns (mask : Z) (args : args_of wire_type (pr_args P)) (l : lib C) (d : daemon) (s : pstate)
    (o : option (rk_type (pr_ret P))) (msgs : list string) : Prop :=
  exists serial l1 d1 l2,
    guestfs___send (pr_nr P) 0 mask (Some (xp_put (args_xdr (pr_args P)) args)) l = (Ret serial, l1) /\
    main_loop_turn (dispatch_incoming_message E table s) (d_feed (lib_sent_since l l1) d) = (Ret tt, d1) /\
    stub_reply s2e tf ec (pr_name P) (pr_nr P) serial (rk_get (pr_ret P)) (lib_feed (d_sent_since d d1) l1) =
      (Ret (returned (pr_ret P) o), l2) /\
    idle l2 d1 /\
    (fst (returned (pr_ret P) o) = -1 -> exists msg, (msg ∈ msgs \/ msg = reply_too_large) /\
       guestfs_last_error (l_g l2) = Some (pr_name P +:+ ": " +:+ string_of_bytes (truncate_error (bytes_of_string msg)))).

Definition replied_messages (acts : list action) : list string :=
  omap (fun a => match a with Replied _ m => Some m | _ => None end) acts.

Lemma call_with `{!RetKind (pr_ret P)} mask args l d s o s' new :
  idle l d -> sendable mask args l -> lookup_procedure (pr_nr P) = Some P ->
  X_stub E P mask (xp_wire (args_xdr (pr_args P)) args) s = (Ret o, s') -> ps_log s' = ps_log s ++ new ->
  replies new = (if ptr_failed o then 1 else 0)%nat ->
  (forall v, o = Some v -> ret_typed (pr_ret P) v) ->
  call_returns mask args l d s o (replied_messages new).
Proof.
  intros [Hl Hli Hd Hdi] [Hnr Hser Hm Hf Hsz] Hfind Hs Hnew Hrep Hty.
  destruct (stub_outcome_answer (pr_ret P) o new Hrep) as (r & Er & Hr).
  destruct (rpc_with s2e tf ec (pr_name P) (pr_nr P) mask (xp_put (args_xdr (pr_args P)) args)
    (xp_wire (args_xdr (pr_args P)) args) (rk_get (pr_ret P)) (dispatch_incoming_message E table s) r l d)
    as (serial & l1 & d1 & l2 & E1 & E2 & E3 & I1 & I2 & I3 & I4 & I5); try done.
  - intros x. by rewrite xp_put_wire, Hf.
  - intros d1 Hb Hp. erewrite dispatch_outcome; [apply Er|unfold lookup_procedure in *; by rewrite Hp|by rewrite Hb|done].
  - destruct o as [v|]; [|by destruct Hr as (e & m & _ & ->)]. subst r. destruct (ret_fits _ v) eqn:Ef; [|done].
    unfold ret_fits, rk_get, ret_wire in *. apply andb_prop in Ef as [Ef Ez%Z.leb_le]. specialize (Hty v eq_refl).
    unfold ret_typed in Hty. split_and!; [done|done|]. destruct (rk_xdr (pr_ret P)) as [p|] eqn:Ep; [|done]. cbn.
    pose proof (ret_xdr_ok p Ep). exists v, []. split; [|done]. rewrite <- (app_nil_r (xp_wire p v)). by apply xp_get_wire.
  - exists serial, l1, d1, l2. split_and!; [done|done| |done|].
    + rewrite E3. unfold returned. destruct o as [v|]; [|by destruct Hr as (e & m & _ & ->)].
      subst r. by destruct (ret_fits _ v).
    + unfold returned. destruct o as [v|]; [|intros _].
      * subst r. destruct (ret_fits _ v); [done|]. intros _. exists reply_too_large. split; [by right|]. by eapply I5.
      * destruct Hr as (e & m & Hin & ->). exists m. split; [left|by eapply I5].
        unfold replied_messages. apply list_elem_of_omap. by exists (Replied e m).
Qed.
End call.

(** * The procedures that are modelled (generator/actions.ml) *)

(** An optional argument: given when its bit is set. *)
Definition optarg {A} (mask i : Z) (v : A) : option A := if Z.testbit mask i then Some v else None.
Definition prog_available (E : denv) (prog : string) : proc bool := gets (fun s => prog_exists (ev_fs E (ps_log s)) prog).

(** part_list and the other readers of partition tables may read outside an
    object when the output of parted is malformed. *)
Definition part_list_procedure (E : denv) : procedure :=
  mk_procedure "part_list" 213 None [Device] 0 (RStructList 32 xdr_partition) (fun _ '(device, _) => do_part_list E device).
Definition parsing_procedures (E : denv) : list procedure := [
  part_list_procedure E;
  mk_procedure "part_get_parttype" 214 None [Device] 0 RString (fun _ '(device, _) => do_part_get_parttype E device);
  mk_procedure "part_get_bootable" 234 None [Device; AInt] 0 RBool
    (fun _ '(device, (partnum, _)) => do_part_get_bootable E device partnum);
  mk_procedure "get_e2attrs" 318 None [Pathname] 0 RString (fun _ '(file, _) => do_get_e2attrs E file)
].

(** struct guestfs_int_xattr *)
Definition xdr_xattr : xdrproc xattr :=
  xdr_as (fun v => mk_xattr (fst v) (snd v)) (fun x => (attrname x, attrval x)) (xdr_fields xdr_string xdr_opaque).

(** Everything the procedures see of the outside. *)
Record outside := mk_outside {
  o_env : denv;
  o_sysfs : sysfs;
  o_md : md_world;
  o_vg : vg_world;
  o_disk : disk;
  o_files : file_world;
  o_space : free_space;
  o_xattr : xattr_world
}.

Section table.
Context (O : outside).
Let E := o_env O.
Let K := o_disk O.
Let W := o_files O.
Let X := o_space O.
Let A := o_xattr O.
Let xattrs := Some ("linuxxattrs", optgroup_linuxxattrs_available).
Let gdisk := Some ("gdisk", prog_available E "sgdisk").
Let mdadm := Some ("mdadm", prog_available E "mdadm").
Let lvm2 := Some ("lvm2", optgroup_lvm2_available E).

Definition partition_procedures : list procedure := [
  mk_procedure "part_init" 208 None [Device; AString] 0 RErr
    (fun _ '(device, (parttype, _)) => do_part_init E device parttype);
  mk_procedure "part_add" 209 None [Device; AString; AInt64; AInt64] 0 RErr
    (fun _ '(device, (prlogex, (startsect, (endsect, _)))) => do_part_add E device prlogex startsect endsect);
  mk_procedure "part_disk" 210 None [Device; AString] 0 RErr
    (fun _ '(device, (parttype, _)) => do_part_disk E device parttype);
  mk_procedure "part_set_bootable" 211 None [Device; AInt; ABool] 0 RErr
    (fun _ '(device, (partnum, (bootable, _))) => do_part_set_bootable E device partnum bootable);
  mk_procedure "part_set_name" 212 None [Device; AInt; AString] 0 RErr
    (fun _ '(device, (partnum, (name, _))) => do_part_set_name E device partnum name);
  mk_procedure "part_del" 233 None [Device; AInt] 0 RErr
    (fun _ '(device, (partnum, _)) => do_part_del E device partnum);
  mk_procedure "part_set_mbr_id" 236 None [Device; AInt; AInt] 0 RErr
    (fun _ '(device, (partnum, (idbyte, _))) => do_part_set_mbr_id E device partnum idbyte);
  mk_procedure "part_set_gpt_type" 392 gdisk [Device; AInt; GUID] 0 RErr
    (fun _ '(device, (partnum, (guid, _))) => do_part_set_gpt_type E device partnum guid);
  mk_procedure "part_get_gpt_type" 393 gdisk [Device; AInt] 0 RString
    (fun _ '(device, (partnum, _)) => do_part_get_gpt_type E device partnum);
  mk_procedure "part_to_dev" 272 None [Device] 0 RString (fun _ '(partition, _) => do_part_to_dev partition)
].

(** A number of 2^32-1 is read as -1, which the stub takes for an error. *)
Definition part_to_partnum_procedure : procedure :=
  mk_procedure "part_to_partnum" 293 None [Device] 0 RInt (fun _ '(partition, _) => do_part_to_partnum partition).

Definition filesystem_procedures : list procedure := [
  mk_procedure "tune2fs_l" 55 None [Device] 0 RHashtable (fun _ '(device, _) => do_tune2fs_l E device);
  mk_procedure "set_e2label" 80 None [Device; AString] 0 RErr (fun _ '(device, (label, _)) => do_set_e2label E device label);
  mk_procedure "get_e2label" 81 None [Device] 0 RString (fun _ '(device, _) => do_get_e2label E device);
  mk_procedure "set_e2uuid" 82 None [Device; AString] 0 RErr (fun _ '(device, (uuid, _)) => do_set_e2uuid E device uuid);
  mk_procedure "get_e2uuid" 83 None [Device] 0 RString (fun _ '(device, _) => do_get_e2uuid E device);
  mk_procedure "resize2fs" 106 None [Device] 0 RErr (fun _ '(device, _) => do_resize2fs E device);
  mk_procedure "e2fsck_f" 108 None [Device] 0 RErr (fun _ '(device, _) => do_e2fsck_f E device);
  mk_procedure "vfs_type" 198 None [Mountable] 0 RString (fun _ '(m, _) => do_vfs_type E m);
  mk_procedure "resize2fs_size" 248 None [Device; AInt64] 0 RErr (fun _ '(device, (size, _)) => do_resize2fs_size E device size);
  mk_procedure "vfs_label" 253 None [Mountable] 0 RString (fun _ '(m, _) => do_vfs_label E m);
  mk_procedure "vfs_uuid" 254 None [Mountable] 0 RString (fun _ '(m, _) => do_vfs_uuid E m);
  mk_procedure "resize2fs_M" 281 None [Device] 0 RErr (fun _ '(device, _) => do_resize2fs_M E device);
  mk_procedure "tune2fs" 298 None
    [Device; ABool; AInt; AInt; AString; AInt64; AInt; AInt; AString; AInt64; AInt64] 10 RErr
    (fun m '(device, (force, (maxmountcount, (mountcount, (errorbehavior, (group, (interval, (percentage,
       (directory, (blockscount, (user, _))))))))))) =>
       do_tune2fs E device (mk_tune2fs_optargs (optarg m 0 force) (optarg m 1 maxmountcount) (optarg m 2 mountcount)
         (optarg m 3 errorbehavior) (optarg m 4 group) (optarg m 5 interval) (optarg m 6 percentage)
         (optarg m 7 directory) (optarg m 8 blockscount) (optarg m 9 user)));
  mk_procedure "blkid" 303 None [Device] 0 RHashtable (fun _ '(device, _) => do_blkid E device);
  mk_procedure "e2fsck" 304 None [Device; ABool; ABool] 2 RErr
    (fun m '(device, (correct, (forceall, _))) => do_e2fsck E device (optarg m 0 correct) (optarg m 1 forceall));
  mk_procedure "wipefs" 306 (Some ("wipefs", prog_available E "wipefs")) [Device] 0 RErr (fun _ '(device, _) => do_wipefs E device);
  mk_procedure "set_label" 310 None [Mountable; AString] 0 RErr (fun _ '(m, (label, _)) => do_set_label E m label);
  mk_procedure "set_e2attrs" 319 None [Pathname; AString; ABool] 1 RErr
    (fun m '(file, (attrs, (clear, _))) => do_set_e2attrs E file attrs (optarg m 0 clear));
  mk_procedure "set_e2generation" 321 None [Pathname; AInt64] 0 RErr
    (fun _ '(file, (generation, _)) => do_set_e2generation E file generation);
  mk_procedure "mklost_and_found" 374 None [Pathname] 0 RErr (fun _ '(mountpoint, _) => do_mklost_and_found E mountpoint);
  mk_procedure "set_uuid" 403 None [Device; AString] 0 RErr (fun _ '(device, (uuid, _)) => do_set_uuid E device uuid)
].

(** These wipe the device first. *)
Definition making_procedures : list procedure := [
  mk_procedure "mke2journal" 188 None [AInt; Device] 0 RErr (fun _ '(blocksize, (device, _)) => do_mke2journal E blocksize device);
  mk_procedure "mke2journal_L" 189 None [AInt; AString; Device] 0 RErr
    (fun _ '(blocksize, (label, (device, _))) => do_mke2journal_L E blocksize label device);
  mk_procedure "mke2fs_J" 191 None [AString; AInt; Device; Device] 0 RErr
    (fun _ '(fstype, (blocksize, (device, (journal, _)))) => do_mke2fs_J E fstype blocksize device journal);
  mk_procedure "mke2fs_JL" 192 None [AString; AInt; Device; AString] 0 RErr
    (fun _ '(fstype, (blocksize, (device, (label, _)))) => do_mke2fs_JL E fstype blocksize device label)
].

Definition md_procedures : list procedure := [
  mk_procedure "list_md_devices" 300 None [] 0 RStringList (fun _ _ => do_list_md_devices (o_md O));
  mk_procedure "md_detail" 301 mdadm [Device] 0 RHashtable (fun _ '(md, _) => do_md_detail E md);
  mk_procedure "md_stop" 302 mdadm [Device] 0 RErr (fun _ '(md, _) => do_md_stop E md)
].

Definition lvm_procedures : list procedure := [
  mk_procedure "pvs" 9 lvm2 [] 0 RStringList (fun _ _ => do_pvs E);
  mk_procedure "vgs" 10 lvm2 [] 0 RStringList (fun _ _ => do_vgs E);
  mk_procedure "lvs" 11 lvm2 [] 0 RStringList (fun _ _ => do_lvs E);
  mk_procedure "pvcreate" 39 lvm2 [Device] 0 RErr (fun _ '(device, _) => do_pvcreate E device);
  mk_procedure "lvremove" 77 lvm2 [Device] 0 RErr (fun _ '(device, _) => do_lvremove E device);
  mk_procedure "pvremove" 79 lvm2 [Device] 0 RErr (fun _ '(device, _) => do_pvremove E device);
  mk_procedure "pvresize" 98 lvm2 [Device] 0 RErr (fun _ '(device, _) => do_pvresize E device);
  mk_procedure "pvchange_uuid" 338 lvm2 [Device] 0 RErr (fun _ '(device, _) => do_pvchange_uuid E device);
  mk_procedure "vgcreate" 40 lvm2 [AString; DeviceList] 0 RErr (fun _ '(volgroup, (physvols, _)) => do_vgcreate E volgroup physvols);
  mk_procedure "lvcreate" 41 lvm2 [AString; AString; AInt] 0 RErr (fun _ '(logvol, (volgroup, (mbytes, _))) => do_lvcreate E logvol volgroup mbytes);
  mk_procedure "lvcreate_free" 312 lvm2 [AString; AString; AInt] 0 RErr (fun _ '(logvol, (volgroup, (percent, _))) => do_lvcreate_free E logvol volgroup percent);
  mk_procedure "lvresize" 105 lvm2 [Device; AInt] 0 RErr (fun _ '(logvol, (mbytes, _)) => do_lvresize E logvol mbytes);
  mk_procedure "lvresize_free" 238 lvm2 [Device; AInt] 0 RErr (fun _ '(logvol, (percent, _)) => do_lvresize_free E logvol percent);
  mk_procedure "lvm_remove_all" 48 lvm2 [] 0 RErr (fun _ _ => do_lvm_remove_all E);
  mk_procedure "pvchange_uuid_all" 339 lvm2 [] 0 RErr (fun _ _ => do_pvchange_uuid_all E);
  mk_procedure "vgchange_uuid_all" 341 lvm2 [] 0 RErr (fun _ _ => do_vgchange_uuid_all E);
  mk_procedure "vgremove" 78 lvm2 [AString] 0 RErr (fun _ '(vg, _) => do_vgremove E vg);
  mk_procedure "vgchange_uuid" 340 lvm2 [AString] 0 RErr (fun _ '(vg, _) => do_vgchange_uuid E vg);
  mk_procedure "pvresize_size" 249 lvm2 [Device; AInt64] 0 RErr (fun _ '(device, (size, _)) => do_pvresize_size E device size);
  mk_procedure "vg_activate" 104 lvm2 [ABool; StringList] 0 RErr (fun _ '(activate, (volgroups, _)) => do_vg_activate E activate volgroups);
  mk_procedure "vg_activate_all" 103 lvm2 [ABool] 0 RErr (fun _ '(activate, _) => do_vg_activate_all E activate);
  mk_procedure "lvrename" 219 None [AString; AString] 0 RErr (fun _ '(vol, (newvol, _)) => do_lvrename E vol newvol);
  mk_procedure "vgrename" 220 None [AString; AString] 0 RErr (fun _ '(vol, (newvol, _)) => do_vgrename E vol newvol);
  mk_procedure "pvuuid" 222 None [Device] 0 RString (fun _ '(device, _) => do_pvuuid E device);
  mk_procedure "lvuuid" 224 None [Device] 0 RString (fun _ '(device, _) => do_lvuuid E device);
  mk_procedure "lvm_canonical_lv_name" 277 None [Device] 0 RString (fun _ '(device, _) => do_lvm_canonical_lv_name E device);
  mk_procedure "vguuid" 223 None [AString] 0 RString (fun _ '(vg, _) => do_vguuid E vg);
  mk_procedure "vgpvuuids" 225 None [AString] 0 RStringList (fun _ '(vg, _) => do_vgpvuuids E vg);
  mk_procedure "vglvuuids" 226 None [AString] 0 RStringList (fun _ '(vg, _) => do_vglvuuids E vg);
  mk_procedure "vgscan" 232 None [] 0 RErr (fun _ _ => do_vgscan E);
  mk_procedure "is_lv" 264 None [Device] 0 RBool (fun _ '(device, _) => do_is_lv E device);
  mk_procedure "list_dm_devices" 287 None [] 0 RStringList (fun _ _ => do_list_dm_devices E (o_sysfs O));
  mk_procedure "vgmeta" 315 lvm2 [AString] 0 RBufferOut (fun _ '(vg, _) => do_vgmeta E (o_vg O) vg)
].

Definition mount_procedures : list procedure := [
  mk_procedure "mount" 1 None [Mountable; AString] 0 RErr (fun _ '(m, (mountpoint, _)) => do_mount E m mountpoint);
  mk_procedure "mount_ro" 73 None [Mountable; AString] 0 RErr (fun _ '(m, (mountpoint, _)) => do_mount_ro E m mountpoint);
  mk_procedure "mount_options" 74 None [AString; Mountable; AString] 0 RErr (fun _ '(options, (m, (mountpoint, _))) => do_mount_options E options m mountpoint);
  mk_procedure "mount_vfs" 75 None [AString; AString; Mountable; AString] 0 RErr (fun _ '(options, (vfstype, (m, (mountpoint, _)))) => do_mount_vfs E options vfstype m mountpoint);
  mk_procedure "umount" 45 None [Dev_or_Path; ABool; ABool] 2 RErr (fun mask '(p, (force, (lazyunmount, _))) => do_umount E p (optarg mask 0 force) (optarg mask 1 lazyunmount));
  mk_procedure "mounts" 46 None [] 0 RStringList (fun _ _ => do_mounts E);
  mk_procedure "umount_all" 47 None [] 0 RErr (fun _ _ => do_umount_all E);
  mk_procedure "mount_loop" 129 None [Pathname; Pathname] 0 RErr (fun _ '(file, (mountpoint, _)) => do_mount_loop E file mountpoint);
  mk_procedure "mountpoints" 147 None [] 0 RHashtable (fun _ _ => do_mountpoints E);
  mk_procedure "mkmountpoint" 148 None [AString] 0 RErr (fun _ '(path, _) => do_mkmountpoint E path);
  mk_procedure "rmmountpoint" 149 None [AString] 0 RErr (fun _ '(path, _) => do_rmmountpoint E path);
  mk_procedure "remount" 402 None [Pathname; ABool] 1 RErr (fun mask '(mountpoint, (rw, _)) => do_remount E mountpoint (optarg mask 0 rw))
].

Definition file_procedures : list procedure := [
  mk_procedure "touch" 3 None [Pathname] 0 RErr (fun _ '(path, _) => do_touch E K W path);
  mk_procedure "rm" 29 None [Pathname] 0 RErr (fun _ '(path, _) => do_rm E path);
  mk_procedure "rm_f" 367 None [Pathname] 0 RErr (fun _ '(path, _) => do_rm_f E path);
  mk_procedure "chmod" 34 None [AInt; Pathname] 0 RErr (fun _ '(mode, (path, _)) => do_chmod E mode path);
  mk_procedure "chown" 35 None [AInt; AInt; Pathname] 0 RErr (fun _ '(owner, (group, (path, _))) => do_chown E owner group path);
  mk_procedure "lchown" 203 None [AInt; AInt; Pathname] 0 RErr (fun _ '(owner, (group, (path, _))) => do_lchown E owner group path);
  mk_procedure "write_file" 44 None [Pathname; AString; AInt] 0 RErr (fun _ '(path, (content, (size, _))) => do_write_file E K path content size);
  mk_procedure "internal_write" 246 None [Pathname; BufferIn] 0 RErr (fun _ '(path, (content, _)) => do_internal_write E K path content);
  mk_procedure "internal_write_append" 290 None [Pathname; BufferIn] 0 RErr (fun _ '(path, (content, _)) => do_internal_write_append E K path content);
  mk_procedure "pread" 207 None [Pathname; AInt; AInt64] 0 RBufferOut (fun _ '(path, (count, (offset, _))) => do_pread E K path count offset);
  mk_procedure "pread_device" 276 None [Device; AInt; AInt64] 0 RBufferOut (fun _ '(path, (count, (offset, _))) => do_pread_device E K path count offset);
  mk_procedure "file" 49 None [Dev_or_Path] 0 RString (fun _ '(path, _) => do_file E W path);
  mk_procedure "zfile" 140 None [AString; Pathname] 0 RString (fun _ '(meth, (path, _)) => do_zfile E W meth path);
  mk_procedure "rmdir" 30 None [Pathname] 0 RErr (fun _ '(path, _) => do_rmdir E path);
  mk_procedure "rm_rf" 31 None [Pathname] 0 RErr (fun _ '(path, _) => do_rm_rf E path);
  mk_procedure "mkdir" 32 None [Pathname] 0 RErr (fun _ '(path, _) => do_mkdir E path);
  mk_procedure "mkdir_mode" 202 None [Pathname; AInt] 0 RErr (fun _ '(path, (mode, _)) => do_mkdir_mode E path mode);
  mk_procedure "cp" 87 None [Pathname; Pathname] 0 RErr (fun _ '(src, (dest, _)) => do_cp E src dest);
  mk_procedure "cp_a" 88 None [Pathname; Pathname] 0 RErr (fun _ '(src, (dest, _)) => do_cp_a E src dest);
  mk_procedure "cp_r" 401 None [Pathname; Pathname] 0 RErr (fun _ '(src, (dest, _)) => do_cp_r E src dest);
  mk_procedure "mv" 89 None [Pathname; Pathname] 0 RErr (fun _ '(src, (dest, _)) => do_mv E src dest);
  mk_procedure "readlink" 168 None [Pathname] 0 RString (fun _ '(path, _) => do_readlink E W path);
  mk_procedure "internal_readlinklist" 206 None [Pathname; StringList] 0 RStringList (fun _ '(path, (names, _)) => do_internal_readlinklist E K W path names);
  mk_procedure "ln" 164 None [AString; Pathname] 0 RErr (fun _ '(target, (linkname, _)) => do_ln E target linkname);
  mk_procedure "ln_f" 165 None [AString; Pathname] 0 RErr (fun _ '(target, (linkname, _)) => do_ln_f E target linkname);
  mk_procedure "ln_s" 166 None [AString; Pathname] 0 RErr (fun _ '(target, (linkname, _)) => do_ln_s E target linkname);
  mk_procedure "ln_sf" 167 None [AString; Pathname] 0 RErr (fun _ '(target, (linkname, _)) => do_ln_sf E target linkname);
  mk_procedure "exists" 36 None [Pathname] 0 RBool (fun _ '(path, _) => do_exists E W path);
  mk_procedure "is_symlink" 270 None [Pathname] 0 RBool (fun _ '(path, _) => do_is_symlink E W path);
  mk_procedure "is_file" 37 None [Pathname; ABool] 1 RBool (fun mask '(path, (follow, _)) => do_is_file E W path (optarg mask 0 follow));
  mk_procedure "is_dir" 38 None [Pathname; ABool] 1 RBool (fun mask '(path, (follow, _)) => do_is_dir E W path (optarg mask 0 follow));
  mk_procedure "is_chardev" 267 None [Pathname; ABool] 1 RBool (fun mask '(path, (follow, _)) => do_is_chardev E W path (optarg mask 0 follow));
  mk_procedure "is_blockdev" 268 None [Pathname; ABool] 1 RBool (fun mask '(path, (follow, _)) => do_is_blockdev E W path (optarg mask 0 follow));
  mk_procedure "is_fifo" 269 None [Pathname; ABool] 1 RBool (fun mask '(path, (follow, _)) => do_is_fifo E W path (optarg mask 0 follow));
  mk_procedure "is_socket" 271 None [Pathname; ABool] 1 RBool (fun mask '(path, (follow, _)) => do_is_socket E W path (optarg mask 0 follow));
  mk_procedure "head" 121 None [Pathname] 0 RStringList (fun _ '(path, _) => do_head E K W path);
  mk_procedure "tail" 123 None [Pathname] 0 RStringList (fun _ '(path, _) => do_tail E K W path);
  mk_procedure "head_n" 122 None [AInt; Pathname] 0 RStringList (fun _ '(n, (path, _)) => do_head_n E K W n path);
  mk_procedure "tail_n" 124 None [AInt; Pathname] 0 RStringList (fun _ '(n, (path, _)) => do_tail_n E K W n path)
].

Definition content_procedures : list procedure := [
  mk_procedure "zero" 85 None [Device] 0 RErr (fun _ '(device, _) => do_zero E K device);
  mk_procedure "zero_free_space" 311 None [Pathname] 0 RErr (fun _ '(dir, _) => do_zero_free_space E K X dir);
  mk_procedure "dd" 217 None [Dev_or_Path; Dev_or_Path] 0 RErr (fun _ '(src, (dest, _)) => do_dd E src dest);
  mk_procedure "fill" 215 None [AInt; AInt; Pathname] 0 RErr (fun _ '(c, (len, (path, _))) => do_fill E K c len path);
  mk_procedure "fill_pattern" 245 None [AString; AInt; Pathname] 0 RErr (fun _ '(pattern, (len, (path, _))) => do_fill_pattern E K pattern len path);
  mk_procedure "fill_dir" 348 None [Pathname; AInt] 0 RErr (fun _ '(dir, (n, _)) => do_fill_dir E K dir n);
  mk_procedure "truncate" 199 None [Pathname] 0 RErr (fun _ '(path, _) => do_truncate E K path);
  mk_procedure "truncate_size" 200 None [Pathname; AInt64] 0 RErr (fun _ '(path, (len, _)) => do_truncate_size E K path len);
  mk_procedure "fallocate" 169 None [Pathname; AInt] 0 RErr (fun _ '(path, (len, _)) => do_fallocate E K path len);
  mk_procedure "fallocate64" 252 None [Pathname; AInt64] 0 RErr (fun _ '(path, (len, _)) => do_fallocate64 E K path len)
].

Definition xattr_procedures : list procedure := [
  mk_procedure "setxattr" 143 xattrs [AString; BufferIn; Pathname] 0 RErr
    (fun _ '(xattr, (val, (path, _))) => do_setxattr E xattr val path);
  mk_procedure "lsetxattr" 144 xattrs [AString; BufferIn; Pathname] 0 RErr
    (fun _ '(xattr, (val, (path, _))) => do_lsetxattr E xattr val path);
  mk_procedure "removexattr" 145 xattrs [AString; Pathname] 0 RErr (fun _ '(xattr, (path, _)) => do_removexattr E xattr path);
  mk_procedure "lremovexattr" 146 xattrs [AString; Pathname] 0 RErr (fun _ '(xattr, (path, _)) => do_lremovexattr E xattr path);
  mk_procedure "getxattr" 279 xattrs [Pathname; AString] 0 RBufferOut (fun _ '(path, (name, _)) => do_getxattr E A path name);
  mk_procedure "lgetxattr" 280 xattrs [Pathname; AString] 0 RBufferOut (fun _ '(path, (name, _)) => do_lgetxattr E A path name)
].

(** These may read outside a buffer when attributes change under them. *)
Definition racing_procedures : list procedure := [
  mk_procedure "getxattrs" 141 xattrs [Pathname] 0 (RStructList 24 xdr_xattr) (fun _ '(path, _) => do_getxattrs E A path);
  mk_procedure "lgetxattrs" 142 xattrs [Pathname] 0 (RStructList 24 xdr_xattr) (fun _ '(path, _) => do_lgetxattrs E A path);
  mk_procedure "internal_lxattrlist" 205 xattrs [Pathname; StringList] 0 (RStructList 24 xdr_xattr)
    (fun _ '(path, (names, _)) => do_internal_lxattrlist E A path names);
  mk_procedure "copy_attributes" 415 None [Pathname; Pathname; ABool; ABool; ABool; ABool] 4 RErr
    (fun mask '(src, (dest, (all, (mode, (xattributes, (ownership, _)))))) =>
       do_copy_attributes E A mask src dest all mode xattributes ownership)
].

Definition safe_procedures : list procedure :=
  partition_procedures ++ filesystem_procedures ++ making_procedures ++ md_procedures ++ lvm_procedures ++
  mount_procedures ++ file_procedures ++ content_procedures ++ xattr_procedures.
End table.

(** ** The procedures answer once *)

#[export] Instance RErr_ok : RetKind RErr.
Proof. by intros p. Qed.
#[export] Instance RInt_ok : RetKind RInt.
Proof. intros p [= <-]. apply _. Qed.
#[export] Instance RString_ok : RetKind RString.
Proof. intros p [= <-]. apply _. Qed.
#[export] Instance RBool_ok : RetKind RBool.
Proof. intros p [= <-]. apply _. Qed.
#[export] Instance RStringList_ok : RetKind RStringList.
Proof. intros p [= <-]. apply _. Qed.
#[export] Instance RBufferOut_ok : RetKind RBufferOut.
Proof. intros p [= <-]. apply _. Qed.
#[export] Instance RHashtable_ok : RetKind RHashtable := RStringList_ok.
#[export] Instance RStructList_ok {T} size (q : xdrproc T) `{!XdrProc q} : RetKind (RStructList size q).
Proof. intros p [= <-]. apply _. Qed.
#[export] Instance xdr_partition_laws : XdrProc xdr_partition.
Proof. unfold xdr_partition. apply xdr_as_laws; [apply _|by intros [? [? [? ?]]]|by intros []]. Qed.

#[export] Instance xdr_xattr_laws : XdrProc xdr_xattr.
Proof. unfold xdr_xattr. apply xdr_as_laws; [apply _|by intros [? ?]|by intros []]. Qed.

Lemma quiet_prog_available E prog : quiet (prog_available E prog).
Proof. apply quiet_intro. intros s. eexists _, s, []. by rewrite app_nil_r. Qed.

Section table_ok.
Context (E : denv) `{!Starts E} (W : md_world).

Lemma do_part_to_dev_one_reply ub p : one_reply ub ptr_failed (do_part_to_dev p).
Proof. unfold do_part_to_dev. emits. Qed.
Lemma do_list_md_devices_one_reply ub : one_reply ub ptr_failed (do_list_md_devices W).
Proof. unfold do_list_md_devices. emits. Qed.
Lemma do_md_detail_one_reply ub md : one_reply ub ptr_failed (do_md_detail E md).
Proof. unfold do_md_detail. emits. Qed.
Lemma do_md_stop_one_reply ub md : one_reply ub int_failed (do_md_stop E md).
Proof. by apply run_err_one_reply. Qed.
Lemma do_set_e2generation_one_reply ub f g : one_reply ub int_failed (do_set_e2generation E f g).
Proof. unfold do_set_e2generation. emits. Qed.
Lemma do_mke2journal_one_reply `{!WipefsWorks E} ub b device : one_reply ub int_failed (do_mke2journal E b device).
Proof. by apply make_journal_one_reply. Qed.
End table_ok.
#[export] Hint Resolve do_part_to_dev_one_reply do_list_md_devices_one_reply do_md_detail_one_reply do_md_stop_one_reply
  do_set_e2generation_one_reply do_mke2journal_one_reply : calls.
#[export] Hint Resolve do_part_init_one_reply do_part_add_one_reply do_part_del_one_reply do_part_disk_one_reply
  do_part_set_bootable_one_reply do_part_set_name_one_reply do_part_set_mbr_id_one_reply do_part_set_gpt_type_one_reply
  do_part_get_gpt_type_one_reply do_part_list_one_reply do_part_get_parttype_one_reply do_part_get_bootable_one_reply
  do_get_e2attrs_one_reply get_blkid_tag_one_reply do_vfs_type_one_reply do_blkid_one_reply do_set_label_one_reply
  do_set_uuid_one_reply do_tune2fs_l_one_reply resize2fs_one_reply do_resize2fs_size_one_reply do_e2fsck_one_reply
  do_set_e2attrs_one_reply do_tune2fs_one_reply do_mklost_one_reply do_wipefs_one_reply run_err_one_reply
  do_mke2journal_L_one_reply do_mke2fs_J_one_reply do_mke2fs_JL_one_reply : calls.

#[export] Hint Resolve _setxattr_one_reply _removexattr_one_reply _getxattr_one_reply getxattrs_one_reply
  lxattrlist_one_reply copy_attributes_one_reply : calls.

(** Many procedures are named instances of a
    few functions. *)
Ltac solve_named :=
  cbv delta [do_pvs do_vgs do_lvs do_pvcreate do_vgcreate do_lvcreate do_lvremove do_vgremove do_pvremove do_pvresize
    do_pvresize_size do_vg_activate_all do_vg_activate do_lvrename do_vgrename do_vgscan do_pvchange_uuid do_pvchange_uuid_all
    do_vgchange_uuid do_vgchange_uuid_all do_lvcreate_free do_lvresize do_lvresize_free do_pvuuid do_vguuid do_lvuuid
    do_vgpvuuids do_vglvuuids do_mount do_mount_ro do_mount_options do_mount_vfs do_mounts do_mountpoints do_rm do_chown do_lchown
    do_pread do_pread_device do_rmdir do_mkdir do_cp do_cp_a do_cp_r do_mv do_ln do_ln_s do_ln_sf do_exists do_is_symlink
    do_is_file do_is_dir do_is_chardev do_is_blockdev do_is_fifo do_is_socket do_head do_tail do_head_n do_tail_n
    do_fill_dir do_truncate] beta;
  solve [emits].

(** An entry of the table: the group is a program, the result kind is known
    and the procedure has its lemma. *)
Ltac procedure_entry :=
  constructor;
  [ cbn; intros ? ?; try discriminate; intros [= <- <-]; first [apply quiet_prog_available | apply quiet_gets | apply quiet_linuxxattrs]
  | cbn; apply _
  | cbn [pr_do pr_ret pr_args rk_failed rk_c RErr RInt RBool RString RStringList RHashtable RBufferOut RStructList]; intros mask v; repeat match goal with v : args_of _ (_ :: _) |- _ => destruct v end;
    cbn beta iota;
    unfold do_set_e2label, do_get_e2label, do_set_e2uuid, do_get_e2uuid, do_resize2fs, do_resize2fs_M, do_e2fsck_f,
      do_vfs_label, do_vfs_uuid, do_setxattr, do_lsetxattr, do_removexattr, do_lremovexattr, do_getxattr, do_lgetxattr,
      do_getxattrs, do_lgetxattrs;
    first [solve [eauto 2 with calls] | solve [eauto 2 with one_reply] | solve_named | apply get_blkid_tag_one_reply | apply resize2fs_one_reply] ].

Lemma parsing_procedures_ok E `{!Starts E} : Forall (procedure_ok true) (parsing_procedures E).
Proof. unfold parsing_procedures, part_list_procedure. repeat (constructor; [procedure_entry|]). constructor. Qed.
Lemma safe_procedures_ok O `{!Starts (o_env O)} `{!WipefsWorks (o_env O)} : Forall (procedure_ok false) (safe_procedures O).
Proof.
  unfold safe_procedures, partition_procedures, filesystem_procedures, making_procedures, md_procedures, lvm_procedures, mount_procedures,
    file_procedures, content_procedures, xattr_procedures. cbn [app].
  repeat (constructor; [procedure_entry|]). constructor.
Qed.

Lemma racing_procedures_ok O : Forall (procedure_ok true) (racing_procedures O).
Proof. unfold racing_procedures. repeat (constructor; [procedure_entry|]). constructor. Qed.

(** * The size of a list of partitions *)

Lemma zlength_partitions (l : list partition) : zlength (xp_wire (xdr_array 32 xdr_partition) l) = 4 + 28 * zlength l.
Proof.
  cbn [xp_wire xdr_array]. rewrite zlength_app, zlength_be_bytes. f_equal. induction l as [|p l IH]; [done|].
  cbn [fmap list_fmap concat]. rewrite zlength_app, IH. unfold xdr_partition, xdr_as, xdr_fields, xdr_int, xdr_int64_t.
  cbn [xp_wire fst snd]. rewrite !zlength_app, !zlength_be_bytes. unfold zlength. cbn [length]. lia.
Qed.
Lemma partitions_fit (l : list partition) : zlength l <= 149794 -> ret_fits (RStructList 32 xdr_partition) l = true.
Proof.
  intros Hl. unfold ret_fits, ret_wire. cbn [rk_xdr RStructList].
  rewrite zlength_partitions. apply andb_true_intro. split.
  - cbn [xp_fits xdr_array]. apply andb_true_intro. split.
    + unfold too_many, UINT_MAX. apply negb_true_iff, Z.ltb_ge. change ((2 ^ 32 - 1) / 32) with 134217727. lia.
    + apply forallb_forall. by intros p.
  - apply Z.leb_le. unfold GUESTFS_MESSAGE_MAX. lia.
Qed.
Lemma row_partition_typed r : row_ok r -> xp_typed xdr_partition (row_partition r).
Proof. intros [(? & ? & ? & ?) _]. cbn. unfold is_s32. lia. Qed.

(** * Properties *)

(** C3: Every request gets one answer: with the table of the procedures that keep the contract
    of the stubs, when programs can be started and wipefs works, whatever the procedure number,
    the bitmask and the bytes of the arguments are and whatever the programs print, dispatching
    a request returns and has written exactly one message, a reply or an error with the serial
    number of the request; so the client is never answered twice and never left waiting. *)
Theorem daemon_answers_once (O : outside) (s : pstate) (xdr_in : list byte) (d : daemon) :
  Starts (o_env O) -> WipefsWorks (o_env O) -> d_healthy d ->
  exists d' m, dispatch_incoming_message (o_env O) (safe_procedures O) s xdr_in d = (Ret tt, d') /\
    d_healthy d' /\ d_inbox d' = d_inbox d /\ d_sent d' = d_sent d ++ m /\ one_message d m.
Proof.
  intros HE HW Hd. destruct (List.find (fun P => pr_nr P =? d_proc_nr d) (safe_procedures O)) as [P|] eqn:Ef.
  - pose proof (safe_procedures_ok O) as Hok. rewrite List.Forall_forall in Hok.
    destruct (List.find_some _ _ Ef) as [Hin _]. specialize (Hok P Hin).
    destruct (X_stub_one_reply (o_env O) false P (d_optargs_bitmask d) xdr_in Hok s) as ([o|w] & s' & new & Es & Hn & Hr); [|by destruct Hr].
    pose proof (pr_ret_ok _ _ Hok).
    rewrite (dispatch_outcome (o_env O) _ s xdr_in d P o s' new Ef Es Hn).
    destruct (stub_outcome_message (pr_ret P) o new d Hd Hr) as (d' & m & E1 & X & Hm). exists d', m.
    destruct X as [Xi Xo Xh _ _ _]. split_and!; done.
  - unfold dispatch_incoming_message. rewrite Ef.
    destruct (send_error_spec d 0 (bytes_of_string (unknown_procedure (d_proc_nr d))) Hd) as (d' & E1 & X & _).
    exists d', (error_reply d (error_body d 0 (bytes_of_string (unknown_procedure (d_proc_nr d))))).
    destruct X as [Xi Xo Xh _ _ _]. split_and!; [exact E1|done..|left; eauto].
Qed.

(** C1: Calling a procedure through the wire refines calling it directly: for every procedure
    that keeps the contract and arguments that fit in a message, the client stub sends a
    request, one turn of the daemon's main loop dispatches it, and the stub returns the value
    that the procedure returned when it ran on the arguments after device translation, or -1
    with the error message that it replied with. *)
Theorem procedure_call {C} `{ConnFeed C} (E : denv) (table : list procedure) (P : procedure) s2e tf ec mask args
    (l : lib C) (d : daemon) (s : pstate) :
  Starts E -> procedure_ok false P -> lookup_procedure table (pr_nr P) = Some P ->
  idle l d -> sendable P mask args l ->
  (forall v s', X_stub E P mask (xp_wire (args_xdr (pr_args P)) args) s = (Ret (Some v), s') -> ret_typed (pr_ret P) v) ->
  exists o s' new, X_stub E P mask (xp_wire (args_xdr (pr_args P)) args) s = (Ret o, s') /\
    ps_log s' = ps_log s ++ new /\ call_returns E table P s2e tf ec mask args l d s o (replied_messages new).
Proof.
  intros HE HP Hf Hi Hs Ht.
  destruct (X_stub_one_reply E false P mask (xp_wire (args_xdr (pr_args P)) args) HP s) as ([o|w] & s' & new & Es & Hn & Hr); [|by destruct Hr].
  pose proof (pr_ret_ok _ _ HP). exists o, s', new. split_and!; [done|done|].
  eapply call_with; eauto. intros v ->. by eapply Ht.
Qed.

(** C2: From the library to parted and back: guestfs_part_list on a device whose partition table
    parted -m prints in its documented format returns to the caller exactly the list of
    partitions with their numbers, starts, ends and sizes, in order. *)
Theorem part_list_end_to_end {C} `{ConnFeed C} (E : denv) (procs : list procedure) s2e tf ec (device : string)
    (t : table) (l : lib C) (d : daemon) (s s1 : pstate) :
  Starts E -> idle l d -> sendable (part_list_procedure E) 0 (device, tt) l ->
  lookup_procedure procs 213 = Some (part_list_procedure E) ->
  cbytes device = bytes_of_string device -> zlength (cbytes device) < UINT_MAX ->
  STRPREFIX device "/dev/" = true -> is_root_device (ev_fs E (ps_log s)) device = false ->
  device_name_translation (ev_fs E (ps_log s)) device = Some device ->
  table_ok t -> zlength (tb_rows t) <= 149794 ->
  (forall h, prints (ev_exec E h ["parted"; "-m"; "--"; device; "unit"; "b"; "print"]) (table_text t)) ->
  test_parted_m_opt E s = (Ret 1, s1) ->
  exists serial l1 d1 l2,
    guestfs___send 213 0 0 (Some (xp_put (args_xdr [Device]) (device, tt))) l = (Ret serial, l1) /\
    main_loop_turn (dispatch_incoming_message E procs s) (d_feed (lib_sent_since l l1) d) = (Ret tt, d1) /\
    stub_reply s2e tf ec "part_list" 213 serial (Some (xp_get (xdr_array 32 xdr_partition)))
        (lib_feed (d_sent_since d d1) l1) =
      (Ret (0, Some (row_partition <$> tb_rows t)), l2) /\ idle l2 d1.
Proof.
  intros HE Hi Hs Hf Hc Hlen Hdev Hroot Htr Ht Hrows Hp Hm.
  set (P := part_list_procedure E) in *. set (rows := row_partition <$> tb_rows t).
  destruct (part_list_table E device t Ht Hp s s1 Hm) as (s2 & E2).
  assert (X_stub E P 0 (xp_wire (args_xdr (pr_args P)) (device, tt)) s = (Ret (Some rows), s2)) as Ex.
  { unfold X_stub, stub_call, bind. cbn [P part_list_procedure pr_optional pr_noptargs pr_args check_bitmask Z.eqb negb ret].
    rewrite <- (app_nil_r (xp_wire _ _)), xp_get_wire by (first [apply (snd_fits _ _ _ _ Hs)|done]).
    cbn [resolve_args fst snd]. unfold bind at 1. unfold resolve_arg, RESOLVE_DEVICE.
    rewrite Hdev, Hroot, Htr. cbn. unfold bind. rewrite bool_decide_false by done. cbn. by rewrite E2. }
  destruct (do_part_list_one_reply E device s) as (r & s' & new & E3 & Hn & Hr). rewrite E2 in E3. injection E3 as <- <-.
  destruct (call_with E procs P s2e tf ec 0 (device, tt) l d s (Some rows) s2 new Hi Hs Hf Ex Hn Hr)
    as (serial & l1 & d1 & l2 & C1 & C2 & C3 & C4 & _).
  { intros v [= <-]. cbn. apply Forall_fmap. destruct Ht as (_ & _ & _ & _ & Ht).
    eapply Forall_impl; [exact Ht|]. intros x. apply row_partition_typed. }
  exists serial, l1, d1, l2. split_and!; [done|done| |done].
  unfold returned in C3. change (pr_ret P) with (RStructList 32 xdr_partition) in C3. rewrite partitions_fit in C3; [exact C3|].
  unfold rows, zlength. by rewrite length_fmap.
Qed.

Lemma ex_idle : idle (LibProtoSpec.ex_lib [] []) (ex_daemon [] (ex_file [] [])).
Proof. constructor; [apply ex_socket_healthy|done|apply ex_daemon_healthy|done]. Qed.

Lemma part_list_end_to_end_witness :
  let l := LibProtoSpec.ex_lib [] [] in let d := ex_daemon [] (ex_file [] []) in
  let E := Parted.ex_env (table_text ex_table) in
  exists serial l1 d1 l2,
    guestfs___send 213 0 0 (Some (xp_put (args_xdr [Device]) ("/dev/sda", tt))) l = (Ret serial, l1) /\
    main_loop_turn (dispatch_incoming_message E (parsing_procedures E) ex_pstate) (d_feed (lib_sent_since l l1) d) = (Ret tt, d1) /\
    stub_reply (fun _ => 0) false "NULL" "part_list" 213 serial (Some (xp_get (xdr_array 32 xdr_partition)))
        (lib_feed (d_sent_since d d1) l1) =
      (Ret (0, Some [mk_partition 2 524288000 1073724927 549437928; mk_partition 1 1048576 524287999 523239424]), l2) /\
    idle l2 d1.
Proof.
  intros l d E.
  apply (part_list_end_to_end E (parsing_procedures E) (fun _ => 0) false "NULL" "/dev/sda" ex_table l d ex_pstate
    (snd (test_parted_m_opt E ex_pstate))).
  - apply ex_env_starts.
  - apply ex_idle.
  - constructor; try done; vm_compute; discriminate.
  - done.
  - done.
  - done.
  - done.
  - done.
  - done.
  - repeat constructor.
  - done.
  - intros h. cbn [ev_exec E Parted.ex_env]. rewrite bool_decide_false by done. by apply printing_prints.
  - by vm_compute.
Defined.

Definition ex_calls_env : denv := wipefs_then (printing "--force") (exiting "" "no" 1).
#[export] Instance ex_calls_starts : Starts ex_calls_env.
Proof. constructor; intros; cbn; [by case_match..|eauto]. Qed.
#[export] Instance ex_calls_wipefs : WipefsWorks ex_calls_env.
Proof. intros h. exists "--force". by apply printing_prints. Qed.
Definition ex_md_world : md_world := mk_md_world (fun _ => Globbed []) (fun _ => None).
Definition ex_vg_world : vg_world := mk_vg_world (inr "/tmp/vgmeta1") true [] None.
Definition ex_outside : outside :=
  mk_outside ex_calls_env ex_sysfs ex_md_world ex_vg_world (ex_disk 100 ex_files) ex_file_world
    (mk_free_space (inr "/sysroot/abcdefgh.ijk") None 2 ENOSPC None) ex_xattrs.

Lemma daemon_answers_once_witness : exists d' m,
  dispatch_incoming_message ex_calls_env (safe_procedures ex_outside) Filesys.ex_state [] (ex_daemon [] (ex_file [] [])) =
    (Ret tt, d') /\ d_sent d' = m /\ one_message (ex_daemon [] (ex_file [] [])) m.
Proof.
  destruct (daemon_answers_once ex_outside Filesys.ex_state [] (ex_daemon [] (ex_file [] []))
    _ _ (ex_daemon_healthy _ _)) as (d' & m & E1 & _ & _ & E2 & E3).
  exists d', m. split; [exact E1|]. split; [exact E2|exact E3].
Defined.

Definition ex_procedure : procedure :=
  mk_procedure "part_init" 208 None [Device; AString] 0 RErr
    (fun _ '(device, (parttype, _)) => do_part_init ex_calls_env device parttype).
Lemma procedure_call_witness :
  exists o s' new,
    X_stub ex_calls_env ex_procedure 0 (xp_wire (args_xdr [Device; AString]) ("/dev/sda", ("mbr", tt))) Filesys.ex_state = (Ret o, s') /\
    ps_log s' = ps_log Filesys.ex_state ++ new /\
    call_returns ex_calls_env [ex_procedure] ex_procedure (fun _ => 0) false "-1" 0 ("/dev/sda", ("mbr", tt))
      (LibProtoSpec.ex_lib [] []) (ex_daemon [] (ex_file [] [])) Filesys.ex_state o (replied_messages new).
Proof.
  apply (procedure_call ex_calls_env [ex_procedure] ex_procedure (fun _ => 0) false "-1" 0 ("/dev/sda", ("mbr", tt))
    (LibProtoSpec.ex_lib [] []) (ex_daemon [] (ex_file [] [])) Filesys.ex_state).
  - apply _.
  - constructor; [done|apply _|]. intros mask [device [parttype []]]. apply do_part_init_one_reply, _.
  - done.
  - apply ex_idle.
  - constructor; try done; vm_compute; discriminate.
  - done.
Defined.

(** The partition number 4294967295 is read as -1: the stub takes it for an
    error that was already replied, and nothing is ever sent. *)
Lemma part_to_partnum_no_reply : exists s',
  X_stub ex_calls_env part_to_partnum_procedure 0 (xp_wire (args_xdr [Device]) ("/dev/sda4294967295", tt)) Filesys.ex_state =
    (Ret None, s') /\ replies (ps_log s') = 0%nat.
Proof. eexists. split; vm_compute; reflexivity. Qed.
