(* ===== verification/Inspect.v ===== *)
(** Inspection: what the library knows about the operating systems of a guest.

    The data that inspection keeps in the handle (src/guestfs-internal.h) and
    the helpers of src/inspect-fs.c.  Inspection looks at the guest through
    calls of the library; what they answer is a parameter ([guest_api]), a
    function of all the calls made before, so that the theorems hold for every
    guest.  A call that fails sets the error of the handle and calls its error
    handler, as the generated stubs do. *)

From S2P Require Import Prelude Xdr Protocol Handle Utils Events Conn LibProto Config Lifecycle Drives Command Guestfsd Procs Parted Filesys Btrfs Regex.
From Stdlib Require Import Ascii.

Open Scope Z_scope.
#[local] Arguments String.append : simpl nomatch.

(** * Data *)

Inductive inspect_os_format := OS_FORMAT_UNKNOWN | OS_FORMAT_INSTALLED | OS_FORMAT_INSTALLER.
Inductive inspect_os_type :=
  | OS_TYPE_UNKNOWN | OS_TYPE_LINUX | OS_TYPE_WINDOWS | OS_TYPE_FREEBSD | OS_TYPE_NETBSD | OS_TYPE_HURD | OS_TYPE_DOS
  | OS_TYPE_OPENBSD | OS_TYPE_MINIX.
Inductive inspect_os_distro :=
  | OS_DISTRO_UNKNOWN | OS_DISTRO_DEBIAN | OS_DISTRO_FEDORA | OS_DISTRO_REDHAT_BASED | OS_DISTRO_RHEL | OS_DISTRO_WINDOWS
  | OS_DISTRO_PARDUS | OS_DISTRO_ARCHLINUX | OS_DISTRO_GENTOO | OS_DISTRO_UBUNTU | OS_DISTRO_MEEGO | OS_DISTRO_LINUX_MINT
  | OS_DISTRO_MANDRIVA | OS_DISTRO_SLACKWARE | OS_DISTRO_CENTOS | OS_DISTRO_SCIENTIFIC_LINUX | OS_DISTRO_TTYLINUX
  | OS_DISTRO_MAGEIA | OS_DISTRO_OPENSUSE | OS_DISTRO_BUILDROOT | OS_DISTRO_CIRROS | OS_DISTRO_FREEDOS
  | OS_DISTRO_SUSE_BASED | OS_DISTRO_SLES | OS_DISTRO_OPENBSD | OS_DISTRO_ORACLE_LINUX.
Inductive inspect_os_package_format :=
  | OS_PACKAGE_FORMAT_UNKNOWN | OS_PACKAGE_FORMAT_RPM | OS_PACKAGE_FORMAT_DEB | OS_PACKAGE_FORMAT_PACMAN
  | OS_PACKAGE_FORMAT_EBUILD | OS_PACKAGE_FORMAT_PISI | OS_PACKAGE_FORMAT_PKGSRC.
Inductive inspect_os_package_management :=
  | OS_PACKAGE_MANAGEMENT_UNKNOWN | OS_PACKAGE_MANAGEMENT_YUM | OS_PACKAGE_MANAGEMENT_UP2DATE | OS_PACKAGE_MANAGEMENT_APT
  | OS_PACKAGE_MANAGEMENT_PACMAN | OS_PACKAGE_MANAGEMENT_PORTAGE | OS_PACKAGE_MANAGEMENT_PISI | OS_PACKAGE_MANAGEMENT_URPMI
  | OS_PACKAGE_MANAGEMENT_ZYPPER.

#[export] Instance os_type_eq_dec : EqDecision inspect_os_type.
Proof. solve_decision. Defined.
#[export] Instance os_distro_eq_dec : EqDecision inspect_os_distro.
Proof. solve_decision. Defined.

Record inspect_fstab_entry := mk_fstab_entry { fe_mountable : string; fe_mountpoint : string }.

Record inspect_fs := mk_inspect_fs {
  is_root : bool;
  mountable : string;
  fs_type : inspect_os_type;
  distro : inspect_os_distro;
  package_format : inspect_os_package_format;
  package_management : inspect_os_package_management;
  product_name : option string;
  product_variant : option string;
  major_version : Z;
  minor_version : Z;
  arch : option string;
  hostname : option string;
  windows_systemroot : option string;
  windows_current_control_set : option string;
  drive_mappings : option (list string);
  format : inspect_os_format;
  is_live_disk : Z;
  is_netinst_disk : Z;
  is_multipart_disk : Z;
  fstab : list inspect_fstab_entry  (* nr_fstab of them *)
}.

#[export] Instance upd_is_root : Field is_root := fun f r =>
  mk_inspect_fs (f (is_root r)) (mountable r) (fs_type r) (distro r) (package_format r)
    (package_management r) (product_name r) (product_variant r) (major_version r)
    (minor_version r) (arch r) (hostname r) (windows_systemroot r)
    (windows_current_control_set r) (drive_mappings r) (format r) (is_live_disk r)
    (is_netinst_disk r) (is_multipart_disk r) (fstab r).
#[export] Instance upd_mountable : Field mountable := fun f r =>
  mk_inspect_fs (is_root r) (f (mountable r)) (fs_type r) (distro r) (package_format r)
    (package_management r) (product_name r) (product_variant r) (major_version r)
    (minor_version r) (arch r) (hostname r) (windows_systemroot r)
    (windows_current_control_set r) (drive_mappings r) (format r) (is_live_disk r)
    (is_netinst_disk r) (is_multipart_disk r) (fstab r).
#[export] Instance upd_fs_type : Field fs_type := fun f r =>
  mk_inspect_fs (is_root r) (mountable r) (f (fs_type r)) (distro r) (package_format r)
    (package_management r) (product_name r) (product_variant r) (major_version r)
    (minor_version r) (arch r) (hostname r) (windows_systemroot r)
    (windows_current_control_set r) (drive_mappings r) (format r) (is_live_disk r)
    (is_netinst_disk r) (is_multipart_disk r) (fstab r).
#[export] Instance upd_distro : Field distro := fun f r =>
  mk_inspect_fs (is_root r) (mountable r) (fs_type r) (f (distro r)) (package_format r)
    (package_management r) (product_name r) (product_variant r) (major_version r)
    (minor_version r) (arch r) (hostname r) (windows_systemroot r)
    (windows_current_control_set r) (drive_mappings r) (format r) (is_live_disk r)
    (is_netinst_disk r) (is_multipart_disk r) (fstab r).
#[export] Instance upd_package_format : Field package_format := fun f r =>
  mk_inspect_fs (is_root r) (mountable r) (fs_type r) (distro r) (f (package_format r))
    (package_management r) (product_name r) (product_variant r) (major_version r)
    (minor_version r) (arch r) (hostname r) (windows_systemroot r)
    (windows_current_control_set r) (drive_mappings r) (format r) (is_live_disk r)
    (is_netinst_disk r) (is_multipart_disk r) (fstab r).
#[export] Instance upd_package_management : Field package_management := fun f r =>
  mk_inspect_fs (is_root r) (mountable r) (fs_type r) (distro r) (package_format r)
    (f (package_management r)) (product_name r) (product_variant r) (major_version r)
    (minor_version r) (arch r) (hostname r) (windows_systemroot r)
    (windows_current_control_set r) (drive_mappings r) (format r) (is_live_disk r)
    (is_netinst_disk r) (is_multipart_disk r) (fstab r).
#[export] Instance upd_product_name : Field product_name := fun f r =>
  mk_inspect_fs (is_root r) (mountable r) (fs_type r) (distro r) (package_format r)
    (package_management r) (f (product_name r)) (product_variant r) (major_version r)
    (minor_version r) (arch r) (hostname r) (windows_systemroot r)
    (windows_current_control_set r) (drive_mappings r) (format r) (is_live_disk r)
    (is_netinst_disk r) (is_multipart_disk r) (fstab r).
#[export] Instance upd_product_variant : Field product_variant := fun f r =>
  mk_inspect_fs (is_root r) (mountable r) (fs_type r) (distro r) (package_format r)
    (package_management r) (product_name r) (f (product_variant r)) (major_version r)
    (minor_version r) (arch r) (hostname r) (windows_systemroot r)
    (windows_current_control_set r) (drive_mappings r) (format r) (is_live_disk r)
    (is_netinst_disk r) (is_multipart_disk r) (fstab r).
#[export] Instance upd_major_version : Field major_version := fun f r =>
  mk_inspect_fs (is_root r) (mountable r) (fs_type r) (distro r) (package_format r)
    (package_management r) (product_name r) (product_variant r) (f (major_version r))
    (minor_version r) (arch r) (hostname r) (windows_systemroot r)
    (windows_current_control_set r) (drive_mappings r) (format r) (is_live_disk r)
    (is_netinst_disk r) (is_multipart_disk r) (fstab r).
#[export] Instance upd_minor_version : Field minor_version := fun f r =>
  mk_inspect_fs (is_root r) (mountable r) (fs_type r) (distro r) (package_format r)
    (package_management r) (product_name r) (product_variant r) (major_version r)
    (f (minor_version r)) (arch r) (hostname r) (windows_systemroot r)
    (windows_current_control_set r) (drive_mappings r) (format r) (is_live_disk r)
    (is_netinst_disk r) (is_multipart_disk r) (fstab r).
#[export] Instance upd_arch : Field arch := fun f r =>
  mk_inspect_fs (is_root r) (mountable r) (fs_type r) (distro r) (package_format r)
    (package_management r) (product_name r) (product_variant r) (major_version r)
    (minor_version r) (f (arch r)) (hostname r) (windows_systemroot r)
    (windows_current_control_set r) (drive_mappings r) (format r) (is_live_disk r)
    (is_netinst_disk r) (is_multipart_disk r) (fstab r).
#[export] Instance upd_hostname : Field hostname := fun f r =>
  mk_inspect_fs (is_root r) (mountable r) (fs_type r) (distro r) (package_format r)
    (package_management r) (product_name r) (product_variant r) (major_version r)
    (minor_version r) (arch r) (f (hostname r)) (windows_systemroot r)
    (windows_current_control_set r) (drive_mappings r) (format r) (is_live_disk r)
    (is_netinst_disk r) (is_multipart_disk r) (fstab r).
#[export] Instance upd_windows_systemroot : Field windows_systemroot := fun f r =>
  mk_inspect_fs (is_root r) (mountable r) (fs_type r) (distro r) (package_format r)
    (package_management r) (product_name r) (product_variant r) (major_version r)
    (minor_version r) (arch r) (hostname r) (f (windows_systemroot r))
    (windows_current_control_set r) (drive_mappings r) (format r) (is_live_disk r)
    (is_netinst_disk r) (is_multipart_disk r) (fstab r).
#[export] Instance upd_windows_current_control_set : Field windows_current_control_set := fun f r =>
  mk_inspect_fs (is_root r) (mountable r) (fs_type r) (distro r) (package_format r)
    (package_management r) (product_name r) (product_variant r) (major_version r)
    (minor_version r) (arch r) (hostname r) (windows_systemroot r)
    (f (windows_current_control_set r)) (drive_mappings r) (format r) (is_live_disk r)
    (is_netinst_disk r) (is_multipart_disk r) (fstab r).
#[export] Instance upd_drive_mappings : Field drive_mappings := fun f r =>
  mk_inspect_fs (is_root r) (mountable r) (fs_type r) (distro r) (package_format r)
    (package_management r) (product_name r) (product_variant r) (major_version r)
    (minor_version r) (arch r) (hostname r) (windows_systemroot r)
    (windows_current_control_set r) (f (drive_mappings r)) (format r) (is_live_disk r)
    (is_netinst_disk r) (is_multipart_disk r) (fstab r).
#[export] Instance upd_format : Field format := fun f r =>
  mk_inspect_fs (is_root r) (mountable r) (fs_type r) (distro r) (package_format r)
    (package_management r) (product_name r) (product_variant r) (major_version r)
    (minor_version r) (arch r) (hostname r) (windows_systemroot r)
    (windows_current_control_set r) (drive_mappings r) (f (format r)) (is_live_disk r)
    (is_netinst_disk r) (is_multipart_disk r) (fstab r).
#[export] Instance upd_is_live_disk : Field is_live_disk := fun f r =>
  mk_inspect_fs (is_root r) (mountable r) (fs_type r) (distro r) (package_format r)
    (package_management r) (product_name r) (product_variant r) (major_version r)
    (minor_version r) (arch r) (hostname r) (windows_systemroot r)
    (windows_current_control_set r) (drive_mappings r) (format r) (f (is_live_disk r))
    (is_netinst_disk r) (is_multipart_disk r) (fstab r).
#[export] Instance upd_is_netinst_disk : Field is_netinst_disk := fun f r =>
  mk_inspect_fs (is_root r) (mountable r) (fs_type r) (distro r) (package_format r)
    (package_management r) (product_name r) (product_variant r) (major_version r)
    (minor_version r) (arch r) (hostname r) (windows_systemroot r)
    (windows_current_control_set r) (drive_mappings r) (format r) (is_live_disk r)
    (f (is_netinst_disk r)) (is_multipart_disk r) (fstab r).
#[export] Instance upd_is_multipart_disk : Field is_multipart_disk := fun f r =>
  mk_inspect_fs (is_root r) (mountable r) (fs_type r) (distro r) (package_format r)
    (package_management r) (product_name r) (product_variant r) (major_version r)
    (minor_version r) (arch r) (hostname r) (windows_systemroot r)
    (windows_current_control_set r) (drive_mappings r) (format r) (is_live_disk r)
    (is_netinst_disk r) (f (is_multipart_disk r)) (fstab r).
#[export] Instance upd_fstab : Field fstab := fun f r =>
  mk_inspect_fs (is_root r) (mountable r) (fs_type r) (distro r) (package_format r)
    (package_management r) (product_name r) (product_variant r) (major_version r)
    (minor_version r) (arch r) (hostname r) (windows_systemroot r)
    (windows_current_control_set r) (drive_mappings r) (format r) (is_live_disk r)
    (is_netinst_disk r) (is_multipart_disk r) (f (fstab r)).

(** memset (fs, 0): the mountable is NULL, which no code looks at before it is set. *)
Definition empty_fs : inspect_fs :=
  mk_inspect_fs false "" OS_TYPE_UNKNOWN OS_DISTRO_UNKNOWN OS_PACKAGE_FORMAT_UNKNOWN OS_PACKAGE_MANAGEMENT_UNKNOWN
    None None 0 0 None None None None None OS_FORMAT_UNKNOWN 0 0 0 [].

(** * The calls of the library *)

Inductive acall := Api (name : string) (args : list string).

Definition failure : Type := Z * string.
Definition answers (A : Type) : Type := list acall -> string -> list string -> failure + A.

Record internal_mountable := mk_internal_mountable { im_type : mountable_type; im_device : string; im_volume : string }.
(** The fields of struct guestfs_isoinfo that are used. *)
Record isoinfo := mk_isoinfo { iso_system_id : string; iso_volume_id : string; iso_publisher_id : string; iso_application_id : string }.

(** What the calls answer, for each type of result. *)
Record guest_api := mk_guest_api {
  api_int : answers Z;
  api_str : answers string;
  api_strs : answers (list string);
  api_buf : answers (list byte);
  api_subvolumes : answers (list btrfssubvolume);
  api_mountable : answers internal_mountable;
  api_partitions : answers (list partition);
  api_values : answers (list Z);
  api_isoinfo : answers isoinfo;
  api_errno : list acall -> Z    (* errno, where no system call has set it *)
}.

Record inspector := mk_inspector {
  i_g : guestfs_h;
  i_fses : list inspect_fs;  (* fses[0 .. nr_fses-1] *)
  i_calls : list acall
}.

#[export] Instance upd_i_g : Field i_g := fun f r =>
  mk_inspector (f (i_g r)) (i_fses r) (i_calls r).
#[export] Instance upd_i_fses : Field i_fses := fun f r =>
  mk_inspector (i_g r) (f (i_fses r)) (i_calls r).
#[export] Instance upd_i_calls : Field i_calls := fun f r =>
  mk_inspector (i_g r) (i_fses r) (f (i_calls r)).

Definition im := M inspector.
Definition on_h {A} (m : hm A) : im A := zoom i_g (fun g s => s <| i_g := g |>) m.
Definition error (msg : string) : im unit := on_h (modify (fun g => Errors.error g msg)).
Definition perrorf (errnum : Z) (msg : string) : im unit := on_h (modify (fun g => guestfs___perrorf g errnum msg)).
Definition debug (msg : string) : im unit := on_h (modify (fun g => guestfs___debug g msg)).

(** The entry that [fs] points to is the last one of fses. *)
Definition get_fs : im inspect_fs := gets (fun s => default empty_fs (last (i_fses s))).
Definition set_last (f : inspect_fs -> inspect_fs) (l : list inspect_fs) : list inspect_fs :=
  match last l with Some fs => removelast l ++ [f fs] | None => l end.
Definition set_fs (f : inspect_fs -> inspect_fs) : im unit := modify (fun s => s <| i_fses ::= set_last f |>).

(** A call: NULL when it fails. *)
Definition call {A} (f : answers A) (name : string) (args : list string) : im (option A) := fun s =>
  let s1 := s <| i_calls ::= fun l => l ++ [Api name args] |> in
  match f (i_calls s) name args with
  | inr a => (Ret (Some a), s1)
  | inl (errnum, msg) => (Ret None, s1 <| i_g ::= fun g => guestfs___error_errno g errnum msg |>)
  end.
(** A call with an integer result: -1 when it fails. *)
Definition call_int (f : answers Z) (name : string) (args : list string) : im Z :=
  r <- call f name args ;; ret (default (-1) r).
(** Between guestfs_push_error_handler (g, NULL, NULL) and guestfs_pop_error_handler (g). *)
Definition silently {A} (m : im A) : im A :=
  on_h (modify (fun g => guestfs_push_error_handler g None 0)) ;;;
  r <- m ;;
  on_h (modify guestfs_pop_error_handler) ;;;
  ret r.

(** Conditions with calls in them, which C evaluates from the left as far as is needed. *)
Definition and_m (a b : im bool) : im bool := x <- a ;; if x : bool then b else ret false.
Definition or_m (a b : im bool) : im bool := x <- a ;; if x : bool then ret true else b.
Fixpoint all_m (l : list (im bool)) : im bool := match l with [] => ret true | m :: l' => and_m m (all_m l') end.
Fixpoint any_m (l : list (im bool)) : im bool := match l with [] => ret false | m :: l' => or_m m (any_m l') end.
(** if (m1 == -1) return -1; *)
Definition then_m (m1 m2 : im Z) : im Z := r <- m1 ;; if r =? -1 then ret (-1) else m2.
Definition positive (m : im Z) : im bool := r <- m ;; ret (0 <? r).

(** xstrtol of gnulib with base 10; [suffixes] is whether valid_suffixes is the
    empty string, which makes trailing characters an error, and not NULL. *)
Definition xstrtol (suffixes : bool) (str : string) : option Z :=
  let s := skip_spaces str in
  let '(neg, s) := match s with String "-" s' => (true, s') | String "+" s' => (false, s') | _ => (false, s) end in
  let '(v, n) := read_digits s 0 0 in
  let v := if neg : bool then - v else v in
  if (n =? 0)%nat || negb (clamp_long v =? v) || (suffixes && negb (n =? String.length s)%nat) then None else Some v.

Definition re_first_partition : rx :=
  rx_seq [Start; lit "/dev/"; Or (lit "h") (Or (lit "s") (lit "v")); lit "d"; Cls rx_any; lit "1"; End].
Definition re_major_minor : rx := rx_seq [digits 1; lit "."; digits 2].

Definition MAX_SMALL_FILE_SIZE : Z := 2 * 1000 * 1000.
Definition MAX_AUGEAS_FILE_SIZE : Z := 100 * 1000.

Definition version_error (str : string) : string := "could not parse integer in version number: " +:+ str.
Definition parse_version (suffixes : bool) (str : string) : im Z :=
  match xstrtol suffixes str with
  | None => error (version_error str) ;;; ret (-1)
  | Some v => ret (s32 v)
  end.
Definition guestfs___parse_unsigned_int (str : string) : im Z := parse_version true str.
Definition guestfs___parse_unsigned_int_ignore_trailing (str : string) : im Z := parse_version false str.

(** Both versions of a match: the minor version is only parsed when the major one could be. *)
Definition set_versions (major minor : option string) : im Z :=
  v <- guestfs___parse_unsigned_int (default "" major) ;;
  set_fs (fun fs => fs <| major_version := v |>) ;;;
  if v =? -1 then ret (-1)
  else
    v <- guestfs___parse_unsigned_int (default "" minor) ;;
    set_fs (fun fs => fs <| minor_version := v |>) ;;;
    if v =? -1 then ret (-1) else ret 0.
Definition guestfs___parse_major_minor : im Z :=
  fs <- get_fs ;;
  match guestfs___match2 (default "" (product_name fs)) re_major_minor with
  | Some (major, minor) => set_versions major minor
  | None => ret 0
  end.

Definition package_format_of (d : inspect_os_distro) : inspect_os_package_format :=
  match d with
  | OS_DISTRO_FEDORA | OS_DISTRO_MEEGO | OS_DISTRO_REDHAT_BASED | OS_DISTRO_RHEL | OS_DISTRO_MAGEIA | OS_DISTRO_MANDRIVA
  | OS_DISTRO_SUSE_BASED | OS_DISTRO_OPENSUSE | OS_DISTRO_SLES | OS_DISTRO_CENTOS | OS_DISTRO_SCIENTIFIC_LINUX
  | OS_DISTRO_ORACLE_LINUX => OS_PACKAGE_FORMAT_RPM
  | OS_DISTRO_DEBIAN | OS_DISTRO_UBUNTU | OS_DISTRO_LINUX_MINT => OS_PACKAGE_FORMAT_DEB
  | OS_DISTRO_ARCHLINUX => OS_PACKAGE_FORMAT_PACMAN
  | OS_DISTRO_GENTOO => OS_PACKAGE_FORMAT_EBUILD
  | OS_DISTRO_PARDUS => OS_PACKAGE_FORMAT_PISI
  | OS_DISTRO_SLACKWARE | OS_DISTRO_TTYLINUX | OS_DISTRO_WINDOWS | OS_DISTRO_BUILDROOT | OS_DISTRO_CIRROS | OS_DISTRO_FREEDOS
  | OS_DISTRO_OPENBSD | OS_DISTRO_UNKNOWN => OS_PACKAGE_FORMAT_UNKNOWN
  end.
Definition guestfs___check_package_format : im unit := set_fs (fun fs => fs <| package_format := package_format_of (distro fs) |>).

Definition package_management_of (d : inspect_os_distro) (major : Z) : inspect_os_package_management :=
  match d with
  | OS_DISTRO_FEDORA | OS_DISTRO_MEEGO => OS_PACKAGE_MANAGEMENT_YUM
  | OS_DISTRO_REDHAT_BASED | OS_DISTRO_RHEL | OS_DISTRO_CENTOS | OS_DISTRO_SCIENTIFIC_LINUX | OS_DISTRO_ORACLE_LINUX =>
      if 5 <=? major then OS_PACKAGE_MANAGEMENT_YUM else OS_PACKAGE_MANAGEMENT_UP2DATE
  | OS_DISTRO_DEBIAN | OS_DISTRO_UBUNTU | OS_DISTRO_LINUX_MINT => OS_PACKAGE_MANAGEMENT_APT
  | OS_DISTRO_ARCHLINUX => OS_PACKAGE_MANAGEMENT_PACMAN
  | OS_DISTRO_GENTOO => OS_PACKAGE_MANAGEMENT_PORTAGE
  | OS_DISTRO_PARDUS => OS_PACKAGE_MANAGEMENT_PISI
  | OS_DISTRO_MAGEIA | OS_DISTRO_MANDRIVA => OS_PACKAGE_MANAGEMENT_URPMI
  | OS_DISTRO_SUSE_BASED | OS_DISTRO_OPENSUSE | OS_DISTRO_SLES => OS_PACKAGE_MANAGEMENT_ZYPPER
  | OS_DISTRO_SLACKWARE | OS_DISTRO_TTYLINUX | OS_DISTRO_WINDOWS | OS_DISTRO_BUILDROOT | OS_DISTRO_CIRROS | OS_DISTRO_FREEDOS
  | OS_DISTRO_OPENBSD | OS_DISTRO_UNKNOWN => OS_PACKAGE_MANAGEMENT_UNKNOWN
  end.
Definition guestfs___check_package_management : im unit :=
  set_fs (fun fs => fs <| package_management := package_management_of (distro fs) (major_version fs) |>).

(** extend_fses: realloc and memset. *)
Definition extend_fses : im unit := modify (fun s => s <| i_fses ::= fun l => l ++ [empty_fs] |>).
(** g->nr_fses-- *)
Definition drop_fs : im unit := modify (fun s => s <| i_fses ::= fun l => removelast l |>).

Section helpers.
Context (A : guest_api).

Definition is_file (p : string) : im Z := call_int (api_int A) "is_file" [p].
Definition is_dir (p : string) : im Z := call_int (api_int A) "is_dir" [p].
Definition is_symlink (p : string) : im Z := call_int (api_int A) "is_symlink" [p].
(** guestfs_is_file_opts (g, p, GUESTFS_IS_FILE_OPTS_FOLLOWSYMLINKS, 1, -1) *)
Definition is_file_follow (p : string) : im Z := call_int (api_int A) "is_file_opts" [p; "followsymlinks:1"].

Definition guestfs___case_sensitive_path_silently (p : string) : im (option string) :=
  silently (call (api_str A) "case_sensitive_path" [p]).
Definition nocase (test : string -> im Z) (p : string) : im Z :=
  r <- guestfs___case_sensitive_path_silently p ;;
  match r with
  | None => ret 0
  | Some p => r <- test p ;; ret (bool_int (0 <? r))
  end.
Definition guestfs___is_file_nocase (p : string) : im Z := nocase is_file p.
Definition guestfs___is_dir_nocase (p : string) : im Z := nocase is_dir p.

(** Refuse files of more than [max] bytes. *)
Definition small_enough (filename : string) (max : Z) : im bool :=
  size <- call_int (api_int A) "filesize" [filename] ;;
  if size =? -1 then ret false
  else if max <? size then
    error ("size of " +:+ filename +:+ " is unreasonably large (" +:+ pretty size +:+ " bytes)") ;;; ret false
  else ret true.

Definition guestfs___first_line_of_file (filename : string) : im (option string) :=
  ok <- small_enough filename MAX_SMALL_FILE_SIZE ;;
  if negb ok then ret None
  else
    r <- call (api_strs A) "head_n" ["1"; filename] ;;
    match r with
    | None => ret None
    | Some lines => ret (Some (default "" (head lines)))
    end.

(** [None]: -1; [Some None]: no match. *)
Definition guestfs___first_egrep_of_file (filename eregex : string) (iflag : bool) : im (option (option string)) :=
  ok <- small_enough filename MAX_SMALL_FILE_SIZE ;;
  if negb ok then ret None
  else
    r <- call (api_strs A) "grep_opts" ([eregex; filename; "extended:1"] ++ if iflag then ["insensitive:1"] else []) ;;
    match r with
    | None => ret None
    | Some lines => ret (Some (head lines))
    end.

End helpers.
