(* ===== verification/InspectUnix.v ===== *)
(** Inspection of Unix roots: src/inspect-fs-unix.c.

    Distributions and versions from release files, architecture, host name, and
    the file systems of /etc/fstab with the translation of the device names of
    the guest to those of the appliance. *)

From S2P Require Import Prelude Xdr Protocol Handle Utils Events Conn LibProto Config Lifecycle Drives Command Guestfsd Procs Parted Filesys Btrfs Regex Inspect.
From Stdlib Require Import Ascii.

Open Scope Z_scope.
#[local] Arguments String.append : simpl nomatch.

(** * Regular expressions *)

Definition re_fedora : rx := rx_seq [lit "Fedora release "; digits 1].
(** The three expressions of each distribution of the Red Hat family. *)
Definition re_old (name : string) : rx := rx_seq [lit name; anything; lit "release "; digits 1; anything; lit "Update "; digits 2].
Definition re_new (name : string) : rx := rx_seq [lit name; anything; lit "release "; digits 1; lit "."; digits 2].
Definition re_no_minor (name : string) : rx := rx_seq [lit name; anything; lit "release "; digits 1].
Definition re_xdev : rx :=
  rx_seq [Start; lit "/dev/"; Group 1 (Or (lit "h") (Or (lit "s") (Or (lit "v") (lit "xv")))); lit "d"; Group 2 (Many 1 c_islower);
          Group 3 (Many 0 c_isdigit); End].
Definition re_cciss : rx :=
  rx_seq [Start; lit "/dev/"; Group 1 (rx_seq [lit "cciss/c"; Many 1 c_isdigit; lit "d"; Many 1 c_isdigit]); Maybe (Seq (lit "p") (digits 2)); End].
Definition re_mdN : rx := rx_seq [Start; Group 1 (Seq (lit "/dev/md") (Many 1 c_isdigit)); End].
Definition rx_freebsd_disk : rx := Group 1 (Or (Seq (lit "ad") (Maybe (lit "a"))) (lit "vtbd")).
Definition re_freebsd_mbr : rx := rx_seq [Start; lit "/dev/"; rx_freebsd_disk; digits 2; lit "s"; digits 3; Group 4 (Cls c_islower); End].
Definition re_freebsd_gpt : rx := rx_seq [Start; lit "/dev/"; rx_freebsd_disk; digits 2; lit "p"; digits 3; End].
Definition re_diskbyid : rx := rx_seq [Start; lit "/dev/disk/by-id/"; anything; lit "-part"; digits 1; End].
Definition re_netbsd : rx := rx_seq [Start; lit "NetBSD "; digits 1; lit "."; digits 2].
Definition re_opensuse : rx := rx_seq [Start; Group 1 (Or (lit "openSUSE") (Or (lit "SuSE Linux") (lit "SUSE LINUX"))); lit " "].
Definition re_sles : rx := rx_seq [Start; lit "SUSE "; Group 1 (Or (lit "Linux") (lit "LINUX")); lit " Enterprise "].
Definition re_nld : rx := rx_seq [Start; lit "Novell Linux Desktop "].
Definition re_opensuse_version : rx := rx_seq [Start; lit "VERSION = "; digits 1; lit "."; digits 2].
Definition re_sles_version : rx := rx_seq [Start; lit "VERSION = "; digits 1].
Definition re_sles_patchlevel : rx := rx_seq [Start; lit "PATCHLEVEL = "; digits 1].
Definition re_minix : rx := rx_seq [Start; digits 1; lit "."; digits 2; Maybe (Group 3 (Seq (lit ".") (digits 4)))].
Definition re_hurd_dev : rx := rx_seq [Start; lit "/dev/"; Group 1 (lit "h"); lit "d"; digits 2; lit "s"; digits 3; End].

Definition str_from (n : nat) (s : string) : string := String.substring n (String.length s - n) s.
(** Without the last character; the length is computed in size_t, and a length
    of -1, of an empty string, copies it all. *)
Definition str_init (s : string) : string := String.substring 0 (String.length s - 1) s.
Definition quot : string := String (chr 34) "".
Definition set_distro (d : inspect_os_distro) : im unit := set_fs (fun fs => fs <| distro := d |>).
Definition set_type (t : inspect_os_type) : im unit := set_fs (fun fs => fs <| fs_type := t |>).

(** ** UUIDs of arrays *)

Record md_uuid := mk_md_uuid { mu_uuid : list Z; mu_path : string }.
Record mdadm_app := mk_mdadm_app { ma_mdadm : string; ma_app : string }.

Definition hex_digit (c : ascii) : option Z :=
  if in_range c 48 57 then Some (code c - 48)
  else if in_range c 97 102 then Some (10 + code c - 97)
  else if in_range c 65 70 then Some (10 + code c - 65)
  else None.
Fixpoint parse_uuid_loop (str : string) (hit : nat) (uuid : list Z) : option (list Z) :=
  match str with
  | EmptyString => if (hit =? 32)%nat then Some uuid else None
  | String c str' =>
      match hex_digit c with
      | Some n =>
          parse_uuid_loop str' (S hit)
            (if (hit <? 32)%nat then alter (fun w => u32 (u32 (Z.shiftl w 4) + n)) (hit / 8)%nat uuid else uuid)
      | None => if existsb (Ascii.eqb c) (String.list_ascii_of_string ":. -") then parse_uuid_loop str' hit uuid else None
      end
  end.
(** [None]: -1. *)
Definition parse_uuid (str : string) : option (list Z) := parse_uuid_loop str 0 [0; 0; 0; 0].

Definition uuid_hash (uuid : list Z) (table_size : Z) : Z := foldl Z.lxor (nth 0 uuid 0) (drop 1 uuid) mod table_size.
Definition uuid_cmp (a b : list Z) : bool := nth 0 a 0 =? nth 0 b 0.

(** Tables of gnulib as lists of their entries, oldest first: an entry is found
    when it is in the bucket of the key and the comparison function says that
    they are equal.  [buckets]: the number of buckets of a table with so many
    entries. *)
Section md_tables.
Context (buckets : nat -> Z).
Definition md_lookup (uuid : list Z) (t : list md_uuid) : option md_uuid :=
  let n := buckets (length t) in
  List.find (fun e => (uuid_hash (mu_uuid e) n =? uuid_hash uuid n) && uuid_cmp (mu_uuid e) uuid) t.
End md_tables.
Definition mdadm_lookup (mdadm : string) (t : list mdadm_app) : option mdadm_app := List.find (fun e => STREQ (ma_mdadm e) mdadm) t.

Section unix.
Context (A : guest_api) (buckets : nat -> Z).

(** * Releases *)

Definition parse_release_file (release_filename : string) : im Z :=
  r <- guestfs___first_line_of_file A release_filename ;;
  set_fs (fun fs => fs <| product_name := r |>) ;;;
  match r with
  | None => ret (-1)
  | Some name =>
      if STREQ name "" then
        set_fs (fun fs => fs <| product_name := None |>) ;;;
        error ("release file " +:+ release_filename +:+ " is empty or malformed") ;;;
        ret (-1)
      else ret 0
  end.

(** One line of /etc/lsb-release: -1, or whether it says what the distribution is. *)
Definition lsb_ids : list (string * inspect_os_distro) :=
  [("DISTRIB_ID=Ubuntu", OS_DISTRO_UBUNTU); ("DISTRIB_ID=LinuxMint", OS_DISTRO_LINUX_MINT);
   ("DISTRIB_ID=MandrivaLinux", OS_DISTRO_MANDRIVA); ("DISTRIB_ID=" +:+ quot +:+ "Mageia" +:+ quot, OS_DISTRO_MAGEIA)].
Definition lsb_line (line : string) : im Z :=
  fs <- get_fs ;;
  match (if bool_decide (distro fs = OS_DISTRO_UNKNOWN) then List.find (fun x => STREQ line (fst x)) lsb_ids else None) with
  | Some (_, d) => set_distro d ;;; ret 1
  | None =>
      if STRPREFIX line "DISTRIB_RELEASE=" then
        match guestfs___match2 (str_from 16 line) re_major_minor with
        | Some (major, minor) => set_versions major minor
        | None => ret 0
        end
      else
        match product_name fs with
        | Some _ => ret 0
        | None =>
            if STRPREFIX line ("DISTRIB_DESCRIPTION=" +:+ quot) || STRPREFIX line "DISTRIB_DESCRIPTION='" then
              set_fs (fun fs => fs <| product_name := Some (str_init (str_from 21 line)) |>) ;;; ret 1
            else if STRPREFIX line "DISTRIB_DESCRIPTION=" then
              set_fs (fun fs => fs <| product_name := Some (str_from 20 line) |>) ;;; ret 1
            else ret 0
        end
  end.
Fixpoint lsb_loop (lines : list string) (r : Z) : im Z :=
  match lines with
  | [] => ret r
  | line :: lines' =>
      x <- lsb_line line ;;
      if x =? -1 then ret (-1) else lsb_loop lines' (if x =? 1 then 1 else r)
  end.
Definition parse_lsb_release : im Z :=
  let filename := "/etc/lsb-release" in
  ok <- small_enough A filename MAX_SMALL_FILE_SIZE ;;
  if negb ok then ret (-1)
  else
    r <- call (api_strs A) "head_n" ["10"; filename] ;;
    match r with
    | None => ret (-1)
    | Some lines => lsb_loop lines 0
    end.

(** A version that one expression finds in a line; [None]: there is no line or no match. *)
Definition version_in (line : option string) (re : rx) : option string := line ≫= fun line => guestfs___match1 line re.
Definition suse_versions (l1 l2 : option string) : im Z :=
  match version_in l1 re_sles_version with
  | None => ret (-1)
  | Some major =>
      v <- guestfs___parse_unsigned_int major ;;
      set_fs (fun fs => fs <| major_version := v |>) ;;;
      if v =? -1 then ret (-1)
      else
        match version_in l2 re_sles_patchlevel with
        | None => ret (-1)
        | Some minor =>
            v <- guestfs___parse_unsigned_int minor ;;
            set_fs (fun fs => fs <| minor_version := v |>) ;;;
            if v =? -1 then ret (-1) else ret 0
        end
  end.
Definition opensuse_versions (l1 : option string) : im Z :=
  match l1 with
  | None => ret (-1)
  | Some l1 =>
      match guestfs___match2 l1 re_opensuse_version with
      | None => ret 0
      | Some (major, minor) =>
          v <- guestfs___parse_unsigned_int (default "" major) ;;
          set_fs (fun fs => fs <| major_version := v |>) ;;;
          v' <- guestfs___parse_unsigned_int (default "" minor) ;;
          set_fs (fun fs => fs <| minor_version := v' |>) ;;;
          if (v =? -1) || (v' =? -1) then ret (-1) else ret 0
      end
  end.
Definition parse_suse_release (filename : string) : im Z :=
  ok <- small_enough A filename MAX_SMALL_FILE_SIZE ;;
  if negb ok then ret (-1)
  else
    r <- call (api_strs A) "head_n" ["10"; filename] ;;
    match r with
    | None | Some [] => ret (-1)
    | Some (line :: lines) =>
        set_fs (fun fs => fs <| product_name := Some line |>) ;;;
        if guestfs___match line re_sles || guestfs___match line re_nld then
          set_distro OS_DISTRO_SLES ;;; suse_versions (lines !! 0%nat) (lines !! 1%nat)
        else if guestfs___match line re_opensuse then
          set_distro OS_DISTRO_OPENSUSE ;;; opensuse_versions (lines !! 0%nat)
        else ret 0
    end.

(** The expressions of one distribution of the Red Hat family; [None]: no match. *)
Definition match_release (name : string) (d : inspect_os_distro) : im (option Z) :=
  fs <- get_fs ;;
  let product := default "" (product_name fs) in
  match (match guestfs___match2 product (re_old name) with Some m => Some m | None => guestfs___match2 product (re_new name) end) with
  | Some (major, minor) => set_distro d ;;; r <- set_versions major minor ;; ret (Some r)
  | None =>
      match guestfs___match1 product (re_no_minor name) with
      | None => ret None
      | Some major =>
          set_distro d ;;;
          v <- guestfs___parse_unsigned_int major ;;
          set_fs (fun fs => fs <| major_version := v |>) ;;;
          if v =? -1 then ret (Some (-1))
          else set_fs (fun fs => fs <| minor_version := 0 |>) ;;; ret (Some 0)
      end
  end.
Fixpoint match_releases (l : list (string * inspect_os_distro)) : im Z :=
  match l with
  | [] => ret 0
  | (name, d) :: l' => r <- match_release name d ;; match r with Some r => ret r | None => match_releases l' end
  end.

Definition oracle_release : im Z :=
  set_distro OS_DISTRO_ORACLE_LINUX ;;;
  r <- parse_release_file "/etc/oracle-release" ;;
  if r =? -1 then ret (-1) else match_releases [("Oracle Linux", OS_DISTRO_ORACLE_LINUX)].
Definition redhat_release : im Z :=
  set_distro OS_DISTRO_REDHAT_BASED ;;;
  r <- parse_release_file "/etc/redhat-release" ;;
  if r =? -1 then ret (-1)
  else
    fs <- get_fs ;;
    match guestfs___match1 (default "" (product_name fs)) re_fedora with
    | Some major =>
        set_distro OS_DISTRO_FEDORA ;;;
        v <- guestfs___parse_unsigned_int major ;;
        set_fs (fun fs => fs <| major_version := v |>) ;;;
        if v =? -1 then ret (-1) else ret 0
    | None =>
        match_releases [("Red Hat", OS_DISTRO_RHEL); ("CentOS", OS_DISTRO_CENTOS); ("Scientific Linux", OS_DISTRO_SCIENTIFIC_LINUX)]
    end.
(** The version is somewhere in the first line. *)
Definition simple_release (d : inspect_os_distro) (file : string) : im Z :=
  set_distro d ;;;
  r <- parse_release_file file ;;
  if r =? -1 then ret (-1) else guestfs___parse_major_minor.
Definition br_release : im Z :=
  r <- is_file_follow A "/usr/share/cirros/logo" ;;
  simple_release (if 0 <? r then OS_DISTRO_CIRROS else OS_DISTRO_BUILDROOT) "/etc/br-version".

(** The first file that is there decides. *)
Definition release_files : list (string * im Z) :=
  [("/etc/oracle-release", oracle_release);
   ("/etc/redhat-release", redhat_release);
   ("/etc/debian_version", simple_release OS_DISTRO_DEBIAN "/etc/debian_version");
   ("/etc/pardus-release", simple_release OS_DISTRO_PARDUS "/etc/pardus-release");
   ("/etc/arch-release", set_distro OS_DISTRO_ARCHLINUX ;;; ret 0);
   ("/etc/gentoo-release", simple_release OS_DISTRO_GENTOO "/etc/gentoo-release");
   ("/etc/meego-release", simple_release OS_DISTRO_MEEGO "/etc/meego-release");
   ("/etc/slackware-version", simple_release OS_DISTRO_SLACKWARE "/etc/slackware-version");
   ("/etc/ttylinux-target", simple_release OS_DISTRO_TTYLINUX "/etc/ttylinux-target");
   ("/etc/SuSE-release", set_distro OS_DISTRO_SUSE_BASED ;;; parse_suse_release "/etc/SuSE-release");
   ("/etc/cirros/version", simple_release OS_DISTRO_CIRROS "/etc/cirros/version");
   ("/etc/br-version", br_release)].
Fixpoint first_release (l : list (string * im Z)) : im Z :=
  match l with
  | [] => ret 0
  | (file, m) :: l' => r <- is_file_follow A file ;; if 0 <? r then m else first_release l'
  end.

(** * Architecture and host name *)

Fixpoint arch_loop (binaries : list string) : im unit :=
  match binaries with
  | [] => ret tt
  | b :: binaries' =>
      r <- is_file A b ;;
      if 0 <? r then
        a <- silently (call (api_str A) "file_architecture" [b]) ;;
        match a with
        | Some a => set_fs (fun fs => fs <| arch := Some a |>)
        | None => arch_loop binaries'
        end
      else arch_loop binaries'
  end.
Definition check_architecture : im unit := arch_loop ["/bin/bash"; "/bin/ls"; "/bin/echo"; "/bin/rm"; "/bin/sh"].

(** fs->hostname from the first line of a file; an empty line is no name. *)
Definition hostname_from (file : string) : im Z :=
  r <- guestfs___first_line_of_file A file ;;
  set_fs (fun fs => fs <| hostname := match r with Some n => if STREQ n "" then None else Some n | None => None end |>) ;;;
  ret (match r with None => -1 | Some _ => 0 end).
Definition no_hostname : im bool := gets (fun s => match last (i_fses s) with Some fs => bool_decide (hostname fs = None) | None => true end).
(** if (guestfs_is_file (g, file)): an error counts as true. *)
Definition is_file_or_error (file : string) : im bool := r <- is_file A file ;; ret (is_true r).

Fixpoint augeas_sizes (configfiles : list string) : im bool :=
  match configfiles with
  | [] => ret true
  | f :: configfiles' =>
      r <- is_file_follow A f ;;
      if r =? 0 then augeas_sizes configfiles'
      else ok <- small_enough A f MAX_AUGEAS_FILE_SIZE ;; if ok : bool then augeas_sizes configfiles' else ret false
  end.
Definition make_augeas_path_expression (configfiles : list string) : string :=
  let subexprs := (fun f => quot +:+ f +:+ "/" +:+ quot +:+ " !~ regexp('^') + glob(incl) + regexp('/.*')") <$> configfiles in
  "/augeas/load/*[ " +:+ guestfs___join_strings " and " subexprs +:+ " ]".
Definition inspect_with_augeas (configfiles : list string) (f : im Z) : im Z :=
  ok <- augeas_sizes configfiles ;;
  if negb ok then ret (-1)
  else
    r <- call_int (api_int A) "aug_init" ["/"; "48"] ;;
    if r =? -1 then ret (-1)
    else
      let pathexpr := make_augeas_path_expression configfiles in
      debug ("augeas pathexpr = " +:+ pathexpr) ;;;
      r <- call_int (api_int A) "aug_rm" [pathexpr] ;;
      r <- (if r =? -1 then ret (-1)
            else r <- call_int (api_int A) "aug_load" [] ;; if r =? -1 then ret (-1) else f) ;;
      call_int (api_int A) "aug_close" [] ;;;
      ret r.

Definition check_hostname_redhat : im Z :=
  r <- silently (call (api_str A) "aug_get" ["/files/etc/sysconfig/network/HOSTNAME"]) ;;
  set_fs (fun fs => fs <| hostname := r |>) ;;;
  ret 0.

Definition rc_conf_hostname (line : string) : option string :=
  if STRPREFIX line ("hostname=" +:+ quot) || STRPREFIX line "hostname='" then Some (str_init (str_from 10 line))
  else if STRPREFIX line "hostname=" then Some (str_from 9 line)
  else None.
Fixpoint rc_conf_loop (lines : list string) : im Z :=
  match lines with
  | [] => ret 0
  | line :: lines' =>
      match rc_conf_hostname line with
      | Some h => set_fs (fun fs => fs <| hostname := Some h |>) ;;; ret 0
      | None => rc_conf_loop lines'
      end
  end.
Definition check_hostname_freebsd : im Z :=
  let filename := "/etc/rc.conf" in
  ok <- small_enough A filename MAX_SMALL_FILE_SIZE ;;
  if negb ok then ret (-1)
  else
    r <- call (api_strs A) "read_lines" [filename] ;;
    match r with
    | None => ret (-1)
    | Some lines => rc_conf_loop lines
    end.

Definition hostname_linux : im Z :=
  b <- is_file_or_error "/etc/HOSTNAME" ;;
  r <- (if b : bool then hostname_from "/etc/HOSTNAME" else ret 0) ;;
  if r =? -1 then ret (-1)
  else
    b <- and_m no_hostname (is_file_or_error "/etc/hostname") ;;
    r <- (if b : bool then hostname_from "/etc/hostname" else ret 0) ;;
    if r =? -1 then ret (-1)
    else
      b <- and_m no_hostname (is_file_or_error "/etc/sysconfig/network") ;;
      if b : bool then
        r <- inspect_with_augeas ["/etc/sysconfig/network"] check_hostname_redhat ;; ret (if r =? -1 then -1 else 0)
      else ret 0.
Definition check_hostname_unix : im Z :=
  fs <- get_fs ;;
  match fs_type fs with
  | OS_TYPE_LINUX | OS_TYPE_HURD => hostname_linux
  | OS_TYPE_FREEBSD | OS_TYPE_NETBSD =>
      b <- is_file_or_error "/etc/rc.conf" ;;
      if b : bool then r <- check_hostname_freebsd ;; ret (if r =? -1 then -1 else 0) else ret 0
  | OS_TYPE_MINIX =>
      b <- is_file_or_error "/etc/hostname.file" ;;
      if b : bool then r <- hostname_from "/etc/hostname.file" ;; ret (if r =? -1 then -1 else 0) else ret 0
  | OS_TYPE_WINDOWS | OS_TYPE_DOS | OS_TYPE_OPENBSD | OS_TYPE_UNKNOWN => ret 0
  end.

(** * Devices of the guest *)

Definition is_partition (partition : string) : im bool :=
  silently (
    d <- call (api_str A) "part_to_dev" [partition] ;;
    match d with
    | None => ret false
    | Some device => r <- call_int (api_int A) "device_index" [device] ;; ret (negb (r =? -1))
    end).

(** ITER_DRIVES: the index of the first drive with this name. *)
Fixpoint find_hint (name : string) (drives : list (option drive)) (i : nat) : option nat :=
  match drives with
  | [] => None
  | d :: drives' =>
      if bool_decide ((d ≫= drv_name) = Some name) then Some i else find_hint name drives' (S i)
  end.
Definition hint (name : string) : im (option nat) := gets (fun s => find_hint name (g_drives (i_g s)) 0).
(** devices[i], which is outside of the list when there are fewer devices than drives. *)
Definition device_at (devices : list string) (i : nat) : im string :=
  match devices !! i with Some d => ret d | None => halt Undefined end.
(** *device_ret; [None] when the partition is not there. *)
Definition partition_of (device part : string) : im (option string) :=
  b <- is_partition (device +:+ part) ;; ret (if b : bool then Some (device +:+ part) else None).

(** The index of a disk, in size_t. *)
Fixpoint disk_index_loop (i : Z) (p : string) : Z :=
  match p with EmptyString => i | String c p' => disk_index_loop (u64 (u64 (u64 (i + 1) * 26) + (code c - 97))) p' end.
Definition disk_index (disk : string) : Z :=
  match disk with EmptyString => u64 (- 97) | String c p => disk_index_loop (u64 (code c - 97)) p end.

(** [None]: -1; otherwise *device_ret. *)
Definition resolve_fstab_device_xdev (type disk part : string) : im (option (option string)) :=
  r <- call (api_strs A) "list_devices" [] ;;
  match r with
  | None => ret None
  | Some devices =>
      h <- hint (type +:+ "d" +:+ disk) ;;
      match h with
      | Some i => d <- device_at devices i ;; r <- partition_of d part ;; ret (Some r)
      | None =>
          let i := disk_index disk in
          if i <? Z.of_nat (length devices) then
            d <- device_at devices (Z.to_nat i) ;; r <- partition_of d part ;; ret (Some r)
          else ret (Some None)
      end
  end.
Definition resolve_fstab_device_cciss (disk : string) (part : option string) : im (option (option string)) :=
  r <- call (api_strs A) "list_devices" [] ;;
  match r with
  | None => ret None
  | Some devices =>
      h <- hint disk ;;
      match h with
      | Some i =>
          d <- device_at devices i ;;
          match part with
          | Some part => r <- partition_of d part ;; ret (Some r)
          | None => ret (Some (Some d))
          end
      | None => ret (Some None)
      end
  end.
Definition resolve_fstab_device_diskbyid (part : string) : im (option (option string)) :=
  nr_devices <- call_int (api_int A) "nr_devices" [] ;;
  if nr_devices =? -1 then ret None
  else if negb (nr_devices =? 1) then ret (Some None)
  else r <- partition_of "/dev/sda" part ;; ret (Some r).

(** "/dev/sd%c%d"; a character that is NUL ends the string. *)
Definition sd_name (disk_i part_i : Z) : string :=
  cstr (bytes_of_string ("/dev/sd" +:+ String (chr (disk_i + 97)) (pretty part_i))).
Definition freebsd_gpt (disk part : string) : im (option (option string)) :=
  disk_i <- guestfs___parse_unsigned_int disk ;;
  part_i <- guestfs___parse_unsigned_int part ;;
  ret (Some (if negb (disk_i =? -1) && (disk_i <=? 26) && (0 <? part_i) && (part_i <=? 128)
             then Some (sd_name disk_i part_i) else None)).
Definition freebsd_mbr (disk slice part : string) : im (option (option string)) :=
  disk_i <- guestfs___parse_unsigned_int disk ;;
  slice_i <- guestfs___parse_unsigned_int slice ;;
  let part_i := match part with String c _ => code c - 97 | EmptyString => - 97 end in
  ret (Some (if negb (disk_i =? -1) && (disk_i <=? 26) && (0 <? slice_i) && (slice_i <=? 1) && (0 <=? part_i) && (part_i <? 26)
             then Some (sd_name disk_i (part_i + 5)) else None)).
Definition hurd_dev (type disk part : string) : im (option (option string)) :=
  disk_i <- guestfs___parse_unsigned_int disk ;;
  resolve_fstab_device_xdev type (cstr (bytes_of_string (String (chr (disk_i + 97)) ""))) part.

(** The pattern that the name matches; [None]: the function returns NULL. *)
Definition resolve_pattern (spec : string) (md_map : option (list mdadm_app)) : im (option (option string)) :=
  match guestfs___match3 spec re_xdev with
  | Some (type, disk, part) => resolve_fstab_device_xdev (default "" type) (default "" disk) (default "" part)
  | None =>
  match guestfs___match2 spec re_cciss with
  | Some (disk, part) => resolve_fstab_device_cciss (default "" disk) part
  | None =>
  match (md_map ≫= fun m => pair m <$> guestfs___match1 spec re_mdN) with
  | Some (m, disk) => ret (Some (ma_app <$> mdadm_lookup disk m))
  | None =>
  match guestfs___match3 spec re_freebsd_gpt with
  | Some (_, disk, part) => freebsd_gpt (default "" disk) (default "" part)
  | None =>
  match guestfs___match4 spec re_freebsd_mbr with
  | Some (_, disk, slice, part) => freebsd_mbr (default "" disk) (default "" slice) (default "" part)
  | None =>
  match guestfs___match1 spec re_diskbyid with
  | Some part => resolve_fstab_device_diskbyid part
  | None =>
  match guestfs___match3 spec re_hurd_dev with
  | Some (type, disk, part) => hurd_dev (default "" type) (default "" disk) (default "" part)
  | None => ret (Some None)
  end end end end end end end.
Definition resolve_fstab_device (spec : string) (md_map : option (list mdadm_app)) : im (option string) :=
  b <- (if STRPREFIX spec "/dev/mapper/" then positive (call_int (api_int A) "exists" [spec]) else ret false) ;;
  r <- (if b : bool then r <- call (api_str A) "lvm_canonical_lv_name" [spec] ;; ret (Some r)
        else resolve_pattern spec md_map) ;;
  ret (match r with None => None | Some device => Some (default spec device) end).

(** * /etc/fstab *)

(** The value of uuid in the list of keys and values. *)
Fixpoint find_uuid (detail : list string) : im (option string) :=
  match detail with
  | [] => ret None
  | [_] => halt Undefined
  | k :: v :: detail' => if STREQ k "uuid" then ret (Some v) else find_uuid detail'
  end.
Fixpoint app_md_loop (mds : list string) (map : list md_uuid) : im (option (list md_uuid)) :=
  match mds with
  | [] => ret (Some map)
  | md :: mds' =>
      detail <- call (api_strs A) "md_detail" [md] ;;
      match detail with
      | None => ret None
      | Some detail =>
          u <- find_uuid detail ;;
          match u with
          | None => app_md_loop mds' map
          | Some u =>
              match parse_uuid u with
              | None =>
                  debug ("inspect-os: guestfs_md_detail returned invalid uuid for " +:+ md +:+ ": " +:+ u) ;;;
                  app_md_loop mds' map
              | Some uuid =>
                  match md_lookup buckets uuid map with
                  | Some matched =>
                      debug ("inspect-os: md devices " +:+ mu_path matched +:+ " and " +:+ md +:+ " have the same uuid") ;;;
                      app_md_loop mds' map
                  | None => app_md_loop mds' (map ++ [mk_md_uuid uuid md])
                  end
              end
          end
      end
  end.
Definition map_app_md_devices : im (option (list md_uuid)) :=
  mds <- call (api_strs A) "list_md_devices" [] ;;
  match mds with
  | None => ret None
  | Some mds => app_md_loop mds []
  end.

(** [None]: the label error, where the map is freed. *)
Fixpoint mdadm_loop (app_map : list md_uuid) (matches : list string) (map : list mdadm_app) : im (option (list mdadm_app)) :=
  match matches with
  | [] => ret (Some map)
  | m :: matches' =>
      dev <- call (api_str A) "aug_get" [m +:+ "/devicename"] ;;
      match dev with
      | None => ret None
      | Some dev =>
          uuid <- call (api_str A) "aug_get" [m +:+ "/uuid"] ;;
          match uuid with
          | None => mdadm_loop app_map matches' map
          | Some u =>
              match parse_uuid u with
              | None =>
                  debug ("inspect-os: mdadm.conf contains invalid uuid for " +:+ dev +:+ ": " +:+ u) ;;;
                  mdadm_loop app_map matches' map
              | Some uuid =>
                  match md_lookup buckets uuid app_map with
                  | None => mdadm_loop app_map matches' map
                  | Some app =>
                      match mdadm_lookup dev map with
                      | Some _ =>
                          debug ("inspect-os: mdadm.conf contains multiple entries for " +:+ mu_path app) ;;;
                          mdadm_loop app_map matches' map
                      | None => mdadm_loop app_map matches' (map ++ [mk_mdadm_app dev (mu_path app)])
                      end
                  end
              end
          end
      end
  end.
(** [inl freed]: -1, and whether *map still points to the table that was freed. *)
Definition map_md_devices : im (bool + option (list mdadm_app)) :=
  app_map <- map_app_md_devices ;;
  match app_map with
  | None => ret (inl false)
  | Some [] => ret (inr None)
  | Some app_map =>
      matches <- call (api_strs A) "aug_match" ["/files/etc/mdadm.conf/array"] ;;
      match matches with
      | None => ret (inl false)
      | Some [] =>
          debug "Appliance has MD devices, but augeas returned no array matches in mdadm.conf" ;;;
          ret (inr None)
      | Some matches =>
          r <- mdadm_loop app_map matches [] ;;
          match r with
          | None => ret (inl true)
          | Some map => ret (inr (Some map))
          end
      end
  end.

Definition add_fstab_entry (mountable mountpoint : string) : im Z :=
  set_fs (fun fs => fs <| fstab ::= fun l => l ++ [mk_fstab_entry mountable mountpoint] |>) ;;;
  debug ("fstab: mountable=" +:+ mountable +:+ " mountpoint=" +:+ mountpoint) ;;;
  ret 0.

(** Floppy disks and CD-ROM drives. *)
Definition ignored_spec (spec : string) : bool :=
  (STRPREFIX spec "/dev/fd" && match String.get 7 spec with Some c => c_isdigit c | None => false end) ||
  STREQ spec "/dev/floppy" || STREQ spec "/dev/cdrom" || STRPREFIX spec "/dev/iso9660/".
Definition ignored_mountpoint (mp : string) : bool :=
  STRPREFIX mp "/dev/" || STREQ mp "/dev" || STRPREFIX mp "/media/" || STRPREFIX mp "/proc/" || STREQ mp "/proc" ||
  STRPREFIX mp "/selinux/" || STREQ mp "/selinux" || STRPREFIX mp "/sys/" || STREQ mp "/sys".

Definition aug_get (augpath : string) : im (option string) := call (api_str A) "aug_get" [augpath].
Definition augpath (s : string) : string := snprintf 256 s.

(** The options of a btrfs file system; [augpath], the buffer, still holds the
    path of all the options, or that of the last subvol. *)
Fixpoint btrfs_opts (opts : list string) (path mountable : string) : im (option string) :=
  match opts with
  | [] => ret (Some mountable)
  | opt :: opts' =>
      optname <- aug_get path ;;
      match optname with
      | None => ret None
      | Some optname =>
          if STREQ optname "subvol" then
            let path := augpath (opt +:+ "/value") in
            subvol <- aug_get path ;;
            match subvol with
            | None => ret None
            | Some subvol => btrfs_opts opts' path ("btrfsvol:" +:+ mountable +:+ "/" +:+ subvol)
            end
          else btrfs_opts opts' path mountable
      end
  end.

(** The device of an entry; [None]: it is ignored. *)
Definition fstab_device (spec : string) (md_map : option (list mdadm_app)) : im (option string) :=
  if STRPREFIX spec "UUID=" then call (api_str A) "findfs_uuid" [str_from 5 spec]
  else if STRPREFIX spec "LABEL=" then call (api_str A) "findfs_label" [str_from 6 spec]
  else if STREQ spec "/dev/root" then fs <- get_fs ;; ret (Some (mountable fs))
  else if STRPREFIX spec "/dev/" then resolve_fstab_device spec md_map
  else ret None.

(** What is done with the device of an entry: -1 or 0. *)
Definition fstab_mount (entry mp mountable : string) : im Z :=
  vfstype <- aug_get (augpath (entry +:+ "/vfstype")) ;;
  match vfstype with
  | None => ret (-1)
  | Some vfstype =>
      if STREQ vfstype "btrfs" then
        opts <- call (api_strs A) "aug_match" [augpath (entry +:+ "/opt")] ;;
        match opts with
        | None => ret (-1)
        | Some opts =>
            m <- btrfs_opts opts (augpath (entry +:+ "/opt")) mountable ;;
            match m with
            | None => ret (-1)
            | Some m => add_fstab_entry m mp
            end
        end
      else add_fstab_entry mountable mp
  end.
Definition fstab_entry (entry : string) (md_map : option (list mdadm_app)) : im Z :=
  spec <- aug_get (augpath (entry +:+ "/spec")) ;;
  match spec with
  | None => ret (-1)
  | Some spec =>
      if ignored_spec spec then ret 0
      else
        mp <- aug_get (augpath (entry +:+ "/file")) ;;
        match mp with
        | None => ret (-1)
        | Some mp =>
            if ignored_mountpoint mp then ret 0
            else
              m <- fstab_device spec md_map ;;
              match m with
              | None => ret 0
              | Some m => fstab_mount entry mp m
              end
        end
  end.
Fixpoint fstab_loop (entries : list string) (md_map : option (list mdadm_app)) : im Z :=
  match entries with
  | [] => ret 0
  | entry :: entries' =>
      r <- fstab_entry entry md_map ;;
      if r =? -1 then ret (-1) else fstab_loop entries' md_map
  end.
Definition check_fstab : im Z :=
  m <- map_md_devices ;;
  match m with
  | inl true => halt Undefined     (* CLEANUP_HASH_FREE frees the table again *)
  | inl false => ret (-1)
  | inr md_map =>
      entries <- call (api_strs A) "aug_match" ["/files/etc/fstab/*[label() != '#comment']"] ;;
      match entries with
      | None => ret (-1)
      | Some entries => fstab_loop entries md_map
      end
  end.

(** * Roots *)

(** The end of the functions below. *)
Definition root_details (configfiles : list string) : im Z :=
  check_architecture ;;;
  r <- (match configfiles with [] => ret 0 | _ => inspect_with_augeas configfiles check_fstab end) ;;
  if r =? -1 then ret (-1)
  else r <- check_hostname_unix ;; ret (if r =? -1 then -1 else 0).

Definition guestfs___check_linux_root : im Z :=
  set_type OS_TYPE_LINUX ;;;
  b <- positive (is_file_follow A "/etc/lsb-release") ;;
  r <- (if b : bool then parse_lsb_release else ret 0) ;;
  if r =? -1 then ret (-1)
  else
    r <- (if r =? 1 then ret 0 else first_release (release_files)) ;;
    if r =? -1 then ret (-1) else root_details ["/etc/fstab"; "/etc/mdadm.conf"].

Definition guestfs___check_freebsd_root : im Z :=
  set_type OS_TYPE_FREEBSD ;;;
  b <- positive (is_file_follow A "/etc/motd") ;;
  r <- (if b : bool then r <- parse_release_file "/etc/motd" ;; if r =? -1 then ret (-1) else guestfs___parse_major_minor
        else ret 0) ;;
  if r =? -1 then ret (-1) else root_details ["/etc/fstab"].

(** The first line of a file that has to be there, with its versions. *)
Definition required_release (file : string) (re : rx) (found : im unit) : im Z :=
  b <- positive (is_file_follow A file) ;;
  if b : bool then
    r <- parse_release_file file ;;
    if r =? -1 then ret (-1)
    else
      fs <- get_fs ;;
      match guestfs___match2 (default "" (product_name fs)) re with
      | Some (major, minor) => found ;;; set_versions major minor
      | None => ret 0
      end
  else ret (-1).
Definition guestfs___check_netbsd_root : im Z :=
  r <- required_release "/etc/release" re_netbsd (set_type OS_TYPE_NETBSD) ;;
  if r =? -1 then ret (-1) else root_details ["/etc/fstab"].

Definition guestfs___check_hurd_root : im Z :=
  set_type OS_TYPE_HURD ;;;
  b <- positive (is_file_follow A "/etc/debian_version") ;;
  r <- (if b : bool then simple_release OS_DISTRO_DEBIAN "/etc/debian_version" else ret 0) ;;
  if r =? -1 then ret (-1)
  else
    check_architecture ;;;
    b <- positive (is_file A "/etc/fstab") ;;
    r <- (if b : bool then inspect_with_augeas ["/etc/fstab"] check_fstab else ret 0) ;;
    if r =? -1 then ret (-1)
    else r <- check_hostname_unix ;; ret (if r =? -1 then -1 else 0).

Definition guestfs___check_minix_root : im Z :=
  set_type OS_TYPE_MINIX ;;;
  r <- required_release "/etc/version" re_minix (ret tt) ;;
  if r =? -1 then ret (-1) else root_details [].

End unix.
