(* ===== verification/InspectCd.v ===== *)
(** Inspection of installation disks: src/inspect-fs-cd.c and the lookup of
    src/osinfo.c. *)

From S2P Require Import Prelude Xdr Protocol Handle Utils Events Conn LibProto Config Lifecycle Drives Command Guestfsd Procs Parted Filesys Btrfs Regex Inspect InspectUnix.
From Stdlib Require Import Ascii.

Open Scope Z_scope.
#[local] Arguments String.append : simpl nomatch.

(** * src/osinfo.c *)

(** An entry of the database; the expressions are those of its XML files. *)
Record osinfo := mk_osinfo {
  re_system_id : option (string -> bool);
  re_volume_id : option (string -> bool);
  re_publisher_id : option (string -> bool);
  re_application_id : option (string -> bool);
  oi_type : inspect_os_type;
  oi_distro : inspect_os_distro;
  oi_product_name : option string;
  oi_major_version : Z;
  oi_minor_version : Z;
  oi_arch : option string;
  oi_is_live_disk : Z
}.
Definition field_matches (re : option (string -> bool)) (v : string) : bool := match re with Some re => re v | None => true end.
Definition osinfo_matches (i : isoinfo) (o : osinfo) : bool :=
  field_matches (re_system_id o) (iso_system_id i) && field_matches (re_volume_id o) (iso_volume_id i) &&
  field_matches (re_publisher_id o) (iso_publisher_id i) && field_matches (re_application_id o) (iso_application_id i).

Section cd.
(** [db]: what read_osinfo_db makes of the database. *)
Context (A : guest_api) (db : failure + list osinfo).

(** [None]: -1; [Some None]: 0. *)
Definition guestfs___osinfo_map (i : isoinfo) : im (option (option osinfo)) :=
  match db with
  | inl (errnum, msg) => on_h (modify (fun g => guestfs___error_errno g errnum msg)) ;;; ret None
  | inr [] => ret (Some None)
  | inr db =>
      match list_find (fun o => osinfo_matches i o = true) db with
      | Some (n, o) => debug ("osinfo: mapped disk to database entry " +:+ pretty n) ;;; ret (Some (Some o))
      | None => debug "osinfo: no mapping found" ;;; ret (Some None)
      end
  end.

(** * src/inspect-fs-cd.c *)

Definition cd_type_flags (cd_type : string) : option (Z * Z) :=
  if STRPREFIX cd_type "dvd/single" || STRPREFIX cd_type "full_cd/single" then Some (0, 0)
  else if STRPREFIX cd_type "dvd" || STRPREFIX cd_type "full_cd" then Some (1, 0)
  else if STRPREFIX cd_type "not_complete" then Some (0, 1)
  else None.
Definition check_debian_installer_root : im Z :=
  r <- guestfs___first_line_of_file A "/.disk/info" ;;
  set_fs (fun fs => fs <| product_name := r |>) ;;;
  match r with
  | None => ret (-1)
  | Some name =>
      set_type OS_TYPE_LINUX ;;;
      (if STRPREFIX name "Ubuntu" then set_distro OS_DISTRO_UBUNTU
       else if STRPREFIX name "Debian" then set_distro OS_DISTRO_DEBIAN else ret tt) ;;;
      guestfs___parse_major_minor ;;;
      b <- positive (is_file A "/.disk/cd_type") ;;
      if b : bool then
        r <- guestfs___first_line_of_file A "/.disk/cd_type" ;;
        match r with
        | None => ret (-1)
        | Some cd_type =>
            match cd_type_flags cd_type with
            | Some (multipart, netinst) =>
                set_fs (fun fs => fs <| is_multipart_disk := multipart |> <| is_netinst_disk := netinst |>)
            | None => ret tt
            end ;;;
            ret 0
        end
      else ret 0
  end.

(** Everything after the equals sign and white space; without one, abort. *)
Fixpoint after_equals (kv : string) : option string :=
  match kv with
  | EmptyString => None
  | String c kv' => if Ascii.eqb c "=" then Some (skip_spaces kv') else after_equals kv'
  end.
Definition find_value (kv : string) : im string :=
  match after_equals kv with Some v => ret v | None => halt AssertFailed end.

(** What is done with the first line that matches, if there is one. *)
Definition egrep_then (file eregex : string) (iflag : bool) (k : string -> im Z) : im Z :=
  r <- guestfs___first_egrep_of_file A file eregex iflag ;;
  match r with
  | None => ret (-1)
  | Some None => ret 0
  | Some (Some str) => k str
  end.
Definition family (eregex : string) (d : inspect_os_distro) : im Z :=
  egrep_then "/.treeinfo" eregex false (fun _ => set_distro d ;;; ret 0).
Definition set_major (v : Z) : im Z :=
  set_fs (fun fs => fs <| major_version := v |>) ;;; ret (if v =? -1 then -1 else 0).
Definition set_minor (v : Z) : im Z :=
  set_fs (fun fs => fs <| minor_version := v |>) ;;; ret (if v =? -1 then -1 else 0).

(** totaldiscs, 0 when it is not given; [None]: -1. *)
Definition treeinfo_number (eregex : string) : im (option Z) :=
  r <- guestfs___first_egrep_of_file A "/.treeinfo" eregex false ;;
  match r with
  | None => ret None
  | Some None => ret (Some 0)
  | Some (Some str) =>
      v <- find_value str ;;
      n <- guestfs___parse_unsigned_int v ;;
      ret (if n =? -1 then None else Some n)
  end.
Definition check_fedora_installer_root : im Z :=
  set_type OS_TYPE_LINUX ;;;
  then_m (family "^family = Fedora$" OS_DISTRO_FEDORA) (
  then_m (family "^family = Red Hat Enterprise Linux$" OS_DISTRO_RHEL) (
  then_m (family "^family = Oracle Linux Server$" OS_DISTRO_ORACLE_LINUX) (
  then_m (egrep_then "/.treeinfo" "^version = [[:digit:]]+" false (fun str =>
    v <- find_value str ;; n <- guestfs___parse_unsigned_int_ignore_trailing v ;; set_major n)) (
  then_m (egrep_then "/.treeinfo" "^arch = [-_[:alnum:]]+$" false (fun str =>
    v <- find_value str ;; set_fs (fun fs => fs <| arch := Some v |>) ;;; ret 0)) (
  discnum <- treeinfo_number "^discnum = [[:digit:]]+$" ;;
  match discnum with
  | None => ret (-1)
  | Some _ =>
      totaldiscs <- treeinfo_number "^totaldiscs = [[:digit:]]+$" ;;
      match totaldiscs with
      | None => ret (-1)
      | Some totaldiscs => set_fs (fun fs => fs <| is_multipart_disk := bool_int (1 <? totaldiscs) |>) ;;; ret 0
      end
  end))))).

(** &str[n] *)
Definition str_at (n : nat) (str : string) : im string :=
  if (n <=? String.length str)%nat then ret (str_from n str) else halt Undefined.
Definition menu_title (name : string) (n : nat) (d : inspect_os_distro) : im Z :=
  egrep_then "/isolinux/isolinux.cfg" ("^menu title Welcome to " +:+ name +:+ "[[:digit:]]+") false (fun str =>
    set_distro d ;;;
    v <- str_at n str ;;
    n <- guestfs___parse_unsigned_int_ignore_trailing v ;;
    set_major n).
Definition check_isolinux_installer_root : im Z :=
  set_type OS_TYPE_LINUX ;;;
  then_m (menu_title "Fedora " 29 OS_DISTRO_FEDORA) (
  then_m (menu_title "Red Hat Enterprise Linux " 47 OS_DISTRO_RHEL) (
  then_m (menu_title "RHEL" 26 OS_DISTRO_RHEL) (
  menu_title "Oracle Linux Server " 42 OS_DISTRO_ORACLE_LINUX))).

(** str without this last character. *)
Definition trim (c : ascii) (str : string) : string :=
  let n := String.length str in
  match String.get (n - 1) str with Some d => if Ascii.eqb d c then str_init str else str | None => str end.
Definition trim_cr (str : string) : string := trim (chr 13) str.
Definition trim_quot (str : string) : string := trim (chr 34) str.

Definition w2k3_version (eregex txtsetup : string) (set : Z -> im Z) : im Z :=
  egrep_then txtsetup eregex true (fun str =>
    v <- find_value (trim_cr str) ;; n <- guestfs___parse_unsigned_int_ignore_trailing v ;; set n).
Definition productname_ere : string := "^productname[[:space:]]*=[[:space:]]*" +:+ quot.
Definition check_w2k3_installer_root (txtsetup : string) : im Z :=
  set_type OS_TYPE_WINDOWS ;;;
  set_distro OS_DISTRO_WINDOWS ;;;
  then_m (egrep_then txtsetup productname_ere true (fun str =>
    v <- find_value (trim_quot (trim_cr str)) ;;
    v <- str_at 1 v ;;
    set_fs (fun fs => fs <| product_name := Some v |>) ;;; ret 0)) (
  then_m (w2k3_version "^majorversion[[:space:]]*=[[:space:]]*[[:digit:]]+" txtsetup set_major) (
  then_m (w2k3_version "^minorversion[[:space:]]*=[[:space:]]*[[:digit:]]+" txtsetup set_minor) (
  egrep_then txtsetup "^defaultpath[[:space:]]*=[[:space:]]*" true (fun str =>
    v <- find_value (trim_cr str) ;;
    set_fs (fun fs => fs <| windows_systemroot := Some v |>) ;;; ret 0)))).

Definition file_there (p : string) : im bool := positive (is_file A p).
Definition installer_kind : im Z :=
  b <- file_there "/.disk/info" ;;
  if b : bool then check_debian_installer_root else
  b <- file_there "/.treeinfo" ;;
  if b : bool then check_fedora_installer_root else
  b <- and_m (file_there "/freedos/freedos.ico") (file_there "/setup.bat") ;;
  if b : bool then
    set_type OS_TYPE_DOS ;;; set_distro OS_DISTRO_FREEDOS ;;;
    set_fs (fun fs => fs <| arch := Some "i386" |>) ;;; ret 0
  else
  b <- file_there "/isolinux/isolinux.cfg" ;;
  if b : bool then check_isolinux_installer_root else
  b <- file_there "/boot/loader.rc" ;;
  if b : bool then set_type OS_TYPE_FREEBSD ;;; ret 0 else
  b <- file_there "/amd64/txtsetup.sif" ;;
  if b : bool then set_fs (fun fs => fs <| arch := Some "x86_64" |>) ;;; check_w2k3_installer_root "/amd64/txtsetup.sif" else
  b <- file_there "/i386/txtsetup.sif" ;;
  if b : bool then set_fs (fun fs => fs <| arch := Some "i386" |>) ;;; check_w2k3_installer_root "/i386/txtsetup.sif"
  else ret 0.
Definition guestfs___check_installer_root : im Z :=
  b <- any_m [file_there "/casper/filesystem.squashfs"; file_there "/live/filesystem.squashfs"; file_there "/mfsroot.gz"] ;;
  (if b : bool then set_fs (fun fs => fs <| is_live_disk := 1 |>) else ret tt) ;;;
  r <- installer_kind ;;
  ret (if r =? -1 then -1 else 0).

Definition fill_from (device : string) (o : osinfo) (fs : inspect_fs) : inspect_fs :=
  fs <| mountable := device |> <| is_root := true |> <| format := OS_FORMAT_INSTALLER |> <| fs_type := oi_type o |>
     <| distro := oi_distro o |> <| product_name := oi_product_name o |> <| major_version := oi_major_version o |>
     <| minor_version := oi_minor_version o |> <| arch := oi_arch o |> <| is_live_disk := oi_is_live_disk o |>.
Definition guestfs___check_installer_iso (device : string) : im Z :=
  i <- silently (call (api_isoinfo A) "isoinfo_device" [device]) ;;
  match i with
  | None => ret 0
  | Some i =>
      r <- guestfs___osinfo_map i ;;
      match r with
      | None => ret (-1)
      | Some None => ret 0
      | Some (Some o) =>
          set_fs (fill_from device o) ;;;
          guestfs___check_package_format ;;;
          guestfs___check_package_management ;;;
          ret 1
      end
  end.

End cd.
