(* ===== verification/InspectWin.v ===== *)
(** Inspection of Windows roots: src/inspect-fs-windows.c. *)

From S2P Require Import Prelude Xdr Protocol Handle Utils Events Conn LibProto Config Lifecycle Drives Command Guestfsd Procs Parted Filesys Btrfs Regex Inspect InspectUnix.
From Stdlib Require Import Ascii.

Open Scope Z_scope.
#[local] Arguments String.append : simpl nomatch.

Definition re_windows_version : rx := rx_seq [Start; digits 1; lit "."; digits 2].
Definition re_boot_ini_os_header : rx := rx_seq [Start; lit "[operating systems]"; Many 0 rx_space; End].
Definition re_boot_ini_os : rx :=
  rx_seq [Start; Group 1 (Or (lit "multi") (lit "scsi")); lit "("; digits 2; lit ")disk("; digits 3; lit ")rdisk("; digits 4;
          lit ")partition("; digits 5; lit ")"; Group 6 (Many 1 (fun c => negb (Ascii.eqb c "="))); lit "="].

(** Little-endian numbers in the registry. *)
Fixpoint le_Z (bs : list byte) : Z := match bs with [] => 0 | b :: bs' => Z_of_byte b + 256 * le_Z bs' end.
(** "%03d" *)
Definition fmt_03d (n : Z) : string :=
  let t := pretty (Z.abs n) in
  let w := if n <? 0 then 2%nat else 3%nat in
  (if n <? 0 then "-" else "") +:+ String.substring 0 (w - String.length t) "000" +:+ t.

(** What iconv answers for an output buffer of so many bytes. *)
Inductive iconv_result := IconvDone (out : string) | IconvTooBig | IconvFailed (errnum : Z).
Record iconv_world := mk_iconv_world {
  ic_open : option Z;                        (* the errno of iconv_open *)
  ic_convert : list byte -> Z -> iconv_result
}.

Section windows.
Context (A : guest_api) (W : iconv_world).

(** * The root directory of Windows *)

Definition is_systemroot (systemroot : string) : im bool :=
  let test f p := r <- f (snprintf 256 (systemroot +:+ p)) ;; ret (is_true r) in
  all_m [test (guestfs___is_dir_nocase A) "/system32"; test (guestfs___is_dir_nocase A) "/system32/config";
         test (guestfs___is_file_nocase A) "/system32/cmd.exe"].

(** A path that may be a root; the generated wrapper refuses NULL, which the
    list of paths ends with. *)
Definition try_systemroot (path : option string) : im (option string) :=
  r <- match path with
       | Some path => guestfs___case_sensitive_path_silently A path
       | None => silently (error "case_sensitive_path: path: parameter cannot be NULL" ;;; ret None)
       end ;;
  match r with
  | None => ret None
  | Some systemroot =>
      b <- is_systemroot systemroot ;;
      if b : bool then debug ("windows %SYSTEMROOT% = " +:+ systemroot) ;;; ret (Some systemroot) else ret None
  end.
Fixpoint try_systemroots (l : list (option string)) : im (option string) :=
  match l with
  | [] => ret None
  | path :: l' => r <- try_systemroot path ;; match r with Some root => ret (Some root) | None => try_systemroots l' end
  end.

Definition slashes (path : string) : string := str_map (fun c => if Ascii.eqb c (chr 92) then "/"%char else c) path.
Fixpoint boot_ini_loop (lines : list string) (found_os : bool) : im (option string) :=
  match lines with
  | [] => ret None
  | line :: lines' =>
      if negb found_os && guestfs___match line re_boot_ini_os_header then boot_ini_loop lines' true
      else
        match guestfs___match6 line re_boot_ini_os with
        | None => boot_ini_loop lines' found_os
        | Some groups =>
            r <- try_systemroot (Some (slashes (default "" (nth 5 groups None)))) ;;
            match r with Some root => ret (Some root) | None => boot_ini_loop lines' found_os end
        end
  end.
Definition guestfs___get_windows_systemroot : im (option string) :=
  r <- try_systemroots [Some "/windows"; Some "/winnt"; Some "/win32"; Some "/win"; None] ;;
  match r with
  | Some root => ret (Some root)
  | None =>
      p <- guestfs___case_sensitive_path_silently A "/boot.ini" ;;
      match p with
      | None => ret None
      | Some boot_ini_path =>
          b <- positive (is_file A boot_ini_path) ;;
          if b : bool then
            lines <- call (api_strs A) "read_lines" [boot_ini_path] ;;
            match lines with
            | None => debug ("error reading " +:+ boot_ini_path) ;;; ret None
            | Some lines => boot_ini_loop lines false
            end
          else ret None
      end
  end.

(** * The registry *)

(** The retries with a larger buffer, of which there are at most 64: the size
    is doubled until it overflows.  [inl]: NULL, with errno. *)
Fixpoint iconv_loop (fuel : nat) (input : list byte) (outalloc : Z) : im (Z + string) :=
  match ic_convert W input outalloc with
  | IconvDone out => ret (inr out)
  | IconvFailed e => ret (inl e)
  | IconvTooBig =>
      let prev := outalloc in
      let outalloc := u64 (outalloc * 2) in
      if outalloc <? prev then ret (inl 7)
      else match fuel with O => halt OutOfFuel | S fuel' => iconv_loop fuel' input outalloc end
  end.
Definition utf16_to_utf8 (input : list byte) : im (Z + string) :=
  match ic_open W with
  | Some e => ret (inl e)
  | None => iconv_loop 64 input (Z.of_nat (length input))
  end.
Definition guestfs__hivex_value_utf8 (valueh : Z) : im (option string) :=
  buf <- call (api_buf A) "hivex_value_value" [pretty valueh] ;;
  match buf with
  | None => ret None
  | Some buf =>
      r <- utf16_to_utf8 buf ;;
      match r with
      | inl e => perrorf e "hivex: conversion of registry value to UTF8 failed" ;;; ret None
      | inr s => ret (Some s)
      end
  end.

Definition stale_errno : im Z := gets (fun s => api_errno A (i_calls s)).
Definition hivex_open (path : string) : im Z :=
  v <- gets (fun s => verbose (g_cfg (i_g s))) ;;
  call_int (api_int A) "hivex_open" [path; "verbose:" +:+ pretty (bool_int v)].
Definition hivex_root : im Z := call_int (api_int A) "hivex_root" [].
Definition get_child (node : Z) (name : string) : im Z := call_int (api_int A) "hivex_node_get_child" [pretty node; name].
Fixpoint descend (node : Z) (names : list string) : im Z :=
  match names with
  | [] => ret node
  | name :: names' => if 0 <? node then node <- get_child node name ;; descend node names' else ret node
  end.
Definition node_values (node : Z) : im (option (list Z)) := call (api_values A) "hivex_node_values" [pretty node].
Definition value_key (v : Z) : im (option string) := call (api_str A) "hivex_value_key" [pretty v].
(** The file of a hive: [inl r]: return r. *)
Definition hive_path (name : string) : im (Z + string) :=
  fs <- get_fs ;;
  p <- call (api_str A) "case_sensitive_path" [default "" (windows_systemroot fs) +:+ name] ;;
  match p with
  | None => ret (inl (-1))
  | Some p =>
      r <- is_file A p ;;
      ret (if r =? -1 then inl (-1) else if r =? 0 then inl 0 else inr p)
  end.

Definition check_windows_arch : im Z :=
  fs <- get_fs ;;
  p <- call (api_str A) "case_sensitive_path" [default "" (windows_systemroot fs) +:+ "/system32/cmd.exe"] ;;
  match p with
  | None => ret (-1)
  | Some cmd_exe_path =>
      a <- call (api_str A) "file_architecture" [cmd_exe_path] ;;
      match a with
      | Some a => set_fs (fun fs => fs <| arch := Some a |>)
      | None => ret tt
      end ;;;
      ret 0
  end.

(** A value of the software hive: -1 or 0. *)
Definition software_value (value : Z) : im Z :=
  key <- value_key value ;;
  match key with
  | None => ret (-1)
  | Some key =>
      if STRCASEEQ key "ProductName" then
        r <- guestfs__hivex_value_utf8 value ;;
        set_fs (fun fs => fs <| product_name := r |>) ;;;
        ret (match r with None => -1 | Some _ => 0 end)
      else if STRCASEEQ key "CurrentVersion" then
        r <- guestfs__hivex_value_utf8 value ;;
        match r with
        | None => ret (-1)
        | Some version =>
            match guestfs___match2 version re_windows_version with
            | Some (major, minor) => set_versions major minor
            | None => ret 0
            end
        end
      else if STRCASEEQ key "InstallationType" then
        r <- guestfs__hivex_value_utf8 value ;;
        set_fs (fun fs => fs <| product_variant := r |>) ;;;
        ret (match r with None => -1 | Some _ => 0 end)
      else ret 0
  end.
(** for (..) if (f (values[i]) == -1) goto out; *)
Fixpoint each_value (f : Z -> im Z) (values : list Z) : im Z :=
  match values with
  | [] => ret 0
  | v :: values' => then_m (f v) (each_value f values')
  end.
Definition software_values : im Z :=
  node <- hivex_root ;;
  node <- descend node ["Microsoft"; "Windows NT"; "CurrentVersion"] ;;
  if node =? -1 then ret (-1)
  else if node =? 0 then
    e <- stale_errno ;;
    perrorf e "hivex: cannot locate HKLM\SOFTWARE\Microsoft\Windows NT\CurrentVersion" ;;; ret (-1)
  else
    values <- node_values node ;;
    match values with
    | None => halt Undefined       (* values->len *)
    | Some values => each_value software_value values
    end.
Definition check_windows_software_registry : im Z :=
  p <- hive_path "/system32/config/software" ;;
  match p with
  | inl r => ret r
  | inr p =>
      r <- hivex_open p ;;
      if r =? -1 then ret (-1)
      else
        ret' <- software_values ;;
        call_int (api_int A) "hivex_close" [] ;;;
        ret ret'
  end.

(** ** Drive letters *)

Fixpoint find_disk (blob : list byte) (devices : list string) : im (option string) :=
  match devices with
  | [] => ret None
  | d :: devices' =>
      diskid <- call (api_buf A) "pread_device" [d; "4"; "440"] ;;
      match diskid with
      | None => find_disk blob devices'
      | Some diskid =>
          if (length diskid <? 4)%nat then find_disk blob devices'
          else if bool_decide (take 4 diskid = take 4 blob) then ret (Some d)
          else find_disk blob devices'
      end
  end.
Definition map_registry_disk_blob (blob : list byte) : im (option string) :=
  devices <- call (api_strs A) "list_devices" [] ;;
  match devices with
  | None => ret None
  | Some devices =>
      d <- find_disk blob devices ;;
      match d with
      | None => ret None
      | Some d =>
          let part_offset := le_Z (take 8 (drop 4 blob)) in
          partitions <- call (api_partitions A) "part_list" [d] ;;
          match partitions with
          | None => ret None
          | Some partitions =>
              ret (match List.find (fun p => part_start p =? part_offset) partitions with
                   | Some p => Some (d +:+ pretty (part_num p))
                   | None => None
                   end)
          end
      end
  end.

Definition is_dos_device (key : string) : bool :=
  STRCASEEQ (String.substring 0 12 key) "\DosDevices\" &&
  match String.get 12 key, String.get 13 key with Some c, Some d => c_isalpha c && Ascii.eqb d ":" | _, _ => false end.
(** The loop that counts the mappings, to size the array; the second reading of
    the keys is taken to find no more of them. *)
Definition count_key (v : Z) : im Z := key <- value_key v ;; ret (match key with None => -1 | Some _ => 0 end).
Definition drive_mapping (v : Z) : im Z :=
  key <- value_key v ;;
  match key with
  | None => ret (-1)
  | Some key =>
      if is_dos_device key then
        type <- call_int (api_int A) "hivex_value_type" [pretty v] ;;
        blob <- call (api_buf A) "hivex_value_value" [pretty v] ;;
        match blob with
        | Some blob =>
            if (type =? 3) && (length blob =? 12)%nat then
              device <- map_registry_disk_blob blob ;;
              match device with
              | Some device =>
                  set_fs (fun fs => fs <| drive_mappings ::= fun l => Some (default [] l ++ [String.substring 12 1 key; device]) |>)
              | None => ret tt
              end ;;;
              ret 0
            else ret 0
        | None => ret 0
        end
      else ret 0
  end.
Definition drive_letters (root : Z) : im Z :=
  node <- get_child root "MountedDevices" ;;
  if node =? -1 then ret (-1)
  else if node =? 0 then ret 0
  else
    values <- node_values node ;;
    match values with
    | None => halt Undefined       (* values->len *)
    | Some values =>
        then_m (each_value count_key values)
          (set_fs (fun fs => fs <| drive_mappings := Some [] |>) ;;; each_value drive_mapping values)
    end.

Definition current_control_set (root : Z) : im Z :=
  node <- get_child root "Select" ;;
  if node =? -1 then ret (-1)
  else if node =? 0 then error "hivex: could not locate HKLM\SYSTEM\Select" ;;; ret (-1)
  else
    value <- call_int (api_int A) "hivex_node_get_value" [pretty node; "Current"] ;;
    if value =? -1 then ret (-1)
    else if value =? 0 then error "hivex: HKLM\System\Select Default entry not found" ;;; ret (-1)
    else
      buf <- call (api_buf A) "hivex_value_value" [pretty value] ;;
      match buf with
      | None => halt Undefined     (* buflen was not assigned *)
      | Some buf =>
          if negb (length buf =? 4)%nat then error "hivex: HKLM\System\Select\Current expected to be DWORD" ;;; ret (-1)
          else
            set_fs (fun fs => fs <| windows_current_control_set := Some ("ControlSet" +:+ fmt_03d (s32 (le_Z buf))) |>) ;;;
            ret 0
      end.

Definition hostname_value (v : Z) : im Z :=
  key <- value_key v ;;
  match key with
  | None => ret (-1)
  | Some key =>
      if STRCASEEQ key "Hostname" then
        r <- guestfs__hivex_value_utf8 v ;;
        set_fs (fun fs => fs <| hostname := r |>) ;;;
        ret (match r with None => -1 | Some _ => 0 end)
      else ret 0
  end.
Definition windows_hostname (root : Z) : im Z :=
  fs <- get_fs ;;
  let set := default "" (windows_current_control_set fs) in
  node <- descend root [set; "Services"; "Tcpip"; "Parameters"] ;;
  if node =? -1 then ret (-1)
  else if node =? 0 then
    e <- stale_errno ;;
    perrorf e ("hivex: cannot locate HKLM\SYSTEM\" +:+ set +:+ "\Services\Tcpip\Parameters") ;;; ret (-1)
  else
    values <- node_values node ;;
    match values with
    | None => ret (-1)
    | Some values => each_value hostname_value values
    end.
Definition check_windows_system_registry : im Z :=
  p <- hive_path "/system32/config/system" ;;
  match p with
  | inl r => ret r
  | inr p =>
      r <- hivex_open p ;;
      ret' <- (if r =? -1 then ret (-1)
               else
                 root <- hivex_root ;;
                 if root =? 0 then ret (-1)
                 else then_m (current_control_set root) (then_m (drive_letters root) (windows_hostname root))) ;;
      call_int (api_int A) "hivex_close" [] ;;;
      ret ret'
  end.

Definition guestfs___check_windows_root (systemroot : string) : im Z :=
  set_type OS_TYPE_WINDOWS ;;;
  set_distro OS_DISTRO_WINDOWS ;;;
  set_fs (fun fs => fs <| windows_systemroot := Some systemroot |>) ;;;
  then_m check_windows_arch (
  then_m check_windows_software_registry (
  r <- check_windows_system_registry ;; ret (if r =? -1 then -1 else 0))).

End windows.
