(* ===== verification/InspectSafe.v ===== *)
(** What every step of the inspection of a file system does: it asks questions,
    leaves the error handlers of the handle as they were, and changes the entry
    of this file system only, neither its name nor whether it is a root.  When
    it does not return, the guest had given one of the answers that
    [bad_answer] lists, on which the code goes wrong. *)

From S2P Require Import Prelude Xdr Protocol Handle Utils Events Conn LibProto Config Lifecycle Drives Command Guestfsd Procs Parted Filesys Btrfs Regex Inspect InspectUnix InspectCd InspectWin.
From Stdlib Require Import Ascii.

Open Scope Z_scope.
#[local] Arguments String.append : simpl nomatch.

(** * Steps *)

(** The calls that change nothing in the guest; of Augeas and hivex they change
    what the daemon holds in its memory. *)
Definition queries : list string :=
  ["is_file"; "is_dir"; "is_symlink"; "is_file_opts"; "exists"; "case_sensitive_path"; "filesize"; "head_n"; "grep_opts"; "read_lines";
   "file_architecture"; "aug_init"; "aug_rm"; "aug_load"; "aug_close"; "aug_get"; "aug_match"; "part_to_dev"; "part_to_partnum";
   "part_list"; "part_get_mbr_id"; "device_index"; "list_devices"; "list_partitions"; "nr_devices"; "lvm_canonical_lv_name"; "lvs";
   "md_detail"; "list_md_devices"; "list_ldm_volumes"; "list_ldm_partitions"; "findfs_uuid"; "findfs_label"; "hivex_open";
   "hivex_close"; "hivex_root"; "hivex_node_get_child"; "hivex_node_get_value"; "hivex_node_values"; "hivex_value_key";
   "hivex_value_type"; "hivex_value_value"; "pread_device"; "isoinfo_device"; "vfs_type"; "internal_parse_mountable";
   "is_whole_device"; "feature_available"; "btrfs_subvolume_list"].
Definition is_query (c : acall) : bool := match c with Api name _ => existsb (String.eqb name) queries end.

(** Everything of the handle but its messages, last error and output. *)
Definition kept (g : guestfs_h) := (core g, error_cb (g_errs g), error_cb_data (g_errs g), error_cb_stack (g_errs g)).

Definition same_entry (fs fs' : inspect_fs) : Prop := mountable fs' = mountable fs /\ is_root fs' = is_root fs.
Definition fses_step (l l' : list inspect_fs) : Prop :=
  l' = l \/ exists pre fs fs', l = pre ++ [fs] /\ l' = pre ++ [fs'] /\ same_entry fs fs'.

Record step (s s' : inspector) : Prop := {
  step_calls : exists new, i_calls s' = i_calls s ++ new /\ forallb is_query new = true;
  step_kept : kept (i_g s') = kept (i_g s);
  step_fses : fses_step (i_fses s) (i_fses s')
}.

Lemma fses_step_refl l : fses_step l l.
Proof. by left. Qed.
Lemma fses_step_trans l1 l2 l3 : fses_step l1 l2 -> fses_step l2 l3 -> fses_step l1 l3.
Proof.
  intros [->|(pre & fs & fs' & -> & -> & Hm & Hr)]; [done|]. intros [->|(pre2 & fs2 & fs3 & H & -> & Hm2 & Hr2)].
  - right. by exists pre, fs, fs'.
  - right. apply app_inj_tail in H as [<- <-]. exists pre, fs, fs3. unfold same_entry. by rewrite Hm2, Hr2.
Qed.
#[export] Instance step_preorder : PreOrder step.
Proof.
  split.
  - intros s. split; [|done|apply fses_step_refl]. exists []. by rewrite app_nil_r.
  - intros s1 s2 s3 [(n1 & E1 & Q1) K1 F1] [(n2 & E2 & Q2) K2 F2]. split.
    + exists (n1 ++ n2). rewrite E2, E1, app_assoc, forallb_app, Q1, Q2. done.
    + by rewrite K2.
    + by eapply fses_step_trans.
Qed.

(** Where a computation stops an error handler may still be pushed. *)
Definition halted (s s' : inspector) : Prop :=
  (exists new, i_calls s' = i_calls s ++ new /\ forallb is_query new = true) /\ g_drives (i_g s') = g_drives (i_g s).

(** * Answers the code does not expect *)

(** What a pattern starts with. *)
Definition literal_of (eregex : string) : string := fst (strcspn "[" (str_from 1 eregex)).
(** What is done with a line that matches stays inside of the line. *)
Definition usable (eregex line : string) : bool :=
  if STRPREFIX eregex "^menu title " then (String.length (literal_of eregex) <=? String.length line)%nat
  else
    match after_equals line, after_equals (trim_cr line), after_equals (trim_quot (trim_cr line)) with
    | Some _, Some _, v => if STREQ eregex productname_ere then match v with Some v => negb (STREQ v "") | None => false end else true
    | _, _, _ => false
    end.

Definition ends_in (suffix s : string) : bool := STREQ (str_drop (String.length s - String.length suffix) s) suffix.

Section safe.
(** [drives]: the number of drives of the handle. *)
Context (A : guest_api) (drives : nat).

(** A failure of the calls of hivex and of one of Augeas, a value that is larger
    than the memory, fewer devices than drives, a list of keys and values with
    an odd length, and a line that [usable] excludes. *)
Definition bad_answer (h : list acall) (c : acall) : bool :=
  match c with
  | Api name args =>
      if STREQ name "hivex_node_values" then match api_values A h name args with inl _ => true | inr _ => false end
      else if STREQ name "hivex_value_value" then match api_buf A h name args with inl _ => true | inr buf => 2 ^ 64 <=? Z.of_nat (length buf) end
      else if STREQ name "aug_get" then
        match api_str A h name args with inl _ => ends_in "/devicename" (hd "" args) | inr _ => false end
      else if STREQ name "md_detail" then match api_strs A h name args with inl _ => false | inr l => Nat.odd (length l) end
      else if STREQ name "list_devices" then match api_strs A h name args with inl _ => false | inr l => (length l <? drives)%nat end
      else if STREQ name "grep_opts" then
        match api_strs A h name args with inr (line :: _) => negb (usable (hd "" args) line) | _ => false end
      else false
  end.
Definition explained (s : inspector) : Prop :=
  exists h c rest, i_calls s = h ++ c :: rest /\ bad_answer h c = true.

(** * Triples

    [P] is what is known, [Q] what is known of the result, unless a bad answer
    has been given. *)
Definition safeq {R} (P : Prop) (m : im R) (Q : R -> Prop) : Prop := forall s, length (g_drives (i_g s)) = drives ->
  match m s with
  | (Ret a, s') => step s s' /\ (P -> Q a \/ explained s')
  | (Stop _, s') => halted s s' /\ (P -> explained s')
  end.
Definition safe {R} (P : Prop) (m : im R) : Prop := safeq P m (fun _ => True).

Lemma kept_drives g g' : kept g = kept g' -> g_drives g = g_drives g'.
Proof. intros H. exact (f_equal (fun k => g_drives (fst (fst (fst k)))) H). Qed.
Lemma step_halted s s' : step s s' -> halted s s'.
Proof. intros [C K _]. split; [exact C|by apply kept_drives]. Qed.
Lemma halted_trans s1 s2 s3 : halted s1 s2 -> halted s2 s3 -> halted s1 s3.
Proof.
  intros [(n1 & E1 & Q1) D1] [(n2 & E2 & Q2) D2]. split; [|by rewrite D2].
  exists (n1 ++ n2). by rewrite E2, E1, app_assoc, forallb_app, Q1, Q2.
Qed.
Lemma explained_halted s s' : halted s s' -> explained s -> explained s'.
Proof.
  intros [(new & E & _) _] (h & c & rest & Ec & Hb). exists h, c, (rest ++ new). split; [|done].
  by rewrite E, Ec, <- app_assoc.
Qed.

Section rules.
Context {R S : Type}.
Implicit Types (m : im R) (f : R -> im S).
Lemma safeq_bind P m Q f Q' : safeq P m Q -> (forall a, safeq (P /\ Q a) (f a) Q') -> safeq P (bind m f) Q'.
Proof.
  intros Hm Hf s Hn. specialize (Hm s Hn). unfold bind. destruct (m s) as [[a|w] s1]; destruct Hm as [St H]; [|by split].
  assert (length (g_drives (i_g s1)) = drives) as Hn1 by (by rewrite (kept_drives _ _ (step_kept _ _ St))).
  specialize (Hf a s1 Hn1). destruct (f a s1) as [[b|w] s2]; destruct Hf as [St2 H2].
  - split; [by etrans|]. intros HP. destruct (H HP) as [Ha|He]; [auto|]. right. eapply explained_halted; [by apply step_halted|done].
  - split; [eapply halted_trans; [by apply step_halted|done]|]. intros HP. destruct (H HP) as [Ha|He]; [auto|]. by eapply explained_halted.
Qed.
Lemma safe_bind P m f Q' : safe P m -> (forall a, safeq P (f a) Q') -> safeq P (bind m f) Q'.
Proof.
  intros Hm Hf. eapply safeq_bind; [exact Hm|]. intros a s Hn. specialize (Hf a s Hn).
  destruct (f a s) as [[b|w] s2]; destruct Hf as [St H]; split; intuition.
Qed.
Lemma safeq_ret P (a : R) (Q : R -> Prop) : (P -> Q a) -> safeq P (ret a) Q.
Proof. intros H s _. split; [done|]. auto. Qed.
Lemma safe_ret P (a : R) : safe P (ret a).
Proof. by apply safeq_ret. Qed.
Lemma safe_halt P w : ~ P -> safe P (halt (A := R) w).
Proof. intros H s _. split; [by apply step_halted|]. by intros. Qed.
Lemma safe_gets P (f : inspector -> R) : safe P (gets f).
Proof. intros s _. split; [done|]. auto. Qed.
Lemma safe_gets_bind P (f : inspector -> R) (k : R -> im S) : (forall a, safe P (k a)) -> safe P (bind (gets f) k).
Proof. intros H. apply safe_bind; [apply safe_gets|done]. Qed.
Lemma safeq_weaken (P P' : Prop) m (Q Q' : R -> Prop) : safeq P' m Q' -> (P -> P') -> (forall a, Q' a -> Q a) -> safeq P m Q.
Proof.
  intros H HP HQ s Hn. specialize (H s Hn). destruct (m s) as [[a|w] s']; destruct H as [St H]; (split; [done|]); intros p; [|auto].
  destruct (H (HP p)); auto.
Qed.
End rules.

Lemma safe_modify P f : (forall s, step s (f s)) -> safe P (modify f).
Proof. intros H s _. split; [apply H|]. auto. Qed.

(** * The handle and the calls *)

Lemma kept_error_errno g e msg : kept (guestfs___error_errno g e msg) = kept g.
Proof. unfold guestfs___error_errno, call_error_cb. destruct (error_cb _) as [[]|]; by destruct g as [?? []]. Qed.
Lemma kept_perrorf g e msg : kept (guestfs___perrorf g e msg) = kept g.
Proof. unfold guestfs___perrorf, call_error_cb. destruct (error_cb _) as [[]|]; by destruct g as [?? []]. Qed.
Lemma kept_debug g msg : kept (guestfs___debug g msg) = kept g.
Proof.
  unfold kept. rewrite core_debug. unfold guestfs___debug. destruct (negb _); [done|].
  by destruct (message_add_out g GUESTFS_EVENT_LIBRARY (bytes_of_string msg)) as [os ->].
Qed.
Lemma step_g s g : kept g = kept (i_g s) -> step s (s <| i_g := g |>).
Proof. intros H. split; [|done|apply fses_step_refl]. exists []. by rewrite app_nil_r. Qed.
Lemma safe_on_g P f : (forall g, kept (f g) = kept g) -> safe P (on_h (modify f)).
Proof. intros H s _. split; [apply step_g, H|]. auto. Qed.
Lemma safe_error P msg : safe P (error msg).
Proof. apply safe_on_g. intros. apply kept_error_errno. Qed.
Lemma safe_perrorf P e msg : safe P (perrorf e msg).
Proof. apply safe_on_g. intros. apply kept_perrorf. Qed.
Lemma safe_debug P msg : safe P (debug msg).
Proof. apply safe_on_g. intros. apply kept_debug. Qed.

Lemma step_call {R} (f : answers R) name args s :
  existsb (String.eqb name) queries = true -> step s (snd (call f name args s)).
Proof.
  intros Hq. assert (exists new, i_calls s ++ [Api name args] = i_calls s ++ new /\ forallb is_query new = true) as Hc.
  { exists [Api name args]. split; [done|]. by apply andb_true_iff. }
  unfold call. destruct (f _ name args) as [[e msg]|a]; split; [exact Hc|apply kept_error_errno|apply fses_step_refl|exact Hc|done|apply fses_step_refl].
Qed.
(** What the answer was is known afterwards, or it was a bad one. *)
Lemma safeq_call {R} (f : answers R) P name args (Q : option R -> Prop) :
  existsb (String.eqb name) queries = true ->
  (forall h, Q (match f h name args with inr a => Some a | inl _ => None end) \/ bad_answer h (Api name args) = true) ->
  safeq P (call f name args) Q.
Proof.
  intros Hq HQ s _. pose proof (step_call f name args s Hq) as St. destruct (call f name args s) as [r s'] eqn:E. cbn in St.
  assert (exists rest, i_calls s' = i_calls s ++ Api name args :: rest) as Hc.
  { unfold call in E. destruct (f _ _ _) as [[]|]; injection E as <- <-; by exists []. }
  destruct (HQ (i_calls s)) as [H|Hb].
  - unfold call in E. destruct (f _ _ _) as [[]|]; injection E as <- <-; (split; [exact St|]); auto.
  - assert (explained s') by (destruct Hc as [rest Hc]; by exists (i_calls s), (Api name args), rest).
    destruct r; (split; [by apply step_halted || exact St|]); auto.
Qed.
Lemma safe_call {R} (f : answers R) P name args : existsb (String.eqb name) queries = true -> safe P (call f name args).
Proof. intros Hq. apply safeq_call; [done|]. auto. Qed.
Lemma safe_call_int f P name args : existsb (String.eqb name) queries = true -> safe P (call_int f name args).
Proof. intros Hq. apply safe_bind; [by apply safe_call|]. intros. apply safe_ret. Qed.

(** Pushing and popping an error handler around a computation that keeps the stack. *)
Lemma kept_core g g' : kept g = kept g' -> core g = core g'.
Proof. intros H. exact (f_equal (fun k => fst (fst (fst k))) H). Qed.
Lemma kept_stack g g' : kept g = kept g' -> error_cb_stack (g_errs g) = error_cb_stack (g_errs g').
Proof. intros H. exact (f_equal snd H). Qed.
Lemma kept_pop g g1 : kept g1 = kept (guestfs_push_error_handler g None 0) -> kept (guestfs_pop_error_handler g1) = kept g.
Proof.
  intros K. pose proof (kept_core _ _ K) as Kc. apply kept_stack in K. unfold guestfs_pop_error_handler. rewrite K. destruct g1, g as [?? []]. cbn in Kc |- *.
  injection Kc as -> -> -> -> -> -> -> -> -> -> ->. done.
Qed.
Lemma step_silently s s1 :
  step (s <| i_g ::= fun g => guestfs_push_error_handler g None 0 |>) s1 -> step s (s1 <| i_g ::= guestfs_pop_error_handler |>).
Proof. intros [C K F]. split; [exact C| |exact F]. by apply kept_pop. Qed.
Lemma safe_silently {R} P (m : im R) Q : safeq P m Q -> safeq P (silently m) Q.
Proof.
  intros Hm s Hn. set (s0 := s <| i_g ::= fun g => guestfs_push_error_handler g None 0 |>). specialize (Hm s0 Hn).
  assert (silently m s = match m s0 with
    | (Ret a, s1) => (Ret a, s1 <| i_g ::= guestfs_pop_error_handler |>)
    | (Stop w, s1) => (Stop w, s1) end) as ->.
  { unfold silently, on_h, zoom, bind, modify, ret. change (s <| i_g := guestfs_push_error_handler (i_g s) None 0 |>) with s0.
    by destruct (m s0) as [[]]. }
  destruct (m s0) as [[a|w] s1]; destruct Hm as [St H].
  - split; [by apply step_silently|]. intros HP. destruct (H HP) as [|He]; [auto|]. right.
    eapply explained_halted; [|exact He]. split; [exists []; by rewrite app_nil_r|]. cbn.
    unfold guestfs_pop_error_handler. by destruct (error_cb_stack _) as [|[]].
  - split; [|done]. exact St.
Qed.

Lemma step_fs s f : (forall fs, same_entry fs (f fs)) -> step s (s <| i_fses ::= set_last f |>).
Proof.
  intros H. split; [exists []; by rewrite app_nil_r|done|]. cbn. unfold set_last. destruct (last (i_fses s)) as [fs|] eqn:E; [|by left].
  right. exists (removelast (i_fses s)), fs, (f fs). split_and!; [|done|done]. by apply last_Some in E as [l ->]; rewrite removelast_last.
Qed.
Lemma safe_set_fs P f : (forall fs, same_entry fs (f fs)) -> safe P (set_fs f).
Proof. intros H. apply safe_modify. intros s. by apply step_fs. Qed.
End safe.

Create HintDb inspect.
#[export] Hint Resolve safe_ret safe_error safe_perrorf safe_debug safe_gets : inspect.

#[export] Hint Extern 1 (safe _ _ _ (call_int _ _ _)) => apply safe_call_int; vm_compute; reflexivity : inspect.

(** Take a computation apart; what is left are uses of the result of a call. *)
Ltac safe_step :=
  match goal with
  | |- safe _ _ _ (bind _ _) => apply safe_bind; [|intros]
  | |- safeq _ _ _ (bind _ _) (fun _ => True) => apply safe_bind; [|intros]
  | |- safe _ _ _ (set_fs _) => apply safe_set_fs; by intros []
  | |- safe _ _ _ (silently _) => apply safe_silently
  | |- safe _ _ _ (call _ _ _) => apply safe_call; vm_compute; reflexivity
  | |- safe _ _ _ (call_int _ _ _) => apply safe_call_int; vm_compute; reflexivity
  | |- safe _ _ _ (if ?b then _ else _) => destruct b
  | |- safe _ _ _ (match ?x with _ => _ end) => destruct x
  | |- safe _ _ _ _ => solve [eauto with inspect]
  end.
(** Comparisons of names. *)
Ltac streq_lit :=
  repeat match goal with
  | |- context [STREQ ?a ?b] =>
      let v := eval vm_compute in (STREQ a b) in
      match v with true => change (STREQ a b) with true | false => change (STREQ a b) with false end
  end; cbv iota.
Ltac safe_auto := repeat (change (safeq ?A ?n ?P ?m (fun _ => True)) with (safe A n P m); cbv beta zeta; safe_step).

Section helpers_safe.
Context (A : guest_api) (drives : nat).
Implicit Types P : Prop.

Lemma safe_get_fs P : safe A drives P get_fs.
Proof. apply safe_gets. Qed.
Lemma safe_positive P m : safe A drives P m -> safe A drives P (positive m).
Proof. intros. unfold positive. safe_auto. Qed.
Lemma safe_and_m P a b : safe A drives P a -> safe A drives P b -> safe A drives P (and_m a b).
Proof. intros. unfold and_m. safe_auto. Qed.
Lemma safe_or_m P a b : safe A drives P a -> safe A drives P b -> safe A drives P (or_m a b).
Proof. intros. unfold or_m. safe_auto. Qed.
Lemma safe_all_m P l : Forall (safe A drives P) l -> safe A drives P (all_m l).
Proof. induction 1; cbn; [apply safe_ret|by apply safe_and_m]. Qed.
Lemma safe_any_m P l : Forall (safe A drives P) l -> safe A drives P (any_m l).
Proof. induction 1; cbn; [apply safe_ret|by apply safe_or_m]. Qed.
Lemma safe_then_m P m1 m2 : safe A drives P m1 -> safe A drives P m2 -> safe A drives P (then_m m1 m2).
Proof. intros. unfold then_m. safe_auto. Qed.
Lemma safe_parse_version P b str : safe A drives P (parse_version b str).
Proof. unfold parse_version. safe_auto. Qed.
End helpers_safe.
#[export] Hint Resolve safe_get_fs safe_positive safe_and_m safe_or_m safe_all_m safe_any_m safe_then_m safe_parse_version : inspect.
#[export] Hint Unfold guestfs___parse_unsigned_int guestfs___parse_unsigned_int_ignore_trailing : inspect.

Section components_safe.
Context (A : guest_api) (drives : nat).
Implicit Types P : Prop.
Lemma safe_parse_unsigned P str : safe A drives P (guestfs___parse_unsigned_int str).
Proof. apply safe_parse_version. Qed.
Lemma safe_parse_trailing P str : safe A drives P (guestfs___parse_unsigned_int_ignore_trailing str).
Proof. apply safe_parse_version. Qed.
#[local] Hint Resolve safe_parse_unsigned safe_parse_trailing : inspect.
Lemma safe_set_versions P a b : safe A drives P (set_versions a b).
Proof. unfold set_versions. safe_auto. Qed.
#[local] Hint Resolve safe_set_versions : inspect.
Lemma safe_major_minor P : safe A drives P guestfs___parse_major_minor.
Proof. unfold guestfs___parse_major_minor. safe_auto. Qed.
Lemma safe_is_file P p : safe A drives P (is_file A p).
Proof. unfold is_file. safe_auto. Qed.
Lemma safe_is_dir P p : safe A drives P (is_dir A p).
Proof. unfold is_dir. safe_auto. Qed.
Lemma safe_is_symlink P p : safe A drives P (is_symlink A p).
Proof. unfold is_symlink. safe_auto. Qed.
Lemma safe_is_file_follow P p : safe A drives P (is_file_follow A p).
Proof. unfold is_file_follow. safe_auto. Qed.
#[local] Hint Resolve safe_major_minor safe_is_file safe_is_dir safe_is_symlink safe_is_file_follow : inspect.
Lemma safe_case_silently P p : safe A drives P (guestfs___case_sensitive_path_silently A p).
Proof. unfold guestfs___case_sensitive_path_silently. safe_auto. Qed.
#[local] Hint Resolve safe_case_silently : inspect.
Lemma safe_is_file_nocase P p : safe A drives P (guestfs___is_file_nocase A p).
Proof. unfold guestfs___is_file_nocase, nocase. safe_auto. Qed.
Lemma safe_is_dir_nocase P p : safe A drives P (guestfs___is_dir_nocase A p).
Proof. unfold guestfs___is_dir_nocase, nocase. safe_auto. Qed.
Lemma safe_small_enough P f n : safe A drives P (small_enough A f n).
Proof. unfold small_enough. safe_auto. Qed.
#[local] Hint Resolve safe_is_file_nocase safe_is_dir_nocase safe_small_enough : inspect.
Lemma safe_first_line P f : safe A drives P (guestfs___first_line_of_file A f).
Proof. unfold guestfs___first_line_of_file. safe_auto. Qed.
End components_safe.
#[export] Hint Resolve safe_parse_unsigned safe_parse_trailing safe_set_versions safe_major_minor safe_is_file safe_is_dir safe_is_symlink
  safe_is_file_follow safe_case_silently safe_is_file_nocase safe_is_dir_nocase safe_small_enough safe_first_line : inspect.

(** * src/inspect-fs-unix.c *)

Section unix_safe.
Context (A : guest_api) (drives : nat) (buckets : nat -> Z).
Implicit Types P : Prop.

Lemma safe_set_distro P d : safe A drives P (set_distro d).
Proof. unfold set_distro. safe_auto. Qed.
Lemma safe_set_type P t : safe A drives P (set_type t).
Proof. unfold set_type. safe_auto. Qed.
#[local] Hint Resolve safe_set_distro safe_set_type : inspect.
Lemma safe_release_file P f : safe A drives P (parse_release_file A f).
Proof. unfold parse_release_file. safe_auto. Qed.
Lemma safe_lsb_line P line : safe A drives P (lsb_line line).
Proof. unfold lsb_line. safe_auto. Qed.
#[local] Hint Resolve safe_release_file safe_lsb_line : inspect.
Lemma safe_lsb_loop P lines : forall r, safe A drives P (lsb_loop lines r).
Proof. induction lines; intros; cbn; safe_auto. Qed.
#[local] Hint Resolve safe_lsb_loop : inspect.
Lemma safe_lsb_release P : safe A drives P (parse_lsb_release A).
Proof. unfold parse_lsb_release. safe_auto. Qed.
Lemma safe_suse_versions P l1 l2 : safe A drives P (suse_versions l1 l2).
Proof. unfold suse_versions. safe_auto. Qed.
Lemma safe_opensuse_versions P l : safe A drives P (opensuse_versions l).
Proof. unfold opensuse_versions. safe_auto. Qed.
#[local] Hint Resolve safe_lsb_release safe_suse_versions safe_opensuse_versions : inspect.
Lemma safe_suse_release P f : safe A drives P (parse_suse_release A f).
Proof. unfold parse_suse_release. safe_auto. Qed.
Lemma safe_match_release P name d : safe A drives P (match_release name d).
Proof. unfold match_release. safe_auto. Qed.
#[local] Hint Resolve safe_suse_release safe_match_release : inspect.
Lemma safe_match_releases P l : safe A drives P (match_releases l).
Proof. induction l as [|[]]; cbn; safe_auto. Qed.
#[local] Hint Resolve safe_match_releases : inspect.
Lemma safe_simple_release P d f : safe A drives P (simple_release A d f).
Proof. unfold simple_release. safe_auto. Qed.
#[local] Hint Resolve safe_simple_release : inspect.
Lemma safe_release_files P : Forall (fun x => safe A drives P (snd x)) (release_files A).
Proof. unfold release_files, oracle_release, redhat_release, br_release. repeat apply Forall_cons_2; try apply Forall_nil_2; cbn [snd]; safe_auto. Qed.
Lemma safe_first_release P l : Forall (fun x => safe A drives P (snd x)) l -> safe A drives P (first_release A l).
Proof. induction 1 as [|[] ? H]; cbn in *; safe_auto. Qed.

Lemma safe_arch_loop P l : safe A drives P (arch_loop A l).
Proof. induction l; cbn; safe_auto. Qed.
Lemma safe_architecture P : safe A drives P (check_architecture A).
Proof. apply safe_arch_loop. Qed.
Lemma safe_hostname_from P f : safe A drives P (hostname_from A f).
Proof. unfold hostname_from. safe_auto. Qed.
Lemma safe_no_hostname P : safe A drives P no_hostname.
Proof. apply safe_gets. Qed.
Lemma safe_file_or_error P f : safe A drives P (is_file_or_error A f).
Proof. unfold is_file_or_error. safe_auto. Qed.
Lemma safe_augeas_sizes P l : safe A drives P (augeas_sizes A l).
Proof. induction l; cbn; safe_auto. Qed.
#[local] Hint Resolve safe_architecture safe_hostname_from safe_no_hostname safe_file_or_error safe_augeas_sizes : inspect.
Lemma safe_with_augeas P l f : safe A drives P f -> safe A drives P (inspect_with_augeas A l f).
Proof. intros. unfold inspect_with_augeas. safe_auto. Qed.
Lemma safe_hostname_redhat P : safe A drives P (check_hostname_redhat A).
Proof. unfold check_hostname_redhat. safe_auto. Qed.
Lemma safe_rc_conf P l : safe A drives P (rc_conf_loop l).
Proof. induction l; cbn; safe_auto. Qed.
#[local] Hint Resolve safe_with_augeas safe_hostname_redhat safe_rc_conf : inspect.
Lemma safe_hostname_freebsd P : safe A drives P (check_hostname_freebsd A).
Proof. unfold check_hostname_freebsd. safe_auto. Qed.
#[local] Hint Resolve safe_hostname_freebsd : inspect.
Lemma safe_hostname_unix P : safe A drives P (check_hostname_unix A).
Proof. unfold check_hostname_unix, hostname_linux. safe_auto. Qed.

Lemma safe_is_partition P p : safe A drives P (is_partition A p).
Proof. unfold is_partition. safe_auto. Qed.
#[local] Hint Resolve safe_is_partition : inspect.
Lemma safe_partition_of P d p : safe A drives P (partition_of A d p).
Proof. unfold partition_of. safe_auto. Qed.
#[local] Hint Resolve safe_partition_of : inspect.

(** What [devices\[i\]] relies on. *)
Lemma safeq_list_devices P :
  safeq A drives P (call (api_strs A) "list_devices" []) (fun r => match r with Some l => (drives <= length l)%nat | None => True end).
Proof.
  apply safeq_call; [done|]. intros h. unfold bad_answer. streq_lit.
  destruct (api_strs A h _ _) as [|l]; [by left|]. destruct (Nat.ltb_spec (length l) drives); auto.
Qed.
Lemma find_hint_bound name l : forall i n, find_hint name l i = Some n -> (n < i + length l)%nat.
Proof.
  induction l as [|d l IH]; intros i n; cbn; [done|]. destruct (bool_decide _); [intros [= <-]; lia|].
  intros H. apply IH in H. lia.
Qed.
Lemma safeq_hint P name : safeq A drives P (hint name) (fun r => match r with Some i => (i < drives)%nat | None => True end).
Proof.
  intros s Hn. cbn. split; [done|]. intros _. left. destruct (find_hint _ _ _) as [i|] eqn:E; [|done].
  apply find_hint_bound in E. cbn in E. lia.
Qed.
Lemma safe_device_at P l i : (P -> (i < length l)%nat) -> safe A drives P (device_at l i).
Proof.
  intros H. unfold device_at. destruct (l !! i) eqn:E; [apply safe_ret|]. apply safe_halt. intros HP.
  apply lookup_ge_None in E. apply H in HP. lia.
Qed.
Lemma disk_index_loop_bound p : forall i, 0 <= i -> 0 <= disk_index_loop i p.
Proof. induction p as [|c p IH]; intros i H; cbn [disk_index_loop]; [done|]. apply IH. by apply Z.mod_pos_bound. Qed.
Lemma disk_index_bound disk : 0 <= disk_index disk.
Proof. destruct disk; [done|]. apply disk_index_loop_bound. by apply Z.mod_pos_bound. Qed.
Lemma safe_xdev P type disk part : safe A drives P (resolve_fstab_device_xdev A type disk part).
Proof.
  eapply safeq_bind; [apply safeq_list_devices|]. intros [devices|]; [|apply safe_ret].
  eapply safeq_bind; [apply safeq_hint|]. intros [i|].
  - apply safe_bind; [apply safe_device_at; intros [[] ?]; lia|intros; safe_auto].
  - cbv zeta. pose proof (disk_index_bound disk). destruct (Z.ltb_spec (disk_index disk) (Z.of_nat (length devices))); [|safe_auto].
    apply safe_bind; [apply safe_device_at; intros []; lia|intros; safe_auto].
Qed.
Lemma safe_cciss P disk part : safe A drives P (resolve_fstab_device_cciss A disk part).
Proof.
  eapply safeq_bind; [apply safeq_list_devices|]. intros [devices|]; [|apply safe_ret].
  eapply safeq_bind; [apply safeq_hint|]. intros [i|]; [|apply safe_ret].
  apply safe_bind; [apply safe_device_at; intros [[] ?]; lia|intros; safe_auto].
Qed.
#[local] Hint Resolve safe_xdev safe_cciss : inspect.
Lemma safe_resolve_pattern P spec m : safe A drives P (resolve_pattern A spec m).
Proof. unfold resolve_pattern, freebsd_gpt, freebsd_mbr, hurd_dev, resolve_fstab_device_diskbyid. safe_auto. Qed.
#[local] Hint Resolve safe_resolve_pattern : inspect.
Lemma safe_resolve P spec m : safe A drives P (resolve_fstab_device A spec m).
Proof. unfold resolve_fstab_device. safe_auto. Qed.
#[local] Hint Resolve safe_resolve : inspect.

(** A list of keys and values that is not bad has an even length. *)
Lemma safeq_md_detail P md :
  safeq A drives P (call (api_strs A) "md_detail" [md]) (fun r => match r with Some l => Nat.odd (length l) = false | None => True end).
Proof.
  apply safeq_call; [done|]. intros h. unfold bad_answer. streq_lit.
  destruct (api_strs A h _ _) as [|l]; [by left|]. destruct (Nat.odd (length l)); auto.
Qed.
Lemma safe_find_uuid P : forall l, (P -> Nat.odd (length l) = false) -> safe A drives P (find_uuid l).
Proof.
  fix IH 1. intros [|k [|v l]] H; cbn [find_uuid].
  - apply safe_ret.
  - apply safe_halt. intros HP. by apply H in HP.
  - destruct (STREQ k "uuid"); [apply safe_ret|]. apply IH. intros HP. by apply H in HP.
Qed.
Lemma safe_weaken {R} (P P' : Prop) (m : im R) : safe A drives P' m -> (P -> P') -> safe A drives P m.
Proof. intros H HP. by eapply safeq_weaken. Qed.
Lemma safe_app_md P mds : forall map, safe A drives P (app_md_loop A buckets mds map).
Proof.
  induction mds as [|md mds IH]; intros map; cbn [app_md_loop]; [apply safe_ret|].
  assert (forall Q map, safe A drives (P /\ Q) (app_md_loop A buckets mds map)) as IH' by (intros; eapply safe_weaken; [apply IH|tauto]).
  eapply safeq_bind; [apply safeq_md_detail|]. intros [detail|]; [|apply safe_ret].
  apply safe_bind; [apply safe_find_uuid; tauto|]. intros [u|]; [|apply IH']. safe_auto.
Qed.
Lemma safe_map_app_md P : safe A drives P (map_app_md_devices A buckets).
Proof. unfold map_app_md_devices. safe_auto. apply safe_app_md. Qed.
#[local] Hint Resolve safe_map_app_md : inspect.

Lemma ends_in_app a b : ends_in b (a +:+ b) = true.
Proof.
  unfold ends_in. rewrite str_length_app. replace (_ + _ - _)%nat with (String.length a) by lia.
  rewrite str_drop_app. by apply bool_decide_eq_true.
Qed.
(** The error exit of map_md_devices is taken after a bad answer only. *)
Lemma safeq_devicename P m : safeq A drives P (call (api_str A) "aug_get" [m +:+ "/devicename"]) (fun r => r <> None).
Proof.
  apply safeq_call; [done|]. intros h. unfold bad_answer. streq_lit.
  destruct (api_str A h _ _); [right; apply ends_in_app|by left].
Qed.
Lemma safeq_mdadm P app l : forall map, safeq A drives P (mdadm_loop A buckets app l map) (fun r => r <> None).
Proof.
  induction l as [|m l IH]; intros map; cbn [mdadm_loop]; [by apply safeq_ret|].
  assert (forall Q map, safeq A drives (P /\ Q) (mdadm_loop A buckets app l map) (fun r => r <> None)) as IH'
    by (intros; eapply safeq_weaken; [apply IH|tauto|done]).
  eapply safeq_bind; [apply safeq_devicename|]. intros [dev|]; [|apply safeq_ret; tauto].
  apply safe_bind; [by apply safe_call|]. intros [u|]; [|apply IH'].
  destruct (parse_uuid u); [destruct (md_lookup _ _ _) as [e|]; [destruct (mdadm_lookup dev map)|]|];
    repeat (apply safe_bind; [apply safe_debug|intros]); apply IH'.
Qed.
Lemma safeq_map_md P : safeq A drives P (map_md_devices A buckets) (fun r => r <> inl true).
Proof.
  apply safe_bind; [apply safe_map_app_md|]. intros [[|e app]|]; try by apply safeq_ret.
  apply safe_bind; [by apply safe_call|]. intros [[|m l]|]; try by apply safeq_ret.
  - apply safe_bind; [apply safe_debug|]. intros. by apply safeq_ret.
  - eapply safeq_bind; [apply safeq_mdadm|]. intros [map|]; apply safeq_ret; [done|by intros [_ []]].
Qed.

Lemma safe_add_entry P m mp : safe A drives P (add_fstab_entry m mp).
Proof. unfold add_fstab_entry. safe_auto. Qed.
Lemma safe_btrfs_opts P opts : forall path m, safe A drives P (btrfs_opts A opts path m).
Proof. unfold aug_get. induction opts; intros; cbn [btrfs_opts]; unfold aug_get; safe_auto. Qed.
Lemma safe_fstab_device P spec m : safe A drives P (fstab_device A spec m).
Proof. unfold fstab_device. safe_auto. Qed.
#[local] Hint Resolve safe_add_entry safe_btrfs_opts safe_fstab_device : inspect.
Lemma safe_fstab_entry P e m : safe A drives P (fstab_entry A e m).
Proof. unfold fstab_entry, fstab_mount, aug_get. safe_auto. Qed.
#[local] Hint Resolve safe_fstab_entry : inspect.
Lemma safe_fstab_loop P l m : safe A drives P (fstab_loop A l m).
Proof. induction l; cbn [fstab_loop]; safe_auto. Qed.
#[local] Hint Resolve safe_fstab_loop : inspect.
Lemma safe_check_fstab P : safe A drives P (check_fstab A buckets).
Proof.
  eapply safeq_bind; [apply safeq_map_md|]. intros [[]|m]; [apply safe_halt; by intros [_ []]|apply safe_ret|]. safe_auto.
Qed.
#[local] Hint Resolve safe_check_fstab safe_hostname_unix safe_first_release safe_release_files : inspect.
Lemma safe_root_details P l : safe A drives P (root_details A buckets l).
Proof. unfold root_details. safe_auto. Qed.
#[local] Hint Resolve safe_root_details : inspect.
Lemma safe_required_release P f re m : safe A drives P m -> safe A drives P (required_release A f re m).
Proof. intros. unfold required_release. safe_auto. Qed.
#[local] Hint Resolve safe_required_release : inspect.
Lemma safe_linux_root P : safe A drives P (guestfs___check_linux_root A buckets).
Proof. unfold guestfs___check_linux_root. safe_auto. Qed.
Lemma safe_freebsd_root P : safe A drives P (guestfs___check_freebsd_root A buckets).
Proof. unfold guestfs___check_freebsd_root. safe_auto. Qed.
Lemma safe_netbsd_root P : safe A drives P (guestfs___check_netbsd_root A buckets).
Proof. unfold guestfs___check_netbsd_root. safe_auto. Qed.
Lemma safe_hurd_root P : safe A drives P (guestfs___check_hurd_root A buckets).
Proof. unfold guestfs___check_hurd_root. safe_auto. Qed.
Lemma safe_minix_root P : safe A drives P (guestfs___check_minix_root A buckets).
Proof. unfold guestfs___check_minix_root. safe_auto. Qed.
End unix_safe.
#[export] Hint Resolve safe_set_distro safe_set_type safe_linux_root safe_freebsd_root safe_netbsd_root safe_hurd_root safe_minix_root : inspect.

(** * src/inspect-fs-cd.c *)

Section cd_safe.
Context (A : guest_api) (drives : nat) (db : failure + list osinfo).
Implicit Types P : Prop.

Lemma safeq_first_egrep P f e i :
  safeq A drives P (guestfs___first_egrep_of_file A f e i) (fun r => match r with Some (Some l) => usable e l = true | _ => True end).
Proof.
  apply safe_bind; [apply safe_small_enough|]. intros [|]; [|by apply safeq_ret]. cbn [negb].
  eapply (safeq_bind _ _ _ _ (fun r => match r with Some (l :: _) => usable e l = true | _ => True end)).
  - apply safeq_call; [done|]. intros h. unfold bad_answer. streq_lit. cbn [hd app].
    destruct (api_strs A h _ _) as [|[|l ls]]; [by left|by left|]. destruct (usable e l); auto.
  - intros [[|l ls]|]; apply safeq_ret; tauto.
Qed.
Lemma safe_egrep_then P f e i k : (forall str, safe A drives (P /\ usable e str = true) (k str)) -> safe A drives P (egrep_then A f e i k).
Proof.
  intros H. eapply safeq_bind; [apply safeq_first_egrep|]. intros [[l|]|]; [|apply safe_ret..].
  eapply safeq_weaken; [apply H|done|done].
Qed.
Lemma safe_find_value P kv : (P -> after_equals kv <> None) -> safe A drives P (find_value kv).
Proof.
  intros H. unfold find_value. destruct (after_equals kv); [apply safe_ret|]. apply safe_halt. intros HP. by apply H.
Qed.
Lemma safe_str_at P n s : (P -> (n <= String.length s)%nat) -> safe A drives P (str_at n s).
Proof.
  intros H. unfold str_at. destruct (Nat.leb_spec n (String.length s)); [apply safe_ret|]. apply safe_halt. intros HP. apply H in HP. lia.
Qed.
(** What [usable] gives for an expression with an equals sign. *)
Lemma usable_equals e l : STRPREFIX e "^menu title " = false -> usable e l = true ->
  after_equals l <> None /\ after_equals (trim_cr l) <> None.
Proof. unfold usable. intros ->. by destruct (after_equals l), (after_equals (trim_cr l)). Qed.
Lemma safe_value P e l : STRPREFIX e "^menu title " = false -> safe A drives (P /\ usable e l = true) (find_value l).
Proof. intros He. apply safe_find_value. intros [_ H]. by apply (usable_equals e). Qed.
Lemma safe_value_cr P e l : STRPREFIX e "^menu title " = false -> safe A drives (P /\ usable e l = true) (find_value (trim_cr l)).
Proof. intros He. apply safe_find_value. intros [_ H]. by apply (usable_equals e). Qed.

Lemma safe_set_major P v : safe A drives P (set_major v).
Proof. unfold set_major. safe_auto. Qed.
Lemma safe_set_minor P v : safe A drives P (set_minor v).
Proof. unfold set_minor. safe_auto. Qed.
#[local] Hint Resolve safe_set_major safe_set_minor : inspect.
Lemma safe_debian_installer P : safe A drives P (check_debian_installer_root A).
Proof. unfold check_debian_installer_root. safe_auto. Qed.
Lemma safe_family P e d : safe A drives P (family A e d).
Proof. apply safe_egrep_then. intros. safe_auto. Qed.
Lemma safe_treeinfo P e : STRPREFIX e "^menu title " = false -> safe A drives P (treeinfo_number A e).
Proof.
  intros He. eapply safeq_bind; [apply safeq_first_egrep|]. intros [[l|]|]; [|apply safe_ret..].
  apply safe_bind; [by apply safe_value|]. intros. safe_auto.
Qed.
Lemma safe_fedora_installer P : safe A drives P (check_fedora_installer_root A).
Proof.
  apply safe_bind; [apply safe_set_type|]. intros _. repeat (apply safe_then_m; [first [apply safe_family|apply safe_egrep_then]|]).
  - intros l. apply safe_bind; [by apply safe_value|]. intros. safe_auto.
  - intros l. apply safe_bind; [by apply safe_value|]. intros. safe_auto.
  - apply safe_bind; [by apply safe_treeinfo|]. intros [|]; [|apply safe_ret].
    apply safe_bind; [by apply safe_treeinfo|]. intros. safe_auto.
Qed.

Lemma safe_menu_title P name n d :
  literal_of ("^menu title Welcome to " +:+ name +:+ "[[:digit:]]+") = "menu title Welcome to " +:+ name ->
  n = String.length ("menu title Welcome to " +:+ name) -> safe A drives P (menu_title A name n d).
Proof.
  intros Hl ->. apply safe_egrep_then. intros l. apply safe_bind; [apply safe_set_distro|]. intros _.
  apply safe_bind; [|intros; safe_auto]. apply safe_str_at. intros [_ H]. unfold usable in H.
  change (STRPREFIX ("^menu title Welcome to " +:+ name +:+ "[[:digit:]]+") "^menu title ") with true in H.
  rewrite Hl in H. by apply Nat.leb_le.
Qed.
Lemma safe_isolinux P : safe A drives P (check_isolinux_installer_root A).
Proof.
  apply safe_bind; [apply safe_set_type|]. intros _.
  repeat (apply safe_then_m; [by apply safe_menu_title|]). by apply safe_menu_title.
Qed.

Lemma safe_w2k3_version P e f set :
  STRPREFIX e "^menu title " = false -> (forall Q v, safe A drives Q (set v)) -> safe A drives P (w2k3_version A e f set).
Proof. intros He H. apply safe_egrep_then. intros l. apply safe_bind; [by apply safe_value_cr|]. intros. safe_auto. Qed.
Lemma safeq_product P l : safeq A drives (P /\ usable productname_ere l = true) (find_value (trim_quot (trim_cr l))) (fun v => v <> "").
Proof.
  unfold usable, find_value. change (STRPREFIX productname_ere "^menu title ") with false. cbv iota.
  assert (STREQ productname_ere productname_ere = true) as -> by (by apply bool_decide_eq_true).
  destruct (after_equals (trim_quot _)) as [v|].
  - apply safeq_ret. intros [_ H]. destruct (after_equals l), (after_equals (trim_cr l)); try done. intros ->. done.
  - intros s _. split; [by apply step_halted|]. intros [_ H]. by destruct (after_equals l), (after_equals (trim_cr l)).
Qed.
Lemma safe_w2k3 P f : safe A drives P (check_w2k3_installer_root A f).
Proof.
  do 2 (apply safe_bind; [safe_auto|intros _]). repeat apply safe_then_m; [apply safe_egrep_then|apply safe_w2k3_version..|apply safe_egrep_then].
  - intros l. eapply safeq_bind; [apply safeq_product|]. intros v. apply safe_bind; [|intros; safe_auto].
    apply safe_str_at. intros [_ H]. destruct v; [done|cbn; lia].
  - done.
  - intros. apply safe_set_major.
  - done.
  - intros. apply safe_set_minor.
  - intros l. apply safe_bind; [by apply safe_value_cr|]. intros. safe_auto.
Qed.

Lemma safe_file_there P p : safe A drives P (file_there A p).
Proof. unfold file_there. safe_auto. Qed.
#[local] Hint Resolve safe_file_there safe_debian_installer safe_fedora_installer safe_isolinux safe_w2k3 : inspect.
Lemma safe_installer_root P : safe A drives P (guestfs___check_installer_root A).
Proof.
  unfold guestfs___check_installer_root, installer_kind. safe_auto.
Qed.
Lemma safe_osinfo_map P i : safe A drives P (guestfs___osinfo_map db i).
Proof.
  unfold guestfs___osinfo_map. destruct db as [[e msg]|]; [|safe_auto].
  apply safe_bind; [|intros; apply safe_ret]. apply safe_on_g. intros. apply kept_error_errno.
Qed.
End cd_safe.
#[export] Hint Resolve safe_installer_root safe_osinfo_map : inspect.

(** * src/inspect-fs-windows.c *)

Section windows_safe.
(** Converting nothing fits in a buffer of any size. *)
Context (A : guest_api) (drives : nat) (W : iconv_world).
Hypothesis convert_nothing : forall n, ic_convert W [] n <> IconvTooBig.
Implicit Types P : Prop.

Lemma safe_is_systemroot P r : safe A drives P (is_systemroot A r).
Proof. unfold is_systemroot. apply safe_all_m. repeat apply Forall_cons_2; try apply Forall_nil_2; safe_auto. Qed.
#[local] Hint Resolve safe_is_systemroot : inspect.
Lemma safe_try_systemroot P p : safe A drives P (try_systemroot A p).
Proof. unfold try_systemroot. safe_auto. Qed.
#[local] Hint Resolve safe_try_systemroot : inspect.
Lemma safe_try_systemroots P l : safe A drives P (try_systemroots A l).
Proof. induction l; cbn [try_systemroots]; safe_auto. Qed.
Lemma safe_boot_ini P l : forall b, safe A drives P (boot_ini_loop A l b).
Proof. induction l; intros; cbn [boot_ini_loop]; safe_auto. Qed.
#[local] Hint Resolve safe_try_systemroots safe_boot_ini : inspect.
Lemma safe_get_systemroot P : safe A drives P (guestfs___get_windows_systemroot A).
Proof. unfold guestfs___get_windows_systemroot. safe_auto. Qed.

(** The size of the buffer overflows before the retries are used up. *)
Lemma safe_iconv P input : forall fuel n, (input <> [] -> 2 ^ (64 - Z.of_nat fuel) <= n < 2 ^ 64) -> (fuel <= 64)%nat ->
  safe A drives P (iconv_loop W fuel input n).
Proof.
  induction fuel as [|fuel IH]; intros n Hn Hf; cbn [iconv_loop]; destruct (ic_convert W input n) eqn:E; try apply safe_ret.
  all: assert (input <> []) as Hi by (intros ->; by apply convert_nothing in E).
  all: specialize (Hn Hi); cbv zeta.
  - exfalso. change (Z.of_nat 0) with 0 in Hn. lia.
  - destruct (Z.ltb_spec (u64 (n * 2)) n) as [|Hge]; [apply safe_ret|]. apply IH; [|lia]. intros _.
    assert (n * 2 < 2 ^ 64) as Hsmall.
    { destruct (Z.lt_ge_cases (n * 2) (2 ^ 64)); [done|]. unfold u64 in Hge.
      rewrite (Z.mod_eq (n * 2) (2 ^ 64)) in Hge by done.
      assert (1 <= n * 2 / 2 ^ 64) by (apply Z.div_le_lower_bound; lia). lia. }
    rewrite u64_id by lia. replace (64 - Z.of_nat fuel) with (Z.succ (64 - Z.of_nat (S fuel))) by lia. rewrite Z.pow_succ_r; lia.
Qed.
Lemma safe_utf8 P input : (P -> Z.of_nat (length input) < 2 ^ 64) -> safe A drives P (utf16_to_utf8 W input).
Proof.
  intros H. unfold utf16_to_utf8. destruct (ic_open W); [apply safe_ret|].
  destruct (Z.lt_ge_cases (Z.of_nat (length input)) (2 ^ 64)).
  - apply safe_iconv; [|done]. intros Hi. destruct input; [done|]. cbn [length] in *. change (64 - Z.of_nat 64) with 0. lia.
  - assert (~ P) as HP by (intros HP; apply H in HP; lia). clear -HP.
    intros s Hs. assert (forall fuel n, exists r, iconv_loop W fuel input n s = (r, s)) as Hi.
    { induction fuel as [|fuel IH]; intros n; cbn [iconv_loop]; destruct (ic_convert W input n); try (by eexists); cbv zeta;
        destruct (_ <? _); first [by eexists | apply IH]. }
    destruct (Hi 64%nat (Z.of_nat (length input))) as [[r|w] ->]; (split; [|tauto]); [done|by apply step_halted].
Qed.
Lemma safeq_value_value P (v : Z) :
  safeq A drives P (call (api_buf A) "hivex_value_value" [pretty v])
    (fun r => match r with Some b => Z.of_nat (length b) < 2 ^ 64 | None => False end).
Proof.
  apply safeq_call; [done|]. intros h. unfold bad_answer. streq_lit. destruct (api_buf A h _ _) as [|b]; [by right|].
  destruct (Z.leb_spec (2 ^ 64) (Z.of_nat (length b))); auto.
Qed.
Lemma safe_value_utf8 P v : safe A drives P (guestfs__hivex_value_utf8 A W v).
Proof.
  eapply safeq_bind; [apply safeq_value_value|]. intros [buf|]; [|apply safe_ret].
  apply safe_bind; [apply safe_utf8; tauto|]. intros [|]; safe_auto.
Qed.

Lemma safe_stale P : safe A drives P (stale_errno A).
Proof. apply safe_gets. Qed.
Lemma safe_hivex_open P p : safe A drives P (hivex_open A p).
Proof. unfold hivex_open. safe_auto. Qed.
Lemma safe_hivex_root P : safe A drives P (hivex_root A).
Proof. unfold hivex_root. safe_auto. Qed.
Lemma safe_get_child P n s : safe A drives P (get_child A n s).
Proof. unfold get_child. safe_auto. Qed.
#[local] Hint Resolve safe_value_utf8 safe_stale safe_hivex_open safe_hivex_root safe_get_child : inspect.
Lemma safe_descend P l : forall n, safe A drives P (descend A n l).
Proof. induction l; intros; cbn [descend]; safe_auto. Qed.
Lemma safe_value_key P v : safe A drives P (value_key A v).
Proof. unfold value_key. safe_auto. Qed.
Lemma safe_hive_path P p : safe A drives P (hive_path A p).
Proof. unfold hive_path. safe_auto. Qed.
Lemma safe_each_value P f l : (forall v, safe A drives P (f v)) -> safe A drives P (each_value f l).
Proof. intros H. induction l; cbn [each_value]; safe_auto. Qed.
#[local] Hint Resolve safe_descend safe_value_key safe_hive_path safe_each_value : inspect.
(** values->len is read after a bad answer only. *)
Lemma safeq_node_values P n : safeq A drives P (node_values A n) (fun r => r <> None).
Proof. apply safeq_call; [done|]. intros h. unfold bad_answer. streq_lit. destruct (api_values A h _ _); [by right|by left]. Qed.
Lemma safe_software_value P v : safe A drives P (software_value A W v).
Proof. unfold software_value. safe_auto. Qed.
Lemma safe_software_values P : safe A drives P (software_values A W).
Proof.
  do 2 (apply safe_bind; [safe_auto|intros]). do 2 (match goal with |- context [if ?b then _ else _] => destruct b end; [safe_auto|]).
  eapply safeq_bind; [apply safeq_node_values|]. intros [l|]; [|apply safe_halt; by intros [_ []]].
  apply safe_each_value. intros. apply safe_software_value.
Qed.
#[local] Hint Resolve safe_software_values : inspect.
Lemma safe_software P : safe A drives P (check_windows_software_registry A W).
Proof. unfold check_windows_software_registry. safe_auto. Qed.

Lemma safe_find_disk P b l : safe A drives P (find_disk A b l).
Proof. induction l; cbn [find_disk]; safe_auto. Qed.
#[local] Hint Resolve safe_find_disk : inspect.
Lemma safe_disk_blob P b : safe A drives P (map_registry_disk_blob A b).
Proof. unfold map_registry_disk_blob. safe_auto. Qed.
#[local] Hint Resolve safe_disk_blob : inspect.
Lemma safe_drive_mapping P v : safe A drives P (drive_mapping A v).
Proof. unfold drive_mapping. safe_auto. Qed.
Lemma safe_drive_letters P r : safe A drives P (drive_letters A r).
Proof.
  apply safe_bind; [safe_auto|]. intros n. do 2 (match goal with |- context [if ?b then _ else _] => destruct b end; [safe_auto|]).
  eapply safeq_bind; [apply safeq_node_values|]. intros [l|]; [|apply safe_halt; by intros [_ []]].
  apply safe_then_m; [apply safe_each_value; intros; unfold count_key; safe_auto|].
  apply safe_bind; [safe_auto|]. intros. apply safe_each_value. intros. apply safe_drive_mapping.
Qed.
Lemma safe_control_set P r : safe A drives P (current_control_set A r).
Proof.
  apply safe_bind; [safe_auto|]. intros n. do 2 (match goal with |- context [if ?b then _ else _] => destruct b end; [safe_auto|]).
  apply safe_bind; [safe_auto|]. intros v. do 2 (match goal with |- context [if ?b then _ else _] => destruct b end; [safe_auto|]).
  eapply safeq_bind; [apply safeq_value_value|]. intros [l|]; [safe_auto|apply safe_halt; tauto].
Qed.
Lemma safe_hostname_value P v : safe A drives P (hostname_value A W v).
Proof. unfold hostname_value. safe_auto. Qed.
#[local] Hint Resolve safe_drive_letters safe_control_set safe_hostname_value safe_software : inspect.
Lemma safe_windows_hostname P r : safe A drives P (windows_hostname A W r).
Proof. unfold windows_hostname, node_values. safe_auto. Qed.
#[local] Hint Resolve safe_windows_hostname : inspect.
Lemma safe_system P : safe A drives P (check_windows_system_registry A W).
Proof. unfold check_windows_system_registry. safe_auto. Qed.
#[local] Hint Resolve safe_system : inspect.
Lemma safe_windows_arch P : safe A drives P (check_windows_arch A).
Proof. unfold check_windows_arch. safe_auto. Qed.
#[local] Hint Resolve safe_windows_arch : inspect.
Lemma safe_windows_root P r : safe A drives P (guestfs___check_windows_root A W r).
Proof.
  unfold guestfs___check_windows_root. do 3 (apply safe_bind; [safe_auto|intros _]).
  apply safe_then_m; [safe_auto|]. apply safe_then_m; safe_auto.
Qed.
End windows_safe.
#[export] Hint Resolve safe_get_systemroot safe_windows_root : inspect.
