(* ===== verification/InspectOs.v ===== *)
(** Inspection: src/listfs.c, the decisions of src/inspect-fs.c and
    src/inspect.c.

    list_filesystems finds what may hold a file system; each one is mounted
    read-only and looked at, and the entries that are roots are the result of
    inspect_os, which the getters are asked about. *)

From S2P Require Import Prelude Xdr Protocol Handle Utils Events Conn LibProto Config Lifecycle Drives Command Guestfsd Procs Parted Filesys Btrfs Regex Inspect InspectUnix InspectCd InspectWin InspectSafe.
From Stdlib Require Import Ascii.

Open Scope Z_scope.
#[local] Arguments String.append : simpl nomatch.

(** * src/listfs.c *)

(** The first occurrence goes, and what follows moves up. *)
Fixpoint remove_from_list (list_ : list string) (item : string) : list string :=
  match list_ with
  | [] => []
  | x :: list' => if STREQ x item then list' else x :: remove_from_list list' item
  end.

Section listfs.
Context (A : guest_api).

(** The strings that are added to the list for a device; [None]: -1. *)
Definition is_container (vfs_type : string) : bool :=
  let n := String.length vfs_type in
  ((7 <=? n)%nat && STREQ (str_from (n - 7) vfs_type) "_member") || STREQ vfs_type "crypto_LUKS".
Definition subvolume_strings (device : string) (vols : list btrfssubvolume) : list string :=
  concat ((fun v => ["btrfsvol:" +:+ device +:+ "/" +:+ btrfssubvolume_path v; "btrfs"]) <$> vols).
Definition check_with_vfs_type (device : string) (sb : list string) : im (option (list string)) :=
  vfs_type <- silently (call (api_str A) "vfs_type" [device]) ;;
  match vfs_type with
  | None => ret (Some (sb ++ [device; "unknown"]))
  | Some vfs_type =>
      if STREQ vfs_type "" then ret (Some (sb ++ [device; "unknown"]))
      else if STREQ vfs_type "btrfs" then
        vols <- call (api_subvolumes A) "btrfs_subvolume_list" [device] ;;
        match vols with
        | None => ret None
        | Some vols => ret (Some ((sb ++ subvolume_strings device vols) ++ [device; vfs_type]))
        end
      else if is_container vfs_type then ret (Some sb)
      else ret (Some (sb ++ [device; vfs_type]))
  end.

Definition is_mbr_partition_type_42 (partition : string) : im bool :=
  silently (
    partnum <- call_int (api_int A) "part_to_partnum" [partition] ;;
    if partnum =? -1 then ret false
    else
      device <- call (api_str A) "part_to_dev" [partition] ;;
      match device with
      | None => ret false
      | Some device => mbr_id <- call_int (api_int A) "part_get_mbr_id" [device; pretty partnum] ;; ret (mbr_id =? 66)
      end).

(** The loops of list_filesystems. *)
Fixpoint exclude_devices (partitions devices : list string) : im (list string) :=
  match partitions with
  | [] => ret devices
  | p :: partitions' =>
      dev <- call (api_str A) "part_to_dev" [p] ;;
      exclude_devices partitions' (match dev with Some dev => remove_from_list devices dev | None => devices end)
  end.
Fixpoint check_all (test : string -> im bool) (l : list string) (sb : list string) : im (option (list string)) :=
  match l with
  | [] => ret (Some sb)
  | d :: l' =>
      b <- test d ;;
      if b : bool then
        r <- check_with_vfs_type d sb ;;
        match r with
        | None => ret None
        | Some sb => check_all test l' sb
        end
      else check_all test l' sb
  end.
Definition every : string -> im bool := fun _ => ret true.
(** A list that the library is asked for, and the loop over it; error when there is none. *)
Definition listed (name : string) (sb : list string) : im (option (list string)) :=
  l <- call (api_strs A) name [] ;;
  match l with
  | None => ret None
  | Some l => check_all every l sb
  end.
Definition or_error (m : im (option (list string))) (k : list string -> im (option (list string))) : im (option (list string)) :=
  r <- m ;; match r with None => ret None | Some sb => k sb end.
Definition guestfs__list_filesystems : im (option (list string)) :=
  has_lvm2 <- call_int (api_int A) "feature_available" ["lvm2"] ;;
  has_ldm <- call_int (api_int A) "feature_available" ["ldm"] ;;
  or_error (call (api_strs A) "list_devices" []) (fun devices =>
  or_error (call (api_strs A) "list_partitions" []) (fun partitions =>
  or_error (call (api_strs A) "list_md_devices" []) (fun mds =>
  devices <- exclude_devices partitions devices ;;
  or_error (check_all every devices []) (fun sb =>
  or_error (check_all (fun p => if has_ldm =? 0 then ret true else b <- is_mbr_partition_type_42 p ;; ret (negb b)) partitions sb) (fun sb =>
  or_error (check_all every mds sb) (fun sb =>
  or_error (if 0 <? has_lvm2 then listed "lvs" sb else ret (Some sb)) (fun sb =>
  if 0 <? has_ldm then or_error (listed "list_ldm_volumes" sb) (listed "list_ldm_partitions") else ret (Some sb)))))))).

End listfs.

(** * src/inspect-fs.c *)

(** m->im_type == MOUNTABLE_DEVICE *)
Definition is_device (m : internal_mountable) : bool := match im_type m with MOUNTABLE_DEVICE => true | _ => false end.

Section check_fs.
Context (A : guest_api) (buckets : nat -> Z) (db : failure + list osinfo) (W : iconv_world).

Definition file_in (p : string) : im bool := positive (is_file A p).
Definition dir_in (p : string) : im bool := positive (is_dir A p).
Definition absent (m : im Z) : im bool := r <- m ;; ret (r =? 0).
Definition nocase_dir (p : string) : im bool := positive (guestfs___is_dir_nocase A p).
Definition nocase_file (p : string) : im bool := positive (guestfs___is_file_nocase A p).

(** An entry that is a root; [Some r]: return r, [None]: go on. *)
Definition found_root (f : inspect_os_format) (check : im Z) : im (option Z) :=
  set_fs (fun fs => fs <| is_root := true |> <| format := f |>) ;;;
  r <- check ;;
  ret (if r =? -1 then Some (-1) else None).
(** /dev/sda1 of a BSD is a shadow of the real root. *)
Definition bsd_root (m : internal_mountable) (check : im Z) : im (option Z) :=
  if is_device m && guestfs___match (im_device m) re_first_partition then ret (Some 0)
  else found_root OS_FORMAT_INSTALLED check.

(** Roots of Unix, then the file systems that are none. *)
Definition else_m (cond : im bool) (m1 m2 : im (option Z)) : im (option Z) := b <- cond ;; if b : bool then m1 else m2.
Definition nothing : im (option Z) := ret None.
Definition windows_or_installer (whole_device partnum : Z) : im (option Z) :=
  windows_systemroot <- guestfs___get_windows_systemroot A ;;
  match windows_systemroot with
  | Some root => found_root OS_FORMAT_INSTALLED (guestfs___check_windows_root A W root)
  | None =>
      else_m (and_m (nocase_dir "/System Volume Information") (nocase_dir "/Program Files")) nothing (
      else_m (nocase_dir "/System Volume Information") nothing (
      else_m (and_m (nocase_dir "/FDOS") (nocase_file "/FDOS/FREEDOS.BSS"))
        (found_root OS_FORMAT_INSTALLED (
           set_type OS_TYPE_DOS ;;; set_distro OS_DISTRO_FREEDOS ;;; set_fs (fun fs => fs <| arch := Some "i386" |>) ;;; ret 0)) (
      else_m (and_m (ret (is_true whole_device || (partnum =? 1)))
                (any_m [file_in "/isolinux/isolinux.cfg"; dir_in "/EFI/BOOT"; file_in "/images/install.img"; dir_in "/.disk";
                        file_in "/.discinfo"; file_in "/i386/txtsetup.sif"; file_in "/amd64/txtsetup.sif";
                        file_in "/freedos/freedos.ico"; file_in "/boot/loader.rc"]))
        (found_root OS_FORMAT_INSTALLER (guestfs___check_installer_root A))
        nothing)))
  end.
Definition classify (m : internal_mountable) (whole_device partnum : Z) : im (option Z) :=
  etc <- dir_in "/etc" ;;
  bin <- dir_in "/bin" ;;
  share <- dir_in "/share" ;;
  else_m (any_m [file_in "/grub/menu.lst"; file_in "/grub/grub.conf"; file_in "/grub2/grub.cfg"]) nothing (
  else_m (all_m [ret etc; ret bin; file_in "/etc/freebsd-update.conf"; file_in "/etc/fstab"])
    (bsd_root m (guestfs___check_freebsd_root A buckets)) (
  else_m (all_m [ret etc; ret bin; file_in "/netbsd"; file_in "/etc/fstab"; file_in "/etc/release"])
    (bsd_root m (guestfs___check_netbsd_root A buckets)) (
  else_m (all_m [file_in "/hurd/console"; file_in "/hurd/hello"; file_in "/hurd/null"])
    (found_root OS_FORMAT_INSTALLED (guestfs___check_hurd_root A buckets)) (
  else_m (all_m [ret etc; ret bin; file_in "/service/vm"; file_in "/etc/fstab"; file_in "/etc/version"])
    (found_root OS_FORMAT_INSTALLED (guestfs___check_minix_root A buckets)) (
  else_m (all_m [ret etc; or_m (ret bin) (and_m (positive (is_symlink A "/bin")) (dir_in "/usr/bin")); file_in "/etc/fstab"])
    (found_root OS_FORMAT_INSTALLED (guestfs___check_linux_root A buckets)) (
  else_m (all_m [ret etc; ret bin; ret share; absent (is_dir A "/local"); absent (is_file A "/etc/fstab")]) nothing (
  else_m (all_m [ret etc; ret bin; ret share; dir_in "/local"; absent (is_file A "/etc/fstab")]) nothing (
  else_m (all_m [dir_in "/log"; dir_in "/run"; dir_in "/spool"]) nothing (
  windows_or_installer whole_device partnum))))))))).
Definition check_filesystem (mnt : string) (m : internal_mountable) (whole_device : Z) : im Z :=
  extend_fses ;;;
  partnum <- (if negb (is_true whole_device) && is_device m
              then silently (call_int (api_int A) "part_to_partnum" [im_device m]) else ret (-1)) ;;
  set_fs (fun fs => fs <| mountable := mnt |>) ;;;
  r <- classify m whole_device partnum ;;
  match r with
  | Some r => ret r
  | None => guestfs___check_package_format ;;; guestfs___check_package_management ;;; ret 0
  end.

Definition mount_vfs (options mnt : string) : im Z := call_int (api_int A) "mount_vfs" [options; "ufs"; mnt; "/"].
Definition mount_quietly (vfs_type : option string) (mnt : string) : im Z :=
  silently (
    if bool_decide (vfs_type = Some "ufs") then
      r <- mount_vfs "ro,ufstype=ufs2" mnt ;;
      if r =? -1 then mount_vfs "ro,ufstype=44bsd" mnt else ret r
    else call_int (api_int A) "mount_ro" [mnt; "/"]).
Definition umount_all : im Z := call_int (api_int A) "umount_all" [].
Definition mount_and_check (vfs_type : option string) (mnt : string) (m : internal_mountable) (whole_device : Z) : im Z :=
  r <- mount_quietly vfs_type mnt ;;
  if r =? -1 then ret 0
  else
    r <- check_filesystem mnt m whole_device ;;
    u <- umount_all ;;
    ret (if u =? -1 then -1 else r).
(** Whether a whole device is an installation disk; [None]: it is not. *)
Definition check_iso (device : string) : im (option Z) :=
  extend_fses ;;;
  r <- guestfs___check_installer_iso A db device ;;
  if r =? -1 then drop_fs ;;; ret (Some (-1))
  else if 0 <? r then ret (Some 0)
  else drop_fs ;;; ret None.
Definition guestfs___check_for_filesystem_on (mnt : string) : im Z :=
  vfs_type <- silently (call (api_str A) "vfs_type" [mnt]) ;;
  debug ("check_for_filesystem_on: " +:+ mnt +:+ " (" +:+ default "failed to get vfs type" vfs_type +:+ ")") ;;;
  if bool_decide (vfs_type = Some "swap") then
    extend_fses ;;; set_fs (fun fs => fs <| mountable := mnt |>) ;;; ret 0
  else
    m <- call (api_mountable A) "internal_parse_mountable" [mnt] ;;
    match m with
    | None => ret (-1)
    | Some m =>
        whole_device <- (if is_device m
                         then call_int (api_int A) "is_whole_device" [im_device m] else ret 0) ;;
        if whole_device =? -1 then ret (-1)
        else
          r <- (if is_true whole_device then check_iso (im_device m) else ret None) ;;
          match r with
          | Some r => ret r
          | None => mount_and_check vfs_type mnt m whole_device
          end
    end.

(** * src/inspect.c *)

Definition guestfs___free_inspect_info : im unit := modify (fun s => s <| i_fses := [] |>).

Definition root_mountables (fses : list inspect_fs) : list string := mountable <$> List.filter is_root fses.
Definition guestfs__inspect_get_roots : im (list string) := gets (fun s => sort_strings (root_mountables (i_fses s))).

(** fs += 2: after a last string without a type the loop leaves the list.
    [false]: an error. *)
Fixpoint inspect_loop (fses : list string) : im bool :=
  match fses with
  | [] => ret true
  | fs :: rest =>
      r <- guestfs___check_for_filesystem_on fs ;;
      if is_true r then guestfs___free_inspect_info ;;; ret false
      else match rest with [] => halt Undefined | _ :: rest' => inspect_loop rest' end
  end.
Definition guestfs__inspect_os : im (option (list string)) :=
  guestfs___free_inspect_info ;;;
  u <- umount_all ;;
  if u =? -1 then ret None
  else
    fses <- guestfs__list_filesystems A ;;
    match fses with
    | None => ret None
    | Some fses =>
        ok <- inspect_loop fses ;;
        if ok : bool then r <- guestfs__inspect_get_roots ;; ret (Some r) else ret None
    end.

End check_fs.

Definition guestfs___search_for_root (root : string) : im (option inspect_fs) :=
  fses <- gets i_fses ;;
  match fses with
  | [] => error "no inspection data: call guestfs_inspect_os first" ;;; ret None
  | _ =>
      match List.find (fun fs => is_root fs && STREQ root (mountable fs)) fses with
      | Some fs => ret (Some fs)
      | None =>
          error (root +:+ ": root device not found: only call this function with a root device previously returned by guestfs_inspect_os") ;;;
          ret None
      end
  end.

(** ** Getters *)

Definition os_type_string (t : inspect_os_type) : string :=
  match t with
  | OS_TYPE_DOS => "dos" | OS_TYPE_FREEBSD => "freebsd" | OS_TYPE_HURD => "hurd" | OS_TYPE_LINUX => "linux"
  | OS_TYPE_MINIX => "minix" | OS_TYPE_NETBSD => "netbsd" | OS_TYPE_OPENBSD => "openbsd" | OS_TYPE_WINDOWS => "windows"
  | OS_TYPE_UNKNOWN => "unknown"
  end.
Definition os_distro_string (d : inspect_os_distro) : string :=
  match d with
  | OS_DISTRO_ARCHLINUX => "archlinux" | OS_DISTRO_BUILDROOT => "buildroot" | OS_DISTRO_CENTOS => "centos"
  | OS_DISTRO_CIRROS => "cirros" | OS_DISTRO_DEBIAN => "debian" | OS_DISTRO_FEDORA => "fedora" | OS_DISTRO_FREEDOS => "freedos"
  | OS_DISTRO_GENTOO => "gentoo" | OS_DISTRO_LINUX_MINT => "linuxmint" | OS_DISTRO_MAGEIA => "mageia"
  | OS_DISTRO_MANDRIVA => "mandriva" | OS_DISTRO_MEEGO => "meego" | OS_DISTRO_OPENBSD => "openbsd"
  | OS_DISTRO_OPENSUSE => "opensuse" | OS_DISTRO_ORACLE_LINUX => "oraclelinux" | OS_DISTRO_PARDUS => "pardus"
  | OS_DISTRO_REDHAT_BASED => "redhat-based" | OS_DISTRO_RHEL => "rhel" | OS_DISTRO_SCIENTIFIC_LINUX => "scientificlinux"
  | OS_DISTRO_SLACKWARE => "slackware" | OS_DISTRO_SLES => "sles" | OS_DISTRO_SUSE_BASED => "suse-based"
  | OS_DISTRO_TTYLINUX => "ttylinux" | OS_DISTRO_WINDOWS => "windows" | OS_DISTRO_UBUNTU => "ubuntu"
  | OS_DISTRO_UNKNOWN => "unknown"
  end.
Definition os_format_string (f : inspect_os_format) : string :=
  match f with OS_FORMAT_INSTALLED => "installed" | OS_FORMAT_INSTALLER => "installer" | OS_FORMAT_UNKNOWN => "unknown" end.
Definition package_format_string (f : inspect_os_package_format) : string :=
  match f with
  | OS_PACKAGE_FORMAT_RPM => "rpm" | OS_PACKAGE_FORMAT_DEB => "deb" | OS_PACKAGE_FORMAT_PACMAN => "pacman"
  | OS_PACKAGE_FORMAT_EBUILD => "ebuild" | OS_PACKAGE_FORMAT_PISI => "pisi" | OS_PACKAGE_FORMAT_PKGSRC => "pkgsrc"
  | OS_PACKAGE_FORMAT_UNKNOWN => "unknown"
  end.
Definition package_management_string (p : inspect_os_package_management) : string :=
  match p with
  | OS_PACKAGE_MANAGEMENT_YUM => "yum" | OS_PACKAGE_MANAGEMENT_UP2DATE => "up2date" | OS_PACKAGE_MANAGEMENT_APT => "apt"
  | OS_PACKAGE_MANAGEMENT_PACMAN => "pacman" | OS_PACKAGE_MANAGEMENT_PORTAGE => "portage" | OS_PACKAGE_MANAGEMENT_PISI => "pisi"
  | OS_PACKAGE_MANAGEMENT_URPMI => "urpmi" | OS_PACKAGE_MANAGEMENT_ZYPPER => "zypper" | OS_PACKAGE_MANAGEMENT_UNKNOWN => "unknown"
  end.

(** NULL or -1 when there is no such root. *)
Definition of_root {R} (root : string) (f : inspect_fs -> R) : im (option R) :=
  fs <- guestfs___search_for_root root ;; ret (f <$> fs).
Definition of_root_int (root : string) (f : inspect_fs -> Z) : im Z := r <- of_root root f ;; ret (default (-1) r).
Definition of_root_required (root : string) (f : inspect_fs -> option string) (msg : string) : im (option string) :=
  fs <- guestfs___search_for_root root ;;
  match fs with
  | None => ret None
  | Some fs => match f fs with Some v => ret (Some v) | None => error msg ;;; ret None end
  end.
Definition guestfs__inspect_get_type (root : string) : im (option string) := of_root root (fun fs => os_type_string (fs_type fs)).
Definition guestfs__inspect_get_arch (root : string) : im (option string) := of_root root (fun fs => default "unknown" (arch fs)).
Definition guestfs__inspect_get_distro (root : string) : im (option string) := of_root root (fun fs => os_distro_string (distro fs)).
Definition guestfs__inspect_get_major_version (root : string) : im Z := of_root_int root major_version.
Definition guestfs__inspect_get_minor_version (root : string) : im Z := of_root_int root minor_version.
Definition guestfs__inspect_get_product_name (root : string) : im (option string) :=
  of_root root (fun fs => default "unknown" (product_name fs)).
Definition guestfs__inspect_get_product_variant (root : string) : im (option string) :=
  of_root root (fun fs => default "unknown" (product_variant fs)).
Definition guestfs__inspect_get_windows_systemroot (root : string) : im (option string) :=
  of_root_required root windows_systemroot "not a Windows guest, or systemroot could not be determined".
Definition guestfs__inspect_get_windows_current_control_set (root : string) : im (option string) :=
  of_root_required root windows_current_control_set "not a Windows guest, or CurrentControlSet could not be determined".
Definition guestfs__inspect_get_format (root : string) : im (option string) := of_root root (fun fs => os_format_string (format fs)).
Definition guestfs__inspect_is_live (root : string) : im Z := of_root_int root is_live_disk.
Definition guestfs__inspect_is_netinst (root : string) : im Z := of_root_int root is_netinst_disk.
Definition guestfs__inspect_is_multipart (root : string) : im Z := of_root_int root is_multipart_disk.
(** Pairs of a mount point and a device, for the mount points that are paths. *)
Definition is_path (s : string) : bool := match s with String c _ => Ascii.eqb c "/" | EmptyString => false end.
Definition guestfs__inspect_get_mountpoints (root : string) : im (option (list string)) :=
  of_root root (fun fs =>
    match fstab fs with
    | [] => ["/"; root]
    | l => concat ((fun e => [fe_mountpoint e; fe_mountable e]) <$> List.filter (fun e => is_path (fe_mountpoint e)) l)
    end).
Definition guestfs__inspect_get_filesystems (root : string) : im (option (list string)) :=
  of_root root (fun fs => match fstab fs with [] => [root] | l => fe_mountable <$> l end).
Definition guestfs__inspect_get_drive_mappings (root : string) : im (option (list string)) :=
  of_root root (fun fs => default [] (drive_mappings fs)).
Definition guestfs__inspect_get_package_format (root : string) : im (option string) :=
  of_root root (fun fs => package_format_string (package_format fs)).
Definition guestfs__inspect_get_package_management (root : string) : im (option string) :=
  of_root root (fun fs => package_management_string (package_management fs)).
Definition guestfs__inspect_get_hostname (root : string) : im (option string) :=
  of_root root (fun fs => default "unknown" (hostname fs)).
