(* ===== verification/InspectSpec.v ===== *)
(** What inspection promises: it looks at the guest through queries and
    read-only mounts only, leaves nothing mounted and its error handlers in
    place, and the roots that inspect_os returns are those that the getters
    know about. *)

From S2P Require Import Prelude Xdr Protocol Handle Utils Events Conn LibProto Config Lifecycle Drives Command Guestfsd Procs Parted Filesys Btrfs Regex Inspect InspectUnix InspectCd InspectWin InspectSafe InspectOs.
From stdpp Require Import sorting.
From Stdlib Require Import Ascii.

Open Scope Z_scope.
#[local] Arguments String.append : simpl nomatch.

(** * Calls *)

Definition is_umount (c : acall) : bool := match c with Api name _ => STREQ name "umount_all" end.
Definition is_mount (c : acall) : bool := match c with Api name _ => STREQ name "mount_ro" || STREQ name "mount_vfs" end.
(** A query, umount_all, or a mount that the daemon makes read-only. *)
Definition read_only (c : acall) : bool :=
  is_query c || is_umount c ||
  match c with Api name args => STREQ name "mount_ro" || (STREQ name "mount_vfs" && STRPREFIX (hd "" args) "ro,") end.

Section mounted.
Context (A : guest_api).
(** Whether a call succeeded. *)
Definition succeeded (h : list acall) (c : acall) : bool :=
  match c with Api name args => negb (default (-1) (match api_int A h name args with inr r => Some r | inl _ => None end) =? -1) end.
(** Whether something may be mounted after some calls. *)
Definition mounted_by (h : list acall) (c : acall) (m : bool) : bool :=
  if is_mount c then m || succeeded h c else if is_umount c then m && negb (succeeded h c) else m.
Fixpoint mounted_from (h calls : list acall) (m : bool) : bool :=
  match calls with [] => m | c :: calls' => mounted_from (h ++ [c]) calls' (mounted_by h c m) end.
Definition mounted (calls : list acall) : bool := mounted_from [] calls true.

Lemma mounted_from_app l1 l2 : forall h m, mounted_from h (l1 ++ l2) m = mounted_from (h ++ l1) l2 (mounted_from h l1 m).
Proof. induction l1 as [|c l1 IH]; intros h m; cbn; [by rewrite app_nil_r|]. by rewrite IH, <- app_assoc. Qed.
Lemma mounted_app l1 l2 : mounted (l1 ++ l2) = mounted_from l1 l2 (mounted l1).
Proof. apply mounted_from_app. Qed.
Lemma query_no_mount c : is_query c = true -> is_mount c = false /\ is_umount c = false.
Proof.
  destruct c as [name args]. cbn [is_query is_mount is_umount]. intros H. apply existsb_exists in H as (q & Hq & E).
  apply String.eqb_eq in E as ->. revert q Hq. apply List.Forall_forall.
  unfold queries. repeat apply List.Forall_cons; try apply List.Forall_nil; done.
Qed.
Lemma mounted_queries l : forallb is_query l = true -> forall h m, mounted_from h l m = m.
Proof.
  induction l as [|c l IH]; intros H h m; cbn; [done|]. apply andb_true_iff in H as [Hc H]. rewrite IH by done.
  unfold mounted_by. by destruct (query_no_mount c Hc) as [-> ->].
Qed.
End mounted.

(** * Steps that may change the entries *)

Definition grows (ok : acall -> bool) (s s' : inspector) : Prop := exists new, i_calls s' = i_calls s ++ new /\ forallb ok new = true.
Definition does (ok : acall -> bool) (s s' : inspector) : Prop := grows ok s s' /\ kept (i_g s') = kept (i_g s).

#[export] Instance grows_preorder ok : PreOrder (grows ok).
Proof.
  split; [intros s; exists []; by rewrite app_nil_r|].
  intros s1 s2 s3 (n1 & E1 & Q1) (n2 & E2 & Q2). exists (n1 ++ n2). by rewrite E2, E1, app_assoc, forallb_app, Q1, Q2.
Qed.
#[export] Instance does_preorder ok : PreOrder (does ok).
Proof.
  split; [intros s; split; reflexivity|]. intros s1 s2 s3 [G1 K1] [G2 K2]. split; [by etrans|by rewrite K2].
Qed.

Section tame.
Context (A : guest_api) (drives : nat).

Definition tame (ok : acall -> bool) {R} (m : im R) : Prop := forall s, length (g_drives (i_g s)) = drives ->
  match m s with
  | (Ret _, s') => does ok s s'
  | (Stop _, s') => grows ok s s' /\ explained A drives s'
  end.

Lemma does_drives ok s s' : does ok s s' -> length (g_drives (i_g s)) = drives -> length (g_drives (i_g s')) = drives.
Proof. intros [_ K] <-. by rewrite (kept_drives _ _ K). Qed.
Lemma tame_bind ok {R S} (m : im R) (f : R -> im S) : tame ok m -> (forall a, tame ok (f a)) -> tame ok (bind m f).
Proof.
  intros Hm Hf s Hn. specialize (Hm s Hn). unfold bind. destruct (m s) as [[a|w] s1]; [|done].
  specialize (Hf a s1 (does_drives _ _ _ Hm Hn)). destruct (f a s1) as [[b|w] s2]; [by etrans|].
  split; [|by apply Hf]. etrans; [apply Hm|apply Hf].
Qed.
Lemma tame_ret ok {R} (a : R) : tame ok (ret a).
Proof. intros s _. cbn. reflexivity. Qed.
Lemma tame_gets ok {R} (f : inspector -> R) : tame ok (gets f).
Proof. intros s _. cbn. reflexivity. Qed.
Lemma tame_safe {R} (m : im R) : safe A drives True m -> tame is_query m.
Proof.
  intros H s Hn. specialize (H s Hn). destruct (m s) as [[a|w] s']; destruct H as [St H].
  - split; apply St.
  - split; [apply St|auto].
Qed.
Lemma grows_mono (ok ok' : acall -> bool) s s' : (forall c, ok c = true -> ok' c = true) -> grows ok s s' -> grows ok' s s'.
Proof.
  intros H (new & E & Q). exists new. split; [done|]. rewrite forallb_forall in Q |- *. auto.
Qed.
Lemma tame_mono (ok ok' : acall -> bool) {R} (m : im R) : (forall c, ok c = true -> ok' c = true) -> tame ok m -> tame ok' m.
Proof.
  intros H Hm s Hn. specialize (Hm s Hn). destruct (m s) as [[a|w] s']; destruct Hm as [G K]; split; try done; by eapply grows_mono.
Qed.
Lemma query_read_only c : is_query c = true -> read_only c = true.
Proof. intros Hc. unfold read_only. by rewrite Hc. Qed.
Lemma step_does s s' : step s s' -> does read_only s s' /\ (i_fses s = [] -> i_fses s' = []).
Proof.
  intros [G K F]. split; [split; [|done]; eapply grows_mono; [apply query_read_only|exact G]|].
  intros E. rewrite E in F. destruct F as [->|([|] & fs & fs' & F & _)]; done.
Qed.
Lemma tame_query {R} (m : im R) : tame is_query m -> tame read_only m.
Proof. apply tame_mono, query_read_only. Qed.
(** A change of the entries only. *)
Lemma tame_fses ok f : tame ok (modify (fun s => s <| i_fses ::= f |>)).
Proof. intros s _. split; [exists []; by rewrite app_nil_r|done]. Qed.
Lemma tame_set_fs ok f : tame ok (set_fs f).
Proof. apply tame_fses. Qed.
Lemma tame_silently ok {R} (m : im R) : tame ok m -> tame ok (silently m).
Proof.
  intros Hm s Hn. set (s0 := s <| i_g ::= fun g => guestfs_push_error_handler g None 0 |>). specialize (Hm s0 Hn).
  unfold silently, on_h, zoom, bind, modify, ret. change (s <| i_g := guestfs_push_error_handler (i_g s) None 0 |>) with s0.
  destruct (m s0) as [[a|w] s1]; [|done]. destruct Hm as [G K]. split; [exact G|]. by apply kept_pop.
Qed.
Lemma tame_call ok {R} (f : answers R) name args : ok (Api name args) = true -> tame ok (call f name args).
Proof.
  intros Hok s Hn. unfold call.
  assert (forallb ok [Api name args] = true) by (cbn; by rewrite Hok).
  destruct (f _ name args) as [[e msg]|a]; (split; [by exists [Api name args]|]); [apply kept_error_errno|done].
Qed.
Lemma tame_call_int ok f name args : ok (Api name args) = true -> tame ok (call_int f name args).
Proof. intros H. apply tame_bind; [by apply tame_call|]. intros. apply tame_ret. Qed.

(** Queries mount nothing. *)
Definition tidy (m : im Z) : Prop := forall s, length (g_drives (i_g s)) = drives ->
  match m s with
  | (Ret r, s') => r = 0 -> mounted A (i_calls s) = false -> mounted A (i_calls s') = false
  | (Stop _, _) => True
  end.
Lemma does_mounted s s' : does is_query s s' -> mounted A (i_calls s') = mounted A (i_calls s).
Proof. intros [(new & -> & Q) _]. rewrite mounted_app. by apply mounted_queries. Qed.
Lemma tidy_bind {R} (m : im R) f : tame is_query m -> (forall a, tidy (f a)) -> tidy (bind m f).
Proof.
  intros Hm Hf s Hn. specialize (Hm s Hn). unfold bind. destruct (m s) as [[a|w] s1]; [|done].
  specialize (Hf a s1 (does_drives _ _ _ Hm Hn)). destruct (f a s1) as [[r|w] s2]; [|done].
  intros Hr Hu. apply Hf; [done|]. by rewrite (does_mounted _ _ Hm).
Qed.
Lemma tidy_ret r : tidy (ret r).
Proof. by intros s _ _. Qed.
Lemma tidy_query m : tame is_query m -> tidy m.
Proof. intros Hm s Hn. specialize (Hm s Hn). destruct (m s) as [[r|w] s1]; [|done]. by rewrite (does_mounted _ _ Hm). Qed.
End tame.

Create HintDb tame.
#[export] Hint Resolve tame_ret tame_gets tame_fses tame_set_fs : tame.
Ltac tame_step :=
  match goal with
  | |- tame _ _ _ (bind _ _) => apply tame_bind; [|intros]
  | |- tame _ _ _ (silently _) => apply tame_silently
  | |- tame _ _ _ (call _ _ _) => apply tame_call; reflexivity
  | |- tame _ _ _ (call_int _ _ _) => apply tame_call_int; reflexivity
  | |- tame _ _ _ (if ?b then _ else _) => destruct b
  | |- tame _ _ _ (match ?x with _ => _ end) => destruct x
  | |- tame _ _ _ _ => solve [eauto with tame]
  | |- tame _ _ is_query _ => solve [apply tame_safe; safe_auto]
  end.
Ltac tame_auto := repeat (cbv beta zeta; tame_step).

(** * src/listfs.c *)

Section listfs_safe.
Context (A : guest_api) (drives : nat).
Implicit Types P : Prop.
Lemma safe_check_vfs P d sb : safe A drives P (check_with_vfs_type A d sb).
Proof. unfold check_with_vfs_type. safe_auto. Qed.
Lemma safe_type_42 P p : safe A drives P (is_mbr_partition_type_42 A p).
Proof. unfold is_mbr_partition_type_42. safe_auto. Qed.
Lemma safe_exclude P l : forall devices, safe A drives P (exclude_devices A l devices).
Proof. induction l; intros; cbn [exclude_devices]; safe_auto. Qed.
#[local] Hint Resolve safe_check_vfs safe_type_42 safe_exclude : inspect.
Lemma safe_check_all P test l : (forall d, safe A drives P (test d)) -> forall sb, safe A drives P (check_all A test l sb).
Proof. intros H. induction l; intros; cbn [check_all]; safe_auto. Qed.
Lemma safe_listed P name sb : existsb (String.eqb name) queries = true -> safe A drives P (listed A name sb).
Proof.
  intros H. unfold listed. apply safe_bind; [by apply safe_call|]. intros [l|]; [|apply safe_ret].
  apply safe_check_all. intros. apply safe_ret.
Qed.
Lemma safe_or_error P m k : safe A drives P m -> (forall sb, safe A drives P (k sb)) -> safe A drives P (or_error m k).
Proof. intros. unfold or_error. safe_auto. Qed.
Lemma safe_list_filesystems P : safe A drives P (guestfs__list_filesystems A).
Proof.
  unfold guestfs__list_filesystems. do 2 (apply safe_bind; [safe_auto|intros]).
  do 3 (apply safe_or_error; [safe_auto|intros]). apply safe_bind; [safe_auto|intros].
  do 3 (apply safe_or_error; [apply safe_check_all; intros; unfold every; safe_auto|intros]).
  apply safe_or_error; [destruct (_ <? _); [by apply safe_listed|apply safe_ret]|intros].
  destruct (_ <? _); [|apply safe_ret]. apply safe_or_error; intros; by apply safe_listed.
Qed.

(** The strings come in pairs. *)
Definition gives {R} (m : im R) (Q : R -> Prop) : Prop := forall s, match m s with (Ret a, _) => Q a | (Stop _, _) => True end.
Lemma gives_bind {R S} (m : im R) (f : R -> im S) (Q : R -> Prop) Q' : gives m Q -> (forall a, Q a -> gives (f a) Q') -> gives (bind m f) Q'.
Proof.
  intros Hm Hf s. specialize (Hm s). unfold bind. destruct (m s) as [[a|w] s1]; [|done]. by apply Hf.
Qed.
Lemma gives_any {R} (m : im R) : gives m (fun _ => True).
Proof. intros s. by destruct (m s) as [[]]. Qed.
Lemma gives_ret {R} (a : R) (Q : R -> Prop) : Q a -> gives (ret a) Q.
Proof. by intros H s. Qed.
Definition pairs (l : list string) : Prop := Nat.Even (length l).
Definition pairs_of (r : option (list string)) : Prop := match r with Some l => pairs l | None => True end.
Lemma pairs_app l l' : pairs l -> pairs l' -> pairs (l ++ l').
Proof. unfold pairs. rewrite length_app. intros [a ->] [b ->]. exists (a + b)%nat. lia. Qed.
Lemma pairs_two a b : pairs [a; b].
Proof. by exists 1%nat. Qed.
Lemma pairs_subvolumes d vols : pairs (subvolume_strings d vols).
Proof. unfold subvolume_strings. induction vols as [|v vols IH]; [by exists 0%nat|]. rewrite fmap_cons. cbn [concat]. apply pairs_app; [apply pairs_two|done]. Qed.
Lemma pairs_check d sb : pairs sb -> gives (check_with_vfs_type A d sb) pairs_of.
Proof.
  intros H. unfold check_with_vfs_type. eapply gives_bind; [apply gives_any|]. intros [t|] _.
  - destruct (STREQ t ""); [apply gives_ret, pairs_app; auto using pairs_two|]. destruct (STREQ t "btrfs").
    + eapply gives_bind; [apply gives_any|]. intros [vols|] _; apply gives_ret; [|done].
      repeat apply pairs_app; auto using pairs_two, pairs_subvolumes.
    + destruct (is_container t); apply gives_ret; [done|]. apply pairs_app; auto using pairs_two.
  - apply gives_ret, pairs_app; auto using pairs_two.
Qed.
Lemma pairs_check_all test l : forall sb, pairs sb -> gives (check_all A test l sb) pairs_of.
Proof.
  induction l as [|d l IH]; intros sb H; cbn [check_all]; [by apply gives_ret|].
  eapply gives_bind; [apply gives_any|]. intros [|] _; [|by apply IH].
  eapply gives_bind; [by apply pairs_check|]. intros [sb'|] H'; [by apply IH|by apply gives_ret].
Qed.
Lemma pairs_listed name sb : pairs sb -> gives (listed A name sb) pairs_of.
Proof. intros H. eapply gives_bind; [apply gives_any|]. intros [l|] _; [by apply pairs_check_all|by apply gives_ret]. Qed.
Lemma pairs_or_error m k : gives m pairs_of -> (forall sb, pairs sb -> gives (k sb) pairs_of) -> gives (or_error m k) pairs_of.
Proof. intros Hm Hk. eapply gives_bind; [exact Hm|]. intros [sb|] H; [by apply Hk|by apply gives_ret]. Qed.
Lemma any_or_error m k : (forall sb, gives (k sb) pairs_of) -> gives (or_error m k) pairs_of.
Proof. intros Hk. eapply gives_bind; [apply gives_any|]. intros [sb|] _; [by apply Hk|by apply gives_ret]. Qed.
Lemma list_filesystems_pairs : gives (guestfs__list_filesystems A) pairs_of.
Proof.
  do 2 (eapply gives_bind; [apply gives_any|]; intros ? _). do 3 (apply any_or_error; intros).
  eapply gives_bind; [apply gives_any|]. intros devices _.
  do 3 (apply pairs_or_error; [apply pairs_check_all; done || by exists 0%nat|intros]).
  apply pairs_or_error; [destruct (_ <? _); [by apply pairs_listed|by apply gives_ret]|intros].
  destruct (_ <? _); [|by apply gives_ret]. apply pairs_or_error; [by apply pairs_listed|]. intros. by apply pairs_listed.
Qed.
End listfs_safe.
#[export] Hint Resolve safe_list_filesystems : inspect.

(** * src/inspect-fs.c and src/inspect.c *)

Section check_fs_tame.
Context (A : guest_api) (drives : nat) (buckets : nat -> Z) (db : failure + list osinfo) (W : iconv_world).
Hypothesis convert_nothing : forall n, ic_convert W [] n <> IconvTooBig.
Notation asks := (tame A drives is_query).

Lemma safe_file_in P p : safe A drives P (file_in A p).
Proof. unfold file_in. safe_auto. Qed.
Lemma safe_dir_in P p : safe A drives P (dir_in A p).
Proof. unfold dir_in. safe_auto. Qed.
Lemma safe_absent P m : safe A drives P m -> safe A drives P (absent m).
Proof. intros. unfold absent. safe_auto. Qed.
Lemma safe_nocase_dir P p : safe A drives P (nocase_dir A p).
Proof. unfold nocase_dir. safe_auto. Qed.
Lemma safe_nocase_file P p : safe A drives P (nocase_file A p).
Proof. unfold nocase_file. safe_auto. Qed.
#[local] Hint Resolve safe_file_in safe_dir_in safe_absent safe_nocase_dir safe_nocase_file : inspect.
#[local] Hint Extern 1 (Forall _ (_ :: _)) => apply Forall_cons_2 : inspect.
#[local] Hint Extern 1 (Forall _ []) => apply Forall_nil_2 : inspect.
Lemma asks_found_root f m : safe A drives True m -> asks (found_root f m).
Proof. intros H. apply tame_safe in H. unfold found_root. tame_auto. Qed.
Lemma asks_bsd_root i m : safe A drives True m -> asks (bsd_root i m).
Proof. intros H. unfold bsd_root. destruct (_ && _); [apply tame_ret|by apply asks_found_root]. Qed.
Lemma asks_else c m1 m2 : safe A drives True c -> asks m1 -> asks m2 -> asks (else_m c m1 m2).
Proof. intros H. apply tame_safe in H. intros. unfold else_m. tame_auto. Qed.
Lemma asks_nothing : asks nothing.
Proof. apply tame_ret. Qed.
#[local] Hint Resolve asks_nothing : tame.
(** A decision of check_filesystem: its condition asks, and so does what it leads to. *)
Ltac decision := apply asks_else; [solve [eauto 30 with inspect]|first [apply asks_nothing|apply asks_found_root|apply asks_bsd_root]; safe_auto|].
Lemma asks_windows_or_installer whole partnum : asks (windows_or_installer A W whole partnum).
Proof.
  unfold windows_or_installer. apply tame_bind; [apply tame_safe, safe_get_systemroot|]. intros [root|].
  - apply asks_found_root. by apply safe_windows_root.
  - repeat decision. apply asks_nothing.
Qed.
Lemma asks_classify m whole partnum : asks (classify A buckets W m whole partnum).
Proof.
  unfold classify. do 3 (apply tame_bind; [apply tame_safe, safe_dir_in|intros]). repeat decision. apply asks_windows_or_installer.
Qed.
#[local] Hint Resolve asks_classify : tame.
Lemma asks_check_filesystem mnt m whole : asks (check_filesystem A buckets W mnt m whole).
Proof.
  unfold check_filesystem, extend_fses, guestfs___check_package_format, guestfs___check_package_management. tame_auto.
Qed.
Lemma asks_check_iso device : asks (check_iso A db device).
Proof.
  unfold check_iso, guestfs___check_installer_iso, extend_fses, drop_fs, guestfs___check_package_format, guestfs___check_package_management.
  tame_auto.
Qed.

(** ** Mounts *)

Lemma tame_umount : tame A drives read_only (umount_all A).
Proof. unfold umount_all. tame_auto. Qed.
Lemma tame_mount vfs mnt : tame A drives read_only (mount_quietly A vfs mnt).
Proof. unfold mount_quietly, mount_vfs. tame_auto. Qed.
Lemma tame_check_for mnt : tame A drives read_only (guestfs___check_for_filesystem_on A buckets db W mnt).
Proof.
  unfold guestfs___check_for_filesystem_on. apply tame_bind; [tame_auto|]. intros vfs.
  apply tame_bind; [apply tame_query, tame_safe, safe_debug|]. intros _. unfold extend_fses. destruct (bool_decide _); [tame_auto|].
  apply tame_bind; [tame_auto|]. intros [m|]; [|apply tame_ret]. apply tame_bind; [tame_auto|]. intros whole.
  destruct (whole =? -1); [apply tame_ret|]. apply tame_bind; [destruct (is_true whole); [apply tame_query, asks_check_iso|apply tame_ret]|].
  intros [r|]; [apply tame_ret|]. apply tame_bind; [apply tame_mount|]. intros r. destruct (r =? -1); [apply tame_ret|].
  apply tame_bind; [apply tame_query, asks_check_filesystem|]. intros. apply tame_bind; [apply tame_umount|]. intros. apply tame_ret.
Qed.

(** The result of a call says what it did. *)
Lemma call_int_mounted f name args s : f = api_int A ->
  exists r s', call_int f name args s = (Ret r, s') /\ i_calls s' = i_calls s ++ [Api name args] /\
  mounted A (i_calls s') = mounted_by A (i_calls s) (Api name args) (mounted A (i_calls s)) /\
  succeeded A (i_calls s) (Api name args) = negb (r =? -1).
Proof.
  intros ->. unfold call_int, call, bind. cbn [succeeded]. destruct (api_int A (i_calls s) name args) as [[e msg]|r]; do 2 eexists;
    (split; [reflexivity|]); cbn [i_calls upd upd_i_calls upd_i_g]; by rewrite mounted_app.
Qed.
Lemma umount_unmounts s : exists r s', umount_all A s = (Ret r, s') /\ (r <> -1 -> mounted A (i_calls s') = false).
Proof.
  destruct (call_int_mounted (api_int A) "umount_all" [] s eq_refl) as (r & s' & E & _ & M & S). exists r, s'. split; [exact E|].
  intros Hr. rewrite M. unfold mounted_by. rewrite S. change (is_mount _) with false. change (is_umount _) with true.
  replace (r =? -1) with false by lia. by rewrite andb_false_r.
Qed.
Lemma mount_failed name args s : is_mount (Api name args) = true -> exists r s', call_int (api_int A) name args s = (Ret r, s') /\
  (r = -1 -> mounted A (i_calls s) = false -> mounted A (i_calls s') = false).
Proof.
  intros Hm. destruct (call_int_mounted (api_int A) name args s eq_refl) as (r & s' & E & _ & M & S). exists r, s'. split; [exact E|].
  intros -> Hu. rewrite M, Hu. unfold mounted_by. by rewrite Hm, S.
Qed.
Lemma mount_quietly_failed vfs mnt s : exists r s', mount_quietly A vfs mnt s = (Ret r, s') /\
  (r = -1 -> mounted A (i_calls s) = false -> mounted A (i_calls s') = false).
Proof.
  unfold mount_quietly, silently, on_h, zoom, bind at 1, modify. cbn [fst snd].
  match goal with |- context [bind _ _ ?s0] => set (s1 := s0) end.
  destruct (bool_decide _).
  - destruct (mount_failed "mount_vfs" ["ro,ufstype=ufs2"; "ufs"; mnt; "/"] s1 eq_refl) as (r & s2 & E & H). unfold mount_vfs, bind, ret. rewrite E.
    destruct (Z.eqb_spec r (-1)) as [->|].
    + destruct (mount_failed "mount_vfs" ["ro,ufstype=44bsd"; "ufs"; mnt; "/"] s2 eq_refl) as (r' & s3 & E' & H'). rewrite E'.
      do 2 eexists. split; [reflexivity|]. intros Hr Hu. apply (H' Hr). by apply H.
    + do 2 eexists. by split.
  - destruct (mount_failed "mount_ro" [mnt; "/"] s1 eq_refl) as (r & s2 & E & H). unfold bind, ret. rewrite E.
    do 2 eexists. split; [reflexivity|]. exact H.
Qed.
Lemma tidy_mount_and_check vfs mnt m whole : tidy A drives (mount_and_check A buckets W vfs mnt m whole).
Proof.
  intros s Hn. unfold mount_and_check, bind. pose proof (tame_mount vfs mnt s Hn) as T.
  destruct (mount_quietly_failed vfs mnt s) as (r & s1 & E & H). rewrite E in T |- *.
  destruct (Z.eqb_spec r (-1)) as [->|]; [cbn; auto|]. pose proof (asks_check_filesystem mnt m whole s1 (does_drives _ _ _ _ T Hn)) as T1.
  destruct (check_filesystem _ _ _ _ _ _ s1) as [[r1|w] s2]; [|done].
  destruct (umount_unmounts s2) as (u & s3 & Eu & Hu). rewrite Eu. cbn. destruct (Z.eqb_spec u (-1)); [done|auto].
Qed.
Lemma tidy_check_for mnt : tidy A drives (guestfs___check_for_filesystem_on A buckets db W mnt).
Proof.
  unfold guestfs___check_for_filesystem_on. apply tidy_bind; [tame_auto|]. intros vfs. apply tidy_bind; [tame_auto|]. intros _.
  unfold extend_fses. destruct (bool_decide _); [apply tidy_query; tame_auto|]. apply tidy_bind; [tame_auto|].
  intros [m|]; [|apply tidy_ret]. apply tidy_bind; [tame_auto|]. intros whole. destruct (whole =? -1); [apply tidy_ret|].
  apply tidy_bind; [destruct (is_true whole); [apply asks_check_iso|apply tame_ret]|].
  intros [r|]; [apply tidy_ret|]. apply tidy_mount_and_check.
Qed.

(** ** inspect_os *)

Definition looped (s : inspector) (r : outcome bool * inspector) : Prop :=
  match r with
  | (Ret true, s') => does read_only s s' /\ (mounted A (i_calls s) = false -> mounted A (i_calls s') = false)
  | (Ret false, s') => does read_only s s' /\ i_fses s' = []
  | (Stop _, s') => grows read_only s s' /\ explained A drives s'
  end.
Lemma looped_after s s1 r : does read_only s s1 -> (mounted A (i_calls s) = false -> mounted A (i_calls s1) = false) -> looped s1 r -> looped s r.
Proof.
  intros D M. destruct r as [[[|]|w] s2]; intros [D2 M2]; split; try done; auto.
  1,2: by etrans. etrans; [apply D|done].
Qed.
Lemma inspect_loop_does : forall l s, pairs l -> length (g_drives (i_g s)) = drives -> looped s (inspect_loop A buckets db W l s).
Proof.
  fix IH 1. intros [|fs [|t l]] s Hp Hn; cbn [inspect_loop].
  - by split.
  - by destruct Hp as [[|n] Hp]; cbn in Hp; lia.
  - unfold bind at 1. pose proof (tame_check_for fs s Hn) as T. pose proof (tidy_check_for fs s Hn) as M.
    destruct (guestfs___check_for_filesystem_on _ _ _ _ fs s) as [[r|w] s1]; [|exact T].
    unfold is_true. destruct (Z.eqb_spec r 0) as [->|]; cbn [negb].
    + eapply looped_after; [exact T|auto|]. apply IH; [|by eapply does_drives]. destruct Hp as [[|n] Hp]; [done|].
      exists n. cbn in Hp. lia.
    + split; [|done]. etrans; [exact T|]. apply (tame_fses A drives read_only (fun _ => []) s1). by eapply does_drives.
Qed.
End check_fs_tame.

Lemma search_for_root_known s root : root ∈ root_mountables (i_fses s) ->
  exists fs, guestfs___search_for_root root s = (Ret (Some fs), s) /\ mountable fs = root /\ is_root fs = true /\ fs ∈ i_fses s.
Proof.
  intros H. apply list_elem_of_fmap in H as (fs & -> & H). apply list_elem_of_In, List.filter_In in H as [Hin Hr].
  unfold guestfs___search_for_root, bind, gets. destruct (i_fses s) as [|f l] eqn:E; [done|].
  destruct (List.find _ _) as [fs'|] eqn:F.
  - apply find_some in F as [Hin' F]. apply andb_true_iff in F as [Hr' F]. apply bool_decide_eq_true in F.
    exists fs'. split_and!; try done. by apply list_elem_of_In.
  - exfalso. apply (find_none _ _ F) in Hin. cbv beta in Hin. rewrite Hr in Hin. unfold STREQ in Hin.
    by rewrite bool_decide_eq_true_2 in Hin.
Qed.

(** C17: Inspection is read-only and leaves the handle as it was, whatever the guest answers:
    inspect_os makes only queries, umount_all and read-only mounts, and every error handler it
    pushed is popped; when it succeeds nothing is left mounted, and its result is, in strcmp
    order, the file systems of the entries marked as roots, each of which the getters then find;
    when it fails there is no inspection data left. It does not return only after one of a short
    list of answers on which the code goes wrong, such as fewer devices than drives or a failure
    of hivex_node_values. *)
Theorem inspect_os_safe (A : guest_api) (buckets : nat -> Z) (db : failure + list osinfo) (W : iconv_world) (s : inspector) :
  (forall n, ic_convert W [] n <> IconvTooBig) ->
  match guestfs__inspect_os A buckets db W s with
  | (Ret r, s') =>
      (exists new, i_calls s' = i_calls s ++ new /\ forallb read_only new = true) /\
      kept (i_g s') = kept (i_g s) /\
      match r with
      | None => i_fses s' = []
      | Some roots =>
          mounted A (i_calls s') = false /\
          Sorted str_le roots /\ roots ≡ₚ root_mountables (i_fses s') /\
          forall root, root ∈ roots ->
            exists fs, guestfs___search_for_root root s' = (Ret (Some fs), s') /\ mountable fs = root /\ is_root fs = true /\ fs ∈ i_fses s'
      end
  | (Stop _, s') =>
      (exists new, i_calls s' = i_calls s ++ new /\ forallb read_only new = true) /\
      explained A (length (g_drives (i_g s))) s'
  end.
Proof.
  intros HW. set (drives := length (g_drives (i_g s))). unfold guestfs__inspect_os, guestfs___free_inspect_info, modify. unfold bind at 1.
  set (s0 := s <| i_fses := [] |>). assert (does read_only s s0) as D0 by (apply (tame_fses A drives read_only (fun _ => []) s); done).
  unfold bind at 1. destruct (umount_unmounts A s0) as (u & s1 & Eu & Hu). pose proof (tame_umount A drives s0 eq_refl) as T.
  assert (i_fses s1 = []) as Hf1.
  { clear -Eu. unfold umount_all, call_int, call, bind, ret in Eu. destruct (api_int A _ _ _) as [[]|]; by injection Eu as _ <-. }
  rewrite Eu in T |- *. assert (does read_only s s1) as D1 by (by etrans). destruct (Z.eqb_spec u (-1)); [by destruct D1|].
  assert (length (g_drives (i_g s1)) = drives) as Hn1 by (by eapply does_drives).
  pose proof (safe_list_filesystems A drives True s1 Hn1) as L. pose proof (list_filesystems_pairs A s1) as Hp.
  unfold bind at 1. destruct (guestfs__list_filesystems A s1) as [[[fses|]|w] s2]; destruct L as [St L].
  - assert (does is_query s1 s2) as D2q by (split; apply St). destruct (step_does _ _ St) as [D2 _].
    pose proof (inspect_loop_does A drives buckets db W HW fses s2 Hp (does_drives _ _ _ _ D2 Hn1)) as Lp.
    unfold bind at 1. destruct (inspect_loop _ _ _ _ fses s2) as [[[|]|w] s3]; destruct Lp as [D3 M].
    + cbn. assert (does read_only s s3) as [G K] by (etrans; [exact D1|by etrans]). split_and!; [exact G|exact K|..].
      * apply M. rewrite (does_mounted A _ _ D2q). by apply Hu.
      * apply Sorted_merge_sort; apply _.
      * apply merge_sort_Permutation.
      * intros root Hr. apply search_for_root_known. unfold sort_strings in Hr. by rewrite merge_sort_Permutation in Hr.
    + assert (does read_only s s3) as [G K] by (etrans; [exact D1|by etrans]). done.
    + split; [|exact M]. change (grows read_only s s3). etrans; [apply D1|]. etrans; [apply D2|exact D3].
  - destruct (step_does _ _ St) as [D2 F]. assert (does read_only s s2) as [G K] by (by etrans). split_and!; [exact G|exact K|auto].
  - split; [|auto]. change (grows read_only s s2). etrans; [apply D1|]. destruct St as [G _]. eapply grows_mono; [apply query_read_only|exact G].
Qed.

(** * What list_filesystems finds *)

Section reference.
Context (A : guest_api).
Definition ask {R} (f : answers R) (name : string) (args : list string) : option R :=
  match f [] name args with inr a => Some a | inl _ => None end.
Definition ask_int (name : string) (args : list string) : Z := default (-1) (ask (api_int A) name args).

(** A guest whose answers do not change. *)
Record stable : Prop := {
  stable_int : forall h, api_int A h = api_int A [];
  stable_str : forall h, api_str A h = api_str A [];
  stable_strs : forall h, api_strs A h = api_strs A [];
  stable_subvolumes : forall h, api_subvolumes A h = api_subvolumes A []
}.

(** What a volume is listed as: nothing for a member of an array or of a volume
    group and for an encrypted volume, its subvolumes before a btrfs volume. *)
Definition volume_entries (volume : string) : option (list string) :=
  match ask (api_str A) "vfs_type" [volume] with
  | None => Some [volume; "unknown"]
  | Some t =>
      if decide (t = "") then Some [volume; "unknown"]
      else if decide (t = "btrfs") then
        vols ← ask (api_subvolumes A) "btrfs_subvolume_list" [volume]; Some (subvolume_strings volume vols ++ [volume; "btrfs"])
      else Some (if ends_in "_member" t || bool_decide (t = "crypto_LUKS") then [] else [volume; t])
  end.
(** Members of a Windows dynamic disk. *)
Definition is_ldm_member (p : string) : bool :=
  let partnum := ask_int "part_to_partnum" [p] in
  negb (partnum =? -1) &&
  match ask (api_str A) "part_to_dev" [p] with Some d => ask_int "part_get_mbr_id" [d; pretty partnum] =? 66 | None => false end.
Definition has_feature (name : string) : bool := 0 <? ask_int "feature_available" [name].

(** Devices without partitions, partitions, arrays, logical volumes, dynamic disks. *)
Definition volumes : option (list string) :=
  devices ← ask (api_strs A) "list_devices" [];
  partitions ← ask (api_strs A) "list_partitions" [];
  mds ← ask (api_strs A) "list_md_devices" [];
  lvs ← (if has_feature "lvm2" then ask (api_strs A) "lvs" [] else Some []);
  ldmvols ← (if has_feature "ldm" then ask (api_strs A) "list_ldm_volumes" [] else Some []);
  ldmparts ← (if has_feature "ldm" then ask (api_strs A) "list_ldm_partitions" [] else Some []);
  let partitioned := omap (fun p => ask (api_str A) "part_to_dev" [p]) partitions in
  Some (base.filter (fun d => d ∉ partitioned) devices ++
        List.filter (fun p => (ask_int "feature_available" ["ldm"] =? 0) || negb (is_ldm_member p)) partitions ++
        mds ++ lvs ++ ldmvols ++ ldmparts).
Definition entries (l : list string) : option (list string) := @concat _ <$> mapM volume_entries l.
Definition filesystems : option (list string) := volumes ≫= entries.

Definition returns {R} (m : im R) (a : R) : Prop := forall s, exists s', m s = (Ret a, s').
Lemma returns_bind {R S} (m : im R) (f : R -> im S) a b : returns m a -> returns (f a) b -> returns (bind m f) b.
Proof. intros Hm Hf s. destruct (Hm s) as [s1 E]. unfold bind. rewrite E. apply Hf. Qed.
Lemma returns_ret {R} (a : R) : returns (ret a) a.
Proof. intros s. by exists s. Qed.
Lemma returns_silently {R} (m : im R) a : returns m a -> returns (silently m) a.
Proof.
  intros Hm. eapply returns_bind; [intros s; by eexists|]. eapply returns_bind; [apply Hm|].
  eapply returns_bind; [intros s; by eexists|apply returns_ret].
Qed.
Lemma returns_call {R} (f : answers R) name args : (forall h, f h = f []) -> returns (call f name args) (ask f name args).
Proof. intros Hf s. unfold call, ask. rewrite Hf. destruct (f [] name args) as [[]|]; by eexists. Qed.
Lemma returns_call_int name args : stable -> returns (call_int (api_int A) name args) (ask_int name args).
Proof. intros H. eapply returns_bind; [apply returns_call, H|apply returns_ret]. Qed.

Lemma entries_cons d l : entries (d :: l) = e1 ← volume_entries d; e2 ← entries l; Some (e1 ++ e2).
Proof. unfold entries. cbn. destruct (volume_entries d); [|done]. cbn. by destruct (mapM volume_entries l). Qed.
Lemma entries_app l1 l2 : entries (l1 ++ l2) = e1 ← entries l1; e2 ← entries l2; Some (e1 ++ e2).
Proof.
  induction l1 as [|d l1 IH]; [change (entries []) with (Some (@nil string)); cbn [app]; by destruct (entries l2)|]. rewrite <- app_comm_cons, !entries_cons, IH.
  destruct (volume_entries d); [|done]. cbn. destruct (entries l1); [|done]. cbn. destruct (entries l2); [|done]. cbn. by rewrite app_assoc.
Qed.
Lemma substring_whole s : String.substring 0 (String.length s) s = s.
Proof. induction s as [|c s IH]; cbn; [done|by rewrite IH]. Qed.
Lemma str_from_drop s : forall n, str_from n s = str_drop n s.
Proof.
  unfold str_from. induction s as [|c s IH]; intros [|n]; [done..| |].
  - rewrite Nat.sub_0_r. apply substring_whole.
  - apply IH.
Qed.
Lemma container_member t : is_container t = ends_in "_member" t || bool_decide (t = "crypto_LUKS").
Proof.
  unfold is_container, ends_in. cbv zeta. rewrite str_from_drop. change (String.length "_member") with 7%nat. f_equal.
  destruct (Nat.leb_spec 7 (String.length t)) as [|H]; [done|]. symmetry. apply bool_decide_eq_false. intros E.
  replace (String.length t - 7)%nat with 0%nat in E by lia. destruct t as [|c t]; [done|]. change (str_drop 0 (String c t)) with (String c t) in E. rewrite E in H. cbn in H. lia.
Qed.
(** A loop adds the entries of its list. *)
Lemma returns_check d sb : stable -> returns (check_with_vfs_type A d sb) (app sb <$> volume_entries d).
Proof.
  intros H. eapply returns_bind; [apply returns_silently, returns_call, H|]. unfold volume_entries.
  destruct (ask (api_str A) "vfs_type" [d]) as [t|]; [|apply returns_ret].
  unfold STREQ. rewrite !decide_bool_decide. destruct (bool_decide (t = "")); [apply returns_ret|].
  destruct (bool_decide (t = "btrfs")) eqn:E.
  - apply bool_decide_eq_true in E as ->. eapply returns_bind; [apply returns_call, H|]. destruct (ask _ _ _) as [vols|]; [|apply returns_ret].
    cbn. rewrite app_assoc. apply returns_ret.
  - rewrite container_member. destruct (ends_in "_member" t || _); [cbn; rewrite app_nil_r|]; apply returns_ret.
Qed.
Lemma returns_check_all test t l : stable -> (forall d, returns (test d) (t d)) ->
  forall sb, returns (check_all A test l sb) (app sb <$> entries (List.filter t l)).
Proof.
  intros H Ht. induction l as [|d l IH]; intros sb; cbn [check_all List.filter]; [cbn; rewrite app_nil_r; apply returns_ret|].
  eapply returns_bind; [apply Ht|]. destruct (t d); [|apply IH]. eapply returns_bind; [by apply returns_check|].
  rewrite entries_cons. destruct (volume_entries d) as [e|]; [|apply returns_ret]. cbn.
  replace (app sb <$> _) with (app (sb ++ e) <$> entries (List.filter t l)) by (destruct (entries _); cbn; [by rewrite app_assoc|done]). apply IH.
Qed.
Lemma filter_every {T} (l : list T) : List.filter (fun _ => true) l = l.
Proof. induction l as [|x l IH]; cbn; [done|by rewrite IH]. Qed.
Lemma returns_check_every l sb : stable -> returns (check_all A every l sb) (app sb <$> entries l).
Proof. intros H. rewrite <- (filter_every l) at 2. apply returns_check_all; [done|]. intros. apply returns_ret. Qed.

Lemma filter_keeps {T} (P : T -> Prop) `{!forall x, Decision (P x)} (l : list T) : (forall x, x ∈ l -> P x) -> base.filter P l = l.
Proof.
  induction l as [|x l IH]; intros Hk; [done|]. rewrite filter_cons_True by (apply Hk; left). rewrite IH; [done|].
  intros y Hy. apply Hk. by right.
Qed.
Lemma remove_from_list_filter l x : NoDup l -> remove_from_list l x = base.filter (fun y => y <> x) l.
Proof.
  induction l as [|y l IH]; intros Hl; [done|]. apply NoDup_cons in Hl as [Hy Hl]. cbn [remove_from_list]. unfold STREQ.
  case_bool_decide as E; [subst y|].
  - rewrite filter_cons_False by tauto. symmetry. apply filter_keeps. by intros z Hz ->.
  - rewrite filter_cons_True by done. by rewrite IH.
Qed.
Lemma returns_exclude ps : stable -> forall devices, NoDup devices ->
  returns (exclude_devices A ps devices) (base.filter (fun d => d ∉ omap (fun p => ask (api_str A) "part_to_dev" [p]) ps) devices).
Proof.
  intros H. induction ps as [|p ps IH]; intros devices Hd; cbn [exclude_devices].
  - rewrite filter_keeps by (intros; apply not_elem_of_nil). apply returns_ret.
  - eapply returns_bind; [apply returns_call, H|]. cbn. destruct (ask _ _ _) as [d|]; [|by apply IH].
    rewrite remove_from_list_filter by done.
    match goal with |- returns _ ?r => replace r with (base.filter (fun d => d ∉ omap (fun p => ask (api_str A) "part_to_dev" [p]) ps)
      (base.filter (fun y => y <> d) devices)) end; [apply IH; by apply NoDup_filter|].
    rewrite list_filter_filter. apply list_filter_iff. intros y. rewrite not_elem_of_cons. tauto.
Qed.
Lemma returns_type_42 p : stable -> returns (is_mbr_partition_type_42 A p) (is_ldm_member p).
Proof.
  intros H. apply returns_silently. eapply returns_bind; [by apply returns_call_int|]. unfold is_ldm_member.
  destruct (_ =? -1); [apply returns_ret|]. cbn [negb andb]. eapply returns_bind; [apply returns_call, H|].
  destruct (ask (api_str A) _ _); [|apply returns_ret]. eapply returns_bind; [by apply returns_call_int|apply returns_ret].
Qed.
Lemma returns_or_error m k r (f : list string -> option (list string)) :
  returns m r -> (forall sb, r = Some sb -> returns (k sb) (f sb)) -> returns (or_error m k) (r ≫= f).
Proof. intros Hm Hk. eapply returns_bind; [exact Hm|]. destruct r as [sb|]; [by apply Hk|apply returns_ret]. Qed.
Lemma returns_listed name sb : stable -> returns (listed A name sb) (l ← ask (api_strs A) name []; app sb <$> entries l).
Proof.
  intros H. eapply returns_bind; [apply returns_call, H|]. destruct (ask _ _ _); [|apply returns_ret]. by apply returns_check_every.
Qed.

(** The loops one after the other. *)
Definition in_turn : option (list string) :=
  devices ← ask (api_strs A) "list_devices" [];
  partitions ← ask (api_strs A) "list_partitions" [];
  mds ← ask (api_strs A) "list_md_devices" [];
  sb ← app [] <$> entries (base.filter (fun d => d ∉ omap (fun p => ask (api_str A) "part_to_dev" [p]) partitions) devices);
  sb ← app sb <$> entries (List.filter (fun p => (ask_int "feature_available" ["ldm"] =? 0) || negb (is_ldm_member p)) partitions);
  sb ← app sb <$> entries mds;
  sb ← (if has_feature "lvm2" then l ← ask (api_strs A) "lvs" []; app sb <$> entries l else Some sb);
  if has_feature "ldm"
  then sb ← (l ← ask (api_strs A) "list_ldm_volumes" []; app sb <$> entries l);
       l ← ask (api_strs A) "list_ldm_partitions" []; app sb <$> entries l
  else Some sb.
Lemma in_turn_filesystems : in_turn = filesystems.
Proof.
  unfold in_turn, filesystems, volumes. destruct (ask (api_strs A) "list_devices" []) as [ds|]; [cbn [mbind option_bind]|done].
  destruct (ask (api_strs A) "list_partitions" []) as [ps|]; [cbn [mbind option_bind]|done].
  destruct (ask (api_strs A) "list_md_devices" []) as [mds|]; [cbn [mbind option_bind]|done].
  destruct (has_feature "lvm2"), (has_feature "ldm"),
    (ask (api_strs A) "lvs" []), (ask (api_strs A) "list_ldm_volumes" []), (ask (api_strs A) "list_ldm_partitions" []);
    cbn [mbind option_bind]; rewrite ?entries_app; change (entries []) with (Some (@nil string));
    repeat (destruct (entries _); cbn [fmap option_fmap option_map mbind option_bind]; [|try done]); rewrite <- ?app_assoc, ?app_nil_r; done.
Qed.
Lemma returns_in_turn : stable -> (forall devices, ask (api_strs A) "list_devices" [] = Some devices -> NoDup devices) ->
  returns (guestfs__list_filesystems A) in_turn.
Proof.
  intros H Hd. unfold guestfs__list_filesystems, in_turn. do 2 (eapply returns_bind; [by apply returns_call_int|]).
  apply returns_or_error; [apply returns_call, H|]. intros devices Ed.
  apply returns_or_error; [apply returns_call, H|]. intros partitions _.
  apply returns_or_error; [apply returns_call, H|]. intros mds _.
  eapply returns_bind; [apply returns_exclude; auto|].
  apply returns_or_error; [by apply returns_check_every|]. intros sb1 _. apply returns_or_error.
  { apply returns_check_all; [done|]. intros p. destruct (_ =? 0); [apply returns_ret|].
    eapply returns_bind; [by apply returns_type_42|apply returns_ret]. }
  intros sb2 _. apply returns_or_error; [by apply returns_check_every|]. intros sb3 _. unfold has_feature. apply returns_or_error.
  - destruct (_ <? _); [by apply returns_listed|apply returns_ret].
  - intros sb4 _. destruct (_ <? _); [|apply returns_ret]. apply returns_or_error; [by apply returns_listed|]. intros. by apply returns_listed.
Qed.
End reference.

(** C18: list_filesystems, in a guest whose answers do not change and whose devices have
    different names, gives exactly the entries of: the devices without partitions, the
    partitions (without those of MBR type 0x42, the members of Windows dynamic disks, if there
    is LDM), the MD devices, the logical volumes if there is LVM, the volumes and partitions of
    dynamic disks if there is LDM, in this order; a member of an array or volume group and an
    encrypted volume has no entry, a volume whose type is not known is listed as unknown, and
    the subvolumes of a btrfs file system come before it. It fails exactly when one of the lists
    cannot be had. *)
Theorem list_filesystems_reference (A : guest_api) (s : inspector) : stable A ->
  (forall devices, ask (api_strs A) "list_devices" [] = Some devices -> NoDup devices) ->
  exists s', guestfs__list_filesystems A s = (Ret (filesystems A), s').
Proof. intros H Hd. rewrite <- in_turn_filesystems. by apply returns_in_turn. Qed.

(** * Names of devices in /etc/fstab *)

Lemma rx_text_app u v : rx_text (u +:+ v) v = u.
Proof. unfold rx_text. rewrite str_length_app. replace (_ + _ - _)%nat with (String.length u) by lia. apply str_substring_all. Qed.
Lemma run_lit l : forall b s caps k, l <> "" -> rx_run (lit l) b (l +:+ s) caps k = k false s caps.
Proof.
  induction l as [|c l IH]; intros b s caps k Hl; [done|]. cbn. rewrite Ascii.eqb_refl. destruct l as [|c' l]; [done|]. by apply IH.
Qed.
Lemma greedy_all {R} (k : string -> string -> option R) n p u v r :
  str_forallb p u = true -> (n <= String.length u)%nat -> match v with EmptyString => True | String c _ => p c = false end ->
  k u v = Some r -> greedy k n p "" (u +:+ v) = Some r.
Proof.
  intros Hu Hn Hv Hk. apply greedy_spec; [done|cbn; lia|done|].
  intros u' v' E Hne Hp. destruct u' as [|c u']; [done|]. rewrite E in Hv. cbn in Hv, Hp. by rewrite Hv in Hp.
Qed.
Lemma rx_from_hit r b s caps : rx_at r b s = Some caps -> rx_from r b s = Some caps.
Proof. intros E. destruct s; cbn [rx_from]; by rewrite E. Qed.
Lemma digit_not_lower c : c_isdigit c = true -> c_islower c = false.
Proof. unfold c_isdigit, c_islower, in_range. lia. Qed.

Definition xdev_types : list string := ["h"; "s"; "v"; "xv"].
(** Once the type has been read. *)
Definition rx_disk_part : rx := rx_seq [lit "d"; Group 2 (Many 1 c_islower); Group 3 (Many 0 c_isdigit); End].
Lemma run_disk_part disk part b caps : str_forallb c_islower disk = true -> disk <> "" -> str_forallb c_isdigit part = true ->
  rx_run rx_disk_part b ("d" +:+ disk +:+ part) caps (fun _ _ caps => Some caps) = Some ((3%nat, part) :: (2%nat, disk) :: caps).
Proof.
  intros Hd Hne Hp. unfold rx_disk_part, rx_seq. cbn [foldr rx_run]. rewrite run_lit by done. cbn [rx_run].
  apply greedy_all; [done|destruct disk; [done|cbn; lia]| |].
  - destruct part as [|c part]; [done|]. cbn in Hp. apply andb_true_iff in Hp as [Hc _]. by apply digit_not_lower.
  - pose proof (rx_text_app part "") as Ht. rewrite str_app_nil_r in Ht.
    match goal with |- greedy ?k _ _ _ _ = Some ?r => pose proof (greedy_all k 0 c_isdigit part "" r Hp (Nat.le_0_l _) I) as G end.
    rewrite str_app_nil_r in G. apply G. cbn. by rewrite Ht, rx_text_app.
Qed.
Lemma match_xdev type disk part : type ∈ xdev_types -> str_forallb c_islower disk = true -> disk <> "" -> str_forallb c_isdigit part = true ->
  guestfs___match3 ("/dev/" +:+ type +:+ "d" +:+ disk +:+ part) re_xdev = Some (Some type, Some disk, Some part).
Proof.
  intros Ht Hd Hne Hp. pose proof (run_disk_part disk part false [(1%nat, type)] Hd Hne Hp) as R.
  pose proof (rx_text_app type ("d" +:+ disk +:+ part)) as Hx.
  assert (rx_at re_xdev true ("/dev/" +:+ type +:+ "d" +:+ disk +:+ part) = Some [(3%nat, part); (2%nat, disk); (1%nat, type)]) as E.
  { unfold xdev_types in Ht. rewrite !elem_of_cons, elem_of_nil in Ht. destruct Ht as [->|[->|[->|[->|[]]]]];
      cbn in Hx, R |- *; rewrite Hx, R; done. }
  unfold guestfs___match3, rx_exec. by rewrite (rx_from_hit _ _ _ _ E).
Qed.

(** The index of a disk is that of its drive name. *)
Fixpoint exact_index (i : Z) (p : string) : Z :=
  match p with EmptyString => i | String c p' => exact_index ((i + 1) * 26 + (code c - 97)) p' end.
Lemma u64_shift x : exists k, u64 x = x + k * 2 ^ 64.
Proof. exists (- (x / 2 ^ 64)). unfold u64. rewrite Z.mod_eq by done. ring. Qed.
Lemma disk_index_exact p : forall i, disk_index_loop (u64 i) p = u64 (exact_index i p).
Proof.
  induction p as [|c p IH]; intros i; cbn [disk_index_loop exact_index]; [done|]. rewrite <- IH. f_equal.
  destruct (u64_shift i) as [k1 ->], (u64_shift (i + k1 * 2 ^ 64 + 1)) as [k2 ->].
  destruct (u64_shift ((i + k1 * 2 ^ 64 + 1 + k2 * 2 ^ 64) * 26)) as [k3 ->]. unfold u64.
  replace (_ + k3 * 2 ^ 64 + (code c - 97)) with ((i + 1) * 26 + (code c - 97) + (k1 * 26 + k2 * 26 + k3) * 2 ^ 64) by ring.
  apply Z_mod_plus_full.
Qed.
Lemma code_letter n : (n < 26)%nat -> code (letter n) = 97 + Z.of_nat n.
Proof. intros H. do 26 (destruct n as [|n]; [reflexivity|]). lia. Qed.
Lemma exact_index_fold l : Forall is_lower l -> forall acc : nat,
  exact_index (Z.of_nat acc - 1) (String.string_of_list_ascii l) =
  Z.of_nat (fold_left (fun acc c => acc * 26 + (nat_of_ascii c - 96))%nat l acc) - 1.
Proof.
  induction 1 as [|c l Hc Hl IH]; intros acc; cbn [String.string_of_list_ascii exact_index fold_left]; [done|]. rewrite <- IH. f_equal.
  apply lower_letter in Hc as (n & Hn & ->). rewrite nat_of_letter, code_letter by done. lia.
Qed.
Definition drive_string (i : nat) : string := String.string_of_list_ascii (guestfs___drive_name i).
Lemma disk_index_name i : Z.of_nat i < 2 ^ 64 -> disk_index (drive_string i) = Z.of_nat i.
Proof.
  intros Hi. unfold drive_string. pose proof (exact_index_fold _ (drive_name_lower i i) 0) as E.
  rewrite drive_index_fuel in E by lia. fold (guestfs___drive_name i) in E.
  destruct (guestfs___drive_name i) as [|c l]; cbn [String.string_of_list_ascii exact_index disk_index] in E |- *; [lia|].
  rewrite disk_index_exact. replace ((Z.of_nat 0 - 1 + 1) * 26 + (code c - 97)) with (code c - 97) in E by lia. rewrite E.
  rewrite u64_id; lia.
Qed.
Lemma drive_string_lower i : str_forallb c_islower (drive_string i) = true /\ drive_string i <> "".
Proof.
  unfold drive_string. split.
  - generalize (drive_name_lower i i). fold (guestfs___drive_name i). induction 1 as [|c l Hc Hl IH]; [done|]. cbn. unfold c_islower. by rewrite Hc.
  - rewrite drive_name_S. by destruct (if (26 <=? i)%nat then _ else _).
Qed.

(** What the guest says about a partition. *)
Definition partition_there (A : guest_api) (h : list acall) (p : string) : bool :=
  match api_str A h "part_to_dev" [p] with
  | inl _ => false
  | inr d => succeeded A (h ++ [Api "part_to_dev" [p]]) (Api "device_index" [d])
  end.
Lemma is_partition_there A p s : exists s', is_partition A p s = (Ret (partition_there A (i_calls s) p), s').
Proof.
  unfold is_partition, silently, on_h, zoom, modify, partition_there. unfold bind at 1 2 3. unfold call at 1. cbn [i_calls upd upd_i_g].
  destruct (api_str A (i_calls s) "part_to_dev" [p]) as [[]|d]; [by eexists|]. unfold bind.
  match goal with |- context [call_int _ _ _ ?s1] => destruct (call_int_mounted A (api_int A) "device_index" [d] s1 eq_refl) as (r & s2 & -> & _ & _ & S) end.
  cbn [i_calls upd upd_i_g upd_i_calls] in S. rewrite S. by eexists.
Qed.
Lemma partition_of_there A d part s :
  exists s', partition_of A d part s = (Ret (if partition_there A (i_calls s) (d +:+ part) then Some (d +:+ part) else None), s').
Proof. unfold partition_of, bind. destruct (is_partition_there A (d +:+ part) s) as [s' ->]. by eexists. Qed.

Lemma xdev_resolved A type part i s : Z.of_nat i < 2 ^ 64 ->
  let hinted := find_hint (type +:+ "d" +:+ drive_string i) (g_drives (i_g s)) 0 in
  let found p := if partition_there A (i_calls s ++ [Api "list_devices" []]) p then Some p else None in
  exists s', resolve_fstab_device_xdev A type (drive_string i) part s = (match api_strs A (i_calls s) "list_devices" [] with
    | inl _ => Ret None
    | inr devices =>
        match devices !! default i hinted, hinted with
        | Some d, _ => Ret (Some (found (d +:+ part)))
        | None, None => Ret (Some None)
        | None, Some _ => Stop Undefined
        end
    end, s').
Proof.
  intros Hi hinted found. unfold resolve_fstab_device_xdev, bind, ret, call, hint, gets.
  destruct (api_strs A (i_calls s) "list_devices" []) as [[e m]|devices]; [by eexists|]. cbn [i_g i_calls upd upd_i_calls].
  change (find_hint _ _ 0) with hinted. set (s1 := s <| i_calls ::= fun l => l ++ [Api "list_devices" []] |>).
  assert (forall j d, devices !! j = Some d -> device_at devices j s1 = (Ret d, s1)) as Hat by (intros j d E; unfold device_at; by rewrite E).
  cbv zeta. rewrite disk_index_name, Nat2Z.id by done. destruct hinted as [j|]; cbn [from_option id].
  - destruct (devices !! j) as [d|] eqn:Ed; [|unfold device_at; rewrite Ed; by exists s1]. rewrite (Hat _ _ Ed). destruct (partition_of_there A d part s1) as [s2 ->]. by exists s2.
  - destruct (devices !! i) as [d|] eqn:Ed.
    + assert (i < length devices)%nat by (by eapply lookup_lt_Some). replace (_ <? _) with true by lia. rewrite (Hat _ _ Ed).
      destruct (partition_of_there A d part s1) as [s2 ->]. by exists s2.
    + apply lookup_ge_None in Ed. replace (_ <? _) with false by lia. by exists s1.
Qed.

(** C19: Device names in /etc/fstab: the name of drive i of a guest, with any of the types h, s,
    v and xv and a partition number, is translated to that partition of the i-th device of the
    appliance, or of the device of the drive that was added with this name; when the partition
    is not there, or there are not so many devices and no drive was added with this name, the
    name is returned as it is. The result is NULL exactly when the devices cannot be listed, and
    devices[i] is read outside of the list exactly when a drive was added with this name and
    there is no device for it. *)
Theorem fstab_device_resolved (A : guest_api) (s : inspector) (type part : string) (i : nat) (md_map : option (list mdadm_app)) :
  type ∈ xdev_types -> str_forallb c_isdigit part = true -> Z.of_nat i < 2 ^ 64 ->
  let name := type +:+ "d" +:+ drive_string i in
  let hinted := find_hint name (g_drives (i_g s)) 0 in
  let spec := "/dev/" +:+ name +:+ part in
  let h := i_calls s ++ [Api "list_devices" []] in
  exists s', resolve_fstab_device A spec md_map s = (match api_strs A (i_calls s) "list_devices" [] with
    | inl _ => Ret None
    | inr devices =>
        match devices !! default i hinted, hinted with
        | Some d, _ => Ret (Some (if partition_there A h (d +:+ part) then d +:+ part else spec))
        | None, None => Ret (Some spec)
        | None, Some _ => Stop Undefined
        end
    end, s').
Proof.
  intros Ht Hp Hi name hinted spec h. destruct (drive_string_lower i) as [Hlow Hne].
  assert (spec = "/dev/" +:+ type +:+ "d" +:+ drive_string i +:+ part) as Es by (unfold spec, name; by rewrite !str_app_assoc).
  assert (STRPREFIX spec "/dev/mapper/" = false) as Hm.
  { rewrite Es. unfold xdev_types in Ht. rewrite !elem_of_cons, elem_of_nil in Ht. by destruct Ht as [->|[->|[->|[->|[]]]]]. }
  destruct (xdev_resolved A type part i s Hi) as [s' E]. cbv zeta in E. fold name hinted h in E. exists s'.
  unfold resolve_fstab_device, bind, ret, resolve_pattern. rewrite Hm, Es, match_xdev by done.
  cbn [from_option id]. cbv beta iota. rewrite E.
  destruct (api_strs A (i_calls s) "list_devices" []) as [|devices]; [done|].
  destruct (devices !! default i hinted) as [d|]; [by destruct (partition_there _ _ _)|by destruct hinted].
Qed.

(** * A guest *)

(** One disk with a root of Fedora 14 and a swap partition. *)
Definition refuse {R} : failure + R := inl (22, "no").
Definition ex_files : list string := ["/etc/fstab"; "/etc/redhat-release"; "/bin/bash"; "/etc/hostname"].
Definition in_list (x : string) (l : list string) : bool := existsb (String.eqb x) l.
Definition ex_int (h : list acall) (name : string) (args : list string) : failure + Z :=
  let arg := hd "" args in
  if in_list name ["umount_all"; "mount_ro"; "aug_init"; "aug_rm"; "aug_load"; "aug_close"; "device_index"; "is_whole_device"] then inr 0
  else if in_list name ["is_file"; "is_file_opts"] then inr (bool_int (in_list arg ex_files))
  else if STREQ name "is_dir" then inr (bool_int (in_list arg ["/etc"; "/bin"]))
  else if STREQ name "is_symlink" then inr 0
  else if STREQ name "feature_available" then inr (bool_int (STREQ arg "lvm2"))
  else if STREQ name "filesize" then inr 64
  else if STREQ name "part_to_partnum" then inr 1
  else refuse.
Definition ex_str (h : list acall) (name : string) (args : list string) : failure + string :=
  let arg := hd "" args in
  if STREQ name "vfs_type" then
    (if STREQ arg "/dev/sda1" then inr "ext4" else if STREQ arg "/dev/sda2" then inr "swap" else refuse)
  else if STREQ name "part_to_dev" then inr "/dev/sda"
  else if STREQ name "file_architecture" then inr "x86_64"
  else if STREQ name "aug_get" then
    match List.find (fun x => STREQ arg ("/files/etc/fstab/1/" +:+ fst x)) [("spec", "/dev/hda1"); ("file", "/"); ("vfstype", "ext4")] with
    | Some (_, v) => inr v
    | None => refuse
    end
  else refuse.
Definition ex_strs (h : list acall) (name : string) (args : list string) : failure + list string :=
  if STREQ name "list_devices" then inr ["/dev/sda"]
  else if STREQ name "list_partitions" then inr ["/dev/sda1"; "/dev/sda2"]
  else if in_list name ["list_md_devices"; "lvs"] then inr []
  else if STREQ name "head_n" then
    inr [if STREQ (nth 1 args "") "/etc/redhat-release" then "Fedora release 14 (Laughlin)" else "guest.example.com"]
  else if STREQ name "aug_match" then inr ["/files/etc/fstab/1"]
  else refuse.
Definition ex_guest : guest_api :=
  mk_guest_api ex_int ex_str ex_strs (fun _ _ _ => refuse) (fun _ _ _ => refuse)
    (fun _ _ args => inr (mk_internal_mountable MOUNTABLE_DEVICE (hd "" args) "")) (fun _ _ _ => refuse) (fun _ _ _ => refuse)
    (fun _ _ _ => refuse) (fun _ => 0).
Definition ex_iconv : iconv_world := mk_iconv_world (Some 22) (fun _ _ => IconvFailed 84).
Definition ex_inspector : inspector := mk_inspector Examples.ex_handle [] [].

(** The root is found, with its name, version, architecture, host name and
    mount points; nothing is mounted afterwards. *)
Lemma inspect_os_safe_witness : exists s',
  guestfs__inspect_os ex_guest (fun _ => 11) (inr []) ex_iconv ex_inspector = (Ret (Some ["/dev/sda1"]), s') /\
  mounted ex_guest (i_calls s') = false /\
  fst (guestfs__inspect_get_distro "/dev/sda1" s') = Ret (Some "fedora") /\
  fst (guestfs__inspect_get_major_version "/dev/sda1" s') = Ret 14 /\
  fst (guestfs__inspect_get_hostname "/dev/sda1" s') = Ret (Some "guest.example.com") /\
  fst (guestfs__inspect_get_mountpoints "/dev/sda1" s') = Ret (Some ["/"; "/dev/sda1"]).
Proof.
  assert (forall n, ic_convert ex_iconv [] n <> IconvTooBig) as Hw by discriminate.
  pose proof (inspect_os_safe ex_guest (fun _ => 11) (inr []) ex_iconv ex_inspector Hw) as H.
  assert (let '(r, s') := guestfs__inspect_os ex_guest (fun _ => 11) (inr []) ex_iconv ex_inspector in
    r = Ret (Some ["/dev/sda1"]) /\
    fst (guestfs__inspect_get_distro "/dev/sda1" s') = Ret (Some "fedora") /\
    fst (guestfs__inspect_get_major_version "/dev/sda1" s') = Ret 14 /\
    fst (guestfs__inspect_get_hostname "/dev/sda1" s') = Ret (Some "guest.example.com") /\
    fst (guestfs__inspect_get_mountpoints "/dev/sda1" s') = Ret (Some ["/"; "/dev/sda1"])) as F by (vm_compute; repeat split).
  destruct (guestfs__inspect_os _ _ _ _ _) as [r s']. destruct F as (-> & F). exists s'. split; [reflexivity|]. split; [apply H|exact F].
Defined.

Lemma list_filesystems_reference_witness : exists s',
  guestfs__list_filesystems ex_guest ex_inspector = (Ret (Some ["/dev/sda1"; "ext4"; "/dev/sda2"; "swap"]), s').
Proof.
  change (Some ["/dev/sda1"; "ext4"; "/dev/sda2"; "swap"]) with (filesystems ex_guest).
  apply (list_filesystems_reference ex_guest ex_inspector); [by split|]. intros devices [= <-]. apply NoDup_singleton.
Defined.

Lemma fstab_device_resolved_witness : exists s', resolve_fstab_device ex_guest "/dev/hda1" None ex_inspector = (Ret (Some "/dev/sda1"), s').
Proof.
  apply (fstab_device_resolved ex_guest ex_inspector "h" "1" 0 None); [by left|reflexivity|lia].
Defined.

(** * Where the code goes wrong *)

(** Two arrays whose UUIDs begin alike are taken for one. *)
Lemma md_lookup_wrong_array :
  md_lookup (fun _ => 11) [1; 2; 0; 0] [mk_md_uuid [1; 0; 2; 0] "/dev/md1"] = Some (mk_md_uuid [1; 0; 2; 0] "/dev/md1").
Proof. reflexivity. Qed.
(** A version of 4294967295 is -1, the value of an error, and no error is set. *)
Lemma parse_unsigned_truncates s : guestfs___parse_unsigned_int "4294967295" s = (Ret (-1), s).
Proof. reflexivity. Qed.
(** The 27th disk of FreeBSD has no letter. *)
Lemma freebsd_disk_26 s : fst (freebsd_gpt "26" "1" s) = Ret (Some (Some "/dev/sd{1")).
Proof. reflexivity. Qed.
(** A line with a quotation mark and nothing after it is read past its end. *)
Lemma product_name_overrun s :
  fst ((v <- find_value (trim_quot (trim_cr ("productname=" +:+ quot))) ;; str_at 1 v) s) = Stop Undefined.
Proof. reflexivity. Qed.
(** The name of a btrfs option is read from the path of all the options: with
    two of them, for which Augeas has no single value, the entry is an error. *)
Lemma btrfs_two_options A s entry mnt e msg :
  let p := augpath (entry +:+ "/opt") in
  api_str A (i_calls s) "aug_get" [p] = inl (e, msg) -> fst (btrfs_opts A [entry +:+ "/opt[1]"; entry +:+ "/opt[2]"] p mnt s) = Ret None.
Proof. intros p H. cbn [btrfs_opts]. unfold aug_get, bind, call. by rewrite H. Qed.
(** When an array of mdadm.conf has no name, the table is freed twice. *)
Lemma fstab_double_free A buckets s app l matches s1 s2 e msg :
  map_app_md_devices A buckets s = (Ret (Some (app :: l)), s1) ->
  call (api_strs A) "aug_match" ["/files/etc/mdadm.conf/array"] s1 = (Ret (Some ("/files/etc/mdadm.conf/array" :: matches)), s2) ->
  api_str A (i_calls s2) "aug_get" ["/files/etc/mdadm.conf/array/devicename"] = inl (e, msg) ->
  fst (check_fstab A buckets s) = Stop Undefined.
Proof.
  intros E1 E2 E3. unfold check_fstab, map_md_devices, bind. rewrite E1, E2. cbn [mdadm_loop].
  unfold bind, call. change ("/files/etc/mdadm.conf/array" +:+ "/devicename") with "/files/etc/mdadm.conf/array/devicename".
  by rewrite E3.
Qed.
