(* ===== verification/Backend.v ===== *)
(** What the backends of the library share: the state of the direct backend
    (struct backend_direct_data of src/launch-direct.c) beside the handle, the
    system calls they make, the running of external programs, src/lpj.c, and the
    command line of the appliance's kernel from src/launch.c.

    System calls are answered by scripts: programs run in [b_runs] (one kernel
    of Command.v for each program, success without output in the end), other
    calls in [b_calls], fork in [b_forks], waitpid in [b_waits].  The process's
    descriptors and children are kept throughout.  The code is the one compiled
    for x86-64: no MACHINE_TYPE, no DTB_WILDCARD. *)

From S2P Require Import Procs Regex Inspect Prelude Xdr Protocol Handle Events Conn LibProto Utils Config Lifecycle Drives Command Create.
From Stdlib Require Import Ascii.
Import StringsBuf.
Local Open Scope Z_scope.

(** * State *)

Record backend_direct_data := mk_direct_data {
  bd_pid : Z;
  bd_recoverypid : Z;
  bd_qemu_help : option string;
  bd_qemu_version : option string;
  bd_qemu_devices : option string;
  bd_qemu_version_major : Z;
  bd_qemu_version_minor : Z;
  bd_virtio_scsi : Z        (* 0 untested, 1 supported, 2 not supported, 3 test failed *)
}.
#[export] Instance upd_bd_pid : Field bd_pid := fun f r =>
  mk_direct_data (f (bd_pid r)) (bd_recoverypid r) (bd_qemu_help r) (bd_qemu_version r)
    (bd_qemu_devices r) (bd_qemu_version_major r) (bd_qemu_version_minor r) (bd_virtio_scsi r).
#[export] Instance upd_bd_recoverypid : Field bd_recoverypid := fun f r =>
  mk_direct_data (bd_pid r) (f (bd_recoverypid r)) (bd_qemu_help r) (bd_qemu_version r)
    (bd_qemu_devices r) (bd_qemu_version_major r) (bd_qemu_version_minor r) (bd_virtio_scsi r).
#[export] Instance upd_bd_qemu_help : Field bd_qemu_help := fun f r =>
  mk_direct_data (bd_pid r) (bd_recoverypid r) (f (bd_qemu_help r)) (bd_qemu_version r)
    (bd_qemu_devices r) (bd_qemu_version_major r) (bd_qemu_version_minor r) (bd_virtio_scsi r).
#[export] Instance upd_bd_qemu_version : Field bd_qemu_version := fun f r =>
  mk_direct_data (bd_pid r) (bd_recoverypid r) (bd_qemu_help r) (f (bd_qemu_version r))
    (bd_qemu_devices r) (bd_qemu_version_major r) (bd_qemu_version_minor r) (bd_virtio_scsi r).
#[export] Instance upd_bd_qemu_devices : Field bd_qemu_devices := fun f r =>
  mk_direct_data (bd_pid r) (bd_recoverypid r) (bd_qemu_help r) (bd_qemu_version r)
    (f (bd_qemu_devices r)) (bd_qemu_version_major r) (bd_qemu_version_minor r) (bd_virtio_scsi r).
#[export] Instance upd_bd_qemu_version_major : Field bd_qemu_version_major := fun f r =>
  mk_direct_data (bd_pid r) (bd_recoverypid r) (bd_qemu_help r) (bd_qemu_version r)
    (bd_qemu_devices r) (f (bd_qemu_version_major r)) (bd_qemu_version_minor r) (bd_virtio_scsi r).
#[export] Instance upd_bd_qemu_version_minor : Field bd_qemu_version_minor := fun f r =>
  mk_direct_data (bd_pid r) (bd_recoverypid r) (bd_qemu_help r) (bd_qemu_version r)
    (bd_qemu_devices r) (bd_qemu_version_major r) (f (bd_qemu_version_minor r)) (bd_virtio_scsi r).
#[export] Instance upd_bd_virtio_scsi : Field bd_virtio_scsi := fun f r =>
  mk_direct_data (bd_pid r) (bd_recoverypid r) (bd_qemu_help r) (bd_qemu_version r)
    (bd_qemu_devices r) (bd_qemu_version_major r) (bd_qemu_version_minor r) (f (bd_virtio_scsi r)).

(** What is done outside the handle and is not a descriptor or a child. *)
Inductive host_action :=
  | Kill (pid signum : Z)
  | Unlinked (file : string)
  | Mkdir (dir : string) (mode : Z)
  | Chmod (file : string) (mode : Z)
  | Utimes (file : string)
  | Started (pid : Z) (argv : list string)      (* fork, and execv in the child *)
  | StartedRecovery (pid : Z).

Record bstate := mk_bstate {
  b_l : lib connection_socket;
  b_data : backend_direct_data;
  b_lpj : Z;                     (* the static variable of src/lpj.c *)
  b_runs : list cmd_kernel;
  b_calls : list (option Z);     (* an errno, or success; success in the end *)
  b_forks : list (Z + positive); (* an errno, or a pid; EAGAIN in the end *)
  b_waits : list (Z + Z);        (* an errno, or a status; status 0 in the end *)
  b_open : gset Z;
  b_children : gset Z;
  b_done : list host_action
}.
#[export] Instance upd_b_l : Field b_l := fun f r => mk_bstate (f (b_l r)) (b_data r) (b_lpj r) (b_runs r)
  (b_calls r) (b_forks r) (b_waits r) (b_open r) (b_children r) (b_done r).
#[export] Instance upd_b_data : Field b_data := fun f r => mk_bstate (b_l r) (f (b_data r)) (b_lpj r) (b_runs r)
  (b_calls r) (b_forks r) (b_waits r) (b_open r) (b_children r) (b_done r).
#[export] Instance upd_b_lpj : Field b_lpj := fun f r => mk_bstate (b_l r) (b_data r) (f (b_lpj r)) (b_runs r)
  (b_calls r) (b_forks r) (b_waits r) (b_open r) (b_children r) (b_done r).
#[export] Instance upd_b_runs : Field b_runs := fun f r => mk_bstate (b_l r) (b_data r) (b_lpj r) (f (b_runs r))
  (b_calls r) (b_forks r) (b_waits r) (b_open r) (b_children r) (b_done r).
#[export] Instance upd_b_calls : Field b_calls := fun f r => mk_bstate (b_l r) (b_data r) (b_lpj r) (b_runs r)
  (f (b_calls r)) (b_forks r) (b_waits r) (b_open r) (b_children r) (b_done r).
#[export] Instance upd_b_forks : Field b_forks := fun f r => mk_bstate (b_l r) (b_data r) (b_lpj r) (b_runs r)
  (b_calls r) (f (b_forks r)) (b_waits r) (b_open r) (b_children r) (b_done r).
#[export] Instance upd_b_waits : Field b_waits := fun f r => mk_bstate (b_l r) (b_data r) (b_lpj r) (b_runs r)
  (b_calls r) (b_forks r) (f (b_waits r)) (b_open r) (b_children r) (b_done r).
#[export] Instance upd_b_open : Field b_open := fun f r => mk_bstate (b_l r) (b_data r) (b_lpj r) (b_runs r)
  (b_calls r) (b_forks r) (b_waits r) (f (b_open r)) (b_children r) (b_done r).
#[export] Instance upd_b_children : Field b_children := fun f r => mk_bstate (b_l r) (b_data r) (b_lpj r) (b_runs r)
  (b_calls r) (b_forks r) (b_waits r) (b_open r) (f (b_children r)) (b_done r).
#[export] Instance upd_b_done : Field b_done := fun f r => mk_bstate (b_l r) (b_data r) (b_lpj r) (b_runs r)
  (b_calls r) (b_forks r) (b_waits r) (b_open r) (b_children r) (f (b_done r)).

Definition dm := M bstate.
Definition b_g (s : bstate) : guestfs_h := l_g (b_l s).

Definition on_h {A} (m : hm A) : dm A := zoom b_g (fun g s => s <| b_l; l_g := g |>) m.
Definition cfg {A} (f : config -> A) : dm A := gets (fun s => f (g_cfg (b_g s))).
Definition dat {A} (f : backend_direct_data -> A) : dm A := gets (fun s => f (b_data s)).
Definition set_data (f : backend_direct_data -> backend_direct_data) : dm unit := modify (upd b_data f).
Definition did (a : host_action) : dm unit := modify (fun s => s <| b_done ::= fun l => l ++ [a] |>).

Definition error (msg : string) : dm unit := on_h (report msg).
Definition perrorf (errnum : Z) (msg : string) : dm unit := on_h (modify (fun g => guestfs___perrorf g errnum msg)).
Definition not_supported (msg : string) : dm unit := on_h (modify (fun g => guestfs___error_errno g ENOTSUP msg)).
Definition debug (msg : string) : dm unit := on_h (modify (fun g => guestfs___debug g msg)).
Definition warning (msg : string) : dm unit := on_h (modify (fun g => guestfs___warning g msg)).
Definition send_progress (perdozen : Z) : dm unit :=
  on_h (modify (fun g => guestfs___launch_send_progress g perdozen)).

(** "%05" PRIi64. *)
Definition pad05 (z : Z) : string :=
  let digits := pretty (Z.abs z) in
  let sign := if z <? 0 then "-" else "" in
  sign +:+ String.concat "" (repeat "0" (5 - String.length sign - String.length digits)) +:+ digits.

(** [if (g->verbose) guestfs___print_timestamped_message (g, msg);] *)
Definition guestfs___print_timestamped_message (msg : string) (g : guestfs_h) : guestfs_h :=
  let '(tv, g) := gettimeofday g in
  guestfs___debug g ("[" +:+ pad05 (guestfs___timeval_diff (g_launch_t g) tv) +:+ "ms] " +:+ msg).
Definition timestamped (msg : string) : dm unit :=
  v <- cfg verbose ;;
  if v : bool then on_h (modify (guestfs___print_timestamped_message msg)) else ret tt.

(** * System calls *)

Definition sys_call : dm (option Z) := fun s =>
  let '(a, q) := answer (b_calls s) in (Ret a, s <| b_calls := q |>).
(** socket (2): the lowest free descriptor. *)
Definition sys_socket : dm (Z + Z) :=
  a <- sys_call ;;
  match a with
  | Some e => ret (inl e)
  | None => fun s => let fd := new_fd (b_open s) in (Ret (inr fd), s <| b_open ::= fun o => {[fd]} ∪ o |>)
  end.
Definition sys_socketpair : dm (Z + Z * Z) :=
  a <- sys_call ;;
  match a with
  | Some e => ret (inl e)
  | None => fun s =>
      let fd0 := new_fd (b_open s) in
      let fd1 := new_fd ({[fd0]} ∪ b_open s) in
      (Ret (inr (fd0, fd1)), s <| b_open ::= fun o => {[fd0; fd1]} ∪ o |>)
  end.
Definition sys_close (fd : Z) : dm unit := modify (fun s => s <| b_open ::= fun o => o ∖ {[fd]} |>).

(** The pid of a new process is not one of a child the process has: the next
    one that is free. *)
Definition unused_pid (hint : positive) (children : gset Z) : positive :=
  Z.to_pos (lowest_free (size children) (Z.pos hint) children).
Definition sys_fork : dm (Z + positive) := fun s =>
  match b_forks s with
  | [] => (Ret (inl EAGAIN), s)
  | inl e :: q => (Ret (inl e), s <| b_forks := q |>)
  | inr hint :: q =>
      let pid := unused_pid hint (b_children s) in
      (Ret (inr pid), s <| b_forks := q |> <| b_children ::= fun c => {[Z.pos pid]} ∪ c |>)
  end.
Definition sys_waitpid (pid : Z) : dm (Z + Z) := fun s =>
  let '(a, q) := match b_waits s with [] => (inr 0, []) | a :: q => (a, q) end in
  let s := s <| b_waits := q |> in
  match a with
  | inl e => (Ret (inl e), s)
  | inr status => (Ret (inr status), s <| b_children ::= fun c => c ∖ {[pid]} |>)
  end.

(** * Running programs *)

Definition plain_kernel : cmd_kernel := mk_cmd_kernel [] (inr 1%positive) [] [] [] [] [] 0 ∅ ∅.
(** The kernel in which the next program runs. *)
Definition next_kernel (s : bstate) : cmd_kernel :=
  let k := match b_runs s with [] => plain_kernel | k :: _ => k end in
  k <| ck_open := b_open s |> <| ck_children := b_children s |>
    <| ck_fork ::= fun f => match f with inl e => inl e | inr hint => inr (unused_pid hint (b_children s)) end |>.
Definition after_run (g : guestfs_h) (k : cmd_kernel) (s : bstate) : bstate :=
  s <| b_l; l_g := g |> <| b_runs ::= tail |> <| b_open := ck_open k |> <| b_children := ck_children k |>.

Definition build {D A} (m : @bm D A) : cm D A := zoom r_cmd (fun cmd r => r <| r_cmd := cmd |>) m.

(** A command that is built by [m], run, and closed by [CLEANUP_CMD_CLOSE]; the
    second component is what the callback has stored. *)
Definition run_program {D} (d : D) (m : @bm D unit) : dm (Z * D) := fun s =>
  let '(o, r) := (build m ;;;
                  x <- guestfs___cmd_run ;;
                  guestfs___cmd_close ;;;
                  d <- gets (fun r => c_stdout_data (r_cmd r)) ;;
                  ret (x, d)) (mk_run (b_g s) (guestfs___new_command d) (next_kernel s)) in
  (o, after_run (r_g r) (r_k r) s).

Fixpoint add_args {D} (args : list string) : @bm D unit :=
  match args with
  | [] => ret tt
  | a :: args' => guestfs___cmd_add_arg (Some a) ;;; add_args args'
  end.

Definition exited_0 (status : Z) : bool := WIFEXITED status && (WEXITSTATUS status =? 0).
(** strndup (buf, len). *)
Definition strndup (buf : list byte) : string := string_of_bytes (until_nul buf).

(** * src/lpj.c *)

Section host.
Context (strsignal : Z -> string) (access_ok : string -> bool) (getenv : string -> option string).

Definition external_command_failed (status : Z) (cmd_name : string) : dm unit :=
  on_h (modify (fun g => guestfs___external_command_failed strsignal g status cmd_name None)).

Definition GREP_FLAGS : string := "-Eoh".
Definition GREP_REGEX : string := "lpj=[[:digit:]]+".
Definition GREP_CMD : string := "grep " +:+ GREP_FLAGS +:+ " '" +:+ GREP_REGEX +:+ "'".

(** The callback keeps the first buffer. *)
Definition lpj_read_all : cmd_stdout_callback (option string) := fun g d buf =>
  (g, match d with None => Some (strndup buf) | Some _ => d end).

Definition read_lpj_common (func : string) (cmd : @bm (option string) unit) : dm Z :=
  let* (r, buf) := run_program None (cmd ;;; guestfs___cmd_set_stdout_callback lpj_read_all None CMD_STDOUT_FLAG_WHOLE_BUFFER) in
  if r =? -1 then ret (-1)
  else if negb (exited_0 r) then
    debug (func +:+ ": " +:+ guestfs___exit_status_to_string strsignal r "external command" 80) ;;; ret (-1)
  else
    match buf with
    | None => debug (func +:+ ": callback not called") ;;; ret (-1)
    | Some buf =>
        match (if (String.length buf <? 4)%nat then None
               else sscanf_d (String.substring 4 (String.length buf - 4) buf)) with
        | None => debug (func +:+ ": invalid buffer returned by grep: " +:+ buf) ;;; ret (-1)
        | Some r => debug (func +:+ ": calculated lpj=" +:+ pretty r) ;;; ret r
        end
    end.

Definition read_lpj_from_dmesg : dm Z :=
  read_lpj_common "read_lpj_from_dmesg" (guestfs___cmd_add_string_unquoted ("dmesg | " +:+ GREP_CMD)).

Definition FILE1 : string := "/var/log/dmesg".
Definition FILE2 : string := "/var/log/boot.msg".

Definition read_lpj_from_files : dm Z :=
  let readable := List.filter access_ok [FILE1; FILE2] in
  match readable with
  | _ :: _ => read_lpj_common "read_lpj_from_files" (add_args (["grep"; GREP_FLAGS; GREP_REGEX] ++ readable))
  | [] => debug "read_lpj_from_files: no boot messages files are readable" ;;; ret (-1)
  end.

Definition guestfs___get_lpj : dm Z :=
  lpj <- gets b_lpj ;;
  if negb (lpj =? 0) then ret lpj
  else
    r <- read_lpj_from_dmesg ;;
    if 0 <? r then modify (fun s => s <| b_lpj := r |>) ;;; ret r
    else
      r <- read_lpj_from_files ;;
      modify (fun s => s <| b_lpj := r |>) ;;; ret r.

(** * The kernel's command line and the CPU model (src/launch.c) *)

Definition SERIAL_CONSOLE : string := "console=ttyS0".
Definition APPLIANCE_COMMAND_LINE_IS_TCG : Z := 1.

Definition guestfs___appliance_command_line (appliance_dev : option string) (flags : Z) : dm string :=
  let root := match appliance_dev with Some d => snprintf 64 (" root=" +:+ d) | None => "" end in
  lpj_s <- (if negb (Z.land flags APPLIANCE_COMMAND_LINE_IS_TCG =? 0) then
              lpj <- guestfs___get_lpj ;;
              ret (if 0 <? lpj then snprintf 64 (" lpj=" +:+ pretty lpj) else "")
            else ret "") ;;
  c <- gets (fun s => g_cfg (b_g s)) ;;
  ret ("panic=1" +:+ " " +:+ SERIAL_CONSOLE +:+ " udevtimeout=6000" +:+ " no_timer_check" +:+ lpj_s +:+
       " acpi=off" +:+ " printk.time=1" +:+ " cgroup_disable=memory" +:+ root +:+ " " +:+
       (if selinux c then "selinux=1 enforcing=0" else "selinux=0") +:+
       (if verbose c then " guestfs_verbose=1" else "") +:+
       (if enable_network c then " guestfs_network=1" else "") +:+
       " TERM=" +:+ default "linux" (getenv "TERM") +:+
       match append c with Some a => " " +:+ a | None => "" end).

End host.

Definition guestfs___get_cpu_model (kvm : bool) : option string := if kvm then Some "host" else None.
