(* ===== verification/Appliance.v ===== *)
(** src/appliance.c: finding the appliance on the search path, and having
    supermin build it in the cache directory.

    Parameters: access (2), lstat (2), the effective user, the path of the
    supermin program. *)

From S2P Require Import Files Procs Prelude Xdr Protocol Handle Events Conn LibProto Utils Config Lifecycle Drives Command Create Backend.
From Stdlib Require Import Ascii.
Local Open Scope Z_scope.
#[local] Arguments String.append : simpl nomatch.
#[local] Notation octal := Files.octal.

Definition host_cpu : string := "x86_64".
Definition kernel_name : string := "vmlinuz." +:+ host_cpu.
Definition initrd_name : string := "initramfs." +:+ host_cpu +:+ ".img".
Definition PATH_SEPARATOR : ascii := ":".

(** The files of the appliance; [None] is NULL. *)
Record appliance_files := mk_appliance {
  ap_kernel : option string;
  ap_dtb : option string;
  ap_initrd : option string;
  ap_appliance : option string
}.

(** What lstat tells. *)
Record lstat_info := mk_lstat { st_uid : Z; st_mode : Z }.
Definition S_ISDIR (mode : Z) : bool := Z.land mode 61440 =? 16384.  (* S_IFMT 0170000, S_IFDIR 0040000 *)

(** * Searching the path *)

(** One turn for each element; every turn but the last consumes a character. *)
Fixpoint find_path_loop (fuel : nat) (pred : string -> Z) (pelem : string) : Z * option string :=
  let '(elem, rest) := strcspn PATH_SEPARATOR pelem in
  let pelem_ret := if STREQ elem "" then "." else elem in
  let r := pred pelem_ret in
  if r =? -1 then (-1, None)
  else if negb (r =? 0) then (1, Some pelem_ret)
  else
    let pelem := match rest with String _ rest' => rest' | EmptyString => "" end in
    match pelem, fuel with
    | EmptyString, _ => (0, None)
    | _, O => (0, None)
    | _, S fuel' => find_path_loop fuel' pred pelem
    end.
Definition find_path (pred : string -> Z) (path : string) : Z * option string :=
  find_path_loop (String.length path) pred path.

Section appliance.
Context (strsignal : Z -> string) (access_ok : string -> bool) (lstat : string -> Z + lstat_info)
        (geteuid : Z) (SUPERMIN : string).

Definition dir_contains_file (dir file : string) : bool := access_ok (dir +:+ "/" +:+ file).
Fixpoint dir_contains_files (dir : string) (files : list string) : Z :=
  match files with
  | [] => 1
  | file :: files' => if negb (dir_contains_file dir file) then 0 else dir_contains_files dir files'
  end.

Definition contains_old_style_appliance (path : string) : Z := dir_contains_files path [kernel_name; initrd_name].
Definition contains_fixed_appliance (path : string) : Z :=
  dir_contains_files path ["README.fixed"; "kernel"; "initrd"; "root"].
Definition contains_supermin_appliance (path : string) : Z := dir_contains_files path ["supermin.d"].

(** * Building it *)

Definition run_supermin_build (lockfile appliancedir supermin_path : string) : dm Z :=
  v <- cfg verbose ;;
  let* (r, _) := run_program tt (add_args (
    [SUPERMIN; "--build"] ++ (if v : bool then ["--verbose"] else []) ++
    ["--if-newer"; "--lock"; lockfile; "--copy-kernel"; "-f"; "ext2"; "--host-cpu"; host_cpu;
     supermin_path +:+ "/supermin.d"; "-o"; appliancedir])) in
  if r =? -1 then ret (-1)
  else if negb (exited_0 r) then external_command_failed strsignal r SUPERMIN ;;; ret (-1)
  else ret 0.

Definition guestfs_get_cachedir : hm (option string) :=
  api "get_cachedir" "" (gets (fun g => Some (guestfs__get_cachedir g))).

(** The checks that the cache directory has not been tampered with: [None] when
    it passes. *)
Definition cachedir_error (cachedir : string) (uid : Z) (st : lstat_info) : option string :=
  if negb (st_uid st =? uid) then
    Some ("security: cached appliance " +:+ cachedir +:+ " is not owned by UID " +:+ pretty (s32 uid))
  else if negb (S_ISDIR (st_mode st)) then
    Some ("security: cached appliance " +:+ cachedir +:+ " is not a directory (mode " +:+ octal (st_mode st) +:+ ")")
  else if negb (Z.land (st_mode st) 18 =? 0) then  (* 0022 *)
    Some ("security: cached appliance " +:+ cachedir +:+ " is writable by group or other (mode " +:+
          octal (st_mode st) +:+ ")")
  else None.

(** The result and the files that were stored through the pointers. *)
Definition build_supermin_appliance (supermin_path : string) (uid : Z) : dm (Z * appliance_files) :=
  let nothing := mk_appliance None None None None in
  tmpdir <- on_h guestfs_get_cachedir ;;
  let tmpdir := default "" tmpdir in
  let len := (String.length tmpdir + 128)%nat in
  let cachedir := snprintf len (tmpdir +:+ "/.guestfs-" +:+ pretty (s32 uid)) in
  let lockfile := snprintf len (cachedir +:+ "/lock") in
  let appliancedir := snprintf len (cachedir +:+ "/appliance.d") in
  did (Mkdir cachedir 493) ;;;   (* 0755 *)
  did (Chmod cachedir 493) ;;;
  match lstat cachedir with
  | inl _ => ret (0, nothing)
  | inr st =>
      match cachedir_error cachedir uid st with
      | Some msg => error msg ;;; ret (-1, nothing)
      | None =>
          did (Utimes cachedir) ;;;
          timestamped "begin building supermin appliance" ;;;
          timestamped "run supermin" ;;;
          r <- run_supermin_build lockfile appliancedir supermin_path ;;
          if r =? -1 then ret (-1, nothing)
          else
            timestamped "finished building supermin appliance" ;;;
            let kernel := snprintf len (appliancedir +:+ "/kernel") in
            let initrd := snprintf len (appliancedir +:+ "/initrd") in
            let appliance := snprintf len (appliancedir +:+ "/root") in
            did (Utimes kernel) ;;;
            did (Utimes initrd) ;;;
            b <- cfg backend ;;
            (if STRNEQ b "uml" then did (Utimes appliance) else ret tt) ;;;
            ret (0, mk_appliance (Some kernel) None (Some initrd) (Some appliance))
      end
  end.

Definition build_appliance : dm (Z * appliance_files) :=
  let nothing := mk_appliance None None None None in
  path <- cfg path ;;
  (* Step (1). *)
  let '(r, supermin_path) := find_path contains_supermin_appliance path in
  if r =? -1 then ret (-1, nothing)
  else if r =? 1 then build_supermin_appliance (default "" supermin_path) geteuid
  else
    (* Step (3). *)
    let '(r, p) := find_path contains_fixed_appliance path in
    if r =? -1 then ret (-1, nothing)
    else if r =? 1 then
      let p := default "" p in
      ret (0, mk_appliance (Some (p +:+ "/kernel"))
                (if dir_contains_file p "dtb" then Some (p +:+ "/dtb") else None)
                (Some (p +:+ "/initrd")) (Some (p +:+ "/root")))
    else
      (* Step (4). *)
      let '(r, p) := find_path contains_old_style_appliance path in
      if r =? -1 then ret (-1, nothing)
      else if r =? 1 then
        let p := default "" p in
        ret (0, mk_appliance (Some (p +:+ "/" +:+ kernel_name)) None (Some (p +:+ "/" +:+ initrd_name)) None)
      else
        error ("cannot find any suitable libguestfs supermin, fixed or old-style appliance on LIBGUESTFS_PATH (search path: "
               +:+ path +:+ ")") ;;;
        ret (-1, nothing).

(** [None] is -1: nothing is stored. *)
Definition guestfs___build_appliance : dm (option appliance_files) :=
  let* (r, files) := build_appliance in
  if r =? -1 then ret None else ret (Some files).

End appliance.
