(* ===== verification/Direct.v ===== *)
(** src/launch-direct.c: the backend that runs qemu as a subprocess.

    Parameters: what the system and the libraries answer (open, stat, realpath,
    getgroups, xmlSaveUri, the kernel's side of the connection), and the options
    chosen when the library was configured (QEMU_OPTIONS). *)

From S2P Require Import Procs Regex Inspect Prelude Xdr Protocol Handle Events Conn LibProto Utils Config Lifecycle Drives Command Create Backend Appliance.
From Stdlib Require Import Ascii.
Local Open Scope Z_scope.
#[local] Arguments String.append : simpl nomatch.

Definition VIRTIO_BLK : string := "virtio-blk-pci".
Definition VIRTIO_SCSI : string := "virtio-scsi-pci".
Definition VIRTIO_SERIAL : string := "virtio-serial-pci".
Definition VIRTIO_NET : string := "virtio-net-pci".

(** * Shell-quoted options *)

(** strchr, by what is before the character and what is from it on. *)
Fixpoint strchr (c : ascii) (s : string) : option (string * string) :=
  match s with
  | EmptyString => None
  | String d s' => if Ascii.eqb d c then Some ("", s)
                   else match strchr c s' with Some (a, b) => Some (String d a, b) | None => None end
  end.
Fixpoint skip_sp (s : string) : string :=
  match s with String " " s' => skip_sp s' | _ => s end.
Definition is_quote (c : ascii) : bool := Ascii.eqb c "'" || Ascii.eqb c (ascii_of_nat 34).

(** The strings that are added to the command line; [inl] is [_exit].  For a
    quoted string [endp] is found at the opening quote, one before [startp]:
    [endp - startp] is the largest size_t and strndup copies the whole rest. *)
Fixpoint add_cmdline_shell_unquoted (fuel : nat) (options : string) : unit + list string :=
  match options, fuel with
  | EmptyString, _ => inr []
  | _, O => inr []
  | String c rest, S fuel' =>
      let next (word nextp : string) :=
        match add_cmdline_shell_unquoted fuel' (skip_sp nextp) with
        | inl u => inl u
        | inr words => inr (word :: words)
        end in
      if is_quote c then
        (* endp = strchr (options, quote) = options *)
        match rest with
        | EmptyString => next rest ""
        | String d rest' => if Ascii.eqb d " " then next rest rest' else inl tt
        end
      else
        match strchr " " options with
        | None => next options ""
        | Some (word, endp) => next word (String.substring 1 (String.length endp - 1) endp)
        end
  end.

(** * Messages *)

(** strcspn (arg, " ") != strlen (arg) *)
Definition needs_quote (arg : string) : bool := negb (str_forallb (fun c => negb (Ascii.eqb c " ")) arg).
Fixpoint print_args (first : bool) (argv : list string) : string :=
  match argv with
  | [] => newline
  | arg :: argv' =>
      (if STRPREFIX arg "-" then " \" +:+ newline +:+ "   " else "") +:+
      (if first then "" else " ") +:+
      (if needs_quote arg then "'" +:+ arg +:+ "'" else arg) +:+
      print_args false argv'
  end.
(** What the child writes to stderr. *)
Definition print_qemu_command_line (ms : Z) (argv : list string) : string :=
  "[" +:+ pad05 ms +:+ "ms] " +:+ print_args true argv.

(** * The recovery process

    What it sees at each turn of its loop: whether qemu and the parent are
    there. *)
Inductive recovery_end := RecoveryWaits | RecoveryExits (killed_qemu : bool).
Fixpoint recovery_loop (seen : list (bool * bool)) : recovery_end :=
  match seen with
  | [] => RecoveryWaits
  | (qemu_alive, parent_alive) :: seen' =>
      if negb qemu_alive then RecoveryExits false
      else if negb parent_alive then RecoveryExits true
      else recovery_loop seen'
  end.

(** * qemu's features *)

(** The fields of xmlURI that are set. *)
Record xmlURI := mk_uri {
  uri_scheme : string;
  uri_user : option string;
  uri_server : option string;
  uri_port : Z;
  uri_path : option string;
  uri_query_raw : option string
}.
(** What stat tells about /dev/kvm. *)
Record kvm_stat := mk_kvm_stat { kvm_uid : Z; kvm_gid : Z; kvm_mode : Z }.

Section direct.
Context (strsignal : Z -> string) (access_ok : string -> bool) (getenv : string -> option string)
        (lstat : string -> Z + lstat_info) (geteuid : Z) (SUPERMIN : string)
        (sys_open : string -> option Z) (stat_kvm : option kvm_stat) (getegid : Z)
        (getgroups : Z + list Z)
        (realpath : string -> Z + string) (xmlSaveUri : xmlURI -> option string)
        (mkdtemp : string -> Z + string)
        (stat : string -> option file_kind) (blksize64 : string -> Z) (errno_text : string)
        (QEMU_OPTIONS : option string)
        (start_t : Z) (accept_script : list (Z * accept_poll)) (accept_fcntl : option Z)
        (conn_fcntl : option Z * option Z) (conn_answers : kernel).

Definition read_all : cmd_stdout_callback (option string) := fun g _ buf => (g, Some (strndup buf)).

Definition parse_unsigned_int (str : string) : dm Z :=
  match xstrtol true str with
  | None => error (version_error str) ;;; ret (-1)
  | Some v => ret (s32 v)
  end.

Definition parse_failed : dm unit :=
  v <- dat bd_qemu_version ;;
  debug ("parse_qemu_version: failed to parse qemu version string '" +:+ default "" v +:+ "'").
Definition parse_qemu_version : dm unit :=
  set_data (fun d => d <| bd_qemu_version_major := 0 |> <| bd_qemu_version_minor := 0 |>) ;;;
  v <- dat bd_qemu_version ;;
  match v with
  | None => ret tt
  | Some v =>
      match guestfs___match2 v re_major_minor with
      | None => parse_failed
      | Some (major_s, minor_s) =>
          major_i <- parse_unsigned_int (default "" major_s) ;;
          if major_i =? -1 then parse_failed else
          minor_i <- parse_unsigned_int (default "" minor_s) ;;
          if minor_i =? -1 then parse_failed else
          set_data (fun d => d <| bd_qemu_version_major := major_i |> <| bd_qemu_version_minor := minor_i |>) ;;;
          debug ("qemu version " +:+ pretty major_i +:+ "." +:+ pretty minor_i)
      end
  end.

(** One of the three runs of [test_qemu]. *)
Definition qemu_output (args : list string) (setup : @bm (option string) unit) : dm (Z * option string) :=
  hv <- cfg hv ;;
  run_program None (add_args ([hv; "-display"; "none"] ++ args) ;;;
                    setup ;;;
                    guestfs___cmd_set_stdout_callback read_all None CMD_STDOUT_FLAG_WHOLE_BUFFER).
(** The label [error]. *)
Definition test_failed (r : Z) : dm Z :=
  if r =? -1 then ret (-1)
  else hv <- cfg hv ;; external_command_failed strsignal r hv ;;; ret (-1).

Definition test_qemu : dm Z :=
  set_data (fun d => d <| bd_qemu_help := None |> <| bd_qemu_version := None |> <| bd_qemu_devices := None |>) ;;;
  let* (r, out) := qemu_output ["-help"] (ret tt) in
  set_data (fun d => d <| bd_qemu_help := out |>) ;;;
  if (r =? -1) || negb (exited_0 r) then test_failed r else
  let* (r, out) := qemu_output ["-version"] (ret tt) in
  set_data (fun d => d <| bd_qemu_version := out |>) ;;;
  if (r =? -1) || negb (exited_0 r) then test_failed r else
  parse_qemu_version ;;;
  let* (r, out) := qemu_output ["-machine"; "accel=kvm:tcg"; "-device"; "?"]
                     (guestfs___cmd_clear_capture_errors ;;; guestfs___cmd_set_stderr_to_stdout) in
  set_data (fun d => d <| bd_qemu_devices := out |>) ;;;
  if (r =? -1) || negb (exited_0 r) then test_failed r else
  ret 0.

(** strstr (s, pat) != NULL, where [s] may be NULL. *)
Definition grep (s : option string) (pat : string) : dm Z :=
  match s with None => halt Undefined | Some s => ret (bool_int (strstr s pat)) end.

Definition qemu_supports (option : option string) : dm Z :=
  help <- dat bd_qemu_help ;;
  r <- match help with None => test_qemu | Some _ => ret 0 end ;;
  if r =? -1 then ret (-1)
  else match option with
       | None => ret 1
       | Some option => help <- dat bd_qemu_help ;; grep help option
       end.

Definition qemu_supports_device (device_name : string) : dm Z :=
  devices <- dat bd_qemu_devices ;;
  r <- match devices with None => test_qemu | Some _ => ret 0 end ;;
  if r =? -1 then ret (-1)
  else devices <- dat bd_qemu_devices ;; grep devices device_name.

Definition is_openable (path : string) : dm bool :=
  match sys_open path with
  | Some e => on_h (modify (fun g => guestfs___debug g ("is_openable: " +:+ path +:+ ": " +:+ env_strerror (g_env g) e))) ;;;
              ret false
  | None => ret true
  end.

Definition old_or_broken_virtio_scsi (d : backend_direct_data) : bool :=
  (bd_qemu_version_major d =? 1) && (bd_qemu_version_minor d <? 2).

Definition qemu_supports_virtio_scsi : dm bool :=
  help <- dat bd_qemu_help ;;
  r <- match help with None => test_qemu | Some _ => ret 0 end ;;
  if r =? -1 then ret false
  else
    v <- dat bd_virtio_scsi ;;
    (if v =? 0 then
       old <- dat old_or_broken_virtio_scsi ;;
       if old : bool then set_data (fun d => d <| bd_virtio_scsi := 2 |>)
       else
         r <- qemu_supports_device VIRTIO_SCSI ;;
         set_data (fun d => d <| bd_virtio_scsi := if 0 <? r then 1 else if r =? 0 then 2 else 3 |>)
     else ret tt) ;;;
    v <- dat bd_virtio_scsi ;;
    ret (v =? 1).

Definition debian_kvm_warning : dm unit :=
  if geteuid =? 0 then ret tt else
  match stat_kvm with
  | None => ret tt
  | Some st =>
      if negb (Z.land (kvm_mode st) 511 =? 432) then ret tt  (* 0777, 0660 *)
      else if geteuid =? kvm_uid st then ret tt
      else if getegid =? kvm_gid st then ret tt
      else
        let warn := warning
          ("current user is not a member of the KVM group (group ID " +:+ pretty (s32 (kvm_gid st)) +:+ "). " +:+
           "This user cannot access /dev/kvm, so libguestfs may run very slowly. " +:+
           "It is recommended that you 'chmod 0666 /dev/kvm' or add the current user " +:+
           "to the KVM group (you might need to log out and log in again).") in
        match getgroups with
        | inl e => on_h (modify (fun g => guestfs___warning g ("getgroups: " +:+ env_strerror (g_env g) e +:+ " (ignored)")))
        | inr groups => if existsb (Z.eqb (kvm_gid st)) groups then ret tt else warn
        end
  end.

(** * Drives *)

Definition make_uri (scheme : string) (user password : option string) (server : option drive_server)
    (path : option string) : dm (option string) :=
  match server with
  | None => halt Undefined
  | Some server =>
      let path := match path with
                  | Some p => Some (if STRPREFIX p "/" then p else "/" +:+ p)
                  | None => None
                  end in
      let user := match user, password with Some u, Some p => Some (u +:+ ":" +:+ p) | _, _ => user end in
      ret (xmlSaveUri
        match srv_transport server with
        | drive_transport_none | drive_transport_tcp =>
            mk_uri scheme user (Some (srv_host server)) (srv_port server) path None
        | drive_transport_unix => mk_uri scheme user None 0 path (Some ("socket=" +:+ srv_host server))
        end)
  end.

Definition nbd_server (server : drive_server) : string :=
  match srv_transport server with
  | drive_transport_none | drive_transport_tcp => "nbd:" +:+ srv_host server +:+ ":" +:+ pretty (srv_port server)
  | drive_transport_unix => "nbd:unix:" +:+ srv_host server
  end.

(** The buffer for the monitor hosts, and what is written to it before the
    final zero. *)
Definition mon_host_alloc (servers : list drive_server) : nat :=
  S (foldr (fun s n => String.length (srv_host s) + 8 + n)%nat 0%nat servers).
Fixpoint mon_host_text (servers : list drive_server) : string :=
  match servers with
  | [] => ""
  | s :: servers' =>
      srv_host s +:+ "\:" +:+ pretty (srv_port s) +:+
      match servers' with [] => "" | _ => "\;" +:+ mon_host_text servers' end
  end.
Definition rbd_param (src : drive_source) : dm (option string) :=
  let mon_host := mon_host_text (src_servers src) in
  if (mon_host_alloc (src_servers src) <=? String.length mon_host)%nat then halt Undefined
  else
    let username := match src_username src with Some u => ":id=" +:+ u | None => "" end in
    let secret := match src_secret src with Some s => ":key=" +:+ s | None => "" end in
    let auth := match src_username src, src_secret src with
                | None, None => ":auth_supported=none"
                | _, _ => ":auth_supported=cephx\;none"
                end in
    ret (Some ("rbd:" +:+ src_path src +:+
               match src_servers src with [] => "" | _ => ":mon_host=" +:+ mon_host end +:+
               username +:+ auth +:+ secret)).

Definition guestfs___drive_source_qemu_param (src : drive_source) : dm (option string) :=
  let server0 := src_servers src !! 0%nat in
  let uri scheme := make_uri scheme (src_username src) (src_secret src) server0 (Some (src_path src)) in
  match src_protocol src with
  | drive_protocol_file =>
      match realpath (src_path src) with
      | inl e => perrorf e ("realpath: could not convert '" +:+ src_path src +:+ "' to absolute path") ;;; ret None
      | inr path => ret (Some path)
      end
  | drive_protocol_ftp => uri "ftp"
  | drive_protocol_ftps => uri "ftps"
  | drive_protocol_gluster =>
      match server0 with
      | None => halt Undefined
      | Some server =>
          match srv_transport server with
          | drive_transport_none => make_uri "gluster" None None server0 (Some (src_path src))
          | drive_transport_tcp => make_uri "gluster+tcp" None None server0 (Some (src_path src))
          | drive_transport_unix => make_uri "gluster+unix" None None server0 None
          end
      end
  | drive_protocol_http => uri "http"
  | drive_protocol_https => uri "https"
  | drive_protocol_iscsi => make_uri "iscsi" None None server0 (Some (src_path src))
  | drive_protocol_nbd =>
      match server0 with
      | None => halt Undefined
      | Some server =>
          let p := nbd_server server in
          ret (Some (if STREQ (src_path src) "" then p else p +:+ ":exportname=" +:+ src_path src))
      end
  | drive_protocol_rbd => rbd_param src
  | drive_protocol_sheepdog =>
      ret (Some match server0 with
                | None => "sheepdog:" +:+ src_path src
                | Some server => "sheepdog:" +:+ srv_host server +:+ ":" +:+ pretty (srv_port server) +:+ ":" +:+ src_path src
                end)
  | drive_protocol_ssh => uri "ssh"
  | drive_protocol_tftp => uri "tftp"
  end.

Definition discard_protocol (p : drive_protocol) : bool :=
  match p with
  | drive_protocol_file | drive_protocol_gluster | drive_protocol_iscsi | drive_protocol_nbd
  | drive_protocol_rbd | drive_protocol_sheepdog => true
  | drive_protocol_ftp | drive_protocol_ftps | drive_protocol_http | drive_protocol_https
  | drive_protocol_ssh | drive_protocol_tftp => false
  end.
Definition no_discard (r : bool) (why : string) : dm bool :=
  not_supported ("discard cannot be enabled on this drive: " +:+ why) ;;; ret r.
(** For the protocols that do not support it the code returns -1, which is true. *)
Definition guestfs___discard_possible (drv : drive) (qemu_version : Z) : dm bool :=
  let qemu15 := 1005000 <=? qemu_version in
  let qemu16 := 1006000 <=? qemu_version in
  let protocol :=
    if discard_protocol (src_protocol (drv_src drv)) then ret true
    else no_discard true ("protocol '" +:+ guestfs___drive_protocol_to_string (src_protocol (drv_src drv)) +:+
                          "' does not support discard") in
  if negb qemu15 then no_discard false "qemu < 1.5"
  else if is_set (drv_overlay drv) then no_discard false "the drive has a read-only overlay"
  else match src_format (drv_src drv) with
       | None => no_discard false "you have to specify the format of the file"
       | Some format =>
           if STREQ format "raw" then protocol
           else if STREQ format "qcow2" then
             if negb qemu16 then no_discard false "qemu < 1.6 cannot do discard on qcow2 files" else protocol
           else no_discard false ("qemu does not support discard for '" +:+ format +:+ "' format files")
       end.

(** The number that stands for the version: int arithmetic, stored in an
    unsigned long. *)
Definition version_number (major minor : Z) : Z := u64 (s32 (major * 1000000 + minor * 1000)).

(** The switch on [drv->discard]: [None] is [goto cleanup0]. *)
Definition drive_discard_mode (drv : drive) : dm (option string) :=
  major <- dat bd_qemu_version_major ;;
  minor <- dat bd_qemu_version_minor ;;
  let besteffort := if (1 <? major) || ((major =? 1) && (5 <=? minor)) then ",discard=unmap" else "" in
  match drv_discard drv with
  | discard_disable => ret (Some "")
  | discard_enable =>
      possible <- guestfs___discard_possible drv (version_number major minor) ;;
      ret (if possible : bool then Some besteffort else None)
  | discard_besteffort => ret (Some besteffort)
  end.

Definition opt_param (key : string) (v : option string) : string :=
  match v with Some v => key +:+ v | None => "" end.

(** The first part of the -drive parameter. *)
Definition drive_param (i : nat) (drv : drive) : dm (option string) :=
  match drv_overlay drv with
  | None =>
      discard_mode <- drive_discard_mode drv ;;
      match discard_mode with
      | None => ret None
      | Some discard_mode =>
          file <- guestfs___drive_source_qemu_param (drv_src drv) ;;
          match file with
          | None => halt Undefined   (* strlen (NULL) *)
          | Some file =>
              ret (Some ("file=" +:+ qemu_escape_param file +:+
                         (if drv_readonly drv then ",snapshot=on" else "") +:+
                         ",cache=" +:+ default "writeback" (drv_cachemode drv) +:+
                         discard_mode +:+
                         opt_param ",format=" (src_format (drv_src drv)) +:+
                         opt_param ",serial=" (drv_disk_label drv) +:+
                         (if drv_copyonread drv then ",copy-on-read=on" else "") +:+
                         ",id=hd" +:+ pretty i))
          end
      end
  | Some overlay =>
      ret (Some ("file=" +:+ qemu_escape_param overlay +:+ ",cache=unsafe,format=qcow2" +:+
                 opt_param ",serial=" (drv_disk_label drv) +:+ ",id=hd" +:+ pretty i))
  end.

(** The arguments for the interface. *)
Definition iface_args (virtio_scsi : bool) (i : nat) (drv : drive) (param : string) : list string :=
  let virtio_blk := ["-drive"; param +:+ ",if=none"; "-device"; VIRTIO_BLK +:+ ",drive=hd" +:+ pretty i] in
  match drv_iface drv with
  | Some iface => if STREQ iface "virtio" then virtio_blk else ["-drive"; param +:+ ",if=" +:+ iface]
  | None =>
      if virtio_scsi then ["-drive"; param +:+ ",if=none"; "-device"; "scsi-hd,drive=hd" +:+ pretty i]
      else virtio_blk
  end.

(** ITER_DRIVES from slot [i]. *)
Fixpoint drives_args (virtio_scsi : bool) (i : nat) (drives : list (option drive)) : dm (option (list string)) :=
  match drives with
  | [] => ret (Some [])
  | None :: drives' => drives_args virtio_scsi (S i) drives'
  | Some drv :: drives' =>
      param <- drive_param i drv ;;
      match param with
      | None => ret None
      | Some param =>
          rest <- drives_args virtio_scsi (S i) drives' ;;
          ret (option_map (fun rest => iface_args virtio_scsi i drv param ++ rest) rest)
      end
  end.

(** The disks that are counted, [index] of [make_appliance_dev]. *)
Definition counted (virtio_scsi : bool) (drv : drive) : bool :=
  match drv_iface drv with
  | None => true
  | Some iface => if virtio_scsi then STREQ iface "ide" else STRNEQ iface "virtio"
  end.
Definition appliance_index (virtio_scsi : bool) (drives : list (option drive)) : nat :=
  length (List.filter (counted virtio_scsi) (omap id drives)).
Definition make_appliance_dev (virtio_scsi : bool) (drives : list (option drive)) : string :=
  "/dev/" +:+ (if virtio_scsi then "s" else "v") +:+ "d" +:+
  String.string_of_list_ascii (guestfs___drive_name (appliance_index virtio_scsi drives)).

Definition create_cow_overlay_optargs (backing_drive : string) (drv : drive) : disk_create_argv :=
  mk_disk_create_argv (Some backing_drive) (src_format (drv_src drv)) None None None.
Definition arg_disk_create (o : disk_create_argv) : string :=
  trace_opt "backingfile" (dca_backingfile o) +:+ trace_opt "backingformat" (dca_backingformat o).
(** The public function: the generated wrapper around [guestfs__disk_create] of
    src/create.c. *)
Definition guestfs_disk_create_argv (filename format : string) (size : Z) (optargs : disk_create_argv) : dm Z :=
  tf <- cfg trace ;;
  on_h (message GUESTFS_EVENT_ENTER "disk_create") ;;;
  on_h (trace_call tf ("disk_create" +:+ arg_string filename +:+ arg_string format +:+ arg_int size +:+ arg_disk_create optargs)) ;;;
  r <- (fun s =>
    let '(o, c) := guestfs__disk_create stat blksize64 errno_text strsignal filename format size optargs
                     (mk_cstate (b_g s) (next_kernel s) [] (b_calls s)) in
    (o, after_run (cs_g c) (cs_k c) s <| b_calls := cs_answers c |>)) ;;
  on_h (trace_call tf ("disk_create = " +:+ (if r =? -1 then "-1 (error)" else pretty r))) ;;;
  ret r.

Definition create_cow_overlay_direct (drv : drive) : dm (option string) :=
  backing_drive <- guestfs___drive_source_qemu_param (drv_src drv) ;;
  match backing_drive with
  | None => ret None
  | Some backing_drive =>
      r <- on_h (guestfs___lazy_make_tmpdir mkdtemp) ;;
      if r =? -1 then ret None else
      overlay <- on_h (fresh_tmp "overlay") ;;
      r <- guestfs_disk_create_argv overlay "qcow2" (-1) (create_cow_overlay_optargs backing_drive drv) ;;
      if r =? -1 then ret None else ret (Some overlay)
  end.

(** * The command line *)

(** The pieces of the command line in order; [None] is [goto cleanup0]. *)
Fixpoint concat_args (l : list (dm (option (list string)))) : dm (option (list string)) :=
  match l with
  | [] => ret (Some [])
  | m :: l' =>
      a <- m ;;
      match a with
      | None => ret None
      | Some a => b <- concat_args l' ;; ret (option_map (app a) b)
      end
  end.
Definition args (l : list string) : dm (option (list string)) := ret (Some l).
(** [if (qemu_supports (g, data, option)) ADD_CMDLINE (...)]: -1 counts as true. *)
Definition if_supports (opt : string) (yes no : list string) : dm (option (list string)) :=
  r <- qemu_supports (Some opt) ;; args (if is_true r then yes else no).
(** [ADD_CMDLINE (file)]: strdup of a pointer that may be NULL. *)
Definition file_arg (opt : string) (file : option string) : dm (option (list string)) :=
  match file with Some f => args [opt; f] | None => halt Undefined end.

Definition machine_args (has_kvm force_tcg : bool) : dm (option (list string)) :=
  r <- qemu_supports (Some "-machine") ;;
  if is_true r then args ["-machine"; if negb force_tcg then "accel=kvm:tcg" else "accel=tcg"]
  else if has_kvm && negb force_tcg then if_supports "-enable-kvm" ["-enable-kvm"] []
  else args [].

Definition clock_args : dm (option (list string)) :=
  major <- dat bd_qemu_version_major ;;
  minor <- dat bd_qemu_version_minor ;;
  args (if (major <? 1) || ((major =? 1) && (minor <=? 2)) then ["-no-kvm-pit-reinjection"]
        else ["-global"; "kvm-pit.lost_tick_policy=discard"]).

Definition gdb_args : dm (option (list string)) :=
  gdb <- on_h (guestfs___get_backend_setting_bool "gdb") ;;
  if 0 <? gdb then
    warning "qemu debugging is enabled, connect gdb to tcp::1234 to begin" ;;; args ["-S"; "-s"]
  else args [].

Definition appliance_args (virtio_scsi : bool) (appliance : option string) : list string :=
  match appliance with
  | Some appliance =>
      ["-drive"; "file=" +:+ appliance +:+ ",snapshot=on,id=appliance,cache=unsafe,if=none";
       "-device"; (if virtio_scsi then "scsi-hd" else VIRTIO_BLK) +:+ ",drive=appliance"]
  | None => []
  end.

(** Up to the drives. *)
Definition machine_cmdline (has_kvm force_tcg : bool) (files : appliance_files) : dm (option (list string)) :=
  c <- gets (fun s => g_cfg (b_g s)) ;;
  concat_args [
    args [hv c];
    if_supports "-global" ["-global"; VIRTIO_BLK +:+ ".scsi=off"] [];
    if_supports "-nodefconfig" ["-nodefconfig"] [];
    if_supports "-enable-fips" ["-enable-fips"] [];
    if_supports "-nodefaults" ["-nodefaults"] [];
    args ["-display"; "none"];
    gdb_args;
    args match guestfs___get_cpu_model (has_kvm && negb force_tcg) with Some m => ["-cpu"; m] | None => [] end;
    machine_args has_kvm force_tcg;
    args (if 1 <? smp c then ["-smp"; pretty (smp c)] else []);
    args ["-m"; pretty (memsize c); "-no-reboot"; "-rtc"; "driftfix=slew"];
    if_supports "-no-hpet" ["-no-hpet"] [];
    clock_args;
    file_arg "-kernel" (ap_kernel files);
    args match ap_dtb files with Some dtb => ["-dtb"; dtb] | None => [] end;
    file_arg "-initrd" (ap_initrd files)
  ].

(** From the virtio serial bus on. *)
Definition channel_cmdline (has_kvm force_tcg : bool) (guestfsd_sock : string) (appliance_dev : option string) :
    dm (option (list string)) :=
  c <- gets (fun s => g_cfg (b_g s)) ;;
  concat_args [
    args ["-device"; VIRTIO_SERIAL; "-serial"; "stdio"];
    r <- qemu_supports_device "Serial Graphics Adapter" ;; args (if is_true r then ["-device"; "sga"] else []);
    args ["-chardev"; "socket,path=" +:+ guestfsd_sock +:+ ",id=channel0";
          "-device"; "virtserialport,chardev=channel0,name=org.libguestfs.channel.0"];
    args (if enable_network c then ["-netdev"; "user,id=usernet,net=169.254.0.0/16";
                                    "-device"; VIRTIO_NET +:+ ",netdev=usernet"] else []);
    line <- guestfs___appliance_command_line strsignal access_ok getenv appliance_dev
              (if negb has_kvm || force_tcg then APPLIANCE_COMMAND_LINE_IS_TCG else 0) ;; args ["-append"; line];
    match QEMU_OPTIONS with
    | None => args []
    | Some options => match add_cmdline_shell_unquoted (String.length options) options with
                      | inl _ => halt Exited
                      | inr words => args words
                      end
    end;
    args (hv_params c ≫= fun hp => fst hp :: match snd hp with Some v => [v] | None => [] end)
  ].

Definition qemu_cmdline (has_kvm force_tcg : bool) (files : appliance_files) (guestfsd_sock : string) :
    dm (option (list string)) :=
  drives <- gets (fun s => g_drives (b_g s)) ;;
  concat_args [
    machine_cmdline has_kvm force_tcg files;
    virtio_scsi <- qemu_supports_virtio_scsi ;;
    concat_args [
      args (if virtio_scsi : bool then ["-device"; VIRTIO_SCSI +:+ ",id=scsi"] else []);
      drives_args virtio_scsi 0 drives;
      args (appliance_args virtio_scsi (ap_appliance files));
      channel_cmdline has_kvm force_tcg guestfsd_sock
        (if is_set (ap_appliance files) then Some (make_appliance_dev virtio_scsi drives) else None)
    ]
  ].

(** * Shutdown, pid and limits *)

Definition SIGTERM : Z := 15.
Definition shutdown_direct (check_for_errors : Z) : dm Z :=
  pid <- dat bd_pid ;;
  recoverypid <- dat bd_recoverypid ;;
  (if 0 <? pid then debug ("sending SIGTERM to process " +:+ pretty pid) ;;; did (Kill pid SIGTERM) else ret tt) ;;;
  (if 0 <? recoverypid then did (Kill recoverypid 9) else ret tt) ;;;
  rp <- cfg recovery_proc ;;
  r <- (if rp && (0 <? pid) then
          w <- sys_waitpid pid ;;
          match w with
          | inl e => perrorf e "waitpid (qemu)" ;;; ret (-1)
          | inr status =>
              if negb (exited_0 status)
              then hv <- cfg hv ;; external_command_failed strsignal status hv ;;; ret (-1)
              else ret 0
          end
        else ret 0) ;;
  (if 0 <? recoverypid then sys_waitpid recoverypid ;;; ret tt else ret tt) ;;;
  set_data (fun d => d <| bd_pid := 0 |> <| bd_recoverypid := 0 |> <| bd_qemu_help := None |>
                       <| bd_qemu_version := None |> <| bd_qemu_devices := None |>) ;;;
  ret r.

Definition get_pid_direct : dm Z :=
  pid <- dat bd_pid ;;
  if 0 <? pid then ret pid else error "get_pid: no qemu subprocess" ;;; ret (-1).

Definition max_disks_direct : dm Z :=
  b <- qemu_supports_virtio_scsi ;; ret (if b : bool then 255 else 27).

(** * Launch *)

Definition close_all (fds : list Z) : dm unit := modify (fun s => s <| b_open ::= fun o => o ∖ list_to_set fds |>).
Definition close_if (fd : Z) : dm unit := if 0 <=? fd then sys_close fd else ret tt.

(** [g->conn->ops->free_connection] *)
Definition free_connection : dm unit := fun s =>
  match l_conn (b_l s) with
  | None => (Ret tt, s)
  | Some c => (Ret tt, s <| b_open ::= fun o => o ∖ list_to_set (free_conn_socket c) |> <| b_l; l_conn := None |>)
  end.

Definition cleanup0 (daemon_accept_sock console_sock : Z) : dm Z :=
  close_if daemon_accept_sock ;;;
  close_if console_sock ;;;
  free_connection ;;;
  on_h (modify (fun g => g <| g_state := CONFIG |>)) ;;;
  ret (-1).

Definition cleanup1 (sv0 daemon_accept_sock console_sock : Z) : dm Z :=
  direct <- cfg direct_mode ;;
  (if negb direct && (0 <=? sv0) then sys_close sv0 else ret tt) ;;;
  pid <- dat bd_pid ;;
  recoverypid <- dat bd_recoverypid ;;
  (if 0 <? pid then did (Kill pid 9) else ret tt) ;;;
  (if 0 <? recoverypid then did (Kill recoverypid 9) else ret tt) ;;;
  (if 0 <? pid then sys_waitpid pid ;;; ret tt else ret tt) ;;;
  (if 0 <? recoverypid then sys_waitpid recoverypid ;;; ret tt else ret tt) ;;;
  set_data (fun d => d <| bd_pid := 0 |> <| bd_recoverypid := 0 |>) ;;;
  on_h (modify (fun g => g <| g_launch_t := mk_timeval 0 0 |>)) ;;;
  cleanup0 daemon_accept_sock console_sock.

(** accept4 gives the lowest free descriptor; the listening socket is closed
    afterwards. *)
Definition accepted_as (fd : Z) (turn : Z * accept_poll) : Z * accept_poll :=
  match turn with
  | (t, ApReady console (Some (AcceptOk _))) => (t, ApReady console (Some (AcceptOk fd)))
  | _ => turn
  end.
Definition accept_daemon : dm Z := fun s =>
  match l_conn (b_l s) with
  | None => (Stop Undefined, s)
  | Some c =>
      let fd := new_fd (b_open s) in
      let '(r, (g', c')) := accept_connection start_t (accepted_as fd <$> accept_script) accept_fcntl (b_g s, c) in
      let s := s <| b_l; l_g := g' |> <| b_l; l_conn := Some c' |> in
      (r, if daemon_sock c' =? -1 then s
          else s <| b_open ::= fun o => {[daemon_sock c']} ∪ (o ∖ {[daemon_accept_sock c]}) |>)
  end.

(** [guestfs___recv_from_daemon].  When the connection is lost, child_cleanup of
    src/proto.c shuts the backend down and frees the connection: the descriptors
    and the children change here, and the messages of the shutdown follow those
    of child_cleanup. *)
Definition recv_launch_message : dm (Z * Z) := fun s =>
  let '(o, l) := guestfs___recv_from_daemon (b_l s) in
  let s' := s <| b_l := l |> in
  match o with
  | Stop w => (Stop w, s')
  | Ret (r, size, _) =>
      match l_conn (b_l s), l_conn l with
      | Some c, None => (close_all (free_conn_socket c) ;;; shutdown_direct 0 ;;; ret (r, size)) s'
      | _, _ => (Ret (r, size), s')
      end
  end.

(** After the first message. *)
Definition launch_up (has_appliance_drive : bool) (r size : Z) : dm Z :=
  if (r =? -1) || negb (size =? GUESTFS_LAUNCH_FLAG)
  then on_h (modify guestfs___launch_failed_error) ;;; cleanup1 (-1) (-1) (-1)
  else
    timestamped "appliance is up" ;;;
    st <- gets (fun s => g_state (b_g s)) ;;
    if decide (st = READY) then
      send_progress 12 ;;;
      (if has_appliance_drive then on_h guestfs___add_dummy_appliance_drive else ret tt) ;;;
      ret 0
    else error "qemu launched and contacted daemon, but state != READY" ;;; cleanup1 (-1) (-1) (-1).

(** From [g->state = LAUNCHING] on. *)
Definition launch_wait (daemon_accept_sock console_sock : Z) (has_appliance_drive : bool) : dm Z :=
  on_h (modify (fun g => g <| g_state := LAUNCHING |>)) ;;;
  made <- (fun s =>
    let '(c, g) := guestfs___new_conn_socket_listening (b_g s) daemon_accept_sock console_sock conn_fcntl conn_answers in
    (Ret (is_set c), s <| b_l; l_g := g |> <| b_l; l_conn := c |>)) ;;
  if negb made then cleanup1 (-1) daemon_accept_sock console_sock
  else
    r <- accept_daemon ;;
    if r =? -1 then cleanup1 (-1) (-1) (-1)
    else if r =? 0 then on_h (modify guestfs___launch_failed_error) ;;; cleanup1 (-1) (-1) (-1)
    else
      let* (r, size) := recv_launch_message in
      launch_up has_appliance_drive r size.

(** The two forks; [sv] are the ends of the socket pair, unless in direct mode. *)
Definition launch_fork (cmdline : list string) (daemon_accept_sock : Z) (sv : option (Z * Z)) (has_appliance_drive : bool) :
    dm Z :=
  r <- sys_fork ;;
  match r with
  | inl e =>
      perrorf e "fork" ;;;
      match sv with Some (sv0, sv1) => sys_close sv0 ;;; sys_close sv1 | None => ret tt end ;;;
      cleanup0 daemon_accept_sock (-1)
  | inr pid =>
      did (Started (Z.pos pid) cmdline) ;;;
      set_data (fun d => d <| bd_pid := Z.pos pid |> <| bd_recoverypid := -1 |>) ;;;
      rp <- cfg recovery_proc ;;
      (if rp : bool then
         r <- sys_fork ;;
         match r with
         | inl _ => set_data (fun d => d <| bd_recoverypid := -1 |>)
         | inr pid => did (StartedRecovery (Z.pos pid)) ;;; set_data (fun d => d <| bd_recoverypid := Z.pos pid |>)
         end
       else ret tt) ;;;
      match sv with Some (_, sv1) => sys_close sv1 | None => ret tt end ;;;
      launch_wait daemon_accept_sock match sv with Some (sv0, _) => sv0 | None => -1 end has_appliance_drive
  end.

(** From the sockets on. *)
Definition launch_sockets (has_kvm force_tcg : bool) (files : appliance_files) : dm Z :=
  tmpdir <- gets (fun s => default "(null)" (tmpdir (g_dirs (b_g s)))) ;;
  let guestfsd_sock := snprintf 256 (tmpdir +:+ "/guestfsd.sock") in
  did (Unlinked guestfsd_sock) ;;;
  fd <- sys_socket ;;
  match fd with
  | inl e => perrorf e "socket" ;;; cleanup0 (-1) (-1)
  | inr daemon_accept_sock =>
      a <- sys_call ;;
      match a with
      | Some e => perrorf e "bind" ;;; cleanup0 daemon_accept_sock (-1)
      | None =>
          a <- sys_call ;;
          match a with
          | Some e => perrorf e "listen" ;;; cleanup0 daemon_accept_sock (-1)
          | None =>
              direct <- cfg direct_mode ;;
              p <- (if direct : bool then ret (inr None)
                    else p <- sys_socketpair ;; ret match p with inl e => inl e | inr sv => inr (Some sv) end) ;;
              match p with
              | inl e => perrorf e "socketpair" ;;; cleanup0 daemon_accept_sock (-1)
              | inr sv =>
                  timestamped "finished testing qemu features" ;;;
                  cmdline <- qemu_cmdline has_kvm force_tcg files guestfsd_sock ;;
                  match cmdline with
                  | None => cleanup0 daemon_accept_sock (-1)
                  | Some cmdline => launch_fork cmdline daemon_accept_sock sv (is_set (ap_appliance files))
                  end
              end
          end
      end
  end.

Definition launch_direct : dm Z :=
  drives <- gets (fun s => g_drives (b_g s)) ;;
  match drives with
  | [] => error "you must call guestfs_add_drive before guestfs_launch" ;;; ret (-1)
  | _ =>
      has_kvm <- is_openable "/dev/kvm" ;;
      force_tcg <- on_h (guestfs___get_backend_setting_bool "force_tcg") ;;
      if force_tcg =? -1 then ret (-1) else
      let force_tcg := is_true force_tcg in
      (if negb has_kvm && negb force_tcg then debian_kvm_warning else ret tt) ;;;
      send_progress 0 ;;;
      files <- guestfs___build_appliance strsignal access_ok lstat geteuid SUPERMIN ;;
      match files with
      | None => ret (-1)
      | Some files =>
          send_progress 3 ;;;
          timestamped "begin testing qemu features" ;;;
          r <- qemu_supports None ;;
          if r =? -1 then cleanup0 (-1) (-1) else launch_sockets has_kvm force_tcg files
      end
  end.

End direct.
