(* ===== verification/DirectSafe.v ===== *)
(** What starting qemu does to the process and the handle, whatever the system
    answers: which descriptors and children every path of [launch_direct]
    leaves, and that it returns.

    Triples [calmly] say of the parts before the fork that they leave the
    process as it was. *)

From S2P Require Import Procs Regex Inspect Prelude Xdr Protocol Handle Events Conn LibProto LibProtoSpec LibProtoSafe Utils Config Lifecycle Drives Command Create Backend Appliance Direct.
From Stdlib Require Import Ascii.
Import StringsBuf.
Local Open Scope Z_scope.

(** * Running a program leaves the handle alone

    Messages apart, when the callback does. *)
Section quiet_commands.
Context {D : Type}.
Implicit Types (r : run D).

Definition quiet_cb (cb : cmd_stdout_callback D) : Prop := forall g d b, quiet g (fst (cb g d b)).
Definition cb_ok r : Prop := forall cb, c_stdout_callback (r_cmd r) = Some cb -> quiet_cb cb.
Definition keepq r r' : Prop :=
  quiet (r_g r) (r_g r') /\ c_stdout_callback (r_cmd r') = c_stdout_callback (r_cmd r).
Definition kq {A} (m : cm D A) : Prop := forall r, cb_ok r -> keepq r (snd (m r)).

Lemma kq_ret {A} (a : A) : kq (ret a).
Proof. by intros r Hr. Qed.
Lemma kq_halt {A} w : kq (halt w : cm D A).
Proof. by intros r Hr. Qed.
Lemma kq_bind {A B} (m : cm D A) (f : A -> cm D B) : kq m -> (forall a, kq (f a)) -> kq (bind m f).
Proof.
  intros Hm Hf r Hr. specialize (Hm r Hr). unfold bind. destruct (m r) as [[a|w] r1]; [|done]. cbn in Hm.
  destruct Hm as [Q1 C1]. destruct (Hf a r1) as [Q2 C2]; [intros cb; rewrite C1; apply Hr|].
  split; [by transitivity (r_g r1)|congruence].
Qed.
Lemma kq_gets {A} (f : run D -> A) : kq (gets f).
Proof. by intros r Hr. Qed.
Lemma kq_modify (f : run D -> run D) : (forall r, keepq r (f r)) -> kq (modify f).
Proof. intros H r _. apply H. Qed.
Lemma kq_if {A} (b : bool) (m m' : cm D A) : kq m -> kq m' -> kq (if b then m else m').
Proof. by destruct b. Qed.

Lemma kq_set_cmd f : (forall cmd, c_stdout_callback (f cmd) = c_stdout_callback cmd) -> kq (set_cmd f).
Proof. intros H. apply kq_modify. intros r. split; [done|apply H]. Qed.
Lemma kq_perrorf e msg : kq (Command.perrorf e msg).
Proof. apply kq_modify. intros r. split; [apply quiet_perrorf|done]. Qed.
Lemma kq_close fd : kq (Command.sys_close (D := D) fd).
Proof. intros r _. unfold Command.sys_close. by destruct (answer _). Qed.
Lemma kq_pipe2 : kq (sys_pipe2 (D := D)).
Proof. intros r _. unfold sys_pipe2. by destruct (answer _) as [[e|] q]. Qed.
Lemma kq_waitpid pid : kq (Command.sys_waitpid (D := D) pid).
Proof. intros r _. unfold Command.sys_waitpid. by destruct (answer _) as [[e|] q]. Qed.
Lemma kq_fork : kq (Command.sys_fork (D := D)).
Proof. intros r _. unfold Command.sys_fork. by destruct (ck_fork _). Qed.
Lemma kq_callback buf : kq (call_stdout_callback (D := D) buf).
Proof.
  intros r Hr. unfold call_stdout_callback. destruct (c_stdout_callback (r_cmd r)) as [cb|] eqn:E; [|done].
  specialize (Hr cb E (r_g r) (c_stdout_data (r_cmd r)) buf). destruct (cb _ _ _) as [g d]. by split.
Qed.

Create HintDb kq.
#[local] Hint Resolve kq_ret kq_halt kq_gets kq_perrorf kq_close kq_pipe2 kq_waitpid kq_fork kq_callback : kq.
Ltac kq_step :=
  first [ solve [auto with kq]
        | apply kq_bind; [|intro]
        | apply kq_if
        | apply kq_set_cmd; done
        | match goal with |- kq (match ?x with _ => _ end) => destruct x end ].
Ltac kq_auto := repeat kq_step.

Lemma kq_process_line closed : forall fuel, kq (process_line_loop (D := D) fuel closed).
Proof.
  induction fuel as [|fuel IH]; intros r Hr; cbn [process_line_loop].
  - by destruct (ob_buffer _).
  - destruct (ob_buffer _) as [|b buffer]; [done|].
    destruct (Command.strchr nl _) as [n|]; [|destruct closed; [|done]];
      (match goal with |- keepq ?r (snd (?m ?r)) => assert (kq m) as Hm; [kq_auto; apply IH|exact (Hm r Hr)] end).
Qed.
Lemma kq_line_buffer closed : kq (process_line_buffer (D := D) closed).
Proof. intros r Hr. by apply kq_process_line. Qed.
Lemma kq_add_data buf : kq (add_data (D := D) buf).
Proof.
  intros r Hr. unfold add_data. destruct (ob_mode _); [done| | |].
  - refine (kq_bind _ _ (kq_set_cmd _ _) (fun _ => kq_line_buffer false) r Hr). done.
  - by apply kq_callback.
  - by apply kq_set_cmd.
Qed.
Lemma kq_close_data : kq (close_data (D := D)).
Proof.
  intros r Hr. unfold close_data. destruct (ob_mode _); try done.
  - by apply kq_line_buffer.
  - by apply kq_callback.
Qed.
Lemma kq_select : kq (sys_select (D := D)).
Proof. intros r _. unfold sys_select. by destruct (ck_select _). Qed.
Lemma kq_read_err : kq (read_errorfd (D := D)).
Proof. intros r _. unfold read_errorfd. by destruct (pipe_read _ _). Qed.
Lemma kq_read_out : kq (read_outfd (D := D)).
Proof. intros r _. unfold read_outfd. by destruct (pipe_read _ _). Qed.
#[local] Hint Resolve kq_add_data kq_close_data kq_select kq_read_err kq_read_out : kq.

Lemma kq_loop : forall fuel nr, kq (loop_from (D := D) fuel nr).
Proof.
  induction fuel as [|fuel IH]; intros [|nr]; cbn [loop_from]; [apply kq_ret|apply kq_halt|apply kq_ret|].
  unfold loop_errorfd, loop_outfd. kq_auto; try apply IH.
  apply kq_modify. intros r. split; [apply quiet_call_callbacks_message|done].
Qed.
#[local] Hint Resolve kq_loop : kq.

Lemma quiet_debug_args args : forall g, quiet g (debug_args args g).
Proof.
  assert (forall n l, (length l <= n)%nat -> forall g, quiet g (debug_args l g)) as H; [|by apply (H (length args))].
  induction n as [|n IH]; intros [|a [|b l]] Hl g; cbn [length] in Hl; try done; try lia; [apply quiet_debug|].
  change (quiet g (if arg_starts_dash a && negb (arg_starts_dash b)
    then debug_args l (guestfs___debug g ("command: run: \ " +:+ arg_str a +:+ " " +:+ arg_str b))
    else debug_args (b :: l) (guestfs___debug g ("command: run: \ " +:+ arg_str a)))).
  destruct (_ && _); (etransitivity; [apply quiet_debug|apply IH; cbn; lia]).
Qed.
Lemma kq_cmd_run : kq (guestfs___cmd_run (D := D)).
Proof.
  unfold guestfs___cmd_run. apply kq_bind; [|intro].
  { intros r _. unfold zoom, finish_command, add_string. by destruct (c_line (r_cmd r)). }
  apply kq_bind; [apply kq_gets|intros v]. apply kq_bind; [|intro].
  { destruct v; [|apply kq_ret]. intros r _. unfold debug_command.
    destruct (c_line (r_cmd r)); [done| |]; (split; [cbn|done]); [|apply quiet_debug].
    etransitivity; [apply quiet_debug|apply quiet_debug_args]. }
  unfold run_command, open_pipe, run_error, close_if_open, parent_fds, wait_command. kq_auto.
  intros r Hr. by apply kq_loop.
Qed.
Lemma kq_cmd_close : kq (guestfs___cmd_close (D := D)).
Proof. unfold guestfs___cmd_close, close_if_open. kq_auto. Qed.
End quiet_commands.

(** * Calm computations *)

(** What is left alone by everything that comes before the fork. *)
Record calm (s s' : bstate) : Prop := {
  calm_g : quiet (b_g s) (b_g s');
  calm_conn : l_conn (b_l s') = l_conn (b_l s);
  calm_open : b_open s' = b_open s;
  calm_children : b_children s' = b_children s;
  calm_pid : bd_pid (b_data s') = bd_pid (b_data s);
  calm_recoverypid : bd_recoverypid (b_data s') = bd_recoverypid (b_data s);
  calm_forks : b_forks s' = b_forks s;
  calm_waits : b_waits s' = b_waits s
}.
#[export] Instance calm_preorder : PreOrder calm.
Proof.
  split; [intros s; by split|]. intros s1 s2 s3 [] []. split; try congruence. by transitivity (b_g s2).
Qed.

Lemma unused_pid_fresh hint children : Z.pos (unused_pid hint children) ∉ children.
Proof.
  unfold unused_pid. pose proof (lowest_free_ge children (size children) (Z.pos hint)) as Hge.
  rewrite Z2Pos.id by lia. intros Hin. pose proof (lowest_free_taken children _ _ Hin) as Ht.
  assert (size (list_to_set (C := gset Z) (Z.add (Z.pos hint) ∘ Z.of_nat <$> seq 0 (S (size children)))) <= size children)%nat as Hs.
  { apply subseteq_size. intros x Hx. apply elem_of_list_to_set, list_elem_of_fmap in Hx as (i & -> & Hi).
    apply elem_of_seq in Hi. apply Ht. cbn. lia. }
  rewrite size_list_to_set in Hs; [rewrite length_fmap, length_seq in Hs; lia|].
  apply NoDup_fmap_2; [|apply NoDup_seq]. intros i j. cbn. lia.
Qed.

Create HintDb calm.

Section calm.
(** Whether the programs that are run behave: they can be started and read from. *)
Context (sound : Prop).

Definition run_ok (k : cmd_kernel) : Prop :=
  (forall e, Some e ∉ ck_wait k) /\
  (sound -> (forall e, Some e ∉ ck_pipe k) /\ (exists pid, ck_fork k = inr pid) /\
            (forall e, SelFail e ∈ ck_select k -> retry e = true) /\ script_clean (ck_out k) = true).
Definition runs_ok (s : bstate) : Prop := Forall run_ok (b_runs s).

(** [P] and [Q] look at the backend's data.  A stop is only possible when
    something did not behave. *)
Definition calmly {A} (P : backend_direct_data -> Prop) (m : dm A) (Q : A -> backend_direct_data -> Prop) : Prop :=
  forall s, runs_ok s -> P (b_data s) ->
    match m s with
    | (Ret a, s') => runs_ok s' /\ calm s s' /\ Q a (b_data s')
    | (Stop _, _) => ~ sound
    end.

Section rules.
Context {A B : Type}.
Implicit Types (P : backend_direct_data -> Prop) (m : dm A) (Q : A -> backend_direct_data -> Prop).

Lemma calmly_ret P (a : A) Q : (forall d, P d -> Q a d) -> calmly P (ret a) Q.
Proof. intros H s Hr Hp. split_and!; [done|done|by apply H]. Qed.
Lemma calmly_bind P m Q (f : A -> dm B) R :
  calmly P m Q -> (forall a, calmly (Q a) (f a) R) -> calmly P (bind m f) R.
Proof.
  intros Hm Hf s Hr Hp. specialize (Hm s Hr Hp). unfold bind. destruct (m s) as [[a|w] s1]; [|done].
  destruct Hm as (Hr1 & Hc1 & Hq1). specialize (Hf a s1 Hr1 Hq1). destruct (f a s1) as [[b|w] s2]; [|done].
  destruct Hf as (Hr2 & Hc2 & Hq2). split_and!; [done|by transitivity s1|done].
Qed.
Lemma calmly_conseq P P' m Q Q' :
  calmly P' m Q' -> (forall d, P d -> P' d) -> (forall a d, Q' a d -> Q a d) -> calmly P m Q.
Proof.
  intros Hm HP HQ s Hr Hp. specialize (Hm s Hr (HP _ Hp)). destruct (m s) as [[a|w] s1]; [|done].
  destruct Hm as (? & ? & ?). auto.
Qed.
Lemma calmly_post P m Q Q' : calmly P m Q' -> (forall a d, Q' a d -> Q a d) -> calmly P m Q.
Proof. intros Hm H. by eapply calmly_conseq. Qed.
Lemma calmly_pre P P' m Q : calmly P' m Q -> (forall d, P d -> P' d) -> calmly P m Q.
Proof. intros Hm H. by eapply calmly_conseq. Qed.
Lemma calmly_gets P (f : bstate -> A) : calmly P (gets f) (fun _ => P).
Proof. intros s Hr Hp. by split_and!. Qed.
Lemma calmly_dat P (f : backend_direct_data -> A) : calmly P (dat f) (fun a d => P d /\ a = f d).
Proof. intros s Hr Hp. by split_and!. Qed.
Lemma calmly_if P m m' Q (b : bool) :
  (b = true -> calmly P m Q) -> (b = false -> calmly P m' Q) -> calmly P (if b then m else m') Q.
Proof. destruct b; auto. Qed.
Lemma calmly_halt P w Q : (sound -> forall d, P d -> False) -> calmly P (halt w) Q.
Proof. intros H s Hr Hp Hs. by apply (H Hs (b_data s)). Qed.
Lemma calmly_pure P m Q (phi : Prop) : (phi -> calmly P m Q) -> calmly (fun d => P d /\ phi) m Q.
Proof. intros H s Hr [Hp Hphi]. by apply H. Qed.
Lemma calmly_on_h P (m : hm A) (R : A -> Prop) :
  (forall g, exists a g', m g = (Ret a, g') /\ quiet g g' /\ R a) -> calmly P (on_h m) (fun a d => P d /\ R a).
Proof.
  intros H s Hr Hp. destruct (H (b_g s)) as (a & g' & E & Hq & Ha). unfold on_h, zoom. rewrite E.
  split_and!; [done|by split|done|done].
Qed.
End rules.

Lemma calmly_handle P f : (forall g, quiet g (f g)) -> calmly P (on_h (modify f)) (fun _ => P).
Proof.
  intros H. eapply calmly_post; [apply (calmly_on_h P _ (fun _ => True))|by intros ? ? []].
  intros g. exists tt, (f g). by split_and!.
Qed.
Lemma calmly_did P a : calmly P (did a) (fun _ => P).
Proof. intros s Hr Hp. split_and!; [done|by split|done]. Qed.
Lemma calmly_set_data P f Q : (forall d, bd_pid (f d) = bd_pid d) -> (forall d, bd_recoverypid (f d) = bd_recoverypid d) ->
  (forall d, P d -> Q (f d)) -> calmly P (set_data f) (fun _ => Q).
Proof. intros H1 H2 H s Hr Hp. split_and!; [done| |by apply H]. split; try done; [apply H1|apply H2]. Qed.

Lemma calmly_error P msg : calmly P (Backend.error msg) (fun _ => P).
Proof. apply calmly_handle. intros g. apply quiet_error. Qed.
Lemma calmly_perrorf P e msg : calmly P (Backend.perrorf e msg) (fun _ => P).
Proof. apply calmly_handle. intros g. apply quiet_perrorf. Qed.
Lemma calmly_not_supported P msg : calmly P (not_supported msg) (fun _ => P).
Proof. apply calmly_handle. intros g. apply quiet_error_errno. Qed.
Lemma calmly_debug P msg : calmly P (debug msg) (fun _ => P).
Proof. apply calmly_handle. intros g. apply quiet_debug. Qed.
Lemma calmly_warning P msg : calmly P (warning msg) (fun _ => P).
Proof. apply calmly_handle. intros g. apply quiet_call_callbacks_message. Qed.
Lemma calmly_progress P n : calmly P (send_progress n) (fun _ => P).
Proof. apply calmly_handle. intros g. apply quiet_launch_send_progress. Qed.
Lemma calmly_timestamped P msg : calmly P (timestamped msg) (fun _ => P).
Proof.
  apply (calmly_bind _ _ (fun _ => P)); [apply calmly_gets|intros v]. destruct v; [|by apply calmly_ret].
  apply calmly_handle. intros g. unfold guestfs___print_timestamped_message, gettimeofday.
  destruct (env_clock (g_env g)) as [|t [|t' ts]]; try apply quiet_debug.
  etransitivity; [|apply quiet_debug]. by split.
Qed.
Lemma calmly_failed P strsignal status cmd : calmly P (external_command_failed strsignal status cmd) (fun _ => P).
Proof. apply calmly_handle. intros g. apply quiet_error. Qed.

(** ** Programs *)

Lemma next_kernel_ok s : runs_ok s -> run_ok (next_kernel s) /\ fresh_pid (next_kernel s) /\ runs_ok (s <| b_runs ::= tail |>).
Proof.
  intros Hr. assert (run_ok (match b_runs s with [] => plain_kernel | k :: _ => k end)) as Hk.
  { unfold runs_ok in Hr. destruct (b_runs s) as [|k q]; [|by inversion Hr]. split; [set_solver|].
    intros _. split_and!; [set_solver|by eexists|set_solver|done]. }
  split_and!.
  - destruct Hk as [Hw Hk]. split; [exact Hw|]. intros Hs. destruct (Hk Hs) as (H1 & (pid & H2) & H3 & H4).
    split_and!; [exact H1| |exact H3|exact H4]. cbn. rewrite H2. by eexists.
  - intros pid. cbn. destruct (ck_fork _); [done|]. intros [= <-]. apply unused_pid_fresh.
  - unfold runs_ok in *. cbn. destruct (b_runs s); [done|]. by inversion Hr.
Qed.

Lemma run_program_calm {D} (d : D) (m : @bm D unit) cmd P :
  m (guestfs___new_command d) = (Ret tt, cmd) -> ready cmd ->
  (forall cb, c_stdout_callback cmd = Some cb -> quiet_cb cb) ->
  calmly P (run_program d m) (fun p bd => P bd /\ (sound -> forall cb f, c_stdout_callback cmd = Some cb -> acts_as cb f ->
    ob_mode (c_outbuf cmd) = BufWhole -> exists data, snd p = f (c_stdout_data cmd) data)).
Proof.
  intros Em Hready Hcb s Hr Hp. destruct (next_kernel_ok s Hr) as (Hk & Hf & Hr').
  set (r0 := mk_run (b_g s) (guestfs___new_command d) (next_kernel s)).
  set (r1 := mk_run (b_g s) cmd (next_kernel s)).
  assert (Backend.build m r0 = (Ret tt, r1)) as E0 by (unfold Backend.build, zoom; cbn [r_cmd r0]; by rewrite Em).
  destruct (cmd_run_run r1 Hready Hf) as (x & r2 & E2 & Hh & Hpid & Hw & Hd).
  destruct (kq_cmd_run r1 Hcb) as [Q2 C2]. rewrite E2 in Q2, C2. cbn in Q2, C2.
  destruct (cmd_close_run _ _ r2 Hh Hpid) as (r3 & E3 & Ho & Hs3 & Hc).
  destruct (kq_cmd_close r2) as [Q3 _]; [intros cb; rewrite C2; apply Hcb|]. rewrite E3 in Q3. cbn in Q3.
  unfold run_program. fold r0. rewrite (bind_Ret _ _ _ _ _ E0), (bind_Ret _ _ _ _ _ E2), (bind_Ret _ _ _ _ _ E3), bind_gets.
  unfold ret. split_and!; [exact Hr'| |exact Hp|].
  - split; try done; cbn; [by transitivity (r_g r2)|].
    rewrite Hc; [done|]. intros e He. destruct Hk as [Hk _]. by apply (Hk e), Hw.
  - intros Hs cb f Hcb0 Ha Hm. destruct Hk as [Hwt Hk]. destruct (Hk Hs) as (H1 & (pid & H2) & H3 & H4).
    assert (mode_of r1 = BufWhole) as Em1 by exact Hm.
    destruct (Hd cb f) as (_ & cs & Ed & Hdel); [done|done|unfold readable; by rewrite Em1|by rewrite Em1| |].
    { split_and!; [|intros (e & He & Hre); by rewrite (H3 e He) in Hre|exact H4|exact Hwt].
      intros [(e & He)|(e & He)]; [by apply (H1 e)|]. cbn in He, H2. by rewrite H2 in He. }
    rewrite Em1 in Hdel. cbn in Hdel. subst cs. injection Hs3 as _ _ Es. cbn [snd].
    rewrite Es. cbn in Ed. by eexists.
Qed.

(** ** Triples without conditions on the data *)

Definition calms {A} (m : dm A) : Prop := calmly (fun _ => True) m (fun _ _ => True).

Lemma calms_of {A} (m : dm A) P Q : calmly P m Q -> (forall d, P d) -> calms m.
Proof. intros H HP. eapply calmly_conseq; eauto. Qed.
Lemma calms_ret {A} (a : A) : calms (ret a).
Proof. by apply calmly_ret. Qed.
Lemma calms_bind {A B} (m : dm A) (f : A -> dm B) : calms m -> (forall a, calms (f a)) -> calms (bind m f).
Proof. intros Hm Hf. by eapply calmly_bind. Qed.
Lemma calms_gets {A} (f : bstate -> A) : calms (gets f).
Proof. apply (calms_of _ (fun _ => True) (fun _ _ => True)); [apply calmly_gets|done]. Qed.
Lemma calms_if {A} (b : bool) (m m' : dm A) : calms m -> calms m' -> calms (if b then m else m').
Proof. by destruct b. Qed.
Lemma calms_halt {A} w : ~ sound -> calms (halt w : dm A).
Proof. intros H. by apply calmly_halt. Qed.
Lemma calms_set_data f : (forall d, bd_pid (f d) = bd_pid d) -> (forall d, bd_recoverypid (f d) = bd_recoverypid d) ->
  calms (set_data f).
Proof. intros H1 H2. by apply calmly_set_data. Qed.

Lemma calms_error msg : calms (Backend.error msg).
Proof. apply calmly_error. Qed.
Lemma calms_perrorf e msg : calms (Backend.perrorf e msg).
Proof. apply calmly_perrorf. Qed.
Lemma calms_debug msg : calms (debug msg).
Proof. apply calmly_debug. Qed.
Lemma calms_warning msg : calms (warning msg).
Proof. apply calmly_warning. Qed.
Lemma calms_not_supported msg : calms (not_supported msg).
Proof. apply calmly_not_supported. Qed.
Lemma calms_progress n : calms (send_progress n).
Proof. apply calmly_progress. Qed.
Lemma calms_timestamped msg : calms (timestamped msg).
Proof. apply calmly_timestamped. Qed.
Lemma calms_failed strsignal status cmd : calms (external_command_failed strsignal status cmd).
Proof. apply calmly_failed. Qed.
Lemma calms_did a : calms (did a).
Proof. apply calmly_did. Qed.
Lemma calms_dat {A} (f : backend_direct_data -> A) : calms (dat f).
Proof. apply calms_gets. Qed.
Lemma calms_cfg {A} (f : config -> A) : calms (cfg f).
Proof. apply calms_gets. Qed.
End calm.
#[export] Hint Resolve calms_ret calms_gets calms_error calms_perrorf calms_debug calms_warning calms_not_supported
  calms_progress calms_timestamped calms_failed calms_did calms_dat calms_cfg : calm.

Ltac calm_step :=
  first [ solve [auto with calm]
        | apply calms_bind; [|intro]
        | apply calms_if
        | apply calms_set_data; [by intros []|by intros []]
        | match goal with |- calms _ (match ?x with _ => _ end) => destruct x end ].
Ltac calm_auto := repeat calm_step.

(** ** Commands that are built from arguments *)

Lemma add_args_run {D} : forall (l : list string) (cmd : command D), l <> [] ->
  (c_line cmd = COMMAND_STYLE_NOT_SELECTED \/ exists sb, c_line cmd = COMMAND_STYLE_EXECV sb) ->
  exists sb, add_args l cmd = (Ret tt, cmd <| c_line := COMMAND_STYLE_EXECV sb |>).
Proof.
  induction l as [|a l IH]; intros cmd Hne Hl; [done|]. cbn [add_args].
  assert (exists sb, guestfs___cmd_add_arg (Some a) cmd = (Ret tt, cmd <| c_line := COMMAND_STYLE_EXECV sb |>)) as (sb & E).
  { cbn. unfold add_arg_no_strdup. destruct Hl as [->|(sb & ->)]; by eexists. }
  rewrite (bind_Ret _ _ _ _ _ E). destruct l as [|b l]; [by eexists|].
  destruct (IH (cmd <| c_line := COMMAND_STYLE_EXECV sb |>)) as (sb' & ->); [done|right; by eexists|].
  exists sb'. by destruct cmd.
Qed.
Lemma new_command_args {D} (d : D) a l :
  exists sb, add_args (a :: l) (guestfs___new_command d) = (Ret tt, (guestfs___new_command d) <| c_line := COMMAND_STYLE_EXECV sb |>).
Proof. apply add_args_run; [done|by left]. Qed.

(** A command whose whole output goes to a callback. *)
Definition whole_output {D} (cb : cmd_stdout_callback D) (d : D) (cmd : command D) : command D :=
  cmd <| c_stdout_callback := Some cb |> <| c_stdout_data := d |> <| c_outbuf; ob_mode := BufWhole |>.
Lemma whole_output_run {D} (cb : cmd_stdout_callback D) d cmd :
  guestfs___cmd_set_stdout_callback cb d CMD_STDOUT_FLAG_WHOLE_BUFFER cmd = (Ret tt, whole_output cb d cmd).
Proof. done. Qed.
Lemma whole_output_ready {D} (cb : cmd_stdout_callback D) d cmd : ready cmd -> ready (whole_output cb d cmd).
Proof. intros []. destruct cmd. by split. Qed.

Lemma calms_run_args sound {D} (d : D) a l : calms sound (run_program d (add_args (a :: l))).
Proof.
  destruct (new_command_args d a l) as (sb & E).
  eapply calms_of; [eapply (run_program_calm sound d _ _ (fun _ => True)); [exact E|by split|done]|done].
Qed.

(** * The parts of the launch *)

Lemma quiet_core g g' : core g = core g' -> quiet g g'.
Proof.
  intros E. split; [apply (f_equal g_state) in E|apply (f_equal g_cfg) in E|apply (f_equal g_events) in E|apply (f_equal g_drives) in E|
    apply (f_equal g_user_cancel) in E|apply (f_equal g_msg_next_serial) in E|apply (f_equal g_backend_ops) in E]; by symmetry.
Qed.

Lemma setting_bool_run name g :
  exists r g', guestfs___get_backend_setting_bool name g = (Ret r, g') /\ quiet g g' /\ r <> -1.
Proof.
  destruct (get_backend_setting_silent name (guestfs_push_error_handler g None 0) eq_refl) as (os & E & _).
  unfold guestfs___get_backend_setting_bool. rewrite bind_modify. mstep E. rewrite bind_modify, bind_gets.
  cbn [g_cfg guestfs_push_error_handler guestfs_set_error_handler upd upd_g_errs].
  destruct (l ← backend_settings (g_cfg g); find_setting name l) as [v|].
  - exists (if STREQ v "1" then 1 else 0). eexists. split; [by destruct (STREQ v "1")|]. split; [by split|by destruct (STREQ v "1")].
  - exists 0. eexists. split; [reflexivity|]. split; [by split|done].
Qed.

Section parts.
Context (sound : Prop) (strsignal : Z -> string) (access_ok : string -> bool) (getenv : string -> option string)
        (lstat : string -> Z + lstat_info) (geteuid : Z) (SUPERMIN : string)
        (sys_open : string -> option Z) (stat_kvm : option kvm_stat) (getegid : Z) (getgroups : Z + list Z)
        (realpath : string -> Z + string) (xmlSaveUri : xmlURI -> option string)
        (QEMU_OPTIONS : option string).
#[local] Notation calms := (calms sound).
#[local] Notation calmly := (calmly sound).

(** ** src/lpj.c and the kernel's command line *)

Lemma calms_lpj_common func (cmd : @bm (option string) unit) cmd0 :
  cmd (guestfs___new_command None) = (Ret tt, cmd0) -> ready cmd0 -> calms (read_lpj_common strsignal func cmd).
Proof.
  intros E Hr. unfold read_lpj_common. apply calms_bind; [|intros [r buf]; calm_auto].
  eapply calms_of; [eapply (run_program_calm sound None _ _ (fun _ => True))|done].
  - rewrite (bind_Ret _ _ _ _ _ E). apply whole_output_run.
  - by apply whole_output_ready.
  - by intros cb [= <-] g [d|] b.
Qed.
Lemma calms_get_lpj : calms (guestfs___get_lpj strsignal access_ok).
Proof.
  assert (calms (read_lpj_from_dmesg strsignal)) as H1 by (by eapply calms_lpj_common).
  assert (calms (read_lpj_from_files strsignal access_ok)) as H2.
  { unfold read_lpj_from_files. destruct (List.filter _ _) as [|f l]; [calm_auto|].
    destruct (new_command_args (@None string) "grep" ([GREP_FLAGS; GREP_REGEX] ++ f :: l)) as (sb & E).
    eapply calms_lpj_common; [exact E|by split]. }
  assert (forall r, calms (modify (fun s => s <| b_lpj := r |>))) as H3.
  { intros r s Hr _. split_and!; [done|by split|done]. }
  unfold guestfs___get_lpj. calm_auto; done.
Qed.
Lemma calms_appliance_line dev flags : calms (guestfs___appliance_command_line strsignal access_ok getenv dev flags).
Proof. pose proof calms_get_lpj. unfold guestfs___appliance_command_line. calm_auto. Qed.

(** ** The appliance *)

Lemma calms_run_supermin l a p : calms (run_supermin_build strsignal SUPERMIN l a p).
Proof. unfold run_supermin_build. pose proof (fun l => calms_run_args sound tt SUPERMIN l). calm_auto. apply H. Qed.

(** A built appliance has a kernel and an initrd, if the cache directory can be looked at. *)
Lemma build_appliance_calm : (sound -> forall f e, lstat f <> inl e) ->
  calmly (fun _ => True) (guestfs___build_appliance strsignal access_ok lstat geteuid SUPERMIN)
    (fun o _ => match o with Some files => sound -> is_Some (ap_kernel files) /\ is_Some (ap_initrd files) | None => True end).
Proof.
  intros Hl. set (good := fun (x : Z * appliance_files) (_ : backend_direct_data) =>
    fst x <> -1 -> sound -> is_Some (ap_kernel (snd x)) /\ is_Some (ap_initrd (snd x))).
  assert (forall A (m : dm A) (f : A -> dm (Z * appliance_files)), calms m ->
    (forall a, calmly (fun _ => True) (f a) good) -> calmly (fun _ => True) (bind m f) good) as Hb.
  { intros A m f Hm Hf. by eapply calmly_bind. }
  assert (forall f, calmly (fun _ => True) (ret (-1, f)) good) as Hbad by (intros f; by apply calmly_ret).
  assert (calmly (fun _ => True) (build_appliance strsignal access_ok lstat geteuid SUPERMIN) good) as H.
  { unfold build_appliance. apply Hb; [auto with calm|intros path].
    destruct (find_path _ path) as [r p]. destruct (r =? -1); [done|]. destruct (r =? 1).
    { unfold build_supermin_appliance. apply Hb; [|intros tmp].
      { eapply calms_of; [apply (calmly_on_h sound (fun _ => True) _ (fun _ => True))|done]. intros g.
        unfold guestfs_get_cachedir.
        destruct (api_spec "get_cachedir" "" (gets (fun g => Some (guestfs__get_cachedir g))) g) as (o1 & o2 & ->).
        eexists _, _. split; [reflexivity|]. split; [by split|done]. }
      do 2 (apply Hb; [auto with calm|intros _]). destruct (lstat _) as [e|st] eqn:El.
      { apply calmly_ret. intros d _ _ Hs. by apply Hl in El. }
      destruct (cachedir_error _ _ _); [apply Hb; [auto with calm|done]|].
      do 3 (apply Hb; [auto with calm|intros _]). apply Hb; [apply calms_run_supermin|intros r']. destruct (r' =? -1); [done|].
      do 3 (apply Hb; [auto with calm|intros _]). apply Hb; [auto with calm|intros b].
      apply Hb; [calm_auto|intros _]. apply calmly_ret. by split; eexists. }
    destruct (find_path _ path) as [r2 p2]. destruct (r2 =? -1); [done|].
    destruct (r2 =? 1); [apply calmly_ret; by split; eexists|].
    destruct (find_path _ path) as [r3 p3]. destruct (r3 =? -1); [done|].
    destruct (r3 =? 1); [apply calmly_ret; by split; eexists|]. apply Hb; [auto with calm|done]. }
  unfold guestfs___build_appliance. eapply calmly_bind; [exact H|]. intros [r files]. cbn beta iota.
  destruct (Z.eqb_spec r (-1)); apply calmly_ret; [done|]. intros d Hg Hs. by apply Hg.
Qed.

(** ** The features of qemu *)

Definition helped (d : backend_direct_data) : Prop := sound -> is_Some (bd_qemu_help d).

Lemma qemu_output_calm P args setup :
  (forall cmd, ready cmd -> exists cmd', setup cmd = (Ret tt, cmd') /\ ready cmd') ->
  calmly P (qemu_output args setup) (fun x d => P d /\ (sound -> is_Some (snd x))).
Proof.
  intros Hset. unfold qemu_output. eapply calmly_bind; [apply calmly_gets|]. intros hv.
  destruct (new_command_args (@None string) hv (["-display"; "none"] ++ args)) as (sb & E).
  destruct (Hset ((guestfs___new_command None) <| c_line := COMMAND_STYLE_EXECV sb |>)) as (cmd & Es & Hr); [by split|].
  eapply calmly_post; [eapply (run_program_calm sound None _ (whole_output read_all None cmd) P)|].
  - etransitivity; [exact (bind_Ret _ _ _ _ _ E)|]. etransitivity; [exact (bind_Ret _ _ _ _ _ Es)|]. apply whole_output_run.
  - by apply whole_output_ready.
  - by intros cb [= <-] g d b.
  - intros [x out] d [Hp Hd]. split; [exact Hp|]. intros Hs.
    destruct (Hd Hs read_all (fun _ b => Some (strndup b))) as (data & Eo); [done|done|done|]. cbn in *. rewrite Eo. by eexists.
Qed.
Lemma qemu_output_plain P args : calmly P (qemu_output args (ret tt)) (fun x d => P d /\ (sound -> is_Some (snd x))).
Proof. apply qemu_output_calm. intros cmd H. by exists cmd. Qed.

Lemma calmly_set_features P Q f :
  (forall d, P d -> Q (f d)) -> (forall d, bd_pid (f d) = bd_pid d) -> (forall d, bd_recoverypid (f d) = bd_recoverypid d) ->
  calmly P (set_data f) (fun _ => Q).
Proof. intros. by apply calmly_set_data. Qed.

Lemma parse_version_calm : calmly helped parse_qemu_version (fun _ => helped).
Proof.
  assert (forall str, calmly helped (parse_unsigned_int str) (fun _ => helped)) as Hi.
  { intros str. unfold parse_unsigned_int. destruct (xstrtol true str); [by apply calmly_ret|].
    eapply calmly_bind; [apply calmly_error|]. intros ?. by apply calmly_ret. }
  assert (calmly helped parse_failed (fun _ => helped)) as Hf.
  { unfold parse_failed. eapply calmly_bind; [apply calmly_gets|]. intros v. apply calmly_debug. }
  unfold parse_qemu_version. eapply calmly_bind; [by apply calmly_set_features with (Q := helped)|]. intros ?.
  eapply calmly_bind; [apply calmly_gets|]. intros [v|]; [|by apply calmly_ret].
  destruct (guestfs___match2 v re_major_minor) as [[ma mi]|]; [|done].
  eapply calmly_bind; [apply Hi|]. intros x1. destruct (x1 =? -1); [done|].
  eapply calmly_bind; [apply Hi|]. intros x2. destruct (x2 =? -1); [done|].
  eapply calmly_bind; [by apply calmly_set_features with (Q := helped)|]. intros ?. apply calmly_debug.
Qed.

Lemma test_failed_calm P r : calmly P (test_failed strsignal r) (fun x d => P d /\ x = -1).
Proof.
  unfold test_failed. destruct (r =? -1); [by apply calmly_ret|]. eapply calmly_bind; [apply calmly_gets|]. intros h.
  eapply calmly_bind; [apply calmly_failed|]. intros ?. by apply calmly_ret.
Qed.

Lemma test_qemu_calm : calmly (fun _ => True) (test_qemu strsignal)
  (fun r d => helped d /\ (r <> -1 -> sound -> is_Some (bd_qemu_devices d))).
Proof.
  unfold test_qemu. eapply calmly_bind; [by apply calmly_set_features with (Q := fun _ => True)|]. intros ?.
  assert (forall r, calmly helped (test_failed strsignal r)
    (fun r d => helped d /\ (r <> -1 -> sound -> is_Some (bd_qemu_devices d)))) as Hf.
  { intros r. eapply calmly_post; [apply test_failed_calm|]. intros x d [Hh ->]. by split. }
  eapply calmly_bind; [apply qemu_output_plain|]. intros [r out]. cbn beta iota.
  eapply calmly_bind; [apply calmly_set_features with (Q := helped); [|done|done]|].
  { intros d [_ Ho] Hs. by apply Ho. }
  intros ?. destruct (_ || _); [apply Hf|].
  eapply calmly_bind; [apply qemu_output_plain|]. intros [r2 out2]. cbn beta iota.
  eapply calmly_bind; [apply calmly_set_features with (Q := helped); [|done|done]|].
  { intros d [Hh _]. exact Hh. }
  intros ?. destruct (_ || _); [apply Hf|]. eapply calmly_bind; [apply parse_version_calm|]. intros ?.
  eapply calmly_bind; [apply qemu_output_calm|].
  { intros cmd []. destruct cmd. eexists. split; [reflexivity|]. by split. }
  intros [r3 out3]. cbn beta iota.
  eapply calmly_bind; [apply calmly_set_features with (Q := fun d => helped d /\ (sound -> is_Some (bd_qemu_devices d))); [|done|done]|].
  { intros d [Hh Ho]. split; [exact Hh|exact Ho]. }
  intros ?. destruct (_ || _).
  - eapply calmly_pre; [apply Hf|]. by intros d [].
  - apply calmly_ret. by intros d [Hh Hd].
Qed.

(** [if (!data->field) test_qemu ...] *)
Lemma tested_calm (field : backend_direct_data -> option string) :
  (forall r d, helped d /\ (r <> -1 -> sound -> is_Some (bd_qemu_devices d)) -> r <> -1 -> sound -> is_Some (field d)) ->
  calmly (fun _ => True) (v <- dat field ;; match v with None => test_qemu strsignal | Some _ => ret 0 end)
    (fun r d => r <> -1 -> sound -> is_Some (field d)).
Proof.
  intros H. eapply calmly_bind; [apply calmly_dat|]. intros [v|].
  - apply calmly_ret. intros d [_ E] _ _. by exists v.
  - eapply calmly_conseq; [apply test_qemu_calm|done|]. intros r d. apply H.
Qed.
Lemma grep_calm P s pat : (forall d, P d -> sound -> is_Some s) -> calmly P (grep s pat) (fun _ _ => True).
Proof. intros H. destruct s as [s|]; [by apply calmly_ret|]. apply calmly_halt. intros Hs d Hp. by destruct (H d Hp Hs). Qed.

Lemma bind_assoc {S A B C} (m : M S A) (f : A -> M S B) (g : B -> M S C) s :
  bind (bind m f) g s = bind m (fun a => bind (f a) g) s.
Proof. unfold bind. by destruct (m s) as [[a|w] s1]. Qed.
Lemma calmly_assoc {A B C} P (m : dm A) (f : A -> dm B) (g : B -> dm C) Q :
  calmly P (bind (bind m f) g) Q -> calmly P (bind m (fun a => bind (f a) g)) Q.
Proof. intros H s Hr Hp. rewrite <- bind_assoc. by apply H. Qed.

Lemma calms_qemu_supports o : calms (qemu_supports strsignal o).
Proof.
  unfold qemu_supports. apply calmly_assoc. eapply calmly_bind; [apply tested_calm; by intros r d [Hh _] _|].
  intros r. destruct (Z.eqb_spec r (-1)) as [->|Hr]; [by apply calmly_ret|]. destruct o as [o|]; [|by apply calmly_ret].
  eapply calmly_bind; [apply calmly_dat|]. intros help. apply grep_calm. intros d [Hd ->]. by apply Hd.
Qed.
Lemma calms_qemu_supports_device n : calms (qemu_supports_device strsignal n).
Proof.
  unfold qemu_supports_device. apply calmly_assoc. eapply calmly_bind; [apply tested_calm; intros r d [_ Hd]; exact Hd|].
  intros r. destruct (Z.eqb_spec r (-1)) as [->|Hr]; [by apply calmly_ret|].
  eapply calmly_bind; [apply calmly_dat|]. intros devices. apply grep_calm. intros d [Hd ->]. by apply Hd.
Qed.
Lemma calms_test_qemu : calms (test_qemu strsignal).
Proof. eapply calms_of; [apply test_qemu_calm|done]. Qed.
Lemma calms_virtio_scsi : calms (qemu_supports_virtio_scsi strsignal).
Proof.
  pose proof calms_test_qemu. pose proof calms_qemu_supports_device.
  unfold qemu_supports_virtio_scsi. calm_auto; done.
Qed.

(** ** The command line *)

#[local] Notation param_of := (guestfs___drive_source_qemu_param realpath xmlSaveUri).
(** The source of the drive can be named on the command line. *)
Definition has_param (src : drive_source) : Prop := forall s, exists p, fst (param_of src s) = Ret (Some p).
Definition drive_launchable (drv : drive) : Prop := drv_overlay drv = None -> has_param (drv_src drv).

(** It either does nothing or reports the error of realpath. *)
Lemma param_of_run src s : exists o s', param_of src s = (o, s') /\
  (s' = s \/ exists e msg, s' = snd (Backend.perrorf e msg s)).
Proof.
  unfold guestfs___drive_source_qemu_param, make_uri, rbd_param.
  destruct (src_protocol src); try (destruct (realpath _); [eexists _, _; split; [reflexivity|right; by eexists _, _]|]);
    repeat match goal with
    | |- context [match ?x with _ => _ end _] => destruct x
    end; (eexists _, _; split; [reflexivity|by left]).
Qed.
Lemma param_of_calm src : (sound -> has_param src) -> calmly (fun _ => True) (param_of src) (fun o _ => sound -> is_Some o).
Proof.
  intros H s Hr _. destruct (param_of_run src s) as (o & s' & E & Hs'). rewrite E.
  assert (sound -> exists p, o = Ret (Some p)) as Ho by (intros Hs; destruct (H Hs s) as (p & Hp); rewrite E in Hp; by exists p).
  destruct o as [o|w]; [|intros Hs; by destruct (Ho Hs)].
  destruct (calmly_perrorf sound (fun _ => True) 0 "" s Hr I) as (_ & _ & _).
  split_and!.
  - by destruct Hs' as [->|(e & msg & ->)].
  - destruct Hs' as [->|(e & msg & ->)]; [done|]. destruct (calmly_perrorf sound (fun _ => True) e msg s Hr I) as (_ & Hc & _). exact Hc.
  - intros Hs. destruct (Ho Hs) as (p & [= ->]). by eexists.
Qed.

Lemma calms_discard drv : calms (drive_discard_mode drv).
Proof. unfold drive_discard_mode, guestfs___discard_possible, no_discard. calm_auto. Qed.
Lemma calms_drive_param i drv : (sound -> drive_launchable drv) -> calms (drive_param realpath xmlSaveUri i drv).
Proof.
  intros H. unfold drive_param. destruct (drv_overlay drv) eqn:Eo; [calm_auto|].
  apply calms_bind; [apply calms_discard|]. intros [mode|]; [|calm_auto].
  eapply calmly_bind; [apply param_of_calm; intros Hs; by apply H|]. intros [f|]; [by apply calmly_ret|].
  apply calmly_halt. intros Hs d Hd. by destruct (Hd Hs).
Qed.
Lemma calms_drives_args vs : forall drives i, (sound -> Forall drive_launchable (omap id drives)) ->
  calms (drives_args realpath xmlSaveUri vs i drives).
Proof.
  induction drives as [|[drv|] drives IH]; intros i H; cbn [drives_args]; [calm_auto| |by apply IH].
  apply calms_bind; [apply calms_drive_param; intros Hs; by destruct (Forall_cons_1 _ _ _ (H Hs))|].
  intros [param|]; [|calm_auto]. apply calms_bind; [apply IH; intros Hs; by destruct (Forall_cons_1 _ _ _ (H Hs))|].
  intros rest. calm_auto.
Qed.

Lemma calms_concat l : Forall calms l -> calms (concat_args l).
Proof.
  induction 1 as [|m l Hm Hl IH]; cbn [concat_args]; [calm_auto|].
  apply calms_bind; [done|]. intros [a|]; calm_auto.
Qed.
Lemma calms_file_arg o file : (sound -> is_Some file) -> calms (file_arg o file).
Proof. intros H. destruct file; [by apply calmly_ret|]. apply calms_halt. intros Hs. by destruct (H Hs). Qed.
Lemma calms_if_supports o yes no : calms (if_supports strsignal o yes no).
Proof. unfold if_supports, args. pose proof calms_qemu_supports. calm_auto. Qed.
Lemma calms_args l : calms (args l).
Proof. by apply calmly_ret. Qed.
Lemma calms_gdb : calms gdb_args.
Proof.
  unfold gdb_args, args. apply calms_bind; [|intro; calm_auto].
  eapply calms_of; [apply (calmly_on_h sound (fun _ => True) _ (fun _ => True))|done].
  intros g. destruct (setting_bool_run "gdb" g) as (r & g' & E & Hq & _). eauto.
Qed.

Lemma calms_machine kvm tcg files : (sound -> is_Some (ap_kernel files) /\ is_Some (ap_initrd files)) ->
  calms (machine_cmdline strsignal kvm tcg files).
Proof.
  intros H. unfold machine_cmdline. apply calms_bind; [auto with calm|intros c].
  pose proof calms_if_supports. pose proof calms_args. pose proof calms_gdb. pose proof calms_qemu_supports.
  apply calms_concat. rewrite !Forall_cons. split_and!; try done; try apply Forall_nil_2.
  - unfold machine_args. calm_auto; done.
  - apply calms_file_arg. intros Hs. by destruct (H Hs).
  - apply calms_file_arg. intros Hs. by destruct (H Hs).
Qed.

(** The configured options have no quotes. *)
Definition options_readable : Prop :=
  match QEMU_OPTIONS with
  | None => True
  | Some o => add_cmdline_shell_unquoted (String.length o) o <> inl tt
  end.
Lemma calms_channel kvm tcg sock dev : (sound -> options_readable) ->
  calms (channel_cmdline strsignal access_ok getenv QEMU_OPTIONS kvm tcg sock dev).
Proof.
  intros Hq. unfold channel_cmdline. apply calms_bind; [auto with calm|intros c].
  pose proof calms_qemu_supports_device. pose proof calms_args. pose proof calms_appliance_line.
  apply calms_concat. rewrite !Forall_cons. split_and!; try done; try apply Forall_nil_2.
  - calm_auto; done.
  - calm_auto; done.
  - unfold options_readable in Hq. destruct QEMU_OPTIONS as [o|]; [|done].
    destruct (add_cmdline_shell_unquoted _ _) as [[]|]; [|done]. apply calms_halt. intros Hs. by apply (Hq Hs).
Qed.

Lemma qemu_cmdline_calm kvm tcg files sock s : (sound -> options_readable) ->
  (sound -> is_Some (ap_kernel files) /\ is_Some (ap_initrd files)) ->
  runs_ok sound s -> (sound -> Forall drive_launchable (omap id (g_drives (b_g s)))) ->
  match qemu_cmdline strsignal access_ok getenv realpath xmlSaveUri QEMU_OPTIONS kvm tcg files sock s with
  | (Ret _, s') => runs_ok sound s' /\ calm s s'
  | (Stop _, _) => ~ sound
  end.
Proof.
  intros Hq Hf Hr Hd. unfold qemu_cmdline. rewrite bind_gets. set (drives := g_drives (b_g s)) in *.
  match goal with |- context [concat_args ?l s] => assert (calms (concat_args l)) as H end.
  { apply calms_concat. constructor; [by apply calms_machine|]. constructor; [|constructor].
    apply calms_bind; [apply calms_virtio_scsi|intros vs]. apply calms_concat.
    constructor; [by apply calmly_ret|]. constructor; [by apply calms_drives_args|].
    constructor; [by apply calmly_ret|]. constructor; [by apply calms_channel|constructor]. }
  specialize (H s Hr I). destruct (concat_args _ s) as [[a|w] s']; [|done]. by destruct H as (? & ? & _).
Qed.

Lemma calms_kvm_warning : calms (debian_kvm_warning geteuid stat_kvm getegid getgroups).
Proof.
  unfold debian_kvm_warning. calm_auto. apply calmly_handle. intros g. apply quiet_call_callbacks_message.
Qed.
Lemma calms_openable p : calms (is_openable sys_open p).
Proof.
  unfold is_openable. destruct (sys_open p); [|calm_auto]. apply calms_bind; [|intro; calm_auto].
  apply calmly_handle. intros g. apply quiet_debug.
Qed.
End parts.
