(* ===== verification/DirectLaunch.v ===== *)
(** The process over a launch: which descriptors and children every path of
    [launch_direct] leaves, and when it returns. *)

From S2P Require Import Procs Regex Inspect Prelude Xdr Protocol Handle Events Conn LibProto LibProtoSpec LibProtoSafe Utils Config Lifecycle Drives Command Create Backend Appliance Direct DirectSafe.
From Stdlib Require Import Ascii.
Local Open Scope Z_scope.

(** * Receiving keeps the sockets of the connection *)

Definition sockets (c : connection_socket) : Z * Z * Z := (console_sock c, daemon_sock c, daemon_accept_sock c).
Definition keeps_sockets {A} (m : sock A) : Prop := forall g c, sockets (snd (snd (m (g, c)))) = sockets c.

Lemma ks_bind {A B} (m : sock A) (f : A -> sock B) : keeps_sockets m -> (forall a, keeps_sockets (f a)) -> keeps_sockets (bind m f).
Proof.
  intros Hm Hf g c. specialize (Hm g c). unfold bind. destruct (m (g, c)) as [[a|w] [g' c']]; [|done]. cbn in Hm.
  rewrite (Hf a g' c'). exact Hm.
Qed.
Lemma ks_ret {A} (a : A) : keeps_sockets (ret a).
Proof. done. Qed.
Lemma ks_log : keeps_sockets handle_log_message.
Proof. intros g c. destruct (handle_log_message_spec g c) as (r & g' & k' & -> & _). done. Qed.
Lemma ks_drain : forall fuel, keeps_sockets (drain_console fuel).
Proof.
  assert (forall m : Z -> sock unit, (forall r, keeps_sockets (m r)) -> keeps_sockets (bind handle_log_message m)) as Hb
    by (intros m; by apply ks_bind, ks_log).
  induction fuel as [|fuel IH]; intros g c; cbn [drain_console]; destruct (k_console _); try done.
  apply Hb. intros x. by destruct (x =? 1).
Qed.
Lemma ks_read_closed : keeps_sockets read_closed.
Proof.
  intros g c. unfold read_closed. destruct (_ && _); [|done].
  exact (ks_bind _ _ (ks_drain _) (fun _ => ks_ret 0) g c).
Qed.
Lemma ks_read_turn len : keeps_sockets (read_turn len).
Proof.
  intros g c. unfold read_turn. destruct (poll_in _) as [[[e|pd pc] k]|]; [by destruct (retry e)| |done].
  match goal with |- context [bind ?m ?f (g, ?c')] => assert (keeps_sockets (bind m f)) as H; [|exact (H g c')] end.
  apply ks_bind; [destruct (_ && _); [apply ks_log|apply ks_ret]|]. intros r. destruct (r <=? 0); [apply ks_ret|].
  destruct pd; [|apply ks_ret]. intros g1 c1. destruct (sys_read _ _) as [[[|b bs]|e] q]; try done.
  - exact (ks_bind _ _ ks_read_closed (fun r => ks_ret _) g1 (c1 <| conn_kernel; k_daemon := q |>)).
  - destruct (retry e); [done|]. destruct (e =? ECONNRESET); [|done].
    exact (ks_bind _ _ ks_read_closed (fun r => ks_ret _) g1 (c1 <| conn_kernel; k_daemon := q |>)).
Qed.
Lemma ks_read_loop : forall fuel len buf, keeps_sockets (read_loop fuel len buf).
Proof.
  induction fuel as [|fuel IH]; intros len buf; cbn [read_loop]; destruct (len =? 0)%nat; try apply ks_ret; [done|].
  apply ks_bind; [apply ks_read_turn|]. intros [|bs|r]; [apply IH|apply IH|apply ks_ret].
Qed.
Lemma ks_read n : keeps_sockets (read_data n).
Proof. intros g c. change (read_data n) with (socket_read_data n). unfold socket_read_data. destruct (_ =? _); [done|apply ks_read_loop]. Qed.

(** The library's connection, if there is one left, has the sockets of [c], and
    the configuration is [cf]. *)
Definition same_sockets (cf : config) (c : connection_socket) (l : lib connection_socket) : Prop :=
  g_cfg (l_g l) = cf /\ match l_conn l with Some c' => sockets c' = sockets c | None => True end.
Definition lib_keeps {A} cf c (m : M (lib connection_socket) A) : Prop := forall l, same_sockets cf c l ->
  match m l with (Ret _, l') => same_sockets cf c l' | (Stop _, _) => True end.

Section lib_keeps.
Context (cf : config) (c : connection_socket).
#[local] Notation lkeeps := (lib_keeps cf c).
Lemma lk_ret {A} (a : A) : lkeeps (ret a).
Proof. intros l Hl. exact Hl. Qed.
Lemma lk_halt {A} w : lkeeps (halt w : M (lib connection_socket) A).
Proof. by intros l Hl. Qed.
Lemma lk_bind {A B} (m : M (lib connection_socket) A) (f : A -> M (lib connection_socket) B) :
  lkeeps m -> (forall a, lkeeps (f a)) -> lkeeps (bind m f).
Proof.
  intros Hm Hf l Hl. specialize (Hm l Hl). unfold bind. destruct (m l) as [[a|w] l1]; [|done]. by apply Hf.
Qed.
Lemma lk_on_g f : (forall g, g_cfg (f g) = g_cfg g) -> lkeeps (LibProto.on_g f).
Proof. intros Hf l [Hl1 Hl2]. split; [cbn; by rewrite Hf|exact Hl2]. Qed.
Lemma lk_quiet f : (forall g, quiet g (f g)) -> lkeeps (LibProto.on_g f).
Proof. intros Hf. apply lk_on_g. intros g. by destruct (Hf g). Qed.
Lemma lk_read n : lkeeps (on_conn (read_data n)).
Proof.
  intros l [Hl1 Hl2]. unfold on_conn, same_sockets in *. destruct (l_conn l) as [c0|] eqn:E; [|done].
  pose proof (ks_read n (l_g l) c0) as H. pose proof (read_data_sound (ConnLaws := socket_laws) (l_g l) c0 n) as Hq.
  destruct (read_data n (l_g l, c0)) as [[[r bs]|w] [g' c']]; [|done]. cbn in *.
  destruct (Hq r bs g' c' eq_refl) as (_ & _ & Q). destruct Q. split; congruence.
Qed.
Lemma lk_cleanup : lkeeps unexpected_close.
Proof.
  apply lk_bind; [apply lk_quiet, quiet_unexpected_close_error|intros _]. intros l [Hl _]. split; [|done]. cbn.
  rewrite <- Hl. match goal with |- g_cfg (guestfs___call_callbacks_void ?g ?ev) = _ => pose proof (f_equal g_cfg (core_callbacks_void g ev)) as E end.
  etransitivity; [exact E|]. cbn. by destruct (quiet_debug (l_g l) "child_cleanup: child process died").
Qed.
Lemma lk_progress buf : lkeeps (handle_progress buf).
Proof.
  unfold handle_progress. destruct (xdr_get buf) as [[m rest]|]; [|apply lk_halt]. apply lk_quiet. intros g.
  apply quiet_progress_message_callback.
Qed.
Lemma lk_launch_flag : lkeeps (LibProto.on_g recv_launch_flag).
Proof.
  apply lk_on_g. intros g. unfold recv_launch_flag.
  match goal with |- g_cfg (guestfs___debug ?g1 ?m) = _ => destruct (quiet_debug g1 m) as [_ -> _ _ _ _ _] end.
  case_decide; [|apply quiet_error]. exact (f_equal g_cfg (core_callbacks_void (g <| g_state := READY |>) _)).
Qed.

Create HintDb lk.
#[local] Hint Resolve lk_ret lk_halt lk_read lk_cleanup lk_progress lk_launch_flag : lk.
Ltac lk_auto := repeat first
  [ solve [auto with lk] | apply lk_bind; [|intro]
  | apply lk_quiet; intro; first [apply quiet_debug | apply quiet_error]
  | match goal with |- lib_keeps _ _ (if ?b then _ else _) => destruct b
                  | |- lib_keeps _ _ (match ?x with _ => _ end) => destruct x end ].

Lemma lk_recv_from_daemon : lkeeps recv_from_daemon.
Proof.
  intros l Hl. unfold recv_from_daemon. destruct (l_conn l) eqn:E.
  - assert (lkeeps recv_connected) as H; [unfold recv_connected; cbv zeta; lk_auto|by apply H].
  - assert (lkeeps (LibProto.on_g guestfs___unexpected_close_error ;;; ret (-1, 0, @None (list byte)))) as H; [|by apply H].
    apply lk_bind; [apply lk_quiet, quiet_unexpected_close_error|intros _; apply lk_ret].
Qed.
#[local] Hint Resolve lk_recv_from_daemon : lk.
Lemma lk_recv_loop : forall fuel, lkeeps (recv_loop fuel).
Proof. induction fuel as [|fuel IH]; cbn [recv_loop]; lk_auto. Qed.
End lib_keeps.

(** What [guestfs___recv_from_daemon] leaves of a launching handle. *)
Definition launch_received (l0 l : lib connection_socket) (c : connection_socket) : Prop :=
  g_cfg (l_g l) = g_cfg (l_g l0) /\
  (  (l_conn l = None /\ g_state (l_g l) = CONFIG) \/
  (exists c', l_conn l = Some c' /\ sockets c' = sockets c /\ g_drives (l_g l) = g_drives (l_g l0))).

Lemma evolves_online (l0 l : lib connection_socket) : evolves l0 l -> g_state (l_g l0) = LAUNCHING -> l_conn l0 <> None ->
  (l_conn l = None -> g_state (l_g l) = CONFIG) /\ (l_conn l <> None -> g_drives (l_g l) = g_drives (l_g l0)).
Proof.
  intros He Hs Hc. cut ((l_conn l = None -> g_state (l_g l) = CONFIG) /\
    (l_conn l <> None -> g_drives (l_g l) = g_drives (l_g l0))); [done|].
  revert He. apply (rtc_ind_r (fun l => (l_conn l = None -> g_state (l_g l) = CONFIG) /\
    (l_conn l <> None -> g_drives (l_g l) = g_drives (l_g l0)))); [done|].
  intros l1 l2 _ Hstep [IH1 IH2]. destruct Hstep as [l1 l2 E1 E2 E3|l1 l2 E1 E2 E3 E4|l1 l2 E1 E2 E3].
  - split; [intros H; rewrite E1; by apply IH1, E3|intros H; rewrite E2; apply IH2; by rewrite <- E3].
  - split; [intros H; apply E4, IH1 in H; congruence|intros H; rewrite E3; apply IH2; by rewrite <- E4].
  - by split.
Qed.

Lemma recv_run (l : lib connection_socket) c : l_conn l = Some c -> g_state (l_g l) = LAUNCHING ->
  match guestfs___recv_from_daemon l with
  | (Ret _, l') => launch_received l l' c
  | (Stop w, _) => w = Blocked
  end.
Proof.
  intros Hc Hs. pose proof (hoare_recv_daemon l (l_io l) (lib_budget l) l) as H.
  assert (from l (l_io l) l /\ within (lib_budget l) l) as Hpre by (split; [split; [apply rtc_refl|done]|unfold within; lia]).
  specialize (H Hpre). pose proof (lk_recv_loop (g_cfg (l_g l)) c (fuel_of l) l) as Hk. unfold guestfs___recv_from_daemon in *.
  destruct (recv_loop (fuel_of l) l) as [[x|w] l'] eqn:E; [|done].
  destruct H as [[He _] _]. destruct (evolves_online l l' He Hs) as [H1 H2]; [congruence|].
  unfold same_sockets in Hk. rewrite Hc in Hk. destruct Hk as [Hk1 Hk]; [done|]. split; [exact Hk1|]. destruct (l_conn l') as [c'|].
  - right. exists c'. split_and!; [done|exact Hk|by apply H2].
  - left. split; [done|by apply H1].
Qed.

(** * The process *)

Definition pidset (pid : Z) : gset Z := if 0 <? pid then {[pid]} else ∅.
Definition child_pids (d : backend_direct_data) : gset Z := pidset (bd_pid d) ∪ pidset (bd_recoverypid d).
Definition conn_fds (s : bstate) : gset Z :=
  match l_conn (b_l s) with Some c => list_to_set (free_conn_socket c) | None => ∅ end.
(** waitpid does not fail. *)
Definition waits_ok (s : bstate) : Prop := Forall (fun w => exists status, w = inr status) (b_waits s).

(** No qemu is running. *)
Record idle (s : bstate) : Prop := {
  idle_state : g_state (b_g s) = CONFIG;
  idle_conn : l_conn (b_l s) = None;
  idle_pid : bd_pid (b_data s) = 0;
  idle_recoverypid : bd_recoverypid (b_data s) = 0
}.
(** What a launch that failed has left, beside what was there in [s0]. *)
Record launch_failed (s0 : bstate) (fds pids : gset Z) (s : bstate) : Prop := {
  lf_idle : idle s;
  lf_waits : waits_ok s;
  lf_open : b_open s = fds ∪ b_open s0;
  lf_children : b_children s = pids ∪ b_children s0
}.
(** What a launch that succeeded has left. *)
Record launched (s0 s : bstate) : Prop := {
  ld_state : g_state (b_g s) = READY;
  ld_pid : 0 < bd_pid (b_data s);
  ld_daemon : exists c, l_conn (b_l s) = Some c /\ 0 <= daemon_sock c /\ daemon_accept_sock c = -1;
  ld_open : b_open s = conn_fds s ∪ b_open s0;
  ld_fds : conn_fds s ## b_open s0;
  ld_children : b_children s = child_pids (b_data s) ∪ b_children s0;
  ld_pids : child_pids (b_data s) ## b_children s0
}.
(** In between: [fds] have been opened. *)
Record under_way (s0 : bstate) (fds : gset Z) (s : bstate) : Prop := {
  uw_open : b_open s = fds ∪ b_open s0;
  uw_fds : fds ## b_open s0;
  uw_children : b_children s = child_pids (b_data s) ∪ b_children s0;
  uw_pids : child_pids (b_data s) ## b_children s0;
  uw_waits : waits_ok s;
  uw_cfg : g_cfg (b_g s) = g_cfg (b_g s0);
  uw_recovery : recovery_proc (g_cfg (b_g s0)) = false -> bd_recoverypid (b_data s) <= 0
}.

Lemma under_way_quiet s0 fds s s' : under_way s0 fds s -> calm s s' -> under_way s0 fds s'.
Proof.
  intros [H1 H2 H3 H4 H5 H6 H7] [Q C1 C2 C3 C4 C5 C6 C7]. assert (child_pids (b_data s') = child_pids (b_data s)) as E
    by (unfold child_pids; by rewrite C4, C5).
  split; rewrite ?E, ?C2, ?C3, ?C5; try done; [unfold waits_ok; by rewrite C7|by destruct Q; congruence].
Qed.

Lemma bind_on_h {B} (f : guestfs_h -> guestfs_h) (k : unit -> dm B) s : bind (on_h (modify f)) k s = k tt (s <| b_l; l_g ::= f |>).
Proof. done. Qed.

Lemma elem_of_fdset fd x : x ∈ fdset fd <-> x = fd /\ 0 <= fd.
Proof. unfold fdset. destruct (Z.leb_spec 0 fd); set_solver by lia. Qed.
Lemma elem_of_conn c x : x ∈ (list_to_set (free_conn_socket c) : gset Z) <->
  0 <= x /\ (x = console_sock c \/ x = daemon_sock c \/ x = daemon_accept_sock c).
Proof. unfold free_conn_socket. rewrite elem_of_list_to_set, list_elem_of_filter. set_solver. Qed.

(** ** System calls *)

Lemma wait_if_run pid s : waits_ok s ->
  exists q, (if 0 <? pid then Backend.sys_waitpid pid ;;; ret tt else ret tt) s =
      (Ret tt, s <| b_waits := q |> <| b_children ::= fun c => c ∖ pidset pid |>) /\
    Forall (fun w : Z + Z => exists status, w = inr status) q.
Proof.
  intros Hw. unfold waits_ok in Hw. unfold pidset. destruct (0 <? pid).
  - unfold Backend.sys_waitpid, bind. destruct (b_waits s) as [|w q] eqn:E.
    + exists []. split; [|constructor]. reflexivity.
    + inversion Hw as [|? ? [st ->] Hq]; subst. exists q. by split.
  - exists (b_waits s). split; [|exact Hw]. destruct s. cbn. unfold upd, upd_b_waits, upd_b_children; cbn. unfold ret.
    do 2 f_equal. symmetry. apply leibniz_equiv. set_solver.
Qed.

(** The two kills. *)
Definition kill_of (pid signum : Z) : list host_action := if 0 <? pid then [Kill pid signum] else [].
Lemma kill_if_run pid signum s : (if 0 <? pid then did (Kill pid signum) else ret tt) s =
  (Ret tt, s <| b_done ::= fun d => d ++ kill_of pid signum |>).
Proof.
  unfold kill_of. destruct (0 <? pid); [done|]. destruct s. cbn.
  unfold upd, upd_b_done, ret; cbn. by rewrite app_nil_r.
Qed.

Lemma cleanup0_run a c s : exists s', cleanup0 a c s = (Ret (-1), s') /\
  g_state (b_g s') = CONFIG /\ l_conn (b_l s') = None /\ b_data s' = b_data s /\
  b_open s' = b_open s ∖ fdset a ∖ fdset c ∖ conn_fds s /\ b_children s' = b_children s /\ b_waits s' = b_waits s /\ b_done s' = b_done s.
Proof.
  assert (forall fd s, close_if fd s = (Ret tt, s <| b_open ::= fun o => o ∖ fdset fd |>)) as Hc.
  { intros fd s0. unfold close_if, fdset. destruct (0 <=? fd); [done|]. unfold ret. f_equal. destruct s0. cbn.
    unfold upd, upd_b_open; cbn. f_equal. symmetry. apply leibniz_equiv. set_solver. }
  unfold cleanup0. rewrite (bind_Ret _ _ _ _ _ (Hc a s)), (bind_Ret _ _ _ _ _ (Hc c _)).
  unfold free_connection, conn_fds, bind at 1. cbn [b_l upd upd_b_open].
  destruct (l_conn (b_l s)) as [k|] eqn:E; (eexists; split; [reflexivity|]); split_and!; try done. 
  cbn. symmetry. apply leibniz_equiv. set_solver.
Qed.

Lemma cleanup1_run a c s : waits_ok s -> exists s', cleanup1 (-1) a c s = (Ret (-1), s') /\ idle s' /\
  waits_ok s' /\ b_open s' = b_open s ∖ fdset a ∖ fdset c ∖ conn_fds s /\ b_children s' = b_children s ∖ child_pids (b_data s) /\
  (bd_pid (b_data s) = 0 -> bd_recoverypid (b_data s) = 0 -> b_done s' = b_done s).
Proof.
  intros Hw. unfold cleanup1, cfg, dat. rewrite bind_gets.
  rewrite (bind_Ret _ _ s tt s) by (by rewrite andb_false_r). rewrite !bind_gets.
  mstep (kill_if_run (bd_pid (b_data s)) 9 s). set (s1 := s <| b_done ::= _ |>).
  mstep (kill_if_run (bd_recoverypid (b_data s)) 9 s1). set (s2 := s1 <| b_done ::= _ |>).
  destruct (wait_if_run (bd_pid (b_data s)) s2 Hw) as (q3 & E3 & W3). mstep E3. set (s3 := s2 <| b_waits := _ |> <| b_children ::= _ |>).
  destruct (wait_if_run (bd_recoverypid (b_data s)) s3 W3) as (q4 & E4 & W4). mstep E4.
  set (s4 := s3 <| b_waits := _ |> <| b_children ::= _ |>). unfold set_data. rewrite bind_modify.
  rewrite bind_on_h.
  match goal with |- context [cleanup0 a c ?s5] => destruct (cleanup0_run a c s5) as (s' & -> & H1 & H2 & H3 & H4 & H5 & H6 & H7) end.
  exists s'. split; [done|]. split_and!; [|unfold waits_ok; rewrite H6; exact W4|exact H4| |].
  - split; [done|done|by rewrite H3|by rewrite H3].
  - rewrite H5. cbn. unfold child_pids. apply leibniz_equiv. set_solver.
  - intros Hp Hr. rewrite H7. cbn. by rewrite Hp, Hr, !app_nil_r.
Qed.

Lemma shutdown_direct_run strsignal n s : waits_ok s -> exists r s', shutdown_direct strsignal n s = (Ret r, s') /\
  quiet (b_g s) (b_g s') /\ l_conn (b_l s') = l_conn (b_l s) /\ bd_pid (b_data s') = 0 /\ bd_recoverypid (b_data s') = 0 /\
  waits_ok s' /\ b_open s' = b_open s /\
  b_children s' = b_children s ∖ (if recovery_proc (g_cfg (b_g s)) then pidset (bd_pid (b_data s)) else ∅) ∖ pidset (bd_recoverypid (b_data s)) /\
  (0 < bd_pid (b_data s) -> bd_recoverypid (b_data s) <= 0 -> last (b_done s') = Some (Kill (bd_pid (b_data s)) SIGTERM)).
Proof.
  intros Hw. unfold shutdown_direct, dat. rewrite !bind_gets. set (pid := bd_pid (b_data s)). set (rp := bd_recoverypid (b_data s)).
  assert (exists s1, (if 0 <? pid then debug ("sending SIGTERM to process " +:+ pretty pid) ;;; did (Kill pid SIGTERM) else ret tt) s =
    (Ret tt, s1) /\ calm s s1 /\ b_done s1 = b_done s ++ kill_of pid SIGTERM) as (s1 & E1 & C1 & K1).
  { unfold kill_of. destruct (0 <? pid); eexists; (split; [reflexivity|]); [by split; [split; try done; apply quiet_debug|]|by rewrite app_nil_r]. }
  mstep E1. mstep (kill_if_run rp 9 s1). set (s2 := s1 <| b_done ::= _ |>). unfold cfg at 1. rewrite bind_gets.
  assert (g_cfg (b_g s2) = g_cfg (b_g s)) as Ecfg by (by destruct C1 as [[]]). rewrite Ecfg.
  set (wait := recovery_proc (g_cfg (b_g s))).
  assert (waits_ok s2) as Hw2 by (unfold waits_ok; cbn; by rewrite (calm_waits _ _ C1)).
  assert (exists r s3, (if wait && (0 <? pid) then
      w <- Backend.sys_waitpid pid ;;
      match w with
      | inl e => Backend.perrorf e "waitpid (qemu)" ;;; ret (-1)
      | inr status => if negb (exited_0 status)
          then hv <- cfg hv ;; external_command_failed strsignal status hv ;;; ret (-1) else ret 0
      end else ret 0) s2 = (Ret r, s3) /\ quiet (b_g s2) (b_g s3) /\ l_conn (b_l s3) = l_conn (b_l s2) /\ b_data s3 = b_data s2 /\
      waits_ok s3 /\ b_open s3 = b_open s2 /\ b_children s3 = b_children s2 ∖ (if wait then pidset pid else ∅) /\
      b_done s3 = b_done s2) as (r & s3 & E3 & Q3 & L3 & D3 & W3 & O3 & Ch3 & K3).
  { unfold pidset. destruct wait; cbn [andb]; [|exists 0, s2; split_and!; try done; set_solver].
    destruct (0 <? pid); [|exists 0, s2; split_and!; try done; set_solver].
    unfold Backend.sys_waitpid, bind at 1. unfold waits_ok in Hw2. destruct (b_waits s2) as [|w q].
    - eexists _, _. split; [reflexivity|]. by split_and!; try constructor.
    - inversion Hw2 as [|? ? [st ->] Hq]; subst. destruct (negb (exited_0 st)); (eexists _, _; split; [reflexivity|]); split_and!; try done.
      apply quiet_error. }
  mstep E3. destruct (wait_if_run rp s3 W3) as (q4 & E4 & W4). mstep E4. unfold set_data. rewrite bind_modify.
  eexists r, _. split; [reflexivity|]. split_and!; try done.
  - transitivity (b_g s2); [destruct C1 as [Q1]; exact Q1|exact Q3].
  - cbn. rewrite L3. cbn. apply (calm_conn _ _ C1).
  - cbn. rewrite O3. cbn. apply (calm_open _ _ C1).
  - cbn. rewrite Ch3. cbn. by rewrite (calm_children _ _ C1).
  - intros Hp Hr. cbn. rewrite K3. cbn. rewrite K1. fold pid in Hp |- *. fold rp in Hr. unfold kill_of.
    rewrite (proj2 (Z.ltb_lt 0 pid) Hp), (proj2 (Z.ltb_ge 0 rp) Hr), app_nil_r. by rewrite last_snoc.
Qed.

(** ** The connection *)

Lemma accept_loop_sockets start : forall script g c,
  match accept_loop start script (g, c) with
  | (Ret _, (_, c')) => sockets c' = sockets c
  | (Stop w, _) => w = Blocked
  end.
Proof.
  induction script as [|[now p] script IH]; intros g c; cbn [accept_loop]; [done|].
  destruct p as [e| |pc acc].
  - destruct (retry e); [apply IH|done].
  - by case_if.
  - destruct (log_turn_spec ((0 <=? console_sock c) && pc) g c) as (r & g1 & k1 & E & _). rewrite (bind_Ret _ _ _ _ _ E).
    destruct (r <=? 0); [done|]. destruct acc as [[fd|e]|]; [done| |exact (IH g1 (c <| conn_kernel := k1 |>))].
    destruct (retry e); [exact (IH g1 (c <| conn_kernel := k1 |>))|done].
Qed.
Lemma accepted_as_fd fd (script : list (Z * accept_poll)) (now : Z) pc x : (now, ApReady pc (Some (AcceptOk x))) ∈ accepted_as fd <$> script -> x = fd.
Proof.
  intros ([t p] & E & _)%list_elem_of_fmap. destruct p as [| |pc' [[fd'|e']|]]; cbn in E; congruence.
Qed.

Section launch.
Context (strsignal : Z -> string) (access_ok : string -> bool) (getenv : string -> option string)
        (lstat : string -> Z + lstat_info) (geteuid : Z) (SUPERMIN : string)
        (sys_open : string -> option Z) (stat_kvm : option kvm_stat) (getegid : Z)
        (getgroups : Z + list Z)
        (realpath : string -> Z + string) (xmlSaveUri : xmlURI -> option string)
        (QEMU_OPTIONS : option string)
        (start_t : Z) (accept_script : list (Z * accept_poll)) (accept_fcntl : option Z)
        (conn_fcntl : option Z * option Z) (conn_answers : kernel).

Lemma accept_daemon_run s0 s c : l_conn (b_l s) = Some c -> daemon_sock c = -1 -> 0 <= daemon_accept_sock c -> console_sock c <> daemon_accept_sock c ->
  under_way s0 (conn_fds s) s ->
  match accept_daemon start_t accept_script accept_fcntl s with
  | (Ret r, s') => under_way s0 (conn_fds s') s' /\ quiet (b_g s) (b_g s') /\ b_data s' = b_data s /\
      exists c', l_conn (b_l s') = Some c' /\
        (r = -1 \/ r = 0 \/ r = 1 /\ 0 <= daemon_sock c' /\ daemon_accept_sock c' = -1)
  | (Stop w, _) => w = Blocked
  end.
Proof.
  intros Hc Hd Ha Hne Hu. unfold accept_daemon. rewrite Hc. set (fd := new_fd (b_open s)).
  unfold accept_connection. destruct (Z.eqb_spec (daemon_accept_sock c) (-1)); [lia|].
  pose proof (accept_loop_sockets start_t (accepted_as fd <$> accept_script) (b_g s) c) as Hk.
  destruct (accept_loop_spec start_t (accepted_as fd <$> accept_script) (b_g s) c) as [_ Hs]. unfold bind.
  destruct (accept_loop _ _ _) as [[[r|x]|w] [g1 c1]]; [| |done].
  - destruct (Hs _ _ _ eq_refl) as (Hq & Hd1 & _ & Hr). injection Hk as K1 K2 K3. unfold ret. cbv beta iota zeta. rewrite Hd1, Hd. change (-1 =? -1) with true. cbv beta iota.
    assert (conn_fds (s <| b_l; l_g := g1 |> <| b_l; l_conn := Some c1 |>) = conn_fds s) as Ef.
    { unfold conn_fds. rewrite Hc. cbn. unfold free_conn_socket. by rewrite K1, K2, K3. }
    destruct Hu as [U1 U2 U3 U4 U5 U6 U7]. split_and!; [|exact Hq|done|exists c1; split; [done|tauto]].
    split; rewrite ?Ef; try done. cbn. destruct Hq; congruence.
  - destruct (Hs _ _ _ eq_refl) as (Hq & _ & _ & now & pc & Hin). apply accepted_as_fd in Hin as ->. injection Hk as K1 K2 K3.
    pose proof (new_fd_fresh (b_open s)) as Hfresh. fold fd in Hfresh. pose proof (new_fd_nonneg (b_open s)) as Hnn. fold fd in Hnn.
    set (c' := mk_conn (console_sock c1) fd (-1) (conn_kernel c1)).
    destruct Hu as [U1 U2 U3 U4 U5 U6 U7].
    assert (forall g2, quiet (b_g s) g2 -> under_way s0 (list_to_set (free_conn_socket c'))
      (s <| b_l; l_g := g2 |> <| b_l; l_conn := Some c' |> <| b_open ::= fun o => {[fd]} ∪ (o ∖ {[daemon_accept_sock c]}) |>)) as Hnew.
    { intros g2 Q2. unfold conn_fds in U1, U2. rewrite Hc in U1, U2. split; try done.
      - cbn -[list_to_set free_conn_socket c']. rewrite U1. apply leibniz_equiv. intros x.
        rewrite !elem_of_union, elem_of_difference, elem_of_union, !elem_of_conn, !elem_of_singleton.
        cbn. rewrite K1. assert (x ∈ b_open s0 -> x <> daemon_accept_sock c) as H1.
        { intros Hx ->. apply (U2 (daemon_accept_sock c)); [apply elem_of_conn|]; tauto. }
        rewrite Hd. destruct (decide (x = daemon_accept_sock c)), (decide (x = fd)); subst; intuition (try lia).
      - intros x [Hx1 Hx2]%elem_of_conn Hx3. destruct Hx2 as [-> |[-> | ->]]; cbn in *; [| |lia].
        + apply (U2 (console_sock c1)); [apply elem_of_conn; rewrite K1 in *; tauto|done].
        + apply Hfresh. rewrite U1. set_solver.
      - cbn. destruct Q2. congruence. }
    destruct accept_fcntl as [e|]; cbv beta iota zeta; fold c'; change (daemon_sock c') with fd; (destruct (Z.eqb_spec fd (-1)); [lia|]).
    + assert (quiet (b_g s) (guestfs___perrorf g1 e "accept_connection: fcntl")) as Q2 by (etransitivity; [exact Hq|apply quiet_perrorf]).
      split_and!; [by apply Hnew|exact Q2|done|]. exists c'. split; [done|by left].
    + split_and!; [by apply Hnew|exact Hq|done|]. exists c'. split; [done|]. right. right. by split_and!.
Qed.

(** The child that is left when the connection is lost: shutdown_direct sends
    SIGTERM to qemu and only waits for it when there is a recovery process.
    Nothing is sent to a process afterwards. *)
Definition zombie (s0 : bstate) (pid : Z) (s : bstate) : Prop :=
  recovery_proc (g_cfg (b_g s0)) = false /\ 0 < pid /\ last (b_done s) = Some (Kill pid SIGTERM).
Definition unwaited (s0 : bstate) (pid : Z) (pids : gset Z) (s : bstate) : Prop :=
  pids = ∅ \/ pids = {[pid]} /\ zombie s0 pid s.

Lemma recv_launch_run s0 s c : l_conn (b_l s) = Some c -> g_state (b_g s) = LAUNCHING -> under_way s0 (conn_fds s) s ->
  match recv_launch_message strsignal s with
  | (Ret _, s') =>
      (under_way s0 (conn_fds s') s' /\ b_data s' = b_data s /\ exists c', l_conn (b_l s') = Some c' /\ sockets c' = sockets c) \/
      exists z, launch_failed s0 ∅ z s' /\ unwaited s0 (bd_pid (b_data s)) z s'
  | (Stop w, _) => w = Blocked
  end.
Proof.
  intros Hc Hs Hu. unfold recv_launch_message. pose proof (recv_run (b_l s) c Hc Hs) as H.
  destruct (guestfs___recv_from_daemon (b_l s)) as [[[[r size] buf]|w] l]; [|done]. rewrite Hc.
  destruct Hu as [U1 U2 U3 U4 U5 U6 U7]. destruct H as [Hcf [(Hn & Hst)|(c' & Hc' & Hk & Hd)]].
  - rewrite Hn. unfold close_all. rewrite bind_modify.
    match goal with |- context [bind (shutdown_direct strsignal 0) _ ?s1] =>
      destruct (shutdown_direct_run strsignal 0 s1) as (x & s' & E & Q & L & P1 & P2 & W & O & Ch & K); [exact U5|] end.
    rewrite (bind_Ret _ _ _ _ _ E). right. cbn -[list_to_set] in O, Ch, K. unfold b_g in Ch. cbn in Ch.
    rewrite Hcf in Ch. change (g_cfg (l_g (b_l s))) with (g_cfg (b_g s)) in Ch. rewrite U6, U3 in Ch.
    assert (idle s') as Hi by (split; [by destruct Q; etransitivity|by rewrite L|done|done]).
    assert (b_open s' = ∅ ∪ b_open s0) as Ho.
    { rewrite O, U1. unfold conn_fds in U2 |- *. rewrite Hc in U2 |- *. apply leibniz_equiv. set_solver. }
    unfold child_pids in Ch, U4. destruct (recovery_proc (g_cfg (b_g s0))) eqn:Erp.
    + exists ∅. split; [split; try done|by left]. rewrite Ch. apply leibniz_equiv. set_solver.
    + specialize (U7 eq_refl). assert (pidset (bd_recoverypid (b_data s)) = ∅) as Er
        by (unfold pidset; destruct (Z.ltb_spec 0 (bd_recoverypid (b_data s))); [lia|done]).
      rewrite Er in Ch, U4. unfold pidset in Ch, U4. destruct (Z.ltb_spec 0 (bd_pid (b_data s))).
      * exists {[bd_pid (b_data s)]}. split; [split; try done|right; split; [done|by split_and!; [|auto|auto]]].
        rewrite Ch. apply leibniz_equiv. set_solver.
      * exists ∅. split; [split; try done|by left]. rewrite Ch. apply leibniz_equiv. set_solver.
  - rewrite Hc'. left. assert (conn_fds (s <| b_l := l |>) = conn_fds s) as Ef.
    { unfold conn_fds. cbn -[list_to_set free_conn_socket]. rewrite Hc, Hc'. injection Hk as K1 K2 K3. unfold free_conn_socket. by rewrite K1, K2, K3. }
    split_and!; [|done|by exists c']. rewrite Ef. split; try done. unfold b_g. cbn. rewrite Hcf. exact U6.
Qed.

(** How a launch ends once qemu was started as [pid]. *)
Definition ended (s0 : bstate) (pid r : Z) (s : bstate) : Prop :=
  (r = 0 /\ launched s0 s) \/
  (r = -1 /\ exists z, launch_failed s0 ∅ z s /\ unwaited s0 pid z s).

Lemma fdset_neg : fdset (-1) = ∅.
Proof. done. Qed.
Lemma cleanup1_under_way s0 s : under_way s0 (conn_fds s) s ->
  exists s', cleanup1 (-1) (-1) (-1) s = (Ret (-1), s') /\ launch_failed s0 ∅ ∅ s'.
Proof.
  intros [U1 U2 U3 U4 U5 U6 U7]. destruct (cleanup1_run (-1) (-1) s U5) as (s' & E & Hi & Hw & Ho & Hc & _). exists s'.
  split; [done|]. rewrite U1, fdset_neg in Ho. rewrite U3 in Hc.
  split; [done|done|rewrite Ho; apply leibniz_equiv; set_solver|rewrite Hc; apply leibniz_equiv; set_solver].
Qed.
Lemma cleanup1_failed s0 z s : launch_failed s0 ∅ z s ->
  exists s', cleanup1 (-1) (-1) (-1) s = (Ret (-1), s') /\ launch_failed s0 ∅ z s' /\ b_done s' = b_done s.
Proof.
  intros [[I1 I2 I3 I4] I5 O C]. destruct (cleanup1_run (-1) (-1) s I5) as (s' & E & Hi & Hw & Ho & Hc & Hk). exists s'.
  split; [done|]. split; [|by apply Hk]. unfold conn_fds in Ho. rewrite I2, fdset_neg in Ho. unfold child_pids in Hc. rewrite I3, I4 in Hc. cbn in Hc.
  split; [done|done|rewrite Ho, O; apply leibniz_equiv; set_solver|rewrite Hc, C; apply leibniz_equiv; set_solver].
Qed.
Lemma calm_on_h s f : quiet (b_g s) (f (b_g s)) -> calm s (s <| b_l; l_g ::= f |>).
Proof. intros Q. by split. Qed.
Lemma timestamped_run msg s : exists s', timestamped msg s = (Ret tt, s') /\ calm s s' /\ b_done s' = b_done s /\ b_runs s' = b_runs s.
Proof.
  unfold timestamped, cfg. rewrite bind_gets. destruct (verbose _); [|by exists s].
  eexists. split; [reflexivity|]. split; [|done]. split; try done. cbn. unfold guestfs___print_timestamped_message, gettimeofday. fold (b_g s).
  destruct (env_clock (g_env (b_g s))) as [|t [|t' ts]]; try apply quiet_debug.
  etransitivity; [|apply quiet_debug]. by split.
Qed.
Lemma conn_fds_calm s s' : calm s s' -> conn_fds s' = conn_fds s.
Proof. intros []. unfold conn_fds. by rewrite calm_conn. Qed.
Lemma dummy_run g : exists d, guestfs___add_dummy_appliance_drive g = (Ret tt, g <| g_drives := g_drives g ++ [Some d] |>).
Proof.
  unfold guestfs___add_dummy_appliance_drive, create_drive_dummy, create_drive_file, with_overlay. cbn -[add_drive_to_handle].
  eexists. unfold add_drive_to_handle, add_drive_to_handle_at. replace (S (length (g_drives g)) - length (g_drives g))%nat with 1%nat by lia.
  cbn [replicate]. rewrite lookup_app_r, Nat.sub_diag by lia. cbn. by rewrite insert_app_r_alt, Nat.sub_diag by lia.
Qed.

(** The end of a launch that succeeded. *)
Lemma launch_finish s0 s has_drive c : under_way s0 (conn_fds s) s -> g_state (b_g s) = READY -> 0 < bd_pid (b_data s) ->
  l_conn (b_l s) = Some c -> 0 <= daemon_sock c -> daemon_accept_sock c = -1 ->
  exists s', (send_progress 12 ;;; (if has_drive : bool then on_h guestfs___add_dummy_appliance_drive else ret tt) ;;; ret 0) s =
    (Ret 0, s') /\ launched s0 s'.
Proof.
  intros Hu Hs Hp Hc Hd Ha. unfold send_progress. rewrite bind_on_h. set (s1 := s <| b_l; l_g ::= _ |>).
  assert (calm s s1) as C1 by apply calm_on_h, quiet_launch_send_progress.
  pose proof (under_way_quiet _ _ _ _ Hu C1) as Hu1. rewrite <- (conn_fds_calm _ _ C1) in Hu1.
  assert (g_state (b_g s1) = READY) as Hs1 by (destruct C1 as [[Es]]; congruence).
  assert (launched s0 s1) as L by (destruct Hu1; split; try done; by exists c).
  destruct has_drive; [|by exists s1]. destruct (dummy_run (b_g s1)) as (d & E).
  eexists. rewrite (bind_Ret _ _ s1 tt (s1 <| b_l; l_g := (b_g s1) <| g_drives := g_drives (b_g s1) ++ [Some d] |> |>))
    by (unfold on_h, zoom; by rewrite E). split; [reflexivity|]. by destruct L.
Qed.

(** A computation ends a launch, unless it waits for ever. *)
Definition ends (s0 : bstate) (pid : Z) (o : outcome Z * bstate) : Prop :=
  match o with (Ret r, s) => ended s0 pid r s | (Stop w, _) => w = Blocked end.

(** An error is reported, and the launch is given up. *)
Lemma give_up_run s0 pid s f : (forall g, quiet g (f g)) -> under_way s0 (conn_fds s) s ->
  ends s0 pid ((on_h (modify f) ;;; cleanup1 (-1) (-1) (-1)) s).
Proof.
  intros Hq H5. rewrite bind_on_h. pose proof (calm_on_h s f (Hq _)) as C.
  pose proof (under_way_quiet _ _ _ _ H5 C) as H6. rewrite <- (conn_fds_calm _ _ C) in H6.
  destruct (cleanup1_under_way _ _ H6) as (s' & -> & Hfail). right. split; [done|]. exists ∅. split; [done|by left].
Qed.
Lemma give_up_failed s0 pid z s f : (forall g, quiet g (f g)) -> launch_failed s0 ∅ z s -> unwaited s0 pid z s ->
  ends s0 pid ((on_h (modify f) ;;; cleanup1 (-1) (-1) (-1)) s).
Proof.
  intros Hq [[I1 I2 I3 I4] I5 O C] Hz. rewrite bind_on_h.
  destruct (cleanup1_failed s0 z (s <| b_l; l_g ::= f |>)) as (s' & -> & Hfl & Hk).
  { split; [|exact I5|exact O|exact C]. split; try done. cbn. destruct (Hq (b_g s)) as [Es]. etransitivity; [exact Es|exact I1]. }
  right. split; [done|]. eexists. split; [exact Hfl|]. unfold unwaited, zombie in *. by rewrite Hk.
Qed.
Lemma launch_failed_calm s0 z s s' : launch_failed s0 ∅ z s -> calm s s' -> launch_failed s0 ∅ z s'.
Proof.
  intros [[I1 I2 I3 I4] I5 O C] [Q ? ? ? ? ? ? W]. split; [split; try congruence|unfold waits_ok; by rewrite W|congruence|congruence].
  destruct Q. congruence.
Qed.

Lemma launch_up_lost s0 pid z has_drive r size s : launch_failed s0 ∅ z s -> unwaited s0 pid z s ->
  ends s0 pid (launch_up has_drive r size s).
Proof.
  intros Hfail Hz. unfold launch_up. destruct (_ || _); [by eapply give_up_failed; [intros g1; apply quiet_error|..]|].
  destruct (timestamped_run "appliance is up" s) as (s5 & E5 & C5 & K5 & _). rewrite (bind_Ret _ _ _ _ _ E5), bind_gets.
  pose proof (launch_failed_calm _ _ _ _ Hfail C5) as Hfail5.
  rewrite decide_False; [eapply give_up_failed; [intros g1; apply quiet_error|done|unfold unwaited, zombie in *; by rewrite K5]|].
  by destruct Hfail5 as [[-> _ _ _] _ _ _].
Qed.
Lemma launch_up_run s0 pid has_drive r size s c : under_way s0 (conn_fds s) s -> 0 < bd_pid (b_data s) ->
  l_conn (b_l s) = Some c -> 0 <= daemon_sock c -> daemon_accept_sock c = -1 ->
  ends s0 pid (launch_up has_drive r size s).
Proof.
  intros Hu Hp Hc Hd Ha. unfold launch_up. destruct (_ || _); [apply give_up_run; [intros g1; apply quiet_error|done]|].
  destruct (timestamped_run "appliance is up" s) as (s5 & E5 & C5 & _). rewrite (bind_Ret _ _ _ _ _ E5), bind_gets.
  pose proof (under_way_quiet _ _ _ _ Hu C5) as Hu5. rewrite <- (conn_fds_calm _ _ C5) in Hu5.
  case_decide as Hready; [|apply give_up_run; [intros g1; apply quiet_error|done]].
  destruct (launch_finish s0 s5 has_drive c Hu5 Hready) as (s' & -> & HL); [|by rewrite (calm_conn _ _ C5)|done|done|by left].
  by rewrite (calm_pid _ _ C5).
Qed.

(** Once the connection exists. *)
Lemma launch_connected_run s0 s c has_drive : under_way s0 (conn_fds s) s -> g_state (b_g s) = LAUNCHING ->
  l_conn (b_l s) = Some c -> daemon_sock c = -1 -> 0 <= daemon_accept_sock c -> console_sock c <> daemon_accept_sock c ->
  0 < bd_pid (b_data s) ->
  ends s0 (bd_pid (b_data s)) ((r <- accept_daemon start_t accept_script accept_fcntl ;;
    if r =? -1 then cleanup1 (-1) (-1) (-1)
    else if r =? 0 then on_h (modify guestfs___launch_failed_error) ;;; cleanup1 (-1) (-1) (-1)
    else let* (r, size) := recv_launch_message strsignal in launch_up has_drive r size) s).
Proof.
  intros Hu Hs Hc Hd Ha Hne Hp. pose proof (accept_daemon_run s0 s c Hc Hd Ha Hne Hu) as Hacc. unfold bind at 1.
  destruct (accept_daemon _ _ _ s) as [[r|w] s3]; [|done]. destruct Hacc as (Hu3 & Q3 & D3 & c3 & Hc3 & Hr). rewrite <- D3 in *.
  destruct Hr as [-> |[-> |(-> & Hds & Hdas)]].
  { change (-1 =? -1) with true. cbv iota. destruct (cleanup1_under_way _ _ Hu3) as (s' & -> & Hfail). right. split; [done|]. exists ∅. split; [done|by left]. }
  { apply (give_up_run s0 _ s3); [|done]. intros g1. apply quiet_error. }
  change (1 =? -1) with false. change (1 =? 0) with false. cbv iota.
  pose proof (recv_launch_run s0 s3 c3 Hc3 ltac:(by destruct Q3; congruence) Hu3) as Hrecv. unfold bind at 1.
  destruct (recv_launch_message _ s3) as [[[r size]|w] s4]; [|done].
  destruct Hrecv as [(Hu4 & D4 & c4 & Hc4 & K4)|(z & Hfail & Hz)]; [|by eapply launch_up_lost].
  injection K4 as K1 K2 K3. apply (launch_up_run s0 _ has_drive r size s4 c4); [done|by rewrite D4|done|congruence|congruence].
Qed.

Lemma launch_wait_run s0 s accept console has_drive : under_way s0 (fdset accept ∪ fdset console) s ->
  l_conn (b_l s) = None -> 0 <= accept -> console <> accept -> 0 < bd_pid (b_data s) ->
  ends s0 (bd_pid (b_data s))
    (launch_wait strsignal start_t accept_script accept_fcntl conn_fcntl conn_answers accept console has_drive s).
Proof.
  intros Hu Hn Ha Hne Hp. unfold launch_wait. rewrite bind_on_h. set (s1 := s <| b_l; l_g ::= _ |>).
  assert (under_way s0 (fdset accept ∪ fdset console) s1) as Hu1 by (by destruct Hu).
  set (c0 := mk_conn console (-1) accept conn_answers).
  assert (exists o g, guestfs___new_conn_socket_listening (b_g s1) accept console conn_fcntl conn_answers = (o, g) /\
    quiet (b_g s1) g /\ (o = None \/ o = Some c0)) as (o & g & E & Q & Ho).
  { unfold guestfs___new_conn_socket_listening, new_conn. destruct conn_fcntl as [[e|] [e'|]]; [| |destruct (0 <=? console)|];
      (eexists _, _; split; [reflexivity|]; split; [|tauto]); try done; apply quiet_perrorf. }
  unfold bind at 1. rewrite E. cbv beta iota zeta. set (s2 := s1 <| b_l; l_g := g |> <| b_l; l_conn := o |>).
  assert (under_way s0 (fdset accept ∪ fdset console) s2) as Hu2 by (destruct Hu1, Q; split; try done; cbn; congruence).
  destruct Ho as [->| ->]; cbn [is_set negb].
  { destruct (cleanup1_run accept console s2 (uw_waits _ _ _ Hu2)) as (s' & -> & Hi & Hw & Hop & Hch & _). right. split; [done|].
    exists ∅. split; [|by left]. destruct Hu2 as [U1 U2 U3 U4 U5 U6 U7]. change (conn_fds s2) with (∅ : gset Z) in Hop.
    rewrite U1 in Hop. rewrite U3 in Hch.
    split; [done|done|rewrite Hop; apply leibniz_equiv; set_solver|rewrite Hch; apply leibniz_equiv; set_solver]. }
  assert (conn_fds s2 = fdset accept ∪ fdset console) as Ef.
  { unfold conn_fds. cbn -[list_to_set free_conn_socket]. apply leibniz_equiv. intros x.
    rewrite elem_of_union, !elem_of_fdset, elem_of_conn. cbn. lia. }
  rewrite <- Ef in Hu2. apply (launch_connected_run s0 s2 c0 has_drive); try done.
  destruct Q as [Q1]. etransitivity; [exact Q1|done].
Qed.

(** ** Forking *)

Definition sv_fds (sv : option (Z * Z)) : gset Z := match sv with Some (a, b) => {[a; b]} | None => ∅ end.
Definition sv_ok (accept : Z) (sv : option (Z * Z)) : Prop :=
  match sv with Some (a, b) => 0 <= a /\ 0 <= b /\ a <> b /\ a <> accept /\ b <> accept | None => True end.

Lemma sys_fork_run s :
  (exists e q, Backend.sys_fork s = (Ret (inl e), s <| b_forks := q |>)) \/
  (exists pid q, Backend.sys_fork s = (Ret (inr pid), s <| b_forks := q |> <| b_children ::= fun c => {[Z.pos pid]} ∪ c |>) /\
     Z.pos pid ∉ b_children s).
Proof.
  unfold Backend.sys_fork. destruct (b_forks s) as [|[e|hint] q] eqn:E.
  - left. exists EAGAIN, []. rewrite <- E. by destruct s.
  - left. by exists e, q.
  - right. exists (unused_pid hint (b_children s)), q. split; [done|apply unused_pid_fresh].
Qed.

(** The recovery process. *)
Lemma fork_recovery_run s0 fds s : under_way s0 fds s -> bd_recoverypid (b_data s) = -1 ->
  exists s', (rp <- cfg recovery_proc ;;
    if rp : bool then
      r <- Backend.sys_fork ;;
      match r with
      | inl _ => set_data (fun d => d <| bd_recoverypid := -1 |>)
      | inr pid => did (StartedRecovery (Z.pos pid)) ;;; set_data (fun d => d <| bd_recoverypid := Z.pos pid |>)
      end
    else ret tt) s = (Ret tt, s') /\ under_way s0 fds s' /\ b_l s' = b_l s /\ bd_pid (b_data s') = bd_pid (b_data s).
Proof.
  intros Hu Hrp. pose proof Hu as [U1 U2 U3 U4 U5 U6 U7]. unfold cfg. rewrite bind_gets. rewrite U6.
  destruct (recovery_proc (g_cfg (b_g s0))) eqn:Erp; [|by exists s].
  assert (child_pids (b_data s) = pidset (bd_pid (b_data s))) as Ech.
  { unfold child_pids. rewrite Hrp. apply leibniz_equiv. set_solver. }
  assert (forall s1 : bstate, b_l s1 = b_l s -> b_open s1 = b_open s -> b_children s1 = b_children s -> b_waits s1 = b_waits s ->
    b_data s1 = b_data s -> under_way s0 fds (s1 <| b_data ::= fun d => d <| bd_recoverypid := -1 |> |>)) as Hno.
  { intros s1 E1 E2 E3 E4 E5. split; cbn; try done; rewrite ?E2, ?E3, ?E5; try done.
    - rewrite U3, Ech. unfold child_pids. cbn. apply leibniz_equiv. set_solver.
    - unfold child_pids. cbn. rewrite Ech in U4. set_solver.
    - unfold waits_ok. cbn. by rewrite E4.
    - unfold b_g in *. cbn. by rewrite E1. }
  destruct (sys_fork_run s) as [(e & q & E)|(pid & q & E & Hfresh)]; rewrite (bind_Ret _ _ _ _ _ E).
  - eexists. split; [reflexivity|]. split_and!; try done. by apply (Hno (s <| b_forks := q |>)).
  - eexists. split; [reflexivity|]. split_and!; try done.
    assert (forall d, child_pids (d <| bd_recoverypid := Z.pos pid |>) = pidset (bd_pid d) ∪ {[Z.pos pid]}) as Ec by done.
    split; cbn -[child_pids]; try done; rewrite ?Ec.
    + rewrite U3, Ech. apply leibniz_equiv. set_solver.
    + rewrite Ech in U4. rewrite U3 in Hfresh. set_solver.
    + by rewrite Erp.
Qed.

Lemma fdset_pos fd : 0 <= fd -> fdset fd = {[fd]}.
Proof. intros H. unfold fdset. destruct (Z.leb_spec 0 fd); [done|lia]. Qed.

(** Without a child. *)
Lemma fork_failed_run s0 s accept sv e : under_way s0 ({[accept]} ∪ sv_fds sv) s -> l_conn (b_l s) = None ->
  bd_pid (b_data s) = 0 -> bd_recoverypid (b_data s) = 0 -> 0 <= accept ->
  ends s0 0 ((Backend.perrorf e "fork" ;;;
    match sv with Some (sv0, sv1) => Backend.sys_close sv0 ;;; Backend.sys_close sv1 | None => ret tt end ;;;
    cleanup0 accept (-1)) s).
Proof.
  intros [U1 U2 U3 U4 U5 U6 U7] Hn Hp Hrp Ha. unfold Backend.perrorf at 1. rewrite bind_on_h.
  match goal with |- context [bind ?m _ ?s1] => assert (exists s2, m s1 = (Ret tt, s2) /\ b_open s2 = b_open s ∖ sv_fds sv /\
    l_conn (b_l s2) = None /\ b_data s2 = b_data s /\ b_children s2 = b_children s /\ b_waits s2 = b_waits s) as (s2 & E & O & L & D & Ch & W) end.
  { destruct sv as [[a b]|]; (eexists; split; [reflexivity|]); cbn; split_and!; try done; apply leibniz_equiv; clear; set_solver. }
  rewrite (bind_Ret _ _ _ _ _ E). destruct (cleanup0_run accept (-1) s2) as (s' & -> & H1 & H2 & H3 & H4 & H5 & H6 & _).
  right. split; [done|]. exists ∅. split; [|by left]. unfold conn_fds in H4. rewrite L, O, U1, (fdset_pos _ Ha), fdset_neg in H4.
  unfold child_pids in U3. rewrite Hp, Hrp in U3.
  split; [split; try done; by rewrite H3, D|unfold waits_ok; by rewrite H6, W| |].
  - rewrite H4. apply leibniz_equiv. clear -U2. set_solver.
  - rewrite H5, Ch, U3. apply leibniz_equiv. clear. set_solver.
Qed.

(** With one: the write end of the pair is closed. *)
Lemma close_pair_run s0 s accept sv : under_way s0 ({[accept]} ∪ sv_fds sv) s -> 0 <= accept -> sv_ok accept sv ->
  exists s', match sv with Some (_, sv1) => Backend.sys_close sv1 | None => ret tt end s = (Ret tt, s') /\
    under_way s0 (fdset accept ∪ fdset match sv with Some (sv0, _) => sv0 | None => -1 end) s' /\
    b_l s' = b_l s /\ b_data s' = b_data s.
Proof.
  intros [V1 V2 V3 V4 V5 V6 V7] Ha Hsv. rewrite (fdset_pos _ Ha).
  destruct sv as [[a b]|]; (eexists; split; [reflexivity|]); split_and!; try done.
  destruct Hsv as (Hsa & Hsb & N1 & N2 & N3). rewrite (fdset_pos _ Hsa). cbn [sv_fds] in V1, V2.
  assert (b ∉ b_open s0) as Hb by (clear -V2; set_solver).
  split; try done; [|clear -V2; set_solver]. cbn. rewrite V1. apply leibniz_equiv. clear -Hb N1 N3. set_solver.
Qed.

Lemma launch_fork_run s0 s cmdline accept sv has_drive : under_way s0 ({[accept]} ∪ sv_fds sv) s ->
  l_conn (b_l s) = None -> bd_pid (b_data s) = 0 -> bd_recoverypid (b_data s) = 0 -> 0 <= accept -> sv_ok accept sv ->
  exists pid, ends s0 pid
    (launch_fork strsignal start_t accept_script accept_fcntl conn_fcntl conn_answers cmdline accept sv has_drive s).
Proof.
  intros Hu Hn Hp Hrp Ha Hsv. unfold launch_fork.
  destruct (sys_fork_run s) as [(e & q & E)|(pid & q & E & Hfresh)]; rewrite (bind_Ret _ _ _ _ _ E).
  { exists 0. apply fork_failed_run; try done. by destruct Hu. }
  unfold did, set_data. rewrite !bind_modify. match goal with |- context [bind _ _ ?st] => set (s1 := st) end.
  assert (under_way s0 ({[accept]} ∪ sv_fds sv) s1) as Hu1.
  { destruct Hu as [U1 U2 U3 U4 U5 U6 U7].
    assert (child_pids (b_data s1) = {[Z.pos pid]}) as Ec1 .
    { transitivity (pidset (Z.pos pid) ∪ pidset (-1)); [done|]. change (pidset (-1)) with (∅ : gset Z). by rewrite union_empty_r_L. }
    assert (b_children s = b_children s0) as Ech.
    { rewrite U3. unfold child_pids. rewrite Hp, Hrp. apply leibniz_equiv. clear. set_solver. }
    rewrite Ech in Hfresh. split; rewrite ?Ec1; try done.
    - cbn. by rewrite Ech.
    - clear -Hfresh. set_solver. }
  destruct (fork_recovery_run s0 _ s1 Hu1 eq_refl) as (s2 & E2 & Hu2 & L2 & P2). exists (Z.pos pid).
  match type of E2 with bind ?c ?f _ = _ => match goal with |- context [bind c (fun x => bind _ ?k) s1] =>
    change (ends s0 (Z.pos pid) (bind c (fun x => bind (f x) k) s1)) end end.
  rewrite <- bind_assoc, (bind_Ret _ _ _ _ _ E2).
  destruct (close_pair_run s0 s2 accept sv Hu2 Ha Hsv) as (s3 & E3 & Hu3 & L3 & D3).
  rewrite (bind_Ret _ _ _ _ _ E3). assert (bd_pid (b_data s3) = Z.pos pid) as Ep by (by rewrite D3, P2).
  rewrite <- Ep. apply launch_wait_run; try done; [by rewrite L3, L2| |by rewrite Ep].
  destruct sv as [[a b]|]; [by destruct Hsv as (_ & _ & _ & ? & _)|lia].
Qed.

(** ** When the command line cannot be made *)

Definition solid {A} (m : dm (option A)) : Prop := forall s, fst (m s) <> Ret None.
Lemma solid_bind {A B} (m : dm A) (f : A -> dm (option B)) : (forall a, solid (f a)) -> solid (bind m f).
Proof. intros H s. unfold bind. destruct (m s) as [[a|w] s1]; [apply H|done]. Qed.
Lemma solid_args l : solid (args l).
Proof. by intros s. Qed.
Lemma solid_if {A} (b : bool) (m m' : dm (option A)) : solid m -> solid m' -> solid (if b then m else m').
Proof. by destruct b. Qed.
Lemma solid_halt {A} w : solid (halt w : dm (option A)).
Proof. by intros s. Qed.
Lemma solid_concat l : Forall solid l -> solid (concat_args l).
Proof.
  induction 1 as [|m l Hm Hl IH]; cbn [concat_args]; [apply (solid_args [])|]. intros s. specialize (Hm s). unfold bind.
  destruct (m s) as [[[a|]|w] s1]; [|done|done]. specialize (IH s1). destruct (concat_args l s1) as [[[b|]|w] s2]; [done|done|done].
Qed.
Lemma solid_supports o yes no : solid (if_supports strsignal o yes no).
Proof. apply solid_bind. intros r. apply solid_args. Qed.
Lemma solid_file o f : solid (file_arg o f).
Proof. destruct f; [apply solid_args|apply solid_halt]. Qed.
Lemma solid_machine kvm tcg files : solid (machine_cmdline strsignal kvm tcg files).
Proof.
  apply solid_bind. intros c. pose proof solid_supports. pose proof solid_args. pose proof solid_file.
  apply solid_concat. rewrite !Forall_cons. split_and!; try done; try apply Forall_nil_2.
  - apply solid_bind. intros g. apply solid_if; [apply solid_bind; intros ?|]; apply solid_args.
  - apply solid_bind. intros r. do 2 (apply solid_if; [done|]). apply solid_args.
Qed.
Lemma solid_channel kvm tcg sock dev : solid (channel_cmdline strsignal access_ok getenv QEMU_OPTIONS kvm tcg sock dev).
Proof.
  apply solid_bind. intros c. pose proof solid_args.
  apply solid_concat. rewrite !Forall_cons. split_and!; try done; try apply Forall_nil_2.
  - apply solid_bind. intros r. apply solid_args.
  - apply solid_bind. intros r. apply solid_args.
  - destruct QEMU_OPTIONS as [o|]; [|done]. destruct (add_cmdline_shell_unquoted _ _); [apply solid_halt|apply solid_args].
Qed.

(** The drive for which discard was demanded and refused: this qemu cannot do it, or not with the
    format of the drive. *)
Definition discard_refused (drv : drive) (qemu_version : Z) : bool :=
  (qemu_version <? 1005000) ||
  match src_format (drv_src drv) with
  | None => true
  | Some format => negb (STREQ format "raw") && negb (STREQ format "qcow2" && (1006000 <=? qemu_version))
  end.
Definition refused (s0 s : bstate) : Prop := exists drv, Some drv ∈ g_drives (b_g s0) /\
  drv_discard drv = discard_enable /\ drv_overlay drv = None /\
  discard_refused drv (version_number (bd_qemu_version_major (b_data s)) (bd_qemu_version_minor (b_data s))) = true.

Lemma discard_possible_none drv v s s' : drv_overlay drv = None -> guestfs___discard_possible drv v s = (Ret false, s') ->
  discard_refused drv v = true /\ b_data s' = b_data s.
Proof.
  intros Ho. unfold guestfs___discard_possible, discard_refused. rewrite Ho. cbn [is_set]. rewrite Z.ltb_antisym.
  destruct (1005000 <=? v); cbn [negb orb]; [|intros [= <-]; done].
  destruct (src_format (drv_src drv)) as [f|]; [|intros [= <-]; done].
  destruct (STREQ f "raw"); [destruct (discard_protocol _); intros [=]|].
  destruct (STREQ f "qcow2"); cbn [negb andb]; [|intros [= <-]; done].
  destruct (1006000 <=? v); cbn [negb]; [destruct (discard_protocol _); intros [=]|intros [= <-]; done].
Qed.
Lemma drive_param_none i drv s s' : drive_param realpath xmlSaveUri i drv s = (Ret None, s') ->
  drv_discard drv = discard_enable /\ drv_overlay drv = None /\
  discard_refused drv (version_number (bd_qemu_version_major (b_data s')) (bd_qemu_version_minor (b_data s'))) = true.
Proof.
  unfold drive_param. destruct (drv_overlay drv) eqn:Eo; [done|]. unfold drive_discard_mode, dat.
  rewrite !bind_assoc, bind_gets, !bind_assoc, bind_gets. intros H.
  assert (forall (f : string -> string) s, (file <- guestfs___drive_source_qemu_param realpath xmlSaveUri (drv_src drv) ;;
    match file with None => halt Undefined | Some file => ret (Some (f file)) end) s <> (Ret None, s')) as Hf.
  { intros f s1. unfold bind. by destruct (guestfs___drive_source_qemu_param _ _ _ s1) as [[[file|]|w] s2]. }
  destruct (drv_discard drv); [by apply Hf in H| |by apply Hf in H]. rewrite !bind_assoc in H. unfold bind at 1 in H.
  destruct (guestfs___discard_possible _ _ s) as [[[|]|w] s1] eqn:Ep; [by apply Hf in H| |done].
  injection H as <-. apply discard_possible_none in Ep as [Hr ->]; [|done]. done.
Qed.
Lemma drives_args_none vs : forall drives i s s', drives_args realpath xmlSaveUri vs i drives s = (Ret None, s') ->
  exists drv, Some drv ∈ drives /\ drv_discard drv = discard_enable /\ drv_overlay drv = None /\
    discard_refused drv (version_number (bd_qemu_version_major (b_data s')) (bd_qemu_version_minor (b_data s'))) = true.
Proof.
  induction drives as [|[drv|] drives IH]; intros i s s'; cbn [drives_args]; [done| |].
  - unfold bind at 1. pose proof (drive_param_none i drv s) as Hp.
    destruct (drive_param _ _ i drv s) as [[[p|]|w] s1]; [|intros [= <-]; exists drv; split; [left|by apply Hp]|done].
    specialize (IH (S i) s1). unfold bind. destruct (drives_args _ _ vs (S i) drives s1) as [[[l|]|w] s2]; [done| |done].
    intros [= <-]. destruct (IH _ eq_refl) as (d & Hd & Hx). exists d. split; [by right|done].
  - intros H. destruct (IH _ _ _ H) as (d & Hd & Hx). exists d. split; [by right|done].
Qed.
Lemma concat_args_none l s s' : concat_args l s = (Ret None, s') -> exists m s1, m ∈ l /\ m s1 = (Ret None, s').
Proof.
  revert s. induction l as [|m l IH]; intros s; cbn [concat_args]; [done|]. unfold bind.
  destruct (m s) as [[[a|]|w] s1] eqn:E; [|intros [= <-]; exists m, s; split; [left|done]|done].
  specialize (IH s1). destruct (concat_args l s1) as [[[b|]|w] s2]; [done| |done]. intros [= <-].
  destruct (IH eq_refl) as (m' & s3 & Hm & Hs). exists m', s3. split; [by right|done].
Qed.
Lemma qemu_cmdline_none kvm tcg files sock s s' :
  qemu_cmdline strsignal access_ok getenv realpath xmlSaveUri QEMU_OPTIONS kvm tcg files sock s = (Ret None, s') -> refused s s'.
Proof.
  assert (forall A (m : dm (option A)) s s', solid m -> m s <> (Ret None, s')) as Hsolid
    by (intros A m s1 s2 Hm E; apply (Hm s1); by rewrite E).
  unfold qemu_cmdline, refused. rewrite bind_gets. intros (m & s1 & Hm & Hn)%concat_args_none.
  apply elem_of_cons in Hm as [->|Hm]; [apply Hsolid in Hn; [done|apply solid_machine]|]. apply list_elem_of_singleton in Hm as ->.
  unfold bind in Hn. destruct (qemu_supports_virtio_scsi strsignal s1) as [[vs|w] s2]; [|done].
  apply concat_args_none in Hn as (m & s3 & Hm & Hn).
  apply elem_of_cons in Hm as [->|Hm]; [done|]. apply elem_of_cons in Hm as [->|Hm]; [by apply drives_args_none in Hn|].
  apply elem_of_cons in Hm as [->|Hm]; [done|]. apply list_elem_of_singleton in Hm as ->.
  apply Hsolid in Hn; [done|apply solid_channel].
Qed.

(** ** From the sockets on *)

(** The ends of a socket pair that are left open, and why. *)
Definition leaked (s0 : bstate) (fds : gset Z) (s : bstate) : Prop :=
  direct_mode (g_cfg (b_g s0)) = false /\ (exists a b, fds = {[a; b]} /\ a <> b /\ fds ## b_open s0) /\ refused s0 s.

(** How a launch ends. *)
Definition launch_outcome (sound : Prop) (s0 : bstate) (o : outcome Z * bstate) : Prop :=
  match o with
  | (Ret r, s) =>
      (r = 0 /\ launched s0 s) \/
      (r = -1 /\ exists fds pids, launch_failed s0 fds pids s /\
         (fds = ∅ /\ pids = ∅ \/ fds = ∅ /\ (exists pid, pids = {[pid]} /\ zombie s0 pid s) \/ leaked s0 fds s /\ pids = ∅))
  | (Stop w, _) => w = Blocked \/ ~ sound
  end.

Lemma ends_outcome sound s0 pid o : ends s0 pid o -> launch_outcome sound s0 o.
Proof.
  destruct o as [[r|w] s]; [|by left]. intros [[-> H]|(-> & z & H & Hz)]; [by left|right]. split; [done|]. exists ∅, z.
  split; [done|]. destruct Hz as [->|[-> Hz]]; [by left|]. right. left. split; [done|]. by exists pid.
Qed.

(** The exits before the fork. *)
Lemma cleanup0_outcome sound s0 s fds accept : under_way s0 (fdset accept ∪ fds) s -> l_conn (b_l s) = None ->
  bd_pid (b_data s) = 0 -> bd_recoverypid (b_data s) = 0 -> fdset accept ## fds -> fds = ∅ \/ leaked s0 fds s ->
  launch_outcome sound s0 (cleanup0 accept (-1) s).
Proof.
  intros [U1 U2 U3 U4 U5 U6 U7] Hn Hp Hrp Hd Hfds. destruct (cleanup0_run accept (-1) s) as (s' & -> & H1 & H2 & H3 & H4 & H5 & H6 & _).
  unfold child_pids in U3. rewrite Hp, Hrp in U3. unfold conn_fds in H4. rewrite Hn, U1, fdset_neg in H4.
  assert (fds = ∅ \/ leaked s0 fds s') as Hfds' by (unfold leaked, refused in *; by rewrite H3).
  right. split; [done|]. exists fds, ∅. split; [|destruct Hfds'; [by left|by right; right]]. split.
  - split; [done|done|by rewrite H3|by rewrite H3].
  - unfold waits_ok. by rewrite H6.
  - rewrite H4. apply leibniz_equiv. clear -U2 Hd. set_solver.
  - rewrite H5, U3. apply leibniz_equiv. clear. set_solver.
Qed.

Lemma calm_perrorf e msg s : exists s', Backend.perrorf e msg s = (Ret tt, s') /\ calm s s'.
Proof. eexists. split; [reflexivity|]. split; try done. apply quiet_perrorf. Qed.

Lemma failed_call sound s0 s fds accept e msg : under_way s0 (fdset accept ∪ fds) s -> l_conn (b_l s) = None ->
  bd_pid (b_data s) = 0 -> bd_recoverypid (b_data s) = 0 -> fds = ∅ ->
  launch_outcome sound s0 ((Backend.perrorf e msg ;;; cleanup0 accept (-1)) s).
Proof.
  intros Hu Hn Hp Hrp ->. destruct (calm_perrorf e msg s) as (s1 & E & C). rewrite (bind_Ret _ _ _ _ _ E).
  pose proof (under_way_quiet _ _ _ _ Hu C). destruct C. eapply cleanup0_outcome; eauto; try congruence. set_solver.
Qed.

Section sockets.
Context (sound : Prop) (s0 : bstate)
        (Hquotes : sound -> options_readable QEMU_OPTIONS)
        (Hsources : sound -> Forall (drive_launchable realpath xmlSaveUri) (omap id (g_drives (b_g s0)))).
#[local] Notation outcome_ok := (launch_outcome sound s0).

(** Making the command line, and starting qemu. *)
Lemma launch_prepared_run kvm tcg files sock accept sv s : under_way s0 (fdset accept ∪ sv_fds sv) s -> l_conn (b_l s) = None ->
  bd_pid (b_data s) = 0 -> bd_recoverypid (b_data s) = 0 -> 0 <= accept -> sv_ok accept sv -> runs_ok sound s ->
  g_drives (b_g s) = g_drives (b_g s0) -> (is_Some sv -> direct_mode (g_cfg (b_g s0)) = false) ->
  (sound -> is_Some (ap_kernel files) /\ is_Some (ap_initrd files)) ->
  outcome_ok ((cmdline <- qemu_cmdline strsignal access_ok getenv realpath xmlSaveUri QEMU_OPTIONS kvm tcg files sock ;;
    match cmdline with
    | None => cleanup0 accept (-1)
    | Some cmdline => launch_fork strsignal start_t accept_script accept_fcntl conn_fcntl conn_answers cmdline accept sv (is_set (ap_appliance files))
    end) s).
Proof.
  intros Hu Hn Hp Hrp Ha Hsv Hr Hdr Hdm Hf.
  assert (forall s', qemu_cmdline strsignal access_ok getenv realpath xmlSaveUri QEMU_OPTIONS kvm tcg files sock s = (Ret None, s') -> refused s0 s')
    as Hnone by (intros s' E%qemu_cmdline_none; unfold refused in *; by rewrite <- Hdr).
  pose proof (qemu_cmdline_calm sound strsignal access_ok getenv realpath xmlSaveUri QEMU_OPTIONS kvm tcg files sock s Hquotes Hf Hr) as Hc.
  rewrite Hdr in Hc. specialize (Hc Hsources). unfold bind at 1.
  destruct (qemu_cmdline _ _ _ _ _ _ _ _ _ _ s) as [[[cmdline|]|w] s1]; [| |by right].
  - destruct Hc as [_ C]. pose proof (under_way_quiet _ _ _ _ Hu C) as Hu1. rewrite (fdset_pos _ Ha) in Hu1.
    destruct (launch_fork_run s0 s1 cmdline accept sv (is_set (ap_appliance files)) Hu1) as (pid & He);
      [by rewrite (calm_conn _ _ C)|by rewrite (calm_pid _ _ C)|by rewrite (calm_recoverypid _ _ C)|done|done|].
    by eapply ends_outcome.
  - destruct Hc as [_ C]. pose proof (under_way_quiet _ _ _ _ Hu C) as Hu1.
    assert (fdset accept ## sv_fds sv) as Hd.
    { rewrite (fdset_pos _ Ha). destruct sv as [[a b]|]; cbn; [destruct Hsv as (? & ? & ? & ? & ?)|]; set_solver. }
    apply (cleanup0_outcome sound s0 s1 (sv_fds sv) accept Hu1); [by rewrite (calm_conn _ _ C)|by rewrite (calm_pid _ _ C)|by rewrite (calm_recoverypid _ _ C)|done|].
    destruct sv as [[a b]|]; [right|by left]. split_and!; [by apply Hdm|exists a, b; split_and!; [done|by destruct Hsv as (_ & _ & ? & _)|]|by apply Hnone].
    destruct Hu1 as [_ Hx _ _ _ _ _]. clear -Hx. set_solver.
Qed.

(** Before the fork: [fds] have been opened, and nothing else has happened. *)
Record prepared (fds : gset Z) (s : bstate) : Prop := {
  pr_under_way : under_way s0 fds s;
  pr_conn : l_conn (b_l s) = None;
  pr_pid : bd_pid (b_data s) = 0;
  pr_recoverypid : bd_recoverypid (b_data s) = 0;
  pr_runs : runs_ok sound s;
  pr_drives : g_drives (b_g s) = g_drives (b_g s0)
}.
Lemma prepared_calm fds s s' : prepared fds s -> calm s s' -> runs_ok sound s' -> prepared fds s'.
Proof.
  intros [H1 H2 H3 H4 H5 H6] C Hr. pose proof (under_way_quiet _ _ _ _ H1 C). destruct C as [Q]. destruct Q.
  split; try congruence; done.
Qed.
Lemma prepared_call fds s : prepared fds s -> exists a s', sys_call s = (Ret a, s') /\ prepared fds s'.
Proof.
  intros H. unfold sys_call. destruct (answer (b_calls s)) as [a q]. eexists _, _. split; [reflexivity|].
  eapply prepared_calm; [exact H|by split|]. by destruct H.
Qed.
(** More descriptors are opened. *)
Lemma prepared_open fds new s : prepared fds s -> new ## b_open s -> prepared (fds ∪ new) (s <| b_open ::= fun o => new ∪ o |>).
Proof.
  intros [[U1 U2 U3 U4 U5 U6 U7] H2 H3 H4 H5 H6] Hnew. rewrite U1 in Hnew. split; try done. split; try done.
  - cbn. rewrite U1. apply leibniz_equiv. clear. set_solver.
  - clear -U2 Hnew. set_solver.
Qed.
Lemma prepared_socket s : prepared ∅ s -> exists r s', sys_socket s = (Ret r, s') /\
  match r with inl _ => prepared ∅ s' | inr fd => 0 <= fd /\ prepared (fdset fd) s' end.
Proof.
  intros H. destruct (prepared_call _ _ H) as (a & s1 & E & H1). unfold sys_socket. rewrite (bind_Ret _ _ _ _ _ E).
  destruct a as [e|]; [by eexists _, _|]. eexists _, _. split; [reflexivity|]. cbv beta iota.
  pose proof (new_fd_nonneg (b_open s1)) as Hnn. split; [done|]. rewrite (fdset_pos _ Hnn).
  pose proof (new_fd_fresh (b_open s1)) as Hf.
  pose proof (prepared_open ∅ {[new_fd (b_open s1)]} s1 H1 ltac:(clear -Hf; set_solver)) as Hx.
  rewrite union_empty_l_L in Hx. exact Hx.
Qed.
Lemma prepared_pair accept s : 0 <= accept -> prepared (fdset accept) s -> exists r s', sys_socketpair s = (Ret r, s') /\
  match r with inl _ => prepared (fdset accept) s' | inr sv => sv_ok accept (Some sv) /\ prepared (fdset accept ∪ sv_fds (Some sv)) s' end.
Proof.
  intros Ha H. destruct (prepared_call _ _ H) as (a & s1 & E & H1). unfold sys_socketpair. rewrite (bind_Ret _ _ _ _ _ E).
  destruct a as [e|]; [by eexists _, _|]. eexists _, _. split; [reflexivity|]. cbv beta iota.
  set (fd0 := new_fd (b_open s1)). set (fd1 := new_fd ({[fd0]} ∪ b_open s1)).
  pose proof (new_fd_nonneg (b_open s1) : 0 <= fd0). pose proof (new_fd_nonneg ({[fd0]} ∪ b_open s1) : 0 <= fd1).
  pose proof (new_fd_fresh (b_open s1) : fd0 ∉ _) as F0. pose proof (new_fd_fresh ({[fd0]} ∪ b_open s1) : fd1 ∉ _) as F1.
  assert (accept ∈ b_open s1) as Hin.
  { destruct H1 as [[-> _ _ _ _ _ _] _ _ _ _ _]. rewrite (fdset_pos _ Ha). clear. set_solver. }
  split; [|apply prepared_open; [done|clear -F0 F1; set_solver]].
  split_and!; [done|done|clear -F1; set_solver|clear -F0 Hin; set_solver|clear -F1 Hin; set_solver].
Qed.

Lemma failed_prepared accept s e msg : prepared (fdset accept) s -> outcome_ok ((Backend.perrorf e msg ;;; cleanup0 accept (-1)) s).
Proof.
  intros [H1 H2 H3 H4 H5 H6]. apply (failed_call sound s0 s ∅ accept e msg); try done. by rewrite union_empty_r_L.
Qed.

Lemma launch_sockets_run kvm tcg files s : prepared ∅ s -> (sound -> is_Some (ap_kernel files) /\ is_Some (ap_initrd files)) ->
  outcome_ok (launch_sockets strsignal access_ok getenv realpath xmlSaveUri QEMU_OPTIONS start_t accept_script accept_fcntl
    conn_fcntl conn_answers kvm tcg files s).
Proof.
  intros H Hf. unfold launch_sockets. rewrite bind_gets. unfold did. rewrite bind_modify.
  match goal with |- context [bind sys_socket _ ?st] => assert (prepared ∅ st) as H1 by (by destruct H as [[]]) end.
  destruct (prepared_socket _ H1) as ([e|accept] & s2 & E2 & H2); rewrite (bind_Ret _ _ _ _ _ E2); [by apply failed_prepared|].
  destruct H2 as [Ha H2].
  destruct (prepared_call _ _ H2) as ([e|] & s3 & E3 & H3); rewrite (bind_Ret _ _ _ _ _ E3); [by apply failed_prepared|].
  destruct (prepared_call _ _ H3) as ([e|] & s4 & E4 & H4); rewrite (bind_Ret _ _ _ _ _ E4); [by apply failed_prepared|].
  unfold cfg at 1. rewrite bind_gets.
  assert (exists p s5, (if direct_mode (g_cfg (b_g s4)) then ret (inr None)
    else p <- sys_socketpair ;; ret match p with inl e => inl e | inr sv => inr (Some sv) end) s4 = (Ret p, s5) /\
    match p with
    | inl _ => prepared (fdset accept) s5
    | inr sv => sv_ok accept sv /\ prepared (fdset accept ∪ sv_fds sv) s5 /\ (is_Some sv -> direct_mode (g_cfg (b_g s0)) = false)
    end) as (p & s5 & E5 & H5).
  { destruct (direct_mode (g_cfg (b_g s4))) eqn:Ed.
    - eexists _, _. split; [reflexivity|]. cbn [sv_fds sv_ok]. rewrite union_empty_r_L. split_and!; [done|done|by intros []].
    - destruct (prepared_pair accept s4 Ha H4) as ([e|sv] & s5 & E5 & H5); rewrite (bind_Ret _ _ _ _ _ E5); eexists _, _; (split; [reflexivity|]); [done|].
      destruct H5. split_and!; [done|done|]. intros _. rewrite <- Ed. by rewrite (uw_cfg _ _ _ (pr_under_way _ _ H4)). }
  rewrite (bind_Ret _ _ _ _ _ E5). destruct p as [e|sv]; [by apply failed_prepared|]. destruct H5 as (Hsv & H5 & Hdm).
  destruct (timestamped_run "finished testing qemu features" s5) as (s6 & E6 & C6 & _).
  pose proof (calmly_timestamped sound (fun _ => True) "finished testing qemu features" s5 (pr_runs _ _ H5) I) as Hr6. rewrite E6 in Hr6.
  rewrite (bind_Ret _ _ _ _ _ E6). destruct (prepared_calm _ _ _ H5 C6 (proj1 Hr6)). by apply launch_prepared_run.
Qed.
End sockets.

(** ** The whole *)

(** The programs that are run can be started and read from; the cache directory
    can be looked at; the configured options have no quotes; every drive has a
    name for qemu. *)
Definition healthy_run (k : cmd_kernel) : Prop :=
  (forall e, Some e ∉ ck_pipe k) /\ (exists pid, ck_fork k = inr pid) /\
  (forall e, SelFail e ∈ ck_select k -> retry e = true) /\ script_clean (ck_out k) = true.
Record well_behaved (s : bstate) : Prop := {
  wb_runs : Forall healthy_run (b_runs s);
  wb_lstat : forall f e, lstat f <> inl e;
  wb_options : options_readable QEMU_OPTIONS;
  wb_drives : Forall (drive_launchable realpath xmlSaveUri) (omap id (g_drives (b_g s)))
}.

Lemma idle_calm s s' : idle s -> waits_ok s -> calm s s' -> launch_failed s ∅ ∅ s'.
Proof.
  intros [I1 I2 I3 I4] I5 [Q C1 C2 C3 C4 C5 C6 C7].
  split; [split; try congruence|unfold waits_ok; by rewrite C7|by rewrite union_empty_l_L|by rewrite union_empty_l_L].
  destruct Q. congruence.
Qed.
Lemma idle_outcome sound s s' : idle s -> waits_ok s -> calm s s' -> launch_outcome sound s (Ret (-1), s').
Proof. intros Hi Hw Hc. right. split; [done|]. exists ∅, ∅. split; [by apply idle_calm|by left]. Qed.
Lemma idle_prepared sound s s' : idle s -> waits_ok s -> calm s s' -> runs_ok sound s' -> prepared sound s ∅ s'.
Proof.
  intros Hi Hw C Hr. destruct (idle_calm _ _ Hi Hw C) as [[I1 I2 I3 I4] I5 O Ch]. pose proof (calm_g _ _ C) as Q. destruct Q.
  split; try done. assert (child_pids (b_data s') = ∅) as E by (unfold child_pids; by rewrite I3, I4).
  split; rewrite ?E; try done; lia.
Qed.

(** A calm step, then the rest. *)
Lemma calm_then {A} sound s s1 (m : dm A) (P : A -> Prop) (k : A -> dm Z) : calm s s1 -> runs_ok sound s1 ->
  DirectSafe.calmly sound (fun _ => True) m (fun a _ => P a) ->
  (forall a s2, calm s s2 -> runs_ok sound s2 -> P a -> launch_outcome sound s (k a s2)) ->
  launch_outcome sound s (bind m k s1).
Proof.
  intros C Hr Hm Hk. specialize (Hm s1 Hr I). unfold bind. destruct (m s1) as [[a|w] s2]; [|by right].
  destruct Hm as (Hr2 & C2 & Ha). apply Hk; [by transitivity s1|done|done].
Qed.

Lemma launch_direct_run sound s : idle s -> waits_ok s -> runs_ok sound s -> (sound -> well_behaved s) ->
  launch_outcome sound s (launch_direct strsignal access_ok getenv lstat geteuid SUPERMIN sys_open stat_kvm getegid getgroups
    realpath xmlSaveUri QEMU_OPTIONS start_t accept_script accept_fcntl conn_fcntl conn_answers s).
Proof.
  intros Hi Hw Hr Hs. unfold launch_direct. rewrite bind_gets. destruct (g_drives (b_g s)) as [|d ds] eqn:Ed.
  { eapply (calm_then _ s s _ (fun _ => True)); [done|done|apply calms_error|]. intros a s2 C _ _. by apply idle_outcome. }
  eapply (calm_then _ s s _ (fun _ => True)); [done|done|apply calms_openable|]. intros kvm s2 C2 R2 _.
  eapply (calm_then _ s s2 _ (fun r => r <> -1)); [done|done| |].
  { eapply calmly_post; [apply calmly_on_h with (R := fun r => r <> -1); intros g; apply setting_bool_run|by intros ? ? []]. }
  intros r s3 C3 R3 Hne. destruct (Z.eqb_spec r (-1)); [done|].
  eapply (calm_then _ s s3 _ (fun _ => True)); [done|done|destruct (_ && _); [apply calms_kvm_warning|apply calms_ret]|]. intros ? s4 C4 R4 _.
  eapply (calm_then _ s s4 _ (fun _ => True)); [done|done|apply calms_progress|]. intros ? s5 C5 R5 _.
  eapply calm_then; [exact C5|exact R5|apply build_appliance_calm; intros H; by apply Hs|]. intros [files|] s6 C6 R6 Hf; [|by apply idle_outcome].
  eapply (calm_then _ s s6 _ (fun _ => True)); [done|done|apply calms_progress|]. intros ? s7 C7 R7 _.
  eapply (calm_then _ s s7 _ (fun _ => True)); [done|done|apply calms_timestamped|]. intros ? s8 C8 R8 _.
  eapply (calm_then _ s s8 _ (fun _ => True)); [done|done|apply calms_qemu_supports|]. intros x s9 C9 R9 _.
  pose proof (idle_prepared sound s s9 Hi Hw C9 R9) as Hp. destruct (x =? -1).
  - destruct Hp as [H1 H2 H3 H4 H5 H6]. apply (cleanup0_outcome sound s s9 ∅ (-1)); try done; [by left].
  - apply launch_sockets_run; try done; intros H; [by apply Hs|]. by apply (wb_drives _ (Hs H)).
Qed.

(** C14: Starting qemu, whatever the system calls, the programs that are run, qemu and the
    daemon answer, except that waitpid does not fail: launch_direct returns, unless it waits for
    ever or one of the named conditions of [well_behaved] does not hold. When it returns 0 the
    handle is READY, its connection is accepted, and beside what the process had, exactly the
    descriptors of the connection are open and exactly qemu and the recovery process are
    children. When it returns -1 the handle is in CONFIG without a connection and without pids,
    and the process has the descriptors and the children it had, but for two cases: the two ends
    of the socket pair stay open when discard was demanded of a drive and refused, because of
    the version of qemu or the format of the drive; and without a recovery process, qemu is not
    waited for when the connection is lost during the launch, which is when the last thing that
    was done is to send SIGTERM to it. *)
Theorem launch_direct_resources s :
  idle s -> waits_ok s -> Forall (fun k => forall e, Some e ∉ ck_wait k) (b_runs s) ->
  launch_outcome (well_behaved s) s
    (launch_direct strsignal access_ok getenv lstat geteuid SUPERMIN sys_open stat_kvm getegid getgroups
       realpath xmlSaveUri QEMU_OPTIONS start_t accept_script accept_fcntl conn_fcntl conn_answers s).
Proof.
  intros Hi Hws Hw. apply launch_direct_run; [done|done| |done].
  apply Forall_forall. intros k Hk. rewrite Forall_forall in Hw. split; [by apply Hw|].
  intros [Hwb _ _ _]. rewrite Forall_forall in Hwb. by apply Hwb.
Qed.
End launch.

(** * A launch *)

Definition ex_out_kernel (out : string) : cmd_kernel :=
  mk_cmd_kernel [] (inr 7%positive) [] [] [RdData (bytes_of_string out)] [] [] 0 ∅ ∅.
Definition ex_disk : drive :=
  mk_drive (mk_source drive_protocol_file (Some "raw") "a,b.img" [] None None) None false None None (Some "DISK") None discard_enable false.
Definition ex_flag_kernel : kernel := mk_kernel [] [RdData (be_bytes 4 GUESTFS_LAUNCH_FLAG)] [] [] [] [] [].
Definition ex_bstate : bstate :=
  mk_bstate
    (mk_lib (Examples.ex_handle <| g_state := CONFIG |> <| g_drives := [Some ex_disk] |> <| g_dirs; tmpdir := Some "/tmp/l" |>)
       None (mk_file_io None [] [] None [] []))
    (mk_direct_data 0 0 None None None 0 0 0) 0
    [plain_kernel; ex_out_kernel "-machine -nodefaults"; ex_out_kernel "QEMU 2.1"; ex_out_kernel "virtio-scsi-pci"]
    [] [inr 100%positive; inr 100%positive] [] {[0; 1; 2]} ∅ [].
#[local] Notation ex_launch :=
  (launch_direct (fun _ => "sig") (fun f => STREQ f "/usr/lib/guestfs/supermin.d") (fun _ => None)
    (fun _ => inr (mk_lstat 1000 16877)) 1000 "supermin" (fun _ => None) None 0 (inr [])
    (fun p => inr ("/home/" +:+ p)) (fun _ => None) None
    0 [(0, ApReady false (Some (AcceptOk 0)))] None (None, None) ex_flag_kernel).

Lemma ex_launch_returns : fst (ex_launch ex_bstate) = Ret 0.
Proof. vm_compute. reflexivity. Qed.
Lemma ex_launch_idle : idle ex_bstate.
Proof. by split. Qed.
Lemma ex_launch_runs : Forall (fun k => forall e, Some e ∉ ck_wait k) (b_runs ex_bstate).
Proof. repeat constructor; intros e; cbn; apply not_elem_of_nil. Qed.
Lemma outcome_launched P s (o : outcome Z * bstate) : fst o = Ret 0 -> launch_outcome P s o -> exists s', o = (Ret 0, s') /\ launched s s'.
Proof. destruct o as [r s']. cbn. intros -> [[_ H]|[H _]]; [by exists s'|done]. Qed.

Lemma launch_direct_resources_witness : exists s', ex_launch ex_bstate = (Ret 0, s') /\ launched ex_bstate s'.
Proof. exact (outcome_launched _ _ _ ex_launch_returns (launch_direct_resources _ _ _ _ _ _ _ _ _ _ _ _ _ _ _ _ _ _ ex_bstate ex_launch_idle (Forall_nil_2 _) ex_launch_runs)). Defined.
