(* ===== verification/DirectSpec.v ===== *)
(** What qemu is told: the options of every drive as qemu reads them, the name
    under which the appliance's kernel finds its root disk, and which appliance
    is taken from the search path. *)

From S2P Require Import Procs Regex Inspect Prelude Xdr Protocol Handle Events Conn LibProto Utils Config Lifecycle Drives Command Create Backend Appliance Direct DirectSafe DirectLaunch.
From Stdlib Require Import Ascii.
Local Open Scope Z_scope.
#[local] Arguments String.append : simpl nomatch.

(** * Option lists *)

(** A list of options written one after the other. *)
Fixpoint more_opts (l : list string) : string :=
  match l with [] => "" | o :: l' => "," +:+ escape_commas o +:+ more_opts l' end.

Lemma more_opts_app l k : more_opts (l ++ k) = more_opts l +:+ more_opts k.
Proof. induction l as [|o l IH]; [done|]. cbn [more_opts app]. by rewrite IH, !str_app_assoc. Qed.
Lemma join_more_opts a l : guestfs___join_strings "," (escape_commas <$> (a :: l)) = escape_commas a +:+ more_opts l.
Proof.
  revert a. induction l as [|b l IH]; intros a.
  - unfold guestfs___join_strings. cbn. by rewrite str_app_nil_r.
  - rewrite !fmap_cons, join_cons2. rewrite <- (fmap_cons _ b), IH. done.
Qed.
Definition readable_opt (o : string) : Prop := no_lead_comma o /\ o <> "".
(** qemu reads back what was written. *)
Lemma qemu_reads a l : Forall readable_opt (a :: l) -> qemu_opts (escape_commas a +:+ more_opts l) = a :: l.
Proof. intros H. rewrite <- join_more_opts. by apply qemu_opts_join. Qed.

Lemma more_opt o : no_sep "," o -> more_opts [o] = "," +:+ o.
Proof. intros H. cbn [more_opts]. by rewrite escape_commas_id, str_app_nil_r. Qed.
Lemma valid_no_comma s : valid_format_iface s = true -> no_sep "," s.
Proof.
  intros [_ H]%andb_prop. unfold no_sep. induction s as [|c s IH]; [done|]. cbn in *. apply andb_prop in H as [Hc H].
  rewrite IH by done. destruct (Ascii.eqb_spec c ",") as [->|]; done.
Qed.
Lemma label_no_comma s : valid_disk_label s = true -> no_sep "," s.
Proof.
  intros [_ H]%andb_prop. unfold no_sep. induction s as [|c s IH]; [done|]. cbn in *. apply andb_prop in H as [Hc H].
  rewrite IH by done. destruct (Ascii.eqb_spec c ",") as [->|]; done.
Qed.
Lemma pretty_nat_no_comma (n : nat) : no_sep "," (pretty n).
Proof. apply (pretty_no_sep "," (N.of_nat n)). done. Qed.

(** * The drives *)

(** The options that are meant for a drive, in the order of the command line. *)
Definition discard_option (d : backend_direct_data) (drv : drive) : list string :=
  match drv_discard drv with
  | discard_disable => []
  | _ => if (1 <? bd_qemu_version_major d) || ((bd_qemu_version_major d =? 1) && (5 <=? bd_qemu_version_minor d))
         then ["discard=unmap"] else []
  end.
Definition interface (drv : drive) : string :=
  match drv_iface drv with Some iface => if STREQ iface "virtio" then "none" else iface | None => "none" end.
Definition drive_wanted (d : backend_direct_data) (i : nat) (drv : drive) (file : string) : list string :=
  match drv_overlay drv with
  | None =>
      ["file=" +:+ file] ++ (if drv_readonly drv then ["snapshot=on"] else []) ++
      ["cache=" +:+ default "writeback" (drv_cachemode drv)] ++ discard_option d drv ++
      opt_entry "format" (src_format (drv_src drv)) ++ opt_entry "serial" (drv_disk_label drv) ++
      (if drv_copyonread drv then ["copy-on-read=on"] else []) ++ ["id=hd" +:+ pretty i; "if=" +:+ interface drv]
  | Some overlay =>
      ["file=" +:+ overlay; "cache=unsafe"; "format=qcow2"] ++ opt_entry "serial" (drv_disk_label drv) ++
      ["id=hd" +:+ pretty i; "if=" +:+ interface drv]
  end.

(** The values given to an option, of arguments that all are an option with its value. *)
Fixpoint option_values (opt : string) (argv : list string) : list string :=
  match argv with
  | a :: v :: rest => (if STREQ a opt then [v] else []) ++ option_values opt rest
  | _ => []
  end.
(** The drives with the numbers of their slots. *)
Fixpoint slots (i : nat) (drives : list (option drive)) : list (nat * drive) :=
  match drives with
  | [] => []
  | None :: drives' => slots (S i) drives'
  | Some drv :: drives' => (i, drv) :: slots (S i) drives'
  end.
(** The device that a drive is behind, unless qemu attaches it by itself. *)
Definition device_wanted (virtio_scsi : bool) '((i, drv) : nat * drive) : option string :=
  match drv_iface drv with
  | None => Some ((if virtio_scsi then "scsi-hd" else VIRTIO_BLK) +:+ ",drive=hd" +:+ pretty i)
  | Some iface => if STREQ iface "virtio" then Some (VIRTIO_BLK +:+ ",drive=hd" +:+ pretty i) else None
  end.

Section drives.
Context (realpath : string -> Z + string) (xmlSaveUri : xmlURI -> option string).
#[local] Notation param_of := (guestfs___drive_source_qemu_param realpath xmlSaveUri).

(** What the drive is called, for a drive without an overlay. *)
Definition named (drv : drive) (file : string) : Prop :=
  drv_overlay drv = None -> exists s, fst (param_of (drv_src drv) s) = Ret (Some file).

Lemma opt_param_more key v : no_sep "," key -> match v with Some v => no_sep "," v | None => True end ->
  opt_param ("," +:+ key +:+ "=") v = more_opts (opt_entry key v).
Proof.
  intros Hk Hv. destruct v as [v|]; [|done]. cbn [opt_param opt_entry]. rewrite more_opt; [by rewrite !str_app_assoc|].
  rewrite !no_sep_app. split_and!; done.
Qed.

(** The options of a drive that was accepted have no stray commas. *)
Lemma drive_no_commas drv : drive_ok drv ->
  match src_format (drv_src drv) with Some f => no_sep "," f | None => True end /\
  match drv_disk_label drv with Some l => no_sep "," l | None => True end /\
  no_sep "," (default "writeback" (drv_cachemode drv)) /\ no_sep "," (interface drv) /\ interface drv <> "".
Proof.
  intros [[Hf Hi Hl Hc] _ _ _ _]. split_and!.
  - destruct (src_format (drv_src drv)); [|done]. by apply valid_no_comma, negb_false_iff.
  - destruct (drv_disk_label drv); [|done]. by apply label_no_comma, negb_false_iff.
  - destruct (drv_cachemode drv) as [c|]; [|done]. cbn in *. apply negb_false_iff, orb_prop in Hc.
    unfold STREQ in Hc. by destruct Hc as [->%bool_decide_eq_true| ->%bool_decide_eq_true].
  - unfold interface. destruct (drv_iface drv) as [i|]; [|done]. destruct (STREQ i "virtio"); [done|]. by apply valid_no_comma, negb_false_iff.
  - unfold interface. destruct (drv_iface drv) as [i|]; [|done]. destruct (STREQ i "virtio"); [done|]. intros ->. done.
Qed.

Lemma opt_entry_readable key v : readable_opt key -> Forall readable_opt (opt_entry key v).
Proof.
  intros [H1 H2]. destruct v as [v|]; [|constructor]. repeat constructor; destruct key; done.
Qed.
Lemma wanted_readable d i drv file : Forall readable_opt (drive_wanted d i drv file).
Proof.
  assert (forall k, readable_opt (String "f" k)) by done.
  unfold drive_wanted, discard_option. destruct (drv_overlay drv); rewrite ?Forall_app; split_and!;
    repeat match goal with
    | |- Forall _ (opt_entry _ _) => by apply opt_entry_readable
    | |- Forall _ (match ?x with _ => _ end) => destruct x
    | |- Forall _ [] => constructor
    | |- Forall _ (_ :: _) => constructor; [done|]
    end.
Qed.

(** The text of the options is what is meant, each written with doubled commas. *)
Definition written (param : string) (opts : list string) : Prop :=
  exists a l, opts = a :: l /\ param = escape_commas a +:+ more_opts l.
Lemma written_reads param opts : written param opts -> Forall readable_opt opts -> qemu_opts param = opts.
Proof. intros (a & l & -> & ->). apply qemu_reads. Qed.

(** Deciding on discard leaves what is known of qemu. *)
Lemma discard_possible_run drv v s : exists b s', guestfs___discard_possible drv v s = (Ret b, s') /\ b_data s' = b_data s.
Proof.
  unfold guestfs___discard_possible, no_discard.
  repeat match goal with |- context [(match ?x with _ => _ end) s] => destruct x end;
    eexists _, _; (split; [reflexivity|done]).
Qed.
Lemma drive_discard_run drv s : exists mode s', drive_discard_mode drv s = (Ret mode, s') /\ b_data s' = b_data s /\
  match mode with Some m => m = more_opts (discard_option (b_data s) drv) | None => drv_discard drv = discard_enable end.
Proof.
  unfold drive_discard_mode, dat, discard_option. rewrite !bind_gets.
  destruct (drv_discard drv); [by eexists _, s| |eexists _, s; split_and!; [reflexivity|done|by destruct (_ || _)]].
  destruct (discard_possible_run drv (version_number (bd_qemu_version_major (b_data s)) (bd_qemu_version_minor (b_data s))) s)
    as (b & s' & E & Hd).
  rewrite (bind_Ret _ _ _ _ _ E). eexists _, s'. split_and!; [reflexivity|done|]. destruct b; [by destruct (_ || _)|done].
Qed.

Lemma more_snapshot (b : bool) : more_opts (if b then ["snapshot=on"] else []) = if b then ",snapshot=on" else "".
Proof. by destruct b. Qed.
Lemma more_copyonread (b : bool) : more_opts (if b then ["copy-on-read=on"] else []) = if b then ",copy-on-read=on" else "".
Proof. by destruct b. Qed.
Lemma more_id i iface : no_sep "," iface ->
  more_opts ["id=hd" +:+ pretty (i : nat); "if=" +:+ iface] = ",id=hd" +:+ pretty i +:+ ",if=" +:+ iface.
Proof.
  intros Hi. change ["id=hd" +:+ pretty i; "if=" +:+ iface] with (["id=hd" +:+ pretty i] ++ ["if=" +:+ iface]).
  rewrite more_opts_app, !more_opt; [rewrite !str_app_assoc; reflexivity| |]; rewrite no_sep_app; (split; [done|]);
    [done|apply pretty_nat_no_comma].
Qed.

Lemma written_plain d i drv file : drive_ok drv -> drv_overlay drv = None ->
  written (("file=" +:+ qemu_escape_param file +:+
            (if drv_readonly drv then ",snapshot=on" else "") +:+
            ",cache=" +:+ default "writeback" (drv_cachemode drv) +:+ more_opts (discard_option d drv) +:+
            opt_param ",format=" (src_format (drv_src drv)) +:+ opt_param ",serial=" (drv_disk_label drv) +:+
            (if drv_copyonread drv then ",copy-on-read=on" else "") +:+ ",id=hd" +:+ pretty i) +:+ ",if=" +:+ interface drv)
          (drive_wanted d i drv file).
Proof.
  intros Hok Ho. destruct (drive_no_commas drv Hok) as (Hf & Hl & Hc & Hi & _). unfold drive_wanted. rewrite Ho.
  eexists _, _. split; [reflexivity|]. rewrite !more_opts_app, more_snapshot, more_copyonread, (more_id i _ Hi).
  rewrite more_opt by (by rewrite no_sep_app). rewrite <- !opt_param_more by done.
  rewrite escape_commas_app, !str_app_assoc. done.
Qed.
Lemma written_overlay d i drv overlay : drive_ok drv -> drv_overlay drv = Some overlay ->
  written (("file=" +:+ qemu_escape_param overlay +:+ ",cache=unsafe,format=qcow2" +:+
            opt_param ",serial=" (drv_disk_label drv) +:+ ",id=hd" +:+ pretty i) +:+ ",if=" +:+ interface drv)
          (drive_wanted d i drv "").
Proof.
  intros Hok Ho. destruct (drive_no_commas drv Hok) as (_ & Hl & _ & Hi & _). unfold drive_wanted. rewrite Ho.
  eexists _, (["cache=unsafe"; "format=qcow2"] ++ _). split; [reflexivity|].
  rewrite !more_opts_app, (more_id i _ Hi), <- opt_param_more by done.
  rewrite escape_commas_app, !str_app_assoc. done.
Qed.

(** The parameter of one drive, with its interface. *)
Definition param_ok (d : backend_direct_data) (i : nat) (drv : drive) (param : string) : Prop :=
  exists file, named drv file /\ written (param +:+ ",if=" +:+ interface drv) (drive_wanted d i drv file).
Lemma drive_param_run i drv s : drive_ok drv -> drive_launchable realpath xmlSaveUri drv ->
  match drive_param realpath xmlSaveUri i drv s with
  | (Ret (Some param), s') => b_data s' = b_data s /\ param_ok (b_data s) i drv param
  | (Ret None, _) => drv_overlay drv = None /\ drv_discard drv = discard_enable
  | (Stop _, _) => False
  end.
Proof.
  intros Hok Hl. unfold drive_param. destruct (drv_overlay drv) as [overlay|] eqn:Eo.
  { split; [done|]. exists "". split; [intros ?; congruence|by apply written_overlay]. }
  destruct (drive_discard_run drv s) as (mode & s1 & E1 & Hd1 & Hm). rewrite (bind_Ret _ _ _ _ _ E1).
  destruct mode as [mode|]; [|done]. subst mode.
  destruct (Hl Eo s1) as (file & Hp). destruct (param_of_run realpath xmlSaveUri (drv_src drv) s1) as (o & s2 & E2 & Hs2).
  rewrite E2 in Hp. cbn in Hp. subst o. rewrite (bind_Ret _ _ _ _ _ E2).
  split; [rewrite <- Hd1; by destruct Hs2 as [->|(? & ? & ->)]|].
  exists file. split; [intros _; exists s1; by rewrite E2|by apply written_plain].
Qed.

Lemma iface_drive vs i drv param rest :
  option_values "-drive" (iface_args vs i drv param ++ rest) = (param +:+ ",if=" +:+ interface drv) :: option_values "-drive" rest.
Proof. unfold iface_args, interface. destruct (drv_iface drv) as [iface|]; [destruct (STREQ iface "virtio")|destruct vs]; done. Qed.
Lemma iface_device vs i drv param rest :
  option_values "-device" (iface_args vs i drv param ++ rest) =
  option_list (device_wanted vs (i, drv)) ++ option_values "-device" rest.
Proof. unfold iface_args, device_wanted. destruct (drv_iface drv) as [iface|]; [destruct (STREQ iface "virtio")|destruct vs]; done. Qed.

(** What qemu reads for one drive is what is meant for it. *)
Definition drive_read (d : backend_direct_data) '((i, drv) : nat * drive) (opts : list string) : Prop :=
  exists file, named drv file /\ opts = drive_wanted d i drv file.
Definition args_read (vs : bool) (d : backend_direct_data) (l : list (nat * drive)) (argv : list string) : Prop :=
  Forall2 (drive_read d) l (qemu_opts <$> option_values "-drive" argv) /\
  option_values "-device" argv = omap (device_wanted vs) l.

Lemma args_read_cons vs d i drv l param rest : param_ok d i drv param -> args_read vs d l rest ->
  args_read vs d ((i, drv) :: l) (iface_args vs i drv param ++ rest).
Proof.
  intros (file & Hn & Hw) [H1 H2]. split.
  - rewrite iface_drive, fmap_cons. constructor; [|done]. exists file. split; [done|].
    apply written_reads; [done|apply wanted_readable].
  - rewrite iface_device, H2. cbn [omap list_omap]. by destruct (device_wanted vs (i, drv)).
Qed.

Lemma drives_args_run vs : forall drives i s, drives_ok drives ->
  Forall (drive_launchable realpath xmlSaveUri) (omap id drives) ->
  match drives_args realpath xmlSaveUri vs i drives s with
  | (Ret (Some argv), s') => b_data s' = b_data s /\ args_read vs (b_data s) (slots i drives) argv
  | (Ret None, _) => exists drv, Some drv ∈ drives /\ drv_overlay drv = None /\ drv_discard drv = discard_enable
  | (Stop _, _) => False
  end.
Proof.
  induction drives as [|[drv|] drives IH]; intros i s Hok Hl; cbn [drives_args slots].
  - split; [done|]. by split; [constructor|].
  - apply Forall_cons in Hok as [Hok Hoks]. apply Forall_cons in Hl as [Hl Hls].
    pose proof (drive_param_run i drv s Hok Hl) as H. unfold bind at 1.
    destruct (drive_param _ _ i drv s) as [[[param|]|w] s1]; [| |done].
    + destruct H as [Hd Hp]. specialize (IH (S i) s1 Hoks Hls). unfold bind.
      destruct (drives_args _ _ vs (S i) drives s1) as [[[rest|]|w] s2]; [| |done].
      * destruct IH as [Hd2 Hr]. split; [congruence|]. rewrite Hd in Hr. by apply args_read_cons.
      * destruct IH as (d & Hin & ? & ?). exists d. split_and!; [by right|done|done].
    + exists drv. destruct H. split_and!; [left|done|done].
  - apply Forall_cons in Hok as [_ Hoks]. specialize (IH (S i) s Hoks Hl).
    destruct (drives_args _ _ vs (S i) drives s) as [[[rest|]|w] s2]; [done| |done].
    destruct IH as (d & Hin & ? & ?). exists d. split_and!; [by right|done|done].
Qed.

(** C15: The command line tells qemu of every drive what was asked for. For drives that were
    accepted and whose sources can be named, the loop over the drives returns; unless discard
    was demanded of a drive, it returns arguments from which qemu, which ends an option at a
    single comma, reads for the drives in their order exactly the options meant for them,
    whatever commas are in the names of files, hosts and URIs; and the devices are those of the
    drives that need one, each naming the drive by the number of its slot. *)
Theorem drives_args_read vs drives s : drives_ok drives ->
  Forall (drive_launchable realpath xmlSaveUri) (omap id drives) ->
  match drives_args realpath xmlSaveUri vs 0 drives s with
  | (Ret (Some argv), s') => b_data s' = b_data s /\ args_read vs (b_data s) (slots 0 drives) argv
  | (Ret None, _) => exists drv, Some drv ∈ drives /\ drv_overlay drv = None /\ drv_discard drv = discard_enable
  | (Stop _, _) => False
  end.
Proof. apply drives_args_run. Qed.
End drives.

(** * Examples *)

Definition ex_ready : bstate := ex_bstate <| b_data; bd_qemu_version_major := 2 |>.
Definition ex_overlay : drive :=
  mk_drive (mk_source drive_protocol_file (Some "raw") "/home/c.img" [] None None) (Some "/tmp/l/overlay1") true (Some "virtio")
    None None None discard_disable false.
Definition ex_drives : list (option drive) := [Some ex_disk; None; Some ex_overlay].

Lemma drives_args_read_witness :
  args_read (fun p => inr ("/home/" +:+ p)) (fun _ => None) true (b_data ex_ready) [(0%nat, ex_disk); (2%nat, ex_overlay)]
    ["-drive"; "file=/home/a,,b.img,cache=writeback,discard=unmap,format=raw,serial=DISK,id=hd0,if=none";
     "-device"; "scsi-hd,drive=hd0";
     "-drive"; "file=/tmp/l/overlay1,cache=unsafe,format=qcow2,id=hd2,if=none"; "-device"; VIRTIO_BLK +:+ ",drive=hd2"].
Proof.
  assert (drives_ok ex_drives) as Hok.
  { repeat constructor; try discriminate; by eexists. }
  assert (Forall (drive_launchable (fun p => inr ("/home/" +:+ p)) (fun _ => None)) (omap id ex_drives)) as Hl.
  { repeat constructor; intros Ho s; [by eexists|discriminate]. }
  pose proof (drives_args_read (fun p => inr ("/home/" +:+ p)) (fun _ => None) true ex_drives ex_ready Hok Hl) as H.
  vm_compute in H |- *. exact (proj2 H).
Defined.

(** Without virtio-scsi a disk with the interface virtio is the first disk, and so is the
    appliance by its name: both are virtio-blk devices. *)
Example appliance_dev_shared :
  make_appliance_dev false [Some ex_overlay] = "/dev/vda" /\
  device_wanted false (0%nat, ex_overlay) = Some (VIRTIO_BLK +:+ ",drive=hd0").
Proof. by split. Qed.
