(* ===== verification/ApplianceSpec.v ===== *)
(** Which appliance is used: the first directory of the search path that has
    the files of the kind looked for, and of the cached appliance that its
    directory cannot have been prepared by another user. *)

From S2P Require Import Procs Regex Inspect Prelude Xdr Protocol Handle Events Conn LibProto Utils Config Lifecycle Drives Command Create Backend Appliance Direct DirectSafe DirectLaunch.
From Stdlib Require Import Ascii.
Local Open Scope Z_scope.

(** * The search path *)

(** An empty last element, what follows a final separator, is not searched. *)
Fixpoint drop_final_empty (l : list string) : list string :=
  match l with
  | [] => []
  | [e] => if STREQ e "" then [] else [e]
  | e :: l' => e :: drop_final_empty l'
  end.
Definition path_elements (path : string) : list string :=
  (fun e => if STREQ e "" then "." else e) <$>
  match split_loop (String.length path) PATH_SEPARATOR path with
  | [] => []
  | e :: l => e :: drop_final_empty l
  end.

(** The first element for which [pred] is not 0, given up at a -1. *)
Fixpoint first_match (pred : string -> Z) (l : list string) : Z * option string :=
  match l with
  | [] => (0, None)
  | e :: l' =>
      if pred e =? -1 then (-1, None) else if pred e =? 0 then first_match pred l' else (1, Some e)
  end.

Lemma drop_final_cons e l : l <> [] -> drop_final_empty (e :: l) = e :: drop_final_empty l.
Proof. by destruct l. Qed.
Lemma split_loop_nonempty fuel sep s : split_loop fuel sep s <> [].
Proof. destruct fuel; cbn [split_loop]; destruct (strcspn sep s) as [p [|c r]]; done. Qed.
Lemma find_path_loop_elements pred : forall fuel path, (String.length path <= fuel)%nat ->
  find_path_loop fuel pred path =
  first_match pred ((fun e => if STREQ e "" then "." else e) <$>
    match split_loop fuel PATH_SEPARATOR path with [] => [] | e :: l => e :: drop_final_empty l end).
Proof.
  induction fuel as [|fuel IH]; intros path Hl.
  { destruct path; [|cbn in Hl; lia]. cbn. generalize (if STREQ "" "" then "." else ""). intros dir.
    by destruct (pred dir =? -1), (pred dir =? 0). }
  cbn [find_path_loop split_loop]. destruct (strcspn PATH_SEPARATOR path) as [elem rest] eqn:E.
  apply strcspn_spec in E as (-> & _ & _). rewrite str_length_app in Hl.
  set (dir := if STREQ elem "" then "." else elem).
  destruct rest as [|c rest]; cbn [String.length] in Hl.
  { cbn. fold dir. by destruct (pred dir =? -1), (pred dir =? 0). }
  cbn [fmap list_fmap first_match]. fold dir. destruct (pred dir =? -1); [done|].
  destruct (pred dir =? 0); [|done]. cbn [negb]. destruct rest as [|c' rest].
  { by destruct fuel. }
  rewrite IH by (cbn [String.length] in *; lia). f_equal. f_equal.
  destruct fuel as [|fuel]; [cbn in Hl; lia|]. cbn [split_loop].
  destruct (strcspn PATH_SEPARATOR (String c' rest)) as [p [|c2 r2]] eqn:E.
  - apply strcspn_spec in E as (E & _ & _). rewrite str_app_nil_r in E. by subst p.
  - by rewrite drop_final_cons by apply split_loop_nonempty.
Qed.
Lemma find_path_elements pred path : find_path pred path = first_match pred (path_elements path).
Proof. by apply find_path_loop_elements. Qed.

(** * The appliance *)

(** Every file can be read in the directory. *)
Definition has_files (access_ok : string -> bool) (files : list string) (dir : string) : bool :=
  forallb (fun f => access_ok (dir +:+ "/" +:+ f)) files.
Definition searched (access_ok : string -> bool) (files : list string) (path : string) : option string :=
  List.find (has_files access_ok files) (path_elements path).

Lemma dir_contains_has access_ok dir files : dir_contains_files access_ok dir files = if has_files access_ok files dir then 1 else 0.
Proof.
  induction files as [|f files IH]; [done|]. cbn [dir_contains_files has_files forallb]. unfold dir_contains_file.
  destruct (access_ok _); [exact IH|done].
Qed.
Lemma find_path_files access_ok files path :
  find_path (fun dir => dir_contains_files access_ok dir files) path =
  match searched access_ok files path with Some p => (1, Some p) | None => (0, None) end.
Proof.
  rewrite find_path_elements. unfold searched. induction (path_elements path) as [|e l IH]; [done|].
  cbn [first_match List.find]. rewrite dir_contains_has. by destruct (has_files access_ok files e).
Qed.

(** ** The names in the cache directory are not cut off *)

Lemma pretty_go_length k : forall x s, (x < 10 ^ N.of_nat k)%N ->
  (String.length (pretty_N_go x s) <= k + String.length s)%nat.
Proof.
  induction k as [|k IH]; intros x s Hx.
  { rewrite N.pow_0_r in Hx. replace x with 0%N by lia. by rewrite pretty_N_go_0. }
  destruct (decide (x = 0)%N) as [->|Hn]; [rewrite pretty_N_go_0; lia|]. rewrite pretty_N_go_step by lia.
  etransitivity; [apply IH|cbn [String.length]; lia].
  apply N.Div0.div_lt_upper_bound. by rewrite Nat2N.inj_succ, N.pow_succ_r' in Hx.
Qed.
Lemma pretty_N_length (x : N) : (x < 10 ^ 10)%N -> (String.length (pretty x) <= 10)%nat.
Proof.
  intros H. unfold pretty, pretty_N. case_decide; [cbn; lia|].
  etransitivity; [by apply (pretty_go_length 10)|cbn; lia].
Qed.
Lemma pretty_s32_length z : (String.length (pretty (s32 z)) <= 11)%nat.
Proof.
  assert (- 10 ^ 10 < s32 z < 10 ^ 10) as H.
  { unfold s32. pose proof (Z.mod_pos_bound z (2 ^ 32) eq_refl). cbv zeta. destruct (Z.ltb_spec (z mod 2 ^ 32) (2 ^ 31)); lia. }
  destruct (s32 z) as [|p|p]; [cbn; lia| |]; cbn [pretty pretty_Z].
  - etransitivity; [apply (pretty_N_length (Npos p)); lia|lia].
  - rewrite str_length_app. change (pretty p) with (pretty (Npos p)).
    pose proof (pretty_N_length (Npos p) ltac:(lia)). cbn [String.length]. lia.
Qed.

(** ** Building *)

(** The directory in which the appliance of a user is cached. *)
Definition cache_directory (tmpdir : string) (uid : Z) : string := tmpdir +:+ "/.guestfs-" +:+ pretty (s32 uid).
(** Nobody else can write to it. *)
Record private_dir (uid : Z) (st : lstat_info) : Prop := {
  private_owner : st_uid st = uid;
  private_type : S_ISDIR (st_mode st) = true;
  private_group : Z.testbit (st_mode st) 4 = false;
  private_other : Z.testbit (st_mode st) 1 = false
}.
Lemma cachedir_private cachedir uid st : cachedir_error cachedir uid st = None -> private_dir uid st.
Proof.
  unfold cachedir_error. destruct (Z.eqb_spec (st_uid st) uid) as [E1|]; [|done]. destruct (S_ISDIR _) eqn:E2; [|done].
  destruct (Z.eqb_spec (Z.land (st_mode st) 18) 0) as [E3|]; [|done]. intros _.
  assert (forall i, Z.testbit 18 i = true -> Z.testbit (st_mode st) i = false) as H.
  { intros i Hi. apply (f_equal (fun z => Z.testbit z i)) in E3. by rewrite Z.land_spec, Hi, andb_true_r, Z.bits_0 in E3. }
  by split; [| |apply H|apply H].
Qed.
Lemma private_cachedir cachedir uid st : private_dir uid st -> cachedir_error cachedir uid st = None.
Proof.
  intros [H1 H2 H3 H4]. unfold cachedir_error. rewrite H1, H2, Z.eqb_refl. cbn [negb].
  replace (Z.land (st_mode st) 18) with 0; [done|]. apply Z.bits_inj'. intros i Hi. rewrite Z.bits_0, Z.land_spec.
  destruct (Z.ltb_spec i 5) as [Hlt|Hge]; [|by rewrite (Z.bits_above_log2 18 i), andb_false_r by (cbn; lia)].
  assert (i = 0 \/ i = 1 \/ i = 2 \/ i = 3 \/ i = 4) as Hc by lia.
  destruct Hc as [->|[->|[->|[->| ->]]]]; rewrite ?H3, ?H4, ?andb_false_r; done.
Qed.

Section build.
Context (strsignal : Z -> string) (access_ok : string -> bool) (lstat : string -> Z + lstat_info)
        (geteuid : Z) (SUPERMIN : string).
#[local] Notation searched := (searched access_ok).

Definition nothing : appliance_files := mk_appliance None None None None.
Definition cached_files (cachedir : string) : appliance_files :=
  mk_appliance (Some (cachedir +:+ "/appliance.d/kernel")) None (Some (cachedir +:+ "/appliance.d/initrd"))
    (Some (cachedir +:+ "/appliance.d/root")).
(** The command that has the appliance [p] built. *)
Definition supermin_command (verbose : bool) (cachedir p : string) : list string :=
  [SUPERMIN; "--build"] ++ (if verbose then ["--verbose"] else []) ++
  ["--if-newer"; "--lock"; cachedir +:+ "/lock"; "--copy-kernel"; "-f"; "ext2"; "--host-cpu"; host_cpu;
   p +:+ "/supermin.d"; "-o"; cachedir +:+ "/appliance.d"].
(** What the supermin branch returns: the cache directory is tested, and the next program that is
    run is supermin, whose exit status decides. *)
Definition supermin_result (s : bstate) (cachedir p : string) (x : Z * appliance_files) : Prop :=
  match lstat cachedir with
  | inl _ => x = (0, nothing)
  | inr st =>
      (~ private_dir geteuid st -> x = (-1, nothing)) /\
      (private_dir geteuid st -> exists s1 status s2, calm s s1 /\ b_runs s1 = b_runs s /\
         run_program tt (add_args (supermin_command (verbose (g_cfg (b_g s))) cachedir p)) s1 = (Ret (status, tt), s2) /\
         x = if exited_0 status then (0, cached_files cachedir) else (-1, nothing))
  end.
(** The result for a search path. *)
Definition chosen (s : bstate) (path cachedir : string) (x : Z * appliance_files) : Prop :=
  match searched ["supermin.d"] path with
  | Some p => supermin_result s cachedir p x
  | None =>
      match searched ["README.fixed"; "kernel"; "initrd"; "root"] path with
      | Some p =>
          x = (0, mk_appliance (Some (p +:+ "/kernel")) (if access_ok (p +:+ "/dtb") then Some (p +:+ "/dtb") else None)
                    (Some (p +:+ "/initrd")) (Some (p +:+ "/root")))
      | None =>
          x = match searched [kernel_name; initrd_name] path with
              | Some p => (0, mk_appliance (Some (p +:+ "/" +:+ kernel_name)) None (Some (p +:+ "/" +:+ initrd_name)) None)
              | None => (-1, nothing)
              end
      end
  end.

#[local] Notation calmly := (calmly True).
Lemma calms_then {A B} (m : dm A) (f : A -> dm B) Q : calms True m -> (forall a, calmly (fun _ => True) (f a) Q) ->
  calmly (fun _ => True) (bind m f) Q.
Proof. intros Hm Hf. by eapply calmly_bind. Qed.

Lemma calmly_run {A} (m : dm A) (Q : A -> Prop) s s1 : calm s s1 -> runs_ok True s1 -> calmly (fun _ => True) m (fun a _ => Q a) ->
  match m s1 with (Ret a, s') => calm s s' /\ Q a | (Stop _, _) => False end.
Proof.
  intros Hc Hr Hm. specialize (Hm s1 Hr I). destruct (m s1) as [[a|w] s']; [|by apply Hm].
  destruct Hm as (_ & Hc' & Hq). split; [by transitivity s1|done].
Qed.

Lemma get_cachedir_run s : runs_ok True s -> exists s',
  on_h guestfs_get_cachedir s = (Ret (Some (guestfs__get_cachedir (b_g s))), s') /\ calm s s' /\ b_runs s' = b_runs s.
Proof.
  intros Hr. unfold on_h, zoom, guestfs_get_cachedir.
  destruct (api_spec "get_cachedir" "" (gets (fun g => Some (guestfs__get_cachedir g))) (b_g s)) as (o1 & o2 & ->).
  eexists. split; [reflexivity|]. split; [by split|done].
Qed.
(** No name is longer than the 128 bytes that are added to the length of the directory. *)
Lemma cache_name tmpdir suffix : (String.length suffix <= 40)%nat ->
  snprintf (String.length tmpdir + 128) (cache_directory tmpdir geteuid +:+ suffix) = cache_directory tmpdir geteuid +:+ suffix.
Proof.
  intros H. apply snprintf_id. unfold cache_directory. rewrite !str_length_app. pose proof (pretty_s32_length geteuid).
  cbn [String.length]. lia.
Qed.

Lemma run_supermin_run cachedir p s : runs_ok True s -> exists status s1 s2,
  run_program tt (add_args (supermin_command (verbose (g_cfg (b_g s))) cachedir p)) s = (Ret (status, tt), s1) /\
  run_supermin_build strsignal SUPERMIN (cachedir +:+ "/lock") (cachedir +:+ "/appliance.d") p s =
    (Ret (if exited_0 status then 0 else -1), s2) /\ calm s s2 /\ runs_ok True s2.
Proof.
  intros Hr. unfold run_supermin_build, cfg. rewrite bind_gets.
  match goal with |- context [bind (run_program tt (add_args ?l)) _ s] =>
    pose proof (calms_run_args True tt SUPERMIN (tail l) s Hr I) as Hc;
    change (add_args l) with (add_args (D := unit) (supermin_command (verbose (g_cfg (b_g s))) cachedir p)) end.
  change (SUPERMIN :: tail _) with (supermin_command (verbose (g_cfg (b_g s))) cachedir p) in Hc. unfold bind at 1.
  destruct (run_program tt _ s) as [[[status []]|w] s1]; [|by destruct Hc]. destruct Hc as (Hr1 & Hc1 & _).
  destruct (Z.eqb_spec status (-1)) as [->|Hne]; [by eexists _, s1, s1|].
  destruct (exited_0 status) eqn:Ex; cbn [negb]; [eexists _, s1, s1; by rewrite Ex|].
  pose proof (calmly_failed True (fun _ => True) strsignal status SUPERMIN s1 Hr1 I) as Hf. unfold bind.
  destruct (external_command_failed strsignal status SUPERMIN s1) as [[[]|w] s2]; [|by destruct Hf].
  destruct Hf as (Hr2 & Hc2 & _). exists status, s1, s2. rewrite Ex. split_and!; [done|done|by transitivity s1|done].
Qed.

Lemma build_supermin_run p s : runs_ok True s ->
  match build_supermin_appliance strsignal lstat SUPERMIN p geteuid s with
  | (Ret x, s') => calm s s' /\ supermin_result s (cache_directory (guestfs__get_cachedir (b_g s)) geteuid) p x
  | (Stop _, _) => False
  end.
Proof.
  intros Hr. destruct (get_cachedir_run s Hr) as (s1 & E & Hc & Hr1). unfold build_supermin_appliance.
  rewrite (bind_Ret _ _ _ _ _ E). cbn [default from_option id]. cbv zeta. set (tmpdir := guestfs__get_cachedir (b_g s)).
  assert (snprintf (String.length tmpdir + 128) (tmpdir +:+ "/.guestfs-" +:+ pretty (s32 geteuid)) = cache_directory tmpdir geteuid) as ->.
  { pose proof (cache_name tmpdir "" ltac:(cbn; lia)) as H. by rewrite str_app_nil_r in H. }
  rewrite (cache_name tmpdir "/appliance.d"), (cache_name tmpdir "/lock") by (cbn; lia).
  rewrite !(str_app_assoc (cache_directory tmpdir geteuid) "/appliance.d").
  rewrite (cache_name tmpdir ("/appliance.d" +:+ "/kernel")), (cache_name tmpdir ("/appliance.d" +:+ "/initrd")),
    (cache_name tmpdir ("/appliance.d" +:+ "/root")) by (by apply Nat.leb_le).
  set (cachedir := cache_directory tmpdir geteuid). unfold did at 1 2. rewrite !bind_modify. set (s2 := s1 <| b_done ::= _ |> <| b_done ::= _ |>).
  assert (calm s s2) as C2 by (transitivity s1; [done|by split]). assert (runs_ok True s2) as R2 by (unfold runs_ok; cbn; by rewrite Hr1).
  unfold supermin_result. destruct (lstat cachedir) as [e|st]; [by split|].
  destruct (cachedir_error cachedir geteuid st) eqn:Ee.
  { apply (calmly_run _ (fun x => _)); [done|done|]. apply calms_then; [auto with calm|intros _]. apply calmly_ret. intros _ _.
    split; [done|]. intros Hp. by rewrite (private_cachedir cachedir) in Ee. }
  unfold did at 1. rewrite bind_modify. set (s3 := s2 <| b_done ::= _ |>).
  destruct (timestamped_run "begin building supermin appliance" s3) as (s4 & E4 & C4 & _ & B4). mstep E4.
  destruct (timestamped_run "run supermin" s4) as (s5 & E5 & C5 & _ & B5). mstep E5.
  assert (calm s s5) as C by (transitivity s2; [done|]; transitivity s4; [by transitivity s3; [by split|]|done]).
  assert (b_runs s5 = b_runs s) as B by (rewrite B5, B4; cbn; exact Hr1).
  destruct (run_supermin_run cachedir p s5) as (status & s6 & s7 & E6 & E7 & C7 & R7); [unfold runs_ok; by rewrite B|]. mstep E7.
  rewrite (quiet_cfg _ _ (calm_g _ _ C)) in E6.
  assert (forall y, y = (if exited_0 status then (0, cached_files cachedir) else (-1, nothing)) ->
    (~ private_dir geteuid st -> y = (-1, nothing)) /\
    (private_dir geteuid st -> exists s1 status s2, calm s s1 /\ b_runs s1 = b_runs s /\
       run_program tt (add_args (supermin_command (verbose (g_cfg (b_g s))) cachedir p)) s1 = (Ret (status, tt), s2) /\
       y = if exited_0 status then (0, cached_files cachedir) else (-1, nothing))) as Hend.
  { intros y Hy. split; [intros []; by eapply cachedir_private|]. intros _. by exists s5, status, s6. }
  destruct (exited_0 status); [|by split; [transitivity s5|apply Hend]]. change (0 =? -1) with false. cbv iota.
  apply calmly_run; [by transitivity s5|done|]. do 3 (apply calms_then; [auto with calm|intros _]).
  apply calms_then; [auto with calm|intros b]. apply calms_then; [destruct (STRNEQ _ _); auto with calm|intros _].
  apply calmly_ret. intros _ _. by apply Hend.
Qed.

End build.

Lemma ex_runs_ok : runs_ok True ex_bstate.
Proof.
  assert (forall k, ck_wait k = [] -> ck_pipe k = [] -> (exists pid, ck_fork k = inr pid) -> ck_select k = [] ->
    script_clean (ck_out k) = true -> run_ok True k) as H.
  { intros k E1 E2 E3 E4 E5. split; [intros e; rewrite E1; apply not_elem_of_nil|]. intros _. rewrite E2, E4.
    split_and!; [intros e; apply not_elem_of_nil|done|intros e He; by apply not_elem_of_nil in He|done]. }
  unfold runs_ok. cbn [b_runs ex_bstate]. repeat (apply Forall_cons; split; [apply H; try reflexivity; by eexists|]). by apply Forall_nil.
Qed.
Lemma ex_private : private_dir 1000 (mk_lstat 1000 16877).
Proof. by split. Qed.
